(* ===== verification/_CoqProject ===== *)
-Q . S2P
Prelude.v
Checksums.v
ByteStream.v
Fifo.v
LwipDef.v
InetChksum.v
IpAddr.v
Mem.v
Memp.v
Timers.v
Etharp.v
Igmp.v
TimeEvents.v
Scheduler.v
ThreadOps.v
ThreadStart.v
Semaphore.v
SyncFifo.v
Barrier.v
CommBuffer.v
SyncCommBuffer.v
RingBuffer.v
ByteStreamRing.v
StringPico.v
StdlibPico.v
Yprintf.v
Pbuf.v
Packet.v
IpFrag.v
Ip.v
Icmp.v
Udp.v
Raw.v
TcpDef.v
TcpOut.v
TcpIn.v
TcpWrite.v
TcpSend.v
TcpAck.v
TcpRecv.v
TcpStream.v
TcpSafe.v
Tcp.v
TcpInv.v
TcpInput.v
TcpUse.v
Stack.v
NetworkMessage.v
TopicListReport.v
Topic.v
Gateway.v
TopicRegister.v
LinkCan.v
S3p.v
