(* ===== verification/Prelude.v ===== *)
(** * A verification development of RODOS

    RODOS is a real-time operating system for embedded control, with a middleware
    for publish/subscribe messages and the lwIP protocol stack.  Its parts, and the
    files of this library that model them; each file names its sources.

    - Kernel (src/src/bare-metal-generic, src/src/independent): threads with fixed
      priorities and round robin among equals, time events called from the timer
      interrupt, semaphores with priority inheritance.  [TimeEvents]: the beats of
      timemodel.cpp, timeevent.cpp, the trigger of the timer.  [Scheduler]: the
      records of the threads and the state of the scheduler ([kernel]), selection,
      [schedule], [schedulerWrapper], [yield], [resume] and suspension
      (thread_on_hw.cpp, thread.cpp, scheduler.cpp).  [ThreadOps]: what these
      operations change for those who use them.  [Semaphore], [SyncFifo], [Barrier],
      [SyncCommBuffer]: the objects on which threads wait, each with the step
      relation of the threads that use it.  [ThreadStart]: stacks, their paint and
      measurement, [xmalloc] and the idle thread.
    - Containers and codecs: [Fifo] (api/fifo.h), [CommBuffer], [RingBuffer],
      [ByteStreamRing] (buffers between one writer and one reader), [Checksums]
      (checksumes.cpp), [ByteStream] (stream-bytesex), [Yprintf], [StringPico],
      [StdlibPico] (text output and the small C library).
    - Middleware: [NetworkMessage] (the packed message and its header),
      [TopicListReport], [Topic] (topics, subscribers, [publish]), [Gateway] (gateway
      and router), [TopicRegister] (the distributed topic register), and the links
      [LinkCan] (telegrams) and [S3p] (framing, UART).
    - IP stack (ip/lwip, without operating system, configured by lwipopts.h):
      [LwipDef], [InetChksum], [IpAddr], [Mem] (heap), [Memp] (pools), [Pbuf]
      (chains of packet buffers in memory), [Timers], [Etharp], [Igmp]; [Packet] (the
      IP layers' view of a packet: the value of its chain), [IpFrag] (fragmentation
      and reassembly), [Ip], [Icmp], [Udp], [Raw] and [Stack] (the transport
      protocols put together).
    - TCP: [TcpDef] (data), [TcpOut] (tcp_out.c) and [TcpIn] (tcp_receive and
      tcp_parseopt) work on one control block, [Tcp] (tcp.c and the rest of tcp_in.c)
      on all blocks, lists, timers and the calls of the application.  Theorems on
      the stream of one connection: [TcpWrite], [TcpSend], [TcpAck], [TcpRecv],
      [TcpStream].  Theorems on well-formedness in all states: [TcpSafe] (one block),
      [TcpInv] (all blocks), [TcpInput] (packets), [TcpUse] (calls).

    How they interact.  The timer interrupt enters [schedulerWrapper], which
    propagates the time events and runs the scheduler; semaphores, fifos and barriers
    suspend and resume threads through the operations of [Scheduler].  [publish]
    calls the subscribers of a topic one after the other; a gateway is a subscriber
    that puts the message into a [NetworkMessage] and hands it to its link; the
    gateway at the other end checks it and publishes it there, and routers pass it
    on.  [udp_sendto] hands a packet to [ip_output], which cuts it with [ip_frag];
    the receiver collects the fragments with [ip_reass], and [ip_input] gives the
    datagram to [raw_input], [udp_input], [icmp_input] or TCP.  Timeouts, ARP, IGMP,
    reassembly and the control blocks take their objects from pools.

    ** Interfaces

    [Memp.Pool] states what a memory pool promises; [Memp.Memp] proves it of the
    pools of the source, and [Timers], [Igmp], [IpFrag], [Udp], [Raw] and the files of
    TCP are proved against it.  [Pbuf.PbufMem] states what the allocators promise to
    the packet buffers, [Timers.Stack] what the timeouts need of the stack above
    them.  [Ip.Transport] is the transport protocols as [ip_input] calls them;
    [Stack.stack_transport] is its instance.  [Topic.SubscriberPut] is the virtual
    method [put] of the subscribers; [Gateway] implements it for a node.
    [NetworkMessage.codec] relates writing and reading of a field of the header.
    [TcpInv.app_ok] is the contract of an application's functions that TCP calls.

    ** How code is modelled

    Pure functions are Rocq functions, objects are records, operations that change
    an object return the new one; [Tcp] has a state monad with failure.  Machine
    integers are [Z] with the wrap-around of their type written out ([u8], [u16],
    [u32], [u64], [swrap]).  Signed overflow, accesses outside of a buffer, null
    pointers, blocks that are gone and loops that do not end have no result
    ([option]), so that a theorem that a result exists includes that none of them
    happens.  Linked lists in memory are maps from addresses to structures where
    sharing matters ([Mem], [Memp], [Pbuf], the blocks of [Udp], [Raw] and [Tcp]) and
    lists of the objects in list order elsewhere.  What is outside of the
    repository's functions is a parameter: the clock ([NOW n] is its [n]-th reading),
    random numbers, the functions of the user, drivers and links, uninitialised
    memory, whether the [n]-th allocation from the heap succeeds.  Calls of these and
    packets that go out are recorded as events.  Concurrency is explicit: containers
    are used by interleaved memory accesses of one writer and one reader, the users
    of a semaphore, fifo, barrier or buffer interleave at every point where the code
    lets another thread run, and the interrupts that can hit [yield] are arguments
    of it.

    Loops that are not structural run with fuel, which is never what ends them in a
    theorem: theorems state that a result is reached.  The fuel is the length of the
    list that the loop walks ([IpFrag.remove_loop], [LinkCan.receive_loop]), the size
    of the memory map, which bounds every chain without repetition ([Pbuf],
    [Mem.fuel]), the number of bytes that are left ([IpFrag.frag_loop], where one
    round takes at least eight), the width of a number ([Topic.bitMap_fuel] 32), the
    length of the format ([Yprintf.vaprintf]), the size of a stack in words
    ([ThreadStart.paint_fuel]), the number of ports (16384), and eight new segments
    for [TcpOut.write_loop], more than the queue takes.  [Timers.check_loop] takes the
    fuel as an argument and its theorem gives a sufficient amount; so does
    [Tcp.fast_loop], for which [Tcp.fast_loop_stuck] shows where no amount is enough.
    [Tcp.slow_active] starts again at most as often as there are blocks, since each
    is processed once.

    ** What the theorems show

    - Kernel: the selected thread is the best ready one and no wake-up time is
      missed; in a steady state no thread of the highest priority starves; [yield]
      hands over to the best thread; mutual exclusion, hand-over without lost wake-ups
      and restoration of the priorities of the semaphore; time events fire exactly
      when due and keep their phase.
    - Waiting objects: the synchronous fifo delivers in order without lost wake-ups,
      the barrier counts signals, a reader that waits on a buffer is woken by every
      put; the interleavings in which the flag of [SyncCommBuffer] is wrong are
      examples there.
    - Containers and codecs: the fifo refines a bounded queue and the byte ring a
      queue that forgets, also when writer and reader interleave; a buffer read is
      whole; CRC by table equals CRC by bits; serializers, numbers and strings are
      read back.
    - Middleware: what is published on one node reaches the subscribers of another
      one, once, through exactly the gateways that forward it; the table of seen nodes
      refines a map; messages are forwarded at most nine times over links that keep
      the header; CAN and S3P give back what was sent.
    - IP stack: checksum algorithms agree; the heap hands out disjoint regions; pools
      never hand out an element twice; packet buffers are freed exactly when
      unreferenced; timeouts refine absolute deadlines; ARP resolves addresses; IGMP
      counts memberships; fragments are reassembled, damaged headers dropped, pings
      answered; a datagram goes from [udp_sendto] on one host to the receive function
      on another.
    - TCP: [tcp_write] appends to the stream; over a network that loses and reorders
      packets each side gets a prefix of what the other one wrote; the announced
      window does not shrink; packets and calls keep the control blocks well-formed.

    Where the code does not do what is expected, the theorem states the condition
    under which it does, and a lemma or example beside it shows what happens
    otherwise.

    ** What is not modelled

    Vendor libraries and drivers (emlib, StdPeriph, CMSIS), the context switch in
    assembler (the change of the current thread stands for it) and the ports to host
    operating systems: their code is the hardware's or the host's.  Floating-point
    mathematics (calendar and UTC conversion, the matrix library).  Of the IP stack
    the clients DHCP, DNS and AutoIP, the administration of interfaces (netif.c),
    statistics and the serial line.  The links over UDP and shared memory only call
    their devices.  The order in which objects are registered at the start, and
    tests and tutorials.  The theorems on well-formedness of TCP do not cover its
    timers, whose functions are modelled in [Tcp].

    This file: machine integers, byte buffers and the shared automation. *)

From stdpp Require Export prelude.
From Stdlib Require Export ZArith Lia.

#[global] Open Scope Z_scope.

(** ** Machine integers

    A [w]-bit unsigned value is a [Z] in [0 .. 2^w - 1]; a conversion to an
    unsigned type of width [w] is reduction modulo [2^w], a conversion to a
    signed type of width [w] picks the representative in
    [-2^(w-1) .. 2^(w-1) - 1]. *)

Definition uwrap (w x : Z) : Z := x mod 2 ^ w.
Definition swrap (w x : Z) : Z := (x + 2 ^ (w - 1)) mod 2 ^ w - 2 ^ (w - 1).

Definition u8 (x : Z) : Z := x mod 256.
Definition u16 (x : Z) : Z := x mod 65536.
Definition u32 (x : Z) : Z := x mod 4294967296.
Definition u64 (x : Z) : Z := x mod 18446744073709551616.

Definition in_u8 (x : Z) : Prop := 0 <= x < 256.
Definition in_u16 (x : Z) : Prop := 0 <= x < 65536.
Definition in_u32 (x : Z) : Prop := 0 <= x < 4294967296.
Definition in_u64 (x : Z) : Prop := 0 <= x < 18446744073709551616.

(** Signed 64-bit arithmetic: a result outside the type has no value. *)
Definition in_i64 (x : Z) : Prop := -9223372036854775808 <= x < 9223372036854775808.
Definition i64 (x : Z) : option Z :=
  if (-9223372036854775808 <=? x) && (x <? 9223372036854775808) then Some x else None.

(** Byte buffers. *)
Definition bytes (l : list Z) : Prop := Forall in_u8 l.

Create HintDb rodos.

Ltac ints := unfold u8, u16, u32, u64, in_u8, in_u16, in_u32, in_u64 in *.
(** Linear goals with [/] and [mod] by constants. *)
Ltac zlia := ints; Z.div_mod_to_equations; lia.

Lemma u8_range x : in_u8 (u8 x).
Proof. zlia. Qed.
Lemma u16_range x : in_u16 (u16 x).
Proof. zlia. Qed.
Lemma u32_range x : in_u32 (u32 x).
Proof. zlia. Qed.
Lemma u64_range x : in_u64 (u64 x).
Proof. zlia. Qed.

Lemma u8_small x : in_u8 x -> u8 x = x.
Proof. apply Z.mod_small. Qed.
Lemma u16_small x : in_u16 x -> u16 x = x.
Proof. apply Z.mod_small. Qed.
Lemma u32_small x : in_u32 x -> u32 x = x.
Proof. apply Z.mod_small. Qed.
Lemma u64_small x : in_u64 x -> u64 x = x.
Proof. apply Z.mod_small. Qed.

Lemma i64_small x : in_i64 x -> i64 x = Some x.
Proof.
  unfold i64, in_i64. intros [? ?].
  by rewrite (proj2 (Z.leb_le _ _)), (proj2 (Z.ltb_lt _ _)) by lia.
Qed.

Lemma i64_Some x y : i64 x = Some y -> y = x /\ in_i64 x.
Proof.
  unfold i64, in_i64. destruct (Z.leb_spec (-9223372036854775808) x); [|done].
  destruct (Z.ltb_spec x 9223372036854775808); [|done]. intros [=]. lia.
Qed.

#[export] Hint Resolve u8_range u16_range u32_range u64_range : rodos.

(** Bits of a value below [2^w]. *)
Lemma testbit_above w x i : 0 <= x < 2 ^ w -> w <= i -> Z.testbit x i = false.
Proof.
  intros Hx Hi. destruct (Z.eq_dec x 0) as [->|]; [apply Z.testbit_0_l|].
  apply Z.bits_above_log2; [lia|].
  apply Z.lt_le_trans with w; [apply Z.log2_lt_pow2; lia | lia].
Qed.

Lemma u16_land x : u16 x = Z.land x 65535.
Proof. unfold u16. symmetry. apply (Z.land_ones x 16). lia. Qed.

Lemma u16_testbit x i : 0 <= i -> Z.testbit (u16 x) i = (i <? 16) && Z.testbit x i.
Proof.
  intros Hi. unfold u16. change 65536 with (2 ^ 16).
  destruct (Z.ltb_spec i 16).
  - by rewrite Z.mod_pow2_bits_low by lia.
  - by rewrite Z.mod_pow2_bits_high by lia.
Qed.
Lemma u8_testbit x i : 0 <= i -> Z.testbit (u8 x) i = (i <? 8) && Z.testbit x i.
Proof.
  intros Hi. unfold u8. change 256 with (2 ^ 8).
  destruct (Z.ltb_spec i 8).
  - by rewrite Z.mod_pow2_bits_low by lia.
  - by rewrite Z.mod_pow2_bits_high by lia.
Qed.
Lemma u32_testbit x i : 0 <= i -> Z.testbit (u32 x) i = (i <? 32) && Z.testbit x i.
Proof.
  intros Hi. unfold u32. change 4294967296 with (2 ^ 32).
  destruct (Z.ltb_spec i 32).
  - by rewrite Z.mod_pow2_bits_low by lia.
  - by rewrite Z.mod_pow2_bits_high by lia.
Qed.

(** An exhaustive check of a boolean property of the values [0 .. n-1]. *)
Definition all_below (n : nat) (P : Z -> bool) : bool :=
  forallb P (map Z.of_nat (seq 0 n)).

Lemma all_below_spec n P x :
  all_below n P = true -> 0 <= x < Z.of_nat n -> P x = true.
Proof.
  unfold all_below. rewrite forallb_forall. intros HP Hx. apply HP.
  apply in_map_iff. exists (Z.to_nat x). split; [lia|]. apply in_seq. lia.
Qed.

Lemma land_bit x k : 0 <= k -> Z.land x (2 ^ k) = if Z.testbit x k then 2 ^ k else 0.
Proof.
  intros Hk. apply Z.bits_inj'. intros i Hi.
  rewrite Z.land_spec, Z.pow2_bits_eqb by lia.
  destruct (Z.eqb_spec k i) as [->|].
  - rewrite andb_true_r. destruct (Z.testbit x i); rewrite ?Z.bits_0; [|done].
    by rewrite Z.pow2_bits_true by lia.
  - rewrite andb_false_r. destruct (Z.testbit x k); rewrite ?Z.bits_0; [|done].
    by rewrite Z.pow2_bits_false by lia.
Qed.

(** Equality of integers bit by bit: every [Z.testbit] of the goal is pushed
    to the leaves, out-of-range bits are discharged with [lia]. *)
Ltac bits_step i :=
  first
    [ rewrite Z.lxor_spec | rewrite Z.land_spec | rewrite Z.lor_spec
    | rewrite Z.shiftr_spec by lia | rewrite Z.shiftl_spec by lia
    | rewrite u8_testbit by lia | rewrite u16_testbit by lia | rewrite u32_testbit by lia
    | rewrite Z.bits_0 ].
Ltac bits_start i :=
  apply Z.bits_inj'; intros i ?; repeat bits_step i.

(** Disjoint fields: [lor] of a shifted and a low value is their sum. *)
Lemma lor_shiftl_add a b k :
  0 <= k -> 0 <= b < 2 ^ k -> Z.lor (Z.shiftl a k) b = a * 2 ^ k + b.
Proof.
  intros Hk Hb. rewrite <- Z.add_lor_land, <- Z.shiftl_mul_pow2 by lia.
  assert (Z.land (Z.shiftl a k) b = 0) as ->; [|lia].
  apply Z.bits_inj'. intros i Hi. rewrite Z.land_spec, Z.bits_0.
  destruct (Z.lt_ge_cases i k).
  - by rewrite Z.shiftl_spec_low by lia.
  - by rewrite (testbit_above k b), andb_false_r by lia.
Qed.

(** ** Memory accesses

    A buffer is the list of its bytes (or elements); an access outside it has
    no result. *)
Definition rd {A} (buf : list A) (i : Z) : option A :=
  if i <? 0 then None else buf !! Z.to_nat i.
Definition wr {A} (buf : list A) (i : Z) (v : A) : option (list A) :=
  if (0 <=? i) && (i <? Z.of_nat (length buf)) then Some (<[Z.to_nat i := v]> buf) else None.

Lemma rd_in {A} (buf : list A) i :
  0 <= i < Z.of_nat (length buf) -> exists x, rd buf i = Some x.
Proof.
  intros Hi. unfold rd. destruct (Z.ltb_spec i 0); [lia|].
  apply lookup_lt_is_Some_2. lia.
Qed.

Lemma wr_in {A} (buf : list A) i v :
  0 <= i < Z.of_nat (length buf) -> wr buf i v = Some (<[Z.to_nat i := v]> buf).
Proof.
  intros Hi. unfold wr.
  destruct (Z.leb_spec 0 i), (Z.ltb_spec i (Z.of_nat (length buf))); lia || done.
Qed.

Lemma wr_Some {A} (buf buf' : list A) i v :
  wr buf i v = Some buf' -> 0 <= i < Z.of_nat (length buf) /\ buf' = <[Z.to_nat i := v]> buf.
Proof.
  unfold wr. destruct (Z.leb_spec 0 i), (Z.ltb_spec i (Z.of_nat (length buf))); cbn;
    intros [=]; auto.
Qed.

Lemma length_wr {A} (buf buf' : list A) i v :
  wr buf i v = Some buf' -> length buf' = length buf.
Proof. intros [_ ->]%wr_Some. apply length_insert. Qed.

Lemma rd_wr_eq {A} (buf buf' : list A) i v : wr buf i v = Some buf' -> rd buf' i = Some v.
Proof.
  intros [Hi ->]%wr_Some. unfold rd. destruct (Z.ltb_spec i 0); [lia|].
  apply list_lookup_insert_eq. lia.
Qed.

Lemma rd_wr_ne {A} (buf buf' : list A) i j v :
  wr buf i v = Some buf' -> i <> j -> rd buf' j = rd buf j.
Proof.
  intros [Hi ->]%wr_Some Hne. unfold rd. destruct (Z.ltb_spec j 0); [done|].
  apply list_lookup_insert_ne. lia.
Qed.

Lemma rd_bytes buf i x : bytes buf -> rd buf i = Some x -> in_u8 x.
Proof.
  unfold rd. intros Hb. case_match; [done|]. intros Hx.
  by apply (Forall_lookup_1 _ _ _ _ Hb Hx).
Qed.

Lemma wr_bytes buf buf' i x : bytes buf -> in_u8 x -> wr buf i x = Some buf' -> bytes buf'.
Proof. intros Hb Hx [_ ->]%wr_Some. by apply Forall_insert. Qed.

(** 32-bit shifts: shifting by 32 or more has no result. *)
Definition shl32 (x k : Z) : option Z :=
  if (0 <=? k) && (k <? 32) then Some (u32 (Z.shiftl x k)) else None.
Definition shr32 (x k : Z) : option Z :=
  if (0 <=? k) && (k <? 32) then Some (Z.shiftr x k) else None.

Lemma lor_add k a b :
  0 <= k -> a mod 2 ^ k = 0 -> 0 <= b < 2 ^ k -> Z.lor a b = a + b.
Proof.
  intros Hk Ha Hb. pose proof (Z.pow_pos_nonneg 2 k ltac:(lia) Hk).
  assert (a = Z.shiftl (a / 2 ^ k) k) as ->.
  { rewrite Z.shiftl_mul_pow2 by lia. pose proof (Z.div_mod a (2 ^ k)). lia. }
  rewrite lor_shiftl_add, Z.shiftl_mul_pow2 by lia. done.
Qed.

Lemma land_255 x : Z.land x 255 = u8 x.
Proof. apply (Z.land_ones x 8). lia. Qed.

Lemma swrap_u w x : 0 < w -> - 2 ^ (w - 1) <= x < 2 ^ (w - 1) -> swrap w (x mod 2 ^ w) = x.
Proof.
  intros Hw Hx. unfold swrap. rewrite Z.add_mod_idemp_l by lia.
  assert (2 ^ w = 2 * 2 ^ (w - 1)) by (rewrite <- Z.pow_succ_r by lia; f_equal; lia).
  rewrite Z.mod_small by lia. lia.
Qed.

(** [Z.to_nat] of literals. *)
Ltac nat_lits := repeat match goal with
  | |- context [Z.to_nat 0] => change (Z.to_nat 0) with 0%nat
  | |- context [Z.to_nat (Z.pos ?p)] =>
      let v := eval vm_compute in (Z.to_nat (Z.pos p)) in
      change (Z.to_nat (Z.pos p)) with v
  end.

(** Byte lists written out. *)
Ltac solve_bytes :=
  unfold bytes; repeat first [apply Forall_cons_2 | apply Forall_nil_2];
  first [done | zlia | auto with rodos].

(** Indices in a ring. *)
Lemma ring_inj R i j W : 0 <= i < W -> 0 <= j < W -> (R + i) mod W = (R + j) mod W -> i = j.
Proof.
  intros Hi Hj E. pose proof (Z.div_mod (R + i) W ltac:(lia)). pose proof (Z.div_mod (R + j) W ltac:(lia)).
  rewrite E in H. assert (i - j = W * ((R + i) / W - (R + j) / W)) by lia.
  assert ((R + i) / W - (R + j) / W = 0) by nia. lia.
Qed.
