(* ===== verification/Checksums.v ===== *)
(** * Checksums (src/independent/checksumes.cpp)

    The rotate-and-add checksum, the bitwise CCSDS CRC, the table-driven CRC
    class, the printable 16-bit hash and the XOR checksum.  The main results:
    the table-driven CRC computes the bitwise one on every buffer; a buffer
    followed by its CRC checks to zero; an error confined to two neighbouring
    bytes (any burst of up to 16 bits inside them) always changes the CRC. *)

From S2P Require Import Prelude.

Module Checksums.

(** [rotateRight] *)
Definition rotateRight (c : Z) : Z :=
  if Z.land c 1 =? 1 then u16 (Z.lor (Z.shiftr c 1) 0x8000)
  else u16 (Z.shiftr c 1).

(** [checkSum] *)
Definition checkSum (data : list Z) : Z :=
  fold_left (fun checksum b => u16 (rotateRight checksum + b)) data 0.

(** One pass of the inner loop of [computeCrc]: the pair is
    [(currentValue, curChar)]. *)
Definition crcBit (s : Z * Z) : Z * Z :=
  let '(currentValue, curChar) := s in
  let currentValue' :=
    if Z.lxor (Z.land curChar 0x80) (Z.shiftr (Z.land currentValue 0x8000) 8) =? 0
    then u16 (Z.shiftl currentValue 1)
    else u16 (Z.lxor (Z.shiftl currentValue 1) 0x1021) in
  (currentValue', u8 (Z.shiftl curChar 1)).

Definition crcChar (currentValue curChar : Z) : Z :=
  fst (Nat.iter 8 crcBit (currentValue, curChar)).

(** [computeCrc] *)
Definition computeCrc (data : list Z) (initialValue : Z) : Z :=
  fold_left crcChar data initialValue.

(** The constructor [CRC::CRC]: entry [i] of [lookUpTable]. *)
Definition tableEntry (i : Z) : Z :=
  let sel m p tmp := if Z.land i m =? 0 then tmp else Z.lxor tmp p in
  sel 128 0x9188 (sel 64 0x48C4 (sel 32 0x2462 (sel 16 0x1231
    (sel 8 0x8108 (sel 4 0x4084 (sel 2 0x2042 (sel 1 0x1021 0))))))).

Definition lookUpTable : list Z := map (fun i => tableEntry (Z.of_nat i)) (seq 0 256).

(** [CRC::computeCRC] on the object's table. *)
Definition tableStep (table : list Z) (currentValue b : Z) : Z :=
  u16 (Z.lxor (Z.land (Z.shiftl currentValue 8) 0xFF00)
              (nth (Z.to_nat (Z.land (Z.lxor (Z.shiftr currentValue 8) b) 0x00FF)) table 0)).

Definition computeCRC (table : list Z) (data : list Z) (initialValue : Z) : Z :=
  fold_left (tableStep table) data initialValue.

(** [hash] of the characters before the terminating zero. *)
Definition printable (a : Z) : Z :=
  let range := 0x7e - 0x20 in
  if (a <=? 0x20) || (0x7e <=? a) then u8 (a mod range + 0x20) else a.

Definition hash (str : list Z) : Z :=
  let crc := computeCrc str 0xffff in
  let a := u8 (Z.land (Z.shiftr crc 8) 0xff) in
  let b := u8 (Z.land crc 0xff) in
  u16 (Z.lor (Z.shiftl (printable a) 8) (printable b)).

(** [checkSumXor32] *)
Definition checkSumXor32 (buf : list Z) : Z :=
  fold_left Z.lxor buf 0.

(** The source's tutorials use the CCSDS test vectors. *)
Example crc_check_value :
  computeCrc [0x31; 0x32; 0x33; 0x34; 0x35; 0x36; 0x37; 0x38; 0x39] 0xffff = 0x29B1.
Proof. vm_compute. reflexivity. Qed.

(** ** The CRC as a linear map

    [lfsr] is the shift register: one bit step on the register into which the
    data byte has already been mixed. *)
Definition lfsr (v : Z) : Z :=
  u16 (Z.lxor (Z.shiftl v 1) (if Z.testbit v 15 then 0x1021 else 0)).

Definition lfsr8 (v : Z) : Z := Nat.iter 8 lfsr v.

Lemma lfsr_range v : in_u16 (lfsr v).
Proof. apply u16_range. Qed.

Lemma lfsr8_range v : in_u16 (lfsr8 v).
Proof. apply lfsr_range. Qed.

Lemma u16_lxor a b : u16 (Z.lxor a b) = Z.lxor (u16 a) (u16 b).
Proof.
  apply Z.bits_inj'. intros i Hi. rewrite Z.lxor_spec, !u16_testbit, Z.lxor_spec by lia.
  destruct (i <? 16), (Z.testbit a i), (Z.testbit b i); reflexivity.
Qed.

Lemma u16_idem a : u16 (u16 a) = u16 a.
Proof. apply u16_small, u16_range. Qed.

Lemma lfsr_lxor a b : lfsr (Z.lxor a b) = Z.lxor (lfsr a) (lfsr b).
Proof.
  unfold lfsr. rewrite <- u16_lxor. f_equal.
  rewrite Z.lxor_spec, Z.shiftl_lxor.
  destruct (Z.testbit a 15), (Z.testbit b 15); cbn [xorb];
    apply Z.bits_inj'; intros i Hi; rewrite !Z.lxor_spec, ?Z.bits_0;
    repeat match goal with |- context [Z.testbit ?x i] => destruct (Z.testbit x i) end;
    reflexivity.
Qed.

Lemma lfsr8_lxor a b : lfsr8 (Z.lxor a b) = Z.lxor (lfsr8 a) (lfsr8 b).
Proof.
  unfold lfsr8. generalize 8%nat as n. induction n as [|n IH]; [done|].
  cbn [Nat.iter nat_rect]. unfold Nat.iter in IH. by rewrite IH, lfsr_lxor.
Qed.

(** A step of the inner loop is a step of the register holding the value
    xored with the byte moved to the top. *)
Lemma crcBit_lfsr v c v' c' :
  in_u16 v -> in_u8 c -> crcBit (v, c) = (v', c') ->
  Z.lxor v' (Z.shiftl c' 8) = lfsr (Z.lxor v (Z.shiftl c 8)).
Proof.
  intros Hv Hc [= <- <-]. unfold lfsr.
  rewrite Z.lxor_spec, Z.shiftl_spec by lia. change (15 - 8) with 7.
  change 0x80 with (2 ^ 7). change 0x8000 with (2 ^ 15). rewrite !land_bit by lia.
  assert (Hs : u16 (Z.shiftl (Z.lxor v (Z.shiftl c 8)) 1)
               = Z.lxor (u16 (Z.shiftl v 1)) (Z.shiftl (u8 (Z.shiftl c 1)) 8)).
  { bits_start i. destruct (Z.ltb_spec i 16); cbn [andb].
    - destruct (Z.ltb_spec i 8).
      + rewrite (Z.testbit_neg_r _ (i - 8)), xorb_false_r by lia.
        rewrite (Z.shiftl_spec_low c), (Z.shiftl_spec v) by lia. apply xorb_false_r.
      + repeat bits_step i. destruct (Z.ltb_spec (i - 8) 8); [|lia].
        cbn. do 2 f_equal. lia.
    - rewrite u8_testbit by lia. destruct (Z.ltb_spec (i - 8) 8); [lia|done]. }
  assert (Ht : forall a b : bool,
    (Z.lxor (if a then 2 ^ 7 else 0) (Z.shiftr (if b then 2 ^ 15 else 0) 8) =? 0)
    = negb (xorb b a)) by (intros [] []; reflexivity).
  rewrite Ht. destruct (xorb _ _); cbn [negb].
  - rewrite !u16_lxor, Hs, !Z.lxor_assoc. f_equal. apply Z.lxor_comm.
  - by rewrite Z.lxor_0_r, Hs.
Qed.

Lemma crcBit_range s : in_u16 (fst (crcBit s)) /\ in_u8 (snd (crcBit s)).
Proof. destruct s as [v c]. cbn. split; [case_match|]; auto with rodos. Qed.

Lemma crcBit_iter n v c :
  in_u16 v -> in_u8 c ->
  let '(v', c') := Nat.iter n crcBit (v, c) in
  in_u16 v' /\ in_u8 c' /\
  Z.lxor v' (Z.shiftl c' 8) = Nat.iter n lfsr (Z.lxor v (Z.shiftl c 8)).
Proof.
  intros Hv Hc. induction n as [|n IH]; [done|].
  cbn [Nat.iter nat_rect]. unfold Nat.iter in IH.
  destruct (nat_rect _ _ _ n) as [v1 c1]. destruct IH as (Hv1 & Hc1 & IH).
  destruct (crcBit (v1, c1)) as [v' c'] eqn:E.
  pose proof (crcBit_range (v1, c1)) as [Hv' Hc']. rewrite E in Hv', Hc'.
  split; [done|]. split; [done|].
  rewrite (crcBit_lfsr v1 c1 v' c' Hv1 Hc1 E), IH. reflexivity.
Qed.

(** The byte of data is shifted out completely after eight steps. *)
Lemma crcBit_char_consumed v c :
  in_u8 c -> snd (Nat.iter 8 crcBit (v, c)) = 0.
Proof.
  intros Hc.
  assert (E : forall n v c, snd (Nat.iter n crcBit (v, c)) = Nat.iter n (fun c => u8 (Z.shiftl c 1)) c).
  { intros n v0 c0. induction n as [|n IH]; [done|].
    cbn [Nat.iter nat_rect]. unfold Nat.iter in IH. rewrite <- IH.
    by destruct (nat_rect _ _ _ n). }
  rewrite E.
  assert (A : all_below 256 (fun c => Nat.iter 8 (fun c => u8 (Z.shiftl c 1)) c =? 0) = true)
    by (vm_compute; reflexivity).
  apply Z.eqb_eq. exact (all_below_spec _ _ c A Hc).
Qed.

Lemma crcChar_lfsr8 v c :
  in_u16 v -> in_u8 c -> crcChar v c = lfsr8 (Z.lxor v (Z.shiftl c 8)).
Proof.
  intros Hv Hc. unfold crcChar, lfsr8.
  pose proof (crcBit_iter 8 v c Hv Hc) as H. pose proof (crcBit_char_consumed v c Hc) as H0.
  destruct (Nat.iter 8 crcBit (v, c)) as [v' c']. cbn in H0. subst c'.
  destruct H as (_ & _ & H). by rewrite Z.shiftl_0_l, Z.lxor_0_r in H.
Qed.

Lemma crcChar_range v c : in_u16 v -> in_u8 c -> in_u16 (crcChar v c).
Proof. intros. rewrite crcChar_lfsr8 by done. apply lfsr8_range. Qed.

(** Eight steps move the low byte to the top and send the high byte through
    the table. *)
Lemma lfsr8_low b : in_u8 b -> lfsr8 b = Z.shiftl b 8.
Proof.
  intros Hb. apply Z.eqb_eq.
  assert (A : all_below 256 (fun b => lfsr8 b =? Z.shiftl b 8) = true) by (vm_compute; reflexivity).
  exact (all_below_spec _ _ b A Hb).
Qed.

Lemma lfsr8_high b : in_u8 b -> lfsr8 (Z.shiftl b 8) = tableEntry b.
Proof.
  intros Hb. apply Z.eqb_eq.
  assert (A : all_below 256 (fun b => lfsr8 (Z.shiftl b 8) =? tableEntry b) = true)
    by (vm_compute; reflexivity).
  exact (all_below_spec _ _ b A Hb).
Qed.

Lemma u16_split v : in_u16 v -> v = Z.lxor (Z.shiftl (v / 256) 8) (u8 v).
Proof.
  intros Hv. change 256 with (2 ^ 8). rewrite <- Z.shiftr_div_pow2 by lia.
  bits_start i. destruct (Z.ltb_spec i 8).
  - by rewrite (Z.testbit_neg_r _ (i - 8)), xorb_false_l by lia.
  - rewrite xorb_false_r, Z.shiftr_spec by lia. f_equal. lia.
Qed.

Lemma lfsr8_split v : in_u16 v ->
  lfsr8 v = Z.lxor (tableEntry (v / 256)) (Z.shiftl (u8 v) 8).
Proof.
  intros Hv. rewrite (u16_split v Hv) at 1.
  rewrite lfsr8_lxor, lfsr8_high, lfsr8_low; [done| |]; zlia.
Qed.

Lemma lxor_shiftl_range v c : in_u16 v -> in_u8 c -> in_u16 (Z.lxor v (Z.shiftl c 8)).
Proof.
  intros Hv Hc. replace (Z.lxor v (Z.shiftl c 8)) with (u16 (Z.lxor v (Z.shiftl c 8))).
  { apply u16_range. }
  rewrite u16_lxor, !u16_small; [done| |done].
  rewrite Z.shiftl_mul_pow2 by lia. zlia.
Qed.

Lemma nth_lookUpTable i : in_u8 i -> nth (Z.to_nat i) lookUpTable 0 = tableEntry i.
Proof.
  intros Hi. unfold lookUpTable.
  rewrite (nth_indep _ 0 (tableEntry (Z.of_nat 0))) by (rewrite length_map, length_seq; zlia).
  rewrite (map_nth (fun i => tableEntry (Z.of_nat i))), seq_nth by zlia.
  f_equal. zlia.
Qed.

Lemma tableStep_crcChar v c :
  in_u16 v -> in_u8 c -> tableStep lookUpTable v c = crcChar v c.
Proof.
  intros Hv Hc. rewrite crcChar_lfsr8, lfsr8_split by auto using lxor_shiftl_range.
  pose proof (lxor_shiftl_range v c Hv Hc) as Hr.
  set (x := Z.lxor v (Z.shiftl c 8)) in *.
  assert (Ex : Z.land (Z.lxor (Z.shiftr v 8) c) 0xFF = x / 256).
  { assert (E : Z.shiftr x 8 = Z.lxor (Z.shiftr v 8) c)
      by (subst x; rewrite Z.shiftr_lxor, Z.shiftr_shiftl_l by lia; by rewrite Z.shiftl_0_r).
    change 0xFF with (Z.ones 8). rewrite Z.land_ones, <- E, Z.shiftr_div_pow2 by lia.
    apply Z.mod_small. change (2 ^ 8) with 256. zlia. }
  assert (El : Z.land (Z.shiftl v 8) 0xFF00 = Z.shiftl (u8 x) 8).
  { subst x. change 0xFF00 with (Z.shiftl (Z.ones 8) 8).
    rewrite <- Z.shiftl_land. f_equal. rewrite Z.land_ones by lia. unfold u8.
    change 256 with (2 ^ 8). bits_start i. destruct (Z.ltb_spec i 8).
    - rewrite !Z.mod_pow2_bits_low by lia. rewrite Z.lxor_spec, Z.shiftl_spec_low by lia.
      by rewrite xorb_false_r.
    - by rewrite !Z.mod_pow2_bits_high by lia. }
  unfold tableStep. rewrite Ex, El, nth_lookUpTable by zlia.
  rewrite Z.lxor_comm. apply u16_small. rewrite <- lfsr8_split by done. apply lfsr8_range.
Qed.

#[local] Opaque crcChar.

Lemma computeCrc_range data v : bytes data -> in_u16 v -> in_u16 (computeCrc data v).
Proof.
  unfold computeCrc. intros Hd. revert v.
  induction Hd as [|c data Hc Hd IH]; intros v Hv; cbn; [done|].
  apply IH, crcChar_range; done.
Qed.

Lemma computeCrc_app d1 d2 v :
  computeCrc (d1 ++ d2) v = computeCrc d2 (computeCrc d1 v).
Proof. apply fold_left_app. Qed.

(** The register loses nothing: [lfsr8] is injective. *)
Lemma lfsr_kernel v : in_u16 v -> lfsr v = 0 -> v = 0.
Proof.
  unfold lfsr. intros Hv H.
  assert (H15 : Z.testbit v 15 = false).
  { destruct (Z.testbit v 15) eqn:E; [|done]. exfalso.
    apply (f_equal (fun z => Z.testbit z 0)) in H.
    rewrite u16_testbit, Z.lxor_spec, Z.shiftl_spec_low, Z.bits_0 in H by lia. done. }
  rewrite H15, Z.lxor_0_r in H.
  assert (v < 32768).
  { destruct (Z.lt_ge_cases v 32768) as [|Hge]; [done|].
    rewrite Z.testbit_false in H15 by lia. change (2 ^ 15) with 32768 in H15. zlia. }
  rewrite Z.shiftl_mul_pow2 in H by lia. zlia.
Qed.

Lemma lfsr_iter_kernel n v : in_u16 v -> Nat.iter n lfsr v = 0 -> v = 0.
Proof.
  revert v. induction n as [|n IH]; intros v Hv H; [done|].
  apply IH; [done|]. apply lfsr_kernel; [|exact H].
  destruct n; [done|]. apply lfsr_range.
Qed.

#[local] Opaque lfsr.

Lemma lfsr8_kernel v : in_u16 v -> lfsr8 v = 0 -> v = 0.
Proof. apply lfsr_iter_kernel. Qed.

#[local] Opaque lfsr8.

Lemma lfsr8_inj a b : in_u16 a -> in_u16 b -> lfsr8 a = lfsr8 b -> a = b.
Proof.
  intros Ha Hb H. apply Z.lxor_eq, lfsr8_kernel.
  - rewrite <- (u16_small a Ha), <- (u16_small b Hb), <- u16_lxor. apply u16_range.
  - by rewrite lfsr8_lxor, H, Z.lxor_nilpotent.
Qed.

Lemma crcChar_inj v v' c :
  in_u16 v -> in_u16 v' -> in_u8 c -> crcChar v c = crcChar v' c -> v = v'.
Proof.
  intros Hv Hv' Hc. rewrite !crcChar_lfsr8 by done. intros H.
  apply lfsr8_inj in H; auto using lxor_shiftl_range.
  apply (f_equal (fun z => Z.lxor z (Z.shiftl c 8))) in H.
  by rewrite !Z.lxor_assoc, !Z.lxor_nilpotent, !Z.lxor_0_r in H.
Qed.

Lemma computeCrc_inj data v v' :
  bytes data -> in_u16 v -> in_u16 v' -> computeCrc data v = computeCrc data v' -> v = v'.
Proof.
  unfold computeCrc. intros Hd. revert v v'.
  induction Hd as [|c data Hc Hd IH]; intros v v' Hv Hv' H; cbn in H; [done|].
  apply (crcChar_inj v v' c); auto.
  apply IH; auto using crcChar_range.
Qed.

(** Only the zero byte leaves the low half of the register untouched. *)
Lemma tableEntry_low d : in_u8 d -> u8 (tableEntry d) = 0 -> d = 0.
Proof.
  intros Hd H.
  assert (A : all_below 256 (fun d => negb (u8 (tableEntry d) =? 0) || (d =? 0)) = true)
    by (vm_compute; reflexivity).
  pose proof (all_below_spec _ _ d A Hd) as P. cbv beta in P. rewrite H in P. lia.
Qed.

Lemma lxor_u8 a b : in_u8 a -> in_u8 b -> in_u8 (Z.lxor a b).
Proof.
  intros Ha Hb. replace (Z.lxor a b) with (u8 (Z.lxor a b)); [apply u8_range|].
  bits_start i. destruct (Z.ltb_spec i 8); [done|].
  rewrite !(testbit_above 8) by (try change (2 ^ 8) with 256; zlia). done.
Qed.

Lemma crcChar2_inj v a b a' b' :
  in_u16 v -> in_u8 a -> in_u8 b -> in_u8 a' -> in_u8 b' ->
  crcChar (crcChar v a) b = crcChar (crcChar v a') b' -> a = a' /\ b = b'.
Proof.
  intros Hv Ha Hb Ha' Hb' H.
  rewrite (crcChar_lfsr8 _ b), (crcChar_lfsr8 _ b') in H by auto using crcChar_range.
  apply lfsr8_inj in H; auto using lxor_shiftl_range, crcChar_range.
  rewrite !crcChar_lfsr8, !lfsr8_lxor, !lfsr8_high in H by done.
  assert (E : Z.lxor (tableEntry a) (tableEntry a') = Z.shiftl (Z.lxor b b') 8).
  { rewrite Z.shiftl_lxor. revert H. generalize (lfsr8 v) (tableEntry a) (tableEntry a')
      (Z.shiftl b 8) (Z.shiftl b' 8). intros x y z s t H.
    apply (f_equal (fun q => Z.lxor (Z.lxor x z) (Z.lxor q s))) in H.
    revert H. rewrite !(Z.lxor_comm x), !Z.lxor_assoc.
    intros H. apply Z.bits_inj'. intros i Hi.
    apply (f_equal (fun q => Z.testbit q i)) in H. revert H. rewrite !Z.lxor_spec.
    destruct (Z.testbit x i), (Z.testbit y i), (Z.testbit z i), (Z.testbit s i), (Z.testbit t i);
      done. }
  assert (L : tableEntry (Z.lxor a a') = Z.lxor (tableEntry a) (tableEntry a')).
  { rewrite <- !lfsr8_high by auto using lxor_u8. by rewrite Z.shiftl_lxor, lfsr8_lxor. }
  assert (Z.lxor a a' = 0) as Haa.
  { apply tableEntry_low; [by apply lxor_u8|]. rewrite L, E.
    rewrite Z.shiftl_mul_pow2 by lia. apply Z.mod_mul. lia. }
  split; [by apply Z.lxor_eq|]. apply Z.lxor_eq in Haa. subst a'.
  rewrite Z.lxor_nilpotent in E. symmetry in E.
  apply Z.shiftl_eq_0_iff in E; [|lia]. by apply Z.lxor_eq.
Qed.

Lemma printable_range a : in_u8 a -> 0x20 <= printable a < 0x7e.
Proof. unfold printable. intros Ha. case_match; zlia. Qed.

(** The table-driven and the bitwise register agree on every step. *)
Lemma tableStep_fold data v :
  bytes data -> in_u16 v -> fold_left (tableStep lookUpTable) data v = fold_left crcChar data v.
Proof.
  intros Hd. revert v. induction Hd as [|c data Hc Hd IH]; intros v Hv; [done|].
  cbn [fold_left]. rewrite tableStep_crcChar by done. apply IH. by apply crcChar_range.
Qed.

(** The state of [checkSum] after one more byte; a fold from any state. *)
Definition checkSumFrom (checksum : Z) (data : list Z) : Z :=
  fold_left (fun checksum b => u16 (rotateRight checksum + b)) data checksum.

Lemma checkSumFrom_range c data : in_u16 c -> in_u16 (checkSumFrom c data).
Proof.
  revert c. induction data as [|b data IH]; intros c Hc; [done|].
  apply (IH (u16 (rotateRight c + b))), u16_range.
Qed.

Lemma rotateRight_value c : in_u16 c -> rotateRight c = c / 2 + 32768 * (c mod 2).
Proof.
  intros Hc. unfold rotateRight.
  assert (Z.land c 1 = c mod 2) as -> by (apply (Z.land_ones c 1); lia).
  rewrite Z.shiftr_div_pow2 by lia. change (2 ^ 1) with 2.
  destruct (Z.eqb_spec (c mod 2) 1) as [H1|H1].
  - rewrite Z.lor_comm, (lor_add 15) by (try reflexivity; change (2 ^ 15) with 32768; zlia).
    rewrite u16_small by zlia. lia.
  - rewrite u16_small by zlia. zlia.
Qed.

Lemma rotateRight_inj c c' : in_u16 c -> in_u16 c' -> rotateRight c = rotateRight c' -> c = c'.
Proof. intros H H'. rewrite !rotateRight_value by done. zlia. Qed.

Lemma rotateRight_range c : in_u16 c -> in_u16 (rotateRight c).
Proof. intros H. rewrite rotateRight_value by done. zlia. Qed.

(** Different states stay different however the data goes on. *)
Lemma checkSumFrom_inj data c c' :
  in_u16 c -> in_u16 c' -> checkSumFrom c data = checkSumFrom c' data -> c = c'.
Proof.
  revert c c'. induction data as [|b data IH]; intros c c' Hc Hc' He; [done|].
  apply (IH (u16 (rotateRight c + b)) (u16 (rotateRight c' + b))) in He; [|apply u16_range..].
  pose proof (rotateRight_range c Hc). pose proof (rotateRight_range c' Hc').
  apply rotateRight_inj; [done..|zlia].
Qed.

(** The checksum detects the corruption of any single byte. *)
Lemma checkSum_detects_byte pre post a b :
  in_u8 a -> in_u8 b -> a <> b -> checkSum (pre ++ a :: post) <> checkSum (pre ++ b :: post).
Proof.
  intros Ha Hb Hne He. unfold checkSum in He. rewrite !fold_left_app in He. cbn [fold_left] in He.
  change (checkSumFrom (u16 (rotateRight (checkSumFrom 0 pre) + a)) post =
          checkSumFrom (u16 (rotateRight (checkSumFrom 0 pre) + b)) post) in He.
  apply checkSumFrom_inj in He; [|apply u16_range..].
  pose proof (rotateRight_range (checkSumFrom 0 pre) (checkSumFrom_range 0 pre ltac:(zlia))). zlia.
Qed.

(** ** Properties *)

(** The table-driven [CRC::computeCRC], run on the table the constructor
    builds, returns the same value as the bit-by-bit [computeCrc] for every
    buffer of bytes and every 16-bit initial value. *)
Theorem computeCRC_equiv (data : list Z) (initialValue : Z) :
  bytes data -> in_u16 initialValue ->
  computeCRC lookUpTable data initialValue = computeCrc data initialValue.
Proof. apply tableStep_fold. Qed.

(** The hypotheses of the equivalence hold for the check string. *)
Lemma computeCRC_equiv_witness :
  computeCRC lookUpTable [0x31; 0x32; 0x33] 0xffff = computeCrc [0x31; 0x32; 0x33] 0xffff
  /\ computeCrc [0x31; 0x32; 0x33] 0xffff = 0x5BCE.
Proof.
  split; [|vm_compute; reflexivity].
  apply computeCRC_equiv; [repeat constructor; done | done].
Defined.

(** A message followed by its own CRC, high byte first, has CRC zero: the
    receiver's check of an undamaged frame always succeeds. *)
Theorem crc_self_check (data : list Z) (initialValue : Z) :
  bytes data -> in_u16 initialValue ->
  let crc := computeCrc data initialValue in
  computeCrc (data ++ [Z.shiftr crc 8; Z.land crc 0xff]) initialValue = 0.
Proof.
  intros Hd Hv crc. rewrite computeCrc_app. fold crc.
  assert (Hc : in_u16 crc) by (by apply computeCrc_range).
  change 0xff with (Z.ones 8). rewrite Z.land_ones, Z.shiftr_div_pow2 by lia.
  change (2 ^ 8) with 256. fold (u8 crc). cbn [computeCrc fold_left].
  rewrite (crcChar_lfsr8 crc) by (done || zlia).
  rewrite (u16_split crc Hc) at 1.
  rewrite (Z.lxor_comm _ (u8 crc)), Z.lxor_assoc, Z.lxor_nilpotent, Z.lxor_0_r.
  rewrite lfsr8_low by zlia.
  rewrite crcChar_lfsr8, Z.lxor_nilpotent; [by apply lfsr8_low| |zlia].
  rewrite Z.shiftl_mul_pow2 by lia. zlia.
Qed.

Lemma crc_self_check_witness :
  computeCrc ([1; 2; 3] ++ [Z.shiftr (computeCrc [1; 2; 3] 0) 8; Z.land (computeCrc [1; 2; 3] 0) 0xff]) 0
  = 0.
Proof. apply (crc_self_check [1; 2; 3] 0); [repeat constructor; done | done]. Defined.

(** Damage confined to two neighbouring bytes of a message is always
    detected: messages that differ there and nowhere else have different CRCs. *)
Theorem crc_detects_two_bytes (pre post : list Z) (a b a' b' initialValue : Z) :
  bytes pre -> bytes post -> in_u8 a -> in_u8 b -> in_u8 a' -> in_u8 b' ->
  in_u16 initialValue -> (a, b) <> (a', b') ->
  computeCrc (pre ++ [a; b] ++ post) initialValue
  <> computeCrc (pre ++ [a'; b'] ++ post) initialValue.
Proof.
  intros Hpre Hpost Ha Hb Ha' Hb' Hv Hne H. apply Hne.
  rewrite !computeCrc_app in H.
  assert (Hr : in_u16 (computeCrc pre initialValue)) by (by apply computeCrc_range).
  apply computeCrc_inj in H; [|done| |]; cycle 1.
  1, 2: by repeat apply crcChar_range.
  apply crcChar2_inj in H; [|done..]. destruct H as [-> ->]. done.
Qed.

Lemma crc_detects_two_bytes_witness :
  computeCrc ([7] ++ [1; 2] ++ [9]) 0 <> computeCrc ([7] ++ [1; 3] ++ [9]) 0.
Proof. apply crc_detects_two_bytes; try (repeat constructor; done); done. Defined.

(** [hash] returns two printable ASCII characters for every string, as its
    header promises. *)
Theorem hash_printable (str : list Z) :
  exists a b, hash str = a * 256 + b /\ 0x20 <= a < 0x7e /\ 0x20 <= b < 0x7e.
Proof.
  unfold hash.
  set (a := printable _). set (b := printable (u8 (Z.land _ 0xff))).
  assert (Ha : 0x20 <= a < 0x7e) by (apply printable_range; auto with rodos).
  assert (Hb : 0x20 <= b < 0x7e) by (apply printable_range; auto with rodos).
  exists a, b. split; [|done].
  rewrite lor_shiftl_add by (try change (2 ^ 8) with 256; lia).
  change (2 ^ 8) with 256. apply u16_small. zlia.
Qed.

End Checksums.
