(* ===== verification/ByteStream.v ===== *)
(** * Byte streams (src/independent/stream-bytesex.cpp, api/stream-bytesex.h)

    Byte swapping, conversion to network order, big-endian encoding and
    decoding, single-bit and bit-field access, the population count and the
    serializers of the middleware.  A pointer is [None] when it is NULL and
    [Some buf] otherwise; an out-of-bounds access or an undefined shift makes
    a function return [None]. *)

From S2P Require Import Prelude.

Module ByteStream.

(** ** Byte order of the host *)

(** The bytes of the [n]-byte value [x] as they lie in memory. *)
Fixpoint le_bytes (n : nat) (x : Z) : list Z :=
  match n with
  | O => []
  | S n => u8 x :: le_bytes n (Z.shiftr x 8)
  end.
Fixpoint le_value (l : list Z) : Z :=
  match l with
  | [] => 0
  | b :: l => b + 256 * le_value l
  end.
Definition be_bytes (n : nat) (x : Z) : list Z := rev (le_bytes n x).
Definition host_bytes (big : bool) (n : nat) (x : Z) : list Z :=
  if big then be_bytes n x else le_bytes n x.
Definition host_value (big : bool) (l : list Z) : Z :=
  le_value (if big then rev l else l).

(** [swapChars(c[i], c[j])] *)
Definition swapChars (c : list Z) (i j : nat) : list Z :=
  match c !! i, c !! j with
  | Some a, Some b => <[j := a]> (<[i := b]> c)
  | _, _ => c
  end.

(** [swap16], [swap32] and [swap64] work on the object representation of the
    signed value; the result is read back at the same width. *)
Definition swap16 (big : bool) (sw : Z) : Z :=
  let c := host_bytes big 2 sw in
  swrap 16 (host_value big (swapChars c 0 1)).
Definition swap32 (big : bool) (lw : Z) : Z :=
  let c := host_bytes big 4 lw in
  let c := swapChars c 0 3 in
  let c := swapChars c 1 2 in
  swrap 32 (host_value big c).
Definition swap64 (big : bool) (llw : Z) : Z :=
  let c := host_bytes big 8 llw in
  let c := swapChars c 0 7 in
  let c := swapChars c 1 6 in
  let c := swapChars c 2 5 in
  let c := swapChars c 3 4 in
  swrap 64 (host_value big c).

Definition int16ConvertHost2Net (isHostBigEndian : bool) (sw : Z) : Z :=
  if isHostBigEndian then sw else swap16 isHostBigEndian sw.
Definition int32ConvertHost2Net (isHostBigEndian : bool) (lw : Z) : Z :=
  if isHostBigEndian then lw else swap32 isHostBigEndian lw.
Definition int64ConvertHost2Net (isHostBigEndian : bool) (llw : Z) : Z :=
  if isHostBigEndian then llw else swap64 isHostBigEndian llw.

(** ** Big-endian streams *)

Definition bigEndianToUint16_t (buff : option (list Z)) : option Z :=
  match buff with
  | None => Some 0
  | Some byteStream =>
      b0 ← rd byteStream 0; b1 ← rd byteStream 1;
      Some (u16 (Z.lor (Z.shiftl b0 8) b1))
  end.

Definition bigEndianToUint32_t (buff : option (list Z)) : option Z :=
  match buff with
  | None => Some 0
  | Some byteStream =>
      b0 ← rd byteStream 0; b1 ← rd byteStream 1;
      b2 ← rd byteStream 2; b3 ← rd byteStream 3;
      Some (u32 (Z.lor (Z.lor (Z.lor (Z.shiftl b0 24) (Z.shiftl b1 16)) (Z.shiftl b2 8)) b3))
  end.

Definition bigEndianToUint64_t (buff : option (list Z)) : option Z :=
  match buff with
  | None => Some 0
  | Some byteStream =>
      b0 ← rd byteStream 0; b1 ← rd byteStream 1;
      b2 ← rd byteStream 2; b3 ← rd byteStream 3;
      b4 ← rd byteStream 4; b5 ← rd byteStream 5;
      b6 ← rd byteStream 6; b7 ← rd byteStream 7;
      Some (u64 (Z.lor (Z.lor (Z.lor (Z.lor (Z.lor (Z.lor (Z.lor
        (Z.shiftl b0 56) (Z.shiftl b1 48)) (Z.shiftl b2 40)) (Z.shiftl b3 32))
        (Z.shiftl b4 24)) (Z.shiftl b5 16)) (Z.shiftl b6 8)) b7))
  end.

(** The byte [(uint8_t)((value >> k) & 0xFF)]. *)
Definition byteAt (value k : Z) : Z := u8 (Z.land (Z.shiftr value k) 0xFF).

Definition uint16_tToBigEndian (buff : option (list Z)) (value : Z)
    : option (option (list Z)) :=
  match buff with
  | None => Some None
  | Some b =>
      b ← wr b 0 (byteAt value 8); b ← wr b 1 (byteAt value 0); Some (Some b)
  end.

Definition uint32_tToBigEndian (buff : option (list Z)) (value : Z)
    : option (option (list Z)) :=
  match buff with
  | None => Some None
  | Some b =>
      b ← wr b 0 (byteAt value 24); b ← wr b 1 (byteAt value 16);
      b ← wr b 2 (byteAt value 8); b ← wr b 3 (byteAt value 0); Some (Some b)
  end.

Definition uint64_tToBigEndian (buff : option (list Z)) (value : Z)
    : option (option (list Z)) :=
  match buff with
  | None => Some None
  | Some b =>
      b ← wr b 0 (byteAt value 56); b ← wr b 1 (byteAt value 48);
      b ← wr b 2 (byteAt value 40); b ← wr b 3 (byteAt value 32);
      b ← wr b 4 (byteAt value 24); b ← wr b 5 (byteAt value 16);
      b ← wr b 6 (byteAt value 8); b ← wr b 7 (byteAt value 0); Some (Some b)
  end.

(** The signed variants convert the value and share the code. *)
Definition bigEndianToInt16_t (b : option (list Z)) : option Z :=
  v ← bigEndianToUint16_t b; Some (swrap 16 v).
Definition bigEndianToInt32_t (b : option (list Z)) : option Z :=
  v ← bigEndianToUint32_t b; Some (swrap 32 v).
Definition bigEndianToInt64_t (b : option (list Z)) : option Z :=
  v ← bigEndianToUint64_t b; Some (swrap 64 v).
Definition int16_tToBigEndian (b : option (list Z)) (value : Z) :=
  uint16_tToBigEndian b (u16 value).
Definition int32_tToBigEndian (b : option (list Z)) (value : Z) :=
  uint32_tToBigEndian b (u32 value).
Definition int64_tToBigEndian (b : option (list Z)) (value : Z) :=
  uint64_tToBigEndian b (u64 value).

(** ** Bits and bit fields: bit 0 is the most significant bit of byte 0 *)

Definition setBitInByteStream (bytes : list Z) (bitIndex : Z) (value : bool)
    : option (list Z) :=
  let byteIndex := Z.quot bitIndex 8 in
  let bitPos := Z.rem bitIndex 8 in
  b ← rd bytes byteIndex;
  wr bytes byteIndex
    (u8 (if value then Z.lor b (Z.shiftl 1 (7 - bitPos))
         else Z.land b (Z.lnot (Z.shiftl 1 (7 - bitPos))))).

Definition getBitFromByteStream (bytes : list Z) (bitIndex : Z) : option Z :=
  b ← rd bytes (Z.quot bitIndex 8);
  Some (Z.land (Z.shiftr b (7 - Z.rem bitIndex 8)) 1).

(** [uint32_tOnes] of api/misc-rodos-funcs.h *)
Definition uint32_tOnes (n : Z) : option Z :=
  s ← shl32 1 n; Some (u32 (s - 1)).

(** The bytes of the field as a 24-bit word; bytes that hold no bit of the
    field are not read. *)
Definition fieldWord (buf : list Z) (byteIndex nbits : Z) : option Z :=
  b0 ← rd buf byteIndex;
  let word := Z.shiftl b0 16 in
  word ← (if 8 <? nbits then b1 ← rd buf (byteIndex + 1); Some (Z.lor word (Z.shiftl b1 8))
          else Some word);
  (if 16 <? nbits then b2 ← rd buf (byteIndex + 2); Some (Z.lor word b2) else Some word).

Definition setBitField (buf : list Z) (bitPos numOfBits val : Z) : option (list Z) :=
  let byteIndex := bitPos / 8 in
  let bitPos := bitPos mod 8 in
  let shifts := u8 (24 - (bitPos + numOfBits)) in
  ones ← uint32_tOnes numOfBits;
  mask ← shl32 ones shifts;
  val ← shl32 val shifts;
  word ← fieldWord buf byteIndex (bitPos + numOfBits);
  let word := Z.land word (u32 (Z.lnot mask)) in
  let word := Z.lor word (Z.land mask val) in
  buf ← wr buf byteIndex (Z.land (Z.shiftr word 16) 0xff);
  buf ← (if 8 <? bitPos + numOfBits then wr buf (byteIndex + 1) (Z.land (Z.shiftr word 8) 0xff)
         else Some buf);
  (if 16 <? bitPos + numOfBits then wr buf (byteIndex + 2) (Z.land word 0xff) else Some buf).

Definition getBitField (buf : list Z) (bitPos numOfBits : Z) : option Z :=
  let byteIndex := bitPos / 8 in
  let bitPos := bitPos mod 8 in
  let shifts := u8 (24 - (bitPos + numOfBits)) in
  mask ← uint32_tOnes numOfBits;
  word ← fieldWord buf byteIndex (bitPos + numOfBits);
  word ← shr32 word shifts;
  Some (Z.land word mask).

(** [getSetBits]: the number of set bits (Hacker's Delight, Figure 5-2). *)
Definition getSetBits (value : Z) : Z :=
  let x := value in
  let x := u32 (x - Z.land (Z.shiftr x 1) 0x55555555) in
  let x := u32 (Z.land x 0x33333333 + Z.land (Z.shiftr x 2) 0x33333333) in
  let x := Z.land (u32 (x + Z.shiftr x 4)) 0x0F0F0F0F in
  let x := u32 (x + Z.shiftr x 8) in
  let x := u32 (x + Z.shiftr x 16) in
  Z.land x 0x0000003F.

(** ** The serializers (namespace BasicSerializers)

    The overloads are selected by the static type; a [float] or [double] is
    its bit pattern, which is what the unions in the source expose. *)
Inductive sty :=
  | TBool | TUint8 | TInt8 | TUint16 | TUint32 | TUint64
  | TInt16 | TInt32 | TInt64 | TFloat | TDouble.

#[global] Instance sty_eq_dec : EqDecision sty.
Proof. solve_decision. Defined.

Definition unptr (r : option (option (list Z))) : option (list Z) := mjoin r.

Definition serialize (t : sty) (i : Z) (buffer : list Z) : option (list Z * Z) :=
  match t with
  | TBool => b ← wr buffer 0 (if i =? 0 then 0 else 1); Some (b, 1)
  | TUint8 | TInt8 => b ← wr buffer 0 (u8 i); Some (b, 1)
  | TUint16 => b ← unptr (uint16_tToBigEndian (Some buffer) i); Some (b, 2)
  | TUint32 | TFloat => b ← unptr (uint32_tToBigEndian (Some buffer) i); Some (b, 4)
  | TUint64 | TDouble => b ← unptr (uint64_tToBigEndian (Some buffer) i); Some (b, 8)
  | TInt16 => b ← unptr (int16_tToBigEndian (Some buffer) i); Some (b, 2)
  | TInt32 => b ← unptr (int32_tToBigEndian (Some buffer) i); Some (b, 4)
  | TInt64 => b ← unptr (int64_tToBigEndian (Some buffer) i); Some (b, 8)
  end.

Definition deserialize (t : sty) (buffer : list Z) : option (Z * Z) :=
  match t with
  | TBool => b ← rd buffer 0; Some (if b =? 0 then 0 else 1, 1)
  | TUint8 => b ← rd buffer 0; Some (b, 1)
  | TInt8 => b ← rd buffer 0; Some (swrap 8 b, 1)
  | TUint16 => v ← bigEndianToUint16_t (Some buffer); Some (v, 2)
  | TUint32 | TFloat => v ← bigEndianToUint32_t (Some buffer); Some (v, 4)
  | TUint64 | TDouble => v ← bigEndianToUint64_t (Some buffer); Some (v, 8)
  | TInt16 => v ← bigEndianToInt16_t (Some buffer); Some (v, 2)
  | TInt32 => v ← bigEndianToInt32_t (Some buffer); Some (v, 4)
  | TInt64 => v ← bigEndianToInt64_t (Some buffer); Some (v, 8)
  end.

(** The array templates: [size] accumulates, element [i] goes to
    [buffer + size]. *)
Fixpoint serializeArray (t : sty) (array : list Z) (buffer : list Z) (size : Z)
    : option (list Z * Z) :=
  match array with
  | [] => Some (buffer, size)
  | x :: array =>
      '(sub, n) ← serialize t x (drop (Z.to_nat size) buffer);
      serializeArray t array (take (Z.to_nat size) buffer ++ sub) (size + n)
  end.

Fixpoint deserializeArray (t : sty) (N : nat) (buffer : list Z) (size : Z)
    : option (list Z * Z) :=
  match N with
  | O => Some ([], size)
  | S N =>
      '(x, n) ← deserialize t (drop (Z.to_nat size) buffer);
      '(xs, size) ← deserializeArray t N buffer (size + n);
      Some (x :: xs, size)
  end.

(** ** Encodings *)

Lemma le_value_bytes n x : le_value (le_bytes n x) = x mod 2 ^ (8 * Z.of_nat n).
Proof.
  revert x. induction n as [|n IH]; intros x.
  { cbn. by rewrite Z.mod_1_r. }
  cbn [le_bytes le_value]. rewrite IH, Z.shiftr_div_pow2 by lia.
  replace (8 * Z.of_nat (S n)) with (8 + 8 * Z.of_nat n) by lia.
  rewrite Z.pow_add_r, Z.rem_mul_r by lia. done.
Qed.

Lemma le_bytes_bytes n x : bytes (le_bytes n x).
Proof.
  revert x. induction n as [|n IH]; intros x; [apply Forall_nil_2|].
  apply Forall_cons_2; [apply u8_range | apply IH].
Qed.

Lemma length_le_bytes n x : length (le_bytes n x) = n.
Proof. revert x. induction n; intros; cbn; auto. Qed.

Lemma be_bytes_bytes n x : bytes (be_bytes n x).
Proof. apply Forall_rev, le_bytes_bytes. Qed.

Lemma byteAt_u8 value k : 0 <= k -> byteAt value k = u8 (Z.shiftr value k).
Proof. intros. unfold byteAt. rewrite land_255. apply u8_small, u8_range. Qed.

(** What the encoders write, and that they write nothing else. *)
Lemma uint16_tToBigEndian_spec buf v :
  (2 <= length buf)%nat ->
  uint16_tToBigEndian (Some buf) v = Some (Some (be_bytes 2 v ++ drop 2 buf)).
Proof.
  intros Hl. destruct buf as [|x0 [|x1 buf]]; cbn in Hl; try lia.
  cbn [uint16_tToBigEndian]. rewrite !byteAt_u8 by lia.
  do 2 (rewrite wr_in by (rewrite ?length_insert; cbn; lia); cbn -[Z.shiftr wr]).
  by rewrite Z.shiftr_0_r.
Qed.

Lemma uint32_tToBigEndian_spec buf v :
  (4 <= length buf)%nat ->
  uint32_tToBigEndian (Some buf) v = Some (Some (be_bytes 4 v ++ drop 4 buf)).
Proof.
  intros Hl. destruct buf as [|x0 [|x1 [|x2 [|x3 buf]]]]; cbn in Hl; try lia.
  cbn [uint32_tToBigEndian]. rewrite !byteAt_u8 by lia.
  do 4 (rewrite wr_in by (rewrite ?length_insert; cbn; lia); cbn -[Z.shiftr wr]).
  by rewrite !Z.shiftr_shiftr, Z.shiftr_0_r by lia.
Qed.

Lemma uint64_tToBigEndian_spec buf v :
  (8 <= length buf)%nat ->
  uint64_tToBigEndian (Some buf) v = Some (Some (be_bytes 8 v ++ drop 8 buf)).
Proof.
  intros Hl. do 8 (destruct buf as [|? buf]; [cbn in Hl; lia|]).
  cbn [uint64_tToBigEndian]. rewrite !byteAt_u8 by lia.
  do 8 (rewrite wr_in by (rewrite ?length_insert; cbn; lia); cbn -[Z.shiftr wr]).
  by rewrite !Z.shiftr_shiftr, Z.shiftr_0_r by lia.
Qed.

(** Horner's scheme behind the decoders. *)
Lemma lor_step a b k k' :
  0 <= k -> k' = k + 8 -> in_u8 b ->
  Z.lor (Z.shiftl a k') (Z.shiftl b k) = Z.shiftl (a * 256 + b) k.
Proof.
  intros Hk -> Hb. rewrite (Z.add_comm k 8), <- Z.shiftl_shiftl, <- Z.shiftl_lor by lia.
  by rewrite lor_shiftl_add by (try change (2 ^ 8) with 256; zlia).
Qed.

Lemma lor_last a b : in_u8 b -> Z.lor (Z.shiftl a 8) b = a * 256 + b.
Proof. intros Hb. by rewrite lor_shiftl_add by (try change (2 ^ 8) with 256; zlia). Qed.

Lemma rd_app_l {A} (l l' : list A) i :
  0 <= i < Z.of_nat (length l) -> rd (l ++ l') i = rd l i.
Proof.
  intros Hi. unfold rd. destruct (Z.ltb_spec i 0); [done|]. apply lookup_app_l. lia.
Qed.

Lemma bigEndianToUint16_t_value l rest :
  bytes l -> length l = 2%nat ->
  bigEndianToUint16_t (Some (l ++ rest)) = Some (le_value (rev l)).
Proof.
  intros Hb Hl. destruct l as [|b0 [|b1 []]]; try done.
  inversion_clear Hb as [|?? H0 Hb1]. inversion_clear Hb1 as [|?? H1 _].
  cbn -[u16 Z.shiftl Z.lor Z.mul]. nat_lits. cbn -[u16 Z.shiftl Z.lor Z.mul]. f_equal. rewrite lor_last, u16_small by (done || zlia).
  cbn -[Z.mul]. lia.
Qed.

Lemma bigEndianToUint32_t_value l rest :
  bytes l -> length l = 4%nat ->
  bigEndianToUint32_t (Some (l ++ rest)) = Some (le_value (rev l)).
Proof.
  intros Hb Hl. destruct l as [|b0 [|b1 [|b2 [|b3 []]]]]; try done.
  do 4 (inversion_clear Hb as [|?? ? Hb']; rename Hb' into Hb).
  cbn -[u32 Z.shiftl Z.lor Z.mul]. nat_lits. cbn -[u32 Z.shiftl Z.lor Z.mul]. f_equal.
  rewrite (lor_step b0 b1 16), (lor_step _ b2 8), lor_last, u32_small by (done || zlia).
  cbn -[Z.mul]. lia.
Qed.

Lemma bigEndianToUint64_t_value l rest :
  bytes l -> length l = 8%nat ->
  bigEndianToUint64_t (Some (l ++ rest)) = Some (le_value (rev l)).
Proof.
  intros Hb Hl.
  do 8 (destruct l as [|? l]; [done|inversion_clear Hb as [|?? ? Hb']; rename Hb' into Hb]).
  destruct l; [|done]. cbn -[u64 Z.shiftl Z.lor Z.mul]. nat_lits. cbn -[u64 Z.shiftl Z.lor Z.mul]. f_equal.
  rewrite (lor_step _ _ 48), (lor_step _ _ 40), (lor_step _ _ 32), (lor_step _ _ 24),
    (lor_step _ _ 16), (lor_step _ _ 8), lor_last, u64_small by (done || zlia).
  cbn -[Z.mul]. lia.
Qed.

(** ** The serializers *)

(** The values of a type, its width and its encoding. *)
Definition sty_val (t : sty) (i : Z) : Prop :=
  match t with
  | TBool => 0 <= i < 2
  | TUint8 => in_u8 i
  | TUint16 => in_u16 i
  | TUint32 | TFloat => in_u32 i
  | TUint64 | TDouble => in_u64 i
  | TInt8 => - 2 ^ 7 <= i < 2 ^ 7
  | TInt16 => - 2 ^ 15 <= i < 2 ^ 15
  | TInt32 => - 2 ^ 31 <= i < 2 ^ 31
  | TInt64 => - 2 ^ 63 <= i < 2 ^ 63
  end.
Definition sty_size (t : sty) : nat :=
  match t with
  | TBool | TUint8 | TInt8 => 1
  | TUint16 | TInt16 => 2
  | TUint32 | TInt32 | TFloat => 4
  | TUint64 | TInt64 | TDouble => 8
  end.
Definition sty_enc (t : sty) (i : Z) : list Z := be_bytes (sty_size t) i.

Lemma length_be_bytes n x : length (be_bytes n x) = n.
Proof. unfold be_bytes. by rewrite length_rev, length_le_bytes. Qed.

Lemma le_bytes_mod n x : le_bytes n (x mod 2 ^ (8 * Z.of_nat n)) = le_bytes n x.
Proof.
  revert x. induction n as [|n IH]; intros x; [done|]. cbn [le_bytes].
  replace (8 * Z.of_nat (S n)) with (8 + 8 * Z.of_nat n) by lia.
  rewrite Z.pow_add_r, Z.rem_mul_r by lia. f_equal.
  - unfold u8. change (2 ^ 8) with 256. zlia.
  - rewrite <- (IH (Z.shiftr x 8)). f_equal. rewrite !Z.shiftr_div_pow2 by lia.
    change (2 ^ 8) with 256. rewrite Z.mul_comm, Z.div_add by lia. zlia.
Qed.

Lemma be_bytes_u16 x : be_bytes 2 (u16 x) = be_bytes 2 x.
Proof. unfold be_bytes. f_equal. apply (le_bytes_mod 2). Qed.
Lemma be_bytes_u32 x : be_bytes 4 (u32 x) = be_bytes 4 x.
Proof. unfold be_bytes. f_equal. apply (le_bytes_mod 4). Qed.
Lemma be_bytes_u64 x : be_bytes 8 (u64 x) = be_bytes 8 x.
Proof. unfold be_bytes. f_equal. apply (le_bytes_mod 8). Qed.

Lemma serialize_spec t i buffer :
  sty_val t i -> (sty_size t <= length buffer)%nat ->
  serialize t i buffer =
    Some (sty_enc t i ++ drop (sty_size t) buffer, Z.of_nat (sty_size t)).
Proof.
  intros Hi Hl. unfold sty_enc.
  destruct t; cbn [serialize sty_size unptr] in *;
    unfold int16_tToBigEndian, int32_tToBigEndian, int64_tToBigEndian;
    rewrite ?uint16_tToBigEndian_spec, ?uint32_tToBigEndian_spec,
      ?uint64_tToBigEndian_spec, ?be_bytes_u16, ?be_bytes_u32, ?be_bytes_u64 by done;
    try reflexivity.
  all: destruct buffer as [|x buffer]; [cbn in Hl; lia|];
    rewrite wr_in by (cbn; lia); cbn -[u8]; try reflexivity.
  assert (i = 0 \/ i = 1) as [-> | ->] by (cbn in Hi; lia); reflexivity.
Qed.

Lemma be_value n x : le_value (rev (be_bytes n x)) = x mod 2 ^ (8 * Z.of_nat n).
Proof. unfold be_bytes. by rewrite rev_involutive, le_value_bytes. Qed.

Lemma deserialize_spec t i rest :
  sty_val t i ->
  deserialize t (sty_enc t i ++ rest) = Some (i, Z.of_nat (sty_size t)).
Proof.
  intros Hi. unfold sty_enc.
  pose proof (fun n => be_bytes_bytes n i) as Hb.
  pose proof (fun n => length_be_bytes n i) as Hl.
  destruct t; cbn [deserialize sty_size sty_val] in *;
    unfold bigEndianToInt16_t, bigEndianToInt32_t, bigEndianToInt64_t;
    rewrite ?bigEndianToUint16_t_value, ?bigEndianToUint32_t_value,
      ?bigEndianToUint64_t_value, ?be_value by auto;
    cbn -[Z.pow swrap Z.modulo u8].
  - assert (i = 0 \/ i = 1) as [-> | ->] by lia; reflexivity.
  - nat_lits. cbn -[u8]. by rewrite u8_small.
  - nat_lits. cbn -[u8 swrap Z.pow]. change (u8 i) with (i mod 2 ^ 8). by rewrite swrap_u.
  - by rewrite Z.mod_small.
  - by rewrite Z.mod_small.
  - by rewrite Z.mod_small.
  - change (8 * Z.of_nat 2) with 16. by rewrite swrap_u.
  - change (8 * Z.of_nat 4) with 32. by rewrite swrap_u.
  - change (8 * Z.of_nat 8) with 64. by rewrite swrap_u.
  - by rewrite Z.mod_small.
  - by rewrite Z.mod_small.
Qed.

(** The encoding of an array is the concatenation of the encodings. *)
Definition array_enc (t : sty) (array : list Z) : list Z := concat (map (sty_enc t) array).

Lemma length_sty_enc t i : length (sty_enc t i) = sty_size t.
Proof. apply length_be_bytes. Qed.

Lemma length_array_enc t array :
  length (array_enc t array) = (length array * sty_size t)%nat.
Proof.
  unfold array_enc. induction array as [|x array IH]; [done|].
  cbn. by rewrite length_app, IH, length_sty_enc.
Qed.

Lemma serializeArray_spec t array done_ buffer :
  Forall (sty_val t) array ->
  (length (array_enc t array) <= length buffer)%nat ->
  serializeArray t array (done_ ++ buffer) (Z.of_nat (length done_)) =
    Some (done_ ++ array_enc t array ++ drop (length (array_enc t array)) buffer,
          Z.of_nat (length done_ + length (array_enc t array))).
Proof.
  intros Hv. revert done_ buffer. induction Hv as [|x array Hx Hv IH]; intros done_ buffer Hl.
  { cbn. by rewrite drop_0, Nat.add_0_r. }
  unfold array_enc in *. cbn [map concat] in *. rewrite length_app, length_sty_enc in Hl.
  cbn [serializeArray]. rewrite Nat2Z.id, drop_app_length, take_app_length.
  rewrite serialize_spec by (done || lia). cbn [mbind option_bind].
  rewrite app_assoc.
  replace (Z.of_nat (length done_) + Z.of_nat (sty_size t))
    with (Z.of_nat (length (done_ ++ sty_enc t x))) by (rewrite length_app, length_sty_enc; lia).
  rewrite IH by (rewrite length_drop; lia).
  rewrite !length_app, length_sty_enc, drop_drop, <- !app_assoc. do 2 f_equal. lia.
Qed.

Lemma deserializeArray_spec t array done_ rest :
  Forall (sty_val t) array ->
  deserializeArray t (length array) (done_ ++ array_enc t array ++ rest) (Z.of_nat (length done_)) =
    Some (array, Z.of_nat (length done_ + length (array_enc t array))).
Proof.
  intros Hv. revert done_. induction Hv as [|x array Hx Hv IH]; intros done_.
  { cbn. by rewrite Nat.add_0_r. }
  unfold array_enc in *. cbn [map concat length deserializeArray].
  rewrite Nat2Z.id, drop_app_length, <- app_assoc, deserialize_spec by done.
  cbn [mbind option_bind].
  replace (Z.of_nat (length done_) + Z.of_nat (sty_size t))
    with (Z.of_nat (length (done_ ++ sty_enc t x))) by (rewrite length_app, length_sty_enc; lia).
  rewrite app_assoc, IH. cbn [mbind option_bind]. do 2 f_equal.
  rewrite !length_app. lia.
Qed.

(** ** Bit fields *)

Lemma getBit_testbit buf i :
  0 <= i -> getBitFromByteStream buf i =
    b ← rd buf (i / 8); Some (Z.b2z (Z.testbit b (7 - i mod 8))).
Proof.
  intros Hi. unfold getBitFromByteStream.
  rewrite Z.quot_div_nonneg, Z.rem_mod_nonneg by lia.
  destruct (rd buf (i / 8)) as [b|]; [|done]. cbn -[Z.land Z.shiftr Z.modulo]. f_equal.
  change 1 with (Z.ones 1). rewrite Z.land_ones by lia.
  by rewrite <- Z.bit0_mod, Z.shiftr_spec by lia.
Qed.

(** The bytes the field touches. *)
Definition fieldBytes (n : Z) : Z := if 16 <? n then 3 else if 8 <? n then 2 else 1.

(** The byte read for position [k] of the word; bytes past the field count as 0. *)
Definition fieldByte (buf : list Z) (byteIndex n k : Z) : Z :=
  if k <? fieldBytes n then default 0 (rd buf (byteIndex + k)) else 0.

Lemma fieldWord_spec buf byteIndex n :
  0 <= byteIndex -> byteIndex + fieldBytes n <= Z.of_nat (length buf) ->
  fieldWord buf byteIndex n =
    Some (Z.lor (Z.lor (Z.shiftl (fieldByte buf byteIndex n 0) 16)
                       (Z.shiftl (fieldByte buf byteIndex n 1) 8))
                (fieldByte buf byteIndex n 2)).
Proof.
  intros H0 Hl. unfold fieldWord, fieldByte, fieldBytes in *.
  destruct (Z.ltb_spec 16 n), (Z.ltb_spec 8 n); try lia;
    destruct (rd_in buf byteIndex) as [b0 E0]; try lia;
    rewrite ?Z.add_0_r, E0; cbn -[Z.shiftl Z.lor].
  - destruct (rd_in buf (byteIndex + 1)) as [b1 E1]; [lia|]. rewrite E1.
    destruct (rd_in buf (byteIndex + 2)) as [b2 E2]; [lia|]. cbn -[Z.shiftl Z.lor].
    by rewrite E2.
  - destruct (rd_in buf (byteIndex + 1)) as [b1 E1]; [lia|]. rewrite E1.
    cbn -[Z.shiftl Z.lor]. by rewrite Z.lor_0_r.
  - by rewrite Z.shiftl_0_l, !Z.lor_0_r.
Qed.

Lemma fieldByte_range buf byteIndex n k : bytes buf -> in_u8 (fieldByte buf byteIndex n k).
Proof.
  intros Hb. unfold fieldByte. case_match; [|done].
  destruct (rd buf (byteIndex + k)) eqn:E; [|done]. by apply (rd_bytes _ _ _ Hb E).
Qed.

Lemma word_testbit b0 b1 b2 i :
  in_u8 b0 -> in_u8 b1 -> in_u8 b2 -> 0 <= i ->
  Z.testbit (Z.lor (Z.lor (Z.shiftl b0 16) (Z.shiftl b1 8)) b2) i =
    if i <? 8 then Z.testbit b2 i
    else if i <? 16 then Z.testbit b1 (i - 8) else Z.testbit b0 (i - 16).
Proof.
  intros H0 H1 H2 Hi. rewrite !Z.lor_spec, !Z.shiftl_spec by lia.
  destruct (Z.ltb_spec i 8); [|destruct (Z.ltb_spec i 16)].
  - by rewrite !(Z.testbit_neg_r _ (i - _)) by lia.
  - rewrite (Z.testbit_neg_r _ (i - 16)), (testbit_above 8 b2) by (try change (2 ^ 8) with 256; zlia).
    by rewrite orb_false_r.
  - rewrite (testbit_above 8 b1), (testbit_above 8 b2) by (try change (2 ^ 8) with 256; zlia).
    by rewrite !orb_false_r.
Qed.

Lemma uint32_tOnes_spec n : 0 <= n < 32 -> uint32_tOnes n = Some (Z.ones n).
Proof.
  intros Hn. unfold uint32_tOnes, shl32.
  destruct (Z.leb_spec 0 n), (Z.ltb_spec n 32); try lia. cbn -[Z.shiftl u32 Z.ones].
  pose proof (Z.pow_lt_mono_r 2 n 32 ltac:(lia) ltac:(lia) ltac:(lia)) as Hp.
  pose proof (Z.pow_pos_nonneg 2 n ltac:(lia) ltac:(lia)).
  change (2 ^ 32) with 4294967296 in Hp.
  rewrite Z.shiftl_mul_pow2, Z.mul_1_l, !u32_small by (try rewrite u32_small; unfold in_u32; lia).
  f_equal. rewrite Z.ones_equiv. lia.
Qed.

Lemma mask_testbit n s i :
  0 <= n -> 0 <= s -> n + s <= 32 -> 0 <= i ->
  Z.testbit (u32 (Z.shiftl (Z.ones n) s)) i = (s <=? i) && (i <? s + n).
Proof.
  intros Hn Hs Hns Hi. rewrite u32_testbit, Z.shiftl_spec, Z.testbit_ones by lia.
  destruct (Z.ltb_spec i 32), (Z.leb_spec 0 (i - s)), (Z.ltb_spec (i - s) n),
    (Z.leb_spec s i), (Z.ltb_spec i (s + n)); try lia; done.
Qed.

(** The word with the field replaced. *)
Definition putField (w s n val : Z) : Z :=
  let mask := u32 (Z.shiftl (Z.ones n) s) in
  Z.lor (Z.land w (u32 (Z.lnot mask))) (Z.land mask (u32 (Z.shiftl val s))).

Lemma putField_testbit w s n val i :
  0 <= w < 2 ^ 24 -> 0 <= n -> 0 <= s -> n + s <= 24 -> 0 <= i ->
  Z.testbit (putField w s n val) i =
    if (s <=? i) && (i <? s + n) then Z.testbit val (i - s) else Z.testbit w i.
Proof.
  intros Hw Hn Hs Hns Hi. unfold putField.
  rewrite Z.lor_spec, !Z.land_spec, !(u32_testbit (Z.lnot _)), Z.lnot_spec, !mask_testbit by lia.
  rewrite u32_testbit, Z.shiftl_spec by lia.
  destruct (Z.leb_spec s i), (Z.ltb_spec i (s + n)), (Z.ltb_spec i 32); try lia; cbn [andb orb negb];
    rewrite ?andb_true_r, ?andb_false_r, ?orb_false_r; try done.
  all: by rewrite (testbit_above 24 w) by lia.
Qed.

(** The buffer after the field has been stored. *)
Definition storeField (buf : list Z) (bi n w : Z) : option (list Z) :=
  buf ← wr buf bi (Z.land (Z.shiftr w 16) 0xff);
  buf ← (if 8 <? n then wr buf (bi + 1) (Z.land (Z.shiftr w 8) 0xff) else Some buf);
  (if 16 <? n then wr buf (bi + 2) (Z.land w 0xff) else Some buf).

Lemma storeField_spec buf bi n w :
  bytes buf -> 0 <= bi -> bi + fieldBytes n <= Z.of_nat (length buf) ->
  exists buf', storeField buf bi n w = Some buf' /\ bytes buf' /\ length buf' = length buf /\
    (forall k, 0 <= k < fieldBytes n -> rd buf' (bi + k) = Some (u8 (Z.shiftr w (16 - 8 * k)))) /\
    (forall j, ~ (bi <= j < bi + fieldBytes n) -> rd buf' j = rd buf j).
Proof.
  intros Hb H0 Hl. unfold storeField. rewrite !land_255.
  assert (1 <= fieldBytes n) by (unfold fieldBytes; repeat case_match; lia).
  destruct (wr buf bi (u8 (Z.shiftr w 16))) as [b1|] eqn:E1;
    [|rewrite wr_in in E1 by lia; done]. cbn -[u8 Z.shiftr].
  pose proof (wr_bytes _ _ _ _ Hb (u8_range _) E1) as Hb1.
  pose proof (length_wr _ _ _ _ E1) as L1.
  destruct (Z.ltb_spec 8 n).
  2: { destruct (Z.ltb_spec 16 n); [lia|]. exists b1.
    assert (fieldBytes n = 1) as -> by (unfold fieldBytes; repeat case_match; lia).
    split; [done|]. split; [done|]. split; [done|]. split.
    - intros k Hk. replace k with 0 by lia. rewrite Z.add_0_r. apply (rd_wr_eq _ _ _ _ E1).
    - intros j Hj. apply (rd_wr_ne _ _ _ _ _ E1). lia. }
  destruct (wr b1 (bi + 1) (u8 (Z.shiftr w 8))) as [b2|] eqn:E2.
  2: { rewrite wr_in in E2; [done|]. unfold fieldBytes in Hl. repeat case_match; lia. }
  cbn -[u8 Z.shiftr].
  pose proof (wr_bytes _ _ _ _ Hb1 (u8_range _) E2) as Hb2.
  pose proof (length_wr _ _ _ _ E2) as L2.
  destruct (Z.ltb_spec 16 n).
  2: { exists b2.
    assert (fieldBytes n = 2) as -> by (unfold fieldBytes; repeat case_match; lia).
    split; [done|]. split; [done|]. split; [lia|]. split.
    - intros k Hk. assert (k = 0 \/ k = 1) as [-> | ->] by lia.
      + rewrite (rd_wr_ne _ _ _ _ _ E2) by lia. rewrite Z.add_0_r. apply (rd_wr_eq _ _ _ _ E1).
      + apply (rd_wr_eq _ _ _ _ E2).
    - intros j Hj. rewrite (rd_wr_ne _ _ _ _ _ E2) by lia. apply (rd_wr_ne _ _ _ _ _ E1). lia. }
  assert (F3 : fieldBytes n = 3) by (unfold fieldBytes; repeat case_match; lia).
  rewrite F3 in *.
  destruct (wr b2 (bi + 2) (u8 w)) as [b3|] eqn:E3; [|rewrite wr_in in E3 by lia; done].
  exists b3. split; [done|]. split; [apply (wr_bytes _ _ _ _ Hb2 (u8_range _) E3)|].
  split; [rewrite (length_wr _ _ _ _ E3); lia|]. split.
  - intros k Hk. assert (k = 0 \/ k = 1 \/ k = 2) as [-> | [-> | ->]] by lia.
    + rewrite (rd_wr_ne _ _ _ _ _ E3), (rd_wr_ne _ _ _ _ _ E2) by lia.
      rewrite Z.add_0_r. apply (rd_wr_eq _ _ _ _ E1).
    + rewrite (rd_wr_ne _ _ _ _ _ E3) by lia. apply (rd_wr_eq _ _ _ _ E2).
    + rewrite (rd_wr_eq _ _ _ _ E3). by rewrite Z.shiftr_0_r.
  - intros j Hj. rewrite (rd_wr_ne _ _ _ _ _ E3), (rd_wr_ne _ _ _ _ _ E2) by lia.
    apply (rd_wr_ne _ _ _ _ _ E1). lia.
Qed.

(** The preconditions of the two bit-field functions: the field fits the
    24-bit window and its bytes lie in the buffer. *)
Definition fieldOk (buf : list Z) (bitPos n : Z) : Prop :=
  0 <= bitPos /\ 0 <= n /\ bitPos mod 8 + n <= 24 /\
  bitPos / 8 + fieldBytes (bitPos mod 8 + n) <= Z.of_nat (length buf).

(** The word of the field, as both functions read it. *)
Definition theWord (buf : list Z) (bitPos n : Z) : Z :=
  let fb := fieldByte buf (bitPos / 8) (bitPos mod 8 + n) in
  Z.lor (Z.lor (Z.shiftl (fb 0) 16) (Z.shiftl (fb 1) 8)) (fb 2).

Lemma theWord_testbit buf bitPos n i :
  bytes buf -> 0 <= i < 24 ->
  Z.testbit (theWord buf bitPos n) i =
  Z.testbit (fieldByte buf (bitPos / 8) (bitPos mod 8 + n) (2 - i / 8)) (i mod 8).
Proof.
  intros Hb Hi. unfold theWord. rewrite word_testbit by auto using fieldByte_range with lia.
  destruct (Z.ltb_spec i 8); [|destruct (Z.ltb_spec i 16)].
  - replace (2 - i / 8) with 2 by zlia. f_equal. zlia.
  - replace (2 - i / 8) with 1 by zlia. f_equal. zlia.
  - replace (2 - i / 8) with 0 by zlia. f_equal. zlia.
Qed.

Lemma theWord_range buf bitPos n : bytes buf -> 0 <= theWord buf bitPos n < 2 ^ 24.
Proof.
  intros Hb. unfold theWord.
  pose proof (fieldByte_range buf (bitPos / 8) (bitPos mod 8 + n) 0 Hb).
  pose proof (fieldByte_range buf (bitPos / 8) (bitPos mod 8 + n) 1 Hb).
  pose proof (fieldByte_range buf (bitPos / 8) (bitPos mod 8 + n) 2 Hb).
  rewrite (lor_step _ _ 8), lor_last by (done || zlia). change (2 ^ 24) with 16777216. zlia.
Qed.

(** A bit of the word is a bit of the stream. *)
Lemma theWord_bit buf bitPos n j :
  bytes buf -> fieldOk buf bitPos n ->
  bitPos / 8 <= j / 8 < bitPos / 8 + fieldBytes (bitPos mod 8 + n) ->
  getBitFromByteStream buf j =
    Some (Z.b2z (Z.testbit (theWord buf bitPos n) (23 - (j - 8 * (bitPos / 8))))).
Proof.
  intros Hb (Hp & Hn & Ho & Hl) Hj.
  assert (0 <= bitPos / 8) by zlia.
  assert (fieldBytes (bitPos mod 8 + n) <= 3) by (unfold fieldBytes; repeat case_match; lia).
  rewrite getBit_testbit by zlia.
  rewrite theWord_testbit by (done || zlia).
  unfold fieldByte. destruct (rd_in buf (j / 8)) as [b E]; [lia|]. rewrite E.
  replace (2 - (23 - (j - 8 * (bitPos / 8))) / 8) with (j / 8 - bitPos / 8) by zlia.
  destruct (Z.ltb_spec (j / 8 - bitPos / 8) (fieldBytes (bitPos mod 8 + n))); [|lia].
  replace (bitPos / 8 + (j / 8 - bitPos / 8)) with (j / 8) by lia. rewrite E.
  cbn -[Z.modulo Z.sub Z.b2z]. do 3 f_equal. zlia.
Qed.

Lemma setBitField_store buf bitPos n val :
  fieldOk buf bitPos n ->
  setBitField buf bitPos n val =
    storeField buf (bitPos / 8) (bitPos mod 8 + n)
      (putField (theWord buf bitPos n) (24 - (bitPos mod 8 + n)) n val).
Proof.
  intros (Hp & Hn & Ho & Hl). unfold setBitField.
  rewrite (u8_small (24 - _)) by zlia. rewrite uint32_tOnes_spec by zlia.
  cbn [mbind option_bind].
  unfold shl32 at 1 2. assert (0 <= bitPos mod 8 < 8) by zlia.
  destruct (Z.leb_spec 0 (24 - (bitPos mod 8 + n))), (Z.ltb_spec (24 - (bitPos mod 8 + n)) 32);
    try lia. cbn [andb mbind option_bind].
  rewrite fieldWord_spec by (done || zlia). reflexivity.
Qed.

(** What [setBitField] does to every bit of the stream. *)
Lemma setBitField_bits buf bitPos n val :
  bytes buf -> fieldOk buf bitPos n ->
  exists buf', setBitField buf bitPos n val = Some buf' /\ bytes buf' /\
    length buf' = length buf /\
    forall j, 0 <= j < 8 * Z.of_nat (length buf) ->
      getBitFromByteStream buf' j =
        if (bitPos <=? j) && (j <? bitPos + n)
        then Some (Z.b2z (Z.testbit val (bitPos + n - 1 - j)))
        else getBitFromByteStream buf j.
Proof.
  intros Hb Hok. rewrite setBitField_store by done.
  pose proof Hok as (Hp & Hn & Ho & Hl).
  pose proof (theWord_range buf bitPos n Hb) as Hw.
  set (w := theWord buf bitPos n) in *. set (o := bitPos mod 8) in *. set (bi := bitPos / 8) in *.
  assert (Hbp : bitPos = 8 * bi + o) by (subst bi o; zlia).
  assert (Ho8 : 0 <= o < 8) by (subst o; zlia).
  destruct (storeField_spec buf bi (o + n) (putField w (24 - (o + n)) n val))
    as (buf' & E & Hb' & L' & Hin & Hout); [done|lia|done|].
  exists buf'. split; [done|]. split; [done|]. split; [done|]. intros j Hj.
  assert (Hfb : o + n <= 8 * fieldBytes (o + n)) by (unfold fieldBytes; repeat case_match; lia).
  destruct (decide (bi <= j / 8 < bi + fieldBytes (o + n))) as [Hk|Hk].
  - assert (fieldBytes (o + n) <= 3) by (unfold fieldBytes; repeat case_match; lia).
    rewrite getBit_testbit by lia. rewrite (theWord_bit buf bitPos n) by done. fold bi w.
    replace (j / 8) with (bi + (j / 8 - bi)) by lia. rewrite Hin by lia.
    cbn -[Z.modulo Z.sub Z.b2z u8 Z.shiftr].
    rewrite u8_testbit, Z.shiftr_spec by zlia.
    replace (7 - j mod 8 + (16 - 8 * (j / 8 - bi))) with (23 - (j - 8 * bi)) by zlia.
    destruct (Z.ltb_spec (7 - j mod 8) 8); [|zlia]. cbn [andb].
    rewrite putField_testbit by zlia.
    destruct (Z.leb_spec (24 - (o + n)) (23 - (j - 8 * bi))),
      (Z.ltb_spec (23 - (j - 8 * bi)) (24 - (o + n) + n)),
      (Z.leb_spec bitPos j), (Z.ltb_spec j (bitPos + n)); cbn [andb]; try lia; try done.
    do 3 f_equal. lia.
  - rewrite !getBit_testbit, Hout by lia.
    destruct (Z.leb_spec bitPos j), (Z.ltb_spec j (bitPos + n)); cbn [andb]; try done.
    exfalso. apply Hk. zlia.
Qed.

(** What [getBitField] returns, bit by bit. *)
Lemma getBitField_bits buf bitPos n :
  bytes buf -> fieldOk buf bitPos n ->
  exists v, getBitField buf bitPos n = Some v /\ 0 <= v < 2 ^ n /\
    forall i, 0 <= i < n ->
      getBitFromByteStream buf (bitPos + n - 1 - i) = Some (Z.b2z (Z.testbit v i)).
Proof.
  intros Hb Hok. pose proof Hok as (Hp & Hn & Ho & Hl). unfold getBitField.
  assert (Ho8 : 0 <= bitPos mod 8 < 8) by zlia.
  rewrite (u8_small (24 - _)) by zlia. rewrite uint32_tOnes_spec by zlia.
  cbn [mbind option_bind]. rewrite fieldWord_spec by (done || zlia).
  cbn [mbind option_bind]. fold (theWord buf bitPos n). unfold shr32.
  destruct (Z.leb_spec 0 (24 - (bitPos mod 8 + n))), (Z.ltb_spec (24 - (bitPos mod 8 + n)) 32);
    try lia. cbn [andb mbind option_bind].
  eexists. split; [reflexivity|]. rewrite Z.land_ones by lia.
  split; [apply Z.mod_pos_bound; lia|]. intros i Hi.
  assert (Hfb : bitPos mod 8 + n <= 8 * fieldBytes (bitPos mod 8 + n))
    by (unfold fieldBytes; repeat case_match; lia).
  rewrite (theWord_bit buf bitPos n) by (done || zlia).
  rewrite Z.mod_pow2_bits_low, Z.shiftr_spec by lia. do 3 f_equal. zlia.
Qed.

(** ** Population count *)

Fixpoint popcount (n : nat) (x : Z) : Z :=
  match n with
  | O => 0
  | S n => Z.b2z (Z.testbit x 0) + popcount n (Z.shiftr x 1)
  end.

Lemma popcount_add k n x :
  popcount (k + n) x = popcount k x + popcount n (Z.shiftr x (Z.of_nat k)).
Proof.
  revert x. induction k as [|k IH]; intros x; cbn [Nat.add popcount].
  { change (Z.of_nat 0) with 0. by rewrite Z.shiftr_0_r. }
  rewrite IH, Z.shiftr_shiftr, Nat2Z.inj_succ by lia.
  replace (1 + Z.of_nat k) with (Z.succ (Z.of_nat k)) by lia. lia.
Qed.

Lemma popcount_ext k x y :
  (forall i, 0 <= i < Z.of_nat k -> Z.testbit x i = Z.testbit y i) -> popcount k x = popcount k y.
Proof.
  revert x y. induction k as [|k IH]; intros x y H; [done|]. cbn [popcount].
  rewrite (H 0) by lia. f_equal. apply IH. intros i Hi. rewrite !Z.shiftr_spec by lia.
  apply H. lia.
Qed.

Lemma popcount_byte n a b : in_u8 b -> popcount (8 + n) (a * 256 + b) = popcount 8 b + popcount n a.
Proof.
  intros Hb. rewrite popcount_add. change (Z.of_nat 8) with 8. f_equal.
  - apply popcount_ext. intros i Hi.
    rewrite <- lor_last, Z.lor_spec, Z.shiftl_spec_low by (done || lia). done.
  - f_equal. rewrite Z.shiftr_div_pow2 by lia. change (2 ^ 8) with 256. zlia.
Qed.

Lemma land_byte a b m c : in_u8 b -> in_u8 c ->
  Z.land (a * 256 + b) (m * 256 + c) = Z.land a m * 256 + Z.land b c.
Proof.
  intros Hb Hc. rewrite <- !lor_last by done.
  assert (Hl : in_u8 (Z.land b c)).
  { rewrite <- (u8_small b Hb), <- (u8_small c Hc). replace (Z.land (u8 b) (u8 c)) with (u8 (Z.land b c)).
    - apply u8_range.
    - bits_start i. by destruct (Z.ltb_spec i 8). }
  rewrite <- lor_last by done. apply Z.bits_inj'. intros i Hi.
  rewrite !Z.land_spec, !Z.lor_spec, !Z.land_spec. destruct (Z.lt_ge_cases i 8).
  - by rewrite !Z.shiftl_spec_low by lia.
  - rewrite !Z.shiftl_spec, Z.land_spec by lia.
    rewrite !(testbit_above 8 b), !(testbit_above 8 c) by (try change (2 ^ 8) with 256; zlia).
    by rewrite !orb_false_r.
Qed.

(** The three folding steps, on one byte above which [a] holds the rest. *)
Definition step1 (m x : Z) : Z := x - Z.land (Z.shiftr x 1) m.
Definition step2 (m x : Z) : Z := Z.land x m + Z.land (Z.shiftr x 2) m.
Definition step3 (m x : Z) : Z := Z.land (x + Z.shiftr x 4) m.

(** A right shift under a mask that drops what crosses the byte border. *)
Lemma land_shiftr_byte k a b m c :
  0 <= k <= 8 -> in_u8 b -> 0 <= c < 2 ^ (8 - k) ->
  Z.land (Z.shiftr (a * 256 + b) k) (m * 256 + c) =
    Z.land (Z.shiftr a k) m * 256 + Z.land (Z.shiftr b k) c.
Proof.
  intros Hk Hb Hc.
  assert (2 ^ (8 - k) <= 2 ^ 8) by (apply Z.pow_le_mono_r; lia). change (2 ^ 8) with 256 in *.
  assert (Hc8 : in_u8 c) by (unfold in_u8; lia).
  assert (Hbk : in_u8 (Z.shiftr b k)).
  { rewrite Z.shiftr_div_pow2 by lia. pose proof (Z.pow_pos_nonneg 2 k ltac:(lia) ltac:(lia)).
    split; [apply Z.div_pos; unfold in_u8 in *; lia|].
    apply Z.le_lt_trans with b; [apply Z.div_le_upper_bound|]; unfold in_u8 in *; nia. }
  rewrite <- land_byte by done. rewrite <- !lor_last by done.
  rewrite Z.shiftr_lor. apply Z.bits_inj'. intros i Hi.
  rewrite !Z.land_spec, !Z.lor_spec, !Z.shiftr_spec by lia.
  destruct (Z.lt_ge_cases i 8).
  - rewrite !(Z.shiftl_spec_low _ 8 i) by lia. cbn [orb].
    destruct (Z.lt_ge_cases i (8 - k)).
    + by rewrite Z.shiftl_spec_low by lia.
    + by rewrite (testbit_above (8 - k) c), !andb_false_r by lia.
  - rewrite !Z.shiftl_spec, Z.shiftr_spec by lia. do 3 f_equal. lia.
Qed.

Lemma step1_byte a b m c : in_u8 b -> 0 <= c < 128 ->
  step1 (m * 256 + c) (a * 256 + b) = step1 m a * 256 + step1 c b.
Proof. intros. unfold step1. rewrite land_shiftr_byte by (done || lia). lia. Qed.

Lemma step2_byte a b m c : in_u8 b -> 0 <= c < 64 ->
  step2 (m * 256 + c) (a * 256 + b) = step2 m a * 256 + step2 c b.
Proof.
  intros. unfold step2. rewrite land_shiftr_byte, land_byte by (done || zlia). lia.
Qed.

Lemma step3_byte a b m : 0 <= a -> a mod 16 <= 4 -> 0 <= b <= 68 ->
  step3 (m * 256 + 15) (a * 256 + b) = step3 m a * 256 + step3 15 b.
Proof.
  intros Ha Ha4 Hb. unfold step3.
  assert (E : a * 256 + b + Z.shiftr (a * 256 + b) 4 =
    (a + Z.shiftr a 4) * 256 + (b + Z.shiftr b 4 + 16 * (a mod 16))).
  { rewrite !Z.shiftr_div_pow2 by lia. change (2 ^ 4) with 16. zlia. }
  rewrite E, land_byte; [|rewrite Z.shiftr_div_pow2 by lia; change (2 ^ 4) with 16; zlia | done].
  f_equal. change 15 with (Z.ones 4). rewrite !Z.land_ones by lia.
  rewrite (Z.mul_comm 16). apply Z.mod_add. lia.
Qed.

(** The steps on one byte count its bits; checked on all 256 values. *)
Definition byteStep2 (b : Z) : Z := step2 0x33 (step1 0x55 b).
Lemma byteStep_ok b : in_u8 b ->
  in_u8 (step1 0x55 b) /\ 0 <= byteStep2 b <= 68 /\ byteStep2 b mod 16 <= 4 /\
  step3 15 (byteStep2 b) = popcount 8 b /\ 0 <= popcount 8 b <= 8.
Proof.
  intros Hb.
  assert (A : all_below 256 (fun b => (0 <=? step1 0x55 b) && (step1 0x55 b <? 256) &&
    (0 <=? byteStep2 b) && (byteStep2 b <=? 68) &&
    (byteStep2 b mod 16 <=? 4) && (step3 15 (byteStep2 b) =? popcount 8 b) &&
    (0 <=? popcount 8 b) && (popcount 8 b <=? 8)) = true) by (vm_compute; reflexivity).
  pose proof (all_below_spec _ _ b A Hb) as P. cbv beta in P.
  unfold in_u8. repeat rewrite andb_true_iff in P.
  repeat rewrite ?Z.leb_le, ?Z.ltb_lt, ?Z.eqb_eq in P. tauto.
Qed.

Lemma popcount_u32 b0 b1 b2 b3 : in_u8 b0 -> in_u8 b1 -> in_u8 b2 -> in_u8 b3 ->
  popcount 32 (((b3 * 256 + b2) * 256 + b1) * 256 + b0) =
    popcount 8 b3 + popcount 8 b2 + popcount 8 b1 + popcount 8 b0.
Proof.
  intros. rewrite (popcount_byte 24), (popcount_byte 16), (popcount_byte 8) by done. lia.
Qed.

(** The three steps on four bytes. *)
Lemma steps_u32 b0 b1 b2 b3 : in_u8 b0 -> in_u8 b1 -> in_u8 b2 -> in_u8 b3 ->
  let x1 := step1 0x55555555 (((b3 * 256 + b2) * 256 + b1) * 256 + b0) in
  let x2 := step2 0x33333333 x1 in
  0 <= x1 < 2 ^ 32 /\ 0 <= x2 < 2 ^ 31 /\
  step3 0x0F0F0F0F x2 =
    ((popcount 8 b3 * 256 + popcount 8 b2) * 256 + popcount 8 b1) * 256 + popcount 8 b0.
Proof.
  intros H0 H1 H2 H3 x1 x2.
  destruct (byteStep_ok b0 H0) as (S0 & T0 & U0 & P0 & _).
  destruct (byteStep_ok b1 H1) as (S1 & T1 & U1 & P1 & _).
  destruct (byteStep_ok b2 H2) as (S2 & T2 & U2 & P2 & _).
  destruct (byteStep_ok b3 H3) as (S3 & T3 & U3 & P3 & _).
  assert (E1 : x1 = ((step1 0x55 b3 * 256 + step1 0x55 b2) * 256 + step1 0x55 b1) * 256
                    + step1 0x55 b0).
  { subst x1. change 0x55555555 with (((0x55 * 256 + 0x55) * 256 + 0x55) * 256 + 0x55).
    by rewrite !step1_byte by (done || lia). }
  assert (E2 : x2 = ((byteStep2 b3 * 256 + byteStep2 b2) * 256 + byteStep2 b1) * 256
                    + byteStep2 b0).
  { subst x2. rewrite E1. change 0x33333333 with (((0x33 * 256 + 0x33) * 256 + 0x33) * 256 + 0x33).
    by rewrite !step2_byte by (done || lia). }
  change (2 ^ 32) with 4294967296. change (2 ^ 31) with 2147483648.
  split; [rewrite E1; zlia|]. split; [rewrite E2; lia|].
  rewrite E2, <- P0, <- P1, <- P2, <- P3.
  change 0x0F0F0F0F with (((15 * 256 + 15) * 256 + 15) * 256 + 15).
  rewrite !step3_byte; [done|..]; try lia; zlia.
Qed.

(** Adding up the four counts. *)
Lemma fold_counts c0 c1 c2 c3 :
  0 <= c0 <= 8 -> 0 <= c1 <= 8 -> 0 <= c2 <= 8 -> 0 <= c3 <= 8 ->
  let x := ((c3 * 256 + c2) * 256 + c1) * 256 + c0 in
  let x := u32 (x + Z.shiftr x 8) in
  let x := u32 (x + Z.shiftr x 16) in
  Z.land x 0x3F = c3 + c2 + c1 + c0.
Proof.
  intros H0 H1 H2 H3 x. cbv zeta. rewrite !Z.shiftr_div_pow2 by lia.
  change 0x3F with (Z.ones 6). rewrite Z.land_ones by lia.
  change (2 ^ 8) with 256. change (2 ^ 16) with 65536. change (2 ^ 6) with 64.
  assert (E8 : x / 256 = (c3 * 256 + c2) * 256 + c1) by (subst x; zlia). rewrite E8.
  rewrite (u32_small (x + ((c3 * 256 + c2) * 256 + c1))) by (subst x; zlia).
  assert (E16 : (x + ((c3 * 256 + c2) * 256 + c1)) / 65536 = (c3 * 256 + (c3 + c2)))
    by (subst x; zlia).
  rewrite E16. rewrite u32_small by (subst x; zlia). subst x. zlia.
Qed.

Lemma getSetBits_steps value :
  let x1 := step1 0x55555555 value in
  let x2 := step2 0x33333333 x1 in
  0 <= x1 < 2 ^ 32 -> 0 <= x2 < 2 ^ 31 ->
  getSetBits value =
    let x := step3 0x0F0F0F0F x2 in
    let x := u32 (x + Z.shiftr x 8) in
    let x := u32 (x + Z.shiftr x 16) in
    Z.land x 0x3F.
Proof.
  intros x1 x2 H1 H2. unfold getSetBits. fold (step1 0x55555555 value). fold x1.
  rewrite (u32_small x1) by done. fold (step2 0x33333333 x1). fold x2.
  change (2 ^ 31) with 2147483648 in H2.
  rewrite (u32_small x2) by (unfold in_u32; lia).
  rewrite (u32_small (x2 + Z.shiftr x2 4))
    by (rewrite Z.shiftr_div_pow2 by lia; change (2 ^ 4) with 16; zlia).
  reflexivity.
Qed.

Lemma le_bytes_value l : bytes l -> le_bytes (length l) (le_value l) = l.
Proof.
  induction 1 as [|b l Hb Hl IH]; [done|]. cbn [length le_bytes le_value]. f_equal; [zlia|].
  etrans; [|exact IH]. f_equal. rewrite Z.shiftr_div_pow2 by lia. change (2 ^ 8) with 256. zlia.
Qed.

Lemma le_bytes_swrap n x :
  (0 < n)%nat -> le_bytes n (swrap (8 * Z.of_nat n) x) = le_bytes n x.
Proof.
  intros Hn. rewrite <- (le_bytes_mod n (swrap _ x)), <- (le_bytes_mod n x). f_equal.
  unfold swrap. rewrite Zminus_mod_idemp_l. f_equal. lia.
Qed.

(** ** Properties *)

(** Writing a value into a bit field and reading the field back returns
    the low bits of the value, the buffer keeps its length, and every bit
    outside the field is unchanged; neither access leaves the buffer. *)
Theorem bitfield_roundtrip (buf : list Z) (bitPos numOfBits val : Z) :
  bytes buf -> fieldOk buf bitPos numOfBits ->
  exists buf', setBitField buf bitPos numOfBits val = Some buf' /\
    length buf' = length buf /\
    getBitField buf' bitPos numOfBits = Some (val mod 2 ^ numOfBits) /\
    forall j, 0 <= j < 8 * Z.of_nat (length buf) -> ~ (bitPos <= j < bitPos + numOfBits) ->
      getBitFromByteStream buf' j = getBitFromByteStream buf j.
Proof.
  intros Hb Hok. destruct (setBitField_bits buf bitPos numOfBits val Hb Hok)
    as (buf' & E & Hb' & L' & Hbits).
  assert (Hok' : fieldOk buf' bitPos numOfBits) by (unfold fieldOk; by rewrite L').
  destruct (getBitField_bits buf' bitPos numOfBits Hb' Hok') as (v & Ev & Hv & Hvb).
  exists buf'. split; [done|]. split; [done|]. split.
  - rewrite Ev. f_equal. pose proof Hok as (Hp & Hn & Ho & Hl).
    apply Z.bits_inj'. intros i Hi. destruct (Z.lt_ge_cases i numOfBits).
    + rewrite Z.mod_pow2_bits_low by lia. specialize (Hvb i ltac:(lia)).
      assert (fieldBytes (bitPos mod 8 + numOfBits) * 8 >= bitPos mod 8 + numOfBits)
        by (unfold fieldBytes; repeat case_match; lia).
      rewrite Hbits in Hvb by zlia.
      destruct (Z.leb_spec bitPos (bitPos + numOfBits - 1 - i)),
        (Z.ltb_spec (bitPos + numOfBits - 1 - i) (bitPos + numOfBits)); try lia.
      cbn [andb] in Hvb. injection Hvb as Hvb. apply Z.b2z_inj in Hvb. rewrite <- Hvb.
      f_equal. lia.
    + by rewrite Z.mod_pow2_bits_high, (testbit_above numOfBits v) by lia.
  - intros j Hj Hnj. rewrite Hbits by done.
    destruct (Z.leb_spec bitPos j), (Z.ltb_spec j (bitPos + numOfBits)); cbn; try done. lia.
Qed.

Lemma bitfield_roundtrip_witness :
  exists buf', setBitField [0xFF; 0x12; 0x34] 5 11 0x2A5 = Some buf' /\
    length buf' = 3%nat /\
    getBitField buf' 5 11 = Some (0x2A5 mod 2 ^ 11) /\
    forall j, 0 <= j < 8 * Z.of_nat 3 -> ~ (5 <= j < 5 + 11) ->
      getBitFromByteStream buf' j = getBitFromByteStream [0xFF; 0x12; 0x34] j.
Proof.
  apply (bitfield_roundtrip [0xFF; 0x12; 0x34] 5 11 0x2A5).
  - repeat constructor; done.
  - unfold fieldOk, fieldBytes. vm_compute. intuition congruence.
Defined.

(** An array of any basic type serialized into a buffer with room for it
    is read back unchanged by the deserializer, both report the same number of
    bytes, and the rest of the buffer is untouched. *)
Theorem serializeArray_roundtrip (t : sty) (array buffer : list Z) :
  Forall (sty_val t) array ->
  (length array * sty_size t <= length buffer)%nat ->
  exists buffer', let n := (length array * sty_size t)%nat in
    serializeArray t array buffer 0 = Some (buffer', Z.of_nat n) /\
    deserializeArray t (length array) buffer' 0 = Some (array, Z.of_nat n) /\
    length buffer' = length buffer /\ drop n buffer' = drop n buffer.
Proof.
  intros Hv Hl. rewrite <- length_array_enc in *.
  pose proof (serializeArray_spec t array [] buffer Hv Hl) as S.
  pose proof (deserializeArray_spec t array [] (drop (length (array_enc t array)) buffer) Hv) as D.
  cbn [app length Nat.add] in S, D. eexists. cbv zeta. split; [exact S|]. split; [exact D|].
  rewrite length_app, length_drop, drop_app_length. split; [lia|done].
Qed.

Lemma serializeArray_roundtrip_witness :
  exists buffer',
    serializeArray TInt16 [-2; 300] [9; 9; 9; 9; 7] 0 = Some (buffer', 4) /\
    deserializeArray TInt16 2 buffer' 0 = Some ([-2; 300], 4) /\
    length buffer' = 5%nat /\ drop 4 buffer' = [7].
Proof.
  apply (serializeArray_roundtrip TInt16 [-2; 300] [9; 9; 9; 9; 7]).
  - repeat constructor; cbn; done.
  - cbn. lia.
Defined.

(** On a little-endian and on a big-endian host the converted value lies in
    memory as the big-endian bytes of the original: [intNConvertHost2Net]
    produces network order. *)
Theorem convertHost2Net_network_order (isHostBigEndian : bool) (v : Z) :
  host_bytes isHostBigEndian 2 (int16ConvertHost2Net isHostBigEndian v) = be_bytes 2 v /\
  host_bytes isHostBigEndian 4 (int32ConvertHost2Net isHostBigEndian v) = be_bytes 4 v /\
  host_bytes isHostBigEndian 8 (int64ConvertHost2Net isHostBigEndian v) = be_bytes 8 v.
Proof.
  destruct isHostBigEndian; [done|].
  unfold int16ConvertHost2Net, int32ConvertHost2Net, int64ConvertHost2Net.
  assert (G : forall n, (0 < n)%nat ->
    le_bytes n (swrap (8 * Z.of_nat n) (le_value (rev (le_bytes n v)))) = be_bytes n v).
  { intros n Hn. rewrite le_bytes_swrap by done. fold (be_bytes n v).
    rewrite <- (length_be_bytes n v) at 1. apply le_bytes_value, be_bytes_bytes. }
  split; [|split]; [apply (G 2%nat) | apply (G 4%nat) | apply (G 8%nat)]; lia.
Qed.

(** [getSetBits] counts the set bits of every 32-bit value. *)
Theorem getSetBits_popcount (value : Z) :
  in_u32 value -> getSetBits value = popcount 32 value.
Proof.
  intros Hv.
  assert (Ev : value = (((value / 16777216 * 256 + u8 (value / 65536)) * 256
                         + u8 (value / 256)) * 256 + u8 value)) by zlia.
  revert Ev. generalize (u8_range (value / 65536)) (u8_range (value / 256)) (u8_range value).
  assert (H3 : in_u8 (value / 16777216)) by zlia. revert H3.
  generalize (value / 16777216) (u8 (value / 65536)) (u8 (value / 256)) (u8 value).
  intros b3 b2 b1 b0 H3 H2 H1 H0 ->.
  destruct (steps_u32 b0 b1 b2 b3 H0 H1 H2 H3) as (R1 & R2 & E).
  rewrite getSetBits_steps, E by done. rewrite popcount_u32 by done.
  apply fold_counts; by apply byteStep_ok.
Qed.

Lemma getSetBits_popcount_witness : getSetBits 0xF000000F = popcount 32 0xF000000F.
Proof. apply getSetBits_popcount. done. Defined.

End ByteStream.
