(* ===== verification/Fifo.v ===== *)
(** * Ring-buffer fifos (api/fifo.h)

    The classes [Fifo], [BlockFifo] and [MultipleReaderFifo].  A fifo of
    length [len] keeps at most [len - 1] elements in [buffer] between the
    indices [readX] and [writeX].  The sequential operations are proved to
    implement a bounded queue; the asynchronous use by one writer and one
    reader is a step relation whose steps are the single accesses to the
    shared indices and cells, and every interleaving delivers the written
    values in order, none lost and none invented. *)

From S2P Require Import Prelude.
From stdpp Require Import relations.

#[local] Open Scope nat_scope.

Module Fifo.

Section Fifo.
Context {T : Type} (len : nat).

(** [advanceIndex] *)
Definition advanceIndex (index : nat) : nat :=
  if index <? len - 1 then index + 1 else 0.

Record t := mk {
  buffer : list T;
  writeX : nat;
  readX : nat;
  putErrors : Z;
  getErrors : Z
}.

(** The constructor; the array is not initialised, its content is arbitrary. *)
Definition init (b : list T) : t := mk b 0 0 0 0.

Definition put (f : t) (val : T) : bool * t :=
  let index := advanceIndex (writeX f) in
  if index =? readX f then
    (false, mk (buffer f) (writeX f) (readX f) (u32 (putErrors f + 1)) (getErrors f))
  else
    (true, mk (<[writeX f := val]> (buffer f)) index (readX f) (putErrors f) (getErrors f)).

(** [get] returns the value read, [None] when the fifo is empty. *)
Definition get (f : t) : option T * t :=
  if readX f =? writeX f then
    (None, mk (buffer f) (writeX f) (readX f) (putErrors f) (u32 (getErrors f + 1)))
  else
    (buffer f !! readX f,
     mk (buffer f) (writeX f) (advanceIndex (readX f)) (putErrors f) (getErrors f)).

Definition getLen (f : t) : nat := len.

Definition getElementCount (f : t) : nat :=
  let r := readX f in
  let w := writeX f in
  if r <=? w then w - r else len - r + w.

Definition getFreeSpaceCount (f : t) : nat := len - getElementCount f - 1.

Definition isFull (f : t) : bool := advanceIndex (writeX f) =? readX f.
Definition isEmpty (f : t) : bool := readX f =? writeX f.
Definition clear (f : t) : t := mk (buffer f) 0 0 (putErrors f) (getErrors f).

(** The [Putter] interface; [msg] is the object the pointer designates. *)
Definition putGeneric (sizeofType : nat) (f : t) (msgLen : nat) (msg : T) : bool * t :=
  if msgLen <=? sizeofType then put f msg else (false, f).

(** ** BlockFifo *)

(** The loop of [advanceIndexEx]: at most [newIndex] iterations when
    [0 < len]. *)
Fixpoint reduceIndex (fuel newIndex : nat) : option nat :=
  if len <=? newIndex then
    match fuel with
    | O => None
    | S fuel => reduceIndex fuel (newIndex - len)
    end
  else Some newIndex.
Definition advanceIndexEx (index advanceSize : nat) : option nat :=
  reduceIndex (index + advanceSize) (index + advanceSize).

(** The index of the granted block, [None] for the null pointer, and [maxLen]. *)
Definition getBufferToWrite (f : t) : option nat * nat :=
  let r := readX f in
  let w := writeX f in
  if r =? advanceIndex w then (None, 0)
  else if w <? r then (Some w, r - w - 1)
  else (Some w, if r =? 0 then len - w - 1 else len - w).

Definition writeConcluded (f : t) (numOfWrittenElements : nat) : option t :=
  w ← advanceIndexEx (writeX f) numOfWrittenElements;
  Some (mk (buffer f) w (readX f) (putErrors f) (getErrors f)).

Definition getBufferToRead (f : t) : option nat * nat :=
  let r := readX f in
  let w := writeX f in
  if r =? w then (None, 0)
  else if r <? w then (Some r, w - r)
  else (Some r, len - r).

Definition readConcluded (f : t) (sizeRed : nat) : option t :=
  r ← advanceIndexEx (readX f) sizeRed;
  Some (mk (buffer f) (writeX f) r (putErrors f) (getErrors f)).

(** What the caller of [getBufferToWrite] does with the granted pointer: it
    stores elements from index [w] on. *)
Fixpoint storeBlock (b : list T) (w : nat) (vals : list T) : list T :=
  match vals with
  | [] => b
  | v :: vals => storeBlock (<[w := v]> b) (S w) vals
  end.

(** ** The queue in the ring *)

Record wf (f : t) : Prop := {
  wf_len : length (buffer f) = len;
  wf_write : writeX f < len;
  wf_read : readX f < len
}.

(** The cell [i] places after [r]. *)
Definition cell (r i : nat) : nat := if r + i <? len then r + i else r + i - len.

Fixpoint ring (b : list T) (r n : nat) : list T :=
  match n with
  | O => []
  | S n => match b !! r with
           | Some x => x :: ring b (advanceIndex r) n
           | None => []
           end
  end.

(** The abstract value of a fifo: the elements waiting, oldest first. *)
Definition content (f : t) : list T := ring (buffer f) (readX f) (getElementCount f).

Lemma advanceIndex_lt i : 0 < len -> advanceIndex i < len.
Proof. unfold advanceIndex. destruct (Nat.ltb_spec i (len - 1)); lia. Qed.

Lemma advanceIndex_cell r i : r < len -> S i < len -> cell (advanceIndex r) i = cell r (S i).
Proof.
  unfold advanceIndex, cell. intros.
  destruct (Nat.ltb_spec r (len - 1)); repeat case_match; try lia;
    rewrite ?Nat.ltb_lt, ?Nat.ltb_ge in *; lia.
Qed.

Lemma cell_lt r i : r < len -> i < len -> cell r i < len.
Proof. unfold cell. intros. case_match; rewrite ?Nat.ltb_lt, ?Nat.ltb_ge in *; lia. Qed.

Lemma cell_0 r : r < len -> cell r 0 = r.
Proof. unfold cell. intros. case_match; rewrite ?Nat.ltb_lt, ?Nat.ltb_ge in *; lia. Qed.

Lemma cell_inj r i j : r < len -> i < len -> j < len -> cell r i = cell r j -> i = j.
Proof. unfold cell. intros. repeat case_match; rewrite ?Nat.ltb_lt, ?Nat.ltb_ge in *; lia. Qed.

Lemma length_ring b r n : length b = len -> r < len -> length (ring b r n) = n.
Proof.
  intros Hb. revert r. induction n as [|n IH]; intros r Hr; [done|]. cbn.
  destruct (lookup_lt_is_Some_2 b r) as [x Hx]; [lia|]. rewrite Hx. cbn.
  f_equal. apply IH, advanceIndex_lt. lia.
Qed.

Lemma lookup_ring b r n i :
  length b = len -> r < len -> n <= len -> i < n -> ring b r n !! i = b !! cell r i.
Proof.
  intros Hb. revert r i. induction n as [|n IH]; intros r i Hr Hn Hi; [lia|]. cbn.
  destruct (lookup_lt_is_Some_2 b r) as [x Hx]; [lia|]. rewrite Hx.
  destruct i as [|i]; [by rewrite cell_0|]. cbn.
  rewrite IH, advanceIndex_cell by (try apply advanceIndex_lt; lia). done.
Qed.

(** A list is the content as soon as it agrees cell by cell. *)
Lemma ring_unique b r n l :
  length b = len -> r < len -> n <= len -> length l = n ->
  (forall i, i < n -> l !! i = b !! cell r i) -> ring b r n = l.
Proof.
  intros Hb Hr Hn Hl H. apply list_eq. intros i. destruct (decide (i < n)).
  - by rewrite lookup_ring, H by done.
  - rewrite !lookup_ge_None_2; [done|lia|by rewrite length_ring; lia].
Qed.

Lemma elementCount_lt f : wf f -> getElementCount f < len.
Proof.
  intros [Hb Hw Hr]. unfold getElementCount. destruct (Nat.leb_spec (readX f) (writeX f)); lia.
Qed.

Lemma writeX_cell f : wf f -> writeX f = cell (readX f) (getElementCount f).
Proof.
  intros [Hb Hw Hr]. unfold getElementCount, cell.
  destruct (Nat.leb_spec (readX f) (writeX f)); case_match;
    rewrite ?Nat.ltb_lt, ?Nat.ltb_ge in *; lia.
Qed.

Lemma length_content f : wf f -> length (content f) = getElementCount f.
Proof. intros [Hb Hw Hr]. by apply length_ring. Qed.

Lemma isFull_count f : wf f -> isFull f = (getElementCount f =? len - 1).
Proof.
  intros [Hb Hw Hr]. unfold isFull, advanceIndex, getElementCount.
  destruct (Nat.ltb_spec (writeX f) (len - 1)), (Nat.leb_spec (readX f) (writeX f));
    match goal with |- (?a =? ?b) = (?c =? ?d) =>
      destruct (Nat.eqb_spec a b), (Nat.eqb_spec c d) end; lia || done.
Qed.

Lemma isEmpty_count f : wf f -> isEmpty f = (getElementCount f =? 0).
Proof.
  intros [Hb Hw Hr]. unfold isEmpty, getElementCount.
  destruct (Nat.leb_spec (readX f) (writeX f)), (Nat.eqb_spec (readX f) (writeX f));
    symmetry; apply Nat.eqb_eq || apply Nat.eqb_neq; lia.
Qed.

(** A store outside the waiting elements leaves them alone. *)
Lemma ring_insert_out b r n w v :
  length b = len -> r < len -> n <= len -> (forall i, i < n -> cell r i <> w) ->
  ring (<[w := v]> b) r n = ring b r n.
Proof.
  intros Hb Hr Hn Hw. apply ring_unique; rewrite ?length_insert, ?length_ring; try done.
  intros i Hi. rewrite lookup_ring, list_lookup_insert_ne by (done || symmetry; auto).
  done.
Qed.

Lemma put_spec f v :
  wf f ->
  let '(ok, f') := put f v in
  wf f' /\ ok = negb (isFull f) /\
  content f' = (if isFull f then content f else content f ++ [v]).
Proof.
  intros Hwf. pose proof (elementCount_lt f Hwf) as Hc. pose proof (isFull_count f Hwf) as Hf.
  pose proof (writeX_cell f Hwf) as Hw. unfold put. fold (isFull f).
  destruct (isFull f) eqn:E; [destruct Hwf; repeat split; done|].
  symmetry in Hf. apply Nat.eqb_neq in Hf.
  set (f' := mk _ _ _ _ _). destruct Hwf as [Hb Hwx Hr].
  assert (Hwf' : wf f') by (split; cbn; [by rewrite length_insert | apply advanceIndex_lt; lia | done]).
  assert (Hcount : getElementCount f' = S (getElementCount f)).
  { subst f'. revert Hf. unfold getElementCount, advanceIndex. cbn [writeX readX].
    destruct (Nat.ltb_spec (writeX f) (len - 1)), (Nat.leb_spec (readX f) (writeX f)); intros Hf;
    match goal with |- (if ?a <=? ?b then _ else _) = _ => destruct (Nat.leb_spec a b) end;
    lia. }
  split; [done|]. split; [done|]. unfold content at 1. rewrite Hcount.
  apply ring_unique; [apply Hwf' | apply Hwf' | lia | |].
  { rewrite length_app, length_content by done. cbn. lia. }
  intros i Hi. cbn. destruct (decide (i = getElementCount f)) as [->|].
  - rewrite lookup_app_r by (rewrite length_content by done; lia).
    rewrite length_content, Nat.sub_diag by done. cbn.
    rewrite <- Hw, list_lookup_insert_eq by lia. done.
  - rewrite lookup_app_l by (rewrite length_content by done; lia).
    unfold content. rewrite lookup_ring by lia.
    rewrite list_lookup_insert_ne; [done|]. rewrite Hw. intros ?%cell_inj; lia.
Qed.

Lemma get_spec f :
  wf f ->
  let '(val, f') := get f in
  wf f' /\ val = head (content f) /\ content f' = tail (content f) /\
  (isEmpty f = true <-> content f = []).
Proof.
  intros Hwf. pose proof (elementCount_lt f Hwf) as Hc. pose proof (isEmpty_count f Hwf) as He.
  pose proof (length_content f Hwf) as Hl. unfold get. fold (isEmpty f).
  destruct (isEmpty f) eqn:E.
  - symmetry in He. apply Nat.eqb_eq in He. rewrite He in Hl. apply nil_length_inv in Hl.
    split; [by destruct Hwf|]. cbn. unfold content at 2. cbn. fold (content f).
    rewrite Hl. done.
  - symmetry in He. apply Nat.eqb_neq in He. destruct Hwf as [Hb Hw Hr].
    set (f' := mk _ _ _ _ _).
    assert (Hwf' : wf f') by (split; cbn; [done | done | apply advanceIndex_lt; lia]).
    destruct (lookup_lt_is_Some_2 (buffer f) (readX f)) as [x Hx]; [lia|].
    assert (Ec : content f = x :: ring (buffer f) (advanceIndex (readX f)) (getElementCount f - 1)).
    { unfold content. destruct (getElementCount f) as [|n] eqn:En; [lia|]. cbn.
      by rewrite Hx, Nat.sub_0_r. }
    split; [done|]. rewrite Ec, Hx. cbn. split; [done|]. split; [|done].
    unfold content. f_equal. subst f'. revert He. unfold getElementCount, advanceIndex. cbn [writeX readX].
    destruct (Nat.ltb_spec (readX f) (len - 1)), (Nat.leb_spec (readX f) (writeX f)); intros He;
      match goal with |- (if ?a <=? ?b then _ else _) = _ => destruct (Nat.leb_spec a b) end;
      lia.
Qed.

(** ** The bounded queue the class promises *)

Inductive op := OPut (v : T) | OGet | OCount | OFree | OIsFull | OIsEmpty | OClear.
Inductive result := RBool (b : bool) | RVal (v : option T) | RNat (n : nat) | RUnit.

Definition exec (f : t) (o : op) : result * t :=
  match o with
  | OPut v => let '(ok, f) := put f v in (RBool ok, f)
  | OGet => let '(v, f) := get f in (RVal v, f)
  | OCount => (RNat (getElementCount f), f)
  | OFree => (RNat (getFreeSpaceCount f), f)
  | OIsFull => (RBool (isFull f), f)
  | OIsEmpty => (RBool (isEmpty f), f)
  | OClear => (RUnit, clear f)
  end.

Definition spec_exec (q : list T) (o : op) : result * list T :=
  let room := length q <? len - 1 in
  match o with
  | OPut v => (RBool room, if room then q ++ [v] else q)
  | OGet => (RVal (head q), tail q)
  | OCount => (RNat (length q), q)
  | OFree => (RNat (len - 1 - length q), q)
  | OIsFull => (RBool (negb room), q)
  | OIsEmpty => (RBool (match q with [] => true | _ => false end), q)
  | OClear => (RUnit, [])
  end.

Fixpoint run {S} (step : S -> op -> result * S) (s : S) (os : list op) : list result * S :=
  match os with
  | [] => ([], s)
  | o :: os => let '(r, s) := step s o in
               let '(rs, s) := run step s os in (r :: rs, s)
  end.

Lemma exec_refines f o :
  wf f ->
  let '(r, f') := exec f o in
  wf f' /\ spec_exec (content f) o = (r, content f').
Proof.
  intros Hwf. pose proof (length_content f Hwf) as Hl.
  pose proof (elementCount_lt f Hwf) as Hc. pose proof (isFull_count f Hwf) as Hf.
  pose proof (isEmpty_count f Hwf) as He.
  assert (Hroom : (length (content f) <? len - 1) = negb (isFull f)).
  { rewrite Hl, Hf. destruct (Nat.ltb_spec (getElementCount f) (len - 1)),
      (Nat.eqb_spec (getElementCount f) (len - 1)); lia || done. }
  destruct o as [v| | | | | |]; cbn [exec]; unfold spec_exec; rewrite ?Hroom.
  - pose proof (put_spec f v Hwf) as H. destruct (put f v) as [ok f'].
    destruct H as (Hwf' & -> & ->). split; [done|]. by destruct (isFull f).
  - pose proof (get_spec f Hwf) as H. destruct (get f) as [v f'].
    destruct H as (Hwf' & -> & -> & _). done.
  - by rewrite Hl.
  - split; [done|]. unfold getFreeSpaceCount. do 2 f_equal. lia.
  - by rewrite negb_involutive.
  - split; [done|]. rewrite He. do 2 f_equal. rewrite <- Hl.
    destruct (content f); [done|]. symmetry. by apply Nat.eqb_neq.
  - destruct Hwf as [Hb Hw Hr]. split; [split; cbn; lia|]. done.
Qed.

Lemma run_refines f os :
  wf f ->
  let '(rs, f') := run exec f os in
  wf f' /\ run spec_exec (content f) os = (rs, content f').
Proof.
  revert f. induction os as [|o os IH]; intros f Hwf; [done|]. cbn [run].
  pose proof (exec_refines f o Hwf) as H. destruct (exec f o) as [r f'].
  destruct H as [Hwf' ->]. specialize (IH f' Hwf'). destruct (run exec f' os) as [rs f''].
  destruct IH as [Hwf'' ->]. done.
Qed.

(** ** Blocks *)

Lemma reduceIndex_mod fuel n :
  0 < len -> n <= fuel -> reduceIndex fuel n = Some (n mod len).
Proof.
  intros Hlen. revert n. induction fuel as [|fuel IH]; intros n Hn; cbn [reduceIndex];
    destruct (Nat.leb_spec len n); try lia.
  - by rewrite Nat.mod_small by lia.
  - rewrite IH by lia. f_equal. rewrite <- (Nat.Div0.mod_add (n - len) 1). f_equal. lia.
  - by rewrite Nat.mod_small by lia.
Qed.

Lemma advanceIndexEx_mod i k : 0 < len -> advanceIndexEx i k = Some ((i + k) mod len).
Proof. intros. by apply reduceIndex_mod. Qed.

Lemma advanceIndexEx_wrap i k :
  i < len -> i + k <= len ->
  advanceIndexEx i k = Some (if i + k <? len then i + k else 0).
Proof.
  intros Hi Hk. rewrite advanceIndexEx_mod by lia. f_equal.
  destruct (Nat.ltb_spec (i + k) len); [by apply Nat.mod_small|].
  replace (i + k) with len by lia. apply Nat.Div0.mod_same.
Qed.

Lemma length_storeBlock b w vals : length (storeBlock b w vals) = length b.
Proof.
  revert b w. induction vals as [|v vals IH]; intros b w; cbn; [done|].
  by rewrite IH, length_insert.
Qed.

Lemma lookup_storeBlock b w vals j :
  w + length vals <= length b ->
  storeBlock b w vals !! j =
    if (w <=? j) && (j <? w + length vals) then vals !! (j - w) else b !! j.
Proof.
  revert b w. induction vals as [|v vals IH]; intros b w H; cbn [storeBlock length] in *.
  { destruct (Nat.leb_spec w j), (Nat.ltb_spec j (w + 0)); try lia; done. }
  rewrite IH by (rewrite length_insert; lia).
  destruct (Nat.leb_spec (S w) j), (Nat.ltb_spec j (S w + length vals)),
    (Nat.leb_spec w j), (Nat.ltb_spec j (w + S (length vals))); try lia; cbn [andb].
  - replace (j - w) with (S (j - S w)) by lia. done.
  - rewrite list_lookup_insert_ne by lia. done.
  - replace j with w by lia. rewrite list_lookup_insert_eq, Nat.sub_diag by lia. done.
  - rewrite list_lookup_insert_ne by lia. done.
Qed.

Lemma writeBlock_spec f w m vals :
  wf f -> getBufferToWrite f = (Some w, m) -> length vals <= m ->
  exists f', writeConcluded (mk (storeBlock (buffer f) w vals) (writeX f) (readX f)
                                (putErrors f) (getErrors f)) (length vals) = Some f' /\
    wf f' /\ content f' = content f ++ vals.
Proof.
  intros Hwf Hg Hv. pose proof (elementCount_lt f Hwf) as Hc.
  pose proof (writeX_cell f Hwf) as Hw. pose proof (length_content f Hwf) as Hlc.
  pose proof Hwf as [Hb Hwx Hr]. unfold getBufferToWrite in Hg.
  destruct (Nat.eqb_spec (readX f) (advanceIndex (writeX f))) as [|Hnf]; [done|].
  assert (w = writeX f) as -> by (repeat case_match; congruence).
  assert (Hm : writeX f + m <= len /\ getElementCount f + m <= len - 1 /\
    (writeX f + m = len -> readX f <> 0)).
  { revert Hnf Hg. unfold advanceIndex, getElementCount.
    destruct (Nat.ltb_spec (writeX f) (len - 1)), (Nat.leb_spec (readX f) (writeX f)),
      (Nat.ltb_spec (writeX f) (readX f)), (Nat.eqb_spec (readX f) 0); intros; simplify_eq; lia. }
  unfold writeConcluded. cbn [writeX]. rewrite advanceIndexEx_wrap by lia.
  cbn [mbind option_bind buffer readX putErrors getErrors].
  eexists. split; [reflexivity|]. set (f' := mk _ _ _ _ _).
  assert (Hwf' : wf f').
  { split; cbn [f' buffer writeX readX]; [by rewrite length_storeBlock | | done].
    destruct (Nat.ltb_spec (writeX f + length vals) len); lia. }
  split; [done|].
  assert (Hcount : getElementCount f' = getElementCount f + length vals).
  { destruct Hm as (Hm1 & Hm2 & Hm3). revert Hm2. unfold getElementCount.
    cbn [f' writeX readX].
    destruct (Nat.ltb_spec (writeX f + length vals) len), (Nat.leb_spec (readX f) (writeX f));
      intros Hm2; match goal with |- (if ?a <=? ?b then _ else _) = _ =>
        destruct (Nat.leb_spec a b) end; lia. }
  unfold content at 1. rewrite Hcount.
  apply ring_unique; [apply Hwf' | apply Hwf' | lia | rewrite length_app; lia |].
  intros i Hi. cbn [f' buffer readX]. rewrite lookup_storeBlock by lia.
  destruct (decide (i < getElementCount f)) as [Hlt|Hge].
  - rewrite lookup_app_l by lia. unfold content. rewrite lookup_ring by lia.
    destruct (Nat.leb_spec (writeX f) (cell (readX f) i)),
      (Nat.ltb_spec (cell (readX f) i) (writeX f + length vals)); cbn [andb]; try done.
    exfalso. rewrite Hw in *. clear Hw.
    assert (cell (readX f) (getElementCount f) + length vals <= len) by lia.
    revert H H0. unfold cell in *. repeat case_match; rewrite ?Nat.ltb_lt, ?Nat.ltb_ge in *; lia.
  - rewrite lookup_app_r by lia. rewrite Hlc.
    assert (Hcell : cell (readX f) i = writeX f + (i - getElementCount f)).
    { rewrite Hw. rewrite Hw in Hm. unfold cell in *.
      repeat case_match; rewrite ?Nat.ltb_lt, ?Nat.ltb_ge in *; lia. }
    rewrite Hcell. destruct (Nat.leb_spec (writeX f) (writeX f + (i - getElementCount f))),
      (Nat.ltb_spec (writeX f + (i - getElementCount f)) (writeX f + length vals)); try lia.
    cbn [andb]. f_equal. lia.
Qed.

Lemma readBlock_spec f r m k :
  wf f -> getBufferToRead f = (Some r, m) -> k <= m ->
  exists f', readConcluded f k = Some f' /\ wf f' /\
    take k (drop r (buffer f)) = take k (content f) /\ content f' = drop k (content f).
Proof.
  intros Hwf Hg Hk. pose proof (elementCount_lt f Hwf) as Hc.
  pose proof (length_content f Hwf) as Hlc. pose proof Hwf as [Hb Hwx Hr].
  unfold getBufferToRead in Hg.
  destruct (Nat.eqb_spec (readX f) (writeX f)) as [|Hne]; [done|].
  assert (r = readX f) as -> by (repeat case_match; congruence).
  assert (Hm : readX f + m <= len /\ m <= getElementCount f).
  { revert Hg. unfold getElementCount.
    destruct (Nat.ltb_spec (readX f) (writeX f)), (Nat.leb_spec (readX f) (writeX f));
      intros; simplify_eq; lia. }
  unfold readConcluded. rewrite advanceIndexEx_wrap by lia.
  cbn [mbind option_bind]. eexists. split; [reflexivity|]. set (f' := mk _ _ _ _ _).
  assert (Hwf' : wf f').
  { split; cbn [f' buffer writeX readX]; [done | done |].
    destruct (Nat.ltb_spec (readX f + k) len); lia. }
  split; [done|]. split.
  - apply list_eq. intros i. destruct (decide (i < k)).
    + rewrite !lookup_take_lt, lookup_drop by lia. unfold content.
      rewrite lookup_ring by lia. unfold cell.
      destruct (Nat.ltb_spec (readX f + i) len); [done|lia].
    + rewrite !lookup_ge_None_2; [done|rewrite length_take; lia|rewrite length_take; lia].
  - assert (Hcount : getElementCount f' = getElementCount f - k).
    { destruct Hm as [Hm1 Hm2]. revert Hm2. unfold getElementCount. cbn [f' writeX readX].
      destruct (Nat.ltb_spec (readX f + k) len), (Nat.leb_spec (readX f) (writeX f));
      intros Hm2; match goal with |- (if ?a <=? ?b then _ else _) = _ =>
        destruct (Nat.leb_spec a b) end; lia. }
    unfold content at 1. rewrite Hcount.
    apply ring_unique; [apply Hwf' | apply Hwf' | lia | rewrite length_drop; lia |].
    intros i Hi. rewrite lookup_drop. unfold content. rewrite lookup_ring by lia.
    cbn [f' buffer readX]. f_equal. unfold cell.
    destruct (Nat.ltb_spec (readX f + k) len);
      repeat case_match; rewrite ?Nat.ltb_lt, ?Nat.ltb_ge in *; lia.
Qed.

(** ** One writer and one reader, interleaved

    The steps of [put] and [get] between two accesses to memory that the other
    side also uses.  [put] reads [readX] once, then stores the element, then
    publishes the new [writeX]; [get] reads [writeX] once, then loads the
    element, then publishes the new [readX]. *)

Inductive wpc := WIdle | WStore (index : nat) (val : T) | WPublish (index : nat) (val : T).
Inductive rpc := RIdle | RLoad | RPublish (val : T).

Record astate := ASt {
  shared : t;
  writer : wpc;
  reader : rpc;
  sent : list T;      (* values whose [put] returned true *)
  received : list T   (* values whose [get] returned true *)
}.

Inductive astep : astate -> astate -> Prop :=
  | put_full f r s c :
      advanceIndex (writeX f) = readX f ->
      astep (ASt f WIdle r s c)
            (ASt (mk (buffer f) (writeX f) (readX f) (u32 (putErrors f + 1)) (getErrors f))
                 WIdle r s c)
  | put_begin f r s c v :
      advanceIndex (writeX f) <> readX f ->
      astep (ASt f WIdle r s c) (ASt f (WStore (advanceIndex (writeX f)) v) r s c)
  | put_store f r s c index v :
      astep (ASt f (WStore index v) r s c)
            (ASt (mk (<[writeX f := v]> (buffer f)) (writeX f) (readX f) (putErrors f) (getErrors f))
                 (WPublish index v) r s c)
  | put_publish f r s c index v :
      astep (ASt f (WPublish index v) r s c)
            (ASt (mk (buffer f) index (readX f) (putErrors f) (getErrors f)) WIdle r (s ++ [v]) c)
  | get_empty f w s c :
      readX f = writeX f ->
      astep (ASt f w RIdle s c)
            (ASt (mk (buffer f) (writeX f) (readX f) (putErrors f) (u32 (getErrors f + 1)))
                 w RIdle s c)
  | get_begin f w s c :
      readX f <> writeX f -> astep (ASt f w RIdle s c) (ASt f w RLoad s c)
  | get_load f w s c v :
      buffer f !! readX f = Some v ->
      astep (ASt f w RLoad s c) (ASt f w (RPublish v) s c)
  | get_publish f w s c v :
      astep (ASt f w (RPublish v) s c)
            (ASt (mk (buffer f) (writeX f) (advanceIndex (readX f)) (putErrors f) (getErrors f))
                 w RIdle s (c ++ [v])).

Definition astart (b : list T) : astate := ASt (init b) WIdle RIdle [] [].

Definition writer_ok (f : t) (w : wpc) : Prop :=
  match w with
  | WIdle => True
  | WStore index v => index = advanceIndex (writeX f) /\ isFull f = false
  | WPublish index v =>
      index = advanceIndex (writeX f) /\ isFull f = false /\ buffer f !! writeX f = Some v
  end.
Definition reader_ok (f : t) (r : rpc) : Prop :=
  match r with
  | RIdle => True
  | RLoad => isEmpty f = false
  | RPublish v => isEmpty f = false /\ head (content f) = Some v
  end.

Record ainv (s : astate) : Prop := {
  ainv_wf : wf (shared s);
  ainv_w : writer_ok (shared s) (writer s);
  ainv_r : reader_ok (shared s) (reader s);
  ainv_data : sent s = received s ++ content (shared s)
}.

Lemma content_errors f pe ge :
  content (mk (buffer f) (writeX f) (readX f) pe ge) = content f.
Proof. done. Qed.

(** Storing into the free cell under [writeX] does not disturb the queue. *)
Lemma content_store f v pe ge :
  wf f -> content (mk (<[writeX f := v]> (buffer f)) (writeX f) (readX f) pe ge) = content f.
Proof.
  intros Hwf. pose proof (elementCount_lt f Hwf). pose proof Hwf as [Hb Hw Hr].
  apply ring_insert_out; [done | done | unfold getElementCount in *; cbn [writeX readX]; lia |].
  intros i Hi. rewrite (writeX_cell f Hwf). intros Hc%cell_inj; try done; unfold getElementCount in *;
    cbn [writeX readX] in *; lia.
Qed.

Lemma isEmpty_content f : wf f -> isEmpty f = false <-> content f <> [].
Proof.
  intros Hwf. rewrite isEmpty_count, Nat.eqb_neq by done. rewrite <- length_content by done.
  destruct (content f); cbn; split; (lia || done).
Qed.

Lemma content_head f : wf f -> isEmpty f = false -> head (content f) = buffer f !! readX f.
Proof.
  intros Hwf He. rewrite isEmpty_count, Nat.eqb_neq in He by done.
  unfold content. destruct (getElementCount f); [done|]. cbn. by destruct (buffer f !! readX f).
Qed.

(** [advanceIndex (writeX f)] published over a stored element is [put]. *)
Lemma put_store_publish f v :
  wf f -> isFull f = false -> buffer f !! writeX f = Some v ->
  let f' := mk (buffer f) (advanceIndex (writeX f)) (readX f) (putErrors f) (getErrors f) in
  wf f' /\ content f' = content f ++ [v].
Proof.
  intros Hwf Hf Hv. pose proof (put_spec f v Hwf) as H. unfold put in H.
  change (advanceIndex (writeX f) =? readX f) with (isFull f) in H.
  rewrite Hf, list_insert_id in H by done. destruct H as (? & _ & ?). done.
Qed.

Lemma get_publish_spec f :
  wf f -> isEmpty f = false ->
  let f' := mk (buffer f) (writeX f) (advanceIndex (readX f)) (putErrors f) (getErrors f) in
  wf f' /\ content f' = tail (content f) /\ (isFull f' = false).
Proof.
  intros Hwf He. pose proof (get_spec f Hwf) as H. unfold get in H.
  change (readX f =? writeX f) with (isEmpty f) in H.
  rewrite He in H. destruct H as (Hwf' & _ & Hc & _).
  split; [done|]. split; [done|].
  pose proof (length_content f Hwf). pose proof (elementCount_lt f Hwf).
  rewrite isFull_count, Nat.eqb_neq, <- length_content by done. rewrite Hc.
  apply isEmpty_content in He; [|done]. destruct (content f); cbn in *; [done|]. lia.
Qed.

#[local] Ltac proj := cbn [shared writer reader sent received writer_ok reader_ok] in *.

Lemma astep_inv s s' : ainv s -> astep s s' -> ainv s'.
Proof.
  intros [Hwf Hw Hr Hd] Hs. destruct Hs; proj.
  - split; proj; [by destruct Hwf | done | by destruct r | done].
  - split; proj; try done. split; [done|]. by apply Nat.eqb_neq.
  - destruct Hw as [-> Hf]. pose proof (content_store f v (putErrors f) (getErrors f) Hwf) as Hc.
    destruct Hwf as [Hb Hwx Hrx]. split; proj.
    + by split; cbn; rewrite ?length_insert.
    + split; [done|]. split; [done|]. apply list_lookup_insert_eq. lia.
    + destruct r; proj; try done. by rewrite Hc.
    + by rewrite Hc.
  - destruct Hw as (-> & Hf & Hv). destruct (put_store_publish f v Hwf Hf Hv) as [Hwf' Hc].
    split; proj; [done | done | | by rewrite Hc, Hd, app_assoc].
    destruct r; proj; [done| |].
    + apply isEmpty_content; [done|]. rewrite Hc. by destruct (content f).
    + destruct Hr as [He Hh]. split.
      * apply isEmpty_content; [done|]. rewrite Hc. by destruct (content f).
      * rewrite Hc. by destruct (content f).
  - split; proj; [by destruct Hwf | by destruct w | done | done].
  - split; proj; try done. by apply Nat.eqb_neq.
  - split; proj; try done. split; [done|]. by rewrite content_head.
  - destruct Hr as [He Hh]. destruct (get_publish_spec f Hwf He) as (Hwf' & Hc & Hf').
    split; proj; [done | | done |].
    + destruct w; proj; [done | tauto | tauto].
    + rewrite Hc, Hd, <- app_assoc. f_equal. destruct (content f); [done|]. cbn in *. congruence.
Qed.

Lemma ainv_start b : 0 < len -> length b = len -> ainv (astart b).
Proof. intros Hl Hb. by split; cbn; try done; split; cbn. Qed.

Lemma areach_inv s s' : ainv s -> rtc astep s s' -> ainv s'.
Proof. intros H. induction 1; eauto using astep_inv. Qed.

(** ** MultipleReaderFifo *)

Record mt := MMk {
  mbuffer : list T;
  mwriteX : nat;
  mreadX : list nat;
  overflowCnt : list Z;
  readerCnt : Z
}.

Definition minit (numOfreaders : nat) (b : list T) : mt :=
  MMk b 0 (replicate numOfreaders 0) (replicate numOfreaders 0%Z) 0%Z.

Definition getReaderId (m : mt) : Z * mt :=
  let myId := readerCnt m in
  (if (Z.of_nat (length (mreadX m)) <=? myId)%Z then (-1)%Z else myId,
   MMk (mbuffer m) (mwriteX m) (mreadX m) (overflowCnt m) (u32 (readerCnt m + 1))).

(** One pass of the loop in [put]: a reader that would be overrun is shifted. *)
Definition shiftReader (nextIndex : nat) (rc : nat * Z) : nat * Z :=
  let '(r, cnt) := rc in
  if nextIndex =? r then (advanceIndex r, u32 (cnt + 1)) else (r, cnt).

Definition mput (m : mt) (val : T) : nat * mt :=
  let writtenPos := mwriteX m in
  let nextIndex := advanceIndex (mwriteX m) in
  let rcs := map (shiftReader nextIndex) (zip (mreadX m) (overflowCnt m)) in
  (writtenPos,
   MMk (<[mwriteX m := val]> (mbuffer m)) nextIndex (map fst rcs) (map snd rcs) (readerCnt m)).

Definition mget (m : mt) (readerId : nat) : option T * mt :=
  match mreadX m !! readerId with
  | None => (None, m)
  | Some r =>
      if r =? mwriteX m then (None, m)
      else (mbuffer m !! r,
            MMk (mbuffer m) (mwriteX m) (<[readerId := advanceIndex r]> (mreadX m))
                (overflowCnt m) (readerCnt m))
  end.

(** Reader [i] sees the shared buffer through its own read index. *)
Definition view (m : mt) (r : nat) : t := mk (mbuffer m) (mwriteX m) r 0 0.

Record mwf (m : mt) : Prop := {
  mwf_len : length (mbuffer m) = len;
  mwf_write : mwriteX m < len;
  mwf_read : Forall (fun r => r < len) (mreadX m);
  mwf_cnt : length (overflowCnt m) = length (mreadX m)
}.

Lemma mwf_view m i r : mwf m -> mreadX m !! i = Some r -> wf (view m r).
Proof.
  intros [Hb Hw Hr Hc] Hi. split; cbn; [done | done |].
  by apply (Forall_lookup_1 _ _ _ _ Hr Hi).
Qed.

Lemma mput_reader m v i r :
  mwf m -> mreadX m !! i = Some r ->
  mreadX (snd (mput m v)) !! i =
    Some (if isFull (view m r) then advanceIndex r else r).
Proof.
  intros [Hb Hw Hr Hc] Hi. cbn [mput snd mreadX].
  destruct (lookup_lt_is_Some_2 (overflowCnt m) i) as [c Hci].
  { rewrite Hc. by apply lookup_lt_Some in Hi. }
  rewrite !list_lookup_fmap, lookup_zip_with, Hi. cbn [mbind option_bind]. rewrite Hci.
  cbn [mbind option_bind fmap option_fmap option_map shiftReader]. unfold isFull. cbn [view writeX readX].
  by destruct (advanceIndex (mwriteX m) =? r).
Qed.

(** The overrun reader first loses its oldest element, then gets the new one. *)
Lemma view_put_content m v r :
  2 <= len -> wf (view m r) ->
  content (mk (<[mwriteX m := v]> (mbuffer m)) (advanceIndex (mwriteX m))
              (if isFull (view m r) then advanceIndex r else r) 0 0) =
  (if isFull (view m r) then tail (content (view m r)) else content (view m r)) ++ [v].
Proof.
  intros Hlen Hwf. destruct (isFull (view m r)) eqn:Hf.
  - assert (He : isEmpty (view m r) = false).
    { rewrite isFull_count in Hf by done. rewrite isEmpty_count by done.
      apply Nat.eqb_eq in Hf. apply Nat.eqb_neq. lia. }
    destruct (get_publish_spec (view m r) Hwf He) as (Hwf' & Hc & Hf').
    pose proof (put_spec _ v Hwf') as H. unfold put in H.
    match type of H with context [if ?c then _ else _] =>
      change c with (isFull (mk (buffer (view m r)) (writeX (view m r)) (advanceIndex (readX (view m r)))
        (putErrors (view m r)) (getErrors (view m r)))) in H end.
    rewrite Hf', Hc in H. by destruct H as (_ & _ & H).
  - pose proof (put_spec _ v Hwf) as H. unfold put in H.
    match type of H with context [if ?c then _ else _] => change c with (isFull (view m r)) in H end.
    rewrite Hf in H. by destruct H as (_ & _ & H).
Qed.

Lemma mput_wf m v : mwf m -> mwf (snd (mput m v)).
Proof.
  intros [Hb Hw Hr Hc]. split; cbn [mput snd mbuffer mwriteX mreadX overflowCnt].
  - by rewrite length_insert.
  - apply advanceIndex_lt. lia.
  - rewrite Forall_lookup. intros i r. rewrite !list_lookup_fmap, lookup_zip_with.
    destruct (mreadX m !! i) as [r0|] eqn:E; [|done]. cbn [mbind option_bind].
    destruct (overflowCnt m !! i); [|done].
    cbn [mbind option_bind fmap option_fmap option_map shiftReader]. intros [= <-].
    apply (Forall_lookup_1 _ _ _ _ Hr) in E. case_match; cbn; [apply advanceIndex_lt|]; lia.
  - by rewrite !length_map.
Qed.

(** ** Properties *)

(** C4: Every sequence of [Fifo] operations on a fresh fifo returns exactly what
    the bounded queue of capacity [len - 1] returns: elements come out in the
    order they went in, [put] fails exactly when the queue is full, [get]
    exactly when it is empty, and the counters agree. *)
Theorem fifo_refines_queue (b : list T) (os : list op) :
  0 < len -> length b = len ->
  fst (run exec (init b) os) = fst (run spec_exec [] os) /\
  content (snd (run exec (init b) os)) = snd (run spec_exec [] os).
Proof.
  intros Hl Hb. assert (Hwf : wf (init b)) by (split; cbn; lia).
  pose proof (run_refines (init b) os Hwf) as H.
  destruct (run exec (init b) os) as [rs f']. destruct H as [_ H].
  change (content (init b)) with (@nil T) in H. by rewrite H.
Qed.

(** C35: One writer and one reader may use a [Fifo] without any lock: whatever
    the interleaving of their accesses, the values received are a prefix of
    the values sent, in order, and the rest is exactly what waits in the ring. *)
Theorem fifo_async_safe (b : list T) (s : astate) :
  0 < len -> length b = len -> rtc astep (astart b) s ->
  sent s = received s ++ content (shared s) /\
  (length (sent s) - length (received s) < len)%nat.
Proof.
  intros Hl Hb Hs.
  destruct (areach_inv _ _ (ainv_start b Hl Hb) Hs) as [Hwf _ _ Hd].
  split; [done|]. rewrite Hd, length_app, length_content by done.
  pose proof (elementCount_lt _ Hwf). lia.
Qed.

(** A block granted by [BlockFifo::getBufferToWrite] may be filled up to
    the granted length: concluding it appends exactly the stored elements to
    the queue. A block granted by [getBufferToRead] holds the oldest elements,
    and concluding it removes exactly the number of elements read. *)
Theorem blockfifo_blocks (f : t) (w r m m' k : nat) (vals : list T) :
  wf f ->
  (getBufferToWrite f = (Some w, m) -> length vals <= m ->
   exists f', writeConcluded (mk (storeBlock (buffer f) w vals) (writeX f) (readX f)
                                 (putErrors f) (getErrors f)) (length vals) = Some f' /\
     content f' = content f ++ vals) /\
  (getBufferToRead f = (Some r, m') -> k <= m' ->
   exists f', readConcluded f k = Some f' /\
     take k (drop r (buffer f)) = take k (content f) /\ content f' = drop k (content f)).
Proof.
  intros Hwf. split.
  - intros Hg Hv. destruct (writeBlock_spec f w m vals Hwf Hg Hv) as (f' & ? & _ & ?). eauto.
  - intros Hg Hk. destruct (readBlock_spec f r m' k Hwf Hg Hk) as (f' & ? & _ & ? & ?). eauto.
Qed.

(** [MultipleReaderFifo::put] never fails; every reader that is not full
    sees the new element appended, a full reader loses exactly its oldest
    element. *)
Theorem multireader_put (m : mt) (v : T) (i r : nat) :
  2 <= len -> mwf m -> mreadX m !! i = Some r ->
  exists r', mreadX (snd (mput m v)) !! i = Some r' /\
    mwf (snd (mput m v)) /\
    content (view (snd (mput m v)) r') =
      (if isFull (view m r) then tail (content (view m r)) else content (view m r)) ++ [v].
Proof.
  intros Hlen Hwf Hi. eexists. split; [by apply mput_reader|]. split; [by apply mput_wf|].
  apply view_put_content; [done|]. by apply (mwf_view m i).
Qed.

End Fifo.
Arguments t : clear implicits.
Arguments mk {T}.

Lemma fifo_refines_queue_witness :
  fst (run (exec 3) (init [0; 0; 0]) [OPut 1; OPut 2; OPut 3; OGet; OPut 4; OGet; OGet; OGet])
  = fst (run (spec_exec 3) [] [OPut 1; OPut 2; OPut 3; OGet; OPut 4; OGet; OGet; OGet]) /\
  content 3 (snd (run (exec 3) (init [0; 0; 0]) [OPut 1; OPut 2; OPut 3; OGet; OPut 4; OGet; OGet; OGet]))
  = snd (run (spec_exec 3) [] [OPut 1; OPut 2; OPut 3; OGet; OPut 4; OGet; OGet; OGet]).
Proof. apply (fifo_refines_queue 3 [0; 0; 0]); [lia | done]. Defined.

Lemma fifo_async_safe_witness :
  exists s, rtc (astep 2) (astart [7; 7]) s /\ received s = [5] /\
    sent s = received s ++ content 2 (shared s).
Proof.
  eexists. assert (R : rtc (astep 2) (astart [7; 7])
    (ASt (mk [5; 7] 1 1 0 0) WIdle RIdle [5] [5])).
  { unfold astart, init.
    eapply rtc_l; [eapply put_begin with (v := 5); done|].
    eapply rtc_l; [eapply put_store|].
    eapply rtc_l; [eapply put_publish|].
    eapply rtc_l; [eapply get_begin; done|].
    eapply rtc_l; [eapply get_load; reflexivity|].
    eapply rtc_l; [eapply get_publish|]. apply rtc_refl. }
  split; [exact R|]. split; [reflexivity|].
  apply (fifo_async_safe 2 [7; 7] _ ltac:(lia) eq_refl R).
Defined.

Lemma blockfifo_blocks_witness :
  exists f', writeConcluded 4 (mk (storeBlock [1; 2; 3; 4] 3 [9]) 3 1 0 0) 1 = Some f' /\
    content 4 f' = content 4 (mk [1; 2; 3; 4] 3 1 0 0) ++ [9].
Proof.
  apply (blockfifo_blocks 4 (mk [1; 2; 3; 4] 3 1 0 0) 3 0 1 0 0 [9]);
    [split; cbn; lia | reflexivity | cbn; lia].
Defined.

Lemma multireader_put_witness :
  exists r', mreadX (snd (mput 2 (MMk [5; 6] 1 [0; 1] [0; 0]%Z 0) 8)) !! 0 = Some r' /\
    mwf 2 (snd (mput 2 (MMk [5; 6] 1 [0; 1] [0; 0]%Z 0) 8)) /\
    content 2 (view (snd (mput 2 (MMk [5; 6] 1 [0; 1] [0; 0]%Z 0) 8)) r') = [8].
Proof.
  apply (multireader_put 2 (MMk [5; 6] 1 [0; 1] [0; 0]%Z 0) 8 0 0); [lia | | reflexivity].
  split; cbn; [done | lia | repeat constructor; lia | done].
Defined.

End Fifo.
