(* ===== verification/LwipDef.v ===== *)
(** * Byte order of the IP stack (ip/lwip/core/def.c)

    The stack is configured for little-endian hosts ([arch/cc.h]); [htons] and
    [htonl] swap bytes.  Shared by the checksum, address and header code. *)

From S2P Require Import Prelude.

Module LwipDef.

Definition lwip_htons (n : Z) : Z :=
  u16 (Z.lor (Z.shiftl (Z.land n 0xff) 8) (Z.shiftr (Z.land n 0xff00) 8)).
Definition lwip_ntohs (n : Z) : Z := lwip_htons n.

Definition lwip_htonl (n : Z) : Z :=
  u32 (Z.lor (Z.lor (Z.lor (Z.shiftl (Z.land n 0xff) 24)
                           (Z.shiftl (Z.land n 0xff00) 8))
                    (Z.shiftr (Z.land n 0xff0000) 8))
             (Z.shiftr (Z.land n 0xff000000) 24)).
Definition lwip_ntohl (n : Z) : Z := lwip_htonl n.

(** A 16-bit load from two neighbouring bytes on the little-endian host. *)
Definition le16 (a b : Z) : Z := a + 256 * b.
Definition le32 (a b c d : Z) : Z := a + 256 * b + 65536 * c + 16777216 * d.

Lemma land_byte_k n k :
  0 <= k -> Z.land n (Z.shiftl 255 k) = Z.shiftl (u8 (Z.shiftr n k)) k.
Proof.
  intros Hk. rewrite <- land_255.
  change 255 with (Z.ones 8). apply Z.bits_inj'. intros i Hi.
  rewrite Z.land_spec, !Z.shiftl_spec by lia.
  destruct (Z.lt_ge_cases i k).
  - by rewrite !(Z.testbit_neg_r _ (i - k)), andb_false_r by lia.
  - rewrite Z.land_spec, Z.shiftr_spec by lia. by replace (i - k + k) with i by lia.
Qed.

Lemma htons_arith n : in_u16 n -> lwip_htons n = u8 n * 256 + n / 256.
Proof.
  intros Hn. unfold lwip_htons. change 0xff00 with (Z.shiftl 255 8).
  rewrite land_byte_k, land_255 by lia. rewrite Z.shiftr_shiftl_l, Z.shiftl_0_r by lia.
  rewrite Z.shiftr_div_pow2 by lia. change (2 ^ 8) with 256.
  rewrite lor_shiftl_add by (try change (2 ^ 8) with 256; try apply u8_range; lia).
  change (2 ^ 8) with 256. rewrite u16_small by zlia. zlia.
Qed.

Lemma htons_le16 a b : in_u8 a -> in_u8 b -> lwip_htons (le16 a b) = le16 b a.
Proof. intros Ha Hb. unfold le16. rewrite htons_arith by zlia. zlia. Qed.

Lemma htons_involutive n : in_u16 n -> lwip_ntohs (lwip_htons n) = n.
Proof. intros Hn. unfold lwip_ntohs. rewrite (htons_arith n), htons_arith by zlia. zlia. Qed.

Lemma htonl_le32 a b c d :
  in_u8 a -> in_u8 b -> in_u8 c -> in_u8 d -> lwip_htonl (le32 a b c d) = le32 d c b a.
Proof.
  intros Ha Hb Hc Hd. set (n := le32 a b c d).
  assert (E0 : Z.land n 0xff = a) by (rewrite land_255; unfold n, le32; zlia).
  assert (E1 : Z.land n 0xff00 = Z.shiftl b 8).
  { change 0xff00 with (Z.shiftl 255 8). rewrite land_byte_k by lia. f_equal.
    rewrite Z.shiftr_div_pow2 by lia. change (2 ^ 8) with 256. unfold n, le32. zlia. }
  assert (E2 : Z.land n 0xff0000 = Z.shiftl c 16).
  { change 0xff0000 with (Z.shiftl 255 16). rewrite land_byte_k by lia. f_equal.
    rewrite Z.shiftr_div_pow2 by lia. change (2 ^ 16) with 65536. unfold n, le32. zlia. }
  assert (E3 : Z.land n 0xff000000 = Z.shiftl d 24).
  { change 0xff000000 with (Z.shiftl 255 24). rewrite land_byte_k by lia. f_equal.
    rewrite Z.shiftr_div_pow2 by lia. change (2 ^ 24) with 16777216. unfold n, le32. zlia. }
  unfold lwip_htonl. rewrite E0, E1, E2, E3.
  rewrite Z.shiftl_shiftl, !Z.shiftr_shiftl_l by lia. cbn [Z.add Z.sub Z.opp Z.pos_sub].
  change (16 - 8) with 8. change (24 - 24) with 0. change (8 + 8) with 16.
  rewrite Z.shiftl_0_r.
  rewrite (lor_add 24 (Z.shiftl a 24)) by (rewrite ?Z.shiftl_mul_pow2 by lia;
    try change (2 ^ 24) with 16777216; try change (2 ^ 16) with 65536; zlia).
  rewrite (lor_add 16 _ (Z.shiftl c 8)) by (rewrite ?Z.shiftl_mul_pow2 by lia;
    try change (2 ^ 24) with 16777216; try change (2 ^ 16) with 65536;
    try change (2 ^ 8) with 256; zlia).
  rewrite (lor_add 8 _ d) by (rewrite ?Z.shiftl_mul_pow2 by lia;
    try change (2 ^ 24) with 16777216; try change (2 ^ 16) with 65536;
    try change (2 ^ 8) with 256; zlia).
  rewrite !Z.shiftl_mul_pow2 by lia.
  change (2 ^ 24) with 16777216; change (2 ^ 16) with 65536; change (2 ^ 8) with 256.
  rewrite u32_small by zlia. unfold le32. lia.
Qed.

(** Every 32-bit value is the load of its four bytes. *)
Lemma le32_split n : in_u32 n ->
  n = le32 (u8 n) (u8 (n / 256)) (u8 (n / 65536)) (n / 16777216).
Proof. intros. unfold le32. zlia. Qed.

Lemma htonl_involutive n : in_u32 n -> lwip_ntohl (lwip_htonl n) = n.
Proof.
  intros Hn. unfold lwip_ntohl. rewrite (le32_split n Hn).
  rewrite !htonl_le32 by (auto with rodos; zlia). done.
Qed.

Lemma htonl_range n : in_u32 (lwip_htonl n).
Proof. apply u32_range. Qed.
Lemma htons_range n : in_u16 (lwip_htons n).
Proof. apply u16_range. Qed.
#[export] Hint Resolve htonl_range htons_range : rodos.

End LwipDef.
