(* ===== verification/InetChksum.v ===== *)
(** * The Internet checksum (ip/lwip/core/inet_chksum.c)

    The three alternative [lwip_standard_chksum] routines, the checksum over a
    memory block, over a pbuf chain, and with the TCP/UDP pseudo header.  A
    pbuf chain is the list of its segments, each with the parity and position
    of its payload address and its bytes.  Every routine is proved to compute
    the one's-complement sum of RFC 1071 on the concatenated bytes. *)

From S2P Require Import Prelude LwipDef.
Import LwipDef.

Module InetChksum.

Definition FOLD_U32T (u : Z) : Z := u32 (Z.shiftr u 16 + Z.land u 0x0000ffff).
Definition SWAP_BYTES_IN_WORD (w : Z) : Z :=
  Z.lor (Z.shiftl (Z.land w 0xff) 8) (Z.shiftr (Z.land w 0xff00) 8).

(** ** The three algorithms *)

(** Version 1: octets in network order, deferred carries, [htons] at the end. *)
Fixpoint sum1 (data : list Z) (acc : Z) : Z :=
  match data with
  | a :: b :: data => sum1 data (u32 (acc + u16 (Z.lor (u16 (Z.shiftl a 8)) b)))
  | [a] => u32 (acc + u16 (Z.shiftl a 8))
  | [] => acc
  end.
Definition lwip_standard_chksum_1 (data : list Z) : Z :=
  let acc := sum1 data 0 in
  let acc := u32 (Z.shiftr acc 16 + Z.land acc 0x0000ffff) in
  let acc := if Z.land acc 0xffff0000 =? 0 then acc
             else u32 (Z.shiftr acc 16 + Z.land acc 0x0000ffff) in
  lwip_htons (u16 acc).

(** The bulk loop of versions 2 and 3, with the dangling tail byte: the result
    is the sum and the low byte of [t]. *)
Fixpoint sum2 (data : list Z) (sum : Z) : Z * Z :=
  match data with
  | a :: b :: data => sum2 data (u32 (sum + le16 a b))
  | [a] => (sum, a)
  | [] => (sum, 0)
  end.

(** Version 2 (the one that is compiled): 16-bit loads after aligning. *)
Definition lwip_standard_chksum_2 (addr : Z) (data : list Z) : Z :=
  let odd := Z.land addr 1 =? 1 in
  let '(t1, data) := match odd, data with
                     | true, b :: data => (b, data)
                     | _, _ => (0, data)
                     end in
  let '(sum, t0) := sum2 data 0 in
  let sum := u32 (sum + le16 t0 t1) in
  let sum := FOLD_U32T sum in
  let sum := FOLD_U32T sum in
  let sum := if odd then SWAP_BYTES_IN_WORD sum else sum in
  u16 sum.

(** Version 3: 32-bit loads, eight bytes per round, carries added back. *)
Definition addCarry (sum w : Z) : Z :=
  let tmp := u32 (sum + w) in
  if tmp <? sum then u32 (tmp + 1) else tmp.
Fixpoint sum3 (data : list Z) (sum : Z) : list Z * Z :=
  match data with
  | a :: b :: c :: d :: e :: f :: g :: h :: data =>
      let tmp := addCarry sum (le32 a b c d) in
      sum3 data (addCarry tmp (le32 e f g h))
  | _ => (data, sum)
  end.
Definition lwip_standard_chksum_3 (addr : Z) (data : list Z) : Z :=
  let odd := Z.land addr 1 =? 1 in
  let '(t1, addr, data) := match odd, data with
                           | true, b :: data => (b, addr + 1, data)
                           | _, _ => (0, addr, data)
                           end in
  let '(sum, data) := match negb (Z.land addr 3 =? 0), data with
                      | true, a :: b :: data => (le16 a b, data)
                      | _, _ => (0, data)
                      end in
  let '(data, sum) := sum3 data sum in
  let sum := FOLD_U32T sum in
  let '(sum, t0) := sum2 data sum in
  let sum := u32 (sum + le16 t0 t1) in
  let sum := FOLD_U32T sum in
  let sum := FOLD_U32T sum in
  let sum := if odd then SWAP_BYTES_IN_WORD sum else sum in
  u16 sum.

Definition LWIP_CHKSUM : Z -> list Z -> Z := lwip_standard_chksum_2.

(** ** The checksum functions *)

(** A segment of a pbuf chain: the address of its payload and its bytes. *)
Record segment := Seg { payload_addr : Z; payload : list Z }.

Definition len (q : segment) : Z := Z.of_nat (length (payload q)).

Definition inet_chksum (addr : Z) (data : list Z) : Z :=
  u16 (Z.lnot (LWIP_CHKSUM addr data)).

(** One round of the loops over the chain; the state is [(acc, swapped)]. *)
Definition chainStep (st : Z * bool) (q : segment) : Z * bool :=
  let '(acc, swapped) := st in
  let acc := u32 (acc + LWIP_CHKSUM (payload_addr q) (payload q)) in
  let acc := FOLD_U32T acc in
  if len q mod 2 =? 0 then (acc, swapped)
  else (SWAP_BYTES_IN_WORD acc, negb swapped).

Definition inet_chksum_pbuf (p : list segment) : Z :=
  let '(acc, swapped) := fold_left chainStep p (0, false) in
  let acc := if swapped then SWAP_BYTES_IN_WORD acc else acc in
  u16 (Z.lnot (Z.land acc 0xffff)).

(** The end of both pseudo-header routines. *)
Definition pseudoEnd (acc : Z) (swapped : bool) (src dest proto proto_len : Z) : Z :=
  let acc := if swapped then SWAP_BYTES_IN_WORD acc else acc in
  let acc := u32 (acc + Z.land src 0xffff) in
  let acc := u32 (acc + Z.land (Z.shiftr src 16) 0xffff) in
  let acc := u32 (acc + Z.land dest 0xffff) in
  let acc := u32 (acc + Z.land (Z.shiftr dest 16) 0xffff) in
  let acc := u32 (acc + lwip_htons (u16 proto)) in
  let acc := u32 (acc + lwip_htons proto_len) in
  let acc := FOLD_U32T acc in
  let acc := FOLD_U32T acc in
  u16 (Z.lnot (Z.land acc 0xffff)).

Definition inet_chksum_pseudo (p : list segment) (src dest proto proto_len : Z) : Z :=
  let '(acc, swapped) := fold_left chainStep p (0, false) in
  pseudoEnd acc swapped src dest proto proto_len.

(** The loop of the partial variant stops when [chksum_len] bytes are summed;
    the parity test looks at the full length of the segment. *)
Fixpoint partialLoop (p : list segment) (chksum_len acc : Z) (swapped : bool) : Z * bool :=
  match p with
  | [] => (acc, swapped)
  | q :: p =>
      if 0 <? chksum_len then
        let chklen := if chksum_len <? len q then chksum_len else len q in
        let acc := u32 (acc + LWIP_CHKSUM (payload_addr q) (take (Z.to_nat chklen) (payload q))) in
        let chksum_len := u16 (chksum_len - chklen) in
        let acc := FOLD_U32T acc in
        if len q mod 2 =? 0 then partialLoop p chksum_len acc swapped
        else partialLoop p chksum_len (SWAP_BYTES_IN_WORD acc) (negb swapped)
      else (acc, swapped)
  end.
Definition inet_chksum_pseudo_partial (p : list segment)
    (src dest proto proto_len chksum_len : Z) : Z :=
  let '(acc, swapped) := partialLoop p chksum_len 0 false in
  pseudoEnd acc swapped src dest proto proto_len.

(** [lwip_chksum_copy]: the destination's bytes and the checksum. *)
Definition lwip_chksum_copy (dst_addr : Z) (src : list Z) : list Z * Z :=
  (src, LWIP_CHKSUM dst_addr src).

(** ** The one's-complement sum (RFC 1071) *)

(** Sums of the 16-bit little-endian words; [w1] starts at an odd offset. *)
Fixpoint wsum (odd : bool) (l : list Z) : Z :=
  match l with
  | [] => 0
  | a :: l => (if odd then 256 * a else a) + wsum (negb odd) l
  end.

(** [x] is the 16-bit one's-complement representation of the sum [S]: the same
    residue modulo 65535, and zero only for the empty sum. *)
Definition is_oc (S x : Z) : Prop :=
  0 <= x <= 65535 /\ x mod 65535 = S mod 65535 /\ (x = 0 <-> S = 0).

Definition oc (S : Z) : Z := if S =? 0 then 0 else (S - 1) mod 65535 + 1.

Lemma oc_spec S : 0 <= S -> is_oc S (oc S).
Proof.
  intros HS. unfold oc, is_oc. destruct (Z.eqb_spec S 0) as [->|]; [done|].
  split; [zlia|]. split; [zlia|]. split; [zlia|done].
Qed.

Lemma is_oc_unique S x : is_oc S x -> x = oc S.
Proof.
  intros (Hr & Hm & Hz). unfold oc. destruct (Z.eqb_spec S 0) as [->|]; [tauto|].
  assert (x <> 0) by tauto. zlia.
Qed.

Lemma wsum_nonneg odd l : bytes l -> 0 <= wsum odd l.
Proof.
  intros Hl. revert odd. induction Hl as [|a l Ha Hl IH]; intros odd; cbn; [done|].
  pose proof (IH (negb odd)). destruct odd; zlia.
Qed.

Lemma wsum_bound odd l : bytes l -> wsum odd l <= 65280 * Z.of_nat (length l).
Proof.
  intros Hl. revert odd. induction Hl as [|a l Ha Hl IH]; intros odd; cbn [wsum length]; [lia|].
  pose proof (IH (negb odd)). destruct odd; zlia.
Qed.

(** Two bytes contribute at most one full word. *)
Lemma wsum_bound_words odd l :
  bytes l -> wsum odd l <= 65535 * ((Z.of_nat (length l) + 2) / 2).
Proof.
  intros Hl.
  assert (H : wsum odd l <= (if odd then 65280 else 255) * ((Z.of_nat (length l) + 1) / 2)
                   + (if odd then 255 else 65280) * (Z.of_nat (length l) / 2)).
  { revert odd. induction Hl as [|a l Ha Hl IH]; intros odd; cbn [wsum length]; [destruct odd; done|].
    pose proof (IH (negb odd)). destruct odd; cbn [negb] in *; zlia. }
  destruct odd; zlia.
Qed.

(** Moving the sum by one byte multiplies it by 256, modulo 65535. *)
Lemma wsum_shift odd l : (256 * wsum odd l) mod 65535 = wsum (negb odd) l mod 65535.
Proof.
  revert odd. induction l as [|a l IH]; intros odd; cbn [wsum]; [done|].
  rewrite Z.mul_add_distr_l. rewrite Z.add_mod, IH, <- Z.add_mod by lia.
  rewrite negb_involutive. destruct odd; cbn [negb].
  - replace (256 * (256 * a)) with (a + a * 65535) by lia.
    rewrite <- Z.add_assoc, (Z.add_comm (a * 65535)), Z.add_assoc. apply Z.mod_add. lia.
  - done.
Qed.

Lemma wsum_zero odd l : bytes l -> wsum odd l = 0 <-> Forall (fun a => a = 0) l.
Proof.
  intros Hl. revert odd. induction Hl as [|a l Ha Hl IH]; intros odd; cbn; [split; auto|].
  pose proof (wsum_nonneg (negb odd) l Hl). rewrite Forall_cons, <- (IH (negb odd)).
  destruct odd; zlia.
Qed.

Lemma wsum_app odd l1 l2 :
  wsum odd (l1 ++ l2) = wsum odd l1 + wsum (xorb odd (Nat.odd (length l1))) l2.
Proof.
  revert odd. induction l1 as [|a l1 IH]; intros odd; cbn [app wsum length].
  - change (Nat.odd 0) with false. by rewrite xorb_false_r.
  - rewrite IH, Nat.odd_succ, <- Nat.negb_odd.
    replace (xorb (negb odd) (Nat.odd (length l1))) with (xorb odd (negb (Nat.odd (length l1))))
      by (by destruct odd, (Nat.odd (length l1))). lia.
Qed.

(** ** Congruence of partial sums

    Intermediate accumulators are compared by [cong]: same residue modulo
    65535 and the same test for zero. *)
Definition cong (a b : Z) : Prop :=
  0 <= a /\ 0 <= b /\ a mod 65535 = b mod 65535 /\ (a = 0 <-> b = 0).

Lemma cong_refl a : 0 <= a -> cong a a.
Proof. by split. Qed.

#[global] Instance cong_sym : Symmetric cong.
Proof. intros a b (?&?&?&?). repeat split; (done || tauto). Qed.

#[global] Instance cong_trans : Transitive cong.
Proof. intros a b c (?&?&?&?) (?&?&?&?). repeat split; (done || congruence || tauto). Qed.

Lemma cong_add a b c d : cong a b -> cong c d -> cong (a + c) (b + d).
Proof.
  intros (?&?&E&?) (?&?&F&?). split; [lia|]. split; [lia|].
  split; [|lia]. by rewrite Z.add_mod, E, F, <- Z.add_mod by lia.
Qed.

Lemma cong_mul256 a b : cong a b -> cong (256 * a) (256 * b).
Proof.
  intros (?&?&E&?). split; [lia|]. split; [lia|]. split; [|lia].
  by rewrite Z.mul_mod, E, <- Z.mul_mod by lia.
Qed.

Lemma cong_65536 a : 0 <= a -> cong (256 * (256 * a)) a.
Proof.
  intros. split; [lia|]. split; [lia|]. split; [|lia].
  replace (256 * (256 * a)) with (a + a * 65535) by lia. apply Z.mod_add. lia.
Qed.

Lemma cong_wsum odd l : bytes l -> cong (256 * wsum odd l) (wsum (negb odd) l).
Proof.
  intros Hl. pose proof (wsum_nonneg odd l Hl). pose proof (wsum_nonneg (negb odd) l Hl).
  split; [lia|]. split; [lia|]. split; [apply wsum_shift|].
  pose proof (wsum_zero odd l Hl). pose proof (wsum_zero (negb odd) l Hl).
  destruct (decide (wsum odd l = 0)); destruct (decide (wsum (negb odd) l = 0)); lia || tauto.
Qed.

Lemma cong_oc S x : 0 <= x <= 65535 -> cong x S -> x = oc S.
Proof. intros Hx (H0 & H1 & Hm & Hz). apply is_oc_unique. by split. Qed.

Lemma oc_cong S S' : cong S S' -> oc S = oc S'.
Proof.
  intros (H0 & H1 & Hm & Hz). apply is_oc_unique.
  destruct (oc_spec S H0) as (Hr & E & Z0). split; [done|]. split; [congruence|tauto].
Qed.

Lemma FOLD_arith u : 0 <= u < 2 ^ 32 -> FOLD_U32T u = u / 65536 + u mod 65536.
Proof.
  intros Hu. change (2 ^ 32) with 4294967296 in Hu. unfold FOLD_U32T.
  change 0xffff with (Z.ones 16). rewrite Z.land_ones, Z.shiftr_div_pow2 by lia.
  change (2 ^ 16) with 65536. apply u32_small. zlia.
Qed.

Lemma FOLD_cong u : 0 <= u < 2 ^ 32 -> cong (FOLD_U32T u) u /\ FOLD_U32T u <= 131070.
Proof.
  intros Hu. rewrite FOLD_arith by done. change (2 ^ 32) with 4294967296 in Hu.
  unfold cong. split; [|zlia]. split; [zlia|]. split; [zlia|]. split; [zlia|zlia].
Qed.

Lemma FOLD_small u : 0 <= u <= 131070 -> FOLD_U32T u <= 65535.
Proof. intros Hu. rewrite FOLD_arith by (change (2 ^ 32) with 4294967296; lia). zlia. Qed.

Lemma FOLD_twice u :
  0 <= u < 2 ^ 32 ->
  0 <= FOLD_U32T (FOLD_U32T u) <= 65535 /\ cong (FOLD_U32T (FOLD_U32T u)) u.
Proof.
  intros Hu. destruct (FOLD_cong u Hu) as [C B].
  assert (B0 : 0 <= FOLD_U32T u) by apply C.
  destruct (FOLD_cong (FOLD_U32T u)) as [C' _]; [change (2 ^ 32) with 4294967296; lia|].
  split; [|by etrans]. split; [apply C'|apply FOLD_small; lia].
Qed.

Lemma SWAP_arith w : in_u16 w -> SWAP_BYTES_IN_WORD w = u8 w * 256 + w / 256.
Proof.
  intros Hw. rewrite <- htons_arith by done. unfold lwip_htons, SWAP_BYTES_IN_WORD.
  symmetry. apply u16_small. change 0xff00 with (Z.shiftl 255 8).
  rewrite land_byte_k, land_255, Z.shiftr_shiftl_l, Z.shiftl_0_r by lia.
  rewrite Z.shiftr_div_pow2 by lia. change (2 ^ 8) with 256.
  rewrite lor_shiftl_add by (try change (2 ^ 8) with 256; try apply u8_range; lia).
  change (2 ^ 8) with 256. zlia.
Qed.

Lemma SWAP_cong w : in_u16 w -> cong (SWAP_BYTES_IN_WORD w) (256 * w) /\ in_u16 (SWAP_BYTES_IN_WORD w).
Proof.
  intros Hw. rewrite SWAP_arith by done. unfold cong. split; [|zlia].
  split; [zlia|]. split; [zlia|]. split; [zlia|zlia].
Qed.

Lemma addCarry_cong sum w :
  in_u32 sum -> in_u32 w -> cong (addCarry sum w) (sum + w) /\ in_u32 (addCarry sum w).
Proof.
  intros Hs Hw. unfold addCarry, cong. destruct (Z.ltb_spec (u32 (sum + w)) sum).
  - split; [|apply u32_range]. split; [zlia|]. split; [zlia|]. split; [zlia|zlia].
  - split; [|apply u32_range]. split; [zlia|]. split; [zlia|]. split; [zlia|zlia].
Qed.

(** ** The loops *)

Lemma wsum_even_le16 a b l : wsum false (a :: b :: l) = le16 a b + wsum false l.
Proof. cbn. unfold le16. lia. Qed.

(** Induction two bytes at a time. *)
Lemma pair_ind (P : list Z -> Prop) :
  P [] -> (forall a, P [a]) -> (forall a b l, P l -> P (a :: b :: l)) -> forall l, P l.
Proof.
  intros H0 H1 H2 l. cut (P l /\ forall a, P (a :: l)); [tauto|].
  induction l as [|a l [IH1 IH2]]; auto.
Qed.

Lemma sum2_spec data sum :
  bytes data -> 0 <= sum -> sum + wsum false data < 2 ^ 32 ->
  let '(sum', t0) := sum2 data sum in
  in_u8 t0 /\ 0 <= sum' /\ sum' + t0 = sum + wsum false data.
Proof.
  revert sum. induction data as [|a|a b data IH] using pair_ind; intros sum Hd Hs Hb.
  - cbn. unfold in_u8. lia.
  - inversion Hd as [|?? Ha _]; subst. cbn [sum2 wsum negb]. split; [done|]. lia.
  - inversion Hd as [|?? Ha Hd']; subst. inversion Hd' as [|?? Hb' Hd'']; subst.
    rewrite wsum_even_le16 in *. pose proof (wsum_nonneg false data Hd'').
    change (2 ^ 32) with 4294967296 in *. unfold le16 in *.
    cbn [sum2]. unfold le16. rewrite u32_small by zlia.
    specialize (IH (sum + (a + 256 * b)) Hd'' ltac:(zlia) ltac:(zlia)).
    destruct (sum2 data _) as [sum' t0]. destruct IH as (? & ? & ?). split; [done|]. lia.
Qed.

Lemma sum1_spec data acc :
  bytes data -> 0 <= acc -> acc + wsum true data < 2 ^ 32 ->
  sum1 data acc = acc + wsum true data.
Proof.
  revert acc. induction data as [|a|a b data IH] using pair_ind; intros acc Hd Hs Hb.
  - cbn. lia.
  - inversion Hd as [|?? Ha _]; subst. cbn [sum1 wsum] in *. change (2 ^ 32) with 4294967296 in *.
    rewrite Z.shiftl_mul_pow2 by lia. change (2 ^ 8) with 256.
    rewrite u16_small, u32_small by zlia. lia.
  - inversion Hd as [|?? Ha Hd']; subst. inversion Hd' as [|?? Hb' Hd'']; subst.
    cbn [sum1 wsum negb] in *. pose proof (wsum_nonneg true data Hd'').
    change (2 ^ 32) with 4294967296 in *.
    rewrite (u16_small (Z.shiftl a 8)) by (rewrite Z.shiftl_mul_pow2 by lia; zlia).
    rewrite lor_shiftl_add by (try change (2 ^ 8) with 256; zlia). change (2 ^ 8) with 256.
    rewrite u16_small, u32_small by zlia. rewrite IH by (done || zlia). lia.
Qed.

Lemma le32_words a b c d : le32 a b c d = le16 a b + 65536 * le16 c d.
Proof. unfold le32, le16. lia. Qed.

Lemma le32_cong a b c d :
  in_u8 a -> in_u8 b -> in_u8 c -> in_u8 d ->
  cong (le32 a b c d) (le16 a b + le16 c d) /\ in_u32 (le32 a b c d).
Proof. intros. unfold le32, le16, cong. split; [|zlia]. split; [zlia|]. split; [zlia|].
  split; [zlia|zlia].
Qed.

Lemma sum3_spec n data sum :
  (length data <= n)%nat -> bytes data -> in_u32 sum ->
  let '(rest, sum') := sum3 data sum in
  bytes rest /\ (length rest < 8)%nat /\ in_u32 sum' /\
  cong (sum' + wsum false rest) (sum + wsum false data).
Proof.
  revert data sum. induction n as [|n IH]; intros data sum Hn Hd Hs.
  { destruct data; [|cbn in Hn; lia]. cbn. split; [done|]. split; [lia|]. split; [done|].
    apply cong_refl. zlia. }
  assert (Hbase : (length data < 8)%nat -> bytes data /\ (length data < 8)%nat /\ in_u32 sum /\
    cong (sum + wsum false data) (sum + wsum false data)).
  { intros. split; [done|]. split; [done|]. split; [done|]. apply cong_refl.
    pose proof (wsum_nonneg false data Hd). zlia. }
  destruct data as [|a [|b [|c [|d [|e [|f [|g [|h data]]]]]]]];
    try (apply Hbase; cbn; lia). clear Hbase.
  cbn [sum3].
  do 8 (inversion Hd as [|?? ? Hd']; subst; clear Hd; rename Hd' into Hd).
  destruct (le32_cong a b c d) as [C1 R1]; [done..|].
  destruct (le32_cong e f g h) as [C2 R2]; [done..|].
  destruct (addCarry_cong sum (le32 a b c d)) as [A1 S1]; [done..|].
  destruct (addCarry_cong (addCarry sum (le32 a b c d)) (le32 e f g h)) as [A2 S2]; [done..|].
  specialize (IH data (addCarry (addCarry sum (le32 a b c d)) (le32 e f g h)) ltac:(cbn in Hn; lia) Hd S2).
  destruct (sum3 data _) as [rest sum']. destruct IH as (? & ? & ? & C).
  split; [done|]. split; [done|]. split; [done|]. etrans; [exact C|].
  rewrite !wsum_even_le16. pose proof (wsum_nonneg false data Hd).
  replace (sum + (le16 a b + (le16 c d + (le16 e f + (le16 g h + wsum false data)))))
    with ((sum + (le16 a b + le16 c d) + (le16 e f + le16 g h)) + wsum false data) by lia.
  apply cong_add; [|by apply cong_refl]. etrans; [exact A2|]. apply cong_add; [|done].
  etrans; [exact A1|]. apply cong_add; [|done]. apply cong_refl. zlia.
Qed.

(** ** The three routines agree *)

Lemma land_high_zero acc : 0 <= acc <= 131070 -> (Z.land acc 0xffff0000 =? 0) = (acc <? 65536).
Proof.
  intros Ha. change 0xffff0000 with (Z.shiftl (Z.ones 16) 16).
  assert (E : Z.land acc (Z.shiftl (Z.ones 16) 16) = Z.shiftl (acc / 65536) 16).
  { change 65536 with (2 ^ 16). rewrite <- Z.shiftr_div_pow2 by lia.
    apply Z.bits_inj'. intros i Hi. rewrite Z.land_spec, !Z.shiftl_spec by lia.
    destruct (Z.lt_ge_cases i 16).
    - by rewrite !(Z.testbit_neg_r _ (i - 16)), andb_false_r by lia.
    - rewrite Z.shiftr_spec by lia. replace (i - 16 + 16) with i by lia.
      rewrite Z.testbit_ones_nonneg by lia. destruct (Z.ltb_spec (i - 16) 16).
      + apply andb_true_r.
      + rewrite andb_false_r, (testbit_above 32 acc) by (try change (2 ^ 32) with 4294967296; lia). done. }
  rewrite E, Z.shiftl_mul_pow2 by lia. change (2 ^ 16) with 65536.
  destruct (Z.eqb_spec (acc / 65536 * 65536) 0), (Z.ltb_spec acc 65536); try done; zlia.
Qed.

Lemma chksum_1_oc data :
  bytes data -> Z.of_nat (length data) <= 65535 ->
  lwip_standard_chksum_1 data = oc (wsum false data).
Proof.
  intros Hd Hl. unfold lwip_standard_chksum_1.
  pose proof (wsum_nonneg true data Hd) as H0. pose proof (wsum_bound_words true data Hd) as Hb.
  assert (Hs : wsum true data < 2 ^ 32) by (change (2 ^ 32) with 4294967296; zlia).
  rewrite sum1_spec, Z.add_0_l by (done || lia). fold (FOLD_U32T (wsum true data)).
  destruct (FOLD_cong (wsum true data)) as [C1 B1]; [done|].
  set (acc := FOLD_U32T (wsum true data)) in *. assert (0 <= acc) by apply C1.
  fold (FOLD_U32T acc). rewrite land_high_zero by lia.
  set (acc' := if acc <? 65536 then acc else FOLD_U32T acc).
  assert (Ha : 0 <= acc' <= 65535 /\ cong acc' (wsum true data)).
  { subst acc'. destruct (Z.ltb_spec acc 65536); [split; [lia|done]|].
    by apply FOLD_twice. }
  destruct Ha as [Hr Hc]. rewrite u16_small by zlia.
  rewrite htons_arith, <- SWAP_arith by zlia.
  destruct (SWAP_cong acc') as [Cs Rs]; [zlia|]. apply cong_oc; [zlia|].
  etrans; [exact Cs|]. etrans; [apply cong_mul256; exact Hc|]. by apply cong_wsum.
Qed.

(** The common end of versions 2 and 3. *)
Lemma chksum_end (odd : bool) sum data :
  bytes data -> 0 <= sum < 2 ^ 32 -> cong sum (wsum odd data) ->
  (let sum := FOLD_U32T sum in
   let sum := FOLD_U32T sum in
   let sum := if odd then SWAP_BYTES_IN_WORD sum else sum in u16 sum) = oc (wsum false data).
Proof.
  intros Hd Hs Hc. cbv zeta. destruct (FOLD_twice sum Hs) as [Hr C].
  assert (C' : cong (FOLD_U32T (FOLD_U32T sum)) (wsum odd data)) by (by etrans).
  destruct odd.
  - destruct (SWAP_cong (FOLD_U32T (FOLD_U32T sum))) as [Cs Rs]; [zlia|].
    rewrite u16_small by done. apply cong_oc; [zlia|].
    etrans; [exact Cs|]. etrans; [apply cong_mul256; exact C'|]. by apply cong_wsum.
  - rewrite u16_small by zlia. by apply cong_oc.
Qed.

Lemma chksum_2_oc addr data :
  bytes data -> Z.of_nat (length data) <= 131000 ->
  lwip_standard_chksum_2 addr data = oc (wsum false data).
Proof.
  intros Hd Hl. unfold lwip_standard_chksum_2.
  assert (G : forall (odd : bool) t1 rest, in_u8 t1 -> bytes rest ->
    256 * t1 + wsum false rest = wsum odd data ->
    (let '(sum, t0) := sum2 rest 0 in
     let sum := u32 (sum + le16 t0 t1) in
     let sum := FOLD_U32T sum in
     let sum := FOLD_U32T sum in
     let sum := if odd then SWAP_BYTES_IN_WORD sum else sum in u16 sum) = oc (wsum false data)).
  { intros odd t1 rest Ht Hr E.
    pose proof (wsum_bound_words odd data Hd) as Hb. pose proof (wsum_nonneg false rest Hr) as H0.
    assert (Hs : wsum odd data < 2 ^ 32) by (change (2 ^ 32) with 4294967296; zlia).
    pose proof (sum2_spec rest 0 Hr ltac:(lia) ltac:(unfold in_u8 in *; lia)) as S.
    destruct (sum2 rest 0) as [sum t0]. destruct S as (T0 & S0 & S).
    assert (Esum : u32 (sum + le16 t0 t1) = wsum odd data).
    { unfold le16. rewrite u32_small; [lia|]. change (2 ^ 32) with 4294967296 in *. zlia. }
    rewrite Esum. apply (chksum_end odd (wsum odd data) data Hd); [zlia|].
    apply cong_refl. zlia. }
  destruct (Z.land addr 1 =? 1); [destruct data as [|b data]|].
  - by apply (G true 0 []).
  - inversion Hd as [|?? Hb Hd']; subst. by apply (G true b data).
  - apply (G false 0 data); [done|done|lia].
Qed.

Lemma chksum_3_oc addr data :
  bytes data -> Z.of_nat (length data) <= 131000 ->
  lwip_standard_chksum_3 addr data = oc (wsum false data).
Proof.
  intros Hd Hl. unfold lwip_standard_chksum_3.
  assert (G : forall (odd : bool) t1 s0 rest, in_u8 t1 -> in_u32 s0 -> bytes rest ->
    256 * t1 + (s0 + wsum false rest) = wsum odd data ->
    (let '(rest, sum) := sum3 rest s0 in
     let sum := FOLD_U32T sum in
     let '(sum, t0) := sum2 rest sum in
     let sum := u32 (sum + le16 t0 t1) in
     let sum := FOLD_U32T sum in
     let sum := FOLD_U32T sum in
     let sum := if odd then SWAP_BYTES_IN_WORD sum else sum in u16 sum) = oc (wsum false data)).
  { intros odd t1 s0 rest Ht Hs0 Hr E.
    pose proof (sum3_spec _ rest s0 (le_n _) Hr Hs0) as S3.
    destruct (sum3 rest s0) as [tl sum]. destruct S3 as (Htl & Ltl & Hsum & C3).
    destruct (FOLD_cong sum Hsum) as [Cf Bf].
    pose proof (wsum_bound false tl Htl) as Bt. pose proof (wsum_nonneg false tl Htl) as B0.
    assert (F0 : 0 <= FOLD_U32T sum) by apply Cf.
    pose proof (sum2_spec tl (FOLD_U32T sum) Htl F0
      ltac:(change (2 ^ 32) with 4294967296; lia)) as S2.
    cbv zeta. destruct (sum2 tl (FOLD_U32T sum)) as [sum' t0]. destruct S2 as (T0 & S0 & S2).
    assert (Esum : u32 (sum' + le16 t0 t1) = 256 * t1 + (FOLD_U32T sum + wsum false tl)).
    { unfold le16. rewrite u32_small; [lia|]. zlia. }
    rewrite Esum. apply (chksum_end odd _ data Hd); [change (2 ^ 32) with 4294967296; zlia|].
    rewrite <- E. apply cong_add; [apply cong_refl; zlia|].
    etrans; [|exact C3]. apply cong_add; [done|by apply cong_refl]. }
  assert (G' : forall (odd : bool) t1 a rest, in_u8 t1 -> bytes rest ->
    256 * t1 + wsum false rest = wsum odd data ->
    (let '(sum, rest) := match negb (Z.land a 3 =? 0), rest with
                         | true, a :: b :: data => (le16 a b, data)
                         | _, _ => (0, rest)
                         end in
     let '(rest, sum) := sum3 rest sum in
     let sum := FOLD_U32T sum in
     let '(sum, t0) := sum2 rest sum in
     let sum := u32 (sum + le16 t0 t1) in
     let sum := FOLD_U32T sum in
     let sum := FOLD_U32T sum in
     let sum := if odd then SWAP_BYTES_IN_WORD sum else sum in u16 sum) = oc (wsum false data)).
  { intros odd t1 a rest Ht Hr E.
    destruct (negb (Z.land a 3 =? 0)); [destruct rest as [|x [|y rest]]|].
    - apply (G odd t1 0 []); done.
    - apply (G odd t1 0 [x]); done.
    - inversion Hr as [|?? Hx Hr']; subst. inversion Hr' as [|?? Hy Hr'']; subst.
      apply (G odd t1 (le16 x y) rest); [done|unfold le16; zlia|done|].
      by rewrite <- wsum_even_le16.
    - apply (G odd t1 0 rest); done. }
  destruct (Z.land addr 1 =? 1); [destruct data as [|b data]|].
  - by apply (G' true 0 addr []).
  - inversion Hd as [|?? Hb Hd']; subst. by apply (G' true b (addr + 1) data).
  - apply (G' false 0 addr data); [done|done|lia].
Qed.

(** ** Chains *)

Definition seg_ok (q : segment) : Prop := bytes (payload q) /\ len q <= 65535.
Definition chain_data (p : list segment) : list Z := concat (map payload p).

Lemma chain_data_bytes p : Forall seg_ok p -> bytes (chain_data p).
Proof.
  unfold chain_data. induction 1 as [|q p [Hq _] Hp IH]; cbn; [apply Forall_nil_2|].
  by apply Forall_app_2.
Qed.

(** The state of a chain loop after the bytes [D]: [swapped] tells whether the
    next byte is in an odd position, and the accumulator is the sum turned so
    that the next segment can be added as if it started at an even one. *)
Definition chain_inv (D : list Z) (st : Z * bool) : Prop :=
  let '(acc, swapped) := st in
  in_u16 acc /\ swapped = Nat.odd (length D) /\ cong acc (wsum swapped D).

Lemma chain_fold D acc swapped q :
  bytes D -> bytes q -> chain_inv D (acc, swapped) ->
  let acc' := FOLD_U32T (u32 (acc + oc (wsum false q))) in
  in_u16 acc' /\ cong acc' (wsum swapped (D ++ q)).
Proof.
  intros HD Hq (Ha & Hs & Hc). pose proof (wsum_nonneg false q Hq) as H0.
  destruct (oc_spec (wsum false q) H0) as (Hr & Hm & Hz).
  cbv zeta. rewrite u32_small by zlia.
  destruct (FOLD_cong (acc + oc (wsum false q))) as [C B];
    [change (2 ^ 32) with 4294967296; zlia|].
  split.
  - split; [apply C|]. apply Z.le_lt_trans with 65535; [apply FOLD_small; zlia|lia].
  - etrans; [exact C|]. rewrite wsum_app, <- Hs, xorb_nilpotent.
    apply cong_add; [done|]. repeat split; (lia || done || tauto).
Qed.

Lemma chain_swap D q (acc' : Z) (swapped odd : bool) :
  bytes D -> bytes q -> swapped = Nat.odd (length D) ->
  odd = Nat.odd (length q) -> in_u16 acc' -> cong acc' (wsum swapped (D ++ q)) ->
  chain_inv (D ++ q) (if odd then (SWAP_BYTES_IN_WORD acc', negb swapped) else (acc', swapped)).
Proof.
  intros HD Hq Hs Ho Ha Hc.
  assert (Hl : Nat.odd (length (D ++ q)) = xorb swapped odd)
    by (rewrite length_app, Nat.odd_add; congruence).
  destruct odd; unfold chain_inv; rewrite Hl.
  - destruct (SWAP_cong acc' Ha) as [Cs Rs]. split; [done|].
    split; [by destruct swapped|]. etrans; [exact Cs|].
    etrans; [apply cong_mul256; exact Hc|]. apply cong_wsum. by apply Forall_app_2.
  - split; [done|]. split; [by destruct swapped|done].
Qed.

Lemma len_even q : (len q mod 2 =? 0) = negb (Nat.odd (length (payload q))).
Proof.
  unfold len. rewrite Nat.negb_odd. destruct (Nat.even (length (payload q))) eqn:E.
  - apply Nat.even_spec in E as [k ->]. apply Z.eqb_eq. zlia.
  - rewrite <- Nat.negb_odd, negb_false_iff, Nat.odd_spec in E. destruct E as [k ->].
    apply Z.eqb_neq. zlia.
Qed.

Lemma chainStep_inv D st q :
  bytes D -> seg_ok q -> chain_inv D st -> chain_inv (D ++ payload q) (chainStep st q).
Proof.
  intros HD [Hq Hl] Hi. destruct st as [acc swapped]. pose proof Hi as (Ha & Hs & Hc).
  unfold chainStep, LWIP_CHKSUM. rewrite chksum_2_oc by (done || (unfold len in Hl; lia)).
  destruct (chain_fold D acc swapped (payload q) HD Hq Hi) as [Ha' Hc'].
  rewrite len_even, if_negb.
  by apply chain_swap.
Qed.

Lemma chain_loop_inv p D st :
  bytes D -> Forall seg_ok p -> chain_inv D st ->
  chain_inv (D ++ chain_data p) (fold_left chainStep p st).
Proof.
  intros HD Hp. revert D st HD. induction Hp as [|q p Hq Hp IH]; intros D st HD Hi; cbn.
  - unfold chain_data. cbn. by rewrite app_nil_r.
  - unfold chain_data. cbn. rewrite app_assoc. apply IH.
    + apply Forall_app_2; [done|apply Hq].
    + by apply chainStep_inv.
Qed.

Lemma chain_inv_start : chain_inv [] (0, false).
Proof. split; [done|]. split; [done|]. by apply cong_refl. Qed.

(** Turning back at the end. *)
Lemma chain_final D acc swapped :
  bytes D -> in_u16 acc -> cong acc (wsum swapped D) ->
  let acc' := if swapped then SWAP_BYTES_IN_WORD acc else acc in
  in_u16 acc' /\ cong acc' (wsum false D).
Proof.
  intros HD Ha Hc. destruct swapped; [|done].
  destruct (SWAP_cong acc Ha) as [Cs Rs]. split; [done|]. etrans; [exact Cs|].
  etrans; [apply cong_mul256; exact Hc|]. by apply cong_wsum.
Qed.

Lemma lnot_u16 x : in_u16 x -> u16 (Z.lnot x) = 65535 - x.
Proof. intros. unfold Z.lnot. zlia. Qed.

Lemma land_ffff x : Z.land x 0xffff = x mod 65536.
Proof. apply (Z.land_ones x 16). lia. Qed.

(** ** The pseudo header *)

(** The bytes of the pseudo header in memory; addresses are in network order. *)
Definition pseudo_header (src dest proto proto_len : Z) : list Z :=
  let w x := [u8 x; u8 (x / 256)] in
  w src ++ w (src / 65536) ++ w dest ++ w (dest / 65536)
    ++ [0; proto] ++ [proto_len / 256; u8 proto_len].

Lemma pseudoEnd_spec acc swapped D src dest proto proto_len :
  bytes D -> in_u16 acc -> cong acc (wsum swapped D) ->
  in_u32 src -> in_u32 dest -> in_u8 proto -> in_u16 proto_len ->
  pseudoEnd acc swapped src dest proto proto_len =
    65535 - oc (wsum false (pseudo_header src dest proto proto_len ++ D)).
Proof.
  intros HD Ha0 Hc0 Hsrc Hdst Hp Hl. unfold pseudoEnd.
  destruct (chain_final D acc swapped HD Ha0 Hc0) as [Ha Hc].
  set (a0 := if swapped then _ else _) in *. cbv zeta.
  rewrite !land_ffff, !Z.shiftr_div_pow2 by lia. change (2 ^ 16) with 65536.
  rewrite (u16_small proto) by zlia. rewrite !htons_arith by zlia.
  set (h := wsum false (pseudo_header src dest proto proto_len)).
  assert (Eh : h = src mod 65536 + (src / 65536) mod 65536 + dest mod 65536
                   + (dest / 65536) mod 65536 + (u8 proto * 256 + proto / 256)
                   + (u8 proto_len * 256 + proto_len / 256)).
  { subst h. unfold pseudo_header. cbn [app wsum negb]. zlia. }
  assert (Hh : 0 <= h <= 6 * 65535) by (rewrite Eh; zlia).
  match goal with |- context [FOLD_U32T ?X] => lazymatch X with FOLD_U32T _ => fail | _ =>
    assert (EX : X = a0 + h) by (rewrite Eh, !u32_small; zlia); rewrite EX end end.
  destruct (FOLD_twice (a0 + h)) as [Hr Cf]; [change (2 ^ 32) with 4294967296; zlia|].
  set (r := FOLD_U32T _) in *. rewrite (Z.mod_small r) by lia. rewrite lnot_u16 by zlia.
  f_equal. apply cong_oc; [lia|]. etrans; [exact Cf|]. rewrite wsum_app. fold h.
  change (xorb false (Nat.odd (length (pseudo_header src dest proto proto_len)))) with false.
  rewrite (Z.add_comm a0 h). apply cong_add; [apply cong_refl; lia | done].
Qed.

(** ** The partial sum *)

Lemma partialLoop_spec p D n acc swapped :
  bytes D -> Forall seg_ok p -> 0 <= n <= 65535 -> chain_inv D (acc, swapped) ->
  let '(acc', swapped') := partialLoop p n acc swapped in
  in_u16 acc' /\ cong acc' (wsum swapped' (D ++ take (Z.to_nat n) (chain_data p))).
Proof.
  intros HD Hp. revert D n acc swapped HD.
  induction Hp as [|q p Hq Hp IH]; intros D n acc swapped HD Hn Hi; pose proof Hi as (Ha & Hs & Hc).
  { cbn. rewrite take_nil, app_nil_r. done. }
  pose proof Hq as [Hqb Hql]. cbn [partialLoop]. unfold chain_data. cbn [map concat].
  destruct (Z.ltb_spec 0 n).
  2: { replace n with 0 by lia. change (Z.to_nat 0) with 0%nat. rewrite take_0, app_nil_r. done. }
  unfold LWIP_CHKSUM. rewrite len_even.
  destruct (Z.ltb_spec n (len q)).
  - (* the last, cut segment *)
    unfold len in *. rewrite chksum_2_oc by (first [by apply Forall_take | rewrite length_take; lia]).
    set (t := take (Z.to_nat n) (payload q)).
    assert (Ht : bytes t) by (by apply Forall_take).
    destruct (chain_fold D acc swapped t HD Ht Hi) as [Ha' Hc'].
    rewrite take_app_le by lia. fold t. rewrite Z.sub_diag. change (u16 0) with 0.
    assert (E0 : forall a s, partialLoop p 0 a s = (a, s)) by (intros; destruct p; done).
    rewrite !E0. destruct (Nat.odd (length (payload q))); cbn [negb]; [|done].
    destruct (SWAP_cong _ Ha') as [Cs Rs]. split; [done|]. etrans; [exact Cs|].
    etrans; [apply cong_mul256; exact Hc'|]. apply cong_wsum. by apply Forall_app_2.
  - (* a whole segment *)
    rewrite (take_ge (payload q)) by (unfold len in *; lia).
    rewrite chksum_2_oc by (done || (unfold len in *; lia)).
    destruct (chain_fold D acc swapped (payload q) HD Hqb Hi) as [Ha' Hc'].
    rewrite (u16_small (n - len q)) by (unfold len in *; zlia).
    rewrite take_app_ge by (unfold len in *; lia).
    replace (Z.to_nat n - length (payload q))%nat with (Z.to_nat (n - len q)) by (unfold len; lia).
    rewrite app_assoc.
    pose proof (chain_swap D (payload q) _ swapped _ HD Hqb Hs eq_refl Ha' Hc') as Hi'.
    destruct (Nat.odd (length (payload q))); cbn [negb];
      apply IH; try done; try (unfold len in *; lia); by apply Forall_app_2.
Qed.

(** ** Properties *)

(** C34: The three alternative implementations of [lwip_standard_chksum] return
    the same value for every block of up to 65535 bytes at every address: the
    one's-complement sum of its 16-bit words. *)
Theorem chksum_algorithms_agree (addr : Z) (data : list Z) :
  bytes data -> Z.of_nat (length data) <= 65535 ->
  lwip_standard_chksum_1 data = oc (wsum false data) /\
  lwip_standard_chksum_2 addr data = oc (wsum false data) /\
  lwip_standard_chksum_3 addr data = oc (wsum false data).
Proof.
  intros Hd Hl. split; [by apply chksum_1_oc|].
  split; [apply chksum_2_oc|apply chksum_3_oc]; (done || lia).
Qed.

Lemma chksum_algorithms_agree_witness :
  lwip_standard_chksum_1 [1; 2; 3; 255; 7] = oc (wsum false [1; 2; 3; 255; 7]) /\
  lwip_standard_chksum_2 13 [1; 2; 3; 255; 7] = oc (wsum false [1; 2; 3; 255; 7]) /\
  lwip_standard_chksum_3 13 [1; 2; 3; 255; 7] = oc (wsum false [1; 2; 3; 255; 7]).
Proof. apply chksum_algorithms_agree; [repeat constructor; done | done]. Defined.

(** The checksum of a pbuf chain does not depend on how the packet is cut
    into pbufs nor on where their payloads lie: it is the checksum of the
    concatenated bytes. *)
Theorem inet_chksum_pbuf_concat (p : list segment) (addr : Z) :
  Forall seg_ok p -> Z.of_nat (length (chain_data p)) <= 65535 ->
  inet_chksum_pbuf p = inet_chksum addr (chain_data p).
Proof.
  intros Hp Hl. unfold inet_chksum_pbuf, inet_chksum, LWIP_CHKSUM.
  pose proof (chain_data_bytes p Hp) as HD. rewrite chksum_2_oc by (done || lia).
  pose proof (chain_loop_inv p [] (0, false) (Forall_nil_2 _) Hp chain_inv_start) as Hi.
  destruct (fold_left chainStep p (0, false)) as [acc swapped]. destruct Hi as (Ha & Hs & Hc).
  destruct (chain_final _ acc swapped HD Ha Hc) as [Ha' Hc'].
  set (acc' := if swapped then _ else _) in *. rewrite land_ffff, Z.mod_small by done.
  f_equal. f_equal. apply cong_oc; [zlia|done].
Qed.

Lemma inet_chksum_pbuf_concat_witness :
  inet_chksum_pbuf [Seg 5 [1; 2; 3]; Seg 8 []; Seg 2 [200; 7]]
  = inet_chksum 0 (chain_data [Seg 5 [1; 2; 3]; Seg 8 []; Seg 2 [200; 7]]).
Proof.
  apply inet_chksum_pbuf_concat; [|done].
  repeat constructor; cbn; try done; unfold len; cbn; lia.
Defined.

(** The pseudo-header checksum of TCP and UDP, full or cut to the first
    [chksum_len] bytes, is the plain checksum of the pseudo header followed by
    the summed bytes. *)
Theorem inet_chksum_pseudo_correct (p : list segment) (src dest proto proto_len n addr : Z) :
  Forall seg_ok p -> in_u32 src -> in_u32 dest -> in_u8 proto -> in_u16 proto_len ->
  0 <= n <= 65535 -> Z.of_nat (length (chain_data p)) <= 65535 ->
  let hdr := pseudo_header src dest proto proto_len in
  inet_chksum_pseudo p src dest proto proto_len = inet_chksum addr (hdr ++ chain_data p) /\
  inet_chksum_pseudo_partial p src dest proto proto_len n
    = inet_chksum addr (hdr ++ take (Z.to_nat n) (chain_data p)).
Proof.
  intros Hp Hsrc Hdst Hpr Hpl Hn Hl hdr.
  pose proof (chain_data_bytes p Hp) as HD.
  assert (Hh : bytes hdr).
  { subst hdr. unfold pseudo_header.
    repeat apply Forall_cons_2; auto with rodos; try apply Forall_nil_2; zlia. }
  assert (E : forall D, bytes D -> Z.of_nat (length D) <= 65535 ->
    inet_chksum addr (hdr ++ D) = 65535 - oc (wsum false (hdr ++ D))).
  { intros D HDb HDl. unfold inet_chksum, LWIP_CHKSUM.
    assert (bytes (hdr ++ D)) by (by apply Forall_app_2).
    rewrite chksum_2_oc by (done || (rewrite length_app; unfold hdr; cbn; lia)).
    apply lnot_u16. destruct (oc_spec (wsum false (hdr ++ D))) as (? & _); [by apply wsum_nonneg|zlia]. }
  split; rewrite E; try done; try (by apply Forall_take); try (rewrite length_take; lia).
  - unfold inet_chksum_pseudo.
    pose proof (chain_loop_inv p [] (0, false) (Forall_nil_2 _) Hp chain_inv_start) as Hi.
    destruct (fold_left chainStep p (0, false)) as [acc swapped]. destruct Hi as (Ha & Hs & Hc).
    by apply pseudoEnd_spec.
  - unfold inet_chksum_pseudo_partial.
    pose proof (partialLoop_spec p [] n 0 false (Forall_nil_2 _) Hp Hn chain_inv_start) as Hi.
    destruct (partialLoop p n 0 false) as [acc swapped]. destruct Hi as (Ha & Hc).
    apply pseudoEnd_spec; try done. by apply Forall_take.
Qed.

Lemma inet_chksum_pseudo_correct_witness :
  inet_chksum_pseudo [Seg 5 [1; 2; 3]] 0x0100007f 0x0200007f 17 3
    = inet_chksum 0 (pseudo_header 0x0100007f 0x0200007f 17 3 ++ chain_data [Seg 5 [1; 2; 3]]) /\
  inet_chksum_pseudo_partial [Seg 5 [1; 2; 3]] 0x0100007f 0x0200007f 17 3 2
    = inet_chksum 0 (pseudo_header 0x0100007f 0x0200007f 17 3 ++ take (Z.to_nat 2) (chain_data [Seg 5 [1; 2; 3]])).
Proof.
  apply inet_chksum_pseudo_correct; try done.
  repeat constructor; cbn; try done; unfold len; cbn; lia.
Defined.

Lemma chksum_roundtrip (addr addr' : Z) (pre post : list Z) :
  bytes pre -> bytes post -> Nat.odd (length pre) = false ->
  Z.of_nat (length pre + length post) <= 65000 ->
  let c := inet_chksum addr (pre ++ [0; 0] ++ post) in
  inet_chksum addr' (pre ++ [u8 c; c / 256] ++ post) = 0.
Proof.
  intros Hpre Hpost Hev Hl c.
  assert (Hz : bytes (pre ++ [0; 0] ++ post)) by (repeat apply Forall_app_2; try done; by repeat constructor).
  set (S := wsum false pre + wsum false post).
  assert (HS : 0 <= S) by (pose proof (wsum_nonneg false pre Hpre);
    pose proof (wsum_nonneg false post Hpost); unfold S; lia).
  destruct (oc_spec S HS) as (Hr & Hm & Hzero).
  assert (Ec : c = 65535 - oc S).
  { unfold c, inet_chksum, LWIP_CHKSUM.
    rewrite chksum_2_oc by (done || (rewrite !length_app; cbn; lia)).
    rewrite !wsum_app, Hev. cbn [length Nat.odd Nat.even negb xorb wsum].
    replace (wsum false pre + (0 + (256 * 0 + 0) + wsum false post)) with S by (unfold S; lia).
    apply lnot_u16. zlia. }
  assert (Hc : in_u16 c) by (rewrite Ec; zlia).
  assert (Hfull : bytes (pre ++ [u8 c; c / 256] ++ post)).
  { apply Forall_app_2; [done|]. apply Forall_app_2; [|done].
    apply Forall_cons_2; [apply u8_range|]. apply Forall_cons_2; [zlia|apply Forall_nil_2]. }
  unfold inet_chksum, LWIP_CHKSUM. rewrite chksum_2_oc by (done || (rewrite !length_app; cbn; lia)).
  rewrite !wsum_app, Hev. cbn [length Nat.odd Nat.even negb xorb wsum].
  replace (wsum false pre + (u8 c + (256 * (c / 256) + 0) + wsum false post)) with (S + c)
    by (unfold S; zlia).
  assert (E : oc (S + c) = 65535).
  { symmetry. apply is_oc_unique. split; [lia|]. rewrite Ec in *. clear Ec Hfull Hz.
    split; [|split; [done|intros ?; exfalso; zlia]].
    rewrite Z.add_sub_assoc, Zminus_mod, Hm, <- Zminus_mod.
    replace (S + 65535 - S) with 65535 by lia. done. }
  rewrite E. reflexivity.
Qed.

(** A header whose checksum field, at an even offset, was computed over the
    header with a zero field verifies: the receiver's [inet_chksum] over it is
    zero. *)
Theorem inet_chksum_verifies (addr addr' : Z) (pre post : list Z) :
  bytes pre -> bytes post -> Nat.odd (length pre) = false ->
  Z.of_nat (length pre + length post) <= 65000 ->
  let c := inet_chksum addr (pre ++ [0; 0] ++ post) in
  inet_chksum addr' (pre ++ [u8 c; c / 256] ++ post) = 0.
Proof. exact (chksum_roundtrip addr addr' pre post). Qed.

Lemma inet_chksum_verifies_witness :
  let c := inet_chksum 0 ([69; 0; 1; 2] ++ [0; 0] ++ [9; 8; 7]) in
  inet_chksum 3 ([69; 0; 1; 2] ++ [u8 c; c / 256] ++ [9; 8; 7]) = 0.
Proof.
  apply (inet_chksum_verifies 0 3 [69; 0; 1; 2] [9; 8; 7]);
    [repeat constructor; done | repeat constructor; done | done | cbn; lia].
Defined.

End InetChksum.
