(* ===== verification/IpAddr.v ===== *)
(** * IPv4 addresses (ip/lwip/core/ip_addr.c)

    Broadcast test, netmask check, and the conversions between addresses and
    dotted text.  Addresses are [u32] values in network byte order, as they lie
    in memory on the little-endian host.  A C string is the list of its
    characters before the terminating zero. *)

From S2P Require Import Prelude LwipDef.
Import LwipDef.

Module IpAddr.

Definition IPADDR_ANY : Z := 0x00000000.
Definition IPADDR_NONE : Z := 0xffffffff.
Definition IPADDR_BROADCAST : Z := 0xffffffff.
Definition NETIF_FLAG_BROADCAST : Z := 0x02.

Definition not32 (x : Z) : Z := u32 (Z.lnot x).

Definition ip_addr_netcmp (addr1 addr2 mask : Z) : bool :=
  Z.land addr1 mask =? Z.land addr2 mask.
Definition ip_addr_ismulticast (addr : Z) : bool :=
  Z.land addr (lwip_htonl 0xf0000000) =? lwip_htonl 0xe0000000.
Definition ip_addr_isany (addr : Z) : bool := addr =? IPADDR_ANY.

(** [ip4_addr_isbroadcast]: of the interface only its flags, address and mask
    are read. *)
Definition ip4_addr_isbroadcast (addr flags ip_addr netmask : Z) : bool :=
  if (not32 addr =? IPADDR_ANY) || (addr =? IPADDR_ANY) then true
  else if Z.land flags NETIF_FLAG_BROADCAST =? 0 then false
  else if addr =? ip_addr then false
  else if ip_addr_netcmp addr ip_addr netmask
          && (Z.land addr (not32 netmask) =? Z.land IPADDR_BROADCAST (not32 netmask))
  then true
  else false.

(** The two loops of [ip4_addr_netmask_valid]; [fuel] bounds the shifts of a
    32-bit mask. *)
Fixpoint firstZero (fuel : nat) (nm mask : Z) : Z :=
  if mask =? 0 then mask
  else if Z.land nm mask =? 0 then mask
  else match fuel with
       | O => mask
       | S fuel => firstZero fuel nm (Z.shiftr mask 1)
       end.
Fixpoint noOne (fuel : nat) (nm mask : Z) : bool :=
  if mask =? 0 then true
  else if negb (Z.land nm mask =? 0) then false
  else match fuel with
       | O => true
       | S fuel => noOne fuel nm (Z.shiftr mask 1)
       end.
Definition ip4_addr_netmask_valid (netmask : Z) : bool :=
  let nm_hostorder := lwip_htonl netmask in
  let mask := firstZero 32 nm_hostorder (Z.shiftl 1 31) in
  noOne 32 nm_hostorder mask.

(** ** Text to address *)

Definition in_range (c lo up : Z) : bool := (lo <=? u8 c) && (u8 c <=? up).
Definition isdigit (c : Z) : bool := in_range c 48 57.
Definition isxdigit (c : Z) : bool := isdigit c || in_range c 97 102 || in_range c 65 70.
Definition islower (c : Z) : bool := in_range c 97 122.
Definition isspace (c : Z) : bool :=
  (c =? 32) || (c =? 12) || (c =? 10) || (c =? 13) || (c =? 9) || (c =? 11).

(** [*cp], with the terminating zero. *)
Definition peek (cp : list Z) : Z := hd 0 cp.

(** The inner loop: digits of the number in the given base. *)
Fixpoint scanDigits (base : Z) (cp : list Z) (val : Z) : Z * list Z :=
  match cp with
  | [] => (val, [])
  | c :: cp' =>
      if isdigit c then scanDigits base cp' (u32 (val * base + (c - 48)))
      else if (base =? 16) && isxdigit c then
        scanDigits base cp' (u32 (Z.lor (u32 (Z.shiftl val 4))
                                        (c + 10 - (if islower c then 97 else 65))))
      else (val, cp)
  end.

(** One number with its optional [0x] or [0] prefix. *)
Definition scanNumber (cp : list Z) : Z * list Z :=
  if peek cp =? 48 then
    let cp := tl cp in
    if (peek cp =? 120) || (peek cp =? 88) then scanDigits 16 (tl cp) 0
    else scanDigits 8 cp 0
  else scanDigits 10 cp 0.

(** The outer loop; [slots] is the number of entries left in front of
    [parts + 3], so at most four numbers are read. *)
Fixpoint scanParts (slots : nat) (cp : list Z) (parts : list Z) : option (list Z * Z * list Z) :=
  if negb (isdigit (peek cp)) then None
  else
    let '(val, cp) := scanNumber cp in
    if peek cp =? 46 then
      match slots with
      | O => None
      | S slots => scanParts slots (tl cp) (parts ++ [val])
      end
    else Some (parts, val, cp).

(** [ipaddr_aton]: [None] for the return value 0, otherwise the address
    stored. *)
Definition ipaddr_aton (cp : list Z) : option Z :=
  '(parts, val, cp) ← scanParts 3 cp [];
  let c := peek cp in
  if negb (c =? 0) && negb (isspace c) then None
  else
    val ← match parts with
          | [] => Some val
          | [p0] => if 0xffffff <? val then None
                    else Some (Z.lor val (u32 (Z.shiftl p0 24)))
          | [p0; p1] => if 0xffff <? val then None
                        else Some (Z.lor val (Z.lor (u32 (Z.shiftl p0 24)) (u32 (Z.shiftl p1 16))))
          | [p0; p1; p2] => if 0xff <? val then None
                            else Some (Z.lor val (Z.lor (Z.lor (u32 (Z.shiftl p0 24))
                                                        (u32 (Z.shiftl p1 16))) (u32 (Z.shiftl p2 8))))
          | _ => Some val
          end;
    Some (lwip_htonl val).

Definition ipaddr_addr (cp : list Z) : Z :=
  match ipaddr_aton cp with
  | Some val => val
  | None => IPADDR_NONE
  end.

(** ** Address to text *)

(** The do-while loop: the decimal digits of [*ap], least significant first.
    A byte has at most three. *)
Fixpoint invDigits (fuel : nat) (ap : Z) : list Z :=
  let rem := ap mod 10 in
  let ap := ap / 10 in
  (48 + rem) :: (if ap =? 0 then []
                 else match fuel with
                      | O => []
                      | S fuel => invDigits fuel ap
                      end).

(** [if (len++ >= buflen) return NULL; *rp++ = c;] *)
Definition emit (buflen : Z) (buf : list Z) (c : Z) : option (list Z) :=
  if buflen <=? Z.of_nat (length buf) then None else Some (buf ++ [c]).
Fixpoint emitAll (buflen : Z) (buf : list Z) (cs : list Z) : option (list Z) :=
  match cs with
  | [] => Some buf
  | c :: cs => buf ← emit buflen buf c; emitAll buflen buf cs
  end.

Fixpoint ntoaBytes (buflen : Z) (aps : list Z) (buf : list Z) : option (list Z) :=
  match aps with
  | [] => Some buf
  | ap :: aps =>
      buf ← emitAll buflen buf (rev (invDigits 2 ap));
      buf ← emit buflen buf 46;
      ntoaBytes buflen aps buf
  end.

(** [ipaddr_ntoa_r]: the last dot is overwritten by the terminating zero. *)
Definition ipaddr_ntoa_r (addr buflen : Z) : option (list Z) :=
  buf ← ntoaBytes buflen [u8 addr; u8 (addr / 256); u8 (addr / 65536); u8 (addr / 16777216)] [];
  Some (removelast buf).

Definition ipaddr_ntoa (addr : Z) : option (list Z) := ipaddr_ntoa_r addr 16.

Example aton_ex : ipaddr_aton [49; 50; 55; 46; 48; 46; 48; 46; 49] = Some 0x0100007f.
Proof. vm_compute. reflexivity. Qed.
Example ntoa_ex : ipaddr_ntoa 0x0100007f = Some [49; 50; 55; 46; 48; 46; 48; 46; 49].
Proof. vm_compute. reflexivity. Qed.

(** ** Netmasks *)

Lemma shiftr_pow2 k : 0 < k -> Z.shiftr (2 ^ k) 1 = 2 ^ (k - 1).
Proof.
  intros Hk. rewrite Z.shiftr_div_pow2 by lia.
  replace k with (k - 1 + 1) at 1 by lia. rewrite Z.pow_add_r by lia.
  change (2 ^ 1) with 2. apply Z.div_mul. lia.
Qed.

Lemma land_pow2_zero x k : 0 <= k -> (Z.land x (2 ^ k) =? 0) = negb (Z.testbit x k).
Proof.
  intros Hk. rewrite land_bit by lia. pose proof (Z.pow_pos_nonneg 2 k).
  destruct (Z.testbit x k); [apply Z.eqb_neq; lia | done].
Qed.

(** Splitting off the top bit. *)
Lemma mod_top_bit x k : 0 <= k -> x mod 2 ^ (k + 1) = Z.b2z (Z.testbit x k) * 2 ^ k + x mod 2 ^ k.
Proof.
  intros Hk. rewrite Z.pow_add_r, Z.rem_mul_r by lia. change (2 ^ 1) with 2.
  rewrite <- Z.shiftr_div_pow2, <- Z.bit0_mod, Z.shiftr_spec by lia.
  rewrite Z.add_0_l. lia.
Qed.

Lemma noOne_spec nm (k fuel : nat) :
  (k <= fuel)%nat ->
  noOne fuel nm (2 ^ Z.of_nat k) = (nm mod 2 ^ (Z.of_nat k + 1) =? 0).
Proof.
  revert fuel. induction k as [|k IH]; intros fuel Hf.
  - destruct fuel; cbn [noOne]; change (2 ^ Z.of_nat 0) with (2 ^ 0);
      rewrite land_pow2_zero, negb_involutive by lia; change (Z.of_nat 0) with 0;
      rewrite (mod_top_bit nm 0), Z.mod_1_r by lia; destruct (Z.testbit nm 0); try done.
    destruct fuel; done.
  - destruct fuel as [|fuel]; [lia|]. cbn [noOne].
    pose proof (Z.pow_pos_nonneg 2 (Z.of_nat (S k)) ltac:(lia) ltac:(lia)).
    destruct (Z.eqb_spec (2 ^ Z.of_nat (S k)) 0); [lia|].
    rewrite land_pow2_zero, negb_involutive, mod_top_bit, shiftr_pow2 by lia.
    replace (Z.of_nat (S k) - 1) with (Z.of_nat k) by lia.
    replace (Z.of_nat (S k)) with (Z.of_nat k + 1) by lia.
    destruct (Z.testbit nm (Z.of_nat k + 1)); cbn [Z.b2z].
    + symmetry. apply Z.eqb_neq.
      pose proof (Z.mod_pos_bound nm (2 ^ (Z.of_nat k + 1)) ltac:(lia)). lia.
    + rewrite IH by lia. done.
Qed.

Lemma netmask_spec nm (k fuel fuel' : nat) :
  (k < fuel)%nat -> (k <= fuel')%nat ->
  noOne fuel' nm (firstZero fuel nm (2 ^ Z.of_nat k)) = true <->
  exists n, 0 <= n <= Z.of_nat k + 1 /\
    nm mod 2 ^ (Z.of_nat k + 1) = 2 ^ (Z.of_nat k + 1) - 2 ^ n.
Proof.
  revert fuel. induction k as [|k IH]; intros fuel Hf Hf';
    (destruct fuel as [|fuel]; [lia|]); cbn [firstZero].
  - change (2 ^ Z.of_nat 0) with (2 ^ 0). change (Z.of_nat 0) with 0. destruct (Z.eqb_spec (2 ^ 0) 0); [done|].
    rewrite land_pow2_zero, (mod_top_bit nm 0), Z.mod_1_r by lia.
    destruct (Z.testbit nm 0) eqn:E; cbn [negb Z.b2z].
    + assert (F : firstZero fuel nm (Z.shiftr (2 ^ 0) 1) = 0) by (by destruct fuel).
      rewrite F. split; [|by destruct fuel']. intros _. exists 0. done.
    + pose proof (noOne_spec nm 0 fuel' ltac:(lia)) as S. change (2 ^ Z.of_nat 0) with (2 ^ 0) in S.
      rewrite S. change (Z.of_nat 0) with 0. rewrite (mod_top_bit nm 0), E, Z.mod_1_r by lia.
      split; [intros _; exists 1; done|done].
  - pose proof (Z.pow_pos_nonneg 2 (Z.of_nat (S k)) ltac:(lia) ltac:(lia)).
    destruct (Z.eqb_spec (2 ^ Z.of_nat (S k)) 0); [lia|].
    rewrite land_pow2_zero, mod_top_bit by lia.
    assert (Hp : 2 ^ (Z.of_nat (S k) + 1) = 2 * 2 ^ Z.of_nat (S k))
      by (rewrite Z.pow_add_r by lia; change (2 ^ 1) with 2; lia).
    pose proof (Z.mod_pos_bound nm (2 ^ Z.of_nat (S k)) ltac:(lia)) as Hm.
    destruct (Z.testbit nm (Z.of_nat (S k))) eqn:E; cbn [negb Z.b2z].
    + rewrite shiftr_pow2 by lia. replace (Z.of_nat (S k) - 1) with (Z.of_nat k) by lia.
      rewrite IH by lia. replace (Z.of_nat k + 1) with (Z.of_nat (S k)) by lia.
      split; intros (j & Hj & Ej); exists j; (split; [|lia]); [lia|].
      destruct (Z.eq_dec j (Z.of_nat (S k) + 1)) as [->|]; lia.
    + rewrite noOne_spec by lia. rewrite mod_top_bit, E, Z.eqb_eq by lia. cbn [Z.b2z].
      split.
      * intros E0. exists (Z.of_nat (S k) + 1). lia.
      * intros (j & Hj & Ej). destruct (Z.eq_dec j (Z.of_nat (S k) + 1)) as [->|]; [lia|].
        pose proof (Z.pow_le_mono_r 2 j (Z.of_nat (S k)) ltac:(lia) ltac:(lia)). lia.
Qed.

(** ** Printing and parsing *)

Definition dec (b : Z) : list Z := rev (invDigits 2 b).

Definition digitsVal (base : Z) (ds : list Z) (val : Z) : Z :=
  fold_left (fun v c => u32 (v * base + (c - 48))) ds val.

(** The decimal digits of every byte, checked exhaustively. *)
Lemma dec_ok b : in_u8 b ->
  (length (dec b) <= 3)%nat /\ Forall (fun c => isdigit c = true) (dec b) /\ dec b <> [] /\
  (b <> 0 -> peek (dec b) <> 48) /\ digitsVal 10 (dec b) 0 = b /\ (b = 0 -> dec b = [48]).
Proof.
  intros Hb.
  assert (A : all_below 256 (fun b => (Nat.leb (length (dec b)) 3) && forallb isdigit (dec b) &&
    negb (Nat.eqb (length (dec b)) 0) && ((b =? 0) || negb (peek (dec b) =? 48)) &&
    (digitsVal 10 (dec b) 0 =? b)) = true) by (vm_compute; reflexivity).
  pose proof (all_below_spec _ _ b A Hb) as P. cbv beta in P. clear A.
  repeat (apply andb_true_iff in P as [P ?]).
  apply Nat.leb_le in P. split; [done|]. split.
  { apply Forall_forall. intros x Hx. rewrite forallb_forall in H2. by apply H2, list_elem_of_In. }
  split; [intros E; rewrite E in H1; done|]. split.
  { intros Hb0 E. rewrite E in H0. destruct (Z.eqb_spec b 0); done. }
  split; [lia|]. intros ->. reflexivity.
Qed.

Lemma scanDigits_app base ds rest val :
  Forall (fun c => isdigit c = true) ds ->
  scanDigits base (ds ++ rest) val = scanDigits base rest (digitsVal base ds val).
Proof.
  intros Hd. revert val. induction Hd as [|c ds Hc Hd IH]; intros val; [done|].
  cbn. by rewrite Hc, IH.
Qed.

(** What may follow a printed number: the end of the string or a dot. *)
Definition ends (rest : list Z) : Prop := rest = [] \/ exists r, rest = 46 :: r.

Lemma scanDigits_stop base rest val :
  ends rest -> scanDigits base rest val = (val, rest).
Proof.
  intros [->|[r ->]]; [done|]. cbn. change (isdigit 46) with false. cbn.
  change (isxdigit 46) with false. by rewrite andb_false_r.
Qed.

Lemma scanNumber_dec b rest : in_u8 b -> ends rest -> scanNumber (dec b ++ rest) = (b, rest).
Proof.
  intros Hb Hr. destruct (dec_ok b Hb) as (_ & Hd & Hne & Hnz & Hv & Hz). unfold scanNumber.
  destruct (Z.eq_dec b 0) as [->|Hb0].
  - rewrite (Hz eq_refl). cbn [app tl]. change (peek (48 :: rest) =? 48) with true. cbn iota.
    assert ((peek rest =? 120) || (peek rest =? 88) = false) as ->
      by (destruct Hr as [->|[r ->]]; done).
    by apply scanDigits_stop.
  - assert (Hp : peek (dec b ++ rest) <> 48) by (destruct (dec b); [done|by apply Hnz]).
    destruct (Z.eqb_spec (peek (dec b ++ rest)) 48); [done|].
    rewrite scanDigits_app, Hv by done. by apply scanDigits_stop.
Qed.

Lemma peek_dec b rest : in_u8 b -> isdigit (peek (dec b ++ rest)) = true.
Proof.
  intros Hb. destruct (dec_ok b Hb) as (_ & Hd & Hne & _).
  destruct (dec b); [done|]. by inversion Hd.
Qed.

Lemma emitAll_spec buflen buf cs :
  Z.of_nat (length buf + length cs) <= buflen -> emitAll buflen buf cs = Some (buf ++ cs).
Proof.
  revert buf. induction cs as [|c cs IH]; intros buf H; cbn [emitAll length] in *.
  { by rewrite app_nil_r. }
  unfold emit. destruct (Z.leb_spec buflen (Z.of_nat (length buf))); [lia|].
  cbn [mbind option_bind]. rewrite IH by (rewrite length_app; cbn; lia).
  by rewrite <- app_assoc.
Qed.

Definition dotted (aps : list Z) : list Z := concat (map (fun b => dec b ++ [46]) aps).

Lemma ntoaBytes_spec buflen aps buf :
  bytes aps -> Z.of_nat (length buf + length (dotted aps)) <= buflen ->
  ntoaBytes buflen aps buf = Some (buf ++ dotted aps).
Proof.
  intros Ha. revert buf. induction Ha as [|b aps Hb Ha IH]; intros buf H.
  { cbn. by rewrite app_nil_r. }
  unfold dotted in *. cbn [map concat ntoaBytes] in *. rewrite !length_app in H. cbn [length] in H.
  fold (dec b). rewrite emitAll_spec by lia. cbn [mbind option_bind]. unfold emit.
  rewrite length_app. destruct (Z.leb_spec buflen (Z.of_nat (length buf + length (dec b)))); [lia|].
  cbn [mbind option_bind]. rewrite IH by (rewrite !length_app; cbn [length]; lia).
  by rewrite <- !app_assoc.
Qed.

Lemma length_dotted aps : bytes aps -> (length (dotted aps) <= 4 * length aps)%nat.
Proof.
  induction 1 as [|b aps Hb Ha IH]; [done|]. unfold dotted in *. cbn [map concat].
  rewrite !length_app. cbn [length]. destruct (dec_ok b Hb) as (? & _). lia.
Qed.

(** ** Properties *)

(** [ip4_addr_netmask_valid] accepts exactly the masks whose host-order
    value is a run of ones followed by a run of zeros. *)
Theorem netmask_valid_iff (netmask : Z) :
  in_u32 netmask ->
  ip4_addr_netmask_valid netmask = true <->
  exists n, 0 <= n <= 32 /\ lwip_htonl netmask = 2 ^ 32 - 2 ^ n.
Proof.
  intros Hm. unfold ip4_addr_netmask_valid.
  pose proof (netmask_spec (lwip_htonl netmask) 31 32 32 ltac:(lia) ltac:(lia)) as S.
  change (Z.shiftl 1 31) with (2 ^ Z.of_nat 31). rewrite S.
  change (Z.of_nat 31 + 1) with 32. rewrite Z.mod_small by apply htonl_range. done.
Qed.

Lemma netmask_valid_iff_witness :
  ip4_addr_netmask_valid 0x00ffffff = true <->
  exists n, 0 <= n <= 32 /\ lwip_htonl 0x00ffffff = 2 ^ 32 - 2 ^ n.
Proof. apply netmask_valid_iff. done. Defined.

(** Printing an address into the 16-byte buffer always succeeds and parsing
    the text gives the address back. *)
Theorem ntoa_aton_roundtrip (addr : Z) :
  in_u32 addr ->
  exists str, ipaddr_ntoa addr = Some str /\ (length str <= 15)%nat /\
    ipaddr_aton str = Some addr /\ ipaddr_addr str = addr.
Proof.
  intros Ha. unfold ipaddr_ntoa, ipaddr_ntoa_r.
  assert (E : addr = le32 (u8 addr) (u8 (addr / 256)) (u8 (addr / 65536)) (u8 (addr / 16777216)))
    by (unfold le32; zlia).
  revert E. generalize (u8_range addr) (u8_range (addr / 256)) (u8_range (addr / 65536))
    (u8_range (addr / 16777216)).
  generalize (u8 addr) (u8 (addr / 256)) (u8 (addr / 65536)) (u8 (addr / 16777216)).
  intros b0 b1 b2 b3 H0 H1 H2 H3 ->.
  assert (Hb : bytes [b0; b1; b2; b3]) by solve_bytes.
  pose proof (length_dotted _ Hb) as Hl. cbn [length] in Hl.
  rewrite ntoaBytes_spec by (done || (cbn [length]; lia)). cbn [mbind option_bind app].
  assert (Ed : dotted [b0; b1; b2; b3] =
    (dec b0 ++ 46 :: dec b1 ++ 46 :: dec b2 ++ 46 :: dec b3) ++ [46]).
  { unfold dotted. cbn [map concat]. rewrite app_nil_r. repeat (rewrite <- app_assoc; cbn [app]). done. }
  rewrite Ed, removelast_last. eexists. split; [done|].
  rewrite Ed, length_app in Hl. cbn [length] in Hl. split; [lia|].
  assert (P : ipaddr_aton (dec b0 ++ 46 :: dec b1 ++ 46 :: dec b2 ++ 46 :: dec b3)
              = Some (le32 b0 b1 b2 b3)).
  { unfold ipaddr_aton. cbn [scanParts].
    rewrite peek_dec, scanNumber_dec by (done || (right; eauto)). cbn [negb peek hd tl].
    change (46 =? 46) with true. cbn iota.
    rewrite peek_dec, scanNumber_dec by (done || (right; eauto)). cbn [negb peek hd tl].
    change (46 =? 46) with true. cbn iota.
    rewrite peek_dec, scanNumber_dec by (done || (right; eauto)). cbn [negb peek hd tl].
    change (46 =? 46) with true. cbn iota.
    rewrite <- (app_nil_r (dec b3)), peek_dec, scanNumber_dec by (done || by left).
    cbn [negb peek hd tl app mbind option_bind].
    change (0 =? 46) with false. cbn iota. cbn [mbind option_bind].
    change (negb (peek [] =? 0) && negb (isspace (peek []))) with false. cbn iota.
    destruct (Z.ltb_spec 0xff b3); [zlia|]. cbn [mbind option_bind].
    f_equal. rewrite <- htonl_le32 by done. f_equal. unfold le32.
    rewrite !Z.shiftl_mul_pow2 by lia. change (2 ^ 24) with 16777216.
    change (2 ^ 16) with 65536. change (2 ^ 8) with 256. rewrite !u32_small by zlia.
    rewrite (lor_add 24 (b0 * 16777216)) by (try change (2 ^ 24) with 16777216; zlia).
    rewrite (lor_add 16 _ (b2 * 256)) by (try change (2 ^ 16) with 65536; zlia).
    rewrite Z.lor_comm, (lor_add 8) by (try change (2 ^ 8) with 256; zlia). lia. }
  split; [done|]. unfold ipaddr_addr. by rewrite P.
Qed.

Lemma ntoa_aton_roundtrip_witness :
  exists str, ipaddr_ntoa 0x0100a8c0 = Some str /\ (length str <= 15)%nat /\
    ipaddr_aton str = Some 0x0100a8c0 /\ ipaddr_addr str = 0x0100a8c0.
Proof. apply ntoa_aton_roundtrip. done. Defined.

(** The parser checks only the last number: 256.0.0.1 is accepted and read as
    0.0.0.1. *)
Example aton_accepts_256 :
  ipaddr_aton [50; 53; 54; 46; 48; 46; 48; 46; 49] = ipaddr_aton [48; 46; 48; 46; 48; 46; 49].
Proof. vm_compute. reflexivity. Qed.

(** *** The bytes of an address in memory *)
Definition ip_bytes (a : Z) : list Z :=
  [u8 a; u8 (Z.shiftr a 8); u8 (Z.shiftr a 16); u8 (Z.shiftr a 24)].
Definition ip_of (b : list Z) : Z :=
  nth 0 b 0 + 256 * nth 1 b 0 + 65536 * nth 2 b 0 + 16777216 * nth 3 b 0.

Lemma ip_of_bytes a : in_u32 a -> ip_of (ip_bytes a) = a.
Proof.
  intros Ha. unfold ip_of, ip_bytes. cbn [nth]. rewrite !Z.shiftr_div_pow2 by lia.
  change (2 ^ 8) with 256. change (2 ^ 16) with 65536. change (2 ^ 24) with 16777216. zlia.
Qed.

Lemma ip_bytes_bytes a : bytes (ip_bytes a).
Proof. unfold ip_bytes. solve_bytes. Qed.

End IpAddr.
