(* ===== verification/Mem.v ===== *)
(** * The heap of the IP stack (ip/lwip/core/mem.c)

    The heap is one array [ram] of [MEM_SIZE_ALIGNED] bytes, cut into blocks.
    Every block starts with a [struct mem] that holds the offsets of the next
    and of the previous block and a flag.  [ram] is modelled by the [struct mem]
    that each offset holds, pointers by their offset from [ram]; an access to an
    offset that holds no [struct mem] has no result.  The assertions of the
    source only print a message and are left out.  The configuration is that of
    [lwipopts.h] (a 16-bit [mem_size_t], no operating system, [MEM_ALIGNMENT] 4). *)

From S2P Require Import Prelude.
From stdpp Require Import gmap.

#[local] Open Scope Z_scope.

Module Mem.

Definition MEM_ALIGNMENT : Z := 4.
Definition LWIP_MEM_ALIGN_SIZE (size : Z) : Z := Z.land (size + MEM_ALIGNMENT - 1) (Z.lnot (MEM_ALIGNMENT - 1)).
Definition MIN_SIZE_ALIGNED : Z := LWIP_MEM_ALIGN_SIZE 12.
(** Two 16-bit fields and a byte occupy six bytes. *)
Definition SIZEOF_STRUCT_MEM : Z := LWIP_MEM_ALIGN_SIZE 6.
Definition MEM_SIZE_ALIGNED : Z := LWIP_MEM_ALIGN_SIZE (10 * 1024).

Record mem := mkMem { next : Z; prev : Z; used : Z }.

Record heap := mkHeap { ram : gmap Z mem; lfree : Z }.

(** ** Accesses *)
Definition hdr (h : heap) (p : Z) : option mem := ram h !! p.
Definition put (h : heap) (p : Z) (m : mem) : heap := mkHeap (<[p := m]> (ram h)) (lfree h).
Definition set_next (h : heap) (p v : Z) : option heap :=
  m ← hdr h p; Some (put h p (mkMem v (prev m) (used m))).
Definition set_prev (h : heap) (p v : Z) : option heap :=
  m ← hdr h p; Some (put h p (mkMem (next m) v (used m))).
Definition set_used (h : heap) (p v : Z) : option heap :=
  m ← hdr h p; Some (put h p (mkMem (next m) (prev m) v)).
Definition set_lfree (h : heap) (p : Z) : heap := mkHeap (ram h) p.

(** ** The operations *)

Definition plug_forward (h : heap) (mem : Z) : option heap :=
  m ← hdr h mem;
  let nmem := next m in
  n ← hdr h nmem;
  if negb (mem =? nmem) && (used n =? 0) && negb (nmem =? MEM_SIZE_ALIGNED) then
    let h := if lfree h =? nmem then set_lfree h mem else h in
    h ← set_next h mem (next n);
    set_prev h (next n) (u16 mem)
  else Some h.

Definition plug_backward (h : heap) (mem : Z) : option heap :=
  m ← hdr h mem;
  let pmem := prev m in
  p ← hdr h pmem;
  if negb (pmem =? mem) && (used p =? 0) then
    let h := if lfree h =? mem then set_lfree h pmem else h in
    h ← set_next h pmem (next m);
    set_prev h (next m) (u16 pmem)
  else Some h.

Definition plug_holes (h : heap) (mem : Z) : option heap :=
  h ← plug_forward h mem; plug_backward h mem.

Definition mem_init : heap :=
  mkHeap (<[MEM_SIZE_ALIGNED := mkMem MEM_SIZE_ALIGNED MEM_SIZE_ALIGNED 1]>
           {[0 := mkMem MEM_SIZE_ALIGNED 0 0]}) 0.

(** [None] for [rmem] is the null pointer. *)
Definition mem_free (h : heap) (rmem : option Z) : option heap :=
  match rmem with
  | None => Some h
  | Some rmem =>
      if (rmem <? 0) || (MEM_SIZE_ALIGNED <=? rmem) then Some h else
      let mem := rmem - SIZEOF_STRUCT_MEM in
      h ← set_used h mem 0;
      let h := if mem <? lfree h then set_lfree h mem else h in
      plug_holes h mem
  end.

(** The size every request is raised to. *)
Definition adjusted (size : Z) : Z :=
  let size := u16 (LWIP_MEM_ALIGN_SIZE size) in
  if size <? MIN_SIZE_ALIGNED then MIN_SIZE_ALIGNED else size.

(** A free block is created at [ptr2], between [ptr] and [nxt], which is told
    unless it is the end of the heap. *)
Definition link_free (h : heap) (ptr ptr2 nxt : Z) : option heap :=
  let h := put h ptr2 (mkMem nxt ptr 0) in
  set_next h ptr ptr2.
Definition link_back (h : heap) (ptr2 nxt : Z) : option heap :=
  if negb (nxt =? MEM_SIZE_ALIGNED) then set_prev h nxt ptr2 else Some h.

Definition mem_trim (h : heap) (rmem newsize : Z) : option (option Z * heap) :=
  let newsize := adjusted newsize in
  if MEM_SIZE_ALIGNED <? newsize then Some (None, h) else
  if (rmem <? 0) || (MEM_SIZE_ALIGNED <=? rmem) then Some (Some rmem, h) else
  let mem := rmem - SIZEOF_STRUCT_MEM in
  let ptr := u16 mem in
  m ← hdr h mem;
  let size := u16 (next m - ptr - SIZEOF_STRUCT_MEM) in
  if size <? newsize then Some (None, h) else
  if newsize =? size then Some (Some rmem, h) else
  let mem2 := next m in
  m2 ← hdr h mem2;
  let ptr2 := u16 (ptr + SIZEOF_STRUCT_MEM + newsize) in
  if used m2 =? 0 then
    let h := if lfree h =? mem2 then set_lfree h ptr2 else h in
    h ← link_free h ptr ptr2 (next m2);
    h ← link_back h ptr2 (next m2);
    Some (Some rmem, h)
  else if newsize + SIZEOF_STRUCT_MEM + MIN_SIZE_ALIGNED <=? size then
    let h := if ptr2 <? lfree h then set_lfree h ptr2 else h in
    h ← link_free h ptr ptr2 (next m);
    h ← link_back h ptr2 (next m);
    Some (Some rmem, h)
  else Some (Some rmem, h).

(** Every loop visits each block at most once, and a block is at least
    [SIZEOF_STRUCT_MEM + MIN_SIZE_ALIGNED] long. *)
Definition fuel : nat := Z.to_nat (MEM_SIZE_ALIGNED / (SIZEOF_STRUCT_MEM + MIN_SIZE_ALIGNED) + 1).

(** The scan for the first free block that is big enough. *)
Fixpoint search (n : nat) (h : heap) (ptr size : Z) : option (option Z) :=
  match n with
  | O => None
  | S n =>
      if ptr <? MEM_SIZE_ALIGNED - size then
        m ← hdr h ptr;
        if (used m =? 0) && (size <=? u32 (next m - (ptr + SIZEOF_STRUCT_MEM)))
        then Some (Some ptr) else search n h (next m) size
      else Some None
  end.

(** The scan for the new lowest free block. *)
Fixpoint lowest_free (n : nat) (h : heap) (cur : Z) : option Z :=
  match n with
  | O => None
  | S n =>
      m ← hdr h cur;
      if negb (used m =? 0) && negb (cur =? MEM_SIZE_ALIGNED)
      then lowest_free n h (next m) else Some cur
  end.

(** The block at [ptr] is taken, and split when the rest can hold a block. *)
Definition take (h : heap) (ptr size : Z) : option heap :=
  m ← hdr h ptr;
  if size + SIZEOF_STRUCT_MEM + MIN_SIZE_ALIGNED <=? u32 (next m - (ptr + SIZEOF_STRUCT_MEM)) then
    let ptr2 := u16 (ptr + SIZEOF_STRUCT_MEM + size) in
    h ← link_free h ptr ptr2 (next m);
    h ← set_used h ptr 1;
    link_back h ptr2 (next m)
  else set_used h ptr 1.

Definition mem_malloc (h : heap) (size : Z) : option (option Z * heap) :=
  if size =? 0 then Some (None, h) else
  let size := adjusted size in
  if MEM_SIZE_ALIGNED <? size then Some (None, h) else
  r ← search fuel h (u16 (lfree h)) size;
  match r with
  | None => Some (None, h)
  | Some mem =>
      h ← take h mem size;
      h ← (if mem =? lfree h then
             cur ← lowest_free fuel h (lfree h); Some (set_lfree h cur)
           else Some h);
      Some (Some (mem + SIZEOF_STRUCT_MEM), h)
  end.

(** The product is converted to [mem_size_t]; the bytes of the block are then
    cleared, [count * size] of them (second component of the result). *)
Definition mem_calloc (h : heap) (count size : Z) : option (option (Z * Z) * heap) :=
  r ← mem_malloc h (u16 (count * size));
  match r with
  | (Some p, h) => Some (Some (p, count * size), h)
  | (None, h) => Some (None, h)
  end.

Example three_blocks :
  (a ← mem_malloc mem_init 100; b ← mem_malloc a.2 10; c ← mem_malloc b.2 7;
   h ← mem_free c.2 b.1; Some (a.1, b.1, c.1, lfree h))
  = Some (Some 8, Some 116, Some 136, 108).
Proof. vm_compute. reflexivity. Qed.

(** ** The block structure

    A heap is described by the list of its blocks, each with its length
    (header included) and whether it is in use. *)

Abbreviation block := (Z * bool)%type.
Definition flag (u : bool) : Z := if u then 1 else 0.

Fixpoint total (bs : list block) : Z :=
  match bs with [] => 0 | (s, _) :: bs => s + total bs end.

(** The headers from offset [p] on describe the blocks [bs], the first of which
    follows a block at [pv]. *)
Fixpoint seg (r : gmap Z mem) (pv p : Z) (bs : list block) : Prop :=
  match bs with
  | [] => True
  | (s, u) :: bs => r !! p = Some (mkMem (p + s) pv (flag u)) /\ seg r p (p + s) bs
  end.

(** The start of the last block. *)
Fixpoint lastp (pv p : Z) (bs : list block) : Z :=
  match bs with [] => pv | (s, _) :: bs => lastp p (p + s) bs end.

Definition size_ok (b : block) : Prop := 20 <= b.1 /\ b.1 mod 4 = 0.

Fixpoint first_free (p : Z) (bs : list block) : Z :=
  match bs with
  | [] => p
  | (s, u) :: bs => if u then first_free (p + s) bs else p
  end.

(** No two free blocks are neighbours. *)
Fixpoint no_adj (bs : list block) : Prop :=
  match bs with
  | [] => True
  | x :: bs => match bs with y :: _ => x.2 || y.2 = true | [] => True end /\ no_adj bs
  end.

Record lay (h : heap) (bs : list block) : Prop := {
  lay_seg : seg (ram h) 0 0 bs;
  lay_total : total bs = MEM_SIZE_ALIGNED;
  lay_ok : Forall size_ok bs;
  lay_end : exists e, ram h !! MEM_SIZE_ALIGNED = Some e /\ used e = 1;
  lay_free : lfree h = first_free 0 bs
}.

Definition wf (h : heap) (bs : list block) : Prop := lay h bs /\ no_adj bs.

Ltac consts :=
  change MEM_SIZE_ALIGNED with 10240 in *; change SIZEOF_STRUCT_MEM with 8 in *;
  change MIN_SIZE_ALIGNED with 12 in *.

(** *** Facts on block lists *)

Lemma total_app a b : total (a ++ b) = total a + total b.
Proof. induction a as [|[s u] a IH]; cbn [total app]; lia. Qed.

Lemma total_nonneg bs : Forall size_ok bs -> 0 <= 20 * Z.of_nat (length bs) <= total bs.
Proof.
  induction 1 as [|[s u] bs [Hs _] _ IH]; cbn [length total fst] in *; [|lia].
  change (Z.of_nat 0) with 0. lia.
Qed.

Lemma total_mod bs : Forall size_ok bs -> total bs mod 4 = 0.
Proof.
  induction 1 as [|[s u] bs [_ Hs] _ IH]; cbn [total fst] in *; [done|]. zlia.
Qed.

Lemma seg_app r pv p a b :
  seg r pv p (a ++ b) <-> seg r pv p a /\ seg r (lastp pv p a) (p + total a) b.
Proof.
  revert pv p. induction a as [|[s u] a IH]; intros pv p; cbn [seg app total lastp].
  - rewrite Z.add_0_r. tauto.
  - rewrite IH, <- Z.add_assoc. tauto.
Qed.

Lemma lastp_range pv p a x :
  Forall size_ok (x :: a) -> p <= lastp pv p (x :: a) < p + total (x :: a).
Proof.
  revert pv p x. induction a as [|y a IH]; intros pv p [s u] [[Hs _] Ha]%Forall_cons.
  - cbn [lastp total fst] in *. lia.
  - specialize (IH p (p + s) y Ha). destruct y as [s' u'].
    cbn [lastp total fst] in *. lia.
Qed.

Lemma seg_frame r r' pv p bs :
  Forall size_ok bs ->
  (forall q, p <= q < p + total bs -> r' !! q = r !! q) ->
  seg r pv p bs -> seg r' pv p bs.
Proof.
  intros Hok. revert pv p. induction Hok as [|[s u] bs [Hs _] Hok IH]; intros pv p Hq; [done|].
  pose proof (total_nonneg bs Hok). cbn [seg total fst] in *. intros [H1 H2]. split.
  - rewrite Hq by lia. done.
  - apply IH; [|done]. intros q Hqq. apply Hq. lia.
Qed.

Lemma first_free_app p a b :
  first_free p (a ++ b) =
  if existsb (fun x => negb x.2) a then first_free p a else first_free (p + total a) b.
Proof.
  revert p. induction a as [|[s u] a IH]; intros p; cbn [first_free app total existsb snd].
  - by rewrite Z.add_0_r.
  - destruct u; cbn [negb orb]; [|done]. rewrite IH. by rewrite Z.add_assoc.
Qed.

Lemma first_free_range p bs :
  Forall size_ok bs ->
  p <= first_free p bs <= p + total bs /\
  (existsb (fun x => negb x.2) bs = true -> first_free p bs < p + total bs).
Proof.
  intros Hok. revert p. induction Hok as [|[s u] bs [Hs _] Hok IH]; intros p;
    cbn [first_free total existsb snd fst] in *; [split; [lia|done]|].
  pose proof (total_nonneg bs Hok). destruct u; cbn [negb orb]; [|lia].
  specialize (IH (p + s)). split; [lia|]. intros He. apply IH in He. lia.
Qed.

Lemma no_adj_cons_inv x bs : no_adj (x :: bs) -> no_adj bs.
Proof. by intros [_ ?]. Qed.

Lemma no_adj_app_l a b : no_adj (a ++ b) -> no_adj a.
Proof.
  induction a as [|x a IH]; [done|]. intros [H1 H2]. split; [|by apply IH].
  by destruct a.
Qed.
Lemma no_adj_app_r a b : no_adj (a ++ b) -> no_adj b.
Proof. induction a as [|x a IH]; [done|]. intros [_ H]. by apply IH. Qed.

Lemma no_adj_join a x b : no_adj (a ++ [x]) -> no_adj (x :: b) -> no_adj (a ++ x :: b).
Proof.
  induction a as [|y a IH]; [done|]. intros [H1 H2] H3. split.
  - by destruct a.
  - by apply IH.
Qed.

Lemma no_adj_used a s b : no_adj a -> no_adj b -> no_adj (a ++ (s, true) :: b).
Proof.
  intros Ha Hb. apply no_adj_join.
  - induction a as [|y a IH]; [done|]. destruct Ha as [H1 H2]. split; [|by apply IH].
    destruct a; cbn; [by rewrite orb_true_r | done].
  - split; [by destruct b|done].
Qed.

(** *** Merging *)

(** Every run of free blocks becomes one block. *)
Fixpoint coalesce (bs : list block) : list block :=
  match bs with
  | [] => []
  | (s, u) :: bs =>
      match u, coalesce bs with
      | false, (s2, false) :: bs' => (s + s2, false) :: bs'
      | _, bs' => (s, u) :: bs'
      end
  end.

Lemma coalesce_no_adj bs : no_adj (coalesce bs).
Proof.
  induction bs as [|[s u] bs IH]; [done|]. cbn [coalesce].
  destruct u; [split; [by destruct (coalesce bs)|done]|].
  destruct (coalesce bs) as [|[s2 [|]] bs']; [done|by split|].
  destruct IH as [H1 H2]. by split.
Qed.

Lemma coalesce_normal bs : no_adj bs -> coalesce bs = bs.
Proof.
  induction bs as [|[s u] bs IH]; [done|]. intros [H1 H2]. cbn [coalesce].
  rewrite (IH H2). destruct u; [done|]. by destruct bs as [|[s2 [|]] bs].
Qed.

Lemma coalesce_app_r a b : coalesce (a ++ coalesce b) = coalesce (a ++ b).
Proof.
  induction a as [|[s u] a IH].
  - cbn [app]. apply coalesce_normal, coalesce_no_adj.
  - cbn [app coalesce]. by rewrite IH.
Qed.

Lemma coalesce_total bs : total (coalesce bs) = total bs.
Proof.
  induction bs as [|[s u] bs IH]; [done|]. cbn [coalesce].
  destruct u; [cbn [total]; lia|].
  destruct (coalesce bs) as [|[s2 [|]] bs']; cbn [total] in *; lia.
Qed.

(** *** Replacing a run of blocks *)

(** The header at [e] may get a new [prev]. *)
Definition reprev (m : mem) (v : Z) : mem := mkMem (next m) v (used m).

Lemma lay_replace h h' pre mid mid' post :
  lay h (pre ++ mid ++ post) ->
  total mid' = total mid -> Forall size_ok mid' ->
  (forall q, q < total pre \/ total pre + total mid < q -> ram h' !! q = ram h !! q) ->
  seg (ram h') (lastp 0 0 pre) (total pre) mid' ->
  (exists v, ram h' !! (total pre + total mid) =
               (fun m => reprev m v) <$> (ram h !! (total pre + total mid)) /\
             (post <> [] -> v = lastp (lastp 0 0 pre) (total pre) mid')) ->
  lfree h' = first_free 0 (pre ++ mid' ++ post) ->
  lay h' (pre ++ mid' ++ post).
Proof.
  intros [Hs Ht Hok He Hf] Hm Hm' Hq Hmid (v & Hv & Hlast) Hfree.
  apply Forall_app in Hok as [Hpre Hok]. apply Forall_app in Hok as [Hmo Hpost].
  pose proof (total_nonneg _ Hmo). pose proof (total_nonneg _ Hpost). pose proof (total_nonneg _ Hpre).
  rewrite !total_app in Ht. apply seg_app in Hs as [Hs1 Hs2]. apply seg_app in Hs2 as [_ Hs3].
  rewrite Z.add_0_l in *. split; [|by rewrite !total_app; lia|by rewrite !Forall_app| |done].
  - apply seg_app. split; [apply (seg_frame (ram h)); auto|].
    { intros q Hq'. apply Hq. lia. }
    apply seg_app. rewrite Z.add_0_l. split; [done|].
    destruct post as [|[s u] post]; [done|]. specialize (Hlast ltac:(done)) as ->.
    rewrite Hm. destruct Hs3 as [Hh Ht3].
    apply Forall_cons in Hpost as [[Hu _] Hpost]. cbn [fst total] in *. pose proof (total_nonneg _ Hpost).
    split; [by rewrite Hv, Hh|]. apply (seg_frame (ram h)); auto.
    intros q Hq'. apply Hq. lia.
  - destruct He as (e & He & Heu). destruct (decide (post = [])) as [->|Hne].
    + cbn [total] in Ht. exists (reprev e v). split; [|done].
      replace MEM_SIZE_ALIGNED with (total pre + total mid) in * by lia.
      by rewrite Hv, He.
    + exists e. split; [|done]. rewrite Hq; [done|].
      destruct post as [|[s u] post]; [done|]. apply Forall_cons in Hpost as [[Hu _] Hpost].
      pose proof (total_nonneg _ Hpost). cbn [fst total] in *. lia.
Qed.

(** The block at the end of [pre]. *)
Lemma lay_hdr h pre s u post :
  lay h (pre ++ (s, u) :: post) ->
  hdr h (total pre) = Some (mkMem (total pre + s) (lastp 0 0 pre) (flag u)).
Proof. intros [Hs _ _ _ _]. apply seg_app in Hs as [_ [Hh _]]. by rewrite Z.add_0_l in Hh. Qed.

(** There is a header at the start of every block and at the end of the heap. *)
Lemma lay_hdr_next h pre post :
  lay h (pre ++ post) -> exists m, hdr h (total pre) = Some m /\
    used m = match post with (_, u) :: _ => flag u | [] => 1 end /\
    next m = match post with (s, _) :: _ => total pre + s | [] => next m end /\
    (total pre = MEM_SIZE_ALIGNED <-> post = []).
Proof.
  intros Hl. destruct post as [|[s u] post].
  - destruct (lay_end _ _ Hl) as (e & He & Hu). rewrite app_nil_r in Hl.
    rewrite (lay_total _ _ Hl). by exists e.
  - rewrite (lay_hdr _ _ _ _ _ Hl). eexists. repeat split; [|done].
    pose proof (lay_total _ _ Hl) as Ht. rewrite total_app in Ht. cbn [total] in Ht.
    destruct (proj1 (Forall_app _ _ _) (lay_ok _ _ Hl)) as [_ [[Hs _] Hp]%Forall_cons].
    pose proof (total_nonneg _ Hp). cbn [fst] in *. lia.
Qed.

Lemma lay_pos h pre post : lay h (pre ++ post) -> 0 <= total pre <= MEM_SIZE_ALIGNED /\ u16 (total pre) = total pre.
Proof.
  intros Hl. pose proof (lay_total _ _ Hl) as Ht. rewrite total_app in Ht.
  destruct (proj1 (Forall_app _ _ _) (lay_ok _ _ Hl)) as [Ha Hb].
  pose proof (total_nonneg _ Ha). pose proof (total_nonneg _ Hb). consts.
  split; [lia|]. apply u16_small. zlia.
Qed.

Ltac layfacts H :=
  let Ht := fresh "Ht" in let Hok := fresh "Hok" in
  pose proof (lay_total _ _ H) as Ht; rewrite ?total_app in Ht; cbn [total] in Ht; consts;
  pose proof (lay_ok _ _ H) as Hok;
  repeat match goal with
  | H : Forall size_ok (_ ++ _) |- _ => apply Forall_app in H as [? H]
  | H : Forall size_ok (_ :: _) |- _ => apply Forall_cons in H as [[? ?] H]
  end; cbn [fst snd] in *;
  repeat match goal with
  | H : Forall size_ok ?l |- _ =>
      lazymatch goal with
      | _ : 0 <= 20 * Z.of_nat (length l) <= total l |- _ => fail
      | _ => pose proof (total_nonneg l H)
      end
  end.

(** Two neighbours become one block. *)
Lemma lay_merge h pre s1 s2 u u2 post :
  lay h (pre ++ (s1, u) :: (s2, u2) :: post) ->
  lfree h = first_free 0 (pre ++ (s1 + s2, u) :: post) ->
  exists h', (h1 ← set_next h (total pre) (total pre + s1 + s2);
              set_prev h1 (total pre + s1 + s2) (total pre)) = Some h' /\
    lay h' (pre ++ (s1 + s2, u) :: post) /\ lfree h' = lfree h.
Proof.
  intros Hl Hf. pose proof Hl as Hl'. layfacts Hl'.
  pose proof (lay_hdr _ _ _ _ _ Hl) as Hp. unfold set_next. rewrite Hp. cbn [mbind option_bind].
  destruct (lay_hdr_next h (pre ++ [(s1, u); (s2, u2)]) post) as (m & Hm & _); [by rewrite <- app_assoc|].
  rewrite total_app in Hm. cbn [total] in Hm.
  assert (Hm' : hdr h (total pre + s1 + s2) = Some m) by (rewrite <- Hm; f_equal; lia).
  unfold set_prev, put, hdr in *. cbn [ram lfree].
  rewrite lookup_insert_ne, Hm' by lia. cbn [mbind option_bind].
  eexists. split; [done|]. split; [|done].
  apply (lay_replace h _ pre [(s1, u); (s2, u2)] [(s1 + s2, u)] post); cbn [ram lfree total]; auto.
  - lia.
  - constructor; [|done]. split; cbn [fst]; zlia.
  - intros q Hq. rewrite !lookup_insert_ne by lia. done.
  - cbn [seg]. rewrite lookup_insert_ne, lookup_insert_eq by lia.
    cbn [prev used]. split; [|done]. do 2 f_equal. lia.
  - exists (total pre). replace (total pre + (s1 + (s2 + 0))) with (total pre + s1 + s2) by lia.
    rewrite lookup_insert_eq, Hm'. done.
Qed.

(** A run of blocks is replaced by a block of length [a] and a free rest. *)
Lemma lay_split h pre mid u a post lf :
  lay h (pre ++ mid ++ post) -> mid <> [] ->
  20 <= a -> a mod 4 = 0 -> 20 <= total mid - a ->
  lf = first_free 0 (pre ++ [(a, u); (total mid - a, false)] ++ post) ->
  lay (match post with
       | [] => mkHeap (<[total pre := mkMem (total pre + a) (lastp 0 0 pre) (flag u)]>
                (<[total pre + a := mkMem (total pre + total mid) (total pre) 0]> (ram h))) lf
       | _ => mkHeap (<[total pre + total mid :=
                   mkMem (next (default (mkMem 0 0 0) (ram h !! (total pre + total mid)))) (total pre + a)
                         (used (default (mkMem 0 0 0) (ram h !! (total pre + total mid))))]>
                (<[total pre := mkMem (total pre + a) (lastp 0 0 pre) (flag u)]>
                (<[total pre + a := mkMem (total pre + total mid) (total pre) 0]> (ram h)))) lf
       end) (pre ++ [(a, u); (total mid - a, false)] ++ post).
Proof.
  intros Hl Hmid Ha Ha4 Hr Hlf. pose proof Hl as Hl'. layfacts Hl'.
  pose proof (total_mod mid ltac:(done)) as Hmod.
  destruct (lay_hdr_next h (pre ++ mid) post) as (m & Hm & Hu & Hn & _); [by rewrite <- app_assoc|].
  rewrite total_app in Hm, Hn. unfold hdr in Hm.
  apply (lay_replace h _ pre mid); auto.
  - cbn [total]. lia.
  - repeat constructor; cbn [fst]; zlia.
  - intros q Hq. destruct post; cbn [ram]; rewrite ?lookup_insert_ne by lia; done.
  - cbn [seg flag]. destruct post; cbn [ram];
      repeat (first [rewrite lookup_insert_eq | rewrite lookup_insert_ne by lia]);
      split_and!; try done; do 2 f_equal; lia.
  - destruct post as [|b post]; cbn [ram].
    + exists (prev m). rewrite !lookup_insert_ne, Hm by lia. by destruct m.
    + exists (total pre + a). rewrite lookup_insert_eq, Hm. done.
  - by destruct post.
Qed.

(** *** Freeing *)

Lemma flag_eqb u : (flag u =? 0) = negb u.
Proof. by destruct u. Qed.

(** The first free block does not move when a free block grows. *)
Lemma first_free_grow pre s s' post post' :
  first_free 0 (pre ++ (s, false) :: post) = first_free 0 (pre ++ (s', false) :: post').
Proof. rewrite !first_free_app. done. Qed.

Lemma first_free_le pre s post :
  Forall size_ok pre -> first_free 0 (pre ++ (s, false) :: post) <= total pre.
Proof.
  intros H. rewrite first_free_app. destruct (first_free_range 0 pre H) as [H1 H2].
  case_match; cbn [first_free]; lia.
Qed.

Definition fwd (s : Z) (post : list block) : list block :=
  match post with
  | (s2, false) :: post => (s + s2, false) :: post
  | _ => (s, false) :: post
  end.

Lemma plug_forward_lay h pre s post :
  lay h (pre ++ (s, false) :: post) ->
  exists h', plug_forward h (total pre) = Some h' /\ lay h' (pre ++ fwd s post).
Proof.
  intros Hl. unfold plug_forward. rewrite (lay_hdr _ _ _ _ _ Hl). cbn [mbind option_bind next].
  pose proof Hl as Hl'. layfacts Hl'.
  destruct (lay_hdr_next h (pre ++ [(s, false)]) post) as (m & Hm & Hu & Hn & He); [by rewrite <- app_assoc|].
  rewrite total_app in Hm, Hn, He. cbn [total] in Hm, Hn, He. rewrite Z.add_0_r in Hm, Hn, He.
  rewrite Hm. cbn [mbind option_bind].
  replace (total pre =? total pre + s) with false by lia. cbn [negb andb].
  destruct post as [|[s2 u2] post]; [rewrite Hu; eauto|].
  rewrite Hu, flag_eqb. destruct u2; cbn [negb andb fwd]; [eauto|].
  replace (total pre + s =? 10240) with false by (layfacts Hl; lia). cbn [negb].
  pose proof (first_free_le pre s ((s2, false) :: post) ltac:(done)) as Hle.
  rewrite <- (lay_free _ _ Hl) in Hle.
  replace (lfree h =? total pre + s) with false by lia. rewrite Hn.
  destruct (lay_pos h pre _ Hl) as [_ ->].
  destruct (lay_merge h pre s s2 false false post Hl) as (h' & Hh & Hlay & _); eauto.
  rewrite (lay_free _ _ Hl). apply first_free_grow.
Qed.

Definition bwd (pre : list block) (s : Z) (post : list block) : list block :=
  match last pre with
  | Some (s0, false) => removelast pre ++ (s0 + s, false) :: post
  | _ => pre ++ (s, false) :: post
  end.

Lemma bwd_snoc pre s0 u0 s post :
  bwd (pre ++ [(s0, u0)]) s post =
  if u0 then (pre ++ [(s0, u0)]) ++ (s, false) :: post else pre ++ (s0 + s, false) :: post.
Proof. unfold bwd. rewrite last_snoc, removelast_last. by destruct u0. Qed.

Lemma lastp_snoc pv p a s u : lastp pv p (a ++ [(s, u)]) = p + total a.
Proof.
  revert pv p. induction a as [|[s1 u1] a IH]; intros pv p; cbn [lastp app total].
  - lia.
  - rewrite IH. lia.
Qed.

Lemma plug_backward_lay h pre s post :
  lay h (pre ++ (s, false) :: post) ->
  exists h', plug_backward h (total pre) = Some h' /\ lay h' (bwd pre s post).
Proof.
  intros Hl. unfold plug_backward. rewrite (lay_hdr _ _ _ _ _ Hl). cbn [mbind option_bind next prev].
  destruct pre as [|[s0 u0] pre _] using rev_ind.
  { change (lastp 0 0 []) with (total []). rewrite (lay_hdr h [] _ _ _ Hl).
    cbn [mbind option_bind]. rewrite Z.eqb_refl. cbn [negb andb]. eauto. }
  rewrite lastp_snoc, Z.add_0_l. rewrite <- app_assoc in Hl. cbn [app] in Hl.
  rewrite (lay_hdr _ _ _ _ _ Hl). cbn [mbind option_bind used]. rewrite flag_eqb.
  pose proof Hl as Hl'. layfacts Hl'. rewrite total_app, bwd_snoc. cbn [total].
  replace (total pre =? _) with false by lia. cbn [negb andb].
  destruct u0; cbn [negb]; [rewrite <- app_assoc; eauto|].
  pose proof (first_free_le pre s0 ((s, false) :: post) ltac:(done)) as Hle.
  rewrite <- (lay_free _ _ Hl) in Hle.
  replace (lfree h =? _) with false by lia.
  destruct (lay_pos h pre _ Hl) as [_ ->]. rewrite Z.add_0_r.
  destruct (lay_merge h pre s0 s false false post Hl) as (h' & Hh & Hlay & _); eauto.
  rewrite (lay_free _ _ Hl). apply first_free_grow.
Qed.

Lemma fwd_coalesce s post : no_adj post -> coalesce ((s, false) :: post) = fwd s post.
Proof.
  intros H. cbn [coalesce]. rewrite (coalesce_normal _ H).
  by destruct post as [|[s2 [|]] post].
Qed.

Lemma bwd_coalesce pre s post :
  no_adj pre -> no_adj ((s, false) :: post) -> coalesce (pre ++ (s, false) :: post) = bwd pre s post.
Proof.
  intros Hpre Hpost. destruct pre as [|[s0 u0] pre _] using rev_ind; [by apply coalesce_normal|].
  rewrite bwd_snoc, <- !app_assoc. cbn [app]. destruct u0.
  - apply coalesce_normal, no_adj_used; [|done].
    by apply no_adj_app_l in Hpre.
  - rewrite <- coalesce_app_r, fwd_coalesce by done. cbn [fwd].
    apply coalesce_normal, no_adj_join.
    + clear Hpost. induction pre as [|x pre IH]; [done|]. destruct Hpre as [H1 H2].
      split; [|by apply IH]. by destruct pre.
    + destruct Hpost as [H1 H2]. split; [|done]. by destruct post.
Qed.

Lemma set_used_lay h pre s u u' post :
  lay h (pre ++ (s, u) :: post) ->
  set_used h (total pre) (flag u') =
    Some (mkHeap (<[total pre := mkMem (total pre + s) (lastp 0 0 pre) (flag u')]> (ram h)) (lfree h)) /\
  (forall lf, lf = first_free 0 (pre ++ (s, u') :: post) ->
   lay (mkHeap (<[total pre := mkMem (total pre + s) (lastp 0 0 pre) (flag u')]> (ram h)) lf)
       (pre ++ (s, u') :: post)).
Proof.
  intros Hl. unfold set_used. rewrite (lay_hdr _ _ _ _ _ Hl). split; [done|]. intros lf Hlf.
  pose proof Hl as Hl'. layfacts Hl'.
  apply (lay_replace h _ pre [(s, u)] [(s, u')] post); cbn [ram lfree total seg]; auto.
  - by repeat constructor.
  - intros q Hq. by rewrite lookup_insert_ne by lia.
  - by rewrite lookup_insert_eq.
  - destruct (lay_hdr_next h (pre ++ [(s, u)]) post) as (m & Hm & _); [by rewrite <- app_assoc|].
    rewrite total_app in Hm. cbn [total] in Hm. unfold hdr in Hm.
    rewrite lookup_insert_ne, Hm by lia. exists (prev m). split; [by destruct m|].
    intros Hne. cbn [lastp]. destruct post as [|[s2 u2] post]; [done|].
    pose proof (lay_hdr h (pre ++ [(s, u)]) s2 u2 post) as Hh. rewrite <- app_assoc in Hh.
    specialize (Hh Hl). unfold hdr in Hh. rewrite total_app, lastp_snoc in Hh. cbn [total] in Hh.
    rewrite Hm in Hh. by injection Hh as ->.
Qed.

Lemma mem_free_lay h pre s post :
  wf h (pre ++ (s, true) :: post) ->
  exists h', mem_free h (Some (total pre + SIZEOF_STRUCT_MEM)) = Some h' /\
    wf h' (coalesce (pre ++ (s, false) :: post)).
Proof.
  intros [Hl Hadj]. pose proof Hl as Hl'. layfacts Hl'. unfold mem_free. consts.
  replace (_ || _) with false by lia. rewrite Z.add_simpl_r.
  destruct (set_used_lay h pre s true false post Hl) as [Hu Hlay].
  change (flag false) with 0 in *. rewrite Hu. cbn [mbind option_bind lfree].
  assert (Hf : (if total pre <? lfree h then total pre else lfree h) =
               first_free 0 (pre ++ (s, false) :: post)).
  { rewrite (lay_free _ _ Hl), !first_free_app, !Z.add_0_l. cbn [first_free].
    destruct (first_free_range 0 pre ltac:(done)) as [H1' H2'].
    destruct (first_free_range (total pre + s) post ltac:(done)) as [H3' _].
    destruct (existsb _ pre); [specialize (H2' eq_refl)|];
      match goal with |- context [?a <? ?b] => destruct (Z.ltb_spec a b) end; lia. }
  specialize (Hlay _ Hf). clear Hf.
  assert (Hh : (if total pre <? lfree h
      then set_lfree (mkHeap (<[total pre:=mkMem (total pre + s) (lastp 0 0 pre) 0]> (ram h)) (lfree h)) (total pre)
      else mkHeap (<[total pre:=mkMem (total pre + s) (lastp 0 0 pre) 0]> (ram h)) (lfree h)) =
      mkHeap (<[total pre:=mkMem (total pre + s) (lastp 0 0 pre) 0]> (ram h))
        (if total pre <? lfree h then total pre else lfree h)).
  { by destruct (total pre <? lfree h). }
  rewrite Hh. clear Hh. unfold plug_holes.
  destruct (plug_forward_lay _ _ _ _ Hlay) as (h1 & -> & Hl1). cbn [mbind option_bind].
  pose proof (no_adj_cons_inv _ _ (no_adj_app_r _ _ Hadj)) as Hpost.
  assert (exists s' post', fwd s post = (s', false) :: post' /\ no_adj ((s', false) :: post'))
    as (s' & post' & Hfw & Hadj').
  { exists (match post with (s2, false) :: _ => s + s2 | _ => s end),
           (match post with (_, false) :: p => p | _ => post end).
    rewrite <- (fwd_coalesce s post Hpost). split; [|].
    - rewrite fwd_coalesce by done. by destruct post as [|[? [|]] ?].
    - pose proof (coalesce_no_adj ((s, false) :: post)) as Hc.
      rewrite fwd_coalesce in Hc by done. by destruct post as [|[? [|]] ?]. }
  rewrite Hfw in Hl1. destruct (plug_backward_lay _ _ _ _ Hl1) as (h2 & -> & Hl2).
  exists h2. split; [done|]. rewrite <- coalesce_app_r, (fwd_coalesce s post), Hfw by done.
  split; [|apply coalesce_no_adj]. rewrite bwd_coalesce; [done| |done].
  by apply no_adj_app_l in Hadj.
Qed.

(** *** Allocating *)

(** The offset of the first free block that can hold [size] bytes. *)
Fixpoint first_fit (p size : Z) (bs : list block) : option Z :=
  match bs with
  | [] => None
  | (s, u) :: bs =>
      if negb u && (size <=? s - SIZEOF_STRUCT_MEM) then Some p else first_fit (p + s) size bs
  end.

Lemma first_fit_none p size bs :
  Forall size_ok bs -> total bs <= size -> 0 <= size -> first_fit p size bs = None.
Proof.
  intros Hok. revert p. induction Hok as [|[s u] bs [Hs _] Hok IH]; intros p Ht H0; [done|].
  pose proof (total_nonneg _ Hok). cbn [first_fit total fst] in *. consts.
  replace (size <=? s - 8) with false by lia. rewrite andb_false_r. apply IH; lia.
Qed.

Lemma search_spec n h pv p bs size :
  seg (ram h) pv p bs -> Forall size_ok bs -> p + total bs = MEM_SIZE_ALIGNED -> 0 <= p ->
  (length bs < n)%nat -> 0 < size -> search n h p size = Some (first_fit p size bs).
Proof.
  revert pv p bs. induction n as [|n IH]; intros pv p bs Hseg Hok Ht Hp Hn Hsz; [lia|].
  cbn [search]. destruct (Z.ltb_spec p (MEM_SIZE_ALIGNED - size)).
  - destruct bs as [|[s u] bs]; [cbn [total] in *; lia|]. destruct Hseg as [Hh Hseg].
    apply Forall_cons in Hok as [[Hs _] Hok]. pose proof (total_nonneg _ Hok).
    cbn [fst total length first_fit] in *. unfold hdr. rewrite Hh. cbn [mbind option_bind used next].
    rewrite flag_eqb. consts.
    replace (u32 (p + s - (p + 8))) with (s - 8) by zlia.
    destruct (negb u && (size <=? s - 8)); [done|].
    apply (IH p); auto; lia.
  - rewrite first_fit_none; [done|done|lia|lia].
Qed.

Lemma lowest_free_spec n h pv p bs :
  seg (ram h) pv p bs -> Forall size_ok bs -> p + total bs = MEM_SIZE_ALIGNED ->
  (exists e, ram h !! MEM_SIZE_ALIGNED = Some e /\ used e = 1) ->
  (length bs < n)%nat -> lowest_free n h p = Some (first_free p bs).
Proof.
  intros Hseg Hok Ht (e & He & Hu). revert pv p bs Hseg Hok Ht.
  induction n as [|n IH]; intros pv p bs Hseg Hok Ht Hn; [lia|].
  cbn [lowest_free]. unfold hdr in *. destruct bs as [|[s u] bs]; cbn [total first_free length] in *.
  - replace p with MEM_SIZE_ALIGNED by lia. rewrite He. cbn [mbind option_bind]. by rewrite Z.eqb_refl, andb_false_r.
  - destruct Hseg as [Hh Hseg]. apply Forall_cons in Hok as [[Hs _] Hok]. pose proof (total_nonneg _ Hok).
    cbn [fst] in *. rewrite Hh. cbn [mbind option_bind used next]. rewrite flag_eqb.
    replace (p =? MEM_SIZE_ALIGNED) with false by (consts; lia).
    destruct u; cbn [negb andb]; [|done]. apply (IH p); auto; lia.
Qed.

Lemma lay_fuel h pre bs : lay h (pre ++ bs) -> (length bs < fuel)%nat.
Proof.
  intros Hl. layfacts Hl. change fuel with 513%nat. lia.
Qed.

(** What becomes of a free block of length [s] that gets [size] bytes. *)
Definition taken (size s : Z) : list block :=
  if size + SIZEOF_STRUCT_MEM + MIN_SIZE_ALIGNED <=? s - SIZEOF_STRUCT_MEM
  then [(size + SIZEOF_STRUCT_MEM, true); (s - (size + SIZEOF_STRUCT_MEM), false)]
  else [(s, true)].

Lemma first_fit_split p size bs q :
  first_fit p size bs = Some q -> exists pre s post, bs = pre ++ (s, false) :: post /\
    q = p + total pre /\ size <= s - SIZEOF_STRUCT_MEM /\ first_fit p size pre = None.
Proof.
  revert p. induction bs as [|[s u] bs IH]; intros p; cbn [first_fit]; [done|].
  destruct (negb u && (size <=? s - SIZEOF_STRUCT_MEM)) eqn:E.
  - intros [= <-]. apply andb_true_iff in E as [Hu Hs]. destruct u; [done|].
    exists [], s, bs. cbn [total first_fit]. split_and!; [done|lia|lia|done].
  - intros H. destruct (IH _ H) as (pre & s' & post & -> & -> & Hs & Hn).
    exists ((s, u) :: pre), s', post. cbn [total first_fit]. rewrite E.
    split_and!; [done|lia|done|done].
Qed.

(** The scan may start at the lowest free block. *)
Lemma first_free_split p bs :
  exists pre post, bs = pre ++ post /\ first_free p bs = p + total pre /\
    (forall size, first_fit p size bs = first_fit (p + total pre) size post).
Proof.
  revert p. induction bs as [|[s u] bs IH]; intros p.
  - exists [], []. cbn [total first_free]. rewrite Z.add_0_r. done.
  - destruct u.
    + destruct (IH (p + s)) as (pre & post & -> & Hf & Hfit).
      exists ((s, true) :: pre), post. cbn [total first_free first_fit negb andb].
      rewrite Hf, Z.add_assoc. split_and!; [done|lia|]. intros size. by rewrite Hfit.
    + exists [], ((s, false) :: bs). cbn [total first_free]. rewrite Z.add_0_r. done.
Qed.

Lemma align_size x : LWIP_MEM_ALIGN_SIZE x = (x + 3) - (x + 3) mod 4.
Proof.
  unfold LWIP_MEM_ALIGN_SIZE, MEM_ALIGNMENT. rewrite <- Z.ldiff_land.
  change (4 - 1) with (Z.ones 2). rewrite Z.ldiff_ones_r by lia.
  rewrite Z.shiftl_mul_pow2, Z.shiftr_div_pow2 by lia. change (2 ^ 2) with 4.
  replace (x + 4 - 1) with (x + 3) by lia. pose proof (Z.div_mod (x + 3) 4). lia.
Qed.

Lemma adjusted_bounds size :
  0 <= size -> 12 <= adjusted size /\ adjusted size mod 4 = 0 /\
  (size <= 65532 -> size <= adjusted size <= size + 12).
Proof.
  intros H. unfold adjusted. rewrite align_size. consts.
  match goal with |- context [?a <? ?b] => destruct (Z.ltb_spec a b) end;
    (split; [zlia|split; [|intros]]); zlia.
Qed.

Lemma set_used_put h p m v h' :
  h' = put h p m -> set_used h' p v = Some (put h p (mkMem (next m) (prev m) v)).
Proof.
  intros ->. unfold set_used, hdr, put. cbn [ram lfree]. rewrite lookup_insert_eq.
  cbn [mbind option_bind]. by rewrite insert_insert_eq.
Qed.

(** Linking a free block of which the position is known; [lfree] is free to differ. *)
Lemma link_lay h h0 pre mid u a post :
  lay h (pre ++ mid ++ post) -> mid <> [] -> ram h0 = ram h ->
  (exists n, hdr h (total pre) = Some (mkMem n (lastp 0 0 pre) (flag u))) ->
  20 <= a -> a mod 4 = 0 -> 20 <= total mid - a ->
  forall u', exists h1 h2,
    link_free h0 (total pre) (total pre + a) (total pre + total mid) = Some h1 /\
    set_used h1 (total pre) (flag u') = Some h2 /\ (u' = u -> h2 = h1) /\ exists h',
    link_back h2 (total pre + a) (total pre + total mid) = Some h' /\ lfree h' = lfree h0 /\
    forall lf, lf = first_free 0 (pre ++ [(a, u'); (total mid - a, false)] ++ post) ->
      lay (set_lfree h' lf) (pre ++ [(a, u'); (total mid - a, false)] ++ post).
Proof.
  intros Hl Hne Hram (n & Hh) Ha Ha4 Hr u'. pose proof Hl as Hl'. layfacts Hl'.
  pose proof (fun lf => lay_split h pre mid u' a post lf Hl Hne Ha Ha4 Hr) as HL.
  destruct (lay_hdr_next h (pre ++ mid) post) as (m & Hm & Hu & Hn & He); [by rewrite <- app_assoc|].
  rewrite total_app in Hm, He.
  unfold link_free, set_next, hdr, put in *. cbn [ram lfree]. rewrite Hram.
  rewrite lookup_insert_ne, Hh by lia. cbn [mbind option_bind prev used].
  eexists. eexists. split; [done|]. split; [by apply (set_used_put (mkHeap (<[total pre + a :=
    mkMem (total pre + total mid) (total pre) 0]> (ram h)) (lfree h0)))|].
  split; [by intros ->|].
  unfold link_back, set_prev, hdr, put. cbn [ram lfree next prev]. consts.
  destruct post as [|b post].
  - replace (total pre + total mid =? 10240) with true by (cbn [total] in *; lia). cbn [negb].
    eexists. split; [done|]. split; [done|]. exact HL.
  - replace (total pre + total mid =? 10240) with false.
    2:{ symmetry. apply Z.eqb_neq. intros E. apply He in E. done. }
    cbn [negb]. rewrite !lookup_insert_ne, Hm by lia. cbn [mbind option_bind].
    eexists. split; [done|]. split; [done|]. intros lf Hlf. specialize (HL lf Hlf).
    rewrite Hm in HL. exact HL.
Qed.

Lemma take_lay h pre s post size :
  lay h (pre ++ (s, false) :: post) -> 12 <= size -> size mod 4 = 0 -> size <= s - 8 ->
  exists h', take h (total pre) size = Some h' /\ lfree h' = lfree h /\
    forall lf, lf = first_free 0 (pre ++ taken size s ++ post) ->
      lay (set_lfree h' lf) (pre ++ taken size s ++ post).
Proof.
  intros Hl Hsz Hsz4 Hs. pose proof Hl as Hl'. layfacts Hl'.
  unfold take. rewrite (lay_hdr _ _ _ _ _ Hl). cbn [mbind option_bind next]. unfold taken. consts.
  replace (u32 (total pre + s - (total pre + 8))) with (s - 8) by zlia.
  destruct (Z.leb_spec (size + 8 + 12) (s - 8)).
  - replace (u16 (total pre + 8 + size)) with (total pre + (size + 8)) by zlia.
    destruct (link_lay h h pre [(s, false)] false (size + 8) post Hl ltac:(done) eq_refl)
      with (u' := true) as (h1 & h2 & H1' & H2' & _ & h' & H3' & Hlf & Hlay);
      [eauto using lay_hdr|lia|zlia|cbn [total]; lia|].
    cbn [total flag] in *. rewrite Z.add_0_r in *.
    rewrite H1'. cbn [mbind option_bind]. rewrite H2'. cbn [mbind option_bind]. eauto.
  - destruct (set_used_lay h pre s false true post Hl) as [Hu Hlay].
    change (flag true) with 1 in *. rewrite Hu. eexists. split; [done|]. split; [done|].
    exact Hlay.
Qed.

Lemma taken_props size s :
  12 <= size -> size mod 4 = 0 -> size <= s - 8 -> s mod 4 = 0 ->
  total (taken size s) = s /\ Forall size_ok (taken size s).
Proof.
  intros. unfold taken. consts. destruct (Z.leb_spec (size + 8 + 12) (s - 8)); cbn [total];
    (split; [lia|repeat constructor; cbn [fst]; zlia]).
Qed.

Lemma taken_no_adj pre size s post :
  no_adj (pre ++ (s, false) :: post) -> no_adj (pre ++ taken size s ++ post).
Proof.
  intros H. pose proof (no_adj_app_l _ _ H) as H1. pose proof (no_adj_app_r _ _ H) as [H2 H3].
  unfold taken. destruct (_ <=? _); cbn [app]; apply no_adj_used; auto.
  split; [|done]. by destruct post.
Qed.

Lemma mem_malloc_lay h bs size :
  wf h bs -> 0 < size ->
  match first_fit 0 (adjusted size) bs with
  | None => mem_malloc h size = Some (None, h)
  | Some q => exists pre s post h', bs = pre ++ (s, false) :: post /\ q = total pre /\
      adjusted size <= s - SIZEOF_STRUCT_MEM /\
      mem_malloc h size = Some (Some (q + SIZEOF_STRUCT_MEM), h') /\
      wf h' (pre ++ taken (adjusted size) s ++ post)
  end.
Proof.
  intros [Hl Hadj] Hsz. destruct (adjusted_bounds size ltac:(lia)) as (Hb1 & Hb2 & _).
  unfold mem_malloc. replace (size =? 0) with false by lia.
  generalize dependent (adjusted size). clear Hsz size. intros size Hb1 Hb2.
  destruct (Z.ltb_spec MEM_SIZE_ALIGNED size).
  { rewrite first_fit_none; [done|apply (lay_ok _ _ Hl)|rewrite (lay_total _ _ Hl); lia|lia]. }
  destruct (first_free_split 0 bs) as (p0 & q0 & Hbs & Hff & Hfit). rewrite Z.add_0_l in *.
  assert (Hsearch : search fuel h (u16 (lfree h)) size = Some (first_fit 0 size bs)).
  { rewrite (lay_free _ _ Hl), Hff, Hfit. rewrite Hbs in Hl. rewrite (proj2 (lay_pos _ _ _ Hl)).
    pose proof (lay_fuel _ _ _ Hl). destruct (seg_app (ram h) 0 0 p0 q0) as [Hsa _].
    destruct (Hsa (lay_seg _ _ Hl)) as [_ Hs]. rewrite Z.add_0_l in Hs. layfacts Hl.
    apply (search_spec _ _ _ _ _ _ Hs); auto; consts; lia. }
  rewrite Hsearch. cbn [mbind option_bind]. destruct (first_fit 0 size bs) as [q|] eqn:Eq; [|done].
  destruct (first_fit_split _ _ _ _ Eq) as (pre & s & post & Hbs' & Hq & Hs & Hnone).
  rewrite Z.add_0_l in Hq. subst q. clear Hbs Hff Hfit p0 q0 Hsearch. subst bs.
  pose proof Hl as Hl'. layfacts Hl'.
  destruct (take_lay h pre s post size) as (h1 & Ht1 & Hlf & Hlay); [done|lia|done|lia|].
  rewrite Ht1. cbn [mbind option_bind].
  pose proof (lay_free _ _ Hl) as Hfree. rewrite <- Hlf in Hfree.
  destruct (first_free_range 0 pre ltac:(done)) as [Hr1 Hr2].
  assert (Hgoal : exists h2, (if total pre =? lfree h1
      then cur ← lowest_free fuel h1 (lfree h1); Some (set_lfree h1 cur) else Some h1) = Some h2 /\
      lay h2 (pre ++ taken size s ++ post)).
  { rewrite first_free_app in Hfree. specialize (Hlay _ eq_refl). rewrite first_free_app in Hlay.
    destruct (existsb _ pre).
    - specialize (Hr2 eq_refl). replace (total pre =? lfree h1) with false by lia.
      exists h1. split; [done|]. rewrite <- Hfree in Hlay. by destruct h1.
    - cbn [first_free] in Hfree. rewrite Z.add_0_l in *. rewrite Hfree, Z.eqb_refl.
      pose proof (lay_fuel _ _ _ Hlay) as Hfuel.
      destruct (seg_app (ram h1) 0 0 pre (taken size s ++ post)) as [Hsa _].
      destruct (Hsa (lay_seg _ _ Hlay)) as [_ Hseg]. rewrite Z.add_0_l in Hseg.
      destruct (taken_props size s) as [Htt Hto]; [done|done|lia|done|].
      rewrite (lowest_free_spec _ _ _ _ _ Hseg);
        [|by apply Forall_app_2|rewrite total_app, Htt; consts; lia|apply (lay_end _ _ Hlay)|done].
      eexists. by split. }
  destruct Hgoal as (h2 & -> & Hlay2). cbn [mbind option_bind].
  exists pre, s, post, h2. split_and!; auto. split; [done|]. by apply taken_no_adj.
Qed.

(** *** Trimming *)

Lemma set_lfree_eta h lf : lfree h = lf -> set_lfree h lf = h.
Proof. intros <-. by destruct h. Qed.

Definition trimmed (n s : Z) (post : list block) : list block :=
  if n =? s - SIZEOF_STRUCT_MEM then (s, true) :: post else
  match post with
  | (s2, false) :: post => (n + SIZEOF_STRUCT_MEM, true) :: (s + s2 - (n + SIZEOF_STRUCT_MEM), false) :: post
  | _ => if n + SIZEOF_STRUCT_MEM + MIN_SIZE_ALIGNED <=? s - SIZEOF_STRUCT_MEM
         then (n + SIZEOF_STRUCT_MEM, true) :: (s - (n + SIZEOF_STRUCT_MEM), false) :: post
         else (s, true) :: post
  end.

(** The part common to both branches that create a free block. *)
Lemma trim_link h h0 pre s mid n post :
  lay h (pre ++ ((s, true) :: mid) ++ post) -> ram h0 = ram h -> 12 <= n -> n mod 4 = 0 ->
  20 <= s + total mid - (n + 8) ->
  lfree h0 = first_free 0 (pre ++ [(n + 8, true); (s + total mid - (n + 8), false)] ++ post) ->
  exists h', (h ← link_free h0 (total pre) (total pre + (n + 8)) (total pre + (s + total mid));
              h ← link_back h (total pre + (n + 8)) (total pre + (s + total mid));
              Some (Some (total pre + 8), h)) = Some (Some (total pre + 8), h') /\
    lay h' (pre ++ [(n + 8, true); (s + total mid - (n + 8), false)] ++ post).
Proof.
  intros Hl Hram Hn Hn4 Hr Hf.
  destruct (link_lay h h0 pre ((s, true) :: mid) true (n + 8) post Hl ltac:(done) Hram)
    with (u' := true) as (h1 & h2 & H1' & _ & H2' & h' & H3' & Hlf & Hlay);
    [eauto using lay_hdr|lia|zlia|cbn [total]; lia|].
  cbn [total] in *. rewrite H1'. cbn [mbind option_bind]. rewrite <- (H2' eq_refl), H3'. cbn [mbind option_bind].
  exists h'. split; [done|]. specialize (Hlay _ Hf).
  rewrite set_lfree_eta in Hlay; [exact Hlay|done].
Qed.

Lemma mem_trim_lay h pre s post n :
  wf h (pre ++ (s, true) :: post) -> 0 <= n -> adjusted n <= s - SIZEOF_STRUCT_MEM ->
  exists h', mem_trim h (total pre + SIZEOF_STRUCT_MEM) n = Some (Some (total pre + SIZEOF_STRUCT_MEM), h') /\
    wf h' (pre ++ trimmed (adjusted n) s post).
Proof.
  intros [Hl Hadj] Hn Hs. destruct (adjusted_bounds n Hn) as (Hb1 & Hb2 & _). unfold mem_trim, trimmed.
  generalize dependent (adjusted n). clear Hn n. intros n Hs Hb1 Hb2.
  pose proof Hl as Hl'. layfacts Hl'. consts.
  replace (10240 <? n) with false by lia. replace (_ || _) with false by lia.
  rewrite Z.add_simpl_r, (proj2 (lay_pos _ _ _ Hl)), (lay_hdr _ _ _ _ _ Hl). cbn [mbind option_bind next].
  replace (u16 (total pre + s - total pre - 8)) with (s - 8) by zlia.
  replace (s - 8 <? n) with false by lia.
  destruct (Z.eqb_spec n (s - 8)); [exists h; split; [done|by split]|].
  destruct (lay_hdr_next h (pre ++ [(s, true)]) post) as (m & Hm & Hu & Hnx & He); [by rewrite <- app_assoc|].
  rewrite total_app in Hm, Hnx, He. cbn [total] in Hm, Hnx, He. rewrite Z.add_0_r in Hm, Hnx, He.
  rewrite Hm. cbn [mbind option_bind].
  replace (u16 (total pre + 8 + n)) with (total pre + (n + 8)) by zlia.
  destruct (first_free_range 0 pre ltac:(done)) as [Hr1 Hr2].
  destruct (first_free_range (total pre + s) post ltac:(done)) as [Hr3 _].
  pose proof (lay_free _ _ Hl) as Hf. rewrite first_free_app in Hf. cbn [first_free] in Hf.
  pose proof (no_adj_app_l _ _ Hadj) as Ha1. pose proof (no_adj_cons_inv _ _ (no_adj_app_r _ _ Hadj)) as Ha2.
  destruct post as [|[s2 [|]] post].
  all: rewrite Hu; cbn [flag Z.eqb].
  3:{ rewrite Hnx. pose proof Hl as Hl2. layfacts Hl2.
    destruct (trim_link h (if lfree h =? total pre + s then set_lfree h (total pre + (n + 8)) else h)
                pre s [(s2, false)] n post) as (h' & Hh & Hlay); auto.
    - by destruct (_ =? _).
    - cbn [total]. lia.
    - rewrite first_free_app. cbn [first_free app]. rewrite Z.add_0_l in *.
      destruct (existsb _ pre); [specialize (Hr2 eq_refl)|]; cbn [first_free] in *;
        match goal with |- context [?a =? ?b] => destruct (Z.eqb_spec a b) end; cbn [lfree set_lfree]; lia.
    - cbn [total] in Hh, Hlay. rewrite Z.add_0_r in Hh, Hlay. rewrite <- Z.add_assoc.
      exists h'. split; [done|]. split; [done|]. apply no_adj_used; [done|].
      destruct Ha2 as [Ha2 Ha3]. split; [by destruct post|done]. }
  all: destruct (Z.leb_spec (n + 8 + 12) (s - 8)); [|exists h; split; [done|by split]].
  all: match goal with |- context [trimmed] => idtac | |- context [(_, false) :: ?post] =>
    destruct (trim_link h (if total pre + (n + 8) <? lfree h then set_lfree h (total pre + (n + 8)) else h)
                pre s [] n post) as (h' & Hh & Hlay) end; auto.
  all: cbn [total]; try lia; try (by destruct (_ <? _)).
  1,3: rewrite first_free_app; cbn [first_free app]; rewrite Z.add_0_l in *;
      destruct (existsb _ pre); [specialize (Hr2 eq_refl)|]; cbn [first_free] in *;
        match goal with |- context [?a <? ?b] => destruct (Z.ltb_spec a b) end; cbn [lfree set_lfree]; lia.
  all: cbn [total] in Hh, Hlay; rewrite Z.add_0_r in Hh, Hlay; exists h'; split; [done|]; split; [done|];
    apply no_adj_used; [done|]; by split.
Qed.

(** ** The client's view *)

(** The addresses and capacities of the blocks in use. *)
Fixpoint allocs (p : Z) (bs : list block) : list (Z * Z) :=
  match bs with
  | [] => []
  | (s, u) :: bs =>
      (if u then [(p + SIZEOF_STRUCT_MEM, s - SIZEOF_STRUCT_MEM)] else []) ++ allocs (p + s) bs
  end.

Lemma allocs_app p a b : allocs p (a ++ b) = allocs p a ++ allocs (p + total a) b.
Proof.
  revert p. induction a as [|[s u] a IH]; intros p; cbn [allocs app total].
  - by rewrite Z.add_0_r.
  - by rewrite IH, <- app_assoc, Z.add_assoc.
Qed.

Lemma allocs_coalesce p bs : allocs p (coalesce bs) = allocs p bs.
Proof.
  revert p. induction bs as [|[s u] bs IH]; intros p; [done|]. cbn [coalesce].
  destruct u; [cbn [allocs]; by rewrite IH|].
  specialize (IH (p + s)). cbn [allocs app]. rewrite <- IH.
  destruct (coalesce bs) as [|[s2 [|]] bs']; cbn [allocs app]; [done|done|].
  by rewrite Z.add_assoc.
Qed.

Lemma allocs_taken p size s :
  size <= s - 8 -> exists c, size <= c /\ allocs p (taken size s) = [(p + 8, c)].
Proof.
  intros Hs. unfold taken. consts. destruct (_ <=? _); cbn [allocs app].
  - exists size. by rewrite Z.add_simpl_r.
  - by exists (s - 8).
Qed.

Lemma allocs_trimmed p n s post :
  n <= s - 8 -> exists c, n <= c <= s - 8 /\
    allocs p (trimmed n s post) = (p + 8, c) :: allocs (p + s) post.
Proof.
  intros Hn. unfold trimmed. consts.
  destruct (Z.eqb_spec n (s - 8)); [exists (s - 8); split; [lia|done]|].
  destruct post as [|[s2 [|]] post].
  3:{ exists n. split; [lia|]. cbn [allocs app].
    replace (p + (n + 8) + (s + s2 - (n + 8))) with (p + s + s2) by lia. by rewrite Z.add_simpl_r. }
  all: destruct (Z.leb_spec (n + 8 + 12) (s - 8)); cbn [allocs app];
    [exists n; rewrite Z.add_simpl_r|by exists (s - 8)].
  all: by replace (p + (n + 8) + (s - (n + 8))) with (p + s) by lia.
Qed.

(** Regions that do not overlap. *)
Definition apart (x y : Z * Z) : Prop := x.1 + x.2 <= y.1 \/ y.1 + y.2 <= x.1.

Definition region_ok (x : Z * Z) : Prop :=
  x.1 mod MEM_ALIGNMENT = 0 /\ SIZEOF_STRUCT_MEM <= x.1 /\ x.1 + x.2 <= MEM_SIZE_ALIGNED.

Definition regions_ok (l : list (Z * Z)) : Prop :=
  Forall region_ok l /\ forall i j x y, l !! i = Some x -> l !! j = Some y -> i <> j -> apart x y.

Lemma regions_ok_perm l l' : l ≡ₚ l' -> regions_ok l -> regions_ok l'.
Proof.
  intros Hp [H1 H2]. split; [by rewrite <- Hp|]. symmetry in Hp.
  apply Permutation_inj in Hp as (_ & f & Hinj & Hf).
  intros i j x y Hi Hj Hij. rewrite Hf in Hi, Hj. apply (H2 _ _ _ _ Hi Hj).
  intros E. by apply Hinj in E.
Qed.

Lemma allocs_range p bs x :
  Forall size_ok bs -> x ∈ allocs p bs ->
  p + 8 <= x.1 /\ x.1 + x.2 <= p + total bs /\ 12 <= x.2 /\ (p mod 4 = 0 -> x.1 mod 4 = 0).
Proof.
  intros Hok. revert p. induction Hok as [|[s u] bs [Hs Hs4] Hok IH]; intros p; cbn [allocs].
  - by intros ?%not_elem_of_nil.
  - pose proof (total_nonneg _ Hok). consts. cbn [total fst] in *. intros [Hx|Hx]%elem_of_app.
    + destruct u; [|by apply not_elem_of_nil in Hx]. apply list_elem_of_singleton in Hx as ->.
      cbn [fst snd]. repeat split; try lia. intros. zlia.
    + destruct (IH _ Hx) as (? & ? & ? & Hm). repeat split; try lia. intros. apply Hm. zlia.
Qed.

Lemma allocs_regions_ok p bs :
  Forall size_ok bs -> 0 <= p -> p mod 4 = 0 -> p + total bs <= MEM_SIZE_ALIGNED -> regions_ok (allocs p bs).
Proof.
  intros Hok Hp Hp4 Ht. split.
  - apply Forall_forall. intros x Hx. destruct (allocs_range p bs x Hok Hx) as (? & ? & ? & Hm).
    split; [by apply Hm|]. consts. lia.
  - clear Ht Hp4 Hp. revert p. induction Hok as [|[s u] bs [Hs Hs4] Hok IH]; intros p i j x y; [done|].
    cbn [allocs]. destruct u; cbn [app]; [|apply IH].
    assert (Hfar : forall k z, allocs (p + s) bs !! k = Some z -> p + s + 8 <= z.1).
    { intros k z Hz. apply list_elem_of_lookup_2 in Hz. destruct (allocs_range _ _ _ Hok Hz) as [? _]. lia. }
    consts. destruct i as [|i], j as [|j]; cbn [lookup list_lookup]; intros Hi Hj Hij; [done| | |].
    + injection Hi as <-. apply Hfar in Hj. left. cbn [fst snd]. lia.
    + injection Hj as <-. apply Hfar in Hi. right. cbn [fst snd]. lia.
    + eapply IH; eauto.
Qed.

(** The program that uses the heap: it holds the regions [L] (address and the
    size it asked for), frees and shrinks only regions it holds and writes
    only inside them.  A write may destroy any [struct mem] that overlaps a
    held region. *)
Inductive hstep : heap * list (Z * Z) -> heap * list (Z * Z) -> Prop :=
  | step_malloc h L n a h' :
      0 < n <= 65532 -> mem_malloc h n = Some (Some a, h') -> hstep (h, L) (h', (a, n) :: L)
  | step_malloc_fail h L n h' :
      0 < n <= 65532 -> mem_malloc h n = Some (None, h') -> hstep (h, L) (h', L)
  | step_free h L1 L2 a n h' :
      mem_free h (Some a) = Some h' -> hstep (h, L1 ++ (a, n) :: L2) (h', L1 ++ L2)
  | step_trim h L1 L2 a n m r h' :
      0 <= m <= n -> mem_trim h a m = Some (r, h') -> hstep (h, L1 ++ (a, n) :: L2) (h', L1 ++ (a, m) :: L2)
  | step_write h L r :
      (forall q, (forall x, x ∈ L -> apart (q, SIZEOF_STRUCT_MEM) x) -> r !! q = ram h !! q) ->
      hstep (h, L) (mkHeap r (lfree h), L).

(** Every held region lies in a block in use, and every such block is held. *)
Definition owns (L : list (Z * Z)) (bs : list block) : Prop :=
  exists C, C ≡ₚ allocs 0 bs /\ Forall2 (fun x y => x.1 = y.1 /\ 0 <= x.2 <= y.2) L C.

Definition hinv (st : heap * list (Z * Z)) : Prop :=
  exists bs, wf st.1 bs /\ owns st.2 bs.

Lemma allocs_elem_split p bs x :
  x ∈ allocs p bs -> exists pre s post, bs = pre ++ (s, true) :: post /\
    x = (p + total pre + SIZEOF_STRUCT_MEM, s - SIZEOF_STRUCT_MEM).
Proof.
  revert p. induction bs as [|[s u] bs IH]; intros p; cbn [allocs]; [by intros ?%not_elem_of_nil|].
  intros [Hx|Hx]%elem_of_app.
  - destruct u; [|by apply not_elem_of_nil in Hx]. apply list_elem_of_singleton in Hx as ->.
    exists [], s, bs. cbn [total]. by rewrite Z.add_0_r.
  - destruct (IH _ Hx) as (pre & s' & post & -> & ->). exists ((s, u) :: pre), s', post.
    split; [done|]. cbn [total]. f_equal. lia.
Qed.

(** The held region [(a, n)] is a block in use; the other regions are the
    other blocks. *)
Lemma owns_split L1 L2 a n bs :
  owns (L1 ++ (a, n) :: L2) bs ->
  exists pre s post C, bs = pre ++ (s, true) :: post /\ a = total pre + SIZEOF_STRUCT_MEM /\
    0 <= n <= s - SIZEOF_STRUCT_MEM /\
    (C.1 ++ C.2) ≡ₚ allocs 0 pre ++ allocs (total pre + s) post /\
    Forall2 (fun x y => x.1 = y.1 /\ 0 <= x.2 <= y.2) L1 C.1 /\
    Forall2 (fun x y => x.1 = y.1 /\ 0 <= x.2 <= y.2) L2 C.2.
Proof.
  intros (C & HC & HF). apply Forall2_app_inv_l in HF as (C1 & C' & HF1 & HF2 & ->).
  apply Forall2_cons_inv_l in HF2 as ([a' c] & C2 & HR & HF2 & ->). 
  destruct HR as [Ha Hcap]. cbn [fst snd] in *. subst a'.
  assert (Hin : (a, c) ∈ allocs 0 bs) by (rewrite <- HC; apply elem_of_app; right; by left).
  destruct (allocs_elem_split _ _ _ Hin) as (pre & s & post & -> & Heq).
  injection Heq as -> ->. exists pre, s, post, (C1, C2). rewrite Z.add_0_l in *.
  do 3 (split; [done|]). split; [|done]. cbn [fst snd].
  rewrite allocs_app in HC. cbn [allocs app] in HC. rewrite Z.add_0_l in HC.
  apply (Permutation_cons_inv (a := (total pre + SIZEOF_STRUCT_MEM, s - SIZEOF_STRUCT_MEM))).
  by rewrite !Permutation_middle.
Qed.

Lemma hinv_malloc h L n :
  hinv (h, L) -> 0 < n <= 65532 ->
  exists r h', mem_malloc h n = Some (r, h') /\
    match r with Some a => hinv (h', (a, n) :: L) | None => hinv (h', L) end.
Proof.
  intros (bs & Hwf & C & HC & HF) Hn. cbn [fst snd] in *.
  destruct (adjusted_bounds n ltac:(lia)) as (Hb1 & Hb2 & Hb3).
  pose proof (mem_malloc_lay h bs n Hwf ltac:(lia)) as Hm.
  destruct (first_fit 0 (adjusted n) bs) as [q|] eqn:Eq.
  - destruct Hm as (pre & s & post & h' & -> & -> & Hs & -> & Hwf'). consts.
    eexists _, _. split; [done|]. eexists. split; [done|].
    destruct (allocs_taken (total pre) (adjusted n) s Hs) as (c & Hc & Hal).
    exists ((total pre + 8, c) :: C). split.
    + destruct Hwf as [Hl _]. layfacts Hl.
      rewrite !allocs_app, Z.add_0_l, Hal in *. cbn [app allocs] in *.
      rewrite <- Permutation_middle. constructor. rewrite HC.
      destruct (taken_props (adjusted n) s) as [-> _]; [lia|done|done|done|done].
    + constructor; [|done]. cbn [fst snd]. lia.
  - eexists _, _. split; [done|]. exists bs. split; [done|]. by exists C.
Qed.

Lemma hinv_free h L1 L2 a n :
  hinv (h, L1 ++ (a, n) :: L2) -> exists h', mem_free h (Some a) = Some h' /\ hinv (h', L1 ++ L2).
Proof.
  intros (bs & Hwf & HO). cbn [fst snd] in *.
  destruct (owns_split _ _ _ _ _ HO) as (pre & s & post & C & -> & -> & Hn & HC & HF1 & HF2).
  destruct (mem_free_lay h pre s post Hwf) as (h' & -> & Hwf'). exists h'. split; [done|].
  eexists. split; [done|]. exists (C.1 ++ C.2). split; [|by apply Forall2_app].
  rewrite allocs_coalesce, allocs_app, Z.add_0_l. done.
Qed.

Lemma hinv_trim h L1 L2 a n m :
  hinv (h, L1 ++ (a, n) :: L2) -> 0 <= m <= n ->
  exists h', mem_trim h a m = Some (Some a, h') /\ hinv (h', L1 ++ (a, m) :: L2).
Proof.
  intros (bs & Hwf & HO) Hm. cbn [fst snd] in *.
  destruct (owns_split _ _ _ _ _ HO) as (pre & s & post & C & -> & -> & Hn & HC & HF1 & HF2).
  destruct (adjusted_bounds m ltac:(lia)) as (Hb1 & Hb2 & Hb3).
  assert (Hadj : adjusted m <= s - SIZEOF_STRUCT_MEM).
  { destruct Hwf as [Hl _]. layfacts Hl. consts. clear Hb1 Hb2 Hb3. unfold adjusted.
    rewrite align_size. consts. case_match; zlia. }
  destruct (mem_trim_lay h pre s post m Hwf ltac:(lia) Hadj) as (h' & -> & Hwf').
  exists h'. split; [done|]. eexists. split; [done|].
  destruct (allocs_trimmed (total pre) (adjusted m) s post ltac:(consts; lia)) as (c & Hc & Hal).
  exists (C.1 ++ (total pre + 8, c) :: C.2). split.
  - rewrite allocs_app, Z.add_0_l, Hal, <- !Permutation_middle. by constructor.
  - apply Forall2_app; [done|]. constructor; [|done]. consts. cbn [fst snd].
    destruct Hwf as [Hl _]. layfacts Hl. lia.
Qed.

Lemma seg_starts r r' pv p bs :
  (forall pre x post, bs = pre ++ x :: post -> r' !! (p + total pre) = r !! (p + total pre)) ->
  seg r pv p bs -> seg r' pv p bs.
Proof.
  revert pv p. induction bs as [|[s u] bs IH]; intros pv p Hq; [done|]. intros [H1 H2]. split.
  - rewrite <- H1. pose proof (Hq [] (s, u) bs eq_refl) as H. cbn [total] in H. by rewrite Z.add_0_r in H.
  - apply IH; [|done]. intros pre x post ->. rewrite <- Z.add_assoc. apply (Hq ((s, u) :: pre) x post). done.
Qed.

(** Headers never overlap blocks in use. *)
Lemma header_apart p pre post y :
  Forall size_ok (pre ++ post) -> y ∈ allocs p (pre ++ post) -> apart (p + total pre, 8) y.
Proof.
  intros [Hpre Hpost]%Forall_app. rewrite allocs_app. intros [Hy|Hy]%elem_of_app.
  - apply allocs_range in Hy as (? & ? & ? & _); [|done]. right. cbn [fst snd]. lia.
  - apply allocs_range in Hy as (? & ? & ? & _); [|done]. left. cbn [fst snd]. lia.
Qed.

Lemma hinv_write h L r :
  hinv (h, L) ->
  (forall q, (forall x, x ∈ L -> apart (q, SIZEOF_STRUCT_MEM) x) -> r !! q = ram h !! q) ->
  hinv (mkHeap r (lfree h), L).
Proof.
  intros (bs & [Hl Hadj] & C & HC & HF) Hr. exists bs. cbn [fst snd] in *. split; [|by exists C].
  split; [|done].
  assert (Hfar : forall q, (forall y, y ∈ allocs 0 bs -> apart (q, 8) y) -> r !! q = ram h !! q).
  { intros q Hq. apply Hr. intros x Hx. apply list_elem_of_lookup in Hx as [i Hi].
    destruct (Forall2_lookup_l _ _ _ _ _ HF Hi) as (y & Hy & Hxy & Hle).
    assert (apart (q, 8) y) as Ha by (apply Hq; rewrite <- HC; by apply list_elem_of_lookup_2 in Hy).
    unfold apart in *. cbn [fst snd] in *. consts. lia. }
  destruct Hl as [Hs Ht Hok He Hf]. split; cbn [ram lfree]; auto.
  - apply (seg_starts (ram h)); [|done]. intros pre x post Hbs. apply Hfar. rewrite Hbs in *.
    intros y. by apply header_apart.
  - rewrite Hfar; [done|]. intros y Hy. rewrite <- Ht.
    rewrite <- (app_nil_r bs) in Hy, Hok. by apply (header_apart 0 bs []).
Qed.

Lemma wf_init : wf mem_init [(MEM_SIZE_ALIGNED, false)].
Proof.
  split; [|done]. split; [done|done| |by eexists|done].
  apply Forall_singleton. split; [by vm_compute|reflexivity].
Qed.

Lemma hinv_init : hinv (mem_init, []).
Proof.
  exists [(MEM_SIZE_ALIGNED, false)]. split; [apply wf_init|by exists []].
Qed.

Lemma hinv_step st st' : hstep st st' -> hinv st -> hinv st'.
Proof.
  intros [h L n a h' Hn Hm|h L n h' Hn Hm|h L1 L2 a n h' Hm|h L1 L2 a n m r h' Hn Hm|h L r Hr] Hi.
  - destruct (hinv_malloc _ _ _ Hi Hn) as (r & h1 & E & Hr). rewrite Hm in E. by simplify_eq.
  - destruct (hinv_malloc _ _ _ Hi Hn) as (r & h1 & E & Hr). rewrite Hm in E. by simplify_eq.
  - destruct (hinv_free _ _ _ _ _ Hi) as (h1 & E & Hr). rewrite Hm in E. by simplify_eq.
  - destruct (hinv_trim _ _ _ _ _ _ Hi Hn) as (h1 & E & Hr). rewrite Hm in E. by simplify_eq.
  - by apply hinv_write.
Qed.

Lemma hinv_reach st : rtc hstep (mem_init, []) st -> hinv st.
Proof.
  intros H. assert (forall a b, rtc hstep a b -> hinv a -> hinv b) as Hind.
  { induction 1; eauto using hinv_step. }
  exact (Hind _ _ H hinv_init).
Qed.

(** C5: Whatever a program does with the heap, as long as no request is for more
    than 65532 bytes ([mem_malloc] grants 65533 to 65535 bytes only 12, see
    [mem_malloc_wraps]) and it frees, shrinks and writes only what it holds, the
    regions it holds are aligned, inside the heap and pairwise disjoint; and in
    every state that it reaches, each of these calls completes without touching
    memory that is not a block header, freeing and shrinking succeed, and an
    allocation hands out a region that is disjoint from all others. *)
Theorem heap_safe h L :
  rtc hstep (mem_init, []) (h, L) ->
  regions_ok L /\
  (forall n, 0 < n <= 65532 -> exists r h', mem_malloc h n = Some (r, h') /\
     (forall a, r = Some a -> regions_ok ((a, n) :: L))) /\
  (forall a n, (a, n) ∈ L -> exists h', mem_free h (Some a) = Some h') /\
  (forall a n m, (a, n) ∈ L -> 0 <= m <= n -> exists h', mem_trim h a m = Some (Some a, h')).
Proof.
  intros H%hinv_reach.
  assert (Hreg : forall h L, hinv (h, L) -> regions_ok L).
  { clear. intros h L (bs & [Hl _] & C & HC & HF). cbn [fst snd] in *. symmetry in HC.
    assert (regions_ok C) as [H1 H2].
    { apply (regions_ok_perm _ _ HC), allocs_regions_ok; [apply (lay_ok _ _ Hl)|done|done|].
      by rewrite (lay_total _ _ Hl). }
    split.
    - apply Forall_lookup. intros i x Hi. destruct (Forall2_lookup_l _ _ _ _ _ HF Hi) as (y & Hy & Hxy & Hle).
      destruct (Forall_lookup_1 _ _ _ _ H1 Hy) as (? & ? & ?). unfold region_ok. rewrite Hxy. split_and!; [done|done|lia].
    - intros i j x y Hi Hj Hij.
      destruct (Forall2_lookup_l _ _ _ _ _ HF Hi) as (x' & Hx' & Hxx & Hle).
      destruct (Forall2_lookup_l _ _ _ _ _ HF Hj) as (y' & Hy' & Hyy & Hle').
      pose proof (H2 _ _ _ _ Hx' Hy' Hij). unfold apart in *. lia. }
  split; [by apply (Hreg h)|]. split_and!.
  - intros n Hn. destruct (hinv_malloc _ _ _ H Hn) as (r & h' & E & Hr). exists r, h'.
    split; [done|]. intros a ->. by apply (Hreg h').
  - intros a n Hin. apply list_elem_of_split in Hin as (L1 & L2 & ->).
    destruct (hinv_free _ _ _ _ _ H) as (h' & E & _). eauto.
  - intros a n m Hin Hm. apply list_elem_of_split in Hin as (L1 & L2 & ->).
    destruct (hinv_trim _ _ _ _ _ _ H Hm) as (h' & E & _). eauto.
Qed.

Lemma heap_safe_witness :
  exists h, regions_ok [(116, 10); (8, 100)] /\
    exists r h', mem_malloc h 7 = Some (r, h') /\ (forall a, r = Some a -> regions_ok [(a, 7); (116, 10); (8, 100)]).
Proof.
  pose (h1 := default mem_init (snd <$> mem_malloc mem_init 100)).
  pose (h2 := default mem_init (snd <$> mem_malloc h1 10)).
  assert (E1 : mem_malloc mem_init 100 = Some (Some 8, h1)) by (vm_compute; reflexivity).
  assert (E2 : mem_malloc h1 10 = Some (Some 116, h2)) by (vm_compute; reflexivity).
  assert (R : rtc hstep (mem_init, []) (h2, [(116, 10); (8, 100)])).
  { eapply rtc_l; [apply (step_malloc _ _ 100 8 h1); [lia|exact E1]|].
    eapply rtc_l; [apply (step_malloc _ _ 10 116 h2); [lia|exact E2]|]. apply rtc_refl. }
  exists h2. destruct (heap_safe h2 _ R) as (H1 & H2 & _). split; [exact H1|].
  apply H2. lia.
Defined.

(** [mem_malloc] is first fit and complete: it takes the lowest free block
    that can hold the rounded size, and it fails only when no free block can;
    on failure the heap is unchanged. *)
Theorem mem_malloc_first_fit h bs size :
  wf h bs -> 0 < size <= 65532 ->
  match mem_malloc h size with
  | Some (Some a, h') => exists pre s post, bs = pre ++ (s, false) :: post /\
      a = total pre + SIZEOF_STRUCT_MEM /\ adjusted size <= s - SIZEOF_STRUCT_MEM /\
      (forall t, (t, false) ∈ pre -> t - SIZEOF_STRUCT_MEM < adjusted size) /\
      wf h' (pre ++ taken (adjusted size) s ++ post)
  | Some (None, h') => h' = h /\ forall t, (t, false) ∈ bs -> t - SIZEOF_STRUCT_MEM < adjusted size
  | None => False
  end.
Proof.
  intros Hwf Hsz. pose proof (mem_malloc_lay h bs size Hwf ltac:(lia)) as Hm.
  assert (Hno : forall p n l, first_fit p n l = None -> forall t, (t, false) ∈ l -> t - SIZEOF_STRUCT_MEM < n).
  { clear. intros p n l. revert p. induction l as [|[s u] l IH]; intros p; cbn [first_fit].
    - by intros _ t ?%not_elem_of_nil.
    - destruct (negb u && (n <=? s - SIZEOF_STRUCT_MEM)) eqn:E; [done|].
      intros Hl t [[= -> <-]|Ht]%elem_of_cons; [|by eapply IH]. cbn [negb andb] in E. lia. }
  destruct (first_fit 0 (adjusted size) bs) as [q|] eqn:Eq.
  - destruct (first_fit_split _ _ _ _ Eq) as (pre1 & s1 & post1 & Hbs1 & Hq1 & Hs1 & Hn1).
    destruct Hm as (pre & s & post & h' & -> & -> & Hs & -> & Hwf'). exists pre, s, post.
    split; [done|]. split; [done|]. split; [done|]. split; [|done].
    destruct Hwf as [Hl _]. pose proof (lay_ok _ _ Hl) as Hok.
    enough (pre = pre1) as -> by by apply (Hno 0).
    clear -Hbs1 Hq1 Hok. rewrite Z.add_0_l in Hq1. pose proof Hok as Hok'. rewrite Hbs1 in Hok'.
    revert pre1 Hbs1 Hq1 Hok'. induction pre as [|x pre IH]; intros [|y pre1] Hb Hq Hok'; [done| | |].
    + injection Hb as <- _. inversion Hok' as [|? ? [? _] Ho]; subst.
      apply Forall_app in Ho as [Ho _]. pose proof (total_nonneg _ Ho). cbn [total fst] in *. lia.
    + injection Hb as -> _. inversion Hok as [|? ? [? _] Ho]; subst.
      apply Forall_app in Ho as [Ho _]. pose proof (total_nonneg _ Ho). cbn [total fst] in *. lia.
    + injection Hb as -> Hb. apply Forall_cons in Hok as [_ Hok]. apply Forall_cons in Hok' as [_ Hok'].
      destruct y as [s0 u0]. cbn [total] in Hq. f_equal. apply IH; auto. lia.
  - rewrite Hm. split; [done|]. by apply (Hno 0).
Qed.

Lemma mem_malloc_first_fit_witness :
  match mem_malloc mem_init 100 with
  | Some (Some a, h') => a = 8 /\ exists bs, wf h' bs
  | _ => False
  end.
Proof.
  pose proof (mem_malloc_first_fit mem_init _ 100 wf_init ltac:(lia)) as H.
  destruct (mem_malloc mem_init 100) as [[[a|] h']|] eqn:E; [| |done].
  - destruct H as (pre & s & post & _ & _ & _ & _ & Hw). split; [|eauto].
    vm_compute in E. congruence.
  - vm_compute in E. discriminate E.
Defined.

(** when everything has been given back, the heap is again one free block
    of its full size: nothing is lost and nothing stays fragmented. *)
Theorem heap_reassembles h :
  rtc hstep (mem_init, []) (h, []) ->
  wf h [(MEM_SIZE_ALIGNED, false)] /\ lfree h = 0 /\
  (forall n, 0 < n <= MEM_SIZE_ALIGNED - SIZEOF_STRUCT_MEM -> exists h', mem_malloc h n = Some (Some SIZEOF_STRUCT_MEM, h')).
Proof.
  intros (bs & Hwf & C & HC & HF)%hinv_reach. cbn [fst snd] in *.
  apply Forall2_nil_inv_l in HF as ->. apply Permutation_nil in HC.
  assert (Hbs : bs = [(MEM_SIZE_ALIGNED, false)]).
  { destruct Hwf as [Hl Hadj]. pose proof (lay_total _ _ Hl) as Ht.
    destruct bs as [|[s1 [|]] [|[s2 [|]] bs]]; cbn [allocs app total] in *; try done.
    - do 2 f_equal. lia.
    - by destruct Hadj. }
  subst bs. split; [done|]. split; [apply (lay_free _ _ (proj1 Hwf))|].
  intros n Hn. pose proof (mem_malloc_lay h _ n Hwf ltac:(lia)) as Hm.
  destruct (adjusted_bounds n ltac:(lia)) as (Hb1 & Hb2 & Hb3).
  assert (Hfit : adjusted n <= 10232).
  { clear Hb1 Hb2 Hb3 Hm. unfold adjusted. rewrite align_size. consts. case_match; zlia. }
  cbn [first_fit negb andb] in Hm. consts.
  replace (adjusted n <=? 10240 - 8) with true in Hm by lia.
  destruct Hm as (pre & s & post & h' & _ & _ & _ & -> & _). by exists h'.
Qed.

Lemma heap_reassembles_witness :
  exists h, lfree h = 0 /\ exists h', mem_malloc h 10000 = Some (Some SIZEOF_STRUCT_MEM, h').
Proof.
  pose (h1 := default mem_init (snd <$> mem_malloc mem_init 100)).
  pose (h2 := default mem_init (mem_free h1 (Some 8))).
  assert (E1 : mem_malloc mem_init 100 = Some (Some 8, h1)) by (vm_compute; reflexivity).
  assert (E2 : mem_free h1 (Some 8) = Some h2) by (vm_compute; reflexivity).
  assert (R : rtc hstep (mem_init, []) (h2, [])).
  { eapply rtc_l; [apply (step_malloc _ _ 100 8 h1); [lia|exact E1]|].
    eapply rtc_l; [apply (step_free _ [] [] 8 100 h2 E2)|]. apply rtc_refl. }
  exists h2. destruct (heap_reassembles h2 R) as (_ & H1 & H2). split; [exact H1|].
  apply H2. vm_compute. split; [done|]. discriminate.
Defined.

(** Requests of 65533 bytes and more wrap to the smallest block: the caller
    gets 12 bytes. *)
Lemma mem_malloc_wraps :
  adjusted 65533 = 12 /\ exists h, mem_malloc mem_init 65533 = Some (Some 8, h) /\ hdr h 0 = Some (mkMem 20 0 1).
Proof. split; [reflexivity|]. eexists. split; vm_compute; reflexivity. Qed.

(** [mem_calloc] allocates the 16-bit product of its arguments but clears the
    whole product. *)
Lemma mem_calloc_wraps :
  exists h, mem_calloc mem_init 256 257 = Some (Some (8, 65792), h) /\ hdr h 0 = Some (mkMem 264 0 1).
Proof. eexists. split; vm_compute; reflexivity. Qed.

End Mem.
