(* ===== verification/Memp.v ===== *)
(** * The memory pools of the IP stack (ip/lwip/core/memp.c)

    Every pool is a singly linked list of its free elements; the link is stored
    in the element itself, so it survives only while the element is free.  The
    memory is modelled by the link that each address holds.  The number and
    the size of the elements of the pools come from [memp_std.h] and depend on
    the platform: they are the parameter [pools].  The statistics and the
    overflow checks are switched off in [lwipopts.h]. *)

From S2P Require Import Prelude.
From stdpp Require Import gmap.

#[local] Open Scope Z_scope.

(** What a pool promises to the components that take their objects from it:
    elements that are handed out are new, and the pool runs dry only when all
    its elements are out.  [holds p live]: [live] are the elements that are out. *)
Class Pool (P : Type) := {
  alloc : P -> option (Z * P);
  release : P -> Z -> option P;
  capacity : nat;
  holds : P -> list Z -> Prop;
  alloc_new p live : holds p live ->
    match alloc p with
    | Some (a, p') => (a ∉ live) /\ holds p' (a :: live)
    | None => (capacity <= length live)%nat
    end;
  release_ok p l1 a l2 : holds p (l1 ++ (a :: l2)) ->
    exists p', release p a = Some p' /\ holds p' (l1 ++ l2);
  holds_bound p live : holds p live -> (length live <= capacity)%nat;
  holds_perm p live live' : live ≡ₚ live' -> holds p live -> holds p live'
}.
#[global] Arguments capacity P {_}.

Module Memp.

Section pools.
(** Per pool: the number of elements and their size; the address of the memory. *)
Variable pools : list (nat * Z).
Variable memp_memory : Z.

Record memp := mkMemp { memp_tab : list Z; next : gmap Z Z }.

(** The null pointer is 0. *)
Definition NULL : Z := 0.

(** [memp_init]: the inner loop over the elements of a pool, the outer loop
    over the pools. *)
Fixpoint carve (num : nat) (size memp head : Z) (nx : gmap Z Z) : Z * Z * gmap Z Z :=
  match num with
  | O => (memp, head, nx)
  | S num => carve num size (memp + size) memp (<[memp := head]> nx)
  end.
Fixpoint carve_all (ps : list (nat * Z)) (memp : Z) (tab : list Z) (nx : gmap Z Z) : list Z * gmap Z Z :=
  match ps with
  | [] => (tab, nx)
  | (num, size) :: ps =>
      let '(memp, head, nx) := carve num size memp NULL nx in
      carve_all ps memp (tab ++ [head]) nx
  end.
Definition memp_init : memp :=
  let '(tab, nx) := carve_all pools memp_memory [] ∅ in mkMemp tab nx.

(** The result pairs the element, or the null pointer, with the new state. *)
Definition memp_malloc (st : memp) (type : Z) : option (Z * memp) :=
  if Z.of_nat (length pools) <=? type then Some (NULL, st) else
  m ← rd (memp_tab st) type;
  if m =? NULL then Some (NULL, st) else
  n ← next st !! m;
  tab ← wr (memp_tab st) type n;
  Some (m, mkMemp tab (next st)).

Definition memp_free (st : memp) (type mem : Z) : option memp :=
  if mem =? NULL then Some st else
  head ← rd (memp_tab st) type;
  let nx := <[mem := head]> (next st) in
  tab ← wr (memp_tab st) type mem;
  Some (mkMemp tab nx).

(** [memp_sanity]: the hare advances two links, the tortoise one. *)
Fixpoint floyd (n : nat) (nx : gmap Z Z) (t h : Z) : option bool :=
  match n with
  | O => None
  | S n =>
      if negb (t =? NULL) && negb (h =? NULL) then
        if t =? h then Some false else
        t' ← nx !! t;
        h1 ← nx !! h;
        h' ← (if negb (h1 =? NULL) then h2 ← nx !! h1; Some (if negb (h2 =? NULL) then h2 else NULL)
              else Some NULL);
        floyd n nx t' h'
      else Some true
  end.
Fixpoint sanity (n : nat) (nx : gmap Z Z) (tab : list Z) : option bool :=
  match tab with
  | [] => Some true
  | t :: tab =>
      ok ← (if negb (t =? NULL) then h ← nx !! t; floyd n nx t h else Some true);
      if ok : bool then sanity n nx tab else Some false
  end.
Definition memp_sanity (n : nat) (st : memp) : option bool := sanity n (next st) (memp_tab st).

(** ** The free lists *)

(** [l] is the list of links from [h] on. *)
Fixpoint chain (nx : gmap Z Z) (h : Z) (l : list Z) : Prop :=
  match l with
  | [] => h = NULL
  | a :: l => h = a /\ a <> NULL /\ exists n, nx !! a = Some n /\ chain nx n l
  end.

Lemma chain_frame nx nx' h l :
  (forall a, a ∈ l -> nx' !! a = nx !! a) -> chain nx h l -> chain nx' h l.
Proof.
  revert h. induction l as [|a l IH]; intros h Hf; [done|].
  intros (-> & Ha & n & Hn & Hc). split; [done|]. split; [done|]. exists n. split.
  - rewrite Hf; [done|by left].
  - apply IH; [|done]. intros b Hb. apply Hf. by right.
Qed.

(** The elements of a pool whose memory starts at [p]. *)
Fixpoint elems (num : nat) (size p : Z) : list Z :=
  match num with O => [] | S num => p :: elems num size (p + size) end.
Definition pool_end (num : nat) (size p : Z) : Z := p + Z.of_nat num * size.
Fixpoint all_elems (ps : list (nat * Z)) (p : Z) : list (list Z) :=
  match ps with
  | [] => []
  | (num, size) :: ps => elems num size p :: all_elems ps (pool_end num size p)
  end.

Lemma elems_range num size p a :
  0 < size -> a ∈ elems num size p -> p <= a /\ a + size <= pool_end num size p.
Proof.
  intros Hs. unfold pool_end. revert p. induction num as [|num IH]; intros p; cbn [elems].
  - by intros ?%not_elem_of_nil.
  - intros [->|Ha]%elem_of_cons; [nia|]. apply IH in Ha. nia.
Qed.

Lemma all_elems_range ps p l a :
  Forall (fun x => 0 < x.2) ps -> l ∈ all_elems ps p -> a ∈ l -> p <= a.
Proof.
  intros Hps. revert p. induction Hps as [|[num size] ps Hs Hps IH]; intros p; cbn [all_elems].
  - by intros ?%not_elem_of_nil.
  - cbn [snd] in Hs. intros [->|Hl]%elem_of_cons Ha.
    + apply elems_range in Ha; [lia|done].
    + apply (IH (pool_end num size p)) in Hl; [|done]. unfold pool_end in Hl. nia.
Qed.

Lemma carve_spec num size p head nx l0 :
  0 < p -> 0 < size -> chain nx head l0 -> (forall a, a ∈ l0 -> a < p) ->
  exists h' nx', carve num size p head nx = (pool_end num size p, h', nx') /\
    chain nx' h' (reverse (elems num size p) ++ l0) /\
    (forall a, a < p -> nx' !! a = nx !! a).
Proof.
  revert p head nx l0. induction num as [|num IH]; intros p head nx l0 Hp Hs Hc Hl; cbn [carve elems].
  - exists head, nx. split; [|done]. unfold pool_end. f_equal. f_equal. lia.
  - destruct (IH (p + size) p (<[p := head]> nx) (p :: l0)) as (h' & nx' & E & Hc' & Hf'); try lia.
    + cbn [chain]. split; [done|]. split; [unfold NULL; lia|]. exists head. rewrite lookup_insert_eq.
      split; [done|]. apply (chain_frame nx); [|done]. intros a Ha. apply Hl in Ha.
      rewrite lookup_insert_ne by lia. done.
    + intros a [->|Ha]%elem_of_cons; [lia|]. apply Hl in Ha. lia.
    + exists h', nx'. split; [|split].
      * rewrite E. f_equal. f_equal. unfold pool_end. lia.
      * rewrite reverse_cons, <- app_assoc. done.
      * intros a Ha. rewrite Hf', lookup_insert_ne by lia. done.
Qed.

Hypothesis memory_pos : 0 < memp_memory.
Hypothesis sizes_pos : Forall (fun x : nat * Z => 0 < x.2) pools.

Lemma elems_NoDup num size p : 0 < size -> NoDup (elems num size p).
Proof.
  intros Hs. revert p. induction num as [|num IH]; intros p; cbn [elems]; constructor; [|apply IH].
  intros Hin. apply elems_range in Hin; [lia|done].
Qed.

Lemma elems_length num size p : length (elems num size p) = num.
Proof. revert p. induction num as [|num IH]; intros p; cbn [elems length]; [done|by rewrite IH]. Qed.

Lemma all_elems_lookup ps p i num size :
  ps !! i = Some (num, size) -> exists q, all_elems ps p !! i = Some (elems num size q).
Proof.
  revert p i. induction ps as [|[n s] ps IH]; intros p [|i]; cbn [lookup list_lookup all_elems]; try done.
  - intros [= -> ->]. by exists p.
  - apply IH.
Qed.

Lemma all_elems_length ps p : length (all_elems ps p) = length ps.
Proof. revert p. induction ps as [|[n s] ps IH]; intros p; cbn [all_elems length]; [done|by rewrite IH]. Qed.

Lemma all_elems_NoDup ps p l : Forall (fun x : nat * Z => 0 < x.2) ps -> l ∈ all_elems ps p -> NoDup l.
Proof.
  intros Hps. revert p. induction Hps as [|[num size] ps Hs Hps IH]; intros p; cbn [all_elems].
  - by intros ?%not_elem_of_nil.
  - intros [->|Hl]%elem_of_cons; [by apply elems_NoDup|by eapply IH].
Qed.

Lemma all_elems_disjoint ps p i j l1 l2 a :
  Forall (fun x : nat * Z => 0 < x.2) ps ->
  all_elems ps p !! i = Some l1 -> all_elems ps p !! j = Some l2 -> i <> j -> a ∈ l1 -> a ∈ l2 -> False.
Proof.
  intros Hps. revert p i j. induction Hps as [|[num size] ps Hs Hps IH]; intros p i j; [done|].
  cbn [all_elems snd] in *. destruct i as [|i], j as [|j]; cbn [lookup list_lookup]; [done| | |].
  - intros [= <-] H2 _ Ha1 Ha2. apply elems_range in Ha1; [|done].
    apply list_elem_of_lookup_2 in H2. apply (all_elems_range _ _ _ a Hps) in H2; [lia|done].
  - intros H2 [= <-] _ Ha2 Ha1. apply elems_range in Ha1; [|done].
    apply list_elem_of_lookup_2 in H2. apply (all_elems_range _ _ _ a Hps) in H2; [lia|done].
  - intros H1 H2 Hij. eapply IH; eauto.
Qed.

(** ** The invariant

    [lives]: per pool, the elements that are out. *)
Record pool_inv (nx : gmap Z Z) (h : Z) (free live e : list Z) : Prop := {
  inv_chain : chain nx h free;
  inv_perm : free ++ live ≡ₚ e
}.

Definition inv (st : memp) (lives : list (list Z)) : Prop :=
  length (memp_tab st) = length pools /\ length lives = length pools /\
  forall i h live e, memp_tab st !! i = Some h -> lives !! i = Some live ->
    all_elems pools memp_memory !! i = Some e -> exists free, pool_inv (next st) h free live e.

Lemma elem_pos i e a : all_elems pools memp_memory !! i = Some e -> a ∈ e -> 0 < a.
Proof.
  intros He Ha. apply list_elem_of_lookup_2 in He.
  apply (all_elems_range _ _ _ a sizes_pos) in He; [lia|done].
Qed.

(** Changes at an element of pool [i] leave the other pools alone. *)
Lemma pool_inv_other nx h free live e i j e' a v :
  all_elems pools memp_memory !! i = Some e' -> all_elems pools memp_memory !! j = Some e ->
  i <> j -> a ∈ e' -> pool_inv nx h free live e -> pool_inv (<[a := v]> nx) h free live e.
Proof.
  intros Hi Hj Hij Ha [Hc Hp]. split; [|done]. apply (chain_frame nx); [|done].
  intros b Hb. rewrite lookup_insert_ne; [done|]. intros ->.
  apply (all_elems_disjoint _ _ _ _ _ _ b sizes_pos Hi Hj Hij Ha). rewrite <- Hp. set_solver.
Qed.

Lemma memp_malloc_inv st lives i live e :
  inv st lives -> lives !! i = Some live -> all_elems pools memp_memory !! i = Some e ->
  exists m st', memp_malloc st (Z.of_nat i) = Some (m, st') /\
    ((m = NULL /\ st' = st /\ live ≡ₚ e) \/
     (m <> NULL /\ m ∈ e /\ (m ∉ live) /\ inv st' (<[i := m :: live]> lives))).
Proof.
  intros (Hl1 & Hl2 & Hinv) Hlive He. unfold memp_malloc.
  assert (Hi : (i < length pools)%nat) by (apply lookup_lt_Some in Hlive; lia).
  replace (Z.of_nat (length pools) <=? Z.of_nat i) with false by lia.
  destruct (lookup_lt_is_Some_2 (memp_tab st) i) as [h Hh]; [lia|].
  unfold rd. replace (Z.of_nat i <? 0) with false by lia. rewrite Nat2Z.id, Hh. cbn [mbind option_bind].
  destruct (Hinv i h live e Hh Hlive He) as (free & Hc & Hp).
  assert (Hnd : NoDup e) by (apply list_elem_of_lookup_2 in He; by apply (all_elems_NoDup _ _ _ sizes_pos He)).
  destruct free as [|a free]; cbn [chain] in Hc.
  { rewrite Hc. cbn. exists NULL, st. split; [done|]. left. done. }
  destruct Hc as (-> & Ha & n & Hn & Hc). apply Z.eqb_neq in Ha as Ha'. rewrite Ha', Hn. cbn [mbind option_bind].
  rewrite wr_in, Nat2Z.id by lia. cbn [mbind option_bind]. eexists _, _. split; [done|]. right.
  rewrite <- Hp in Hnd. apply NoDup_app in Hnd as (Hnd1 & Hnd2 & Hnd3). apply NoDup_cons in Hnd1 as [Hnd1 Hnd4].
  split; [done|]. split; [rewrite <- Hp; by left|]. split; [apply Hnd2; by left|].
  split; [cbn [memp_tab]; by rewrite length_insert|]. split; [by rewrite length_insert|].
  intros j h' live' e' Hj1 Hj2 Hj3. cbn [memp_tab next] in *.
  destruct (decide (i = j)) as [<-|Hij].
  - rewrite list_lookup_insert_eq in Hj1 by lia. rewrite list_lookup_insert_eq in Hj2 by lia. simplify_eq. exists free. split; [done|].
    rewrite <- Hp. by rewrite <- Permutation_middle.
  - rewrite list_lookup_insert_ne in Hj1 by done. rewrite list_lookup_insert_ne in Hj2 by done. eauto.
Qed.

Lemma memp_free_inv st lives i l1 m l2 :
  inv st lives -> lives !! i = Some (l1 ++ m :: l2) -> (i < length pools)%nat ->
  exists st', memp_free st (Z.of_nat i) m = Some st' /\ inv st' (<[i := l1 ++ l2]> lives).
Proof.
  intros (Hl1 & Hl2 & Hinv) Hlive Hi. unfold memp_free.
  destruct (lookup_lt_is_Some_2 (memp_tab st) i) as [h Hh]; [lia|].
  destruct (lookup_lt_is_Some_2 (all_elems pools memp_memory) i) as [e He]; [by rewrite all_elems_length|].
  destruct (Hinv i h _ e Hh Hlive He) as (free & Hc & Hp).
  assert (Hme : m ∈ e) by (rewrite <- Hp; set_solver).
  pose proof (elem_pos i e m He Hme). replace (m =? NULL) with false by (unfold NULL; lia).
  unfold rd. replace (Z.of_nat i <? 0) with false by lia. rewrite Nat2Z.id, Hh. cbn [mbind option_bind].
  rewrite wr_in, Nat2Z.id by lia. cbn [mbind option_bind]. eexists. split; [done|].
  split; [cbn [memp_tab]; by rewrite length_insert|]. split; [by rewrite length_insert|].
  intros j h' live' e' Hj1 Hj2 Hj3. cbn [memp_tab next] in *.
  destruct (decide (i = j)) as [<-|Hij].
  - rewrite list_lookup_insert_eq in Hj1 by lia. rewrite list_lookup_insert_eq in Hj2 by lia. simplify_eq. exists (h' :: free).
    assert (Hnd : NoDup e) by (apply list_elem_of_lookup_2 in He; by apply (all_elems_NoDup _ _ _ sizes_pos He)).
    split.
    + cbn [chain]. split; [done|]. split; [unfold NULL; lia|]. exists h. rewrite lookup_insert_eq.
      split; [done|]. apply (chain_frame (next st)); [|done]. intros b Hb.
      rewrite lookup_insert_ne; [done|]. intros ->. rewrite <- Hp in Hnd.
      apply NoDup_app in Hnd as (_ & Hnd & _). apply (Hnd _ Hb). set_solver.
    + rewrite <- Hp. cbn [app]. by rewrite <- Permutation_middle, <- Permutation_middle.
  - rewrite list_lookup_insert_ne in Hj1 by done. rewrite list_lookup_insert_ne in Hj2 by done.
    destruct (Hinv j h' live' e' Hj1 Hj2 Hj3) as (free' & Hpi). exists free'.
    by apply (pool_inv_other _ _ _ _ _ i j e).
Qed.

Lemma carve_all_spec ps p tab nx :
  0 < p -> Forall (fun x : nat * Z => 0 < x.2) ps ->
  exists hs nx', carve_all ps p tab nx = (tab ++ hs, nx') /\ length hs = length ps /\
    (forall a, a < p -> nx' !! a = nx !! a) /\
    forall i h e, hs !! i = Some h -> all_elems ps p !! i = Some e -> chain nx' h (reverse e).
Proof.
  intros Hp Hps. revert p tab nx Hp. induction Hps as [|[num size] ps Hs Hps IH]; intros p tab nx Hp;
    cbn [carve_all all_elems snd] in *.
  - exists [], nx. rewrite app_nil_r. done.
  - destruct (carve_spec num size p NULL nx []) as (h & nx1 & E & Hc & Hf); try done.
    { by intros a ?%not_elem_of_nil. }
    rewrite E. rewrite app_nil_r in Hc.
    assert (Hpe : p <= pool_end num size p) by (unfold pool_end; nia).
    destruct (IH (pool_end num size p) (tab ++ [h]) nx1) as (hs & nx2 & E2 & Hlen & Hf2 & Hc2); [lia|].
    rewrite E2. exists (h :: hs), nx2. rewrite <- app_assoc. split; [done|].
    split; [cbn [length]; by rewrite Hlen|]. split.
    + intros a Ha. rewrite Hf2, Hf by lia. done.
    + intros [|i] h' e; cbn [lookup list_lookup]; [|apply Hc2].
      intros [= <-] [= <-]. apply (chain_frame nx1); [|done]. intros a Ha.
      apply elem_of_reverse, elems_range in Ha; [|done]. apply Hf2. lia.
Qed.

Lemma memp_init_inv : inv memp_init (replicate (length pools) []).
Proof.
  unfold memp_init. destruct (carve_all_spec pools memp_memory [] ∅) as (hs & nx & -> & Hl & _ & Hc); auto.
  split; [done|]. split; [by rewrite length_replicate|]. cbn [app memp_tab next].
  intros i h live e Hh Hlive He. apply lookup_replicate in Hlive as [-> _].
  exists (reverse e). split; [by eapply Hc|]. rewrite app_nil_r. apply reverse_Permutation.
Qed.

(** The program: it holds, per pool, the elements [lives], gives back only what
    it holds and writes only into what it holds. *)
Inductive mstep : memp * list (list Z) -> memp * list (list Z) -> Prop :=
  | mstep_malloc st lives i live m st' :
      lives !! i = Some live -> memp_malloc st (Z.of_nat i) = Some (m, st') ->
      mstep (st, lives) (st', if m =? NULL then lives else <[i := m :: live]> lives)
  | mstep_free st lives i l1 m l2 st' :
      lives !! i = Some (l1 ++ m :: l2) -> memp_free st (Z.of_nat i) m = Some st' ->
      mstep (st, lives) (st', <[i := l1 ++ l2]> lives)
  | mstep_write st lives r :
      (forall q, q ∉ mjoin lives -> r !! q = next st !! q) ->
      mstep (st, lives) (mkMemp (memp_tab st) r, lives).

Lemma inv_write st lives r :
  inv st lives -> (forall q, q ∉ mjoin lives -> r !! q = next st !! q) ->
  inv (mkMemp (memp_tab st) r) lives.
Proof.
  intros (Hl1 & Hl2 & Hinv) Hr. split; [done|]. split; [done|]. cbn [memp_tab next].
  intros i h live e Hh Hlive He. destruct (Hinv i h live e Hh Hlive He) as (free & Hc & Hp).
  exists free. split; [|done]. apply (chain_frame (next st)); [|done]. intros a Ha. apply Hr.
  intros (l & Hl & Hal)%list_elem_of_join. apply list_elem_of_lookup in Hal as [j Hj].
  assert (Hae : a ∈ e) by (rewrite <- Hp; set_solver). destruct (decide (i = j)) as [<-|Hij].
  - simplify_eq. apply list_elem_of_lookup_2 in He as He'. apply (all_elems_NoDup _ _ _ sizes_pos) in He'.
    rewrite <- Hp in He'. apply NoDup_app in He' as (_ & Hd & _). by apply (Hd a).
  - destruct (lookup_lt_is_Some_2 (memp_tab st) j) as [h' Hh']; [apply lookup_lt_Some in Hj; lia|].
    destruct (lookup_lt_is_Some_2 (all_elems pools memp_memory) j) as [e' He'];
      [rewrite all_elems_length; apply lookup_lt_Some in Hj; lia|].
    destruct (Hinv j h' l e' Hh' Hj He') as (free' & _ & Hp').
    apply (all_elems_disjoint _ _ _ _ _ _ a sizes_pos He He' Hij Hae). rewrite <- Hp'. set_solver.
Qed.

Lemma inv_step a b : mstep a b -> inv a.1 a.2 -> inv b.1 b.2.
Proof.
  intros [st lives i live m st' Hlive Hm|st lives i l1 m l2 st' Hlive Hm|st lives r Hr] Hi; cbn [fst snd] in *.
  - pose proof Hi as (_ & Hl2 & _).
    destruct (lookup_lt_is_Some_2 (all_elems pools memp_memory) i) as [e He];
      [rewrite all_elems_length; apply lookup_lt_Some in Hlive; lia|].
    destruct (memp_malloc_inv st lives i live e Hi Hlive He) as (m' & st1 & E & [(-> & -> & _)|(Hm' & _ & _ & Hi')]);
      rewrite Hm in E; simplify_eq; [done|].
    by replace (m' =? NULL) with false by lia.
  - pose proof Hi as (_ & Hl2 & _).
    destruct (memp_free_inv st lives i l1 m l2 Hi Hlive) as (st1 & E & Hi');
      [apply lookup_lt_Some in Hlive; lia|]. rewrite Hm in E. by simplify_eq.
  - by apply inv_write.
Qed.

(** however a program takes elements from the pools, gives them back and
    writes into those it holds, [memp_malloc] hands out an element of the
    requested pool that nobody holds and fails only when all elements of that
    pool are out; [memp_free] always succeeds, and no element is held twice. *)
Theorem memp_safe st lives :
  rtc mstep (memp_init, replicate (length pools) []) (st, lives) ->
  forall i live num size, lives !! i = Some live -> pools !! i = Some (num, size) ->
  exists q, all_elems pools memp_memory !! i = Some (elems num size q) /\
    NoDup live /\ live ⊆ elems num size q /\
    (exists m st', memp_malloc st (Z.of_nat i) = Some (m, st') /\
       ((m = NULL /\ st' = st /\ length live = num) \/ (m <> NULL /\ m ∈ elems num size q /\ (m ∉ live)))) /\
    (forall m, m ∈ live -> exists st', memp_free st (Z.of_nat i) m = Some st').
Proof.
  intros Hr i live num size Hlive Hps.
  assert (Hi : inv st lives).
  { assert (forall a b, rtc mstep a b -> inv a.1 a.2 -> inv b.1 b.2) as Hind
      by (induction 1; eauto using inv_step).
    exact (Hind _ _ Hr memp_init_inv). }
  destruct (all_elems_lookup pools memp_memory i num size Hps) as (q & He). exists q. split; [done|].
  pose proof Hi as (Hl1 & Hl2 & Hinv).
  destruct (lookup_lt_is_Some_2 (memp_tab st) i) as [h Hh]; [apply lookup_lt_Some in Hps; lia|].
  destruct (Hinv i h live _ Hh Hlive He) as (free & Hc & Hp).
  assert (Hnd : NoDup (free ++ live)).
  { rewrite Hp. apply elems_NoDup. apply (Forall_lookup_1 _ _ _ _ sizes_pos Hps). }
  split; [by apply NoDup_app in Hnd as (_ & _ & ?)|].
  split; [intros a Ha; rewrite <- Hp; set_solver|]. split.
  - destruct (memp_malloc_inv st lives i live _ Hi Hlive He) as (m & st1 & E & Hcase).
    exists m, st1. split; [done|]. destruct Hcase as [(-> & -> & Hall)|(Hm & Hme & Hml & _)]; [left|by right].
    split; [done|]. split; [done|]. by rewrite Hall, elems_length.
  - intros m Hm. apply list_elem_of_split in Hm as (l1 & l2 & ->).
    destruct (memp_free_inv st lives i l1 m l2 Hi Hlive) as (st1 & E & _); [apply lookup_lt_Some in Hps; done|].
    eauto.
Qed.

(** The pool [i], as the components that use it see it. *)
Definition pool_alloc (i : nat) (st : memp) : option (Z * memp) :=
  match memp_malloc st (Z.of_nat i) with
  | Some (m, st') => if m =? NULL then None else Some (m, st')
  | None => None
  end.

End pools.

(** Pool [i] of the configuration [pools], other pools kept as they are: an
    instance of the interface. *)
#[refine] Instance memp_pool (pools : list (nat * Z)) (memory : Z) (i : nat)
    (Hm : 0 < memory) (Hs : Forall (fun x : nat * Z => 0 < x.2) pools) (Hi : (i < length pools)%nat) :
    Pool memp := {|
  alloc := pool_alloc pools i;
  release p a := memp_free p (Z.of_nat i) a;
  capacity := (default (0%nat, 0) (pools !! i)).1;
  holds p live := exists lives, inv pools memory p lives /\ lives !! i = Some live
|}.
Proof.
  - intros p live (lives & Hinv & Hlive). unfold pool_alloc.
    destruct (lookup_lt_is_Some_2 pools i Hi) as [[num size] Hps]. rewrite Hps. cbn [default fst].
    destruct (all_elems_lookup pools memory i num size Hps) as (q & He).
    destruct (memp_malloc_inv pools memory Hs p lives i live _ Hinv Hlive He) as (m & st1 & -> & Hcase).
    destruct Hcase as [(-> & -> & Hall)|(Hm0 & Hme & Hml & Hi')].
    + rewrite Z.eqb_refl, (Permutation_length Hall), elems_length. done.
    + replace (m =? NULL) with false by lia. split; [done|]. exists (<[i := m :: live]> lives).
      split; [done|]. apply list_lookup_insert_eq. by apply lookup_lt_Some in Hlive.
  - intros p l1 a l2 (lives & Hinv & Hlive).
    destruct (memp_free_inv pools memory Hm Hs p lives i l1 a l2 Hinv Hlive Hi) as (st1 & E & Hi').
    exists st1. split; [done|]. exists (<[i := l1 ++ l2]> lives). split; [done|].
    apply list_lookup_insert_eq. by apply lookup_lt_Some in Hlive.
  - intros p live (lives & (Hl1 & Hl2 & Hinv) & Hlive).
    destruct (lookup_lt_is_Some_2 pools i Hi) as [[num size] Hps]. rewrite Hps. cbn [default fst].
    destruct (all_elems_lookup pools memory i num size Hps) as (q & He).
    destruct (lookup_lt_is_Some_2 (memp_tab p) i) as [h Hh]; [lia|].
    destruct (Hinv i h live _ Hh Hlive He) as (free & _ & Hp). apply Permutation_length in Hp.
    rewrite length_app, elems_length in Hp. cbn in *. lia.
  - intros p live live' Hperm (lives & (Hl1 & Hl2 & Hinv) & Hlive). exists (<[i := live']> lives).
    split; [|apply list_lookup_insert_eq; by apply lookup_lt_Some in Hlive].
    split; [done|]. split; [by rewrite length_insert|]. intros j h lv e Hh Hlv He.
    destruct (decide (i = j)) as [<-|Hij].
    + rewrite list_lookup_insert_eq in Hlv by lia. injection Hlv as <-.
      destruct (Hinv i h live e Hh Hlive He) as (free & Hc & Hp). exists free. split; [done|].
      by rewrite <- Hperm.
    + rewrite list_lookup_insert_ne in Hlv by done. eauto.
Defined.

Lemma memp_safe_witness :
  exists st q, all_elems [(2%nat, 8); (3%nat, 16)] 4096 !! 1%nat = Some (elems 3 16 q) /\
    NoDup [4144] /\ exists m st', memp_malloc [(2%nat, 8); (3%nat, 16)] st 1 = Some (m, st').
Proof.
  pose (ps := [(2%nat, 8); (3%nat, 16)]). pose (s0 := memp_init ps 4096).
  pose (s1 := default s0 (snd <$> memp_malloc ps s0 1)).
  assert (E : memp_malloc ps s0 (Z.of_nat 1) = Some (4144, s1)) by (vm_compute; reflexivity).
  assert (R : rtc (mstep ps) (memp_init ps 4096, replicate (length ps) []) (s1, [[]; [4144]])).
  { eapply rtc_l; [apply (mstep_malloc ps s0 [[]; []] 1 [] 4144 s1 eq_refl E)|]. apply rtc_refl. }
  destruct (memp_safe ps 4096 ltac:(lia) ltac:(repeat constructor) s1 _ R 1%nat [4144] 3%nat 16 eq_refl eq_refl)
    as (q & H1 & H2 & _ & (m & st' & H3 & _) & _).
  exists s1, q. split; [exact H1|]. split; [exact H2|]. exists m, st'. exact H3.
Defined.

End Memp.
