(* ===== verification/Timers.v ===== *)
(** * The timeouts of the IP stack (ip/lwip/core/timers.c)

    The pending timeouts form a list in which every entry stores the time that
    has to pass after the entry before it.  The entries are elements of a
    memory pool, of which only the promises of [Pool] are used.  What the
    handlers do to the rest of the stack is [tmr]; whether TCP still has
    connections is [tcp_pcbs].  The configuration is [NO_SYS = 1]. *)

From S2P Require Import Prelude Memp.

#[local] Open Scope Z_scope.

Module Timers.

Inductive handler :=
  | tcpip_tcp_timer | ip_reass_timer | arp_timer | dhcp_timer_coarse | dhcp_timer_fine
  | autoip_timer | igmp_timer | dns_timer.
#[global] Instance handler_eq_dec : EqDecision handler.
Proof. solve_decision. Defined.

Definition TCP_TMR_INTERVAL : Z := 250.
Definition IP_TMR_INTERVAL : Z := 1000.
Definition ARP_TMR_INTERVAL : Z := 5000.
Definition DHCP_COARSE_TIMER_MSECS : Z := 60000.
Definition DHCP_FINE_TIMER_MSECS : Z := 500.
Definition AUTOIP_TMR_INTERVAL : Z := 100.
Definition IGMP_TMR_INTERVAL : Z := 100.
Definition DNS_TMR_INTERVAL : Z := 1000.

(** The rest of the stack, as far as the timers see it. *)
Class Stack (W : Type) := {
  tmr : handler -> W -> W;
  tcp_pcbs : W -> bool
}.

Record sys_timeo := mkTimeo { node : Z; time : Z; h : option handler; arg : Z }.
Definition with_time (t : sys_timeo) (x : Z) : sys_timeo := mkTimeo (node t) x (h t) (arg t).

Section timers.
Context {P : Type} `{Pool P} {W : Type} `{Stack W}.

Record timers := mkTimers {
  next_timeout : list sys_timeo;
  timeouts_last_time : Z;
  tcpip_tcp_timer_active : bool;
  pool : P
}.
Definition with_queue (st : timers) (q : list sys_timeo) : timers :=
  mkTimers q (timeouts_last_time st) (tcpip_tcp_timer_active st) (pool st).
Definition with_pool (st : timers) (p : P) : timers :=
  mkTimers (next_timeout st) (timeouts_last_time st) (tcpip_tcp_timer_active st) p.
Definition with_last (st : timers) (x : Z) : timers :=
  mkTimers (next_timeout st) x (tcpip_tcp_timer_active st) (pool st).
Definition with_active (st : timers) (b : bool) : timers :=
  mkTimers (next_timeout st) (timeouts_last_time st) b (pool st).

(** The loop of [sys_timeout] that looks for the place of [timeout]. *)
Fixpoint place (q : list sys_timeo) (timeout : sys_timeo) : list sys_timeo :=
  match q with
  | [] => []
  | t :: q =>
      let timeout := with_time timeout (u32 (time timeout - time t)) in
      match q with
      | [] => [t; timeout]
      | n :: q' =>
          if time timeout <? time n
          then t :: timeout :: with_time n (u32 (time n - time timeout)) :: q'
          else t :: place q timeout
      end
  end.

Definition insert_timeout (q : list sys_timeo) (timeout : sys_timeo) : list sys_timeo :=
  match q with
  | [] => [timeout]
  | n :: q' =>
      if time timeout <? time n
      then timeout :: with_time n (u32 (time n - time timeout)) :: q'
      else place q timeout
  end.

Definition sys_timeout (st : timers) (msecs : Z) (handler : option handler) (arg : Z) : timers :=
  match alloc (pool st) with
  | None => st
  | Some (a, p) =>
      with_queue (with_pool st p) (insert_timeout (next_timeout st) (mkTimeo a msecs handler arg))
  end.

(** The loop of [sys_untimeout]: the entry that is taken out, and the rest. *)
Fixpoint unlink (q : list sys_timeo) (hd : option handler) (a : Z) : option (sys_timeo * list sys_timeo) :=
  match q with
  | [] => None
  | t :: q =>
      if bool_decide (h t = hd) && (arg t =? a) then
        Some (t, match q with [] => [] | n :: q => with_time n (u32 (time n + time t)) :: q end)
      else '(x, q) ← unlink q hd a; Some (x, t :: q)
  end.

(** No result: the pool does not take the entry back. *)
Definition sys_untimeout (st : timers) (hd : option handler) (a : Z) : option timers :=
  match unlink (next_timeout st) hd a with
  | None => Some st
  | Some (t, q) => p ← release (pool st) (node t); Some (with_pool (with_queue st q) p)
  end.

Definition interval (hd : handler) : Z :=
  match hd with
  | tcpip_tcp_timer => TCP_TMR_INTERVAL
  | ip_reass_timer => IP_TMR_INTERVAL
  | arp_timer => ARP_TMR_INTERVAL
  | dhcp_timer_coarse => DHCP_COARSE_TIMER_MSECS
  | dhcp_timer_fine => DHCP_FINE_TIMER_MSECS
  | autoip_timer => AUTOIP_TMR_INTERVAL
  | igmp_timer => IGMP_TMR_INTERVAL
  | dns_timer => DNS_TMR_INTERVAL
  end.

(** The timer callbacks; the TCP timer runs only while it is needed. *)
Definition call (hd : handler) (st : timers) (w : W) : timers * W :=
  let w := tmr hd w in
  match hd with
  | tcpip_tcp_timer =>
      (if tcp_pcbs w then sys_timeout st (interval hd) (Some hd) 0 else with_active st false, w)
  | _ => (sys_timeout st (interval hd) (Some hd) 0, w)
  end.

Definition tcp_timer_needed (st : timers) (w : W) : timers :=
  if negb (tcpip_tcp_timer_active st) && tcp_pcbs w
  then sys_timeout (with_active st true) TCP_TMR_INTERVAL (Some tcpip_tcp_timer) 0 else st.

(** [now] is what [sys_now()] returns. *)
Definition sys_timeouts_init (st : timers) (now : Z) : timers :=
  let st := sys_timeout st IP_TMR_INTERVAL (Some ip_reass_timer) 0 in
  let st := sys_timeout st ARP_TMR_INTERVAL (Some arp_timer) 0 in
  let st := sys_timeout st DHCP_COARSE_TIMER_MSECS (Some dhcp_timer_coarse) 0 in
  let st := sys_timeout st DHCP_FINE_TIMER_MSECS (Some dhcp_timer_fine) 0 in
  let st := sys_timeout st IGMP_TMR_INTERVAL (Some igmp_timer) 0 in
  with_last st now.

Definition sys_restart_timeouts (st : timers) (now : Z) : timers := with_last st now.

(** The loop of [sys_check_timeouts]; the number is the time to wait. *)
Fixpoint check_loop (n : nat) (now diff : Z) (st : timers) (w : W) : option (Z * timers * W) :=
  match n with
  | O => None
  | S n =>
      match next_timeout st with
      | t :: q =>
          if time t <=? diff then
            let st := with_last st now in
            let diff := u32 (diff - time t) in
            let st := with_queue st q in
            p ← release (pool st) (node t);
            let st := with_pool st p in
            let '(st, w) := match h t with Some hd => call hd st w | None => (st, w) end in
            check_loop n now diff st w
          else Some (u32 (time t - diff), st, w)
      | [] => Some (10000, st, w)
      end
  end.

Definition sys_check_timeouts (n : nat) (now : Z) (st : timers) (w : W) : option (Z * timers * W) :=
  match next_timeout st with
  | [] => Some (10000, st, w)
  | _ => check_loop n now (u32 (now - timeouts_last_time st)) st w
  end.

(** ** Deadlines

    The list, seen from the time [b] at which its first entry starts to count. *)
Definition job : Type := option handler * Z.
Fixpoint deadlines (b : Z) (q : list sys_timeo) : list (Z * job) :=
  match q with
  | [] => []
  | t :: q => (b + time t, (h t, arg t)) :: deadlines (b + time t) q
  end.

(** Behind all entries that are due no later. *)
Fixpoint sorted_insert (d : Z * job) (l : list (Z * job)) : list (Z * job) :=
  match l with
  | [] => [d]
  | e :: l => if e.1 <=? d.1 then e :: sorted_insert d l else d :: e :: l
  end.

Fixpoint remove_first (j : job) (l : list (Z * job)) : list (Z * job) :=
  match l with
  | [] => []
  | e :: l => if bool_decide (e.2 = j) then l else e :: remove_first j l
  end.

Fixpoint total (q : list sys_timeo) : Z :=
  match q with [] => 0 | t :: q => time t + total q end.

Record wfq (q : list sys_timeo) : Prop := {
  wfq_times : Forall (fun t => 0 <= time t) q;
  wfq_total : total q < 4294967296
}.

Lemma wfq_cons t q : wfq (t :: q) <-> 0 <= time t /\ wfq q /\ time t + total q < 4294967296.
Proof.
  split.
  - intros [[H1 H2]%Forall_cons H3]. cbn [total] in H3. split_and!; [done|split; [done|lia]|done].
  - intros (H1 & [H2 H3] & H4). split; [by constructor|done].
Qed.

Lemma time_total_nonneg q : Forall (fun t => 0 <= time t) q -> 0 <= total q.
Proof. induction 1; cbn [total]; lia. Qed.

Lemma wfq_nonneg q : wfq q -> 0 <= total q < 4294967296.
Proof. intros [H1 H2]. apply time_total_nonneg in H1. lia. Qed.

Lemma place_cons t n q x :
  place (t :: n :: q) x =
  if u32 (time x - time t) <? time n
  then t :: with_time x (u32 (time x - time t)) ::
         with_time n (u32 (time n - u32 (time x - time t))) :: q
  else t :: place (n :: q) (with_time x (u32 (time x - time t))).
Proof. reflexivity. Qed.

Lemma place_spec q t x b :
  wfq (t :: q) -> time t <= time x < 4294967296 ->
  deadlines b (place (t :: q) x) = sorted_insert (b + time x, (h x, arg x)) (deadlines b (t :: q)) /\
  wfq (place (t :: q) x) /\ total (place (t :: q) x) = Z.max (total (t :: q)) (time x).
Proof.
  revert t x b. induction q as [|n q IH]; intros t x b Hw Hx; apply wfq_cons in Hw as (Ht & Hq & Htot).
  - cbn [place deadlines sorted_insert fst with_time time h arg total] in *.
    rewrite u32_small by zlia. replace (b + time t <=? b + time x) with true by lia.
    split_and!; [by replace (b + time t + (time x - time t)) with (b + time x) by lia| |lia].
    apply wfq_cons. cbn [total with_time time]. split_and!; [lia| |lia]. apply wfq_cons. cbn [total with_time time].
    split_and!; [lia|by split|lia].
  - rewrite place_cons, (u32_small (time x - time t)) by zlia.
    pose proof (wfq_nonneg _ Hq) as Hn. pose proof Hq as Hq'. apply wfq_cons in Hq' as (Hn0 & Hq' & Hnt).
    pose proof (wfq_nonneg _ Hq') as Hn'.
    destruct (Z.ltb_spec (time x - time t) (time n)) as [Hlt|Hge].
    + cbn [deadlines sorted_insert fst time h arg with_time total] in *. rewrite u32_small by zlia.
      replace (b + time t <=? b + time x) with true by lia.
      replace (b + time t + time n <=? b + time x) with false by lia.
      split_and!.
      * replace (b + time t + (time x - time t)) with (b + time x) by lia.
        replace (b + time x + (time n - (time x - time t))) with (b + time t + time n) by lia. done.
      * repeat (apply wfq_cons; cbn [total with_time time]; split_and!; try lia). done.
      * lia.
    + destruct (IH n (with_time x (time x - time t)) (b + time t) Hq) as (IH1 & IH2 & IH3).
      { cbn [with_time time]. lia. }
      change (time (with_time x (time x - time t))) with (time x - time t) in *.
      split_and!.
      * change (deadlines b (t :: ?l)) with ((b + time t, (h t, arg t)) :: deadlines (b + time t) l).
        rewrite IH1. cbn [sorted_insert fst with_time h arg]. replace (b + time t <=? b + time x) with true by lia.
        replace (b + time t + (time x - time t)) with (b + time x) by lia. done.
      * apply wfq_cons. rewrite IH3. cbn [total] in *. split_and!; [lia|done|lia].
      * change (total (t :: ?l)) with (time t + total l). rewrite IH3. cbn [total] in *. lia.
Qed.

Lemma insert_spec q x b :
  wfq q -> in_u32 (time x) ->
  deadlines b (insert_timeout q x) = sorted_insert (b + time x, (h x, arg x)) (deadlines b q) /\
  wfq (insert_timeout q x) /\ total (insert_timeout q x) = Z.max (total q) (time x).
Proof.
  intros Hw Hx. destruct q as [|n q].
  - cbn. split; [done|]. split; [|zlia]. split; [|cbn [total]; zlia].
    constructor; [zlia|constructor].
  - cbn [insert_timeout]. destruct (Z.ltb_spec (time x) (time n)) as [Hlt|Hge].
    + apply wfq_cons in Hw as (Hn0 & Hq & Hnt). pose proof (wfq_nonneg _ Hq).
      cbn [deadlines sorted_insert fst with_time time h arg total].
      rewrite u32_small by zlia. replace (b + time n <=? b + time x) with false by lia.
      split_and!; [|repeat (apply wfq_cons; cbn [total with_time time]; split_and!; try zlia); done|zlia].
      replace (b + time x + (time n - time x)) with (b + time n) by lia. done.
    + apply place_spec; [done|zlia].
Qed.

Lemma unlink_spec q hd a b :
  wfq q ->
  match unlink q hd a with
  | None => remove_first (hd, a) (deadlines b q) = deadlines b q
  | Some (t, q') => h t = hd /\ arg t = a /\ wfq q' /\ total q' <= total q /\
      deadlines b q' = remove_first (hd, a) (deadlines b q) /\
      (node <$> q) ≡ₚ node t :: (node <$> q')
  end.
Proof.
  revert b. induction q as [|t q IH]; intros b Hw; [done|]. cbn [unlink deadlines remove_first snd].
  apply wfq_cons in Hw as (Ht & Hq & Htot).
  destruct (bool_decide (h t = hd) && (arg t =? a)) eqn:E.
  - apply andb_true_iff in E as [E1%bool_decide_eq_true E2%Z.eqb_eq].
    rewrite bool_decide_eq_true_2 by congruence. split; [done|]. split; [done|].
    destruct q as [|n q]; [cbn in *; split_and!; auto; lia|].
    apply wfq_cons in Hq as (Hn & Hq & Hnt). pose proof (wfq_nonneg _ Hq). cbn [total] in *.
    rewrite u32_small by zlia. split_and!.
    + apply wfq_cons. cbn [with_time time total]. split_and!; [lia|done|lia].
    + cbn [with_time time]. lia.
    + cbn [deadlines with_time time h arg]. by replace (b + (time n + time t)) with (b + time t + time n) by lia.
    + done.
  - rewrite bool_decide_eq_false_2.
    2:{ intros [= E1 E2]. rewrite bool_decide_eq_true_2, E2, Z.eqb_refl in E by done. done. }
    specialize (IH (b + time t) Hq). destruct (unlink q hd a) as [[x q']|]; cbn [mbind option_bind].
    + destruct IH as (H1 & H2 & H3 & H4 & H5 & H6). pose proof (wfq_nonneg _ H3). split_and!; auto.
      * apply wfq_cons. split_and!; [lia|done|lia].
      * cbn [total]. lia.
      * cbn [deadlines]. by rewrite H5.
      * cbn [fmap list_fmap]. rewrite H6. apply perm_swap.
    + by rewrite IH.
Qed.

Record inv (st : timers) : Prop := {
  inv_queue : wfq (next_timeout st);
  inv_pool : holds (pool st) (node <$> next_timeout st)
}.

Lemma place_nodes q t x : node <$> place (t :: q) x ≡ₚ node x :: (node <$> (t :: q)).
Proof.
  revert t x. induction q as [|n q IH]; intros t x; [cbn; apply perm_swap|].
  rewrite place_cons. case_match; cbn [fmap list_fmap with_time node]; [apply perm_swap|].
  rewrite IH. cbn [fmap list_fmap with_time node]. apply perm_swap.
Qed.

Lemma insert_nodes q x : node <$> insert_timeout q x ≡ₚ node x :: (node <$> q).
Proof.
  destruct q as [|n q]; [done|]. cbn [insert_timeout]. case_match; [done|apply place_nodes].
Qed.

Lemma sys_timeout_spec st msecs hd a b :
  inv st -> in_u32 msecs ->
  inv (sys_timeout st msecs hd a) /\
  deadlines b (next_timeout (sys_timeout st msecs hd a)) =
    (if (length (next_timeout st) <? capacity P)%nat
     then sorted_insert (b + msecs, (hd, a)) (deadlines b (next_timeout st))
     else deadlines b (next_timeout st)) /\
  timeouts_last_time (sys_timeout st msecs hd a) = timeouts_last_time st /\
  tcpip_tcp_timer_active (sys_timeout st msecs hd a) = tcpip_tcp_timer_active st.
Proof.
  intros [Hq Hp] Hm. unfold sys_timeout. pose proof (alloc_new _ _ Hp) as Ha.
  destruct (alloc (pool st)) as [[n p']|].
  - destruct Ha as [_ Ha]. pose proof (holds_bound _ _ Ha) as Hb. cbn [length] in Hb.
    rewrite length_fmap in Hb.
    destruct (insert_spec (next_timeout st) (mkTimeo n msecs hd a) b Hq Hm) as (H1 & H2 & _).
    cbn [with_queue with_pool next_timeout pool timeouts_last_time tcpip_tcp_timer_active].
    replace (length (next_timeout st) <? capacity P)%nat with true by (symmetry; apply Nat.ltb_lt; lia).
    split_and!; try done. split; [done|].
    cbn [with_queue with_pool next_timeout pool]. apply (holds_perm _ _ _ (symmetry (insert_nodes _ _)) Ha).
  - rewrite length_fmap in Ha.
    replace (length (next_timeout st) <? capacity P)%nat with false by (symmetry; apply Nat.ltb_ge; lia).
    done.
Qed.

(** ** The scheduler that [sys_check_timeouts] implements

    It works on absolute deadlines, counted from the last check; [T] is the
    present.  A timer that is started again is due one interval after it was
    due, not after it was served. *)
Definition run_one (d : Z) (j : job) (l : list (Z * job)) (w : W) (act : bool) : list (Z * job) * W * bool :=
  match j.1 with
  | None => (l, w, act)
  | Some hd =>
      let w := tmr hd w in
      if bool_decide (hd = tcpip_tcp_timer) && negb (tcp_pcbs w) then (l, w, false)
      else (sorted_insert (d + interval hd, (Some hd, 0)) l, w, act)
  end.

Fixpoint run_due (n : nat) (T : Z) (l : list (Z * job)) (w : W) (act : bool) :
    option (list (Z * job) * W * bool) :=
  match n with
  | O => None
  | S n =>
      match l with
      | (d, j) :: l' =>
          if d <=? T then let '(l', w, act) := run_one d j l' w act in run_due n T l' w act
          else Some (l, w, act)
      | [] => Some (l, w, act)
      end
  end.

(** How often timers fire until [T]. *)
Fixpoint firings (T : Z) (l : list (Z * job)) : Z :=
  match l with
  | [] => 0
  | e :: l => (if e.1 <=? T then (T - e.1) / 100 + 1 else 0) + firings T l
  end.

Lemma firings_nonneg T l : 0 <= firings T l.
Proof.
  induction l as [|e l IH]; cbn [firings]; [done|]. destruct (Z.leb_spec e.1 T); [|lia].
  pose proof (Z.div_pos (T - e.1) 100). lia.
Qed.

Lemma firings_insert T d l : firings T (sorted_insert d l) = firings T (d :: l).
Proof.
  induction l as [|e l IH]; [done|]. cbn [sorted_insert]. destruct (e.1 <=? d.1); [|done].
  cbn [firings] in *. rewrite IH. lia.
Qed.

Lemma run_one_firings T d j l w act :
  d <= T -> firings T (run_one d j l w act).1.1 < firings T ((d, j) :: l).
Proof.
  intros Hd. cbn [firings fst]. replace (d <=? T) with true by lia.
  pose proof (Z.div_pos (T - d) 100). unfold run_one.
  destruct (j.1) as [hd|]; [|cbn [fst]; lia].
  destruct (_ && _); [cbn [fst]; lia|]. cbn [fst]. rewrite firings_insert. cbn [firings fst].
  assert (100 <= interval hd) by (by destruct hd).
  destruct (Z.leb_spec (d + interval hd) T); [|lia].
  zlia.
Qed.

Lemma run_due_total T l w act n :
  firings T l < Z.of_nat n -> exists r, run_due n T l w act = Some r.
Proof.
  revert l w act. induction n as [|n IH]; intros l w act Hn.
  { pose proof (firings_nonneg T l). lia. }
  cbn [run_due]. destruct l as [|[d j] l]; [eauto|].
  destruct (Z.leb_spec d T) as [Hd|Hd]; [|eauto].
  pose proof (run_one_firings T d j l w act Hd) as Hf.
  destruct (run_one d j l w act) as [[l' w'] act']. cbn [fst] in Hf. apply IH. lia.
Qed.

Lemma deadlines_ge b q : Forall (fun t => 0 <= time t) q -> Forall (fun e => b <= e.1) (deadlines b q).
Proof.
  intros Hq. revert b. induction Hq as [|t q Ht Hq IH]; intros b; cbn [deadlines]; constructor.
  - cbn [fst]. lia.
  - eapply Forall_impl; [apply IH|]. intros e He. cbn in *. lia.
Qed.

(** One firing: the entry that is taken off the list and served. *)
Lemma fire_spec st t q w b p :
  inv st -> next_timeout st = t :: q -> release (pool st) (node t) = Some p ->
  holds p (node <$> q) ->
  let st1 := with_pool (with_queue st q) p in
  let '(st2, w2) := match h t with Some hd => call hd st1 w | None => (st1, w) end in
  inv st2 /\
  run_one (b + time t) (h t, arg t) (deadlines (b + time t) q) w (tcpip_tcp_timer_active st)
    = (deadlines (b + time t) (next_timeout st2), w2, tcpip_tcp_timer_active st2) /\
  timeouts_last_time st2 = timeouts_last_time st.
Proof.
  intros [Hq Hp] Hst Hr Hh. cbn [with_pool with_queue].
  set (st1 := with_pool (with_queue st q) p). unfold run_one. cbn [fst].
  assert (Hi1 : inv st1).
  { split; [|exact Hh]. rewrite Hst in Hq. by apply wfq_cons in Hq as (_ & Hq & _). }
  destruct (h t) as [hd|]; [|done]. unfold call.
  assert (Hlen : (length q <? capacity P)%nat = true).
  { apply Nat.ltb_lt. apply holds_bound in Hp. rewrite Hst in Hp. cbn [fmap list_fmap length] in Hp.
    rewrite length_fmap in Hp. lia. }
  assert (Hint : in_u32 (interval hd)) by (by destruct hd).
  destruct (sys_timeout_spec st1 (interval hd) (Some hd) 0 (b + time t) Hi1 Hint) as (H1 & H2 & H3 & H4).
  change (next_timeout st1) with q in H2. rewrite Hlen in H2.
  destruct hd; cbn [bool_decide decide decide_rel handler_eq_dec andb] in *;
    try (rewrite bool_decide_eq_false_2 by done; cbn [andb]; rewrite H2, H3, H4; done).
  rewrite bool_decide_eq_true_2 by done. cbn [andb]. destruct (tcp_pcbs _); cbn [negb].
  - rewrite H2, H3, H4. done.
  - split_and!; [destruct Hi1; by split|done|done].
Qed.

Lemma check_loop_spec n now T st w b :
  inv st -> in_u32 T -> 0 <= b <= T ->
  match check_loop n now (T - b) st w,
        run_due n T (deadlines b (next_timeout st)) w (tcpip_tcp_timer_active st) with
  | Some (r, st', w'), Some (l, w'', act) =>
      inv st' /\ w'' = w' /\ act = tcpip_tcp_timer_active st' /\
      (exists b', 0 <= b' <= T /\ l = deadlines b' (next_timeout st')) /\
      r = match l with [] => 10000 | e :: _ => u32 (e.1 - T) end /\
      (timeouts_last_time st' = timeouts_last_time st \/ timeouts_last_time st' = now) /\
      Forall (fun e => T < e.1) l
  | None, None => True
  | _, _ => False
  end.
Proof.
  revert st w b. induction n as [|n IH]; intros st w b Hi HT Hb; [done|].
  cbn [check_loop run_due]. destruct (next_timeout st) as [|t q] eqn:Eq; cbn [deadlines].
  { split_and!; auto. exists b. rewrite Eq. split; [lia|done]. }
  pose proof (inv_queue _ Hi) as Hq. rewrite Eq in Hq. apply wfq_cons in Hq as (Ht & Hq & Htot).
  destruct (Z.leb_spec (time t) (T - b)) as [Hd|Hd].
  - replace (b + time t <=? T) with true by lia.
    pose proof (inv_pool _ Hi) as Hp. rewrite Eq in Hp. cbn [fmap list_fmap] in Hp.
    destruct (release_ok (pool st) [] (node t) (node <$> q) Hp) as (p & Hr & Hh). cbn [app] in Hh.
    cbn [with_last with_queue pool]. rewrite Hr. cbn [mbind option_bind].
    set (st0 := with_last st now).
    assert (Hi0 : inv st0) by (destruct Hi; by split).
    pose proof (fire_spec st0 t q w b p Hi0 Eq Hr Hh) as Hf. cbn zeta in Hf.
    change (tcpip_tcp_timer_active st0) with (tcpip_tcp_timer_active st) in Hf.
    change (mkTimers q now (tcpip_tcp_timer_active st) p) with (with_pool (with_queue st0 q) p).
    change (with_pool (mkTimers q now (tcpip_tcp_timer_active st) (pool st)) p)
      with (with_pool (with_queue st0 q) p).
    destruct (match h t with Some hd => call hd (with_pool (with_queue st0 q) p) w | None => _ end) as [st2 w2].
    destruct Hf as (Hi2 & -> & Hlast).
    rewrite u32_small by zlia. replace (T - b - time t) with (T - (b + time t)) by lia.
    specialize (IH st2 w2 (b + time t) Hi2 HT ltac:(lia)).
    destruct (check_loop n now (T - (b + time t)) st2 w2) as [[[r st'] w']|],
      (run_due n T _ w2 _) as [[[l w''] act]|]; try done.
    destruct IH as (G1 & G2 & G3 & G4 & G5 & G6 & G7). split_and!; auto.
    rewrite Hlast in G6. destruct G6; auto.
  - replace (b + time t <=? T) with false by lia. split_and!; auto.
    + exists b. rewrite Eq. split; [lia|done].
    + cbn [fst]. f_equal. lia.
    + constructor; [cbn [fst]; lia|]. eapply Forall_impl; [apply (deadlines_ge (b + time t))|].
      * by destruct Hq.
      * intros e He. cbn in *. lia.
Qed.

(** seen as absolute deadlines, [sys_timeout] inserts the new timeout
    behind all those due no later and moves no other, unless the pool of
    timeouts is exhausted, in which case nothing changes; [sys_untimeout]
    removes the first timeout of that handler and argument and moves no other. *)
Theorem timeouts_keep_deadlines st msecs hd a b :
  inv st -> in_u32 msecs ->
  (inv (sys_timeout st msecs hd a) /\
   deadlines b (next_timeout (sys_timeout st msecs hd a)) =
     (if (length (next_timeout st) <? capacity P)%nat
      then sorted_insert (b + msecs, (hd, a)) (deadlines b (next_timeout st))
      else deadlines b (next_timeout st))) /\
  exists st', sys_untimeout st hd a = Some st' /\ inv st' /\
    deadlines b (next_timeout st') = remove_first (hd, a) (deadlines b (next_timeout st)).
Proof.
  intros Hi Hm. destruct (sys_timeout_spec st msecs hd a b Hi Hm) as (H1 & H2 & _).
  split; [done|]. unfold sys_untimeout. destruct Hi as [Hq Hp].
  pose proof (unlink_spec (next_timeout st) hd a b Hq) as Hu.
  destruct (unlink (next_timeout st) hd a) as [[t q]|].
  - destruct Hu as (_ & _ & Hq' & _ & Hd & Hn). apply (holds_perm _ _ _ Hn) in Hp.
    destruct (release_ok _ [] _ _ Hp) as (p & Hr & Hh). rewrite Hr. cbn [mbind option_bind].
    eexists. split; [done|]. cbn [with_pool with_queue next_timeout]. split; [|done]. by split.
  - exists st. split; [done|]. split; [by split|]. by rewrite Hu.
Qed.

(** C30: [sys_check_timeouts] terminates (it fires at most [firings] timers)
    and serves exactly the timers that are due, in the order of their
    deadlines, each periodic timer being started again one interval after its
    deadline: it computes what [run_due] computes.  The remaining timers are
    all due later, and the result is the time until the first of them. *)
Theorem check_timeouts_refines n now st w :
  inv st ->
  let T := u32 (now - timeouts_last_time st) in
  firings T (deadlines 0 (next_timeout st)) < Z.of_nat n ->
  exists r st' w' l b',
    sys_check_timeouts n now st w = Some (r, st', w') /\
    run_due n T (deadlines 0 (next_timeout st)) w (tcpip_tcp_timer_active st)
      = Some (l, w', tcpip_tcp_timer_active st') /\
    inv st' /\ 0 <= b' <= T /\ l = deadlines b' (next_timeout st') /\
    Forall (fun e => T < e.1) l /\
    r = match l with [] => 10000 | e :: _ => u32 (e.1 - T) end.
Proof.
  intros Hi T Hn.
  assert (HT : in_u32 T) by apply u32_range.
  destruct (run_due_total T _ w (tcpip_tcp_timer_active st) n Hn) as [[[l w'] act] Hrun].
  pose proof (check_loop_spec n now T st w 0 Hi HT ltac:(zlia)) as Hc. rewrite Z.sub_0_r in Hc.
  rewrite Hrun in Hc. destruct (check_loop n now T st w) as [[[r st'] w'']|] eqn:E; [|done].
  destruct Hc as (G1 & -> & -> & (b' & Hb & ->) & G5 & _ & G7).
  unfold sys_check_timeouts. destruct (next_timeout st) as [|t q] eqn:Eq.
  - destruct n as [|n]; [done|]. cbn [deadlines run_due] in Hrun. cbn [check_loop] in E. rewrite Eq in E.
    injection E as <- <- <-. exists 10000, st, w, [], 0. rewrite Eq in *. split_and!; auto; zlia.
  - exists r, st', w'', (deadlines b' (next_timeout st')), b'. split_and!; auto; lia.
Qed.

End timers.
Arguments timers : clear implicits.

(** ** An instance

    The pool of ten timeouts, and a stack that records the calls. *)
Definition timeo_pool : Pool Memp.memp :=
  Memp.memp_pool [(10%nat, 16)] 4096 0 ltac:(lia) ltac:(repeat constructor) ltac:(cbn; lia).
#[local] Existing Instance timeo_pool.
#[local] Instance call_log : Stack (list handler) := {|
  tmr hd w := w ++ [hd];
  tcp_pcbs _ := false
|}.
Definition no_timers : timers Memp.memp :=
  mkTimers [] 0 false (Memp.memp_init [(10%nat, 16)] 4096).
Definition started : timers Memp.memp := sys_timeouts_init no_timers 0.

Lemma inv_no_timers : inv no_timers.
Proof.
  split; [by split|]. exists [[]]. split; [|done].
  apply (Memp.memp_init_inv [(10%nat, 16)] 4096); [lia|repeat constructor].
Qed.

Lemma inv_started : inv started.
Proof.
  unfold started, sys_timeouts_init.
  assert (Hlast : forall st x, inv st -> inv (with_last (P := Memp.memp) st x)) by (intros st x [??]; by split).
  apply Hlast.
  assert (Hset : forall st x hd, inv st -> in_u32 x -> inv (sys_timeout (P := Memp.memp) st x hd 0)).
  { intros st x hd Hi Hx. apply (sys_timeout_spec st x hd 0 0 Hi Hx). }
  repeat (apply Hset; [|done]). exact inv_no_timers.
Qed.

Lemma timeouts_keep_deadlines_witness :
  deadlines 0 (next_timeout (sys_timeout started 300 (Some dns_timer) 7)) =
    [(100, (Some igmp_timer, 0)); (300, (Some dns_timer, 7)); (500, (Some dhcp_timer_fine, 0));
     (1000, (Some ip_reass_timer, 0)); (5000, (Some arp_timer, 0)); (60000, (Some dhcp_timer_coarse, 0))].
Proof.
  destruct (timeouts_keep_deadlines started 300 (Some dns_timer) 7 0 inv_started ltac:(done)) as [[_ ->] _].
  vm_compute. reflexivity.
Defined.

Lemma check_timeouts_refines_witness :
  exists st', sys_check_timeouts 20 520 started [] =
    Some (80, st', [igmp_timer; igmp_timer; igmp_timer; igmp_timer; dhcp_timer_fine; igmp_timer]) /\ inv st'.
Proof.
  destruct (check_timeouts_refines 20 520 started [] inv_started) as (r & st' & w' & l & b' & H1 & H2 & H3 & _);
    [vm_compute; reflexivity|].
  exists st'. split; [|exact H3]. rewrite H1. vm_compute in H1. injection H1 as <- _ <-. reflexivity.
Defined.

(** The wait that [sys_check_timeouts] reports is not the wait that it
    implements: it forgets the time by which the last timer was served late.
    Served at 150 instead of 100, the IGMP timer is announced for 200 (a wait
    of 50), but a call at 200 fires nothing; it fires at 250. *)
Lemma check_timeouts_drifts :
  (x ← sys_check_timeouts 20 150 started [];
   y ← sys_check_timeouts 20 200 x.1.2 [];
   z ← sys_check_timeouts 20 250 y.1.2 [];
   Some ((x.1.1, x.2), (y.1.1, y.2), (z.1.1, z.2)))
  = Some ((50, [igmp_timer]), (50, []), (100, [igmp_timer])).
Proof. vm_compute. reflexivity. Qed.

End Timers.
