(* ===== verification/Etharp.v ===== *)
(** * Address resolution (ip/lwip/netif/etharp.c)

    The ARP table with its entries, queued packets and ages, and the Ethernet
    frames that ARP sends and receives.  Frames are lists of bytes, IP
    addresses 32-bit values whose first network byte is the low one (as in
    memory).  The environment is universally quantified: [pbuf_alloc_ok n]
    tells whether the [n]-th buffer allocation succeeds, [linkoutput_err n]
    the result of the [n]-th transmission.  Calls into other components, and
    the buffers that are taken and given back, are recorded as events.  The
    configuration: ten entries, one queued packet per entry, no static entries,
    no VLAN, no AutoIP, DHCP with ARP check. *)

From S2P Require Import Prelude IpAddr.

#[local] Open Scope Z_scope.

Module Etharp.
Import IpAddr.

Definition ERR_OK : Z := 0.
Definition ERR_MEM : Z := -1.
Definition ERR_BUF : Z := -2.
Definition ERR_RTE : Z := -4.
Definition ERR_ARG : Z := -14.

Definition ARP_TABLE_SIZE : Z := 10.
Definition ARP_MAXAGE : Z := 240.
Definition ARP_AGE_REREQUEST_USED : Z := ARP_MAXAGE - 12.
Definition ARP_MAXPENDING : Z := 2.
Definition ETHARP_FLAG_TRY_HARD : Z := 1.
Definition ETHARP_FLAG_FIND_ONLY : Z := 2.
Definition SIZEOF_ETH_HDR : Z := 14.
Definition SIZEOF_ETHARP_PACKET : Z := SIZEOF_ETH_HDR + 28.
Definition ethbroadcast : list Z := [255; 255; 255; 255; 255; 255].
Definition ethzero : list Z := [0; 0; 0; 0; 0; 0].
Definition ARP_REQUEST : Z := 1.
Definition ARP_REPLY : Z := 2.
Definition NETIF_FLAG_ETHARP : Z := 0x20.

Inductive etharp_state :=
  | ETHARP_STATE_EMPTY | ETHARP_STATE_PENDING | ETHARP_STATE_STABLE | ETHARP_STATE_STABLE_REREQUESTING.
#[global] Instance etharp_state_eq_dec : EqDecision etharp_state.
Proof. solve_decision. Defined.

(** A buffer chain: its parts, each in ROM or not, with an identity. *)
Record pbuf := mkPbuf { pid : nat; segs : list (bool * list Z) }.
Definition frame (p : pbuf) : list Z := mjoin (snd <$> segs p).
Definition tot_len (s : list (bool * list Z)) : Z := Z.of_nat (length (mjoin (snd <$> s))).

Record etharp_entry := mkEntry {
  q : option pbuf;
  ipaddr : Z;
  enetif : Z;
  ethaddr : list Z;
  state : etharp_state;
  ctime : Z
}.

Record netif := mkNetif {
  netif_id : Z; hwaddr : list Z; ip_addr : Z; netmask : Z; gw : Z; flags : Z
}.

Inductive event :=
  | Transmit (id : Z) (f : list Z)   (** [netif->linkoutput] *)
  | Take (id : nat)                 (** a reference to a buffer is taken *)
  | Free (id : nat)                 (** [pbuf_free] *)
  | DhcpArpReply (id : Z) (addr : Z)
  | IpInput (id : Z) (llflags : Z) (d : list Z).

Record arp := mkArp {
  arp_table : list etharp_entry;
  etharp_cached_entry : Z;
  events : list event;
  allocs : nat;    (** allocations so far; also the next buffer identity *)
  sends : nat
}.

Definition with_table (st : arp) (t : list etharp_entry) : arp :=
  mkArp t (etharp_cached_entry st) (events st) (allocs st) (sends st).
Definition with_hint (st : arp) (i : Z) : arp :=
  mkArp (arp_table st) i (events st) (allocs st) (sends st).
Definition emit_ev (st : arp) (e : event) : arp :=
  mkArp (arp_table st) (etharp_cached_entry st) (events st ++ [e]) (allocs st) (sends st).

Definition set_state (e : etharp_entry) (s : etharp_state) : etharp_entry :=
  mkEntry (q e) (ipaddr e) (enetif e) (ethaddr e) s (ctime e).
Definition set_q (e : etharp_entry) (p : option pbuf) : etharp_entry :=
  mkEntry p (ipaddr e) (enetif e) (ethaddr e) (state e) (ctime e).
Definition set_ctime (e : etharp_entry) (t : Z) : etharp_entry :=
  mkEntry (q e) (ipaddr e) (enetif e) (ethaddr e) (state e) t.
Definition set_ipaddr (e : etharp_entry) (a : Z) : etharp_entry :=
  mkEntry (q e) a (enetif e) (ethaddr e) (state e) (ctime e).

(** [state >= ETHARP_STATE_STABLE] *)
Definition stable (s : etharp_state) : bool :=
  match s with ETHARP_STATE_STABLE | ETHARP_STATE_STABLE_REREQUESTING => true | _ => false end.
Definition is_empty (s : etharp_state) : bool :=
  match s with ETHARP_STATE_EMPTY => true | _ => false end.
Definition is_pending (s : etharp_state) : bool :=
  match s with ETHARP_STATE_PENDING => true | _ => false end.

Definition etharp_empty : etharp_entry := mkEntry None 0 0 ethzero ETHARP_STATE_EMPTY 0.
Definition arp_start : arp := mkArp (replicate 10 etharp_empty) 0 [] 0 0.

(** ** Bytes of frames *)
Definition sub (l : list Z) (off n : nat) : list Z := take n (drop off l).
Definition patch (l : list Z) (off : nat) (d : list Z) : list Z :=
  take off l ++ d ++ drop (off + length d) l.

(** Offsets in an ARP packet: Ethernet header, then the ARP message. *)
Definition OFF_DEST : nat := 0.
Definition OFF_SRC : nat := 6.
Definition OFF_TYPE : nat := 12.
Definition OFF_HWTYPE : nat := 14.
Definition OFF_PROTO : nat := 16.
Definition OFF_HWLEN : nat := 18.
Definition OFF_PROTOLEN : nat := 19.
Definition OFF_OPCODE : nat := 20.
Definition OFF_SHWADDR : nat := 22.
Definition OFF_SIPADDR : nat := 28.
Definition OFF_DHWADDR : nat := 32.
Definition OFF_DIPADDR : nat := 38.

(** [PP_HTONS] of a constant, as the two bytes in memory. *)
Definition be16 (x : Z) : list Z := [u8 (Z.shiftr x 8); u8 x].
Definition ETHTYPE_ARP : list Z := be16 0x0806.
Definition ETHTYPE_IP : list Z := be16 0x0800.

Section environment.
Variable pbuf_alloc_ok : nat -> bool.
Variable linkoutput_err : nat -> Z.

(** [netif->linkoutput] *)
Definition linkoutput (st : arp) (nif : netif) (f : list Z) : Z * arp :=
  (linkoutput_err (sends st),
   mkArp (arp_table st) (etharp_cached_entry st) (events st ++ [Transmit (netif_id nif) f])
         (allocs st) (S (sends st))).

(** [pbuf_alloc(PBUF_RAW, n, PBUF_RAM)]: the identity of the new buffer. *)
Definition pbuf_alloc (st : arp) : option nat * arp :=
  let st' := mkArp (arp_table st) (etharp_cached_entry st) (events st) (S (allocs st)) (sends st) in
  if pbuf_alloc_ok (allocs st) then (Some (allocs st), emit_ev st' (Take (allocs st))) else (None, st').

Definition pbuf_free (st : arp) (p : pbuf) : arp := emit_ev st (Free (pid p)).

(** ** The table *)

Definition etharp_free_entry (st : arp) (i : Z) : option arp :=
  e ← rd (arp_table st) i;
  let st := match q e with Some p => pbuf_free st p | None => st end in
  t ← wr (arp_table st) i (set_state (set_q e None) ETHARP_STATE_EMPTY);
  Some (with_table st t).

(** The body of the loop of [etharp_tmr] for entry [i]. *)
Definition tmr_entry (st : arp) (i : Z) : option arp :=
  e ← rd (arp_table st) i;
  if is_empty (state e) then Some st else
  let e := set_ctime e (u8 (ctime e + 1)) in
  t ← wr (arp_table st) i e;
  let st := with_table st t in
  if (ARP_MAXAGE <=? ctime e) || (is_pending (state e) && (ARP_MAXPENDING <=? ctime e))
  then etharp_free_entry st i
  else match state e with
       | ETHARP_STATE_STABLE_REREQUESTING =>
           t ← wr (arp_table st) i (set_state e ETHARP_STATE_STABLE); Some (with_table st t)
       | _ => Some st
       end.
Fixpoint tmr_loop (n : nat) (i : Z) (st : arp) : option arp :=
  match n with
  | O => Some st
  | S n => st ← tmr_entry st i; tmr_loop n (i + 1) st
  end.
Definition etharp_tmr (st : arp) : option arp := tmr_loop (Z.to_nat ARP_TABLE_SIZE) 0 st.

(** The candidates that [etharp_find_entry] remembers. *)
Record cands := mkCands {
  empty : Z;
  old_stable : Z; age_stable : Z;
  old_pending : Z; age_pending : Z;
  old_queue : Z; age_queue : Z
}.
Definition no_cands : cands :=
  mkCands ARP_TABLE_SIZE ARP_TABLE_SIZE 0 ARP_TABLE_SIZE 0 ARP_TABLE_SIZE 0.

(** An entry that is not the one that is looked for. *)
Definition remember (c : cands) (i : Z) (e : etharp_entry) : cands :=
  if is_pending (state e) then
    match q e with
    | Some _ =>
        if age_queue c <=? ctime e
        then mkCands (empty c) (old_stable c) (age_stable c) (old_pending c) (age_pending c) i (ctime e) else c
    | None =>
        if age_pending c <=? ctime e
        then mkCands (empty c) (old_stable c) (age_stable c) i (ctime e) (old_queue c) (age_queue c) else c
    end
  else if stable (state e) then
    if age_stable c <=? ctime e
    then mkCands (empty c) i (ctime e) (old_pending c) (age_pending c) (old_queue c) (age_queue c) else c
  else c.

(** The search sweep: the matching entry, or the candidates. *)
Fixpoint sweep (t : list etharp_entry) (i : Z) (addr : option Z) (c : cands) : Z + cands :=
  match t with
  | [] => inr c
  | e :: t =>
      if (empty c =? ARP_TABLE_SIZE) && is_empty (state e) then
        sweep t (i + 1) addr
          (mkCands i (old_stable c) (age_stable c) (old_pending c) (age_pending c) (old_queue c) (age_queue c))
      else if negb (is_empty (state e)) then
        if match addr with Some a => a =? ipaddr e | None => false end then inl i
        else sweep t (i + 1) addr (remember c i e)
      else sweep t (i + 1) addr c
  end.

(** The entry that is recycled when none is empty. *)
Definition recycle (c : cands) : option Z :=
  if old_stable c <? ARP_TABLE_SIZE then Some (old_stable c)
  else if old_pending c <? ARP_TABLE_SIZE then Some (old_pending c)
  else if old_queue c <? ARP_TABLE_SIZE then Some (old_queue c)
  else None.

Definition etharp_find_entry (st : arp) (addr : option Z) (fl : Z) : option (Z * arp) :=
  match sweep (arp_table st) 0 addr no_cands with
  | inl i => Some (i, st)
  | inr c =>
      if negb (Z.land fl ETHARP_FLAG_FIND_ONLY =? 0) ||
         ((empty c =? ARP_TABLE_SIZE) && (Z.land fl ETHARP_FLAG_TRY_HARD =? 0))
      then Some (ERR_MEM, st)
      else
        let create (st : arp) (i : Z) :=
          e ← rd (arp_table st) i;
          let e := match addr with Some a => set_ipaddr e a | None => e end in
          t ← wr (arp_table st) i (set_ctime e 0);
          Some (i, with_table st t) in
        if empty c <? ARP_TABLE_SIZE then create st (empty c)
        else match recycle c with
             | None => Some (ERR_MEM, st)
             | Some i => st ← etharp_free_entry st i; create st i
             end
  end.

(** ** Sending *)

Definition etharp_send_ip (st : arp) (nif : netif) (f : list Z) (src dst : list Z) : Z * arp :=
  let f := patch f OFF_DEST (take 6 dst) in
  let f := patch f OFF_SRC (take 6 src) in
  let f := patch f OFF_TYPE ETHTYPE_IP in
  linkoutput st nif f.

Definition non_unicast (nif : netif) (a : Z) : bool :=
  ip_addr_isany a || ip4_addr_isbroadcast a (flags nif) (ip_addr nif) (netmask nif) || ip_addr_ismulticast a.

Definition etharp_update_arp_entry (st : arp) (nif : netif) (addr : Z) (mac : list Z) (fl : Z) : option (Z * arp) :=
  if non_unicast nif addr then Some (ERR_ARG, st) else
  '(i, st) ← etharp_find_entry st (Some addr) fl;
  if i <? 0 then Some (i, st) else
  e ← rd (arp_table st) i;
  let e' := mkEntry None (ipaddr e) (netif_id nif) (take 6 mac) ETHARP_STATE_STABLE 0 in
  t ← wr (arp_table st) i e';
  let st := with_table st t in
  match q e with
  | Some p =>
      let '(_, st) := etharp_send_ip st nif (frame p) (hwaddr nif) mac in
      Some (ERR_OK, pbuf_free st p)
  | None => Some (ERR_OK, st)
  end.

Fixpoint cleanup_loop (n : nat) (i : Z) (nif : netif) (st : arp) : option arp :=
  match n with
  | O => Some st
  | S n =>
      e ← rd (arp_table st) i;
      st ← (if negb (is_empty (state e)) && (enetif e =? netif_id nif)
            then etharp_free_entry st i else Some st);
      cleanup_loop n (i + 1) nif st
  end.
Definition etharp_cleanup_netif (st : arp) (nif : netif) : option arp :=
  cleanup_loop (Z.to_nat ARP_TABLE_SIZE) 0 nif st.

(** The index and the addresses that the pointers are set to. *)
Definition etharp_find_addr (st : arp) (addr : Z) : option (Z * option (list Z * Z) * arp) :=
  '(i, st) ← etharp_find_entry st (Some addr) ETHARP_FLAG_FIND_ONLY;
  if 0 <=? i then
    e ← rd (arp_table st) i;
    if stable (state e) then Some (i, Some (ethaddr e, ipaddr e), st) else Some (-1, None, st)
  else Some (-1, None, st).

(** The packet that [etharp_raw] fills in (every byte is written). *)
Definition arp_packet (ethsrc ethdst hwsrc : list Z) (ipsrc : Z) (hwdst : list Z) (ipdst opcode : Z) : list Z :=
  take 6 ethdst ++ take 6 ethsrc ++ ETHTYPE_ARP ++
  be16 1 ++ ETHTYPE_IP ++ [6; 4] ++ be16 opcode ++
  take 6 hwsrc ++ ip_bytes ipsrc ++ take 6 hwdst ++ ip_bytes ipdst.

Definition etharp_raw (st : arp) (nif : netif) (ethsrc ethdst hwsrc : list Z) (ipsrc : Z)
    (hwdst : list Z) (ipdst opcode : Z) : Z * arp :=
  match pbuf_alloc st with
  | (None, st) => (ERR_MEM, st)
  | (Some id, st) =>
      let '(r, st) := linkoutput st nif (arp_packet ethsrc ethdst hwsrc ipsrc hwdst ipdst opcode) in
      (r, emit_ev st (Free id))
  end.

Definition etharp_request (st : arp) (nif : netif) (addr : Z) : Z * arp :=
  etharp_raw st nif (hwaddr nif) ethbroadcast (hwaddr nif) (ip_addr nif) ethzero addr ARP_REQUEST.

Definition etharp_output_to_arp_index (st : arp) (nif : netif) (f : list Z) (i : Z) : option (Z * arp) :=
  e ← rd (arp_table st) i;
  st ← (if bool_decide (state e = ETHARP_STATE_STABLE) && (ARP_AGE_REREQUEST_USED <=? ctime e) then
          let '(r, st) := etharp_request st nif (ipaddr e) in
          if r =? ERR_OK then
            t ← wr (arp_table st) i (set_state e ETHARP_STATE_STABLE_REREQUESTING); Some (with_table st t)
          else Some st
        else Some st);
  Some (etharp_send_ip st nif f (hwaddr nif) (ethaddr e)).

(** The first part of a chain that is not in ROM, with what follows it. *)
Fixpoint first_non_rom (s : list (bool * list Z)) : option (list (bool * list Z)) :=
  match s with
  | [] => None
  | (rom, d) :: s' => if rom : bool then first_non_rom s' else Some s
  end.

(** The packet that is queued: a copy, or the packet itself. *)
Definition take_over (st : arp) (p : pbuf) : option pbuf * arp :=
  match first_non_rom (segs p) with
  | Some s =>
      match pbuf_alloc st with
      | (None, st) => (None, st)
      | (Some id, st) =>
          (* pbuf_copy fails if the target is too small *)
          if tot_len s <? tot_len (segs p) then (None, emit_ev st (Free id))
          else (Some (mkPbuf id [(false, frame p)]), st)
      end
  | None => (Some p, emit_ev st (Take (pid p)))
  end.

Definition etharp_query (st : arp) (nif : netif) (addr : Z) (pk : option pbuf) : option (Z * arp) :=
  if non_unicast nif addr then Some (ERR_ARG, st) else
  '(i, st) ← etharp_find_entry st (Some addr) ETHARP_FLAG_TRY_HARD;
  if i <? 0 then Some (i, st) else
  e ← rd (arp_table st) i;
  let e := if is_empty (state e) then set_state e ETHARP_STATE_PENDING else e in
  t ← wr (arp_table st) i e;
  let st := with_table st t in
  let '(result, st) :=
    if is_pending (state e) || bool_decide (pk = None) then etharp_request st nif addr else (ERR_MEM, st) in
  match pk with
  | None => Some (result, st)
  | Some p =>
      if stable (state e) then
        Some (etharp_send_ip (with_hint st i) nif (frame p) (hwaddr nif) (ethaddr e))
      else if is_pending (state e) then
        match take_over st p with
        | (Some p', st) =>
            let st := match q e with Some old => pbuf_free st old | None => st end in
            t ← wr (arp_table st) i (set_q e (Some p'));
            Some (ERR_OK, with_table st t)
        | (None, st) => Some (ERR_MEM, st)
        end
      else Some (result, st)
  end.

Definition ip_addr_islinklocal (a : Z) : bool := Z.land a 0xffff =? 0xfea9.

(** The loop that looks for a stable entry. *)
Fixpoint find_stable (t : list etharp_entry) (i : Z) (addr : Z) : option Z :=
  match t with
  | [] => None
  | e :: t => if stable (state e) && (addr =? ipaddr e) then Some i else find_stable t (i + 1) addr
  end.

(** [room]: whether the packet has room for an Ethernet header.  The header
    is not initialised before the packet is sent (zero here). *)
Definition etharp_output (st : arp) (nif : netif) (p : pbuf) (room : bool) (addr : Z) : option (Z * arp) :=
  if negb room then Some (ERR_BUF, st) else
  let p := match segs p with
           | (rom, d) :: s => mkPbuf (pid p) ((rom, replicate 14 0 ++ d) :: s)
           | [] => p
           end in
  if ip4_addr_isbroadcast addr (flags nif) (ip_addr nif) (netmask nif) then
    Some (etharp_send_ip st nif (frame p) (hwaddr nif) ethbroadcast)
  else if ip_addr_ismulticast addr then
    let mcastaddr := [0x01; 0x00; 0x5e; Z.land (nth 1 (ip_bytes addr) 0) 0x7f;
                      nth 2 (ip_bytes addr) 0; nth 3 (ip_bytes addr) 0] in
    Some (etharp_send_ip st nif (frame p) (hwaddr nif) mcastaddr)
  else
    let remote := negb (ip_addr_netcmp addr (ip_addr nif) (netmask nif)) && negb (ip_addr_islinklocal addr) in
    if remote && ip_addr_isany (gw nif) then Some (ERR_RTE, st) else
    let dst := if remote then gw nif else addr in
    e ← rd (arp_table st) (etharp_cached_entry st);
    if stable (state e) && (dst =? ipaddr e)
    then etharp_output_to_arp_index st nif (frame p) (etharp_cached_entry st)
    else match find_stable (arp_table st) 0 dst with
         | Some i => etharp_output_to_arp_index (with_hint st i) nif (frame p) i
         | None => etharp_query st nif dst (Some p)
         end.

(** ** Receiving *)

(** [len] is the length of the first buffer of the packet, [f] its bytes. *)
Definition etharp_arp_input (st : arp) (nif : netif) (mac : list Z) (id : nat) (f : list Z) : option arp :=
  if Z.of_nat (length f) <? SIZEOF_ETHARP_PACKET then Some (emit_ev st (Free id)) else
  if negb (bool_decide (sub f OFF_HWTYPE 2 = be16 1)) || negb (nth OFF_HWLEN f 0 =? 6) ||
     negb (nth OFF_PROTOLEN f 0 =? 4) || negb (bool_decide (sub f OFF_PROTO 2 = ETHTYPE_IP))
  then Some (emit_ev st (Free id)) else
  let sipaddr := ip_of (sub f OFF_SIPADDR 4) in
  let dipaddr := ip_of (sub f OFF_DIPADDR 4) in
  let shwaddr := sub f OFF_SHWADDR 6 in
  let for_us := if ip_addr_isany (ip_addr nif) then false else dipaddr =? ip_addr nif in
  '(_, st) ← etharp_update_arp_entry st nif sipaddr shwaddr
              (if for_us then ETHARP_FLAG_TRY_HARD else ETHARP_FLAG_FIND_ONLY);
  let st :=
    if bool_decide (sub f OFF_OPCODE 2 = be16 ARP_REQUEST) then
      if for_us then
        let f := patch f OFF_OPCODE (be16 ARP_REPLY) in
        let f := patch f OFF_DIPADDR (sub f OFF_SIPADDR 4) in
        let f := patch f OFF_SIPADDR (ip_bytes (ip_addr nif)) in
        let f := patch f OFF_DHWADDR (sub f OFF_SHWADDR 6) in
        let f := patch f OFF_DEST (sub f OFF_SHWADDR 6) in
        let f := patch f OFF_SHWADDR (take 6 mac) in
        let f := patch f OFF_SRC (take 6 mac) in
        (linkoutput st nif f).2
      else st
    else if bool_decide (sub f OFF_OPCODE 2 = be16 ARP_REPLY) then
      emit_ev st (DhcpArpReply (netif_id nif) sipaddr)
    else st in
  Some (emit_ev st (Free id)).

(** The flags that [ethernet_input] sets: multicast 0x10, broadcast 0x08. *)
Definition ll_flags (f : list Z) : Z :=
  if Z.odd (nth 0 f 0) then
    if nth 0 f 0 =? 0x01 then
      if (nth 1 f 0 =? 0x00) && (nth 2 f 0 =? 0x5e) then 0x10 else 0
    else if bool_decide (sub f 0 6 = ethbroadcast) then 0x08 else 0
  else 0.

Definition ethernet_input (st : arp) (nif : netif) (id : nat) (f : list Z) : option arp :=
  if Z.of_nat (length f) <=? SIZEOF_ETH_HDR then Some (emit_ev st (Free id)) else
  let type := sub f OFF_TYPE 2 in
  if bool_decide (type = ETHTYPE_IP) then
    if Z.land (flags nif) NETIF_FLAG_ETHARP =? 0 then Some (emit_ev st (Free id))
    else Some (emit_ev st (IpInput (netif_id nif) (ll_flags f) (drop 14 f)))
  else if bool_decide (type = ETHTYPE_ARP) then
    if Z.land (flags nif) NETIF_FLAG_ETHARP =? 0 then Some (emit_ev st (Free id))
    else etharp_arp_input st nif (hwaddr nif) id f
  else Some (emit_ev st (Free id)).

(** ** The search *)

(** What the sweep knows after the entries [pre].  [cls] are the classes of
    entries that can be recycled. *)
Definition cls_stable (e : etharp_entry) : bool := stable (state e).
Definition cls_pending (e : etharp_entry) : bool :=
  is_pending (state e) && match q e with None => true | Some _ => false end.
Definition cls_queue (e : etharp_entry) : bool :=
  is_pending (state e) && match q e with None => false | Some _ => true end.

(** The remembered index [i] with age [a] is the oldest entry of its class. *)
Definition oldest (cls : etharp_entry -> bool) (pre : list etharp_entry) (i a : Z) : Prop :=
  (i = ARP_TABLE_SIZE /\ a = 0 /\ Forall (fun e => cls e = false) pre) \/
  (exists e, pre !! Z.to_nat i = Some e /\ 0 <= i /\ cls e = true /\ ctime e = a /\
     Forall (fun e' => cls e' = true -> ctime e' <= a) pre).

Record swept (pre : list etharp_entry) (c : cands) : Prop := {
  sw_empty : (empty c = ARP_TABLE_SIZE /\ Forall (fun e => is_empty (state e) = false) pre) \/
             (exists e, pre !! Z.to_nat (empty c) = Some e /\ 0 <= empty c /\ is_empty (state e) = true);
  sw_stable : oldest cls_stable pre (old_stable c) (age_stable c);
  sw_pending : oldest cls_pending pre (old_pending c) (age_pending c);
  sw_queue : oldest cls_queue pre (old_queue c) (age_queue c)
}.

Lemma oldest_snoc_no cls pre i a e :
  oldest cls pre i a -> cls e = false -> oldest cls (pre ++ [e]) i a.
Proof.
  intros [(-> & -> & H)|(x & Hx & Hi & Hc & Ha & H)] He; [left|right].
  - split_and!; auto. apply Forall_app_2; [done|]. by constructor.
  - exists x. split; [by apply lookup_app_l_Some|]. split_and!; auto.
    apply Forall_app_2; [done|]. constructor; [congruence|done].
Qed.

Lemma oldest_snoc_yes cls pre i a e :
  oldest cls pre i a -> cls e = true -> 0 <= ctime e ->
  if a <=? ctime e then oldest cls (pre ++ [e]) (Z.of_nat (length pre)) (ctime e)
  else oldest cls (pre ++ [e]) i a.
Proof.
  intros Ho He Ht. destruct (Z.leb_spec a (ctime e)).
  - right. exists e. rewrite Nat2Z.id, lookup_app_r, Nat.sub_diag by lia. split_and!; try done; [lia|].
    apply Forall_app_2; [|by constructor].
    destruct Ho as [(-> & -> & H1)|(x & Hx & Hi & Hc & Ha & H1)]; eapply Forall_impl; try exact H1; cbn.
    + intros y Hy Hy'. congruence.
    + intros y Hy Hy'. specialize (Hy Hy'). lia.
  - destruct Ho as [(-> & -> & H1)|(x & Hx & Hi & Hc & Ha & H1)]; [lia|].
    right. exists x. split; [by apply lookup_app_l_Some|]. split_and!; auto.
    apply Forall_app_2; [done|]. constructor; [lia|done].
Qed.

Lemma swept_remember pre c e :
  swept pre c -> is_empty (state e) = false -> 0 <= ctime e ->
  swept (pre ++ [e]) (remember c (Z.of_nat (length pre)) e).
Proof.
  intros [He Hs Hp Hq] Hne Ht.
  assert (He' : (empty c = ARP_TABLE_SIZE /\ Forall (fun e => is_empty (state e) = false) (pre ++ [e])) \/
     (exists e', (pre ++ [e]) !! Z.to_nat (empty c) = Some e' /\ 0 <= empty c /\ is_empty (state e') = true)).
  { destruct He as [[H1 H2]|(x & Hx & H1 & H2)]; [left|right].
    - split; [done|]. apply Forall_app_2; [done|by constructor].
    - exists x. split; [by apply lookup_app_l_Some|done]. }
  unfold remember.
  destruct (is_pending (state e)) eqn:Ep.
  - assert (cls_stable e = false) by (unfold cls_stable; by destruct (state e)).
    destruct (q e) as [pk|] eqn:Eq.
    + assert (cls_queue e = true) by (unfold cls_queue; by rewrite Ep, Eq).
      assert (cls_pending e = false) by (unfold cls_pending; by rewrite Ep, Eq).
      pose proof (oldest_snoc_yes _ _ _ _ e Hq ltac:(done) Ht) as Ho.
      destruct (age_queue c <=? ctime e); split; cbn; auto using oldest_snoc_no.
    + assert (cls_queue e = false) by (unfold cls_queue; by rewrite Ep, Eq).
      assert (cls_pending e = true) by (unfold cls_pending; by rewrite Ep, Eq).
      pose proof (oldest_snoc_yes _ _ _ _ e Hp ltac:(done) Ht) as Ho.
      destruct (age_pending c <=? ctime e); split; cbn; auto using oldest_snoc_no.
  - assert (Hst : stable (state e) = true) by (by destruct (state e)). rewrite Hst.
    assert (cls_queue e = false) by (unfold cls_queue; by rewrite Ep).
    assert (cls_pending e = false) by (unfold cls_pending; by rewrite Ep).
    pose proof (oldest_snoc_yes _ _ _ _ e Hs ltac:(done) Ht) as Ho.
    destruct (age_stable c <=? ctime e); split; cbn; auto using oldest_snoc_no.
Qed.

Lemma swept_empty pre c e :
  swept pre c -> is_empty (state e) = true ->
  swept (pre ++ [e]) (if empty c =? ARP_TABLE_SIZE
    then mkCands (Z.of_nat (length pre)) (old_stable c) (age_stable c) (old_pending c) (age_pending c)
                 (old_queue c) (age_queue c) else c).
Proof.
  intros [He Hs Hp Hq] Hem.
  assert (cls_stable e = false) by (unfold cls_stable; by destruct (state e)).
  assert (cls_pending e = false) by (unfold cls_pending; by destruct (state e)).
  assert (cls_queue e = false) by (unfold cls_queue; by destruct (state e)).
  destruct (Z.eqb_spec (empty c) ARP_TABLE_SIZE) as [E|E]; split; cbn; auto using oldest_snoc_no.
  - right. exists e. rewrite Nat2Z.id, lookup_app_r, Nat.sub_diag by lia. split_and!; [done|lia|done].
  - right. destruct He as [[H2 _]|(x & Hx & H2 & H3)]; [done|]. exists x.
    split; [by apply lookup_app_l_Some|done].
Qed.

Definition matches (addr : option Z) (e : etharp_entry) : bool :=
  negb (is_empty (state e)) && match addr with Some a => a =? ipaddr e | None => false end.

Lemma sweep_spec t pre addr c :
  swept pre c -> Forall (fun e => 0 <= ctime e) t ->
  Forall (fun e => matches addr e = false) pre ->
  match sweep t (Z.of_nat (length pre)) addr c with
  | inl i => exists e, (pre ++ t) !! Z.to_nat i = Some e /\ 0 <= i /\ matches addr e = true
  | inr c' => swept (pre ++ t) c' /\ Forall (fun e => matches addr e = false) (pre ++ t)
  end.
Proof.
  intros Hsw Ht. revert pre c Hsw. induction Ht as [|e t He Ht IH]; intros pre c Hsw Hpre; cbn [sweep].
  { by rewrite app_nil_r. }
  replace (pre ++ e :: t) with ((pre ++ [e]) ++ t) by (by rewrite <- app_assoc).
  replace (Z.of_nat (length pre) + 1) with (Z.of_nat (length (pre ++ [e]))) by (rewrite length_app; cbn; lia).
  destruct (is_empty (state e)) eqn:Em; cbn [negb].
  - assert (Hm : matches addr e = false) by (unfold matches; by rewrite Em).
    pose proof (swept_empty pre c e Hsw Em) as Hsw'.
    rewrite andb_true_r. destruct (empty c =? ARP_TABLE_SIZE); apply IH; auto using Forall_app_2.
  - rewrite andb_false_r. destruct (match addr with Some a => a =? ipaddr e | None => false end) eqn:Ea.
    + exists e. rewrite <- app_assoc, Nat2Z.id, lookup_app_r, Nat.sub_diag by lia. cbn [app lookup list_lookup].
      split_and!; [done|lia|]. unfold matches. by rewrite Em, Ea.
    + apply IH; [by apply swept_remember|]. apply Forall_app_2; [done|].
      constructor; [|done]. unfold matches. by rewrite Em, Ea.
Qed.

(** ** The invariant of the table *)

Record entry_ok (e : etharp_entry) : Prop := {
  eo_ctime : 0 <= ctime e;
  eo_age : is_empty (state e) = false -> ctime e < ARP_MAXAGE;
  eo_pending : is_pending (state e) = true -> ctime e < ARP_MAXPENDING;
  eo_queue : q e <> None -> is_pending (state e) = true;
  eo_mac : length (ethaddr e) = 6%nat
}.

(** No address is in the table twice. *)
Definition unique (t : list etharp_entry) : Prop :=
  forall i j e1 e2, t !! i = Some e1 -> t !! j = Some e2 ->
    is_empty (state e1) = false -> is_empty (state e2) = false -> ipaddr e1 = ipaddr e2 -> i = j.

Record inv (st : arp) : Prop := {
  inv_len : length (arp_table st) = 10%nat;
  inv_ok : Forall entry_ok (arp_table st);
  inv_unique : unique (arp_table st);
  inv_hint : 0 <= etharp_cached_entry st < ARP_TABLE_SIZE
}.

(** *** References to buffers: taken, less given back, less queued. *)
Definition ev_bal (id : nat) (e : event) : Z :=
  match e with
  | Take k => if (k =? id)%nat then 1 else 0
  | Free k => if (k =? id)%nat then -1 else 0
  | _ => 0
  end.
Fixpoint bal (id : nat) (l : list event) : Z :=
  match l with [] => 0 | e :: l => ev_bal id e + bal id l end.
Definition q_count (id : nat) (e : etharp_entry) : Z :=
  match q e with Some p => if (pid p =? id)%nat then 1 else 0 | None => 0 end.
Fixpoint queued (id : nat) (t : list etharp_entry) : Z :=
  match t with [] => 0 | e :: t => q_count id e + queued id t end.
Definition balance (st : arp) (id : nat) : Z := bal id (events st) - queued id (arp_table st).

Lemma bal_app id a b : bal id (a ++ b) = bal id a + bal id b.
Proof. induction a as [|e a IH]; cbn [bal app]; lia. Qed.

Lemma queued_insert id t i e e' :
  t !! i = Some e -> queued id (<[i := e']> t) = queued id t - q_count id e + q_count id e'.
Proof.
  revert i. induction t as [|x t IH]; intros [|i]; cbn [lookup list_lookup]; try done.
  - intros [= ->]. cbn [insert list_insert queued]. lia.
  - intros Hi. change (<[S i := e']> (x :: t)) with (x :: <[i := e']> t). cbn [queued].
    rewrite (IH _ Hi). lia.
Qed.

Lemma balance_emit st e id : balance (emit_ev st e) id = balance st id + ev_bal id e.
Proof. unfold balance, emit_ev. cbn [events arp_table]. rewrite bal_app. cbn [bal]. lia. Qed.

(** A table in which entry [i] is replaced. *)
Lemma inv_update st i e e' :
  inv st -> arp_table st !! i = Some e -> entry_ok e' ->
  (is_empty (state e') = false ->
   forall j x, arp_table st !! j = Some x -> j <> i -> is_empty (state x) = false -> ipaddr x <> ipaddr e') ->
  inv (with_table st (<[i := e']> (arp_table st))).
Proof.
  intros [Hl Hok Hu Hh] Hi He' Hne. split; cbn [with_table arp_table etharp_cached_entry]; auto.
  - by rewrite length_insert.
  - by apply Forall_insert.
  - intros j k e1 e2 Hj Hk N1 N2 Heq.
    destruct (decide (i = j)) as [<-|Hij], (decide (i = k)) as [<-|Hik]; [done| | |].
    + rewrite list_lookup_insert_eq in Hj by (by eapply lookup_lt_Some). simplify_eq.
      rewrite list_lookup_insert_ne in Hk by done. exfalso. by apply (Hne N1 k e2).
    + rewrite list_lookup_insert_eq in Hk by (by eapply lookup_lt_Some). simplify_eq.
      rewrite list_lookup_insert_ne in Hj by done. exfalso. by apply (Hne N2 j e1).
    + rewrite list_lookup_insert_ne in Hj, Hk by done. by apply (Hu j k e1 e2).
Qed.

(** The address stays, and the entry was in use if it is in use. *)
Lemma inv_update_same st i e e' :
  inv st -> arp_table st !! i = Some e -> entry_ok e' -> ipaddr e' = ipaddr e ->
  (is_empty (state e') = false -> is_empty (state e) = false) ->
  inv (with_table st (<[i := e']> (arp_table st))).
Proof.
  intros Hi He Hok Heq Hne. apply (inv_update _ _ e); auto. intros N j x Hj Hji Nx Hx.
  apply Hji. apply (inv_unique _ Hi j i x e); auto. congruence.
Qed.

Lemma inv_events st h ev a n :
  inv st -> inv (mkArp (arp_table st) (etharp_cached_entry st) ev a n) /\
            (0 <= h < ARP_TABLE_SIZE -> inv (mkArp (arp_table st) h ev a n)).
Proof. intros [??? ?]. split; [|intros ?]; by split. Qed.

Lemma entry_at st i : inv st -> 0 <= i < ARP_TABLE_SIZE ->
  exists e, arp_table st !! Z.to_nat i = Some e /\ rd (arp_table st) i = Some e /\ entry_ok e /\
    forall e', wr (arp_table st) i e' = Some (<[Z.to_nat i := e']> (arp_table st)).
Proof.
  intros [Hl Hok _ _] Hi. unfold ARP_TABLE_SIZE in Hi.
  destruct (lookup_lt_is_Some_2 (arp_table st) (Z.to_nat i)) as [e He]; [lia|].
  exists e. split; [done|]. split; [unfold rd; by replace (i <? 0) with false by lia|].
  split; [by apply (Forall_lookup_1 _ _ _ _ Hok He)|]. intros e'. apply wr_in. lia.
Qed.

Lemma free_entry_spec st i :
  inv st -> 0 <= i < ARP_TABLE_SIZE -> exists e st', arp_table st !! Z.to_nat i = Some e /\
    etharp_free_entry st i = Some st' /\ inv st' /\
    arp_table st' = <[Z.to_nat i := set_state (set_q e None) ETHARP_STATE_EMPTY]> (arp_table st) /\
    forall id, balance st' id = balance st id.
Proof.
  intros Hinv Hi. destruct (entry_at st i Hinv Hi) as (e & He & Hrd & Hok & Hwr).
  unfold etharp_free_entry. rewrite Hrd. cbn [mbind option_bind]. exists e.
  assert (Hok' : entry_ok (set_state (set_q e None) ETHARP_STATE_EMPTY)) by (destruct Hok; by split).
  assert (Htab : forall p, arp_table (match p with Some p => pbuf_free st p | None => st end) = arp_table st)
    by by intros [].
  rewrite Htab, Hwr. cbn [mbind option_bind]. eexists. split; [done|]. split; [done|].
  assert (Hinv' : inv (match q e with Some p => pbuf_free st p | None => st end)).
  { destruct (q e); [|done]. by apply (inv_events st 0). }
  assert (Hi2 : arp_table (match q e with Some p => pbuf_free st p | None => st end) !! Z.to_nat i = Some e)
    by by rewrite Htab.
  pose proof (inv_update _ _ e _ Hinv' Hi2 Hok' ltac:(done)) as Hup. rewrite Htab in Hup.
  split; [exact Hup|]. split; [done|]. intros id. unfold balance. cbn [with_table events arp_table].
  rewrite (queued_insert id _ _ e) by done. unfold q_count. cbn [set_state set_q q].
  destruct (q e) as [p|]; cbn [pbuf_free emit_ev events]; rewrite ?bal_app; cbn [bal ev_bal];
    [destruct (_ =? _)%nat|]; lia.
Qed.

Lemma swept_start : swept [] no_cands.
Proof. split; left; by split_and!. Qed.

Lemma oldest_range cls t i a : length t = 10%nat -> oldest cls t i a -> i < ARP_TABLE_SIZE -> 0 <= i < ARP_TABLE_SIZE.
Proof. intros Hl [(-> & _)|(e & _ & Hi & _)] H; lia. Qed.

(** With no empty entry, some entry can be recycled. *)
Lemma recycle_some t c :
  swept t c -> length t = 10%nat -> Forall (fun e => is_empty (state e) = false) t ->
  exists i, recycle c = Some i /\ 0 <= i < ARP_TABLE_SIZE.
Proof.
  intros [_ Hs Hp Hq] Hl Hne. unfold recycle.
  destruct (Z.ltb_spec (old_stable c) ARP_TABLE_SIZE) as [H|H1];
    [eexists; split; [done|]; by apply (oldest_range _ _ _ _ Hl Hs)|].
  destruct (Z.ltb_spec (old_pending c) ARP_TABLE_SIZE) as [H|H2];
    [eexists; split; [done|]; by apply (oldest_range _ _ _ _ Hl Hp)|].
  destruct (Z.ltb_spec (old_queue c) ARP_TABLE_SIZE) as [H|H3];
    [eexists; split; [done|]; by apply (oldest_range _ _ _ _ Hl Hq)|].
  exfalso. destruct t as [|e t]; [done|]. apply Forall_cons in Hne as [Hne _].
  assert (Hno : forall cls i a, oldest cls (e :: t) i a -> ARP_TABLE_SIZE <= i -> cls e = false).
  { intros cls i a [(_ & _ & H)|(x & Hx & _)] Hi; [by apply Forall_cons in H as [H _]|].
    apply lookup_lt_Some in Hx. unfold ARP_TABLE_SIZE in Hi. rewrite Hl in Hx. lia. }
  pose proof (Hno _ _ _ Hs H1) as N1. pose proof (Hno _ _ _ Hp H2) as N2. pose proof (Hno _ _ _ Hq H3) as N3.
  unfold cls_stable, cls_pending, cls_queue in *. destruct (state e), (q e); done.
Qed.

(** What [etharp_find_entry] returns: the entry of the address, a fresh empty
    entry for it, or [ERR_MEM] with nothing changed. *)
Definition found (st : arp) (a fl : Z) (i : Z) (st' : arp) : Prop :=
  (i = ERR_MEM /\ st' = st /\ Forall (fun e => matches (Some a) e = false) (arp_table st) /\
   (fl = ETHARP_FLAG_FIND_ONLY)) \/
  (0 <= i < ARP_TABLE_SIZE /\ exists e, arp_table st' !! Z.to_nat i = Some e /\ ipaddr e = a /\
     ((st' = st /\ is_empty (state e) = false) \/
      (fl = ETHARP_FLAG_TRY_HARD /\ is_empty (state e) = true /\ ctime e = 0 /\ q e = None /\
       (forall j x, arp_table st' !! j = Some x -> is_empty (state x) = false -> ipaddr x <> a)))).

Lemma create_spec st a i :
  inv st -> 0 <= i < ARP_TABLE_SIZE ->
  (exists e, arp_table st !! Z.to_nat i = Some e /\ is_empty (state e) = true) ->
  Forall (fun e => matches (Some a) e = false) (arp_table st) ->
  exists st', (e ← rd (arp_table st) i; t ← wr (arp_table st) i (set_ctime (set_ipaddr e a) 0);
     Some (i, with_table st t)) = Some (i, st') /\
    inv st' /\ found st a ETHARP_FLAG_TRY_HARD i st' /\ forall id, balance st' id = balance st id.
Proof.
  intros Hinv Hi (e0 & He0 & Hem) Hno. destruct (entry_at st i Hinv Hi) as (e & He & Hrd & Hok & Hwr).
  assert (e0 = e) as -> by congruence. rewrite Hrd. cbn [mbind option_bind]. rewrite Hwr. cbn [mbind option_bind].
  eexists. split; [done|].
  assert (Hq : q e = None).
  { destruct (q e) eqn:E; [|done]. assert (is_pending (state e) = true) as Hp by (apply (eo_queue _ Hok); congruence).
    by destruct (state e). }
  assert (Hok' : entry_ok (set_ctime (set_ipaddr e a) 0)).
  { destruct Hok. split; cbn; auto; unfold ARP_MAXAGE, ARP_MAXPENDING; lia. }
  assert (Hst : state (set_ctime (set_ipaddr e a) 0) = state e) by done.
  split; [|split].
  - apply (inv_update _ _ e); auto. rewrite Hst. intros N. rewrite N in Hem. done.
  - right. split; [done|]. exists (set_ctime (set_ipaddr e a) 0). cbn [with_table arp_table].
    rewrite list_lookup_insert_eq by (by eapply lookup_lt_Some). split; [done|]. split; [done|]. right.
    split_and!; auto. intros j x Hj Hx. destruct (decide (Z.to_nat i = j)) as [<-|Hij].
    + rewrite list_lookup_insert_eq in Hj by (by eapply lookup_lt_Some). simplify_eq.
      rewrite Hst in Hx. congruence.
    + rewrite list_lookup_insert_ne in Hj by done. pose proof (Forall_lookup_1 _ _ _ _ Hno Hj) as Hm.
      cbn in Hm. unfold matches in Hm. rewrite Hx in Hm. cbn in Hm. lia.
  - intros id. unfold balance. cbn [with_table events arp_table]. rewrite (queued_insert id _ _ e) by done.
    unfold q_count. cbn [set_ctime set_ipaddr q]. lia.
Qed.

Lemma find_entry_spec st a fl :
  inv st -> fl = ETHARP_FLAG_TRY_HARD \/ fl = ETHARP_FLAG_FIND_ONLY ->
  exists i st', etharp_find_entry st (Some a) fl = Some (i, st') /\
    inv st' /\ found st a fl i st' /\ forall id, balance st' id = balance st id.
Proof.
  intros Hinv Hfl. unfold etharp_find_entry.
  assert (Hct : Forall (fun e => 0 <= ctime e) (arp_table st)).
  { eapply Forall_impl; [apply (inv_ok _ Hinv)|]. by intros e [? _ _ _ _]. }
  pose proof (sweep_spec (arp_table st) [] (Some a) no_cands swept_start Hct ltac:(done)) as Hsw.
  cbn [length app] in Hsw. change (Z.of_nat 0) with 0 in Hsw.
  pose proof (inv_len _ Hinv) as Hlen.
  destruct (sweep (arp_table st) 0 (Some a) no_cands) as [i|c].
  { destruct Hsw as (e & He & Hi & Hm). unfold matches in Hm. apply andb_true_iff in Hm as [Hm1 Hm2].
    exists i, st. split; [done|]. split; [done|]. split; [|done]. right.
    pose proof (lookup_lt_Some _ _ _ He). unfold ARP_TABLE_SIZE. split; [lia|].
    exists e. split; [done|]. split; [lia|]. left. by destruct (is_empty (state e)). }
  destruct Hsw as [Hsw Hno]. destruct Hfl as [->| ->].
  2:{ cbn [Z.land ETHARP_FLAG_FIND_ONLY Z.eqb negb orb]. exists ERR_MEM, st. split; [done|].
      split; [done|]. split; [by left|done]. }
  change (negb (Z.land ETHARP_FLAG_TRY_HARD ETHARP_FLAG_FIND_ONLY =? 0)) with false.
  change (Z.land ETHARP_FLAG_TRY_HARD ETHARP_FLAG_TRY_HARD =? 0) with false.
  rewrite andb_false_r. cbn [orb].
  destruct (sw_empty _ _ Hsw) as [[Hem Hne]|(e & He & Hi & Hem)].
  - rewrite Hem. cbn [Z.ltb Z.compare ARP_TABLE_SIZE].
    destruct (recycle_some _ _ Hsw Hlen Hne) as (i & -> & Hi). rewrite Z.ltb_irrefl.
    destruct (free_entry_spec st i Hinv Hi) as (e & st1 & He & -> & Hinv1 & Htab & Hbal1). cbn [mbind option_bind].
    destruct (create_spec st1 a i Hinv1 Hi) as (st2 & E & Hinv2 & Hf & Hbal2).
    + eexists. rewrite Htab, list_lookup_insert_eq by (by eapply lookup_lt_Some). split; done.
    + rewrite Htab. by apply Forall_insert.
    + exists i, st2. split; [exact E|]. split; [done|]. split.
      * destruct Hf as [(Hx & _)|(Hx & x & H1 & H2 & H3)]; [unfold ERR_MEM in Hx; lia|].
        right. split; [done|]. exists x. split; [done|]. split; [done|].
        destruct H3 as [[-> H3]|H3]; [|by right]. exfalso.
        rewrite Htab, list_lookup_insert_eq in H1 by (by eapply lookup_lt_Some). by simplify_eq.
      * intros id. by rewrite Hbal2, Hbal1.
  - pose proof (lookup_lt_Some _ _ _ He) as Hlt.
    replace (empty c <? ARP_TABLE_SIZE) with true by (unfold ARP_TABLE_SIZE; lia).
    destruct (create_spec st a (empty c) Hinv) as (st2 & E & Hinv2 & Hf & Hbal2); [|by eauto|done|].
    { unfold ARP_TABLE_SIZE. lia. }
    exists (empty c), st2. split; [exact E|]. done.
Qed.

(** ** Every operation keeps the invariant and the references *)

(** Steps that only send. *)
Record quiet (st st' : arp) : Prop := {
  quiet_table : arp_table st' = arp_table st;
  quiet_hint : etharp_cached_entry st' = etharp_cached_entry st;
  quiet_bal : forall id, balance st' id = balance st id
}.

Lemma quiet_inv st st' : quiet st st' -> inv st -> inv st'.
Proof. intros [Ht Hh _] [H1 H2 H3 H4]. split; rewrite ?Ht, ?Hh; done. Qed.

Lemma quiet_refl st : quiet st st.
Proof. by split. Qed.

Lemma linkoutput_quiet st nif f : quiet st (linkoutput st nif f).2.
Proof.
  split; [done|done|]. intros id. unfold balance, linkoutput. cbn [snd events arp_table].
  rewrite bal_app. cbn [bal ev_bal]. lia.
Qed.

Lemma send_ip_quiet st nif f src dst : quiet st (etharp_send_ip st nif f src dst).2.
Proof. apply linkoutput_quiet. Qed.

Lemma request_quiet st nif a : quiet st (etharp_request st nif a).2.
Proof.
  unfold etharp_request, etharp_raw, pbuf_alloc. destruct (pbuf_alloc_ok (allocs st)); cbn [fst snd]; [|by split].
  split; [done|done|]. intros id. unfold balance, linkoutput, emit_ev. cbn [events arp_table fst snd].
  rewrite !bal_app. cbn [bal ev_bal]. destruct (_ =? _)%nat; lia.
Qed.

(** The address [a] is resolved to [m]. *)
Definition learned (st : arp) (a : Z) (m : list Z) : Prop :=
  exists i e, arp_table st !! i = Some e /\ state e = ETHARP_STATE_STABLE /\ ipaddr e = a /\
    ethaddr e = m /\ ctime e = 0.

Lemma update_spec st nif a mac fl :
  inv st -> (6 <= length mac)%nat -> fl = ETHARP_FLAG_TRY_HARD \/ fl = ETHARP_FLAG_FIND_ONLY ->
  exists r st', etharp_update_arp_entry st nif a mac fl = Some (r, st') /\
    inv st' /\ (forall id, balance st' id = balance st id) /\
    (if non_unicast nif a then r = ERR_ARG /\ st' = st
     else (r = ERR_OK /\ learned st' a (take 6 mac)) \/
          (fl = ETHARP_FLAG_FIND_ONLY /\ r = ERR_MEM /\ st' = st)).
Proof.
  intros Hinv Hmac Hfl. unfold etharp_update_arp_entry. destruct (non_unicast nif a); [eauto 10|].
  destruct (find_entry_spec st a fl Hinv Hfl) as (i & st1 & -> & Hinv1 & Hfound & Hbal1). cbn [mbind option_bind].
  destruct Hfound as [(-> & -> & _ & ->)|(Hi & e0 & He0 & Ha & Hcase)].
  { cbn [Z.ltb Z.compare ERR_MEM]. eauto 10. }
  replace (i <? 0) with false by (unfold ARP_TABLE_SIZE in Hi; lia).
  destruct (entry_at st1 i Hinv1 Hi) as (e & He & Hrd & Hok & Hwr). assert (e0 = e) as -> by congruence.
  rewrite Hrd. cbn [mbind option_bind]. rewrite Hwr. cbn [mbind option_bind].
  set (e' := mkEntry None (ipaddr e) (netif_id nif) (take 6 mac) ETHARP_STATE_STABLE 0).
  set (st2 := with_table st1 (<[Z.to_nat i := e']> (arp_table st1))).
  assert (Hok' : entry_ok e').
  { split; cbn; try done; unfold ARP_MAXAGE, ARP_MAXPENDING; try lia. rewrite length_take. lia. }
  assert (Hinv2 : inv st2).
  { destruct Hcase as [[-> Hne]|(_ & _ & _ & _ & Hno)].
    - apply (inv_update_same _ _ e); auto.
    - apply (inv_update _ _ e); auto. intros _ j x Hj _ Hx. cbn [e' ipaddr]. rewrite Ha. by apply (Hno j). }
  assert (Hlearn : forall st3, arp_table st3 = arp_table st2 -> learned st3 a (take 6 mac)).
  { intros st3 Ht. exists (Z.to_nat i), e'. rewrite Ht. unfold st2. cbn [with_table arp_table].
    rewrite list_lookup_insert_eq by (by eapply lookup_lt_Some). done. }
  assert (Hbal2 : forall id, balance st2 id = balance st id + q_count id e).
  { intros id. rewrite <- Hbal1. unfold balance, st2. cbn [with_table events arp_table].
    rewrite (queued_insert id _ _ e) by done. unfold e', q_count. cbn [q]. lia. }
  unfold q_count in Hbal2. destruct (q e) as [p|].
  - destruct (etharp_send_ip st2 nif (frame p) (hwaddr nif) mac) as [r st3] eqn:E.
    assert (Hq : quiet st2 st3) by (pose proof (send_ip_quiet st2 nif (frame p) (hwaddr nif) mac) as Hq; by rewrite E in Hq).
    exists ERR_OK, (pbuf_free st3 p). split; [done|]. split.
    { apply (inv_events st3 0). by apply (quiet_inv st2). }
    split; [|left; split; [done|]; apply Hlearn; by rewrite <- (quiet_table _ _ Hq)].
    intros id. unfold pbuf_free. rewrite balance_emit, (quiet_bal _ _ Hq), Hbal2. cbn [ev_bal].
    destruct (_ =? _)%nat; lia.
  - exists ERR_OK, st2. split; [done|]. split; [done|]. split; [intros id; rewrite Hbal2; lia|].
    left. split; [done|]. by apply Hlearn.
Qed.

Lemma tmr_entry_spec st i :
  inv st -> 0 <= i < ARP_TABLE_SIZE ->
  exists e e' st', arp_table st !! Z.to_nat i = Some e /\ tmr_entry st i = Some st' /\ inv st' /\
    arp_table st' = <[Z.to_nat i := e']> (arp_table st) /\
    (forall id, balance st' id = balance st id) /\
    (if is_empty (state e) then e' = e else
     ipaddr e' = ipaddr e /\ ethaddr e' = ethaddr e /\ ctime e' = ctime e + 1 /\
     is_empty (state e') = (ARP_MAXAGE <=? ctime e + 1) || (is_pending (state e) && (ARP_MAXPENDING <=? ctime e + 1)) /\
     (is_empty (state e') = false -> stable (state e') = stable (state e))).
Proof.
  intros Hinv Hi. destruct (entry_at st i Hinv Hi) as (e & He & Hrd & Hok & Hwr).
  unfold tmr_entry. rewrite Hrd. cbn [mbind option_bind]. exists e.
  destruct (is_empty (state e)) eqn:Em.
  { exists e, st. split_and!; auto. by rewrite list_insert_id. }
  pose proof (eo_ctime _ Hok). pose proof (eo_age _ Hok Em) as Hage. unfold ARP_MAXAGE in Hage.
  rewrite Hwr, u8_small by zlia. cbn [mbind option_bind].
  set (e1 := set_ctime e (ctime e + 1)). set (st1 := with_table st (<[Z.to_nat i := e1]> (arp_table st))).
  assert (Hle : (Z.to_nat i < length (arp_table st))%nat) by (by eapply lookup_lt_Some).
  assert (Hb1 : forall id, balance st1 id = balance st id).
  { intros id. unfold balance, st1. cbn [with_table events arp_table]. rewrite (queued_insert id _ _ e) by done.
    unfold q_count. cbn [e1 set_ctime q]. lia. }
  change (ctime e1) with (ctime e + 1). change (state e1) with (state e).
  destruct (_ || _) eqn:Eold.
  - (* expired: freed like any entry, ages no longer matter *)
    unfold etharp_free_entry. change (arp_table st1) with (<[Z.to_nat i := e1]> (arp_table st)).
    assert (Hrd1 : rd (<[Z.to_nat i := e1]> (arp_table st)) i = Some e1).
    { unfold rd. replace (i <? 0) with false by lia. by rewrite list_lookup_insert_eq. }
    rewrite Hrd1. cbn [mbind option_bind]. change (q e1) with (q e).
    assert (Htab : arp_table (match q e with Some p => pbuf_free st1 p | None => st1 end) = <[Z.to_nat i := e1]> (arp_table st))
      by by destruct (q e).
    rewrite Htab, wr_in by (rewrite length_insert; lia). cbn [mbind option_bind]. rewrite list_insert_insert_eq.
    set (e2 := set_state (set_q e1 None) ETHARP_STATE_EMPTY).
    exists e2. eexists. split; [done|]. split; [done|].
    assert (Hok2 : entry_ok e2) by (destruct Hok; split; cbn; try done; lia).
    pose proof (inv_update st _ e e2 Hinv He Hok2 ltac:(done)) as Hinv2.
    split; [|split; [done|split; [|split_and!; done]]].
    + destruct (q e); [by apply (inv_events (with_table st (<[Z.to_nat i := e2]> (arp_table st))) 0)|exact Hinv2].
    + intros id. rewrite <- Hb1. unfold balance. cbn [with_table events arp_table].
      change (arp_table st1) with (<[Z.to_nat i := e1]> (arp_table st)).
      rewrite !(queued_insert id _ _ e) by done. unfold q_count. cbn [e1 e2 set_ctime set_state set_q q].
      destruct (q e) as [p|]; cbn [pbuf_free emit_ev events]; rewrite ?bal_app; cbn [bal ev_bal];
        [destruct (_ =? _)%nat|]; lia.
  - apply orb_false_iff in Eold as [E1 E2].
    assert (Hok1 : entry_ok e1).
    { destruct Hok. split; cbn; auto; unfold ARP_MAXAGE, ARP_MAXPENDING in *; try lia.
      intros Hp. rewrite Hp in E2. cbn in E2. lia. }
    destruct (state e) eqn:Es; cbn [is_empty is_pending andb] in *; try done.
    + exists e1, st1. cbn [e1 set_ctime state]. rewrite Es. split_and!; auto; try (by rewrite E1, ?E2).
      apply (inv_update_same _ _ e); auto; by rewrite Es.
    + exists e1, st1. cbn [e1 set_ctime state]. rewrite Es. split_and!; auto; try (by rewrite E1).
      apply (inv_update_same _ _ e); auto; by rewrite Es.
    + change (arp_table st1) with (<[Z.to_nat i := e1]> (arp_table st)).
      rewrite wr_in by (rewrite length_insert; lia). cbn [mbind option_bind]. rewrite list_insert_insert_eq.
      exists (set_state e1 ETHARP_STATE_STABLE). eexists. split; [done|]. split; [done|].
      assert (Hok2 : entry_ok (set_state e1 ETHARP_STATE_STABLE)).
      { destruct Hok1 as [A1 A2 A3 A4 A5]. cbn [e1 set_ctime state q ctime ethaddr] in *. rewrite Es in *.
        split; cbn [set_state set_ctime e1 state q ctime ethaddr]; auto. }
      cbn [set_state ipaddr ethaddr ctime state is_empty stable e1 set_ctime].
      split_and!; auto; try (by rewrite E1).
      * apply (inv_update_same st _ e); auto; by rewrite Es.
      * intros id. rewrite <- Hb1. unfold balance. cbn [with_table events arp_table st1].
        rewrite !(queued_insert id _ _ e) by done. unfold q_count. cbn [e1 set_ctime set_state q]. lia.
Qed.

(** One tick of the age of an entry. *)
Definition aged (e e' : etharp_entry) : Prop :=
  if is_empty (state e) then e' = e else
  ipaddr e' = ipaddr e /\ ethaddr e' = ethaddr e /\ ctime e' = ctime e + 1 /\
  is_empty (state e') = (ARP_MAXAGE <=? ctime e + 1) || (is_pending (state e) && (ARP_MAXPENDING <=? ctime e + 1)) /\
  (is_empty (state e') = false -> stable (state e') = stable (state e)).

Lemma tmr_loop_spec n i st :
  inv st -> i + Z.of_nat n = ARP_TABLE_SIZE -> 0 <= i ->
  exists st', tmr_loop n i st = Some st' /\ inv st' /\ (forall id, balance st' id = balance st id) /\
    (forall j e', arp_table st' !! j = Some e' -> exists e, arp_table st !! j = Some e /\
       if Z.of_nat j <? i then e' = e else aged e e').
Proof.
  revert i st. induction n as [|n IH]; intros i st Hinv Hn Hi; cbn [tmr_loop].
  - exists st. split_and!; auto. intros j e' Hj. exists e'. split; [done|].
    apply lookup_lt_Some in Hj. rewrite (inv_len _ Hinv) in Hj. unfold ARP_TABLE_SIZE in *.
    by replace (Z.of_nat j <? i) with true by lia.
  - destruct (tmr_entry_spec st i Hinv) as (e & e1 & st1 & He & -> & Hinv1 & Ht1 & Hb1 & Hag); [lia|].
    cbn [mbind option_bind].
    destruct (IH (i + 1) st1 Hinv1 ltac:(lia) ltac:(lia)) as (st2 & -> & Hinv2 & Hb2 & Hent).
    exists st2. split_and!; auto; [intros id; by rewrite Hb2, Hb1|].
    intros j e' Hj. destruct (Hent j e' Hj) as (x & Hx & Hcase). rewrite Ht1 in Hx.
    destruct (decide (Z.to_nat i = j)) as [<-|Hij].
    + rewrite list_lookup_insert_eq in Hx by (by eapply lookup_lt_Some). simplify_eq.
      exists e. split; [done|]. rewrite Z2Nat.id in * by lia.
      replace (i <? i) with false by lia. replace (i <? i + 1) with true in Hcase by lia. by subst.
    + rewrite list_lookup_insert_ne in Hx by done. exists x. split; [done|].
      destruct (Z.ltb_spec (Z.of_nat j) (i + 1)), (Z.ltb_spec (Z.of_nat j) i); [done|lia|lia|done].
Qed.

Lemma tmr_spec st :
  inv st -> exists st', etharp_tmr st = Some st' /\ inv st' /\ (forall id, balance st' id = balance st id) /\
    (forall j e', arp_table st' !! j = Some e' -> exists e, arp_table st !! j = Some e /\ aged e e').
Proof.
  intros Hinv. destruct (tmr_loop_spec 10 0 st Hinv eq_refl ltac:(lia)) as (st' & E & Hi & Hb & He).
  exists st'. split_and!; auto. intros j e' Hj. destruct (He j e' Hj) as (e & H1 & H2). exists e.
  split; [done|]. destruct (Z.ltb_spec (Z.of_nat j) 0); [lia|done].
Qed.

Lemma cleanup_spec n i nif st :
  inv st -> i + Z.of_nat n = ARP_TABLE_SIZE -> 0 <= i ->
  exists st', cleanup_loop n i nif st = Some st' /\ inv st' /\ (forall id, balance st' id = balance st id).
Proof.
  revert i st. induction n as [|n IH]; intros i st Hinv Hn Hi; cbn [cleanup_loop]; [by exists st|].
  destruct (entry_at st i Hinv ltac:(lia)) as (e & He & Hrd & Hok & Hwr). rewrite Hrd. cbn [mbind option_bind].
  destruct (negb (is_empty (state e)) && (enetif e =? netif_id nif)).
  - destruct (free_entry_spec st i Hinv ltac:(lia)) as (e1 & st1 & _ & -> & Hinv1 & _ & Hb1). cbn [mbind option_bind].
    destruct (IH (i + 1) st1 Hinv1 ltac:(lia) ltac:(lia)) as (st2 & -> & Hinv2 & Hb2).
    exists st2. split_and!; auto. intros id. by rewrite Hb2, Hb1.
  - cbn [mbind option_bind]. apply IH; auto; lia.
Qed.

Lemma take_over_spec st p :
  exists r st', take_over st p = (r, st') /\ arp_table st' = arp_table st /\
    etharp_cached_entry st' = etharp_cached_entry st /\
    forall id, balance st' id = balance st id +
      match r with Some p' => if (pid p' =? id)%nat then 1 else 0 | None => 0 end.
Proof.
  unfold take_over. destruct (first_non_rom (segs p)) as [sg|].
  - unfold pbuf_alloc. destruct (pbuf_alloc_ok (allocs st)).
    + destruct (tot_len sg <? tot_len (segs p)).
      * eexists _, _. split; [done|]. split_and!; try done. intros id.
        rewrite !balance_emit. cbn [ev_bal]. unfold balance at 1. cbn [events arp_table].
        fold (balance st id). destruct (_ =? _)%nat; lia.
      * eexists _, _. split; [done|]. split_and!; try done. intros id. rewrite balance_emit. done.
    + eexists _, _. split; [done|]. split_and!; try done. intros id. cbn. rewrite Z.add_0_r. done.
  - eexists _, _. split; [done|]. split_and!; try done. intros id. rewrite balance_emit. done.
Qed.

Lemma query_spec st nif a pk :
  inv st -> exists r st', etharp_query st nif a pk = Some (r, st') /\ inv st' /\
    forall id, balance st' id = balance st id.
Proof.
  intros Hinv. unfold etharp_query. destruct (non_unicast nif a); [eauto|].
  destruct (find_entry_spec st a ETHARP_FLAG_TRY_HARD Hinv ltac:(by left)) as (i & st1 & -> & Hinv1 & Hfound & Hb1).
  cbn [mbind option_bind].
  destruct Hfound as [(_ & _ & _ & Hx)|(Hi & e0 & He0 & Ha & Hcase)]; [done|].
  replace (i <? 0) with false by (unfold ARP_TABLE_SIZE in Hi; lia).
  destruct (entry_at st1 i Hinv1 Hi) as (e & He & Hrd & Hok & Hwr). assert (e0 = e) as -> by congruence.
  rewrite Hrd. cbn [mbind option_bind]. rewrite Hwr. cbn [mbind option_bind].
  set (e1 := if is_empty (state e) then set_state e ETHARP_STATE_PENDING else e).
  set (st2 := with_table st1 (<[Z.to_nat i := e1]> (arp_table st1))).
  assert (Hok1 : entry_ok e1).
  { unfold e1. destruct (is_empty (state e)) eqn:Em; [|done].
    destruct Hcase as [[_ H]|(_ & _ & Hc & _)]; [congruence|]. destruct Hok.
    split; cbn; auto; unfold ARP_MAXAGE, ARP_MAXPENDING; try lia. }
  assert (Hinv2 : inv st2).
  { destruct Hcase as [[-> Hne]|(_ & Hem & _ & _ & Hno)].
    - apply (inv_update_same _ _ e); auto. unfold e1. by rewrite Hne.
    - apply (inv_update _ _ e); auto. intros _ j x Hj _ Hx. unfold e1. rewrite Hem.
      cbn [set_state ipaddr]. rewrite Ha. by apply (Hno j). }
  assert (Hqe : q e1 = q e) by (unfold e1; by destruct (is_empty (state e))).
  assert (Hb2 : forall id, balance st2 id = balance st id).
  { intros id. rewrite <- Hb1. unfold balance, st2. cbn [with_table events arp_table].
    rewrite (queued_insert id _ _ e) by done. unfold q_count. rewrite Hqe. lia. }
  destruct (if is_pending (state e1) || bool_decide (pk = None) then etharp_request st2 nif a else (ERR_MEM, st2))
    as [r st3] eqn:E3.
  assert (Hq3 : quiet st2 st3).
  { destruct (is_pending (state e1) || bool_decide (pk = None)).
    - pose proof (request_quiet st2 nif a) as Hq. by rewrite E3 in Hq.
    - injection E3 as _ <-. apply quiet_refl. }
  pose proof (quiet_inv _ _ Hq3 Hinv2) as Hinv3.
  assert (Hb3 : forall id, balance st3 id = balance st id) by (intros id; by rewrite (quiet_bal _ _ Hq3), Hb2).
  assert (He3 : arp_table st3 !! Z.to_nat i = Some e1).
  { rewrite (quiet_table _ _ Hq3). unfold st2. cbn [with_table arp_table].
    apply list_lookup_insert_eq. by eapply lookup_lt_Some. }
  destruct pk as [p|]; [|eauto].
  destruct (stable (state e1)).
  { destruct (etharp_send_ip (with_hint st3 i) nif (frame p) (hwaddr nif) (ethaddr e1)) as [r4 st4] eqn:E4.
    pose proof (send_ip_quiet (with_hint st3 i) nif (frame p) (hwaddr nif) (ethaddr e1)) as Hq4. rewrite E4 in Hq4.
    exists r4, st4. split; [done|]. split.
    - apply (quiet_inv _ _ Hq4). by apply (inv_events st3 i).
    - intros id. rewrite (quiet_bal _ _ Hq4). apply Hb3. }
  destruct (is_pending (state e1)) eqn:Ep; [|eauto].
  destruct (take_over_spec st3 p) as (rp & st4 & -> & Ht4 & Hh4 & Hb4).
  assert (Hinv4 : inv st4) by (destruct Hinv3; split; rewrite ?Ht4, ?Hh4; done).
  destruct rp as [p'|].
  2:{ exists ERR_MEM, st4. split; [done|]. split; [done|]. intros id. rewrite Hb4, Hb3. lia. }
  set (st5 := match q e1 with Some old => pbuf_free st4 old | None => st4 end).
  assert (Ht5 : arp_table st5 = arp_table st4) by (unfold st5; by destruct (q e1)).
  assert (Hinv5 : inv st5) by (unfold st5; destruct (q e1); [by apply (inv_events st4 0)|done]).
  destruct (entry_at st5 i Hinv5 Hi) as (e5 & He5 & _ & _ & Hwr5). rewrite Ht5, Ht4, He3 in He5. injection He5 as <-.
  rewrite Hwr5. cbn [mbind option_bind]. eexists _, _. split; [done|].
  assert (He5 : arp_table st5 !! Z.to_nat i = Some e1) by by rewrite Ht5, Ht4.
  split.
  - apply (inv_update_same _ _ e1); auto. destruct Hok1. split; cbn; auto.
  - intros id. rewrite <- (Hb3 id). pose proof (Hb4 id) as Hb. unfold balance in Hb |- *.
    cbn [with_table events arp_table]. rewrite (queued_insert id _ _ e1) by done.
    rewrite Ht4 in Hb. rewrite Ht5, Ht4. unfold q_count. cbn [set_q q]. unfold st5.
    destruct (q e1) as [old|]; cbn [pbuf_free emit_ev events]; rewrite ?bal_app; cbn [bal ev_bal];
      repeat (destruct (_ =? _)%nat); lia.
Qed.

Lemma output_to_index_spec st nif f i :
  inv st -> 0 <= i < ARP_TABLE_SIZE ->
  exists r st', etharp_output_to_arp_index st nif f i = Some (r, st') /\ inv st' /\
    forall id, balance st' id = balance st id.
Proof.
  intros Hinv Hi. destruct (entry_at st i Hinv Hi) as (e & He & Hrd & Hok & Hwr).
  unfold etharp_output_to_arp_index. rewrite Hrd. cbn [mbind option_bind].
  assert (Hsend : forall st1, inv st1 -> (forall id, balance st1 id = balance st id) ->
    exists r st', Some (etharp_send_ip st1 nif f (hwaddr nif) (ethaddr e)) = Some (r, st') /\ inv st' /\
      forall id, balance st' id = balance st id).
  { intros st1 Hi1 Hb1. destruct (etharp_send_ip st1 nif f (hwaddr nif) (ethaddr e)) as [r st2] eqn:E.
    pose proof (send_ip_quiet st1 nif f (hwaddr nif) (ethaddr e)) as Hq. rewrite E in Hq.
    exists r, st2. split; [done|]. split; [by apply (quiet_inv _ _ Hq)|].
    intros id. by rewrite (quiet_bal _ _ Hq). }
  destruct (bool_decide (state e = ETHARP_STATE_STABLE) && (ARP_AGE_REREQUEST_USED <=? ctime e)) eqn:Eb;
    [|cbn [mbind option_bind]; by apply Hsend].
  apply andb_true_iff in Eb as [Es%bool_decide_eq_true _].
  destruct (etharp_request st nif (ipaddr e)) as [r st1] eqn:E.
  pose proof (request_quiet st nif (ipaddr e)) as Hq. rewrite E in Hq. cbn [snd] in Hq.
  pose proof (quiet_inv _ _ Hq Hinv) as Hinv1.
  destruct (r =? ERR_OK); [|cbn [mbind option_bind]; apply Hsend; [done|apply (quiet_bal _ _ Hq)]].
  rewrite (quiet_table _ _ Hq), Hwr. cbn [mbind option_bind]. rewrite <- (quiet_table _ _ Hq).
  assert (He1 : arp_table st1 !! Z.to_nat i = Some e) by by rewrite (quiet_table _ _ Hq).
  apply Hsend.
  - apply (inv_update_same _ _ e); auto; [|by rewrite Es]. destruct Hok as [A1 A2 A3 A4 A5].
    rewrite Es in *. split; cbn; auto.
  - intros id. rewrite <- (quiet_bal _ _ Hq). unfold balance. cbn [with_table events arp_table].
    rewrite (queued_insert id _ _ e) by done. unfold q_count. cbn [set_state q]. lia.
Qed.

Lemma find_stable_range t i a k :
  find_stable t i a = Some k -> i <= k < i + Z.of_nat (length t).
Proof.
  revert i. induction t as [|e t IH]; intros i; cbn [find_stable length]; [done|].
  case_match; [intros [= <-]; lia|]. intros Hk. apply IH in Hk. lia.
Qed.

Lemma output_spec st nif p room a :
  inv st -> exists r st', etharp_output st nif p room a = Some (r, st') /\ inv st' /\
    forall id, balance st' id = balance st id.
Proof.
  intros Hinv. unfold etharp_output. destruct room; cbn [negb]; [|eauto].
  set (p1 := match segs p with (rom, d) :: s => mkPbuf (pid p) ((rom, replicate 14 0 ++ d) :: s) | [] => p end).
  assert (Hsend : forall dst, exists r st', Some (etharp_send_ip st nif (frame p1) (hwaddr nif) dst) = Some (r, st') /\
    inv st' /\ forall id, balance st' id = balance st id).
  { intros dst. destruct (etharp_send_ip st nif (frame p1) (hwaddr nif) dst) as [r st2] eqn:E.
    pose proof (send_ip_quiet st nif (frame p1) (hwaddr nif) dst) as Hq. rewrite E in Hq.
    exists r, st2. split; [done|]. split; [by apply (quiet_inv _ _ Hq)|]. apply (quiet_bal _ _ Hq). }
  destruct (ip4_addr_isbroadcast _ _ _ _); [apply Hsend|].
  destruct (ip_addr_ismulticast a); [apply Hsend|].
  set (remote := negb _ && negb _). destruct (remote && ip_addr_isany (gw nif)); [eauto|].
  set (dst := if remote then gw nif else a).
  destruct (entry_at st _ Hinv (inv_hint _ Hinv)) as (e & He & -> & Hok & _). cbn [mbind option_bind].
  destruct (stable (state e) && (dst =? ipaddr e)).
  { apply output_to_index_spec; [done|apply (inv_hint _ Hinv)]. }
  destruct (find_stable (arp_table st) 0 dst) as [i|] eqn:Ef; [|by apply query_spec].
  apply find_stable_range in Ef. rewrite (inv_len _ Hinv) in Ef.
  assert (Hi : 0 <= i < ARP_TABLE_SIZE) by (unfold ARP_TABLE_SIZE; lia).
  destruct (output_to_index_spec (with_hint st i) nif (frame p1) i) as (r & st' & E & Hinv' & Hb); [|done|].
  { by apply (inv_events st i). }
  exists r, st'. split; [done|]. split; [done|]. intros id. by rewrite Hb.
Qed.

(** A well-formed ARP packet: long enough, Ethernet and IPv4. *)
Definition arp_valid (f : list Z) : bool :=
  (SIZEOF_ETHARP_PACKET <=? Z.of_nat (length f)) &&
  bool_decide (sub f OFF_HWTYPE 2 = be16 1) && (nth OFF_HWLEN f 0 =? 6) &&
  (nth OFF_PROTOLEN f 0 =? 4) && bool_decide (sub f OFF_PROTO 2 = ETHTYPE_IP).
Definition arp_for_us (nif : netif) (f : list Z) : bool :=
  negb (ip_addr_isany (ip_addr nif)) && (ip_of (sub f OFF_DIPADDR 4) =? ip_addr nif).

Lemma arp_input_spec st nif mac id f :
  inv st -> exists st', etharp_arp_input st nif mac id f = Some st' /\ inv st' /\
    (forall k, balance st' k = balance st k - if (id =? k)%nat then 1 else 0) /\
    (arp_valid f = true -> arp_for_us nif f = true ->
     non_unicast nif (ip_of (sub f OFF_SIPADDR 4)) = false ->
     learned st' (ip_of (sub f OFF_SIPADDR 4)) (sub f OFF_SHWADDR 6)).
Proof.
  intros Hinv. unfold etharp_arp_input.
  assert (Hdrop : exists st', Some (emit_ev st (Free id)) = Some st' /\ inv st' /\
    (forall k, balance st' k = balance st k - if (id =? k)%nat then 1 else 0)).
  { eexists. split; [done|]. split; [by apply (inv_events st 0)|].
    intros k. rewrite balance_emit. cbn [ev_bal]. destruct (_ =? _)%nat; lia. }
  assert (Hbad : forall P : arp -> Prop, arp_valid f = false ->
    exists st', Some (emit_ev st (Free id)) = Some st' /\ inv st' /\
      (forall k, balance st' k = balance st k - if (id =? k)%nat then 1 else 0) /\ (arp_valid f = true -> P st')).
  { intros P Hv. destruct Hdrop as (st' & E & H1 & H2). exists st'. split_and!; auto. congruence. }
  destruct (Z.ltb_spec (Z.of_nat (length f)) SIZEOF_ETHARP_PACKET) as [Hlen|Hlen].
  { refine (Hbad (fun st' => _ -> _ -> learned st' _ _) _). unfold arp_valid. replace (SIZEOF_ETHARP_PACKET <=? Z.of_nat (length f)) with false; [done|].
    symmetry. by apply Z.leb_gt. }
  destruct (negb (bool_decide (sub f OFF_HWTYPE 2 = be16 1)) || negb (nth OFF_HWLEN f 0 =? 6) ||
     negb (nth OFF_PROTOLEN f 0 =? 4) || negb (bool_decide (sub f OFF_PROTO 2 = ETHTYPE_IP))) eqn:Ebad.
  { refine (Hbad (fun st' => _ -> _ -> learned st' _ _) _). unfold arp_valid.
    destruct (bool_decide _), (_ =? 6), (_ =? 4), (bool_decide _); try done; by rewrite ?andb_false_r. }
  set (sip := ip_of (sub f OFF_SIPADDR 4)).
  set (for_us := if ip_addr_isany (ip_addr nif) then false else ip_of (sub f OFF_DIPADDR 4) =? ip_addr nif).
  assert (Hmac : length (sub f OFF_SHWADDR 6) = 6%nat).
  { unfold sub. rewrite length_take, length_drop. unfold OFF_SHWADDR. change SIZEOF_ETHARP_PACKET with 42 in Hlen. lia. }
  destruct (update_spec st nif sip (sub f OFF_SHWADDR 6)
     (if for_us then ETHARP_FLAG_TRY_HARD else ETHARP_FLAG_FIND_ONLY) Hinv ltac:(lia) ltac:(destruct for_us; auto))
    as (r & st1 & -> & Hinv1 & Hb1 & Hcase).
  cbn [mbind option_bind].
  set (st2 := if bool_decide (sub f OFF_OPCODE 2 = be16 ARP_REQUEST) then _ else _).
  assert (H2 : arp_table st2 = arp_table st1 /\ inv st2 /\ forall k, balance st2 k = balance st1 k).
  { unfold st2. destruct (bool_decide (sub f OFF_OPCODE 2 = be16 ARP_REQUEST)).
    - destruct for_us; [|by split_and!]. match goal with |- context [linkoutput st1 nif ?g] =>
        pose proof (linkoutput_quiet st1 nif g) as Hq end.
      split; [apply (quiet_table _ _ Hq)|]. split; [by apply (quiet_inv _ _ Hq)|apply (quiet_bal _ _ Hq)].
    - destruct (bool_decide (sub f OFF_OPCODE 2 = be16 ARP_REPLY)); [|by split_and!]. split; [done|]. split; [by apply (inv_events st1 0)|].
      intros k. rewrite balance_emit. cbn [ev_bal]. lia. }
  clearbody st2. destruct H2 as (Ht2 & Hinv2 & Hb2).
  eexists. split; [done|]. split; [by apply (inv_events st2 0)|]. split.
  - intros k. rewrite balance_emit, Hb2, Hb1. cbn [ev_bal]. destruct (_ =? _)%nat; lia.
  - intros _ Hfor Huni. rewrite Huni in Hcase.
    assert (Hfu : for_us = true).
    { unfold for_us. unfold arp_for_us in Hfor. by destruct (ip_addr_isany (ip_addr nif)). }
    rewrite Hfu in Hcase. destruct Hcase as [[_ (i & e & H1 & H2 & H3 & H4 & H5)]|[? _]]; [|done].
    exists i, e. cbn [emit_ev arp_table]. rewrite Ht2. split_and!; auto.
    rewrite H4. apply take_ge. lia.
Qed.

(** ** The operations as one interface *)

Inductive op :=
  | Tmr
  | Cleanup (nif : netif)
  | Output (nif : netif) (p : pbuf) (room : bool) (a : Z)
  | Query (nif : netif) (a : Z) (p : option pbuf)
  | Input (nif : netif) (id : nat) (f : list Z).

Definition exec (st : arp) (o : op) : option arp :=
  match o with
  | Tmr => etharp_tmr st
  | Cleanup nif => etharp_cleanup_netif st nif
  | Output nif p room a => r ← etharp_output st nif p room a; Some r.2
  | Query nif a p => r ← etharp_query st nif a p; Some r.2
  | Input nif id f => ethernet_input st nif id f
  end.

(** The frame is handed to the IP layer, which then owns it. *)
Definition passed_on (nif : netif) (f : list Z) : bool :=
  (SIZEOF_ETH_HDR <? Z.of_nat (length f)) && bool_decide (sub f OFF_TYPE 2 = ETHTYPE_IP) &&
  negb (Z.land (flags nif) NETIF_FLAG_ETHARP =? 0).

(** References to buffer [id] that the operation takes over from its caller. *)
Definition consumes (o : op) (id : nat) : Z :=
  match o with
  | Input nif k f => if (k =? id)%nat && negb (passed_on nif f) then 1 else 0
  | _ => 0
  end.

Lemma ethernet_input_spec st nif id f :
  inv st -> exists st', ethernet_input st nif id f = Some st' /\ inv st' /\
    forall k, balance st' k = balance st k - consumes (Input nif id f) k.
Proof.
  intros Hinv. unfold ethernet_input. cbn [consumes]. unfold passed_on.
  assert (Hdrop : exists st', Some (emit_ev st (Free id)) = Some st' /\ inv st' /\
    (forall k, balance st' k = balance st k - if (id =? k)%nat && true then 1 else 0)).
  { eexists. split; [done|]. split; [by apply (inv_events st 0)|].
    intros k. rewrite balance_emit, andb_true_r. cbn [ev_bal]. destruct (_ =? _)%nat; lia. }
  destruct (Z.leb_spec (Z.of_nat (length f)) SIZEOF_ETH_HDR) as [Hl|Hl].
  { replace (SIZEOF_ETH_HDR <? Z.of_nat (length f)) with false by (symmetry; apply Z.ltb_ge; lia). exact Hdrop. }
  replace (SIZEOF_ETH_HDR <? Z.of_nat (length f)) with true by (symmetry; apply Z.ltb_lt; lia).
  destruct (bool_decide (sub f OFF_TYPE 2 = ETHTYPE_IP)); cbn [andb].
  { destruct (_ =? 0); cbn [negb]; [exact Hdrop|]. eexists. split; [done|]. split; [by apply (inv_events st 0)|].
    intros k. rewrite balance_emit, andb_false_r. cbn [ev_bal]. lia. }
  cbn [negb].
  destruct (bool_decide (sub f OFF_TYPE 2 = ETHTYPE_ARP)); [|exact Hdrop].
  destruct (_ =? 0); [exact Hdrop|].
  destruct (arp_input_spec st nif (hwaddr nif) id f Hinv) as (st' & -> & H1 & H2 & _).
  exists st'. split_and!; auto. intros k. by rewrite H2, andb_true_r.
Qed.

(** C37: every operation of the ARP module, in every environment (failing
    allocations and transmissions included), completes without an access
    outside the table and keeps its invariant: no address is in the table
    twice, pending entries are at most one tick old and all others less than
    240, and only pending entries have a packet queued.  No buffer is lost and
    none is freed twice: the references taken, less those given back, less
    those in the queues change only by what the caller hands over. *)
Theorem arp_operations_safe st o :
  inv st -> exists st', exec st o = Some st' /\ inv st' /\
    forall id, balance st' id = balance st id - consumes o id.
Proof.
  intros Hinv. destruct o as [|nif|nif p room a|nif a p|nif id f]; cbn [exec consumes].
  - destruct (tmr_spec st Hinv) as (st' & -> & H1 & H2 & _). exists st'. split_and!; auto.
    intros id. rewrite H2. lia.
  - destruct (cleanup_spec 10 0 nif st Hinv eq_refl ltac:(lia)) as (st' & E & H1 & H2). exists st'.
    split; [exact E|]. split; [done|]. intros id. rewrite H2. lia.
  - destruct (output_spec st nif p room a Hinv) as (r & st' & -> & H1 & H2). exists st'.
    split; [done|]. split; [done|]. intros id. rewrite H2. lia.
  - destruct (query_spec st nif a p Hinv) as (r & st' & -> & H1 & H2). exists st'.
    split; [done|]. split; [done|]. intros id. rewrite H2. lia.
  - by apply ethernet_input_spec.
Qed.

Fixpoint ticks (n : nat) (st : arp) : option arp :=
  match n with O => Some st | S n => st ← etharp_tmr st; ticks n st end.

Lemma ticks_spec n st :
  inv st -> exists st', ticks n st = Some st' /\ inv st' /\
    forall j e', arp_table st' !! j = Some e' -> is_empty (state e') = false ->
      exists e, arp_table st !! j = Some e /\ is_empty (state e) = false /\ ctime e' = ctime e + Z.of_nat n /\
        ipaddr e' = ipaddr e /\ ethaddr e' = ethaddr e /\ stable (state e') = stable (state e).
Proof.
  revert st. induction n as [|n IH]; intros st Hinv; cbn [ticks].
  - exists st. split_and!; auto. intros j e' Hj He. exists e'. change (Z.of_nat 0) with 0. split_and!; auto. lia.
  - destruct (tmr_spec st Hinv) as (st1 & -> & Hinv1 & _ & Hag). cbn [mbind option_bind].
    destruct (IH st1 Hinv1) as (st2 & -> & Hinv2 & Hent). exists st2. split_and!; auto.
    intros j e' Hj He. destruct (Hent j e' Hj He) as (e1 & Hj1 & He1 & Hc & Hip & Hm & Hs).
    destruct (Hag j e1 Hj1) as (e & Hj0 & Ha). exists e. unfold aged in Ha.
    destruct (is_empty (state e)) eqn:Em; [congruence|].
    destruct Ha as (A1 & A2 & A3 & A4 & A5). specialize (A5 He1). split_and!; try congruence; lia.
Qed.

(** addresses expire.  When no packet refreshes them, requests that nobody
    answers are given up at the second timer tick and every entry is gone
    after 240 ticks (20 minutes); entries that are still there keep their
    addresses. *)
Theorem arp_entries_expire st n :
  inv st -> exists st', ticks n st = Some st' /\ inv st' /\
    (forall j e', arp_table st' !! j = Some e' -> is_empty (state e') = false ->
       Z.of_nat n < ARP_MAXAGE /\ (is_pending (state e') = true -> Z.of_nat n < ARP_MAXPENDING) /\
       exists e, arp_table st !! j = Some e /\ ipaddr e' = ipaddr e /\ ethaddr e' = ethaddr e).
Proof.
  intros Hinv. destruct (ticks_spec n st Hinv) as (st' & E & Hinv' & Hent). exists st'. split_and!; auto.
  intros j e' Hj He. destruct (Hent j e' Hj He) as (e & Hj0 & He0 & Hc & Hip & Hm & _).
  pose proof (Forall_lookup_1 _ _ _ _ (inv_ok _ Hinv') Hj) as [_ B2 B3 _ _].
  pose proof (Forall_lookup_1 _ _ _ _ (inv_ok _ Hinv) Hj0) as [A1 _ _ _ _].
  specialize (B2 He). split; [lia|]. split; [|eauto]. intros Hp. specialize (B3 Hp). lia.
Qed.

(** *** Lookup *)
Lemma learned_found st a m :
  inv st -> learned st a m -> exists i, etharp_find_addr st a = Some (i, Some (m, a), st).
Proof.
  intros Hinv (k & e & Hk & Hs & Ha & Hm & _). unfold etharp_find_addr, etharp_find_entry.
  assert (Hct : Forall (fun e => 0 <= ctime e) (arp_table st)).
  { eapply Forall_impl; [apply (inv_ok _ Hinv)|]. by intros x [? _ _ _ _]. }
  pose proof (sweep_spec (arp_table st) [] (Some a) no_cands swept_start Hct ltac:(done)) as Hsw.
  cbn [length app] in Hsw. change (Z.of_nat 0) with 0 in Hsw.
  destruct (sweep (arp_table st) 0 (Some a) no_cands) as [i|c].
  - destruct Hsw as (x & Hx & Hi & Hmt). cbn [mbind option_bind].
    unfold matches in Hmt. apply andb_true_iff in Hmt as [Hm1 Hm2%Z.eqb_eq].
    assert (Z.to_nat i = k) as Hik.
    { apply (inv_unique _ Hinv _ _ x e); auto; [by destruct (state x)|by rewrite Hs|congruence]. }
    rewrite Hik in Hx. assert (x = e) as -> by congruence.
    replace (0 <=? i) with true by lia.
    unfold rd. replace (i <? 0) with false by lia. rewrite Hik, Hk. cbn [mbind option_bind].
    rewrite Hs. cbn [stable]. exists i. congruence.
  - exfalso. destruct Hsw as [_ Hno]. pose proof (Forall_lookup_1 _ _ _ _ Hno Hk) as Hx. cbn in Hx.
    unfold matches in Hx. rewrite Hs, Ha, Z.eqb_refl in Hx. done.
Qed.

End environment.

(** ** Two stations *)

Record station (nif : netif) : Prop := {
  sta_mac : length (hwaddr nif) = 6%nat;
  sta_ip : in_u32 (ip_addr nif);
  sta_up : ip_addr_isany (ip_addr nif) = false;
  sta_arp : Z.land (flags nif) NETIF_FLAG_ETHARP <> 0
}.

(** The parts of a packet that [etharp_raw] built. *)
Lemma arp_packet_parts es ed hs si hd idst opc :
  length es = 6%nat -> length ed = 6%nat -> length hs = 6%nat -> length hd = 6%nat ->
  let f := arp_packet es ed hs si hd idst opc in
  length f = 42%nat /\ sub f OFF_TYPE 2 = ETHTYPE_ARP /\ arp_valid f = true /\
  sub f OFF_SHWADDR 6 = hs /\ sub f OFF_SIPADDR 4 = ip_bytes si /\ sub f OFF_DIPADDR 4 = ip_bytes idst /\
  sub f OFF_OPCODE 2 = be16 opc.
Proof.
  intros H1 H2 H3 H4. do 7 (destruct es as [|? es]; try done). do 7 (destruct ed as [|? ed]; try done).
  do 7 (destruct hs as [|? hs]; try done). do 7 (destruct hd as [|? hd]; try done).
Qed.

(** What is made of a request on the spot is the packet that [etharp_raw]
    would build for the reply. *)
Lemma reply_in_place es ed hs si hd us mac :
  length es = 6%nat -> length ed = 6%nat -> length hs = 6%nat -> length hd = 6%nat -> length mac = 6%nat ->
  let f := arp_packet es ed hs si hd us ARP_REQUEST in
  let f := patch f OFF_OPCODE (be16 ARP_REPLY) in
  let f := patch f OFF_DIPADDR (sub f OFF_SIPADDR 4) in
  let f := patch f OFF_SIPADDR (ip_bytes us) in
  let f := patch f OFF_DHWADDR (sub f OFF_SHWADDR 6) in
  let f := patch f OFF_DEST (sub f OFF_SHWADDR 6) in
  let f := patch f OFF_SHWADDR (take 6 mac) in
  let f := patch f OFF_SRC (take 6 mac) in
  f = arp_packet mac hs mac us hs si ARP_REPLY.
Proof.
  intros H1 H2 H3 H4 H5. do 7 (destruct es as [|? es]; try done). do 7 (destruct ed as [|? ed]; try done).
  do 7 (destruct hs as [|? hs]; try done). do 7 (destruct hd as [|? hd]; try done).
  do 7 (destruct mac as [|? mac]; try done).
Qed.

Lemma request_answered err st nif id es ed hs si hd :
  inv st -> station nif -> in_u32 si -> non_unicast nif si = false ->
  length es = 6%nat -> length ed = 6%nat -> length hs = 6%nat -> length hd = 6%nat ->
  exists st' ev, ethernet_input err st nif id (arp_packet es ed hs si hd (ip_addr nif) ARP_REQUEST) = Some st' /\
    inv st' /\ learned st' si hs /\
    events st' = ev ++ [Transmit (netif_id nif) (arp_packet (hwaddr nif) hs (hwaddr nif) (ip_addr nif) hs si ARP_REPLY);
                        Free id].
Proof.
  intros Hinv [S1 S2 S3 S4] His Huni H1 H2 H3 H4.
  set (f := arp_packet es ed hs si hd (ip_addr nif) ARP_REQUEST).
  destruct (arp_packet_parts es ed hs si hd (ip_addr nif) ARP_REQUEST H1 H2 H3 H4)
    as (P1 & P2 & P3 & P4 & P5 & P6 & P7). fold f in P1, P2, P3, P4, P5, P6, P7.
  unfold ethernet_input. rewrite P1, P2. change (Z.of_nat 42 <=? SIZEOF_ETH_HDR) with false. cbn iota.
  rewrite bool_decide_eq_false_2 by done. rewrite bool_decide_eq_true_2 by done.
  replace (Z.land (flags nif) NETIF_FLAG_ETHARP =? 0) with false by lia.
  assert (Hfor : arp_for_us nif f = true).
  { unfold arp_for_us. rewrite S3, P6, ip_of_bytes, Z.eqb_refl by done. done. }
  destruct (arp_input_spec err st nif (hwaddr nif) id f Hinv) as (st' & E & Hinv' & _ & Hlearn).
  rewrite P5, ip_of_bytes, P4 in Hlearn by done. specialize (Hlearn P3 Hfor Huni).
  revert E. unfold etharp_arp_input. rewrite P1. change (Z.of_nat 42 <? SIZEOF_ETHARP_PACKET) with false. cbn iota.
  unfold arp_valid in P3. repeat (apply andb_true_iff in P3 as [P3 ?]).
  destruct (negb (bool_decide (sub f OFF_HWTYPE 2 = be16 1)) || _ || _ || _) eqn:Eb.
  { exfalso. destruct (bool_decide (sub f OFF_HWTYPE 2 = be16 1)), (nth OFF_HWLEN f 0 =? 6),
      (nth OFF_PROTOLEN f 0 =? 4), (bool_decide (sub f OFF_PROTO 2 = ETHTYPE_IP)); done. }
  rewrite S3, P5, P6, P7, !ip_of_bytes, Z.eqb_refl, P4 by done. rewrite bool_decide_eq_true_2 by done.
  destruct (etharp_update_arp_entry _ _ _ _ _ _) as [[r st1]|]; [|done]. cbn [mbind option_bind].
  intros E. exists st'.
  pose proof (reply_in_place es ed hs si hd (ip_addr nif) (hwaddr nif) H1 H2 H3 H4 S1) as Hr.
  cbn zeta in Hr. fold f in Hr. rewrite Hr in E |- *. injection E as <-.
  exists (events st1). split; [done|]. split; [done|]. split; [done|].
  cbn [emit_ev linkoutput events snd]. by rewrite <- app_assoc.
Qed.

Lemma reply_learned err st nif id es ed hs si hd :
  inv st -> station nif -> in_u32 si -> non_unicast nif si = false ->
  length es = 6%nat -> length ed = 6%nat -> length hs = 6%nat -> length hd = 6%nat ->
  exists st', ethernet_input err st nif id (arp_packet es ed hs si hd (ip_addr nif) ARP_REPLY) = Some st' /\
    inv st' /\ learned st' si hs.
Proof.
  intros Hinv [S1 S2 S3 S4] His Huni H1 H2 H3 H4.
  set (f := arp_packet es ed hs si hd (ip_addr nif) ARP_REPLY).
  destruct (arp_packet_parts es ed hs si hd (ip_addr nif) ARP_REPLY H1 H2 H3 H4)
    as (P1 & P2 & P3 & P4 & P5 & P6 & P7). fold f in P1, P2, P3, P4, P5, P6, P7.
  unfold ethernet_input. rewrite P1, P2. change (Z.of_nat 42 <=? SIZEOF_ETH_HDR) with false. cbn iota.
  rewrite bool_decide_eq_false_2 by done. rewrite bool_decide_eq_true_2 by done.
  replace (Z.land (flags nif) NETIF_FLAG_ETHARP =? 0) with false by lia.
  assert (Hfor : arp_for_us nif f = true).
  { unfold arp_for_us. rewrite S3, P6, ip_of_bytes, Z.eqb_refl by done. done. }
  destruct (arp_input_spec err st nif (hwaddr nif) id f Hinv) as (st' & E & Hinv' & _ & Hlearn).
  rewrite P5, ip_of_bytes, P4 in Hlearn by done. specialize (Hlearn P3 Hfor Huni).
  exists st'. done.
Qed.

(** C7: address resolution works.  Station A asks for the address of station B
    ([etharp_request]); B, on receiving that frame, knows A's address pair and
    answers with a frame; A, on receiving that frame, knows B's: looking the
    address up yields B's hardware address. *)
Theorem arp_resolution okA errA errB nifA nifB A B idA idB :
  inv A -> inv B -> station nifA -> station nifB ->
  non_unicast nifA (ip_addr nifB) = false -> non_unicast nifB (ip_addr nifA) = false ->
  okA (allocs A) = true ->
  exists A1 request B' evB reply A2 i,
    (etharp_request okA errA A nifA (ip_addr nifB)).2 = A1 /\
    events A1 = events A ++ [Take (allocs A); Transmit (netif_id nifA) request; Free (allocs A)] /\
    ethernet_input errB B nifB idB request = Some B' /\
    learned B' (ip_addr nifA) (hwaddr nifA) /\
    events B' = evB ++ [Transmit (netif_id nifB) reply; Free idB] /\
    ethernet_input errA A1 nifA idA reply = Some A2 /\
    etharp_find_addr A2 (ip_addr nifB) = Some (i, Some (hwaddr nifB, ip_addr nifB), A2).
Proof.
  intros HA HB SA SB UA UB Hok.
  pose proof (sta_mac _ SA) as MA. pose proof (sta_mac _ SB) as MB.
  pose proof (quiet_inv _ _ (request_quiet okA errA A nifA (ip_addr nifB)) HA) as HA1.
  destruct (request_answered errB B nifB idB (hwaddr nifA) ethbroadcast (hwaddr nifA) (ip_addr nifA) ethzero)
    as (B' & evB & E1 & _ & L1 & Hev); auto; [apply (sta_ip _ SA)|].
  destruct (reply_learned errA (etharp_request okA errA A nifA (ip_addr nifB)).2 nifA idA
    (hwaddr nifB) (hwaddr nifA) (hwaddr nifB) (ip_addr nifB) (hwaddr nifA))
    as (A2 & E2 & HA2 & L2); auto; [apply (sta_ip _ SB)|].
  destruct (learned_found A2 _ _ HA2 L2) as (i & Ef).
  eexists _, _, B', evB, _, A2, i. split; [done|]. split; [|split; [exact E1|]; split_and!; eauto].
  unfold etharp_request, etharp_raw, pbuf_alloc. rewrite Hok. cbn [emit_ev linkoutput events snd].
  by rewrite <- !app_assoc.
Qed.

(** *** Instances *)
Definition nif_a : netif := mkNetif 1 [2; 0; 0; 0; 0; 1] 0x0100000a 0x00ffffff 0 (0x20 + 0x02).
Definition nif_b : netif := mkNetif 1 [2; 0; 0; 0; 0; 2] 0x0200000a 0x00ffffff 0 (0x20 + 0x02).

Lemma inv_start : inv arp_start.
Proof.
  split; [done| | |by unfold ARP_TABLE_SIZE].
  - apply Forall_replicate. by split.
  - intros i j e1 e2 H1 H2 N1. apply lookup_replicate in H1 as [-> _]. done.
Qed.

Lemma station_a : station nif_a.
Proof. by split. Qed.
Lemma station_b : station nif_b.
Proof. by split. Qed.

Lemma arp_operations_safe_witness :
  exists st', exec (fun _ => true) (fun _ => 0) arp_start (Output nif_a (mkPbuf 7 [(false, [1; 2])]) true 0x0200000a) = Some st' /\
    inv st' /\ balance st' 0 = 0.
Proof.
  destruct (arp_operations_safe (fun _ => true) (fun _ => 0) arp_start
    (Output nif_a (mkPbuf 7 [(false, [1; 2])]) true 0x0200000a) inv_start) as (st' & E & H1 & H2).
  exists st'. split; [exact E|]. split; [exact H1|]. rewrite H2. reflexivity.
Defined.

Lemma arp_entries_expire_witness :
  exists st', ticks 240 arp_start = Some st' /\
    forall j e', arp_table st' !! j = Some e' -> is_empty (state e') = true.
Proof.
  destruct (arp_entries_expire arp_start 240 inv_start) as (st' & E & _ & H). exists st'. split; [exact E|].
  intros j e' Hj. destruct (is_empty (state e')) eqn:Ee; [done|].
  destruct (H j e' Hj Ee) as [Hn _]. unfold ARP_MAXAGE in Hn. lia.
Defined.

Lemma arp_resolution_witness :
  exists A2 i, etharp_find_addr A2 (ip_addr nif_b) = Some (i, Some ([2; 0; 0; 0; 0; 2], 0x0200000a), A2).
Proof.
  destruct (arp_resolution (fun _ => true) (fun _ => 0) (fun _ => 0) nif_a nif_b arp_start arp_start 5 6
    inv_start inv_start station_a station_b eq_refl eq_refl eq_refl)
    as (A1 & rq & B' & ev & rp & A2 & i & _ & _ & _ & _ & _ & _ & H).
  exists A2, i. exact H.
Defined.

(** A packet whose first buffers are in ROM is dropped while its address is
    being resolved: the copy is allocated for the part that follows only. *)
Lemma query_drops_rom_header :
  fst <$> etharp_query (fun _ => true) (fun _ => 0) arp_start nif_a (ip_addr nif_b)
            (Some (mkPbuf 7 [(true, [1; 2; 3]); (false, [4; 5])])) = Some ERR_MEM /\
  fst <$> etharp_query (fun _ => true) (fun _ => 0) arp_start nif_a (ip_addr nif_b)
            (Some (mkPbuf 7 [(false, [1; 2; 3]); (false, [4; 5])])) = Some ERR_OK.
Proof. split; vm_compute; reflexivity. Qed.

End Etharp.
