(* ===== verification/Igmp.v ===== *)
(** * Multicast group membership (ip/lwip/core/igmp.c)

    The list of groups that the interfaces have joined, with the state machine
    of RFC 2236 that decides when membership reports are sent.  Groups are
    elements of a memory pool and are identified by their address; an
    interface is identified by [netif_id].  [rand n] is the [n]-th value of
    [LWIP_RAND()], [pbuf_alloc_ok n] the outcome of the [n]-th allocation.  A
    division by zero has no result. *)

From S2P Require Import Prelude IpAddr InetChksum Memp.

#[local] Open Scope Z_scope.

Module Igmp.
Import IpAddr InetChksum.

Definition ERR_OK : Z := 0.
Definition ERR_MEM : Z := -1.
Definition ERR_VAL : Z := -6.
Definition ERR_ARG : Z := -14.

Definition IGMP_MINLEN : Z := 8.
Definition IGMP_MEMB_QUERY : Z := 0x11.
Definition IGMP_V2_MEMB_REPORT : Z := 0x16.
Definition IGMP_LEAVE_GROUP : Z := 0x17.
Definition IGMP_V1_DELAYING_MEMBER_TMR : Z := 1000 / 100.
Definition IGMP_JOIN_DELAYING_MEMBER_TMR : Z := 500 / 100.
Definition NETIF_FLAG_IGMP : Z := 0x80.
(** 224.0.0.1 and 224.0.0.2 *)
Definition allsystems : Z := 0x010000e0.
Definition allrouters : Z := 0x020000e0.

Inductive gstate := IGMP_GROUP_NON_MEMBER | IGMP_GROUP_DELAYING_MEMBER | IGMP_GROUP_IDLE_MEMBER.
#[global] Instance gstate_eq_dec : EqDecision gstate.
Proof. solve_decision. Defined.

Record igmp_group := mkGroup {
  node : Z;               (** the address of the structure *)
  gnetif : Z;
  group_address : Z;
  last_reporter_flag : bool;
  group_state : gstate;
  timer : Z;
  use : Z
}.

Record netif := mkNetif { netif_id : Z; ip_addr : Z; flags : Z; igmp_mac_filter : bool }.

Inductive event :=
  | Send (nif src dest : Z) (msg : list Z)    (** [ip_output_if_opt] *)
  | MacFilter (nif addr : Z) (add : bool).

Section igmp.
Context {P : Type} `{Pool P}.
Variable rand : nat -> Z.
Variable pbuf_alloc_ok : nat -> bool.

Record igmp := mkIgmp {
  igmp_group_list : list igmp_group;
  netif_list : list netif;
  events : list event;
  rands : nat;
  allocs : nat;
  pool : P
}.

Definition with_groups (st : igmp) (l : list igmp_group) : igmp :=
  mkIgmp l (netif_list st) (events st) (rands st) (allocs st) (pool st).
Definition with_pool (st : igmp) (p : P) : igmp :=
  mkIgmp (igmp_group_list st) (netif_list st) (events st) (rands st) (allocs st) p.
Definition emit_ev (st : igmp) (e : event) : igmp :=
  mkIgmp (igmp_group_list st) (netif_list st) (events st ++ [e]) (rands st) (allocs st) (pool st).
(** A write through a pointer to a group. *)
Definition upd (l : list igmp_group) (k : Z) (f : igmp_group -> igmp_group) : list igmp_group :=
  map (fun g => if node g =? k then f g else g) l.
Definition update (st : igmp) (k : Z) (f : igmp_group -> igmp_group) : igmp :=
  with_groups st (upd (igmp_group_list st) k f).
Definition deref (st : igmp) (k : Z) : option igmp_group :=
  list_find (fun g => node g = k) (igmp_group_list st) ≫= fun x => Some x.2.

Definition set_state (s : gstate) (g : igmp_group) : igmp_group :=
  mkGroup (node g) (gnetif g) (group_address g) (last_reporter_flag g) s (timer g) (use g).
Definition set_timer (t : Z) (g : igmp_group) : igmp_group :=
  mkGroup (node g) (gnetif g) (group_address g) (last_reporter_flag g) (group_state g) t (use g).
Definition set_use (u : Z) (g : igmp_group) : igmp_group :=
  mkGroup (node g) (gnetif g) (group_address g) (last_reporter_flag g) (group_state g) (timer g) u.
Definition set_flag (b : bool) (g : igmp_group) : igmp_group :=
  mkGroup (node g) (gnetif g) (group_address g) b (group_state g) (timer g) (use g).

(** ** Groups *)

Fixpoint lookfor (l : list igmp_group) (ifp addr : Z) : option igmp_group :=
  match l with
  | [] => None
  | g :: l => if (gnetif g =? ifp) && (group_address g =? addr) then Some g else lookfor l ifp addr
  end.
Definition igmp_lookfor_group (st : igmp) (ifp addr : Z) : option igmp_group :=
  lookfor (igmp_group_list st) ifp addr.

Definition igmp_lookup_group (st : igmp) (ifp addr : Z) : option igmp_group * igmp :=
  match igmp_lookfor_group st ifp addr with
  | Some g => (Some g, st)
  | None =>
      match alloc (pool st) with
      | Some (a, p) =>
          let g := mkGroup a ifp addr false IGMP_GROUP_NON_MEMBER 0 0 in
          (Some g, with_groups (with_pool st p) (g :: igmp_group_list st))
      | None => (None, st)
      end
  end.

(** The loop that unlinks a group that is not the first. *)
Fixpoint unlink (l : list igmp_group) (k : Z) : option (list igmp_group) :=
  match l with
  | t :: (g :: l') as r => if node g =? k then Some (t :: l') else l2 ← unlink r k; Some (t :: l2)
  | _ => None
  end.
Definition igmp_remove_group (st : igmp) (k : Z) : option (Z * igmp) :=
  let '(err, l) :=
    match igmp_group_list st with
    | g :: l => if node g =? k then (ERR_OK, l) else
        match unlink (g :: l) k with Some l => (ERR_OK, l) | None => (ERR_ARG, g :: l) end
    | [] => (ERR_ARG, [])
    end in
  p ← release (pool st) k;
  Some (err, with_pool (with_groups st l) p).

(** ** Sending *)

Definition igmp_msg (type addr : Z) : list Z :=
  let c := inet_chksum 0 ([type; 0] ++ [0; 0] ++ ip_bytes addr) in
  [type; 0] ++ [u8 c; c / 256] ++ ip_bytes addr.

Definition netif_of (st : igmp) (id : Z) : option netif :=
  list_find (fun n => netif_id n = id) (netif_list st) ≫= fun x => Some x.2.

Definition igmp_send (st : igmp) (k type : Z) : option igmp :=
  let n := allocs st in
  let st := mkIgmp (igmp_group_list st) (netif_list st) (events st) (rands st) (S n) (pool st) in
  if pbuf_alloc_ok n then
    g ← deref st k;
    nif ← netif_of st (gnetif g);
    if type =? IGMP_V2_MEMB_REPORT then
      Some (emit_ev (update st k (set_flag true))
              (Send (gnetif g) (ip_addr nif) (group_address g) (igmp_msg type (group_address g))))
    else if type =? IGMP_LEAVE_GROUP then
      Some (emit_ev st (Send (gnetif g) (ip_addr nif) allrouters (igmp_msg type (group_address g))))
    else Some st
  else Some st.

(** ** Timers *)

Definition igmp_start_timer (st : igmp) (k max_time : Z) : option igmp :=
  let max_time := if max_time =? 0 then 1 else max_time in
  let n := rands st in
  let st := mkIgmp (igmp_group_list st) (netif_list st) (events st) (S n) (allocs st) (pool st) in
  if max_time - 1 =? 0 then None
  else Some (update st k (set_timer (u16 (rand n mod (max_time - 1) + 1)))).

Definition igmp_delaying_member (st : igmp) (k maxresp : Z) : option igmp :=
  g ← deref st k;
  if bool_decide (group_state g = IGMP_GROUP_IDLE_MEMBER) ||
     (bool_decide (group_state g = IGMP_GROUP_DELAYING_MEMBER) &&
      ((timer g =? 0) || (maxresp <? timer g)))
  then st ← igmp_start_timer st k maxresp; Some (update st k (set_state IGMP_GROUP_DELAYING_MEMBER))
  else Some st.

Definition igmp_timeout (st : igmp) (k : Z) : option igmp :=
  g ← deref st k;
  if bool_decide (group_state g = IGMP_GROUP_DELAYING_MEMBER)
  then igmp_send st k IGMP_V2_MEMB_REPORT else Some st.

(** The loop over the list; the structures visited are [ks]. *)
Fixpoint tmr_loop (ks : list Z) (st : igmp) : option igmp :=
  match ks with
  | [] => Some st
  | k :: ks =>
      g ← deref st k;
      st ← (if 0 <? timer g then
              let st := update st k (set_timer (timer g - 1)) in
              if timer g - 1 =? 0 then igmp_timeout st k else Some st
            else Some st);
      tmr_loop ks st
  end.
Definition igmp_tmr (st : igmp) : option igmp := tmr_loop (node <$> igmp_group_list st) st.

(** ** Interfaces *)

Definition filter_ev (st : igmp) (n : netif) (addr : Z) (add : bool) : igmp :=
  if igmp_mac_filter n then emit_ev st (MacFilter (netif_id n) addr add) else st.

Definition igmp_start (st : igmp) (n : netif) : Z * igmp :=
  match igmp_lookup_group st (netif_id n) allsystems with
  | (Some g, st) =>
      let st := update st (node g) (set_state IGMP_GROUP_IDLE_MEMBER) in
      let st := update st (node g) (set_use (u8 (use g + 1))) in
      (ERR_OK, filter_ev st n allsystems true)
  | (None, st) => (ERR_MEM, st)
  end.

(** The loop: groups of the interface leave the list and go back to the pool. *)
Fixpoint stop_loop (l keep : list igmp_group) (n : netif) (st : igmp) : option igmp :=
  match l with
  | [] => Some (with_groups st keep)
  | g :: l =>
      if gnetif g =? netif_id n then
        let st := filter_ev st n (group_address g) false in
        p ← release (pool st) (node g);
        stop_loop l keep n (with_pool st p)
      else stop_loop l (keep ++ [g]) n st
  end.
Definition igmp_stop (st : igmp) (n : netif) : option (Z * igmp) :=
  st ← stop_loop (igmp_group_list st) [] n st; Some (ERR_OK, st).

Fixpoint delay_all (ks : list Z) (sel : igmp_group -> bool) (maxresp : Z) (st : igmp) : option igmp :=
  match ks with
  | [] => Some st
  | k :: ks =>
      g ← deref st k;
      st ← (if sel g then igmp_delaying_member st k maxresp else Some st);
      delay_all ks sel maxresp st
  end.
Definition igmp_report_groups (st : igmp) (n : netif) : option igmp :=
  delay_all (node <$> igmp_group_list st) (fun g => gnetif g =? netif_id n) IGMP_JOIN_DELAYING_MEMBER_TMR st.

(** [data] is the payload behind the IP header; [None]: the header is cut short. *)
Definition igmp_input (st : igmp) (inp dest : Z) (data : option (list Z)) : option igmp :=
  match data with
  | None => Some st
  | Some d =>
      if Z.of_nat (length d) <? IGMP_MINLEN then Some st else
      if negb (inet_chksum 0 d =? 0) then Some st else
      match igmp_lookfor_group st inp dest with
      | None => Some st
      | Some g =>
          let msgtype := nth 0 d 0 in
          let maxresp := nth 1 d 0 in
          let gaddr := ip_of (drop 4 d) in
          if msgtype =? IGMP_MEMB_QUERY then
            if (dest =? allsystems) && ip_addr_isany gaddr then
              let maxresp := if maxresp =? 0 then IGMP_V1_DELAYING_MEMBER_TMR else maxresp in
              delay_all (node <$> igmp_group_list st)
                (fun r => (gnetif r =? inp) && negb (group_address r =? allsystems)) maxresp st
            else if negb (ip_addr_isany gaddr) then
              match (if dest =? allsystems then igmp_lookfor_group st inp gaddr else Some g) with
              | Some g => igmp_delaying_member st (node g) maxresp
              | None => Some st
              end
            else Some st
          else if msgtype =? IGMP_V2_MEMB_REPORT then
            if bool_decide (group_state g = IGMP_GROUP_DELAYING_MEMBER) then
              let st := update st (node g) (set_timer 0) in
              let st := update st (node g) (set_state IGMP_GROUP_IDLE_MEMBER) in
              Some (update st (node g) (set_flag false))
            else Some st
          else Some st
      end
  end.

(** ** Joining and leaving *)

Definition selected (n : netif) (ifaddr : Z) : bool :=
  negb (Z.land (flags n) NETIF_FLAG_IGMP =? 0) && (ip_addr_isany ifaddr || (ip_addr n =? ifaddr)).

(** One interface of the loop of [igmp_joingroup]; [false]: no memory. *)
Definition join_on (st : igmp) (n : netif) (addr : Z) : option (bool * igmp) :=
  match igmp_lookup_group st (netif_id n) addr with
  | (None, st) => Some (false, st)
  | (Some g, st) =>
      st ← (if bool_decide (group_state g = IGMP_GROUP_NON_MEMBER) then
              let st := if use g =? 0 then filter_ev st n addr true else st in
              st ← igmp_send st (node g) IGMP_V2_MEMB_REPORT;
              st ← igmp_start_timer st (node g) IGMP_JOIN_DELAYING_MEMBER_TMR;
              Some (update st (node g) (set_state IGMP_GROUP_DELAYING_MEMBER))
            else Some st);
      Some (true, update st (node g) (set_use (u8 (use g + 1))))
  end.
Fixpoint join_loop (ns : list netif) (ifaddr addr err : Z) (st : igmp) : option (Z * igmp) :=
  match ns with
  | [] => Some (err, st)
  | n :: ns =>
      if selected n ifaddr then
        '(ok, st) ← join_on st n addr;
        if ok : bool then join_loop ns ifaddr addr ERR_OK st else Some (ERR_MEM, st)
      else join_loop ns ifaddr addr err st
  end.
Definition igmp_joingroup (st : igmp) (ifaddr groupaddr : Z) : option (Z * igmp) :=
  if negb (ip_addr_ismulticast groupaddr) then Some (ERR_VAL, st) else
  if groupaddr =? allsystems then Some (ERR_VAL, st) else
  join_loop (netif_list st) ifaddr groupaddr ERR_VAL st.

Definition leave_on (st : igmp) (n : netif) (addr : Z) : option (bool * igmp) :=
  match igmp_lookfor_group st (netif_id n) addr with
  | None => Some (false, st)
  | Some g =>
      if use g <=? 1 then
        st ← (if last_reporter_flag g then igmp_send st (node g) IGMP_LEAVE_GROUP else Some st);
        let st := filter_ev st n addr false in
        '(_, st) ← igmp_remove_group st (node g);
        Some (true, st)
      else Some (true, update st (node g) (set_use (use g - 1)))
  end.
Fixpoint leave_loop (ns : list netif) (ifaddr addr err : Z) (st : igmp) : option (Z * igmp) :=
  match ns with
  | [] => Some (err, st)
  | n :: ns =>
      if selected n ifaddr then
        '(found, st) ← leave_on st n addr;
        leave_loop ns ifaddr addr (if found : bool then ERR_OK else err) st
      else leave_loop ns ifaddr addr err st
  end.
Definition igmp_leavegroup (st : igmp) (ifaddr groupaddr : Z) : option (Z * igmp) :=
  if negb (ip_addr_ismulticast groupaddr) then Some (ERR_VAL, st) else
  if groupaddr =? allsystems then Some (ERR_VAL, st) else
  leave_loop (netif_list st) ifaddr groupaddr ERR_VAL st.

(** ** Invariant

    What does not change while reports are sent and timers run: which groups
    exist and how often they are used. *)

Definition shape (l : list igmp_group) : list (Z * Z * Z * Z) :=
  (fun g => (node g, gnetif g, group_address g, use g)) <$> l.
Definition key (g : igmp_group) : Z * Z := (gnetif g, group_address g).

Record inv (st : igmp) : Prop := {
  inv_nodes : NoDup (node <$> igmp_group_list st);
  inv_keys : NoDup (key <$> igmp_group_list st);
  inv_pool : holds (pool st) (node <$> igmp_group_list st);
  inv_netifs : Forall (fun i => exists n, netif_of st i = Some n) (gnetif <$> igmp_group_list st)
}.

(** How often the group is used on the interface; [None]: not a member. *)
Definition uses (st : igmp) (i a : Z) : option Z := use <$> lookfor (igmp_group_list st) i a.

Record same (st st' : igmp) : Prop := {
  same_shape : shape (igmp_group_list st') = shape (igmp_group_list st);
  same_netifs : netif_list st' = netif_list st;
  same_pool : pool st' = pool st
}.

Lemma same_refl st : same st st.
Proof. by split. Qed.
Lemma same_trans a b c : same a b -> same b c -> same a c.
Proof. intros [A1 A2 A3] [B1 B2 B3]. split; congruence. Qed.

Lemma shape_nodes l : node <$> l = (fun x => x.1.1.1) <$> shape l.
Proof. unfold shape. by rewrite <- list_fmap_compose. Qed.
Lemma shape_keys l : key <$> l = (fun x => (x.1.1.2, x.1.2)) <$> shape l.
Proof. unfold shape. by rewrite <- list_fmap_compose. Qed.

Lemma shape_netifs l : gnetif <$> l = (fun x => x.1.1.2) <$> shape l.
Proof. unfold shape. by rewrite <- list_fmap_compose. Qed.

Lemma shape_lookfor l l' i a : shape l' = shape l -> use <$> lookfor l' i a = use <$> lookfor l i a.
Proof.
  revert l'. induction l as [|g l IH]; intros [|g' l']; try done. intros [= H1 H2 H3 H4 H5].
  cbn [lookfor]. rewrite H2, H3. destruct (_ && _); [cbn; congruence|by apply IH].
Qed.

Lemma same_uses st st' i a : same st st' -> uses st' i a = uses st i a.
Proof. intros [H1 _ _]. by apply shape_lookfor. Qed.

Lemma same_inv st st' : same st st' -> inv st -> inv st'.
Proof.
  intros [H1 H2 H3] [I1 I2 I3 I4]. split.
  - by rewrite shape_nodes, H1, <- shape_nodes.
  - by rewrite shape_keys, H1, <- shape_keys.
  - by rewrite H3, shape_nodes, H1, <- shape_nodes.
  - rewrite shape_netifs, H1, <- shape_netifs. unfold netif_of in *. by rewrite H2.
Qed.

Lemma upd_shape l k f :
  (forall g, (node (f g), gnetif (f g), group_address (f g), use (f g)) = (node g, gnetif g, group_address g, use g)) ->
  shape (upd l k f) = shape l.
Proof.
  intros Hf. unfold shape, upd. induction l as [|g l IH]; [done|]. cbn [map fmap list_fmap]. f_equal; [|exact IH].
  destruct (node g =? k); [apply Hf|done].
Qed.

Lemma update_same st k f :
  (forall g, (node (f g), gnetif (f g), group_address (f g), use (f g)) = (node g, gnetif g, group_address g, use g)) ->
  same st (update st k f).
Proof. intros Hf. split; [|done|done]. by apply upd_shape. Qed.

Lemma filter_same st n a b : same st (filter_ev st n a b).
Proof. unfold filter_ev. destruct (igmp_mac_filter n); by split. Qed.

(** *** Pointers *)
Lemma deref_in st g : inv st -> g ∈ igmp_group_list st -> deref st (node g) = Some g.
Proof.
  intros [Hn _ _ _] Hg. unfold deref. revert Hn Hg. generalize (igmp_group_list st) as l.
  induction l as [|x l IH]; intros Hn Hg; [by apply not_elem_of_nil in Hg|].
  cbn [list_find]. destruct (decide (node x = node g)) as [E|E].
  - apply elem_of_cons in Hg as [->|Hg]; [done|]. exfalso. cbn [fmap list_fmap] in Hn.
    apply NoDup_cons in Hn as [Hx _]. apply Hx. rewrite E. by apply list_elem_of_fmap_2.
  - apply elem_of_cons in Hg as [->|Hg]; [done|]. cbn [fmap list_fmap] in Hn. apply NoDup_cons in Hn as [_ Hn].
    specialize (IH Hn Hg). unfold mbind, option_bind in *.
    destruct (list_find (fun g0 => node g0 = node g) l) as [[j y]|]; [|done]. cbn. done.
Qed.

Lemma deref_Some st k g : deref st k = Some g -> g ∈ igmp_group_list st /\ node g = k.
Proof.
  unfold deref. destruct (list_find _ _) as [[j y]|] eqn:E; [|done]. cbn. intros [= ->].
  apply list_find_Some in E as (H1 & H2 & _). split; [by apply list_elem_of_lookup_2 in H1|done].
Qed.

Lemma lookfor_in l i a g : lookfor l i a = Some g -> g ∈ l /\ gnetif g = i /\ group_address g = a.
Proof.
  induction l as [|x l IH]; cbn [lookfor]; [done|]. destruct (_ && _) eqn:E.
  - intros [= ->]. apply andb_true_iff in E as [E1%Z.eqb_eq E2%Z.eqb_eq]. split_and!; auto. by left.
  - intros Hl. destruct (IH Hl) as (? & ? & ?). split_and!; auto. by right.
Qed.

Lemma netif_in st g : inv st -> g ∈ igmp_group_list st -> exists n, netif_of st (gnetif g) = Some n.
Proof.
  intros Hinv Hg. pose proof (inv_netifs _ Hinv) as Hf. rewrite Forall_forall in Hf. apply Hf.
  by apply list_elem_of_fmap_2.
Qed.

(** *** Steps that only send or start timers *)
Lemma send_same st k type :
  inv st -> (exists g, deref st k = Some g) -> exists st', igmp_send st k type = Some st' /\ same st st'.
Proof.
  intros Hinv (g & Hg). unfold igmp_send. destruct (pbuf_alloc_ok (allocs st)); [|eexists; split; [done|by split]].
  change (deref (mkIgmp _ _ _ _ _ _) k) with (deref st k). rewrite Hg. cbn [mbind option_bind].
  destruct (deref_Some _ _ _ Hg) as [Hin _]. destruct (netif_in _ _ Hinv Hin) as [n Hn].
  change (netif_of (mkIgmp _ _ _ _ _ _) (gnetif g)) with (netif_of st (gnetif g)). rewrite Hn. cbn [mbind option_bind].
  destruct (type =? IGMP_V2_MEMB_REPORT); [|destruct (type =? IGMP_LEAVE_GROUP)]; eexists; split; try done;
    split; try done. by apply upd_shape.
Qed.

Lemma start_timer_same st k m :
  2 <= m -> exists t st', igmp_start_timer st k m = Some st' /\ same st st' /\ 1 <= t <= m - 1 /\
    igmp_group_list st' = upd (igmp_group_list st) k (set_timer (u16 t)).
Proof.
  intros Hm. unfold igmp_start_timer. replace (m =? 0) with false by lia. replace (m - 1 =? 0) with false by lia.
  eexists (rand (rands st) mod (m - 1) + 1), _. split; [done|]. split; [split; [by apply upd_shape|done|done]|].
  split; [|done]. pose proof (Z.mod_pos_bound (rand (rands st)) (m - 1)). lia.
Qed.

(** *** Joining on one interface *)
Lemma lookfor_upd l k u i a :
  lookfor (upd l k (set_use u)) i a = (fun g => if node g =? k then set_use u g else g) <$> lookfor l i a.
Proof.
  induction l as [|g l IH]; [done|].
  change (upd (g :: l) k (set_use u)) with ((if node g =? k then set_use u g else g) :: upd l k (set_use u)).
  cbn [lookfor]. assert (E : gnetif (if node g =? k then set_use u g else g) = gnetif g /\
              group_address (if node g =? k then set_use u g else g) = group_address g) by (by destruct (node g =? k)).
  destruct E as [-> ->]. destruct (_ && _); [done|exact IH].
Qed.

Lemma uses_update st g u i a :
  inv st -> g ∈ igmp_group_list st ->
  uses (update st (node g) (set_use u)) i a =
    if bool_decide ((i, a) = key g) then Some u else uses st i a.
Proof.
  intros Hinv Hg. unfold uses, update. cbn [with_groups igmp_group_list]. rewrite lookfor_upd.
  destruct (lookfor (igmp_group_list st) i a) as [x|] eqn:E; cbn [fmap option_fmap option_map].
  - destruct (lookfor_in _ _ _ _ E) as (Hx & <- & <-). fold (key x).
    destruct (decide (key x = key g)) as [Hk|Hk].
    + rewrite bool_decide_eq_true_2 by done.
      assert (x = g) as ->; [|by rewrite Z.eqb_refl].
      apply list_elem_of_lookup in Hx as [ix Hx]. apply list_elem_of_lookup in Hg as [ig Hg].
      assert (ix = ig) as ->; [|congruence]. apply (NoDup_lookup (key <$> igmp_group_list st) _ _ (key g)).
      * apply (inv_keys _ Hinv).
      * rewrite list_lookup_fmap, Hx. cbn. by rewrite Hk.
      * by rewrite list_lookup_fmap, Hg.
    + rewrite bool_decide_eq_false_2 by done. destruct (Z.eqb_spec (node x) (node g)) as [En|]; [|done].
      exfalso. apply Hk. pose proof (deref_in st x Hinv Hx) as D1. pose proof (deref_in st g Hinv Hg) as D2.
      rewrite En, D2 in D1. congruence.
  - rewrite bool_decide_eq_false_2; [done|]. intros Hk. unfold key in Hk. simplify_eq.
    clear Hinv. revert Hg E. generalize (igmp_group_list st) as l. induction l as [|y l IH]; intros Hg.
    + by apply not_elem_of_nil in Hg.
    + cbn [lookfor]. apply elem_of_cons in Hg as [->|Hg]; [by rewrite !Z.eqb_refl|].
      destruct (_ && _); [done|by apply IH].
Qed.

Lemma upd_use_fields l k u :
  node <$> upd l k (set_use u) = node <$> l /\ key <$> upd l k (set_use u) = key <$> l /\
  gnetif <$> upd l k (set_use u) = gnetif <$> l.
Proof.
  induction l as [|g l (IH1 & IH2 & IH3)]; [done|].
  change (upd (g :: l) k (set_use u)) with ((if node g =? k then set_use u g else g) :: upd l k (set_use u)).
  cbn [fmap list_fmap]. split_and!; (f_equal; [by destruct (node g =? k)|done]).
Qed.

Lemma inv_update_use st k u : inv st -> inv (update st k (set_use u)).
Proof.
  intros [I1 I2 I3 I4]. destruct (upd_use_fields (igmp_group_list st) k u) as (E1 & E2 & E3).
  split; unfold update; cbn [with_groups igmp_group_list pool]; rewrite ?E1, ?E2, ?E3; done.
Qed.

(** A new group. *)
Lemma lookup_spec st n a :
  inv st -> netif_of st n <> None ->
  match igmp_lookup_group st n a with
  | (Some g, st') => inv st' /\ g ∈ igmp_group_list st' /\ key g = (n, a) /\ netif_list st' = netif_list st /\
      use g = default 0 (uses st n a) /\
      (forall i b, uses st' i b = if bool_decide ((i, b) = (n, a)) then Some (use g) else uses st i b)
  | (None, st') => st' = st /\ uses st n a = None /\ (capacity P <= length (igmp_group_list st))%nat
  end.
Proof.
  intros Hinv Hn. unfold igmp_lookup_group, igmp_lookfor_group, uses.
  destruct (lookfor (igmp_group_list st) n a) as [g|] eqn:E.
  - destruct (lookfor_in _ _ _ _ E) as (Hg & H1 & H2). split_and!; auto; [by unfold key; subst|].
    intros i b. case_bool_decide; [|done]. simplify_eq. by rewrite E.
  - pose proof (alloc_new _ _ (inv_pool _ Hinv)) as Ha. destruct (alloc (pool st)) as [[k p]|].
    + destruct Ha as [Hk Hp]. set (g := mkGroup k n a false IGMP_GROUP_NON_MEMBER 0 0). split_and!; auto.
      * destruct Hinv as [I1 I2 I3 I4].
        split; cbn [with_groups with_pool igmp_group_list pool fmap list_fmap]; [by constructor| |done|].
        -- constructor; [|done]. intros (x & Hx1 & Hx2)%list_elem_of_fmap. revert E Hx2. unfold key in Hx1.
           cbn [g gnetif group_address] in Hx1. injection Hx1 as H1 H2. generalize (igmp_group_list st) as l.
           induction l as [|y l IH]; intros E Hx2; [by apply not_elem_of_nil in Hx2|].
           cbn [lookfor] in E. destruct (_ && _) eqn:Eb; [done|]. apply elem_of_cons in Hx2 as [->|Hx2]; [|by apply IH].
           rewrite <- H1, <- H2, !Z.eqb_refl in Eb. done.
        -- constructor; [|done]. cbn [g gnetif]. change (netif_of (with_groups _ _) n) with (netif_of st n).
           destruct (netif_of st n); [by eexists|done].
      * cbn. by left.
      * intros i b. cbn [with_groups with_pool igmp_group_list lookfor g gnetif group_address].
        case_bool_decide as Hib; [simplify_eq; by rewrite !Z.eqb_refl|].
        destruct (Z.eqb_spec n i), (Z.eqb_spec a b); cbn [andb]; subst; done.
    + by rewrite length_fmap in Ha.
Qed.

Lemma join_on_spec st n a :
  inv st -> netif_of st (netif_id n) <> None ->
  exists ok st', join_on st n a = Some (ok, st') /\ inv st' /\ netif_list st' = netif_list st /\
    (if ok : bool then forall i b, uses st' i b =
       if bool_decide ((i, b) = (netif_id n, a)) then Some (u8 (default 0 (uses st i b) + 1)) else uses st i b
     else st' = st /\ uses st (netif_id n) a = None /\ (capacity P <= length (igmp_group_list st))%nat).
Proof.
  intros Hinv Hn. unfold join_on. pose proof (lookup_spec st (netif_id n) a Hinv Hn) as Hl.
  destruct (igmp_lookup_group st (netif_id n) a) as [[g|] st1].
  2:{ destruct Hl as (-> & Hno & Hc). exists false, st. done. }
  destruct Hl as (Hinv1 & Hg & Hkey & Hnl & Hu & Huses).
  assert (Hbody : exists st2, (if bool_decide (group_state g = IGMP_GROUP_NON_MEMBER) then
              st ← igmp_send (if use g =? 0 then filter_ev st1 n a true else st1) (node g) IGMP_V2_MEMB_REPORT;
              st ← igmp_start_timer st (node g) IGMP_JOIN_DELAYING_MEMBER_TMR;
              Some (update st (node g) (set_state IGMP_GROUP_DELAYING_MEMBER))
            else Some st1) = Some st2 /\ same st1 st2).
  { destruct (bool_decide _); [|eexists; split; [done|apply same_refl]].
    set (st0 := if use g =? 0 then filter_ev st1 n a true else st1).
    assert (S0 : same st1 st0) by (unfold st0; destruct (use g =? 0); [apply filter_same|apply same_refl]).
    assert (D0 : exists g', deref st0 (node g) = Some g').
    { pose proof (deref_in st1 g Hinv1 Hg) as D. exists g. unfold st0.
      destruct (use g =? 0); [|done]. unfold filter_ev. by destruct (igmp_mac_filter n). }
    destruct (send_same st0 (node g) IGMP_V2_MEMB_REPORT (same_inv _ _ S0 Hinv1) D0) as (st2 & -> & S2).
    cbn [mbind option_bind].
    destruct (start_timer_same st2 (node g) IGMP_JOIN_DELAYING_MEMBER_TMR) as (t & st3 & -> & S3 & _); [by vm_compute|].
    cbn [mbind option_bind]. eexists. split; [done|].
    apply (same_trans _ _ _ S0), (same_trans _ _ _ S2), (same_trans _ _ _ S3). by apply update_same. }
  destruct Hbody as (st2 & Heq & S2). rewrite Heq. cbn [mbind option_bind].
  pose proof (same_inv _ _ S2 Hinv1) as Hinv2.
  exists true. eexists. split; [done|]. split; [by apply inv_update_use|].
  split; [cbn; by rewrite (same_netifs _ _ S2)|].
  assert (exists g2, g2 ∈ igmp_group_list st2 /\ node g2 = node g /\ key g2 = key g) as (g2 & Hg2 & N2 & K2).
  { pose proof (same_shape _ _ S2) as Hsh.
    assert ((node g, gnetif g, group_address g, use g) ∈ shape (igmp_group_list st1)) as Hin
      by (by apply list_elem_of_fmap_2 with (f := fun g => (node g, gnetif g, group_address g, use g))).
    rewrite <- Hsh in Hin. apply list_elem_of_fmap in Hin as (g2 & Heq2 & Hg2). exists g2. unfold key.
    injection Heq2 as E1 E2 E3 _. split_and!; congruence. }
  intros i b. rewrite <- N2, uses_update by done. rewrite K2, Hkey, (same_uses _ _ _ _ S2), Huses, Hu.
  destruct (decide ((i, b) = (netif_id n, a))) as [Hib|Hib].
  - rewrite !bool_decide_eq_true_2 by done. by simplify_eq.
  - by rewrite !bool_decide_eq_false_2 by done.
Qed.

(** *** Leaving on one interface *)
Lemma unlink_cons x y l k :
  unlink (x :: y :: l) k = if node y =? k then Some (x :: l) else l2 ← unlink (y :: l) k; Some (x :: l2).
Proof. done. Qed.

Lemma group_unlink_spec x l g :
  NoDup (node <$> (x :: l)) -> g ∈ l ->
  exists l', unlink (x :: l) (node g) = Some l' /\
    (x :: l) ≡ₚ g :: l' /\ (forall i a, (i, a) <> key g -> lookfor l' i a = lookfor (x :: l) i a).
Proof.
  revert x. induction l as [|y l IH]; intros x Hn Hg; [by apply not_elem_of_nil in Hg|].
  rewrite unlink_cons. destruct (Z.eqb_spec (node y) (node g)) as [E|E].
  - assert (y = g) as ->.
    { apply elem_of_cons in Hg as [->|Hg]; [done|]. exfalso. cbn [fmap list_fmap] in Hn.
      apply NoDup_cons in Hn as [_ Hn]. apply NoDup_cons in Hn as [Hy _]. apply Hy. rewrite E.
      by apply list_elem_of_fmap_2. }
    exists (x :: l). split; [done|]. split; [apply perm_swap|].
    intros i a Hk. cbn [lookfor]. destruct (_ && _); [done|].
    destruct (Z.eqb_spec (gnetif g) i), (Z.eqb_spec (group_address g) a); cbn [andb]; subst; done.
  - apply elem_of_cons in Hg as [->|Hg]; [done|].
    destruct (IH y) as (l' & E' & Hp & Hl); [by apply NoDup_cons in Hn as [_ Hn]|done|].
    rewrite E'. cbn [mbind option_bind]. exists (x :: l'). split; [done|]. split.
    + rewrite Hp. apply perm_swap.
    + intros i a Hk. cbn [lookfor]. destruct (_ && _); [done|]. by apply Hl.
Qed.

Lemma remove_spec st g :
  inv st -> g ∈ igmp_group_list st ->
  exists st', igmp_remove_group st (node g) = Some (ERR_OK, st') /\ inv st' /\ netif_list st' = netif_list st /\
    forall i a, uses st' i a = if bool_decide ((i, a) = key g) then None else uses st i a.
Proof.
  intros Hinv Hg. unfold igmp_remove_group.
  assert (exists l', match igmp_group_list st with
      | x :: l => if node x =? node g then (ERR_OK, l) else
          match unlink (x :: l) (node g) with Some l => (ERR_OK, l) | None => (ERR_ARG, x :: l) end
      | [] => (ERR_ARG, []) end = (ERR_OK, l') /\ igmp_group_list st ≡ₚ g :: l' /\
      (forall i a, (i, a) <> key g -> lookfor l' i a = lookfor (igmp_group_list st) i a)) as (l' & -> & Hp & Hl).
  { pose proof (inv_nodes _ Hinv) as Hn. destruct (igmp_group_list st) as [|x l]; [by apply not_elem_of_nil in Hg|].
    destruct (Z.eqb_spec (node x) (node g)) as [E|E].
    - assert (x = g) as ->.
      { apply elem_of_cons in Hg as [->|Hg]; [done|]. exfalso. cbn [fmap list_fmap] in Hn.
        apply NoDup_cons in Hn as [Hx _]. apply Hx. rewrite E. by apply list_elem_of_fmap_2. }
      exists l. split; [done|]. split; [done|]. intros i a Hk. cbn [lookfor].
      destruct (Z.eqb_spec (gnetif g) i), (Z.eqb_spec (group_address g) a); cbn [andb]; subst; done.
    - apply elem_of_cons in Hg as [->|Hg]; [done|].
      destruct (group_unlink_spec x l g Hn Hg) as (l' & -> & Hp & Hl). exists l'. done. }
  destruct Hinv as [I1 I2 I3 I4].
  assert (Hh : holds (pool st) (node g :: (node <$> l'))).
  { eapply holds_perm; [|exact I3]. by rewrite Hp. }
  destruct (release_ok (pool st) [] (node g) (node <$> l') Hh) as (p & -> & Hh'). cbn [mbind option_bind].
  eexists. split; [done|].
  assert (Hk : NoDup (key g :: (key <$> l'))) by (change (NoDup (key <$> (g :: l'))); by rewrite <- Hp).
  assert (Hnd : NoDup (node g :: (node <$> l'))) by (change (NoDup (node <$> (g :: l'))); by rewrite <- Hp).
  apply NoDup_cons in Hk as [Hk1 Hk2]. apply NoDup_cons in Hnd as [_ Hnd].
  split; [|split; [done|]].
  - split; cbn [with_groups with_pool igmp_group_list pool]; auto.
    rewrite Hp in I4. cbn [fmap list_fmap] in I4. by apply Forall_cons in I4 as [_ I4].
  - intros i a. unfold uses. cbn [with_groups with_pool igmp_group_list]. case_bool_decide as Hia; [|by rewrite Hl].
    destruct (lookfor l' i a) as [x|] eqn:E; [|done]. exfalso. apply Hk1. rewrite <- Hia.
    destruct (lookfor_in _ _ _ _ E) as (Hx & <- & <-). by apply (list_elem_of_fmap_2 key).
Qed.

Lemma leave_on_spec st n a :
  inv st -> netif_of st (netif_id n) <> None ->
  exists found st', leave_on st n a = Some (found, st') /\ inv st' /\ netif_list st' = netif_list st /\
    found = bool_decide (uses st (netif_id n) a <> None) /\
    forall i b, uses st' i b =
      if bool_decide ((i, b) = (netif_id n, a)) then u ← uses st i b; if u <=? 1 then None else Some (u - 1)
      else uses st i b.
Proof.
  intros Hinv Hn. unfold leave_on, igmp_lookfor_group.
  destruct (lookfor (igmp_group_list st) (netif_id n) a) as [g|] eqn:E.
  2:{ assert (Hu : uses st (netif_id n) a = None) by (unfold uses; by rewrite E).
      exists false, st. split_and!; auto; [by rewrite Hu|].
      intros i b. case_bool_decide; [|done]. simplify_eq. by rewrite Hu. }
  destruct (lookfor_in _ _ _ _ E) as (Hg & Hk1 & Hk2).
  assert (Hkey : key g = (netif_id n, a)) by (unfold key; congruence).
  assert (Hu : uses st (netif_id n) a = Some (use g)) by (unfold uses; by rewrite E).
  destruct (Z.leb_spec (use g) 1) as [Hle|Hgt].
  - assert (exists st1, (if last_reporter_flag g then igmp_send st (node g) IGMP_LEAVE_GROUP else Some st) = Some st1 /\
      same st st1) as (st1 & -> & S1).
    { destruct (last_reporter_flag g); [|eexists; split; [done|apply same_refl]].
      apply send_same; [done|]. exists g. by apply deref_in. }
    cbn [mbind option_bind]. pose proof (same_trans _ _ _ S1 (filter_same st1 n a false)) as S2.
    pose proof (same_inv _ _ S2 Hinv) as Hinv2.
    assert (exists g2, g2 ∈ igmp_group_list (filter_ev st1 n a false) /\ node g2 = node g /\ key g2 = key g)
      as (g2 & Hg2 & N2 & K2).
    { pose proof (same_shape _ _ S2) as Hsh.
      assert ((node g, gnetif g, group_address g, use g) ∈ shape (igmp_group_list st)) as Hin
        by (by apply list_elem_of_fmap_2 with (f := fun g => (node g, gnetif g, group_address g, use g))).
      rewrite <- Hsh in Hin. apply list_elem_of_fmap in Hin as (g2 & Heq2 & Hg2). exists g2. unfold key.
      injection Heq2 as E1 E2 E3 _. split_and!; congruence. }
    destruct (remove_spec _ g2 Hinv2 Hg2) as (st3 & E3 & Hinv3 & Hnl & Huses). rewrite N2 in E3. rewrite E3.
    cbn [mbind option_bind]. exists true, st3. split_and!; auto.
    + by rewrite Hnl, (same_netifs _ _ S2).
    + rewrite Hu. by case_bool_decide.
    + intros i b. rewrite Huses, K2, Hkey, (same_uses _ _ _ _ S2). case_bool_decide; [|done]. simplify_eq.
      rewrite Hu. cbn [mbind option_bind]. by replace (use g <=? 1) with true by lia.
  - exists true. eexists. split; [done|]. split; [by apply inv_update_use|]. split; [done|].
    split; [rewrite Hu; by case_bool_decide|]. intros i b. rewrite uses_update, Hkey by done.
    case_bool_decide; [|done]. simplify_eq. rewrite Hu. cbn [mbind option_bind].
    by replace (use g <=? 1) with false by lia.
Qed.

(** *** All interfaces *)

(** The interface [i] is one that the call is for. *)
Definition hit (ns : list netif) (ifaddr i : Z) : bool :=
  existsb (fun n => selected n ifaddr && (netif_id n =? i)) ns.

Lemma hit_cons n ns ifaddr i :
  hit (n :: ns) ifaddr i = (selected n ifaddr && (netif_id n =? i)) || hit ns ifaddr i.
Proof. done. Qed.

Lemma hit_notin ns ifaddr i : i ∉ netif_id <$> ns -> hit ns ifaddr i = false.
Proof.
  induction ns as [|n ns IH]; [done|]. cbn [fmap list_fmap]. intros [Hi1 Hi2]%not_elem_of_cons.
  rewrite hit_cons, IH by done. replace (netif_id n =? i) with false by lia. by rewrite andb_false_r.
Qed.

Definition known (st : igmp) (ns : list netif) : Prop := Forall (fun n => netif_of st (netif_id n) <> None) ns.

Lemma known_eq st st' ns : netif_list st' = netif_list st -> known st ns -> known st' ns.
Proof. intros E. unfold known, netif_of. by rewrite E. Qed.

(** The use count of [a] went up by one on the interfaces of [ns] that the call is
    for, and nothing else changed. *)
Definition counted (ns : list netif) (ifaddr a : Z) (st st' : igmp) : Prop :=
  forall i b, uses st' i b =
    if (b =? a) && hit ns ifaddr i then Some (u8 (default 0 (uses st i b) + 1)) else uses st i b.
(** The call stopped at an interface that it is for and that is not a member: there
    is no free structure. *)
Definition no_group (ns : list netif) (ifaddr a : Z) (st st' : igmp) : Prop :=
  exists pre n post, ns = pre ++ n :: post /\ selected n ifaddr = true /\ uses st (netif_id n) a = None /\
    (capacity P <= length (igmp_group_list st'))%nat /\ counted pre ifaddr a st st'.

Lemma counted_skip n ns ifaddr a st st' :
  selected n ifaddr = false -> counted ns ifaddr a st st' -> counted (n :: ns) ifaddr a st st'.
Proof. intros Es Hc i b. by rewrite Hc, hit_cons, Es. Qed.

Lemma counted_cons n ns ifaddr a st st1 st2 :
  (netif_id n ∉ netif_id <$> ns) -> selected n ifaddr = true ->
  (forall i b, uses st1 i b =
     if bool_decide ((i, b) = (netif_id n, a)) then Some (u8 (default 0 (uses st i b) + 1)) else uses st i b) ->
  counted ns ifaddr a st1 st2 -> counted (n :: ns) ifaddr a st st2.
Proof.
  intros Hn Es Hu Hr i b. rewrite Hr, Hu, hit_cons, Es. cbn [andb].
  destruct (Z.eqb_spec b a) as [->|Hb]; cbn [andb].
  - destruct (Z.eqb_spec (netif_id n) i) as [<-|Hi]; cbn [orb].
    + rewrite hit_notin by done. by rewrite bool_decide_eq_true_2.
    + by rewrite bool_decide_eq_false_2 by congruence.
  - by rewrite bool_decide_eq_false_2 by congruence.
Qed.

Lemma join_loop_spec ns ifaddr a err st :
  inv st -> NoDup (netif_id <$> ns) -> known st ns ->
  exists r st', join_loop ns ifaddr a err st = Some (r, st') /\ inv st' /\ netif_list st' = netif_list st /\
    ((r = (if existsb (fun n => selected n ifaddr) ns then ERR_OK else err) /\ counted ns ifaddr a st st') \/
     (r = ERR_MEM /\ no_group ns ifaddr a st st')).
Proof.
  revert err st. induction ns as [|n ns IH]; intros err st Hinv Hnd Hkn; cbn [join_loop].
  { exists err, st. split_and!; auto. left. split; [done|]. intros i b. by rewrite andb_false_r. }
  cbn [fmap list_fmap] in Hnd. apply NoDup_cons in Hnd as [Hn Hnd]. apply Forall_cons in Hkn as [Hk Hkn].
  cbn [existsb]. destruct (selected n ifaddr) eqn:Es; cbn [orb].
  - destruct (join_on_spec st n a Hinv Hk) as (ok & st1 & -> & Hinv1 & Hnl & Hu). cbn [mbind option_bind].
    destruct ok.
    2:{ destruct Hu as (-> & Hno & Hc). exists ERR_MEM, st. split_and!; auto. right. split; [done|].
        exists [], n, ns. split_and!; auto. intros i b. by rewrite andb_false_r. }
    destruct (IH ERR_OK st1 Hinv1 Hnd (known_eq _ _ _ Hnl Hkn)) as (r & st2 & -> & Hinv2 & Hnl2 & Hr).
    exists r, st2. split_and!; auto; [congruence|].
    destruct Hr as [[-> Hr]|[-> (pre & m & post & -> & Hm & Hno & Hc & Hr)]]; [left|right].
    + split; [by destruct (existsb _ ns)|]. by apply (counted_cons _ _ _ _ _ st1).
    + rewrite fmap_app, fmap_cons in Hn. apply not_elem_of_app in Hn as [Hn1 [Hn2 _]%not_elem_of_cons].
      split; [done|]. exists (n :: pre), m, post. split; [done|]. split; [done|]. split.
      { rewrite Hu, bool_decide_eq_false_2 in Hno; [done|]. intros [= E]. done. }
      split; [done|]. by apply (counted_cons _ _ _ _ _ st1).
  - destruct (IH err st Hinv Hnd Hkn) as (r & st2 & -> & Hinv2 & Hnl2 & Hr).
    exists r, st2. split_and!; auto. destruct Hr as [[-> Hr]|[-> (pre & m & post & -> & Hm & Hno & Hc & Hr)]]; [left|right].
    + split; [done|]. by apply counted_skip.
    + split; [done|]. exists (n :: pre), m, post. split_and!; auto. by apply counted_skip.
Qed.

Lemma leave_loop_spec ns ifaddr a err st :
  inv st -> NoDup (netif_id <$> ns) -> known st ns ->
  exists r st', leave_loop ns ifaddr a err st = Some (r, st') /\ inv st' /\ netif_list st' = netif_list st /\
    r = (if existsb (fun n => selected n ifaddr && bool_decide (uses st (netif_id n) a <> None)) ns then ERR_OK else err) /\
    forall i b, uses st' i b =
      if (b =? a) && hit ns ifaddr i then u ← uses st i b; if u <=? 1 then None else Some (u - 1) else uses st i b.
Proof.
  revert err st. induction ns as [|n ns IH]; intros err st Hinv Hnd Hkn; cbn [leave_loop].
  { exists err, st. split_and!; auto. intros i b. by rewrite andb_false_r. }
  cbn [fmap list_fmap] in Hnd. apply NoDup_cons in Hnd as [Hn Hnd]. apply Forall_cons in Hkn as [Hk Hkn].
  cbn [existsb]. destruct (selected n ifaddr) eqn:Es; cbn [andb orb].
  - destruct (leave_on_spec st n a Hinv Hk) as (fd & st1 & -> & Hinv1 & Hnl & Hfd & Hu). cbn [mbind option_bind].
    destruct (IH (if fd then ERR_OK else err) st1 Hinv1 Hnd (known_eq _ _ _ Hnl Hkn))
      as (r & st2 & -> & Hinv2 & Hnl2 & Hr & Hu2).
    exists r, st2. split_and!; auto; [congruence| |].
    + rewrite Hr, <- Hfd.
      assert (Hex : existsb (fun n0 => selected n0 ifaddr && bool_decide (uses st1 (netif_id n0) a <> None)) ns =
                    existsb (fun n0 => selected n0 ifaddr && bool_decide (uses st (netif_id n0) a <> None)) ns).
      { clear -Hn Hu. induction ns as [|m ns IH]; [done|]. cbn [fmap list_fmap existsb] in *.
        apply not_elem_of_cons in Hn as [Hn1 Hn2]. rewrite (IH Hn2). f_equal.
        assert (Hm : uses st1 (netif_id m) a = uses st (netif_id m) a).
        { rewrite Hu, bool_decide_eq_false_2; [done|]. intros [= E]. done. }
        by rewrite Hm. }
      rewrite Hex. destruct fd; cbn [orb]; [match goal with |- (if ?c then _ else _) = _ => destruct c end|]; reflexivity.
    + intros i b. rewrite Hu2, Hu, hit_cons, Es. cbn [andb].
      destruct (Z.eqb_spec b a) as [->|Hb]; cbn [andb].
      * destruct (Z.eqb_spec (netif_id n) i) as [<-|Hi]; cbn [orb].
        -- rewrite hit_notin by done. by rewrite bool_decide_eq_true_2.
        -- by rewrite bool_decide_eq_false_2 by congruence.
      * by rewrite bool_decide_eq_false_2 by congruence.
  - destruct (IH err st Hinv Hnd Hkn) as (r & st2 & -> & Hinv2 & Hnl2 & Hr & Hu).
    exists r, st2. split_and!; auto. intros i b. by rewrite Hu, hit_cons, Es.
Qed.

Lemma known_self st : known st (netif_list st).
Proof.
  apply Forall_forall. intros n Hn. unfold netif_of.
  destruct (list_find_elem_of (fun m => netif_id m = netif_id n) (netif_list st) n Hn eq_refl) as [[j m] E].
  by rewrite E.
Qed.

(** C38: On every interface that a call of [igmp_joingroup] is for, the use count of
    the group goes up by one, and nothing else changes; the call fails with [ERR_MEM]
    only at an interface where the group has no entry while the pool of groups is
    exhausted, and then the interfaces before it were counted and nothing else
    changed, so that joining a group again never fails.  A call of [igmp_leavegroup]
    lowers the count by one, or ends the membership when the count is at most one,
    and changes nothing else.  Counts are modulo 256: after 256 joins the count is 0
    and the first leave ends the membership. *)
Theorem igmp_membership st ifaddr a :
  inv st -> NoDup (netif_id <$> netif_list st) -> ip_addr_ismulticast a = true -> a <> allsystems ->
  (exists r st', igmp_joingroup st ifaddr a = Some (r, st') /\ inv st' /\
     ((r = (if existsb (fun n => selected n ifaddr) (netif_list st) then ERR_OK else ERR_VAL) /\
       counted (netif_list st) ifaddr a st st') \/
      (r = ERR_MEM /\ no_group (netif_list st) ifaddr a st st'))) /\
  (exists r st', igmp_leavegroup st ifaddr a = Some (r, st') /\ inv st' /\
     r = (if existsb (fun n => selected n ifaddr && bool_decide (uses st (netif_id n) a <> None)) (netif_list st)
          then ERR_OK else ERR_VAL) /\
     forall i b, uses st' i b =
       if (b =? a) && hit (netif_list st) ifaddr i
       then u ← uses st i b; if u <=? 1 then None else Some (u - 1) else uses st i b).
Proof.
  intros Hinv Hnd Hmc Hne. unfold igmp_joingroup, igmp_leavegroup. rewrite Hmc. cbn [negb].
  replace (a =? allsystems) with false by lia. split.
  - destruct (join_loop_spec (netif_list st) ifaddr a ERR_VAL st Hinv Hnd (known_self st)) as (r & st' & E & H1 & _ & H2).
    exists r, st'. done.
  - destruct (leave_loop_spec (netif_list st) ifaddr a ERR_VAL st Hinv Hnd (known_self st))
      as (r & st' & E & H1 & _ & H2 & H3). exists r, st'. done.
Qed.

(** ** Reports are sent in time *)

Section running.
Hypothesis alloc_always : forall n, pbuf_alloc_ok n = true.

(** One timer tick of a group. *)
Definition fires (g : igmp_group) : bool :=
  (timer g =? 1) && bool_decide (group_state g = IGMP_GROUP_DELAYING_MEMBER).
Definition tick (g : igmp_group) : igmp_group :=
  if 0 <? timer g then
    let g := set_timer (timer g - 1) g in
    if (timer g =? 0) && bool_decide (group_state g = IGMP_GROUP_DELAYING_MEMBER) then set_flag true g else g
  else g.

Lemma upd_middle l1 g l2 f :
  NoDup (node <$> (l1 ++ g :: l2)) -> upd (l1 ++ g :: l2) (node g) f = l1 ++ f g :: l2.
Proof.
  rewrite fmap_app, fmap_cons. intros (H1 & H2 & H3)%NoDup_app. apply NoDup_cons in H3 as [H3 _].
  assert (Hid : forall l, node g ∉ node <$> l -> upd l (node g) f = l).
  { induction l as [|x l IH]; [done|]. rewrite fmap_cons. intros [Hx Hl]%not_elem_of_cons.
    change (upd (x :: l) (node g) f) with ((if node x =? node g then f x else x) :: upd l (node g) f).
    rewrite IH by done. by replace (node x =? node g) with false by lia. }
  unfold upd. rewrite map_app. cbn [map]. rewrite Z.eqb_refl. fold (upd l1 (node g) f). fold (upd l2 (node g) f).
  rewrite !Hid; [done|done|]. intros Hin. apply (H2 _ Hin). by left.
Qed.

Lemma update_inv st k f :
  inv st ->
  (forall g, (node (f g), gnetif (f g), group_address (f g), use (f g)) = (node g, gnetif g, group_address g, use g)) ->
  inv (update st k f).
Proof. intros Hi Hf. exact (same_inv _ _ (update_same st k f Hf) Hi). Qed.

Lemma send_report_spec st l1 g l2 :
  inv st -> igmp_group_list st = l1 ++ g :: l2 ->
  exists st' src, igmp_send st (node g) IGMP_V2_MEMB_REPORT = Some st' /\ same st st' /\
    igmp_group_list st' = l1 ++ set_flag true g :: l2 /\
    events st' = events st ++ [Send (gnetif g) src (group_address g) (igmp_msg IGMP_V2_MEMB_REPORT (group_address g))].
Proof.
  intros Hinv Hl. assert (Hg : g ∈ igmp_group_list st) by (rewrite Hl; apply elem_of_app; right; by left).
  destruct (send_same st (node g) IGMP_V2_MEMB_REPORT Hinv) as (st' & E & S); [exists g; by apply deref_in|].
  exists st'. revert E. unfold igmp_send. rewrite alloc_always.
  change (deref (mkIgmp _ _ _ _ _ _) (node g)) with (deref st (node g)). rewrite (deref_in st g Hinv Hg).
  cbn [mbind option_bind]. destruct (netif_in st g Hinv Hg) as [n Hn].
  change (netif_of (mkIgmp _ _ _ _ _ _) (gnetif g)) with (netif_of st (gnetif g)). rewrite Hn. cbn [mbind option_bind].
  rewrite Z.eqb_refl. intros [= <-]. exists (ip_addr n). split; [done|]. split; [done|]. split; [|done].
  cbn [emit_ev update with_groups igmp_group_list]. rewrite Hl. apply upd_middle. rewrite <- Hl. apply (inv_nodes _ Hinv).
Qed.

Lemma tmr_step_spec st l1 g l2 :
  inv st -> igmp_group_list st = l1 ++ g :: l2 ->
  exists st', (if 0 <? timer g then
              let st := update st (node g) (set_timer (timer g - 1)) in
              if timer g - 1 =? 0 then igmp_timeout st (node g) else Some st
            else Some st) = Some st' /\ inv st' /\ igmp_group_list st' = l1 ++ tick g :: l2 /\
    (exists ev, events st' = events st ++ ev) /\
    (fires g = true -> exists src,
       Send (gnetif g) src (group_address g) (igmp_msg IGMP_V2_MEMB_REPORT (group_address g)) ∈ events st').
Proof.
  intros Hinv Hl. unfold tick, fires.
  destruct (Z.ltb_spec 0 (timer g)) as [Ht|Ht].
  2:{ exists st. split_and!; auto; [by exists []; rewrite app_nil_r|]. intros Hf.
      replace (timer g =? 1) with false in Hf by lia. done. }
  cbn zeta. set (g1 := set_timer (timer g - 1) g). set (st1 := update st (node g) (set_timer (timer g - 1))).
  assert (Hinv1 : inv st1) by by apply update_inv.
  assert (Hl1 : igmp_group_list st1 = l1 ++ g1 :: l2).
  { unfold st1, update. cbn [with_groups igmp_group_list]. rewrite Hl. apply upd_middle. rewrite <- Hl. apply (inv_nodes _ Hinv). }
  assert (Hg1 : g1 ∈ igmp_group_list st1) by (rewrite Hl1; apply elem_of_app; right; by left).
  change (timer g1) with (timer g - 1). change (group_state g1) with (group_state g).
  destruct (Z.eqb_spec (timer g - 1) 0) as [E0|E0]; cbn [andb].
  - replace (timer g =? 1) with true by lia. cbn [andb]. unfold igmp_timeout.
    change (node g) with (node g1). rewrite (deref_in st1 g1 Hinv1 Hg1). cbn [mbind option_bind].
    change (group_state g1) with (group_state g).
    destruct (bool_decide (group_state g = IGMP_GROUP_DELAYING_MEMBER)).
    + destruct (send_report_spec st1 l1 g1 l2 Hinv1 Hl1) as (st2 & src & -> & S2 & Hl2 & Hev).
      exists st2. split; [done|]. split; [by apply (same_inv _ _ S2)|]. split; [done|].
      split; [eexists; exact Hev|]. intros _. exists src. rewrite Hev. apply elem_of_app. right. by left.
    + exists st1. split_and!; auto; [by exists []; rewrite app_nil_r|done].
  - replace (timer g =? 1) with false by lia. exists st1. split_and!; auto; [by exists []; rewrite app_nil_r|done].
Qed.

Lemma igmp_tmr_loop_spec l1 l2 st :
  inv st -> igmp_group_list st = l1 ++ l2 ->
  exists st', tmr_loop (node <$> l2) st = Some st' /\ inv st' /\ igmp_group_list st' = l1 ++ map tick l2 /\
    (exists ev, events st' = events st ++ ev) /\
    (forall g, g ∈ l2 -> fires g = true -> exists src,
       Send (gnetif g) src (group_address g) (igmp_msg IGMP_V2_MEMB_REPORT (group_address g)) ∈ events st').
Proof.
  revert l1 st. induction l2 as [|g l2 IH]; intros l1 st Hinv Hl.
  - exists st. split_and!; auto; [by exists []; rewrite app_nil_r|]. by intros g ?%not_elem_of_nil.
  - rewrite fmap_cons. cbn [tmr_loop map].
    assert (Hg : g ∈ igmp_group_list st) by (rewrite Hl; apply elem_of_app; right; by left).
    rewrite (deref_in st g Hinv Hg). cbn [mbind option_bind].
    destruct (tmr_step_spec st l1 g l2 Hinv Hl) as (st1 & E1 & Hinv1 & Hl1 & [ev1 Hev1] & Hf1).
    cbn zeta in E1 |- *. rewrite E1. cbn [mbind option_bind].
    destruct (IH (l1 ++ [tick g]) st1 Hinv1) as (st2 & -> & Hinv2 & Hl2 & [ev2 Hev2] & Hf2); [by rewrite <- app_assoc|].
    exists st2. split_and!; auto; [by rewrite Hl2, <- app_assoc|exists (ev1 ++ ev2); by rewrite Hev2, Hev1, app_assoc|].
    intros x [->|Hx]%elem_of_cons Hfx; [|by apply Hf2]. destruct (Hf1 Hfx) as [src Hs]. exists src.
    rewrite Hev2. apply elem_of_app. by left.
Qed.

Lemma igmp_tmr_spec st :
  inv st -> exists st', igmp_tmr st = Some st' /\ inv st' /\ igmp_group_list st' = map tick (igmp_group_list st) /\
    (exists ev, events st' = events st ++ ev) /\
    (forall g, g ∈ igmp_group_list st -> fires g = true -> exists src,
       Send (gnetif g) src (group_address g) (igmp_msg IGMP_V2_MEMB_REPORT (group_address g)) ∈ events st').
Proof. intros Hinv. apply (igmp_tmr_loop_spec [] (igmp_group_list st) st); done. Qed.

Fixpoint ticks (n : nat) (st : igmp) : option igmp :=
  match n with O => Some st | S n => st ← igmp_tmr st; ticks n st end.

Lemma igmp_ticks_spec n st g :
  inv st -> g ∈ igmp_group_list st -> group_state g = IGMP_GROUP_DELAYING_MEMBER ->
  1 <= timer g <= Z.of_nat n ->
  exists st' src, ticks n st = Some st' /\ inv st' /\
    Send (gnetif g) src (group_address g) (igmp_msg IGMP_V2_MEMB_REPORT (group_address g)) ∈ events st'.
Proof.
  assert (Hmono : forall n st e, inv st -> e ∈ events st -> exists st', ticks n st = Some st' /\ inv st' /\ e ∈ events st').
  { clear n st g. induction n as [|n IH]; intros st e Hinv He; [by exists st|]. cbn [ticks].
    destruct (igmp_tmr_spec st Hinv) as (st1 & -> & Hinv1 & _ & [ev Hev] & _). cbn [mbind option_bind].
    apply IH; [done|]. rewrite Hev. apply elem_of_app. by left. }
  revert st g. induction n as [|n IH]; intros st g Hinv Hg Hs Ht; [lia|]. cbn [ticks].
  destruct (igmp_tmr_spec st Hinv) as (st1 & -> & Hinv1 & Hl1 & _ & Hf). cbn [mbind option_bind].
  destruct (decide (timer g = 1)) as [E|E].
  - destruct (Hf g Hg) as [src Hsrc].
    { unfold fires. rewrite E, Hs. by rewrite bool_decide_eq_true_2. }
    destruct (Hmono n st1 _ Hinv1 Hsrc) as (st2 & -> & Hinv2 & He). eauto.
  - assert (Htick : tick g = set_timer (timer g - 1) g).
    { unfold tick. replace (0 <? timer g) with true by lia. cbn [set_timer timer].
      by replace (timer g - 1 =? 0) with false by lia. }
    apply (IH st1 (set_timer (timer g - 1) g)); auto; [|cbn; lia].
    rewrite Hl1, <- Htick. apply list_elem_of_In, in_map, list_elem_of_In, Hg.
Qed.

Lemma delaying_starts st g m :
  inv st -> g ∈ igmp_group_list st -> group_state g = IGMP_GROUP_IDLE_MEMBER -> 2 <= m < 256 ->
  exists st' g', igmp_delaying_member st (node g) m = Some st' /\ inv st' /\ g' ∈ igmp_group_list st' /\
    gnetif g' = gnetif g /\ group_address g' = group_address g /\
    group_state g' = IGMP_GROUP_DELAYING_MEMBER /\ 1 <= timer g' <= m - 1.
Proof.
  intros Hinv Hg Hs Hm. unfold igmp_delaying_member. rewrite (deref_in st g Hinv Hg). cbn [mbind option_bind].
  rewrite Hs. rewrite bool_decide_eq_true_2 by done. cbn [orb].
  destruct (start_timer_same st (node g) m) as (t & st1 & -> & S1 & Ht & Hl1); [lia|]. cbn [mbind option_bind].
  apply list_elem_of_split in Hg as (l1 & l2 & Hl). pose proof (inv_nodes _ Hinv) as Hn. rewrite Hl in Hn.
  rewrite Hl, upd_middle in Hl1 by done.
  pose proof (same_inv _ _ S1 Hinv) as Hinv1.
  exists (update st1 (node g) (set_state IGMP_GROUP_DELAYING_MEMBER)), (set_state IGMP_GROUP_DELAYING_MEMBER (set_timer (u16 t) g)).
  split; [done|]. split; [by apply update_inv|].
  split; [|split_and!; try done; cbn [set_state set_timer timer]; rewrite u16_small by zlia; lia].
  unfold update. cbn [with_groups igmp_group_list]. rewrite Hl1.
  change (node g) with (node (set_timer (u16 t) g)). rewrite upd_middle.
  - apply elem_of_app. right. by left.
  - rewrite <- Hl1. apply (inv_nodes _ Hinv1).
Qed.

(** a query is answered in time.  When a membership query for a group
    (destination and group address of the group, valid checksum, maximum
    response time [m] of at least two ticks) reaches an interface on which the
    group is an idle member, then a membership report for that group is sent
    within [m - 1] timer ticks. *)
Theorem igmp_query_answered st g m d :
  inv st -> g ∈ igmp_group_list st -> lookfor (igmp_group_list st) (gnetif g) (group_address g) = Some g ->
  group_state g = IGMP_GROUP_IDLE_MEMBER -> group_address g <> allsystems ->
  (8 <= length d)%nat -> inet_chksum 0 d = 0 -> nth 0 d 0 = IGMP_MEMB_QUERY -> nth 1 d 0 = m ->
  ip_addr_isany (ip_of (drop 4 d)) = false -> 2 <= m < 256 ->
  exists st1 st2 src,
    igmp_input st (gnetif g) (group_address g) (Some d) = Some st1 /\
    ticks (Z.to_nat (m - 1)) st1 = Some st2 /\ inv st2 /\
    Send (gnetif g) src (group_address g) (igmp_msg IGMP_V2_MEMB_REPORT (group_address g)) ∈ events st2.
Proof.
  intros Hinv Hg Hlk Hs Hna Hlen Hck Htype Hmr Hany Hm. unfold igmp_input.
  replace (Z.of_nat (length d) <? IGMP_MINLEN) with false by (symmetry; apply Z.ltb_ge; unfold IGMP_MINLEN; lia).
  rewrite Hck. cbn [Z.eqb negb]. unfold igmp_lookfor_group. rewrite Hlk, Htype, Z.eqb_refl, Hany.
  replace (group_address g =? allsystems) with false by lia. cbn [andb negb]. rewrite Hmr.
  destruct (delaying_starts st g m Hinv Hg Hs Hm) as (st1 & g' & -> & Hinv1 & Hg' & Hn & Ha & Hs' & Ht).
  destruct (igmp_ticks_spec (Z.to_nat (m - 1)) st1 g' Hinv1 Hg' Hs' ltac:(lia)) as (st2 & src & E & Hinv2 & He).
  rewrite Hn, Ha in He. exists st1, st2, src. done.
Qed.

End running.

(** A query with a maximum response time below two ticks divides by zero. *)
Lemma igmp_query_divides_by_zero st g m :
  inv st -> g ∈ igmp_group_list st -> group_state g = IGMP_GROUP_IDLE_MEMBER -> m = 0 \/ m = 1 ->
  igmp_delaying_member st (node g) m = None.
Proof.
  intros Hinv Hg Hs Hm. unfold igmp_delaying_member. rewrite (deref_in st g Hinv Hg). cbn [mbind option_bind].
  rewrite Hs. rewrite bool_decide_eq_true_2 by done. cbn [orb]. unfold igmp_start_timer. by destruct Hm as [-> | ->].
Qed.

End igmp.
Arguments igmp : clear implicits.

(** ** Instances *)
Definition group_pool : Pool Memp.memp :=
  Memp.memp_pool [(8%nat, 24)] 4096 0 ltac:(lia) ltac:(repeat constructor) ltac:(cbn; lia).
#[local] Existing Instance group_pool.

Definition eth0 : netif := mkNetif 1 0x0100000a 0x80 true.
Definition no_groups : igmp Memp.memp :=
  mkIgmp [] [eth0] [] 0 0 (Memp.memp_init [(8%nat, 24)] 4096).
(** 225.1.2.3 *)
Definition a_group : Z := 0x030201e1.

Lemma inv_no_groups : inv no_groups.
Proof.
  split; [constructor|constructor| |constructor]. exists [[]]. split; [|done].
  apply (Memp.memp_init_inv [(8%nat, 24)] 4096); [lia|repeat constructor].
Qed.

Lemma igmp_membership_witness :
  exists st', igmp_joingroup (fun _ => 7) (fun _ => true) no_groups 0 a_group = Some (ERR_OK, st') /\
    uses st' 1 a_group = Some 1.
Proof.
  destruct (igmp_membership (fun _ => 7) (fun _ => true) no_groups 0 a_group inv_no_groups
    ltac:(repeat constructor; set_solver) eq_refl ltac:(done)) as [(r & st' & E & _ & [[Hr Hu]|[Hr _]]) _].
  - exists st'. rewrite E, Hr. split; [reflexivity|]. rewrite Hu. reflexivity.
  - exfalso. subst r. vm_compute in E. discriminate E.
Defined.

(** The count wraps around: after 256 joins one leave ends the membership. *)
Definition join_again (st : igmp Memp.memp) : igmp Memp.memp :=
  from_option snd st (igmp_joingroup (fun _ => 7) (fun _ => true) st 0 a_group).
Lemma joins_wrap_around :
  let st := Nat.iter 256 join_again no_groups in
  uses st 1 a_group = Some 0 /\
  (fun x => uses x.2 1 a_group) <$> igmp_leavegroup (fun _ => true) st 0 a_group = Some None.
Proof. vm_compute. by split. Qed.

Definition one_group : igmp Memp.memp :=
  match alloc (pool no_groups) with
  | Some (a, p) => mkIgmp [mkGroup a 1 a_group false IGMP_GROUP_IDLE_MEMBER 0 1] [eth0] [] 0 0 p
  | None => no_groups
  end.

Definition the_group : igmp_group := mkGroup 4264 1 a_group false IGMP_GROUP_IDLE_MEMBER 0 1.

Lemma inv_one_group : igmp_group_list one_group = [the_group] /\ inv one_group.
Proof.
  pose proof (alloc_new _ _ (inv_pool _ inv_no_groups)) as Ha. unfold one_group.
  destruct (alloc (pool no_groups)) as [[a p]|] eqn:E; [|by vm_compute in E].
  assert (a = 4264) as -> by (vm_compute in E; by injection E).
  split; [done|]. destruct Ha as [_ Ha]. split.
  - cbn. apply NoDup_singleton.
  - cbn. apply NoDup_singleton.
  - exact Ha.
  - cbn. constructor; [by eexists|constructor].
Qed.

(** A query for the group with a maximum response time of ten ticks. *)
Definition a_query : list Z :=
  let c := inet_chksum 0 ([0x11; 10] ++ [0; 0] ++ ip_bytes a_group) in
  [0x11; 10] ++ [u8 c; c / 256] ++ ip_bytes a_group.

Lemma igmp_query_answered_witness :
  exists st1 st2 src,
    igmp_input (fun _ => 7) one_group 1 a_group (Some a_query) = Some st1 /\
    ticks (fun _ => true) 9 st1 = Some st2 /\
    Send 1 src a_group (igmp_msg IGMP_V2_MEMB_REPORT a_group) ∈ events st2.
Proof.
  destruct inv_one_group as [Hl Hinv].
  destruct (igmp_query_answered (fun _ => 7) (fun _ => true) ltac:(done) one_group the_group 10 a_query Hinv)
    as (st1 & st2 & src & H1 & H2 & _ & H3).
  - rewrite Hl. by left.
  - rewrite Hl. reflexivity.
  - reflexivity.
  - discriminate.
  - vm_compute. lia.
  - vm_compute. reflexivity.
  - reflexivity.
  - reflexivity.
  - vm_compute. reflexivity.
  - lia.
  - exists st1, st2, src. split; [exact H1|]. split; [exact H2|exact H3].
Defined.

End Igmp.
