(* ===== verification/TimeEvents.v ===== *)
(** * Beats, time events and the system timer

    [TimeModel::computeNextBeat] (independent/timemodel.cpp), the list of time
    events that the timer interrupt propagates (independent/timeevent.cpp) and
    the programming of the timer for the next timing event
    (bare-metal-generic/hw_specific_generic.cpp).  Times are signed 64-bit
    nanoseconds; an operation that leaves the type has no result.  A time event
    is identified by its position in [timeEventList]; the user's [handle()]
    methods are the parameter [handle], which gets the events and the rest [W]
    of the system. *)

From S2P Require Import Prelude.

#[local] Open Scope Z_scope.

Module TimeModel.

Definition END_OF_TIME : Z := 0x7FFFFFFFFFFFFFFF.
Definition NANOSECONDS : Z := 1.
Definition MICROSECONDS : Z := 1000 * NANOSECONDS.
Definition MILLISECONDS : Z := 1000 * MICROSECONDS.
Definition SECONDS : Z := 1000 * MILLISECONDS.

Definition computeNextBeat (begin period timeNow : Z) : option Z :=
  if negb (0 <=? begin) then Some END_OF_TIME
  else if negb (0 <=? period) then Some END_OF_TIME
  else if negb (0 <=? timeNow) then Some END_OF_TIME
  else if timeNow <? begin then Some begin
  else if period =? 0 then Some END_OF_TIME
  else if END_OF_TIME - begin <=? period then Some END_OF_TIME
  else
    beats ← i64 (Z.quot (timeNow - begin) period + 1);
    offset ← i64 (beats * period);
    i64 (offset + begin).

(** [splitTimeECSS]: whole seconds and a binary fraction of a second. *)
Definition splitTimeECSS (localTime : Z) : option (Z * Z) :=
  let seconds := u32 (Z.quot localTime SECONDS) in
  preFraction ← i64 (localTime - seconds * SECONDS);
  preFraction ← i64 (preFraction * 4294967296);
  Some (seconds, u32 (Z.quot preFraction SECONDS)).

(** The first beat strictly after [timeNow]. *)
Record first_beat_after (begin period timeNow t : Z) : Prop := {
  fb_future : timeNow < t;
  fb_first : t <= timeNow + period;
  fb_beat : (t - begin) mod period = 0
}.

Lemma first_beat_unique begin period timeNow t t' :
  0 < period ->
  first_beat_after begin period timeNow t -> first_beat_after begin period timeNow t' -> t = t'.
Proof.
  intros Hp [H1 H2 H3] [H1' H2' H3'].
  apply Z.div_exact in H3; [|lia]. apply Z.div_exact in H3'; [|lia].
  set (k := (t - begin) / period) in *. set (k' := (t' - begin) / period) in *.
  assert (k = k') by nia. nia.
Qed.

Lemma computeNextBeat_first begin period timeNow :
  0 <= begin <= timeNow -> 0 < period -> timeNow + period <= END_OF_TIME ->
  exists t, computeNextBeat begin period timeNow = Some t /\
    first_beat_after begin period timeNow t.
Proof.
  intros Hb Hp Hn. unfold computeNextBeat.
  rewrite (proj2 (Z.leb_le 0 begin)), (proj2 (Z.leb_le 0 period)),
    (proj2 (Z.leb_le 0 timeNow)), (proj2 (Z.ltb_ge timeNow begin)),
    (proj2 (Z.eqb_neq period 0)) by lia. cbn [negb].
  destruct (Z.leb_spec (END_OF_TIME - begin) period) as [Hend|Hend].
  { exists END_OF_TIME. split; [done|]. split; [lia|lia|].
    replace (END_OF_TIME - begin) with (1 * period) by lia. apply Z.mod_mul. lia. }
  rewrite Z.quot_div_nonneg by lia.
  pose proof (Z.div_mod (timeNow - begin) period ltac:(lia)) as Hdiv.
  pose proof (Z.mod_pos_bound (timeNow - begin) period Hp) as Hmod.
  set (k := (timeNow - begin) / period) in *.
  assert (0 <= k) by (apply Z.div_pos; lia).
  assert (k <= timeNow - begin) by nia.
  unfold END_OF_TIME in *.
  rewrite i64_small by (unfold in_i64; lia). cbn [mbind option_bind].
  rewrite i64_small by (unfold in_i64; nia). cbn [mbind option_bind].
  rewrite i64_small by (unfold in_i64; nia).
  eexists. split; [done|]. split; [nia|nia|].
  replace ((k + 1) * period + begin - begin) with ((k + 1) * period) by lia.
  apply Z.mod_mul. lia.
Qed.

End TimeModel.

Module TimeEvent.
Import TimeModel.

Record time_event := mkEvent { eventAt : Z; eventPeriod : Z }.

(** The constructor: not activated. *)
Definition TimeEvent : time_event := mkEvent END_OF_TIME 0.
Definition activateAt (time : Z) (e : time_event) : time_event := mkEvent time 0.
Definition activatePeriodic (startAt period : Z) (e : time_event) : time_event :=
  mkEvent startAt period.

Definition set_eventAt (t : Z) (e : time_event) : time_event := mkEvent t (eventPeriod e).

Section propagate.
Context {W : Type}.
Variable handle : nat -> list time_event * W -> list time_event * W.

(** One iteration of the loop, for the event at position [i]. *)
Definition propagate_body (timeNow : Z) (i : nat) (st : Z * (list time_event * W))
    : option (Z * (list time_event * W)) :=
  let '(cnt, (evs, w)) := st in
  e ← evs !! i;
  let iterEventAt := eventAt e in
  if iterEventAt <? timeNow then
    let iterEventPeriod := eventPeriod e in
    e' ← (if iterEventPeriod =? 0 then Some (set_eventAt END_OF_TIME e)
          else
            t ← i64 (iterEventAt + iterEventPeriod);
            let e1 := set_eventAt t e in
            if iterEventAt <? timeNow then
              nextBeat ← computeNextBeat iterEventAt iterEventPeriod timeNow;
              Some (set_eventAt nextBeat e1)
            else Some e1);
    Some (swrap 32 (cnt + 1), handle i (<[i := e']> evs, w))
  else Some st.

Fixpoint propagate_loop (timeNow : Z) (iter : list nat) (st : Z * (list time_event * W))
    : option (Z * (list time_event * W)) :=
  match iter with
  | [] => Some st
  | i :: iter' => st' ← propagate_body timeNow i st; propagate_loop timeNow iter' st'
  end.

Definition propagate (timeNow : Z) (s : list time_event * W)
    : option (Z * (list time_event * W)) :=
  propagate_loop timeNow (seq 0 (length s.1)) (0, s).

End propagate.

Definition getNextTriggerTime (evs : list time_event) : Z :=
  foldl (fun nextTriggerTime e =>
    if eventAt e <? nextTriggerTime then eventAt e else nextTriggerTime) END_OF_TIME evs.

(** [initAllElements] calls [init] of every event and counts them. *)
Definition initAllElements {W} (init : nat -> list time_event * W -> list time_event * W)
    (s : list time_event * W) : Z * (list time_event * W) :=
  foldl (fun st i => (swrap 32 (st.1 + 1), init i st.2)) (0, s) (seq 0 (length s.1)).

(** ** What propagation does *)

Definition due (timeNow : Z) (e : time_event) : bool := eventAt e <? timeNow.

(** The positions of the due events, in list order. *)
Definition due_ids (timeNow : Z) (evs : list time_event) (ids : list nat) : list nat :=
  filter (fun i => Is_true (from_option (due timeNow) false (evs !! i))) ids.

(** An event after it fired: one-shot events are off, periodic ones are at
    their first beat after [timeNow]. *)
Definition rearmed (timeNow : Z) (e : time_event) : time_event :=
  set_eventAt
    (if eventPeriod e =? 0 then END_OF_TIME
     else eventAt e + ((timeNow - eventAt e) / eventPeriod e + 1) * eventPeriod e) e.

Definition fire {W} (handle : nat -> list time_event * W -> list time_event * W)
    (timeNow : Z) (s : list time_event * W) (i : nat) : list time_event * W :=
  match s.1 !! i with
  | Some e => handle i (<[i := rearmed timeNow e]> s.1, s.2)
  | None => s
  end.

Record event_wf (timeNow : Z) (e : time_event) : Prop := {
  ewf_at : 0 <= eventAt e <= END_OF_TIME;
  ewf_period : 0 <= eventPeriod e;
  ewf_range : timeNow + eventPeriod e <= END_OF_TIME
}.

Lemma due_ids_cons timeNow evs i ids :
  due_ids timeNow evs (i :: ids) =
  (if from_option (due timeNow) false (evs !! i) then [i] else []) ++ due_ids timeNow evs ids.
Proof.
  unfold due_ids. rewrite filter_cons.
  destruct (from_option (due timeNow) false (evs !! i)); cbn; by case_decide.
Qed.

Lemma due_ids_ext timeNow evs evs' ids :
  (forall i, i ∈ ids -> evs !! i = evs' !! i) -> due_ids timeNow evs ids = due_ids timeNow evs' ids.
Proof.
  induction ids as [|i ids IH]; intros Heq; [done|]. rewrite !due_ids_cons.
  rewrite (Heq i) by constructor. f_equal. apply IH. intros j Hj. apply Heq. by constructor.
Qed.

Lemma swrap_succ c : swrap 32 (swrap 32 c + 1) = swrap 32 (c + 1).
Proof.
  unfold swrap. change (2 ^ 32) with 4294967296. change (2 ^ (32 - 1)) with 2147483648. zlia.
Qed.

(** The beat that the code computes for a due event. *)
Lemma next_beat_rearmed timeNow e :
  event_wf timeNow e -> due timeNow e = true -> eventPeriod e <> 0 ->
  computeNextBeat (eventAt e) (eventPeriod e) timeNow = Some (eventAt (rearmed timeNow e)) /\
  first_beat_after (eventAt e) (eventPeriod e) timeNow (eventAt (rearmed timeNow e)).
Proof.
  intros [Hat Hper Hr] Hdue%Z.ltb_lt Hp.
  destruct (computeNextBeat_first (eventAt e) (eventPeriod e) timeNow) as (t & Hb & Hf);
    [lia..|].
  assert (eventAt (rearmed timeNow e) = t) as ->; [|done].
  apply (first_beat_unique (eventAt e) (eventPeriod e) timeNow); [lia| |done].
  unfold rearmed, set_eventAt. cbn [eventAt eventPeriod].
  rewrite (proj2 (Z.eqb_neq _ 0)) by done.
  pose proof (Z.div_mod (timeNow - eventAt e) (eventPeriod e) Hp).
  pose proof (Z.mod_pos_bound (timeNow - eventAt e) (eventPeriod e) ltac:(lia)).
  split; [nia|nia|].
  match goal with |- (?a + ?b - ?a) mod _ = 0 => replace (a + b - a) with b by lia end.
  by apply Z.mod_mul.
Qed.

Section handlers.
Context {W : Type}.
Variable handle : nat -> list time_event * W -> list time_event * W.

Lemma propagate_body_due timeNow i cnt evs w e :
  evs !! i = Some e -> event_wf timeNow e -> due timeNow e = true ->
  propagate_body handle timeNow i (cnt, (evs, w)) =
  Some (swrap 32 (cnt + 1), fire handle timeNow (evs, w) i).
Proof.
  intros He Hwf Hdue. unfold propagate_body, fire. cbn [fst snd]. rewrite He. cbn [mbind option_bind].
  unfold due in Hdue. rewrite Hdue.
  destruct (Z.eqb_spec (eventPeriod e) 0) as [Hp|Hp]; cbn [mbind option_bind].
  - unfold rearmed. by rewrite Hp.
  - destruct (next_beat_rearmed timeNow e Hwf Hdue Hp) as [-> _].
    destruct Hwf. apply Z.ltb_lt in Hdue.
    unfold END_OF_TIME in *. rewrite i64_small by (unfold in_i64; lia). done.
Qed.

(** A handler may change its own event and the rest of the system. *)
Hypothesis handle_own :
  forall i evs w, exists e, (handle i (evs, w)).1 = <[i := e]> evs.

Lemma fire_frame timeNow s i : exists e, (fire handle timeNow s i).1 = <[i := e]> s.1.
Proof.
  destruct s as [evs w]. unfold fire. cbn [fst snd]. destruct (evs !! i) as [e|] eqn:He.
  - destruct (handle_own i (<[i := rearmed timeNow e]> evs) w) as [e' ->].
    exists e'. apply list_insert_insert_eq.
  - exists TimeEvent. cbn. symmetry. apply list_insert_ge. by apply lookup_ge_None.
Qed.

Lemma propagate_loop_spec timeNow ids : forall c evs w,
  NoDup ids -> (forall i, i ∈ ids -> exists e, evs !! i = Some e /\ event_wf timeNow e) ->
  propagate_loop handle timeNow ids (swrap 32 c, (evs, w)) =
  Some (swrap 32 (c + Z.of_nat (length (due_ids timeNow evs ids))),
        foldl (fire handle timeNow) (evs, w) (due_ids timeNow evs ids)).
Proof.
  induction ids as [|i ids IH]; intros c evs w Hnd Hwf.
  { cbn. by rewrite Z.add_0_r. }
  apply NoDup_cons in Hnd as [Hi Hnd].
  destruct (Hwf i ltac:(constructor)) as (e & He & Hew).
  rewrite due_ids_cons, He. cbn [from_option propagate_loop].
  destruct (due timeNow e) eqn:Hdue.
  - rewrite (propagate_body_due timeNow i _ evs w e He Hew Hdue). cbn [mbind option_bind].
    rewrite swrap_succ.
    pose proof (fire_frame timeNow (evs, w) i) as [e' Hfr]. cbn [fst] in Hfr.
    assert (forall j, j ∈ ids -> (fire handle timeNow (evs, w) i).1 !! j = evs !! j) as Hsame.
    { intros j Hj. rewrite Hfr. apply list_lookup_insert_ne. by intros ->. }
    destruct (fire handle timeNow (evs, w) i) as [evs' w'] eqn:Hfire. cbn [fst] in Hsame.
    rewrite IH; [|done|].
    + rewrite (due_ids_ext timeNow evs' evs ids Hsame). rewrite length_app, foldl_app.
      cbn [length app foldl]. rewrite Hfire. do 3 f_equal. lia.
    + intros j Hj. rewrite Hsame by done. apply Hwf. by constructor.
  - cbn [app]. unfold propagate_body. rewrite He. cbn [mbind option_bind].
    unfold due in Hdue. rewrite Hdue. cbn [mbind option_bind].
    apply IH; [done|]. intros j Hj. apply Hwf. by constructor.
Qed.

Lemma propagate_eq timeNow evs w :
  Forall (event_wf timeNow) evs ->
  propagate handle timeNow (evs, w) =
  Some (swrap 32 (Z.of_nat (length (due_ids timeNow evs (seq 0 (length evs))))),
        foldl (fire handle timeNow) (evs, w) (due_ids timeNow evs (seq 0 (length evs)))).
Proof.
  intros Hwf. unfold propagate. cbn [fst].
  change 0 with (swrap 32 0) at 1. rewrite propagate_loop_spec; [done|apply NoDup_seq|].
  intros i Hi%elem_of_seq. destruct (lookup_lt_is_Some_2 evs i) as [e He]; [lia|].
  exists e. split; [done|]. by apply (Forall_lookup_1 _ _ _ _ Hwf He).
Qed.

End handlers.

Lemma getNextTriggerTime_spec evs :
  (forall e, e ∈ evs -> getNextTriggerTime evs <= eventAt e) /\
  (getNextTriggerTime evs = END_OF_TIME \/ exists e, e ∈ evs /\ eventAt e = getNextTriggerTime evs).
Proof.
  unfold getNextTriggerTime. induction evs as [|e evs [IHle IHin]] using rev_ind.
  { split; [by intros e ?%elem_of_nil|by left]. }
  rewrite foldl_snoc.
  match goal with |- context [foldl ?f ?x evs] => set (m := foldl f x evs) in * end.
  split.
  - intros e'. rewrite elem_of_app, list_elem_of_singleton.
    destruct (Z.ltb_spec (eventAt e) m); intros [Hin| ->]; try lia; specialize (IHle e' Hin); lia.
  - destruct (Z.ltb_spec (eventAt e) m).
    + right. exists e. split; [apply elem_of_app; right; by constructor|done].
    + destruct IHin as [->|(e' & Hin & <-)]; [by left|]. right. exists e'.
      split; [apply elem_of_app; by left|done].
Qed.

Section passive.
Context {W : Type}.
Variable handle : nat -> list time_event * W -> list time_event * W.
Hypothesis handle_passive : forall i evs w, (handle i (evs, w)).1 = evs.

Lemma fire_passive timeNow s i :
  (fire handle timeNow s i).1 = alter (rearmed timeNow) i s.1.
Proof.
  destruct s as [evs w]. unfold fire. cbn [fst snd]. destruct (evs !! i) as [e|] eqn:He.
  - rewrite handle_passive. apply list_eq. intros j. destruct (decide (i = j)) as [->|].
    + rewrite list_lookup_insert_eq by (by eapply lookup_lt_Some).
      by rewrite list_lookup_alter_eq, He.
    + by rewrite list_lookup_alter_ne, list_lookup_insert_ne.
  - symmetry. cbn [fst]. apply list_eq. intros j. destruct (decide (i = j)) as [->|].
    + by rewrite list_lookup_alter_eq, He.
    + by rewrite list_lookup_alter_ne.
Qed.

Lemma fire_all_length timeNow ids : forall s,
  length (foldl (fire handle timeNow) s ids).1 = length s.1.
Proof.
  induction ids as [|j ids IH]; intros s; cbn [foldl]; [done|].
  by rewrite IH, fire_passive, length_alter.
Qed.

Lemma fire_all_lookup timeNow ids : forall s i,
  NoDup ids ->
  (foldl (fire handle timeNow) s ids).1 !! i =
  if decide (i ∈ ids) then rearmed timeNow <$> s.1 !! i else s.1 !! i.
Proof.
  induction ids as [|j ids IH]; intros s i Hnd; cbn [foldl].
  { destruct (decide (i ∈ [])) as [Hi|]; [by apply elem_of_nil in Hi|done]. }
  apply NoDup_cons in Hnd as [Hj Hnd]. rewrite IH, fire_passive by done.
  destruct (decide (i = j)) as [->|Hne].
  - destruct (decide (j ∈ ids)); [done|]. rewrite list_lookup_alter_eq.
    destruct (decide (j ∈ j :: ids)) as [_|Hn]; [done|]. destruct Hn. by constructor.
  - rewrite list_lookup_alter_ne by done.
    destruct (decide (i ∈ ids)) as [Hi|Hi], (decide (i ∈ j :: ids)) as [Hc|Hc]; try done.
    + destruct Hc. by constructor.
    + by apply elem_of_cons in Hc as [?|?].
Qed.

End passive.

Lemma elem_of_due_ids timeNow evs i e :
  evs !! i = Some e -> i ∈ due_ids timeNow evs (seq 0 (length evs)) <-> due timeNow e = true.
Proof.
  intros He. unfold due_ids. rewrite list_elem_of_filter, He. cbn.
  rewrite Is_true_true. split; [by intros []|]. intros; split; [done|].
  apply elem_of_seq. apply lookup_lt_Some in He. lia.
Qed.

Lemma rearmed_not_due timeNow e :
  event_wf timeNow e -> due timeNow e = true -> timeNow <= eventAt (rearmed timeNow e).
Proof.
  intros Hwf Hdue. destruct (decide (eventPeriod e = 0)) as [Hp|Hp].
  - unfold rearmed, set_eventAt. rewrite Hp. cbn. destruct Hwf. lia.
  - destruct (next_beat_rearmed timeNow e Hwf Hdue Hp) as [_ [? _ _]]. lia.
Qed.

(** C33: [TimeEvent::propagate] at time [timeNow] calls the handler of every
    event whose time has passed, once each and in list order, and of no other
    event; the event is switched off or moved to its next beat before its
    handler runs, so that a handler can activate its own event again; the
    result is the number of the handlers called. *)
Theorem propagate_fires_due {W} (handle : nat -> list time_event * W -> list time_event * W)
    timeNow evs (w : W) :
  (forall i evs w, exists e, (handle i (evs, w)).1 = <[i := e]> evs) ->
  Forall (event_wf timeNow) evs ->
  let fired := due_ids timeNow evs (seq 0 (length evs)) in
  propagate handle timeNow (evs, w) =
    Some (swrap 32 (Z.of_nat (length fired)), foldl (fire handle timeNow) (evs, w) fired) /\
  (forall i e, evs !! i = Some e -> i ∈ fired <-> eventAt e < timeNow) /\ NoDup fired.
Proof.
  intros Hown Hwf fired. split_and!.
  - by apply propagate_eq.
  - intros i e He. unfold fired. rewrite (elem_of_due_ids _ _ _ e He). apply Z.ltb_lt.
  - apply NoDup_filter, NoDup_seq.
Qed.

(** A handler that counts its calls, and the handler of event 1 arms its own
    event again. *)
Definition counting_handle (i : nat) (s : list time_event * list nat)
    : list time_event * list nat :=
  ((match i with 1%nat => <[1%nat := mkEvent 500 0]> s.1 | _ => s.1 end), s.2 ++ [i]).

Lemma counting_own i evs w : exists e, (counting_handle i (evs, w)).1 = <[i := e]> evs.
Proof.
  destruct (decide (i = 1%nat)) as [->|Hi]; [by eexists|].
  assert ((counting_handle i (evs, w)).1 = evs) as -> by (by destruct i as [|[|]]).
  destruct (evs !! i) as [e|] eqn:He.
  - exists e. symmetry. by apply list_insert_id.
  - exists TimeEvent. symmetry. apply list_insert_ge. by apply lookup_ge_None.
Qed.

Definition three_events : list time_event := [mkEvent 70 100; mkEvent 10 0; mkEvent 300 0].

Lemma three_events_wf : Forall (event_wf 290) three_events.
Proof. repeat constructor; cbn; unfold END_OF_TIME; lia. Qed.

Lemma propagate_fires_due_witness :
  propagate counting_handle 290 (three_events, []) =
    Some (2, ([mkEvent 370 100; mkEvent 500 0; mkEvent 300 0], [0%nat; 1%nat])).
Proof.
  etransitivity;
    [exact (proj1 (propagate_fires_due counting_handle 290 three_events [] counting_own
                     three_events_wf)) | reflexivity].
Defined.

(** After [TimeEvent::propagate] with handlers that do not touch the events,
    one-shot events that were due are off, periodic events that were due are at
    the first beat of their own period after [timeNow] (missed beats are
    skipped, the phase is kept), all others are as before, and the next trigger
    time is not in the past: a second propagation at [timeNow] would fire
    nothing. *)
Theorem propagate_rearms {W} (handle : nat -> list time_event * W -> list time_event * W)
    timeNow evs (w : W) :
  (forall i evs w, (handle i (evs, w)).1 = evs) ->
  Forall (event_wf timeNow) evs -> timeNow <= END_OF_TIME ->
  exists cnt evs' w', propagate handle timeNow (evs, w) = Some (cnt, (evs', w')) /\
    length evs' = length evs /\
    (forall i e e', evs !! i = Some e -> evs' !! i = Some e' ->
       eventPeriod e' = eventPeriod e /\
       (timeNow <= eventAt e -> e' = e) /\
       (eventAt e < timeNow -> eventPeriod e = 0 -> eventAt e' = END_OF_TIME) /\
       (eventAt e < timeNow -> eventPeriod e <> 0 ->
          first_beat_after (eventAt e) (eventPeriod e) timeNow (eventAt e'))) /\
    timeNow <= getNextTriggerTime evs'.
Proof.
  intros Hpass Hwf Hnow.
  assert (forall i evs w, exists e, (handle i (evs, w)).1 = <[i := e]> evs) as Hown.
  { intros i evs0 w0. rewrite Hpass. destruct (evs0 !! i) as [e|] eqn:He.
    - exists e. symmetry. by apply list_insert_id.
    - exists TimeEvent. symmetry. apply list_insert_ge. by apply lookup_ge_None. }
  rewrite (propagate_eq handle Hown timeNow evs w Hwf).
  set (ids := due_ids timeNow evs (seq 0 (length evs))).
  destruct (foldl (fire handle timeNow) (evs, w) ids) as [evs' w'] eqn:Hf.
  assert (forall i, evs' !! i =
    if decide (i ∈ ids) then rearmed timeNow <$> evs !! i else evs !! i) as Hlook.
  { intros i. change evs' with (evs', w').1. rewrite <- Hf.
    apply fire_all_lookup; [done|]. apply NoDup_filter, NoDup_seq. }
  assert (forall i e e', evs !! i = Some e -> evs' !! i = Some e' ->
    e' = if due timeNow e then rearmed timeNow e else e) as Hevs'.
  { intros i e e' He. rewrite Hlook, He. destruct (elem_of_due_ids timeNow evs i e He).
    destruct (decide (i ∈ ids)), (due timeNow e); cbn; naive_solver. }
  assert (length evs' = length evs) as Hlen.
  { change evs' with (evs', w').1. rewrite <- Hf. by apply fire_all_length. }
  exists (swrap 32 (Z.of_nat (length ids))), evs', w'. split_and!; [done|done|..].
  - intros i e e' He He'. pose proof (Forall_lookup_1 _ _ _ _ Hwf He) as Hew.
    rewrite (Hevs' i e e' He He'). unfold due. destruct (Z.ltb_spec (eventAt e) timeNow) as [Hd|Hd].
    + split_and!; [done|lia|..]; intros _ Hp.
      * unfold rearmed. by rewrite Hp.
      * apply next_beat_rearmed; [done|by apply Z.ltb_lt|done].
    + split_and!; [done|done|lia|lia].
  - destruct (getNextTriggerTime_spec evs') as [_ [->|(e' & Hin & <-)]]; [done|].
    apply list_elem_of_lookup_1 in Hin as [i Hi].
    destruct (lookup_lt_is_Some_2 evs i) as [e He]; [rewrite <- Hlen; by eapply lookup_lt_Some|].
    rewrite (Hevs' i e e' He Hi). destruct (due timeNow e) eqn:Hd.
    + apply rearmed_not_due; [by apply (Forall_lookup_1 _ _ _ _ Hwf He)|done].
    + by apply Z.ltb_ge in Hd.
Qed.

Lemma propagate_rearms_witness :
  exists cnt evs' w',
    propagate (fun i s => (s.1, s.2 ++ [i])) 290 (three_events, []) = Some (cnt, (evs', w')) /\
    290 <= getNextTriggerTime evs'.
Proof.
  destruct (propagate_rearms (fun i s => (s.1, s.2 ++ [i])) 290 three_events []
              (fun _ _ _ => eq_refl) three_events_wf ltac:(unfold END_OF_TIME; lia))
    as (cnt & evs' & w' & H1 & _ & _ & H2).
  exists cnt, evs', w'. split; [exact H1 | exact H2].
Defined.

(** The test for a beat still in the past looks at the time before the update,
    so the next beat is always recomputed: a beat that falls exactly on the time
    of the propagation is skipped. *)
Lemma beat_at_now_skipped :
  propagate (fun i s => s) 200 ([mkEvent 100 100], tt) = Some (1, ([mkEvent 300 100], tt)).
Proof. reflexivity. Qed.

End TimeEvent.

Module Timer.
Import TimeModel.

Definition MIN_SYS_TICK_SPACING : Z := 500 * MICROSECONDS.

(** [RODOS::min] and [RODOS::max]. *)
Definition rmin (a b : Z) : Z := if a <? b then a else b.
Definition rmax (a b : Z) : Z := if b <? a then a else b.

Lemma rmin_le a b : rmin a b = Z.min a b.
Proof. unfold rmin. destruct (Z.ltb_spec a b); lia. Qed.
Lemma rmax_le a b : rmax a b = Z.max a b.
Proof. unfold rmax. destruct (Z.ltb_spec b a); lia. Qed.

(** The argument, in microseconds, with which [Timer::setInterval] is called. *)
Definition updateTriggerToNextTimingEvent
    (nextSchedulingEventTime nextTimeEventTriggerTime timeNow : Z) : option Z :=
  let reactivationTime := rmin nextSchedulingEventTime nextTimeEventTriggerTime in
  t ← i64 (timeNow + MIN_SYS_TICK_SPACING);
  nextOfNextBeat ← computeNextBeat 0 MIN_SYS_TICK_SPACING t;
  let reactivationTime := rmax reactivationTime nextOfNextBeat in
  intervalInNanoSecs ← i64 (reactivationTime - timeNow);
  Some (Z.quot intervalInNanoSecs 1000).

(** Where the timer fires if it is programmed at [timeNow]. *)
Lemma trigger_bounds sched evt timeNow :
  0 <= timeNow -> timeNow + 2 * MIN_SYS_TICK_SPACING <= END_OF_TIME ->
  sched <= END_OF_TIME -> evt <= END_OF_TIME ->
  exists interval, updateTriggerToNextTimingEvent sched evt timeNow = Some interval /\
    MIN_SYS_TICK_SPACING <= interval * 1000 /\
    timeNow + interval * 1000 <= Z.max (Z.min sched evt) (timeNow + 2 * MIN_SYS_TICK_SPACING) /\
    Z.min sched evt - 1000 < timeNow + interval * 1000.
Proof.
  intros Hn Hr Hs He. unfold updateTriggerToNextTimingEvent.
  rewrite rmin_le. set (next := Z.min sched evt) in *.
  assert (next <= END_OF_TIME) by lia.
  destruct (computeNextBeat_first 0 MIN_SYS_TICK_SPACING (timeNow + MIN_SYS_TICK_SPACING))
    as (t & Ht & [Hf1 Hf2 Hf3]); [unfold MIN_SYS_TICK_SPACING, MICROSECONDS, NANOSECONDS in *; lia..|].
  unfold END_OF_TIME, MIN_SYS_TICK_SPACING, MICROSECONDS, NANOSECONDS in *.
  rewrite i64_small by (unfold in_i64; lia). cbn [mbind option_bind].
  rewrite Ht. cbn [mbind option_bind]. rewrite rmax_le.
  rewrite i64_small by (unfold in_i64; lia). cbn [mbind option_bind].
  eexists. split; [done|]. rewrite Z.quot_div_nonneg by lia. zlia.
Qed.

(** The timer that the scheduler programs never fires sooner than the
    minimal spacing of the ticks after it is programmed, and it fires no later
    than the next timing event (the earlier of the next scheduling time and the
    next time event) or two tick spacings from now, whichever is later: a
    deadline is overrun by at most twice the minimal spacing. A timing event
    further away than that is met to the microsecond. *)
Theorem trigger_overrun_bounded sched evt timeNow :
  0 <= timeNow -> timeNow + 2 * MIN_SYS_TICK_SPACING <= END_OF_TIME ->
  timeNow <= sched <= END_OF_TIME -> timeNow <= evt <= END_OF_TIME ->
  exists interval, updateTriggerToNextTimingEvent sched evt timeNow = Some interval /\
    let tick := timeNow + interval * 1000 in
    timeNow + MIN_SYS_TICK_SPACING <= tick /\
    (forall deadline, deadline = sched \/ deadline = evt ->
       tick <= deadline + 2 * MIN_SYS_TICK_SPACING) /\
    (timeNow + 2 * MIN_SYS_TICK_SPACING <= Z.min sched evt ->
       Z.min sched evt - 1000 < tick <= Z.min sched evt).
Proof.
  intros Hn Hr Hs He.
  destruct (trigger_bounds sched evt timeNow) as (n & Hn' & H1 & H2 & H3); [lia..|].
  exists n. split; [done|]. cbv zeta.
  assert (0 <= MIN_SYS_TICK_SPACING) by (unfold MIN_SYS_TICK_SPACING, MICROSECONDS, NANOSECONDS; lia).
  split_and!; [lia| |lia]. intros d [-> | ->]; lia.
Qed.

Lemma trigger_overrun_bounded_witness :
  exists interval, updateTriggerToNextTimingEvent 5000000 1300000 1200001 = Some interval /\
    1200001 + interval * 1000 <= 1300000 + 2 * MIN_SYS_TICK_SPACING.
Proof.
  destruct (trigger_overrun_bounded 5000000 1300000 1200001) as (n & H1 & _ & H2 & _);
    [vm_compute; congruence | vm_compute; congruence
    | split; vm_compute; congruence | split; vm_compute; congruence | ].
  exists n. split; [exact H1 | apply H2; right; reflexivity].
Defined.

End Timer.
