(* ===== verification/Scheduler.v ===== *)
(** * Threads and the scheduler

    The thread operations of bare-metal-generic/thread_on_hw.cpp and
    independent/thread.cpp and the scheduler of bare-metal-generic/scheduler.cpp.
    Threads never go away; a thread is identified by its position in
    [threadList], and the list of the records is the memory of the threads.
    [NOW n] is the [n]-th reading of the clock and [handle] the user's time
    event handlers.  Saving and restoring the registers of a thread is not
    modelled: [activate] makes a thread the current one, and the interrupts
    that can hit [yield] are parameters of it. *)

From S2P Require Import Prelude TimeEvents.

#[local] Open Scope Z_scope.

Module Scheduler.
Import TimeModel TimeEvent Timer.

Definition TIME_SLICE_FOR_SAME_PRIORITY : Z := 100 * MILLISECONDS.
Definition MAX_THREAD_PRIORITY : Z := 1000.
Definition NETWORKREADER_PRIORITY : Z := MAX_THREAD_PRIORITY + 2.
Definition CEILING_PRIORITY : Z := NETWORKREADER_PRIORITY + 1.
Definition EMPTY_MEMORY_MARKER : Z := 0xDEADBEEF.

Record thread := mkThread {
  priority : Z;
  suspendedUntil : Z;
  waitingFor : option Z;       (** the signaler; [None] is [nullptr] *)
  lastActivation : Z;
  context : Z;
  nextBeat : Z;
  period : Z;
  stackBegin : Z;              (** lowest address of the stack *)
  currentStackAddr : Z;        (** [getCurrentStackAddr()] *)
  stackMark : Z                (** the word at [stackBegin] *)
}.

Definition set_priority (p : Z) (t : thread) : thread :=
  mkThread p (suspendedUntil t) (waitingFor t) (lastActivation t) (context t) (nextBeat t)
    (period t) (stackBegin t) (currentStackAddr t) (stackMark t).
Definition set_suspendedUntil (s : Z) (t : thread) : thread :=
  mkThread (priority t) s (waitingFor t) (lastActivation t) (context t) (nextBeat t)
    (period t) (stackBegin t) (currentStackAddr t) (stackMark t).
Definition set_waitingFor (w : option Z) (t : thread) : thread :=
  mkThread (priority t) (suspendedUntil t) w (lastActivation t) (context t) (nextBeat t)
    (period t) (stackBegin t) (currentStackAddr t) (stackMark t).
Definition set_lastActivation (c : Z) (t : thread) : thread :=
  mkThread (priority t) (suspendedUntil t) (waitingFor t) c (context t) (nextBeat t)
    (period t) (stackBegin t) (currentStackAddr t) (stackMark t).
Definition set_context (c : Z) (t : thread) : thread :=
  mkThread (priority t) (suspendedUntil t) (waitingFor t) (lastActivation t) c (nextBeat t)
    (period t) (stackBegin t) (currentStackAddr t) (stackMark t).
Definition set_beat (b p : Z) (t : thread) : thread :=
  mkThread (priority t) (suspendedUntil t) (waitingFor t) (lastActivation t) (context t) b
    p (stackBegin t) (currentStackAddr t) (stackMark t).

(** ** Selection *)

Definition earlier (a b : Z) : Z := if a <? b then a else b.

(** The loop state: [nextThreadToRun] with its record, and
    [selectedEarliestSuspendedUntil]. *)
Definition selection : Type := (nat * thread) * Z.

Definition findNextToRun_body (timeNow : Z) (acc : selection) (iter : nat * thread) : selection :=
  let '(nextThreadToRun, selectedEarliestSuspendedUntil) := acc in
  let iterSuspendedUntil := suspendedUntil iter.2 in
  let iterPrio := priority iter.2 in
  let nextThreadToRunPrio := priority nextThreadToRun.2 in
  if iterSuspendedUntil <? timeNow then
    if nextThreadToRunPrio <? iterPrio then (iter, selectedEarliestSuspendedUntil)
    else if iterPrio =? nextThreadToRunPrio then
      if lastActivation iter.2 <? lastActivation nextThreadToRun.2
      then (iter, selectedEarliestSuspendedUntil) else acc
    else acc
  else
    if nextThreadToRunPrio <=? iterPrio then
      (nextThreadToRun, earlier selectedEarliestSuspendedUntil iterSuspendedUntil)
    else acc.

Definition findNextToRun (idlethread : nat) (threadList : list thread) (timeNow : Z)
    : option selection :=
  t ← threadList !! idlethread;
  Some (foldl (findNextToRun_body timeNow) ((idlethread, t), END_OF_TIME) (imap pair threadList)).

(** The same loop with [loadFromISR], as the source repeats it. *)
Definition findNextToRunFromISR (idlethread : nat) (threadList : list thread) (timeNow : Z)
    : option selection :=
  t ← threadList !! idlethread;
  Some (foldl (findNextToRun_body timeNow) ((idlethread, t), END_OF_TIME) (imap pair threadList)).

Definition findNextWaitingFor_body (signaler : option Z) (nextWaiter iter : nat * thread)
    : nat * thread :=
  if decide (waitingFor iter.2 = signaler) then
    if priority nextWaiter.2 <? priority iter.2 then iter
    else if priority iter.2 =? priority nextWaiter.2 then
      if lastActivation iter.2 <? lastActivation nextWaiter.2 then iter else nextWaiter
    else nextWaiter
  else nextWaiter.

Definition findNextWaitingFor (idlethread : nat) (threadList : list thread) (signaler : option Z)
    : option (option nat) :=
  t ← threadList !! idlethread;
  let nextWaiter :=
    foldl (findNextWaitingFor_body signaler) (idlethread, t) (imap pair threadList) in
  Some (if decide (nextWaiter.1 = idlethread) then None else Some nextWaiter.1).

(** [checkStackViolations]: the thread, deactivated when its stack is violated. *)
Definition checkStackViolations (t : thread) : bool * thread :=
  if currentStackAddr t <? stackBegin t + 300 then (true, set_suspendedUntil END_OF_TIME t)
  else if negb (stackMark t =? EMPTY_MEMORY_MARKER) then
    (true, set_suspendedUntil END_OF_TIME t)
  else (false, t).

(** ** The state of the kernel *)

Record kernel := mkKernel {
  threadList : list thread;
  idlethread : nat;
  currentThread : nat;
  preSelectedNextToRun : option nat;
  preSelectedEarliestSuspendedUntil : Z;
  scheduleCounter : Z;
  timeToTryAgainToSchedule : Z;
  yieldSchedulingLock : bool;
  schedulerRunning : bool;
  timerInterval : Z;            (** the last [Timer::setInterval] *)
  timerOn : bool;
  clk : nat                     (** how often the clock was read *)
}.

Definition set_threadList (l : list thread) (k : kernel) : kernel :=
  mkKernel l (idlethread k) (currentThread k) (preSelectedNextToRun k)
    (preSelectedEarliestSuspendedUntil k) (scheduleCounter k) (timeToTryAgainToSchedule k)
    (yieldSchedulingLock k) (schedulerRunning k) (timerInterval k) (timerOn k) (clk k).
Definition set_currentThread (c : nat) (k : kernel) : kernel :=
  mkKernel (threadList k) (idlethread k) c (preSelectedNextToRun k)
    (preSelectedEarliestSuspendedUntil k) (scheduleCounter k) (timeToTryAgainToSchedule k)
    (yieldSchedulingLock k) (schedulerRunning k) (timerInterval k) (timerOn k) (clk k).
Definition set_preSelected (o : option nat) (e : Z) (k : kernel) : kernel :=
  mkKernel (threadList k) (idlethread k) (currentThread k) o
    e (scheduleCounter k) (timeToTryAgainToSchedule k)
    (yieldSchedulingLock k) (schedulerRunning k) (timerInterval k) (timerOn k) (clk k).
Definition set_scheduleCounter (c : Z) (k : kernel) : kernel :=
  mkKernel (threadList k) (idlethread k) (currentThread k) (preSelectedNextToRun k)
    (preSelectedEarliestSuspendedUntil k) c (timeToTryAgainToSchedule k)
    (yieldSchedulingLock k) (schedulerRunning k) (timerInterval k) (timerOn k) (clk k).
Definition set_timeToTryAgainToSchedule (t : Z) (k : kernel) : kernel :=
  mkKernel (threadList k) (idlethread k) (currentThread k) (preSelectedNextToRun k)
    (preSelectedEarliestSuspendedUntil k) (scheduleCounter k) t
    (yieldSchedulingLock k) (schedulerRunning k) (timerInterval k) (timerOn k) (clk k).
Definition set_yieldSchedulingLock (b : bool) (k : kernel) : kernel :=
  mkKernel (threadList k) (idlethread k) (currentThread k) (preSelectedNextToRun k)
    (preSelectedEarliestSuspendedUntil k) (scheduleCounter k) (timeToTryAgainToSchedule k)
    b (schedulerRunning k) (timerInterval k) (timerOn k) (clk k).
Definition set_schedulerRunning (b : bool) (k : kernel) : kernel :=
  mkKernel (threadList k) (idlethread k) (currentThread k) (preSelectedNextToRun k)
    (preSelectedEarliestSuspendedUntil k) (scheduleCounter k) (timeToTryAgainToSchedule k)
    (yieldSchedulingLock k) b (timerInterval k) (timerOn k) (clk k).
Definition set_timer (i : Z) (on : bool) (k : kernel) : kernel :=
  mkKernel (threadList k) (idlethread k) (currentThread k) (preSelectedNextToRun k)
    (preSelectedEarliestSuspendedUntil k) (scheduleCounter k) (timeToTryAgainToSchedule k)
    (yieldSchedulingLock k) (schedulerRunning k) i on (clk k).
(** The clock was read. *)
Definition tick (k : kernel) : kernel :=
  mkKernel (threadList k) (idlethread k) (currentThread k) (preSelectedNextToRun k)
    (preSelectedEarliestSuspendedUntil k) (scheduleCounter k) (timeToTryAgainToSchedule k)
    (yieldSchedulingLock k) (schedulerRunning k) (timerInterval k) (timerOn k) (S (clk k)).

Definition on_thread (i : nat) (f : thread -> thread) (k : kernel) : kernel :=
  set_threadList (alter f i (threadList k)) k.

(** ** Operations on threads *)

Definition resume (i : nat) (k : kernel) : kernel :=
  on_thread i (fun t => set_suspendedUntil 0 (set_waitingFor None t))
    (set_timeToTryAgainToSchedule 0 k).

Definition setPrioCurrentRunner (newPrio : Z) (k : kernel) : option (Z * kernel) :=
  t ← threadList k !! currentThread k;
  Some (priority t, on_thread (currentThread k) (set_priority newPrio) k).

(** [suspendCallerUntil] up to its [yield()]: the critical section under the
    priority ceiling. *)
Definition suspendCaller_begin (reactivationTime : Z) (signaler : option Z) (k : kernel)
    : option kernel :=
  let caller := currentThread k in
  '(previousPriority, k) ← setPrioCurrentRunner CEILING_PRIORITY k;
  let k := on_thread caller (set_waitingFor signaler) k in
  let k := on_thread caller (set_suspendedUntil reactivationTime) k in
  '(_, k) ← setPrioCurrentRunner previousPriority k;
  Some k.

(** [suspendCallerUntil] after its [yield()]: was the caller resumed? *)
Definition suspendCaller_end (caller : nat) (k : kernel) : option (bool * kernel) :=
  let k := on_thread caller (set_waitingFor None) k in
  t ← threadList k !! caller;
  Some (suspendedUntil t =? 0, k).

Definition setPeriodicBeat (i : nat) (begin per : Z) (k : kernel) : kernel :=
  on_thread i (set_beat begin per) k.

Section kernel.
Variable NOW : nat -> Z.
Variable handle : nat -> list time_event * kernel -> list time_event * kernel.

(** [suspendUntilNextBeat] after the suspension: the next beat. *)
Definition suspendUntilNextBeat_end (i : nat) (k : kernel) : option kernel :=
  t ← threadList k !! i;
  beat ← computeNextBeat (nextBeat t) (period t) (NOW (clk k));
  Some (on_thread i (set_beat beat (period t)) (tick k)).

(** [Timer::updateTriggerToNextTimingEvent] *)
Definition update_trigger (nextSchedulingEventTime nextTimeEventTime : Z) (k : kernel)
    : option kernel :=
  interval ← updateTriggerToNextTimingEvent nextSchedulingEventTime nextTimeEventTime (NOW (clk k));
  Some (set_timer interval (timerOn k) (tick k)).

Definition activate (i : nat) (k : kernel) : kernel :=
  let k := set_yieldSchedulingLock false (set_currentThread i k) in
  set_timer (timerInterval k) true k.

(** [schedule]: the preselected thread, else the best one; the preselection is
    used only once. *)
Definition schedule_select (k : kernel) : option (nat * Z * kernel) :=
  let k := set_scheduleCounter (u64 (scheduleCounter k + 1)) k in
  '(nextThreadToRun, selectedEarliestSuspendedUntil, k) ←
    match preSelectedNextToRun k with
    | Some n => Some (n, preSelectedEarliestSuspendedUntil k, k)
    | None =>
        sel ← findNextToRunFromISR (idlethread k) (threadList k) (NOW (clk k));
        Some (sel.1.1, sel.2, tick k)
    end;
  Some (nextThreadToRun, selectedEarliestSuspendedUntil,
        set_preSelected None (preSelectedEarliestSuspendedUntil k) k).

(** [schedule]: check the stack, note the activation, set the next times. *)
Definition schedule_commit (evs : list time_event) (nextThreadToRun : nat)
    (selectedEarliestSuspendedUntil : Z) (k : kernel) : option (nat * kernel) :=
  t ← threadList k !! nextThreadToRun;
  let '(violation, t) := checkStackViolations t in
  let k := set_threadList (<[nextThreadToRun := t]> (threadList k)) k in
  let nextThreadToRun := if violation then idlethread k else nextThreadToRun in
  let k := on_thread nextThreadToRun (set_lastActivation (scheduleCounter k)) k in
  let nextTimeEventTime := getNextTriggerTime evs in
  slice ← i64 (TIME_SLICE_FOR_SAME_PRIORITY + NOW (clk k));
  let k := tick k in
  let nextSchedulingEventTime := rmin selectedEarliestSuspendedUntil slice in
  let k := set_timeToTryAgainToSchedule nextSchedulingEventTime k in
  k ← update_trigger nextSchedulingEventTime nextTimeEventTime k;
  Some (nextThreadToRun, k).

Definition schedule (evs : list time_event) (k : kernel) : option (nat * kernel) :=
  '(nextThreadToRun, selectedEarliestSuspendedUntil, k) ← schedule_select k;
  schedule_commit evs nextThreadToRun selectedEarliestSuspendedUntil k.

(** The timer interrupt, and the end of [yield]. *)
Definition schedulerWrapper (ctx : Z) (s : list time_event * kernel)
    : option (list time_event * kernel) :=
  let k := s.2 in
  let active_trd := currentThread k in
  let k := on_thread active_trd (set_context ctx) k in
  '(_, (evs, k)) ← propagate handle (NOW (clk k)) (s.1, tick k);
  let nextSchedulingEventTime := timeToTryAgainToSchedule k in
  if NOW (clk k) <? nextSchedulingEventTime then
    let k := tick k in
    k ← update_trigger nextSchedulingEventTime (getNextTriggerTime evs) k;
    let k := set_timer (timerInterval k) true k in
    Some (evs, activate active_trd k)
  else
    '(active_trd, k) ← schedule evs (tick k);
    Some (evs, activate active_trd k).

Definition idle (s : list time_event * kernel) : option (list time_event * kernel) :=
  let k := s.2 in
  let k := on_thread (idlethread k) (set_suspendedUntil 0) k in
  let k := set_currentThread (idlethread k) k in
  let k := set_schedulerRunning true k in
  k ← update_trigger (timeToTryAgainToSchedule k) (getNextTriggerTime s.1) k;
  Some (s.1, activate (idlethread k) k).

(** [yield] of the current thread, whose registers are [ctx].  [isr1] is what
    interrupts do while the next thread is searched, [isr2] what they do between
    the tests and the stop of the timer. *)
Definition yield (isr1 isr2 : list time_event * kernel -> list time_event * kernel) (ctx : Z)
    (s : list time_event * kernel) : option (list time_event * kernel) :=
  let '(evs, k) := s in
  let k := set_timeToTryAgainToSchedule 0 k in
  let startScheduleCounter := scheduleCounter k in
  sel ← findNextToRun (idlethread k) (threadList k) (NOW (clk k));
  let preselection := sel.1.1 in
  let '(evs, k) := isr1 (evs, tick k) in
  let currentScheduleCounter := scheduleCounter k in
  if negb (startScheduleCounter =? currentScheduleCounter) then Some (evs, k)
  else if decide (preselection = currentThread k) then Some (evs, k)
  else
    let k := set_yieldSchedulingLock true k in
    let '(evs, k) := isr2 (evs, k) in
    let k := set_timer (timerInterval k) false k in
    let k := if startScheduleCounter =? scheduleCounter k
             then set_preSelected (Some preselection) sel.2 k else k in
    schedulerWrapper ctx (evs, k).

End kernel.

(** ** Selection picks the best ready thread *)

Definition ready (timeNow : Z) (t : thread) : Prop := suspendedUntil t < timeNow.

(** [u] does not take precedence over [t]. *)
Definition not_before (t u : thread) : Prop :=
  priority u < priority t \/ (priority u = priority t /\ lastActivation t <= lastActivation u).

Record selects (idlethread : nat) (threads : list thread) (timeNow : Z) (sel : selection) : Prop := {
  sel_in : threads !! sel.1.1 = Some sel.1.2;
  sel_ready : sel.1.1 = idlethread \/ ready timeNow sel.1.2;
  sel_best : forall j u, threads !! j = Some u -> ready timeNow u -> not_before sel.1.2 u;
  sel_idle : forall u, threads !! idlethread = Some u -> not_before sel.1.2 u;
  sel_wakeup : forall j u, threads !! j = Some u -> ~ ready timeNow u ->
    priority sel.1.2 <= priority u -> sel.2 <= suspendedUntil u;
  sel_earliest : sel.2 = END_OF_TIME \/
    exists j u, threads !! j = Some u /\ ~ ready timeNow u /\ suspendedUntil u = sel.2
}.

Lemma not_before_trans t u v : not_before t u -> not_before u v -> not_before t v.
Proof. unfold not_before. lia. Qed.
Lemma not_before_refl t : not_before t t.
Proof. unfold not_before. lia. Qed.

(** The invariant of the loop after the prefix [l] of the list. *)
Record loop_inv (timeNow : Z) (idle : nat * thread) (l : list (nat * thread)) (sel : selection)
    : Prop := {
  li_in : sel.1 = idle \/ (sel.1 ∈ l /\ ready timeNow sel.1.2);
  li_idle : not_before sel.1.2 idle.2;
  li_best : forall x, x ∈ l -> ready timeNow x.2 -> not_before sel.1.2 x.2;
  li_wakeup : forall x, x ∈ l -> ~ ready timeNow x.2 ->
    priority sel.1.2 <= priority x.2 -> sel.2 <= suspendedUntil x.2;
  li_earliest : sel.2 = END_OF_TIME \/
    exists x, x ∈ l /\ ~ ready timeNow x.2 /\ suspendedUntil x.2 = sel.2
}.

(** One iteration: a thread that becomes the selected one takes precedence over
    the old selection. *)
Lemma find_body_cases timeNow acc x :
  let acc' := findNextToRun_body timeNow acc x in
  (ready timeNow x.2 /\ acc'.2 = acc.2 /\
     (acc'.1 = x /\ not_before x.2 acc.1.2 \/ acc'.1 = acc.1 /\ not_before acc.1.2 x.2)) \/
  (~ ready timeNow x.2 /\ acc'.1 = acc.1 /\
     (priority acc.1.2 <= priority x.2 /\ acc'.2 = Z.min acc.2 (suspendedUntil x.2) \/
      priority x.2 < priority acc.1.2 /\ acc'.2 = acc.2)).
Proof.
  destruct acc as [a e]. unfold findNextToRun_body, ready, not_before, earlier.
  destruct (Z.ltb_spec (suspendedUntil x.2) timeNow); cbn zeta.
  - destruct (Z.ltb_spec (priority a.2) (priority x.2)); cbn [fst snd]; [left; split_and!; auto; left; lia|].
    destruct (Z.eqb_spec (priority x.2) (priority a.2)); cbn [fst snd].
    + destruct (Z.ltb_spec (lastActivation x.2) (lastActivation a.2)); cbn [fst snd];
        left; (split_and!; [lia|done|]); [left|right]; (split; [done|lia]).
    + left. split_and!; [lia|done|]. right. split; [done|lia].
  - destruct (Z.leb_spec (priority a.2) (priority x.2)); cbn [fst snd];
      right; (split_and!; [lia|done|]); [left|right]; (split; [lia|]);
      destruct (Z.ltb_spec e (suspendedUntil x.2)); lia.
Qed.

Lemma find_loop_inv timeNow idle l :
  loop_inv timeNow idle l (foldl (findNextToRun_body timeNow) (idle, END_OF_TIME) l).
Proof.
  induction l as [|x l [IHin IHidle IHbest IHwake IHearl]] using rev_ind.
  { split; cbn; auto using not_before_refl; by intros ? ?%elem_of_nil. }
  rewrite foldl_snoc.
  match goal with |- context [findNextToRun_body _ ?acc x] => set (acc0 := acc) in * end.
  pose proof (find_body_cases timeNow acc0 x) as Hc. cbv zeta in Hc.
  set (acc1 := findNextToRun_body timeNow acc0 x) in *.
  assert (forall y, y ∈ l ++ [x] <-> y ∈ l \/ y = x) as Hel.
  { intros y. by rewrite elem_of_app, list_elem_of_singleton. }
  assert (acc0.1 = idle \/ (acc0.1 ∈ l \/ acc0.1 = x) /\ ready timeNow acc0.1.2) as Hin'.
  { destruct IHin as [?|[? ?]]; auto. }
  assert (acc0.2 = END_OF_TIME \/ exists y, (y ∈ l \/ y = x) /\ ~ ready timeNow y.2 /\
    suspendedUntil y.2 = acc0.2) as Hearl'.
  { destruct IHearl as [?|(y & ? & ? & ?)]; [by left|right; exists y; auto]. }
  destruct Hc as [(Hr & He & [[H1 Hb]|[H1 Hb]])|(Hr & H1 & [[Hp He]|[Hp He]])];
    (split; rewrite ?H1, ?He; try setoid_rewrite Hel); try done.
  - right. auto.
  - eauto using not_before_trans.
  - intros y [Hy| ->] Hry; eauto using not_before_trans, not_before_refl.
  - intros y [Hy| ->] Hry Hpr; [|done]. apply IHwake; [done..|].
    unfold not_before in Hb. lia.
  - intros y [Hy| ->] Hry; eauto.
  - intros y [Hy| ->] Hry Hpr; [|done]. by apply IHwake.
  - intros y [Hy| ->] Hry; [eauto|done].
  - intros y [Hy| ->] Hry Hpr; [|lia]. specialize (IHwake y Hy Hry Hpr). lia.
  - destruct (Z.min_spec acc0.2 (suspendedUntil x.2)) as [[_ ->]|[_ ->]]; [done|].
    right. exists x. auto.
  - intros y [Hy| ->] Hry; [eauto|done].
  - intros y [Hy| ->] Hry Hpr; [|lia]. by apply IHwake.
Qed.

Lemma elem_of_imap_pair {A} (l : list A) x : x ∈ imap pair l <-> l !! x.1 = Some x.2.
Proof.
  destruct x as [i a]. rewrite elem_of_lookup_imap. cbn. split.
  - intros (j & y & [= -> ->] & Hy). done.
  - intros H. eauto.
Qed.

Lemma findNextToRun_selects idlethread threads timeNow t :
  threads !! idlethread = Some t ->
  exists sel, findNextToRun idlethread threads timeNow = Some sel /\
    selects idlethread threads timeNow sel.
Proof.
  intros Hi. unfold findNextToRun. rewrite Hi. cbn [mbind option_bind].
  eexists. split; [done|].
  destruct (find_loop_inv timeNow (idlethread, t) (imap pair threads)) as [Hin Hid Hb Hw He].
  match goal with |- selects _ _ _ ?x => set (sel := x) in * end.
  setoid_rewrite elem_of_imap_pair in Hin. setoid_rewrite elem_of_imap_pair in Hb.
  setoid_rewrite elem_of_imap_pair in Hw. setoid_rewrite elem_of_imap_pair in He.
  split.
  - destruct Hin as [->|[? _]]; done.
  - destruct Hin as [->|[_ ?]]; auto.
  - intros j u Hu. by apply (Hb (j, u)).
  - intros u Hu. rewrite Hi in Hu. by injection Hu as <-.
  - intros j u Hu. by apply (Hw (j, u)).
  - destruct He as [?|([j u] & ? & ? & ?)]; [by left|]. right. by exists j, u.
Qed.

(** ** Selection of a waiting thread *)

Record waiter_inv (signaler : option Z) (idle : nat * thread) (l : list (nat * thread))
    (w : nat * thread) : Prop := {
  wi_in : w = idle \/ (w ∈ l /\ waitingFor w.2 = signaler);
  wi_idle : not_before w.2 idle.2;
  wi_best : forall x, x ∈ l -> waitingFor x.2 = signaler -> not_before w.2 x.2
}.

Lemma waiter_body_cases signaler w x :
  let w' := findNextWaitingFor_body signaler w x in
  (waitingFor x.2 = signaler /\
     (w' = x /\ not_before x.2 w.2 \/ w' = w /\ not_before w.2 x.2)) \/
  (waitingFor x.2 <> signaler /\ w' = w).
Proof.
  unfold findNextWaitingFor_body, not_before.
  destruct (decide (waitingFor x.2 = signaler)); [left|by right]. split; [done|].
  destruct (Z.ltb_spec (priority w.2) (priority x.2)); [left; split; [done|lia]|].
  destruct (Z.eqb_spec (priority x.2) (priority w.2)); [|right; split; [done|lia]].
  destruct (Z.ltb_spec (lastActivation x.2) (lastActivation w.2));
    [left|right]; (split; [done|lia]).
Qed.

Lemma waiter_loop_inv signaler idle l :
  waiter_inv signaler idle l (foldl (findNextWaitingFor_body signaler) idle l).
Proof.
  induction l as [|x l [IHin IHidle IHbest]] using rev_ind.
  { split; cbn; auto using not_before_refl. by intros ? ?%elem_of_nil. }
  rewrite foldl_snoc.
  match goal with |- context [findNextWaitingFor_body _ ?acc x] => set (w := acc) in * end.
  pose proof (waiter_body_cases signaler w x) as Hc. cbv zeta in Hc.
  set (w' := findNextWaitingFor_body signaler w x) in *.
  assert (forall y, y ∈ l ++ [x] <-> y ∈ l \/ y = x) as Hel.
  { intros y. by rewrite elem_of_app, list_elem_of_singleton. }
  assert (w = idle \/ (w ∈ l ++ [x] /\ waitingFor w.2 = signaler)) as Hin'.
  { rewrite Hel. destruct IHin as [?|[? ?]]; auto. }
  destruct Hc as [(Hs & [[-> Hb]|[-> Hb]])|(Hs & ->)]; split; try done.
  - right. rewrite Hel. auto.
  - eauto using not_before_trans.
  - intros y Hy Hys. apply Hel in Hy as [Hy| ->]; eauto using not_before_trans, not_before_refl.
  - intros y Hy Hys. apply Hel in Hy as [Hy| ->]; eauto.
  - intros y Hy Hys. apply Hel in Hy as [Hy| ->]; [eauto|done].
Qed.

(** The selected waiter waits, and no waiter takes precedence over it; if none
    is selected, no waiter has a higher priority than the idle thread. *)
Lemma findNextWaitingFor_spec idlethread threads signaler t0 :
  threads !! idlethread = Some t0 ->
  exists r, findNextWaitingFor idlethread threads signaler = Some r /\
    match r with
    | Some w => w <> idlethread /\ exists t, threads !! w = Some t /\ waitingFor t = signaler /\
        forall j u, threads !! j = Some u -> waitingFor u = signaler -> not_before t u
    | None => forall j u, threads !! j = Some u -> waitingFor u = signaler -> not_before t0 u
    end.
Proof.
  intros Hi. unfold findNextWaitingFor. rewrite Hi. cbn [mbind option_bind].
  eexists. split; [done|].
  destruct (waiter_loop_inv signaler (idlethread, t0) (imap pair threads)) as [Hin Hid Hb].
  set (w := foldl _ _ _) in *. clearbody w.
  rewrite elem_of_imap_pair in Hin. setoid_rewrite elem_of_imap_pair in Hb.
  destruct (decide (w.1 = idlethread)) as [He|He].
  - assert (w.2 = t0) as <- by (destruct Hin as [->|[Hw _]]; [done|congruence]).
    intros j u Hu. by apply (Hb (j, u)).
  - destruct Hin as [Hw|[Hw Hs]]; [by rewrite Hw in He|]. split; [done|]. exists w.2.
    split_and!; [done|done|]. intros j u Hu. by apply (Hb (j, u)).
Qed.

(** ** Round robin among the threads of the highest priority *)

#[global] Instance ready_dec timeNow t : Decision (ready timeNow t).
Proof. unfold ready. apply _. Defined.

Lemma getNextTriggerTime_le evs : getNextTriggerTime evs <= END_OF_TIME.
Proof.
  unfold getNextTriggerTime. induction evs as [|e evs IH] using rev_ind; [done|].
  rewrite foldl_snoc. destruct (Z.ltb_spec (eventAt e) (foldl
    (fun m e => if eventAt e <? m then eventAt e else m) END_OF_TIME evs)); lia.
Qed.

Section round_robin.
Variable NOW : nat -> Z.
Hypothesis NOW_range : forall n, 0 <= NOW n /\ NOW n + TIME_SLICE_FOR_SAME_PRIORITY <= END_OF_TIME.

(** No thread changes between ready and suspended while the clock runs, no
    stack is violated and the idle thread is ready. *)
Record steady (k : kernel) : Prop := {
  st_idle : exists t, threadList k !! idlethread k = Some t /\ forall n, ready (NOW n) t;
  st_threads : forall j t, threadList k !! j = Some t ->
    (forall n, ready (NOW n) t) \/ (forall n, ~ ready (NOW n) t);
  st_stack : forall j t, threadList k !! j = Some t -> (checkStackViolations t).1 = false;
  st_last : forall j t, threadList k !! j = Some t -> 0 <= lastActivation t <= scheduleCounter k;
  st_presel : preSelectedNextToRun k = None
}.

Lemma update_trigger_ok sched evs k :
  sched <= END_OF_TIME ->
  exists interval, update_trigger NOW sched (getNextTriggerTime evs) k =
    Some (set_timer interval (timerOn k) (tick k)).
Proof.
  intros Hs. unfold update_trigger.
  destruct (trigger_bounds sched (getNextTriggerTime evs) (NOW (clk k))) as (i & -> & _).
  - apply NOW_range.
  - pose proof (NOW_range (clk k)).
    unfold TIME_SLICE_FOR_SAME_PRIORITY, MIN_SYS_TICK_SPACING, MILLISECONDS, MICROSECONDS,
      NANOSECONDS in *. lia.
  - done.
  - apply getNextTriggerTime_le.
  - by exists i.
Qed.

Lemma check_ok t : (checkStackViolations t).1 = false -> checkStackViolations t = (false, t).
Proof. unfold checkStackViolations. repeat case_match; done. Qed.

(** A thread with an intact stack is activated; a thread with a violated stack
    is switched off and the idle thread runs instead. *)
Lemma schedule_commit_ok evs n e k t :
  threadList k !! n = Some t ->
  let violation := (checkStackViolations t).1 in
  let l := <[n := (checkStackViolations t).2]> (threadList k) in
  let i := if violation then idlethread k else n in
  exists k', schedule_commit NOW evs n e k = Some (i, k') /\
    threadList k' = alter (set_lastActivation (scheduleCounter k)) i l /\
    idlethread k' = idlethread k /\ scheduleCounter k' = scheduleCounter k /\
    preSelectedNextToRun k' = preSelectedNextToRun k /\
    timeToTryAgainToSchedule k' = Z.min e (TIME_SLICE_FOR_SAME_PRIORITY + NOW (clk k)).
Proof.
  intros Ht. cbv zeta. unfold schedule_commit. rewrite Ht. cbn [mbind option_bind].
  destruct (checkStackViolations t) as [v t'] eqn:Hchk. cbn [fst snd].
  cbn [idlethread set_threadList]. set (i := if v then idlethread k else n).
  unfold on_thread. cbn [clk set_threadList tick].
  pose proof (NOW_range (clk k)) as Hr. unfold END_OF_TIME in Hr.
  rewrite i64_small
    by (unfold in_i64, TIME_SLICE_FOR_SAME_PRIORITY, MILLISECONDS, MICROSECONDS, NANOSECONDS in *; lia).
  cbn [mbind option_bind].
  edestruct update_trigger_ok as [interval ->]; [|].
  { rewrite rmin_le. etransitivity; [apply Z.le_min_r|]. unfold END_OF_TIME. lia. }
  cbn [mbind option_bind]. eexists. split; [done|]. split_and!; try done.
  cbn. apply rmin_le.
Qed.

(** What [schedule] does without a preselection. *)
Lemma schedule_steady evs k :
  steady k -> scheduleCounter k + 1 < 18446744073709551616 ->
  exists i t k', schedule NOW evs k = Some (i, k') /\
    (exists e, selects (idlethread k) (threadList k) (NOW (clk k)) ((i, t), e)) /\
    threadList k' = <[i := set_lastActivation (scheduleCounter k + 1) t]> (threadList k) /\
    idlethread k' = idlethread k /\ scheduleCounter k' = scheduleCounter k + 1 /\
    preSelectedNextToRun k' = None.
Proof.
  intros [Hidle Hthr Hstack Hlast Hpre] Hc.
  destruct Hidle as (t0 & Ht0 & _).
  assert (0 <= scheduleCounter k) by (specialize (Hlast _ _ Ht0); lia).
  destruct (findNextToRun_selects (idlethread k) (threadList k) (NOW (clk k)) t0 Ht0)
    as ([[i t] e] & Hfind & Hsel).
  pose proof (sel_in _ _ _ _ Hsel) as Hin. cbn [fst snd] in Hin.
  exists i, t. unfold schedule, schedule_select.
  cbn [preSelectedNextToRun idlethread threadList clk set_scheduleCounter].
  rewrite Hpre. change (@findNextToRunFromISR) with (@findNextToRun).
  rewrite Hfind. cbn [mbind option_bind fst snd].
  match goal with |- context [schedule_commit NOW evs i e ?x] => set (k1 := x) end.
  destruct (schedule_commit_ok evs i e k1 t Hin) as (k' & Heq & Hl & Hid & Hcnt & Hp & _).
  rewrite (check_ok t (Hstack _ _ Hin)) in Heq. cbn [fst snd] in Heq.
  rewrite (check_ok t (Hstack _ _ Hin)) in Hl. cbn [fst snd] in Hl.
  exists k'. split; [done|]. split_and!; [by exists e| |by rewrite Hid| |by rewrite Hp].
  - rewrite Hl. unfold k1. cbn [threadList set_preSelected tick set_scheduleCounter scheduleCounter].
    rewrite list_insert_id by done. apply list_eq. intros j.
    destruct (decide (i = j)) as [->|].
    + rewrite list_lookup_alter_eq, list_lookup_insert_eq, Hin by (by eapply lookup_lt_Some).
      cbn. by rewrite u64_small by zlia.
    + by rewrite list_lookup_alter_ne, list_lookup_insert_ne.
  - rewrite Hcnt. cbn. by rewrite u64_small by zlia.
Qed.

(** [n] consecutive runs of the scheduler, with the threads they choose. *)
Fixpoint schedule_n (evs : list time_event) (n : nat) (k : kernel) : option (list nat * kernel) :=
  match n with
  | O => Some ([], k)
  | S n => '(i, k) ← schedule NOW evs k; '(l, k) ← schedule_n evs n k; Some (i :: l, k)
  end.

(** The ready threads of the priority of [t] that were not activated after [t]. *)
Definition peers (l : list thread) (t : thread) : list thread :=
  filter (fun u => ready (NOW 0) u /\ priority u = priority t /\
                   lastActivation u <= lastActivation t) l.

Definition highest (k : kernel) (t : thread) : Prop :=
  (forall n, ready (NOW n) t) /\
  forall j u, threadList k !! j = Some u -> ready (NOW 0) u -> priority u <= priority t.

Lemma filter_insert_length {A} (P : A -> Prop) `{forall x, Decision (P x)} (l : list A) i x y :
  l !! i = Some x -> P x -> ~ P y -> length (filter P l) = S (length (filter P (<[i := y]> l))).
Proof.
  intros Hx HP HnP. rewrite insert_take_drop by (by eapply lookup_lt_Some).
  rewrite <- (take_drop_middle l i x Hx) at 1.
  rewrite !filter_app, !filter_cons, decide_True, decide_False by done.
  rewrite !length_app. cbn. lia.
Qed.

Lemma activated_back (l : list thread) i u c :
  l !! i = Some u ->
  forall m v, <[i := set_lastActivation c u]> l !! m = Some v ->
    exists w, l !! m = Some w /\ suspendedUntil v = suspendedUntil w /\
      priority v = priority w /\ (checkStackViolations v).1 = (checkStackViolations w).1 /\
      (lastActivation v = lastActivation w \/ lastActivation v = c).
Proof.
  intros Hu m v. destruct (decide (i = m)) as [->|Hne].
  - rewrite list_lookup_insert_eq by (by eapply lookup_lt_Some). intros [= <-].
    exists u. split_and!; [done..| |by right]. unfold checkStackViolations. cbn.
    by repeat case_match.
  - rewrite list_lookup_insert_ne by done. intros Hv. exists v. split_and!; [done..|by left].
Qed.

(** A run of the scheduler keeps the steady state, and does not move [t] back. *)
Lemma schedule_keeps evs k j t :
  steady k -> threadList k !! j = Some t -> highest k t ->
  scheduleCounter k + 1 < 18446744073709551616 ->
  exists i k', schedule NOW evs k = Some (i, k') /\ steady k' /\
    scheduleCounter k' = scheduleCounter k + 1 /\
    (exists u, threadList k !! i = Some u /\ priority u = priority t) /\
    (forall m v, threadList k' !! m = Some v ->
       exists w, threadList k !! m = Some w /\ priority v = priority w) /\
    (exists t', threadList k' !! j = Some t' /\ highest k' t' /\ priority t' = priority t /\
       (i <> j -> t' = t /\ length (peers (threadList k) t) = S (length (peers (threadList k') t)))).
Proof.
  intros Hst Ht [Htr Htop] Hc.
  destruct (schedule_steady evs k Hst Hc) as (i & u & k' & Hs & (e & Hsel) & Hl & Hid & Hcnt & Hpre).
  pose proof (sel_in _ _ _ _ Hsel) as Hu. cbn [fst snd] in Hu.
  assert (forall n, ready (NOW n) u) as Hur.
  { destruct (sel_ready _ _ _ _ Hsel) as [Hi|Hr]; cbn [fst snd] in *.
    - subst i. destruct (st_idle _ Hst) as (u' & Hu' & Hr). congruence.
    - destruct (st_threads _ Hst i u Hu) as [?|Hn]; [done|]. by destruct (Hn (clk k)). }
  assert (not_before u t) as Hnb.
  { apply (sel_best _ _ _ _ Hsel j t Ht). apply Htr. }
  assert (priority u <= priority t) as Hle by (apply (Htop i u Hu), Hur).
  assert (priority u = priority t /\ lastActivation u <= lastActivation t) as [Hp Hla]
    by (unfold not_before in Hnb; lia).
  set (u' := set_lastActivation (scheduleCounter k + 1) u) in *.
  pose proof (activated_back _ i u (scheduleCounter k + 1) Hu) as Hback. fold u' in Hback.
  rewrite <- Hl in Hback.
  exists i, k'. split_and!; [done| |done|by exists u| |].
  - split; rewrite ?Hid, ?Hcnt.
    + destruct (st_idle _ Hst) as (t0 & Ht0 & Hr0). rewrite Hl.
      destruct (decide (i = idlethread k)) as [->|].
      * rewrite list_lookup_insert_eq by (by eapply lookup_lt_Some). eexists. split; [done|].
        intros n. apply Hur.
      * rewrite list_lookup_insert_ne by done. by exists t0.
    + intros m v Hv. destruct (Hback m v Hv) as (w & Hw & Hsu & _).
      unfold ready. rewrite Hsu. by apply (st_threads _ Hst m).
    + intros m v Hv. destruct (Hback m v Hv) as (w & Hw & _ & _ & -> & _). by apply (st_stack _ Hst m).
    + intros m v Hv. destruct (Hback m v Hv) as (w & Hw & _ & _ & _ & Hla').
      pose proof (st_last _ Hst m w Hw). lia.
    + done.
  - intros m v Hv. destruct (Hback m v Hv) as (w & Hw & _ & Hpv & _). by exists w.
  - assert (forall j0 u0, threadList k' !! j0 = Some u0 -> ready (NOW 0) u0 ->
      priority u0 <= priority t) as Htop'.
    { intros m v Hv Hr. destruct (Hback m v Hv) as (w & Hw & Hsu & -> & _).
      apply (Htop m w Hw). unfold ready in *. by rewrite <- Hsu. }
    rewrite Hl. destruct (decide (i = j)) as [->|Hne].
    + rewrite list_lookup_insert_eq by (by eapply lookup_lt_Some). exists u'.
      split_and!; [done| |done|done]. split; [apply Hur|].
      intros m v Hv Hr. specialize (Htop' m v Hv Hr). cbn. lia.
    + rewrite list_lookup_insert_ne by done. exists t. split_and!; [done| |done|].
      * split; [done|]. intros m v Hv Hr. exact (Htop' m v Hv Hr).
      * intros _. split; [done|]. apply (filter_insert_length _ _ _ u); [done| |].
        -- split_and!; [apply Hur|done|done].
        -- intros (_ & _ & Hbad). unfold u' in Hbad. cbn in Hbad.
           pose proof (st_last _ Hst j t Ht). lia.
Qed.

Lemma round_robin_aux evs n : forall k j t,
  steady k -> threadList k !! j = Some t -> highest k t ->
  scheduleCounter k + Z.of_nat n < 18446744073709551616 ->
  exists chosen k', schedule_n evs n k = Some (chosen, k') /\
    (forall i, i ∈ chosen -> exists u, threadList k !! i = Some u /\ priority u = priority t) /\
    ((length (peers (threadList k) t) <= n)%nat -> j ∈ chosen).
Proof.
  induction n as [|n IH]; intros k j t Hst Ht Hh Hc.
  { exists [], k. split_and!; [done|by intros i ?%elem_of_nil|].
    intros Hz. exfalso. destruct Hh as [Hr _].
    assert (t ∈ peers (threadList k) t) as Hin.
    { apply list_elem_of_filter. split; [split_and!; [apply Hr|done|lia]|].
      by eapply list_elem_of_lookup_2. }
    destruct (peers (threadList k) t); [by apply elem_of_nil in Hin|cbn in Hz; lia]. }
  destruct (schedule_keeps evs k j t Hst Ht Hh ltac:(lia))
    as (i & k' & Hs & Hst' & Hcnt & (u & Hu & Hup) & Hpr & (t' & Ht' & Hh' & Hpt & Hne)).
  destruct (IH k' j t' Hst' Ht' Hh' ltac:(lia)) as (chosen & k'' & Hn & Hch & Hj).
  exists (i :: chosen), k''. cbn [schedule_n]. rewrite Hs. cbn [mbind option_bind]. rewrite Hn.
  split_and!; [done| |].
  - intros m [->|Hm]%elem_of_cons; [by exists u|].
    destruct (Hch m Hm) as (v & Hv & Hpv).
    destruct (Hpr m v Hv) as (w & Hw & Hpw). exists w. split; [done|congruence].
  - intros Hlen. destruct (decide (i = j)) as [->|Hij]; [by constructor|].
    destruct (Hne Hij) as [-> Heq]. apply elem_of_cons. right. apply Hj. lia.
Qed.

End round_robin.

(** ** Yielding *)

Section yielding.
Variable NOW : nat -> Z.
Hypothesis NOW_range : forall n, 0 <= NOW n /\ NOW n + TIME_SLICE_FOR_SAME_PRIORITY <= END_OF_TIME.
Variable handle : nat -> list time_event * kernel -> list time_event * kernel.
Hypothesis handle_own : forall i evs w, exists e, (handle i (evs, w)).1 = <[i := e]> evs.
(** The handlers of the due events leave the kernel alone. *)
Hypothesis handle_kernel : forall i s, (handle i s).2 = s.2.

Lemma fire_all_kernel timeNow ids : forall s, (foldl (fire handle timeNow) s ids).2 = s.2.
Proof.
  induction ids as [|i ids IH]; intros s; cbn [foldl]; [done|]. rewrite IH.
  unfold fire. case_match; [by rewrite handle_kernel|done].
Qed.

Lemma propagate_kernel timeNow evs k :
  Forall (event_wf timeNow) evs ->
  exists cnt evs', propagate handle timeNow (evs, k) = Some (cnt, (evs', k)).
Proof.
  intros Hwf. rewrite (propagate_eq handle handle_own timeNow evs k Hwf).
  pose proof (fire_all_kernel timeNow (due_ids timeNow evs (seq 0 (length evs))) (evs, k)) as Hk.
  destruct (foldl _ _ _) as [evs' k']. cbn in Hk. subst k'. by eexists _, _.
Qed.

(** The scheduler call at the end of [yield]. *)
Lemma wrapper_preselected ctx evs k n e t :
  Forall (event_wf (NOW (clk k))) evs ->
  timeToTryAgainToSchedule k = 0 -> preSelectedNextToRun k = Some n ->
  preSelectedEarliestSuspendedUntil k = e ->
  threadList k !! n = Some t -> n <> currentThread k ->
  let i := if (checkStackViolations t).1 then idlethread k else n in
  exists evs' k', schedulerWrapper NOW handle ctx (evs, k) = Some (evs', k') /\
    currentThread k' = i /\ yieldSchedulingLock k' = false /\
    preSelectedNextToRun k' = None /\ scheduleCounter k' = u64 (scheduleCounter k + 1) /\
    timeToTryAgainToSchedule k' = Z.min e (TIME_SLICE_FOR_SAME_PRIORITY + NOW (S (S (clk k)))).
Proof.
  intros Hwf Hretry Hpre He Ht Hne. cbv zeta. unfold schedulerWrapper. cbn [fst snd].
  set (k1 := tick (on_thread (currentThread k) (set_context ctx) k)).
  destruct (propagate_kernel (NOW (clk k)) evs k1 Hwf) as (cnt & evs' & Hprop).
  change (clk (on_thread (currentThread k) (set_context ctx) k)) with (clk k).
  rewrite Hprop. cbn [mbind option_bind].
  change (timeToTryAgainToSchedule k1) with (timeToTryAgainToSchedule k). rewrite Hretry.
  destruct (NOW_range (clk k1)) as [Hn _].
  rewrite (proj2 (Z.ltb_ge _ _)) by done.
  unfold schedule, schedule_select, k1. unfold on_thread at 1 2.
  cbn [preSelectedNextToRun set_scheduleCounter tick set_threadList mbind option_bind
       preSelectedEarliestSuspendedUntil].
  rewrite Hpre. cbn [mbind option_bind preSelectedEarliestSuspendedUntil set_scheduleCounter].
  change (preSelectedEarliestSuspendedUntil (on_thread (currentThread k) (set_context ctx) k))
    with (preSelectedEarliestSuspendedUntil k). rewrite He.
  match goal with |- context [schedule_commit NOW evs' n e ?x] => set (k2 := x) end.
  assert (threadList k2 !! n = Some t) as Ht2.
  { unfold k2. cbn. by rewrite list_lookup_alter_ne by done. }
  destruct (schedule_commit_ok NOW NOW_range evs' n e k2 t Ht2)
    as (k' & -> & _ & _ & Hcnt & Hp & Htry). cbn [mbind option_bind].
  eexists _, _. split; [done|]. split_and!; [done|done|cbn; by rewrite Hp|cbn; by rewrite Hcnt|done].
Qed.

Lemma yield_spec ctx evs k t0 :
  threadList k !! idlethread k = Some t0 ->
  Forall (event_wf (NOW (S (clk k)))) evs ->
  exists sel evs' k', selects (idlethread k) (threadList k) (NOW (clk k)) sel /\
    yield NOW handle id id ctx (evs, k) = Some (evs', k') /\
    (sel.1.1 = currentThread k ->
       currentThread k' = currentThread k /\ scheduleCounter k' = scheduleCounter k) /\
    (sel.1.1 <> currentThread k ->
       currentThread k' = (if (checkStackViolations sel.1.2).1 then idlethread k else sel.1.1) /\
       yieldSchedulingLock k' = false /\ preSelectedNextToRun k' = None /\
       scheduleCounter k' = u64 (scheduleCounter k + 1)).
Proof.
  intros Hi Hwf.
  destruct (findNextToRun_selects (idlethread k) (threadList k) (NOW (clk k)) t0 Hi)
    as ([[n t] e] & Hfind & Hsel).
  exists ((n, t), e). unfold yield.
  cbn [idlethread threadList clk set_timeToTryAgainToSchedule]. rewrite Hfind.
  cbn [mbind option_bind id fst snd]. rewrite Z.eqb_refl. cbn [negb].
  destruct (decide (n = currentThread k)) as [Hn|Hn].
  - rewrite decide_True by done. eexists _, _. split_and!; [done|done|done|done].
  - rewrite decide_False by done. cbn [scheduleCounter set_timer set_yieldSchedulingLock tick
      set_timeToTryAgainToSchedule]. rewrite Z.eqb_refl.
    match goal with |- context [schedulerWrapper _ _ _ (evs, ?x)] => set (k1 := x) end.
    destruct (wrapper_preselected ctx evs k1 n e t) as (evs' & k' & Heq & H1 & H2 & H3 & H4 & _);
      [done|done|done|done|apply (sel_in _ _ _ _ Hsel)|done|].
    exists evs', k'. split_and!; [done|done|done|]. intros _. split_and!; done.
Qed.

End yielding.

(** ** The properties of the scheduler *)

(** C3: [findNextToRun] and its copy for interrupts always select a thread:
    the idle thread or a thread whose suspension is over; no ready thread has a
    higher priority, and among the ready threads of the same priority none was
    activated longer ago.  The reported wake-up time is not later than the end
    of the suspension of any thread that would take over the processor, and it
    is the end of the suspension of some thread, or the end of time. *)
Theorem find_next_to_run_best idlethread threads timeNow t :
  threads !! idlethread = Some t ->
  exists i u earliest,
    findNextToRun idlethread threads timeNow = Some ((i, u), earliest) /\
    findNextToRunFromISR idlethread threads timeNow = Some ((i, u), earliest) /\
    threads !! i = Some u /\
    (i = idlethread \/ suspendedUntil u < timeNow) /\
    (forall j v, threads !! j = Some v -> suspendedUntil v < timeNow ->
       priority v < priority u \/
       (priority v = priority u /\ lastActivation u <= lastActivation v)) /\
    (forall j v, threads !! j = Some v -> timeNow <= suspendedUntil v ->
       priority u <= priority v -> earliest <= suspendedUntil v) /\
    (earliest = END_OF_TIME \/
     exists j v, threads !! j = Some v /\ timeNow <= suspendedUntil v /\
       suspendedUntil v = earliest).
Proof.
  intros Hi. destruct (findNextToRun_selects idlethread threads timeNow t Hi)
    as ([[i u] e] & Hf & [H1 H2 H3 _ H5 H6]); cbn [fst snd] in *.
  exists i, u, e. split_and!; [done|done|done|done|done| |].
  - intros j v Hv Hs. apply (H5 j v Hv). unfold ready. lia.
  - destruct H6 as [?|(j & v & Hv & Hr & <-)]; [by left|right].
    exists j, v. unfold ready in Hr. split_and!; [done|lia|done].
Qed.

Definition thr (prio susp last : Z) : thread :=
  mkThread prio susp None last 0 0 0 1000 5000 EMPTY_MEMORY_MARKER.

Definition four_threads : list thread :=
  [thr 0 0 7; thr 100 0 5; thr 100 0 3; thr 200 900 1].

Lemma find_next_to_run_best_witness :
  exists earliest, findNextToRun 0 four_threads 500 = Some ((2%nat, thr 100 0 3), earliest) /\
    earliest = 900.
Proof.
  destruct (find_next_to_run_best 0 four_threads 500 (thr 0 0 7) eq_refl)
    as (i & u & e & Hf & _).
  exists e. assert (Some (i, u, e) = Some (2%nat, thr 100 0 3, 900)) as Heq.
  { rewrite <- Hf. reflexivity. }
  rewrite Hf, Heq. split; [|congruence]. congruence.
Defined.

(** C6: Round robin: in a steady state, where each thread stays ready or not ready,
    no stack is violated and no thread is preselected, and while the counter of
    activations does not wrap around, a ready thread that no ready thread exceeds in
    priority gets the processor within as many runs of the scheduler as there are
    ready threads of its priority that were not activated after it, and only threads
    of that priority run in the meantime: no thread of the highest priority starves.
    *)
Theorem round_robin NOW evs k j t :
  (forall n, 0 <= NOW n /\ NOW n + TIME_SLICE_FOR_SAME_PRIORITY <= END_OF_TIME) ->
  steady NOW k -> threadList k !! j = Some t -> highest NOW k t ->
  let n := length (peers NOW (threadList k) t) in
  scheduleCounter k + Z.of_nat n < 18446744073709551616 ->
  exists chosen k', schedule_n NOW evs n k = Some (chosen, k') /\ j ∈ chosen /\
    forall i, i ∈ chosen -> exists u, threadList k !! i = Some u /\ priority u = priority t.
Proof.
  intros HN Hst Ht Hh n Hc.
  destruct (round_robin_aux NOW HN evs n k j t Hst Ht Hh Hc) as (chosen & k' & Hn & Hp & Hj).
  exists chosen, k'. split_and!; [done|by apply Hj|done].
Qed.

Definition three_peers : kernel :=
  mkKernel [thr 0 0 4; thr 100 0 6; thr 100 0 5; thr 100 0 8; thr 900 END_OF_TIME 2] 0 3 None
    END_OF_TIME 8 0 false true 0 true 0.

Lemma three_peers_steady : steady (fun n => 1000) three_peers.
Proof.
  split.
  - exists (thr 0 0 4). split; [done|]. intros _. unfold ready, thr. cbn. lia.
  - intros j t Hj. do 5 (destruct j as [|j];
      [injection Hj as <-; unfold ready, thr, END_OF_TIME; cbn; (left; intros _; lia) || (right; intros _; lia)|]).
    done.
  - intros j t Hj. by do 5 (destruct j as [|j]; [by injection Hj as <-|]).
  - intros j t Hj. do 5 (destruct j as [|j]; [injection Hj as <-; cbn; lia|]). done.
  - done.
Qed.

Lemma three_peers_highest : highest (fun n => 1000) three_peers (thr 100 0 8).
Proof.
  split; [intros _; unfold ready, thr; cbn; lia|].
  intros j t Hj. do 5 (destruct j as [|j];
    [injection Hj as <-; unfold ready, thr, END_OF_TIME; cbn; lia|]).
  done.
Qed.

(** Three peers; the one that was activated last is reached in the third run. *)
Lemma round_robin_witness :
  exists chosen k', schedule_n (fun n => 1000) [] 3 three_peers = Some (chosen, k') /\
    3%nat ∈ chosen.
Proof.
  destruct (round_robin (fun n => 1000) [] three_peers 3 (thr 100 0 8)) as (c & k' & H1 & H2 & _).
  - intros _. split; vm_compute; congruence.
  - exact three_peers_steady.
  - reflexivity.
  - exact three_peers_highest.
  - vm_compute. reflexivity.
  - exists c, k'. split; [exact H1 | exact H2].
Defined.

(** C36: [yield] without interference of interrupts gives the processor to the
    best ready thread of the moment: if that is the caller, the caller goes on
    and the scheduler does not run; else the scheduler runs once with the
    preselected thread, which becomes the current one (the idle thread if its
    stack is violated), the preselection is used up and the lock of the timer
    interrupt is released.  If an interrupt ran the scheduler during the search,
    [yield] returns without running it a second time. *)
Theorem yield_runs_best NOW handle ctx evs k t0 :
  (forall n, 0 <= NOW n /\ NOW n + TIME_SLICE_FOR_SAME_PRIORITY <= END_OF_TIME) ->
  (forall i evs w, exists e, (handle i (evs, w)).1 = <[i := e]> evs) ->
  (forall i s, (handle i s).2 = s.2) ->
  threadList k !! idlethread k = Some t0 ->
  Forall (event_wf (NOW (S (clk k)))) evs ->
  (exists sel evs' k', selects (idlethread k) (threadList k) (NOW (clk k)) sel /\
    yield NOW handle id id ctx (evs, k) = Some (evs', k') /\
    (sel.1.1 = currentThread k ->
       currentThread k' = currentThread k /\ scheduleCounter k' = scheduleCounter k) /\
    (sel.1.1 <> currentThread k ->
       currentThread k' = (if (checkStackViolations sel.1.2).1 then idlethread k else sel.1.1) /\
       yieldSchedulingLock k' = false /\ preSelectedNextToRun k' = None /\
       scheduleCounter k' = u64 (scheduleCounter k + 1))) /\
  (forall isr1 isr2,
     let s1 := isr1 (evs, tick (set_timeToTryAgainToSchedule 0 k)) in
     scheduleCounter s1.2 <> scheduleCounter k ->
     yield NOW handle isr1 isr2 ctx (evs, k) = Some s1).
Proof.
  intros HN Hown Hk Hi Hwf. split; [by apply (yield_spec NOW HN handle Hown Hk ctx evs k t0)|].
  intros isr1 isr2 s1 Hc. unfold yield.
  destruct (findNextToRun_selects (idlethread k) (threadList k) (NOW (clk k)) t0 Hi)
    as (sel & Hfind & _).
  cbn [idlethread threadList clk set_timeToTryAgainToSchedule]. rewrite Hfind.
  cbn [mbind option_bind]. unfold s1 in *.
  destruct (isr1 _) as [evs1 k1]. cbn [fst snd] in *.
  by rewrite (proj2 (Z.eqb_neq _ _)) by (symmetry; done).
Qed.

Definition quiet_handle (i : nat) (s : list time_event * kernel) : list time_event * kernel := s.

Lemma quiet_own i evs w : exists e, (quiet_handle i (evs, w)).1 = <[i := e]> evs.
Proof.
  cbn. destruct (evs !! i) as [e|] eqn:He.
  - exists e. symmetry. by apply list_insert_id.
  - exists TimeEvent. symmetry. apply list_insert_ge. by apply lookup_ge_None.
Qed.

(** Thread 3 yields; thread 2 was activated longest ago. *)
Lemma yield_runs_best_witness :
  exists evs' k', yield (fun n => 1000) quiet_handle id id 77 ([], three_peers) = Some (evs', k') /\
    currentThread k' = 2%nat.
Proof.
  destruct (yield_runs_best (fun n => 1000) quiet_handle 77 [] three_peers (thr 0 0 4))
    as [(sel & evs' & k' & Hsel & Hy & _ & Hsw) _].
  - intros _. split; vm_compute; congruence.
  - exact quiet_own.
  - reflexivity.
  - reflexivity.
  - constructor.
  - exists evs', k'. split; [exact Hy|].
    assert ((fun s => currentThread s.2) <$>
      yield (fun n => 1000) quiet_handle id id 77 ([], three_peers) = Some 2%nat) as H2
      by (vm_compute; reflexivity).
    rewrite Hy in H2. injection H2 as H2. exact H2.
Defined.

(** A preselection can be overtaken: thread 1 yields while thread 2 of higher
    priority waits; the search preselects the idle thread's competitor of lower
    priority (thread 3), then the time events are propagated, and the handler of
    a due event resumes thread 2.  The scheduler still takes the preselected
    thread, and moves the next scheduling time, which [resume] had cleared, to
    the end of the time slice: the ready thread of higher priority waits. *)
Definition resume_handle (i : nat) (s : list time_event * kernel) : list time_event * kernel :=
  (s.1, resume 2 s.2).

Definition overtaken : kernel :=
  mkKernel [thr 0 0 4; thr 100 END_OF_TIME 6; thr 900 END_OF_TIME 2; thr 50 0 5] 0 1 None
    END_OF_TIME 8 0 false true 0 true 0.

Lemma stale_preselection :
  (fun s => (currentThread s.2, timeToTryAgainToSchedule s.2,
             priority <$> threadList s.2 !! 2%nat, suspendedUntil <$> threadList s.2 !! 2%nat)) <$>
    yield (fun n => 1000) resume_handle id id 77 ([mkEvent 999 0], overtaken) =
  Some (3%nat, 1000 + TIME_SLICE_FOR_SAME_PRIORITY, Some 900, Some 0).
Proof. vm_compute. reflexivity. Qed.

End Scheduler.
