(* ===== verification/ThreadOps.v ===== *)
(** * Effects of the thread operations

    The operations of [Scheduler] that semaphore, barrier and synchronous fifo
    use change the records of a few threads and nothing else that these clients
    can see.  [threads_to] says so pointwise; its lemmas compose. *)

From S2P Require Import Prelude TimeEvents Scheduler.

#[local] Open Scope Z_scope.

Module ThreadOps.
Import TimeModel Scheduler.

(** Functions on threads, changed at one place. *)
Definition upd {A} (f : nat -> A) (i : nat) (x : A) : nat -> A :=
  fun j => if decide (j = i) then x else f j.

Lemma upd_eq {A} (f : nat -> A) i x : upd f i x i = x.
Proof. unfold upd. by rewrite decide_True. Qed.
Lemma upd_ne {A} (f : nat -> A) i x j : j <> i -> upd f i x j = f j.
Proof. intros. unfold upd. by rewrite decide_False. Qed.

Lemma alter_look {A} (f : A -> A) i (l : list A) j :
  alter f i l !! j = if decide (j = i) then f <$> l !! j else l !! j.
Proof.
  destruct (decide (j = i)) as [->|]; [apply list_lookup_alter_eq|].
  by apply list_lookup_alter_ne.
Qed.

(** [k'] has the threads of [k] with [f i t] in the place of the thread [t] at [i]. *)
Definition threads_to (k k' : kernel) (f : nat -> thread -> thread) : Prop :=
  idlethread k' = idlethread k /\
  schedulerRunning k' = schedulerRunning k /\
  forall j, threadList k' !! j = f j <$> threadList k !! j.

Definition resumed (t : thread) : thread := set_suspendedUntil 0 (set_waitingFor None t).

Lemma setPrio_eq p k t :
  threadList k !! currentThread k = Some t ->
  setPrioCurrentRunner p k = Some (priority t, on_thread (currentThread k) (set_priority p) k).
Proof. intros Ht. unfold setPrioCurrentRunner. by rewrite Ht. Qed.

Lemma threads_to_trans k1 k2 k3 f g h :
  threads_to k1 k2 f -> threads_to k2 k3 g ->
  (forall j t, threadList k1 !! j = Some t -> g j (f j t) = h j t) -> threads_to k1 k3 h.
Proof.
  intros (Hi & Hr & Hf) (Hi' & Hr' & Hg) Hh. split_and!; [congruence|congruence|].
  intros j. rewrite Hg, Hf. destruct (threadList k1 !! j) as [t|] eqn:Hj; [|done].
  cbn. by rewrite Hh.
Qed.

Lemma threads_to_refl k : threads_to k k (fun j t => t).
Proof. split_and!; [done|done|]. intros j. by destruct (_ !! j). Qed.

Lemma threads_to_current i k : threads_to k (set_currentThread i k) (fun j t => t).
Proof. exact (threads_to_refl k). Qed.

Lemma on_thread_to i f k :
  threads_to k (on_thread i f k) (fun j t => if decide (j = i) then f t else t).
Proof.
  split_and!; [done|done|]. intros j. cbn. rewrite alter_look.
  destruct (decide (j = i)); [done|by destruct (_ !! j)].
Qed.

Lemma resume_to i k :
  threads_to k (resume i k) (fun j t => if decide (j = i) then resumed t else t).
Proof. apply (on_thread_to i resumed (set_timeToTryAgainToSchedule 0 k)). Qed.

Lemma set_priority_id p t : set_priority (priority t) (set_priority p t) = t.
Proof. by destruct t. Qed.

(** The caller of [suspendCallerUntil], up to its [yield()]. *)
Definition suspended (reactivationTime : Z) (signaler : option Z) (t : thread) : thread :=
  set_suspendedUntil reactivationTime (set_waitingFor signaler t).

Lemma suspend_begin_to time signaler k t :
  threadList k !! currentThread k = Some t ->
  exists k', suspendCaller_begin time signaler k = Some k' /\
    currentThread k' = currentThread k /\
    threads_to k k' (fun j u =>
      if decide (j = currentThread k)
      then set_priority (priority t) (suspended time signaler t) else u).
Proof.
  intros Ht. unfold suspendCaller_begin. rewrite (setPrio_eq _ _ t Ht). cbn [mbind option_bind].
  rewrite (setPrio_eq _ _ (set_priority CEILING_PRIORITY (suspended time signaler t))).
  2: { cbn. rewrite !list_lookup_alter_eq, Ht. done. }
  cbn [mbind option_bind]. eexists. split; [done|]. split; [done|]. split_and!; [done|done|].
  intros j. cbn. rewrite !alter_look.
  destruct (decide (j = currentThread k)) as [->|]; [rewrite Ht; done|by destruct (_ !! j)].
Qed.

Lemma suspend_end_eq k t :
  threadList k !! currentThread k = Some t ->
  suspendCaller_end (currentThread k) k =
    Some ((suspendedUntil t =? 0)%Z, on_thread (currentThread k) (set_waitingFor None) k).
Proof.
  intros Ht. unfold suspendCaller_end. cbn. by rewrite list_lookup_alter_eq, Ht.
Qed.

Lemma threads_lookup k k' f i t :
  threads_to k k' f -> threadList k !! i = Some t -> threadList k' !! i = Some (f i t).
Proof. intros (_ & _ & Hl) Ht. by rewrite Hl, Ht. Qed.

(** ** The view of a client

    Of a thread only its priority and the time until which it is suspended
    matter to most clients. *)

(** Thread [i] runs; a thread that is suspended for ever cannot. *)
Definition runs (i : nat) (k : kernel) : option kernel :=
  t ← threadList k !! i;
  if suspendedUntil t <? END_OF_TIME then Some (set_currentThread i k) else None.

Definition view (t : thread) : Z * Z := (priority t, suspendedUntil t).
Definition vw (k : kernel) (i : nat) : option (Z * Z) := view <$> threadList k !! i.

Lemma vw_to k k' g f :
  threads_to k k' g -> (forall j t, view (g j t) = f j (view t)) ->
  forall j, vw k' j = f j <$> vw k j.
Proof.
  intros (_ & _ & Hl) Hg j. unfold vw. rewrite Hl. destruct (threadList k !! j); [|done].
  cbn. by rewrite Hg.
Qed.

Lemma setPrio_view p k q u :
  vw k (currentThread k) = Some (q, u) ->
  exists k', setPrioCurrentRunner p k = Some (q, k') /\ currentThread k' = currentThread k /\
    clk k' = clk k /\
    forall j, vw k' j = if decide (j = currentThread k) then Some (p, u) else vw k j.
Proof.
  unfold vw at 1. destruct (threadList k !! currentThread k) as [t|] eqn:Ht; [|done].
  intros [= <- <-]. rewrite (setPrio_eq p k t Ht).
  eexists. split; [done|]. split; [done|]. split; [done|]. intros j.
  unfold vw. cbn. rewrite alter_look.
  destruct (decide (j = currentThread k)) as [->|]; [|done]. by rewrite Ht.
Qed.

Lemma suspend_view time signaler k q u :
  vw k (currentThread k) = Some (q, u) ->
  exists k', suspendCaller_begin time signaler k = Some k' /\ currentThread k' = currentThread k /\
    forall j, vw k' j = if decide (j = currentThread k) then Some (q, time) else vw k j.
Proof.
  unfold vw at 1. destruct (threadList k !! currentThread k) as [t|] eqn:Ht; [|done].
  intros [= <- <-]. destruct (suspend_begin_to time signaler k t Ht) as (k' & -> & Hc & _ & _ & Hl).
  exists k'. split; [done|]. split; [done|]. intros j. unfold vw. rewrite Hl.
  destruct (decide (j = currentThread k)) as [->|]; [by rewrite Ht|].
  by destruct (threadList k !! j).
Qed.

(** The caller has entered the ceiling, [k1]. *)
Lemma ceiling_view k q u :
  vw k (currentThread k) = Some (q, u) ->
  exists k1, setPrioCurrentRunner CEILING_PRIORITY k = Some (q, k1) /\
    currentThread k1 = currentThread k /\
    (forall j, vw k1 j = if decide (j = currentThread k) then Some (CEILING_PRIORITY, u) else vw k j).
Proof.
  intros Hv. destruct (setPrio_view CEILING_PRIORITY k q u Hv) as (k1 & H1 & H2 & _ & H3).
  by exists k1.
Qed.

(** It leaves the ceiling with the time [u']. *)
Lemma restore_view k k1 q u u' p :
  vw k (currentThread k) = Some (q, u) -> currentThread k1 = currentThread k ->
  (forall j, vw k1 j = if decide (j = currentThread k) then Some (p, u') else vw k j) ->
  exists k2, setPrioCurrentRunner q k1 = Some (p, k2) /\
    (forall j, vw k2 j = if decide (j = currentThread k) then Some (q, u') else vw k j).
Proof.
  intros Hv Hc Hl.
  destruct (setPrio_view q k1 p u') as (k2 & -> & _ & _ & Hl2).
  { by rewrite Hl, Hc, decide_True. }
  exists k2. split; [done|]. intros j. rewrite Hl2, Hc. destruct (decide _); [done|].
  rewrite Hl. by rewrite decide_False.
Qed.

Lemma view_same k q u :
  vw k (currentThread k) = Some (q, u) ->
  forall k2, (forall j, vw k2 j = if decide (j = currentThread k) then Some (q, u) else vw k j) ->
  forall j, vw k2 j = vw k j.
Proof. intros Hv k2 Hl j. rewrite Hl. by destruct (decide _) as [->|]. Qed.

Lemma runs_spec i k k' :
  runs i k = Some k' ->
  currentThread k' = i /\ (forall j, vw k' j = vw k j) /\
  exists q u, vw k i = Some (q, u) /\ u < END_OF_TIME.
Proof.
  unfold runs, vw. destruct (threadList k !! i) as [t|]; [|done]. cbn [mbind option_bind].
  destruct (Z.ltb_spec (suspendedUntil t) END_OF_TIME); [|done]. intros [= <-].
  split; [done|]. split; [done|]. by exists (priority t), (suspendedUntil t).
Qed.

(** The rules of [vw] after [runs]. *)
Lemma other_view k k1 k' i p :
  (forall j, vw k1 j = vw k j) ->
  (forall j, vw k' j = if decide (j = i) then p else vw k1 j) ->
  vw k' i = p /\ forall j, j <> i -> vw k' j = vw k j.
Proof.
  intros H1 H2. split; [by rewrite H2, decide_True|].
  intros j Hj. by rewrite H2, decide_False, H1.
Qed.

Lemma runs_ok i k q u :
  vw k i = Some (q, u) -> u < END_OF_TIME ->
  exists k', runs i k = Some k' /\ currentThread k' = i /\ forall j, vw k' j = vw k j.
Proof.
  unfold vw at 1, runs. destruct (threadList k !! i) as [t|]; [|done]. intros [= <- <-] Hu.
  cbn [mbind option_bind]. rewrite (proj2 (Z.ltb_lt _ _)) by done. by eexists.
Qed.

(** A section under the ceiling that resumes the thread of a pointer. *)
Definition notify (thread : option nat) (k : kernel) : option kernel :=
  '(previousPriority, k) ← setPrioCurrentRunner CEILING_PRIORITY k;
  let k := match thread with Some i => resume i k | None => k end in
  '(_, k) ← setPrioCurrentRunner previousPriority k; Some k.

Lemma notify_view o k q u k' :
  vw k (currentThread k) = Some (q, u) -> o <> Some (currentThread k) -> notify o k = Some k' ->
  forall j, vw k' j = if decide (o = Some j) then (fun v => (v.1, 0)) <$> vw k j else vw k j.
Proof.
  intros Hv Ho. unfold notify.
  destruct (setPrio_view CEILING_PRIORITY k q u Hv) as (k1 & -> & Hc1 & _ & Hl1).
  cbn [mbind option_bind].
  set (k2 := match o with Some i => resume i k1 | None => k1 end).
  assert (currentThread k2 = currentThread k) as Hc2 by (subst k2; by destruct o).
  assert (Hl2 : forall j, vw k2 j =
    if decide (o = Some j) then (fun v => (v.1, 0)) <$> vw k1 j else vw k1 j).
  { intros j. subst k2. destruct o as [i|]; [|by rewrite decide_False].
    rewrite (vw_to _ _ _ (fun j v => if decide (j = i) then (v.1, 0) else v) (resume_to i k1)).
    2: { intros j' t. by destruct (decide (j' = i)). }
    destruct (decide (j = i)) as [->|Hne]; [by rewrite decide_True|].
    rewrite decide_False by congruence. by destruct (vw k1 j) as [[]|]. }
  assert (vw k2 (currentThread k2) = Some (CEILING_PRIORITY, u)) as Hv2.
  { rewrite Hl2, Hc2, decide_False, Hl1, decide_True by done. done. }
  destruct (setPrio_view q k2 _ _ Hv2) as (k3 & -> & _ & _ & Hl3). intros [= <-] j.
  rewrite Hl3, Hc2, Hl2, !Hl1. destruct (decide (j = currentThread k)) as [->|]; [|done].
  by rewrite decide_False.
Qed.

Lemma notify_ok o k q u :
  vw k (currentThread k) = Some (q, u) -> o <> Some (currentThread k) ->
  exists k', notify o k = Some k' /\
    forall j, vw k' j = if decide (o = Some j) then (fun v => (v.1, 0)) <$> vw k j else vw k j.
Proof.
  intros Hv Ho. assert (exists k', notify o k = Some k') as [k' Hk'].
  { unfold notify. destruct (ceiling_view k q u Hv) as (k1 & -> & Hc1 & Hl1).
    cbn [mbind option_bind].
    set (k2 := match o with Some i => resume i k1 | None => k1 end).
    assert (exists p v, vw k2 (currentThread k2) = Some (p, v)) as (p & v & Hv2).
    { subst k2. destruct o as [i|].
      - change (currentThread (resume i k1)) with (currentThread k1).
        rewrite (vw_to _ _ _ (fun j v => if decide (j = i) then (v.1, 0) else v) (resume_to i k1)).
        + rewrite Hl1, Hc1, decide_True by done. cbn. by destruct (decide _); eexists _, _.
        + intros j t. by destruct (decide (j = i)).
      - rewrite Hl1, Hc1, decide_True by done. by eexists _, _. }
    destruct (setPrio_view q k2 p v Hv2) as (k3 & -> & _). by eexists. }
  exists k'. split; [done|]. by apply (notify_view o k q u).
Qed.

(** The end of [suspendCallerUntil], and the end of the ceiling around it. *)
Lemma wakeup_view prev k q u :
  vw k (currentThread k) = Some (q, u) ->
  exists b k1 p k2, suspendCaller_end (currentThread k) k = Some (b, k1) /\
    setPrioCurrentRunner prev k1 = Some (p, k2) /\
    forall j, vw k2 j = if decide (j = currentThread k) then Some (prev, u) else vw k j.
Proof.
  unfold vw at 1. destruct (threadList k !! currentThread k) as [t|] eqn:Ht; [|done].
  intros [= <- <-]. rewrite (suspend_end_eq k t Ht).
  set (k1 := on_thread (currentThread k) (set_waitingFor None) k).
  assert (forall j, vw k1 j = vw k j) as Hl1.
  { intros j. unfold k1.
    rewrite (vw_to _ _ _ (fun j v => v) (on_thread_to (currentThread k) (set_waitingFor None) k)).
    - by destruct (vw k j).
    - intros j' t'. by destruct (decide (j' = currentThread k)). }
  destruct (setPrio_view prev k1 (priority t) (suspendedUntil t)) as (k2 & Hk2 & _ & _ & Hl2).
  { rewrite Hl1. unfold vw. cbn. by rewrite Ht. }
  eexists _, k1, _, k2. split; [done|]. split; [exact Hk2|]. intros j. rewrite Hl2, Hl1. done.
Qed.

End ThreadOps.
