(* ===== verification/ThreadStart.v ===== *)
(** * Memory of the threads, their start and the idle thread
    (src/independent/misc-rodos-funcs.cpp, src/bare-metal-generic/thread_on_hw.cpp)

    [xmalloc] hands out the memory of a static buffer while the system starts; the
    constructor of a thread takes its stack from there and paints it, and the
    paint tells later how much of the stack was used.  Addresses are numbers;
    the memory is a function from addresses to words. *)

From S2P Require Import Prelude TimeEvents Scheduler.

#[local] Open Scope Z_scope.

Module ThreadStart.
Import TimeModel Scheduler.

(** ** xmalloc *)

Section Xmalloc.
(** The address and the size of [xmallocBuf], which lies at a multiple of 8, and the
    number of values of [size_t]. *)
Variables (buf XMALLOC_SIZE size_max : Z).

(** [(len+7) & ~0x7u]: the mask has 32 bits. *)
Definition round_up (len : Z) : Z := Z.land ((len + 7) mod size_max) 4294967288.

(** [index] is the static variable; the result is an address or null. *)
Definition xmalloc (schedulerRunning : bool) (index len : Z) : option Z * Z :=
  let len := round_up len in
  if negb (len <=? XMALLOC_SIZE) then (None, index)
  else if schedulerRunning then (None, index)
  else if negb (index + len <? XMALLOC_SIZE) then (None, index)
  else (Some (buf + index), index + len).

(** Calls with these lengths. *)
Fixpoint xmallocs (index : Z) (lens : list Z) : list (option Z) * Z :=
  match lens with
  | [] => ([], index)
  | len :: lens =>
      let '(p, index) := xmalloc false index len in
      let '(l, index) := xmallocs index lens in (p :: l, index)
  end.

Hypothesis Hsize : 4294967296 <= size_max.
Hypothesis Hbuf : buf mod 8 = 0.
Hypothesis Hmalloc : 0 <= XMALLOC_SIZE < 4294967296.

Lemma mask_8 x : 0 <= x < 4294967296 -> Z.land x 4294967288 = 8 * (x / 8).
Proof.
  intros Hx. assert (E : Z.land x 4294967288 = Z.ldiff x 7).
  { apply Z.bits_inj'. intros i Hi. rewrite Z.land_spec, Z.ldiff_spec. destruct (Z.lt_ge_cases i 32) as [Hlt|Hge].
    - f_equal. change 4294967288 with (Z.lxor (Z.ones 32) 7). rewrite Z.lxor_spec, Z.ones_spec_low by lia.
      by destruct (Z.testbit 7 i).
    - rewrite (testbit_above 32 x) by lia. done. }
  rewrite E. change 7 with (Z.ones 3). rewrite Z.ldiff_ones_r by lia. rewrite Z.shiftl_mul_pow2, Z.shiftr_div_pow2 by lia.
  change (2 ^ 3) with 8. lia.
Qed.
Lemma round_up_spec len :
  0 <= len < 4294967289 -> len <= round_up len < len + 8 /\ round_up len mod 8 = 0.
Proof.
  intros Hl. unfold round_up. destruct (Z.lt_ge_cases (len + 7) 4294967296) as [Hlt|Hge]; [|lia].
  rewrite (Z.mod_small (len + 7)), mask_8 by lia. zlia.
Qed.

(** Blocks that lie one after the other from [lo] on and end before [hi]. *)
Fixpoint apart (lo : Z) (ls : list (option Z * Z)) (hi : Z) : Prop :=
  match ls with
  | [] => lo <= hi
  | (None, _) :: ls => apart lo ls hi
  | (Some p, len) :: ls => lo <= p /\ p mod 8 = 0 /\ apart (p + len) ls hi
  end.
Lemma apart_lo lo lo' ls hi : lo' <= lo -> apart lo ls hi -> apart lo' ls hi.
Proof.
  revert lo lo'. induction ls as [|[[p|] len] ls IH]; intros lo lo' Hle; cbn; [lia| |by apply IH].
  intros (H1 & H2 & H3). split; [lia|done].
Qed.

Lemma xmallocs_apart index lens :
  0 <= index < XMALLOC_SIZE -> index mod 8 = 0 -> Forall (fun len => 0 <= len < 4294967289) lens ->
  let '(ps, index') := xmallocs index lens in
  apart (buf + index) (combine ps lens) (buf + index') /\ index <= index' < XMALLOC_SIZE.
Proof.
  intros Hi Hm Hl. revert index Hi Hm. induction Hl as [|len lens Hlen Hl IH]; intros index Hi Hm; cbn [xmallocs combine apart]; [lia|].
  destruct (round_up_spec len Hlen) as [Hr Hr8]. unfold xmalloc.
  assert (Hskip : let '(l, index') := xmallocs index lens in
    apart (buf + index) (combine (None :: l) (len :: lens)) (buf + index') /\ index <= index' < XMALLOC_SIZE).
  { specialize (IH index Hi Hm). by destruct (xmallocs index lens). }
  destruct (Z.leb_spec (round_up len) XMALLOC_SIZE) as [_|]; cbn [negb]; [|by destruct (xmallocs index lens)].
  destruct (Z.ltb_spec (index + round_up len) XMALLOC_SIZE) as [Hlt|]; cbn [negb]; [|by destruct (xmallocs index lens)].
  specialize (IH (index + round_up len) ltac:(lia) ltac:(zlia)). destruct (xmallocs (index + round_up len) lens) as [l index'].
  destruct IH as [H1 H2]. split; [|lia]. cbn [combine apart]. split; [lia|]. split; [zlia|]. eapply apart_lo; [|exact H1]. lia.
Qed.

(** The blocks that [xmalloc] hands out one after the other are aligned, do not
    overlap, and lie in the buffer. *)
Theorem xmalloc_blocks lens :
  0 < XMALLOC_SIZE -> Forall (fun len => 0 <= len < 4294967289) lens ->
  let '(ps, index) := xmallocs 0 lens in
  apart buf (combine ps lens) (buf + index) /\ index < XMALLOC_SIZE.
Proof.
  intros H0 Hl. pose proof (xmallocs_apart 0 lens ltac:(lia) eq_refl Hl) as H. destruct (xmallocs 0 lens).
  rewrite Z.add_0_r in H. destruct H. split; [done|lia].
Qed.

End Xmalloc.

(** ** The stack of a thread *)

(** Words of 32 bits by address. *)
Definition memory : Type := Z -> Z.
Definition poke (m : memory) (a v : Z) : memory := fun b => if b =? a then v else m b.

Record stack_area := mkStack { stackBegin : Z; stack : Z; stackSize : Z }.

(** The constructor of [Thread]: the last aligned word of the block. *)
Definition new_stack (stackBegin stackSize : Z) : stack_area :=
  mkStack stackBegin (8 * ((stackBegin + (stackSize - 4)) / 8)) stackSize.

(** [initializeStack] from [p] down. *)
Fixpoint paint (n : nat) (begin p : Z) (m : memory) : option memory :=
  if p >=? begin then
    match n with O => None | S n => paint n begin (p - 4) (poke m p EMPTY_MEMORY_MARKER) end
  else Some m.
Definition paint_fuel (s : stack_area) : nat := Z.to_nat ((stack s - stackBegin s) / 4 + 1).
Definition initializeStack (s : stack_area) (m : memory) : option memory :=
  paint (paint_fuel s) (stackBegin s) (stack s) m.

(** [getMaxStackUsage]: down to the lowest word, then up over the paint. *)
Fixpoint scan_down (n : nat) (begin p : Z) : option Z :=
  if p >=? begin then match n with O => None | S n => scan_down n begin (p - 4) end else Some p.
Fixpoint scan_up (n : nat) (top p freeStack : Z) (m : memory) : option Z :=
  if (p <=? top) && (m p =? EMPTY_MEMORY_MARKER) then
    match n with O => None | S n => scan_up n top (p + 4) (freeStack + 4) m end
  else Some freeStack.
Definition getMaxStackUsage (s : stack_area) (m : memory) : option Z :=
  p ← scan_down (paint_fuel s) (stackBegin s) (stack s);
  freeStack ← scan_up (paint_fuel s) (stack s) (p + 4) 0 m;
  Some (stackSize s - freeStack).

Definition stack_ok (s : stack_area) : Prop :=
  exists b n, s = new_stack b n /\ b mod 8 = 0 /\ 8 <= n.

Lemma stack_bounds s :
  stack_ok s -> stackBegin s <= stack s /\ stack s + 4 <= stackBegin s + stackSize s /\ (stack s - stackBegin s) mod 8 = 0.
Proof. intros (b & n & -> & Hb & Hn). cbn. zlia. Qed.

Lemma paint_spec n b p m :
  b - 4 <= p -> (p - b) mod 4 = 0 -> Z.of_nat n = (p - b) / 4 + 1 ->
  exists m', paint n b p m = Some m' /\
    forall a, m' a = if (b <=? a) && (a <=? p) && ((a - b) mod 4 =? 0) then EMPTY_MEMORY_MARKER else m a.
Proof.
  revert p m. induction n as [|n IH]; intros p m Hp Hm Hn; cbn [paint]; rewrite Z.geb_leb.
  - destruct (Z.leb_spec b p); [zlia|]. exists m. split; [done|]. intros a.
    destruct (Z.leb_spec b a), (Z.leb_spec a p); cbn; try done; lia.
  - destruct (Z.leb_spec b p) as [Hle|]; [|zlia].
    destruct (IH (p - 4) (poke m p EMPTY_MEMORY_MARKER)) as (m' & -> & Hm'); [zlia|zlia|zlia|].
    exists m'. split; [done|]. intros a. rewrite Hm'. unfold poke.
    destruct (Z.eqb_spec a p) as [->|Hne].
    + destruct (Z.leb_spec b p); [|lia]. destruct (Z.leb_spec p (p - 4)); [lia|]. destruct (Z.leb_spec p p); [|lia].
      cbn. by rewrite Hm.
    + destruct (Z.leb_spec b a); [|done]. destruct (Z.leb_spec a (p - 4)), (Z.leb_spec a p); cbn; try done; try lia.
      destruct (Z.eqb_spec ((a - b) mod 4) 0); [zlia|done].
Qed.

Lemma paint_fuel_ok s : stack_ok s -> Z.of_nat (paint_fuel s) = (stack s - stackBegin s) / 4 + 1.
Proof. intros Hs. destruct (stack_bounds s Hs) as (H1 & _ & _). unfold paint_fuel. zlia. Qed.

(** A word of the stack. *)
Definition in_stack (s : stack_area) (a : Z) : Prop := stackBegin s <= a <= stack s /\ (a - stackBegin s) mod 4 = 0.

(** The paint covers all words of the stack and nothing else; so the check of the
    stack's end is passed at the start. *)
Theorem initializeStack_paints s m :
  stack_ok s -> exists m', initializeStack s m = Some m' /\ m' (stackBegin s) = EMPTY_MEMORY_MARKER /\
    (forall a, in_stack s a -> m' a = EMPTY_MEMORY_MARKER) /\
    (forall a, a < stackBegin s \/ stackBegin s + stackSize s <= a -> m' a = m a).
Proof.
  intros Hs. destruct (stack_bounds s Hs) as (H1 & H2 & H3). pose proof (paint_fuel_ok s Hs) as Hf.
  destruct (paint_spec (paint_fuel s) (stackBegin s) (stack s) m) as (m' & E & Hm'); [lia|zlia|done|].
  exists m'. split; [exact E|]. assert (Hin : forall a, in_stack s a -> m' a = EMPTY_MEMORY_MARKER).
  { intros a [Ha Hm]. rewrite Hm', Hm. destruct (Z.leb_spec (stackBegin s) a); [|lia]. by destruct (Z.leb_spec a (stack s)); [|lia]. }
  split; [apply Hin; split; [lia|by rewrite Z.sub_diag]|]. split; [done|].
  intros a Ha. rewrite Hm'. destruct (Z.leb_spec (stackBegin s) a), (Z.leb_spec a (stack s)); cbn; try done; lia.
Qed.

Lemma scan_down_spec n b p : b - 4 <= p -> (p - b) mod 4 = 0 -> Z.of_nat n = (p - b) / 4 + 1 -> scan_down n b p = Some (b - 4).
Proof.
  revert p. induction n as [|n IH]; intros p Hp Hm Hn; cbn [scan_down]; rewrite Z.geb_leb.
  - destruct (Z.leb_spec b p); [zlia|]. f_equal. zlia.
  - destruct (Z.leb_spec b p); [|zlia]. apply IH; zlia.
Qed.
Lemma scan_up_spec n top p k free m :
  (top - p) mod 4 = 0 -> 0 <= k -> p + 4 * k <= top + 4 -> Z.of_nat n >= (top - p) / 4 + 1 ->
  (forall i, 0 <= i < k -> m (p + 4 * i) = EMPTY_MEMORY_MARKER) ->
  p + 4 * k = top + 4 \/ m (p + 4 * k) <> EMPTY_MEMORY_MARKER ->
  scan_up n top p free m = Some (free + 4 * k).
Proof.
  revert p k free. induction n as [|n IH]; intros p k free Hm Hk Hle Hn Hin Hout; cbn [scan_up].
  - destruct (Z.leb_spec p top); [zlia|]. cbn. f_equal. zlia.
  - destruct (Z.eq_dec k 0) as [->|Hk0].
    + replace (p + 4 * 0) with p in * by lia. destruct (Z.leb_spec p top); cbn; [|f_equal; lia].
      destruct Hout as [|Hne]; [lia|]. destruct (Z.eqb_spec (m p) EMPTY_MEMORY_MARKER); [done|]. f_equal. lia.
    + destruct (Z.leb_spec p top); [|zlia]. pose proof (Hin 0 ltac:(lia)) as H0. replace (p + 4 * 0) with p in H0 by lia.
      rewrite H0, Z.eqb_refl. cbn [andb]. rewrite (IH (p + 4) (k - 1)); [f_equal; lia|zlia|lia|lia|zlia| |].
      * intros i Hi. replace (p + 4 + 4 * i) with (p + 4 * (i + 1)) by lia. apply Hin. lia.
      * replace (p + 4 + 4 * (k - 1)) with (p + 4 * k) by lia. exact Hout.
Qed.

(** The size that is reported is the one from the lowest word that was written to
    the end of the block. *)
Theorem max_usage s m used :
  stack_ok s -> 0 <= used -> stackBegin s + 4 * used <= stack s + 4 ->
  (forall i, 0 <= i < used -> m (stackBegin s + 4 * i) = EMPTY_MEMORY_MARKER) ->
  stackBegin s + 4 * used = stack s + 4 \/ m (stackBegin s + 4 * used) <> EMPTY_MEMORY_MARKER ->
  getMaxStackUsage s m = Some (stackSize s - 4 * used).
Proof.
  intros Hs Hu Hle Hin Hout. destruct (stack_bounds s Hs) as (H1 & H2 & H3). pose proof (paint_fuel_ok s Hs) as Hf.
  unfold getMaxStackUsage. rewrite scan_down_spec by (try done; zlia). cbn [mbind option_bind].
  replace (stackBegin s - 4 + 4) with (stackBegin s) by lia.
  rewrite (scan_up_spec _ _ _ used) by (try done; zlia). done.
Qed.

(** ** The idle thread *)

Definition TIME_WAKEUP_FROM_SLEEP : Z := 3 * MILLISECONDS.

(** A turn of [IdleThread::run] after [yield]: the intervals, in microseconds, that
    the timer gets before and after the sleep, when it sleeps; [now1] and [now2] are
    the times that are read before and after. *)
Definition idle_sleep (timeToTryAgainToSchedule nextTriggerTime now1 now2 : Z) : option (option (Z * Z)) :=
  let reactivationTime := Timer.rmin timeToTryAgainToSchedule nextTriggerTime in
  durationToNextTimingEvent ← i64 (reactivationTime - now1);
  timerInterval ← i64 (durationToNextTimingEvent - TIME_WAKEUP_FROM_SLEEP - Timer.MIN_SYS_TICK_SPACING);
  if (timerInterval >? TIME_WAKEUP_FROM_SLEEP) && (timerInterval >? Timer.MIN_SYS_TICK_SPACING) then
    d ← i64 (reactivationTime - now2);
    let remainingTime := Timer.rmax d Timer.MIN_SYS_TICK_SPACING in
    Some (Some (Z.quot timerInterval 1000, Z.quot remainingTime 1000))
  else Some None.

(** The idle thread sleeps only when there is time to wake up: the timer ends the
    sleep early enough, and the second interval ends at the next event, or after
    the shortest interval when this is later. *)
Theorem idle_wakes_in_time sched evt now1 now2 :
  0 <= now1 <= now2 -> now2 <= END_OF_TIME - TIME_WAKEUP_FROM_SLEEP - Timer.MIN_SYS_TICK_SPACING -> 0 <= sched <= END_OF_TIME -> 0 <= evt <= END_OF_TIME ->
  exists r, idle_sleep sched evt now1 now2 = Some r /\
    match r with
    | None => Z.min sched evt - now1 <= 2 * TIME_WAKEUP_FROM_SLEEP + Timer.MIN_SYS_TICK_SPACING
    | Some (first, second) =>
        0 < first /\ now1 + first * 1000 + TIME_WAKEUP_FROM_SLEEP + Timer.MIN_SYS_TICK_SPACING <= Z.min sched evt /\
        Timer.MIN_SYS_TICK_SPACING <= second * 1000 /\
        now2 + second * 1000 <= Z.max (Z.min sched evt) (now2 + Timer.MIN_SYS_TICK_SPACING)
    end.
Proof.
  intros Hn1 Hn2 Hs He. unfold idle_sleep. rewrite Timer.rmin_le. set (t := Z.min sched evt).
  assert (Ht : 0 <= t <= END_OF_TIME) by lia. clearbody t.
  unfold END_OF_TIME, TIME_WAKEUP_FROM_SLEEP, Timer.MIN_SYS_TICK_SPACING, MILLISECONDS, MICROSECONDS, NANOSECONDS in *.
  rewrite (i64_small (t - now1)) by (unfold in_i64; lia). cbn [mbind option_bind].
  rewrite (i64_small (_ - _ - _)) by (unfold in_i64; lia). cbn [mbind option_bind]. rewrite !Z.gtb_ltb.
  destruct (Z.ltb_spec (3 * (1000 * (1000 * 1))) (t - now1 - 3 * (1000 * (1000 * 1)) - 500 * (1000 * 1))); cbn [andb].
  - destruct (Z.ltb_spec (500 * (1000 * 1)) (t - now1 - 3 * (1000 * (1000 * 1)) - 500 * (1000 * 1))); [|lia].
    rewrite i64_small by (unfold in_i64; lia). cbn [mbind option_bind]. eexists. split; [done|]. cbn beta iota.
    rewrite Timer.rmax_le, !Z.quot_div_nonneg by lia. zlia.
  - eexists. split; [done|]. cbn beta iota. lia.
Qed.

(** ** Examples *)

(** On a machine with 64 bits the size is cut to 32 bits: 16 GB and 8 bytes give 8. *)
Example size_is_cut : xmalloc 4096 2000000 18446744073709551616 false 0 17179869192 = (Some 4096, 8).
Proof. reflexivity. Qed.
(** When there is no memory the stack begins at the null pointer. *)
Example no_memory : xmalloc 4096 100 4294967296 false 64 64 = (None, 64) /\
  new_stack 0 64 = mkStack 0 56 64.
Proof. done. Qed.

End ThreadStart.
