(* ===== verification/Semaphore.v ===== *)
(** * The semaphore

    [Semaphore] of bare-metal-generic/rodos-semaphore.cpp: a mutex that its owner
    may enter again, with priority inheritance, over the threads of
    [Scheduler].  [enter] and [leave] are split at the places where another
    thread can run: before and after the sections under the priority ceiling,
    which no thread switch interrupts, and at the suspension in [enter].  The
    threads that use the semaphore interleave at these places in any order, and
    a waiting thread may at any time be resumed by someone else. *)

From S2P Require Import Prelude TimeEvents Scheduler ThreadOps.

#[local] Open Scope Z_scope.

Module Semaphore.
Import TimeModel Scheduler ThreadOps.

Record sem := mkSem {
  owner : option nat;
  ownerEnterCnt : Z;
  ownerPriority : Z
}.

(** The constructor. *)
Definition Semaphore : sem := mkSem None 0 0.

Inductive enter_result :=
  | Entered
  | Blocked (previousPriority : Z).   (** suspended, the ceiling is still in force *)

Section semaphore.
Variable this : Z.   (** the address of the semaphore *)

Definition occupied_by_other (caller : nat) (s : sem) : bool :=
  match owner s with
  | Some o => if decide (o = caller) then false else true
  | None => false
  end.

(** The end of [enter] with the end of its priority ceiling. *)
Definition enter_take (callerPriority previousPriority : Z) (s : sem) (k : kernel)
    : option (enter_result * sem * kernel) :=
  let caller := currentThread k in
  let s := mkSem (Some caller) (ownerEnterCnt s + 1) callerPriority in
  '(_, k) ← setPrioCurrentRunner previousPriority k;
  Some (Entered, s, k).

(** The waiting loop, up to the next suspension. *)
Definition enter_loop (callerPriority previousPriority : Z) (s : sem) (k : kernel)
    : option (enter_result * sem * kernel) :=
  if occupied_by_other (currentThread k) s then
    k ← suspendCaller_begin END_OF_TIME (Some this) k;
    Some (Blocked previousPriority, s, k)
  else
    let s := mkSem (owner s) 0 (ownerPriority s) in
    enter_take callerPriority previousPriority s k.

(** The section under the priority ceiling, up to the first suspension. *)
Definition enter_locked (callerPriority : Z) (s : sem) (k : kernel)
    : option (enter_result * sem * kernel) :=
  '(previousPriority, k) ← setPrioCurrentRunner CEILING_PRIORITY k;
  match owner s with
  | Some o =>
      if decide (o = currentThread k) then enter_take callerPriority previousPriority s k
      else
        t ← threadList k !! o;
        let k := if priority t <? callerPriority
                 then on_thread o (set_priority callerPriority) k else k in
        enter_loop callerPriority previousPriority s k
  | None => enter_take callerPriority previousPriority s k
  end.

(** A suspended caller continues. *)
Definition enter_wakeup (callerPriority previousPriority : Z) (s : sem) (k : kernel)
    : option (enter_result * sem * kernel) :=
  '(_, k) ← suspendCaller_end (currentThread k) k;
  enter_loop callerPriority previousPriority s k.

Inductive leave_result := Ignored | Nested (s : sem) | Last (s : sem).

(** [leave] up to the priority ceiling. *)
Definition leave_begin (caller : nat) (s : sem) : leave_result :=
  if decide (owner s <> Some caller) then Ignored
  else
    let s := mkSem (owner s) (ownerEnterCnt s - 1) (ownerPriority s) in
    if 0 <? ownerEnterCnt s then Nested s else Last s.

(** The section of [leave] under the priority ceiling. *)
Definition leave_locked (s : sem) (k : kernel) : option (Z * option nat * sem * kernel) :=
  '(previousPriority, k) ← setPrioCurrentRunner CEILING_PRIORITY k;
  let s := mkSem None (ownerEnterCnt s) (ownerPriority s) in
  let currentOwnerPriority := ownerPriority s in
  let s := mkSem (owner s) (ownerEnterCnt s) 0 in
  waiter ← findNextWaitingFor (idlethread k) (threadList k) (Some this);
  let '(s, k) :=
    match waiter with
    | Some w => (mkSem (Some w) (ownerEnterCnt s) (ownerPriority s), resume w k)
    | None => (s, k)
    end in
  '(_, k) ← setPrioCurrentRunner previousPriority k;
  Some (currentOwnerPriority, waiter, s, k).

(** The end of [leave]: the priority is restored; is a [yield()] called? *)
Definition leave_end (currentOwnerPriority : Z) (waiter : option nat) (s : sem) (k : kernel)
    : option (bool * kernel) :=
  '(_, k) ← setPrioCurrentRunner currentOwnerPriority k;
  Some (match waiter with Some _ => ownerPriority s =? 0 | None => false end, k).

End semaphore.

(** ** Threads that use the semaphore *)

(** Where a thread is in the code of the semaphore. *)
Inductive pc :=
  | Out                                          (** in its own code *)
  | Entering (callerPriority : Z)                (** in [enter], before the ceiling *)
  | Waiting (callerPriority previousPriority : Z)
  | Leaving                                      (** in [leave], before the ceiling *)
  | Restoring (currentOwnerPriority : Z) (waiter : option nat).

Record sys := mkSys {
  sm : sem;
  kn : kernel;
  pcs : nat -> pc;
  depth : nat -> nat    (** how often a thread is inside: completed enters less leaves *)
}.

Inductive action := AEnter | ALeave | AContinue | AResumed.

(** The outcome of a section of [enter]. *)
Definition after_enter (i : nat) (callerPriority : Z) (r : enter_result * sem * kernel) (x : sys)
    : sys :=
  match r with
  | (Entered, s, k) => mkSys s k (upd (pcs x) i Out) (upd (depth x) i (S (depth x i)))
  | (Blocked prev, s, k) => mkSys s k (upd (pcs x) i (Waiting callerPriority prev)) (depth x)
  end.

(** One step of thread [i].  The idle thread never uses a semaphore, and only a
    thread that is not suspended for ever can run. *)
Definition step (this : Z) (i : nat) (a : action) (x : sys) : option sys :=
  t ← threadList (kn x) !! i;
  if decide (i = idlethread (kn x)) then None else
  let k := set_currentThread i (kn x) in
  match a, pcs x i with
  | AResumed, Waiting _ _ => Some (mkSys (sm x) (resume i (kn x)) (pcs x) (depth x))
  | AEnter, Out =>
      if suspendedUntil t <? END_OF_TIME then
        if negb (schedulerRunning k) then Some (mkSys (sm x) k (pcs x) (depth x))
        else Some (mkSys (sm x) k (upd (pcs x) i (Entering (priority t))) (depth x))
      else None
  | AContinue, Entering cp =>
      if suspendedUntil t <? END_OF_TIME then
        r ← enter_locked this cp (sm x) k; Some (after_enter i cp r x)
      else None
  | AContinue, Waiting cp prev =>
      if suspendedUntil t <? END_OF_TIME then
        r ← enter_wakeup this cp prev (sm x) k; Some (after_enter i cp r x)
      else None
  | ALeave, Out =>
      if suspendedUntil t <? END_OF_TIME then
        if negb (schedulerRunning k) then Some (mkSys (sm x) k (pcs x) (depth x)) else
        match leave_begin i (sm x) with
        | Ignored => Some (mkSys (sm x) k (pcs x) (depth x))
        | Nested s => Some (mkSys s k (pcs x) (upd (depth x) i (depth x i - 1)%nat))
        | Last s => Some (mkSys s k (upd (pcs x) i Leaving) (upd (depth x) i (depth x i - 1)%nat))
        end
      else None
  | AContinue, Leaving =>
      if suspendedUntil t <? END_OF_TIME then
        '(cop, w, s, k) ← leave_locked this (sm x) k;
        Some (mkSys s k (upd (pcs x) i (Restoring cop w)) (depth x))
      else None
  | AContinue, Restoring cop w =>
      if suspendedUntil t <? END_OF_TIME then
        '(_, k) ← leave_end cop w (sm x) k;
        Some (mkSys (sm x) k (upd (pcs x) i Out) (depth x))
      else None
  | _, _ => None
  end.

Fixpoint run (this : Z) (l : list (nat * action)) (x : sys) : option sys :=
  match l with
  | [] => Some x
  | (i, a) :: l => x ← step this i a x; run this l x
  end.

(** ** What the sections do to the threads *)

Definition blocked (this prio : Z) (t : thread) : thread :=
  set_priority prio (set_suspendedUntil END_OF_TIME (set_waitingFor (Some this) t)).
Definition boosted (cp : Z) (t : thread) : thread :=
  if priority t <? cp then set_priority cp t else t.
Lemma suspend_begin_eq this k t :
  threadList k !! currentThread k = Some t ->
  exists k', suspendCaller_begin END_OF_TIME (Some this) k = Some k' /\
    threads_to k k' (fun j u => if decide (j = currentThread k) then blocked this (priority t) t else u).
Proof.
  intros Ht. destruct (suspend_begin_to END_OF_TIME (Some this) k t Ht) as (k' & Hk & _ & Hto).
  by exists k'.
Qed.

Section sections.
Variables (this : Z) (k : kernel) (t : thread).
Hypothesis Ht : threadList k !! currentThread k = Some t.
#[local] Abbreviation i := (currentThread k).

Lemma enter_take_eq cp prev s :
  exists k', enter_take cp prev s k = Some (Entered, mkSem (Some i) (ownerEnterCnt s + 1) cp, k') /\
    threads_to k k' (fun j u => if decide (j = i) then set_priority prev t else u).
Proof.
  unfold enter_take. rewrite (setPrio_eq _ _ t Ht). cbn [mbind option_bind].
  eexists. split; [done|]. split_and!; [done|done|]. intros j. cbn. rewrite alter_look.
  destruct (decide (j = i)) as [->|]; [by rewrite Ht|by destruct (_ !! j)].
Qed.

Lemma enter_loop_eq cp prev s :
  if occupied_by_other i s then
    exists k', enter_loop this cp prev s k = Some (Blocked prev, s, k') /\
      threads_to k k' (fun j u => if decide (j = i) then blocked this (priority t) t else u)
  else
    exists k', enter_loop this cp prev s k = Some (Entered, mkSem (Some i) 1 cp, k') /\
      threads_to k k' (fun j u => if decide (j = i) then set_priority prev t else u).
Proof.
  unfold enter_loop. destruct (occupied_by_other i s).
  - destruct (suspend_begin_eq this k t Ht) as (k' & -> & Hk). by exists k'.
  - apply enter_take_eq.
Qed.

End sections.

Lemma enter_locked_free this cp s k t :
  threadList k !! currentThread k = Some t ->
  owner s = None \/ owner s = Some (currentThread k) ->
  exists k', enter_locked this cp s k =
      Some (Entered, mkSem (Some (currentThread k)) (ownerEnterCnt s + 1) cp, k') /\
    threads_to k k' (fun j u => u).
Proof.
  intros Ht Ho. unfold enter_locked. rewrite (setPrio_eq _ _ t Ht). cbn [mbind option_bind].
  set (k1 := on_thread (currentThread k) (set_priority CEILING_PRIORITY) k).
  assert (threadList k1 !! currentThread k1 = Some (set_priority CEILING_PRIORITY t)) as Ht1.
  { cbn. by rewrite list_lookup_alter_eq, Ht. }
  destruct (enter_take_eq k1 _ Ht1 cp (priority t) s) as (k' & Heq & Hto).
  exists k'. split.
  - destruct Ho as [-> | ->]; [done|]. rewrite decide_True by done. done.
  - eapply threads_to_trans; [apply on_thread_to|exact Hto|].
    intros j u Hu. cbn. destruct (decide (j = currentThread k)) as [->|]; [|done].
    rewrite set_priority_id. congruence.
Qed.

Lemma enter_locked_occupied this cp s k t o u :
  threadList k !! currentThread k = Some t ->
  owner s = Some o -> o <> currentThread k -> threadList k !! o = Some u ->
  exists k', enter_locked this cp s k = Some (Blocked (priority t), s, k') /\
    threads_to k k' (fun j v =>
      if decide (j = currentThread k) then blocked this CEILING_PRIORITY t
      else if decide (j = o) then boosted cp v else v).
Proof.
  intros Ht Ho Hne Hu. unfold enter_locked. rewrite (setPrio_eq _ _ t Ht). cbn [mbind option_bind].
  rewrite Ho. rewrite decide_False by done.
  assert (threadList (on_thread (currentThread k) (set_priority CEILING_PRIORITY) k) !! o = Some u)
    as -> by (cbn; by rewrite list_lookup_alter_ne by done).
  cbn [mbind option_bind].
  match goal with |- context [enter_loop _ _ _ _ ?x] => set (k1 := x) end.
  assert (threads_to k k1 (fun j v => if decide (j = currentThread k)
    then set_priority CEILING_PRIORITY v else if decide (j = o) then boosted cp v else v)) as Hk1.
  { unfold k1. destruct (priority u <? cp) eqn:Hb.
    - eapply threads_to_trans; [apply on_thread_to|apply on_thread_to|].
      intros j v Hv. cbn. destruct (decide (j = currentThread k)) as [->|].
      + by rewrite decide_False by done.
      + destruct (decide (j = o)) as [->|]; [|done]. unfold boosted.
        replace v with u by congruence. by rewrite Hb.
    - eapply threads_to_trans; [apply on_thread_to|apply threads_to_refl|].
      intros j v Hv. cbn. destruct (decide (j = currentThread k)) as [->|].
      + done.
      + destruct (decide (j = o)) as [->|]; [|done]. unfold boosted.
        replace v with u by congruence. by rewrite Hb. }
  assert (currentThread k1 = currentThread k) as Hcur by (unfold k1; by destruct (_ <? _)).
  assert (threadList k1 !! currentThread k1 = Some (set_priority CEILING_PRIORITY t)) as Ht1.
  { rewrite Hcur. destruct Hk1 as (_ & _ & ->). rewrite Ht. cbn. by rewrite decide_True. }
  pose proof (enter_loop_eq this k1 _ Ht1 cp (priority t) s) as Hl.
  assert (occupied_by_other (currentThread k1) s = true) as Hocc.
  { unfold occupied_by_other. rewrite Ho, Hcur. by rewrite decide_False. }
  rewrite Hocc in Hl. destruct Hl as (k' & Heq & Hto). exists k'. split; [done|].
  eapply threads_to_trans; [exact Hk1|exact Hto|]. intros j v Hv. rewrite Hcur.
  by destruct (decide (j = currentThread k)).
Qed.

Lemma enter_wakeup_eq this cp prev s k t :
  threadList k !! currentThread k = Some t ->
  if occupied_by_other (currentThread k) s then
    exists k', enter_wakeup this cp prev s k = Some (Blocked prev, s, k') /\
      threads_to k k' (fun j u =>
        if decide (j = currentThread k) then blocked this (priority t) t else u)
  else
    exists k', enter_wakeup this cp prev s k =
        Some (Entered, mkSem (Some (currentThread k)) 1 cp, k') /\
      threads_to k k' (fun j u => if decide (j = currentThread k)
        then set_priority prev (set_waitingFor None t) else u).
Proof.
  intros Ht. unfold enter_wakeup, suspendCaller_end.
  set (k1 := on_thread (currentThread k) (set_waitingFor None) k).
  assert (threadList k1 !! currentThread k1 = Some (set_waitingFor None t)) as Ht1.
  { cbn. by rewrite list_lookup_alter_eq, Ht. }
  change (currentThread k1) with (currentThread k) in Ht1. rewrite Ht1.
  cbn [mbind option_bind]. pose proof (enter_loop_eq this k1 _ Ht1 cp prev s) as Hl.
  change (currentThread k1) with (currentThread k) in Hl.
  destruct (occupied_by_other (currentThread k) s); destruct Hl as (k' & -> & Hto);
    exists k'; (split; [done|]); (eapply threads_to_trans; [apply on_thread_to|exact Hto|]);
    intros j u _; cbn; by destruct (decide (j = currentThread k)).
Qed.

Lemma leave_locked_eq this s k t t0 :
  threadList k !! currentThread k = Some t ->
  threadList k !! idlethread k = Some t0 -> currentThread k <> idlethread k ->
  waitingFor t <> Some this ->
  exists r k', leave_locked this s k =
      Some (ownerPriority s, r, mkSem r (ownerEnterCnt s) 0, k') /\
    match r with
    | Some w => w <> idlethread k /\ w <> currentThread k /\
        (exists u, threadList k !! w = Some u /\ waitingFor u = Some this /\
          forall j v, threadList k !! j = Some v -> waitingFor v = Some this -> not_before u v) /\
        threads_to k k' (fun j u => if decide (j = w) then resumed u else u)
    | None =>
        (forall j v, threadList k !! j = Some v -> waitingFor v = Some this -> not_before t0 v) /\
        threads_to k k' (fun j u => u)
    end.
Proof.
  intros Ht Hi Hne Hw. unfold leave_locked. rewrite (setPrio_eq _ _ t Ht). cbn [mbind option_bind].
  set (k1 := on_thread (currentThread k) (set_priority CEILING_PRIORITY) k).
  assert (Hk1 : threads_to k k1 (fun j u =>
    if decide (j = currentThread k) then set_priority CEILING_PRIORITY u else u))
    by apply on_thread_to.
  assert (forall j v, threadList k !! j = Some v -> waitingFor v = Some this ->
    threadList k1 !! j = Some v) as Hsame.
  { intros j v Hv Hwv. destruct Hk1 as (_ & _ & ->). rewrite Hv. cbn.
    rewrite decide_False; [done|]. intros ->. congruence. }
  assert (threadList k1 !! idlethread k1 = Some t0) as Hi1.
  { destruct Hk1 as (_ & _ & ->). cbn. rewrite Hi. cbn. by rewrite decide_False. }
  destruct (findNextWaitingFor_spec (idlethread k1) (threadList k1) (Some this) t0 Hi1)
    as (r & -> & Hr). cbn [mbind option_bind ownerEnterCnt ownerPriority owner].
  exists r. destruct r as [w|].
  - destruct Hr as (Hwi & u & Hu & Hwu & Hbest).
    assert (w <> currentThread k) as Hwc.
    { intros ->. destruct Hk1 as (_ & _ & Hl). rewrite Hl, Ht in Hu. cbn in Hu.
      rewrite decide_True in Hu by done. injection Hu as <-. done. }
    rewrite (setPrio_eq _ _ (set_priority CEILING_PRIORITY t)).
    2: { change (currentThread (resume w k1)) with (currentThread k).
         destruct (resume_to w k1) as (_ & _ & ->). destruct Hk1 as (_ & _ & ->).
         rewrite Ht. cbn. destruct (decide (currentThread k = w)); [congruence|].
         by rewrite decide_True. }
    cbn [mbind option_bind]. eexists. split; [done|]. split_and!; [done|done| |].
    + exists u. split_and!; [|done|].
      * destruct Hk1 as (_ & _ & Hl). rewrite Hl in Hu.
        destruct (threadList k !! w) as [v|]; [|done]. cbn in Hu.
        rewrite decide_False in Hu by done. done.
      * intros j v Hv Hwv. apply (Hbest j v); [by apply Hsame|done].
    + eapply threads_to_trans; [|apply on_thread_to|].
      { eapply threads_to_trans; [exact Hk1|apply resume_to|]. intros j v _. reflexivity. }
      intros j v Hv. cbn. change (currentThread (resume w k1)) with (currentThread k).
      destruct (decide (j = currentThread k)) as [->|]; [|done].
      destruct (decide (currentThread k = w)); [congruence|].
      replace v with t by congruence. apply set_priority_id.
  - rewrite (setPrio_eq _ _ (set_priority CEILING_PRIORITY t)).
    2: { change (currentThread k1) with (currentThread k). destruct Hk1 as (_ & _ & ->).
         rewrite Ht. cbn. by rewrite decide_True. }
    cbn [mbind option_bind]. eexists. split; [done|]. split_and!.
    + intros j v Hv Hwv. apply (Hr j v); [by apply Hsame|done].
    + eapply threads_to_trans; [exact Hk1|apply on_thread_to|]. intros j v Hv. cbn.
      change (currentThread k1) with (currentThread k).
      destruct (decide (j = currentThread k)) as [->|]; [|done].
      replace v with t by congruence. apply set_priority_id.
Qed.

Lemma leave_end_eq cop w s k t :
  threadList k !! currentThread k = Some t ->
  exists b k', leave_end cop w s k = Some (b, k') /\
    threads_to k k' (fun j u => if decide (j = currentThread k) then set_priority cop u else u).
Proof.
  intros Ht. unfold leave_end. rewrite (setPrio_eq _ _ t Ht). cbn [mbind option_bind].
  eexists _, _. split; [done|]. apply on_thread_to.
Qed.

(** ** The invariant *)

(** The thread runs its own code or code of the semaphore. *)
Definition active (this : Z) (t : thread) : Prop :=
  waitingFor t <> Some this /\ suspendedUntil t < END_OF_TIME.

(** The owner is inside as often as the semaphore counts, nobody else is inside. *)
Definition holds (s : sem) (i : nat) (d : nat) : Prop :=
  (owner s = Some i <-> (0 < d)%nat) /\ (owner s = Some i -> ownerEnterCnt s = Z.of_nat d).

Definition pc_ok (this : Z) (s : sem) (i : nat) (t : thread) (p : pc) (d : nat) : Prop :=
  match p with
  | Out => active this t /\ holds s i d
  | Entering cp => active this t /\ holds s i d /\ cp <= CEILING_PRIORITY
  | Waiting cp prev =>
      d = 0%nat /\ priority t = CEILING_PRIORITY /\ prev <= CEILING_PRIORITY /\
      cp <= CEILING_PRIORITY /\
      ((waitingFor t = Some this /\ suspendedUntil t = END_OF_TIME /\
        owner s <> None /\ owner s <> Some i) \/
       (active this t /\ (owner s = Some i -> ownerEnterCnt s = 0)))
  | Leaving => active this t /\ d = 0%nat /\ owner s = Some i /\ ownerEnterCnt s = 0
  | Restoring cop _ =>
      active this t /\ d = 0%nat /\ owner s <> Some i /\ cop <= CEILING_PRIORITY
  end.

Definition thread_ok (this : Z) (s : sem) (i : nat) (t : thread) (p : pc) (d : nat) : Prop :=
  priority t <= CEILING_PRIORITY /\ pc_ok this s i t p d.

Record sem_ok (s : sem) (k : kernel) : Prop := {
  so_owner : forall o, owner s = Some o -> is_Some (threadList k !! o);
  so_free : owner s = None -> ownerEnterCnt s = 0;
  so_prio : ownerPriority s <= CEILING_PRIORITY
}.

Record inv (this : Z) (x : sys) : Prop := {
  inv_idle : exists t0, threadList (kn x) !! idlethread (kn x) = Some t0 /\
    priority t0 < CEILING_PRIORITY /\
    pcs x (idlethread (kn x)) = Out /\ depth x (idlethread (kn x)) = 0%nat;
  inv_thread : forall i t, threadList (kn x) !! i = Some t ->
    thread_ok this (sm x) i t (pcs x i) (depth x i);
  inv_none : forall i, threadList (kn x) !! i = None -> depth x i = 0%nat;
  inv_sem : sem_ok (sm x) (kn x)
}.

(** A thread that the change of the owner does not concern. *)
Lemma thread_ok_frame this s s' j u p d :
  owner s <> Some j -> owner s' <> Some j ->
  (owner s' = None -> waitingFor u <> Some this) ->
  thread_ok this s j u p d -> thread_ok this s' j u p d.
Proof.
  intros H1 H2 H3 [Hp Hok]. split; [done|]. unfold pc_ok, holds in *.
  destruct p; [tauto|tauto| |tauto|tauto].
  destruct Hok as (? & ? & ? & ? & [(? & ? & ? & ?)|(? & ?)]); split_and!; try done.
  - left. split_and!; try done. intros Hn. by apply H3.
  - right. done.
Qed.

Lemma waiting_pc this s i t p d :
  thread_ok this s i t p d -> waitingFor t = Some this ->
  priority t = CEILING_PRIORITY /\ d = 0%nat /\ owner s <> Some i /\
  exists cp prev, p = Waiting cp prev /\ cp <= CEILING_PRIORITY /\ prev <= CEILING_PRIORITY.
Proof.
  intros [_ Hok] Hw. unfold pc_ok, active in Hok. destruct p; try tauto.
  destruct Hok as (? & ? & ? & ? & [(? & ? & ? & ?)|([? _] & ?)]); [|done].
  split_and!; try done. eauto.
Qed.

(** A step of thread [i] re-establishes the invariant if it does so for each
    thread. *)
Lemma inv_upd this x s' k' f i pcs' depth' :
  inv this x -> i <> idlethread (kn x) ->
  threads_to (kn x) k' f ->
  (forall j, j <> i -> pcs' j = pcs x j) -> (forall j, j <> i -> depth' j = depth x j) ->
  (forall u, f (idlethread (kn x)) u = u) ->
  (forall j u, j <> i -> threadList (kn x) !! j = Some u ->
     thread_ok this (sm x) j u (pcs x j) (depth x j) ->
     thread_ok this s' j (f j u) (pcs x j) (depth x j)) ->
  (exists t, threadList (kn x) !! i = Some t /\ thread_ok this s' i (f i t) (pcs' i) (depth' i)) ->
  sem_ok s' (kn x) ->
  inv this (mkSys s' k' pcs' depth').
Proof.
  intros [(t0 & Ht0 & Hp0 & Hpc0 & Hd0) Hthr Hnone Hsem] Hi (Hid & _ & Hl) Hpcs Hdep Hfi Hoth Hme Hsem'.
  destruct Hme as (t & Ht & Hok).
  split; cbn [sm kn pcs depth].
  - exists t0. rewrite Hid, Hl, Ht0. cbn. rewrite Hfi, Hpcs, Hdep by done. done.
  - intros j u'. rewrite Hl. destruct (threadList (kn x) !! j) as [u|] eqn:Hu; [|done].
    cbn. intros [= <-]. destruct (decide (j = i)) as [->|Hj].
    + congruence.
    + rewrite Hpcs, Hdep by done. apply Hoth; auto.
  - intros j. rewrite Hl. destruct (threadList (kn x) !! j) eqn:Hu; [done|]. intros _.
    destruct (decide (j = i)) as [->|Hj]; [congruence|]. rewrite Hdep by done. by apply Hnone.
  - destruct Hsem' as [H1 H2 H3]. split; [|done|done]. intros o Ho. rewrite Hl.
    destruct (H1 o Ho) as [v ->]. by eexists.
Qed.

Section preservation.
Variables (this : Z) (x : sys) (i : nat) (t : thread).
Hypothesis Hinv : inv this x.
Hypothesis Ht : threadList (kn x) !! i = Some t.
Hypothesis Hi : i <> idlethread (kn x).
#[local] Abbreviation k := (set_currentThread i (kn x)).

(** The owner takes the semaphore. *)
Lemma take_inv k' t' c cp :
  threads_to (kn x) k' (fun j u => if decide (j = i) then t' else u) ->
  owner (sm x) = None \/ owner (sm x) = Some i ->
  priority t' <= CEILING_PRIORITY -> active this t' -> cp <= CEILING_PRIORITY ->
  c = Z.of_nat (S (depth x i)) ->
  inv this (mkSys (mkSem (Some i) c cp) k' (upd (pcs x) i Out) (upd (depth x) i (S (depth x i)))).
Proof.
  intros Hto Ho Hp Ha Hcp Hc.
  eapply (inv_upd this x _ _ _ i); [done|done|exact Hto|..].
  - intros j Hj. by apply upd_ne.
  - intros j Hj. by apply upd_ne.
  - intros u. cbn. by rewrite decide_False by congruence.
  - intros j u Hj Hu Hok. cbn. rewrite decide_False by done.
    eapply thread_ok_frame; [| |done|exact Hok]; cbn; [|congruence].
    destruct Ho as [-> | ->]; congruence.
  - exists t. split; [done|]. rewrite !upd_eq. cbn. rewrite decide_True by done.
    split; [done|]. split; [done|]. split; cbn; [split; [lia|done]|done].
  - split; cbn; [|done|done]. intros o [= <-]. by exists t.
Qed.

(** A caller is suspended. *)
Lemma block_inv k' f cp prev :
  threads_to (kn x) k' f -> f i t = blocked this CEILING_PRIORITY t ->
  (forall u, f (idlethread (kn x)) u = u) ->
  (forall j u, j <> i -> threadList (kn x) !! j = Some u ->
     thread_ok this (sm x) j u (pcs x j) (depth x j) ->
     thread_ok this (sm x) j (f j u) (pcs x j) (depth x j)) ->
  (exists o, owner (sm x) = Some o /\ o <> i) -> depth x i = 0%nat ->
  prev <= CEILING_PRIORITY -> cp <= CEILING_PRIORITY ->
  inv this (mkSys (sm x) k' (upd (pcs x) i (Waiting cp prev)) (depth x)).
Proof.
  intros Hto Hf Hfi Hoth (o & Ho & Hoi) Hd Hprev Hcp.
  eapply (inv_upd this x _ _ f i); [done|done|exact Hto| |done|done|done| |apply Hinv].
  - intros j Hj. by apply upd_ne.
  - exists t. split; [done|]. rewrite upd_eq, Hf. split; [done|].
    split_and!; try done. left. rewrite Ho. split_and!; [done|done|done|congruence].
Qed.

(** Raising the priority of the owner keeps its state. *)
Lemma boosted_ok s j u p d cp :
  cp <= CEILING_PRIORITY -> thread_ok this s j u p d -> thread_ok this s j (boosted cp u) p d.
Proof.
  intros Hcp [Hp Hok]. unfold boosted. destruct (Z.ltb_spec (priority u) cp) as [Hlt|]; [|done].
  split; [done|]. unfold pc_ok in *. destruct p; try done.
  destruct Hok as (_ & Hc & _). lia.
Qed.

Lemma occupied_cases :
  (occupied_by_other i (sm x) = true /\ exists o, owner (sm x) = Some o /\ o <> i) \/
  (occupied_by_other i (sm x) = false /\ (owner (sm x) = None \/ owner (sm x) = Some i)).
Proof.
  unfold occupied_by_other. destruct (owner (sm x)) as [o|]; [|auto].
  destruct (decide (o = i)) as [->|]; [auto|left]. split; [done|]. by exists o.
Qed.

Lemma enter_locked_inv cp :
  pcs x i = Entering cp ->
  exists r, enter_locked this cp (sm x) k = Some r /\ inv this (after_enter i cp r x).
Proof.
  intros Hpc. destruct (inv_thread _ _ Hinv i t Ht) as [Hp Hok]. rewrite Hpc in Hok.
  destruct Hok as (Hact & [Hiff Hcnt] & Hcp).
  destruct occupied_cases as [[_ (o & Ho & Hne)]|[_ Ho]].
  - destruct (so_owner _ _ (inv_sem _ _ Hinv) o Ho) as [u Hu].
    destruct (enter_locked_occupied this cp (sm x) k t o u Ht Ho Hne Hu) as (k' & Heq & Hto).
    eexists. split; [exact Heq|]. cbn [after_enter].
    assert (o <> idlethread (kn x)) as Hoidle.
    { intros ->. destruct (inv_idle _ _ Hinv) as (t0 & Ht0 & _ & Hpc0 & Hd0).
      destruct (inv_thread _ _ Hinv _ _ Ht0) as [_ Hok0]. rewrite Hpc0, Hd0 in Hok0.
      destruct Hok0 as (_ & [Hiff0 _]). apply Hiff0 in Ho. lia. }
    eapply block_inv; [exact Hto|..]; cbn.
    + by rewrite decide_True.
    + intros v. by rewrite !decide_False by congruence.
    + intros j v Hj Hv Hok. rewrite decide_False by done.
      destruct (decide (j = o)); [by apply boosted_ok|done].
    + eauto.
    + destruct (depth x i) eqn:Hd; [done|]. assert (owner (sm x) = Some i) by (apply Hiff; lia).
      congruence.
    + done.
    + done.
  - destruct (enter_locked_free this cp (sm x) k t Ht Ho) as (k' & Heq & Hto).
    eexists. split; [exact Heq|]. cbn [after_enter].
    eapply (take_inv _ t); [|done|done|done|done|].
    + eapply threads_to_trans; [exact Hto|apply threads_to_refl|].
      intros j u Hu. cbn in *. destruct (decide (j = i)) as [->|]; congruence.
    + destruct Ho as [Ho|Ho].
      * rewrite (so_free _ _ (inv_sem _ _ Hinv) Ho).
        assert (~ (0 < depth x i)%nat) by (rewrite <- Hiff; congruence). lia.
      * rewrite (Hcnt Ho). lia.
Qed.

Lemma enter_wakeup_inv cp prev :
  pcs x i = Waiting cp prev -> suspendedUntil t < END_OF_TIME ->
  exists r, enter_wakeup this cp prev (sm x) k = Some r /\ inv this (after_enter i cp r x).
Proof.
  intros Hpc Hrun. destruct (inv_thread _ _ Hinv i t Ht) as [Hp Hok]. rewrite Hpc in Hok.
  destruct Hok as (Hd & Hc & Hprev & Hcp & _).
  pose proof (enter_wakeup_eq this cp prev (sm x) k t Ht) as Hw. cbn [currentThread set_currentThread] in Hw.
  destruct occupied_cases as [[Hocc Ho]|[Hocc Ho]]; rewrite Hocc in Hw;
    destruct Hw as (k' & Heq & Hto); (eexists; split; [exact Heq|]); cbn [after_enter].
  - eapply block_inv; [exact Hto|..]; cbn; try done.
    + rewrite decide_True by done. by rewrite Hc.
    + intros v. by rewrite decide_False by congruence.
    + intros j v Hj Hv Hok. by rewrite decide_False.
  - eapply take_inv; [exact Hto|done|done| |done|].
    + split; cbn; [done|done].
    + rewrite Hd. done.
Qed.

Lemma resumed_inv cp prev :
  pcs x i = Waiting cp prev -> inv this (mkSys (sm x) (resume i (kn x)) (pcs x) (depth x)).
Proof.
  intros Hpc. destruct (inv_thread _ _ Hinv i t Ht) as [Hp Hok]. rewrite Hpc in Hok.
  destruct Hok as (Hd & Hc & Hprev & Hcp & Hv).
  eapply (inv_upd this x _ _ _ i); [done|done|apply resume_to|done|done| | | |apply Hinv].
  - intros u. cbn. by rewrite decide_False by congruence.
  - intros j u Hj Hu Hok. cbn. by rewrite decide_False by done.
  - exists t. split; [done|]. rewrite Hpc. cbn. rewrite decide_True by done. split; [done|].
    split_and!; try done. right. split; [done|]. intros Ho. destruct Hv as [(_ & _ & _ & ?)|[_ Hz]]; auto.
    done.
Qed.

Lemma leave_begin_inv :
  pcs x i = Out ->
  match leave_begin i (sm x) with
  | Ignored => owner (sm x) <> Some i
  | Nested s => inv this (mkSys s k (pcs x) (upd (depth x) i (depth x i - 1)%nat))
  | Last s => inv this (mkSys s k (upd (pcs x) i Leaving) (upd (depth x) i (depth x i - 1)%nat))
  end.
Proof.
  intros Hpc. destruct (inv_thread _ _ Hinv i t Ht) as [Hp Hok]. rewrite Hpc in Hok.
  destruct Hok as (Hact & [Hiff Hcnt]). unfold leave_begin.
  destruct (decide (owner (sm x) <> Some i)) as [Ho|Ho]; [done|].
  apply dec_stable in Ho. specialize (Hcnt Ho). cbn [ownerEnterCnt].
  assert (0 < depth x i)%nat by (by apply Hiff).
  destruct (inv_sem _ _ Hinv) as [Hso Hsf Hsp].
  destruct (Z.ltb_spec 0 (ownerEnterCnt (sm x) - 1)) as [Hn|Hn].
  all: eapply (inv_upd this x _ _ _ i); [done|done|apply threads_to_current|..]; try done.
  all: try (intros j Hj; by apply upd_ne).
  all: try (split; cbn; [done|congruence|done]).
  all: try (intros j u Hj Hu Hok; eapply thread_ok_frame; [| | |exact Hok]; cbn; congruence).
  - exists t. split; [done|]. rewrite upd_eq, Hpc. split; [done|]. split; [done|].
    split; cbn; [split; [lia|done]|lia].
  - exists t. split; [done|]. rewrite !upd_eq. split; [done|]. split_and!; cbn; [done..|lia|done|lia].
Qed.

Lemma leave_locked_inv :
  pcs x i = Leaving ->
  exists cop w s' k', leave_locked this (sm x) k = Some (cop, w, s', k') /\
    inv this (mkSys s' k' (upd (pcs x) i (Restoring cop w)) (depth x)).
Proof.
  intros Hpc. destruct (inv_thread _ _ Hinv i t Ht) as [Hp Hok]. rewrite Hpc in Hok.
  destruct Hok as ([Hw Hrun] & Hd & Ho & Hcnt).
  destruct (inv_idle _ _ Hinv) as (t0 & Ht0 & Hp0 & Hpc0 & Hd0).
  destruct (inv_sem _ _ Hinv) as [Hso Hsf Hsp].
  destruct (leave_locked_eq this (sm x) k t t0 Ht Ht0 Hi Hw) as (r & k' & Heq & Hr).
  exists (ownerPriority (sm x)), r, (mkSem r (ownerEnterCnt (sm x)) 0), k'. split; [done|].
  destruct r as [w|].
  - destruct Hr as (Hwi & Hwc & (u & Hu & Hwu & _) & Hto). cbn in Hwi, Hwc, Hu.
    eapply (inv_upd this x _ _ _ i); [done|done|exact Hto| |done|..].
    + intros j Hj. by apply upd_ne.
    + intros v. cbn. by rewrite decide_False by congruence.
    + intros j v Hj Hv Hok. cbn. destruct (decide (j = w)) as [->|Hjw].
      * replace v with u in * by congruence.
        destruct (waiting_pc _ _ _ _ _ _ Hok Hwu) as (Hc & Hdw & _ & cp & prev & -> & ? & ?).
        split; [cbn; lia|]. split_and!; try done. right. split; [done|]. by intros _.
      * eapply thread_ok_frame; [| | |exact Hok]; cbn; congruence.
    + exists t. split; [done|]. rewrite upd_eq. cbn. rewrite decide_False by congruence.
      split; [done|]. split_and!; cbn; first [done | congruence].
    + split; cbn; [|done|done]. intros o [= <-]. by exists u.
  - destruct Hr as [Hnone Hto]. cbn in Hnone.
    eapply (inv_upd this x _ _ _ i); [done|done|exact Hto| |done|done|..].
    + intros j Hj. by apply upd_ne.
    + intros j v Hj Hv Hok. eapply thread_ok_frame; [| | |exact Hok]; cbn; [congruence|done|].
      intros _ Hwv. specialize (Hnone j v Hv Hwv).
      destruct (waiting_pc _ _ _ _ _ _ Hok Hwv) as (Hc & _). unfold not_before in Hnone. lia.
    + exists t. split; [done|]. rewrite upd_eq. split; [done|]. split_and!; cbn; done.
    + split; cbn; done.
Qed.

Lemma leave_end_inv cop w :
  pcs x i = Restoring cop w ->
  exists b k', leave_end cop w (sm x) k = Some (b, k') /\
    inv this (mkSys (sm x) k' (upd (pcs x) i Out) (depth x)).
Proof.
  intros Hpc. destruct (inv_thread _ _ Hinv i t Ht) as [Hp Hok]. rewrite Hpc in Hok.
  destruct Hok as (Hact & Hd & Ho & Hcop).
  destruct (leave_end_eq cop w (sm x) k t Ht) as (b & k' & Heq & Hto).
  exists b, k'. split; [done|].
  eapply (inv_upd this x _ _ _ i); [done|done|exact Hto| |done|..].
  - intros j Hj. by apply upd_ne.
  - intros u. cbn. by rewrite decide_False by congruence.
  - intros j u Hj Hu Hok. cbn. by rewrite decide_False.
  - exists t. split; [done|]. rewrite upd_eq, Hd. cbn. rewrite decide_True by done.
    split; [done|]. split; [done|]. split; [|done]. split; [done|lia].
  - apply Hinv.
Qed.

End preservation.

Lemma inv_current this x i :
  inv this x -> inv this (mkSys (sm x) (set_currentThread i (kn x)) (pcs x) (depth x)).
Proof. intros [H1 H2 H3 [H4 H5 H6]]. by split; [..|split]. Qed.

(** Every step keeps the invariant. *)
Lemma step_inv this i a x x' : inv this x -> step this i a x = Some x' -> inv this x'.
Proof.
  intros Hinv. unfold step.
  destruct (threadList (kn x) !! i) as [t|] eqn:Ht; [|done]. cbn [mbind option_bind].
  destruct (decide (i = idlethread (kn x))) as [|Hi]; [done|].
  destruct a, (pcs x i) as [|cp|cp prev| |cop w] eqn:Hpc; try done;
    try (destruct (Z.ltb_spec (suspendedUntil t) END_OF_TIME) as [Hrun|]; [|done]).
  - destruct (negb _); intros [= <-]; [by apply inv_current|].
    destruct (inv_thread _ _ Hinv i t Ht) as [Hp Hok]. rewrite Hpc in Hok.
    eapply (inv_upd this x _ _ _ i); [done|done|apply threads_to_current| |done|done|done| |apply Hinv].
    + intros j Hj. by apply upd_ne.
    + exists t. split; [done|]. rewrite upd_eq. split; [done|]. destruct Hok. by split_and!.
  - destruct (negb _); [intros [= <-]; by apply inv_current|].
    pose proof (leave_begin_inv this x i t Hinv Ht Hi Hpc) as Hl.
    destruct (leave_begin i (sm x)); intros [= <-]; [by apply inv_current|done|done].
  - destruct (enter_locked_inv this x i t Hinv Ht Hi cp Hpc) as (r & -> & ?). by intros [= <-].
  - destruct (enter_wakeup_inv this x i t Hinv Ht Hi cp prev Hpc Hrun) as (r & -> & ?).
    by intros [= <-].
  - destruct (leave_locked_inv this x i t Hinv Ht Hi Hpc) as (cop & w & s' & k' & -> & ?).
    by intros [= <-].
  - destruct (leave_end_inv this x i t Hinv Ht Hi cop w Hpc) as (b & k' & -> & ?).
    by intros [= <-].
  - intros [= <-]. by apply (resumed_inv this x i t Hinv Ht Hi cp prev).
Qed.

Lemma run_inv this l : forall x x', inv this x -> run this l x = Some x' -> inv this x'.
Proof.
  induction l as [|[i a] l IH]; intros x x' Hinv; cbn [run]; [by intros [= <-]|].
  destruct (step this i a x) as [x1|] eqn:Hs; [|done]. cbn. apply IH. by eapply step_inv.
Qed.

(** ** Priorities without re-entry *)

(** [base] is the priority of the threads outside the semaphore. *)
Definition prio_ok (base : nat -> Z) (s : sem) (i : nat) (t : thread) (p : pc) (d : nat) : Prop :=
  match p with
  | Out => (d = 0%nat -> priority t = base i) /\ ((0 < d)%nat -> ownerPriority s = base i)
  | Entering cp => d = 0%nat /\ cp = base i /\ priority t = base i
  | Waiting cp prev => cp = base i /\ prev = base i
  | Leaving => ownerPriority s = base i
  | Restoring cop _ => cop = base i
  end.

Definition prio_inv (base : nat -> Z) (x : sys) : Prop :=
  forall i t, threadList (kn x) !! i = Some t -> prio_ok base (sm x) i t (pcs x i) (depth x i).

Lemma prio_frame this base s s' j u u' p d :
  thread_ok this s j u p d -> owner s <> Some j -> priority u' = priority u ->
  prio_ok base s j u p d -> prio_ok base s' j u' p d.
Proof.
  intros [_ Hok] Ho Hp. unfold prio_ok, pc_ok, holds in *. rewrite Hp. destruct p; tauto.
Qed.

(** The boost of the owner does not matter. *)
Lemma prio_boost this base s j u p d cp :
  thread_ok this s j u p d -> owner s = Some j ->
  prio_ok base s j u p d -> prio_ok base s j (boosted cp u) p d.
Proof.
  intros [_ Hok] Ho. unfold prio_ok, pc_ok, holds in *. destruct p; try tauto.
  - intros [_ ?]. split; [|done]. intros ->. destruct Hok as (_ & [Hiff _] & _).
    apply Hiff in Ho. lia.
  - intros (-> & _ & _). destruct Hok as (_ & [Hiff _] & _). apply Hiff in Ho. lia.
Qed.

Lemma prio_upd base x s' k' f i pcs' depth' :
  threads_to (kn x) k' f ->
  (forall j, j <> i -> pcs' j = pcs x j) -> (forall j, j <> i -> depth' j = depth x j) ->
  (forall j u, j <> i -> threadList (kn x) !! j = Some u ->
     prio_ok base (sm x) j u (pcs x j) (depth x j) ->
     prio_ok base s' j (f j u) (pcs x j) (depth x j)) ->
  (forall t, threadList (kn x) !! i = Some t -> prio_ok base s' i (f i t) (pcs' i) (depth' i)) ->
  prio_inv base x -> prio_inv base (mkSys s' k' pcs' depth').
Proof.
  intros (_ & _ & Hl) Hpcs Hdep Hoth Hme Hpr j u'. cbn [kn sm pcs depth]. rewrite Hl.
  destruct (threadList (kn x) !! j) as [u|] eqn:Hu; [|done]. cbn. intros [= <-].
  destruct (decide (j = i)) as [->|Hj]; [by apply Hme|].
  rewrite Hpcs, Hdep by done. apply Hoth; [done|done|by apply Hpr].
Qed.

Section priorities.
Variables (this : Z) (base : nat -> Z) (x : sys) (i : nat) (t : thread).
Hypothesis Hinv : inv this x.
Hypothesis Hpr : prio_inv base x.
Hypothesis Ht : threadList (kn x) !! i = Some t.
Hypothesis Hi : i <> idlethread (kn x).
#[local] Abbreviation k := (set_currentThread i (kn x)).

Lemma other_frame s' j u u' :
  owner (sm x) <> Some j -> threadList (kn x) !! j = Some u -> priority u' = priority u ->
  prio_ok base (sm x) j u (pcs x j) (depth x j) -> prio_ok base s' j u' (pcs x j) (depth x j).
Proof.
  intros Ho Hu. apply (prio_frame this); [|done]. by apply (inv_thread _ _ Hinv).
Qed.

(** A section of [enter] that does not block takes the semaphore, one that
    blocks leaves an owner of at least the priority of the caller. *)
Lemma enter_locked_prio cp r :
  pcs x i = Entering cp -> enter_locked this cp (sm x) k = Some r ->
  prio_inv base (after_enter i cp r x).
Proof.
  intros Hpc Hr. pose proof (Hpr i t Ht) as Hme. rewrite Hpc in Hme. destruct Hme as (Hd & -> & Hp).
  destruct (occupied_cases x i) as [[_ (o & Ho & Hne)]|[_ Ho]].
  - destruct (so_owner _ _ (inv_sem _ _ Hinv) o Ho) as [u Hu].
    destruct (enter_locked_occupied this (base i) (sm x) k t o u Ht Ho Hne Hu) as (k' & Heq & Hto).
    rewrite Heq in Hr. injection Hr as <-. cbn [after_enter].
    eapply (prio_upd base x _ _ _ i); [exact Hto| |done|..|exact Hpr]; cbn.
    + intros j Hj. by apply upd_ne.
    + intros j v Hj Hv. rewrite decide_False by done.
      destruct (decide (j = o)) as [->|]; [|done].
      apply (prio_boost this); [by apply (inv_thread _ _ Hinv)|done].
    + intros t' _. rewrite upd_eq. done.
  - destruct (enter_locked_free this (base i) (sm x) k t Ht Ho) as (k' & Heq & Hto).
    rewrite Heq in Hr. injection Hr as <-. cbn [after_enter].
    eapply (prio_upd base x _ _ _ i); [exact Hto|..|exact Hpr]; cbn.
    + intros j Hj. by apply upd_ne.
    + intros j Hj. by apply upd_ne.
    + intros j v Hj Hv. apply other_frame; [|done|done]. destruct Ho as [-> | ->]; congruence.
    + intros t' _. rewrite !upd_eq. split; [lia|done].
Qed.

Lemma enter_wakeup_prio cp prev r :
  pcs x i = Waiting cp prev -> enter_wakeup this cp prev (sm x) k = Some r ->
  prio_inv base (after_enter i cp r x).
Proof.
  intros Hpc Hr. pose proof (Hpr i t Ht) as Hme. rewrite Hpc in Hme. destruct Hme as [-> ->].
  pose proof (enter_wakeup_eq this (base i) (base i) (sm x) k t Ht) as Hw.
  cbn [currentThread set_currentThread] in Hw.
  destruct (occupied_cases x i) as [[Hocc Ho]|[Hocc Ho]]; rewrite Hocc in Hw;
    destruct Hw as (k' & Heq & Hto); rewrite Heq in Hr; injection Hr as <-; cbn [after_enter].
  - eapply (prio_upd base x _ _ _ i); [exact Hto| |done|..|exact Hpr]; cbn.
    + intros j Hj. by apply upd_ne.
    + intros j v Hj Hv. by rewrite decide_False.
    + intros t' _. rewrite upd_eq. done.
  - eapply (prio_upd base x _ _ _ i); [exact Hto|..|exact Hpr]; cbn.
    + intros j Hj. by apply upd_ne.
    + intros j Hj. by apply upd_ne.
    + intros j v Hj Hv. rewrite decide_False by done. apply other_frame; [|done|done].
      destruct Ho as [-> | ->]; congruence.
    + intros t' _. rewrite !upd_eq. split; [lia|done].
Qed.

Lemma leave_begin_prio :
  pcs x i = Out ->
  match leave_begin i (sm x) with
  | Ignored => True
  | Nested s => prio_inv base (mkSys s k (pcs x) (upd (depth x) i (depth x i - 1)%nat))
  | Last s => prio_inv base (mkSys s k (upd (pcs x) i Leaving) (upd (depth x) i (depth x i - 1)%nat))
  end.
Proof.
  intros Hpc. destruct (inv_thread _ _ Hinv i t Ht) as [_ Hok]. rewrite Hpc in Hok.
  destruct Hok as (_ & [Hiff Hcnt]). pose proof (Hpr i t Ht) as Hme. rewrite Hpc in Hme.
  unfold leave_begin. destruct (decide (owner (sm x) <> Some i)) as [Ho|Ho]; [done|].
  apply dec_stable in Ho. specialize (Hcnt Ho). cbn [ownerEnterCnt].
  assert (0 < depth x i)%nat by (by apply Hiff). destruct Hme as [_ Hop].
  destruct (Z.ltb_spec 0 (ownerEnterCnt (sm x) - 1)) as [Hn|Hn].
  all: eapply (prio_upd base x _ _ _ i); [apply threads_to_current|..|exact Hpr]; try done.
  all: try (intros j Hj; by apply upd_ne).
  - intros t' _. rewrite upd_eq, Hpc. split; [lia|]. intros _. by apply Hop.
  - intros t' _. rewrite !upd_eq. by apply Hop.
Qed.

Lemma leave_locked_prio cop w s' k' :
  pcs x i = Leaving -> leave_locked this (sm x) k = Some (cop, w, s', k') ->
  prio_inv base (mkSys s' k' (upd (pcs x) i (Restoring cop w)) (depth x)).
Proof.
  intros Hpc Hr. destruct (inv_thread _ _ Hinv i t Ht) as [_ Hok]. rewrite Hpc in Hok.
  destruct Hok as ([Hw _] & _ & Ho & _). pose proof (Hpr i t Ht) as Hme. rewrite Hpc in Hme.
  destruct (inv_idle _ _ Hinv) as (t0 & Ht0 & _).
  destruct (leave_locked_eq this (sm x) k t t0 Ht Ht0 Hi Hw) as (r & k1 & Heq & Hr').
  rewrite Heq in Hr. injection Hr as <- <- <- <-.
  assert (exists f, threads_to (kn x) k1 f /\ forall j u, priority (f j u) = priority u)
    as (f & Hto & Hf).
  { destruct r as [w|].
    - destruct Hr' as (_ & _ & _ & Hto). eexists. split; [exact Hto|]. intros j u. cbn.
      by destruct (decide (j = w)).
    - destruct Hr' as [_ Hto]. eexists. split; [exact Hto|]. done. }
  eapply (prio_upd base x _ _ f i); [exact Hto| |done|..|exact Hpr]; cbn.
  - intros j Hj. by apply upd_ne.
  - intros j v Hj Hv. apply other_frame; [congruence|done|apply Hf].
  - intros t' _. rewrite upd_eq. exact Hme.
Qed.

End priorities.

Lemma step_prio this base i a x x' :
  inv this x -> prio_inv base x -> (a = AEnter -> depth x i = 0%nat) ->
  step this i a x = Some x' -> prio_inv base x'.
Proof.
  intros Hinv Hpr Hre. unfold step.
  destruct (threadList (kn x) !! i) as [t|] eqn:Ht; [|done]. cbn [mbind option_bind].
  destruct (decide (i = idlethread (kn x))) as [|Hi]; [done|].
  destruct a, (pcs x i) as [|cp|cp prev| |cop w] eqn:Hpc; try done;
    try (destruct (Z.ltb_spec (suspendedUntil t) END_OF_TIME) as [Hrun|]; [|done]).
  - destruct (negb _); intros [= <-]; [done|].
    pose proof (Hpr i t Ht) as Hme. rewrite Hpc in Hme. specialize (Hre eq_refl).
    eapply (prio_upd base x _ _ _ i); [apply threads_to_current| |done|done| |done].
    + intros j Hj. by apply upd_ne.
    + intros t' Ht'. replace t' with t by congruence. rewrite upd_eq. destruct Hme as [Hme _].
      cbn. auto.
  - destruct (negb _); [by intros [= <-]|].
    pose proof (leave_begin_prio this base x i t Hinv Hpr Ht Hi Hpc) as Hl.
    destruct (leave_begin i (sm x)); intros [= <-]; done.
  - destruct (enter_locked _ _ _ _) as [r|] eqn:Hr; [|done]. intros [= <-].
    by apply (enter_locked_prio this base x i t Hinv Hpr Ht).
  - destruct (enter_wakeup _ _ _ _ _) as [r|] eqn:Hr; [|done]. intros [= <-].
    by apply (enter_wakeup_prio this base x i t Hinv Hpr Ht Hi cp prev).
  - destruct (leave_locked _ _ _) as [[[[cop w] s'] k']|] eqn:Hr; [|done]. intros [= <-].
    by apply (leave_locked_prio this base x i t Hinv Hpr Ht Hi).
  - destruct (leave_end_eq cop w (sm x) (set_currentThread i (kn x)) t Ht) as (b & k' & -> & Hto).
    intros [= <-]. pose proof (Hpr i t Ht) as Hme. rewrite Hpc in Hme.
    destruct (inv_thread _ _ Hinv i t Ht) as [_ Hok]. rewrite Hpc in Hok.
    eapply (prio_upd base x _ _ _ i); [exact Hto| |done|..|exact Hpr]; cbn.
    + intros j Hj. by apply upd_ne.
    + intros j v Hj Hv. by rewrite decide_False.
    + intros t' Ht'. rewrite upd_eq, decide_True by done. destruct Hok as (_ & -> & _).
      split; [done|lia].
  - intros [= <-]. eapply (prio_upd base x _ _ _ i); [apply resume_to|done|done|..|exact Hpr]; cbn.
    + intros j v Hj Hv. by rewrite decide_False.
    + intros t' Ht'. rewrite decide_True by done. pose proof (Hpr i t' Ht') as Hme.
      rewrite Hpc in *. done.
Qed.

(** ** The properties of the semaphore *)

(** The semaphore is new and all threads are in their own code. *)
Record init_ok (this : Z) (x : sys) : Prop := {
  io_sem : sm x = Semaphore;
  io_pcs : forall i, pcs x i = Out /\ depth x i = 0%nat;
  io_threads : forall i t, threadList (kn x) !! i = Some t ->
    active this t /\ priority t <= CEILING_PRIORITY;
  io_idle : exists t0, threadList (kn x) !! idlethread (kn x) = Some t0 /\
    priority t0 < CEILING_PRIORITY
}.

Lemma init_inv this x : init_ok this x -> inv this x.
Proof.
  intros [Hs Hp Ht (t0 & Ht0 & Hp0)]. split.
  - exists t0. split_and!; [done|done|apply Hp|apply Hp].
  - intros i t Hi. destruct (Hp i) as [-> ->]. destruct (Ht i t Hi). split; [done|].
    split; [done|]. rewrite Hs. split; cbn; [split; [done|lia]|done].
  - intros i _. apply Hp.
  - rewrite Hs. by split.
Qed.

Lemma init_prio this x :
  init_ok this x -> prio_inv (fun i => from_option priority 0 (threadList (kn x) !! i)) x.
Proof.
  intros [Hs Hp _ _] i t Hi. destruct (Hp i) as [-> ->]. cbn. rewrite Hi. split; [done|lia].
Qed.

Lemma owner_runs this x o :
  inv this x -> owner (sm x) = Some o ->
  exists u, threadList (kn x) !! o = Some u /\ active this u.
Proof.
  intros Hinv Ho. destruct (so_owner _ _ (inv_sem _ _ Hinv) o Ho) as [u Hu].
  exists u. split; [done|]. destruct (inv_thread _ _ Hinv o u Hu) as [_ Hok].
  unfold pc_ok in Hok. destruct (pcs x o); try tauto.
Qed.

Lemma continue_ok this x i t :
  inv this x -> threadList (kn x) !! i = Some t -> pcs x i <> Out ->
  suspendedUntil t < END_OF_TIME -> exists x', step this i AContinue x = Some x'.
Proof.
  intros Hinv Ht Hpc Hrun. unfold step. rewrite Ht. cbn [mbind option_bind].
  destruct (decide (i = idlethread (kn x))) as [->|Hi].
  { destruct (inv_idle _ _ Hinv) as (t0 & _ & _ & ? & _). congruence. }
  rewrite (proj2 (Z.ltb_lt _ _)) by done.
  destruct (pcs x i) as [|cp|cp prev| |cop w] eqn:Hp; [done|..].
  - destruct (enter_locked_inv this x i t Hinv Ht Hi cp Hp) as (r & -> & _). by eexists.
  - destruct (enter_wakeup_inv this x i t Hinv Ht Hi cp prev Hp Hrun) as (r & -> & _). by eexists.
  - destruct (leave_locked_inv this x i t Hinv Ht Hi Hp) as (? & ? & ? & ? & -> & _). by eexists.
  - destruct (leave_end_inv this x i t Hinv Ht Hi cop w Hp) as (? & ? & -> & _). by eexists.
Qed.

(** Threads of priorities 100, 200 and 300; thread 2 was activated before thread 3. *)
Definition x0 : sys :=
  mkSys Semaphore
    (mkKernel [thr 0 0 4; thr 100 0 6; thr 200 0 1; thr 300 0 5] 0 1 None
       END_OF_TIME 8 0 false true 0 true 0)
    (fun _ => Out) (fun _ => 0%nat).

Lemma x0_ok : init_ok 4096 x0.
Proof.
  split; [done|done| |by exists (thr 0 0 4)].
  intros i t Ht. do 4 (destruct i as [|i];
    [injection Ht as <-; unfold active, thr, CEILING_PRIORITY, NETWORKREADER_PRIORITY,
       MAX_THREAD_PRIORITY, END_OF_TIME; cbn; split; [split; [done|lia]|lia]|]).
  done.
Qed.

(** Thread 1 is inside, threads 3 and 2 wait, thread 1 is about to hand over. *)
Definition contended : list (nat * action) :=
  [(1, AEnter); (1, AContinue); (3, AEnter); (3, AContinue); (3, AResumed); (3, AContinue);
   (2, AEnter); (2, AContinue)]%nat.

(** C1: Mutual exclusion: however the threads that use a semaphore interleave,
    and even if waiting threads are resumed by someone else, at most one thread
    is inside at any time; it is the owner, and the semaphore counts exactly the
    enters that it has not yet left. *)
Theorem semaphore_mutual_exclusion this l x0 x :
  init_ok this x0 -> run this l x0 = Some x ->
  (forall i j, (0 < depth x i)%nat -> (0 < depth x j)%nat -> i = j) /\
  (forall i, (0 < depth x i)%nat ->
     owner (sm x) = Some i /\ ownerEnterCnt (sm x) = Z.of_nat (depth x i)).
Proof.
  intros Hinit Hrun. pose proof (run_inv this l x0 x (init_inv _ _ Hinit) Hrun) as Hinv.
  assert (forall i, (0 < depth x i)%nat ->
    owner (sm x) = Some i /\ ownerEnterCnt (sm x) = Z.of_nat (depth x i)) as Hin.
  { intros i Hd. destruct (threadList (kn x) !! i) as [t|] eqn:Ht.
    - destruct (inv_thread _ _ Hinv i t Ht) as [_ Hok]. unfold pc_ok, holds in Hok.
      destruct (pcs x i); try lia.
      + destruct Hok as (_ & Hiff & Hc). rewrite <- Hiff in Hd. auto.
      + destruct Hok as (_ & [Hiff Hc] & _). rewrite <- Hiff in Hd. auto.
    - rewrite (inv_none _ _ Hinv i Ht) in Hd. lia. }
  split; [|done]. intros i j Hdi Hdj.
  destruct (Hin i Hdi) as [H1 _]. destruct (Hin j Hdj) as [H2 _]. congruence.
Qed.

Lemma semaphore_mutual_exclusion_witness :
  exists x, run 4096 contended x0 = Some x /\ depth x 1%nat = 1%nat /\ owner (sm x) = Some 1%nat.
Proof.
  eexists. split; [vm_compute; reflexivity|]. split; [reflexivity|].
  refine (proj1 (proj2 (semaphore_mutual_exclusion 4096 contended x0 _ x0_ok _) 1%nat _));
    [vm_compute; reflexivity | cbn; lia].
Defined.

(** The last [leave] passes the semaphore on.  All waiting threads have the ceiling
    priority, so the one among them is chosen that was activated longest ago,
    whatever their own priorities are. *)
Lemma leave_passes_on this x i x' j v :
  inv this x -> pcs x i = Leaving -> step this i AContinue x = Some x' ->
  threadList (kn x) !! j = Some v -> waitingFor v = Some this ->
  exists w u u', owner (sm x') = Some w /\
    threadList (kn x) !! w = Some u /\ waitingFor u = Some this /\
    lastActivation u <= lastActivation v /\
    threadList (kn x') !! w = Some u' /\ suspendedUntil u' = 0.
Proof.
  intros Hinv Hpc Hstep Hv Hwv. unfold step in Hstep.
  destruct (threadList (kn x) !! i) as [t|] eqn:Ht; [|done]. cbn [mbind option_bind] in Hstep.
  destruct (decide (i = idlethread (kn x))) as [|Hi]; [done|]. rewrite Hpc in Hstep.
  destruct (suspendedUntil t <? END_OF_TIME); [|done].
  destruct (inv_thread _ _ Hinv i t Ht) as [_ Hok]. rewrite Hpc in Hok.
  destruct Hok as ([Hwt _] & _ & _ & _).
  destruct (inv_idle _ _ Hinv) as (t0 & Ht0 & Hp0 & _).
  destruct (leave_locked_eq this (sm x) (set_currentThread i (kn x)) t t0 Ht Ht0 Hi Hwt)
    as (r & k' & Heq & Hr). rewrite Heq in Hstep. injection Hstep as <-. cbn [sm kn owner].
  assert (forall m u, threadList (kn x) !! m = Some u -> waitingFor u = Some this ->
    priority u = CEILING_PRIORITY) as Hceil.
  { intros m u Hu Hwu. by apply (waiting_pc _ _ _ _ _ _ (inv_thread _ _ Hinv m u Hu)). }
  destruct r as [w|].
  - destruct Hr as (_ & _ & (u & Hu & Hwu & Hbest) & (_ & _ & Hl)). cbn in Hu, Hl.
    exists w, u, (resumed u). split_and!; [done|done|done| | |done].
    + specialize (Hbest j v Hv Hwv). unfold not_before in Hbest.
      rewrite (Hceil j v Hv Hwv), (Hceil w u Hu Hwu) in Hbest. lia.
    + rewrite Hl, Hu. cbn. by rewrite decide_True.
  - destruct Hr as [Hnone _]. specialize (Hnone j v Hv Hwv). unfold not_before in Hnone.
    rewrite (Hceil j v Hv Hwv) in Hnone. lia.
Qed.

(** C31: No wake-up is lost: while a thread is suspended in [enter] the semaphore
    has an owner that can run, every thread in the code of the semaphore that is
    not suspended can go on, and when the owner leaves for the last time the
    semaphore passes at once to a thread that waits for it, which is resumed. *)
Theorem semaphore_handover this l x0 x :
  init_ok this x0 -> run this l x0 = Some x ->
  (forall i t, threadList (kn x) !! i = Some t -> waitingFor t = Some this ->
     exists o u, owner (sm x) = Some o /\ o <> i /\ threadList (kn x) !! o = Some u /\
       suspendedUntil u < END_OF_TIME) /\
  (forall i t, threadList (kn x) !! i = Some t -> pcs x i <> Out ->
     suspendedUntil t < END_OF_TIME -> exists x', step this i AContinue x = Some x') /\
  (forall i x' j v, pcs x i = Leaving -> step this i AContinue x = Some x' ->
     threadList (kn x) !! j = Some v -> waitingFor v = Some this ->
     exists w u u', owner (sm x') = Some w /\
       threadList (kn x) !! w = Some u /\ waitingFor u = Some this /\
       threadList (kn x') !! w = Some u' /\ suspendedUntil u' = 0).
Proof.
  intros Hinit Hrun. pose proof (run_inv this l x0 x (init_inv _ _ Hinit) Hrun) as Hinv.
  split_and!.
  - intros i t Ht Hw. destruct (inv_thread _ _ Hinv i t Ht) as [_ Hok].
    unfold pc_ok, active in Hok. destruct (pcs x i); try tauto.
    destruct Hok as (_ & _ & _ & _ & [(_ & _ & Ho & Hoi)|([? _] & _)]); [|done].
    destruct (owner (sm x)) as [o|] eqn:Howner; [|done].
    destruct (owner_runs this x o Hinv Howner) as (u & Hu & _ & Hr).
    exists o, u. split_and!; [done|congruence|done|done].
  - intros i t Ht Hpc Hr. by apply (continue_ok this x i t).
  - intros i x' j v Hpc Hstep Hv Hwv.
    destruct (leave_passes_on this x i x' j v Hinv Hpc Hstep Hv Hwv) as (w & u & u' & L1 & L2 & L3 & _ & L4). by exists w, u, u'.
Qed.

(** The semaphore passes to one of two threads that wait. *)
Lemma semaphore_handover_witness :
  exists x w u u' x', run 4096 (contended ++ [(1, ALeave)])%nat x0 = Some x /\
    step 4096 1 AContinue x = Some x' /\ owner (sm x') = Some w /\
    threadList (kn x) !! w = Some u /\ threadList (kn x') !! w = Some u' /\
    suspendedUntil u' = 0 /\ w = 2%nat.
Proof.
  destruct (run 4096 (contended ++ [(1%nat, ALeave)]) x0) as [x|] eqn:Hr;
    [|vm_compute in Hr; discriminate].
  destruct (step 4096 1 AContinue x) as [x'|] eqn:Hs;
    [|vm_compute in Hr; injection Hr as <-; vm_compute in Hs; discriminate].
  destruct (threadList (kn x) !! 3%nat) as [v|] eqn:Hv;
    [|vm_compute in Hr; injection Hr as <-; vm_compute in Hv; discriminate].
  destruct (proj2 (proj2 (semaphore_handover 4096 _ x0 x x0_ok Hr)) 1%nat x' 3%nat v)
    as (w & u & u' & H1 & H2 & _ & H5 & H6).
  - vm_compute in Hr. injection Hr as <-. reflexivity.
  - exact Hs.
  - exact Hv.
  - vm_compute in Hr. injection Hr as <-. vm_compute in Hv. injection Hv as <-. reflexivity.
  - exists x, w, u, u', x'. repeat split; try assumption.
    vm_compute in Hr. injection Hr as <-. vm_compute in Hs. injection Hs as <-.
    vm_compute in H1. congruence.
Defined.

(** No thread enters while it is inside. *)
Fixpoint no_reentry (this : Z) (l : list (nat * action)) (x : sys) : bool :=
  match l with
  | [] => true
  | (i, a) :: l =>
      (match a with AEnter => (depth x i =? 0)%nat | _ => true end) &&
      from_option (no_reentry this l) true (step this i a x)
  end.

Lemma run_prio this base l : forall x x',
  inv this x -> prio_inv base x -> no_reentry this l x = true ->
  run this l x = Some x' -> prio_inv base x'.
Proof.
  induction l as [|[i a] l IH]; intros x x' Hinv Hpr Hre; cbn [run]; [by intros [= <-]|].
  cbn [no_reentry] in Hre. apply andb_true_iff in Hre as [Ha Hre].
  destruct (step this i a x) as [x1|] eqn:Hs; [|done]. cbn in Hre |- *.
  apply IH; [by eapply step_inv| |done]. eapply step_prio; [done|done| |done].
  intros ->. by apply Nat.eqb_eq.
Qed.

(** The priorities: as long as no thread enters the semaphore again while it
    is inside, a thread in its own code and outside the semaphore has the
    priority that it started with, whatever boosts it got while it was the
    owner; and when a thread is suspended in [enter] the owner has at least the
    priority that the caller had. *)
Theorem semaphore_priorities this l x0 x :
  init_ok this x0 -> run this l x0 = Some x -> no_reentry this l x0 = true ->
  (forall i t0 t, threadList (kn x0) !! i = Some t0 -> threadList (kn x) !! i = Some t ->
     pcs x i = Out -> depth x i = 0%nat -> priority t = priority t0) /\
  (forall i cp x' prev, pcs x i = Entering cp -> step this i AContinue x = Some x' ->
     pcs x' i = Waiting cp prev ->
     exists o u', owner (sm x') = Some o /\ threadList (kn x') !! o = Some u' /\
       cp <= priority u').
Proof.
  intros Hinit Hrun Hre. pose proof (run_inv this l x0 x (init_inv _ _ Hinit) Hrun) as Hinv.
  pose proof (run_prio this _ l x0 x (init_inv _ _ Hinit) (init_prio _ _ Hinit) Hre Hrun) as Hpr.
  split.
  - intros i t0 t Ht0 Ht Hpc Hd. specialize (Hpr i t Ht). rewrite Hpc in Hpr.
    destruct Hpr as [Hp _]. rewrite (Hp Hd), Ht0. done.
  - intros i cp x' prev Hpc Hstep Hpc'. unfold step in Hstep.
    destruct (threadList (kn x) !! i) as [t|] eqn:Ht; [|done]. cbn [mbind option_bind] in Hstep.
    destruct (decide (i = idlethread (kn x))) as [|Hi]; [done|]. rewrite Hpc in Hstep.
    destruct (suspendedUntil t <? END_OF_TIME); [|done].
    destruct (occupied_cases x i) as [[_ (o & Ho & Hne)]|[_ Ho]].
    + destruct (so_owner _ _ (inv_sem _ _ Hinv) o Ho) as [u Hu].
      destruct (enter_locked_occupied this cp (sm x) (set_currentThread i (kn x)) t o u Ht Ho Hne Hu)
        as (k' & Heq & (_ & _ & Hl)).
      rewrite Heq in Hstep. injection Hstep as <-. cbn [after_enter sm kn].
      exists o, (boosted cp u). split_and!; [done| |].
      * rewrite Hl. cbn. rewrite Hu. cbn. by rewrite decide_False, decide_True by done.
      * unfold boosted. destruct (Z.ltb_spec (priority u) cp); cbn; lia.
    + destruct (enter_locked_free this cp (sm x) (set_currentThread i (kn x)) t Ht Ho)
        as (k' & Heq & _).
      rewrite Heq in Hstep. injection Hstep as <-. cbn in Hpc'. by rewrite upd_eq in Hpc'.
Qed.

(** Thread 1 is boosted by thread 3 and gets its own priority back. *)
Definition boost_and_leave : list (nat * action) :=
  [(1, AEnter); (1, AContinue); (3, AEnter); (3, AContinue); (1, ALeave); (1, AContinue);
   (1, AContinue)]%nat.

Lemma semaphore_priorities_witness :
  exists x t, run 4096 boost_and_leave x0 = Some x /\ threadList (kn x) !! 1%nat = Some t /\
    priority t = 100.
Proof.
  destruct (run 4096 boost_and_leave x0) as [x|] eqn:Hr; [|vm_compute in Hr; discriminate].
  destruct (threadList (kn x) !! 1%nat) as [t|] eqn:Ht;
    [|vm_compute in Hr; injection Hr as <-; vm_compute in Ht; discriminate].
  exists x, t. split; [reflexivity|]. split; [assumption|].
  refine (proj1 (semaphore_priorities 4096 boost_and_leave x0 x x0_ok Hr _) 1%nat (thr 100 0 6) t
            _ Ht _ _).
  - vm_compute. reflexivity.
  - reflexivity.
  - vm_compute in Hr. injection Hr as <-. reflexivity.
  - vm_compute in Hr. injection Hr as <-. reflexivity.
Defined.

(** With a re-entry after the boost, [enter] stores the boosted priority as the
    priority to restore: thread 1 keeps priority 300 for ever. *)
Lemma reentry_keeps_boost :
  (x ← run 4096 ([(1, AEnter); (1, AContinue); (3, AEnter); (3, AContinue);
                  (1, AEnter); (1, AContinue); (1, ALeave); (1, ALeave); (1, AContinue);
                  (1, AContinue)]%nat) x0;
   t ← threadList (kn x) !! 1%nat; Some (depth x 1%nat, priority t)) = Some (0%nat, 300).
Proof. vm_compute. reflexivity. Qed.

(** After the hand-over the new owner does not inherit the priority of the
    threads that still wait: thread 2 works with priority 200 while thread 3 of
    priority 300 waits for it. *)
Lemma handover_inverts :
  (x ← run 4096 (contended ++ [(1, ALeave); (1, AContinue); (2, AContinue)])%nat x0;
   t2 ← threadList (kn x) !! 2%nat; t3 ← threadList (kn x) !! 3%nat;
   Some (depth x 2%nat, priority t2, waitingFor t3)) = Some (1%nat, 200, Some 4096).
Proof. vm_compute. reflexivity. Qed.

End Semaphore.
