(* ===== verification/SyncFifo.v ===== *)
(** * The synchronous fifo (class SyncFifo in api/fifo.h)

    One thread writes and one reads; the writer blocks while the fifo is full
    and the reader while it is empty.  The methods are split at the places where
    another thread can run: around the sections under the priority ceiling, at
    the suspension inside them and at [yield()].  A single [put] or [get] outside
    of the ceiling is one step, which [Fifo.fifo_async_safe] justifies for one
    writer and one reader.  [putGeneric], the interface of a subscriber, is an
    action of the writer. *)

From S2P Require Import Prelude Fifo TimeEvents Scheduler ThreadOps.

#[local] Open Scope Z_scope.

Module SyncFifo.
Import TimeModel Scheduler ThreadOps.

Section SyncFifo.
Context {T : Type} (len : nat) (sizeofType : nat) (NOW : nat -> Z).

Record syncfifo := mkSync {
  fifo : Fifo.t T;
  suspendedReader : option nat;
  suspendedWriter : option nat
}.

(** The constructor; the array is not initialised. *)
Definition newSyncFifo (b : list T) : syncfifo := mkSync (Fifo.init b) None None.

(** The end of a section under the ceiling, or the suspension inside it, where
    the ceiling is still in force. *)
Inductive outcome (A : Type) := Finished (r : A) | Suspended (previousPriority : Z).
#[global] Arguments Finished {A}.
#[global] Arguments Suspended {A}.

(** The [switch] over the timeout; the result tells whether the caller was
    suspended. *)
Definition suspend_for (timeout : Z) (k : kernel) : option (bool * kernel) :=
  if timeout =? 0 then Some (false, k)
  else if timeout =? END_OF_TIME then
    k ← suspendCaller_begin END_OF_TIME None k; Some (true, k)
  else
    time ← i64 (NOW (clk k) + timeout);
    k ← suspendCaller_begin time None (tick k); Some (true, k).

(** ** The methods *)

(** [syncPut], the first section, up to the suspension. *)
Definition syncPut_locked (val : T) (timeout : Z) (s : syncfifo) (k : kernel)
    : option (outcome bool * syncfifo * kernel) :=
  '(previousPriority, k) ← setPrioCurrentRunner CEILING_PRIORITY k;
  let '(ok, f) := Fifo.put len (fifo s) val in
  let s := mkSync f (suspendedReader s) (suspendedWriter s) in
  if (ok : bool) then
    '(_, k) ← setPrioCurrentRunner previousPriority k; Some (Finished true, s, k)
  else
    let s := mkSync (fifo s) (suspendedReader s) (Some (currentThread k)) in
    '(suspended, k) ← suspend_for timeout k;
    if (suspended : bool) then Some (Suspended previousPriority, s, k)
    else
      let s := mkSync (fifo s) (suspendedReader s) None in
      '(_, k) ← setPrioCurrentRunner previousPriority k; Some (Finished false, s, k).

(** The rest of the section when the writer continues. *)
Definition syncPut_wakeup (previousPriority : Z) (s : syncfifo) (k : kernel)
    : option (syncfifo * kernel) :=
  '(_, k) ← suspendCaller_end (currentThread k) k;
  let s := mkSync (fifo s) (suspendedReader s) None in
  '(_, k) ← setPrioCurrentRunner previousPriority k; Some (s, k).

(** After [yield()]: the second attempt. *)
Definition syncPut_retry (val : T) (timeout : Z) (ok : bool) (s : syncfifo) : bool * syncfifo :=
  if negb ok && (0 <? timeout) then
    let '(ok, f) := Fifo.put len (fifo s) val in
    (ok, mkSync f (suspendedReader s) (suspendedWriter s))
  else (ok, s).

(** [putGeneric] up to its section. *)
Definition putGeneric (msgLen : nat) (msg : T) (s : syncfifo) : bool * syncfifo :=
  if (msgLen <=? sizeofType)%nat then
    let '(ok, f) := Fifo.put len (fifo s) msg in
    (ok, mkSync f (suspendedReader s) (suspendedWriter s))
  else (false, s).

(** [syncGet], in the same way. *)
Definition syncGet_locked (timeout : Z) (s : syncfifo) (k : kernel)
    : option (outcome (option T) * syncfifo * kernel) :=
  '(previousPriority, k) ← setPrioCurrentRunner CEILING_PRIORITY k;
  let '(val, f) := Fifo.get len (fifo s) in
  let s := mkSync f (suspendedReader s) (suspendedWriter s) in
  match val with
  | Some _ =>
      '(_, k) ← setPrioCurrentRunner previousPriority k; Some (Finished val, s, k)
  | None =>
      let s := mkSync (fifo s) (Some (currentThread k)) (suspendedWriter s) in
      '(suspended, k) ← suspend_for timeout k;
      if (suspended : bool) then Some (Suspended previousPriority, s, k)
      else
        let s := mkSync (fifo s) None (suspendedWriter s) in
        '(_, k) ← setPrioCurrentRunner previousPriority k; Some (Finished None, s, k)
  end.
Definition syncGet_wakeup (previousPriority : Z) (s : syncfifo) (k : kernel)
    : option (syncfifo * kernel) :=
  '(_, k) ← suspendCaller_end (currentThread k) k;
  let s := mkSync (fifo s) None (suspendedWriter s) in
  '(_, k) ← setPrioCurrentRunner previousPriority k; Some (s, k).
Definition syncGet_retry (timeout : Z) (val : option T) (s : syncfifo) : option T * syncfifo :=
  match val with
  | Some _ => (val, s)
  | None =>
      if 0 <? timeout then
        let '(val, f) := Fifo.get len (fifo s) in
        (val, mkSync f (suspendedReader s) (suspendedWriter s))
      else (None, s)
  end.

(** ** A writer and a reader *)

(** Where the two threads are in the code. *)
Inductive wpc :=
  | WOut
  | WSuspended (val : T) (timeout previousPriority : Z)
  | WYield (val : T) (timeout : Z) (ok : bool)    (** at [yield()] *)
  | WNotify (val : T).                            (** before the last section *)
Inductive rpc :=
  | ROut
  | RSuspended (timeout previousPriority : Z)
  | RYield (timeout : Z) (val : option T)
  | RNotify (val : T).

(** [puts] and [gets] are the calls that have returned: the value with the
    result of the call, and the value that was read. *)
Record sys := mkSys {
  sf : syncfifo;
  kn : kernel;
  wp : wpc;
  rp : rpc;
  puts : list (T * bool);
  gets : list (option T)
}.

Inductive action :=
  | AWrite (val : T) (timeout : Z)
  | AWriteGeneric (msgLen : nat) (val : T)
  | AWriter
  | ARead (timeout : Z)
  | AReader
  | AResumed (i : nat).

(** Thread [w] is the writer and [r] the reader; anyone may resume a thread. *)
Definition step (w r : nat) (a : action) (x : sys) : option sys :=
  match a, wp x, rp x with
  | AResumed i, _, _ => Some (mkSys (sf x) (resume i (kn x)) (wp x) (rp x) (puts x) (gets x))
  | AWrite v timeout, WOut, _ =>
      k ← runs w (kn x);
      '(o, s, k) ← syncPut_locked v timeout (sf x) k;
      Some (mkSys s k (match o with
                       | Finished ok => WYield v timeout ok
                       | Suspended prev => WSuspended v timeout prev
                       end) (rp x) (puts x) (gets x))
  | AWriteGeneric msgLen v, WOut, _ =>
      k ← runs w (kn x);
      let '(ok, s) := putGeneric msgLen v (sf x) in
      Some (if (ok : bool) then mkSys s k (WNotify v) (rp x) (puts x) (gets x)
            else mkSys s k WOut (rp x) (puts x ++ [(v, false)]) (gets x))
  | AWriter, WSuspended v timeout prev, _ =>
      k ← runs w (kn x);
      '(s, k) ← syncPut_wakeup prev (sf x) k;
      Some (mkSys s k (WYield v timeout false) (rp x) (puts x) (gets x))
  | AWriter, WYield v timeout ok, _ =>
      k ← runs w (kn x);
      let '(ok, s) := syncPut_retry v timeout ok (sf x) in
      Some (if (ok : bool) then mkSys s k (WNotify v) (rp x) (puts x) (gets x)
            else mkSys s k WOut (rp x) (puts x ++ [(v, false)]) (gets x))
  | AWriter, WNotify v, _ =>
      k ← runs w (kn x);
      k ← notify (suspendedReader (sf x)) k;
      Some (mkSys (sf x) k WOut (rp x) (puts x ++ [(v, true)]) (gets x))
  | ARead timeout, _, ROut =>
      k ← runs r (kn x);
      '(o, s, k) ← syncGet_locked timeout (sf x) k;
      Some (mkSys s k (wp x) (match o with
                              | Finished val => RYield timeout val
                              | Suspended prev => RSuspended timeout prev
                              end) (puts x) (gets x))
  | AReader, _, RSuspended timeout prev =>
      k ← runs r (kn x);
      '(s, k) ← syncGet_wakeup prev (sf x) k;
      Some (mkSys s k (wp x) (RYield timeout None) (puts x) (gets x))
  | AReader, _, RYield timeout val =>
      k ← runs r (kn x);
      let '(val, s) := syncGet_retry timeout val (sf x) in
      Some (match val with
            | Some v => mkSys s k (wp x) (RNotify v) (puts x) (gets x)
            | None => mkSys s k (wp x) ROut (puts x) (gets x ++ [None])
            end)
  | AReader, _, RNotify v =>
      k ← runs r (kn x);
      k ← notify (suspendedWriter (sf x)) k;
      Some (mkSys (sf x) k (wp x) ROut (puts x) (gets x ++ [Some v]))
  | _, _, _ => None
  end.

Fixpoint run (w r : nat) (l : list action) (x : sys) : option sys :=
  match l with
  | [] => Some x
  | a :: l => x ← step w r a x; run w r l x
  end.

(** ** What the sections do to the threads *)

Lemma suspend_for_view timeout k q u r :
  vw k (currentThread k) = Some (q, u) -> suspend_for timeout k = Some r ->
  (timeout = 0 /\ r = (false, k)) \/
  (timeout <> 0 /\ exists time k', r = (true, k') /\ currentThread k' = currentThread k /\
     (timeout = END_OF_TIME -> time = END_OF_TIME) /\
     forall j, vw k' j = if decide (j = currentThread k) then Some (q, time) else vw k j).
Proof.
  intros Hv. unfold suspend_for. destruct (Z.eqb_spec timeout 0) as [|Hne]; [intros [= <-]; auto|].
  intros H. right. split; [done|]. destruct (Z.eqb_spec timeout END_OF_TIME) as [|Hend].
  - destruct (suspend_view END_OF_TIME None k q u Hv) as (k' & Hk & Hc & Hl). rewrite Hk in H.
    injection H as <-. by exists END_OF_TIME, k'.
  - destruct (i64 (NOW (clk k) + timeout)) as [time|]; [|done]. cbn [mbind option_bind] in H.
    destruct (suspend_view time None (tick k) q u Hv) as (k' & Hk & Hc & Hl). rewrite Hk in H.
    injection H as <-. by exists time, k'.
Qed.

(** The outcome of the first section of [syncPut] and [syncGet]: [s1] is the
    fifo after a success, [s2] after a failure that does not wait, [s3] with
    the pointer to the waiting caller. *)
Inductive locked {A} (timeout : Z) (res fail : A) (ok : bool) (s1 s2 s3 : syncfifo) (k : kernel) (q : Z)
    : outcome A * syncfifo * kernel -> Prop :=
  | LockedOk k' : ok = true -> (forall j, vw k' j = vw k j) ->
      locked timeout res fail ok s1 s2 s3 k q (Finished res, s1, k')
  | LockedFail k' : ok = false -> timeout = 0 -> (forall j, vw k' j = vw k j) ->
      locked timeout res fail ok s1 s2 s3 k q (Finished fail, s2, k')
  | LockedWait time k' : ok = false -> timeout <> 0 -> (timeout = END_OF_TIME -> time = END_OF_TIME) ->
      (forall j, vw k' j = if decide (j = currentThread k) then Some (CEILING_PRIORITY, time) else vw k j) ->
      locked timeout res fail ok s1 s2 s3 k q (Suspended q, s3, k').

(** The section after the attempt; [k1] is the kernel under the ceiling. *)
Lemma locked_spec {A} timeout (res fail : A) (ok : bool) s1 s2 s3 k k1 q u r :
  vw k (currentThread k) = Some (q, u) -> currentThread k1 = currentThread k ->
  (forall j, vw k1 j = if decide (j = currentThread k) then Some (CEILING_PRIORITY, u) else vw k j) ->
  (if (ok : bool) then '(_, k) ← setPrioCurrentRunner q k1; Some (Finished res, s1, k)
   else
     '(suspended, k) ← suspend_for timeout k1;
     if (suspended : bool) then Some (Suspended q, s3, k)
     else '(_, k) ← setPrioCurrentRunner q k; Some (Finished fail, s2, k)) = Some r ->
  locked timeout res fail ok s1 s2 s3 k q r.
Proof.
  intros Hv Hc1 Hl1. destruct ok.
  - destruct (restore_view k k1 q u u _ Hv Hc1 Hl1) as (k2 & -> & Hl2). intros [= <-].
    apply LockedOk; [done|]. by eapply view_same.
  - destruct (suspend_for timeout k1) as [[b k2]|] eqn:Hs; [|done]. cbn [mbind option_bind].
    assert (vw k1 (currentThread k1) = Some (CEILING_PRIORITY, u)) as Hv1
      by (by rewrite Hl1, Hc1, decide_True).
    destruct (suspend_for_view timeout k1 _ _ _ Hv1 Hs)
      as [(Ht & [= -> ->])|(Ht & time & k' & [= -> ->] & Hc2 & Hend & Hl2)].
    + destruct (restore_view k k1 q u u _ Hv Hc1 Hl1) as (k3 & -> & Hl3). intros [= <-].
      apply LockedFail; [done|done|]. by eapply view_same.
    + intros [= <-]. apply (LockedWait _ _ _ _ _ _ _ _ _ time); [done|done|done|].
      intros j. rewrite Hl2, Hc1. destruct (decide _) as [|]; [done|]. rewrite Hl1.
      by rewrite decide_False.
Qed.

(** The rest of the section after the suspension. *)
Lemma wakeup_spec prev (s' : syncfifo) k q u r :
  vw k (currentThread k) = Some (q, u) ->
  ('(_, k) ← suspendCaller_end (currentThread k) k;
   '(_, k) ← setPrioCurrentRunner prev k; Some (s', k)) = Some r ->
  exists k', r = (s', k') /\
    forall j, vw k' j = if decide (j = currentThread k) then Some (prev, u) else vw k j.
Proof.
  intros Hv. destruct (wakeup_view prev k q u Hv) as (b & k1 & p & k2 & -> & Hp & Hl).
  cbn [mbind option_bind]. rewrite Hp. intros [= <-]. by exists k2.
Qed.

(** ** The invariant *)

(** The value that a running call has already put or taken. *)
Definition in_writer (p : wpc) : list T :=
  match p with WYield v _ true | WNotify v => [v] | _ => [] end.
Definition in_reader (p : rpc) : list T :=
  match p with RYield _ (Some v) | RNotify v => [v] | _ => [] end.
Definition accepted (l : list (T * bool)) : list T :=
  omap (fun c => if (c.2 : bool) then Some c.1 else None) l.
Definition received (l : list (option T)) : list T := omap id l.

Definition wprev (p : wpc) : option Z :=
  match p with WSuspended _ _ prev => Some prev | _ => None end.
Definition rprev (p : rpc) : option Z :=
  match p with RSuspended _ prev => Some prev | _ => None end.

(** The thread [self] with its own priority [base], its pointer in the fifo,
    and the priority saved when it is suspended. *)
Definition thread_ok (v : option (Z * Z)) (base : Z) (ptr : option nat) (self : nat)
    (saved : option Z) : Prop :=
  exists q u, v = Some (q, u) /\
    match saved with
    | Some prev => prev = base /\ ptr = Some self
    | None => q = base /\ u < END_OF_TIME /\ ptr = None
    end.
(** Suspended for ever, unless someone resumes the thread. *)
Definition stuck (v : option (Z * Z)) (saved : option Z) : Prop :=
  saved <> None /\ exists q u, v = Some (q, u) /\ END_OF_TIME <= u.

Definition content (x : sys) : list T := Fifo.content len (fifo (sf x)).

Section Invariant.
Variables (w r : nat) (bw br : Z).
Hypothesis Hwr : w <> r.
Hypothesis Hlen : (2 <= len)%nat.

Record inv (x : sys) : Prop := {
  inv_wf : Fifo.wf len (fifo (sf x));
  inv_flow : accepted (puts x) ++ in_writer (wp x) =
             received (gets x) ++ in_reader (rp x) ++ content x;
  inv_w : thread_ok (vw (kn x) w) bw (suspendedWriter (sf x)) w (wprev (wp x));
  inv_r : thread_ok (vw (kn x) r) br (suspendedReader (sf x)) r (rprev (rp x));
  inv_wake_r : stuck (vw (kn x) r) (rprev (rp x)) -> content x <> [] -> in_writer (wp x) <> [];
  inv_wake_w : stuck (vw (kn x) w) (wprev (wp x)) -> (length (content x) < len - 1)%nat ->
    in_reader (rp x) <> []
}.

Lemma put_cases (f : Fifo.t T) v ok f' :
  Fifo.wf len f -> Fifo.put len f v = (ok, f') ->
  Fifo.wf len f' /\
  ((ok = true /\ Fifo.content len f' = Fifo.content len f ++ [v] /\
     (length (Fifo.content len f) < len - 1)%nat) \/
   (ok = false /\ Fifo.content len f' = Fifo.content len f /\
     length (Fifo.content len f) = (len - 1)%nat)).
Proof.
  intros Hf Hput. pose proof (Fifo.put_spec len f v Hf) as Hs. rewrite Hput in Hs.
  destruct Hs as (Hf' & -> & Hc). split; [done|].
  pose proof (Fifo.isFull_count len f Hf) as Hfull. pose proof (Fifo.elementCount_lt len f Hf).
  rewrite (Fifo.length_content len f Hf).
  destruct (Fifo.isFull len f); [right|left]; (split; [done|]; split; [done|]).
  - symmetry in Hfull. by apply Nat.eqb_eq in Hfull.
  - symmetry in Hfull. apply Nat.eqb_neq in Hfull. lia.
Qed.

Lemma get_cases (f : Fifo.t T) val f' :
  Fifo.wf len f -> Fifo.get len f = (val, f') ->
  Fifo.wf len f' /\
  ((exists v, val = Some v /\ Fifo.content len f = v :: Fifo.content len f') \/
   (val = None /\ Fifo.content len f = [] /\ Fifo.content len f' = [])).
Proof.
  intros Hf Hget. pose proof (Fifo.get_spec len f Hf) as Hs. rewrite Hget in Hs.
  destruct Hs as (Hf' & -> & Hc & _). split; [done|]. rewrite Hc.
  destruct (Fifo.content len f) as [|v l]; [right|left]; [done|]. by exists v.
Qed.

(** A suspended thread that may be woken is not stuck. *)
Lemma not_stuck v q u saved : v = Some (q, u) -> u < END_OF_TIME -> ~ stuck v saved.
Proof. intros -> Hu (_ & q' & u' & [= <- <-] & Hu'). lia. Qed.

(** A step of the writer that leaves the thread of the reader alone. *)
Lemma writer_step x s k' p l :
  inv x -> (forall j, j <> w -> vw k' j = vw (kn x) j) ->
  Fifo.wf len (fifo s) -> suspendedReader s = suspendedReader (sf x) ->
  accepted l ++ in_writer p = received (gets x) ++ in_reader (rp x) ++ Fifo.content len (fifo s) ->
  thread_ok (vw k' w) bw (suspendedWriter s) w (wprev p) ->
  (content x <> [] -> in_writer (wp x) <> [] -> in_writer p <> []) ->
  (content x = [] -> Fifo.content len (fifo s) <> [] -> in_writer p <> []) ->
  (stuck (vw k' w) (wprev p) -> (length (Fifo.content len (fifo s)) < len - 1)%nat ->
    in_reader (rp x) <> []) ->
  inv (mkSys s k' p (rp x) l (gets x)).
Proof.
  intros Hinv Hk Hf Hs Hflow Hw H1 H2 H3. split; cbn; [done|done|done| | |done].
  - rewrite Hs, Hk by done. apply Hinv.
  - rewrite Hk by done. intros Hst Hc.
    destruct (decide (content x = [])) as [He|He]; [by apply H2|].
    apply H1; [done|]. by apply (inv_wake_r _ Hinv).
Qed.

Lemma reader_step x s k' p l :
  inv x -> (forall j, j <> r -> vw k' j = vw (kn x) j) ->
  Fifo.wf len (fifo s) -> suspendedWriter s = suspendedWriter (sf x) ->
  accepted (puts x) ++ in_writer (wp x) = received l ++ in_reader p ++ Fifo.content len (fifo s) ->
  thread_ok (vw k' r) br (suspendedReader s) r (rprev p) ->
  ((length (content x) < len - 1)%nat -> in_reader (rp x) <> [] -> in_reader p <> []) ->
  ((len - 1 <= length (content x))%nat -> (length (Fifo.content len (fifo s)) < len - 1)%nat ->
    in_reader p <> []) ->
  (stuck (vw k' r) (rprev p) -> Fifo.content len (fifo s) <> [] -> in_writer (wp x) <> []) ->
  inv (mkSys s k' (wp x) p (puts x) l).
Proof.
  intros Hinv Hk Hf Hs Hflow Hr H1 H2 H3. split; cbn; [done|done| |done|done|].
  - rewrite Hs, Hk by done. apply Hinv.
  - rewrite Hk by done. intros Hst Hc.
    destruct (decide (length (content x) < len - 1)%nat) as [He|He].
    + apply H1; [done|]. by apply (inv_wake_w _ Hinv).
    + apply H2; [lia|done].
Qed.

(** The flow of the data through a successful put and get. *)
Lemma flow_put x v l :
  accepted l ++ [] = received (gets x) ++ in_reader (rp x) ++ content x ->
  accepted l ++ [v] = received (gets x) ++ in_reader (rp x) ++ content x ++ [v].
Proof. rewrite app_nil_r. intros ->. by rewrite <- !app_assoc. Qed.

Lemma accepted_snoc l v ok :
  accepted (l ++ [(v, ok)]) = accepted l ++ (if (ok : bool) then [v] else []).
Proof. unfold accepted. rewrite omap_app. cbn. by destruct ok. Qed.
Lemma received_snoc l (o : option T) :
  received (l ++ [o]) = received l ++ (match o with Some v => [v] | None => [] end).
Proof. unfold received. rewrite omap_app. cbn. by destruct o. Qed.

(** ** Every step keeps the invariant *)

Lemma write_inv x v timeout x' :
  inv x -> wp x = WOut -> step w r (AWrite v timeout) x = Some x' -> inv x'.
Proof.
  intros Hinv Hp. unfold step. rewrite Hp.
  destruct (runs w (kn x)) as [k|] eqn:Hr; [|done]. cbn [mbind option_bind].
  destruct (runs_spec _ _ _ Hr) as (Hc & Hk & q & u & Hv & Hu).
  pose proof (inv_w _ Hinv) as (q' & u' & Hv' & Hok). rewrite Hv in Hv'. injection Hv' as <- <-.
  pose proof (inv_flow _ Hinv) as Hflow. rewrite Hp in Hflow, Hok.
  destruct Hok as (Hq & _ & Hptr).
  unfold syncPut_locked. rewrite <- Hk, <- Hc in Hv.
  destruct (ceiling_view k q u Hv) as (k1 & -> & Hc1 & Hl1). cbn [mbind option_bind].
  destruct (Fifo.put len (fifo (sf x)) v) as [ok f] eqn:Hput. cbv zeta. rewrite Hc1.
  destruct (put_cases _ _ _ _ (inv_wf _ Hinv) Hput) as (Hf & Hcases).
  match goal with |- ?m ≫= _ = _ -> _ => destruct m as [o|] eqn:Ho; [|done] end.
  apply (locked_spec timeout true false ok) with (u := u) (k := k) in Ho; [|done..].
  cbn [mbind option_bind]. rewrite Hc in *.
  destruct Ho as [k' Hokt Hl|k' Hokf Ht Hl|time k' Hokf Ht Hend Hl]; intros [= <-].
  - destruct Hcases as [(_ & Hcont & Hlt)|(? & _)]; [|congruence].
    apply writer_step; cbn [fifo suspendedReader suspendedWriter in_writer wprev]; try done.
    + intros j _. by rewrite Hl, Hk.
    + rewrite Hcont. apply flow_put. exact Hflow.
    + rewrite Hl, Hv. exists q, u. done.
    + intros (? & _). done.
  - destruct Hcases as [(? & _)|(_ & Hcont & Hlt)]; [congruence|].
    apply writer_step; cbn [fifo suspendedReader suspendedWriter in_writer wprev]; try done.
    + intros j _. by rewrite Hl, Hk.
    + rewrite Hcont. exact Hflow.
    + rewrite Hl, Hv. exists q, u. done.
    + by rewrite Hp.
    + intros He. by rewrite Hcont.
    + intros (? & _). done.
  - destruct Hcases as [(? & _)|(_ & Hcont & Hlt)]; [congruence|].
    rewrite Hc in Hl. destruct (other_view _ _ _ _ _ Hk Hl) as [Hme Hoth].
    apply writer_step; cbn [fifo suspendedReader suspendedWriter in_writer wprev]; try done.
    + rewrite Hcont. exact Hflow.
    + rewrite Hme. exists CEILING_PRIORITY, time. done.
    + by rewrite Hp.
    + intros He. by rewrite Hcont.
    + intros _. rewrite Hcont. lia.
Qed.

(** A [put] outside of the ceiling: the second attempt of [syncPut], and
    [putGeneric]. *)
Lemma attempt_inv x v ok f k :
  inv x -> in_writer (wp x) = [] -> (exists u, vw (kn x) w = Some (bw, u) /\ u < END_OF_TIME) ->
  suspendedWriter (sf x) = None -> (forall j, vw k j = vw (kn x) j) ->
  Fifo.put len (fifo (sf x)) v = (ok, f) ->
  inv (if (ok : bool)
       then mkSys (mkSync f (suspendedReader (sf x)) (suspendedWriter (sf x))) k (WNotify v)
              (rp x) (puts x) (gets x)
       else mkSys (mkSync f (suspendedReader (sf x)) (suspendedWriter (sf x))) k WOut
              (rp x) (puts x ++ [(v, false)]) (gets x)).
Proof.
  intros Hinv Hin (u & Hv & Hu) Hptr Hk Hput. pose proof (inv_flow _ Hinv) as Hflow.
  rewrite Hin in Hflow.
  destruct (put_cases _ _ _ _ (inv_wf _ Hinv) Hput)
    as (Hf & [(-> & Hcont & Hlt)|(-> & Hcont & Hlt)]);
    apply writer_step; cbn [fifo suspendedReader suspendedWriter in_writer wprev]; try done.
  - rewrite Hcont. by apply flow_put.
  - rewrite Hk, Hv. by exists bw, u.
  - intros (? & _). done.
  - rewrite Hcont, accepted_snoc, app_nil_r. exact Hflow.
  - rewrite Hk, Hv. by exists bw, u.
  - intros He. by rewrite Hcont.
  - intros (? & _). done.
Qed.

(** The writer leaves a call whose data are settled. *)
Lemma leave_inv x k s p l :
  inv x -> (exists u, vw k w = Some (bw, u) /\ u < END_OF_TIME) ->
  (forall j, j <> w -> vw k j = vw (kn x) j) ->
  s = mkSync (fifo (sf x)) (suspendedReader (sf x)) None -> wprev p = None ->
  accepted l ++ in_writer p = accepted (puts x) ++ in_writer (wp x) ->
  (in_writer (wp x) <> [] -> in_writer p <> []) ->
  inv (mkSys s k p (rp x) l (gets x)).
Proof.
  intros Hinv (u & Hv & Hu) Hk -> Hp Hl Hin.
  apply writer_step; [done|done|apply Hinv|done| | |by auto| |].
  - rewrite Hl. apply Hinv.
  - rewrite Hv, Hp. by exists bw, u.
  - intros He. by rewrite <- He.
  - intros (? & _). congruence.
Qed.

Lemma notify_reader_inv x v k k' :
  inv x -> wp x = WNotify v -> runs w (kn x) = Some k ->
  notify (suspendedReader (sf x)) k = Some k' ->
  inv (mkSys (sf x) k' WOut (rp x) (puts x ++ [(v, true)]) (gets x)).
Proof.
  intros Hinv Hp Hr Hn. destruct (runs_spec _ _ _ Hr) as (Hc & Hk & q & u & Hv & Hu).
  pose proof (inv_w _ Hinv) as (q' & u' & Hv' & Hok). rewrite Hv in Hv'. injection Hv' as <- <-.
  rewrite Hp in Hok. destruct Hok as (-> & _ & Hptr).
  pose proof (inv_r _ Hinv) as (q' & u' & Hv' & Hokr).
  assert (suspendedReader (sf x) = match rprev (rp x) with Some _ => Some r | None => None end) as Hsr.
  { destruct (rprev (rp x)); tauto. }
  assert (Hl : forall j, vw k' j = if decide (suspendedReader (sf x) = Some j)
                  then (fun v => (v.1, 0)) <$> vw (kn x) j else vw (kn x) j).
  { intros j. rewrite <- Hk. apply (notify_view _ k bw u k'); [by rewrite Hc, Hk| |done].
    rewrite Hsr, Hc. destruct (rprev (rp x)); congruence. }
  assert (vw k' w = Some (bw, u)) as Hw'.
  { rewrite Hl, decide_False; [done|]. rewrite Hsr. destruct (rprev (rp x)); congruence. }
  assert (exists u'', vw k' r = Some (q', u'') /\ u'' < END_OF_TIME) as (u'' & Hr' & Hu'').
  { rewrite Hl, Hsr, Hv'. destruct (rprev (rp x)).
    - exists 0. by rewrite decide_True.
    - exists u'. rewrite decide_False by done. tauto. }
  split; cbn.
  - apply Hinv.
  - rewrite accepted_snoc, app_nil_r. pose proof (inv_flow _ Hinv) as Hflow.
    rewrite Hp in Hflow. exact Hflow.
  - rewrite Hw'. by exists bw, u.
  - rewrite Hr'. exists q', u''. split; [done|].
    destruct (rprev (rp x)); [tauto|]. tauto.
  - intros Hst. by apply (not_stuck _ _ _ _ Hr') in Hst.
  - intros (? & _). done.
Qed.

Lemma writer_inv x x' : inv x -> step w r AWriter x = Some x' -> inv x'.
Proof.
  intros Hinv. unfold step. destruct (wp x) as [|v timeout prev|v timeout ok|v] eqn:Hp; [done|..];
    (destruct (runs w (kn x)) as [k|] eqn:Hr; [|done]); cbn [mbind option_bind];
    destruct (runs_spec _ _ _ Hr) as (Hc & Hk & q & u & Hv & Hu);
    pose proof (inv_w _ Hinv) as (q' & u' & Hv' & Hok); rewrite Hv in Hv'; injection Hv' as <- <-;
    rewrite Hp in Hok; cbn [wprev] in Hok.
  - destruct Hok as (-> & Hptr). unfold syncPut_wakeup. cbv zeta.
    match goal with |- ?m ≫= _ = _ -> _ => destruct m as [o|] eqn:Ho; [|done] end.
    apply (wakeup_spec _ _ k q u) in Ho; [|by rewrite Hc, Hk]. destruct Ho as (k' & -> & Hl).
    rewrite Hc in Hl. destruct (other_view _ _ _ _ _ Hk Hl) as [Hme Hoth]. intros [= <-].
    apply leave_inv; try done; [by exists u|by rewrite Hp|by rewrite Hp].
  - destruct Hok as (-> & _ & Hptr). unfold syncPut_retry.
    destruct ok; cbn [negb andb]; [|destruct (0 <? timeout)].
    + intros [= <-]. assert (sf x = mkSync (fifo (sf x)) (suspendedReader (sf x)) None) as Hsf
        by (destruct (sf x); cbn in *; congruence).
      apply leave_inv; try done; [exists u; by rewrite Hk|by rewrite Hp].
    + destruct (Fifo.put len (fifo (sf x)) v) as [ok f] eqn:Hput. intros [= <-].
      apply attempt_inv; [done|by rewrite Hp|by exists u|done..].
    + intros [= <-]. assert (sf x = mkSync (fifo (sf x)) (suspendedReader (sf x)) None) as Hsf
        by (destruct (sf x); cbn in *; congruence).
      apply leave_inv; try done; [exists u; by rewrite Hk| |by rewrite Hp].
      by rewrite accepted_snoc, Hp, !app_nil_r.
  - destruct (notify (suspendedReader (sf x)) k) as [k'|] eqn:Hn; [|done]. cbn. intros [= <-].
    by apply (notify_reader_inv x v k).
Qed.

Lemma generic_inv x n v x' :
  inv x -> wp x = WOut -> step w r (AWriteGeneric n v) x = Some x' -> inv x'.
Proof.
  intros Hinv Hp. unfold step. rewrite Hp. destruct (runs w (kn x)) as [k|] eqn:Hr; [|done].
  cbn [mbind option_bind]. destruct (runs_spec _ _ _ Hr) as (Hc & Hk & q & u & Hv & Hu).
  pose proof (inv_w _ Hinv) as (q' & u' & Hv' & Hok). rewrite Hv in Hv'. injection Hv' as <- <-.
  rewrite Hp in Hok. destruct Hok as (-> & _ & Hptr). unfold putGeneric.
  destruct (n <=? sizeofType)%nat.
  - destruct (Fifo.put len (fifo (sf x)) v) as [ok f] eqn:Hput. intros [= <-].
    apply attempt_inv; [done|by rewrite Hp|by exists u|done..].
  - intros [= <-]. assert (sf x = mkSync (fifo (sf x)) (suspendedReader (sf x)) None) as Hsf
      by (destruct (sf x); cbn in *; congruence).
    apply leave_inv; try done; [exists u; by rewrite Hk| |by rewrite Hp].
    by rewrite accepted_snoc, Hp, !app_nil_r.
Qed.

(** The reader. *)
Lemma read_inv x timeout x' :
  inv x -> rp x = ROut -> step w r (ARead timeout) x = Some x' -> inv x'.
Proof.
  intros Hinv Hp. unfold step. rewrite Hp.
  destruct (runs r (kn x)) as [k|] eqn:Hr; [|done]. cbn [mbind option_bind].
  destruct (runs_spec _ _ _ Hr) as (Hc & Hk & q & u & Hv & Hu).
  pose proof (inv_r _ Hinv) as (q' & u' & Hv' & Hok). rewrite Hv in Hv'. injection Hv' as <- <-.
  pose proof (inv_flow _ Hinv) as Hflow. rewrite Hp in Hflow, Hok. cbn [in_reader] in Hflow.
  destruct Hok as (Hq & _ & Hptr).
  unfold syncGet_locked. rewrite <- Hk, <- Hc in Hv.
  destruct (ceiling_view k q u Hv) as (k1 & -> & Hc1 & Hl1). cbn [mbind option_bind].
  destruct (Fifo.get len (fifo (sf x))) as [val f] eqn:Hget. cbv zeta. rewrite Hc1.
  destruct (get_cases _ _ _ (inv_wf _ Hinv) Hget) as (Hf & Hcases).
  match goal with |- ?m ≫= _ = _ -> _ => destruct m as [o|] eqn:Ho; [|done] end.
  set (ok := match val with Some _ => true | None => false end).
  assert (locked timeout val None ok (mkSync f (suspendedReader (sf x)) (suspendedWriter (sf x)))
    (mkSync f None (suspendedWriter (sf x))) (mkSync f (Some (currentThread k)) (suspendedWriter (sf x)))
    k q o) as Hlock.
  { apply (locked_spec _ _ _ _ _ _ _ _ k1 _ u); [done|done|done|]. by destruct val. }
  clear Ho. cbn [mbind option_bind]. rewrite Hc in *.
  destruct Hlock as [k' Hokt Hl|k' Hokf Ht Hl|time k' Hokf Ht Hend Hl]; intros [= <-].
  - destruct Hcases as [(v & -> & Hcont)|(-> & _)]; [|done].
    apply reader_step; cbn [fifo suspendedReader suspendedWriter in_reader rprev]; try done.
    + intros j _. by rewrite Hl, Hk.
    + unfold content in Hflow. rewrite Hflow, Hcont. done.
    + rewrite Hl, Hv. exists q, u. done.
    + intros (? & _). done.
  - destruct Hcases as [(v & -> & _)|(-> & Hcont & Hcont')]; [done|].
    apply reader_step; cbn [fifo suspendedReader suspendedWriter in_reader rprev]; try done.
    + intros j _. by rewrite Hl, Hk.
    + unfold content in Hflow. rewrite Hflow, Hcont, Hcont'. done.
    + rewrite Hl, Hv. exists q, u. done.
    + by rewrite Hp.
    + unfold content. rewrite Hcont. cbn. lia.
  - destruct Hcases as [(v & -> & _)|(-> & Hcont & Hcont')]; [done|].
    rewrite Hc in Hl. destruct (other_view _ _ _ _ _ Hk Hl) as [Hme Hoth].
    apply reader_step; cbn [fifo suspendedReader suspendedWriter in_reader rprev]; try done.
    + unfold content in Hflow. rewrite Hflow, Hcont, Hcont'. done.
    + rewrite Hme. exists CEILING_PRIORITY, time. done.
    + by rewrite Hp.
    + unfold content. rewrite Hcont. cbn. lia.
Qed.

Lemma leave_reader_inv x k s p l :
  inv x -> (exists u, vw k r = Some (br, u) /\ u < END_OF_TIME) ->
  (forall j, j <> r -> vw k j = vw (kn x) j) ->
  s = mkSync (fifo (sf x)) None (suspendedWriter (sf x)) -> rprev p = None ->
  received l ++ in_reader p = received (gets x) ++ in_reader (rp x) ->
  (in_reader (rp x) <> [] -> in_reader p <> []) ->
  inv (mkSys s k (wp x) p (puts x) l).
Proof.
  intros Hinv (u & Hv & Hu) Hk -> Hp Hl Hin.
  apply reader_step; [done|done|apply Hinv|done| | |by auto| |].
  - rewrite app_assoc, Hl, <- app_assoc. apply Hinv.
  - rewrite Hv, Hp. by exists br, u.
  - intros He. unfold content in He. cbn [fifo]. lia.
  - intros (? & _). congruence.
Qed.

Lemma notify_writer_inv x v k k' :
  inv x -> rp x = RNotify v -> runs r (kn x) = Some k ->
  notify (suspendedWriter (sf x)) k = Some k' ->
  inv (mkSys (sf x) k' (wp x) ROut (puts x) (gets x ++ [Some v])).
Proof.
  intros Hinv Hp Hr Hn. destruct (runs_spec _ _ _ Hr) as (Hc & Hk & q & u & Hv & Hu).
  pose proof (inv_r _ Hinv) as (q' & u' & Hv' & Hok). rewrite Hv in Hv'. injection Hv' as <- <-.
  rewrite Hp in Hok. destruct Hok as (-> & _ & Hptr).
  pose proof (inv_w _ Hinv) as (q' & u' & Hv' & Hokw).
  assert (suspendedWriter (sf x) = match wprev (wp x) with Some _ => Some w | None => None end) as Hsw.
  { destruct (wprev (wp x)); tauto. }
  assert (Hl : forall j, vw k' j = if decide (suspendedWriter (sf x) = Some j)
                  then (fun v => (v.1, 0)) <$> vw (kn x) j else vw (kn x) j).
  { intros j. rewrite <- Hk. apply (notify_view _ k br u k'); [by rewrite Hc, Hk| |done].
    rewrite Hsw, Hc. destruct (wprev (wp x)); congruence. }
  assert (vw k' r = Some (br, u)) as Hr'.
  { rewrite Hl, decide_False; [done|]. rewrite Hsw. destruct (wprev (wp x)); congruence. }
  assert (exists u'', vw k' w = Some (q', u'') /\ u'' < END_OF_TIME) as (u'' & Hw' & Hu'').
  { rewrite Hl, Hsw, Hv'. destruct (wprev (wp x)).
    - exists 0. by rewrite decide_True.
    - exists u'. rewrite decide_False by done. tauto. }
  split; cbn [sf kn wp rp puts gets in_reader rprev].
  - apply Hinv.
  - rewrite received_snoc. pose proof (inv_flow _ Hinv) as Hflow.
    rewrite Hp in Hflow. rewrite Hflow. by rewrite <- app_assoc.
  - rewrite Hw'. exists q', u''. split; [done|].
    destruct (wprev (wp x)); [tauto|]. tauto.
  - rewrite Hr'. by exists br, u.
  - intros (? & _). done.
  - intros Hst. by apply (not_stuck _ _ _ _ Hw') in Hst.
Qed.

Lemma reader_inv x x' : inv x -> step w r AReader x = Some x' -> inv x'.
Proof.
  intros Hinv. unfold step.
  destruct (rp x) as [|timeout prev|timeout val|v] eqn:Hp; [by destruct (wp x)|..];
    (destruct (runs r (kn x)) as [k|] eqn:Hr; [|by destruct (wp x)]); cbn [mbind option_bind];
    destruct (runs_spec _ _ _ Hr) as (Hc & Hk & q & u & Hv & Hu);
    pose proof (inv_r _ Hinv) as (q' & u' & Hv' & Hok); rewrite Hv in Hv'; injection Hv' as <- <-;
    rewrite Hp in Hok; cbn [rprev] in Hok.
  - destruct Hok as (-> & Hptr). unfold syncGet_wakeup. cbv zeta.
    match goal with |- ?m ≫= _ = _ -> _ => destruct m as [o|] eqn:Ho; [|done] end.
    apply (wakeup_spec _ _ k q u) in Ho; [|by rewrite Hc, Hk]. destruct Ho as (k' & -> & Hl).
    rewrite Hc in Hl. destruct (other_view _ _ _ _ _ Hk Hl) as [Hme Hoth]. intros [= <-].
    apply leave_reader_inv; try done; [by exists u|by rewrite Hp|by rewrite Hp].
  - destruct Hok as (-> & _ & Hptr).
    assert (sf x = mkSync (fifo (sf x)) None (suspendedWriter (sf x))) as Hsf
      by (destruct (sf x); cbn in *; congruence).
    unfold syncGet_retry. destruct val as [v|]; [|destruct (0 <? timeout)].
    + intros [= <-].
      apply leave_reader_inv; try done; [exists u; by rewrite Hk|by rewrite Hp].
    + destruct (Fifo.get len (fifo (sf x))) as [val f] eqn:Hget.
      pose proof (inv_flow _ Hinv) as Hflow. rewrite Hp in Hflow. cbn [in_reader] in Hflow.
      unfold content in Hflow.
      destruct (get_cases _ _ _ (inv_wf _ Hinv) Hget)
        as (Hf & [(v & -> & Hcont)|(-> & Hcont & Hcont')]); intros [= <-];
        (apply reader_step; cbn [fifo suspendedReader suspendedWriter in_reader rprev];
          [done|by intros j _; apply Hk|done|done| | | | |]).
      * by rewrite Hflow, Hcont.
      * rewrite Hk, Hv. by exists br, u.
      * done.
      * done.
      * intros (? & _). done.
      * by rewrite Hflow, received_snoc, Hcont, Hcont', !app_nil_r.
      * rewrite Hk, Hv. by exists br, u.
      * by rewrite Hp.
      * unfold content. rewrite Hcont. cbn. lia.
      * intros (? & _). done.
    + intros [= <-].
      apply leave_reader_inv; try done; [exists u; by rewrite Hk| |by rewrite Hp].
      by rewrite received_snoc, Hp, !app_nil_r.
  - destruct (notify (suspendedWriter (sf x)) k) as [k'|] eqn:Hn; [|by destruct (wp x)].
    cbn. intros [= <-]. by apply (notify_writer_inv x v k).
Qed.

Lemma syncfifo_resumed_inv x i :
  inv x -> inv (mkSys (sf x) (resume i (kn x)) (wp x) (rp x) (puts x) (gets x)).
Proof.
  intros Hinv.
  assert (Hl : forall j, vw (resume i (kn x)) j =
    (fun v => if decide (j = i) then (v.1, 0) else v) <$> vw (kn x) j).
  { intros j. rewrite (vw_to _ _ _ (fun j v => if decide (j = i) then (v.1, 0) else v)
      (resume_to i (kn x))); [done|]. intros j' t. by destruct (decide (j' = i)). }
  assert (Hok : forall j base ptr saved, thread_ok (vw (kn x) j) base ptr j saved ->
    thread_ok (vw (resume i (kn x)) j) base ptr j saved).
  { intros j base ptr saved (q & u & Hv & Hs). rewrite Hl, Hv. cbn.
    destruct (decide (j = i)); [|by exists q, u]. exists q, 0. split; [done|].
    by destruct saved; [|destruct Hs as (-> & _ & ->)]. }
  assert (Hst : forall j saved, stuck (vw (resume i (kn x)) j) saved -> stuck (vw (kn x) j) saved).
  { intros j saved (Hs & q & u & Hv & Hu). split; [done|]. rewrite Hl in Hv.
    destruct (vw (kn x) j) as [[q' u']|]; [|done]. cbn in Hv.
    destruct (decide (j = i)); injection Hv as <- <-; [unfold END_OF_TIME in Hu; lia|].
    by exists q', u'. }
  destruct Hinv as [H1 H2 H3 H4 H5 H6]. split; cbn; [done|done|by apply Hok|by apply Hok| |].
  - intros Hs. apply H5. by apply Hst.
  - intros Hs. apply H6. by apply Hst.
Qed.

Lemma syncfifo_step_inv a x x' : inv x -> step w r a x = Some x' -> inv x'.
Proof.
  intros Hinv Hs. destruct a as [v timeout|n v| |timeout| |i].
  - destruct (wp x) eqn:Hp; [by apply (write_inv x v timeout)|..];
      unfold step in Hs; rewrite Hp in Hs; done.
  - destruct (wp x) eqn:Hp; [by apply (generic_inv x n v)|..];
      unfold step in Hs; rewrite Hp in Hs; done.
  - by apply (writer_inv x).
  - destruct (rp x) eqn:Hp; [by apply (read_inv x timeout)|..];
      unfold step in Hs; rewrite Hp in Hs; destruct (wp x); done.
  - by apply (reader_inv x).
  - unfold step in Hs. injection Hs as <-. by apply syncfifo_resumed_inv.
Qed.

Lemma syncfifo_run_inv l : forall x x', inv x -> run w r l x = Some x' -> inv x'.
Proof.
  induction l as [|a l IH]; intros x x' Hinv; cbn [run]; [by intros [= <-]|].
  destruct (step w r a x) as [x1|] eqn:Hs; [|done]. cbn. apply IH. by eapply syncfifo_step_inv.
Qed.

(** ** A thread that has put or taken a value resumes the other one *)

Lemma saved_pointer v base ptr self saved :
  thread_ok v base ptr self saved -> ptr = match saved with Some _ => Some self | None => None end.
Proof. intros (q & u & _ & H). destruct saved; tauto. Qed.

Lemma writer_resumes x v :
  inv x -> wp x = WNotify v ->
  exists x', step w r AWriter x = Some x' /\ ~ stuck (vw (kn x') r) (rprev (rp x')).
Proof.
  intros Hinv Hp. pose proof (inv_w _ Hinv) as (q & u & Hv & Hok). rewrite Hp in Hok.
  destruct Hok as (-> & Hu & _). unfold step. rewrite Hp.
  destruct (runs_ok w (kn x) bw u Hv Hu) as (k & -> & Hc & Hk). cbn [mbind option_bind].
  pose proof (saved_pointer _ _ _ _ _ (inv_r _ Hinv)) as Hsr.
  destruct (notify_ok (suspendedReader (sf x)) k bw u) as (k' & -> & Hl).
  { by rewrite Hc, Hk. }
  { rewrite Hsr, Hc. destruct (rprev (rp x)); congruence. }
  eexists. split; [done|]. cbn. intros (Hs & q' & u' & Hv' & Hu').
  destruct (rprev (rp x)); [|done]. rewrite Hl, Hsr, decide_True in Hv' by done.
  destruct (vw k r); [|done]. injection Hv' as <- <-. unfold END_OF_TIME in Hu'. lia.
Qed.

Lemma reader_resumes x v :
  inv x -> rp x = RNotify v ->
  exists x', step w r AReader x = Some x' /\ ~ stuck (vw (kn x') w) (wprev (wp x')).
Proof.
  intros Hinv Hp. pose proof (inv_r _ Hinv) as (q & u & Hv & Hok). rewrite Hp in Hok.
  destruct Hok as (-> & Hu & _). unfold step. rewrite Hp.
  destruct (runs_ok r (kn x) br u Hv Hu) as (k & -> & Hc & Hk). cbn [mbind option_bind].
  pose proof (saved_pointer _ _ _ _ _ (inv_w _ Hinv)) as Hsw.
  destruct (notify_ok (suspendedWriter (sf x)) k br u) as (k' & -> & Hl).
  { by rewrite Hc, Hk. }
  { rewrite Hsw, Hc. destruct (wprev (wp x)); congruence. }
  eexists. split; [done|]. cbn. intros (Hs & q' & u' & Hv' & Hu').
  destruct (wprev (wp x)); [|done]. rewrite Hl, Hsw, decide_True in Hv' by done.
  destruct (vw k w); [|done]. injection Hv' as <- <-. unfold END_OF_TIME in Hu'. lia.
Qed.

Lemma writer_wakes_reader x :
  inv x -> in_writer (wp x) <> [] ->
  exists n x', (n <= 2)%nat /\ run w r (repeat AWriter n) x = Some x' /\
    ~ stuck (vw (kn x') r) (rprev (rp x')).
Proof.
  intros Hinv Hin. destruct (wp x) as [| |v timeout ok|v] eqn:Hp; [done|done| |].
  - destruct ok; [|done].
    assert (exists x1, step w r AWriter x = Some x1 /\ wp x1 = WNotify v) as (x1 & Hs & Hp1).
    { pose proof (inv_w _ Hinv) as (q & u & Hv & Hok). rewrite Hp in Hok.
      destruct Hok as (-> & Hu & _). unfold step. rewrite Hp.
      destruct (runs_ok w (kn x) bw u Hv Hu) as (k & -> & _). cbn. by eexists. }
    destruct (writer_resumes x1 v (syncfifo_step_inv _ _ _ Hinv Hs) Hp1) as (x2 & Hs2 & Hst).
    exists 2%nat, x2. split; [lia|]. cbn [repeat run]. rewrite Hs. cbn [mbind option_bind].
    by rewrite Hs2.
  - destruct (writer_resumes x v Hinv Hp) as (x1 & Hs & Hst).
    exists 1%nat, x1. split; [lia|]. cbn [repeat run]. by rewrite Hs.
Qed.

Lemma reader_wakes_writer x :
  inv x -> in_reader (rp x) <> [] ->
  exists n x', (n <= 2)%nat /\ run w r (repeat AReader n) x = Some x' /\
    ~ stuck (vw (kn x') w) (wprev (wp x')).
Proof.
  intros Hinv Hin. destruct (rp x) as [| |timeout [v|]|v] eqn:Hp; try done.
  - assert (exists x1, step w r AReader x = Some x1 /\ rp x1 = RNotify v) as (x1 & Hs & Hp1).
    { pose proof (inv_r _ Hinv) as (q & u & Hv & Hok). rewrite Hp in Hok.
      destruct Hok as (-> & Hu & _). unfold step. rewrite Hp.
      destruct (runs_ok r (kn x) br u Hv Hu) as (k & -> & _). cbn. by eexists. }
    destruct (reader_resumes x1 v (syncfifo_step_inv _ _ _ Hinv Hs) Hp1) as (x2 & Hs2 & Hst).
    exists 2%nat, x2. split; [lia|]. cbn [repeat run]. rewrite Hs. cbn [mbind option_bind].
    by rewrite Hs2.
  - destruct (reader_resumes x v Hinv Hp) as (x1 & Hs & Hst).
    exists 1%nat, x1. split; [lia|]. cbn [repeat run]. by rewrite Hs.
Qed.

End Invariant.

(** ** Properties *)

(** A new fifo; writer and reader are in their own code. *)
Record start (w r : nat) (bw br : Z) (x : sys) : Prop := {
  st_buffer : exists b, length b = len /\ sf x = newSyncFifo b;
  st_pcs : wp x = WOut /\ rp x = ROut;
  st_calls : puts x = [] /\ gets x = [];
  st_w : exists u, vw (kn x) w = Some (bw, u) /\ u < END_OF_TIME;
  st_r : exists u, vw (kn x) r = Some (br, u) /\ u < END_OF_TIME
}.

Lemma syncfifo_start_inv w r bw br x : (2 <= len)%nat -> start w r bw br x -> inv w r bw br x.
Proof.
  intros Hlen [(b & Hb & Hs) [Hw Hr] [Hp Hg] (u & Hvw & Hu) (u' & Hvr & Hu')].
  assert (content x = []) as Hc by (unfold content; by rewrite Hs).
  split; rewrite ?Hc, ?Hw, ?Hr, ?Hp, ?Hg, ?Hs; try done.
  - split; cbn; lia.
  - by exists bw, u.
  - by exists br, u'.
  - intros (? & _). done.
Qed.

(** C23: However one writer and one reader interleave, with any timeouts and even
    if they are resumed by someone else: the values whose call of [syncPut] or
    [putGeneric] succeeded, with the one that a running call has put, are in
    this order the values that [syncGet] returned, the one that a running call
    has taken, and those in the fifo.  No wake-up is lost: when the reader is
    suspended for ever although the fifo is not empty, or the writer although it
    is not full, the other thread is about to resume it and does so with its
    next two steps; they are never both suspended for ever.  Outside of
    [syncPut] and [syncGet] the threads have their own priorities. *)
Theorem syncfifo_delivers (w r : nat) (bw br : Z) (l : list action) (x0 x : sys) :
  w <> r -> (2 <= len)%nat -> start w r bw br x0 -> run w r l x0 = Some x ->
  accepted (puts x) ++ in_writer (wp x) = received (gets x) ++ in_reader (rp x) ++ content x /\
  (stuck (vw (kn x) r) (rprev (rp x)) -> content x <> [] ->
     exists n x', (n <= 2)%nat /\ run w r (repeat AWriter n) x = Some x' /\
       ~ stuck (vw (kn x') r) (rprev (rp x'))) /\
  (stuck (vw (kn x) w) (wprev (wp x)) -> (length (content x) < len - 1)%nat ->
     exists n x', (n <= 2)%nat /\ run w r (repeat AReader n) x = Some x' /\
       ~ stuck (vw (kn x') w) (wprev (wp x'))) /\
  ~ (stuck (vw (kn x) w) (wprev (wp x)) /\ stuck (vw (kn x) r) (rprev (rp x))) /\
  (wp x = WOut -> exists u, vw (kn x) w = Some (bw, u)) /\
  (rp x = ROut -> exists u, vw (kn x) r = Some (br, u)).
Proof.
  intros Hwr Hlen Hstart Hrun.
  pose proof (syncfifo_run_inv w r bw br Hwr Hlen l _ _ (syncfifo_start_inv _ _ _ _ _ Hlen Hstart) Hrun) as Hinv.
  split_and!.
  - apply Hinv.
  - intros Hs Hc. apply (writer_wakes_reader w r bw br Hwr Hlen x Hinv).
    by apply (inv_wake_r _ _ _ _ _ Hinv).
  - intros Hs Hc. apply (reader_wakes_writer w r bw br Hwr Hlen x Hinv).
    by apply (inv_wake_w _ _ _ _ _ Hinv).
  - intros [Hw Hr]. destruct (decide (content x = [])) as [Hc|Hc].
    + pose proof (inv_wake_w _ _ _ _ _ Hinv Hw) as Hin. rewrite Hc in Hin.
      apply Hin; [cbn; lia|]. destruct Hr as [Hr _]. by destruct (rp x) as [| |? []|].
    + pose proof (inv_wake_r _ _ _ _ _ Hinv Hr Hc) as Hin.
      apply Hin. destruct Hw as [Hw _]. by destruct (wp x) as [| |? ? []|].
  - intros Hp. destruct (inv_w _ _ _ _ _ Hinv) as (q & u & Hv & Hok). rewrite Hp in Hok.
    destruct Hok as (-> & _). by exists u.
  - intros Hp. destruct (inv_r _ _ _ _ _ Hinv) as (q & u & Hv & Hok). rewrite Hp in Hok.
    destruct Hok as (-> & _). by exists u.
Qed.

End SyncFifo.

(** A fifo for two values, the idle thread, a writer and a reader. *)
Definition sampleKernel : kernel :=
  mkKernel [thr 0 0 4; thr 100 0 6; thr 200 0 1] 0 1 None END_OF_TIME 8 0 false true 0 true 0.
Definition sample (n : nat) : sys :=
  mkSys (newSyncFifo (repeat 0 n)) sampleKernel WOut ROut [] [].

Lemma syncfifo_sample_start n : start (T := Z) n 1 2 100 200 (sample n).
Proof.
  split; try done.
  - exists (repeat 0 n). by rewrite repeat_length.
  - by exists 0.
  - by exists 0.
Qed.

(** The reader waits, the writer puts a value and has not yet resumed it. *)
Lemma syncfifo_delivers_witness :
  exists x, run 3 8 (fun _ => 1000) 1 2 [ARead END_OF_TIME; AWrite 7 0] (sample 3) = Some x /\
    exists n x', (n <= 2)%nat /\
      run 3 8 (fun _ => 1000) 1 2 (repeat AWriter n) x = Some x' /\
      ~ stuck (vw (kn x') 2) (rprev (rp x')).
Proof.
  eexists. split; [vm_compute; reflexivity|].
  refine (proj1 (proj2 (syncfifo_delivers 3 8 (fun _ => 1000) 1 2 100 200
    [ARead END_OF_TIME; AWrite 7 0] (sample 3) _ _ _
    (syncfifo_sample_start 3) _)) _ _).
  - done.
  - lia.
  - vm_compute. reflexivity.
  - split; [discriminate|]. eexists _, _. split; [vm_compute; reflexivity|]. vm_compute. discriminate.
  - vm_compute. discriminate.
Defined.

(** A call without a time limit can fail: the reader takes a value, the writer
    fills the fifo again and waits, and only then the reader comes to resume
    [suspendedWriter], which it does not expect to wait for a later free
    place.  The writer finds the fifo full and returns [false].  Likewise
    [syncGet] returns without a value when the writer is late. *)
Lemma syncPut_gives_up :
  exists x, run 2 8 (fun _ => 1000) 1 2
    [AWrite 1 END_OF_TIME; AWriter; AWriter; ARead END_OF_TIME;
     AWrite 2 END_OF_TIME; AWriter; AWriter; AWrite 3 END_OF_TIME;
     AReader; AReader; AWriter; AWriter] (sample 2) = Some x /\
    puts x = [(1, true); (2, true); (3, false)] /\ gets x = [Some 1] /\ content 2 x = [2].
Proof. eexists. split; [vm_compute; reflexivity|]. by vm_compute. Qed.

Lemma syncGet_gives_up :
  exists x, run 2 8 (fun _ => 1000) 1 2
    [AWrite 1 END_OF_TIME; ARead END_OF_TIME; AReader; AReader; ARead END_OF_TIME;
     AWriter; AWriter; AReader; AReader] (sample 2) = Some x /\
    puts x = [(1, true)] /\ gets x = [Some 1; None].
Proof. eexists. split; [vm_compute; reflexivity|]. by vm_compute. Qed.

End SyncFifo.
