(* ===== verification/Barrier.v ===== *)
(** * The barrier (src/independent/barrier.cpp)

    One thread waits for a signal of others, with a time limit.  The methods are
    split where another thread can run: around the sections under the priority
    ceiling and at the suspension inside [waitForSignal].  The test and the last
    assignment of [owner] in [waitForSignal] lie outside of the ceiling. *)

From S2P Require Import Prelude TimeEvents Scheduler ThreadOps.

#[local] Open Scope Z_scope.

Module Barrier.
Import TimeModel Scheduler ThreadOps.

(** The state of a barrier is [owner], the waiting thread. *)
Definition newBarrier : option nat := None.

Section barrier.
Variable this : Z.   (** the address of the barrier *)

(** ** The methods *)

(** [waitForSignal]: the test before the ceiling. *)
Definition wait_begin (owner : option nat) : bool :=
  match owner with Some _ => false | None => true end.

(** The section up to the suspension: [Some previousPriority] when the caller
    is suspended under the ceiling, [None] when the condition does not hold. *)
Definition wait_locked (condition : bool) (timeOutAt : Z) (owner : option nat) (k : kernel)
    : option (option Z * option nat * kernel) :=
  '(previousPriority, k) ← setPrioCurrentRunner CEILING_PRIORITY k;
  if condition then
    let owner := Some (currentThread k) in
    k ← suspendCaller_begin timeOutAt (Some this) k;
    Some (Some previousPriority, owner, k)
  else
    '(_, k) ← setPrioCurrentRunner previousPriority k; Some (None, owner, k).

(** The section after the suspension, with the value of [ok]. *)
Definition wait_wakeup (previousPriority : Z) (owner : option nat) (k : kernel)
    : option (bool * kernel) :=
  '(_, k) ← suspendCaller_end (currentThread k) k;
  let ok := match owner with None => true | Some _ => false end in
  '(_, k) ← setPrioCurrentRunner previousPriority k; Some (ok, k).

(** [unblock]: the test and the section. *)
Definition unblock_begin (owner : option nat) : bool :=
  match owner with Some _ => true | None => false end.
Definition unblock_locked (owner : option nat) (k : kernel)
    : option (bool * option nat * kernel) :=
  '(previousPriority, k) ← setPrioCurrentRunner CEILING_PRIORITY k;
  let k := match owner with Some o => resume o k | None => k end in
  let ok := match owner with Some _ => true | None => false end in
  '(_, k) ← setPrioCurrentRunner previousPriority k; Some (ok, None, k).

End barrier.

(** ** Threads that use the barrier *)

Inductive pc :=
  | Out
  | Checked (condition : bool) (timeOutAt : Z)  (** in [waitForSignal], before the ceiling *)
  | Suspended (previousPriority : Z)
  | Ending (ok : bool)                          (** before [owner = 0] *)
  | Skipping                                    (** the same, when the condition was false *)
  | Unblocking.                                 (** in [unblock], before the ceiling *)

(** [passed] and [failed] count the waits that returned true and false,
    [signals] the calls of [unblock] that returned true. *)
Record sys := mkSys {
  owner : option nat;
  kn : kernel;
  pcs : nat -> pc;
  passed : nat;
  failed : nat;
  signals : nat
}.

Inductive action :=
  | AWait (condition : bool) (timeOutAt : Z)
  | AUnblock
  | AContinue
  | AResumed.

Definition at_pc (i : nat) (p : pc) (x : sys) : sys :=
  mkSys (owner x) (kn x) (upd (pcs x) i p) (passed x) (failed x) (signals x).

(** One step of thread [i]; a wait whose condition does not hold returns true
    without being counted. *)
Definition step (this : Z) (i : nat) (a : action) (x : sys) : option sys :=
  match a, pcs x i with
  | AResumed, _ =>
      Some (mkSys (owner x) (resume i (kn x)) (pcs x) (passed x) (failed x) (signals x))
  | AWait condition timeOutAt, Out =>
      k ← runs i (kn x);
      Some (if wait_begin (owner x)
            then mkSys (owner x) k (upd (pcs x) i (Checked condition timeOutAt))
                   (passed x) (failed x) (signals x)
            else mkSys (owner x) k (pcs x) (passed x) (S (failed x)) (signals x))
  | AContinue, Checked condition timeOutAt =>
      k ← runs i (kn x);
      '(r, o, k) ← wait_locked this condition timeOutAt (owner x) k;
      Some (mkSys o k (upd (pcs x) i (match r with
                                      | Some prev => Suspended prev
                                      | None => Skipping
                                      end)) (passed x) (failed x) (signals x))
  | AContinue, Suspended prev =>
      k ← runs i (kn x);
      '(ok, k) ← wait_wakeup prev (owner x) k;
      Some (mkSys (owner x) k (upd (pcs x) i (Ending ok)) (passed x) (failed x) (signals x))
  | AContinue, Ending ok =>
      k ← runs i (kn x);
      Some (mkSys None k (upd (pcs x) i Out)
              (if (ok : bool) then S (passed x) else passed x)
              (if (ok : bool) then failed x else S (failed x)) (signals x))
  | AContinue, Skipping =>
      k ← runs i (kn x);
      Some (mkSys None k (upd (pcs x) i Out) (passed x) (failed x) (signals x))
  | AUnblock, Out =>
      k ← runs i (kn x);
      Some (if unblock_begin (owner x)
            then mkSys (owner x) k (upd (pcs x) i Unblocking) (passed x) (failed x) (signals x)
            else mkSys (owner x) k (pcs x) (passed x) (failed x) (signals x))
  | AContinue, Unblocking =>
      k ← runs i (kn x);
      '(ok, o, k) ← unblock_locked (owner x) k;
      Some (mkSys o k (upd (pcs x) i Out) (passed x) (failed x)
              (if (ok : bool) then S (signals x) else signals x))
  | _, _ => None
  end.

Fixpoint run (this : Z) (l : list (nat * action)) (x : sys) : option sys :=
  match l with
  | [] => Some x
  | (i, a) :: l => x ← step this i a x; run this l x
  end.

(** ** One waiting thread *)

Definition only_waits (w : nat) (l : list (nat * action)) : Prop :=
  Forall (fun s => match s.2 with AWait _ _ => s.1 = w | _ => True end) l.
(** Nobody but the barrier resumes the threads, and no wait has a time limit. *)
Definition patient (a : action) : bool :=
  match a with
  | AWait _ timeOutAt => timeOutAt =? END_OF_TIME
  | AResumed => false
  | _ => true
  end.

Section one_waiter.
Variables (this : Z) (w : nat).

Definition w_ok (x : sys) : Prop :=
  match pcs x w with
  | Out | Checked _ _ | Skipping =>
      owner x = None /\ (passed x <= signals x <= passed x + failed x)%nat
  | Suspended _ =>
      (owner x = Some w /\ (passed x <= signals x <= passed x + failed x)%nat) \/
      (owner x = None /\ (S (passed x) <= signals x <= S (passed x + failed x))%nat /\
       exists q u, vw (kn x) w = Some (q, u) /\ u < END_OF_TIME)
  | Ending true => owner x = None /\ (S (passed x) <= signals x <= S (passed x + failed x))%nat
  | Ending false =>
      (owner x = Some w /\ (passed x <= signals x <= passed x + failed x)%nat) \/
      (owner x = None /\ (passed x <= signals x <= S (passed x + failed x))%nat)
  | Unblocking => False
  end.

Record inv (x : sys) : Prop := {
  inv_thread : exists q u, vw (kn x) w = Some (q, u);
  inv_others : forall i, i <> w -> pcs x i = Out \/ pcs x i = Unblocking;
  inv_w : w_ok x
}.

(** Without time limits. *)
Record patient_inv (x : sys) : Prop := {
  pi_failed : failed x = 0%nat;
  pi_w : match pcs x w with
         | Suspended _ => owner x = Some w -> exists q, vw (kn x) w = Some (q, END_OF_TIME)
         | Checked c t => t = END_OF_TIME
         | Ending ok => ok = true
         | _ => True
         end
}.

Lemma unblock_locked_eq o k :
  unblock_locked o k =
    (k ← notify o k; Some (match o with Some _ => true | None => false end, None, k)).
Proof.
  unfold unblock_locked, notify. destruct (setPrioCurrentRunner _ k) as [[p k1]|]; [|done].
  cbn [mbind option_bind]. by destruct (setPrioCurrentRunner p _) as [[]|].
Qed.

Lemma at_pc_other i p x : i <> w -> upd (pcs x) i p w = pcs x w.
Proof. intros Hi. by apply upd_ne. Qed.

(** A step of another thread that changes neither owner nor counters. *)
Lemma quiet_step x i k p :
  inv x -> i <> w -> (forall j, vw k j = vw (kn x) j) -> p = Out \/ p = Unblocking ->
  inv (mkSys (owner x) k (upd (pcs x) i p) (passed x) (failed x) (signals x)) /\
  (patient_inv x ->
   patient_inv (mkSys (owner x) k (upd (pcs x) i p) (passed x) (failed x) (signals x))).
Proof.
  intros [Ht Ho Hw] Hi Hk Hp. split.
  - split; cbn [kn pcs].
    + by rewrite Hk.
    + intros j Hj. destruct (decide (j = i)) as [->|]; [by rewrite upd_eq|].
      rewrite upd_ne by done. by apply Ho.
    + unfold w_ok in *. cbn. rewrite upd_ne, Hk by congruence. exact Hw.
  - intros [Hf Hpw]. split; cbn; [done|]. rewrite upd_ne, Hk by congruence. exact Hpw.
Qed.

Lemma wait_locked_view (c : bool) t o k q u r :
  vw k (currentThread k) = Some (q, u) -> wait_locked this c t o k = Some r ->
  exists k', if c
    then r = (Some q, Some (currentThread k), k') /\
      forall j, vw k' j = if decide (j = currentThread k) then Some (CEILING_PRIORITY, t) else vw k j
    else r = (None, o, k') /\ forall j, vw k' j = vw k j.
Proof.
  intros Hv. unfold wait_locked. destruct (ceiling_view k q u Hv) as (k1 & -> & Hc1 & Hl1).
  cbn [mbind option_bind]. destruct c.
  - cbv zeta. destruct (suspend_view t (Some this) k1 CEILING_PRIORITY u) as (k2 & -> & _ & Hl2).
    { by rewrite Hl1, Hc1, decide_True. }
    intros [= <-]. exists k2. rewrite Hc1. split; [done|]. intros j. rewrite Hl2, Hc1.
    destruct (decide _) as [|]; [done|]. rewrite Hl1. by rewrite decide_False.
  - destruct (restore_view k k1 q u u _ Hv Hc1 Hl1) as (k2 & -> & Hl2). intros [= <-].
    exists k2. split; [done|]. by eapply view_same.
Qed.

(** A step of the waiting thread. *)
Lemma own_step x o k p c1 c2 c3 :
  inv x -> (exists q u, vw k w = Some (q, u)) ->
  w_ok (mkSys o k (upd (pcs x) w p) c1 c2 c3) ->
  inv (mkSys o k (upd (pcs x) w p) c1 c2 c3).
Proof.
  intros [Ht Ho Hw] Hk Hok. split; [done| |done]. cbn. intros j Hj. rewrite upd_ne by done.
  by apply Ho.
Qed.

(** The section of [unblock] by another thread: the waiting thread is resumed. *)
Lemma unblock_step x i k k' :
  inv x -> i <> w -> runs i (kn x) = Some k -> notify (owner x) k = Some k' ->
  let x' := mkSys None k' (upd (pcs x) i Out) (passed x) (failed x)
              (match owner x with Some _ => S (signals x) | None => signals x end) in
  inv x' /\ (patient_inv x -> patient_inv x') /\
  (owner x = Some w -> exists q, vw k' w = Some (q, 0)).
Proof.
  intros [(q & u & Ht) Ho Hw] Hi Hr Hn x'.
  destruct (runs_spec _ _ _ Hr) as (Hc & Hk & q' & u' & Hv & Hu).
  assert (owner x = None \/ owner x = Some w) as Howner.
  { unfold w_ok in Hw. destruct (pcs x w) as [| |prev|[]| |]; tauto. }
  assert (forall j, vw k' j = if decide (owner x = Some j)
            then (fun v => (v.1, 0)) <$> vw k j else vw k j) as Hl.
  { apply (notify_view (owner x) k q' u'); [by rewrite Hc, Hk| |done].
    rewrite Hc. destruct Howner as [-> | ->]; congruence. }
  assert (Hlw : vw k' w = Some (q, if decide (owner x = Some w) then 0 else u)).
  { rewrite Hl, Hk, Ht. by destruct (decide _). }
  split; [split|split].
  - cbn. by eexists q, _.
  - cbn. intros j Hj. destruct (decide (j = i)) as [->|]; [rewrite upd_eq; by left|].
    rewrite upd_ne by done. by apply Ho.
  - unfold w_ok in *. cbn. rewrite upd_ne, Hlw by congruence.
    destruct (pcs x w) as [| |prev|[]| |]; [| | | | | |done].
    + destruct Hw as (-> & Hw). done.
    + destruct Hw as (-> & Hw). done.
    + right. destruct Hw as [(-> & Hw)|(-> & Hw & q1 & u1 & H1 & H2)]; (split; [done|]).
      * split; [lia|]. exists q, 0. by rewrite decide_True.
      * split; [done|]. exists q, u. split; [done|]. congruence.
    + destruct Hw as (-> & Hw). done.
    + right. destruct Hw as [(-> & Hw)|(-> & Hw)]; (split; [done|lia]).
    + destruct Hw as (-> & Hw). done.
  - intros [Hf Hpw]. split; cbn; [done|]. rewrite upd_ne by congruence.
    destruct (pcs x w); try done.
  - intros Hs. exists q. rewrite Hlw. by rewrite decide_True.
Qed.

Lemma other_step i a x x' :
  inv x -> i <> w -> (match a with AWait _ _ => False | AResumed => False | _ => True end) ->
  step this i a x = Some x' -> inv x' /\ (patient_inv x -> patient_inv x').
Proof.
  intros Hinv Hi Ha. unfold step.
  destruct a; try done; destruct (inv_others _ Hinv i Hi) as [Hp|Hp]; rewrite Hp; try done.
  - destruct (runs i (kn x)) as [k|] eqn:Hr; [|done]. cbn [mbind option_bind].
    destruct (runs_spec _ _ _ Hr) as (_ & Hk & _). destruct (unblock_begin (owner x)); intros [= <-].
    + apply quiet_step; auto.
    + destruct (quiet_step x i k Out Hinv Hi Hk (or_introl eq_refl)) as [H1 H2].
      assert (forall j, upd (pcs x) i Out j = pcs x j) as Hpcs.
      { intros j. unfold upd. by destruct (decide (j = i)) as [->|]. }
      split.
      * destruct H1 as [G1 G2 G3]. split; [done| |]; cbn.
        -- intros j Hj. rewrite <- Hpcs. by apply G2.
        -- unfold w_ok in *. cbn in *. by rewrite Hpcs in G3.
      * intros Hpi. destruct (H2 Hpi) as [G1 G2]. split; [done|]. cbn in *. by rewrite Hpcs in G2.
  - destruct (runs i (kn x)) as [k|] eqn:Hr; [|done]. cbn [mbind option_bind].
    rewrite unblock_locked_eq. destruct (notify (owner x) k) as [k'|] eqn:Hn; [|done].
    cbn [mbind option_bind]. intros [= <-].
    destruct (unblock_step x i k k' Hinv Hi Hr Hn) as (H1 & H2 & _).
    destruct (owner x); by split.
Qed.

Lemma waiter_step a x x' :
  inv x -> (match a with AResumed => False | _ => True end) ->
  step this w a x = Some x' -> inv x' /\ (patient a = true -> patient_inv x -> patient_inv x').
Proof.
  intros Hinv Ha. unfold step. pose proof (inv_w _ Hinv) as Hw. unfold w_ok in Hw.
  destruct a as [c t| | |]; [| | |done];
    destruct (pcs x w) as [|c' t'|prev|ok| |] eqn:Hp; try done;
    (destruct (runs w (kn x)) as [k|] eqn:Hr; [|done]); cbn [mbind option_bind];
    destruct (runs_spec _ _ _ Hr) as (Hc & Hk & q & u & Hv & Hu).
  - destruct Hw as (Ho & Hcnt). rewrite Ho. cbn [wait_begin]. intros [= <-]. split.
    + apply own_step; [done|rewrite Hk; by exists q, u|]. unfold w_ok. cbn.
      by rewrite upd_eq.
    + cbn. intros Ht [Hf _]. split; [done|]. cbn. rewrite upd_eq. by apply Z.eqb_eq.
  - destruct Hw as (Ho & Hcnt). rewrite Ho. cbn [unblock_begin]. intros [= <-]. split.
    + destruct Hinv as [H1 H2 H3]. split; cbn; [by exists q, u; rewrite Hk|done|].
      unfold w_ok. cbn. by rewrite Hp.
    + intros _ [Hf _]. split; [done|]. cbn. by rewrite Hp.
  - destruct Hw as (Ho & Hcnt).
    destruct (wait_locked this c' t' (owner x) k) as [o|] eqn:Hl; [|done].
    cbn [mbind option_bind].
    destruct (wait_locked_view c' t' (owner x) k q u _ ltac:(by rewrite Hc, Hk) Hl) as (k' & Hres).
    rewrite Hc in Hres. destruct c'; destruct Hres as (-> & Hlv); intros [= <-]; split.
    + apply own_step; [done|exists CEILING_PRIORITY, t'; by rewrite Hlv, decide_True|].
      unfold w_ok. cbn. rewrite upd_eq. by left.
    + intros _ [Hf Hpw]. split; [done|]. cbn. rewrite upd_eq. intros _. rewrite Hp in Hpw.
      exists CEILING_PRIORITY. rewrite Hlv, decide_True by done. by rewrite Hpw.
    + apply own_step; [done|exists q, u; by rewrite Hlv, Hk|]. unfold w_ok. cbn.
      by rewrite upd_eq.
    + intros _ [Hf Hpw]. split; [done|]. cbn. by rewrite upd_eq.
  - unfold wait_wakeup. destruct (wakeup_view prev k q u) as (b & k1 & p & k2 & Hend & Hs & Hl).
    { by rewrite Hc, Hk. }
    rewrite Hend. cbn [mbind option_bind]. rewrite Hs. cbn [mbind option_bind]. intros [= <-].
    rewrite Hc in Hl. split.
    + apply own_step; [done|exists prev, u; by rewrite Hl, decide_True|]. unfold w_ok. cbn.
      rewrite upd_eq. destruct Hw as [(-> & Hw)|(-> & Hw & _)]; [by left|done].
    + intros _ [Hf Hpw]. split; [done|]. cbn. rewrite upd_eq. rewrite Hp in Hpw.
      destruct Hw as [(Ho & Hw)|(-> & Hw & _)]; [|done].
      destruct (Hpw Ho) as (q' & Hv'). rewrite Hv in Hv'. injection Hv' as _ ->. lia.
  - intros [= <-]. split.
    + apply own_step; [done|exists q, u; by rewrite Hk|]. unfold w_ok. cbn. rewrite upd_eq.
      split; [done|]. destruct ok; lia.
    + intros _ [Hf Hpw]. rewrite Hp in Hpw. subst ok. split; [done|]. cbn. by rewrite upd_eq.
  - intros [= <-]. split.
    + apply own_step; [done|rewrite Hk; by exists q, u|]. unfold w_ok. cbn.
      rewrite upd_eq. split; [done|]. apply Hw.
    + intros _ [Hf Hpw]. split; [done|]. cbn. by rewrite upd_eq.
Qed.

Lemma resumed_step i x :
  inv x -> inv (mkSys (owner x) (resume i (kn x)) (pcs x) (passed x) (failed x) (signals x)).
Proof.
  intros [(q & u & Ht) Ho Hw].
  assert (Hl : vw (resume i (kn x)) w = Some (q, if decide (w = i) then 0 else u)).
  { rewrite (vw_to _ _ _ (fun j v => if decide (j = i) then (v.1, 0) else v) (resume_to i (kn x))).
    - rewrite Ht. cbn. by destruct (decide (w = i)).
    - intros j' t. by destruct (decide (j' = i)). }
  split; cbn; [by eexists q, _|done|]. unfold w_ok in *. cbn. rewrite Hl.
  destruct (pcs x w) as [| |prev|[]| |]; try done.
  destruct Hw as [Hw|(H1 & H2 & q' & u' & H3 & H4)]; [by left|]. right. split_and!; [done|lia|lia|].
  eexists q, _. split; [done|]. rewrite Ht in H3. injection H3 as <- <-.
  destruct (decide _); [unfold END_OF_TIME; lia|done].
Qed.

Lemma barrier_step_inv i a x x' :
  inv x -> only_waits w [(i, a)] -> step this i a x = Some x' ->
  inv x' /\ (patient a = true -> patient_inv x -> patient_inv x').
Proof.
  intros Hinv Hw Hs. apply Forall_inv in Hw. cbn in Hw.
  assert (a = AResumed \/ (match a with AResumed => False | _ => True end)) as [->|Ha]
    by (destruct a; auto).
  { unfold step in Hs. injection Hs as <-. split; [by apply resumed_step|done]. }
  destruct (decide (i = w)) as [->|Hi].
  - apply waiter_step; [done|done|done].
  - destruct (other_step i a x x' Hinv Hi) as [H1 H2]; [by destruct a|done|]. by split; [|intros _].
Qed.

Lemma barrier_run_inv l : forall x x',
  inv x -> only_waits w l -> run this l x = Some x' ->
  inv x' /\ (Forall (fun s => patient s.2 = true) l -> patient_inv x -> patient_inv x').
Proof.
  induction l as [|[i a] l IH]; intros x x' Hinv Hw; cbn [run]; [intros [= <-]; by split|].
  destruct (step this i a x) as [x1|] eqn:Hs; [|done]. cbn [mbind option_bind]. intros Hr.
  inversion_clear Hw as [|? ? Hw1 Hw2].
  destruct (barrier_step_inv i a x x1 Hinv ltac:(by constructor) Hs) as [H1 H2].
  destruct (IH x1 x' H1 Hw2 Hr) as [H3 H4]. split; [done|].
  intros Hp Hpi. inversion_clear Hp. auto.
Qed.
End one_waiter.

(** ** Properties *)

(** A new barrier, all threads in their own code. *)
Record start (w : nat) (x : sys) : Prop := {
  st_owner : owner x = newBarrier;
  st_pcs : forall i, pcs x i = Out;
  st_counts : passed x = 0%nat /\ failed x = 0%nat /\ signals x = 0%nat;
  st_thread : exists q u, vw (kn x) w = Some (q, u)
}.

Lemma barrier_start_inv w x : start w x -> inv w x /\ patient_inv w x.
Proof.
  intros [Ho Hp (H1 & H2 & H3) Ht]. split; split.
  - done.
  - intros i _. left. apply Hp.
  - unfold w_ok. rewrite Hp, Ho, H1, H2, H3. split; [done|lia].
  - done.
  - by rewrite Hp.
Qed.

(** C28: With one waiting thread, any number of threads that call [unblock] and
    any interleaving: every wait that returns true is due to a signal of its
    own, a call of [unblock] that returned true, and no more signals are lost
    than waits returned false.  A wait that was signalled is not suspended and
    returns true with its next steps; while it is not signalled, whoever calls
    [unblock] finds it and resumes it.  Without time limits, and when only the
    barrier resumes threads, no wait returns false and no signal is lost. *)
Theorem barrier_signals (this : Z) (w : nat) (l : list (nat * action)) (x0 x : sys) :
  start w x0 -> only_waits w l -> run this l x0 = Some x ->
  (passed x <= signals x <= S (passed x + failed x))%nat /\
  (forall prev, pcs x w = Suspended prev -> owner x = None ->
     exists x', run this [(w, AContinue); (w, AContinue)] x = Some x' /\
       pcs x' w = Out /\ passed x' = S (passed x)) /\
  (forall prev i x', pcs x w = Suspended prev -> owner x = Some w -> pcs x i = Unblocking ->
     step this i AContinue x = Some x' ->
     owner x' = None /\ signals x' = S (signals x) /\ exists q, vw (kn x') w = Some (q, 0)) /\
  (Forall (fun s => patient s.2 = true) l ->
     failed x = 0%nat /\ (pcs x w = Out -> signals x = passed x)).
Proof.
  intros Hstart Hw Hrun. destruct (barrier_start_inv w x0 Hstart) as [Hinv0 Hpi0].
  destruct (barrier_run_inv this w l x0 x Hinv0 Hw Hrun) as [Hinv Hpi].
  pose proof (inv_w _ _ Hinv) as Hok. unfold w_ok in Hok. split_and!.
  - destruct (pcs x w) as [| |prev|[]| |]; lia.
  - destruct (pcs x w) as [| |prev|[]| |]; lia.
  - intros prev Hp Ho. rewrite Hp in Hok.
    destruct Hok as [(? & _)|(_ & _ & q & u & Hv & Hu)]; [congruence|].
    destruct (runs_ok w (kn x) q u Hv Hu) as (k & Hr & Hc & Hk).
    destruct (wakeup_view prev k q u ltac:(by rewrite Hc, Hk)) as (b & k1 & p & k2 & Hend & Hs & Hl).
    assert (step this w AContinue x =
      Some (mkSys None k2 (upd (pcs x) w (Ending true)) (passed x) (failed x) (signals x))) as Hstep.
    { unfold step. rewrite Hp, Hr. cbn [mbind option_bind]. unfold wait_wakeup.
      rewrite Hend. cbn [mbind option_bind]. rewrite Hs, Ho. done. }
    destruct (runs_ok w k2 prev u) as (k3 & Hr3 & _ & _); [by rewrite Hl, Hc, decide_True|done|].
    cbn [run]. rewrite Hstep. cbn [mbind option_bind]. unfold step. cbn [pcs kn]. rewrite upd_eq, Hr3.
    eexists. split; [done|]. cbn. by rewrite upd_eq.
  - intros prev i x' Hp Ho Hpi' Hs. unfold step in Hs. rewrite Hpi' in Hs.
    destruct (runs i (kn x)) as [k|] eqn:Hr; [|done]. cbn [mbind option_bind] in Hs.
    rewrite unblock_locked_eq in Hs. destruct (notify (owner x) k) as [k'|] eqn:Hn; [|done].
    cbn [mbind option_bind] in Hs. injection Hs as <-.
    destruct (unblock_step w x i k k' Hinv) as (_ & _ & Hq); [congruence|done|done|].
    rewrite Ho. split; [done|]. split; [done|]. by apply Hq.
  - intros Hall. pose proof (pi_failed _ _ (Hpi Hall Hpi0)) as Hf. split; [done|].
    intros Hp. rewrite Hp in Hok. lia.
Qed.

(** The idle thread and three threads. *)
Definition sample : sys :=
  mkSys newBarrier
    (mkKernel [thr 0 0 4; thr 100 0 6; thr 200 0 1; thr 300 0 5] 0 1 None END_OF_TIME 8 0
       false true 0 true 0)
    (fun _ => Out) 0 0 0.

Lemma barrier_sample_start : start 1 sample.
Proof. split; try done. by eexists _, _. Qed.

Definition sampleRun : list (nat * action) :=
  [(1, AWait true END_OF_TIME); (1, AContinue); (2, AUnblock); (2, AContinue);
   (1, AContinue); (1, AContinue)]%nat.
Definition sampleEnd : sys := default sample (run 64 sampleRun sample).

Lemma barrier_signals_witness :
  run 64 sampleRun sample = Some sampleEnd /\ failed sampleEnd = 0%nat /\
  signals sampleEnd = passed sampleEnd.
Proof.
  assert (run 64 sampleRun sample = Some sampleEnd) as Hr by (vm_compute; reflexivity).
  split; [exact Hr|].
  destruct (barrier_signals 64 1 sampleRun sample sampleEnd barrier_sample_start) as (_ & _ & _ & H).
  - repeat constructor.
  - exact Hr.
  - assert (pcs sampleEnd 1%nat = Out) as Hp by (vm_compute; reflexivity).
    assert (Forall (fun s => patient s.2 = true) sampleRun) as Hf by (repeat constructor).
    destruct (H Hf) as [H1 H2]. split; [exact H1|exact (H2 Hp)].
Defined.

(** A signal can be lost although [unblock] returns true: the time limit of the
    waiting thread has passed, [ok] is computed, and the signal comes before
    [owner] is cleared. *)
Lemma signal_lost :
  exists x, run 64 [(1, AWait true 5000); (1, AContinue); (1, AContinue);
                    (2, AUnblock); (2, AContinue); (1, AContinue)]%nat sample = Some x /\
    signals x = 1%nat /\ passed x = 0%nat /\ failed x = 1%nat.
Proof. eexists. split; [vm_compute; reflexivity|]. by vm_compute. Qed.

(** A second thread that waits after the first was signalled, but before the
    first has returned, is forgotten: the first clears [owner], [unblock] finds
    nobody, and the second is suspended for ever. *)
Lemma waiter_forgotten :
  exists x, run 64 [(1, AWait true END_OF_TIME); (1, AContinue); (3, AUnblock); (3, AContinue);
                    (1, AContinue); (2, AWait true END_OF_TIME); (2, AContinue);
                    (1, AContinue); (3, AUnblock)]%nat sample = Some x /\
    owner x = None /\ pcs x 2%nat = Suspended 200 /\ pcs x 3%nat = Out /\
    vw (kn x) 2 = Some (CEILING_PRIORITY, END_OF_TIME).
Proof. eexists. split; [vm_compute; reflexivity|]. by vm_compute. Qed.

End Barrier.
