(* ===== verification/CommBuffer.v ===== *)
(** * Communication buffers (api/commbuffer.h, support-libs/synccommbuffer.h)

    A buffer through which one thread hands its latest value to another: of three
    slots one is read, one is written, and the third is taken by the writer when
    the reader is busy.  The copies of the values are not atomic: they go cell by
    cell, and the steps of [put] and [get] on the shared variables interleave
    freely. *)

From stdpp Require Import list.
From S2P Require Import Prelude.

#[local] Open Scope Z_scope.

Module CommBuffer.

Section CommBuffer.
(** A value of the type of the buffer is [n] cells. *)
Context {A : Type} (n : nat).

(** The pointers are the indices of the slots. *)
Record t := mk {
  buffer : list (list A);
  writer : nat;
  reader : nat;
  intermediate : nat;
  readingNow : bool;
  newDataAvailable : bool;
  writeCnt : Z;
  readCnt : Z
}.

(** The constructor; the slots are not initialised. *)
Definition init (b : list (list A)) : t := mk b 0 1 2 false false 0 0.

Definition set_cell (i j : nat) (x : A) (c : t) : t :=
  mk (alter (fun s => <[j := x]> s) i (buffer c)) (writer c) (reader c) (intermediate c)
    (readingNow c) (newDataAvailable c) (writeCnt c) (readCnt c).
Definition set_readingNow (b : bool) (c : t) : t :=
  mk (buffer c) (writer c) (reader c) (intermediate c) b (newDataAvailable c) (writeCnt c) (readCnt c).
Definition set_newDataAvailable (b : bool) (c : t) : t :=
  mk (buffer c) (writer c) (reader c) (intermediate c) (readingNow c) b (writeCnt c) (readCnt c).

(** ** The statements of [put] after the copy *)

(** The swap of [reader] and [writer]. *)
Definition publish (c : t) : t :=
  mk (buffer c) (reader c) (writer c) (intermediate c) (readingNow c) (newDataAvailable c) (writeCnt c) (readCnt c).
(** The intermediate slot is taken when the other one is read. *)
Definition avoid (c : t) : t :=
  if readingNow c
  then mk (buffer c) (intermediate c) (reader c) (writer c) (readingNow c) (newDataAvailable c) (writeCnt c) (readCnt c)
  else c.
Definition count_write (c : t) : t :=
  mk (buffer c) (writer c) (reader c) (intermediate c) (readingNow c) (newDataAvailable c)
    (u64 (writeCnt c + 1)) (readCnt c).
Definition count_read (c : t) : t :=
  mk (buffer c) (writer c) (reader c) (intermediate c) (readingNow c) (newDataAvailable c)
    (writeCnt c) (u64 (readCnt c + 1)).

(** ** The methods, without interruption *)

Definition copy_in (data : list A) (c : t) : t :=
  mk (<[writer c := data]> (buffer c)) (writer c) (reader c) (intermediate c)
    (readingNow c) (newDataAvailable c) (writeCnt c) (readCnt c).
Definition put (data : list A) (c : t) : t :=
  set_newDataAvailable true (count_write (avoid (publish (copy_in data c)))).
Definition get (c : t) : option (list A * t) :=
  let c := set_readingNow true (set_newDataAvailable false c) in
  data ← buffer c !! reader c;
  Some (data, count_read (set_readingNow false c)).
Definition getOnlyIfNewData (c : t) : option (option (list A) * t) :=
  if newDataAvailable c then '(data, c) ← get c; Some (Some data, c) else Some (None, c).

(** [putGeneric]: a value is copied whatever the length; [stale] is what lies
    behind the message. *)
Definition putGeneric (len : nat) (msg stale : list A) (c : t) : bool * t :=
  if (len <=? n)%nat then (true, put (take n (msg ++ stale)) c) else (false, c).
(** [putZero]: the slot that is written is cleared and then put. *)
Definition putZero (zero : A) (c : t) : t := put (replicate n zero) (copy_in (replicate n zero) c).

(** ** The two threads *)

(** Where the threads are in [put] and [get]. *)
Inductive wpc :=
  | WOut
  | WCopy (data : list A) (i : nat)   (** the first [i] cells are copied *)
  | WCheck                            (** before [if(readingNow)] *)
  | WCount
  | WFlag.                            (** before [newDataAvailable = true] *)
Inductive rpc :=
  | ROut
  | RBegin                            (** before [readingNow = true] *)
  | RLoad                             (** before [readerTmp = reader] *)
  | RCopy (readerTmp : nat) (data : list A)
  | RCount (data : list A).           (** after [readingNow = false] *)

(** [published] are the values whose [put] has swapped the slots, with the one
    that was there in the beginning; [loaded] is their number when the last [get]
    loaded the pointer, [overlap] the number of calls of [put] that were copying
    then or have begun since.  [results] are the values that [get] has returned,
    with both. *)
Record sys := mkSys {
  cb : t;
  wp : wpc;
  rp : rpc;
  published : list (list A);
  loaded : nat;
  overlap : nat;
  results : list (list A * nat * nat)
}.

Definition reading (r : rpc) : bool := match r with RCopy _ _ => true | _ => false end.

Inductive step : sys -> sys -> Prop :=
  | put_begin c r pub ld ov res data :
      length data = n ->
      step (mkSys c WOut r pub ld ov res) (mkSys c (WCopy data 0) r pub ld (if reading r then S ov else ov) res)
  | put_copy c r pub ld ov res data i x :
      data !! i = Some x ->
      step (mkSys c (WCopy data i) r pub ld ov res) (mkSys (set_cell (writer c) i x c) (WCopy data (S i)) r pub ld ov res)
  | put_publish c r pub ld ov res data :
      step (mkSys c (WCopy data n) r pub ld ov res) (mkSys (publish c) WCheck r (pub ++ [data]) ld ov res)
  | put_check c r pub ld ov res :
      step (mkSys c WCheck r pub ld ov res) (mkSys (avoid c) WCount r pub ld ov res)
  | put_count c r pub ld ov res :
      step (mkSys c WCount r pub ld ov res) (mkSys (count_write c) WFlag r pub ld ov res)
  | put_flag c r pub ld ov res :
      step (mkSys c WFlag r pub ld ov res) (mkSys (set_newDataAvailable true c) WOut r pub ld ov res)
  | get_begin c w pub ld ov res :
      step (mkSys c w ROut pub ld ov res) (mkSys (set_newDataAvailable false c) w RBegin pub ld ov res)
  | get_reading c w pub ld ov res :
      step (mkSys c w RBegin pub ld ov res) (mkSys (set_readingNow true c) w RLoad pub ld ov res)
  | get_load c w pub ld ov res :
      step (mkSys c w RLoad pub ld ov res)
        (mkSys c w (RCopy (reader c) []) pub (length pub) (match w with WCopy _ _ => 1 | _ => 0 end)%nat res)
  | get_copy c w pub ld ov res tmp data s x :
      buffer c !! tmp = Some s -> s !! length data = Some x ->
      step (mkSys c w (RCopy tmp data) pub ld ov res) (mkSys c w (RCopy tmp (data ++ [x])) pub ld ov res)
  | get_done c w pub ld ov res tmp data :
      length data = n ->
      step (mkSys c w (RCopy tmp data) pub ld ov res)
        (mkSys (set_readingNow false c) w (RCount data) pub ld ov (res ++ [(data, ld, ov)]))
  | get_count c w pub ld ov res data :
      step (mkSys c w (RCount data) pub ld ov res) (mkSys (count_read c) w ROut pub ld ov res).

(** The buffer is new; the first value is the one in the slot of the reader. *)
Definition start (b : list (list A)) (v : list A) : sys := mkSys (init b) WOut ROut [v] 1 0 [].
Definition started (b : list (list A)) (v : list A) : Prop :=
  length b = 3%nat /\ Forall (fun s => length s = n) b /\ b !! 1%nat = Some v.

Implicit Types (c : t).

(** ** Invariant *)

(** Where the slot is that the reader copies: [s] is the number of swaps since it
    took the pointer. *)
Definition copied_slot (c : t) (checking : bool) (s tmp : nat) : Prop :=
  match s with
  | O => tmp = reader c
  | 1%nat => tmp = if checking then writer c else intermediate c
  | 2%nat => tmp = if checking then intermediate c else writer c
  | _ => True
  end.
Definition copying (w : wpc) : bool := match w with WCopy _ _ => true | _ => false end.
Definition checking (w : wpc) : bool := match w with WCheck => true | _ => false end.
Definition flagging (w : wpc) : bool := match w with WCheck | WCount | WFlag => true | _ => false end.
Definition loaded_now (r : rpc) : bool := match r with RBegin | RLoad => false | _ => true end.

Record slots_ok (c : t) : Prop := {
  so_length : length (buffer c) = 3%nat;
  so_cells : Forall (fun s => length s = n) (buffer c);
  so_range : (writer c < 3 /\ reader c < 3 /\ intermediate c < 3)%nat;
  so_distinct : writer c <> reader c /\ reader c <> intermediate c /\ writer c <> intermediate c
}.

Record inv (x : sys) : Prop := {
  i_slots : slots_ok (cb x);
  i_flag : readingNow (cb x) = match rp x with RLoad | RCopy _ _ => true | _ => false end;
  i_last : exists v, last (published x) = Some v /\ buffer (cb x) !! reader (cb x) = Some v;
  i_write : match wp x with
            | WCopy d i => length d = n /\ (i <= n)%nat /\
                exists s, buffer (cb x) !! writer (cb x) = Some s /\ take i s = take i d
            | _ => True
            end;
  i_loaded : (1 <= loaded x <= length (published x))%nat;
  i_read : match rp x with
           | RCopy tmp data =>
               let s := (length (published x) - loaded x)%nat in
               overlap x = (s + if copying (wp x) then 1 else 0)%nat /\ (tmp < 3)%nat /\ (length data <= n)%nat /\
               ((overlap x <= 2)%nat -> copied_slot (cb x) (checking (wp x)) s tmp /\
                 exists v, published x !! (loaded x - 1)%nat = Some v /\ buffer (cb x) !! tmp = Some v /\
                   data = take (length data) v)
           | _ => match last (results x) with Some (_, l, _) => l = loaded x | None => loaded x = 1%nat end
           end;
  i_results : forall v l o, (v, l, o) ∈ results x -> (o <= 2)%nat -> published x !! (l - 1)%nat = Some v;
  i_fresh : newDataAvailable (cb x) = false -> flagging (wp x) = false -> loaded_now (rp x) = true ->
            loaded x = length (published x)
}.

Lemma slots_ok_buffer c i j (x : A) :
  slots_ok c -> slots_ok (set_cell i j x c).
Proof.
  intros [H1 H2 H3 H4]. split; cbn; try done; [by rewrite length_alter|].
  apply Forall_lookup. intros k s Hs. destruct (decide (k = i)) as [->|Hk].
  - rewrite list_lookup_alter_eq in Hs. destruct (buffer c !! i) as [s'|] eqn:E; [|done]. cbn in Hs. injection Hs as <-.
    rewrite length_insert. by apply (proj1 (Forall_lookup _ _) H2 i).
  - rewrite list_lookup_alter_ne in Hs by done. by apply (proj1 (Forall_lookup _ _) H2 k).
Qed.

Lemma set_cell_other i j (x : A) c k : k <> i -> buffer (set_cell i j x c) !! k = buffer c !! k.
Proof. intros Hk. cbn. by apply list_lookup_alter_ne. Qed.

Lemma comm_start_inv b v : started b v -> inv (start b v).
Proof.
  intros (Hl & Hn & Hv). split; cbn; try done; try lia.
  - split; cbn; try done; lia.
  - by exists v.
  - intros ? ? ? H%not_elem_of_nil. done.
Qed.

Lemma comm_put_step_inv x y : inv x -> step x y -> wp x <> wp y -> inv y.
Proof.
  intros [I1 I2 I3 I4 I5 I6 I7 I8] Hs Hw. destruct Hs; cbn in *; try done.
  - (* put_begin *)
    split; cbn; try done.
    + split; [done|]. split; [lia|]. destruct I1 as [L1 L2 L3 L4].
      destruct (lookup_lt_is_Some_2 (buffer c) (writer c)) as [s Hs]; [lia|]. by exists s.
    + destruct r; try done. cbn in *. destruct I6 as (E & H1 & H2 & H3). split; [lia|]. do 2 (split; [done|]).
      intros Ho. destruct (H3 ltac:(lia)) as (P & Hv). by split.
  - (* put_copy *)
    destruct I4 as (L & Hi & s & Hs & Ht). pose proof I1 as [L1 L2 L3 L4].
    assert (Hin : (i < length data)%nat) by (by apply lookup_lt_Some in H).
    split; cbn; try done.
    + by apply slots_ok_buffer.
    + destruct I3 as (v & Hv & Hr). exists v. split; [done|]. rewrite list_lookup_alter_ne; [done|]. apply L4.
    + split; [done|]. split; [lia|]. exists (<[i := x]> s). rewrite list_lookup_alter_eq, Hs. split; [done|].
      assert (Hls : length s = n) by (apply (proj1 (Forall_lookup _ _) L2 _ _ Hs)).
      rewrite (take_S_r _ _ x) by (apply list_lookup_insert_eq; lia). rewrite take_insert by lia.
      rewrite decide_False by lia. rewrite Ht. symmetry. by apply take_S_r.
    + destruct r; try done. destruct I6 as (E & H1 & H2 & H3). do 3 (split; [done|]).
      intros Ho. destruct (H3 Ho) as (P & v & Hv1 & Hv2 & Hv3). split; [done|]. exists v. split; [done|]. split; [|done].
      rewrite list_lookup_alter_ne; [done|]. cbn in E. rewrite E in Ho.
      destruct (length pub - ld)%nat as [|[|s']] eqn:Es; cbn in P; [rewrite P|rewrite P|lia]; try apply L4.
  - (* put_publish *)
    destruct I4 as (L & _ & s & Hs & Ht). pose proof I1 as [L1 L2 L3 L4].
    assert (Hsd : s = data).
    { assert (Hls : length s = n) by (apply (proj1 (Forall_lookup _ _) L2 _ _ Hs)).
      rewrite !take_ge in Ht by lia. done. }
    subst s. split; cbn; try done.
    + split; cbn; try done; [tauto|]. destruct L4 as (?&?&?). split_and!; congruence.
    + exists data. by rewrite last_snoc.
    + rewrite length_app. cbn. lia.
    + destruct r; try done. rewrite length_app. cbn [length]. destruct I6 as (E & H1 & H2 & H3). cbn in E.
      split; [lia|]. do 2 (split; [done|]). intros Ho. destruct (H3 ltac:(lia)) as (P & v & Hv1 & Hv2 & Hv3).
      split.
      * replace (length pub + 1 - ld)%nat with (S (length pub - ld)) by lia.
        destruct (length pub - ld)%nat as [|[|s']] eqn:Es; cbn in P |- *; [done|done|lia].
      * exists v. split; [|done]. rewrite lookup_app_l; [done|]. by apply lookup_lt_Some in Hv1.
    + intros v l o Hin Ho. specialize (I7 v l o Hin Ho). rewrite lookup_app_l; [done|]. by apply lookup_lt_Some in I7.
  - (* put_check *)
    pose proof I1 as [L1 L2 L3 L4].
    assert (Hso : slots_ok (avoid c)).
    { unfold avoid. destruct (readingNow c); [|done]. split; cbn; try done; [tauto|].
      destruct L4 as (D1 & D2 & D3). split_and!; congruence. }
    assert (Eb : buffer (avoid c) = buffer c /\ reader (avoid c) = reader c /\ readingNow (avoid c) = readingNow c /\
                 newDataAvailable (avoid c) = newDataAvailable c) by (unfold avoid; destruct (readingNow c) eqn:Er; cbn; rewrite ?Er; done).
    destruct Eb as (Eb1 & Eb2 & Eb3 & Eb4). split; cbn; rewrite ?Eb1, ?Eb2, ?Eb3, ?Eb4; try done.
    destruct r; try done. destruct I6 as (E & H1 & H2 & H3). do 3 (split; [done|]).
    intros Ho. destruct (H3 Ho) as (P & Hv). split; [|done].
    unfold avoid. rewrite I2. destruct (length pub - ld)%nat as [|[|[|s']]]; cbn in P |- *; done.
  - (* put_count *)
    split; cbn; try done. by destruct I1.
  - (* put_flag *)
    split; cbn; try done. by destruct I1.
Qed.

(** What the steps of the reader leave alone. *)
Lemma same_slots_inv c c' w r pub ld ov res :
  inv (mkSys c w r pub ld ov res) -> buffer c' = buffer c -> writer c' = writer c -> reader c' = reader c ->
  intermediate c' = intermediate c ->
  slots_ok c' /\ (exists v, last pub = Some v /\ buffer c' !! reader c' = Some v) /\
  (match w with
   | WCopy d i => length d = n /\ (i <= n)%nat /\ exists s, buffer c' !! writer c' = Some s /\ take i s = take i d
   | _ => True
   end).
Proof.
  intros [I1 _ I3 I4 _ _ _ _] Eb Ew Er Ei. cbn in *. rewrite Eb, Ew, Er. split; [|done].
  destruct I1. split; rewrite ?Eb, ?Ew, ?Er, ?Ei; done.
Qed.

Lemma comm_get_step_inv x y : inv x -> step x y -> wp x = wp y -> inv y.
Proof.
  intros I Hs Hw. destruct Hs; try done.
  - (* put_copy *) injection Hw as Hw. lia.
  - (* get_begin *)
    destruct (same_slots_inv c (set_newDataAvailable false c) _ _ _ _ _ _ I) as (S1 & S2 & S3); try done.
    destruct I as [I1 I2 I3 I4 I5 I6 I7 I8]. by split.
  - (* get_reading *)
    destruct (same_slots_inv c (set_readingNow true c) _ _ _ _ _ _ I) as (S1 & S2 & S3); try done.
    destruct I as [I1 I2 I3 I4 I5 I6 I7 I8]. by split.
  - (* get_load *)
    destruct I as [I1 I2 I3 I4 I5 I6 I7 I8]. cbn in *. split; cbn; try done; [lia|].
    rewrite Nat.sub_diag. split; [by destruct w|]. split; [apply I1|]. split; [lia|]. intros _.
    split; [done|]. destruct I3 as (v & Hv & Hr). exists v. split; [|done].
    rewrite <- Hv, last_lookup. f_equal. lia.
  - (* get_copy *)
    destruct I as [I1 I2 I3 I4 I5 I6 I7 I8]. cbn in *. split; cbn; try done.
    destruct I6 as (E & H1 & H2 & H3). split; [done|]. split; [done|]. rewrite length_app. cbn [length].
    assert (Hn : length s = n) by (apply (proj1 (Forall_lookup _ _) (so_cells _ I1) _ _ H)).
    split; [apply lookup_lt_Some in H0; lia|]. intros Ho. destruct (H3 Ho) as (P & v & V1 & V2 & V3).
    split; [done|]. exists v. split; [done|]. split; [done|].
    rewrite H in V2. injection V2 as ->. rewrite Nat.add_1_r. rewrite (take_S_r _ _ x) by done. by f_equal.
  - (* get_done *)
    destruct (same_slots_inv c (set_readingNow false c) _ _ _ _ _ _ I) as (S1 & S2 & S3); try done.
    destruct I as [I1 I2 I3 I4 I5 I6 I7 I8]. cbn in *. split; cbn; try done.
    + by rewrite last_snoc.
    + intros v l o [Hin|Hin]%elem_of_app Ho; [by apply (I7 v l o)|]. apply list_elem_of_singleton in Hin.
      injection Hin as -> -> ->. destruct I6 as (_ & _ & _ & H3). destruct (H3 Ho) as (_ & v & V1 & V2 & V3).
      rewrite V1, V3, take_ge; [done|].
      assert (Hn : length v = n) by (apply (proj1 (Forall_lookup _ _) (so_cells _ I1) _ _ V2)). lia.
  - (* get_count *)
    destruct (same_slots_inv c (count_read c) _ _ _ _ _ _ I) as (S1 & S2 & S3); try done.
    destruct I as [I1 I2 I3 I4 I5 I6 I7 I8]. by split.
Qed.

Lemma comm_step_inv x y : inv x -> step x y -> inv y.
Proof.
  intros I Hs. assert (D : wp x = wp y \/ wp x <> wp y).
  { destruct Hs; cbn; auto; right; try done. intros E. injection E as E. lia. }
  destruct D; [by apply (comm_get_step_inv x)|by apply (comm_put_step_inv x)].
Qed.
Lemma reach_inv b v x : started b v -> rtc step (start b v) x -> inv x.
Proof.
  intros Hst Hr. assert (I : inv (start b v)) by (by apply comm_start_inv). clear Hst. revert I.
  induction Hr; [done|]. intros I. apply IHHr. by apply (comm_step_inv _ _ I).
Qed.

(** Neither thread waits for the other. *)
Lemma writer_goes_on x : inv x -> wp x <> WOut -> exists y, step x y /\ rp y = rp x.
Proof.
  intros [_ _ _ I4 _ _ _ _] Hw. destruct x as [c [|d i| | |] r pub ld ov res]; cbn in *; try done.
  - destruct I4 as (L & Hi & _). destruct (decide (i = n)) as [->|Hne]; [eexists; split; [apply put_publish|done]|].
    destruct (lookup_lt_is_Some_2 d i) as [a Ha]; [lia|]. eexists. split; [by apply put_copy|done].
  - eexists. split; [apply put_check|done].
  - eexists. split; [apply put_count|done].
  - eexists. split; [apply put_flag|done].
Qed.
Lemma reader_goes_on x : inv x -> rp x <> ROut -> exists y, step x y /\ wp y = wp x.
Proof.
  intros [I1 _ _ _ _ I6 _ _] Hw. destruct x as [c w [| | |tmp data|data] pub ld ov res]; cbn in *; try done.
  - eexists. split; [apply get_reading|done].
  - eexists. split; [apply get_load|done].
  - destruct I6 as (_ & Ht & Hl & _). destruct (decide (length data = n)) as [E|Hne]; [eexists; split; [by apply get_done|done]|].
    destruct (lookup_lt_is_Some_2 (buffer c) tmp) as [s Hs]; [rewrite (so_length _ I1); lia|].
    assert (Hn : length s = n) by (apply (proj1 (Forall_lookup _ _) (so_cells _ I1) _ _ Hs)).
    destruct (lookup_lt_is_Some_2 s (length data)) as [a Ha]; [lia|]. eexists. split; [by apply (get_copy _ _ _ _ _ _ _ _ s)|done].
  - eexists. split; [apply get_count|done].
Qed.

Lemma comm_put_spec data c :
  slots_ok c -> length data = n ->
  let c' := put data c in
  slots_ok c' /\ buffer c' !! reader c' = Some data /\ newDataAvailable c' = true /\ readingNow c' = readingNow c.
Proof.
  intros [L1 L2 (R1 & R2 & R3) (D1 & D2 & D3)] Hd. unfold put, avoid. cbn [publish copy_in readingNow].
  assert (Hb : Forall (fun s => length s = n) (<[writer c := data]> (buffer c))) by (by apply Forall_insert).
  assert (Hr : <[writer c := data]> (buffer c) !! writer c = Some data) by (apply list_lookup_insert_eq; lia).
  cbn zeta. destruct (readingNow c) eqn:Er; cbn; (split; [|by rewrite ?Er]); split; cbn; rewrite ?length_insert; auto.
Qed.
Lemma comm_get_spec c :
  slots_ok c -> exists v c', get c = Some (v, c') /\ buffer c !! reader c = Some v /\
    buffer c' = buffer c /\ reader c' = reader c /\ writer c' = writer c /\ intermediate c' = intermediate c /\
    newDataAvailable c' = false /\ readingNow c' = false.
Proof.
  intros [L1 L2 (R1 & R2 & R3) _]. unfold get. cbn [set_readingNow set_newDataAvailable reader buffer].
  destruct (lookup_lt_is_Some_2 (buffer c) (reader c)) as [v Hv]; [lia|]. rewrite Hv. cbn [mbind option_bind].
  by do 2 eexists.
Qed.

(** ** The steps make up the methods *)

Lemma copy_runs k data c i s r pub ld ov res :
  (n - i = k)%nat -> (i <= n)%nat -> length data = n -> buffer c !! writer c = Some s -> length s = n ->
  take i s = take i data ->
  rtc step (mkSys c (WCopy data i) r pub ld ov res) (mkSys (copy_in data c) (WCopy data n) r pub ld ov res).
Proof.
  revert c i s. induction k as [|k IH]; intros c i s Hk Hi Hd Hs Hl Ht.
  - assert (i = n) as -> by lia. rewrite !take_ge in Ht by lia. subst s.
    assert (E : copy_in data c = c); [|rewrite E; apply rtc_refl]. unfold copy_in. rewrite list_insert_id by done. by destruct c.
  - destruct (lookup_lt_is_Some_2 data i) as [a Ha]; [lia|].
    eapply rtc_l; [by apply put_copy|].
    assert (E : copy_in data c = copy_in data (set_cell (writer c) i a c)).
    { unfold copy_in, set_cell. cbn. f_equal. apply list_eq. intros j. destruct (decide (j = writer c)) as [->|Hj].
      - rewrite !list_lookup_insert_eq; [done|rewrite length_alter|]; by apply lookup_lt_Some in Hs.
      - rewrite !list_lookup_insert_ne by done. by rewrite list_lookup_alter_ne. }
    rewrite E. apply (IH _ (S i) (<[i := a]> s)); try lia; try done.
    + cbn. by rewrite list_lookup_alter_eq, Hs.
    + by rewrite length_insert.
    + rewrite (take_S_r _ _ a) by (apply list_lookup_insert_eq; lia). rewrite take_insert, decide_False by lia.
      rewrite Ht. symmetry. by apply take_S_r.
Qed.

Lemma put_runs data c r pub ld ov res :
  slots_ok c -> length data = n -> reading r = false ->
  rtc step (mkSys c WOut r pub ld ov res) (mkSys (put data c) WOut r (pub ++ [data]) ld ov res).
Proof.
  intros Hok Hd Hr. eapply rtc_l; [by apply put_begin|]. rewrite Hr.
  destruct (lookup_lt_is_Some_2 (buffer c) (writer c)) as [s Hs]; [rewrite (so_length _ Hok); apply Hok|].
  etrans.
  { apply (copy_runs n data c 0 s); try done; try lia. by apply (proj1 (Forall_lookup _ _) (so_cells _ Hok) _ _ Hs). }
  eapply rtc_l; [apply put_publish|]. eapply rtc_l; [apply put_check|].
  eapply rtc_l; [apply put_count|]. eapply rtc_l; [apply put_flag|]. apply rtc_refl.
Qed.

Lemma read_runs k tmp data c v w pub ld ov res :
  (n - length data = k)%nat -> buffer c !! tmp = Some v -> length v = n -> data = take (length data) v ->
  rtc step (mkSys c w (RCopy tmp data) pub ld ov res) (mkSys c w (RCopy tmp v) pub ld ov res).
Proof.
  revert data. induction k as [|k IH]; intros data Hk Hv Hn Hd.
  - rewrite take_ge in Hd by lia. subst data. apply rtc_refl.
  - destruct (lookup_lt_is_Some_2 v (length data)) as [a Ha]; [lia|].
    eapply rtc_l; [by apply (get_copy _ _ _ _ _ _ _ _ v)|]. apply IH; try done; rewrite length_app; cbn [length]; [lia|].
    rewrite Nat.add_1_r, (take_S_r _ _ a) by done. by f_equal.
Qed.

Lemma get_runs c w pub ld ov res :
  slots_ok c -> exists v c' ov', get c = Some (v, c') /\
    rtc step (mkSys c w ROut pub ld ov res) (mkSys c' w ROut pub (length pub) ov' (res ++ [(v, length pub, ov')])).
Proof.
  intros Hok. unfold get. cbn [set_readingNow set_newDataAvailable reader buffer].
  destruct (lookup_lt_is_Some_2 (buffer c) (reader c)) as [v Hv]; [rewrite (so_length _ Hok); apply Hok|].
  rewrite Hv. cbn [mbind option_bind].
  do 3 eexists. split; [done|].
  eapply rtc_l; [apply get_begin|]. eapply rtc_l; [apply get_reading|]. eapply rtc_l; [apply get_load|].
  assert (Hn : length v = n) by (by apply (proj1 (Forall_lookup _ _) (so_cells _ Hok) _ _ Hv)).
  etrans; [apply (read_runs n _ _ _ v); cbn; try done; lia|].
  eapply rtc_l; [by apply get_done|]. eapply rtc_l; [apply get_count|]. apply rtc_refl.
Qed.

(** ** Schedules *)

(** The next step of the writer, with the value for a new [put], and of the reader. *)
Definition wstep (d : list A) (x : sys) : option sys :=
  let '(mkSys c w r pub ld ov res) := x in
  match w with
  | WOut => if (length d =? n)%nat then Some (mkSys c (WCopy d 0) r pub ld (if reading r then S ov else ov) res) else None
  | WCopy data i =>
      match data !! i with
      | Some a => Some (mkSys (set_cell (writer c) i a c) (WCopy data (S i)) r pub ld ov res)
      | None => if (i =? n)%nat then Some (mkSys (publish c) WCheck r (pub ++ [data]) ld ov res) else None
      end
  | WCheck => Some (mkSys (avoid c) WCount r pub ld ov res)
  | WCount => Some (mkSys (count_write c) WFlag r pub ld ov res)
  | WFlag => Some (mkSys (set_newDataAvailable true c) WOut r pub ld ov res)
  end.
Definition rstep (x : sys) : option sys :=
  let '(mkSys c w r pub ld ov res) := x in
  match r with
  | ROut => Some (mkSys (set_newDataAvailable false c) w RBegin pub ld ov res)
  | RBegin => Some (mkSys (set_readingNow true c) w RLoad pub ld ov res)
  | RLoad => Some (mkSys c w (RCopy (reader c) []) pub (length pub) (match w with WCopy _ _ => 1 | _ => 0 end)%nat res)
  | RCopy tmp data =>
      if (length data =? n)%nat then Some (mkSys (set_readingNow false c) w (RCount data) pub ld ov (res ++ [(data, ld, ov)]))
      else s ← buffer c !! tmp; a ← s !! length data; Some (mkSys c w (RCopy tmp (data ++ [a])) pub ld ov res)
  | RCount data => Some (mkSys (count_read c) w ROut pub ld ov res)
  end.
(** [inl d] is a step of the writer, [inr tt] one of the reader. *)
Fixpoint schedule (l : list (list A + unit)) (x : sys) : option sys :=
  match l with
  | [] => Some x
  | inl d :: l => x ← wstep d x; schedule l x
  | inr _ :: l => x ← rstep x; schedule l x
  end.

Lemma wstep_step d x y : wstep d x = Some y -> step x y.
Proof.
  destruct x as [c [|data i| | |] r pub ld ov res]; cbn.
  - destruct (Nat.eqb_spec (length d) n); [|done]. intros [= <-]. by apply put_begin.
  - destruct (data !! i) as [a|] eqn:E; [intros [= <-]; by apply put_copy|].
    destruct (Nat.eqb_spec i n) as [->|]; [|done]. intros [= <-]. apply put_publish.
  - intros [= <-]. apply put_check.
  - intros [= <-]. apply put_count.
  - intros [= <-]. apply put_flag.
Qed.
Lemma rstep_step x y : rstep x = Some y -> step x y.
Proof.
  destruct x as [c w [| | |tmp data|data] pub ld ov res]; cbn.
  - intros [= <-]. apply get_begin.
  - intros [= <-]. apply get_reading.
  - intros [= <-]. apply get_load.
  - destruct (Nat.eqb_spec (length data) n); [intros [= <-]; by apply get_done|].
    destruct (buffer c !! tmp) as [s|] eqn:Es; [|done]. cbn. destruct (s !! length data) as [a|] eqn:Ea; [|done].
    intros [= <-]. by apply (get_copy _ _ _ _ _ _ _ _ s).
  - intros [= <-]. apply get_count.
Qed.
Lemma schedule_steps l x y : schedule l x = Some y -> rtc step x y.
Proof.
  revert x. induction l as [|[d|[]] l IH]; intros x E; cbn in E; [injection E as <-; apply rtc_refl| |].
  - destruct (wstep d x) as [z|] eqn:Ez; [|done]. eapply rtc_l; [by apply (wstep_step d)|by apply IH].
  - destruct (rstep x) as [z|] eqn:Ez; [|done]. eapply rtc_l; [by apply rstep_step|by apply IH].
Qed.

(** C24: However the steps of one writer and one reader interleave, [get] returns the
    last value that was complete when it looked for one, as long as at most two
    calls of [put] overlap its copying; no value is missed: when both are
    outside and there is no new data, the last [get] has looked after the last
    [put]; and neither waits for the other. *)
Theorem commbuffer_consistent b v x :
  started b v -> rtc step (start b v) x ->
  (forall d l o, (d, l, o) ∈ results x -> (o <= 2)%nat -> published x !! (l - 1)%nat = Some d) /\
  (wp x = WOut -> rp x = ROut -> newDataAvailable (cb x) = false ->
     match last (results x) with
     | Some (d, l, o) => (o <= 2)%nat -> last (published x) = Some d
     | None => published x = [v]
     end) /\
  (wp x <> WOut -> exists y, step x y /\ rp y = rp x) /\
  (rp x <> ROut -> exists y, step x y /\ wp y = wp x).
Proof.
  intros Hst Hr. pose proof (reach_inv b v x Hst Hr) as I. split; [apply (i_results _ I)|].
  split; [|split; [by apply writer_goes_on|by apply reader_goes_on]].
  intros Hw Hrd Hn. pose proof (i_fresh _ I Hn) as Hf. rewrite Hw, Hrd in Hf. specialize (Hf eq_refl eq_refl).
  pose proof (i_read _ I) as Hrd2. rewrite Hrd in Hrd2.
  destruct (last (results x)) as [[[d l] o]|] eqn:El.
  - intros Ho. subst l. apply last_Some_elem_of in El. pose proof (i_results _ I _ _ _ El Ho) as Hp.
    rewrite last_lookup, <- Hp, Hf. f_equal. lia.
  - assert (Hhead : head (published x) = Some v).
    { clear -Hr. assert (E : head (published (start b v)) = Some v) by done. revert E.
      induction Hr as [|x y z Hs _ IH]; [done|]. intros E. apply IH. destruct Hs; cbn in *; try done.
      by destruct pub. }
    destruct (published x) as [|a [|? ?]]; cbn in *; [lia|congruence|lia].
Qed.


End CommBuffer.
Arguments t : clear implicits.
Arguments sys : clear implicits.

(** ** Schedules of a buffer of pairs *)

Definition sample : list (list Z) := [[0; 0]; [1; 2]; [0; 0]].
Lemma sample_started : started 2 sample [1; 2].
Proof. split; [done|]. split; [repeat constructor|done]. Qed.

Definition puts (d : list Z) : list (list Z + unit) := replicate 7 (inl d).

(** A [get] that is overtaken by two calls of [put], and another one. *)
Definition overtaken : list (list Z + unit) :=
  replicate 4 (inr tt) ++ puts [3; 4] ++ puts [5; 6] ++ replicate 3 (inr tt) ++ replicate 7 (inr tt).

Lemma commbuffer_consistent_witness :
  exists x, rtc (step 2) (start sample [1; 2]) x /\ results x = [([1; 2], 1%nat, 2%nat); ([5; 6], 3%nat, 0%nat)] /\
    last (published x) = Some [5; 6].
Proof.
  destruct (schedule 2 overtaken (start sample [1; 2])) as [x|] eqn:E; [|vm_compute in E; discriminate].
  exists x. pose proof (schedule_steps 2 _ _ _ E) as Hr. split; [done|].
  destruct (commbuffer_consistent 2 sample [1; 2] x sample_started Hr) as (H1 & H2 & _).
  assert (Hx : results x = [([1; 2], 1%nat, 2%nat); ([5; 6], 3%nat, 0%nat)] /\ wp x = WOut /\ rp x = ROut /\
               newDataAvailable (cb x) = false).
  { vm_compute in E. injection E as <-. split_and!; reflexivity. }
  destruct Hx as (Hx & Hw & Hp & Hn). split; [done|]. specialize (H2 Hw Hp Hn). rewrite Hx in H2. cbn in H2. apply H2. lia.
Defined.

(** A third [put] writes into the slot that is read: [get] returns a value that
    nobody has put. *)
Example three_puts_tear :
  exists x, rtc (step 2) (start sample [1; 2]) x /\ results x = [([1; 8], 1%nat, 3%nat)] /\
    published x = [[1; 2]; [3; 4]; [5; 6]; [7; 8]].
Proof.
  destruct (schedule 2 (replicate 4 (inr tt) ++ puts [3; 4] ++ puts [5; 6] ++ puts [7; 8] ++ replicate 3 (inr tt))
              (start sample [1; 2])) as [x|] eqn:E; [|vm_compute in E; discriminate].
  exists x. split; [by apply (schedule_steps 2 _ _ _ E)|]. vm_compute in E. by injection E as <-.
Qed.

(** [putGeneric] takes a message that is shorter than the type, and reads on behind
    it. *)
Example putGeneric_short : (putGeneric 2 1 [7] [9] (init sample)).1 = true /\
  buffer (putGeneric 2 1 [7] [9] (init sample)).2 !! 0%nat = Some [7; 9].
Proof. done. Qed.

End CommBuffer.
