(* ===== verification/SyncCommBuffer.v ===== *)
(** * The communication buffer with a blocking read (support-libs/synccommbuffer.h)

    [syncGet] waits until there is new data or its time is over; [put] resumes the
    reader that waits.  Only the sections under the priority ceiling are one step;
    between them, and inside [put] and [get], the threads interleave at every access
    to the buffer, as in [CommBuffer]. *)

From S2P Require Import Prelude TimeEvents Scheduler ThreadOps SyncFifo CommBuffer.

#[local] Open Scope Z_scope.

Module SyncCommBuffer.
Import TimeModel Scheduler ThreadOps.

Section SyncCommBuffer.
Context {A : Type} (n : nat) (NOW : nat -> Z).

(** The section of [put] after the buffer got the value. *)
Definition put_notify (suspendedReader : option nat) (k : kernel) : option kernel := notify suspendedReader k.
Definition clearDataState (c : CommBuffer.t A) : CommBuffer.t A := CommBuffer.set_newDataAvailable false c.

(** The section of [syncGet] up to the suspension: the priority to restore, when
    there is one, and [suspendedReader]. *)
Definition syncGet_locked (timeout : Z) (newDataAvailable : bool) (suspendedReader : option nat) (k : kernel)
    : option (option Z * option nat * kernel) :=
  '(previousPriority, k) ← setPrioCurrentRunner CEILING_PRIORITY k;
  if newDataAvailable then
    '(_, k) ← setPrioCurrentRunner previousPriority k; Some (None, suspendedReader, k)
  else
    let suspendedReader := Some (currentThread k) in
    '(suspended, k) ← SyncFifo.suspend_for NOW timeout k;
    if (suspended : bool) then Some (Some previousPriority, suspendedReader, k)
    else '(_, k) ← setPrioCurrentRunner previousPriority k; Some (None, None, k).
(** The rest of the section when the reader continues; [suspendedReader] is null
    then. *)
Definition syncGet_wakeup (previousPriority : Z) (k : kernel) : option (option nat * kernel) :=
  '(_, k) ← suspendCaller_end (currentThread k) k;
  '(_, k) ← setPrioCurrentRunner previousPriority k; Some (None, k).

(** ** A writer and a reader *)

(** Where the reader is in [syncGet]; in [RGet] it is in [get], and has read [ok],
    when [looked] calls of [put] had set the flag. *)
Inductive rpc :=
  | ROut
  | RSuspended (previousPriority : Z)
  | RLook                               (** after the section *)
  | RGet (ok : bool) (looked : nat).

(** What [syncGet] has returned, with the number of calls of [put] that had set the
    flag when it was read, and when it was cleared; [g_loaded] and [g_overlap] are
    those of [CommBuffer]. *)
Record got := mkGot {
  g_ok : bool; g_data : list A; g_looked : nat; g_cleared : nat; g_loaded : nat; g_overlap : nat
}.
(** [notifying] is the writer between the flag and its section; [cleared] is the
    number of calls of [put] that had set the flag when it was last cleared. *)
Record sys := mkSys {
  cs : CommBuffer.sys A;
  suspendedReader : option nat;
  kn : kernel;
  notifying : bool;
  rp : rpc;
  cleared : nat;
  gets : list got
}.
Definition flag (x : sys) : bool := CommBuffer.newDataAvailable (CommBuffer.cb (cs x)).
(** The calls of [put] that have set the flag. *)
Definition finished (c : CommBuffer.sys A) : nat :=
  (length (CommBuffer.published c) - 1 - if CommBuffer.flagging (CommBuffer.wp c) then 1 else 0)%nat.

Definition w_out (c : CommBuffer.sys A) : bool := match CommBuffer.wp c with CommBuffer.WOut => true | _ => false end.
Definition r_out (c : CommBuffer.sys A) : bool := match CommBuffer.rp c with CommBuffer.ROut => true | _ => false end.

Inductive action :=
  | APut (data : list A)                (** the next step of [put], or the first one of [put data] *)
  | ANotify
  | AGet (timeout : Z)
  | AReader
  | AResumed (i : nat).

(** A step of [get]; what it returns is recorded. *)
Definition get_step (ok : bool) (looked : nat) (k : kernel) (x : sys) : option sys :=
  c ← CommBuffer.rstep n (cs x);
  let cl := if r_out (cs x) then finished (cs x) else cleared x in
  if r_out c then
    '(data, l, o) ← last (CommBuffer.results c);
    Some (mkSys c (suspendedReader x) k (notifying x) ROut cl (gets x ++ [mkGot ok data looked cl l o]))
  else Some (mkSys c (suspendedReader x) k (notifying x) (RGet ok looked) cl (gets x)).

(** Thread [w] is the writer and [r] the reader; anyone may resume a thread. *)
Definition step (w r : nat) (a : action) (x : sys) : option sys :=
  match a, notifying x, rp x with
  | AResumed i, _, _ => Some (mkSys (cs x) (suspendedReader x) (resume i (kn x)) (notifying x) (rp x) (cleared x) (gets x))
  | APut data, false, _ =>
      k ← runs w (kn x);
      c ← CommBuffer.wstep n data (cs x);
      Some (mkSys c (suspendedReader x) k (w_out c) (rp x) (cleared x) (gets x))
  | ANotify, true, _ =>
      k ← runs w (kn x);
      k ← put_notify (suspendedReader x) k;
      Some (mkSys (cs x) (suspendedReader x) k false (rp x) (cleared x) (gets x))
  | AGet timeout, _, ROut =>
      k ← runs r (kn x);
      '(o, s, k) ← syncGet_locked timeout (flag x) (suspendedReader x) k;
      Some (mkSys (cs x) s k (notifying x) (match o with Some p => RSuspended p | None => RLook end) (cleared x) (gets x))
  | AReader, _, RSuspended p =>
      k ← runs r (kn x);
      '(s, k) ← syncGet_wakeup p k;
      Some (mkSys (cs x) s k (notifying x) RLook (cleared x) (gets x))
  | AReader, _, RLook =>
      k ← runs r (kn x);
      Some (mkSys (cs x) (suspendedReader x) k (notifying x) (RGet (flag x) (finished (cs x))) (cleared x) (gets x))
  | AReader, _, RGet ok looked => k ← runs r (kn x); get_step ok looked k x
  | _, _, _ => None
  end.
Fixpoint run (w r : nat) (l : list action) (x : sys) : option sys :=
  match l with
  | [] => Some x
  | a :: l => x ← step w r a x; run w r l x
  end.

(** ** Steps of the buffer *)

Lemma wstep_effect d c c' :
  CommBuffer.wstep n d c = Some c' -> (1 <= length (CommBuffer.published c))%nat ->
  (CommBuffer.flagging (CommBuffer.wp c) = true -> (2 <= length (CommBuffer.published c))%nat) ->
  CommBuffer.rp c' = CommBuffer.rp c /\ CommBuffer.results c' = CommBuffer.results c /\
  CommBuffer.loaded c' = CommBuffer.loaded c /\
  (exists m, CommBuffer.published c' = CommBuffer.published c ++ m) /\
  (CommBuffer.flagging (CommBuffer.wp c') = true -> (2 <= length (CommBuffer.published c'))%nat) /\
  (if w_out c' then CommBuffer.newDataAvailable (CommBuffer.cb c') = true /\ finished c' = S (finished c)
   else CommBuffer.newDataAvailable (CommBuffer.cb c') = CommBuffer.newDataAvailable (CommBuffer.cb c) /\ finished c' = finished c).
Proof.
  destruct c as [b [|data i| | |] r pub ld ov res]; cbn; intros E H1 H2.
  - destruct (length d =? n)%nat; [|done]. injection E as <-. split_and!; try done. by exists []; rewrite app_nil_r.
  - destruct (data !! i); [|destruct (i =? n)%nat; [|done]]; injection E as <-; cbn; split_and!; try done.
    + by exists []; rewrite app_nil_r.
    + by eexists.
    + intros _. rewrite length_app. cbn. lia.
    + unfold finished. cbn. rewrite length_app. cbn. lia.
  - injection E as <-. split_and!; try done; [by exists []; rewrite app_nil_r|]. unfold CommBuffer.avoid. by destruct (CommBuffer.readingNow b).
  - injection E as <-. split_and!; try done. by exists []; rewrite app_nil_r.
  - injection E as <-. specialize (H2 eq_refl). split_and!; try done; [by exists []; rewrite app_nil_r|]. unfold finished. cbn. lia.
Qed.

(** ** Invariant *)

Section Invariant.
Variables (w r : nat) (bw br : Z) (v0 : list A).
Hypothesis Hwr : w <> r.

(** The puts that the last [get] counts as read. *)
Definition seen (l : list got) : nat := match last l with Some g => g_cleared g | None => 0 end.

(** What [syncGet] has returned: the flag tells whether a [put] has finished since
    the last [get] began; the value was put and is not older than the last one that
    was finished when the flag was read, as long as at most two calls of [put]
    overlap the copying. *)
Fixpoint gets_ok (pub : list (list A)) (before : nat) (l : list got) : Prop :=
  match l with
  | [] => True
  | g :: l =>
      g_ok g = (before <? g_looked g)%nat /\ (before <= g_looked g <= g_cleared g)%nat /\ (g_cleared g < g_loaded g)%nat /\
      ((g_overlap g <= 2)%nat -> pub !! (g_loaded g - 1)%nat = Some (g_data g)) /\ gets_ok pub (g_cleared g) l
  end.

(** The reader inside [syncGet]. *)
Definition get_ok (x : sys) : Prop :=
  match rp x with
  | RGet ok looked =>
      ok = (seen (gets x) <? looked)%nat /\ (seen (gets x) <= looked)%nat /\
      match CommBuffer.rp (cs x) with
      | CommBuffer.ROut => cleared x = seen (gets x) /\ (looked <= finished (cs x))%nat
      | CommBuffer.RBegin | CommBuffer.RLoad => (looked <= cleared x)%nat
      | CommBuffer.RCopy _ _ => (looked <= cleared x)%nat /\ (cleared x < CommBuffer.loaded (cs x))%nat
      | CommBuffer.RCount _ => (looked <= cleared x)%nat /\
          exists d l o, last (CommBuffer.results (cs x)) = Some (d, l, o) /\ (cleared x < l)%nat
      end
  | _ => CommBuffer.rp (cs x) = CommBuffer.ROut /\ cleared x = seen (gets x)
  end.

(** The thread [self] with its own priority [base], the pointer to the reader, and
    the priority saved when it is suspended. *)
Definition reader_ok (v : option (Z * Z)) (ptr : option nat) (p : rpc) : Prop :=
  exists q u, v = Some (q, u) /\
    match p with
    | RSuspended prev => prev = br /\ ptr = Some r
    | _ => q = br /\ u < END_OF_TIME /\ ptr = None
    end.
Definition stuck (x : sys) : Prop :=
  (exists p, rp x = RSuspended p) /\ exists q u, vw (kn x) r = Some (q, u) /\ END_OF_TIME <= u.

Record inv (x : sys) : Prop := {
  inv_comm : CommBuffer.inv n (cs x);
  inv_two : CommBuffer.flagging (CommBuffer.wp (cs x)) = true -> (2 <= length (CommBuffer.published (cs x)))%nat;
  inv_new : flag x = (cleared x <? finished (cs x))%nat;
  inv_cleared : (cleared x <= finished (cs x))%nat;
  inv_gets : gets_ok (CommBuffer.published (cs x)) 0 (gets x);
  inv_get : get_ok x;
  inv_w : exists u, vw (kn x) w = Some (bw, u) /\ u < END_OF_TIME;
  inv_r : reader_ok (vw (kn x) r) (suspendedReader x) (rp x);
  inv_wake : stuck x -> flag x = true -> notifying x = true
}.

Lemma gets_ok_more l p b m : gets_ok p b l -> gets_ok (p ++ m) b l.
Proof.
  revert b. induction l as [|g l IH]; intros b; [done|]. intros (H1 & H2 & H3 & H4 & H5).
  split_and!; [done|lia|lia|done| |by auto]. intros Ho. by apply lookup_app_l_Some, H4.
Qed.
Lemma gets_ok_snoc l p b g :
  gets_ok p b l -> gets_ok p (match last l with Some g => g_cleared g | None => b end) [g] -> gets_ok p b (l ++ [g]).
Proof.
  revert b. induction l as [|g' l IH]; intros b H1 H2; [done|].
  destruct H1 as (E1 & E2 & E3 & E4 & E5). cbn [app]. split; [done|]. split; [done|]. split; [done|]. split; [done|].
  apply IH; [done|]. rewrite last_cons in H2. by destruct (last l).
Qed.
Lemma published_one x : inv x -> (1 <= length (CommBuffer.published (cs x)))%nat.
Proof. intros Hi. pose proof (CommBuffer.i_loaded _ _ (inv_comm _ Hi)). lia. Qed.

Lemma sync_put_inv x data x' : inv x -> step w r (APut data) x = Some x' -> inv x'.
Proof.
  intros Hi. pose proof (published_one x Hi) as Hone. destruct Hi as [I1 I2 I3 I4 I5 I6 I7 I8 I9]. unfold step.
  destruct (notifying x) eqn:Hn; [done|].
  destruct (runs w (kn x)) as [k|] eqn:Hr; [|done]. cbn [mbind option_bind].
  destruct (CommBuffer.wstep n data (cs x)) as [c|] eqn:Hw; [|done]. cbn [mbind option_bind]. intros [= <-].
  destruct (runs_spec _ _ _ Hr) as (_ & Hk & _). destruct (wstep_effect _ _ _ Hw Hone I2) as (W1 & W2 & W3 & (m & W4) & W5 & W6).
  assert (Hc : CommBuffer.inv n c) by (by apply (CommBuffer.comm_step_inv n (cs x)), (CommBuffer.wstep_step n data)).
  assert (Hf : (finished (cs x) <= finished c)%nat) by (destruct (w_out c); destruct W6; lia). unfold flag in *.
  split; cbn [cs kn notifying rp gets cleared suspendedReader]; rewrite ?Hk; try done; unfold flag; cbn [cs].
  - destruct (w_out c); destruct W6 as [-> ->]; [|done]. symmetry. apply Nat.ltb_lt. lia.
  - lia.
  - rewrite W4. by apply gets_ok_more.
  - unfold get_ok in *. cbn [cs rp gets cleared]. rewrite W1, W2, W3.
    destruct (rp x); try done. destruct I6 as (G1 & G2 & G3). split; [done|]. split; [done|].
    destruct (CommBuffer.rp (cs x)); try done. destruct G3. split; [done|lia].
  - intros Hst Hnew. destruct (w_out c); [done|]. destruct W6 as [E _]. rewrite <- I9; [done| |by rewrite <- E].
    destruct Hst as [Hp (q & u & Hv & Hu)]. split; [exact Hp|]. exists q, u. cbn [kn] in Hv. by rewrite <- Hk.
Qed.

(** The reader is not in the code of [syncGet] that the buffer knows. *)
Definition resting (p : rpc) : bool := match p with RGet _ _ => false | _ => true end.
Lemma get_ok_rest x c p ptr k no : get_ok x -> resting (rp x) = true -> resting p = true -> c = cs x ->
  get_ok (mkSys c ptr k no p (cleared x) (gets x)).
Proof. unfold get_ok. cbn [cs rp gets cleared]. intros Hg H1 H2 ->. by destruct (rp x), p. Qed.

Lemma sync_notify_inv x x' : inv x -> step w r ANotify x = Some x' -> inv x'.
Proof.
  intros [I1 I2 I3 I4 I5 I6 (u & Hw & Hu) I8 I9]. unfold step. destruct (notifying x); [|done].
  destruct (runs w (kn x)) as [k|] eqn:Hr; [|done]. cbn [mbind option_bind].
  destruct (put_notify (suspendedReader x) k) as [k'|] eqn:Hn; [|done]. cbn [mbind option_bind]. intros [= <-].
  destruct (runs_spec _ _ _ Hr) as (Hc & Hk & _).
  assert (Hptr : suspendedReader x = match rp x with RSuspended _ => Some r | _ => None end).
  { destruct I8 as (q & u' & _ & H'). destruct (rp x); tauto. }
  pose proof (notify_view (suspendedReader x) k bw u k') as Hl. unfold put_notify in Hn. rewrite Hc in Hl. specialize (Hl ltac:(by rewrite Hk)).
  specialize (Hl ltac:(rewrite Hptr; destruct (rp x); congruence) Hn).
  assert (Hlw : vw k' w = vw (kn x) w).
  { rewrite Hl, Hk. rewrite decide_False; [done|]. rewrite Hptr. destruct (rp x); congruence. }
  split; try done.
  - exists u. cbn [kn]. by rewrite Hlw.
  - cbn [kn suspendedReader rp]. rewrite Hl, Hk, Hptr. destruct I8 as (q & u' & Hv & H'). destruct (rp x); cbn [reader_ok] in *.
    2:{ rewrite decide_True by done. rewrite Hv. exists q, 0. tauto. }
    all: rewrite decide_False by done; exists q, u'; tauto.
  - intros [(p & Hp) (q & u' & Hv & Hu')]. exfalso. cbn [kn rp] in *. rewrite Hl, Hk, Hptr, Hp, decide_True in Hv by done.
    destruct I8 as (q' & u2 & Hv2 & _). rewrite Hv2 in Hv. injection Hv as _ <-. done.
Qed.

Lemma sync_get_inv x timeout x' :
  inv x -> step w r (AGet timeout) x = Some x' -> inv x'.
Proof.
  intros [I1 I2 I3 I4 I5 I6 I7 I8 I9]. unfold step. destruct (rp x) eqn:Hrp; try done.
  destruct (runs r (kn x)) as [k|] eqn:Hr; [|done]. cbn [mbind option_bind].
  destruct (runs_spec _ _ _ Hr) as (Hc & Hk & q & u & Hv & Hu).
  destruct I8 as (q' & u' & Hv' & Hq & Hu' & Hptr). rewrite Hv in Hv'. injection Hv' as <- <-. subst q.
  unfold syncGet_locked. assert (Hvk : vw k (currentThread k) = Some (br, u)) by (by rewrite Hc, Hk).
  destruct (ceiling_view k br u Hvk) as (k1 & -> & Hc1 & Hl1). cbn [mbind option_bind].
  assert (Hrest : forall ptr k p, resting p = true -> get_ok (mkSys (cs x) ptr k (notifying x) p (cleared x) (gets x))).
  { intros. apply get_ok_rest; try done. by rewrite Hrp. }
  assert (Hback : forall k1 u1, currentThread k1 = currentThread k ->
      (forall j, vw k1 j = if decide (j = currentThread k) then Some (CEILING_PRIORITY, u1) else vw k j) ->
      u1 < END_OF_TIME ->
      exists k2, setPrioCurrentRunner br k1 = Some (CEILING_PRIORITY, k2) /\
        inv (mkSys (cs x) None k2 (notifying x) RLook (cleared x) (gets x))).
  { intros k2 u1 Hc2 Hl2 Hu1. destruct (restore_view k k2 br u u1 _ Hvk Hc2 Hl2) as (k3 & E3 & Hl3).
    exists k3. split; [done|]. rewrite Hc in Hl3. destruct (other_view _ _ _ _ _ Hk Hl3) as [Hme Hoth].
    split; cbn [cs kn notifying rp gets cleared suspendedReader]; try done; [by apply Hrest| | |].
    - destruct I7 as (uw & Hw & Huw). exists uw. by rewrite Hoth.
    - rewrite Hme. by exists br, u1.
    - by intros [(p & [=]) _]. }
  destruct (flag x) eqn:Hnew.
  - destruct (Hback k1 u Hc1 Hl1 Hu) as (k2 & -> & Hi). cbn [mbind option_bind]. intros [= <-]. by rewrite Hptr.
  - destruct (SyncFifo.suspend_for NOW timeout k1) as [[b k2]|] eqn:Hs; [|done]. cbn [mbind option_bind].
    assert (Hv1 : vw k1 (currentThread k1) = Some (CEILING_PRIORITY, u)) by (by rewrite Hl1, Hc1, decide_True).
    destruct (SyncFifo.suspend_for_view NOW timeout k1 _ _ _ Hv1 Hs)
      as [(Ht & [= -> ->])|(Ht & time & k' & [= -> ->] & Hc2 & Hend & Hl2)].
    + destruct (Hback k1 u Hc1 Hl1 Hu) as (k3 & -> & Hi). cbn [mbind option_bind]. by intros [= <-].
    + intros [= <-]. rewrite Hc1, Hc in Hl2.
      assert (Hme : vw k' r = Some (CEILING_PRIORITY, time)) by (by rewrite Hl2, decide_True).
      assert (Hoth : forall j, j <> r -> vw k' j = vw (kn x) j).
      { intros j Hj. rewrite Hl2, decide_False, Hl1, Hc, decide_False by done. apply Hk. }
      split; cbn [cs kn notifying rp gets cleared suspendedReader]; try done.
      * by rewrite <- I3.
      * by apply Hrest.
      * destruct I7 as (uw & Hw & Huw). exists uw. by rewrite Hoth.
      * rewrite Hme. exists CEILING_PRIORITY, time. split; [done|]. split; [done|]. by rewrite Hc1, Hc.
      * unfold flag in *. cbn [cs]. by rewrite Hnew.
Qed.

(** A step of [get]. *)
Lemma rstep_effect c c' :
  CommBuffer.rstep n c = Some c' ->
  CommBuffer.wp c' = CommBuffer.wp c /\ CommBuffer.published c' = CommBuffer.published c /\
  CommBuffer.newDataAvailable (CommBuffer.cb c') = (if r_out c then false else CommBuffer.newDataAvailable (CommBuffer.cb c)) /\
  match CommBuffer.rp c, CommBuffer.rp c' with
  | CommBuffer.ROut, CommBuffer.RBegin | CommBuffer.RBegin, CommBuffer.RLoad => True
  | CommBuffer.RLoad, CommBuffer.RCopy _ _ => CommBuffer.loaded c' = length (CommBuffer.published c)
  | CommBuffer.RCopy _ _, CommBuffer.RCopy _ _ => CommBuffer.loaded c' = CommBuffer.loaded c
  | CommBuffer.RCopy _ _, CommBuffer.RCount _ => exists d o, last (CommBuffer.results c') = Some (d, CommBuffer.loaded c, o)
  | CommBuffer.RCount _, CommBuffer.ROut => CommBuffer.results c' = CommBuffer.results c
  | _, _ => False
  end.
Proof.
  destruct c as [b wp [| | |tmp data|data] pub ld ov res]; cbn; try (by intros [= <-]).
  destruct (length data =? n)%nat.
  - intros [= <-]. split_and!; try done. cbn. rewrite last_snoc. by eexists _, _.
  - destruct (CommBuffer.buffer b !! tmp) as [s|]; [|done]. cbn [mbind option_bind]. destruct (s !! length data); [|done].
    cbn [mbind option_bind]. by intros [= <-].
Qed.

Lemma sync_get_step_inv ok looked k x x' :
  inv x -> rp x = RGet ok looked -> (forall j, vw k j = vw (kn x) j) -> get_step ok looked k x = Some x' -> inv x'.
Proof.
  intros Hi Hrp Hk. pose proof (published_one x Hi) as Hone. destruct Hi as [I1 I2 I3 I4 I5 I6 I7 I8 I9]. unfold get_step.
  destruct (CommBuffer.rstep n (cs x)) as [c|] eqn:Hs; [|done]. cbn [mbind option_bind]. cbv zeta.
  destruct (rstep_effect _ _ Hs) as (W1 & W2 & W3 & W4).
  assert (Hc : CommBuffer.inv n c) by (by apply (CommBuffer.comm_step_inv n (cs x)), CommBuffer.rstep_step).
  assert (Hfin : finished c = finished (cs x)) by (unfold finished; by rewrite W1, W2).
  assert (Hlt : (finished (cs x) < length (CommBuffer.published (cs x)))%nat) by (unfold finished; lia).
  unfold get_ok in I6. rewrite Hrp in I6. destruct I6 as (G1 & G2 & G3). unfold flag in *.
  set (cl := if r_out (cs x) then finished (cs x) else cleared x).
  assert (Hcl : (cl <= finished (cs x))%nat) by (unfold cl; destruct (r_out (cs x)); lia).
  assert (Hnew : CommBuffer.newDataAvailable (CommBuffer.cb c) = (cl <? finished c)%nat).
  { rewrite Hfin, W3. unfold cl. destruct (r_out (cs x)); [symmetry; apply Nat.ltb_irrefl|done]. }
  assert (Hr : forall p, (match p with RSuspended _ => False | _ => True end) -> reader_ok (vw k r) (suspendedReader x) p).
  { intros p Hp. rewrite Hk. destruct I8 as (q & u & Hv & H'). rewrite Hrp in H'. exists q, u. split; [done|]. by destruct p. }
  destruct (r_out c) eqn:Hout.
  - destruct (CommBuffer.rp (cs x)) eqn:Ecr, (CommBuffer.rp c) eqn:Ecr'; unfold r_out in Hout; rewrite ?Ecr' in Hout; try done.
    destruct G3 as (G3 & d' & l & o & El & Hl). rewrite W4, El. cbn [mbind option_bind]. intros [= <-].
    assert (Ecl : cl = cleared x) by (unfold cl, r_out; by rewrite Ecr).
    split; cbn [cs kn notifying rp gets cleared suspendedReader]; rewrite ?W1, ?W2; try done; unfold flag; cbn [cs].
    + by rewrite Hfin.
    + apply gets_ok_snoc; [done|]. fold (seen (gets x)). split; [done|]. split; [cbn; lia|]. split; [cbn; lia|]. split; [|done].
      cbn. intros Ho. rewrite <- W2. apply (CommBuffer.i_results _ _ Hc d' l o); [|done]. rewrite W4. by apply last_Some_elem_of.
    + unfold get_ok. cbn [cs rp gets cleared]. split; [done|]. unfold seen. by rewrite last_snoc.
    + destruct I7 as (u & Hw & Hu). exists u. by rewrite Hk.
    + by apply Hr.
    + by intros [(p & [=]) _].
  - intros [= <-].
    split; cbn [cs kn notifying rp gets cleared suspendedReader]; rewrite ?W1, ?W2; try done; unfold flag; cbn [cs].
    + by rewrite Hfin.
    + unfold get_ok. cbn [cs rp gets cleared]. split; [done|]. split; [done|]. unfold cl, r_out.
      destruct (CommBuffer.rp (cs x)) eqn:Ecr, (CommBuffer.rp c) eqn:Ecr'; try done; try tauto;
        try (unfold r_out in Hout; by rewrite Ecr' in Hout).
      * split; [done|]. rewrite W4. lia.
      * split; [tauto|]. rewrite W4. tauto.
      * split; [tauto|]. destruct W4 as (d & o & El). exists d, (CommBuffer.loaded (cs x)), o. split; [done|]. tauto.
    + destruct I7 as (u & Hw & Hu). exists u. by rewrite Hk.
    + by apply Hr.
    + by intros [(p & [=]) _].
Qed.

Lemma sync_reader_inv x x' : inv x -> step w r AReader x = Some x' -> inv x'.
Proof.
  intros Hi. unfold step. destruct (rp x) as [|p| |ok looked] eqn:Hrp; [done| | |];
    (destruct (runs r (kn x)) as [k|] eqn:Hr; [|done]); cbn [mbind option_bind];
    destruct (runs_spec _ _ _ Hr) as (Hc & Hk & q & u & Hv & Hu).
  3: by apply (sync_get_step_inv ok looked k).
  all: destruct Hi as [I1 I2 I3 I4 I5 I6 I7 I8 I9].
  all: destruct I8 as (q' & u' & Hv' & Hq); rewrite Hrp in Hq; rewrite Hv in Hv'; injection Hv' as <- <-.
  - destruct Hq as [-> Hptr]. unfold syncGet_wakeup.
    destruct (wakeup_view br k q u) as (b & k1 & p1 & k2 & -> & Hp & Hl); [by rewrite Hc, Hk|].
    cbn [mbind option_bind]. rewrite Hp. cbn [mbind option_bind]. intros [= <-].
    rewrite Hc in Hl. destruct (other_view _ _ _ _ _ Hk Hl) as [Hme Hoth].
    split; cbn [cs kn notifying rp gets cleared suspendedReader]; try done.
    + apply get_ok_rest; try done. by rewrite Hrp.
    + destruct I7 as (uw & Hw & Huw). exists uw. by rewrite Hoth.
    + rewrite Hme. by exists br, u.
    + by intros [(p & [=]) _].
  - intros [= <-]. unfold get_ok in I6. rewrite Hrp in I6. destruct I6 as [G1 G2].
    split; cbn [cs kn notifying rp gets cleared suspendedReader]; rewrite ?Hk; try done.
    + unfold get_ok. cbn [cs rp gets cleared]. rewrite G1. rewrite I3, G2. rewrite G2 in I4. done.
    + destruct Hq as (-> & _ & Hptr). by exists br, u.
    + by intros [(p & [=]) _].
Qed.

Lemma sync_step_inv a x x' : inv x -> step w r a x = Some x' -> inv x'.
Proof.
  intros Hi E. destruct a as [d| |timeout| |i].
  - by apply (sync_put_inv x d).
  - by apply (sync_notify_inv x).
  - by apply (sync_get_inv x timeout).
  - by apply (sync_reader_inv x).
  - injection E as <-. destruct Hi as [I1 I2 I3 I4 I5 I6 (uw & Hw & Huw) (q & u & Hv & Hr) I9].
    assert (Hl : forall j, vw (resume i (kn x)) j = if decide (j = i) then (fun v => (v.1, 0)) <$> vw (kn x) j else vw (kn x) j).
    { intros j. rewrite (vw_to _ _ _ (fun j v => if decide (j = i) then (v.1, 0) else v) (resume_to i (kn x))).
      - destruct (decide (j = i)); [done|]. by destruct (vw (kn x) j) as [[]|].
      - intros j' t'. by destruct (decide (j' = i)). }
    split; cbn [cs kn notifying rp gets cleared suspendedReader]; try done.
    + rewrite Hl, Hw. destruct (decide (w = i)); [by exists 0|by exists uw].
    + rewrite Hl, Hv. destruct (decide (r = i)); [|by exists q, u]. exists q, 0. split; [done|].
      destruct (rp x); try tauto; destruct Hr as (? & ? & ?); done.
    + intros [Hp (q' & u' & Hv' & Hu')]. apply I9. split; [exact Hp|]. cbn [kn] in Hv'. rewrite Hl, Hv in Hv'.
      destruct (decide (r = i)); [cbn in Hv'; injection Hv' as <- <-; done|]. exists q', u'. by rewrite Hv.
Qed.
Lemma sync_run_inv l x x' : inv x -> run w r l x = Some x' -> inv x'.
Proof.
  revert x. induction l as [|a l IH]; intros x Hi E; cbn in E; [by injection E as <-|].
  destruct (step w r a x) as [y|] eqn:Ey; [|done]. apply (IH y); [|exact E]. by apply (sync_step_inv a x).
Qed.

(** A new buffer and two threads that run. *)
Record start (x : sys) : Prop := {
  st_buffer : exists b, CommBuffer.started n b v0 /\ cs x = CommBuffer.start b v0;
  st_out : suspendedReader x = None /\ notifying x = false /\ rp x = ROut /\ cleared x = 0%nat /\ gets x = [];
  st_w : exists u, vw (kn x) w = Some (bw, u) /\ u < END_OF_TIME;
  st_r : exists u, vw (kn x) r = Some (br, u) /\ u < END_OF_TIME
}.
Lemma sync_start_inv x : start x -> inv x.
Proof.
  intros [(b & Hb & Hs) (H0 & H1 & H2 & H3 & H4) Hw (u & Hr & Hu)]. pose proof (CommBuffer.comm_start_inv n b v0 Hb) as Hi.
  split; unfold flag, get_ok; rewrite ?H0, ?H1, ?H2, ?H3, ?H4, ?Hs; try done.
  by exists br, u.
Qed.

(** C25: However a writer, a reader and others who resume them interleave, at every
    access to the buffer: the flag that [syncGet] returns tells whether a [put] has
    set it since the [get] before cleared it, and the value is one that was put, no
    older than the last [put] that had finished when the flag was read, as long as
    at most two calls of [put] overlap the copying; and a reader that waits without
    a limit is not left alone with new data: the writer that brought it is on its
    way to resume it, and does. *)
Theorem synccommbuffer_delivers l x x' :
  start x -> run w r l x = Some x' ->
  gets_ok (CommBuffer.published (cs x')) 0 (gets x') /\
  (stuck x' -> flag x' = true ->
     exists y, step w r ANotify x' = Some y /\ ~ stuck y /\ rp y = rp x').
Proof.
  intros Hst Hrun. pose proof (sync_run_inv l x x' (sync_start_inv x Hst) Hrun) as Hi. split; [apply Hi|].
  intros Hstuck Hnew. pose proof (inv_wake _ Hi Hstuck Hnew) as Hn.
  destruct (inv_w _ Hi) as (u & Hw & Hu). destruct (runs_ok w (kn x') bw u Hw Hu) as (k & Ek & Hc & Hk).
  assert (Hptr : suspendedReader x' = Some r).
  { destruct Hstuck as [(p & Hp) _]. pose proof (inv_r _ Hi) as (q & u' & _ & H'). rewrite Hp in H'. tauto. }
  destruct (notify_ok (suspendedReader x') k bw u) as (k' & En & Hl').
  { by rewrite Hc, Hk. }
  { rewrite Hptr, Hc. congruence. }
  exists (mkSys (cs x') (suspendedReader x') k' false (rp x') (cleared x') (gets x')). unfold step. rewrite Hn, Ek. cbn [mbind option_bind].
  unfold put_notify. rewrite En. split; [done|]. split; [|done].
  intros [_ (q & u' & Hv & Hu')]. cbn [kn] in Hv. rewrite Hl', Hptr, decide_True in Hv by done.
  destruct (vw k r) as [[? ?]|]; cbn in Hv; [|done]. injection Hv as _ <-. done.
Qed.

End Invariant.
End SyncCommBuffer.

(** ** Two threads *)

Definition sample : sys := mkSys (CommBuffer.start CommBuffer.sample [1; 2]) None SyncFifo.sampleKernel false ROut 0 [].
Lemma synccommbuffer_sample_start : start (A := Z) 2 1 2 100 200 [1; 2] sample.
Proof.
  split; try done.
  - exists CommBuffer.sample. split; [apply CommBuffer.sample_started|done].
  - by exists 0.
  - by exists 0.
Qed.
(** A whole [put], up to the section. *)
Definition put_all (d : list Z) : list (action (A := Z)) := replicate 7 (APut d).

(** The reader waits, the writer puts a value and has not yet resumed it. *)
Lemma synccommbuffer_delivers_witness :
  exists x, run 2 (fun _ => 1000) 1 2 (AGet END_OF_TIME :: put_all [3; 4]) sample = Some x /\ stuck 2 x /\
    exists y, step 2 (fun _ => 1000) 1 2 ANotify x = Some y /\ ~ stuck 2 y /\ rp y = rp x.
Proof.
  eexists. split; [vm_compute; reflexivity|].
  match goal with |- stuck _ ?x /\ _ => assert (Hs : stuck 2 x) end.
  { split; [by eexists|]. eexists _, _. split; [vm_compute; reflexivity|]. vm_compute. discriminate. }
  split; [exact Hs|].
  refine (proj2 (synccommbuffer_delivers 2 (fun _ => 1000) 1 2 100 200 [1; 2] _
    (AGet END_OF_TIME :: put_all [3; 4]) sample _ synccommbuffer_sample_start _) Hs _).
  - done.
  - vm_compute. reflexivity.
  - reflexivity.
Defined.

(** A [put] between the reading of the flag and [get]: [syncGet] returns the new
    value and says that there is none, and the next [syncGet] waits although nothing
    was read with the flag set. *)
Example flag_misses_value :
  exists x, run 2 (fun _ => 1000) 1 2
      ([AGet 0; AReader] ++ put_all [3; 4] ++ [ANotify] ++ replicate 7 AReader ++ [AGet END_OF_TIME]) sample = Some x /\
    gets x = [mkGot false [3; 4] 0 1 2 0] /\ stuck 2 x /\ flag x = false.
Proof.
  eexists. split; [vm_compute; reflexivity|]. split; [done|]. split; [|done]. split; [by eexists|].
  eexists _, _. split; [vm_compute; reflexivity|]. vm_compute. discriminate.
Qed.

(** A [get] between the swap of the slots and the flag: the same value is returned
    twice, the second time as new. *)
Example flag_repeats_value :
  exists x, run 2 (fun _ => 1000) 1 2
      (replicate 4 (APut [3; 4]) ++ [AGet 0; AReader] ++ replicate 7 AReader ++
       replicate 3 (APut [3; 4]) ++ [ANotify; AGet END_OF_TIME; AReader] ++ replicate 7 AReader) sample = Some x /\
    gets x = [mkGot false [3; 4] 0 0 2 0; mkGot true [3; 4] 1 1 2 0].
Proof. eexists. split; [vm_compute; reflexivity|done]. Qed.

End SyncCommBuffer.
