(* ===== verification/RingBuffer.v ===== *)
(** * The ring buffer (support-libs/ringbuffer.h)

    The ring keeps the last [poolSize] values that were put.  A [get] that runs in
    the middle of a [put] sees a complete value; as long as no value is
    overwritten before it is read, the ring is a queue. *)

From S2P Require Import Prelude.

#[local] Open Scope Z_scope.

Module RingBuffer.

Definition UINT32_MAX : Z := 4294967295.

Section RingBuffer.
Context {T : Type} (poolSize : Z).

Record t := mk {
  writeIndex : Z;
  readIndex : Z;
  currentWrite : Z;
  vals : list T;
  writeCnt : Z;
  readCnt : Z;
  occupiedCnt : Z
}.

(** A new ring, and what [clear] leaves of one. *)
Definition init (v : list T) : t := mk 0 0 UINT32_MAX v 0 0 0.
Definition clear (r : t) : t := init (vals r).

(** ** The statements of [put] *)

Definition claim (r : t) : t :=
  mk (writeIndex r) (readIndex r) (writeIndex r) (vals r) (writeCnt r) (readCnt r) (occupiedCnt r).
Definition store (x : T) (r : t) : option t :=
  v ← wr (vals r) (writeIndex r) x;
  Some (mk (writeIndex r) (readIndex r) (currentWrite r) v (writeCnt r) (readCnt r) (occupiedCnt r)).
Definition advance (r : t) : t :=
  mk (u32 (writeIndex r + 1)) (readIndex r) (currentWrite r) (vals r) (writeCnt r) (readCnt r) (occupiedCnt r).
Definition wrap (r : t) : t :=
  mk (if writeIndex r >=? poolSize then 0 else writeIndex r) (readIndex r) (currentWrite r) (vals r)
    (writeCnt r) (readCnt r) (occupiedCnt r).
Definition occupy (r : t) : t :=
  mk (writeIndex r) (readIndex r) (currentWrite r) (vals r) (writeCnt r) (readCnt r)
    (if occupiedCnt r <? poolSize then u32 (occupiedCnt r + 1) else occupiedCnt r).
Definition count (r : t) : t :=
  mk (writeIndex r) (readIndex r) (currentWrite r) (vals r) (u64 (writeCnt r + 1)) (readCnt r) (occupiedCnt r).
Definition release (r : t) : t :=
  mk (writeIndex r) (readIndex r) UINT32_MAX (vals r) (writeCnt r) (readCnt r) (occupiedCnt r).

Definition put (newdata : T) (r : t) : option t :=
  r ← store newdata (claim r); Some (release (count (occupy (wrap (advance r))))).

(** [get]; [None] in front is the answer false. *)
Definition next_read (r : t) : Z :=
  let i := if readIndex r =? currentWrite r then u32 (readIndex r + 1) else readIndex r in
  let i := if i >=? poolSize then 0 else i in
  if (writeCnt r <? poolSize) && (i >=? writeIndex r) then 0 else i.
Definition get (r : t) : option (option T * t) :=
  if writeCnt r =? 0 then Some (None, r)
  else
    let i := next_read r in
    fromRing ← rd (vals r) i;
    let i := u32 (i + 1) in
    let i := if i >=? poolSize then 0 else i in
    Some (Some fromRing,
      mk (writeIndex r) i (currentWrite r) (vals r) (writeCnt r) (u64 (readCnt r + 1))
        (if 0 <? occupiedCnt r then u32 (occupiedCnt r - 1) else occupiedCnt r)).


(** ** A writer that is interrupted by calls of [get] *)

Inductive phase :=
  | Out
  | Claimed (x : T)      (** copying [x] into the slot *)
  | Copied
  | Advanced
  | Wrapped
  | Occupied
  | Counted.

(** [hist] are the values that are completely in the ring or were; [got] the
    answers of [get], with the number of these values at that time. *)
Record sys := mkSys { ring : t; ph : phase; hist : list T; got : list (option T * nat) }.

Inductive step : sys -> sys -> Prop :=
  | put_claim r h g x : step (mkSys r Out h g) (mkSys (claim r) (Claimed x) h g)
  | put_copying r h g x y r' : store y r = Some r' -> step (mkSys r (Claimed x) h g) (mkSys r' (Claimed x) h g)
  | put_store r h g x r' : store x r = Some r' -> step (mkSys r (Claimed x) h g) (mkSys r' Copied (h ++ [x]) g)
  | put_advance r h g : step (mkSys r Copied h g) (mkSys (advance r) Advanced h g)
  | put_wrap r h g : step (mkSys r Advanced h g) (mkSys (wrap r) Wrapped h g)
  | put_occupy r h g : step (mkSys r Wrapped h g) (mkSys (occupy r) Occupied h g)
  | put_count r h g : step (mkSys r Occupied h g) (mkSys (count r) Counted h g)
  | put_release r h g : step (mkSys r Counted h g) (mkSys (release r) Out h g)
  | get_value p r h g o r' : get r = Some (o, r') -> step (mkSys r p h g) (mkSys r' p h (g ++ [(o, length h)])).

Hypothesis Hpool : 2 <= poolSize <= UINT32_MAX.

(** The last value of slot [i]. *)
Definition latest (h : list T) (i : Z) (v : T) : Prop :=
  exists j, h !! j = Some v /\ Z.of_nat j mod poolSize = i /\ Z.of_nat (length h) <= Z.of_nat j + poolSize.

Definition slot_free (p : phase) (cw i : Z) : Prop := match p with Claimed _ => i <> cw | _ => True end.
(** The values that [writeCnt] counts. *)
Definition counted (p : phase) (h : list T) : Z :=
  Z.of_nat (length h) - match p with Copied | Advanced | Wrapped | Occupied => 1 | _ => 0 end.
Definition indices_ok (p : phase) (wi cw n : Z) : Prop :=
  match p with
  | Out => wi = n mod poolSize /\ cw = UINT32_MAX
  | Claimed _ => wi = n mod poolSize /\ cw = wi
  | Copied => wi = n mod poolSize /\ cw = wi
  | Advanced => wi = n mod poolSize + 1 /\ cw = n mod poolSize
  | Wrapped | Occupied => wi = (n + 1) mod poolSize /\ cw = n mod poolSize
  | Counted => wi = n mod poolSize /\ 0 <= cw < poolSize
  end.

Record inv (x : sys) : Prop := {
  i_vals : Z.of_nat (length (vals (ring x))) = poolSize;
  i_read : 0 <= readIndex (ring x) < poolSize;
  i_count : writeCnt (ring x) = counted (ph x) (hist x);
  i_pos : 0 <= counted (ph x) (hist x);
  i_ind : indices_ok (ph x) (writeIndex (ring x)) (currentWrite (ring x)) (counted (ph x) (hist x));
  i_slots : forall i, 0 <= i < poolSize -> slot_free (ph x) (currentWrite (ring x)) i ->
    poolSize <= Z.of_nat (length (hist x)) \/ i < Z.of_nat (length (hist x)) ->
    exists v, rd (vals (ring x)) i = Some v /\ latest (hist x) i v
}.

(** What [get] has answered: a value among the last [poolSize], and none only
    when nothing was there. *)
Definition recent (h : list T) (g : list (option T * nat)) : Prop :=
  Forall (fun '(o, k) =>
    match o with
    | Some v => exists j, h !! j = Some v /\ (j < k)%nat /\ Z.of_nat k <= Z.of_nat j + poolSize
    | None => (k <= 1)%nat
    end) g.

Lemma recent_app h g x : recent h g -> recent (h ++ [x]) g.
Proof.
  intros H. eapply Forall_impl; [exact H|]. intros [[v|] k]; [|done]. intros (j & Hj & ?). exists j. split; [by apply lookup_app_l_Some|done].
Qed.

Lemma mod_next n : 0 <= n -> (if n mod poolSize + 1 >=? poolSize then 0 else n mod poolSize + 1) = (n + 1) mod poolSize.
Proof.
  intros Hn. pose proof (Z.mod_pos_bound n poolSize ltac:(lia)). rewrite <- Z.add_mod_idemp_l by lia.
  destruct (Z.geb_spec (n mod poolSize + 1) poolSize).
  - replace (n mod poolSize + 1) with poolSize by lia. by rewrite Z.mod_same by lia.
  - symmetry. apply Z.mod_small. lia.
Qed.

Lemma write_index_range x : inv x -> (exists y, ph x = Claimed y) -> 0 <= writeIndex (ring x) < poolSize.
Proof.
  intros [_ _ _ _ Hi _] [y E]. rewrite E in Hi. destruct Hi as [-> _]. apply Z.mod_pos_bound. lia.
Qed.

Lemma next_read_ok x :
  inv x -> writeCnt (ring x) <> 0 ->
  let i := next_read (ring x) in
  0 <= i < poolSize /\ slot_free (ph x) (currentWrite (ring x)) i /\
  (poolSize <= Z.of_nat (length (hist x)) \/ i < Z.of_nat (length (hist x))).
Proof.
  intros [_ Hr Hc Hp Hi _] Hne. cbn zeta. unfold next_read. rewrite Hc in *. unfold UINT32_MAX in *.
  rewrite u32_small by (ints; lia). remember (counted (ph x) (hist x)) as n eqn:En.
  pose proof (Z.mod_pos_bound n poolSize ltac:(lia)) as Hb. pose proof (Z.mod_pos_bound (n + 1) poolSize ltac:(lia)) as Hb1.
  set (i := if _ >=? poolSize then 0 else _).
  assert (Hir : 0 <= i < poolSize /\ i <> currentWrite (ring x)).
  { unfold i. destruct (Z.eqb_spec (readIndex (ring x)) (currentWrite (ring x))) as [E|E].
    - destruct (Z.geb_spec (readIndex (ring x) + 1) poolSize); lia.
    - destruct (Z.geb_spec (readIndex (ring x)) poolSize); lia. }
  clearbody i. destruct (Z.ltb_spec n poolSize) as [Hlt|Hge]; cbn [andb].
  - assert (Hs : forall m, 0 <= m < poolSize -> m mod poolSize = m) by (intros; by apply Z.mod_small).
    destruct (Z.geb_spec i (writeIndex (ring x))); unfold counted in En;
      destruct (ph x); cbn in *; rewrite ?(Hs n) in Hi by lia; repeat split; try done; try lia;
      (destruct (Z.le_gt_cases poolSize (n + 1)); [left; lia|right; rewrite Hs in Hi by lia; lia]).
  - repeat split; try lia; [|unfold counted in En; destruct (ph x); lia]. destruct (ph x); cbn; try done. lia.
Qed.

Lemma get_inv x :
  inv x -> exists o r', get (ring x) = Some (o, r') /\ inv (mkSys r' (ph x) (hist x) (got x)) /\
    match o with
    | Some v => latest (hist x) (next_read (ring x)) v
    | None => (length (hist x) <= 1)%nat
    end.
Proof.
  intros Hx. unfold get. destruct (Z.eqb_spec (writeCnt (ring x)) 0) as [E|E].
  - exists None, (ring x). split; [done|]. split; [by destruct Hx; split|].
    rewrite (i_count x Hx) in E. unfold counted in E. destruct (ph x); lia.
  - destruct (next_read_ok x Hx E) as (Hr & Hf & Hs). cbn zeta in *.
    destruct (i_slots x Hx _ Hr Hf Hs) as (v & -> & Hv). cbn [mbind option_bind].
    do 2 eexists. split; [done|]. split; [|done]. destruct Hx as [Hv' _ Hc Hp Hi Hsl].
    split; cbn [ring ph hist vals readIndex writeCnt writeIndex currentWrite]; try done.
    unfold UINT32_MAX in *. rewrite u32_small by (ints; lia).
    destruct (Z.geb_spec (next_read (ring x) + 1) poolSize); lia.
Qed.

Lemma store_inv x y d r' :
  inv x -> ph x = Claimed y -> store d (ring x) = Some r' ->
  inv (mkSys r' (Claimed y) (hist x) (got x)) /\
  (d = y -> inv (mkSys r' Copied (hist x ++ [y]) (got x))).
Proof.
  intros Hx Hp Hst. pose proof (write_index_range x Hx (ex_intro _ y Hp)) as Hwi.
  destruct Hx as [Hv Hr Hc Hpos Hi Hsl]. rewrite Hp in *. unfold counted in *. cbn [indices_ok slot_free] in *.
  unfold store in Hst. destruct (wr (vals (ring x)) (writeIndex (ring x)) d) as [v|] eqn:Ev; [|done].
  cbn [mbind option_bind] in Hst. injection Hst as <-. destruct Hi as [Hi Hcw].
  pose proof (length_wr _ _ _ _ Ev) as Hl.
  assert (Hoth : forall i, i <> currentWrite (ring x) -> rd v i = rd (vals (ring x)) i).
  { intros i Hne. apply (rd_wr_ne _ _ _ _ _ Ev). congruence. }
  split.
  - split; cbn [ring ph hist vals readIndex writeCnt writeIndex currentWrite indices_ok slot_free]; try done; unfold counted; rewrite ?Z.sub_0_r in *; try done; [lia|].
    intros i Hir Hne Hs. rewrite Hoth by done. by apply Hsl.
  - intros ->. set (n := Z.of_nat (length (hist x))) in *. rewrite ?Z.sub_0_r in Hc, Hi, Hpos.
    assert (Hn : Z.of_nat (length (hist x ++ [y])) = n + 1) by (rewrite length_app; cbn; lia).
    split; cbn [ring ph hist vals readIndex writeCnt writeIndex currentWrite indices_ok slot_free];
      unfold counted; rewrite ?Hn; try replace (n + 1 - 1) with n by lia; try done; try lia.
    intros i Hir _ Hs. destruct (decide (i = currentWrite (ring x))) as [->|Hne].
    + exists y. split; [rewrite Hcw; apply (rd_wr_eq _ _ _ _ Ev)|]. exists (length (hist x)).
      split; [rewrite lookup_app_r, Nat.sub_diag by done; done|]. fold n. split; [congruence|lia].
    + rewrite Hoth by done. destruct (Hsl i Hir Hne) as (u & -> & j & Hj & Hm & Hlen).
      { destruct (Z.le_gt_cases poolSize n) as [|Hlt]; [by left|right]. rewrite Z.mod_small in Hi by lia. lia. }
      exists u. split; [done|]. exists j. split; [by apply lookup_app_l_Some|]. split; [done|]. rewrite Hn.
      destruct (decide (n = Z.of_nat j + poolSize)) as [E|]; [|lia]. exfalso. apply Hne. rewrite Hcw, Hi, E, <- Hm.
      rewrite <- Z.add_mod_idemp_r, Z.mod_same, Z.add_0_r by lia. done.
Qed.

Local Ltac unfold_ring := unfold counted in *; cbn [ring ph hist got indices_ok slot_free advance wrap occupy count release claim vals readIndex writeCnt writeIndex currentWrite] in *.
Lemma ring_step_inv x y :
  inv x -> Z.of_nat (length (hist y)) < 2 ^ 64 -> recent (hist x) (got x) -> step x y ->
  inv y /\ recent (hist y) (got y).
Proof.
  intros Hx Hlim Hg Hs. destruct Hs as [r h g d|r h g d d' r' E|r h g d r' E|r h g|r h g|r h g|r h g|r h g|p r h g o r' E].
  - split; [|done]. destruct Hx as [Hv Hr Hc Hp [Hi Hcw] Hsl]. split; unfold_ring; try done. intros. by apply Hsl.
  - split; [|done]. by apply (store_inv (mkSys r (Claimed d) h g) d d' r').
  - split; [|by apply recent_app]. by apply (store_inv (mkSys r (Claimed d) h g) d d r').
  - split; [|done]. destruct Hx as [Hv Hr Hc Hp [Hi Hcw] Hsl]. split; unfold_ring; try done. split; [|etrans; [exact Hcw|exact Hi]].
    pose proof (Z.mod_pos_bound (Z.of_nat (length h) - 1) poolSize ltac:(lia)). unfold UINT32_MAX in *.
    rewrite u32_small by (ints; lia). lia.
  - split; [|done]. destruct Hx as [Hv Hr Hc Hp [Hi Hcw] Hsl]. split; unfold_ring; try done. split; [|done].
    rewrite Hi. apply mod_next. lia.
  - split; [|done]. by destruct Hx.
  - split; [|done]. destruct Hx as [Hv Hr Hc Hp [Hi Hcw] Hsl]. unfold_ring.
    split; unfold_ring; rewrite ?Z.sub_0_r; try done; try lia.
    + rewrite Hc. replace (Z.of_nat (length h) - 1 + 1) with (Z.of_nat (length h)) by lia. apply u64_small. ints. lia.
    + replace (Z.of_nat (length h) - 1 + 1) with (Z.of_nat (length h)) in Hi by lia. split; [done|]. rewrite Hcw.
      apply Z.mod_pos_bound. lia.
  - split; [|done]. destruct Hx as [Hv Hr Hc Hp [Hi Hcw] Hsl]. split; unfold_ring; try done. 
  - destruct (get_inv (mkSys r p h g) Hx) as (o' & r2 & E' & Hi & Ho). cbn [ring hist ph got] in *. rewrite E in E'.
    injection E' as -> ->. split; [by destruct Hi; split|]. apply Forall_app. split; [done|].
    constructor; [|done]. destruct o' as [v|]; [|done]. destruct Ho as (j & Hj & _ & Hl). exists j.
    split; [done|]. split; [by apply lookup_lt_Some in Hj|done].
Qed.

Definition start (v : list T) : sys := mkSys (init v) Out [] [].
Lemma start_ring_inv v : Z.of_nat (length v) = poolSize -> inv (start v).
Proof. intros Hv. split; cbn; try done; [lia|]. intros i Hi _ [|]; lia. Qed.

Lemma step_hist x y : step x y -> (length (hist x) <= length (hist y))%nat.
Proof. destruct 1; cbn; rewrite ?length_app; lia. Qed.
Lemma steps_hist x y : rtc step x y -> (length (hist x) <= length (hist y))%nat.
Proof. induction 1 as [|x z y Hs _ IH]; [done|]. apply step_hist in Hs. lia. Qed.

(** C27: A [get] that runs between any two steps of [put], also in the middle of the
    copy of a value, has a result: one of the last [poolSize] values that were put,
    complete, and no value only before the first one is counted. *)
Theorem ring_get_recent v x :
  Z.of_nat (length v) = poolSize -> rtc step (start v) x -> Z.of_nat (length (hist x)) < 2 ^ 64 ->
  recent (hist x) (got x) /\ exists o r', get (ring x) = Some (o, r').
Proof.
  intros Hv Hr Hlim. assert (Hinv : inv x /\ recent (hist x) (got x)).
  { assert (Hs : inv (start v) /\ recent (hist (start v)) (got (start v))).
    { split; [by apply start_ring_inv|constructor]. }
    revert Hs. induction Hr as [|x y z Hxy Hyz IH]; [done|]. intros [H1 H2]. apply IH; [done|].
    apply (ring_step_inv x y); try done. apply steps_hist in Hyz. lia. }
  destruct Hinv as [H1 H2]. split; [done|]. destruct (get_inv x H1) as (o & r' & E & _). by exists o, r'.
Qed.

(** ** Puts and gets in turn *)

Inductive op := Put (x : T) | Get.
Fixpoint run (l : list op) (r : t) : option (list T * t) :=
  match l with
  | [] => Some ([], r)
  | Put x :: l => r ← put x r; run l r
  | Get :: l => '(o, r) ← get r; x ← o; '(xs, r) ← run l r; Some (x :: xs, r)
  end.
(** A queue of at most [poolSize] values. *)
Fixpoint queue (l : list op) (q : list T) : option (list T * list T) :=
  match l with
  | [] => Some ([], q)
  | Put x :: l => if Z.of_nat (length q) <? poolSize then queue l (q ++ [x]) else None
  | Get :: l => match q with [] => None | x :: q => '(xs, q) ← queue l q; Some (x :: xs, q) end
  end.

Record in_turn (r : t) (h : list T) (n : nat) : Prop := {
  t_inv : inv (mkSys r Out h []);
  t_read : (n <= length h)%nat;
  t_full : Z.of_nat (length h) <= Z.of_nat n + poolSize;
  t_index : readIndex r = Z.of_nat n mod poolSize;
  t_count : readCnt r = Z.of_nat n;
  t_occupied : occupiedCnt r = Z.of_nat (length h) - Z.of_nat n
}.

Lemma put_in_turn r h n x :
  in_turn r h n -> Z.of_nat (length h) + 1 < 2 ^ 64 -> Z.of_nat (length h) < Z.of_nat n + poolSize ->
  exists r', put x r = Some r' /\ in_turn r' (h ++ [x]) n.
Proof.
  intros [Hinv Hr Hf Hi Hc Ho] Hlim Hroom.
  assert (Hh : Z.of_nat (length (h ++ [x])) = Z.of_nat (length h) + 1) by (rewrite length_app; cbn; lia).
  assert (Hst : forall y z, step y z -> inv y /\ recent (hist y) (got y) -> (length (hist z) <= length (h ++ [x]))%nat ->
      inv z /\ recent (hist z) (got z)).
  { intros y z Hs [Hy Hg] Hz. apply (ring_step_inv y z Hy); try done. lia. }
  assert (Hh0 : (length h <= length (h ++ [x]))%nat) by lia.
  pose proof (Hst _ _ (put_claim r h [] x) (conj Hinv (Forall_nil_2 _)) Hh0) as H1.
  unfold put. destruct (store x (claim r)) as [r1|] eqn:E1.
  2:{ pose proof (write_index_range _ (proj1 H1) (ex_intro _ x eq_refl)) as Hwi. pose proof (i_vals _ Hinv) as Hv.
      cbn in Hv, Hwi. unfold store in E1. cbn [claim vals writeIndex] in E1. rewrite wr_in in E1 by lia. done. }
  pose proof (Hst _ _ (put_store _ _ _ _ _ E1) H1 (le_n _)) as H2.
  pose proof (Hst _ _ (put_advance _ _ _) H2 (le_n _)) as H3.
  pose proof (Hst _ _ (put_wrap _ _ _) H3 (le_n _)) as H4.
  pose proof (Hst _ _ (put_occupy _ _ _) H4 (le_n _)) as H5.
  pose proof (Hst _ _ (put_count _ _ _) H5 (le_n _)) as H6.
  destruct (Hst _ _ (put_release _ _ _) H6 (le_n _)) as [H7 _].
  cbn [mbind option_bind]. eexists. split; [done|].
  assert (Hkeep : readIndex r1 = readIndex r /\ readCnt r1 = readCnt r /\ occupiedCnt r1 = occupiedCnt r).
  { unfold store in E1. destruct (wr _ _ _); [|done]. by injection E1 as <-. }
  destruct Hkeep as (K1 & K2 & K3).
  split; [done|rewrite length_app; lia|lia| | |]; cbn [release count occupy wrap advance readIndex readCnt occupiedCnt].
  - by rewrite K1.
  - by rewrite K2.
  - rewrite K3, Ho, Hh. destruct (Z.ltb_spec (Z.of_nat (length h) - Z.of_nat n) poolSize); [|lia].
    unfold UINT32_MAX in *. rewrite u32_small by (ints; lia). lia.
Qed.

Lemma get_in_turn r h n x :
  in_turn r h n -> Z.of_nat (length h) < 2 ^ 64 -> h !! n = Some x ->
  exists r', get r = Some (Some x, r') /\ in_turn r' h (S n).
Proof.
  intros [Hinv Hr Hf Hi Hc Ho] Hlim Hx. pose proof (lookup_lt_Some _ _ _ Hx) as Hn.
  pose proof (i_count _ Hinv) as Hw. pose proof (i_ind _ Hinv) as [Hwi Hcw]. pose proof (i_read _ Hinv) as Hrd.
  unfold counted in *. cbn [ring ph hist] in *. rewrite Z.sub_0_r in *.
  assert (Hnr : next_read r = Z.of_nat n mod poolSize).
  { unfold next_read. rewrite Hcw, Hw. unfold UINT32_MAX in *. destruct (Z.eqb_spec (readIndex r) 4294967295); [lia|].
    destruct (Z.geb_spec (readIndex r) poolSize); [lia|]. rewrite Hi.
    destruct (Z.ltb_spec (Z.of_nat (length h)) poolSize); [|done]. cbn [andb].
    rewrite Hwi, !Z.mod_small by lia. destruct (Z.geb_spec (Z.of_nat n) (Z.of_nat (length h))); [lia|done]. }
  destruct (get_inv _ Hinv) as (o & r' & E & Hi' & Hl). cbn [ring ph hist got] in *. rewrite Hnr in Hl.
  assert (o = Some x) as ->.
  { destruct o as [v|].
    - destruct Hl as (j & Hj & Hm & Hlen). pose proof (lookup_lt_Some _ _ _ Hj). f_equal.
      assert (Z.of_nat j = Z.of_nat n) as Hjn; [|apply Nat2Z.inj in Hjn; congruence].
      assert (Hd : forall a b, a <= b -> b < a + poolSize -> a mod poolSize = b mod poolSize -> a = b).
      { intros a b H1 H2 E3. enough (0 = b - a) by lia. apply (ring_inj a 0 (b - a) poolSize); try lia.
        rewrite Z.add_0_r, E3. f_equal. lia. }
      destruct (Z.le_gt_cases (Z.of_nat j) (Z.of_nat n)); [apply Hd; lia|symmetry; apply Hd; lia].
    - unfold get in E. rewrite Hw in E. destruct (Z.eqb_spec (Z.of_nat (length h)) 0); [lia|].
      destruct (rd _ _); done. }
  exists r'. split; [done|]. unfold get in E. rewrite Hw in E.
  destruct (Z.eqb_spec (Z.of_nat (length h)) 0); [lia|]. destruct (rd _ _) as [y|]; [|done]. cbn [mbind option_bind] in E.
  injection E as _ <-. pose proof (Z.mod_pos_bound (Z.of_nat n) poolSize ltac:(lia)). unfold UINT32_MAX in *.
  split; cbn [readIndex readCnt occupiedCnt]; try done; try lia.
  - rewrite Hnr, u32_small by (ints; lia). rewrite mod_next by lia. f_equal. lia.
  - rewrite Hc, u64_small by (ints; lia). lia.
  - rewrite Ho. destruct (Z.ltb_spec 0 (Z.of_nat (length h) - Z.of_nat n)); [|lia]. rewrite u32_small by (ints; lia). lia.
Qed.

Lemma run_in_turn l r h n res q :
  in_turn r h n -> Z.of_nat (length h + length l) < 2 ^ 64 -> queue l (drop n h) = Some (res, q) ->
  exists r' h' n', run l r = Some (res, r') /\ in_turn r' h' n' /\ drop n' h' = q.
Proof.
  revert r h n res q. induction l as [|[x|] l IH]; intros r h n res q Hin Hlim E; cbn [queue run] in *.
  - injection E as <- <-. by exists r, h, n.
  - destruct (Z.ltb_spec (Z.of_nat (length (drop n h))) poolSize) as [Hlt|]; [|done]. rewrite length_drop in Hlt.
    pose proof (t_read _ _ _ Hin). cbn [length] in Hlim.
    destruct (put_in_turn r h n x Hin) as (r1 & -> & H1); [lia|lia|]. cbn [mbind option_bind].
    apply (IH r1 (h ++ [x]) n); [done|rewrite length_app; cbn; lia|]. rewrite drop_app_le by done. done.
  - destruct (drop n h) as [|x q1] eqn:Ed; [done|]. cbn [length] in Hlim.
    assert (Hx : h !! n = Some x) by (rewrite <- (Nat.add_0_r n), <- lookup_drop, Ed; done).
    destruct (queue l q1) as [[xs q2]|] eqn:Eq; [|done]. cbn [mbind option_bind] in E. injection E as <- <-.
    destruct (get_in_turn r h n x Hin ltac:(lia) Hx) as (r1 & -> & H1). cbn [mbind option_bind].
    destruct (IH r1 h (S n) xs q2 H1) as (r2 & h2 & n2 & -> & H2 & H3); [lia| |cbn [mbind option_bind]; by eexists _, _, _].
    rewrite (drop_S _ _ _ Hx) in Ed. by injection Ed as ->.
Qed.

(** As long as no value is overwritten before it is read and none is read twice,
    the ring is a queue, and [occupiedCnt] is the number of its values. *)
Theorem ring_is_queue v l res q :
  Z.of_nat (length v) = poolSize -> Z.of_nat (length l) < 2 ^ 64 -> queue l [] = Some (res, q) ->
  exists r, run l (init v) = Some (res, r) /\ occupiedCnt r = Z.of_nat (length q) /\
    writeCnt r - readCnt r = occupiedCnt r.
Proof.
  intros Hv Hl E. destruct (run_in_turn l (init v) [] 0 res q) as (r & h & n & Er & Hin & <-); try done.
  - split; try done; [|cbn; lia]. by apply start_ring_inv.
  - exists r. split; [done|]. pose proof (i_count _ (t_inv _ _ _ Hin)) as Hw. unfold counted in Hw. cbn [ring ph hist] in Hw.
    destruct Hin as [_ Hr _ _ Hc Ho]. rewrite length_drop, Hw, Hc. lia.
Qed.

End RingBuffer.

(** ** Examples *)

(** Of four values in a ring of three the last is read first; and a reader that is
    faster than the writer reads again, while [occupiedCnt] stays zero. *)
Example overwritten_order :
  option_map fst (run 3 [Put 1; Put 2; Put 3; Put 4; Get; Get; Get] (init [0; 0; 0])) = Some [4; 2; 3].
Proof. reflexivity. Qed.
Example read_again :
  option_map (fun '(l, r) => (l, writeCnt r, readCnt r, occupiedCnt r)) (run 3 [Put 1; Put 2; Get; Get; Get] (init [0; 0; 0]))
  = Some ([1; 2; 1], 2, 3, 0).
Proof. reflexivity. Qed.

(** In a ring of two: a [get] while the third value is half written. *)
Lemma put_steps (x : Z) r r' h g : put 2 x r = Some r' -> rtc (step 2) (mkSys r Out h g) (mkSys r' Out (h ++ [x]) g).
Proof.
  intros Ep. unfold put in Ep. destruct (store x (claim r)) as [r3|] eqn:Es; [|done].
  cbn [mbind option_bind] in Ep. injection Ep as <-. eapply rtc_l; [apply put_claim|].
  eapply rtc_l; [by apply put_store|]. eapply rtc_l; [apply put_advance|]. eapply rtc_l; [apply put_wrap|].
  eapply rtc_l; [apply put_occupy|]. eapply rtc_l; [apply put_count|]. eapply rtc_l; [apply put_release|]. apply rtc_refl.
Qed.
Definition half_written : sys := mkSys (mk 0 0 0 [5; 6] 2 0 2) (Claimed 7) [5; 6] [].
Lemma half_written_reached : rtc (step 2) (start [0; 0]) half_written.
Proof.
  etrans; [apply (put_steps 5 _ (mk 1 0 UINT32_MAX [5; 0] 1 0 1)); vm_compute; reflexivity|].
  etrans; [apply (put_steps 6 _ (mk 0 0 UINT32_MAX [5; 6] 2 0 2)); vm_compute; reflexivity|].
  eapply rtc_l; [apply put_claim|]. apply rtc_refl.
Qed.
Lemma ring_get_recent_witness : exists o r, get 2 (ring half_written) = Some (o, r).
Proof.
  refine (proj2 (ring_get_recent 2 _ [0; 0] half_written eq_refl half_written_reached _)).
  - unfold UINT32_MAX. lia.
  - vm_compute. reflexivity.
Defined.

End RingBuffer.
