(* ===== verification/ByteStreamRing.v ===== *)
(** * The ring of byte messages (support-libs/bytestreamringbuffer.h)

    Messages of different lengths in one array of words: a header with the length,
    then the words of the message.  The ring refines a queue that forgets its
    oldest messages when a new one needs the room. *)

From S2P Require Import Prelude.

#[local] Open Scope Z_scope.

Module ByteStreamRing.

(** C's division and remainder; [LEN] is small enough for the additions. *)
Definition wordsInObject (bytes : Z) : Z := Z.quot (bytes + 3) 4.

Section Ring.
Variable LEN : Z.

Definition WORDS : Z := wordsInObject LEN.

Record t := mk { buffer : list Z; writeX : Z; readX : Z }.

Definition init (b : list Z) : t := mk b 0 0.
Definition isEmpty (r : t) : bool := readX r =? writeX r.
Definition reset (r : t) : t := mk (buffer r) 0 0.

Definition writeWord (val : Z) (r : t) : option t :=
  b ← wr (buffer r) (writeX r) val;
  let w := Z.rem (writeX r + 1) WORDS in
  if w =? readX r then
    header ← rd b (readX r);
    Some (mk b w (Z.rem (readX r + 1 + wordsInObject header) WORDS))
  else Some (mk b w (readX r)).
Definition readWord (r : t) : option (Z * t) :=
  val ← rd (buffer r) (readX r);
  Some (val, mk (buffer r) (writeX r) (Z.rem (readX r + 1) WORDS)).

(** The loops over the words; [n] is their number. *)
Fixpoint write_words (n : nat) (source : list Z) (r : t) : option t :=
  match n, source with
  | O, _ => Some r
  | S n, x :: source => r ← writeWord x r; write_words n source r
  | S _, [] => None
  end.
Fixpoint read_words (n : nat) (r : t) : option (list Z * t) :=
  match n with
  | O => Some ([], r)
  | S n => '(x, r) ← readWord r; '(l, r) ← read_words n r; Some (x :: l, r)
  end.

(** [for(; len > 0; len -= 4)] *)
Definition loops (len : Z) : nat := Z.to_nat (wordsInObject len).

Definition write (buf : list Z) (len : Z) (r : t) : option (bool * t) :=
  if wordsInObject len >=? WORDS then Some (false, r)
  else if len =? 0 then Some (true, r)
  else r ← writeWord len r; r ← write_words (loops len) buf r; Some (true, r).

(** The result of [read] and the words that are transferred. *)
Definition read (maxLen : Z) (r : t) : option (Z * list Z * t) :=
  if isEmpty r then Some (0, [], r)
  else
    '(objectLen, r) ← readWord r;
    if objectLen >? maxLen then
      Some (-1, [], mk (buffer r) (writeX r) (Z.rem (readX r + wordsInObject objectLen) WORDS))
    else '(l, r) ← read_words (loops objectLen) r; Some (objectLen, l, r).

(** ** The queue of messages *)

(** A message: its length in bytes and its words. *)
Definition msg : Type := Z * list Z.
Definition encode (m : msg) : list Z := m.1 :: m.2.
Definition flat (q : list msg) : list Z := flat_map encode q.
Definition size (m : msg) : Z := 1 + Z.of_nat (length m.2).
Definition used (q : list msg) : Z := Z.of_nat (length (flat q)).

(** The oldest messages go until the new one fits. *)
Fixpoint make_room (need : Z) (q : list msg) : list msg :=
  match q with
  | [] => []
  | _ :: q' => if used q + need <? WORDS then q else make_room need q'
  end.

Inductive op := Write (buf : list Z) (len : Z) | Read (maxLen : Z) | Reset | IsEmpty.
Inductive answer := Done (b : bool) | Got (n : Z) (l : list Z) | Nothing.

Definition run_op (o : op) (r : t) : option (answer * t) :=
  match o with
  | Write buf len => '(b, r) ← write buf len r; Some (Done b, r)
  | Read maxLen => '(n, l, r) ← read maxLen r; Some (Got n l, r)
  | Reset => Some (Nothing, reset r)
  | IsEmpty => Some (Done (isEmpty r), r)
  end.
Definition spec_op (o : op) (q : list msg) : answer * list msg :=
  match o with
  | Write buf len =>
      if wordsInObject len >=? WORDS then (Done false, q)
      else if len =? 0 then (Done true, q)
      else let m := (len, take (loops len) buf) in (Done true, make_room (size m) q ++ [m])
  | Read maxLen =>
      match q with
      | [] => (Got 0 [], [])
      | (len, l) :: q => if len >? maxLen then (Got (-1) [], q) else (Got len l, q)
      end
  | Reset => (Nothing, [])
  | IsEmpty => (Done (match q with [] => true | _ => false end), q)
  end.
Fixpoint run (l : list op) (r : t) : option (list answer * t) :=
  match l with
  | [] => Some ([], r)
  | o :: l => '(a, r) ← run_op o r; '(as_, r) ← run l r; Some (a :: as_, r)
  end.
Fixpoint spec (l : list op) (q : list msg) : list answer * list msg :=
  match l with
  | [] => ([], q)
  | o :: l => let '(a, q) := spec_op o q in let '(as_, q) := spec l q in (a :: as_, q)
  end.

(** The callers: the length is not negative, the buffer has its words, and the
    message leaves a word free. *)
Definition op_ok (o : op) : Prop :=
  match o with
  | Write buf len => 0 <= len /\ Z.of_nat (loops len) <= Z.of_nat (length buf) /\ wordsInObject len <> WORDS - 1
  | _ => True
  end.

(** ** The representation *)

(** [l] lies in the ring from [readX] on. *)
Record region (r : t) (l : list Z) : Prop := {
  rg_length : Z.of_nat (length (buffer r)) = WORDS;
  rg_read : 0 <= readX r < WORDS;
  rg_write : writeX r = (readX r + Z.of_nat (length l)) mod WORDS;
  rg_short : Z.of_nat (length l) < WORDS;
  rg_words : forall i x, l !! i = Some x -> rd (buffer r) ((readX r + Z.of_nat i) mod WORDS) = Some x
}.
Definition msg_ok (m : msg) : Prop := 0 < m.1 /\ length m.2 = loops m.1.
Definition rep (r : t) (q : list msg) : Prop := region r (flat q) /\ Forall msg_ok q.


(** ** Lemmas *)

Lemma words_div b : 0 <= b -> wordsInObject b = (b + 3) / 4.
Proof. intros H. unfold wordsInObject. by rewrite Z.quot_div_nonneg by lia. Qed.
Lemma loops_words b : 0 <= b -> Z.of_nat (loops b) = wordsInObject b.
Proof. intros H. unfold loops. rewrite words_div by done. rewrite Z2Nat.id; [done|]. zlia. Qed.

Lemma ring_next R i W : 0 < W -> ((R + i) mod W + 1) mod W = (R + (i + 1)) mod W.
Proof. intros H. rewrite Z.add_mod_idemp_l by lia. f_equal. lia. Qed.

Hypothesis HLEN : 0 < LEN.

Lemma WORDS_pos : 0 < WORDS.
Proof. unfold WORDS. rewrite words_div by lia. zlia. Qed.

Lemma region_nil b i : Z.of_nat (length b) = WORDS -> 0 <= i < WORDS -> region (mk b i i) [].
Proof.
  intros Hb Hi. split; cbn; try done; [|lia]. rewrite Z.add_0_r. symmetry. by apply Z.mod_small.
Qed.

Lemma used_cons m q : used (m :: q) = size m + used q.
Proof. unfold used, size, flat, encode. cbn. rewrite length_app. lia. Qed.

(** The word behind the region. *)
Lemma store_cells r l v :
  region r l -> exists b, wr (buffer r) (writeX r) v = Some b /\ Z.of_nat (length b) = WORDS /\
    Z.rem (writeX r + 1) WORDS = (readX r + Z.of_nat (length (l ++ [v]))) mod WORDS /\
    forall i x, (l ++ [v]) !! i = Some x -> rd b ((readX r + Z.of_nat i) mod WORDS) = Some x.
Proof.
  intros [Hl Hr Hw Hs Hc]. pose proof WORDS_pos as HW.
  assert (Hwi : 0 <= writeX r < WORDS) by (rewrite Hw; apply Z.mod_pos_bound; lia).
  eexists. split; [apply wr_in; lia|]. split; [by rewrite length_insert|]. split.
  - rewrite Z.rem_mod_nonneg, Hw, length_app by lia. cbn [length]. rewrite ring_next by done. f_equal. lia.
  - intros i x Hx. destruct (decide (i < length l)%nat) as [Hi|Hi].
    + rewrite lookup_app_l in Hx by done. rewrite <- (Hc i x Hx). eapply rd_wr_ne; [apply wr_in; lia|].
      rewrite Hw. intros E. apply ring_inj in E; lia.
    + assert (i = length l) as ->.
      { apply lookup_lt_Some in Hx. rewrite length_app in Hx. cbn in Hx. lia. }
      rewrite lookup_app_r, Nat.sub_diag in Hx by done. injection Hx as ->.
      rewrite <- Hw. eapply rd_wr_eq. apply wr_in. lia.
Qed.

Lemma writeWord_room r l v :
  region r l -> Z.of_nat (length l) + 1 < WORDS -> exists r', writeWord v r = Some r' /\ region r' (l ++ [v]).
Proof.
  intros Hreg Hroom. destruct (store_cells r l v Hreg) as (b & Hb & Hbl & Hw & Hc). destruct Hreg.
  unfold writeWord. rewrite Hb. cbn [mbind option_bind]. rewrite Hw, length_app. cbn [length].
  destruct (Z.eqb_spec ((readX r + Z.of_nat (length l + 1)) mod WORDS) (readX r)) as [E|E].
  - exfalso. rewrite <- (Z.mod_small (readX r) WORDS) in E at 2 by done. rewrite <- (Z.add_0_r (readX r)) in E at 2.
    apply ring_inj in E; lia.
  - eexists. split; [done|]. split; cbn [buffer readX writeX]; try done; rewrite length_app; cbn [length]; [done|lia].
Qed.

Lemma region_drop r a l w :
  0 <= readX r < WORDS -> Z.of_nat (length (buffer r)) = WORDS -> writeX r = w ->
  w = (readX r + Z.of_nat (length (a ++ l))) mod WORDS -> Z.of_nat (length l) < WORDS ->
  (forall i x, (a ++ l) !! i = Some x -> rd (buffer r) ((readX r + Z.of_nat i) mod WORDS) = Some x) ->
  region (mk (buffer r) w ((readX r + Z.of_nat (length a)) mod WORDS)) l.
Proof.
  intros Hr Hl _ -> Hs Hc. pose proof WORDS_pos as HW. split; cbn [buffer readX writeX]; try done.
  - apply Z.mod_pos_bound. lia.
  - rewrite Z.add_mod_idemp_l by lia. rewrite length_app. f_equal. lia.
  - intros i x Hx. rewrite Z.add_mod_idemp_l by lia. rewrite <- (Hc (length a + i)%nat x).
    + do 2 f_equal. lia.
    + rewrite lookup_app_r by lia. by replace (length a + i - length a)%nat with i by lia.
Qed.

Lemma writeWord_full r m q part v :
  region r (flat (m :: q) ++ part) -> msg_ok m -> Z.of_nat (length (flat (m :: q) ++ part)) = WORDS - 1 ->
  exists r', writeWord v r = Some r' /\ region r' (flat q ++ part ++ [v]).
Proof.
  intros Hreg (Hm & Hml) Hfull. destruct (store_cells _ _ v Hreg) as (b & Hb & Hbl & Hw & Hc).
  destruct Hreg as [Hl Hr _ _ _]. pose proof WORDS_pos as HW.
  unfold writeWord. rewrite Hb. cbn [mbind option_bind]. rewrite Hw, length_app. cbn [length].
  replace (Z.of_nat (length (flat (m :: q) ++ part) + 1)) with WORDS by lia.
  rewrite <- Z.add_mod_idemp_r, Z.mod_same, Z.add_0_r, (Z.mod_small (readX r)) by lia. rewrite Z.eqb_refl.
  assert (E0 : rd b (readX r) = Some m.1).
  { rewrite <- (Hc 0%nat m.1 eq_refl). rewrite Z.add_0_r. by rewrite Z.mod_small. }
  rewrite E0. cbn [mbind option_bind]. eexists. split; [done|].
  pose proof (words_div m.1 ltac:(lia)) as Hwm. pose proof (loops_words m.1 ltac:(lia)) as Hlm.
  rewrite Z.rem_mod_nonneg by (rewrite ?Hwm; zlia).
  replace (readX r + 1 + wordsInObject m.1) with (readX r + Z.of_nat (length (encode m))) by (unfold encode; cbn [length]; lia).
  apply (region_drop (mk b (readX r) (readX r)) (encode m) (flat q ++ part ++ [v])); cbn [buffer readX writeX]; try done.
  - rewrite app_assoc, app_assoc. change (encode m ++ flat q) with (flat (m :: q)). rewrite length_app. cbn [length].
    replace (Z.of_nat (length (flat (m :: q) ++ part) + 1)) with WORDS by lia.
    by rewrite <- Z.add_mod_idemp_r, Z.mod_same, Z.add_0_r, Z.mod_small by lia.
  - change (flat (m :: q)) with (encode m ++ flat q) in Hfull. rewrite !length_app in *. unfold encode in *. cbn [length] in *. lia.
  - intros i x Hx. apply Hc. change (flat (m :: q)) with (encode m ++ flat q). by rewrite <- !app_assoc.
Qed.

Lemma write_words_region n source r q part :
  region r (flat q ++ part) -> Forall msg_ok q -> (n <= length source)%nat ->
  Z.of_nat (length part + n) < WORDS ->
  exists r', write_words n source r = Some r' /\
    region r' (flat (make_room (Z.of_nat (length part + n)) q) ++ part ++ take n source).
Proof.
  revert source r q part. induction n as [|n IH]; intros source r q part Hreg Hq Hsrc Hfit.
  - exists r. split; [done|]. cbn [take]. rewrite app_nil_r, Nat.add_0_r.
    assert (E : make_room (Z.of_nat (length part)) q = q); [|by rewrite E].
    pose proof (rg_short _ _ Hreg) as Hs. rewrite length_app in Hs. destruct q as [|m q]; [done|]. cbn.
    destruct (Z.ltb_spec (used (m :: q) + Z.of_nat (length part)) WORDS); [done|unfold used in *; lia].
  - destruct source as [|x source]; [cbn in Hsrc; lia|]. cbn [write_words].
    assert (Hgo : forall r' q', writeWord x r = Some r' -> region r' (flat q' ++ part ++ [x]) -> Forall msg_ok q' ->
      make_room (Z.of_nat (length part + S n)) q' = make_room (Z.of_nat (length part + S n)) q ->
      exists r'', (r ← writeWord x r; write_words n source r) = Some r'' /\
        region r'' (flat (make_room (Z.of_nat (length part + S n)) q) ++ part ++ take (S n) (x :: source))).
    { intros r' q' -> Hreg' Hq' Hmr. cbn [mbind option_bind].
      destruct (IH source r' q' (part ++ [x]) Hreg' Hq') as (r'' & -> & H'').
      - cbn in Hsrc. lia.
      - rewrite length_app. cbn [length]. lia.
      - exists r''. split; [done|]. rewrite length_app in H''. cbn [length] in H''.
        replace (length part + 1 + n)%nat with (length part + S n)%nat in H'' by lia.
        rewrite Hmr, <- app_assoc in H''. done. }
    destruct (decide (Z.of_nat (length (flat q ++ part)) + 1 < WORDS)) as [Hroom|Hfull].
    + destruct (writeWord_room r _ x Hreg Hroom) as (r' & E & Hr'). rewrite <- app_assoc in Hr'. by apply (Hgo r' q).
    + pose proof (rg_short _ _ Hreg) as Hs. destruct q as [|m q]; [cbn in *; lia|]. inversion_clear Hq as [|? ? Hm Hq'].
      destruct (writeWord_full r m q part x Hreg Hm ltac:(lia)) as (r' & E & Hr'). apply (Hgo r' q); try done.
      cbn [make_room]. rewrite length_app in Hfull. unfold used.
      destruct (Z.ltb_spec (Z.of_nat (length (flat (m :: q))) + Z.of_nat (length part + S n)) WORDS); [lia|done].
Qed.

Lemma make_room_ok need q : Forall msg_ok q -> Forall msg_ok (make_room need q).
Proof.
  induction 1 as [|m q Hm Hq IH]; cbn; [done|]. destruct (_ <? _); [by constructor|done].
Qed.

Lemma flat_app q q' : flat (q ++ q') = flat q ++ flat q'.
Proof. apply flat_map_app. Qed.

Lemma write_rep buf len r q :
  rep r q -> op_ok (Write buf len) ->
  exists r', run_op (Write buf len) r = Some ((spec_op (Write buf len) q).1, r') /\ rep r' (spec_op (Write buf len) q).2.
Proof.
  intros [Hreg Hq] (Hlen & Hbuf & Hfit). unfold run_op, write, spec_op.
  destruct (Z.geb_spec (wordsInObject len) WORDS); [by exists r|].
  destruct (Z.eqb_spec len 0); [by exists r|]. pose proof (loops_words len Hlen) as Hw.
  rewrite <- (app_nil_r (flat q)) in Hreg.
  assert (Hsize : size (len, take (loops len) buf) = Z.of_nat (length (@nil Z) + S (loops len))).
  { unfold size. cbn [snd length]. rewrite length_take. lia. }
  destruct (write_words_region (S (loops len)) (len :: buf) r q [] Hreg Hq) as (r' & E & Hr').
  - cbn [length]. lia.
  - cbn [length]. lia.
  - cbn [write_words] in E. destruct (writeWord len r) as [r1|]; [|done]. cbn [mbind option_bind] in *. rewrite E.
    cbn [mbind option_bind]. exists r'. split; [done|]. cbn [snd]. split.
    + rewrite flat_app, Hsize. cbn [app take] in Hr'. unfold flat at 2. cbn [flat_map encode fst snd]. by rewrite app_nil_r.
    + apply Forall_app. split; [by apply make_room_ok|]. constructor; [|done]. split; cbn [fst snd]; [lia|].
      rewrite length_take. lia.
Qed.

Lemma read_words_region a l r :
  region r (a ++ l) -> exists r', read_words (length a) r = Some (a, r') /\ region r' l.
Proof.
  revert r. induction a as [|x a IH]; intros r Hreg; [by exists r|]. cbn [read_words length].
  destruct Hreg as [Hl Hr Hw Hs Hc]. pose proof WORDS_pos as HW.
  assert (E0 : rd (buffer r) (readX r) = Some x).
  { rewrite <- (Hc 0%nat x eq_refl). rewrite Z.add_0_r. by rewrite Z.mod_small. }
  unfold readWord. rewrite E0. cbn [mbind option_bind]. rewrite Z.rem_mod_nonneg by lia.
  destruct (IH (mk (buffer r) (writeX r) ((readX r + 1) mod WORDS))) as (r' & E & H').
  - apply (region_drop r [x] (a ++ l)); try done. cbn [length app] in *. lia.
  - rewrite E. cbn [mbind option_bind]. by exists r'.
Qed.

Lemma isEmpty_rep r q : rep r q -> isEmpty r = match q with [] => true | _ => false end.
Proof.
  intros [[Hl Hr Hw Hs _] _]. unfold isEmpty. rewrite Hw.
  destruct (Z.eqb_spec (readX r) ((readX r + Z.of_nat (length (flat q))) mod WORDS)) as [E|E].
  - rewrite <- (Z.mod_small (readX r) WORDS) in E at 1 by done. rewrite <- (Z.add_0_r (readX r)) in E at 1.
    apply ring_inj in E; [|lia|lia]. destruct q; [done|cbn in E; lia].
  - destruct q; [|done]. exfalso. apply E. cbn. rewrite Z.add_0_r. by rewrite Z.mod_small.
Qed.

Lemma read_rep maxLen r q :
  rep r q -> exists r', run_op (Read maxLen) r = Some ((spec_op (Read maxLen) q).1, r') /\ rep r' (spec_op (Read maxLen) q).2.
Proof.
  intros Hrep. pose proof (isEmpty_rep r q Hrep) as He. destruct Hrep as [Hreg Hq]. unfold run_op, read, spec_op. rewrite He.
  destruct q as [|[len l] q]; [by exists r|]. inversion_clear Hq as [|? ? [Hlen Hl] Hq']. cbn [fst snd] in Hlen, Hl.
  change (flat ((len, l) :: q)) with ([len] ++ l ++ flat q) in Hreg.
  destruct (read_words_region [len] _ r Hreg) as (r1 & E & Hr1). cbn [length read_words] in E.
  destruct (readWord r) as [[v r1']|]; [|done]. cbn [mbind option_bind] in *. injection E as -> ->.
  rewrite Z.gtb_ltb. destruct (Z.ltb_spec maxLen len).
  - eexists. split; [done|]. split; [|done]. cbn [snd].
    destruct Hr1 as [Hl1 Hr1 Hw1 Hs1 Hc1]. pose proof (loops_words len ltac:(lia)) as Hw.
    rewrite Z.rem_mod_nonneg by (pose proof WORDS_pos; rewrite ?(words_div len) by lia; zlia). rewrite <- Hw, <- Hl.
    apply (region_drop r1 l (flat q)); try done. rewrite length_app in Hs1. lia.
  - rewrite <- Hl. destruct (read_words_region l (flat q) r1 Hr1) as (r2 & -> & Hr2). cbn [mbind option_bind].
    by exists r2.
Qed.

Lemma run_op_rep o r q :
  rep r q -> op_ok o -> exists r', run_op o r = Some ((spec_op o q).1, r') /\ rep r' (spec_op o q).2.
Proof.
  intros Hrep Ho. destruct o as [buf len|maxLen| |].
  - by apply write_rep.
  - by apply read_rep.
  - exists (reset r). split; [done|]. split; [|done]. destruct Hrep as [Hreg _]. apply region_nil; [apply Hreg|].
    pose proof WORDS_pos. lia.
  - exists r. cbn. by rewrite (isEmpty_rep r q).
Qed.
Lemma run_rep l r q :
  rep r q -> Forall op_ok l -> exists r', run l r = Some ((spec l q).1, r') /\ rep r' (spec l q).2.
Proof.
  intros Hrep Hl. revert r q Hrep. induction Hl as [|o l Ho Hl IH]; intros r q Hrep; [by exists r|].
  cbn [run spec]. destruct (run_op_rep o r q Hrep Ho) as (r1 & -> & H1). cbn [mbind option_bind].
  destruct (spec_op o q) as [a q1]. destruct (IH r1 q1 H1) as (r2 & -> & H2). cbn [mbind option_bind].
  destruct (spec l q1) as [as_ q2]. by exists r2.
Qed.

(** C26: A new byte ring answers every sequence of writes, reads, resets and tests,
    in which no message has exactly [WORDS - 1] words and no length is negative,
    like a queue of messages that forgets the oldest ones when a new message needs
    the room: what is read has the bytes and the length that were written, in order,
    and no access leaves the array. *)
Theorem byte_ring_refines b l :
  Z.of_nat (length b) = WORDS -> Forall op_ok l ->
  exists r', run l (init b) = Some ((spec l []).1, r').
Proof.
  intros Hb Hl. destruct (run_rep l (init b) []) as (r' & E & _); [|done|by exists r'].
  split; [|done]. apply region_nil; [done|]. pose proof WORDS_pos. lia.
Qed.

End Ring.

(** ** Examples *)

(** A ring of four words: the second message does not fit beside the first, which
    is forgotten; then a message that is too long for its reader is skipped. *)
Lemma byte_ring_refines_witness :
  exists r, run 16 [Write [11; 12] 5; Write [13] 4; Read 8; Write [14; 15] 8; Read 4; IsEmpty] (init [0; 0; 0; 0]) =
    Some ([Done true; Done true; Got 4 [13]; Done true; Got (-1) []; Done true], r).
Proof.
  refine (byte_ring_refines 16 ltac:(lia) [0; 0; 0; 0]
    [Write [11; 12] 5; Write [13] 4; Read 8; Write [14; 15] 8; Read 4; IsEmpty] eq_refl _).
  repeat (apply Forall_cons; split); try apply Forall_nil; try exact I; vm_compute; repeat split; try lia; discriminate.
Defined.

(** A message that takes all words but its header is accepted and lost, with all
    that was in the ring. *)
Example largest_message_lost :
  option_map fst (run 16 [Write [11] 4; Write [12; 13; 14] 12; IsEmpty; Read 12] (init [0; 0; 0; 0])) =
  Some [Done true; Done true; Done true; Got 0 []].
Proof. reflexivity. Qed.

(** A negative length is taken as a header; when its message is to be forgotten the
    index becomes negative, and the next access leaves the array. *)
Example negative_length :
  run 16 [Write [] (-20); Write [1] 4; Write [2] 4; IsEmpty; Read 4] (init [0; 0; 0; 0]) = None.
Proof. reflexivity. Qed.

End ByteStreamRing.
