(* ===== verification/StringPico.v ===== *)
(** * The string functions (src/independent/string_pico.cpp)

    A pointer to characters is the list of what lies in memory from there on; a
    null pointer is [None].  A function that runs off the end of the memory has no
    result.  Where [dest] is written the result has the memory behind [dest]
    afterwards; source and destination do not overlap. *)

From S2P Require Import Prelude.

#[local] Open Scope Z_scope.

Module StringPico.

Definition ptr : Type := option (list Z).

Fixpoint strlen_loop (s : list Z) (len : Z) : option Z :=
  match s with
  | [] => None
  | c :: s => if c =? 0 then Some len else strlen_loop s (len + 1)
  end.
Definition strlen (s : ptr) : option Z :=
  match s with None => Some 0 | Some s => strlen_loop s 0 end.

Fixpoint strnlen_loop (s : list Z) (len n : Z) : option Z :=
  match s with
  | [] => None
  | c :: s =>
      if c =? 0 then Some len
      else let len := len + 1 in if len >=? n then Some len else strnlen_loop s len n
  end.
Definition strnlen (s : ptr) (n : Z) : option Z :=
  match s with None => Some 0 | Some s => strnlen_loop s 0 n end.

(** The character at [dest] is replaced. *)
Definition poke (dest : list Z) (c : Z) (k : list Z -> option (list Z)) : option (list Z) :=
  match dest with [] => None | _ :: dest => d ← k dest; Some (c :: d) end.

Fixpoint strcpy_loop (dest s : list Z) {struct s} : option (list Z) :=
  match s with
  | [] => None
  | c :: s => if c =? 0 then poke dest 0 Some else poke dest c (fun d => strcpy_loop d s)
  end.
(** The memory behind [destP]; nothing happens for a null pointer. *)
Definition strcpy (destP s : ptr) : option ptr :=
  match s, destP with
  | Some s, Some dest => d ← strcpy_loop dest s; Some (Some d)
  | _, _ => Some destP
  end.

Fixpoint strncpy_loop (dest src : list Z) (n : nat) {struct n} : option (list Z) :=
  match n with
  | O => poke dest 0 Some
  | S n =>
      match src with
      | [] => None
      | c :: src => if c =? 0 then poke dest 0 Some else poke dest c (fun d => strncpy_loop d src n)
      end
  end.
Definition strncpy (destP src : ptr) (n : nat) : option ptr :=
  match src, destP with
  | Some src, Some dest => d ← strncpy_loop dest src n; Some (Some d)
  | _, _ => Some None
  end.

Fixpoint memset_loop (dest : list Z) (c : Z) (len : nat) {struct len} : option (list Z) :=
  match len with O => Some dest | S len => poke dest c (fun d => memset_loop d c len) end.
Definition memset (destP : ptr) (c : Z) (len : nat) : option ptr :=
  match destP with None => Some None | Some dest => d ← memset_loop dest c len; Some (Some d) end.

Fixpoint memcpy_loop (dest s : list Z) (len : nat) {struct len} : option (list Z) :=
  match len with
  | O => Some dest
  | S len => match s with [] => None | c :: s => poke dest c (fun d => memcpy_loop d s len) end
  end.
Definition memcpy (destP sP : ptr) (len : nat) : option ptr :=
  match destP, sP with
  | Some dest, Some s => d ← memcpy_loop dest s len; Some (Some d)
  | _, _ => Some None
  end.

Fixpoint memcmp (a b : list Z) (len : nat) {struct len} : option Z :=
  match len with
  | O => Some 0
  | S len =>
      match a, b with
      | cA :: a, cB :: b => if u8 cA <? u8 cB then Some (-1) else if u8 cA >? u8 cB then Some 1 else memcmp a b len
      | _, _ => None
      end
  end.

Fixpoint strcmp_loop (a b : list Z) : option Z :=
  match a, b with
  | ac :: a, bc :: b =>
      if u8 ac <? u8 bc then Some (-1)
      else if u8 ac >? u8 bc then Some 1
      else if u8 ac =? 0 then Some 0 else strcmp_loop a b
  | _, _ => None
  end.
Definition null_cmp (a b : ptr) (k : list Z -> list Z -> option Z) : option Z :=
  match a, b with
  | None, None => Some 0
  | None, Some _ => Some (-1)
  | Some _, None => Some 1
  | Some a, Some b => k a b
  end.
Definition strcmp (a b : ptr) : option Z := null_cmp a b strcmp_loop.

(** The characters are read before [n] is looked at. *)
Fixpoint strncmp_loop (a b : list Z) (n : nat) : option Z :=
  match a, b with
  | ac :: a, bc :: b =>
      match n with
      | O => Some 0
      | S n =>
          if u8 ac <? u8 bc then Some (-1)
          else if u8 ac >? u8 bc then Some 1
          else if u8 ac =? 0 then Some 0 else strncmp_loop a b n
      end
  | _, _ => None
  end.
Definition strncmp (a b : ptr) (n : nat) : option Z := null_cmp a b (fun a b => strncmp_loop a b n).

(** [strchr]: the pointer that is returned. *)
Fixpoint strchr (str : list Z) (character : Z) : option ptr :=
  match str with
  | [] => None
  | c :: str' =>
      if negb (c =? 0) && negb (c =? character) then strchr str' character
      else Some (if c =? character then Some str else None)
  end.

(** [strstr]: the loops that look for the first character and compare the rest. *)
Fixpoint strstr_loop (s : list Z) (c : Z) (find : list Z) (len : nat) : option ptr :=
  match s with
  | [] => None
  | sc :: s' =>
      if sc =? 0 then Some None
      else if sc =? c then
        r ← strncmp (Some s') (Some find) len;
        if r =? 0 then Some (Some s) else strstr_loop s' c find len
      else strstr_loop s' c find len
  end.
Definition strstr (s find : list Z) : option ptr :=
  match find with
  | [] => None
  | c :: find' => if c =? 0 then Some (Some s) else len ← strlen (Some find'); strstr_loop s c find' (Z.to_nat len)
  end.

(** ** Strings *)

(** The string [l] with its end and what lies behind. *)
Definition cstr (l rest : list Z) : list Z := l ++ 0 :: rest.
Definition chars (l : list Z) : Prop := Forall (fun c => c <> 0 /\ -128 <= c < 256) l.
(** Of one signedness. *)
Definition plain (l : list Z) : Prop := Forall (fun c => 0 < c < 256) l.

Lemma strlen_spec l rest : chars l -> strlen (Some (cstr l rest)) = Some (Z.of_nat (length l)).
Proof.
  intros Hl. cbn. enough (E : forall n, strlen_loop (cstr l rest) n = Some (n + Z.of_nat (length l))) by apply E.
  induction Hl as [|c l [Hc _] Hl IH]; intros n; cbn; [f_equal; lia|].
  destruct (Z.eqb_spec c 0); [done|]. change (l ++ 0 :: rest) with (cstr l rest). rewrite IH. f_equal. lia.
Qed.

Lemma strnlen_spec l rest n :
  chars l -> 0 < n -> strnlen (Some (cstr l rest)) n = Some (Z.min n (Z.of_nat (length l))).
Proof.
  intros Hl Hn. cbn.
  enough (E : forall k, 0 <= k < n -> strnlen_loop (cstr l rest) k n = Some (Z.min n (k + Z.of_nat (length l)))) by (apply E; lia).
  clear Hn. induction Hl as [|c l [Hc _] Hl IH]; intros k Hk; cbn; [f_equal; lia|].
  destruct (Z.eqb_spec c 0); [done|]. destruct (Z.geb_spec (k + 1) n); [f_equal; lia|].
  change (l ++ 0 :: rest) with (cstr l rest). rewrite IH by lia. f_equal. lia.
Qed.

Lemma strcpy_spec l rest dest :
  chars l -> (length l < length dest)%nat ->
  strcpy (Some dest) (Some (cstr l rest)) = Some (Some (cstr l (drop (S (length l)) dest))).
Proof.
  intros Hl. cbn. revert dest. induction Hl as [|c l [Hc _] Hl IH]; intros dest Hd.
  - by destruct dest; [cbn in Hd; lia|].
  - destruct dest as [|d dest]; [cbn in Hd; lia|]. cbn. destruct (Z.eqb_spec c 0); [done|].
    specialize (IH dest ltac:(cbn in Hd; lia)). change (l ++ 0 :: rest) with (cstr l rest).
    destruct (strcpy_loop dest (cstr l rest)) as [x|]; [|done]. cbn in *. by injection IH as ->.
Qed.

Lemma strncpy_spec l rest dest n :
  chars l -> (Nat.min n (length l) < length dest)%nat ->
  strncpy (Some dest) (Some (cstr l rest)) n = Some (Some (cstr (take n l) (drop (S (Nat.min n (length l))) dest))).
Proof.
  intros Hl. cbn. revert dest n. induction Hl as [|c l [Hc _] Hl IH]; intros dest n Hd.
  - destruct n; (destruct dest; [cbn in Hd; lia|done]).
  - destruct dest as [|d dest]; [cbn in Hd; lia|]. destruct n as [|n]; [done|]. cbn. destruct (Z.eqb_spec c 0); [done|].
    specialize (IH dest n ltac:(cbn in Hd; lia)). change (l ++ 0 :: rest) with (cstr l rest).
    destruct (strncpy_loop dest (cstr l rest) n) as [x|]; [|done]. cbn in *. by injection IH as ->.
Qed.

Lemma memcpy_spec src dest n :
  (n <= length src)%nat -> (n <= length dest)%nat ->
  memcpy (Some dest) (Some src) n = Some (Some (take n src ++ drop n dest)).
Proof.
  cbn. revert src dest. induction n as [|n IH]; intros src dest Hs Hd; [done|].
  destruct src as [|c src]; [cbn in Hs; lia|]. destruct dest as [|d dest]; [cbn in Hd; lia|]. cbn.
  specialize (IH src dest ltac:(cbn in Hs; lia) ltac:(cbn in Hd; lia)).
  destruct (memcpy_loop dest src n) as [x|]; [|done]. cbn in *. by injection IH as ->.
Qed.

Lemma memset_spec c dest n :
  (n <= length dest)%nat -> memset (Some dest) c n = Some (Some (replicate n c ++ drop n dest)).
Proof.
  cbn. revert dest. induction n as [|n IH]; intros dest Hd; [done|].
  destruct dest as [|d dest]; [cbn in Hd; lia|]. cbn. specialize (IH dest ltac:(cbn in Hd; lia)).
  destruct (memset_loop dest c n) as [x|]; [|done]. cbn in *. by injection IH as ->.
Qed.

(** ** Comparison *)

(** The lexicographic order of the characters without sign. *)
Fixpoint lex (a b : list Z) : Z :=
  match a, b with
  | [], [] => 0
  | [], _ :: _ => -1
  | _ :: _, [] => 1
  | x :: a, y :: b => if u8 x <? u8 y then -1 else if u8 y <? u8 x then 1 else lex a b
  end.

Lemma u8_char c : c <> 0 -> -128 <= c < 256 -> 0 < u8 c.
Proof. intros. zlia. Qed.

Lemma strncmp_lex a b ra rb n :
  chars a -> chars b ->
  strncmp (Some (cstr a ra)) (Some (cstr b rb)) n = Some (lex (take n a) (take n b)).
Proof.
  intros Ha Hb. cbn. revert a b Ha Hb. induction n as [|n IH]; intros a b Ha Hb.
  - by destruct a, b.
  - destruct Ha as [|x a [Hx Hx'] Ha], Hb as [|y b [Hy Hy'] Hb]; cbn [cstr app strncmp_loop take lex].
    + done.
    + change (u8 0) with 0. pose proof (u8_char y Hy Hy'). destruct (Z.ltb_spec 0 (u8 y)); [done|lia].
    + change (u8 0) with 0. pose proof (u8_char x Hx Hx'). destruct (Z.ltb_spec (u8 x) 0); [lia|].
      rewrite Z.gtb_ltb. destruct (Z.ltb_spec 0 (u8 x)); [done|lia].
    + rewrite Z.gtb_ltb. destruct (u8 x <? u8 y); [done|]. destruct (u8 y <? u8 x); [done|].
      pose proof (u8_char x Hx Hx'). destruct (Z.eqb_spec (u8 x) 0); [lia|]. by apply IH.
Qed.
Lemma strcmp_lex a b ra rb :
  chars a -> chars b -> strcmp (Some (cstr a ra)) (Some (cstr b rb)) = Some (lex a b).
Proof.
  intros Ha Hb. cbn. revert b Hb. induction Ha as [|x a [Hx Hx'] Ha IH]; intros b Hb;
    destruct Hb as [|y b [Hy Hy'] Hb]; cbn [cstr app strcmp_loop lex].
  - done.
  - change (u8 0) with 0. pose proof (u8_char y Hy Hy'). destruct (Z.ltb_spec 0 (u8 y)); [done|lia].
  - change (u8 0) with 0. pose proof (u8_char x Hx Hx'). destruct (Z.ltb_spec (u8 x) 0); [lia|].
    rewrite Z.gtb_ltb. destruct (Z.ltb_spec 0 (u8 x)); [done|lia].
  - rewrite Z.gtb_ltb. destruct (u8 x <? u8 y); [done|]. destruct (u8 y <? u8 x); [done|].
    pose proof (u8_char x Hx Hx'). destruct (Z.eqb_spec (u8 x) 0); [lia|]. by apply IH.
Qed.

Lemma lex_sym a b : lex b a = - lex a b.
Proof.
  revert b. induction a as [|x a IH]; intros [|y b]; cbn; try done.
  destruct (Z.ltb_spec (u8 x) (u8 y)), (Z.ltb_spec (u8 y) (u8 x)); try lia; try done.
Qed.
Lemma lex_eq a b : plain a -> plain b -> (lex a b = 0 <-> a = b).
Proof.
  intros Ha. revert b. induction Ha as [|x a Hx Ha IH]; intros b Hb; destruct Hb as [|y b Hy Hb]; cbn; try done.
  rewrite !u8_small by (ints; lia).
  destruct (Z.ltb_spec x y); [split; [done|intros [=]; lia]|].
  destruct (Z.ltb_spec y x); [split; [done|intros [=]; lia]|].
  rewrite (IH b Hb). assert (x = y) as -> by lia. split; congruence.
Qed.

(** ** Search *)

(** The first place of [find] in [s]. *)
Fixpoint first_at (s find : list Z) : option nat :=
  if decide (take (length find) s = find) then Some 0%nat
  else match s with [] => None | _ :: s => S <$> first_at s find end.

Lemma first_at_Some s find i :
  first_at s find = Some i ->
  take (length find) (drop i s) = find /\ forall j, (j < i)%nat -> take (length find) (drop j s) <> find.
Proof.
  revert i. induction s as [|c s IH]; intros i; cbn [first_at]; case_decide as Hd; try done.
  - intros [= <-]. split; [done|lia].
  - intros [= <-]. split; [done|lia].
  - destruct (first_at s find) as [k|] eqn:E; [|done]. intros [= <-]. destruct (IH k eq_refl) as [H1 H2].
    split; [done|]. intros [|j] Hj; [done|]. apply H2. lia.
Qed.
Lemma first_at_None s find i : first_at s find = None -> take (length find) (drop i s) <> find.
Proof.
  revert i. induction s as [|c s IH]; intros i; cbn [first_at]; case_decide as Hd; try done.
  - by destruct i.
  - destruct (first_at s find) eqn:E; [done|]. intros _. destruct i as [|i]; [done|]. by apply IH.
Qed.

Lemma plain_chars l : plain l -> chars l.
Proof. intros H. eapply Forall_impl; [exact H|]. cbn. lia. Qed.

Lemma strstr_loop_spec s c find r r' :
  plain s -> plain find -> 0 < c < 256 ->
  strstr_loop (cstr s r) c (cstr find r') (length find) =
  Some ((fun i => cstr (drop i s) r) <$> first_at s (c :: find)).
Proof.
  intros Hs Hf Hc. induction Hs as [|x s Hx Hs IH]; [done|]. cbn [cstr app strstr_loop first_at length take].
  destruct (Z.eqb_spec x 0); [lia|]. change (s ++ 0 :: r) with (cstr s r).
  assert (Hskip : x :: take (length find) s <> c :: find ->
    strstr_loop (cstr s r) c (cstr find r') (length find) =
    Some ((fun i => cstr (drop i (x :: s)) r) <$> (if decide (x :: take (length find) s = c :: find) then Some 0%nat
      else S <$> first_at s (c :: find)))).
  { intros Hne. rewrite decide_False by done. rewrite IH. by destruct (first_at s (c :: find)). }
  destruct (Z.eqb_spec x c) as [->|Hxc]; [|apply Hskip; congruence].
  rewrite strncmp_lex by (by apply plain_chars). cbn [mbind option_bind].
  rewrite (take_ge find) by done.
  destruct (Z.eqb_spec (lex (take (length find) s) find) 0) as [E|E].
  - apply lex_eq in E; [|by apply Forall_take|done]. by rewrite E, decide_True.
  - apply Hskip. intros [= E']. apply E. apply lex_eq; [by apply Forall_take|done|done].
Qed.

(** [strstr] finds the first place where the second string occurs in the first,
    and answers null exactly when there is none. *)
Theorem strstr_finds s find r r' :
  plain s -> plain find ->
  strstr (cstr s r) (cstr find r') = Some ((fun i => cstr (drop i s) r) <$> first_at s find).
Proof.
  intros Hs Hf. destruct Hf as [|c find Hc Hf].
  - cbn. by destruct s.
  - unfold strstr. cbn [cstr app]. destruct (Z.eqb_spec c 0); [lia|].
    change (find ++ 0 :: r') with (cstr find r'). rewrite strlen_spec by (by apply plain_chars).
    cbn [mbind option_bind]. rewrite Nat2Z.id. by apply strstr_loop_spec.
Qed.

(** [strcmp] answers 0 exactly for equal strings, and exchanging the arguments
    turns the answer around. *)
Theorem strcmp_order a b ra rb :
  plain a -> plain b ->
  exists x, strcmp (Some (cstr a ra)) (Some (cstr b rb)) = Some x /\
    strcmp (Some (cstr b rb)) (Some (cstr a ra)) = Some (- x) /\ (x = 0 <-> a = b).
Proof.
  intros Ha Hb. exists (lex a b). rewrite !strcmp_lex by (by apply plain_chars).
  rewrite (lex_sym a b). split; [done|]. split; [done|]. by apply lex_eq.
Qed.

(** ** Examples *)

Lemma strstr_finds_witness :
  strstr (cstr [97; 97; 98] []) (cstr [97; 98] []) = Some (Some (cstr [97; 98] [])).
Proof.
  etrans; [apply (strstr_finds [97; 97; 98] [97; 98] [] []); repeat constructor; lia|]. reflexivity.
Defined.
Lemma strcmp_order_witness : exists x, strcmp (Some (cstr [97] [])) (Some (cstr [97; 98] [])) = Some x /\ x <> 0.
Proof.
  destruct (strcmp_order [97] [97; 98] [] []) as (x & E & _ & Hx); [repeat constructor; lia|repeat constructor; lia|].
  exists x. split; [exact E|]. intros Hx0. apply Hx in Hx0. discriminate.
Defined.

(** [strnlen] with [n = 0] answers 1; [strncpy] writes a character more than [n];
    [strncmp] reads one more. *)
Example strnlen_zero : strnlen (Some [97; 0]) 0 = Some 1.
Proof. reflexivity. Qed.
Example strncpy_writes_more : strncpy (Some [1; 2]) (Some [97; 98; 99; 0]) 2 = None /\
  strncpy (Some [1; 2; 3]) (Some [97; 98; 99; 0]) 2 = Some (Some [97; 98; 0]).
Proof. done. Qed.
Example strncmp_reads_more : strncmp (Some [97]) (Some [97]) 1 = None.
Proof. reflexivity. Qed.

End StringPico.
