(* ===== verification/StdlibPico.v ===== *)
(** * Numbers in text (src/independent/stdlib_pico.cpp,
    support-libs/scanf-substitue.cpp)

    A pointer to text is the list of the characters from there on; to read behind
    the memory, or an overflow of a signed number, has no result. *)

From S2P Require Import Prelude.

#[local] Open Scope Z_scope.

Module StdlibPico.

Definition INT32_MIN : Z := -2147483648.
Definition INT32_MAX : Z := 2147483647.
Definition i32 (x : Z) : option Z := if (INT32_MIN <=? x) && (x <=? INT32_MAX) then Some x else None.

Definition isspace (c : Z) : bool := (c >=? 0x09) && (c <=? 0x0D) || (c =? 0x20).
Definition isdigit (c : Z) : bool := (c >=? 48) && (c <=? 57).
Definition isalpha (c : Z) : bool := (c >=? 97) && (c <=? 122) || (c >=? 65) && (c <=? 90).
Definition isupper (c : Z) : bool := (c >=? 65) && (c <=? 90).

(** The value of a digit or a letter. *)
Definition digit (c : Z) : option Z :=
  if isdigit c then Some (c - 48)
  else if isalpha c then Some (c - (if isupper c then 65 - 10 else 97 - 10))
  else None.

(** ** strToInt32_t *)

Definition uncons (s : list Z) : option (Z * list Z) := match s with [] => None | c :: s => Some (c, s) end.

(** [do c = *s++; while (isspace(c))] *)
Fixpoint skip_spaces (s : list Z) : option (Z * list Z) :=
  match s with
  | [] => None
  | c :: s => if isspace c then skip_spaces s else Some (c, s)
  end.

(** The digits; the result has the text from the character that ends them. *)
Fixpoint digits (base cutoff cutlim : Z) (s : list Z) (acc any : Z) : option (Z * Z * list Z) :=
  match s with
  | [] => None
  | c :: s' =>
      match digit c with
      | None => Some (acc, any, s)
      | Some d =>
          if d >=? base then Some (acc, any, s)
          else if (any <? 0) || (acc >? cutoff) || (acc =? cutoff) && (d >? cutlim) then digits base cutoff cutlim s' acc (-1)
          else
            acc ← i32 (acc * base);
            acc ← i32 (acc + d);
            digits base cutoff cutlim s' acc 1
      end
  end.

(** The number, and the text behind it ([*endptr]). *)
Definition strToInt32_t (nptr : list Z) (base : Z) : option (Z * list Z) :=
  '(c, s) ← skip_spaces nptr;
  '(neg, c, s) ← (if c =? 45 then '(c, s) ← uncons s; Some (true, c, s)
                  else if c =? 43 then '(c, s) ← uncons s; Some (false, c, s)
                  else Some (false, c, s));
  '(hex, c, s) ← (if ((base =? 0) || (base =? 16)) && (c =? 48) then
                    '(x, s') ← uncons s;
                    if (x =? 120) || (x =? 88) then '(c, s) ← uncons s'; Some (true, c, s) else Some (false, c, s)
                  else Some (false, c, s));
  let base := if hex : bool then 16 else base in
  let base := if base =? 0 then if c =? 48 then 8 else 10 else base in
  let limit := if neg : bool then 2147483648 else INT32_MAX in
  let cutlim := u8 (limit mod base) in
  let cutoff := limit / base in
  '(acc, any, e) ← digits base cutoff cutlim (c :: s) 0 0;
  acc ← (if any <? 0 then Some (if neg then INT32_MIN else INT32_MAX)
         else if neg then i32 (- acc) else Some acc);
  Some (acc, if any =? 0 then nptr else e).

(** ** s2int *)

Fixpoint s2int_loop (s : list Z) (retVal : Z) : option Z :=
  match s with
  | [] => None
  | c :: s =>
      if (c >=? 48) && (c <=? 57) then
        r ← i64 (retVal * 10); r ← i64 (r + (c - 48)); s2int_loop s r
      else Some retVal
  end.
Definition s2int (s : list Z) : option Z :=
  match s with
  | [] => None
  | c :: s' => if c =? 45 then r ← s2int_loop s' 0; i64 (- r) else s2int_loop s 0
  end.

(** ** Tokenizer *)

(** [separators] is a text of its own. *)
Fixpoint isSeparator (separators : list Z) (c : Z) : option bool :=
  match separators with
  | [] => None
  | x :: separators => if x =? 0 then Some false else if c =? x then Some true else isSeparator separators c
  end.
(** [skip] leaves the separators, the result has the text from the first other
    character on; [word] goes to the end of the token. *)
Fixpoint skip (separators : list Z) (s : list Z) : option (list Z) :=
  match s with
  | [] => None
  | c :: s' => b ← isSeparator separators c; if b : bool then skip separators s' else Some s
  end.
Fixpoint word (separators : list Z) (s : list Z) : option (list Z * list Z) :=
  match s with
  | [] => None
  | c :: s' =>
      if c =? 0 then Some ([], s)
      else b ← isSeparator separators c;
           if b : bool then Some ([], s) else '(w, s) ← word separators s'; Some (c :: w, s)
  end.
(** [next]: the token, which is ended with a zero in place, and the text behind. *)
Definition next (separators : list Z) (ptr : list Z) : option (option (list Z) * list Z) :=
  s ← skip separators ptr;
  match s with
  | [] => None
  | c :: _ =>
      if c =? 0 then Some (None, s)
      else
        '(w, s) ← word separators s;
        match s with
        | [] => None
        | c :: s' => Some (Some w, if c =? 0 then s else s')
        end
  end.

(** ** Lemmas *)

(** The value of digits, after [acc]. *)
Definition value (base acc : Z) (ds : list Z) : Z := fold_left (fun a d => a * base + d) ds acc.
Definition spells (base : Z) (s ds : list Z) : Prop := Forall2 (fun c d => digit c = Some d /\ 0 <= d < base) s ds.

Lemma value_app base acc a b : value base acc (a ++ b) = value base (value base acc a) b.
Proof. apply fold_left_app. Qed.
Lemma value_mono base acc ds :
  1 <= base -> 0 <= acc -> Forall (fun d => 0 <= d) ds -> acc <= value base acc ds.
Proof.
  intros Hb Ha Hd. revert acc Ha. induction Hd as [|d ds Hd _ IH]; intros acc Ha; [done|]. cbn.
  transitivity (acc * base + d); [nia|]. apply IH. nia.
Qed.

Lemma spells_nonneg base s ds : spells base s ds -> Forall (fun d => 0 <= d) ds.
Proof. induction 1; constructor; [lia|done]. Qed.

Lemma i32_small x : -2147483648 <= x <= 2147483647 -> i32 x = Some x.
Proof.
  intros H. unfold i32, INT32_MIN, INT32_MAX.
  destruct (Z.leb_spec (-2147483648) x); [|lia]. by destruct (Z.leb_spec x 2147483647); [|lia].
Qed.

(** Letters and signs that end a number. *)
Definition ends (base c : Z) : Prop := match digit c with None => True | Some d => base <= d end.

Lemma digits_over base cutoff cutlim s ds c rest acc :
  spells base s ds -> ends base c ->
  digits base cutoff cutlim (s ++ c :: rest) acc (-1) = Some (acc, -1, c :: rest).
Proof.
  intros Hs Hc. induction Hs as [|x d s ds [Hx Hd] _ IH].
  - cbn [app digits]. unfold ends in Hc. destruct (digit c) as [d|]; [|done]. destruct (Z.geb_spec d base); [done|lia].
  - cbn [app digits]. rewrite Hx. destruct (Z.geb_spec d base); [lia|]. exact IH.
Qed.

Lemma over_limit limit base acc d :
  2 <= base -> 0 <= acc -> 0 <= d < base -> 0 <= limit ->
  (acc >? limit / base) || (acc =? limit / base) && (d >? limit mod base) = (acc * base + d >? limit).
Proof.
  intros Hb Ha Hd Hl. pose proof (Z.div_mod limit base ltac:(lia)). pose proof (Z.mod_pos_bound limit base ltac:(lia)).
  rewrite !Z.gtb_ltb. set (q := limit / base) in *. set (r := limit mod base) in *.
  destruct (Z.ltb_spec q acc), (Z.eqb_spec acc q), (Z.ltb_spec r d), (Z.ltb_spec limit (acc * base + d)); cbn; try done; nia.
Qed.

(** The loop over the digits; [limit] is the largest value, and no value on the
    way is [2^31]. *)
Lemma digits_spec base limit s ds c rest acc any :
  2 <= base <= 36 -> INT32_MAX <= limit <= INT32_MAX + 1 -> spells base s ds -> ends base c ->
  0 <= acc <= INT32_MAX -> any = 0 \/ any = 1 ->
  (forall a b, ds = a ++ b -> limit < 2147483648 \/ value base acc a <> 2147483648) ->
  exists acc' any', digits base (limit / base) (u8 (limit mod base)) (s ++ c :: rest) acc any = Some (acc', any', c :: rest) /\
    (limit < value base acc ds -> any' < 0) /\
    (value base acc ds <= limit -> acc' = value base acc ds /\ any' = if decide (ds = []) then any else 1).
Proof.
  intros Hb Hl Hs Hc. unfold INT32_MAX in *.
  assert (Hlim : u8 (limit mod base) = limit mod base) by (apply u8_small; pose proof (Z.mod_pos_bound limit base); ints; lia).
  rewrite Hlim. revert acc any. induction Hs as [|x d s ds [Hx Hd] Hs IH]; intros acc any Ha Hany Hne.
  - exists acc, any. split; [|split; [cbn; lia|done]].
    cbn [app digits]. unfold ends in Hc. destruct (digit c) as [d|]; [|done]. destruct (Z.geb_spec d base); [done|lia].
  - cbn [app digits]. rewrite Hx. destruct (Z.geb_spec d base); [lia|].
    rewrite (proj2 (Z.ltb_ge any 0)) by lia. cbn [orb]. rewrite over_limit by lia.
    pose proof (value_mono base (acc * base + d) ds ltac:(lia) ltac:(nia) (spells_nonneg _ _ _ Hs)) as Hm.
    change (value base acc (d :: ds)) with (value base (acc * base + d) ds).
    destruct (Z.gtb_spec (acc * base + d) limit) as [Hgt|Hle].
    + exists acc, (-1). rewrite (digits_over _ _ _ _ ds) by done. split; [done|]. split; lia.
    + assert (Hv : acc * base + d <> 2147483648).
      { destruct (Hne [d] ds eq_refl) as [|Hv]; [lia|]. exact Hv. }
      rewrite i32_small by nia. cbn [mbind option_bind]. rewrite i32_small by nia. cbn [mbind option_bind].
      destruct (IH (acc * base + d) 1) as (a' & n' & E & G1 & G2); [nia|by right| |].
      { intros a b ->. destruct (Hne (d :: a) b eq_refl) as [|]; [by left|by right]. }
      exists a', n'. split; [done|]. split; [done|]. intros Hv'. destruct (G2 Hv') as [-> Hn]. split; [done|].
      rewrite Hn. by destruct (decide (ds = [])).
Qed.

(** White space, a sign and digits of the base; no [0x]. *)
Definition sign (neg : bool) (plus : bool) : list Z := if neg then [45] else if plus then [43] else [].
Definition clamp (neg : bool) (v : Z) : Z := if neg then Z.max INT32_MIN (- v) else Z.min INT32_MAX v.

Lemma skip_spaces_app ws c s :
  Forall (fun w => isspace w = true) ws -> isspace c = false -> skip_spaces (ws ++ c :: s) = Some (c, s).
Proof. intros Hw Hc. induction Hw as [|w ws Hw _ IH]; cbn; [by rewrite Hc|]. by rewrite Hw. Qed.

Lemma digit_plain c d : digit c = Some d -> isspace c = false /\ c <> 45 /\ c <> 43.
Proof.
  unfold digit, isspace, isdigit, isalpha. rewrite !Z.geb_leb.
  repeat match goal with |- context [?a <=? ?b] => destruct (Z.leb_spec a b) end;
    destruct (Z.eqb_spec c 32); cbn; intros; try discriminate; repeat split; try done; lia.
Qed.
Lemma hex_not_digit x d : digit x = Some d -> d < 16 -> (x =? 120) || (x =? 88) = false.
Proof.
  intros Hd Hlt. destruct (Z.eqb_spec x 120) as [->|]; [vm_compute in Hd; injection Hd as <-; lia|].
  destruct (Z.eqb_spec x 88) as [->|]; [vm_compute in Hd; injection Hd as <-; lia|]. done.
Qed.

(** The text of the number, in a base of 2 to 36. *)
Record numeral (base : Z) (neg plus : bool) (ws s ds : list Z) (c : Z) : Prop := {
  n_base : 2 <= base <= 36;
  n_spaces : Forall (fun w => isspace w = true) ws;
  n_digits : spells base s ds;
  n_some : ds <> [];
  n_end : ends base c;
  n_hex : base = 16 -> (c =? 120) || (c =? 88) = false;
  (** no way over 2147483648 when the number is negative *)
  n_limit : neg = true -> forall a b, ds = a ++ b -> value base 0 a <> 2147483648
}.

Lemma strToInt32_value base neg plus ws s ds c rest :
  numeral base neg plus ws s ds c ->
  strToInt32_t (ws ++ sign neg plus ++ s ++ c :: rest) base = Some (clamp neg (value base 0 ds), c :: rest).
Proof.
  intros [Hb Hws Hs Hne Hc Hhex Hlim]. destruct Hs as [|x d s ds [Hx Hd] Hs]; [done|].
  destruct (digit_plain x d Hx) as (Hsp & H45 & H43).
  assert (Hskip : exists n0 s0, skip_spaces (ws ++ sign neg plus ++ (x :: s) ++ c :: rest) = Some (n0, s0) /\
    (if n0 =? 45 then '(c, s) ← uncons s0; Some (true, c, s)
     else if n0 =? 43 then '(c, s) ← uncons s0; Some (false, c, s) else Some (false, n0, s0)) = Some (neg, x, s ++ c :: rest)).
  { destruct neg; [|destruct plus]; cbn [sign app]; (do 2 eexists; split; [by apply skip_spaces_app|]); cbn; try done.
    destruct (Z.eqb_spec x 45); [done|]. destruct (Z.eqb_spec x 43); done. }
  destruct Hskip as (n0 & s0 & E0 & E1). unfold strToInt32_t. rewrite E0. cbn [mbind option_bind]. rewrite E1. cbn [mbind option_bind].
  assert (E2 : (if ((base =? 0) || (base =? 16)) && (x =? 48) then
                    '(y, s') ← uncons (s ++ c :: rest);
                    if (y =? 120) || (y =? 88) then '(c, s) ← uncons s'; Some (true, c, s) else Some (false, x, s ++ c :: rest)
                  else Some (false, x, s ++ c :: rest)) = Some (false, x, s ++ c :: rest)).
  { destruct (Z.eqb_spec base 0); [lia|]. destruct (Z.eqb_spec base 16) as [->|]; [|done]. cbn [orb].
    destruct (x =? 48); [|done]. cbn [andb]. destruct Hs as [|y e s ds [Hy He] Hs]; cbn [app uncons mbind option_bind].
    - by rewrite Hhex.
    - by rewrite (hex_not_digit y e) by (done || lia). }
  rewrite E2. cbn [mbind option_bind]. clear E0 E1 E2. destruct (Z.eqb_spec base 0); [lia|].
  assert (Hs' : spells base (x :: s) (d :: ds)) by (by constructor).
  set (limit := if neg then 2147483648 else INT32_MAX).
  destruct (digits_spec base limit (x :: s) (d :: ds) c rest 0 0 Hb) as (acc & any & E & H1 & H2); try done.
  { unfold limit, INT32_MAX. destruct neg; lia. }
  { unfold INT32_MAX. lia. }
  { intros a b Hab. unfold limit, INT32_MAX. destruct neg; [right|left; lia]. by apply (Hlim eq_refl a b). }
  cbn [app] in E. rewrite E. cbn [mbind option_bind]. set (v := value base 0 (d :: ds)) in *.
  pose proof (value_mono base 0 (d :: ds) ltac:(lia) ltac:(lia) (spells_nonneg _ _ _ Hs')) as Hv. fold v in Hv.
  destruct (Z.le_gt_cases v limit) as [Hle|Hgt].
  - destruct (H2 Hle) as [-> ->]. rewrite decide_False by done. cbn [Z.ltb Z.eqb Z.compare].
    unfold clamp, limit, INT32_MAX, INT32_MIN in *. destruct neg; cbn [mbind option_bind].
    + assert (v <> 2147483648) by (apply (Hlim eq_refl (d :: ds) []); by rewrite app_nil_r).
      rewrite i32_small by lia. cbn [mbind option_bind]. repeat f_equal. lia.
    + repeat f_equal. lia.
  - pose proof (H1 Hgt) as Hn. destruct (Z.ltb_spec any 0); [|lia]. destruct (Z.eqb_spec any 0); [lia|].
    unfold clamp, limit, INT32_MAX, INT32_MIN in *. destruct neg; cbn [mbind option_bind]; repeat f_equal; lia.
Qed.

(** White space, a sign and digits in a base of 2 to 36 give the number they
    spell, or the nearest one of 32 bits, and the text from the first character
    behind the digits; of the negative numbers those that pass 2147483648 are
    left out. *)
Theorem strToInt32_parses base neg plus ws s ds c rest :
  numeral base neg plus ws s ds c ->
  strToInt32_t (ws ++ sign neg plus ++ s ++ c :: rest) base = Some (clamp neg (value base 0 ds), c :: rest).
Proof. apply strToInt32_value. Qed.

Lemma s2int_loop_value s ds c rest acc :
  spells 10 s ds -> ends 10 c -> isdigit c = false -> 0 <= acc -> value 10 acc ds < 2 ^ 63 ->
  s2int_loop (s ++ c :: rest) acc = Some (value 10 acc ds).
Proof.
  intros Hs Hc Hn. revert acc. induction Hs as [|x d s ds [Hx Hd] Hs IH]; intros acc Ha Hv; cbn [app s2int_loop].
  - unfold isdigit in Hn. rewrite Hn. done.
  - assert (Hdig : (x >=? 48) && (x <=? 57) = true /\ d = x - 48).
    { unfold digit, isdigit, isalpha, isupper in Hx. destruct (_ && _) eqn:E; [by injection Hx|].
      destruct (_ || _) eqn:E2; [|done]. exfalso. injection Hx as Hx.
      rewrite !Z.geb_leb in E2. destruct (Z.leb_spec 97 x), (Z.leb_spec x 122), (Z.leb_spec 65 x), (Z.leb_spec x 90); cbn in E2; try done;
        destruct (x >=? 65) eqn:E3; rewrite Z.geb_leb in E3; apply Z.leb_le in E3 || apply Z.leb_gt in E3; cbn in Hx; lia. }
    destruct Hdig as [-> ->]. cbn [value fold_left] in Hv.
    pose proof (value_mono 10 (acc * 10 + (x - 48)) ds ltac:(lia) ltac:(lia) (spells_nonneg _ _ _ Hs)) as Hm.
    rewrite i64_small by (unfold in_i64; unfold value in *; lia). cbn [mbind option_bind].
    rewrite i64_small by (unfold in_i64; unfold value in *; lia). cbn [mbind option_bind]. apply IH; [lia|done].
Qed.
Lemma s2int_value neg s ds c rest :
  spells 10 s ds -> ds <> [] -> isdigit c = false -> value 10 0 ds < 2 ^ 63 ->
  s2int (sign neg false ++ s ++ c :: rest) = Some (if neg then - value 10 0 ds else value 10 0 ds).
Proof.
  intros Hs Hne Hc Hv. assert (Hends : forall c, isdigit c = false -> ends 10 c).
  { clear. intros c Hc. unfold ends, digit. rewrite Hc. destruct (isalpha c) eqn:E; [|done]. unfold isalpha in E. unfold isupper.
    rewrite !Z.geb_leb in *. destruct (Z.leb_spec 97 c), (Z.leb_spec c 122), (Z.leb_spec 65 c), (Z.leb_spec c 90); cbn in *; lia || done. }
  pose proof (value_mono 10 0 ds ltac:(lia) ltac:(lia) (spells_nonneg _ _ _ Hs)) as Hm.
  destruct neg; cbn [sign app].
  - cbn [s2int]. change (45 =? 45) with true. cbn [mbind option_bind].
    rewrite (s2int_loop_value s ds) by (auto || lia). cbn [mbind option_bind]. apply i64_small. unfold in_i64. lia.
  - destruct Hs as [|x d s ds [Hx Hd] Hs]; [done|]. unfold s2int. cbn [app].
    destruct (digit_plain x d Hx) as (_ & H45 & _). destruct (Z.eqb_spec x 45); [done|].
    apply (s2int_loop_value (x :: s)); auto; [by constructor|lia].
Qed.

(** ** Examples *)

(** "  -0042," *)
Lemma strToInt32_parses_witness :
  strToInt32_t [32; 32; 45; 48; 48; 52; 50; 44; 0] 10 = Some (-42, [44; 0]).
Proof.
  apply (strToInt32_parses 10 true false [32; 32] [48; 48; 52; 50] [0; 0; 4; 2] 44 [0]). split; try done.
  - repeat constructor.
  - repeat constructor; done.
  - intros _ a b E. do 4 (destruct a as [|? a]; [vm_compute; done|injection E as <- E]). destruct a; [vm_compute; done|done].
Defined.

(** The most negative number overflows on the way. *)
Example most_negative : strToInt32_t [45; 50; 49; 52; 55; 52; 56; 51; 54; 52; 56; 0] 10 = None.
Proof. reflexivity. Qed.
(** "0x" without digits: nothing is read, not even the 0. *)
Example hex_without_digits : strToInt32_t [48; 120; 0] 16 = Some (0, [48; 120; 0]).
Proof. reflexivity. Qed.
(** Only the zero in the middle ends the tokens. *)
Example tokens : next [44; 32; 0] [32; 97; 98; 44; 99; 0] = Some (Some [97; 98], [99; 0]).
Proof. reflexivity. Qed.

End StdlibPico.
