(* ===== verification/Yprintf.v ===== *)
(** * Text output (src/independent/yprintf.cpp)

    [vaprintf] is a function from the format and the arguments to the characters
    that are put.  The digits of a number are collected in an array of fixed size;
    to write in front of it has no result, and so has an argument of the wrong
    type.  Floating-point numbers are those of the Standard Library's
    specification of binary64. *)

From Stdlib Require Import SpecFloat.
From S2P Require Import Prelude StdlibPico.

#[local] Open Scope Z_scope.

Module Yprintf.

(** ** binary64 *)

Definition double : Type := spec_float.
Definition of_Z (z : Z) : double := binary_normalize 53 1024 z 0 false.
Definition fmul : double -> double -> double := SFmul 53 1024.
Definition fdiv : double -> double -> double := SFdiv 53 1024.
Definition fsub : double -> double -> double := SFsub 53 1024.
Definition ten : double := of_Z 10.
Definition zero : double := of_Z 0.
Definition is_nan (f : double) : bool := negb (SFeqb f f).
(** The conversion to [long long]. *)
Definition truncate (f : double) : option Z :=
  match f with
  | S754_zero _ => Some 0
  | S754_finite s m e =>
      let x := if 0 <=? e then Zpos m * 2 ^ e else Zpos m / 2 ^ (- e) in
      i64 (if s then - x else x)
  | _ => None
  end.

(** ** The argument list *)

Inductive arg :=
  | AInt (z : Z)
  | ALong (z : Z)
  | ALongLong (z : Z)
  | ADouble (f : double)
  | AStr (s : list Z).

Definition va_int (args : list arg) : option (Z * list arg) := match args with AInt z :: args => Some (z, args) | _ => None end.
Definition va_long (args : list arg) : option (Z * list arg) := match args with ALong z :: args => Some (z, args) | _ => None end.
Definition va_longlong (args : list arg) : option (Z * list arg) :=
  match args with ALongLong z :: args => Some (z, args) | _ => None end.
Definition va_double (args : list arg) : option (double * list arg) :=
  match args with ADouble f :: args => Some (f, args) | _ => None end.
Definition va_string (args : list arg) : option (list Z * list arg) :=
  match args with AStr s :: args => Some (s, args) | _ => None end.

(** ** Directives *)

Record directive := mkDirective {
  width : Z;
  fill : Z;
  decimalPos : Z;
  is_long : bool;
  is_longlong : bool
}.

(** More digits of [decimalPos]; it is a [char]. *)
Fixpoint decimals (c : Z) (fmt : list Z) (decimalPos : Z) : option (Z * Z * list Z) :=
  if StdlibPico.isdigit c then
    match fmt with
    | [] => None
    | c' :: fmt => decimals c' fmt (u8 (decimalPos * 10 + (c - 48)))
    end
  else Some (decimalPos, c, fmt).

(** The part after [.]; a bad format ends the output. *)
Definition precision (c : Z) (fmt : list Z) : option (option (Z * Z * list Z)) :=
  if c =? 46 then
    '(c, fmt) ← StdlibPico.uncons fmt;
    if c =? 0 then Some None
    else
      let decimalPos := u8 (c - 48) in
      '(c, fmt) ← StdlibPico.uncons fmt;
      if c =? 0 then Some None else r ← decimals c fmt decimalPos; Some (Some r)
  else Some (Some (3, c, fmt)).

(** What follows [%]: the directive, the character of the conversion and the rest
    of the format. *)
Definition parse (fmt : list Z) : option (option (directive * Z * list Z)) :=
  '(c, fmt) ← StdlibPico.uncons fmt;
  '(fill, c, fmt) ← (if c =? 48 then '(c, fmt) ← StdlibPico.uncons fmt; Some (48, c, fmt) else Some (32, c, fmt));
  '(width, c, fmt) ← (if StdlibPico.isdigit c then '(c', fmt) ← StdlibPico.uncons fmt; Some (c - 48, c', fmt) else Some (0, c, fmt));
  p ← precision c fmt;
  match p with
  | None => Some None
  | Some (decimalPos, c, fmt) =>
      '(is_long, c, fmt) ← (if c =? 108 then '(c, fmt) ← StdlibPico.uncons fmt; Some (true, c, fmt) else Some (false, c, fmt));
      '(is_longlong, c, fmt) ← (if c =? 108 then '(c, fmt) ← StdlibPico.uncons fmt; Some (true, c, fmt) else Some (false, c, fmt));
      if c =? 0 then Some None else Some (Some (mkDirective width fill decimalPos is_long is_longlong, c, fmt))
  end.

(** ** Numbers *)

(** [*--ptr = ch] in an array of [size] characters that ends with a zero. *)
Definition push (size : nat) (ch : Z) (l : list Z) : option (list Z) :=
  if (length l + 1 <? size)%nat then Some (ch :: l) else None.

Definition digit_char (d : Z) : Z := let ch := d + 48 in if ch >? 57 then ch + 65 - 57 - 1 else ch.

(** The digits from the last one on, with the width that is left; [n] is enough for
    64 bits. *)
Fixpoint put_digits (n : nat) (size : nat) (base u_val width : Z) (l : list Z) : option (Z * list Z) :=
  match n with
  | O => None
  | S n =>
      l ← push size (digit_char (u_val mod base)) l;
      let u_val := u_val / base in
      let width := if width =? 0 then 0 else width - 1 in
      if u_val =? 0 then Some (width, l) else put_digits n size base u_val width l
  end.
(** [while(width--) *--ptr = fill] *)
Fixpoint pad (width : nat) (fill : Z) (l : list Z) : option (list Z) :=
  match width with O => Some l | S width => l ← push 26 fill l; pad width fill l end.

Definition number (base u_val width fill : Z) : option (list Z) :=
  '(width, l) ← put_digits 64 26 base u_val width [];
  pad (Z.to_nat width) fill l.

(** The digits behind the point. *)
Fixpoint fraction (n : nat) (f_val : double) (s_val : Z) : option (list Z) :=
  match n with
  | O => Some []
  | S n =>
      let f_val := fmul (fsub f_val (of_Z s_val)) ten in
      s_val ← truncate f_val;
      l ← fraction n f_val s_val;
      Some (u8 (s_val + 48) :: l)
  end.

(** The loops that scale the number of [%e]. *)
Fixpoint scale_up (n : nat) (sgn f_val tmp : double) (e_val : Z) : option (double * Z) :=
  if SFltb (fmul sgn f_val) tmp && negb (SFeqb f_val zero) && (e_val >=? -306) then
    match n with O => None | S n => scale_up n sgn (fmul f_val ten) tmp (e_val - 1) end
  else Some (f_val, e_val).
Fixpoint scale_down (n : nat) (sgn f_val tmp : double) (e_val : Z) : option (double * Z) :=
  if SFleb tmp (fmul sgn f_val) && (e_val <=? 306) then
    match n with O => None | S n => scale_down n sgn (fdiv f_val ten) tmp (e_val + 1) end
  else Some (f_val, e_val).
Fixpoint power (n : nat) (tmp : double) : double := match n with O => tmp | S n => power n (fmul tmp ten) end.

(** [%e]: the scaled number with its exponent, or the output that ends it. *)
Definition exponent (width : Z) (f_val : double) : option (list Z + double * Z * Z) :=
  if is_nan f_val then Some (inl [110; 97; 110])
  else
    let neg := SFltb f_val zero in
    let sgn := of_Z (if neg then -1 else 1) in
    let pow := width - 1 in
    let pow := if neg && (0 <? pow) then pow - 1 else pow in
    let tmp := power (Z.to_nat pow) (of_Z 1) in
    '(f_val, e_val) ← (if SFltb (fmul sgn f_val) tmp then scale_up 400 sgn f_val tmp 0
                      else '(f, e) ← scale_down 400 sgn f_val tmp 0; Some (fmul f ten, e - 1));
    if e_val <=? -306 then Some (inr (zero, 0, 0))
    else if e_val >=? 306 then Some (inl ((if neg then [45] else []) ++ [105; 110; 102]))
    else s_val ← truncate f_val; Some (inr (f_val, s_val, e_val)).

Definition u_of (d : directive) (long_bits : Z) (s_val : Z) : Z :=
  if is_longlong d then u64 s_val else if is_long d then s_val mod 2 ^ long_bits else u32 s_val.

(** The sign: [-] and one place less. *)
Definition signed_part (is_signed : bool) (d : directive) (s_val : Z) (f_val : double) : option (list Z * Z * double * Z) :=
  if is_signed && ((s_val <? 0) || SFltb f_val zero) then
    s ← i64 (- s_val);
    Some ([45], s, SFopp f_val, if width d =? 0 then 0 else width d - 1)
  else Some ([], s_val, f_val, width d).

Section Output.
(** The size of [long]. *)
Variable long_bits : Z.

(** The output of an integer. *)
Definition put_int (is_signed : bool) (base : Z) (d : directive) (args : list arg) : option (list Z * list arg) :=
  '(s_val, args) ← (if is_longlong d then va_longlong args else if is_long d then va_long args else va_int args);
  '(minus, s_val, _, width) ← signed_part is_signed d s_val zero;
  l ← number base (u_of d long_bits s_val) width (fill d);
  Some (minus ++ l, args).

(** The output of [%f] and [%e]. *)
Definition put_fixed (d : directive) (f_val : double) (s_val : Z) : option (list Z) :=
  '(minus, s_val, f_val, width) ← signed_part true d s_val f_val;
  l ← number 10 (u_of d long_bits s_val) width (fill d);
  fr ← fraction (Z.to_nat (decimalPos d)) f_val s_val;
  Some (minus ++ l ++ 46 :: fr).
Definition put_float (d : directive) (args : list arg) : option (list Z * list arg) :=
  '(f_val, args) ← va_double args;
  if is_nan f_val then Some ([110; 97; 110], args)
  else s_val ← truncate f_val; l ← put_fixed d f_val s_val; Some (l, args).
Definition put_exp (d : directive) (args : list arg) : option (list Z * list arg) :=
  '(f_val, args) ← va_double args;
  x ← exponent (width d) f_val;
  match x with
  | inl out => Some (out, args)
  | inr (f_val, s_val, e_val) =>
      l ← put_fixed d f_val s_val;
      '(_, e) ← put_digits 64 6 10 (Z.abs e_val) 0 [];
      Some (l ++ 101 :: (if e_val <? 0 then [45] else []) ++ e, args)
  end.

(** [while ((c = *ptr++)) yputc(c)] *)
Fixpoint put_string (s : list Z) : option (list Z) :=
  match s with
  | [] => None
  | c :: s => if c =? 0 then Some [] else l ← put_string s; Some (c :: l)
  end.

Definition convert (d : directive) (c : Z) (args : list arg) : option (list Z * list arg) :=
  if c =? 115 then '(s, args) ← va_string args; l ← put_string s; Some (l, args)
  else if c =? 111 then '(l, args) ← put_int false 8 d args; Some (48 :: l, args)
  else if c =? 101 then put_exp d args
  else if c =? 102 then put_float d args
  else if c =? 100 then put_int true 10 d args
  else if c =? 105 then put_int false 10 d args
  else if c =? 117 then put_int false 10 d args
  else if c =? 120 then put_int false 16 d args
  else if c =? 98 then put_int false 2 d args
  else if c =? 99 then '(z, args) ← va_int args; Some ([u8 z], args)
  else Some ([c], args).

(** Every turn takes a character at least: the length of the format is enough. *)
Fixpoint vaprintf_loop (n : nat) (fmt : list Z) (args : list arg) : option (list Z) :=
  match n with
  | O => None
  | S n =>
      '(c, fmt) ← StdlibPico.uncons fmt;
      if c =? 0 then Some []
      else if negb (c =? 37) then l ← vaprintf_loop n fmt args; Some (c :: l)
      else
        p ← parse fmt;
        match p with
        | None => Some []
        | Some (d, c, fmt) =>
            '(out, args) ← convert d c args;
            l ← vaprintf_loop n fmt args;
            Some (out ++ l)
        end
  end.
Definition vaprintf (fmt : list Z) (args : list arg) : option (list Z) := vaprintf_loop (length fmt) fmt args.

(** [xsprintf]: every character is written with a zero behind it; the memory at
    [dest] afterwards. *)
Definition write_chars (dest : list Z) (l : list Z) : option (list Z) :=
  match l with
  | [] => Some dest
  | _ => if (length l <? length dest)%nat then Some (l ++ 0 :: drop (S (length l)) dest) else None
  end.
Definition xsprintf (dest : list Z) (fmt : list Z) (args : list arg) : option (list Z) :=
  l ← vaprintf fmt args; write_chars dest l.


(** ** The format is read to its end *)

Lemma uncons_length s c r : StdlibPico.uncons s = Some (c, r) -> length s = S (length r).
Proof. destruct s; [done|]. by intros [= -> ->]. Qed.
Lemma decimals_length c fmt d d' c' r : decimals c fmt d = Some (d', c', r) -> (length r <= length fmt)%nat.
Proof.
  revert c d. induction fmt as [|x fmt IH]; intros c d; cbn [decimals]; destruct (StdlibPico.isdigit c); try done.
  - by intros [= <- <- <-].
  - intros E. apply IH in E. cbn. lia.
  - by intros [= <- <- <-].
Qed.

Local Ltac next_uncons :=
  match goal with
  | |- context [StdlibPico.uncons ?s] =>
      let c := fresh "c" in let r := fresh "r" in let E := fresh "E" in
      destruct (StdlibPico.uncons s) as [[c r]|] eqn:E; [apply uncons_length in E|done]; cbn [mbind option_bind]
  end.

Lemma precision_length c fmt d c' r : precision c fmt = Some (Some (d, c', r)) -> (length r <= length fmt)%nat.
Proof.
  unfold precision. destruct (c =? 46); [|by intros [= <- <- <-]].
  next_uncons. case_match; [done|]. next_uncons. case_match; [done|].
  destruct (decimals _ _ _) as [[[? ?] ?]|] eqn:E2; [|done]. intros [= -> -> ->]. apply decimals_length in E2. lia.
Qed.

Lemma parse_length fmt d c r : parse fmt = Some (Some (d, c, r)) -> (length r < length fmt)%nat.
Proof.
  unfold parse. next_uncons.
  assert (Hopt : forall (b : bool) (x y : Z) (c0 : Z) (r0 : list Z) z,
    (if b then '(c, f) ← StdlibPico.uncons r0; Some (x, c, f) else Some (y, c0, r0)) = Some z -> (length z.2 <= length r0)%nat).
  { intros b x y c1 r1 [[z1 z2] z3]. destruct b; [|by intros [= <- <- <-]]. next_uncons. intros [= <- <- <-]. cbn. lia. }
  assert (Hflag : forall (b : bool) (c0 : Z) (r0 : list Z) z,
    (if b then '(c, f) ← StdlibPico.uncons r0; Some (true, c, f) else Some (false, c0, r0)) = Some z -> (length z.2 <= length r0)%nat).
  { intros b c1 r1 [[z1 z2] z3]. destruct b; [|by intros [= <- <- <-]]. next_uncons. intros [= <- <- <-]. cbn. lia. }
  destruct (if c0 =? 48 then _ else _) as [[[f c1] r1]|] eqn:E1; [|done]. apply Hopt in E1. cbn [mbind option_bind snd] in *.
  destruct (if StdlibPico.isdigit c1 then _ else _) as [[[w c2] r2]|] eqn:E2; [|done]. apply Hopt in E2. cbn [mbind option_bind snd] in *.
  destruct (precision c2 r2) as [[[[dp c3] r3]|]|] eqn:E3; [|done|done]. apply precision_length in E3. cbn [mbind option_bind snd] in *.
  destruct (if c3 =? 108 then _ else _) as [[[l c4] r4]|] eqn:E4; [|done]. apply Hflag in E4. cbn [mbind option_bind snd] in *.
  destruct (if c4 =? 108 then _ else _) as [[[ll c5] r5]|] eqn:E5; [|done]. apply Hflag in E5. cbn [mbind option_bind snd] in *.
  case_match; [done|]. intros [= _ _ <-]. lia.
Qed.

Lemma vaprintf_fuel n fmt args : (length fmt <= n)%nat -> vaprintf_loop n fmt args = vaprintf fmt args.
Proof.
  unfold vaprintf. remember (length fmt) as k eqn:Hk. revert n fmt args Hk.
  induction (lt_wf k) as [k _ IH]. intros n fmt args -> Hn.
  destruct fmt as [|c fmt]; [by destruct n|]. destruct n as [|n]; [cbn in Hn; lia|]. cbn [length] in *.
  cbn [vaprintf_loop StdlibPico.uncons mbind option_bind]. destruct (c =? 0); [done|].
  assert (Hrec : forall r args, (length r <= length fmt)%nat -> vaprintf_loop n r args = vaprintf_loop (length fmt) r args).
  { intros r a Hr. rewrite (IH (length r)) by (done || lia). symmetry. apply (IH (length r)); done || lia. }
  destruct (c =? 37); cbn [negb].
  - destruct (parse fmt) as [[[[d c'] r]|]|] eqn:Ep; [|done|done]. cbn [mbind option_bind]. apply parse_length in Ep.
    destruct (convert d c' args) as [[o a]|]; [|done]. cbn [mbind option_bind]. by rewrite Hrec by lia.
  - by rewrite Hrec.
Qed.

(** ** Integers *)

Lemma digit_char_digit d : 0 <= d < 36 -> StdlibPico.digit (digit_char d) = Some d.
Proof.
  intros Hd. unfold digit_char, StdlibPico.digit, StdlibPico.isdigit, StdlibPico.isalpha, StdlibPico.isupper.
  rewrite Z.gtb_ltb, !Z.geb_leb. destruct (Z.ltb_spec 57 (d + 48)).
  - repeat match goal with |- context [?a <=? ?b] => destruct (Z.leb_spec a b) end; cbn; try lia; f_equal; lia.
  - repeat match goal with |- context [?a <=? ?b] => destruct (Z.leb_spec a b) end; cbn; try lia; f_equal; lia.
Qed.

Lemma put_digits_spec n k size base u w l :
  2 <= base <= 36 -> 0 <= u < base ^ Z.of_nat k -> (1 <= k <= n)%nat -> (length l + k < size)%nat -> 0 <= w ->
  exists ds vs, put_digits n size base u w l = Some (Z.max 0 (w - Z.of_nat (length ds)), ds ++ l) /\
    StdlibPico.spells base ds vs /\ StdlibPico.value base 0 vs = u /\ (1 <= length ds <= k)%nat.
Proof.
  intros Hb. revert k u w l. induction n as [|n IH]; intros k u w l Hu Hk Hl Hw; [lia|]. cbn [put_digits].
  unfold push. rewrite (proj2 (Nat.ltb_lt _ _)) by lia. cbn [mbind option_bind].
  pose proof (Z.mod_pos_bound u base ltac:(lia)) as Hm. pose proof (Z.div_mod u base ltac:(lia)) as Hdm.
  pose proof (digit_char_digit (u mod base) ltac:(lia)) as Hd.
  destruct (Z.eqb_spec (u / base) 0) as [E|E].
  - exists [digit_char (u mod base)], [u mod base]. split.
    { cbn [length app]. do 2 f_equal. destruct (Z.eqb_spec w 0); lia. }
    split; [by repeat constructor; try lia|]. split; [cbn; lia|cbn; lia].
  - destruct k as [|[|k]]; [lia| |].
    { exfalso. apply E. change (Z.of_nat 1) with 1 in Hu. rewrite Z.pow_1_r in Hu. by apply Z.div_small. }
    destruct (IH (S k) (u / base) (if w =? 0 then 0 else w - 1) (digit_char (u mod base) :: l)) as (ds & vs & Ed & Hs & Hv & Hlen).
    + split; [apply Z.div_pos; lia|]. apply Z.div_lt_upper_bound; [lia|].
      replace (Z.of_nat (S (S k))) with (Z.of_nat (S k) + 1) in Hu by lia. rewrite Z.pow_add_r in Hu by lia. lia.
    + lia.
    + cbn [length]. lia.
    + destruct (Z.eqb_spec w 0); lia.
    + exists (ds ++ [digit_char (u mod base)]), (vs ++ [u mod base]). split.
      { rewrite Ed, <- app_assoc, length_app. cbn [length app]. do 2 f_equal. destruct (Z.eqb_spec w 0); lia. }
      split; [apply Forall2_app; [done|by repeat constructor; try lia]|]. split; [rewrite StdlibPico.value_app, Hv; cbn; lia|].
      rewrite length_app. cbn. lia.
Qed.

Lemma pad_spec w f l : (length l + w < 26)%nat -> pad w f l = Some (replicate w f ++ l).
Proof.
  revert l. induction w as [|w IH]; intros l Hl; [done|]. cbn [pad]. unfold push. rewrite (proj2 (Nat.ltb_lt _ _)) by lia.
  cbn [mbind option_bind]. rewrite IH by (cbn; lia). by rewrite replicate_S_end, <- app_assoc.
Qed.

(** The number of digits of 64 bits in the bases of the conversions. *)
Definition most_digits (base : Z) : nat := if base =? 8 then 22 else if base =? 10 then 20 else 16.

Lemma number_spec base u w f :
  base = 8 \/ base = 10 \/ base = 16 -> 0 <= u < 2 ^ 64 -> 0 <= w <= 9 ->
  exists ds vs, number base u w f = Some (replicate (Z.to_nat (w - Z.of_nat (length ds))) f ++ ds) /\
    StdlibPico.spells base ds vs /\ StdlibPico.value base 0 vs = u /\ (1 <= length ds <= most_digits base)%nat.
Proof.
  intros Hb Hu Hw. unfold number.
  destruct (put_digits_spec 64 (most_digits base) 26 base u w []) as (ds & vs & -> & Hs & Hv & Hl).
  - lia.
  - split; [lia|]. eapply Z.lt_le_trans; [apply Hu|]. destruct Hb as [-> | [-> | ->]]; vm_compute; discriminate.
  - destruct Hb as [-> | [-> | ->]]; vm_compute; lia.
  - destruct Hb as [-> | [-> | ->]]; vm_compute; lia.
  - lia.
  - cbn [mbind option_bind]. exists ds, vs. split; [|done]. rewrite app_nil_r.
    assert (most_digits base <= 22)%nat by (destruct Hb as [-> | [-> | ->]]; vm_compute; lia).
    rewrite pad_spec by lia. do 2 f_equal. f_equal. lia.
Qed.

Lemma zero_ltb : SFltb zero zero = false.
Proof. vm_compute. reflexivity. Qed.

Lemma signed_int is_signed d z :
  - 2 ^ 63 < z < 2 ^ 63 -> 0 <= width d ->
  exists f, signed_part is_signed d z zero =
    Some (if is_signed && (z <? 0) then ([45], Z.abs z, f, Z.max 0 (width d - 1)) else ([], z, f, width d)).
Proof.
  intros Hz Hw. unfold signed_part. rewrite zero_ltb, orb_false_r. destruct is_signed; cbn [andb]; [|by eexists].
  destruct (Z.ltb_spec z 0); [|by eexists]. rewrite i64_small by (unfold in_i64; lia). cbn [mbind option_bind].
  eexists. do 4 f_equal; [lia|]. destruct (Z.eqb_spec (width d) 0); lia.
Qed.

Lemma put_int_eq is_signed base d z args a0 :
  (if is_longlong d then va_longlong a0 else if is_long d then va_long a0 else va_int a0) = Some (z, args) ->
  put_int is_signed base d a0 =
    (signed_part is_signed d z zero ≫= fun '(minus, s_val, _, width0) =>
       number base (u_of d long_bits s_val) width0 (fill d) ≫= fun l => Some (minus ++ l, args)).
Proof. intros Ha. unfold put_int. rewrite Ha. reflexivity. Qed.
Lemma put_int_args is_signed base d z args m v f w l a0 :
  (if is_longlong d then va_longlong a0 else if is_long d then va_long a0 else va_int a0) = Some (z, args) ->
  signed_part is_signed d z zero = Some (m, v, f, w) -> number base (u_of d long_bits v) w (fill d) = Some l ->
  put_int is_signed base d a0 = Some (m ++ l, args).
Proof.
  intros Ha Hs Hn. etransitivity; [exact (put_int_eq _ _ _ z args a0 Ha)|]. rewrite Hs.
  cbv beta iota delta [mbind option_bind]. by rewrite Hn.
Qed.

Definition minus_sign (is_signed : bool) (z : Z) : list Z := if is_signed && (z <? 0) then [45] else [].

(** The integer conversions %d, %i, %u, %x and %o, with any sign, width and
    padding, stay inside the array of digits, and what they put are the padding
    and the digits of the number in its base. *)
Theorem int_conversions_fit is_signed base d z args :
  base = 8 \/ base = 10 \/ base = 16 -> 0 <= width d <= 9 ->
  is_long d = false -> is_longlong d = false -> - 2 ^ 31 <= z < 2 ^ 31 ->
  exists pads ds vs,
    put_int is_signed base d (AInt z :: args) = Some (minus_sign is_signed z ++ replicate pads (fill d) ++ ds, args) /\
    StdlibPico.spells base ds vs /\ StdlibPico.value base 0 vs = (if is_signed then Z.abs z else u32 z) /\
    Z.of_nat (length (minus_sign is_signed z) + pads + length ds) =
      Z.max (width d) (Z.of_nat (length (minus_sign is_signed z) + length ds)).
Proof.
  intros Hb Hw Hl Hll Hz. destruct (signed_int is_signed d z ltac:(lia) ltac:(lia)) as (f & Es). unfold minus_sign.
  assert (Hu : forall x, u_of d long_bits x = u32 x) by (intros x; unfold u_of; by rewrite Hll, Hl).
  assert (Hr : forall x, 0 <= u32 x < 2 ^ 64) by (intros x; pose proof (u32_range x); ints; lia).
  destruct (is_signed && (z <? 0)) eqn:E.
  - apply andb_prop in E as [-> Ez]. apply Z.ltb_lt in Ez.
    destruct (number_spec base (u32 (Z.abs z)) (Z.max 0 (width d - 1)) (fill d) Hb (Hr _) ltac:(lia)) as (ds & vs & En & Hs & Hv & Hlen).
    rewrite <- Hu in En. do 3 eexists. split; [eapply put_int_args; [by rewrite Hll, Hl|exact Es|exact En]|].
    split; [exact Hs|]. rewrite Hv, u32_small by (ints; lia). split; [done|]. cbn [length]. lia.
  - destruct (number_spec base (u32 z) (width d) (fill d) Hb (Hr _) Hw) as (ds & vs & En & Hs & Hv & Hlen).
    rewrite <- Hu in En. do 3 eexists. split; [eapply put_int_args; [by rewrite Hll, Hl|exact Es|exact En]|].
    split; [exact Hs|]. rewrite Hv. split; [|cbn [length]; lia].
    destruct is_signed; [|done]. apply Z.ltb_ge in E. rewrite u32_small by (ints; lia). lia.
Qed.

(** ** What is printed is read again *)

Lemma spells_zeros k ds vs :
  StdlibPico.spells 10 ds vs -> StdlibPico.spells 10 (replicate k 48 ++ ds) (replicate k 0 ++ vs).
Proof.
  intros H. apply Forall2_app; [|done]. induction k; constructor; [|done]. split; [reflexivity|lia].
Qed.
Lemma value_zeros k vs : StdlibPico.value 10 0 (replicate k 0 ++ vs) = StdlibPico.value 10 0 vs.
Proof. rewrite StdlibPico.value_app. f_equal. induction k; [done|]. cbn. exact IHk. Qed.

(** [%0wd] and [%lld]. *)
Definition format_int (w : Z) : list Z := [37; 48; 48 + w; 100; 0].
Definition format_longlong : list Z := [37; 108; 108; 100; 0].

Lemma parse_format_int w :
  0 <= w <= 9 -> parse [48; 48 + w; 100; 0] = Some (Some (mkDirective w 48 3 false false, 100, [0])).
Proof.
  intros Hw. unfold parse. cbn [StdlibPico.uncons mbind option_bind]. change (48 =? 48) with true. cbn [StdlibPico.uncons mbind option_bind].
  assert (E : StdlibPico.isdigit (48 + w) = true).
  { unfold StdlibPico.isdigit. rewrite Z.geb_leb. destruct (Z.leb_spec 48 (48 + w)); [|lia]. by destruct (Z.leb_spec (48 + w) 57); [|lia]. }
  rewrite E. cbn [StdlibPico.uncons mbind option_bind]. replace (48 + w - 48) with w by lia. reflexivity.
Qed.

Lemma vaprintf_one d c fmt args out args' p :
  parse p = Some (Some (d, c, fmt)) -> convert d c args = Some (out, args') -> vaprintf fmt args' = Some [] ->
  vaprintf (37 :: p) args = Some out.
Proof.
  intros Hp Hc Hr. unfold vaprintf. cbn [vaprintf_loop length StdlibPico.uncons]. pose proof (parse_length _ _ _ _ Hp) as Hl.
  cbv beta iota delta [mbind option_bind]. change (37 =? 0) with false. change (37 =? 37) with true. cbn [negb].
  rewrite Hp, Hc, vaprintf_fuel, Hr by lia. by rewrite app_nil_r.
Qed.

Lemma put_signed d z args a0 :
  (if is_longlong d then va_longlong a0 else if is_long d then va_long a0 else va_int a0) = Some (z, args) ->
  fill d = 48 \/ width d = 0 -> 0 <= width d <= 9 -> - 2 ^ 63 < z < 2 ^ 63 -> u_of d long_bits (Z.abs z) = Z.abs z ->
  exists ds vs, put_int true 10 d a0 = Some (minus_sign true z ++ ds, args) /\
    StdlibPico.spells 10 ds vs /\ StdlibPico.value 10 0 vs = Z.abs z /\ vs <> [].
Proof.
  intros Ha Hf Hw Hz Hu. destruct (signed_int true d z Hz ltac:(lia)) as (f & Es).
  assert (Hn : exists w, 0 <= w <= 9 /\ (width d = 0 -> w = 0) /\
    signed_part true d z zero = Some (minus_sign true z, Z.abs z, f, w)).
  { unfold minus_sign. cbn [andb] in *. destruct (Z.ltb_spec z 0); [exists (Z.max 0 (width d - 1))|exists (width d)];
      (split; [lia|]); (split; [lia|]); [done|]. rewrite Es. do 4 f_equal. lia. }
  destruct Hn as (w & Hw' & Hw0 & Es').
  destruct (number_spec 10 (Z.abs z) w (fill d)) as (ds & vs & En & Hs & Hv & Hl); [by auto|lia|done|].
  rewrite <- Hu in En. set (k := Z.to_nat (w - Z.of_nat (length ds))) in *.
  assert (Hk : replicate k (fill d) = replicate k 48).
  { destruct Hf as [->|Hf]; [done|]. assert (k = 0%nat) as -> by (unfold k; rewrite (Hw0 Hf); lia). done. }
  rewrite Hk in En. exists (replicate k 48 ++ ds), (replicate k 0 ++ vs).
  split; [by eapply put_int_args|]. split; [by apply spells_zeros|]. split; [by rewrite value_zeros|].
  intros E. apply app_eq_nil in E as [_ ->]. inversion Hs; subst. cbn in Hl. lia.
Qed.

(** What [%d] (with a width and zeros) prints of a 32-bit number above the most
    negative one is read by [strToInt32_t] and [s2int] as the same number, up to the
    first character that is no digit; the same holds for [%lld] and [s2int]. *)
Theorem print_parse w z zz c rest :
  0 <= w <= 9 -> - 2 ^ 31 < z < 2 ^ 31 -> - 2 ^ 63 < zz < 2 ^ 63 -> StdlibPico.digit c = None ->
  exists out out', vaprintf (format_int w) [AInt z] = Some out /\ vaprintf format_longlong [ALongLong zz] = Some out' /\
    StdlibPico.strToInt32_t (out ++ c :: rest) 10 = Some (z, c :: rest) /\
    StdlibPico.s2int (out ++ c :: rest) = Some z /\ StdlibPico.s2int (out' ++ c :: rest) = Some zz.
Proof.
  intros Hw Hz Hzz Hc.
  assert (Hcd : StdlibPico.isdigit c = false) by (unfold StdlibPico.digit in Hc; by destruct (StdlibPico.isdigit c)).
  destruct (put_signed (mkDirective w 48 3 false false) z [] [AInt z]) as (ds & vs & Ep & Hs & Hv & Hne); try done; [by left|lia| |].
  { unfold u_of. cbn [is_longlong is_long]. apply u32_small. ints. lia. }
  destruct (put_signed (mkDirective 0 32 3 true true) zz [] [ALongLong zz]) as (ds2 & vs2 & Ep2 & Hs2 & Hv2 & Hne2); try done; [by right| |].
  { unfold u_of. cbn [is_longlong is_long]. apply u64_small. ints. lia. }
  exists (minus_sign true z ++ ds), (minus_sign true zz ++ ds2).
  split; [by eapply vaprintf_one; [by apply parse_format_int|exact Ep|done]|].
  split; [by eapply vaprintf_one; [done|exact Ep2|done]|].
  assert (Hsign : forall x, minus_sign true x = StdlibPico.sign (x <? 0) false) by (intros x; unfold minus_sign; by destruct (x <? 0)).
  rewrite !Hsign, <- !app_assoc. split; [|split].
  - etrans; [apply (StdlibPico.strToInt32_value 10 (z <? 0) false [] ds vs c rest)|].
    + split; try done; [unfold StdlibPico.ends; by rewrite Hc|].
      intros _ a b ->. pose proof (StdlibPico.spells_nonneg _ _ _ Hs) as Hnn. apply Forall_app in Hnn as [Ha Hb].
      rewrite StdlibPico.value_app in Hv.
      pose proof (StdlibPico.value_mono 10 0 a ltac:(lia) ltac:(lia) Ha).
      pose proof (StdlibPico.value_mono 10 (StdlibPico.value 10 0 a) b ltac:(lia) ltac:(lia) Hb). lia.
    + rewrite Hv. unfold StdlibPico.clamp, StdlibPico.INT32_MIN, StdlibPico.INT32_MAX. do 2 f_equal.
      destruct (Z.ltb_spec z 0); lia.
  - rewrite (StdlibPico.s2int_value _ ds vs) by (done || lia). rewrite Hv. f_equal. destruct (Z.ltb_spec z 0); lia.
  - rewrite (StdlibPico.s2int_value _ ds2 vs2) by (done || lia). rewrite Hv2. f_equal. destruct (Z.ltb_spec zz 0); lia.
Qed.

End Output.

(** ** Examples *)

(** %05d of -17, and the number behind a comma. *)
Lemma print_parse_witness :
  exists out out', vaprintf 64 (format_int 5) [AInt (-17)] = Some out /\ vaprintf 64 format_longlong [ALongLong 5] = Some out' /\
    StdlibPico.strToInt32_t (out ++ [44; 0]) 10 = Some (-17, [44; 0]).
Proof.
  destruct (print_parse 64 5 (-17) 5 44 [0]) as (out & out' & E1 & E2 & E3 & _); [lia|lia|lia|reflexivity|].
  exists out, out'. split; [exact E1|]. split; [exact E2|exact E3].
Defined.
Lemma int_conversions_fit_witness :
  exists pads ds vs, put_int 64 false 16 (mkDirective 9 32 3 false false) [AInt (-1)] = Some (replicate pads 32 ++ ds, []) /\
    StdlibPico.spells 16 ds vs /\ StdlibPico.value 16 0 vs = 4294967295.
Proof.
  destruct (int_conversions_fit 64 false 16 (mkDirective 9 32 3 false false) (-1) []) as (pads & ds & vs & E & Hs & Hv & _);
    [by auto|cbn; lia|done|done|lia|].
  exists pads, ds, vs. split; [exact E|]. split; [exact Hs|]. rewrite Hv. reflexivity.
Defined.

(** [%b] of a number with more than 25 bits leaves the array. *)
Example binary_overflow : vaprintf 64 [37; 98; 0] [AInt 33554432] = None /\
  vaprintf 64 [37; 98; 0] [AInt 3] = Some [49; 49].
Proof. split; vm_compute; reflexivity. Qed.
(** [%i] prints a negative number without its sign; the sign of [%5d] stands before
    the spaces; [%f] prints 5e9 modulo 2^32. *)
Example unsigned_i : vaprintf 64 [37; 105; 0] [AInt (-1)] = Some [52; 50; 57; 52; 57; 54; 55; 50; 57; 53].
Proof. vm_compute. reflexivity. Qed.
Example sign_before_spaces : vaprintf 64 [37; 53; 100; 0] [AInt (-17)] = Some [45; 32; 32; 49; 55].
Proof. vm_compute. reflexivity. Qed.
Example large_double : vaprintf 64 [37; 46; 49; 102; 0] [ADouble (of_Z 5000000000)] = Some [55; 48; 53; 48; 51; 50; 55; 48; 52; 46; 48].
Proof. vm_compute. reflexivity. Qed.
(** -0.25 with two decimals, and 1/8 as %e. *)
Example fixed_point : vaprintf 64 [37; 46; 50; 102; 0] [ADouble (fdiv (of_Z (-1)) (of_Z 4))] = Some [45; 48; 46; 50; 53].
Proof. vm_compute. reflexivity. Qed.
(** Nothing is written for an empty output, not even the end. *)
Example empty_output : xsprintf 64 [7; 7] [0] [] = Some [7; 7].
Proof. reflexivity. Qed.

End Yprintf.
