(* ===== verification/Pbuf.v ===== *)
(** * Packet buffers (ip/lwip/core/pbuf.c)

    A packet is a chain of buffers.  A [pbuf] structure lives at an address of
    the [store]; [buf] is the memory behind the structure (the referenced memory
    for ROM and REF buffers) and [payload] the position of the payload in it.
    The memory comes from the pools and the heap through the interface [PbufMem];
    a new block has the contents that its memory happens to have.  Reading or
    writing outside of the memory of a buffer and following a null pointer have
    no result.  The loops run over the chain with fuel; the size of the store is
    enough for every chain. *)

From stdpp Require Import gmap.
From S2P Require Import Prelude Mem.

#[local] Open Scope Z_scope.

(** Where the memory of a buffer comes from: the pool of buffers with payload,
    the pool of bare structures, the heap. *)
Inductive origin := MEMP_PBUF_POOL | MEMP_PBUF | MEM_HEAP.
#[global] Instance origin_eq_dec : EqDecision origin.
Proof. solve_decision. Defined.

(** What the allocators promise: [owns m live] says which blocks are out. *)
Class PbufMem (A : Type) := {
  take_mem : A -> origin -> Z -> option (Z * list Z * A);
  give_mem : A -> origin -> Z -> option A;
  trim_mem : A -> Z -> Z -> option A;
  owns : A -> list (origin * Z) -> Prop;
  take_new m o size a c m' live :
    owns m live -> take_mem m o size = Some (a, c, m') ->
    (a ∉ live.*2) /\ a mod 4 = 0 /\ owns m' ((o, a) :: live) /\
    bytes c /\ Z.of_nat (length c) = size;
  give_ok m l1 o a l2 :
    owns m (l1 ++ ((o, a) :: l2)) -> exists m', give_mem m o a = Some m' /\ owns m' (l1 ++ l2);
  trim_ok m a size live :
    owns m live -> (MEM_HEAP, a) ∈ live -> exists m', trim_mem m a size = Some m' /\ owns m' live;
  owns_perm m live live' : live ≡ₚ live' -> owns m live -> owns m live'
}.

Module Pbuf.

Definition PBUF_LINK_HLEN : Z := 14.
Definition PBUF_IP_HLEN : Z := 20.
Definition PBUF_TRANSPORT_HLEN : Z := 20.
#[local] Abbreviation LWIP_MEM_ALIGN_SIZE := Mem.LWIP_MEM_ALIGN_SIZE.
Definition PBUF_POOL_BUFSIZE_ALIGNED : Z := LWIP_MEM_ALIGN_SIZE 512.
(** Two pointers, three 16-bit fields and two bytes. *)
Definition SIZEOF_STRUCT_PBUF : Z := LWIP_MEM_ALIGN_SIZE 16.
Definition PBUF_FLAG_IS_CUSTOM : Z := 2.
Definition ERR_OK : Z := 0.
Definition ERR_VAL : Z := -6.
Definition ERR_ARG : Z := -14.

Inductive pbuf_layer := PBUF_TRANSPORT | PBUF_IP | PBUF_LINK | PBUF_RAW.
Inductive pbuf_type := PBUF_RAM | PBUF_ROM | PBUF_REF | PBUF_POOL.
#[global] Instance pbuf_type_eq_dec : EqDecision pbuf_type.
Proof. solve_decision. Defined.

Record pbuf := mkPbuf {
  next : option Z;
  buf : list Z;
  payload : Z;
  tot_len : Z;
  len : Z;
  ptype : pbuf_type;
  pflags : Z;
  ref : Z
}.

Definition set_next (n : option Z) (b : pbuf) : pbuf :=
  mkPbuf n (buf b) (payload b) (tot_len b) (len b) (ptype b) (pflags b) (ref b).
Definition set_buf (c : list Z) (b : pbuf) : pbuf :=
  mkPbuf (next b) c (payload b) (tot_len b) (len b) (ptype b) (pflags b) (ref b).
Definition set_lens (p t l : Z) (b : pbuf) : pbuf :=
  mkPbuf (next b) (buf b) p t l (ptype b) (pflags b) (ref b).
Definition set_tot_len (t : Z) (b : pbuf) : pbuf :=
  mkPbuf (next b) (buf b) (payload b) t (len b) (ptype b) (pflags b) (ref b).
Definition set_ref (r : Z) (b : pbuf) : pbuf :=
  mkPbuf (next b) (buf b) (payload b) (tot_len b) (len b) (ptype b) (pflags b) r.

Abbreviation store := (gmap Z pbuf).

(** [n] bytes at position [off] of the payload. *)
Definition get_bytes (b : pbuf) (off n : Z) : option (list Z) :=
  if (0 <=? off) && (0 <=? n) && (0 <=? payload b) &&
     (payload b + off + n <=? Z.of_nat (length (buf b)))
  then Some (take (Z.to_nat n) (drop (Z.to_nat (payload b + off)) (buf b))) else None.

(** [MEMCPY] of [c] to position [off] of the payload. *)
Definition put_bytes (b : pbuf) (off : Z) (c : list Z) : option pbuf :=
  let at_ := payload b + off in
  if (0 <=? off) && (0 <=? payload b) &&
     (at_ + Z.of_nat (length c) <=? Z.of_nat (length (buf b)))
  then Some (set_buf (take (Z.to_nat at_) (buf b) ++ c ++
                      drop (Z.to_nat at_ + length c) (buf b)) b)
  else None.

(** ** Reading a chain *)

Fixpoint get_at_loop (fuel : nat) (st : store) (q : option Z) (copy_from : Z) : option Z :=
  match fuel with
  | O => None
  | S fuel =>
      match q with
      | None => Some 0
      | Some a =>
          b ← st !! a;
          if len b <=? copy_from then get_at_loop fuel st (next b) (copy_from - len b)
          else rd (buf b) (payload b + copy_from)
      end
  end.

Definition pbuf_get_at (st : store) (p : option Z) (offset : Z) : option Z :=
  get_at_loop (S (size st)) st p (u16 offset).

(** The search for the buffer that holds position [start]. *)
Fixpoint locate (fuel : nat) (st : store) (q : option Z) (start : Z) : option (option Z * Z) :=
  match fuel with
  | O => None
  | S fuel =>
      match q with
      | None => Some (None, start)
      | Some a =>
          b ← st !! a;
          if len b <=? start then locate fuel st (next b) (start - len b) else Some (q, start)
      end
  end.

Fixpoint memcmp_loop (st : store) (q : option Z) (start i : Z) (s2 : list Z) : option Z :=
  match s2 with
  | [] => Some 0
  | b :: s2 =>
      a ← pbuf_get_at st q (start + i);
      if a =? b then memcmp_loop st q start (i + 1) s2 else Some (u16 (i + 1))
  end.

Definition pbuf_memcmp (st : store) (p : option Z) (offset : Z) (s2 : list Z) : option Z :=
  '(q, start) ← locate (S (size st)) st p offset;
  match q with
  | Some _ => memcmp_loop st q start 0 s2
  | None => Some 0xffff
  end.

Fixpoint memfind_loop (fuel : nat) (st : store) (p : option Z) (mem : list Z) (max i : Z)
    : option Z :=
  match fuel with
  | O => None
  | S fuel =>
      if i <=? max then
        plus ← pbuf_memcmp st p i mem;
        if plus =? 0 then Some i else memfind_loop fuel st p mem max (u16 (i + plus))
      else Some 0xFFFF
  end.

Definition pbuf_memfind (st : store) (p : Z) (mem : list Z) (start_offset : Z) : option Z :=
  b ← st !! p;
  let mem_len := Z.of_nat (length mem) in
  let max := u16 (tot_len b - mem_len) in
  if mem_len + start_offset <=? tot_len b then
    memfind_loop (S (S (Z.to_nat (tot_len b)))) st (Some p) mem max start_offset
  else Some 0xFFFF.

(** [substr] without its terminating zero. *)
Definition pbuf_strstr (st : store) (p : Z) (substr : list Z) : option Z :=
  b ← st !! p;
  if (match substr with [] => true | _ => false end) || (tot_len b =? 0xFFFF) then Some 0xFFFF
  else if 0xFFFF <=? Z.of_nat (length substr) then Some 0xFFFF
  else pbuf_memfind st p substr 0.

Fixpoint copy_partial_loop (fuel : nat) (st : store) (q : option Z) (n offset : Z)
    (out : list Z) : option (list Z) :=
  match fuel with
  | O => None
  | S fuel =>
      if n =? 0 then Some out else
      match q with
      | None => Some out
      | Some a =>
          b ← st !! a;
          if negb (offset =? 0) && (len b <=? offset)
          then copy_partial_loop fuel st (next b) n (offset - len b) out
          else
            let buf_copy_len := len b - offset in
            let buf_copy_len := if n <? buf_copy_len then n else buf_copy_len in
            c ← get_bytes b offset buf_copy_len;
            copy_partial_loop fuel st (next b) (n - buf_copy_len) 0 (out ++ c)
      end
  end.

(** The bytes copied to the start of [dataptr]; their number is the result. *)
Definition pbuf_copy_partial (st : store) (p : option Z) (n offset : Z) : option (list Z) :=
  copy_partial_loop (S (size st)) st p n offset [].

Fixpoint clen_loop (fuel : nat) (st : store) (p : option Z) (n : Z) : option Z :=
  match fuel with
  | O => None
  | S fuel =>
      match p with
      | None => Some n
      | Some a => b ← st !! a; clen_loop fuel st (next b) (u8 (n + 1))
      end
  end.
Definition pbuf_clen (st : store) (p : option Z) : option Z := clen_loop (S (size st)) st p 0.

(** ** Writing a chain *)

Fixpoint take_loop (fuel : nat) (st : store) (p : option Z) (data : list Z) : option store :=
  match fuel with
  | O => None
  | S fuel =>
      if Z.of_nat (length data) =? 0 then Some st else
      a ← p;
      b ← st !! a;
      let total_copy_len := Z.of_nat (length data) in
      let buf_copy_len := if len b <? total_copy_len then len b else total_copy_len in
      b' ← put_bytes b 0 (take (Z.to_nat buf_copy_len) data);
      take_loop fuel (<[a := b']> st) (next b) (drop (Z.to_nat buf_copy_len) data)
  end.

Definition pbuf_take (st : store) (p : option Z) (data : list Z) : option (Z * store) :=
  match p with
  | None => Some (0, st)
  | Some a =>
      b ← st !! a;
      if tot_len b <? Z.of_nat (length data) then Some (ERR_ARG, st)
      else st ← take_loop (S (size st)) st p data; Some (ERR_OK, st)
  end.

(** The end of a packet in a queue of packets. *)
Definition in_queue (st : store) (p : option Z) : option bool :=
  match p with
  | None => Some false
  | Some a =>
      b ← st !! a;
      Some ((len b =? tot_len b) && negb (bool_decide (next b = None)))
  end.

Fixpoint copy_loop (fuel : nat) (st : store) (p_to p_from : option Z) (offset_to offset_from : Z)
    : option (Z * store) :=
  match fuel with
  | O => None
  | S fuel =>
      a_to ← p_to; b_to ← st !! a_to;
      a_from ← p_from; b_from ← st !! a_from;
      let n := if len b_from - offset_from <=? len b_to - offset_to
               then len b_from - offset_from else len b_to - offset_to in
      c ← get_bytes b_from offset_from n;
      b_to' ← put_bytes b_to offset_to c;
      let st := <[a_to := b_to']> st in
      let offset_to := offset_to + n in
      let offset_from := offset_from + n in
      let '(p_from, offset_from) :=
        if len b_from <=? offset_from then (next b_from, 0) else (p_from, offset_from) in
      let '(p_to, offset_to) :=
        if offset_to =? len b_to then (next b_to, 0) else (p_to, offset_to) in
      if bool_decide (p_to = None) && negb (bool_decide (p_from = None)) then Some (ERR_ARG, st)
      else
        qf ← in_queue st p_from;
        qt ← in_queue st p_to;
        if (qf : bool) then Some (ERR_VAL, st)
        else if (qt : bool) then Some (ERR_VAL, st)
        else match p_from with
             | None => Some (ERR_OK, st)
             | Some _ => copy_loop fuel st p_to p_from offset_to offset_from
             end
  end.

Definition pbuf_copy (st : store) (p_to p_from : option Z) : option (Z * store) :=
  match p_to, p_from with
  | Some t, Some f =>
      bt ← st !! t; bf ← st !! f;
      if tot_len bf <=? tot_len bt
      then copy_loop (2 * S (size st)) st p_to p_from 0 0
      else Some (ERR_ARG, st)
  | _, _ => Some (ERR_ARG, st)
  end.

(** ** Changing a chain *)

(** The result is zero on success. *)
Definition pbuf_header (st : store) (p : option Z) (header_size_increment : Z)
    : option (Z * store) :=
  if header_size_increment =? 0 then Some (0, st) else
  match p with
  | None => Some (0, st)
  | Some a =>
      b ← st !! a;
      let increment_magnitude := Z.abs header_size_increment in
      if (header_size_increment <? 0) && negb (increment_magnitude <=? len b) then Some (1, st)
      else
        let payload' := payload b - header_size_increment in
        let b' := set_lens payload' (u16 (tot_len b + header_size_increment))
                    (u16 (len b + header_size_increment)) b in
        match ptype b with
        | PBUF_RAM | PBUF_POOL =>
            (* the payload must not start before the memory behind the structure *)
            if payload' <? 0 then Some (1, st) else Some (0, <[a := b']> st)
        | PBUF_REF | PBUF_ROM =>
            if (header_size_increment <? 0) && (increment_magnitude <=? len b)
            then Some (0, <[a := b']> st) else Some (1, st)
        end
  end.

Definition pbuf_ref (st : store) (p : option Z) : option store :=
  match p with
  | None => Some st
  | Some a => b ← st !! a; Some (<[a := set_ref (u16 (ref b + 1)) b]> st)
  end.

Fixpoint cat_loop (fuel : nat) (st : store) (p t : Z) : option store :=
  match fuel with
  | O => None
  | S fuel =>
      b ← st !! p; bt ← st !! t;
      let b := set_tot_len (u16 (tot_len b + tot_len bt)) b in
      match next b with
      | Some q => cat_loop fuel (<[p := b]> st) q t
      | None => Some (<[p := set_next (Some t) b]> st)
      end
  end.

Definition pbuf_cat (st : store) (h t : option Z) : option store :=
  match h, t with
  | Some h, Some t => cat_loop (S (size st)) st h t
  | _, _ => Some st
  end.

Definition pbuf_chain (st : store) (h t : option Z) : option store :=
  st ← pbuf_cat st h t; pbuf_ref st t.

Section memory.
Context {A : Type} `{PbufMem A}.
(** The function with which a custom buffer frees itself. *)
Variable custom_free_function : Z -> A -> A.

Definition origin_of (t : pbuf_type) : origin :=
  match t with
  | PBUF_POOL => MEMP_PBUF_POOL
  | PBUF_ROM | PBUF_REF => MEMP_PBUF
  | PBUF_RAM => MEM_HEAP
  end.

Fixpoint free_loop (fuel : nat) (st : store) (m : A) (p : option Z) (count : Z)
    : option (Z * store * A) :=
  match fuel with
  | O => None
  | S fuel =>
      match p with
      | None => Some (count, st, m)
      | Some a =>
          b ← st !! a;
          let r := u16 (ref b - 1) in
          if r =? 0 then
            m ← (if negb (Z.land (pflags b) PBUF_FLAG_IS_CUSTOM =? 0)
                 then Some (custom_free_function a m)
                 else give_mem m (origin_of (ptype b)) a);
            free_loop fuel (delete a st) m (next b) (u8 (count + 1))
          else Some (count, <[a := set_ref r b]> st, m)
      end
  end.

Definition pbuf_free (st : store) (m : A) (p : option Z) : option (Z * store * A) :=
  free_loop (S (size st)) st m p 0.

Definition header_offset (layer : pbuf_layer) : Z :=
  match layer with
  | PBUF_TRANSPORT => PBUF_LINK_HLEN + PBUF_IP_HLEN + PBUF_TRANSPORT_HLEN
  | PBUF_IP => PBUF_LINK_HLEN + PBUF_IP_HLEN
  | PBUF_LINK => PBUF_LINK_HLEN
  | PBUF_RAW => 0
  end.

Definition LWIP_MIN (a b : Z) : Z := if a <? b then a else b.

(** The tail of a chain from the pool: [p] is the head, [r] the last buffer. *)
Fixpoint alloc_tail (fuel : nat) (st : store) (m : A) (p r rem_len : Z)
    : option (option Z * store * A) :=
  match fuel with
  | O => None
  | S fuel =>
      if 0 <? rem_len then
        match take_mem m MEMP_PBUF_POOL (SIZEOF_STRUCT_PBUF + PBUF_POOL_BUFSIZE_ALIGNED) with
        | None => '(_, st, m) ← pbuf_free st m (Some p); Some (None, st, m)
        | Some (q, c, m) =>
            br ← st !! r;
            let st := <[r := set_next (Some q) br]> st in
            let n := LWIP_MIN (u16 rem_len) PBUF_POOL_BUFSIZE_ALIGNED in
            let bq := mkPbuf None (drop (Z.to_nat SIZEOF_STRUCT_PBUF) c) 0 (u16 rem_len) n
                        PBUF_POOL 0 1 in
            alloc_tail fuel (<[q := bq]> st) m p q (rem_len - n)
        end
      else Some (Some p, st, m)
  end.

(** The flags that the memory of a new structure happens to hold: the byte after
    the two pointers, the two lengths and the type. *)
Definition stale_flags (c : list Z) : Z := nth 13 c 0.
Definition set_flags (f : Z) (b : pbuf) : pbuf :=
  mkPbuf (next b) (buf b) (payload b) (tot_len b) (len b) (ptype b) f (ref b).

(** The payload of a buffer at [p]: [LWIP_MEM_ALIGN] of its address, as a
    position in the memory behind the structure. *)
Definition payload_at (p offset : Z) : Z :=
  LWIP_MEM_ALIGN_SIZE (p + SIZEOF_STRUCT_PBUF + offset) - (p + SIZEOF_STRUCT_PBUF).

Definition pbuf_alloc (st : store) (m : A) (layer : pbuf_layer) (length : Z) (type : pbuf_type)
    : option (option Z * store * A) :=
  let offset := header_offset layer in
  match type with
  | PBUF_POOL =>
      match take_mem m MEMP_PBUF_POOL (SIZEOF_STRUCT_PBUF + PBUF_POOL_BUFSIZE_ALIGNED) with
      | None => Some (None, st, m)
      | Some (p, c, m) =>
          let n := LWIP_MIN length (PBUF_POOL_BUFSIZE_ALIGNED - LWIP_MEM_ALIGN_SIZE offset) in
          let b := mkPbuf None (drop (Z.to_nat SIZEOF_STRUCT_PBUF) c) (payload_at p offset)
                     length n type (stale_flags c) 1 in
          '(r, st, m) ← alloc_tail (S (S (Z.to_nat length))) (<[p := b]> st) m p p (length - n);
          match r with
          | None => Some (None, st, m)
          | Some p => b ← st !! p; Some (Some p, <[p := set_flags 0 (set_ref 1 b)]> st, m)
          end
      end
  | PBUF_RAM =>
      (* the size is converted to the 16-bit mem_size_t *)
      match take_mem m MEM_HEAP
              (u16 (LWIP_MEM_ALIGN_SIZE (SIZEOF_STRUCT_PBUF + offset) + LWIP_MEM_ALIGN_SIZE length)) with
      | None => Some (None, st, m)
      | Some (p, c, m) =>
          let b := mkPbuf None (drop (Z.to_nat SIZEOF_STRUCT_PBUF) c) (payload_at p offset)
                     length length type 0 1 in
          Some (Some p, <[p := b]> st, m)
      end
  | PBUF_ROM | PBUF_REF =>
      match take_mem m MEMP_PBUF SIZEOF_STRUCT_PBUF with
      | None => Some (None, st, m)
      | Some (p, _, m) =>
          let b := mkPbuf None [] 0 length length type 0 1 in
          Some (Some p, <[p := b]> st, m)
      end
  end.

(** The structure of a custom buffer on the memory of the caller; [None] is the
    null pointer. *)
Definition pbuf_alloced_custom (l : pbuf_layer) (length : Z) (type : pbuf_type)
    (payload_mem : option (list Z)) (payload_mem_len : Z) : option pbuf :=
  let offset := header_offset l in
  if payload_mem_len <? LWIP_MEM_ALIGN_SIZE offset + length then None
  else
    let '(mem, at_) := match payload_mem with
                       | Some c => (c, LWIP_MEM_ALIGN_SIZE offset)
                       | None => ([], 0)
                       end in
    Some (mkPbuf None mem at_ length length type PBUF_FLAG_IS_CUSTOM 1).

(** The walk over the buffers that remain: the new last buffer and its length. *)
Fixpoint realloc_walk (fuel : nat) (st : store) (q rem_len grow : Z) : option (store * Z * Z) :=
  match fuel with
  | O => None
  | S fuel =>
      b ← st !! q;
      if len b <? rem_len then
        q' ← next b;
        realloc_walk fuel (<[q := set_tot_len (u16 (tot_len b + grow)) b]> st) q'
          (rem_len - len b) grow
      else Some (st, q, rem_len)
  end.

Definition pbuf_realloc (st : store) (m : A) (p new_len : Z) : option (store * A) :=
  b ← st !! p;
  if tot_len b <=? new_len then Some (st, m) else
  let grow := new_len - tot_len b in
  '(st, q, rem_len) ← realloc_walk (S (size st)) st p new_len grow;
  b ← st !! q;
  '(b, m) ← (if bool_decide (ptype b = PBUF_RAM) && negb (rem_len =? len b) then
               let newsize := u16 (u16 (SIZEOF_STRUCT_PBUF + payload b) + rem_len) in
               m ← trim_mem m q newsize;
               Some (set_buf (take (Z.to_nat (newsize - SIZEOF_STRUCT_PBUF)) (buf b)) b, m)
             else Some (b, m));
  let b := set_lens (payload b) rem_len rem_len b in
  let st := <[q := b]> st in
  '(st, m) ← match next b with
             | Some _ => '(_, st, m) ← pbuf_free st m (next b); Some (st, m)
             | None => Some (st, m)
             end;
  b ← st !! q;
  Some (<[q := set_next None b]> st, m).

Definition pbuf_dechain (st : store) (m : A) (p : Z) : option (option Z * store * A) :=
  b ← st !! p;
  match next b with
  | None => Some (None, st, m)
  | Some q =>
      bq ← st !! q;
      let st := <[q := set_tot_len (u16 (tot_len b - len b)) bq]> st in
      let st := <[p := set_tot_len (len b) (set_next None b)]> st in
      '(tail_gone, st, m) ← pbuf_free st m (Some q);
      Some (if 0 <? tail_gone then None else Some q, st, m)
  end.

Definition pbuf_coalesce (st : store) (m : A) (p : Z) (layer : pbuf_layer)
    : option (Z * store * A) :=
  b ← st !! p;
  match next b with
  | None => Some (p, st, m)
  | Some _ =>
      '(q, st, m) ← pbuf_alloc st m layer (tot_len b) PBUF_RAM;
      match q with
      | None => Some (p, st, m)
      | Some q =>
          '(_, st) ← pbuf_copy st (Some q) (Some p);
          '(_, st, m) ← pbuf_free st m (Some p);
          Some (q, st, m)
      end
  end.

End memory.

(** ** Chains and their contents *)

(** [l] are the addresses and structures of the chain that starts at [p]. *)
Fixpoint chain (st : store) (p : option Z) (l : list (Z * pbuf)) : Prop :=
  match l with
  | [] => p = None
  | (a, b) :: l => p = Some a /\ st !! a = Some b /\ chain st (next b) l
  end.

(** The payload lies in the memory of the buffer. *)
Record seg_ok (b : pbuf) : Prop := {
  sg_payload : 0 <= payload b;
  sg_len : 0 <= len b;
  sg_in : payload b + len b <= Z.of_nat (length (buf b))
}.

Definition seg (b : pbuf) : list Z :=
  take (Z.to_nat (len b)) (drop (Z.to_nat (payload b)) (buf b)).
Definition contents (l : list (Z * pbuf)) : list Z := mjoin ((fun x => seg x.2) <$> l).

(** The lengths of a packet are the sums of the lengths of its buffers. *)
Fixpoint lens_ok (l : list (Z * pbuf)) : Prop :=
  match l with
  | [] => True
  | (a, b) :: l => tot_len b = Z.of_nat (length (contents ((a, b) :: l))) /\ lens_ok l
  end.

Record packet (st : store) (p : option Z) (l : list (Z * pbuf)) : Prop := {
  pk_chain : chain st p l;
  pk_nodup : NoDup l.*1;
  pk_segs : Forall (fun x => seg_ok x.2) l;
  pk_lens : lens_ok l;
  pk_u16 : in_u16 (Z.of_nat (length (contents l)))
}.

Lemma length_seg b : seg_ok b -> Z.of_nat (length (seg b)) = len b.
Proof. intros [H1 H2 H3]. unfold seg. rewrite length_take, length_drop. lia. Qed.

Lemma contents_cons x l : contents (x :: l) = seg x.2 ++ contents l.
Proof. done. Qed.
Lemma contents_app l1 l2 : contents (l1 ++ l2) = contents l1 ++ contents l2.
Proof. unfold contents. by rewrite fmap_app, join_app. Qed.

Lemma chain_lookup st p l a b : chain st p l -> (a, b) ∈ l -> st !! a = Some b.
Proof.
  revert p. induction l as [|[a' b'] l IH]; intros p; [by intros _ ?%elem_of_nil|].
  intros (_ & Hl & Hc) [[= -> ->]|Hin]%elem_of_cons; [done|]. by eapply IH.
Qed.

(** A chain without repetition is no longer than the store. *)
Lemma chain_length st p l : chain st p l -> NoDup l.*1 -> (length l <= size st)%nat.
Proof.
  intros Hc Hnd. rewrite <- (length_fmap fst l), <- (size_dom (D := gset Z) st).
  rewrite <- (size_list_to_set (C := gset Z)) by done. apply subseteq_size.
  intros a Ha. apply elem_of_list_to_set, list_elem_of_fmap in Ha as ([a' b] & -> & Hin).
  apply elem_of_dom. exists b. by eapply chain_lookup.
Qed.

Lemma seg_lookup b i :
  seg_ok b -> 0 <= i < len b -> rd (buf b) (payload b + i) = seg b !! Z.to_nat i.
Proof.
  intros [H1 H2 H3] Hi. unfold rd, seg. destruct (Z.ltb_spec (payload b + i) 0); [lia|].
  rewrite lookup_take_lt by lia. rewrite lookup_drop. f_equal. lia.
Qed.

Lemma get_bytes_seg b off n :
  seg_ok b -> 0 <= off -> 0 <= n -> off + n <= len b ->
  get_bytes b off n = Some (take (Z.to_nat n) (drop (Z.to_nat off) (seg b))).
Proof.
  intros [H1 H2 H3] Ho Hn Hl. unfold get_bytes, seg.
  rewrite (proj2 (Z.leb_le 0 off)), (proj2 (Z.leb_le 0 n)), (proj2 (Z.leb_le 0 (payload b))),
    (proj2 (Z.leb_le (payload b + off + n) _)) by lia. cbn [andb]. f_equal.
  rewrite skipn_firstn_comm, take_take, drop_drop. f_equal; [lia|]. f_equal. lia.
Qed.

(** ** Reading *)

Lemma get_at_spec fuel st : forall l p off,
  chain st p l -> Forall (fun x => seg_ok x.2) l -> (length l < fuel)%nat -> 0 <= off ->
  get_at_loop fuel st p off = Some (nth (Z.to_nat off) (contents l) 0).
Proof.
  induction fuel as [|fuel IH]; intros l p off Hc Hs Hf Ho; [lia|]. cbn [get_at_loop].
  destruct l as [|[a b] l].
  - cbn in Hc. subst p. by destruct (Z.to_nat off).
  - destruct Hc as (-> & Hb & Hc). apply Forall_cons in Hs as [Hsb Hs]. cbn [snd] in Hsb.
    rewrite Hb. cbn [mbind option_bind]. rewrite contents_cons. cbn [snd].
    pose proof (length_seg b Hsb) as Hlen. destruct (Z.leb_spec (len b) off) as [Hle|Hlt].
    + rewrite (IH l) by (done || cbn in Hf; lia). f_equal.
      rewrite app_nth2 by lia. f_equal. lia.
    + rewrite seg_lookup by (done || lia). rewrite app_nth1 by lia.
      destruct (lookup_lt_is_Some_2 (seg b) (Z.to_nat off)) as [v Hv]; [lia|].
      rewrite Hv. f_equal. symmetry. by apply nth_lookup_Some.
Qed.

Lemma pbuf_get_at_spec st p l off :
  chain st p l -> NoDup l.*1 -> Forall (fun x => seg_ok x.2) l -> in_u16 off ->
  pbuf_get_at st p off = Some (nth (Z.to_nat off) (contents l) 0).
Proof.
  intros Hc Hnd Hs Ho. unfold pbuf_get_at. rewrite u16_small by done.
  pose proof (chain_length st p l Hc Hnd). apply get_at_spec; [done|done|lia|zlia].
Qed.

Lemma copy_partial_spec fuel st : forall l p n off out,
  chain st p l -> Forall (fun x => seg_ok x.2) l -> (length l < fuel)%nat -> 0 <= off -> 0 <= n ->
  copy_partial_loop fuel st p n off out =
  Some (out ++ take (Z.to_nat n) (drop (Z.to_nat off) (contents l))).
Proof.
  induction fuel as [|fuel IH]; intros l p n off out Hc Hs Hf Ho Hn; [lia|].
  cbn [copy_partial_loop]. destruct (Z.eqb_spec n 0) as [->|Hn0].
  { cbn. by rewrite app_nil_r. }
  destruct l as [|[a b] l].
  { cbn in Hc. subst p. change (contents []) with (@nil Z).
    by rewrite drop_nil, take_nil, app_nil_r. }
  destruct Hc as (-> & Hb & Hc). apply Forall_cons in Hs as [Hsb Hs]. cbn [snd] in Hsb.
  rewrite Hb. cbn [mbind option_bind]. rewrite contents_cons. cbn [snd].
  pose proof (length_seg b Hsb) as Hlen. destruct Hsb as [Hs1 Hs2 Hs3].
  destruct (negb (off =? 0) && (len b <=? off)) eqn:Hskip.
  - apply andb_true_iff in Hskip as [_ Hle%Z.leb_le].
    rewrite (IH l) by (done || cbn in Hf; lia). do 2 f_equal. f_equal.
    rewrite drop_app_ge by lia. f_equal. lia.
  - assert (off <= len b) as Hle.
    { apply andb_false_iff in Hskip as [Hz|Hz]; [apply negb_false_iff, Z.eqb_eq in Hz|apply Z.leb_gt in Hz]; lia. }
    set (k := if n <? len b - off then n else len b - off).
    assert (k = Z.min n (len b - off)) as Hk
      by (unfold k; destruct (Z.ltb_spec n (len b - off)); lia).
    rewrite get_bytes_seg by (lia || done). cbn [mbind option_bind].
    rewrite (IH l) by (done || cbn in Hf; lia). rewrite <- app_assoc. do 2 f_equal.
    rewrite drop_app_le by lia. change (Z.to_nat 0) with 0%nat. rewrite drop_0.
    rewrite take_app, length_drop. f_equal.
    + destruct (Z.le_gt_cases n (len b - off)).
      * f_equal. lia.
      * rewrite !take_ge by (rewrite length_drop; lia). done.
    + f_equal. lia.
Qed.

Lemma pbuf_copy_partial_spec st p l n off :
  chain st p l -> NoDup l.*1 -> Forall (fun x => seg_ok x.2) l -> 0 <= off -> 0 <= n ->
  pbuf_copy_partial st p n off = Some (take (Z.to_nat n) (drop (Z.to_nat off) (contents l))).
Proof.
  intros Hc Hnd Hs Ho Hn. unfold pbuf_copy_partial.
  pose proof (chain_length st p l Hc Hnd).
  rewrite (copy_partial_spec _ _ l) by (done || lia). done.
Qed.

(** ** Searching *)

Definition byte_at (c : list Z) (k : Z) : Z := nth (Z.to_nat k) c 0.

(** [mem] occurs in [c] at position [k]. *)
Definition occurs (mem c : list Z) (k : Z) : Prop :=
  0 <= k /\ k + Z.of_nat (length mem) <= Z.of_nat (length c) /\
  forall j b, mem !! j = Some b -> byte_at c (k + Z.of_nat j) = b.

Lemma byte_at_app c1 c2 k : 0 <= k -> byte_at (c1 ++ c2) (Z.of_nat (length c1) + k) = byte_at c2 k.
Proof. intros Hk. unfold byte_at. rewrite app_nth2 by lia. f_equal. lia. Qed.

Lemma locate_spec fuel st : forall l p start,
  chain st p l -> Forall (fun x => seg_ok x.2) l -> (length l < fuel)%nat ->
  0 <= start < Z.of_nat (length (contents l)) ->
  exists l1 l2 a start', l = l1 ++ l2 /\ locate fuel st p start = Some (Some a, start') /\
    chain st (Some a) l2 /\ 0 <= start' /\ start = Z.of_nat (length (contents l1)) + start'.
Proof.
  induction fuel as [|fuel IH]; intros l p start Hc Hs Hf Ho; [lia|]. cbn [locate].
  destruct l as [|[a b] l]; [cbn in Ho; lia|].
  pose proof Hc as Hc0. destruct Hc as (-> & Hb & Hc). apply Forall_cons in Hs as [Hsb Hs].
  cbn [snd] in Hsb. rewrite Hb. cbn [mbind option_bind].
  rewrite contents_cons in Ho. cbn [snd] in Ho. rewrite length_app in Ho.
  pose proof (length_seg b Hsb) as Hlen. destruct (Z.leb_spec (len b) start) as [Hle|Hlt].
  - destruct (IH l (next b) (start - len b)) as (l1 & l2 & a' & s' & -> & Heq & Hc' & Hs' & Hst);
      [done|done|cbn in Hf; lia|lia|].
    exists ((a, b) :: l1), l2, a', s'. split_and!; [done|done|done|done|].
    rewrite contents_cons, length_app. cbn [snd]. lia.
  - exists [], ((a, b) :: l), a, start. split_and!; [done|done|done|lia|done].
Qed.

Lemma memcmp_loop_spec st p l start s2 : forall i,
  chain st p l -> NoDup l.*1 -> Forall (fun x => seg_ok x.2) l ->
  0 <= start -> 0 <= i -> start + i + Z.of_nat (length s2) <= 65535 ->
  exists r, memcmp_loop st p start i s2 = Some r /\
    ((r = 0 /\ forall j b, s2 !! j = Some b -> byte_at (contents l) (start + i + Z.of_nat j) = b) \/
     (exists e b, r = i + Z.of_nat e + 1 /\ s2 !! e = Some b /\
        byte_at (contents l) (start + i + Z.of_nat e) <> b /\
        forall j b', (j < e)%nat -> s2 !! j = Some b' ->
          byte_at (contents l) (start + i + Z.of_nat j) = b')).
Proof.
  induction s2 as [|b s2 IH]; intros i Hc Hnd Hs Ho Hi Hr; cbn [memcmp_loop].
  { exists 0. split; [done|]. left. by split. }
  cbn [length] in Hr.
  rewrite (pbuf_get_at_spec st p l) by (done || zlia). cbn [mbind option_bind].
  fold (byte_at (contents l) (start + i)).
  destruct (Z.eqb_spec (byte_at (contents l) (start + i)) b) as [He|He].
  - destruct (IH (i + 1)) as (r & Hr' & Hcase); [done|done|done|lia|lia|lia|].
    exists r. split; [done|]. destruct Hcase as [[-> Hall]|(e & b' & -> & He' & Hd & Hbef)].
    + left. split; [done|]. intros [|j] b'; cbn.
      * intros [= <-]. by rewrite Z.add_0_r.
      * intros Hb'. specialize (Hall j b' Hb'). by replace (start + i + Z.of_nat (S j))
          with (start + (i + 1) + Z.of_nat j) by lia.
    + right. exists (S e), b'. split_and!; [lia|done| |].
      * by replace (start + i + Z.of_nat (S e)) with (start + (i + 1) + Z.of_nat e) by lia.
      * intros [|j] b0 Hj; cbn.
        -- intros [= <-]. by rewrite Z.add_0_r.
        -- intros Hb0. specialize (Hbef j b0 ltac:(lia) Hb0).
           by replace (start + i + Z.of_nat (S j)) with (start + (i + 1) + Z.of_nat j) by lia.
  - exists (u16 (i + 1)). split; [done|]. right. exists 0%nat, b.
    rewrite u16_small by zlia. split_and!; [lia|done|by rewrite Z.add_0_r|lia].
Qed.

(** The comparison at a position where the pattern fits. *)
Lemma pbuf_memcmp_spec st p l off s2 :
  chain st p l -> NoDup l.*1 -> Forall (fun x => seg_ok x.2) l ->
  Z.of_nat (length (contents l)) < 65536 -> 0 <= off ->
  (0 < length s2)%nat -> off + Z.of_nat (length s2) <= Z.of_nat (length (contents l)) ->
  exists r, pbuf_memcmp st p off s2 = Some r /\
    ((r = 0 /\ occurs s2 (contents l) off) \/
     (exists e b, r = Z.of_nat e + 1 /\ s2 !! e = Some b /\
        byte_at (contents l) (off + Z.of_nat e) <> b /\
        forall j b', (j < e)%nat -> s2 !! j = Some b' ->
          byte_at (contents l) (off + Z.of_nat j) = b')).
Proof.
  intros Hc Hnd Hs Hu Ho Hne Hfit. unfold pbuf_memcmp.
  pose proof (chain_length st p l Hc Hnd) as Hlen.
  destruct (locate_spec (S (size st)) st l p off Hc Hs) as
    (l1 & l2 & a & s' & -> & -> & Hc2 & Hs' & Hoff); [lia|lia|].
  cbn [mbind option_bind]. rewrite fmap_app in Hnd. apply NoDup_app in Hnd as (_ & _ & Hnd2).
  apply Forall_app in Hs as [_ Hs2]. rewrite contents_app, length_app in Hfit, Hu.
  destruct (memcmp_loop_spec st (Some a) l2 s' s2 0 Hc2 Hnd2 Hs2) as (r & Hr & Hcase);
    [lia|lia|lia|].
  exists r. split; [done|]. rewrite contents_app.
  assert (forall j, byte_at (contents l1 ++ contents l2) (off + Z.of_nat j) =
    byte_at (contents l2) (s' + 0 + Z.of_nat j)) as Hsh.
  { intros j. rewrite Hoff, <- Z.add_assoc, byte_at_app by lia. f_equal. lia. }
  destruct Hcase as [[-> Hall]|(e & b & -> & He & Hd & Hbef)].
  - left. split; [done|]. split_and!; [lia|rewrite length_app; lia|].
    intros j b Hb. rewrite Hsh. by apply Hall.
  - right. exists e, b. rewrite Hsh. split_and!; [lia|done|done|].
    intros j b' Hj Hb'. rewrite Hsh. by apply Hbef.
Qed.

(** The scan: what it returns is an occurrence; it reports the first one if
    every byte that looks like the start of the pattern is one. *)
Lemma memfind_loop_spec st p l mem max : forall fuel i,
  chain st p l -> NoDup l.*1 -> Forall (fun x => seg_ok x.2) l ->
  Z.of_nat (length (contents l)) < 65536 -> (0 < length mem)%nat ->
  max = Z.of_nat (length (contents l)) - Z.of_nat (length mem) ->
  0 <= i -> max + 1 - i < Z.of_nat fuel -> (0 < fuel)%nat ->
  exists r, memfind_loop fuel st p mem max i = Some r /\
    (r = 0xFFFF \/ i <= r /\ occurs mem (contents l) r) /\
    ((forall k, i <= k -> Some (byte_at (contents l) k) = mem !! 0%nat ->
        k < Z.of_nat (length (contents l)) -> occurs mem (contents l) k) ->
     forall k, i <= k -> (r = 0xFFFF \/ k < r) -> ~ occurs mem (contents l) k).
Proof.
  induction fuel as [|fuel IH]; intros i Hc Hnd Hs Hu Hm Hmax Hi Hf Hf0; [lia|].
  cbn [memfind_loop]. destruct (Z.leb_spec i max) as [Hle|Hgt].
  - destruct (pbuf_memcmp_spec st p l i mem Hc Hnd Hs Hu Hi Hm) as (r & -> & Hr); [lia|].
    cbn [mbind option_bind]. destruct Hr as [[-> Hocc]|(e & b & -> & He & Hd & Hbef)].
    { cbn. exists i. split_and!; [done|right; split; [lia|done]|].
      intros _ k Hk Hr. destruct Hocc as (_ & Hfit & _). lia. }
    rewrite (proj2 (Z.eqb_neq _ 0)) by lia.
    pose proof (lookup_lt_Some _ _ _ He) as Hel.
    rewrite u16_small by zlia.
    destruct (IH (i + (Z.of_nat e + 1))) as (r & Hr & Hsound & Hcompl); [done..|lia|lia|lia|].
    exists r. split_and!; [done| |].
    + destruct Hsound as [?|[? ?]]; [by left|right; split; [lia|done]].
    + intros Hstart.
      assert (~ occurs mem (contents l) i) as Hno.
      { intros (_ & _ & Hall). apply Hd. by apply Hall. }
      assert (e = 0%nat) as ->.
      { destruct e as [|e]; [done|]. destruct Hno. apply Hstart; [lia| |lia].
        destruct mem as [|b0 mem]; [done|]. cbn. f_equal.
        specialize (Hbef 0%nat b0 ltac:(lia) eq_refl). by rewrite Z.add_0_r in Hbef. }
      intros k Hk Hkr. destruct (decide (k = i)) as [->|]; [done|].
      apply Hcompl; [|lia|done]. intros k' Hk'. apply Hstart. lia.
  - exists 0xFFFF. split_and!; [done|by left|]. intros _ k Hk _ (_ & Hfit & _). lia.
Qed.

(** ** Writing *)

Lemma chain_insert_ne st p l a b : chain st p l -> (a ∉ l.*1) -> chain (<[a := b]> st) p l.
Proof.
  revert p. induction l as [|[a' b'] l IH]; intros p; [done|].
  intros (-> & Hb & Hc) Ha. cbn in Ha. apply not_elem_of_cons in Ha as [Hne Ha].
  split_and!; [done|by rewrite lookup_insert_ne by congruence|by apply IH].
Qed.

Lemma chain_delete_ne st p l a : chain st p l -> (a ∉ l.*1) -> chain (delete a st) p l.
Proof.
  revert p. induction l as [|[a' b'] l IH]; intros p; [done|].
  intros (-> & Hb & Hc) Ha. cbn in Ha. apply not_elem_of_cons in Ha as [Hne Ha].
  split_and!; [done|by rewrite lookup_delete_ne by congruence|by apply IH].
Qed.

(** Only the bytes of the memory differ. *)
Definition same_shape (b b' : pbuf) : Prop :=
  b' = set_buf (buf b') b /\ length (buf b') = length (buf b).

Lemma same_shape_refl b : same_shape b b.
Proof. split; [by destruct b|done]. Qed.

Lemma seg_ok_shape b b' : same_shape b b' -> seg_ok b -> seg_ok b'.
Proof. intros [-> Hl] [H1 H2 H3]. cbn in Hl. split; cbn; [done|done|]. by rewrite Hl. Qed.

Lemma put_bytes_seg b off c :
  seg_ok b -> 0 <= off -> off + Z.of_nat (length c) <= len b ->
  exists b', put_bytes b off c = Some b' /\ same_shape b b' /\
    seg b' = take (Z.to_nat off) (seg b) ++ c ++ drop (Z.to_nat off + length c) (seg b).
Proof.
  intros [H1 H2 H3] Ho Hl. unfold put_bytes.
  rewrite (proj2 (Z.leb_le 0 off)), (proj2 (Z.leb_le 0 (payload b))),
    (proj2 (Z.leb_le (payload b + off + _) _)) by lia. cbn [andb].
  eexists. split; [done|]. split.
  - split; [by destruct b|]. cbn. rewrite !length_app, length_take, length_drop. lia.
  - unfold seg, set_buf. cbn [buf payload len]. apply list_eq. intros i.
    set (B := buf b) in *. set (P := Z.to_nat (payload b)) in *.
    replace (Z.to_nat (payload b + off)) with (P + Z.to_nat off)%nat by lia.
    set (O := Z.to_nat off). set (L := Z.to_nat (len b)).
    assert (P + L <= length B)%nat by lia. assert (O + length c <= L)%nat by lia.
    destruct (decide (i < L)%nat) as [Hi|Hi].
    + rewrite lookup_take_lt, lookup_drop by done.
      destruct (decide (i < O)%nat) as [Hio|Hio].
      * rewrite !lookup_app_l by (rewrite !length_take, ?length_drop; lia).
        by rewrite !lookup_take_lt, lookup_drop by lia.
      * rewrite (lookup_app_r (take (P + O) B)) by (rewrite length_take; lia).
        rewrite (lookup_app_r (take O _)) by (rewrite !length_take, length_drop; lia).
        rewrite !length_take, length_drop.
        replace (P + i - (P + O) `min` length B)%nat with (i - O)%nat by lia.
        replace (i - O `min` (L `min` (length B - P)))%nat with (i - O)%nat by lia.
        destruct (decide (i - O < length c)%nat).
        -- by rewrite !lookup_app_l.
        -- rewrite !lookup_app_r, !lookup_drop by lia. rewrite lookup_take_lt, lookup_drop by lia.
           f_equal. lia.
    + rewrite lookup_take_ge by lia. symmetry. apply lookup_ge_None.
      rewrite !length_app, !length_take, !length_drop, length_take, length_drop. lia.
Qed.

Definition shapes : list (Z * pbuf) -> list (Z * pbuf) -> Prop :=
  Forall2 (fun x y => x.1 = y.1 /\ same_shape x.2 y.2).

Lemma shapes_refl l : shapes l l.
Proof. induction l; constructor; auto using same_shape_refl. Qed.

Lemma shapes_fst l l' : shapes l l' -> l'.*1 = l.*1.
Proof. induction 1 as [|x y l l' [H1 _] _ IH]; [done|]. cbn. by rewrite H1, IH. Qed.

Lemma shapes_segs l l' :
  shapes l l' -> Forall (fun x => seg_ok x.2) l -> Forall (fun x => seg_ok x.2) l'.
Proof.
  induction 1 as [|x y l l' [_ H1] _ IH]; [done|]. rewrite !Forall_cons.
  intros [H2 H3]. split; [by eapply seg_ok_shape|auto].
Qed.

Lemma shapes_length l l' :
  shapes l l' -> Forall (fun x => seg_ok x.2) l -> length (contents l') = length (contents l).
Proof.
  induction 1 as [|x y l l' [_ H1] _ IH]; [done|]. rewrite Forall_cons. intros [H2 H3].
  rewrite !contents_cons, !length_app, IH by done. f_equal.
  pose proof (length_seg _ H2). pose proof (length_seg _ (seg_ok_shape _ _ H1 H2)).
  assert (len y.2 = len x.2) by (destruct H1 as [-> _]; done). lia.
Qed.

Lemma shapes_lens l l' :
  shapes l l' -> Forall (fun x => seg_ok x.2) l -> lens_ok l -> lens_ok l'.
Proof.
  intros Hsh. induction Hsh as [|[a b] [a' b'] l l' H1 Hsh IH]; [done|].
  rewrite Forall_cons. intros [H2 H3] [H4 H5]. split; [|by apply IH].
  rewrite (shapes_length ((a, b) :: l)); [|by constructor|by constructor].
  rewrite <- H4. destruct H1 as [_ [Heq _]]. cbn [snd] in Heq. by rewrite Heq.
Qed.

Lemma take_loop_spec fuel : forall st l p data,
  chain st p l -> NoDup l.*1 -> Forall (fun x => seg_ok x.2) l -> (length l < fuel)%nat ->
  (length data <= length (contents l))%nat ->
  exists st' l', take_loop fuel st p data = Some st' /\ chain st' p l' /\ shapes l l' /\
    contents l' = data ++ drop (length data) (contents l) /\
    forall a, (a ∉ l.*1) -> st' !! a = st !! a.
Proof.
  induction fuel as [|fuel IH]; intros st l p data Hc Hnd Hs Hf Hd; [lia|]. cbn [take_loop].
  destruct (Z.eqb_spec (Z.of_nat (length data)) 0) as [H0|H0].
  { destruct data; [|done]. exists st, l. split_and!; [done|done|apply shapes_refl|done|done]. }
  destruct l as [|[a b] l]; [cbn in Hd; lia|].
  destruct Hc as (-> & Hb & Hc). apply Forall_cons in Hs as [Hsb Hs]. cbn [snd] in Hsb.
  cbn in Hnd. apply NoDup_cons in Hnd as [Ha Hnd].
  cbn [mbind option_bind]. rewrite Hb. cbn [mbind option_bind].
  pose proof (length_seg b Hsb) as Hlen. rewrite contents_cons in *. cbn [snd] in *.
  set (n := if len b <? Z.of_nat (length data) then len b else Z.of_nat (length data)).
  assert (n = Z.min (len b) (Z.of_nat (length data))) as Hn
    by (unfold n; destruct (Z.ltb_spec (len b) (Z.of_nat (length data))); lia).
  clearbody n. rewrite length_app in Hd.
  assert (Z.of_nat (length (take (Z.to_nat n) data)) = n) as Hln.
  { destruct Hsb. rewrite length_take. lia. }
  destruct (put_bytes_seg b 0 (take (Z.to_nat n) data) Hsb) as (b' & -> & Hsh & Hseg); [lia|lia|].
  cbn [mbind option_bind].
  destruct (IH (<[a := b']> st) l (next b) (drop (Z.to_nat n) data))
    as (st' & l' & Heq & Hc' & Hsh' & Hcont & Hfr).
  - by apply chain_insert_ne.
  - done.
  - done.
  - cbn in Hf. lia.
  - rewrite length_drop. lia.
  - exists st', ((a, b') :: l'). split_and!.
    + done.
    + split_and!; [done| |].
      * rewrite Hfr by done. by rewrite lookup_insert_eq.
      * assert (next b' = next b) as -> by (destruct Hsh as [-> _]; done). done.
    + by constructor.
    + rewrite contents_cons. cbn [snd]. rewrite Hcont, Hseg. change (Z.to_nat 0) with 0%nat.
      rewrite take_0. cbn [app Nat.add]. rewrite <- !app_assoc.
      replace (length (take (Z.to_nat n) data)) with (Z.to_nat n) by lia.
      rewrite drop_app, length_drop.
      destruct (Z.le_gt_cases (len b) (Z.of_nat (length data))).
      * rewrite !(drop_ge (seg b)) by lia. cbn [app]. rewrite app_assoc, take_drop.
        do 2 f_equal. lia.
      * rewrite (take_ge data), (drop_ge data) by lia. cbn [app]. do 2 f_equal; [f_equal; lia|].
        f_equal. lia.
    + intros a0 Ha0. cbn in Ha0. apply not_elem_of_cons in Ha0 as [Hne Ha0].
      rewrite Hfr by done. by rewrite lookup_insert_ne by congruence.
Qed.

(** ** Reference counts and memory *)

(** The buffers at the head of a chain whose only reference goes away. *)
Fixpoint sole (l : list (Z * pbuf)) : list (Z * pbuf) :=
  match l with
  | (a, b) :: l => if ref b =? 1 then (a, b) :: sole l else []
  | [] => []
  end.

(** The store after the reference to the head of the chain [l] is dropped. *)
Fixpoint dropped (st : store) (l : list (Z * pbuf)) : store :=
  match l with
  | (a, b) :: l =>
      if ref b =? 1 then dropped (delete a st) l else <[a := set_ref (ref b - 1) b]> st
  | [] => st
  end.

Definition custom (b : pbuf) : bool := negb (Z.land (pflags b) PBUF_FLAG_IS_CUSTOM =? 0).

Section alloc.
Context {A : Type} `{PbufMem A}.
Variable custom_free_function : Z -> A -> A.

(** Exactly the blocks of the buffers of the store are out, none is custom. *)
Record mem_inv (st : store) (m : A) : Prop := {
  mi_owns : owns m ((fun x => (origin_of (ptype x.2), x.1)) <$> map_to_list st);
  mi_plain : map_Forall (fun _ b => custom b = false) st
}.

Lemma owns_delete st m a b :
  mem_inv st m -> st !! a = Some b ->
  exists m', give_mem m (origin_of (ptype b)) a = Some m' /\ mem_inv (delete a st) m'.
Proof.
  intros [Ho Hp] Hb.
  assert (owns m ([] ++ ((origin_of (ptype b), a) ::
    ((fun x => (origin_of (ptype x.2), x.1)) <$> map_to_list (delete a st))))) as Ho'.
  { eapply owns_perm; [|exact Ho]. cbn [app].
    rewrite <- (map_to_list_delete st a b Hb). done. }
  destruct (give_ok m [] _ _ _ Ho') as (m' & Hg & Hm'). exists m'. split; [done|].
  split; [done|]. by apply map_Forall_delete.
Qed.

Lemma owns_update st m a b b' :
  mem_inv st m -> st !! a = Some b -> ptype b' = ptype b -> custom b' = false ->
  mem_inv (<[a := b']> st) m.
Proof.
  intros [Ho Hp] Hb Ht Hc. split.
  - eapply owns_perm; [|exact Ho].
    rewrite <- (map_to_list_delete st a b Hb), <- (insert_delete_eq st a b').
    rewrite map_to_list_insert by apply lookup_delete_eq. cbn [fmap list_fmap snd fst].
    by rewrite Ht.
  - apply map_Forall_insert_2; done.
Qed.

Lemma owns_new st m o size a c m' b :
  mem_inv st m -> take_mem m o size = Some (a, c, m') ->
  origin_of (ptype b) = o -> custom b = false ->
  st !! a = None /\ mem_inv (<[a := b]> st) m' /\ a mod 4 = 0 /\ Z.of_nat (length c) = size.
Proof.
  intros [Ho Hp] Ht Hor Hc. destruct (take_new _ _ _ _ _ _ _ Ho Ht) as (Hn & Ha & Ho' & _ & Hl).
  assert (st !! a = None) as Hnone.
  { destruct (st !! a) as [b0|] eqn:Hb; [|done]. destruct Hn.
    rewrite <- list_fmap_compose. apply list_elem_of_fmap. exists (a, b0). split; [done|].
    by apply elem_of_map_to_list. }
  split_and!; [done| |done|done]. split; [|by apply map_Forall_insert_2].
  eapply owns_perm; [|exact Ho']. rewrite map_to_list_insert by done. cbn. by rewrite Hor.
Qed.

Lemma free_loop_spec fuel : forall st m p l c,
  chain st p l -> NoDup l.*1 -> mem_inv st m ->
  Forall (fun x => 1 <= ref x.2 < 65536) l -> (length l < fuel)%nat ->
  exists m', free_loop custom_free_function fuel st m p (u8 c) =
      Some (u8 (c + Z.of_nat (length (sole l))), dropped st l, m') /\
    mem_inv (dropped st l) m'.
Proof.
  induction fuel as [|fuel IH]; intros st m p l c Hc Hnd Hm Hr Hf; [lia|]. cbn [free_loop].
  destruct l as [|[a b] l].
  { cbn in Hc. subst p. exists m. cbn. by rewrite Z.add_0_r. }
  destruct Hc as (-> & Hb & Hc). apply Forall_cons in Hr as [Hrb Hr]. cbn [snd] in Hrb.
  cbn in Hnd. apply NoDup_cons in Hnd as [Ha Hnd].
  rewrite Hb. cbn [mbind option_bind]. rewrite (u16_small (ref b - 1)) by zlia.
  pose proof (mi_plain _ _ Hm a b Hb) as Hcu.
  cbn [sole dropped]. destruct (Z.eqb_spec (ref b) 1) as [Hr1|Hr1].
  - rewrite (proj2 (Z.eqb_eq _ 0)) by lia. unfold custom in Hcu. rewrite Hcu.
    destruct (owns_delete st m a b Hm Hb) as (m1 & -> & Hm1). cbn [mbind option_bind].
    destruct (IH (delete a st) m1 (next b) l (c + 1)) as (m' & Heq & Hm');
      [by apply chain_delete_ne|done|done|done|cbn in Hf; lia|].
    exists m'. split; [|done]. replace (u8 (u8 c + 1)) with (u8 (c + 1)) by zlia.
    rewrite Heq. cbn [length]. do 4 f_equal. lia.
  - rewrite (proj2 (Z.eqb_neq _ 0)) by lia. exists m. cbn [length]. rewrite Z.add_0_r.
    split; [done|]. by apply (owns_update st m a b).
Qed.

Lemma pbuf_free_spec st m p l :
  chain st p l -> NoDup l.*1 -> mem_inv st m -> Forall (fun x => 1 <= ref x.2 < 65536) l ->
  exists m', pbuf_free custom_free_function st m p =
      Some (u8 (Z.of_nat (length (sole l))), dropped st l, m') /\
    mem_inv (dropped st l) m'.
Proof.
  intros Hc Hnd Hm Hr. unfold pbuf_free. pose proof (chain_length st p l Hc Hnd).
  apply (free_loop_spec (S (size st)) st m p l 0); [done..|lia].
Qed.

(** Dropping a chain of buffers with one reference each deletes them. *)
Lemma dropped_all l : forall st,
  Forall (fun x => ref x.2 = 1) l -> dropped st l = foldl (fun (st : store) (x : Z * pbuf) => delete x.1 st) st l.
Proof.
  induction l as [|[a b] l IH]; intros st Hr; [done|]. apply Forall_cons in Hr as [Hb Hr].
  cbn [dropped foldl fst]. cbn [snd] in Hb. rewrite Hb. cbn. by apply IH.
Qed.

Lemma delete_all_lookup l : forall (st : store) a,
  foldl (fun (st : store) (x : Z * pbuf) => delete x.1 st) st l !! a = if decide (a ∈ l.*1) then None else st !! a.
Proof.
  induction l as [|[a' b'] l IH]; intros st a; cbn [foldl fmap list_fmap fst].
  { destruct (decide (a ∈ [])) as [Hin|]; [by apply elem_of_nil in Hin|done]. }
  rewrite IH. destruct (decide (a = a')) as [->|Hne].
  - rewrite lookup_delete_eq.
    destruct (decide (a' ∈ l.*1)), (decide (a' ∈ a' :: l.*1)) as [|Hn]; try done;
      destruct Hn; constructor.
  - rewrite lookup_delete_ne by done.
    destruct (decide (a ∈ l.*1)) as [Hi|Hi], (decide (a ∈ a' :: l.*1)) as [Hn|Hn]; try done.
    + destruct Hn. by constructor.
    + by apply elem_of_cons in Hn as [?|?].
Qed.

(** ** Allocation *)

(** A chain under construction: [rem] bytes are still to come. *)
Fixpoint lens_rem (rem : Z) (l : list (Z * pbuf)) : Prop :=
  match l with
  | [] => True
  | (a, b) :: l => tot_len b = Z.of_nat (length (contents ((a, b) :: l))) + rem /\ lens_rem rem l
  end.

Lemma lens_rem_0 l : lens_rem 0 l -> lens_ok l.
Proof. induction l as [|[a b] l IH]; [done|]. intros [H1 H2]. split; [lia|auto]. Qed.

Lemma lens_rem_snoc rem n l a b :
  seg_ok b -> len b = n -> tot_len b = rem -> lens_rem rem l ->
  lens_rem (rem - n) (l ++ [(a, b)]).
Proof.
  intros Hs Hn Ht. induction l as [|[a' b'] l IH]; cbn [lens_rem app].
  - intros _. rewrite contents_cons, length_app. change (contents []) with (@nil Z).
    cbn [snd length]. pose proof (length_seg b Hs). split; [lia|done].
  - intros [H1 H2]. split; [|by apply IH]. change ((a', b') :: l ++ [(a, b)]) with (((a', b') :: l) ++ [(a, b)]).
    rewrite contents_app, length_app, (contents_cons (a, b) []), length_app.
    change (contents []) with (@nil Z). cbn [snd length]. pose proof (length_seg b Hs). lia.
Qed.

(** Linking a new last buffer. *)
Lemma chain_snoc st p l r br q bq :
  chain st p (l ++ [(r, br)]) -> NoDup (l ++ [(r, br)]).*1 -> next br = None -> next bq = None ->
  (q ∉ (l ++ [(r, br)]).*1) ->
  chain (<[q := bq]> (<[r := set_next (Some q) br]> st)) p
    ((l ++ [(r, set_next (Some q) br)]) ++ [(q, bq)]).
Proof.
  revert p. induction l as [|[a b] l IH]; intros p Hc Hnd Hn Hnq Hq.
  - cbn in Hc |- *. destruct Hc as (-> & Hb & _). cbn in Hq. apply not_elem_of_cons in Hq as [Hqr _].
    split_and!; [done| |done|by rewrite lookup_insert_eq|done].
    rewrite lookup_insert_ne by done. by rewrite lookup_insert_eq.
  - cbn in Hc, Hnd, Hq. destruct Hc as (-> & Hb & Hc). apply NoDup_cons in Hnd as [Ha Hnd].
    apply not_elem_of_cons in Hq as [Hqa Hq]. cbn. split_and!; [done| |by apply IH].
    rewrite lookup_insert_ne by congruence. rewrite lookup_insert_ne; [done|].
    intros ->. apply Ha. rewrite fmap_app. apply elem_of_app. right. by constructor.
Qed.

Lemma lens_rem_next rem l r br n :
  lens_rem rem (l ++ [(r, br)]) -> lens_rem rem (l ++ [(r, set_next n br)]).
Proof.
  induction l as [|[a b] l IH]; cbn [lens_rem app]; intros [H1 H2]; [done|].
  split; [|by apply IH]. rewrite H1.
  change ((a, b) :: l ++ [(r, set_next n br)]) with (((a, b) :: l) ++ [(r, set_next n br)]).
  change ((a, b) :: l ++ [(r, br)]) with (((a, b) :: l) ++ [(r, br)]).
  by rewrite !contents_app.
Qed.

(** A chain that was built from fresh buffers on top of the store [st0]. *)
Record built (st0 st : store) (m : A) (p : Z) (l : list (Z * pbuf)) (rem : Z) : Prop := {
  bl_chain : chain st (Some p) l;
  bl_nodup : NoDup l.*1;
  bl_refs : Forall (fun x => ref x.2 = 1) l;
  bl_segs : Forall (fun x => seg_ok x.2) l;
  bl_lens : lens_rem rem l;
  bl_mem : mem_inv st m;
  bl_frame : forall a, (a ∉ l.*1) -> st !! a = st0 !! a;
  bl_fresh : forall a, a ∈ l.*1 -> st0 !! a = None
}.

Lemma chain_head_in st p l : chain st (Some p) l -> p ∈ l.*1.
Proof. destruct l as [|[a b] l]; [done|]. intros ([= <-] & _). by constructor. Qed.

(** Giving up a chain under construction leaves the store as it was. *)
Lemma built_free st0 st m p l rem :
  built st0 st m p l rem ->
  exists c m', pbuf_free custom_free_function st m (Some p) = Some (c, st0, m') /\ mem_inv st0 m'.
Proof.
  intros [Hc Hnd Hr Hs Hl Hm Hfr Hfresh].
  destruct (pbuf_free_spec st m (Some p) l Hc Hnd Hm) as (m' & Heq & Hm').
  { eapply Forall_impl; [exact Hr|]. cbn. intros x ->. lia. }
  assert (dropped st l = st0) as Hd; [|by rewrite Hd in *; eexists _, m'].
  rewrite dropped_all by done. apply map_eq. intros a. rewrite delete_all_lookup.
  destruct (decide (a ∈ l.*1)); [by rewrite Hfresh|by apply Hfr].
Qed.

Lemma built_snoc st0 st m p l r br rem q c m' n :
  built st0 st m p (l ++ [(r, br)]) rem -> next br = None -> ptype br = PBUF_POOL ->
  take_mem m MEMP_PBUF_POOL (SIZEOF_STRUCT_PBUF + PBUF_POOL_BUFSIZE_ALIGNED) = Some (q, c, m') ->
  0 <= n <= PBUF_POOL_BUFSIZE_ALIGNED ->
  let br' := set_next (Some q) br in
  let bq := mkPbuf None (drop (Z.to_nat SIZEOF_STRUCT_PBUF) c) 0 rem n PBUF_POOL 0 1 in
  st !! r = Some br /\ q <> p /\
  built st0 (<[q := bq]> (<[r := br']> st)) m' p ((l ++ [(r, br')]) ++ [(q, bq)]) (rem - n).
Proof.
  intros [Hc Hnd Hr Hs Hl Hm Hfr Hfresh] Hnext Htype Htake Hn. cbv zeta.
  set (br' := set_next (Some q) br). set (bq := mkPbuf _ _ _ _ _ _ _ _).
  assert (st !! r = Some br) as Hbr.
  { eapply chain_lookup; [exact Hc|]. apply elem_of_app. right. by constructor. }
  split; [done|]. pose proof (chain_head_in _ _ _ Hc) as Hhead.
  assert (mem_inv (<[r := br']> st) m) as Hm1.
  { apply (owns_update st m r br); [done|done|done|]. exact (mi_plain _ _ Hm r br Hbr). }
  destruct (owns_new (<[r := br']> st) m _ _ q c m' bq Hm1 Htake eq_refl eq_refl)
    as (Hq & Hm2 & _ & Hlc).
  apply lookup_insert_None in Hq as [Hq Hqr].
  assert (q ∉ (l ++ [(r, br)]).*1) as Hqn.
  { intros Hin. apply list_elem_of_fmap in Hin as ([q' bq'] & Heq & Hin).
    cbn [fst] in Heq. subst q'. rewrite (chain_lookup _ _ _ _ _ Hc Hin) in Hq. done. }
  assert ((l ++ [(r, br')]).*1 = (l ++ [(r, br)]).*1) as Hfst by (by rewrite !fmap_app).
  assert (seg_ok bq) as Hsq.
  { unfold bq. split; cbn [payload len buf]; [done|lia|]. rewrite length_drop.
    change SIZEOF_STRUCT_PBUF with 16 in *. change PBUF_POOL_BUFSIZE_ALIGNED with 512 in *. lia. }
  apply Forall_app in Hr as [Hr1 [Hr2 _]%Forall_cons].
  apply Forall_app in Hs as [Hs1 [[Hs2 Hs3 Hs4] _]%Forall_cons].
  split; [by intros ->|]. split.
  - by apply chain_snoc.
  - rewrite fmap_app, Hfst. apply NoDup_app. split_and!; [done| |apply NoDup_singleton].
    intros x Hx Hx'%list_elem_of_singleton. by subst x.
  - rewrite !Forall_app, !Forall_singleton. done.
  - rewrite !Forall_app, !Forall_singleton. done.
  - apply lens_rem_snoc; [done|done|done|]. by apply lens_rem_next.
  - done.
  - intros a Ha. rewrite fmap_app, Hfst in Ha. apply not_elem_of_app in Ha as [Ha Haq].
    rewrite lookup_insert_ne; [|intros ->; apply Haq; by constructor].
    rewrite lookup_insert_ne; [by apply Hfr|]. intros ->. apply Ha. rewrite fmap_app.
    apply elem_of_app. right. by constructor.
  - intros a Ha. rewrite fmap_app, Hfst in Ha. apply elem_of_app in Ha as [Ha|Ha]; [by apply Hfresh|].
    apply list_elem_of_singleton in Ha. subst a. rewrite <- Hfr by done. done.
Qed.

Lemma alloc_tail_spec fuel : forall st0 st m p l r br rem,
  built st0 st m p (l ++ [(r, br)]) rem -> next br = None -> ptype br = PBUF_POOL ->
  0 <= rem < 65536 -> rem < Z.of_nat fuel ->
  exists res st' m', alloc_tail custom_free_function fuel st m p r rem = Some (res, st', m') /\
    match res with
    | None => st' = st0 /\ mem_inv st0 m'
    | Some p' => p' = p /\ exists l', built st0 st' m' p l' 0 /\
        Z.of_nat (length (contents l')) = Z.of_nat (length (contents (l ++ [(r, br)]))) + rem /\
        payload <$> st' !! p = payload <$> st !! p
    end.
Proof.
  induction fuel as [|fuel IH]; intros st0 st m p l r br rem Hb Hnext Htype Hrem Hf; [lia|].
  cbn [alloc_tail]. destruct (Z.ltb_spec 0 rem) as [Hpos|Hz].
  - destruct (take_mem m MEMP_PBUF_POOL _) as [[[q c] m1]|] eqn:Htake.
    + set (n := LWIP_MIN (u16 rem) PBUF_POOL_BUFSIZE_ALIGNED).
      change PBUF_POOL_BUFSIZE_ALIGNED with 512 in *.
      assert (n = Z.min rem 512) as Hn.
      { unfold n, LWIP_MIN. rewrite u16_small by done. destruct (Z.ltb_spec rem 512); lia. }
      destruct (built_snoc st0 st m p l r br rem q c m1 n Hb Hnext Htype Htake) as (Hr & Hqp & Hb');
        [change PBUF_POOL_BUFSIZE_ALIGNED with 512; lia|].
      rewrite Hr. cbn [mbind option_bind]. rewrite u16_small by done.
      set (bq := mkPbuf None _ 0 rem n PBUF_POOL 0 1) in *.
      destruct (IH st0 _ m1 p _ q bq (rem - n) Hb') as (res & st' & m' & Heq & Hres);
        [done|done|lia|lia|].
      exists res, st', m'. split; [done|]. destruct res as [p'|]; [|done].
      destruct Hres as [-> (l' & Hbl & Hlen & Hpay)]. split; [done|]. exists l'. split; [done|].
      split.
      2: { rewrite Hpay, lookup_insert_ne by done. destruct (decide (r = p)) as [->|].
           - by rewrite lookup_insert_eq, Hr.
           - by rewrite lookup_insert_ne. }
      rewrite Hlen, !contents_app, !length_app.
      assert (Z.of_nat (length (contents [(q, bq)])) = n) as Hq.
      { pose proof (bl_segs _ _ _ _ _ _ Hb') as Hs. apply Forall_app in Hs as [_ [Hs _]%Forall_cons].
        rewrite contents_cons, length_app. change (contents []) with (@nil Z). cbn [snd length].
        pose proof (length_seg bq Hs). cbn [len bq] in *. lia. }
      change (contents [(r, set_next (Some q) br)]) with (contents [(r, br)]). lia.
    + destruct (built_free st0 st m p _ rem Hb) as (c & m' & -> & Hm'). cbn [mbind option_bind].
      by exists None, st0, m'.
  - exists (Some p), st, m. split; [done|]. split; [done|]. exists (l ++ [(r, br)]).
    replace rem with 0 in * by lia. split_and!; [done|lia|done].
Qed.

Lemma payload_at_aligned p offset :
  p mod 4 = 0 -> payload_at p offset = LWIP_MEM_ALIGN_SIZE offset.
Proof.
  intros Hp. unfold payload_at. change SIZEOF_STRUCT_PBUF with 16.
  rewrite !Mem.align_size. zlia.
Qed.

Lemma header_room layer :
  0 <= header_offset layer <= LWIP_MEM_ALIGN_SIZE (header_offset layer) /\
  LWIP_MEM_ALIGN_SIZE (header_offset layer) <= 56.
Proof. destruct layer; vm_compute; (split; [split|]; discriminate). Qed.

(** The first buffer of a new packet. *)
Lemma built_one st m o size p c m' b :
  mem_inv st m -> take_mem m o size = Some (p, c, m') ->
  origin_of (ptype b) = o -> custom b = false -> ref b = 1 -> seg_ok b -> next b = None ->
  built st (<[p := b]> st) m' p [(p, b)] (tot_len b - len b) /\ p mod 4 = 0.
Proof.
  intros Hm Ht Ho Hc Hr Hs Hn.
  destruct (owns_new st m o size p c m' b Hm Ht Ho Hc) as (Hp & Hm' & Ha & _).
  split; [|done]. split.
  - cbn. by rewrite lookup_insert_eq.
  - apply NoDup_singleton.
  - by constructor.
  - by constructor.
  - cbn [lens_rem]. rewrite contents_cons, length_app. change (contents []) with (@nil Z).
    cbn [snd length]. pose proof (length_seg b Hs). split; [lia|done].
  - done.
  - intros a Ha'. apply not_elem_of_cons in Ha' as [Hne _]. by rewrite lookup_insert_ne.
  - intros a Ha'%list_elem_of_singleton. by subst a.
Qed.

(** What a successful allocation returns. *)
Record allocated (st0 st : store) (m : A) (p length : Z) (layer : pbuf_layer) (l : list (Z * pbuf))
    : Prop := {
  al_packet : packet st (Some p) l;
  al_length : Z.of_nat (List.length (contents l)) = length;
  al_refs : Forall (fun x => ref x.2 = 1) l;
  al_mem : mem_inv st m;
  al_frame : forall a, (a ∉ l.*1) -> st !! a = st0 !! a;
  al_fresh : forall a, a ∈ l.*1 -> st0 !! a = None;
  al_room : exists b, st !! p = Some b /\ header_offset layer <= payload b
}.

Lemma built_allocated st0 st m p l layer :
  built st0 st m p l 0 -> in_u16 (Z.of_nat (length (contents l))) ->
  (exists b, st !! p = Some b /\ header_offset layer <= payload b) ->
  allocated st0 st m p (Z.of_nat (length (contents l))) layer l.
Proof.
  intros [Hc Hnd Hr Hs Hl Hm Hfr Hfresh] Hu Hroom. split; [|done..].
  split; [done|done|done|by apply lens_rem_0|done].
Qed.

(** Clearing the flags of the head. *)
Lemma built_flags st0 st m p l b :
  built st0 st m p l 0 -> st !! p = Some b ->
  exists l', built st0 (<[p := set_flags 0 (set_ref 1 b)]> st) m p l' 0 /\ contents l' = contents l.
Proof.
  intros [Hc Hnd Hr Hs Hl Hm Hfr Hfresh] Hb.
  destruct l as [|[a b'] l]; [done|]. destruct Hc as ([= <-] & Hb' & Hc).
  replace b' with b in * by congruence.
  exists ((p, set_flags 0 (set_ref 1 b)) :: l). split; [|done].
  apply Forall_cons in Hr as [Hr1 Hr]. apply Forall_cons in Hs as [[Hs1 Hs2 Hs3] Hs].
  cbn in Hnd. apply NoDup_cons in Hnd as [Hp Hnd]. split.
  - split_and!; [done|by rewrite lookup_insert_eq|]. by apply chain_insert_ne.
  - by apply NoDup_cons.
  - by constructor.
  - constructor; [by split|done].
  - destruct Hl as [Hl1 Hl]. split; [exact Hl1|done].
  - by apply (owns_update st m p b).
  - intros a Ha. cbn in Ha. pose proof Ha as Ha'. apply not_elem_of_cons in Ha' as [Hne _].
    rewrite lookup_insert_ne by congruence. by apply Hfr.
  - exact Hfresh.
Qed.

Lemma pbuf_alloc_ram st m layer length :
  mem_inv st m -> in_u16 length ->
  LWIP_MEM_ALIGN_SIZE (SIZEOF_STRUCT_PBUF + header_offset layer) + LWIP_MEM_ALIGN_SIZE length < 65536 ->
  exists res st' m', pbuf_alloc custom_free_function st m layer length PBUF_RAM = Some (res, st', m') /\
    match res with
    | None => st' = st /\ m' = m
    | Some p => exists l, allocated st st' m' p length layer l
    end.
Proof.
  intros Hm Hl Hsz. unfold pbuf_alloc. rewrite u16_small.
  2: { rewrite !Mem.align_size in *.
       change SIZEOF_STRUCT_PBUF with 16 in *. pose proof (header_room layer). zlia. }
  destruct (take_mem m MEM_HEAP _) as [[[p c] m']|] eqn:Htake; [|by eexists None, st, m].
  set (b := mkPbuf _ _ _ _ _ _ _ _).
  destruct (owns_new st m _ _ p c m' b Hm Htake eq_refl eq_refl) as (_ & _ & Ha & Hlc).
  assert (payload b = LWIP_MEM_ALIGN_SIZE (header_offset layer)) as Hpay by (by apply payload_at_aligned).
  assert (seg_ok b) as Hsb.
  { split; [rewrite Hpay; pose proof (header_room layer); lia|unfold b; cbn; zlia|].
    rewrite Hpay. unfold b. cbn [len buf]. rewrite length_drop.
    rewrite !Mem.align_size in *.
    change SIZEOF_STRUCT_PBUF with 16 in *. pose proof (header_room layer). zlia. }
  destruct (built_one st m _ _ p c m' b Hm Htake) as [Hb _]; [done..|].
  exists (Some p), (<[p := b]> st), m'. split; [done|]. exists [(p, b)].
  assert (Z.of_nat (List.length (contents [(p, b)])) = length) as Hlen.
  { rewrite contents_cons, length_app. change (contents []) with (@nil Z). cbn [snd List.length].
    pose proof (length_seg b Hsb) as Hs. unfold b in Hs at 2. cbn [len] in Hs. lia. }
  rewrite <- Hlen. apply built_allocated; [|by rewrite Hlen|].
  - unfold b in Hb at 3 4. cbn [tot_len len] in Hb. by rewrite Z.sub_diag in Hb.
  - exists b. rewrite lookup_insert_eq. split; [done|]. rewrite Hpay. apply header_room.
Qed.

Lemma pbuf_alloc_pool st m layer length :
  mem_inv st m -> in_u16 length ->
  (forall q c m', take_mem m MEMP_PBUF_POOL (SIZEOF_STRUCT_PBUF + PBUF_POOL_BUFSIZE_ALIGNED) =
     Some (q, c, m') -> Z.land (stale_flags c) PBUF_FLAG_IS_CUSTOM = 0) ->
  exists res st' m', pbuf_alloc custom_free_function st m layer length PBUF_POOL = Some (res, st', m') /\
    match res with
    | None => st' = st /\ mem_inv st m'
    | Some p => exists l, allocated st st' m' p length layer l
    end.
Proof.
  intros Hm Hl Hfl. unfold pbuf_alloc.
  destruct (take_mem m MEMP_PBUF_POOL _) as [[[p c] m1]|] eqn:Htake; [|by eexists None, st, m].
  specialize (Hfl p c m1 eq_refl).
  set (n := LWIP_MIN length _). set (b := mkPbuf _ _ _ _ _ _ _ _).
  assert (custom b = false) as Hcu by (unfold custom, b; cbn [pflags]; by rewrite Hfl).
  destruct (owns_new st m _ _ p c m1 b Hm Htake eq_refl Hcu) as (_ & _ & Ha & Hlc).
  assert (payload b = LWIP_MEM_ALIGN_SIZE (header_offset layer)) as Hpay by (by apply payload_at_aligned).
  pose proof (header_room layer) as Hroom.
  change PBUF_POOL_BUFSIZE_ALIGNED with 512 in *. change SIZEOF_STRUCT_PBUF with 16 in *.
  assert (n = Z.min length (512 - LWIP_MEM_ALIGN_SIZE (header_offset layer))) as Hn.
  { unfold n, LWIP_MIN. destruct (Z.ltb_spec length (512 - LWIP_MEM_ALIGN_SIZE (header_offset layer))); lia. }
  assert (seg_ok b) as Hsb.
  { split; [lia|unfold b; cbn [len]; unfold in_u16 in Hl; lia|].
    rewrite Hpay. unfold b. cbn [len buf]. rewrite length_drop. lia. }
  destruct (built_one st m _ _ p c m1 b Hm Htake) as [Hb _]; [done..|].
  destruct (alloc_tail_spec (S (S (Z.to_nat length))) st _ m1 p [] p b (length - n) Hb)
    as (res & st' & m' & Heq & Hres); [done|done|unfold in_u16 in Hl; lia|unfold in_u16 in Hl; lia|].
  rewrite Heq. cbn [mbind option_bind]. destruct res as [p'|]; [|by exists None, st', m'].
  destruct Hres as [-> (l & Hbl & Hlen & Hpp)].
  assert (exists b', st' !! p = Some b') as [b' Hb'].
  { pose proof (bl_chain _ _ _ _ _ _ Hbl) as Hc. destruct l as [|[a0 b0] l]; [done|].
    destruct Hc as ([= <-] & Hb0 & _). eauto. }
  rewrite Hb'. cbn [mbind option_bind].
  destruct (built_flags _ _ _ _ _ _ Hbl Hb') as (l' & Hbl' & Hcont).
  exists (Some p), (<[p := set_flags 0 (set_ref 1 b')]> st'), m'. split; [done|]. exists l'.
  assert (Z.of_nat (List.length (contents l')) = length) as Hlen'.
  { rewrite Hcont, Hlen. cbn [app]. rewrite contents_cons, length_app.
    change (contents []) with (@nil Z). cbn [snd List.length].
    pose proof (length_seg b Hsb) as Hs. unfold b in Hs at 2. cbn [len] in Hs. lia. }
  rewrite <- Hlen'. apply built_allocated; [done|by rewrite Hlen'|].
  exists (set_flags 0 (set_ref 1 b')). rewrite lookup_insert_eq. split; [done|]. cbn [payload set_flags set_ref].
  rewrite Hb', lookup_insert_eq in Hpp. cbn in Hpp. injection Hpp as ->.
  change (payload_at p (header_offset layer)) with (payload b). lia.
Qed.

End alloc.

(** ** Joining packets and moving headers *)

Lemma lens_ok_head st p l :
  chain st (Some p) l -> lens_ok l ->
  exists b, st !! p = Some b /\ tot_len b = Z.of_nat (length (contents l)).
Proof.
  destruct l as [|[a b] l]; [done|]. intros ([= <-] & Hb & _) [Ht _]. by exists b.
Qed.

Lemma cat_loop_spec fuel : forall st p l1 t l2,
  chain st (Some p) l1 -> chain st (Some t) l2 -> NoDup (l1.*1 ++ l2.*1) ->
  Forall (fun x => seg_ok x.2) l1 -> lens_ok l1 -> lens_ok l2 ->
  Z.of_nat (length (contents l1)) + Z.of_nat (length (contents l2)) < 65536 ->
  (length l1 <= fuel)%nat ->
  exists st' l', cat_loop fuel st p t = Some st' /\ chain st' (Some p) (l' ++ l2) /\
    l'.*1 = l1.*1 /\ Forall (fun x => seg_ok x.2) l' /\ lens_ok (l' ++ l2) /\
    contents l' = contents l1 /\ forall a, (a ∉ l1.*1) -> st' !! a = st !! a.
Proof.
  induction fuel as [|fuel IH]; intros st p l1 t l2 Hc1 Hc2 Hnd Hs Hl1 Hl2 Hu Hf.
  { destruct l1; [done|cbn in Hf; lia]. }
  destruct l1 as [|[a b] l1]; [done|]. destruct Hc1 as ([= <-] & Hb & Hc1).
  destruct (lens_ok_head _ _ _ Hc2 Hl2) as (bt & Hbt & Htt).
  apply Forall_cons in Hs as [Hsb Hs]. cbn [snd] in Hsb. destruct Hl1 as [Htb Hl1].
  cbn in Hnd. apply NoDup_cons in Hnd as [Hp Hnd]. apply not_elem_of_app in Hp as [Hp1 Hp2].
  cbn [cat_loop]. rewrite Hb. cbn [mbind option_bind]. rewrite Hbt. cbn [mbind option_bind].
  rewrite Htb, Htt, u16_small by (unfold in_u16; lia).
  set (T := Z.of_nat (length (contents ((p, b) :: l1))) + Z.of_nat (length (contents l2))).
  cbn [next set_tot_len]. destruct (next b) as [q|] eqn:Hn.
  - destruct (IH (<[p := set_tot_len T b]> st) q l1 t l2) as
      (st' & l' & Heq & Hc & Hfst & Hsl & Hll & Hcont & Hfr).
    + rewrite <- Hn in *. by apply chain_insert_ne.
    + by apply chain_insert_ne.
    + done.
    + done.
    + done.
    + done.
    + rewrite contents_cons, length_app in Hu. lia.
    + cbn in Hf. lia.
    + exists st', ((p, set_tot_len T b) :: l'). split_and!; [done| | | | | |].
      * cbn [app]. split_and!; [done| |by cbn [next set_tot_len]; rewrite Hn].
        rewrite Hfr by done. by rewrite lookup_insert_eq.
      * cbn. by rewrite Hfst.
      * constructor; [|done]. destruct Hsb. by split.
      * cbn [app]. split; [|done]. cbn [tot_len set_tot_len]. unfold T.
        rewrite !contents_cons, !length_app, contents_app, length_app, Hcont. cbn [snd].
        change (seg (set_tot_len _ b)) with (seg b). lia.
      * rewrite !contents_cons, Hcont. done.
      * intros a Ha. cbn in Ha. apply not_elem_of_cons in Ha as [Hne Ha].
        rewrite Hfr by done. by rewrite lookup_insert_ne by congruence.
  - destruct l1 as [|[a1 b1] l1]; [|by destruct Hc1].
    eexists _, [(p, set_next (Some t) (set_tot_len T b))]. split; [done|].
    split_and!; [|done| | |done|].
    + cbn [app]. split_and!; [done|by rewrite lookup_insert_eq|]. by apply chain_insert_ne.
    + constructor; [|done]. destruct Hsb. by split.
    + cbn [app]. split; [|done]. cbn [tot_len set_tot_len set_next]. unfold T.
      rewrite !contents_cons, !length_app. cbn [snd]. change (contents []) with (@nil Z).
      change (seg (set_next _ (set_tot_len _ b))) with (seg b). cbn [length]. lia.
    + intros a Ha. cbn in Ha. apply not_elem_of_cons in Ha as [Hne _].
      by rewrite lookup_insert_ne by congruence.
Qed.

Lemma pbuf_cat_spec st h l1 t l2 :
  packet st (Some h) l1 -> packet st (Some t) l2 -> (forall a, a ∈ l1.*1 -> a ∉ l2.*1) ->
  Z.of_nat (length (contents l1)) + Z.of_nat (length (contents l2)) < 65536 ->
  exists st' l', pbuf_cat st (Some h) (Some t) = Some st' /\ packet st' (Some h) (l' ++ l2) /\
    l'.*1 = l1.*1 /\ contents (l' ++ l2) = contents l1 ++ contents l2 /\
    (forall a, (a ∉ l1.*1) -> st' !! a = st !! a).
Proof.
  intros [Hc1 Hn1 Hs1 Hl1 _] [Hc2 Hn2 Hs2 Hl2 _] Hdis Hu. unfold pbuf_cat.
  assert (NoDup (l1.*1 ++ l2.*1)) as Hnd by (apply NoDup_app; auto).
  pose proof (chain_length _ _ _ Hc1 Hn1).
  destruct (cat_loop_spec (S (size st)) st h l1 t l2) as
    (st' & l' & Heq & Hc & Hfst & Hsl & Hll & Hcont & Hfr); [done..|lia|].
  exists st', l'. split_and!; [done| |done| |done].
  - split; [done| | |done|].
    + by rewrite fmap_app, Hfst.
    + by apply Forall_app.
    + rewrite contents_app, length_app, Hcont. unfold in_u16. lia.
  - by rewrite contents_app, Hcont.
Qed.

(** Hiding [k] bytes at the front of the first buffer. *)
Lemma seg_hide b k t :
  seg_ok b -> 0 <= k <= len b ->
  seg_ok (set_lens (payload b + k) t (len b - k) b) /\
  seg (set_lens (payload b + k) t (len b - k) b) = drop (Z.to_nat k) (seg b).
Proof.
  intros [H1 H2 H3] Hk. split; [split; cbn; lia|]. unfold seg. cbn [len payload buf set_lens].
  rewrite skipn_firstn_comm, drop_drop. f_equal; [lia|]. f_equal. lia.
Qed.

(** Revealing [k] bytes in front of the payload. *)
Lemma seg_reveal b k t :
  seg_ok b -> 0 <= k <= payload b ->
  seg_ok (set_lens (payload b - k) t (len b + k) b) /\
  exists h, length h = Z.to_nat k /\ seg (set_lens (payload b - k) t (len b + k) b) = h ++ seg b.
Proof.
  intros [H1 H2 H3] Hk. split; [split; cbn; lia|]. unfold seg. cbn [len payload buf set_lens].
  exists (take (Z.to_nat k) (drop (Z.to_nat (payload b - k)) (buf b))). split.
  { rewrite length_take, length_drop. lia. }
  replace (Z.to_nat (len b + k)) with (Z.to_nat k + Z.to_nat (len b))%nat by lia.
  rewrite <- take_take_drop, drop_drop. do 3 f_equal. lia.
Qed.

(** Replacing the head of a packet by a buffer with other bounds. *)
Lemma packet_head st p b l b' :
  packet st (Some p) ((p, b) :: l) -> next b' = next b -> seg_ok b' ->
  tot_len b' = Z.of_nat (length (seg b')) + Z.of_nat (length (contents l)) -> in_u16 (tot_len b') ->
  packet (<[p := b']> st) (Some p) ((p, b') :: l).
Proof.
  intros [(_ & Hb & Hc) Hnd Hs Hl Hu] Hn Hs' Ht Hu'. cbn in Hnd. pose proof Hnd as Hnd'.
  apply NoDup_cons in Hnd as [Hp Hnd]. apply Forall_cons in Hs as [_ Hs]. destruct Hl as [_ Hl].
  assert (tot_len b' = Z.of_nat (length (contents ((p, b') :: l)))) as Ht'.
  { rewrite Ht, contents_cons, length_app. cbn [snd]. lia. }
  split.
  - split_and!; [done|by rewrite lookup_insert_eq|]. rewrite Hn. by apply chain_insert_ne.
  - done.
  - by constructor.
  - by split.
  - by rewrite <- Ht'.
Qed.

(** When [pbuf_header] succeeds. *)
Definition header_fits (b : pbuf) (inc : Z) : Prop :=
  inc = 0 \/ (inc < 0 /\ - inc <= len b) \/
  (0 < inc <= payload b /\ (ptype b = PBUF_RAM \/ ptype b = PBUF_POOL)).

Definition moved (b : pbuf) (inc : Z) : pbuf :=
  set_lens (payload b - inc) (tot_len b + inc) (len b + inc) b.

Lemma pbuf_header_cases st p b inc :
  st !! p = Some b -> seg_ok b -> len b <= tot_len b -> tot_len b + inc < 65536 ->
  (header_fits b inc /\ inc <> 0 /\ pbuf_header st (Some p) inc = Some (0, <[p := moved b inc]> st)) \/
  (inc = 0 /\ pbuf_header st (Some p) inc = Some (0, st)) \/
  (~ header_fits b inc /\ pbuf_header st (Some p) inc = Some (1, st)).
Proof.
  intros Hb [H1 H2 H3] Hlt Hu. unfold pbuf_header, header_fits, moved.
  destruct (Z.eqb_spec inc 0) as [->|H0]; [right; left; done|]. rewrite Hb. cbn [mbind option_bind].
  destruct (Z.ltb_spec inc 0) as [Hneg|Hpos]; cbn [andb].
  - destruct (Z.leb_spec (Z.abs inc) (len b)) as [Hfit|Hno]; cbn [negb].
    + left. split_and!; [lia|done|]. rewrite !u16_small by (unfold in_u16; lia).
      destruct (ptype b); try done; by rewrite (proj2 (Z.ltb_ge _ _)) by lia.
    + right. right. split; [lia|done].
  - destruct (decide (inc <= payload b)) as [Hfit|Hno].
    + rewrite !u16_small by (unfold in_u16; lia). destruct (ptype b) eqn:Ht.
      * left. split_and!; [auto with lia|done|]. by rewrite (proj2 (Z.ltb_ge _ _)) by lia.
      * right. right. split; [|done]. intros [?|[?|[_ [?|?]]]]; lia || done.
      * right. right. split; [|done]. intros [?|[?|[_ [?|?]]]]; lia || done.
      * left. split_and!; [auto with lia|done|]. by rewrite (proj2 (Z.ltb_ge _ _)) by lia.
    + right. right. split; [lia|]. destruct (ptype b); try done;
        by rewrite (proj2 (Z.ltb_lt _ _)) by lia.
Qed.

Lemma moved_packet st p b l inc :
  packet st (Some p) ((p, b) :: l) -> header_fits b inc -> tot_len b + inc < 65536 ->
  packet (<[p := moved b inc]> st) (Some p) ((p, moved b inc) :: l) /\
  (inc <= 0 -> seg (moved b inc) = drop (Z.to_nat (- inc)) (seg b)) /\
  (0 <= inc -> exists h, length h = Z.to_nat inc /\ seg (moved b inc) = h ++ seg b).
Proof.
  intros Hpk Hfit Hu. pose proof (Forall_inv (pk_segs _ _ _ Hpk)) as Hsb. cbn [snd] in Hsb.
  pose proof (proj1 (pk_lens _ _ _ Hpk)) as Ht.
  rewrite contents_cons, length_app in Ht. cbn [snd] in Ht. pose proof (length_seg b Hsb) as Hlb.
  assert (seg_ok (moved b inc) /\
    (inc <= 0 -> seg (moved b inc) = drop (Z.to_nat (- inc)) (seg b)) /\
    (0 <= inc -> exists h, length h = Z.to_nat inc /\ seg (moved b inc) = h ++ seg b))
    as (Hs' & Hhide & Hrev).
  { unfold moved. destruct (Z.le_gt_cases inc 0) as [Hle|Hgt].
    - destruct (seg_hide b (- inc) (tot_len b + inc) Hsb) as [Hs' Hseg];
        [unfold header_fits in Hfit; destruct Hsb; lia|].
      replace (payload b - inc) with (payload b + - inc) by lia.
      replace (len b + inc) with (len b - - inc) by lia. split_and!; [done|done|].
      intros Hge. exists []. replace inc with 0 in * by lia. split; [done|]. by rewrite Hseg.
    - destruct (seg_reveal b inc (tot_len b + inc) Hsb) as [Hs' Hseg];
        [unfold header_fits in Hfit; lia|]. split_and!; [done|lia|done]. }
  split_and!; [|done|done]. pose proof (length_seg _ Hs') as Hlm.
  apply packet_head with b; [done|done|done| |]; unfold moved in *; cbn [tot_len set_lens len] in *.
  - lia.
  - destruct Hsb. unfold in_u16, header_fits in *. lia.
Qed.

(** ** The properties of packets *)

(** [pbuf_cat] joins two packets: the contents of the result are the contents
    of the head followed by those of the tail, all its length fields are right
    again, and no buffer outside the head chain changes. [pbuf_header] either
    fails and changes nothing, or hides exactly the first bytes of the packet or
    reveals as many bytes in front of it; it succeeds exactly if the bytes to hide
    are in the first buffer, or the room to reveal is in front of the payload of
    a buffer with memory of its own. *)
Theorem pbuf_cat_header st h l1 t l2 inc :
  packet st (Some h) l1 -> packet st (Some t) l2 -> (forall a, a ∈ l1.*1 -> a ∉ l2.*1) ->
  Z.of_nat (length (contents l1)) + Z.of_nat (length (contents l2)) < 65536 ->
  Z.of_nat (length (contents l1)) + inc < 65536 ->
  (exists st' l', pbuf_cat st (Some h) (Some t) = Some st' /\ packet st' (Some h) l' /\
     contents l' = contents l1 ++ contents l2 /\
     (forall a, (a ∉ l1.*1) -> st' !! a = st !! a)) /\
  (exists r st', pbuf_header st (Some h) inc = Some (r, st') /\
     (forall b, st !! h = Some b -> r = 0 <-> header_fits b inc) /\
     (r <> 0 -> st' = st) /\
     (r = 0 -> exists l', packet st' (Some h) l' /\
        (inc <= 0 -> contents l' = drop (Z.to_nat (- inc)) (contents l1)) /\
        (0 <= inc -> exists hd, length hd = Z.to_nat inc /\ contents l' = hd ++ contents l1))).
Proof.
  intros Hp1 Hp2 Hdis Hu Hinc. split.
  - destruct (pbuf_cat_spec st h l1 t l2 Hp1 Hp2 Hdis Hu) as (st' & l' & H1 & H2 & _ & H4 & H5).
    exists st', (l' ++ l2). done.
  - destruct l1 as [|[a b] l]; [by pose proof (pk_chain _ _ _ Hp1)|].
    assert (a = h) as -> by (by destruct (pk_chain _ _ _ Hp1) as ([= ->] & _)).
    assert (st !! h = Some b) as Hb by (apply (pk_chain _ _ _ Hp1)).
    pose proof (Forall_inv (pk_segs _ _ _ Hp1)) as Hsb. cbn [snd] in Hsb.
    pose proof (proj1 (pk_lens _ _ _ Hp1)) as Ht.
    assert (len b <= tot_len b) as Hle.
    { rewrite Ht, contents_cons, length_app. cbn [snd]. rewrite <- (length_seg b Hsb). lia. }
    destruct (pbuf_header_cases st h b inc Hb Hsb Hle) as [(Hf & Hne & Heq)|[(-> & Heq)|(Hf & Heq)]];
      [lia|..]; rewrite Heq.
    + destruct (moved_packet st h b l inc Hp1 Hf) as (Hpk & Hhide & Hrev); [lia|].
      exists 0, (<[h := moved b inc]> st). split_and!; [done| |done|].
      * intros b' Hb'. by replace b' with b by congruence.
      * intros _. exists ((h, moved b inc) :: l). split_and!; [done| |].
        -- intros Hi. rewrite !contents_cons. cbn [snd]. rewrite Hhide by done.
           rewrite drop_app_le; [done|]. pose proof (length_seg b Hsb).
           unfold header_fits in Hf. lia.
        -- intros Hi. destruct (Hrev Hi) as (hd & Hl & Hs). exists hd. split; [done|].
           rewrite !contents_cons. cbn [snd]. by rewrite Hs, app_assoc.
    + exists 0, st. split_and!; [done| |done|].
      * intros b' Hb'. split; [by left|done].
      * intros _. exists ((h, b) :: l). split_and!; [done|done|]. intros _. by exists [].
    + exists 1, st. split_and!; [done| |done|done]. intros b' Hb'.
      replace b' with b by congruence. done.
Qed.

(** ** A simple allocator

    Blocks are cut off at rising addresses until [blocks] of them are out. *)

Record bump := mkBump { top : Z; live : list (origin * Z); blocks : nat }.

Fixpoint remove1 (x : origin * Z) (l : list (origin * Z)) : list (origin * Z) :=
  match l with
  | [] => []
  | y :: l => if decide (x = y) then l else y :: remove1 x l
  end.

Lemma remove1_perm x l : x ∈ l -> x :: remove1 x l ≡ₚ l.
Proof.
  induction l as [|y l IH]; [by intros ?%elem_of_nil|]. cbn. intros Hx.
  destruct (decide (x = y)) as [->|Hne]; [done|].
  apply elem_of_cons in Hx as [?|Hx]; [done|]. rewrite <- (IH Hx) at 2. apply Permutation_swap.
Qed.

Definition bump_take (m : bump) (o : origin) (size : Z) : option (Z * list Z * bump) :=
  match blocks m with
  | O => None
  | S n =>
      if size <? 0 then None
      else Some (top m, replicate (Z.to_nat size) 0,
                 mkBump (top m + 4 + LWIP_MEM_ALIGN_SIZE size) ((o, top m) :: live m) n)
  end.

Record bump_owns (m : bump) (l : list (origin * Z)) : Prop := {
  bo_perm : l ≡ₚ live m;
  bo_below : Forall (fun x => x.2 < top m) (live m);
  bo_aligned : top m mod 4 = 0
}.

#[global] Program Instance bump_mem : PbufMem bump := {
  take_mem := bump_take;
  give_mem m o a :=
    if decide ((o, a) ∈ live m) then Some (mkBump (top m) (remove1 (o, a) (live m)) (S (blocks m)))
    else None;
  trim_mem m a size := Some m;
  owns := bump_owns
}.
Next Obligation.
  intros m o size a c m' l [Hp Hb Ha]. unfold bump_take. destruct (blocks m) as [|n]; [done|].
  destruct (Z.ltb_spec size 0) as [|Hs]; [done|]. intros [= <- <- <-].
  assert (0 <= LWIP_MEM_ALIGN_SIZE size /\ LWIP_MEM_ALIGN_SIZE size mod 4 = 0) as [Hal Hal'].
  { rewrite Mem.align_size. zlia. }
  split_and!.
  - intros Hin. apply list_elem_of_fmap in Hin as (x & Heq & Hin). rewrite Hp in Hin.
    pose proof (proj1 (Forall_forall _ _) Hb x Hin) as Hlt. cbn in Hlt. lia.
  - done.
  - split; cbn [live top].
    + by rewrite Hp.
    + constructor; cbn; [lia|]. eapply Forall_impl; [exact Hb|]. cbn. intros x Hx. lia.
    + revert Hal'. generalize (LWIP_MEM_ALIGN_SIZE size). intros z Hz. zlia.
  - apply Forall_replicate. zlia.
  - rewrite length_replicate. lia.
Qed.
Next Obligation.
  intros m l1 o a l2 [Hp Hb Ha]. cbn.
  assert ((o, a) ∈ live m) as Hin.
  { rewrite <- Hp. apply elem_of_app. right. by constructor. }
  destruct (decide ((o, a) ∈ live m)); [|done]. eexists. split; [done|].
  pose proof (remove1_perm _ _ Hin) as Hr. split; cbn [live top].
  - apply (Permutation_cons_inv (a := (o, a))). rewrite Hr, <- Hp. apply Permutation_middle.
  - rewrite <- Hr in Hb. by apply Forall_cons in Hb as [_ Hb].
  - done.
Qed.
Next Obligation. intros m a size l Ho _. by exists m. Qed.
Next Obligation. intros m l l' Hp [H1 H2 H3]. split; [by rewrite <- Hp|done|done]. Qed.

Definition bump_init (n : nat) : bump := mkBump 4096 [] n.

Lemma bump_init_inv n : mem_inv (A := bump) ∅ (bump_init n).
Proof. split; [by split|apply map_Forall_empty]. Qed.

(** A packet of three buffers, "aa", "ba" and "ab", in memory with room in front. *)
Definition abc : store :=
  <[100 := mkPbuf (Some 200) [0; 0; 97; 97] 2 6 2 PBUF_RAM 0 1]>
  (<[200 := mkPbuf (Some 300) [98; 97] 0 4 2 PBUF_POOL 0 1]>
  (<[300 := mkPbuf None [97; 98; 9] 0 2 2 PBUF_ROM 0 2]>
  (<[400 := mkPbuf None [1; 2; 3] 0 3 3 PBUF_RAM 0 1]> ∅))).

Definition abc_chain : list (Z * pbuf) :=
  [(100, mkPbuf (Some 200) [0; 0; 97; 97] 2 6 2 PBUF_RAM 0 1);
   (200, mkPbuf (Some 300) [98; 97] 0 4 2 PBUF_POOL 0 1);
   (300, mkPbuf None [97; 98; 9] 0 2 2 PBUF_ROM 0 2)].

Definition single : list (Z * pbuf) := [(400, mkPbuf None [1; 2; 3] 0 3 3 PBUF_RAM 0 1)].

Lemma abc_packet : packet abc (Some 100) abc_chain.
Proof.
  split; [by repeat split|by apply (bool_decide_unpack _); vm_compute| |by repeat split|by vm_compute].
  repeat constructor; cbn; lia.
Qed.

Lemma single_packet : packet abc (Some 400) single.
Proof.
  split; [by repeat split|by apply (bool_decide_unpack _); vm_compute| |by repeat split|by vm_compute].
  repeat constructor; cbn; lia.
Qed.

Lemma pbuf_cat_header_witness :
  (exists st', pbuf_cat abc (Some 100) (Some 400) = Some st') /\
  (exists r st', pbuf_header abc (Some 100) (-2) = Some (r, st') /\ r = 0).
Proof.
  destruct (pbuf_cat_header abc 100 abc_chain 400 single (-2) abc_packet single_packet)
    as [(st' & l' & H1 & _) (r & st2 & H2 & H3 & _)].
  - intros a Ha. by apply (bool_decide_unpack (a ∉ [400]));
      repeat (apply elem_of_cons in Ha as [->|Ha]; [by vm_compute|]); apply elem_of_nil in Ha.
  - vm_compute. reflexivity.
  - vm_compute. reflexivity.
  - split; [exists st'; exact H1|]. exists r, st2. split; [exact H2|].
    apply (H3 _ eq_refl). right. left. cbn. lia.
Defined.

(** [pbuf_take] refuses data that do not fit and changes nothing; otherwise
    it overwrites the front of the packet across all its buffers and nothing else:
    [pbuf_copy_partial] then reads the data back, [pbuf_get_at] reads each of its
    bytes, and the rest of the packet, its lengths and all buffers of other
    packets are as before. *)
Theorem pbuf_take_roundtrip st p l data n off :
  packet st (Some p) l -> bytes data -> in_u16 n -> in_u16 off ->
  if (length data <=? length (contents l))%nat then
    exists st' l', pbuf_take st (Some p) data = Some (ERR_OK, st') /\ packet st' (Some p) l' /\
      contents l' = data ++ drop (length data) (contents l) /\
      (forall a, (a ∉ l.*1) -> st' !! a = st !! a) /\
      pbuf_copy_partial st' (Some p) (Z.of_nat (length data)) 0 = Some data /\
      pbuf_copy_partial st' (Some p) n off =
        Some (take (Z.to_nat n) (drop (Z.to_nat off) (contents l'))) /\
      pbuf_get_at st' (Some p) off = Some (nth (Z.to_nat off) (contents l') 0)
  else pbuf_take st (Some p) data = Some (ERR_ARG, st).
Proof.
  intros Hpk Hd Hn Ho. destruct Hpk as [Hc Hnd Hs Hl Hu].
  destruct (lens_ok_head _ _ _ Hc Hl) as (b & Hb & Ht).
  unfold pbuf_take. rewrite Hb. cbn [mbind option_bind]. rewrite Ht.
  destruct (Nat.leb_spec (length data) (length (contents l))) as [Hle|Hgt].
  - rewrite (proj2 (Z.ltb_ge _ _)) by lia. pose proof (chain_length _ _ _ Hc Hnd).
    destruct (take_loop_spec (S (size st)) st l (Some p) data Hc Hnd Hs) as
      (st' & l' & -> & Hc' & Hsh & Hcont & Hfr); [lia|done|].
    assert (NoDup l'.*1) as Hnd' by (by rewrite (shapes_fst l l')).
    pose proof (shapes_segs _ _ Hsh Hs) as Hs'. unfold in_u16 in *.
    exists st', l'. cbn [mbind option_bind]. split_and!; [done| |done|done| | |].
    + split; [done|done|done|by eapply shapes_lens|]. by rewrite (shapes_length l l').
    + rewrite (pbuf_copy_partial_spec st' (Some p) l') by (done || lia).
      rewrite Hcont, Nat2Z.id. change (Z.to_nat 0) with 0%nat. rewrite drop_0.
      by rewrite take_app_length.
    + apply pbuf_copy_partial_spec; [done..|lia|lia].
    + by apply pbuf_get_at_spec.
  - by rewrite (proj2 (Z.ltb_lt _ _)) by lia.
Qed.

Lemma pbuf_take_roundtrip_witness :
  exists st', pbuf_take abc (Some 100) [1; 2; 3; 4; 5] = Some (ERR_OK, st') /\
    pbuf_copy_partial st' (Some 100) 5 0 = Some [1; 2; 3; 4; 5].
Proof.
  destruct (pbuf_take_roundtrip abc 100 abc_chain [1; 2; 3; 4; 5] 2 1 abc_packet)
    as (st' & l' & H1 & _ & _ & _ & H5 & _).
  - solve_bytes.
  - vm_compute. split; [discriminate|reflexivity].
  - vm_compute. split; [discriminate|reflexivity].
  - exists st'. split; [exact H1|exact H5].
Defined.

(** The search in a packet is sound: a position that [pbuf_memfind] reports is
    not before the start and the pattern occurs there, across the bounds of the
    buffers.  It finds the first occurrence if every byte equal to the first byte
    of the pattern starts an occurrence (as for patterns of one byte), and always
    returns. *)
Theorem pbuf_memfind_finds st p l mem start :
  packet st (Some p) l -> (0 < length mem)%nat -> in_u16 start ->
  exists r, pbuf_memfind st p mem start = Some r /\
    (r = 0xFFFF \/ start <= r /\ occurs mem (contents l) r) /\
    ((forall k, start <= k < Z.of_nat (length (contents l)) ->
        Some (byte_at (contents l) k) = mem !! 0%nat -> occurs mem (contents l) k) ->
     forall k, start <= k -> (r = 0xFFFF \/ k < r) -> ~ occurs mem (contents l) k).
Proof.
  intros [Hc Hnd Hs Hl Hu] Hm Hst. destruct (lens_ok_head _ _ _ Hc Hl) as (b & Hb & Ht).
  unfold pbuf_memfind. rewrite Hb. cbn [mbind option_bind]. rewrite Ht. unfold in_u16 in *.
  destruct (Z.leb_spec (Z.of_nat (length mem) + start) (Z.of_nat (length (contents l)))) as [Hle|Hgt].
  - rewrite u16_small by (unfold in_u16; lia).
    destruct (memfind_loop_spec st (Some p) l mem
      (Z.of_nat (length (contents l)) - Z.of_nat (length mem))
      (S (S (Z.to_nat (Z.of_nat (length (contents l)))))) start) as (r & Hr & H1 & H2);
      [done|done|done|lia|done|done|lia|lia|lia|].
    exists r. split_and!; [done|done|]. intros Hstart. apply H2. intros k Hk Hb0 Hk'.
    apply Hstart; [lia|done].
  - exists 0xFFFF. split_and!; [done|by left|]. intros _ k Hk _ (_ & Hfit & _). lia.
Qed.

Lemma pbuf_memfind_finds_witness :
  exists r, pbuf_memfind abc 100 [98] 1 = Some r /\ r = 2.
Proof.
  destruct (pbuf_memfind_finds abc 100 abc_chain [98] 1 abc_packet) as (r & H1 & _).
  - cbn. lia.
  - vm_compute. split; [discriminate|reflexivity].
  - exists r. split; [exact H1|]. vm_compute in H1. congruence.
Defined.

(** After a partial match the search skips the bytes that matched and the one
    that did not: "ab" is not found in "aab", although it occurs at 1. *)
Lemma memfind_skips :
  pbuf_memfind (<[100 := mkPbuf None [97; 97; 98] 0 3 3 PBUF_RAM 0 1]> ∅) 100 [97; 98] 0 = Some 0xFFFF.
Proof. vm_compute. reflexivity. Qed.

(** An empty pattern at the end of the packet is found before the start. *)
Lemma memfind_empty :
  pbuf_memfind (<[100 := mkPbuf None [97; 97; 98] 0 3 3 PBUF_RAM 0 1]> ∅) 100 [] 3 = Some 2.
Proof. vm_compute. reflexivity. Qed.

Lemma sole_prefix l : exists l2, l = sole l ++ l2 /\
  match l2 with [] => True | x :: _ => ref x.2 <> 1 end.
Proof.
  induction l as [|[a b] l (l2 & IH & Hx)]; [by exists []|]. cbn [sole].
  destruct (Z.eqb_spec (ref b) 1) as [Hr|Hr]; [|by exists ((a, b) :: l)].
  exists l2. cbn. by rewrite <- IH.
Qed.

Lemma dropped_lookup l : forall st a, NoDup l.*1 ->
  (a ∈ (sole l).*1 -> dropped st l !! a = None) /\
  ((a ∉ l.*1) -> dropped st l !! a = st !! a).
Proof.
  induction l as [|[a' b] l IH]; intros st a Hnd; cbn [sole dropped].
  { split; [by intros ?%elem_of_nil|done]. }
  cbn in Hnd. apply NoDup_cons in Hnd as [Ha Hnd].
  destruct (Z.eqb_spec (ref b) 1) as [Hr|Hr].
  - destruct (IH (delete a' st) a Hnd) as [IH1 IH2]. split; cbn.
    + intros [->|Hin]%elem_of_cons; [|by apply IH1]. rewrite (proj2 (IH _ a' Hnd)) by done.
      apply lookup_delete_eq.
    + intros [Hne Hn]%not_elem_of_cons. rewrite IH2 by done. by rewrite lookup_delete_ne.
  - split; [by intros ?%elem_of_nil|]. cbn. intros [Hne _]%not_elem_of_cons.
    by rewrite lookup_insert_ne.
Qed.

Lemma dropped_rest l1 : forall st l2 a b,
  Forall (fun x => ref x.2 = 1) l1 -> NoDup (l1 ++ (a, b) :: l2).*1 -> ref b <> 1 ->
  st !! a = Some b ->
  forall a', dropped st (l1 ++ (a, b) :: l2) !! a' =
    if decide (a' ∈ l1.*1) then None
    else if decide (a' = a) then Some (set_ref (ref b - 1) b) else st !! a'.
Proof.
  induction l1 as [|[a1 b1] l1 IH]; intros st l2 a b Hr Hnd Hb Hst a'; cbn [app dropped].
  - rewrite (proj2 (Z.eqb_neq _ 1)) by done. cbn.
    destruct (decide (a' ∈ [])) as [Hin|]; [by apply elem_of_nil in Hin|].
    destruct (decide (a' = a)) as [->|]; [by rewrite lookup_insert_eq|by rewrite lookup_insert_ne].
  - apply Forall_cons in Hr as [H1 Hr]. cbn [snd] in H1. rewrite H1. cbn.
    cbn in Hnd. apply NoDup_cons in Hnd as [Hn Hnd].
    assert (a1 <> a) as Hne.
    { intros ->. apply Hn. rewrite fmap_app. apply elem_of_app. right. by constructor. }
    rewrite IH; [|done|done|done|by rewrite lookup_delete_ne].
    destruct (decide (a' ∈ l1.*1)), (decide (a' ∈ a1 :: l1.*1)) as [Hc|Hc]; try done.
    + destruct Hc. by constructor.
    + apply elem_of_cons in Hc as [->|?]; [|done]. rewrite lookup_delete_eq.
      by destruct (decide (a1 = a)).
    + destruct (decide (a' = a)); [done|]. rewrite lookup_delete_ne; [done|].
      intros ->. apply Hc. by constructor.
Qed.

Lemma sole_refs l : Forall (fun x => ref x.2 = 1) (sole l).
Proof.
  induction l as [|[a b] l IH]; [done|]. cbn [sole].
  destruct (Z.eqb_spec (ref b) 1); [by constructor|done].
Qed.

(** C29: [pbuf_free] drops one reference to a chain: the buffers at its head that
    had no other reference are given back, each to the allocator it came from and
    exactly once, the first buffer that is still referenced loses one reference
    and nothing else, and all other buffers are untouched; the result is the
    number of the buffers given back. *)
Theorem pbuf_free_refs {A} `{PbufMem A} custom_free_function st (m : A) p l :
  chain st p l -> NoDup l.*1 -> mem_inv st m -> Forall (fun x => 1 <= ref x.2 < 65536) l ->
  exists st' m' rest,
    pbuf_free custom_free_function st m p = Some (u8 (Z.of_nat (length (sole l))), st', m') /\
    mem_inv st' m' /\ l = sole l ++ rest /\
    (forall a, a ∈ (sole l).*1 -> st' !! a = None) /\
    (forall a b l2, rest = (a, b) :: l2 ->
       1 < ref b /\ st' !! a = Some (set_ref (ref b - 1) b) /\
       forall a', a' ∈ l2.*1 -> st' !! a' = st !! a') /\
    (forall a, (a ∉ l.*1) -> st' !! a = st !! a).
Proof.
  intros Hc Hnd Hm Hr.
  destruct (pbuf_free_spec custom_free_function st m p l Hc Hnd Hm Hr) as (m' & Heq & Hm').
  destruct (sole_prefix l) as (rest & Hl & Hrest).
  exists (dropped st l), m', rest. split_and!; [done|done|done| | |].
  - intros a. by apply dropped_lookup.
  - intros a b l2 ->. cbn [snd] in Hrest.
    assert (st !! a = Some b) as Hb.
    { eapply chain_lookup; [exact Hc|]. rewrite Hl. apply elem_of_app. right. by constructor. }
    assert (1 <= ref b) as Hge.
    { rewrite Hl in Hr. apply Forall_app in Hr as [_ [Hr _]%Forall_cons]. apply Hr. }
    rewrite Hl in Hnd. pose proof (dropped_rest _ st l2 a b (sole_refs l) Hnd Hrest Hb) as Hd.
    rewrite <- Hl in Hd. rewrite fmap_app in Hnd. cbn in Hnd.
    apply NoDup_app in Hnd as (_ & Hdis & [Ha _]%NoDup_cons). split_and!; [lia| |].
    + rewrite Hd. destruct (decide (a ∈ (sole l).*1)) as [Hin|].
      * destruct (Hdis a Hin). by constructor.
      * by destruct (decide (a = a)).
    + intros a' Ha'. rewrite Hd. destruct (decide (a' ∈ (sole l).*1)) as [Hin|].
      * destruct (Hdis a' Hin). by constructor.
      * destruct (decide (a' = a)) as [->|]; [done|done].
  - intros a. by apply dropped_lookup.
Qed.

(** [pbuf_alloc] of a buffer in RAM whose aligned size with headers fits the
    16-bit size type, or of a chain from a pool whose free elements do not hold the
    flag of a custom buffer in their old contents: either it fails and leaves no
    trace (a chain that was begun is given back completely), or the result is a
    packet of exactly the requested length made of new buffers with one reference
    each, with room for the headers of the lower layers in front of its payload, and
    all other buffers are untouched. *)
Theorem pbuf_alloc_packet {A} `{PbufMem A} custom_free_function st (m : A) layer length type :
  mem_inv st m -> in_u16 length ->
  (type = PBUF_RAM /\
   LWIP_MEM_ALIGN_SIZE (SIZEOF_STRUCT_PBUF + header_offset layer) + LWIP_MEM_ALIGN_SIZE length < 65536) \/
  (type = PBUF_POOL /\
   forall q c m', take_mem m MEMP_PBUF_POOL (SIZEOF_STRUCT_PBUF + PBUF_POOL_BUFSIZE_ALIGNED) =
     Some (q, c, m') -> Z.land (stale_flags c) PBUF_FLAG_IS_CUSTOM = 0) ->
  exists res st' m',
    pbuf_alloc custom_free_function st m layer length type = Some (res, st', m') /\
    match res with
    | None => st' = st /\ mem_inv st m'
    | Some p => exists l, allocated st st' m' p length layer l
    end.
Proof.
  intros Hm Hl [[-> Hsz]|[-> Hfl]].
  - destruct (pbuf_alloc_ram custom_free_function st m layer length Hm Hl Hsz)
      as (res & st' & m' & Heq & Hres).
    exists res, st', m'. split; [done|]. destruct res; [done|]. by destruct Hres as [-> ->].
  - by apply pbuf_alloc_pool.
Qed.

(** A chain of three buffers from a pool of four; a second one does not fit. *)
Lemma pbuf_alloc_packet_witness :
  exists p st' m' l,
    pbuf_alloc (fun _ m => m) ∅ (bump_init 4) PBUF_TRANSPORT 1200 PBUF_POOL = Some (Some p, st', m') /\
    allocated ∅ st' m' p 1200 PBUF_TRANSPORT l.
Proof.
  destruct (pbuf_alloc_packet (fun _ m => m) ∅ (bump_init 4) PBUF_TRANSPORT 1200 PBUF_POOL)
    as ([p|] & st' & m' & Heq & Hres).
  - apply bump_init_inv.
  - vm_compute. split; [discriminate|reflexivity].
  - right. split; [reflexivity|]. intros q c m' Htake. vm_compute in Htake.
    injection Htake as _ <- _. reflexivity.
  - destruct Hres as [l Hl]. exists p, st', m', l. split; [exact Heq|exact Hl].
  - exfalso. assert ((fun r => r.1.1) <$> pbuf_alloc (fun _ (m : bump) => m) ∅ (bump_init 4)
      PBUF_TRANSPORT 1200 PBUF_POOL = Some (Some 4096)) as Hv by (vm_compute; reflexivity).
    rewrite Heq in Hv. discriminate Hv.
Defined.

Definition two_refs : store :=
  <[100 := mkPbuf (Some 200) [] 0 0 0 PBUF_RAM 0 1]>
  (<[200 := mkPbuf None [] 0 0 0 PBUF_ROM 0 2]> ∅).

Lemma pbuf_free_refs_witness :
  exists st' m', pbuf_free (fun _ m => m) two_refs
      (mkBump 4096 [(MEM_HEAP, 100); (MEMP_PBUF, 200)] 3) (Some 100) = Some (1, st', m') /\
    st' !! 100 = None.
Proof.
  destruct (pbuf_free_refs (fun _ m => m) two_refs
    (mkBump 4096 [(MEM_HEAP, 100); (MEMP_PBUF, 200)] 3) (Some 100)
    [(100, mkPbuf (Some 200) [] 0 0 0 PBUF_RAM 0 1); (200, mkPbuf None [] 0 0 0 PBUF_ROM 0 2)])
    as (st' & m' & rest & Heq & _ & _ & Hgone & _).
  - repeat split.
  - apply (bool_decide_unpack _). vm_compute. exact I.
  - split.
    + split; [vm_compute; reflexivity|repeat constructor; cbn; lia|reflexivity].
    + apply (bool_decide_unpack _). vm_compute. exact I.
  - repeat constructor; cbn; lia.
  - exists st', m'. split; [exact Heq|]. apply Hgone. cbn. constructor.
Defined.

(** The size of a buffer in RAM is converted to 16 bits: a request of 65500 bytes
    gets a block of 36 bytes, of which 20 are behind the structure. *)
Lemma alloc_ram_wraps :
  (r ← pbuf_alloc (fun _ (m : bump) => m) ∅ (bump_init 4) PBUF_TRANSPORT 65500 PBUF_RAM;
   p ← r.1.1; b ← r.1.2 !! p; Some (len b, Z.of_nat (length (buf b)))) = Some (65500, 20).
Proof. vm_compute. reflexivity. Qed.

End Pbuf.
