(* ===== verification/Packet.v ===== *)
(** * Packets of the IP layers and the IP header (lwip/ip.h, lwip/pbuf.h)

    The layers above the packet buffers use a packet through a handful of
    operations.  Here a packet is the value of its chain: the bytes of each
    buffer from its payload pointer on, and the bytes that lie between the start
    of the first buffer's memory and its payload pointer, into which headers are
    written.  [Pbuf] models the chains themselves in memory.  The structures of
    the IP header are records with the fields of the C structure, as they are
    loaded on the little-endian host, with their bytes in memory. *)

From S2P Require Import Prelude LwipDef InetChksum IpAddr.

#[local] Open Scope Z_scope.

Module Packet.
Import LwipDef InetChksum IpAddr.

(** ** Packets *)

Record pbuf := mkPbuf { before : list Z; segs : list (list Z) }.

Definition data (p : pbuf) : list Z := mjoin (segs p).
Definition tot_len (p : pbuf) : Z := u16 (Z.of_nat (length (data p))).
Definition first (p : pbuf) : list Z := hd [] (segs p).
Definition plen (p : pbuf) : Z := Z.of_nat (length (first p)).

(** [pbuf_clen] counts in eight bits. *)
Definition pbuf_clen (p : pbuf) : Z := u8 (Z.of_nat (length (segs p))).

(** [pbuf_header]: [None] when it returns 1 and leaves the packet as it is. *)
Definition pbuf_header (p : pbuf) (header_size_increment : Z) : option pbuf :=
  match segs p with
  | [] => None
  | s :: l =>
      if header_size_increment =? 0 then Some p
      else if header_size_increment <? 0 then
        let n := Z.to_nat (- header_size_increment) in
        if (n <=? length s)%nat then Some (mkPbuf (before p ++ take n s) (drop n s :: l)) else None
      else
        let n := Z.to_nat header_size_increment in
        if (n <=? length (before p))%nat
        then Some (mkPbuf (take (length (before p) - n) (before p))
                     ((drop (length (before p) - n) (before p) ++ s) :: l))
        else None
  end.

(** [pbuf_realloc]: the buffers up to the one that holds the last byte, which
    is cut. *)
Fixpoint trim (rem_len : nat) (l : list (list Z)) : list (list Z) :=
  match l with
  | [] => []
  | s :: l => if (length s <? rem_len)%nat then s :: trim (rem_len - length s) l else [take rem_len s]
  end.
Definition pbuf_realloc (p : pbuf) (new_len : Z) : pbuf :=
  if tot_len p <=? new_len then p else mkPbuf (before p) (trim (Z.to_nat new_len) (segs p)).

Definition pbuf_cat (h t : pbuf) : pbuf := mkPbuf (before h) (segs h ++ segs t).

(** [pbuf_copy] into a single buffer of the same total length: the buffer, or
    [None] when an empty buffer at the end of the chain makes it return an
    error. *)
Definition pbuf_copy (p_to p_from : pbuf) : option pbuf :=
  match last (segs p_from) with
  | Some [] => if (length (segs p_from) =? 1)%nat then Some (mkPbuf (before p_to) [data p_from]) else None
  | _ => Some (mkPbuf (before p_to) [data p_from])
  end.
Definition pbuf_chain (h t : pbuf) : pbuf := mkPbuf (before h) (segs h ++ segs t).

(** Bytes written over others at an index. *)
Definition write_at (n : nat) (d b : list Z) : list Z := take n b ++ d ++ drop (n + length d) b.

(** Bytes written over the first ones of the payload. *)
Definition write_first (d : list Z) (p : pbuf) : pbuf :=
  match segs p with
  | [] => p
  | s :: l => mkPbuf (before p) ((d ++ drop (length d) s) :: l)
  end.

(** The chain as the checksum functions see it; the addresses of the payloads do
    not matter ([InetChksum.chksum_algorithms_agree]). *)
Definition segments (p : pbuf) : list segment := Seg 0 <$> segs p.

(** ** The IP header *)

Definition IP_HLEN : Z := 20.
Definition IP_RF : Z := 0x8000.
Definition IP_DF : Z := 0x4000.
Definition IP_MF : Z := 0x2000.
Definition IP_OFFMASK : Z := 0x1fff.
Definition IP_PROTO_ICMP : Z := 1.
Definition IP_PROTO_IGMP : Z := 2.
Definition IP_PROTO_UDP : Z := 17.
Definition IP_PROTO_UDPLITE : Z := 136.
Definition IP_PROTO_TCP : Z := 6.

Record ip_hdr := mkIpHdr {
  _v_hl : Z; _tos : Z; _len : Z; _id : Z; _offset : Z; _ttl : Z; _proto : Z; _chksum : Z;
  src : Z; dest : Z
}.

(** A 16-bit field in memory. *)
Definition bytes16 (x : Z) : list Z := [u8 x; u8 (Z.shiftr x 8)].
Definition get16 (b : list Z) (i : nat) : Z := le16 (nth i b 0) (nth (S i) b 0).

Definition ip_hdr_bytes (h : ip_hdr) : list Z :=
  [u8 (_v_hl h); u8 (_tos h)] ++ bytes16 (_len h) ++ bytes16 (_id h) ++ bytes16 (_offset h) ++
  [u8 (_ttl h); u8 (_proto h)] ++ bytes16 (_chksum h) ++ ip_bytes (src h) ++ ip_bytes (dest h).
Definition ip_hdr_of (b : list Z) : ip_hdr :=
  mkIpHdr (nth 0 b 0) (nth 1 b 0) (get16 b 2) (get16 b 4) (get16 b 6) (nth 8 b 0) (nth 9 b 0)
    (get16 b 10) (ip_of (drop 12 b)) (ip_of (drop 16 b)).

(** The header at the payload of a packet; no result when the first buffer does
    not hold all of it. *)
Definition ip_hdr_at (p : pbuf) : option ip_hdr :=
  if IP_HLEN <=? plen p then Some (ip_hdr_of (first p)) else None.
Definition put_ip_hdr (h : ip_hdr) (p : pbuf) : pbuf := write_first (ip_hdr_bytes h) p.

Definition IPH_V (h : ip_hdr) : Z := Z.shiftr (_v_hl h) 4.
Definition IPH_HL (h : ip_hdr) : Z := Z.land (_v_hl h) 0x0f.
Definition IPH_LEN_SET (x : Z) (h : ip_hdr) : ip_hdr :=
  mkIpHdr (_v_hl h) (_tos h) (u16 x) (_id h) (_offset h) (_ttl h) (_proto h) (_chksum h) (src h) (dest h).
Definition IPH_OFFSET_SET (x : Z) (h : ip_hdr) : ip_hdr :=
  mkIpHdr (_v_hl h) (_tos h) (_len h) (_id h) (u16 x) (_ttl h) (_proto h) (_chksum h) (src h) (dest h).
Definition IPH_CHKSUM_SET (x : Z) (h : ip_hdr) : ip_hdr :=
  mkIpHdr (_v_hl h) (_tos h) (_len h) (_id h) (_offset h) (_ttl h) (_proto h) (u16 x) (src h) (dest h).

(** The two assignments that give a header its checksum. *)
Definition with_chksum (h : ip_hdr) : ip_hdr :=
  let h := IPH_CHKSUM_SET 0 h in
  IPH_CHKSUM_SET (inet_chksum 0 (ip_hdr_bytes h)) h.

(** ** Facts *)

Lemma mjoin_cons {A} (x : list A) l : mjoin (x :: l) = x ++ mjoin l.
Proof. done. Qed.

Record hdr_ok (h : ip_hdr) : Prop := {
  ok_vhl : in_u8 (_v_hl h); ok_tos : in_u8 (_tos h); ok_len : in_u16 (_len h); ok_id : in_u16 (_id h);
  ok_offset : in_u16 (_offset h); ok_ttl : in_u8 (_ttl h); ok_proto : in_u8 (_proto h);
  ok_chksum : in_u16 (_chksum h); ok_src : in_u32 (src h); ok_dest : in_u32 (dest h)
}.

Lemma get_bytes16 x : in_u16 x -> le16 (u8 x) (u8 (Z.shiftr x 8)) = x.
Proof.
  intros Hx. unfold le16. rewrite Z.shiftr_div_pow2 by lia. change (2 ^ 8) with 256. zlia.
Qed.
Lemma bytes16_get a b : in_u8 a -> in_u8 b -> bytes16 (le16 a b) = [a; b].
Proof.
  intros Ha Hb. unfold bytes16, le16. rewrite Z.shiftr_div_pow2 by lia. change (2 ^ 8) with 256.
  repeat f_equal; zlia.
Qed.
Lemma get16_range b i : bytes b -> in_u16 (get16 b i).
Proof.
  intros Hb. unfold get16, le16.
  assert (H : forall j, in_u8 (nth j b 0)).
  { intros j. destruct (decide (j < length b)%nat) as [Hj|Hj].
    - apply (proj1 (List.Forall_forall _ _) Hb), nth_In, Hj.
    - rewrite nth_overflow by lia. zlia. }
  pose proof (H i). pose proof (H (S i)). zlia.
Qed.

Lemma length_ip_hdr_bytes h : length (ip_hdr_bytes h) = 20%nat.
Proof. done. Qed.
Lemma ip_hdr_bytes_bytes h : bytes (ip_hdr_bytes h).
Proof.
  unfold ip_hdr_bytes, bytes16.
  repeat apply Forall_app_2; try apply ip_bytes_bytes; solve_bytes.
Qed.

Lemma nth_u8 b i : bytes b -> in_u8 (nth i b 0).
Proof.
  intros Hb. destruct (decide (i < length b)%nat) as [Hj|Hj].
  - apply (proj1 (List.Forall_forall _ _) Hb), nth_In, Hj.
  - rewrite nth_overflow by lia. zlia.
Qed.
Lemma ip_of_range b : bytes b -> in_u32 (ip_of b).
Proof.
  intros Hb. unfold ip_of. pose proof (nth_u8 b 0 Hb). pose proof (nth_u8 b 1 Hb).
  pose proof (nth_u8 b 2 Hb). pose proof (nth_u8 b 3 Hb). zlia.
Qed.

Lemma hdr_of_bytes h rest : hdr_ok h -> ip_hdr_of (ip_hdr_bytes h ++ rest) = h.
Proof.
  intros [H1 H2 H3 H4 H5 H6 H7 H8 H9 H10]. destruct h as [a b c d e f g i s t].
  cbn [_v_hl _tos _len _id _offset _ttl _proto _chksum src dest] in *.
  unfold ip_hdr_bytes, bytes16, ip_hdr_of, get16.
  cbn [app nth drop _v_hl _tos _len _id _offset _ttl _proto _chksum src dest ip_bytes].
  rewrite (u8_small a), (u8_small b), (u8_small f), (u8_small g), !get_bytes16 by done.
  f_equal; unfold ip_of; cbn [nth]; [apply (ip_of_bytes s) | apply (ip_of_bytes t)]; done.
Qed.

Lemma hdr_of_ok b : bytes b -> hdr_ok (ip_hdr_of b).
Proof.
  intros Hb. unfold ip_hdr_of.
  split; cbn; auto using nth_u8, get16_range; by apply ip_of_range, Forall_drop.
Qed.

Lemma ip_bytes_of a b c d : in_u8 a -> in_u8 b -> in_u8 c -> in_u8 d ->
  ip_bytes (a + 256 * b + 65536 * c + 16777216 * d) = [a; b; c; d].
Proof.
  intros Ha Hb Hc Hd. unfold ip_bytes. rewrite !Z.shiftr_div_pow2 by lia.
  change (2 ^ 8) with 256. change (2 ^ 16) with 65536. change (2 ^ 24) with 16777216.
  repeat f_equal; zlia.
Qed.

Lemma bytes_of_hdr b : bytes b -> (20 <= length b)%nat -> ip_hdr_bytes (ip_hdr_of b) = take 20 b.
Proof.
  intros Hb Hl. do 20 (destruct b as [|? b]; [cbn in Hl; lia|]).
  unfold bytes in Hb. rewrite !Forall_cons in Hb. destruct_and! Hb.
  unfold ip_hdr_bytes, ip_hdr_of, get16. cbn [nth drop take _v_hl _tos _len _id _offset _ttl _proto _chksum src dest].
  rewrite !bytes16_get, !u8_small by done. unfold ip_of. cbn [nth].
  by rewrite !ip_bytes_of by done.
Qed.

Lemma first_data p n : (n <= length (first p))%nat -> take n (data p) = take n (first p).
Proof.
  unfold data, first. destruct (segs p) as [|s l]; cbn; [by rewrite take_nil|].
  intros. rewrite take_app_le by lia. done.
Qed.

Lemma hdr_bytes_chksum c h : in_u16 c ->
  ip_hdr_bytes (IPH_CHKSUM_SET c h) =
    take 10 (ip_hdr_bytes h) ++ [u8 c; c / 256] ++ drop 12 (ip_hdr_bytes h).
Proof.
  intros Hc. unfold IPH_CHKSUM_SET, ip_hdr_bytes, bytes16.
  cbn [_v_hl _tos _len _id _offset _ttl _proto _chksum src dest ip_bytes app take drop].
  rewrite (u16_small c Hc), (Z.shiftr_div_pow2 c 8) by lia. change (2 ^ 8) with 256.
  by rewrite (u8_small (c / 256)) by zlia.
Qed.
Lemma set_chksum_twice x y h : IPH_CHKSUM_SET x (IPH_CHKSUM_SET y h) = IPH_CHKSUM_SET x h.
Proof. done. Qed.
Lemma inet_chksum_range addr d : in_u16 (inet_chksum addr d).
Proof. apply u16_range. Qed.

(** A header with the checksum of [with_chksum] verifies. *)
Lemma chksum_ok addr h : inet_chksum addr (ip_hdr_bytes (with_chksum h)) = 0.
Proof.
  unfold with_chksum. rewrite set_chksum_twice.
  rewrite (hdr_bytes_chksum (inet_chksum _ _)) by apply inet_chksum_range.
  rewrite (hdr_bytes_chksum 0) by done.
  apply (chksum_roundtrip 0 addr (take 10 (ip_hdr_bytes h)) (drop 12 (ip_hdr_bytes h))).
  - apply Forall_take, ip_hdr_bytes_bytes.
  - apply Forall_drop, ip_hdr_bytes_bytes.
  - done.
  - rewrite length_take, length_drop, length_ip_hdr_bytes. lia.
Qed.

Lemma pbuf_header_inv q x q' : pbuf_header q x = Some q' -> pbuf_header q' (- x) = Some q.
Proof.
  unfold pbuf_header. destruct q as [b [|s l]]; cbn [segs before]; [done|].
  destruct (Z.eqb_spec x 0) as [->|Hx].
  { intros [= <-]. done. }
  destruct (Z.ltb_spec x 0) as [Hn|Hp].
  - destruct (Nat.leb_spec (Z.to_nat (- x)) (length s)) as [Hl|]; [|done]. intros [= <-]. cbn [segs before].
    destruct (Z.eqb_spec (- x) 0); [lia|]. destruct (Z.ltb_spec (- x) 0); [lia|].
    rewrite length_app, length_take. destruct (Nat.leb_spec (Z.to_nat (- x)) (length b + min (Z.to_nat (- x)) (length s))); [|lia].
    replace (length b + min (Z.to_nat (- x)) (length s) - Z.to_nat (- x))%nat with (length b) by lia.
    rewrite take_app_length, drop_app_length, take_drop. done.
  - destruct (Nat.leb_spec (Z.to_nat x) (length b)) as [Hl|]; [|done]. intros [= <-]. cbn [segs before].
    destruct (Z.eqb_spec (- x) 0); [lia|]. destruct (Z.ltb_spec (- x) 0); [|lia]. rewrite Z.opp_involutive.
    set (k := Z.to_nat x) in *. assert (Hd : length (drop (length b - k) b) = k) by (rewrite length_drop; lia).
    rewrite length_app, Hd. destruct (Nat.leb_spec k (k + length s)); [|lia].
    rewrite (take_app_length' _ s k), (drop_app_length' _ s k) by done. by rewrite take_drop.
Qed.

Lemma chain_data_segments q : chain_data (segments q) = data q.
Proof. unfold segments, chain_data, data. induction (segs q) as [|s l IH]; [done|]. cbn. by rewrite IH. Qed.

(** The checksum of a packet is the one of its bytes. *)
Lemma seg_ok_segments q : bytes (data q) -> Z.of_nat (length (data q)) <= 65535 -> Forall seg_ok (segments q).
Proof.
  unfold data, segments. induction (segs q) as [|s l IH]; [constructor|].
  rewrite mjoin_cons, length_app. intros Hb Hl. apply Forall_app in Hb as [Hs Hb]. constructor.
  - split; [done|]. unfold len. cbn [payload]. lia.
  - apply IH; [done|lia].
Qed.
Lemma chksum_pbuf_data q addr :
  bytes (data q) -> Z.of_nat (length (data q)) <= 65535 ->
  inet_chksum_pbuf (segments q) = inet_chksum addr (data q).
Proof.
  intros Hb Hl. rewrite <- chain_data_segments. rewrite (inet_chksum_pbuf_concat _ addr); [done| |].
  - by apply seg_ok_segments.
  - by rewrite chain_data_segments.
Qed.

(** Hiding the first [n] bytes. *)
Lemma pbuf_strip q n :
  0 < n <= plen q ->
  exists p, pbuf_header q (- n) = Some p /\ data p = drop (Z.to_nat n) (data q) /\
    first p = drop (Z.to_nat n) (first q) /\ length (before p) = (length (before q) + Z.to_nat n)%nat /\
    last (segs p) = (if decide (length (segs q) = 1%nat) then Some (drop (Z.to_nat n) (first q)) else last (segs q)) /\
    length (segs p) = length (segs q).
Proof.
  intros Hn. unfold plen, first in *. unfold pbuf_header, data. destruct (segs q) as [|s l] eqn:Es; cbn [hd length] in *; [lia|].
  destruct (Z.eqb_spec (- n) 0); [lia|]. destruct (Z.ltb_spec (- n) 0); [|lia]. rewrite Z.opp_involutive.
  destruct (Nat.leb_spec (Z.to_nat n) (length s)); [|lia]. eexists. split; [done|]. cbn [segs before hd].
  rewrite !mjoin_cons, drop_app_le, length_app, length_take by lia.
  split; [done|]. split; [done|]. split; [lia|]. split; [|done].
  destruct l as [|x l]; [done|]. rewrite decide_False by (cbn; lia). done.
Qed.

Lemma bytes16_bytes x : bytes (bytes16 x).
Proof. unfold bytes16. apply Forall_cons_2; [apply u8_range|]. apply Forall_cons_2; [apply u8_range|constructor]. Qed.
Lemma bytes_pair a b l : in_u8 a -> in_u8 b -> bytes l -> bytes ([a; b] ++ l).
Proof. intros Ha Hb Hl. apply Forall_cons_2; [done|]. by apply Forall_cons_2. Qed.

Lemma inet_chksum_zero addr D : bytes D -> Z.of_nat (length D) <= 131000 ->
  inet_chksum addr D = 0 <-> (wsum false D mod 65535 = 0 /\ wsum false D <> 0).
Proof.
  intros Hb Hl. unfold inet_chksum, LWIP_CHKSUM. rewrite chksum_2_oc by done.
  pose proof (wsum_nonneg false D Hb) as Hn. destruct (oc_spec _ Hn) as (Hr & Hm & Hz).
  rewrite lnot_u16 by (unfold in_u16; lia). split.
  - intros E. assert (Eo : oc (wsum false D) = 65535) by lia. rewrite Eo in *. split; [rewrite <- Hm; done|lia].
  - intros [Em Enz]. rewrite Em in Hm. assert (oc (wsum false D) <> 0) by tauto. zlia.
Qed.

(** The checksum that is computed over a zero field, with 0xffff in place of 0,
    verifies in the field. *)
Lemma chksum_field_verifies addr addr' pre post :
  bytes pre -> bytes post -> Nat.odd (length pre) = false -> Z.of_nat (length pre + length post) <= 65000 ->
  let c0 := inet_chksum addr (pre ++ [0; 0] ++ post) in
  inet_chksum addr' (pre ++ bytes16 (if c0 =? 0 then 0xffff else c0) ++ post) = 0.
Proof.
  intros Hpre Hpost Hev Hl c0. destruct (Z.eqb_spec c0 0) as [Hz|Hz].
  - assert (H00 : bytes (pre ++ [0; 0] ++ post)).
    { apply Forall_app_2; [done|]. apply (bytes_pair 0 0 post); done. }
    assert (Hff : bytes (pre ++ bytes16 0xffff ++ post)).
    { apply Forall_app_2; [done|]. apply Forall_app_2; [apply bytes16_bytes|done]. }
    apply inet_chksum_zero; [done|rewrite !length_app; cbn; lia|].
    unfold c0 in Hz. apply inet_chksum_zero in Hz as [Hm Hn]; [|done|rewrite !length_app; cbn; lia].
    assert (Hev2 : xorb false (Nat.odd (length pre)) = false) by (by rewrite Hev).
    change (bytes16 0xffff) with [255; 255].
    rewrite !(wsum_app false pre), Hev2 in *. cbn [app] in *. rewrite !wsum_even_le16 in *. unfold le16 in *.
    pose proof (wsum_nonneg false pre Hpre). pose proof (wsum_nonneg false post Hpost). split; [|lia].
    replace (wsum false pre + (255 + 256 * 255 + wsum false post)) with (wsum false pre + (0 + 256 * 0 + wsum false post) + 1 * 65535) by lia.
    by rewrite Z.mod_add by lia.
  - pose proof (inet_chksum_range addr (pre ++ [0; 0] ++ post)) as Hr. fold c0 in Hr.
    assert (E : bytes16 c0 = [u8 c0; c0 / 256]).
    { unfold bytes16. rewrite Z.shiftr_div_pow2 by lia. change (2 ^ 8) with 256. by rewrite (u8_small (c0 / 256)) by zlia. }
    rewrite E. by apply (chksum_roundtrip addr addr' pre post).
Qed.

(** Two headers hidden one after the other. *)
Lemma pbuf_header_twice q a b q1 q2 :
  0 < a -> 0 < b -> pbuf_header q (- a) = Some q1 -> pbuf_header q1 (- b) = Some q2 ->
  pbuf_header q (- (a + b)) = Some q2.
Proof.
  intros Ha Hb. unfold pbuf_header. destruct (segs q) as [|s l]; [done|].
  destruct (Z.eqb_spec (- a) 0); [lia|]. destruct (Z.ltb_spec (- a) 0); [|lia].
  destruct (Z.eqb_spec (- (a + b)) 0); [lia|]. destruct (Z.ltb_spec (- (a + b)) 0); [|lia]. rewrite !Z.opp_involutive.
  destruct (Nat.leb_spec (Z.to_nat a) (length s)) as [Hl|]; [|done]. intros [= <-]. cbn [segs before].
  destruct (Z.eqb_spec (- b) 0); [lia|]. destruct (Z.ltb_spec (- b) 0); [|lia].
  rewrite length_drop. destruct (Nat.leb_spec (Z.to_nat b) (length s - Z.to_nat a)) as [Hl2|]; [|done]. intros [= <-].
  rewrite Z2Nat.inj_add by lia. destruct (Nat.leb_spec (Z.to_nat a + Z.to_nat b) (length s)); [|lia].
  rewrite drop_drop, <- app_assoc, take_take_drop. done.
Qed.

End Packet.
