(* ===== verification/IpFrag.v ===== *)
(** * Fragmentation and reassembly of IP datagrams (ip/lwip/core/ip_frag.c)

    [ip_reass] collects the fragments of datagrams in the list [reassdatagrams];
    the timer gives incomplete datagrams up, and a full queue drives out the
    oldest one.  [ip_frag] cuts a datagram into pieces of the size of the
    interface.  The helper that [ip_reass] writes over the header of a stored
    fragment is a record next to the packet ([frag]): the header is not read
    before it is written again or hidden.  Packets that are freed or reported to
    the sender are events.  The entries come from a pool ([Memp.Pool]). *)

From Stdlib Require Import Sorting.Sorted.
From S2P Require Import Prelude LwipDef InetChksum IpAddr Memp Packet.

#[local] Open Scope Z_scope.

Module IpFrag.
Import LwipDef InetChksum Packet.

Definition ERR_OK : Z := 0.
Definition ERR_MEM : Z := -1.

Definition IP_REASS_MAXAGE : Z := 3.
Definition IP_REASS_MAX_PBUFS : Z := 10.
Definition IP_REASS_FLAG_LASTFRAG : Z := 1.

(** [struct ip_reass_helper] with the packet it lies in; [next_pbuf] is the
    order of the list. *)
Record frag := mkFrag { start : Z; fend : Z; fp : pbuf }.

(** [struct ip_reassdata], with its address in the pool. *)
Record reassdata := mkReass {
  node : Z;
  p : list frag;
  iphdr : ip_hdr;
  datagram_len : Z;
  flags : Z;
  timer : Z
}.

Inductive event :=
  | Free (q : pbuf)
  | IcmpTimeExceeded (q : pbuf).

Definition IP_ADDRESSES_AND_ID_MATCH (a b : ip_hdr) : bool :=
  (src a =? src b) && (dest a =? dest b) && (_id a =? _id b).

(** The fragment's offset and length in bytes. *)
Definition frag_offset (h : ip_hdr) : Z := u16 (Z.land (lwip_ntohs (_offset h)) IP_OFFMASK * 8).
Definition frag_len (h : ip_hdr) : Z := u16 (lwip_ntohs (_len h) - IPH_HL h * 4).
Definition more_fragments (h : ip_hdr) : bool :=
  negb (Z.land (_offset h) (lwip_htons IP_MF) =? 0).

Definition set_p (l : list frag) (r : reassdata) : reassdata :=
  mkReass (node r) l (iphdr r) (datagram_len r) (flags r) (timer r).
Definition set_iphdr (h : ip_hdr) (r : reassdata) : reassdata :=
  mkReass (node r) (p r) h (datagram_len r) (flags r) (timer r).
Definition set_timer (t : Z) (r : reassdata) : reassdata :=
  mkReass (node r) (p r) (iphdr r) (datagram_len r) (flags r) t.
Definition set_last (n : Z) (r : reassdata) : reassdata :=
  mkReass (node r) (p r) (iphdr r) n (Z.lor (flags r) IP_REASS_FLAG_LASTFRAG) (timer r).

(** ** Placing a fragment

    The walk of [ip_reass_chain_frag_into_datagram_and_validate]: the fragments
    before and behind the new one, and [valid]; [None]: the fragment is thrown
    away.  [prev] is [iprh_prev]. *)
Fixpoint place (new : frag) (prev : option frag) (l : list frag) (valid : bool)
    : option (list frag * list frag * bool) :=
  match l with
  | [] =>
      Some ([], [], match prev with
                    | Some pr => if fend pr =? start new then valid else false
                    | None => valid
                    end)
  | q :: l' =>
      if start new <? start q then
        match prev with
        | Some pr =>
            if (start new <? fend pr) || (start q <? fend new) then None else Some ([], l, valid)
        | None => Some ([], l, valid)
        end
      else if start new =? start q then None
      else if start new <? fend q then None
      else
        let valid := match prev with
                     | Some pr => if fend pr =? start q then valid else false
                     | None => valid
                     end in
        '(l1, l2, v) ← place new (Some q) l' valid;
        Some (q :: l1, l2, v)
  end.

(** "check that there are no wholes after this datagram" *)
Fixpoint no_wholes (prev : frag) (l : list frag) : bool :=
  match l with
  | [] => true
  | q :: l => if fend prev =? start q then no_wholes q l else false
  end.

(** [ip_reass_chain_frag_into_datagram_and_validate] on the entry; the new list
    of fragments and the result, or [None] when the fragment is freed. *)
Definition chain_frag (ipr : reassdata) (new_p : pbuf) (fraghdr : ip_hdr)
    : option (list frag * bool) :=
  let offset := frag_offset fraghdr in
  let len := frag_len fraghdr in
  let new := mkFrag offset (u16 (offset + len)) new_p in
  '(l1, l2, valid) ← place new None (p ipr) true;
  let l := l1 ++ new :: l2 in
  Some (l, if Z.land (flags ipr) IP_REASS_FLAG_LASTFRAG =? 0 then false
           else if (valid : bool) then
             (match l with f :: _ => start f =? 0 | [] => false end) && no_wholes new l2
           else false).

(** The datagram put together from the fragments: the header goes back to the
    first, the headers of the others are hidden. *)
Fixpoint cat_all (q : pbuf) (l : list frag) : pbuf :=
  match l with
  | [] => q
  | f :: l => cat_all (pbuf_cat q (default (fp f) (pbuf_header (fp f) (- IP_HLEN)))) l
  end.
Definition datagram_hdr (h : ip_hdr) (datagram_len : Z) : ip_hdr :=
  with_chksum (IPH_OFFSET_SET 0 (IPH_LEN_SET (lwip_htons datagram_len) h)).

(** ** The queue of datagrams *)

Section reass.
Context {P : Type} `{Pool P}.

Record reass := mkState {
  reassdatagrams : list reassdata;
  ip_reass_pbufcount : Z;
  pool : P;
  events : list event
}.
Definition with_list (l : list reassdata) (st : reass) : reass :=
  mkState l (ip_reass_pbufcount st) (pool st) (events st).
Definition with_count (n : Z) (st : reass) : reass :=
  mkState (reassdatagrams st) n (pool st) (events st).
Definition with_pool (m : P) (st : reass) : reass :=
  mkState (reassdatagrams st) (ip_reass_pbufcount st) m (events st).
Definition emit (e : list event) (st : reass) : reass :=
  mkState (reassdatagrams st) (ip_reass_pbufcount st) (pool st) (events st ++ e).

(** [prev->next = ipr->next].  There is no result when [prev] is null or not the
    predecessor of [ipr]: the entry would stay in the list, or others be lost. *)
Fixpoint unlink_after (prev n : Z) (l : list reassdata) : option (list reassdata) :=
  match l with
  | x :: l' =>
      if node x =? prev then
        match l' with
        | y :: l'' => if node y =? n then Some (x :: l'') else None
        | [] => None
        end
      else (x ::.) <$> unlink_after prev n l'
  | [] => None
  end.

(** [ip_reass_dequeue_datagram] *)
Definition ip_reass_dequeue_datagram (ipr : Z) (prev : option Z) (st : reass) : option reass :=
  l ← match reassdatagrams st with
      | x :: l => if node x =? ipr then Some l
                  else match prev with Some pr => unlink_after pr ipr (x :: l) | None => None end
      | [] => None
      end;
  m ← release (pool st) ipr;
  Some (with_pool m (with_list l st)).

(** The loop over the fragments of a datagram that is given up. *)
Fixpoint free_frags (l : list frag) (pbufs_freed : Z) : list event * Z :=
  match l with
  | [] => ([], pbufs_freed)
  | f :: l =>
      let '(e, n) := free_frags l (u16 (pbufs_freed + pbuf_clen (fp f))) in
      (Free (fp f) :: e, n)
  end.

(** [ip_reass_free_complete_datagram]; the list of fragments is read without a
    test for null. *)
Definition ip_reass_free_complete_datagram (ipr : reassdata) (prev : option Z) (st : reass)
    : option (Z * reass) :=
  match p ipr with
  | [] => None
  | f :: l =>
      let '(e, pbufs_freed) :=
        if start f =? 0 then
          let q := put_ip_hdr (iphdr ipr) (fp f) in
          let '(e, n) := free_frags l (u16 (0 + pbuf_clen q)) in
          (IcmpTimeExceeded q :: Free q :: e, n)
        else free_frags (f :: l) 0 in
      st ← ip_reass_dequeue_datagram (node ipr) prev (emit e st);
      Some (pbufs_freed, with_count (u16 (ip_reass_pbufcount st - pbufs_freed)) st)
  end.

(** [ip_reass_tmr]: the walk over the list as it was. *)
Fixpoint tmr_loop (l : list reassdata) (prev : option Z) (st : reass) : option reass :=
  match l with
  | [] => Some st
  | r :: l =>
      if 0 <? timer r then
        let r := set_timer (timer r - 1) r in
        tmr_loop l (Some (node r))
          (with_list ((fun x => if node x =? node r then r else x) <$> reassdatagrams st) st)
      else
        '(_, st) ← ip_reass_free_complete_datagram r prev st;
        tmr_loop l prev st
  end.
Definition ip_reass_tmr (st : reass) : option reass := tmr_loop (reassdatagrams st) None st.

(** The search of [ip_reass_remove_oldest_datagram]: the oldest datagram, [prev]
    and the number of datagrams that are not the fragment's own. *)
Fixpoint find_oldest (fraghdr : ip_hdr) (l : list reassdata)
    (oldest : option reassdata) (prev : option Z) (other_datagrams : Z)
    : option reassdata * option Z * Z :=
  match l with
  | [] => (oldest, prev, other_datagrams)
  | r :: l' =>
      let own := IP_ADDRESSES_AND_ID_MATCH (iphdr r) fraghdr in
      let other_datagrams := if own then other_datagrams else other_datagrams + 1 in
      let oldest := if own then oldest
                    else match oldest with
                         | None => Some r
                         | Some o => if timer r <=? timer o then Some r else oldest
                         end in
      let prev := match l' with _ :: _ => Some (node r) | [] => prev end in
      find_oldest fraghdr l' oldest prev other_datagrams
  end.

(** The [do] loop; each round but the last gives up a datagram, so that the
    length of the list is enough [fuel]. *)
Fixpoint remove_loop (fuel : nat) (fraghdr : ip_hdr) (pbufs_needed pbufs_freed : Z) (st : reass)
    : option (Z * reass) :=
  match fuel with
  | O => None
  | S fuel =>
      let '(oldest, prev, other_datagrams) := find_oldest fraghdr (reassdatagrams st) None None 0 in
      '(pbufs_freed, st) ←
        match oldest with
        | Some o => '(n, st) ← ip_reass_free_complete_datagram o prev st; Some (pbufs_freed + n, st)
        | None => Some (pbufs_freed, st)
        end;
      if (pbufs_freed <? pbufs_needed) && (1 <? other_datagrams)
      then remove_loop fuel fraghdr pbufs_needed pbufs_freed st
      else Some (pbufs_freed, st)
  end.
Definition ip_reass_remove_oldest_datagram (fraghdr : ip_hdr) (pbufs_needed : Z) (st : reass)
    : option (Z * reass) :=
  remove_loop (S (length (reassdatagrams st))) fraghdr pbufs_needed 0 st.

(** [ip_reass_enqueue_new_datagram]: the new entry, at the front of the list. *)
Definition new_datagram (a : Z) (fraghdr : ip_hdr) : reassdata :=
  mkReass a [] fraghdr 0 0 IP_REASS_MAXAGE.
Definition ip_reass_enqueue_new_datagram (fraghdr : ip_hdr) (clen : Z) (st : reass)
    : option (option reassdata * reass) :=
  '(a, st) ←
    match alloc (pool st) with
    | Some (a, m) => Some (Some a, with_pool m st)
    | None =>
        '(n, st) ← ip_reass_remove_oldest_datagram fraghdr clen st;
        if clen <=? n then
          match alloc (pool st) with
          | Some (a, m) => Some (Some a, with_pool m st)
          | None => Some (None, st)
          end
        else Some (None, st)
    end;
  match a with
  | None => Some (None, st)
  | Some a =>
      let ipr := new_datagram a fraghdr in
      Some (Some ipr, with_list (ipr :: reassdatagrams st) st)
  end.

(** The search for the fragment's datagram, with the entry before it. *)
Fixpoint find_datagram (fraghdr : ip_hdr) (l : list reassdata) (ipr_prev : option Z)
    : option reassdata * option Z :=
  match l with
  | [] => (None, ipr_prev)
  | r :: l =>
      if IP_ADDRESSES_AND_ID_MATCH (iphdr r) fraghdr then (Some r, ipr_prev)
      else find_datagram fraghdr l (Some (node r))
  end.

Definition store (r : reassdata) (st : reass) : reass :=
  with_list ((fun x => if node x =? node r then r else x) <$> reassdatagrams st) st.

(** The end of [ip_reass]: the fragment goes into the entry [ipr]. *)
Definition reass_into (ipr : reassdata) (ipr_prev : option Z) (fraghdr : ip_hdr) (q : pbuf) (st : reass)
    : option (option pbuf * reass) :=
  let st := with_count (u16 (ip_reass_pbufcount st + pbuf_clen q)) st in
  let ipr := if more_fragments fraghdr then ipr
             else set_last (u16 (frag_offset fraghdr + frag_len fraghdr)) ipr in
  match chain_frag ipr q fraghdr with
  | None =>
      let st := with_count (u16 (ip_reass_pbufcount st - pbuf_clen q)) st in
      Some (None, emit [Free q] (store ipr st))
  | Some (l, false) => Some (None, store (set_p l ipr) st)
  | Some ([], true) => None
  | Some (f :: l, true) =>
      let hdr := datagram_hdr (iphdr ipr) (u16 (datagram_len ipr + IP_HLEN)) in
      let p := cat_all (put_ip_hdr hdr (fp f)) l in
      st ← ip_reass_dequeue_datagram (node ipr) ipr_prev st;
      Some (Some p, with_count (u16 (ip_reass_pbufcount st - pbuf_clen p)) st)
  end.

(** [ip_reass]; the outer [None] is an access to memory that is not there. *)
Definition ip_reass (q : pbuf) (st : reass) : option (option pbuf * reass) :=
  fraghdr ← ip_hdr_at q;
  if negb (IPH_HL fraghdr * 4 =? IP_HLEN) then Some (None, emit [Free q] st)
  else
    let clen := pbuf_clen q in
    '(ok, st) ←
      if IP_REASS_MAX_PBUFS <? ip_reass_pbufcount st + clen then
        '(n, st) ← ip_reass_remove_oldest_datagram fraghdr clen st;
        Some (negb (n =? 0) && (ip_reass_pbufcount st + clen <=? IP_REASS_MAX_PBUFS), st)
      else Some (true, st);
    if negb (ok : bool) then Some (None, emit [Free q] st)
    else
      match find_datagram fraghdr (reassdatagrams st) None with
      | (Some ipr, ipr_prev) =>
          let ipr :=
            if (Z.land (lwip_ntohs (_offset fraghdr)) IP_OFFMASK =? 0) &&
               negb (Z.land (lwip_ntohs (_offset (iphdr ipr))) IP_OFFMASK =? 0)
            then set_iphdr fraghdr ipr else ipr in
          reass_into ipr ipr_prev fraghdr q st
      | (None, ipr_prev) =>
          '(ipr, st) ← ip_reass_enqueue_new_datagram fraghdr clen st;
          match ipr with
          | None => Some (None, emit [Free q] st)
          | Some ipr => reass_into ipr ipr_prev fraghdr q st
          end
      end.

End reass.
Arguments reass : clear implicits.

(** ** Cutting a datagram

    [ram_ok n] tells whether the buffer of the [n]-th fragment is allocated,
    [ref_ok n] whether the [n]-th reference is (both its [pbuf_custom_ref] and its
    [pbuf_alloced_custom]).  The datagram's payload pointers are moved; its caller
    only frees it. *)
Section frag.
Variables ram_ok ref_ok : nat -> bool.

(** The inner loop: references to the next [left_to_copy] bytes of the chain
    [l]; the rest of the chain from the buffer that was used last, and
    [newpbuflen]. *)
Inductive mirrored :=
  | Mirrored (pieces rest : list (list Z)) (newpbuflen : nat) (refs : nat)
  | NoMem (refs : nat).
Fixpoint mirror (left_to_copy : nat) (l : list (list Z)) (refs : nat) : option mirrored :=
  match l with
  | [] => None
  | s :: l' =>
      let newpbuflen := if (left_to_copy <? length s)%nat then left_to_copy else length s in
      if (newpbuflen =? 0)%nat then mirror left_to_copy l' refs
      else if negb (ref_ok refs) then Some (NoMem (S refs))
      else
        let left_to_copy := (left_to_copy - newpbuflen)%nat in
        let piece := take newpbuflen s in
        if (left_to_copy =? 0)%nat then Some (Mirrored [piece] l newpbuflen (S refs))
        else
          r ← mirror left_to_copy l' (S refs);
          Some (match r with
                | Mirrored ps rest n refs => Mirrored (piece :: ps) rest n refs
                | NoMem refs => NoMem refs
                end)
  end.

(** [tmp] of a fragment. *)
Definition frag_field (omf ofo : Z) (last : bool) : Z :=
  let tmp := Z.lor omf (Z.land IP_OFFMASK ofo) in
  if last then tmp else Z.lor tmp IP_MF.

(** The outer loop, with the fragments that are handed to [netif->output].  Each
    round lowers [left] when a fragment holds at least 8 bytes; otherwise no
    [fuel] is enough. *)
Fixpoint frag_loop (fuel : nat) (iphdr : ip_hdr) (mtu nfb omf : Z)
    (left ofo : Z) (l : list (list Z)) (poff newpbuflen : nat) (rams refs : nat)
    : option (list pbuf * Z) :=
  match fuel with
  | O => None
  | S fuel =>
      if left =? 0 then Some ([], ERR_OK)
      else
        let last := left <=? mtu - IP_HLEN in
        let tmp := frag_field omf ofo last in
        let cop := if last then left else u16 (nfb * 8) in
        if negb (ram_ok rams) then Some ([], ERR_MEM)
        else
          match l with
          | [] => None
          | s :: l' =>
              if (length s <? poff)%nat then None
              else
                let l := drop poff s :: l' in
                r ← (if cop =? 0 then Some (Mirrored [] l newpbuflen refs)
                     else mirror (Z.to_nat cop) l refs);
                match r with
                | NoMem _ => Some ([], ERR_MEM)
                | Mirrored pieces rest newpbuflen refs =>
                    let h := IPH_LEN_SET (lwip_htons (u16 (cop + IP_HLEN)))
                               (IPH_OFFSET_SET (lwip_htons tmp) iphdr) in
                    let rambuf := mkPbuf [] (ip_hdr_bytes (with_chksum h) :: pieces) in
                    '(out, err) ← frag_loop fuel iphdr mtu nfb omf (u16 (left - cop)) (u16 (ofo + nfb))
                                    rest newpbuflen newpbuflen (S rams) refs;
                    Some (rambuf :: out, err)
                end
          end
  end.

(** [ip_frag]: the fragments that were sent, and the result. *)
Definition ip_frag (mtu : Z) (q : pbuf) : option (list pbuf * Z) :=
  iphdr ← ip_hdr_at q;
  let tmp := lwip_ntohs (_offset iphdr) in
  let ofo := Z.land tmp IP_OFFMASK in
  let omf := Z.land tmp IP_MF in
  let left := u16 (tot_len q - IP_HLEN) in
  let nfb := u16 (Z.quot (mtu - IP_HLEN) 8) in
  frag_loop (S (Z.to_nat left)) iphdr mtu nfb omf left ofo (segs q) (Z.to_nat IP_HLEN) 0 0 0.

End frag.

(** ** Fragments of one datagram *)

#[global] Instance pbuf_eq_dec : EqDecision pbuf.
Proof. solve_decision. Defined.
#[global] Instance frag_eq_dec : EqDecision frag.
Proof. solve_decision. Defined.

(** The fragments follow each other without gap from [s] on. *)
Fixpoint contiguous (s : Z) (l : list frag) : Prop :=
  match l with
  | [] => True
  | f :: l => start f = s /\ s < fend f /\ contiguous (fend f) l
  end.

Definition ends_at (prev : option frag) (x : Z) : bool :=
  match prev with Some pr => fend pr =? x | None => true end.
(** Neighbours touch. *)
Fixpoint touches (prev : option frag) (l : list frag) : bool :=
  match l with
  | [] => true
  | q :: l => ends_at prev (start q) && touches (Some q) l
  end.
Definition last_of (prev : option frag) (l : list frag) : option frag :=
  match last l with Some f => Some f | None => prev end.

Lemma last_of_cons prev q l : last_of prev (q :: l) = last_of (Some q) l.
Proof. unfold last_of. rewrite last_cons. by destruct (last l). Qed.

Lemma no_wholes_touches f l : no_wholes f l = touches (Some f) l.
Proof.
  revert f. induction l as [|q l IH]; intros f; [done|]. cbn. rewrite IH. by destruct (fend f =? start q).
Qed.

(** [a] lies before [b]. *)
Definition before_frag (a b : frag) : Prop := start a < start b /\ fend a <= start b.

Lemma frag_place_spec new l1 l2 prev v :
  Forall (fun a => before_frag a new) l1 ->
  (forall b l, l2 = b :: l -> before_frag new b) ->
  (forall pr, prev = Some pr -> fend pr <= start new) ->
  place new prev (l1 ++ l2) v =
    Some (l1, l2, v && touches prev l1 &&
                  match l2 with [] => ends_at (last_of prev l1) (start new) | _ => true end).
Proof.
  revert prev v. induction l1 as [|q l1 IH]; intros prev v H1 H2 Hp; cbn [app].
  - rewrite andb_true_r. destruct l2 as [|b l]; cbn [place].
    + unfold last_of, ends_at. cbn. do 3 f_equal. destruct prev as [pr|]; [|by rewrite andb_true_r].
      destruct (fend pr =? start new); by rewrite ?andb_true_r, ?andb_false_r.
    + destruct (H2 b l eq_refl) as [Hb1 Hb2]. destruct (Z.ltb_spec (start new) (start b)); [|lia].
      rewrite andb_true_r. destruct prev as [pr|]; [|done]. specialize (Hp pr eq_refl).
      destruct (Z.ltb_spec (start new) (fend pr)), (Z.ltb_spec (start b) (fend new)); (lia || done).
  - apply Forall_cons in H1 as [[Hq1 Hq2] H1]. cbn [place touches].
    destruct (Z.ltb_spec (start new) (start q)); [lia|].
    destruct (Z.eqb_spec (start new) (start q)); [lia|].
    destruct (Z.ltb_spec (start new) (fend q)); [lia|].
    rewrite IH by (done || (intros ? [= <-]; lia)). cbn [mbind option_bind].
    rewrite last_of_cons, !andb_assoc. do 4 f_equal. f_equal.
    destruct prev as [pr|]; cbn; [|by rewrite andb_true_r].
    destruct (fend pr =? start q); by rewrite ?andb_true_r, ?andb_false_r.
Qed.

Lemma contiguous_after s l f : contiguous s l -> f ∈ l -> s <= start f /\ start f < fend f.
Proof.
  revert s. induction l as [|g l IH]; intros s; [by intros _ ?%not_elem_of_nil|].
  intros (Hs & Hl & Hc) [->|Hf]%elem_of_cons; [lia|]. destruct (IH _ Hc Hf). lia.
Qed.

Lemma contiguous_app s l1 l2 :
  contiguous s (l1 ++ l2) -> exists m, s <= m /\ contiguous s l1 /\ contiguous m l2 /\
    (forall a, a ∈ l1 -> fend a <= m).
Proof.
  revert s. induction l1 as [|g l1 IH]; intros s; cbn.
  - intros H. exists s. split_and!; [lia|done|done|by intros ? ?%not_elem_of_nil].
  - intros (Hs & Hl & Hc). destruct (IH _ Hc) as (m & Hm & H1 & H2 & H3).
    exists m. split_and!; [lia|done|lia|done|done|].
    intros a [->|Ha]%elem_of_cons; [lia|]. auto.
Qed.

Lemma contiguous_split s l1 f l2 :
  contiguous s (l1 ++ f :: l2) ->
  Forall (fun a => before_frag a f) l1 /\ Forall (before_frag f) l2.
Proof.
  intros H. destruct (contiguous_app _ _ _ H) as (m & Hm & H1 & (Hf & Hl & H2) & H3).
  split; apply Forall_forall; intros a Ha; unfold before_frag.
  - pose proof (contiguous_after _ _ _ H1 Ha). specialize (H3 _ Ha). lia.
  - pose proof (contiguous_after _ _ _ H2 Ha). lia.
Qed.

(** A part of the datagram without a gap, with its start and its end, is all of
    it. *)
Lemma touching_complete (P : frag -> Prop) `{forall f, Decision (P f)} s l prev :
  contiguous s l -> touches prev (filter P l) = true -> 
  (forall f, prev = Some f -> fend f = s) ->
  (prev = None -> match filter P l with f :: _ => start f = s | [] => True end) ->
  (forall z, last l = Some z -> P z) -> filter P l = l.
Proof.
  revert s prev. induction l as [|f l IH]; intros s prev Hc Ht Hp Hn Hz; [done|].
  destruct Hc as (Hs & Hl & Hc).
  assert (Hl' : forall z, last l = Some z -> P z).
  { intros z E. apply Hz. rewrite last_cons, E. done. }
  destruct (decide (P f)) as [Hf|Hf].
  - rewrite filter_cons_True in * by done. f_equal. cbn in Ht. apply andb_prop in Ht as [_ Ht].
    apply (IH (fend f) (Some f)); try done. by intros ? [= <-].
  - rewrite filter_cons_False in * by done. exfalso.
    destruct (filter P l) as [|g l'] eqn:E.
    + destruct (last l) as [z|] eqn:Ez.
      * specialize (Hl' z eq_refl). assert (Hz' : z ∈ filter P l).
        { apply list_elem_of_filter. split; [done|]. by apply last_Some_elem_of. }
        rewrite E in Hz'. by apply not_elem_of_nil in Hz'.
      * apply last_None in Ez as ->. apply Hf, Hz. done.
    + assert (Hg : g ∈ l) by (eapply list_elem_of_filter; rewrite E; left).
      pose proof (contiguous_after _ _ _ Hc Hg).
      destruct prev as [pr|].
      * cbn in Ht. apply andb_prop in Ht as [Ht _]. apply Z.eqb_eq in Ht. specialize (Hp _ eq_refl). lia.
      * specialize (Hn eq_refl). lia.
Qed.

Lemma touches_app prev l1 l2 :
  touches prev (l1 ++ l2) = touches prev l1 && touches (last_of prev l1) l2.
Proof.
  revert prev. induction l1 as [|q l1 IH]; intros prev; cbn; [done|].
  by rewrite IH, last_of_cons, andb_assoc.
Qed.

Lemma contiguous_touches s l prev :
  contiguous s l -> (forall f, prev = Some f -> fend f = s) -> touches prev l = true.
Proof.
  revert s prev. induction l as [|f l IH]; intros s prev; [done|].
  intros (Hs & Hl & Hc) Hp. cbn. apply andb_true_intro. split.
  - unfold ends_at. destruct prev; [|done]. apply Z.eqb_eq. rewrite Hs. by apply Hp.
  - apply (IH (fend f)); [done|]. by intros ? [= <-].
Qed.

Lemma filter_agree (P Q : frag -> Prop) `{forall f, Decision (P f)} `{forall f, Decision (Q f)} (l : list frag) :
  (forall f, f ∈ l -> P f <-> Q f) -> filter P l = filter Q l.
Proof.
  induction l as [|f l IH]; intros HPQ; [done|].
  assert (IH' : filter P l = filter Q l) by (apply IH; intros; apply HPQ; by right).
  assert (Hf : P f <-> Q f) by (apply HPQ; left).
  destruct (decide (P f)).
  - rewrite !filter_cons_True by tauto. by rewrite IH'.
  - rewrite !filter_cons_False by tauto. done.
Qed.

(** The part of the datagram [whole] that is there when the fragments [S] have
    come. *)
Definition received (S whole : list frag) : list frag := filter (.∈ S) whole.

Lemma received_split S l1 f l2 s :
  contiguous s (l1 ++ f :: l2) ->
  received (f :: S) (l1 ++ f :: l2) = received S l1 ++ f :: received S l2.
Proof.
  intros Hc. destruct (contiguous_split _ _ _ _ Hc) as [H1 H2].
  rewrite Forall_forall in H1, H2. unfold received.
  rewrite filter_app, filter_cons_True by left.
  f_equal; [|f_equal]; apply filter_agree; intros g Hg.
  - specialize (H1 _ Hg). unfold before_frag in H1. rewrite elem_of_cons. split; [|auto].
    intros [->|?]; [lia|done].
  - specialize (H2 _ Hg). unfold before_frag in H2. rewrite elem_of_cons. split; [|auto].
    intros [->|?]; [lia|done].
Qed.
Lemma received_before S l1 f l2 s :
  contiguous s (l1 ++ f :: l2) -> f ∉ S -> received S (l1 ++ f :: l2) = received S l1 ++ received S l2.
Proof. intros Hc Hf. unfold received. by rewrite filter_app, filter_cons_False. Qed.

Lemma received_in S whole f : f ∈ received S whole <-> f ∈ S /\ f ∈ whole.
Proof. unfold received. by rewrite list_elem_of_filter. Qed.

(** What the validation computes for the fragment [f] between [l1] and [l2]. *)
Definition finished (lastfrag : bool) (l1 : list frag) (f : frag) (l2 : list frag) : bool :=
  lastfrag &&
  (touches None l1 && match l2 with [] => ends_at (last_of None l1) (start f) | _ => true end) &&
  (match l1 ++ f :: l2 with g :: _ => start g =? 0 | [] => false end) && touches (Some f) l2.

Lemma place_received S l1 f l2 s :
  contiguous s (l1 ++ f :: l2) -> f ∉ S ->
  place f None (received S (l1 ++ f :: l2)) true =
    Some (received S l1, received S l2,
          touches None (received S l1) &&
          match received S l2 with [] => ends_at (last_of None (received S l1)) (start f) | _ => true end).
Proof.
  intros Hc Hf. destruct (contiguous_split _ _ _ _ Hc) as [H1 H2].
  rewrite (received_before _ _ _ _ s) by done. rewrite frag_place_spec; [done| | |done].
  - rewrite Forall_forall in *. intros a [_ Ha]%received_in. auto.
  - intros b l E. rewrite Forall_forall in H2. apply H2.
    assert (Hb : b ∈ received S l2) by (rewrite E; left). by apply received_in in Hb as [_ Hb].
Qed.

(** When all fragments have come the datagram is finished. *)
Lemma finished_all l1 f l2 : contiguous 0 (l1 ++ f :: l2) -> finished true l1 f l2 = true.
Proof.
  intros Hc. pose proof (contiguous_touches _ _ None Hc ltac:(done)) as Ht.
  rewrite touches_app in Ht. apply andb_prop in Ht as [Ht1 Ht2]. cbn in Ht2.
  apply andb_prop in Ht2 as [Ht2 Ht3]. unfold finished. rewrite Ht1, Ht3. cbn.
  apply andb_true_intro. split; [|done]. apply andb_true_intro. split; [by destruct l2|].
  destruct l1; apply Z.eqb_eq, Hc.
Qed.

(** A datagram that is taken for finished is whole, unless the fragment that
    finished it was put behind a gap. *)
Definition no_gap_before (S l1 : list frag) : Prop :=
  received S l1 = [] \/ (exists g, last l1 = Some g /\ g ∈ S).

Lemma last_received S l g : last l = Some g -> g ∈ S -> last (received S l) = Some g.
Proof.
  intros (l' & ->)%last_Some Hg. unfold received. rewrite filter_app, filter_cons_True by done.
  apply last_snoc.
Qed.

Lemma finished_whole S l1 f l2 b :
  contiguous 0 (l1 ++ f :: l2) -> f ∉ S -> (received S l2 <> [] -> no_gap_before S l1) ->
  (forall z, last (l1 ++ f :: l2) = Some z -> b = true -> z ∈ f :: S) ->
  finished b (received S l1) f (received S l2) = true ->
  received (f :: S) (l1 ++ f :: l2) = l1 ++ f :: l2.
Proof.
  intros Hc Hf Hgap Hlast H. unfold finished in H.
  apply andb_prop in H as [H Ht2]. apply andb_prop in H as [H Hz].
  apply andb_prop in H as [Hb H]. apply andb_prop in H as [Ht1 He].
  apply (touching_complete (.∈ f :: S) 0 (l1 ++ f :: l2) None); [done| |done| |intros; by apply Hlast].
  - change (touches None (received (f :: S) (l1 ++ f :: l2)) = true).
    rewrite (received_split _ _ _ _ 0) by done. rewrite touches_app, Ht1. cbn. rewrite Ht2, andb_true_r.
    destruct (received S l2) eqn:E2; [done|].
    destruct (Hgap ltac:(done)) as [->|(g & Hg & HgS)]; [done|]. unfold last_of.
    rewrite (last_received S l1 g) by done. cbn. apply Z.eqb_eq.
    apply last_Some in Hg as (l' & ->). rewrite <- app_assoc in Hc.
    destruct (contiguous_app _ _ _ Hc) as (m & _ & _ & (_ & _ & Hfs & _) & _). done.
  - intros _. change (match received (f :: S) (l1 ++ f :: l2) with f0 :: _ => start f0 = 0 | [] => True end).
    rewrite (received_split _ _ _ _ 0) by done.
    destruct (received S l1 ++ f :: received S l2) eqn:E; [done|]. by apply Z.eqb_eq.
Qed.

(** ** The invariant of the queue *)

(** What identifies a datagram. *)
Definition key (h : ip_hdr) : Z * Z * Z := (src h, dest h, _id h).
Lemma match_key a b : IP_ADDRESSES_AND_ID_MATCH a b = bool_decide (key a = key b).
Proof.
  unfold IP_ADDRESSES_AND_ID_MATCH, key.
  destruct (Z.eqb_spec (src a) (src b)) as [->|], (Z.eqb_spec (dest a) (dest b)) as [->|],
    (Z.eqb_spec (_id a) (_id b)) as [->|]; symmetry;
    first [apply bool_decide_eq_true_2; done | apply bool_decide_eq_false_2; congruence].
Qed.

(** The buffers of fragments and of the queue. *)
Fixpoint clen_sum (l : list frag) : Z :=
  match l with [] => 0 | f :: l => pbuf_clen (fp f) + clen_sum l end.
Fixpoint queued (l : list reassdata) : Z :=
  match l with [] => 0 | r :: l => clen_sum (p r) + queued l end.

Lemma pbuf_clen_range q : 0 <= pbuf_clen q < 256.
Proof. apply u8_range. Qed.
Lemma clen_sum_nonneg l : 0 <= clen_sum l.
Proof. induction l as [|f l IH]; cbn; [lia|]. pose proof (pbuf_clen_range (fp f)). lia. Qed.
Lemma queued_nonneg l : 0 <= queued l.
Proof. induction l as [|r l IH]; cbn; [lia|]. pose proof (clen_sum_nonneg (p r)). lia. Qed.
Lemma clen_sum_app l1 l2 : clen_sum (l1 ++ l2) = clen_sum l1 + clen_sum l2.
Proof. induction l1 as [|f l IH]; cbn; lia. Qed.
Lemma queued_app l1 l2 : queued (l1 ++ l2) = queued l1 + queued l2.
Proof. induction l1 as [|f l IH]; cbn; lia. Qed.

(** The fragments of an entry: there is one, each holds a header, they are in
    the order of their offsets. *)
Record frags_ok (l : list frag) : Prop := {
  fo_some : l <> [];
  fo_hdr : Forall (fun f => IP_HLEN <= plen (fp f)) l;
  fo_order : StronglySorted (fun a b => start a < start b) l
}.

Section queue.
Context {P : Type} `{Pool P}.

Record inv0 (st : reass P) : Prop := {
  inv_nodes : NoDup (node <$> reassdatagrams st);
  inv_pool : holds (pool st) (node <$> reassdatagrams st);
  inv_keys : NoDup ((key ∘ iphdr) <$> reassdatagrams st);
  inv_frags : Forall (frags_ok ∘ p) (reassdatagrams st);
  inv_count : ip_reass_pbufcount st = queued (reassdatagrams st);
  inv_max : queued (reassdatagrams st) <= IP_REASS_MAX_PBUFS
}.
(** New datagrams are put to the front: the timers fall along the list. *)
Record inv (st : reass P) : Prop := {
  inv_0 : inv0 st;
  inv_timer : Forall (fun r => 0 <= timer r <= IP_REASS_MAXAGE) (reassdatagrams st);
  inv_age : StronglySorted (fun a b => timer b <= timer a) (reassdatagrams st)
}.

Definition node_of (prev : option Z) (l : list reassdata) : option Z :=
  match last l with Some r => Some (node r) | None => prev end.
Lemma node_of_cons prev r l : node_of prev (r :: l) = node_of (Some (node r)) l.
Proof. unfold node_of. rewrite last_cons. by destruct (last l). Qed.
Lemma node_of_snoc prev r l : node_of prev (l ++ [r]) = Some (node r).
Proof. unfold node_of. by rewrite last_snoc. Qed.

Lemma find_datagram_spec h l prev :
  match find_datagram h l prev with
  | (Some e, pr) => exists l1 l2, l = l1 ++ e :: l2 /\ key (iphdr e) = key h /\
                      (key h ∉ (key ∘ iphdr) <$> l1) /\ pr = node_of prev l1
  | (None, pr) => key h ∉ (key ∘ iphdr) <$> l
  end.
Proof.
  revert prev. induction l as [|r l IH]; intros prev; cbn [find_datagram].
  - apply not_elem_of_nil.
  - rewrite match_key. case_bool_decide as Hk.
    + exists [], l. split_and!; try done. apply not_elem_of_nil.
    + specialize (IH (Some (node r))). destruct (find_datagram h l _) as [[e|] pr].
      * destruct IH as (l1 & l2 & -> & H1 & H2 & ->). exists (r :: l1), l2.
        split_and!; try done; [|by rewrite node_of_cons]. cbn. rewrite not_elem_of_cons. cbn. split; [congruence|done].
      * cbn. rewrite not_elem_of_cons. split; [cbn; congruence|done].
Qed.

Lemma store_mid l1 e l2 r :
  NoDup (node <$> l1 ++ e :: l2) -> node r = node e ->
  (fun x => if node x =? node r then r else x) <$> (l1 ++ e :: l2) = l1 ++ r :: l2.
Proof.
  intros Hn Hr. rewrite fmap_app, fmap_cons. rewrite fmap_app, fmap_cons in Hn. apply NoDup_app in Hn as (_ & H1 & H2).
  apply NoDup_cons in H2 as [H2 _]. rewrite Hr, Z.eqb_refl.
  assert (E : forall l : list reassdata, node e ∉ node <$> l -> (fun x => if node x =? node e then r else x) <$> l = l).
  { induction l as [|x l IH]; intros Hx; [done|]. cbn in *. apply not_elem_of_cons in Hx as [Hx1 Hx2].
    destruct (Z.eqb_spec (node x) (node e)); [congruence|]. by rewrite IH. }
  rewrite !E; [done|done|]. intros Hx. apply (H1 _ Hx). left.
Qed.

Lemma unlink_after_spec l1 pr e l2 :
  NoDup (node <$> l1 ++ pr :: e :: l2) ->
  unlink_after (node pr) (node e) (l1 ++ pr :: e :: l2) = Some (l1 ++ pr :: l2).
Proof.
  induction l1 as [|x l1 IH]; cbn; intros Hn.
  - by rewrite !Z.eqb_refl.
  - apply NoDup_cons in Hn as [Hx Hn]. destruct (Z.eqb_spec (node x) (node pr)) as [E|].
    + exfalso. apply Hx. rewrite E, fmap_app. apply elem_of_app. right. left.
    + rewrite IH by done. done.
Qed.

(** An entry is taken out when it is the head or [prev] is the one before it. *)
Lemma dequeue_spec st l1 e l2 prev :
  reassdatagrams st = l1 ++ e :: l2 -> NoDup (node <$> reassdatagrams st) ->
  holds (pool st) (node <$> reassdatagrams st) -> (l1 = [] \/ prev = node_of None l1) ->
  exists m, ip_reass_dequeue_datagram (node e) prev st = Some (with_pool m (with_list (l1 ++ l2) st)) /\
    holds m (node <$> l1 ++ l2).
Proof.
  intros E Hn Hh Hp. unfold ip_reass_dequeue_datagram. rewrite E in *.
  rewrite fmap_app, fmap_cons in Hh. destruct (release_ok _ _ _ _ Hh) as (m & Hm & Hm').
  exists m. rewrite fmap_app. split; [|done].
  destruct l1 as [|x l1]; cbn [app].
  - rewrite Z.eqb_refl. cbn [mbind option_bind]. by rewrite Hm.
  - destruct (Z.eqb_spec (node x) (node e)) as [Ex|].
    + exfalso. cbn in Hn. apply NoDup_cons in Hn as [Hx _]. apply Hx. rewrite Ex, fmap_app.
      apply elem_of_app. right. left.
    + destruct Hp as [Hp|Hp]; [done|]. subst prev.
      destruct (exists_last (l := x :: l1) ltac:(done)) as (l' & y & Ey).
      change (x :: l1 ++ e :: l2) with ((x :: l1) ++ e :: l2) in *.
      change (x :: l1 ++ l2) with ((x :: l1) ++ l2). rewrite Ey in *. rewrite node_of_snoc.
      rewrite <- !app_assoc in *. cbn [app] in *. rewrite unlink_after_spec by done.
      cbn [mbind option_bind]. by rewrite Hm.
Qed.


(** ** Giving up a datagram *)

Definition free_all (l : list frag) : list event := (fun f => Free (fp f)) <$> l.
Definition given_up (r : reassdata) : list event :=
  match p r with
  | f :: l =>
      if start f =? 0
      then let q := put_ip_hdr (iphdr r) (fp f) in IcmpTimeExceeded q :: Free q :: free_all l
      else free_all (f :: l)
  | [] => []
  end.

Lemma free_frags_spec l n :
  0 <= n -> n + clen_sum l <= 65535 -> free_frags l n = (free_all l, n + clen_sum l).
Proof.
  revert n. induction l as [|f l IH]; intros n Hn Hl; cbn [free_frags clen_sum] in *; [by rewrite Z.add_0_r|].
  pose proof (pbuf_clen_range (fp f)). pose proof (clen_sum_nonneg l).
  rewrite u16_small by (unfold in_u16; lia). rewrite IH by lia. by replace (n + pbuf_clen (fp f) + clen_sum l) with (n + (pbuf_clen (fp f) + clen_sum l)) by lia.
Qed.

Lemma put_hdr_clen h q : pbuf_clen (put_ip_hdr h q) = pbuf_clen q.
Proof. unfold put_ip_hdr, write_first, pbuf_clen. destruct (segs q) eqn:E; cbn; by rewrite ?E. Qed.

(** An entry taken out of the list. *)
Lemma inv0_remove st l1 e l2 m n ev :
  inv0 st -> reassdatagrams st = l1 ++ e :: l2 -> holds m (node <$> l1 ++ l2) ->
  n = ip_reass_pbufcount st - clen_sum (p e) -> inv0 (mkState (l1 ++ l2) n m ev).
Proof.
  intros [I1 I2 I3 I4 I5 I6] E Hm ->. rewrite E in *.
  rewrite queued_app in *. cbn [queued] in *. pose proof (clen_sum_nonneg (p e)).
  split; cbn [reassdatagrams ip_reass_pbufcount pool].
  - rewrite fmap_app in *. apply NoDup_app in I1 as (J1 & J2 & J3).
    apply NoDup_cons in J3 as [_ J3]. apply NoDup_app. split_and!; auto. intros x Hx Hx2.
    apply (J2 x Hx). by right.
  - done.
  - rewrite fmap_app in *. apply NoDup_app in I3 as (J1 & J2 & J3).
    apply NoDup_cons in J3 as [_ J3]. apply NoDup_app. split_and!; auto. intros x Hx Hx2.
    apply (J2 x Hx). by right.
  - apply Forall_app in I4 as [J1 J2]. apply Forall_cons in J2 as [_ J2]. by apply Forall_app_2.
  - rewrite queued_app. lia.
  - rewrite queued_app. unfold IP_REASS_MAX_PBUFS in *. lia.
Qed.

Lemma free_complete_spec st l1 e l2 prev :
  inv0 st -> reassdatagrams st = l1 ++ e :: l2 -> (l1 = [] \/ prev = node_of None l1) ->
  exists st', ip_reass_free_complete_datagram e prev st = Some (clen_sum (p e), st') /\
    inv0 st' /\ reassdatagrams st' = l1 ++ l2 /\ events st' = events st ++ given_up e.
Proof.
  intros Hi E Hp. pose proof Hi as [I1 I2 I3 I4 I5 I6].
  assert (He : frags_ok (p e)).
  { rewrite Forall_forall in I4. apply I4. rewrite E. apply elem_of_app. right. left. }
  assert (Hc : 0 <= clen_sum (p e) <= ip_reass_pbufcount st /\ ip_reass_pbufcount st <= 10).
  { rewrite I5. unfold IP_REASS_MAX_PBUFS in I6. rewrite E in *. rewrite queued_app in *. cbn [queued] in *.
    pose proof (clen_sum_nonneg (p e)). pose proof (queued_nonneg l1). pose proof (queued_nonneg l2). lia. }
  unfold ip_reass_free_complete_datagram.
  assert (Hgo : forall ev, ev = given_up e -> exists st',
    (st0 ← ip_reass_dequeue_datagram (node e) prev (emit ev st);
     Some (clen_sum (p e), with_count (u16 (ip_reass_pbufcount st0 - clen_sum (p e))) st0)) =
      Some (clen_sum (p e), st') /\
    inv0 st' /\ reassdatagrams st' = l1 ++ l2 /\ events st' = events st ++ given_up e).
  { intros ev ->. destruct (dequeue_spec (emit (given_up e) st) l1 e l2 prev) as (m & -> & Hm); try done.
    cbn [mbind option_bind]. eexists. split; [done|]. cbn. split_and!; try done.
    apply (inv0_remove st l1 e l2); try done. rewrite u16_small by (unfold in_u16; lia). done. }
  pose proof (fo_some _ He) as Hs. unfold given_up in Hgo |- *. destruct (p e) as [|f l]; [done|].
  cbn [clen_sum] in *. pose proof (pbuf_clen_range (fp f)). pose proof (clen_sum_nonneg l).
  destruct (start f =? 0).
  - rewrite put_hdr_clen, Z.add_0_l, u16_small by (unfold in_u16; lia).
    rewrite free_frags_spec by lia. exact (Hgo _ eq_refl).
  - rewrite free_frags_spec, Z.add_0_l by (cbn [clen_sum]; lia). exact (Hgo _ eq_refl).
Qed.

(** ** The timer *)

Definition aged (r : reassdata) : reassdata := set_timer (timer r - 1) r.

Lemma inv0_age st l1 r l2 :
  inv0 st -> reassdatagrams st = l1 ++ r :: l2 -> inv0 (with_list (l1 ++ aged r :: l2) st).
Proof.
  intros [I1 I2 I3 I4 I5 I6] E. rewrite E in *.
  rewrite !fmap_app, !fmap_cons, !queued_app in *. rewrite Forall_app, Forall_cons in I4.
  split; cbn [reassdatagrams with_list pool ip_reass_pbufcount];
    rewrite ?fmap_app, ?fmap_cons, ?queued_app; try done.
  destruct I4 as (A & B & C). apply Forall_app_2; [done|]. by apply Forall_cons_2.
Qed.

(** Entries whose time has run out go, the others get older. *)
Definition survive (l : list reassdata) : list reassdata :=
  aged <$> filter (fun r => 0 < timer r) l.
Definition expired (l : list reassdata) : list reassdata := filter (fun r => timer r <= 0) l.

Lemma reass_tmr_loop l l1 st :
  inv0 st -> reassdatagrams st = l1 ++ l ->
  exists st', tmr_loop l (node_of None l1) st = Some st' /\ inv0 st' /\
    reassdatagrams st' = l1 ++ survive l /\ events st' = events st ++ mjoin (given_up <$> expired l).
Proof.
  revert l1 st. induction l as [|r l IH]; intros l1 st Hi E; cbn [tmr_loop].
  - exists st. cbn. rewrite !app_nil_r in *. done.
  - unfold survive, expired. destruct (Z.ltb_spec 0 (timer r)).
    + rewrite E. change (set_timer (timer r - 1) r) with (aged r).
      rewrite store_mid by (done || (rewrite <- E; apply Hi)).
      destruct (IH (l1 ++ [aged r]) (with_list (l1 ++ aged r :: l) st)) as (st' & H1 & H2 & H3 & H4).
      * by apply inv0_age.
      * cbn. by rewrite <- app_assoc.
      * exists st'. rewrite node_of_snoc in H1. change (node (aged r)) with (node r) in *.
        rewrite filter_cons_True, filter_cons_False by lia. split_and!; try done.
        rewrite H3, <- app_assoc. done.
    + destruct (free_complete_spec st l1 r l (node_of None l1)) as (st1 & H1 & H2 & H3 & H4); auto.
      rewrite H1. cbn [mbind option_bind].
      destruct (IH l1 st1 H2 H3) as (st' & G1 & G2 & G3 & G4).
      exists st'. rewrite filter_cons_False, filter_cons_True by lia. split_and!; try done.
      rewrite G4, H4, <- app_assoc. done.
Qed.

Lemma aged_sorted l :
  StronglySorted (fun a b => timer b <= timer a) l ->
  StronglySorted (fun a b => timer b <= timer a) (survive l).
Proof.
  unfold survive. induction 1 as [|r l Hl IH Hr]; [constructor|].
  destruct (decide (0 < timer r)); [|by rewrite filter_cons_False].
  rewrite filter_cons_True by done. cbn [fmap list_fmap]. constructor; [done|].
  rewrite Forall_forall in *. intros x (y & -> & Hy)%list_elem_of_fmap.
  apply list_elem_of_filter in Hy as [_ Hy]. specialize (Hr _ Hy). cbn. lia.
Qed.

(** The timer gives up exactly the datagrams whose time has run out. *)
Lemma reass_tmr_spec st :
  inv st -> exists st', ip_reass_tmr st = Some st' /\ inv st' /\
    reassdatagrams st' = survive (reassdatagrams st) /\
    events st' = events st ++ mjoin (given_up <$> expired (reassdatagrams st)).
Proof.
  intros [I0 It Ia]. destruct (reass_tmr_loop (reassdatagrams st) [] st I0 eq_refl) as (st' & H1 & H2 & H3 & H4).
  exists st'. cbn [app] in H3. split_and!; try done. split; [done| |].
  - rewrite H3. unfold survive. rewrite Forall_forall in *. intros x (y & -> & Hy)%list_elem_of_fmap.
    apply list_elem_of_filter in Hy as [Hy1 Hy2]. specialize (It _ Hy2). cbn. lia.
  - rewrite H3. by apply aged_sorted.
Qed.


(** ** Driving out the oldest datagrams *)

Definition others (h : ip_hdr) (l : list reassdata) : list reassdata :=
  filter (fun r => key (iphdr r) <> key h) l.

Lemma find_oldest_spec h l o pr n :
  StronglySorted (fun a b => timer b <= timer a) l ->
  (forall o', o = Some o' -> Forall (fun r => timer r <= timer o') l) ->
  find_oldest h l o pr n =
    (match last (others h l) with Some r => Some r | None => o end,
     node_of pr (removelast l), n + Z.of_nat (length (others h l))).
Proof.
  intros Hs. revert o pr n. induction Hs as [|r l Hl IH Hr]; intros o pr n Ho.
  - cbn. by rewrite Z.add_0_r.
  - assert (Ep : node_of (match l with [] => pr | _ => Some (node r) end) (removelast l) =
                 node_of pr (removelast (r :: l))).
    { destruct l as [|x l]; [done|]. change (removelast (r :: x :: l)) with (r :: removelast (x :: l)).
      by rewrite node_of_cons. }
    cbn [find_oldest]. rewrite match_key. unfold others. case_bool_decide as Hk.
    + rewrite filter_cons_False by (intros ?; done). rewrite IH; [|intros o' E; by destruct (Forall_cons_1 _ _ _ (Ho o' E))].
      by rewrite Ep.
    + rewrite filter_cons_True by done. fold (others h l).
      assert (E : (match o with
                   | None => Some r
                   | Some o' => if timer r <=? timer o' then Some r else o
                   end) = Some r).
      { destruct o as [o'|]; [|done]. destruct (Forall_cons_1 _ _ _ (Ho o' eq_refl)) as [Hto _].
        by destruct (Z.leb_spec (timer r) (timer o')); [|lia]. }
      rewrite E, IH by (by intros ? [= <-]). rewrite last_cons, Ep. f_equal; [f_equal|].
      * by destruct (last (others h l)).
      * cbn [length]. lia.
Qed.

(** The fragment's own datagram is the newest or the second newest. *)
Definition near_front (h : ip_hdr) (l : list reassdata) : Prop :=
  match l with _ :: _ :: l' => key h ∉ (key ∘ iphdr) <$> l' | _ => True end.

(** Some datagrams of others were given up. *)
Record evicted (h : ip_hdr) (st st' : reass P) (n : Z) : Prop := {
  ev_sub : reassdatagrams st' `sublist_of` reassdatagrams st;
  ev_own : forall e, e ∈ reassdatagrams st -> key (iphdr e) = key h -> e ∈ reassdatagrams st';
  ev_count : ip_reass_pbufcount st' = ip_reass_pbufcount st - n;
  ev_pos : 0 <= n;
  ev_events : exists gone, events st' = events st ++ mjoin (given_up <$> gone) /\
                reassdatagrams st ≡ₚ reassdatagrams st' ++ gone
}.

Lemma evicted_refl h st : evicted h st st 0.
Proof.
  split; [reflexivity|auto|lia|lia|]. exists []. cbn. by rewrite !app_nil_r.
Qed.
Lemma evicted_trans h a b c n m : evicted h a b n -> evicted h b c m -> evicted h a c (n + m).
Proof.
  intros [A1 A2 A3 A4 (g1 & A5 & A6)] [B1 B2 B3 B4 (g2 & B5 & B6)].
  split; [by etrans|auto|lia|lia|]. exists (g1 ++ g2).
  split; [by rewrite B5, A5, fmap_app, join_app, app_assoc|].
  by rewrite A6, B6, <- app_assoc, (Permutation_app_comm g1).
Qed.

(** One datagram of others is given up. *)
Lemma evict_one h st l1 e l2 prev :
  inv st -> reassdatagrams st = l1 ++ e :: l2 -> (l1 = [] \/ prev = node_of None l1) ->
  key (iphdr e) <> key h ->
  exists n st', ip_reass_free_complete_datagram e prev st = Some (n, st') /\
    inv st' /\ reassdatagrams st' = l1 ++ l2 /\ evicted h st st' n.
Proof.
  intros [I0 It Ia] E Hp Hk.
  destruct (free_complete_spec st l1 e l2 prev I0 E Hp) as (st' & H1 & H2 & H3 & H4).
  exists (clen_sum (p e)), st'. split; [done|]. split.
  { split; [done| |]; rewrite H3; rewrite E in *.
    - apply Forall_app in It as [J1 J2]. apply Forall_cons in J2 as [_ J2]. by apply Forall_app_2.
    - clear -Ia. induction l1 as [|x l1 IH]; cbn in *; apply StronglySorted_inv in Ia as [Ia Hx]; [done|].
      constructor; [by apply IH|]. apply Forall_app in Hx as [Hx1 Hx2]. apply Forall_cons in Hx2 as [_ Hx2].
      by apply Forall_app_2. }
  split; [done|]. split.
  - rewrite H3, E. apply sublist_app; [done|]. by apply sublist_cons.
  - intros x Hx Hxk. rewrite H3. rewrite E in Hx.
    apply elem_of_app in Hx as [Hx|Hx]; [by apply elem_of_app; left|].
    apply elem_of_cons in Hx as [->|Hx]; [done|]. by apply elem_of_app; right.
  - rewrite (inv_count _ H2), (inv_count _ I0), H3, E, !queued_app. cbn [queued]. lia.
  - apply clen_sum_nonneg.
  - exists [e]. cbn. rewrite app_nil_r, H3, E. split; [done|]. rewrite <- app_assoc.
    apply Permutation_app_head, Permutation_cons_append.
Qed.


Lemma keys_own h l1 e l2 :
  NoDup ((key ∘ iphdr) <$> l1 ++ e :: l2) -> key (iphdr e) = key h -> key h ∉ (key ∘ iphdr) <$> l1.
Proof.
  intros Hn Hk Hin. rewrite fmap_app, fmap_cons in Hn. apply NoDup_app in Hn as (_ & Hn & _).
  apply (Hn _ Hin). rewrite <- Hk. left.
Qed.

Lemma near_front_snoc h l e : near_front h (l ++ [e]) -> near_front h l.
Proof.
  unfold near_front. destruct l as [|a [|b l]]; cbn; try done.
  intros Hn Hin. apply Hn. rewrite fmap_app. apply elem_of_app. by left.
Qed.

Lemma others_all h l : key h ∉ (key ∘ iphdr) <$> l -> others h l = l.
Proof.
  intros Hk. induction l as [|r l IH]; [done|]. cbn in Hk. apply not_elem_of_cons in Hk as [Hr Hk].
  unfold others. rewrite filter_cons_True by (cbn in Hr; congruence). f_equal. by apply IH.
Qed.

Lemma remove_loop_spec h needed fuel freed st :
  (length (reassdatagrams st) < fuel)%nat -> inv st -> near_front h (reassdatagrams st) -> 0 <= freed ->
  exists n st', remove_loop fuel h needed freed st = Some (freed + n, st') /\
    inv st' /\ evicted h st st' n.
Proof.
  revert freed st. induction fuel as [|fuel IH]; intros freed st Hf Hi Hnear Hfr; [lia|].
  cbn [remove_loop]. rewrite find_oldest_spec by (apply Hi || done). cbn beta iota.
  assert (Hstop : exists n st', Some (freed, st) = Some (freed + n, st') /\ inv st' /\ evicted h st st' n).
  { exists 0, st. rewrite Z.add_0_r. split_and!; [done|done|apply evicted_refl]. }
  assert (Hgo : forall l1 e l2 prev num, reassdatagrams st = l1 ++ e :: l2 ->
      (l1 = [] \/ prev = node_of None l1) -> key (iphdr e) <> key h -> near_front h (l1 ++ l2) ->
      exists n st',
        ('(pbufs_freed, st1) ← ('(n, st1) ← ip_reass_free_complete_datagram e prev st; Some (freed + n, st1));
         if (pbufs_freed <? needed) && (1 <? num) then remove_loop fuel h needed pbufs_freed st1
         else Some (pbufs_freed, st1)) = Some (freed + n, st') /\ inv st' /\ evicted h st st' n).
  { intros l1 e l2 prev num E Hp Hk Hn2.
    destruct (evict_one h st l1 e l2 prev Hi E Hp Hk) as (n & st1 & -> & I1 & E1 & V1).
    cbn [mbind option_bind]. destruct (_ && _).
    - destruct (IH (freed + n) st1) as (m & st' & -> & I2 & V2); [| | | |].
      + rewrite E1, E in *. rewrite length_app in *. cbn in Hf. lia.
      + done.
      + by rewrite E1.
      + pose proof (ev_pos _ _ _ _ V1). lia.
      + exists (n + m), st'. rewrite Z.add_assoc. split_and!; [done|done|]. by apply (evicted_trans h st st1).
    - by exists n, st1. }
  pose proof (inv_keys _ (inv_0 _ Hi)) as Hkeys. pose proof Hnear as Hnear'.
  destruct (reassdatagrams st) as [|r0 l0] eqn:E0; [cbn; rewrite andb_false_r; apply Hstop|].
  destruct (exists_last (l := r0 :: l0) ltac:(done)) as (l & e & E). rewrite E in *.
  rewrite removelast_last.
  destruct (decide (key (iphdr e) = key h)) as [Hk|Hk].
  - assert (Hother : others h (l ++ [e]) = l).
    { unfold others. rewrite filter_app, filter_cons_False, app_nil_r by (intros ?; done).
      apply others_all. by apply (keys_own h l e []). }
    rewrite Hother. destruct l as [|a l]; [cbn; rewrite andb_false_r; apply Hstop|].
    destruct l as [|b l].
    + cbn [last]. apply (Hgo [] a [e]); auto; [|done]. rewrite <- Hk. intros Hka.
      cbn in Hkeys. apply NoDup_cons in Hkeys as [Hkeys _]. apply Hkeys. cbn in Hka. rewrite Hka. left.
    + exfalso. cbn in Hnear. apply Hnear. rewrite fmap_app. apply elem_of_app. right. cbn. rewrite Hk. left.
  - assert (Hother : others h (l ++ [e]) = others h l ++ [e]).
    { unfold others. by rewrite filter_app, filter_cons_True. }
    rewrite Hother, last_snoc. apply (Hgo l e []); auto. rewrite app_nil_r. by apply near_front_snoc in Hnear.
Qed.

Lemma near_front_none h l : key h ∉ (key ∘ iphdr) <$> l -> near_front h l.
Proof.
  destruct l as [|a [|b l]]; try done. cbn. intros Hk Hin. apply Hk. by do 2 right.
Qed.


(** ** One fragment *)

Lemma place_order new prev l v l1 l2 v' :
  StronglySorted (fun a b => start a < start b) l -> place new prev l v = Some (l1, l2, v') ->
  l = l1 ++ l2 /\ Forall (fun a => start a < start new) l1 /\ Forall (fun a => start new < start a) l2.
Proof.
  intros Hs. revert prev v l1 l2 v'. induction Hs as [|q l Hl IH Hq]; intros prev v l1 l2 v'; cbn [place].
  - by intros [= <- <- <-].
  - destruct (Z.ltb_spec (start new) (start q)).
    + assert (Hgt : Forall (fun a => start new < start a) (q :: l)).
      { constructor; [done|]. eapply Forall_impl; [exact Hq|]. cbn. lia. }
      destruct prev as [pr|]; [destruct (_ || _); [done|]|]; intros [= <- <- <-]; split_and!; try done; constructor.
    + destruct (Z.eqb_spec (start new) (start q)); [done|]. destruct (start new <? fend q); [done|].
      destruct (place new (Some q) l _) as [[[m1 m2] w]|] eqn:E; [|done]. cbn. intros [= <- <- <-].
      destruct (IH _ _ _ _ _ E) as (-> & H1 & H2). split_and!; [done| |done]. constructor; [lia|done].
Qed.

Lemma sorted_insert l1 new l2 :
  StronglySorted (fun a b => start a < start b) (l1 ++ l2) ->
  Forall (fun a => start a < start new) l1 -> Forall (fun a => start new < start a) l2 ->
  StronglySorted (fun a b => start a < start b) (l1 ++ new :: l2).
Proof.
  intros Hs H1 H2. induction l1 as [|a l1 IH]; cbn in *; [by constructor|].
  apply StronglySorted_inv in Hs as [Hs Ha]. apply Forall_cons in H1 as [Ha1 H1].
  constructor; [by apply IH|]. apply Forall_app in Ha as [Hb Hc]. apply Forall_app_2; [done|]. by constructor.
Qed.

(** The fragments of an entry that may be new. *)
Definition frags_pre (l : list frag) : Prop := l = [] \/ frags_ok l.

Lemma chain_frag_ok ipr q h :
  frags_pre (p ipr) -> IP_HLEN <= plen q ->
  match chain_frag ipr q h with
  | None => p ipr <> []
  | Some (l, _) => frags_ok l /\ clen_sum l = clen_sum (p ipr) + pbuf_clen q
  end.
Proof.
  intros Hp Hq. unfold chain_frag.
  destruct (place _ None (p ipr) true) as [[[l1 l2] v]|] eqn:E; cbn [mbind option_bind].
  - assert (Hs : StronglySorted (fun a b => start a < start b) (p ipr) /\
                 Forall (fun f => IP_HLEN <= plen (fp f)) (p ipr)).
    { destruct Hp as [->|[? ? ?]]; [|done]. split; constructor. }
    destruct Hs as [Hs Hh]. destruct (place_order _ _ _ _ _ _ _ Hs E) as (Ep & H1 & H2).
    rewrite Ep in *. split; [split|].
    + intros Hn%app_eq_nil. by destruct Hn.
    + apply Forall_app in Hh as [Hh1 Hh2]. apply Forall_app_2; [done|]. by constructor.
    + by apply sorted_insert.
    + rewrite !clen_sum_app. cbn [clen_sum fp]. lia.
  - intros En. by rewrite En in E.
Qed.

Lemma cat_all_clen q l :
  pbuf_clen (cat_all q l) = u8 (pbuf_clen q + clen_sum l).
Proof.
  revert q. induction l as [|f l IH]; intros q; cbn [cat_all clen_sum].
  - rewrite Z.add_0_r. unfold pbuf_clen. zlia.
  - rewrite IH. assert (E : pbuf_clen (pbuf_cat q (default (fp f) (pbuf_header (fp f) (- IP_HLEN)))) =
                            u8 (pbuf_clen q + pbuf_clen (fp f))).
    { unfold pbuf_clen, pbuf_cat. cbn [segs]. rewrite length_app.
      assert (El : length (segs (default (fp f) (pbuf_header (fp f) (- IP_HLEN)))) = length (segs (fp f))).
      { unfold pbuf_header. destruct (segs (fp f)) as [|s l'] eqn:Es; [cbn; by rewrite Es|].
        change (- IP_HLEN =? 0) with false. change (- IP_HLEN <? 0) with true. cbn iota.
        destruct (_ <=? _)%nat; cbn; by rewrite ?Es. }
      rewrite El. zlia. }
    rewrite E. zlia.
Qed.

(** The state in which a fragment of the datagram [e] is stored. *)
Record ready (st : reass P) (l1 : list reassdata) (e : reassdata) (l2 : list reassdata) : Prop := {
  rd_list : reassdatagrams st = l1 ++ e :: l2;
  rd_nodes : NoDup (node <$> reassdatagrams st);
  rd_pool : holds (pool st) (node <$> reassdatagrams st);
  rd_keys : NoDup ((key ∘ iphdr) <$> reassdatagrams st);
  rd_frags : Forall (frags_ok ∘ p) (l1 ++ l2);
  rd_e : frags_pre (p e);
  rd_count : ip_reass_pbufcount st = queued (reassdatagrams st);
  rd_timer : Forall (fun r => 0 <= timer r <= IP_REASS_MAXAGE) (reassdatagrams st);
  rd_age : StronglySorted (fun a b => timer b <= timer a) (reassdatagrams st)
}.

Lemma inv_ready st l1 e l2 : inv st -> reassdatagrams st = l1 ++ e :: l2 -> ready st l1 e l2.
Proof.
  intros [[I1 I2 I3 I4 I5 I6] It Ia] E. split; try done; rewrite E in I4;
    apply Forall_app in I4 as [J1 J2]; apply Forall_cons in J2 as [J2 J3].
  - by apply Forall_app_2.
  - by right.
Qed.

(** Two entries of the same datagram. *)
Definition same_entry (a b : reassdata) : Prop :=
  node a = node b /\ key (iphdr a) = key (iphdr b) /\ timer a = timer b.

(** The entry changes. *)
Lemma ready_change st l1 e l2 e' n ev :
  ready st l1 e l2 -> same_entry e' e -> frags_ok (p e') ->
  n = queued (l1 ++ e' :: l2) -> n <= IP_REASS_MAX_PBUFS ->
  inv (mkState (l1 ++ e' :: l2) n (pool st) ev).
Proof.
  intros [R1 R2 R3 R4 R5 R6 R7 R8 R9] (E1 & E2 & E3) Hf -> Hm. rewrite R1 in *.
  split; [split|..]; cbn [reassdatagrams pool ip_reass_pbufcount]; try done.
  - rewrite !fmap_app, !fmap_cons, E1 in *. done.
  - rewrite !fmap_app, !fmap_cons, E1 in *. done.
  - rewrite !fmap_app, !fmap_cons in *. cbn [compose] in *. by rewrite E2.
  - apply Forall_app in R5 as [J1 J2]. apply Forall_app_2; [done|]. by constructor.
  - apply Forall_app in R8 as [J1 J2]. apply Forall_cons in J2 as [J2 J3].
    apply Forall_app_2; [done|]. constructor; [by rewrite E3|done].
  - clear -R9 E3. induction l1 as [|x l1 IH]; cbn in *; apply StronglySorted_inv in R9 as [Ra Rb].
    + constructor; [done|]. by rewrite E3.
    + constructor; [by apply IH|]. apply Forall_app in Rb as [J1 J2]. apply Forall_cons in J2 as [J2 J3].
      apply Forall_app_2; [done|]. constructor; [by rewrite E3|done].
Qed.

(** The entry goes. *)
Lemma ready_remove st l1 e l2 m n ev :
  ready st l1 e l2 -> holds m (node <$> l1 ++ l2) -> n = queued (l1 ++ l2) -> n <= IP_REASS_MAX_PBUFS ->
  inv (mkState (l1 ++ l2) n m ev).
Proof.
  intros [R1 R2 R3 R4 R5 R6 R7 R8 R9] Hm -> Hn. rewrite R1 in *.
  assert (Hnd : forall (B : Type) (g : reassdata -> B), NoDup (g <$> l1 ++ e :: l2) -> NoDup (g <$> l1 ++ l2)).
  { intros B g. rewrite !fmap_app, !fmap_cons. intros (J1 & J2 & J3)%NoDup_app.
    apply NoDup_cons in J3 as [_ J3]. apply NoDup_app. split_and!; auto. intros x Hx Hx2.
    apply (J2 x Hx). by right. }
  split; [split|..]; cbn [reassdatagrams pool ip_reass_pbufcount]; auto.
  - apply Forall_app in R8 as [J1 J2]. apply Forall_cons in J2 as [J2 J3]. by apply Forall_app_2.
  - clear -R9. induction l1 as [|x l1 IH]; cbn in *; apply StronglySorted_inv in R9 as [Ra Rb]; [done|].
    constructor; [by apply IH|]. apply Forall_app in Rb as [J1 J2]. apply Forall_cons in J2 as [J2 J3].
    by apply Forall_app_2.
Qed.


(** [ip_reass] marks the entry when the fragment is the last one. *)
Definition marked (h : ip_hdr) (e : reassdata) : reassdata :=
  if more_fragments h then e else set_last (u16 (frag_offset h + frag_len h)) e.
Definition assembled (e : reassdata) (f : frag) (l : list frag) : pbuf :=
  cat_all (put_ip_hdr (datagram_hdr (iphdr e) (u16 (datagram_len e + IP_HLEN))) (fp f)) l.

Lemma reass_into_spec st l1 e0 l2 e prev h q :
  ready st l1 e0 l2 -> same_entry e e0 -> p e = p e0 -> (l1 = [] \/ prev = node_of None l1) ->
  IP_HLEN <= plen q -> ip_reass_pbufcount st + pbuf_clen q <= IP_REASS_MAX_PBUFS ->
  exists out st', reass_into e prev h q st = Some (out, st') /\ inv st' /\
    match chain_frag (marked h e) q h with
    | None => out = None /\ reassdatagrams st' = l1 ++ marked h e :: l2 /\ events st' = events st ++ [Free q]
    | Some (l, false) =>
        out = None /\ reassdatagrams st' = l1 ++ set_p l (marked h e) :: l2 /\ events st' = events st
    | Some ([], true) => False
    | Some (f :: l, true) =>
        out = Some (assembled (marked h e) f l) /\ reassdatagrams st' = l1 ++ l2 /\ events st' = events st
    end.
Proof.
  intros HR (Ee1 & Ee2 & Ee3) Ep Hp Hq Hc. pose proof HR as [R1 R2 R3 R4 R5 R6 R7 R8 R9].
  set (e' := marked h e).
  assert (He' : same_entry e' e0 /\ p e' = p e0).
  { unfold e', marked. destruct (more_fragments h); by rewrite <- ?Ep. }
  destruct He' as [(F1 & F2 & F3) Fp].
  pose proof (pbuf_clen_range q) as Hcq. pose proof (queued_nonneg (reassdatagrams st)) as Hn.
  unfold IP_REASS_MAX_PBUFS in Hc.
  pose proof (chain_frag_ok e' q h) as Hch. rewrite Fp in Hch. specialize (Hch R6 Hq).
  unfold reass_into. fold (marked h e). fold e'.
  assert (Hst : forall r, node r = node e0 ->
    (fun x => if node x =? node r then r else x) <$> reassdatagrams st = l1 ++ r :: l2).
  { intros r Hr. rewrite R1. apply store_mid; [by rewrite <- R1|done]. }
  destruct (chain_frag e' q h) as [[l b]|] eqn:Ech.
  - destruct Hch as [Hl Hsum]. pose proof (clen_sum_nonneg l).
    assert (Hu : u16 (ip_reass_pbufcount st + pbuf_clen q) = ip_reass_pbufcount st + pbuf_clen q)
      by (apply u16_small; unfold in_u16; lia).
    assert (Hq' : queued (l1 ++ l2) = ip_reass_pbufcount st - clen_sum (p e0)).
    { rewrite R7, R1, !queued_app. cbn [queued]. lia. }
    destruct b.
    + pose proof (fo_some _ Hl). destruct l as [|f l]; [done|].
      destruct (dequeue_spec (with_count (ip_reass_pbufcount st + pbuf_clen q) st) l1 e0 l2 prev)
        as (m & Hd & Hm); try done.
      rewrite F1, Hu, Hd. cbn [mbind option_bind]. do 2 eexists. split; [done|]. split; [|done].
      cbn [with_count with_pool with_list reassdatagrams ip_reass_pbufcount pool events].
      cbn [clen_sum] in Hsum. pose proof (clen_sum_nonneg (p e0)). pose proof (queued_nonneg (l1 ++ l2)).
      assert (Hfin : u16 (ip_reass_pbufcount st + pbuf_clen q -
                pbuf_clen (assembled e' f l)) = queued (l1 ++ l2)).
      { unfold assembled. rewrite cat_all_clen, put_hdr_clen, Hsum, u8_small by (unfold in_u8; lia).
        rewrite u16_small by (unfold in_u16; lia). lia. }
      apply (ready_remove st l1 e0 l2); [done|done|done|].
      change (u16 (ip_reass_pbufcount st + pbuf_clen q - pbuf_clen (assembled e' f l)) <= IP_REASS_MAX_PBUFS).
      rewrite Hfin. unfold IP_REASS_MAX_PBUFS. lia.
    + do 2 eexists. split; [by destruct l|]. unfold store.
      cbn [with_count with_list reassdatagrams ip_reass_pbufcount pool events].
      rewrite (Hst (set_p l e')) by done. split; [|by destruct l].
      rewrite Hu. apply (ready_change st l1 e0 l2); try done.
      rewrite queued_app in Hq' |- *. cbn [queued set_p p with_count ip_reass_pbufcount]. lia.
  - do 2 eexists. split; [done|]. unfold store, emit.
    cbn [with_count with_list reassdatagrams ip_reass_pbufcount pool events].
    rewrite (Hst e') by done. split; [|done].
    rewrite (u16_small (_ + _)) by (unfold in_u16; lia). rewrite u16_small by (unfold in_u16; lia).
    apply (ready_change st l1 e0 l2); try done.
    + rewrite Fp. by destruct R6.
    + rewrite R7, R1, !queued_app. cbn [queued]. rewrite Fp. lia.
    + unfold IP_REASS_MAX_PBUFS. lia.
Qed.

(** The entry of a datagram. *)
Definition entry (st : reass P) (h : ip_hdr) : option reassdata :=
  (find_datagram h (reassdatagrams st) None).1.

(** What the fragment [q] does to its datagram: the result of [ip_reass] and the
    new entry, or [None] when the fragment is freed. *)
Definition start_entry (st : reass P) (h : ip_hdr) (e : reassdata) : Prop :=
  match entry st h with
  | Some e0 =>
      e = if (Z.land (lwip_ntohs (_offset h)) IP_OFFMASK =? 0) &&
             negb (Z.land (lwip_ntohs (_offset (iphdr e0))) IP_OFFMASK =? 0)
          then set_iphdr h e0 else e0
  | None => exists a, e = new_datagram a h
  end.


Lemma entry_Some st h e :
  NoDup ((key ∘ iphdr) <$> reassdatagrams st) ->
  entry st h = Some e <-> e ∈ reassdatagrams st /\ key (iphdr e) = key h.
Proof.
  intros Hn. unfold entry. pose proof (find_datagram_spec h (reassdatagrams st) None) as Hf.
  destruct (find_datagram _ _ _) as [[x|] pr]; cbn.
  - destruct Hf as (l1 & l2 & E & Hk & Hl & _). rewrite E in *. split.
    + intros [= <-]. split; [|done]. apply elem_of_app. right. left.
    + intros [He Hke]. rewrite fmap_app, fmap_cons in Hn. apply NoDup_app in Hn as (_ & H1 & H2).
      apply NoDup_cons in H2 as [H2 _]. apply elem_of_app in He as [He|He].
      * exfalso. apply Hl. rewrite <- Hke. by apply (list_elem_of_fmap_2 (key ∘ iphdr)).
      * apply elem_of_cons in He as [->|He]; [done|]. exfalso. apply H2. cbn. rewrite Hk, <- Hke.
        by apply (list_elem_of_fmap_2 (key ∘ iphdr)).
  - split; [done|]. intros [He Hke]. exfalso. apply Hf. rewrite <- Hke.
    by apply (list_elem_of_fmap_2 (key ∘ iphdr)).
Qed.
Lemma entry_None st h : entry st h = None <-> key h ∉ (key ∘ iphdr) <$> reassdatagrams st.
Proof.
  unfold entry. pose proof (find_datagram_spec h (reassdatagrams st) None) as Hf.
  destruct (find_datagram _ _ _) as [[x|] pr]; cbn; [|done]. split; [done|]. intros Hn. exfalso. apply Hn.
  destruct Hf as (l1 & l2 & -> & Hk & _). rewrite fmap_app, fmap_cons. apply elem_of_app. right.
  cbn. rewrite Hk. left.
Qed.

Lemma entry_key st h h' : key h = key h' -> entry st h = entry st h'.
Proof.
  intros Hk. unfold entry. generalize (None : option Z) as pr. generalize (reassdatagrams st) as l.
  induction l as [|x l IH]; intros pr; [done|]. cbn. rewrite !match_key, Hk. case_bool_decide; [done|]. apply IH.
Qed.

(** A fragment's entry is found, or made. *)
Lemma ready_found st h e prev :
  inv st -> find_datagram h (reassdatagrams st) None = (Some e, prev) ->
  exists l1 l2, ready st l1 e l2 /\ prev = node_of None l1 /\ key (iphdr e) = key h.
Proof.
  intros Hi E. pose proof (find_datagram_spec h (reassdatagrams st) None) as Hf. rewrite E in Hf.
  destruct Hf as (l1 & l2 & El & Hk & _ & Hp). exists l1, l2. split_and!; [by apply inv_ready|done|done].
Qed.
Lemma ready_new st h a m :
  inv st -> key h ∉ (key ∘ iphdr) <$> reassdatagrams st -> alloc (pool st) = Some (a, m) ->
  ready (with_list (new_datagram a h :: reassdatagrams st) (with_pool m st)) []
    (new_datagram a h) (reassdatagrams st).
Proof.
  intros [[I1 I2 I3 I4 I5 I6] It Ia] Hk Ha. pose proof (alloc_new _ _ I2) as Hal. rewrite Ha in Hal.
  destruct Hal as [Hal Hh].
  split; cbn [with_list with_pool reassdatagrams ip_reass_pbufcount pool new_datagram p app]; try done.
  - by constructor.
  - by constructor.
  - by left.
  - constructor; [|done]. cbn. unfold IP_REASS_MAXAGE. lia.
  - constructor; [done|]. eapply Forall_impl; [exact It|]. cbn. intros; lia.
Qed.

(** What [ip_reass] does with a fragment that needs no other to go. *)
Lemma ip_reass_step st q h :
  inv st -> ip_hdr_at q = Some h -> IPH_HL h * 4 = IP_HLEN ->
  ip_reass_pbufcount st + pbuf_clen q <= IP_REASS_MAX_PBUFS ->
  (entry st h = None -> (length (reassdatagrams st) < capacity P)%nat) ->
  exists st1 l1 e0 l2 e prev, ip_reass q st = reass_into e prev h q st1 /\
    ready st1 l1 e0 l2 /\ same_entry e e0 /\ p e = p e0 /\ (l1 = [] \/ prev = node_of None l1) /\
    key (iphdr e) = key h /\ start_entry st h e /\
    ip_reass_pbufcount st1 = ip_reass_pbufcount st /\ events st1 = events st /\
    (entry st h = Some e0 /\ st1 = st \/
     entry st h = None /\ l1 = [] /\ l2 = reassdatagrams st).
Proof.
  intros Hi Hh Hl Hc Hcap. unfold ip_reass. rewrite Hh. cbn [mbind option_bind].
  rewrite Hl, Z.eqb_refl. cbn [negb]. destruct (Z.ltb_spec IP_REASS_MAX_PBUFS (ip_reass_pbufcount st + pbuf_clen q)); [lia|].
  cbn [mbind option_bind]. cbn [negb].
  unfold start_entry. destruct (find_datagram h (reassdatagrams st) None) as [[e|] prev] eqn:E.
  - destruct (ready_found _ _ _ _ Hi E) as (l1 & l2 & Hr & -> & Hk).
    assert (Ee : entry st h = Some e) by (unfold entry; by rewrite E). rewrite Ee.
    destruct (_ && _); do 6 eexists; (split; [reflexivity|]); split_and!; try done; auto.
  - assert (Ee : entry st h = None) by (unfold entry; by rewrite E). rewrite Ee.
    pose proof (proj1 (entry_None _ _) Ee) as Hk. specialize (Hcap Ee).
    unfold ip_reass_enqueue_new_datagram.
    destruct (alloc (pool st)) as [[a m]|] eqn:Ea.
    + cbn [mbind option_bind]. do 6 eexists. split; [reflexivity|]. split; [exact (ready_new st h a m Hi Hk Ea)|].
      split_and!; try done; [by left|by eexists|]. right. done.
    + exfalso. pose proof (alloc_new _ _ (inv_pool _ (inv_0 _ Hi))) as Hal. rewrite Ea in Hal.
      rewrite length_fmap in Hal. lia.
Qed.


(** The buffers that events free. *)
Fixpoint freed (l : list event) : Z :=
  match l with
  | [] => 0
  | Free q :: l => pbuf_clen q + freed l
  | IcmpTimeExceeded _ :: l => freed l
  end.
Lemma freed_app l1 l2 : freed (l1 ++ l2) = freed l1 + freed l2.
Proof. induction l1 as [|[q|q] l1 IH]; cbn; lia. Qed.
Lemma freed_free_all l : freed (free_all l) = clen_sum l.
Proof. induction l as [|f l IH]; cbn; [done|]. unfold free_all in IH. by rewrite IH. Qed.
Lemma freed_given_up r : freed (given_up r) = clen_sum (p r).
Proof.
  unfold given_up. destruct (p r) as [|f l]; [done|]. destruct (start f =? 0).
  - cbn [freed clen_sum]. by rewrite put_hdr_clen, freed_free_all.
  - by rewrite freed_free_all.
Qed.
Lemma freed_gone l : freed (mjoin (given_up <$> l)) = queued l.
Proof. induction l as [|r l IH]; cbn; [done|]. rewrite freed_app, freed_given_up. by rewrite <- IH. Qed.
Lemma queued_perm l l' : l ≡ₚ l' -> queued l = queued l'.
Proof. induction 1; cbn; lia. Qed.

(** No buffer is lost: those of the packet and of the queue before are in the
    queue, freed, or in the datagram that is passed on. *)
Definition accounted (q : pbuf) (out : option pbuf) (st st' : reass P) : Prop :=
  exists ev, events st' = events st ++ ev /\
    ip_reass_pbufcount st + pbuf_clen q =
      ip_reass_pbufcount st' + freed ev + match out with Some d => pbuf_clen d | None => 0 end.

Lemma evicted_freed h st st' n :
  inv st -> inv st' -> evicted h st st' n -> exists ev, events st' = events st ++ ev /\ freed ev = n.
Proof.
  intros I1 I2 [_ _ E1 _ (gone & E2 & E3)]. exists (mjoin (given_up <$> gone)). split; [done|].
  rewrite freed_gone. apply queued_perm in E3. rewrite queued_app in E3.
  rewrite (inv_count _ (inv_0 _ I1)), (inv_count _ (inv_0 _ I2)) in E1. lia.
Qed.

Lemma inv_emit ev st : inv st -> inv (emit ev st).
Proof. intros [[] ? ?]. by split. Qed.

Lemma dropped_ok h q st st' n :
  inv st -> inv st' -> evicted h st st' n -> accounted q None st (emit [Free q] st').
Proof.
  intros I1 I2 V. destruct (evicted_freed _ _ _ _ I1 I2 V) as (ev & E1 & E2).
  exists (ev ++ [Free q]). cbn [emit events ip_reass_pbufcount]. rewrite E1, app_assoc. split; [done|].
  rewrite freed_app, E2, (ev_count _ _ _ _ V). cbn [freed]. lia.
Qed.

Lemma into_ok st st1 l1 e0 l2 e prev h q :
  ready st1 l1 e0 l2 -> same_entry e e0 -> p e = p e0 -> (l1 = [] \/ prev = node_of None l1) ->
  IP_HLEN <= plen q -> ip_reass_pbufcount st1 + pbuf_clen q <= IP_REASS_MAX_PBUFS ->
  (exists ev, events st1 = events st ++ ev /\ ip_reass_pbufcount st = ip_reass_pbufcount st1 + freed ev) ->
  exists out st', reass_into e prev h q st1 = Some (out, st') /\ inv st' /\ accounted q out st st'.
Proof.
  intros HR Hs Ep Hp Hq Hc (ev & E1 & E2).
  destruct (reass_into_spec st1 l1 e0 l2 e prev h q HR Hs Ep Hp Hq Hc) as (out & st' & H1 & H2 & H3).
  exists out, st'. split_and!; try done. unfold accounted. pose proof (rd_count _ _ _ _ HR) as Hcnt.
  rewrite (rd_list _ _ _ _ HR), queued_app in Hcnt. cbn [queued] in Hcnt.
  pose proof (inv_count _ (inv_0 _ H2)) as Hcnt'.
  assert (Fp : p (marked h e) = p e0) by (unfold marked; destruct (more_fragments h); by rewrite <- Ep).
  pose proof (chain_frag_ok (marked h e) q h) as Hch. rewrite Fp in Hch. specialize (Hch (rd_e _ _ _ _ HR) Hq).
  destruct (chain_frag (marked h e) q h) as [[[|f l] [|]]|].
  - done.
  - destruct Hch as [[Hch _ _] _]. done.
  - destruct H3 as (-> & L & Ev), Hch as [_ Hsum]. exists ev. rewrite Ev. split; [done|].
    rewrite L, queued_app in Hcnt'. unfold assembled. rewrite cat_all_clen, put_hdr_clen.
    cbn [clen_sum] in Hsum. rewrite Hsum. pose proof (pbuf_clen_range q). pose proof (clen_sum_nonneg (p e0)).
    pose proof (queued_nonneg l1). pose proof (queued_nonneg l2). unfold IP_REASS_MAX_PBUFS in Hc.
    rewrite u8_small by (unfold in_u8; lia). lia.
  - destruct H3 as (-> & L & Ev), Hch as [_ Hsum]. exists ev. rewrite Ev. split; [done|].
    rewrite L, queued_app in Hcnt'. cbn [queued set_p p] in Hcnt'. lia.
  - destruct H3 as (-> & L & Ev). exists (ev ++ [Free q]). rewrite Ev, E1, app_assoc. split; [done|].
    rewrite L, queued_app in Hcnt'. cbn [queued] in Hcnt'. rewrite Fp in Hcnt'.
    rewrite freed_app. cbn [freed]. lia.
Qed.

Lemma ip_reass_total st q h :
  inv st -> ip_hdr_at q = Some h ->
  (near_front h (reassdatagrams st) \/ ip_reass_pbufcount st + pbuf_clen q <= IP_REASS_MAX_PBUFS) ->
  exists out st', ip_reass q st = Some (out, st') /\ inv st' /\ accounted q out st st'.
Proof.
  intros Hi Hh Hnear. pose proof (evicted_refl h st) as V0. unfold ip_reass. rewrite Hh. cbn [mbind option_bind].
  assert (Hq : IP_HLEN <= plen q).
  { unfold ip_hdr_at in Hh. destruct (Z.leb_spec IP_HLEN (plen q)); done. }
  destruct (Z.eqb_spec (IPH_HL h * 4) IP_HLEN) as [Hl|Hl]; cbn [negb].
  2:{ do 2 eexists. split; [done|]. split; [by apply inv_emit|]. by apply (dropped_ok h q st st 0). }
  assert (Hroom : exists b n st1,
    (if IP_REASS_MAX_PBUFS <? ip_reass_pbufcount st + pbuf_clen q then
        '(n, st) ← ip_reass_remove_oldest_datagram h (pbuf_clen q) st;
        Some (negb (n =? 0) && (ip_reass_pbufcount st + pbuf_clen q <=? IP_REASS_MAX_PBUFS), st)
      else Some (true, st)) = Some (b, st1) /\ inv st1 /\ evicted h st st1 n /\
    (b = true -> ip_reass_pbufcount st1 + pbuf_clen q <= IP_REASS_MAX_PBUFS)).
  { destruct (Z.ltb_spec IP_REASS_MAX_PBUFS (ip_reass_pbufcount st + pbuf_clen q)).
    - destruct Hnear as [Hnear|]; [|lia]. unfold ip_reass_remove_oldest_datagram.
      destruct (remove_loop_spec h (pbuf_clen q) (S (length (reassdatagrams st))) 0 st) as (n & st1 & -> & I1 & V1);
        [lia|done|done|lia|]. cbn [mbind option_bind]. do 3 eexists. split; [done|]. split_and!; [done|exact V1|].
      intros [_ Hb]%andb_prop. by apply Z.leb_le.
    - exists true, 0, st. split_and!; done. }
  destruct Hroom as (b & n & st1 & -> & I1 & V1 & Hb). cbn [mbind option_bind].
  destruct b; cbn [negb].
  2:{ do 2 eexists. split; [done|]. split; [by apply inv_emit|]. by apply (dropped_ok h q st st1 n). }
  specialize (Hb eq_refl). destruct (evicted_freed _ _ _ _ Hi I1 V1) as (ev & Ev1 & Ev2).
  pose proof (ev_count _ _ _ _ V1) as Hn1.
  destruct (find_datagram h (reassdatagrams st1) None) as [[e|] prev] eqn:E.
  - destruct (ready_found _ _ _ _ I1 E) as (l1 & l2 & Hr & -> & Hk).
    eapply (into_ok st st1 l1 e l2); try done; [by destruct (_ && _)|by destruct (_ && _)|by right|].
    exists ev. split; [done|lia].
  - assert (Hk : key h ∉ (key ∘ iphdr) <$> reassdatagrams st1).
    { apply entry_None. unfold entry. by rewrite E. }
    unfold ip_reass_enqueue_new_datagram. destruct (alloc (pool st1)) as [[a m]|] eqn:Ea.
    + cbn [mbind option_bind]. eapply (into_ok st _ [] (new_datagram a h)); [exact (ready_new st1 h a m I1 Hk Ea)|..];
        try done; [by left|]. exists ev. split; [done|cbn; lia].
    + unfold ip_reass_remove_oldest_datagram.
      destruct (remove_loop_spec h (pbuf_clen q) (S (length (reassdatagrams st1))) 0 st1) as (n2 & st2 & -> & I2 & V2);
        [lia|done|by apply near_front_none|lia|]. cbn [mbind option_bind].
      pose proof (evicted_trans _ _ _ _ _ _ V1 V2) as V.
      destruct (pbuf_clen q <=? 0 + n2).
      * destruct (alloc (pool st2)) as [[a m]|] eqn:Ea2; cbn [mbind option_bind].
        -- assert (Hk2 : key h ∉ (key ∘ iphdr) <$> reassdatagrams st2).
           { intros Hin. apply Hk. eapply elem_of_submseteq; [exact Hin|]. apply fmap_submseteq, sublist_submseteq, V2. }
           destruct (evicted_freed _ _ _ _ Hi I2 V) as (ev2 & W1 & W2). pose proof (ev_count _ _ _ _ V2).
           pose proof (ev_pos _ _ _ _ V2).
           eapply (into_ok st _ [] (new_datagram a h)); [exact (ready_new st2 h a m I2 Hk2 Ea2)|..];
             try done; [by left|cbn; lia|]. exists ev2. split; [done|cbn; lia].
        -- do 2 eexists. split; [done|]. split; [by apply inv_emit|]. by apply (dropped_ok h q st st2 (n + n2)).
      * do 2 eexists. split; [done|]. split; [by apply inv_emit|]. by apply (dropped_ok h q st st2 (n + n2)).
Qed.


(** ** A whole datagram *)

Lemma find_skip h l1 e l2 prev :
  key (iphdr e) <> key h ->
  exists prev', (find_datagram h (l1 ++ e :: l2) prev).1 = (find_datagram h (l1 ++ l2) prev').1.
Proof.
  intros He. revert prev. induction l1 as [|x l1 IH]; intros prev; cbn [app find_datagram].
  - rewrite match_key, bool_decide_eq_false_2 by done. by eexists.
  - destruct (IH (Some (node x))) as (prev' & IH'). exists prev.
    rewrite match_key. case_bool_decide; [done|]. rewrite IH'. clear. generalize (Some (node x)) as pr.
    generalize (l1 ++ l2) as l. intros l. revert prev'. induction l as [|y l IHl]; intros prev' pr; [done|]. cbn.
    by destruct (IP_ADDRESSES_AND_ID_MATCH _ _).
Qed.
Lemma find_prev h l p1 p2 : (find_datagram h l p1).1 = (find_datagram h l p2).1.
Proof.
  revert p1 p2. induction l as [|y l IH]; intros p1 p2; [done|]. cbn.
  by destruct (IP_ADDRESSES_AND_ID_MATCH _ _).
Qed.
Lemma entry_other h st st' l1 l2 e :
  reassdatagrams st = l1 ++ e :: l2 -> key (iphdr e) <> key h ->
  (reassdatagrams st' = l1 ++ l2 \/
   exists e', reassdatagrams st' = l1 ++ e' :: l2 /\ key (iphdr e') <> key h) ->
  entry st' h = entry st h.
Proof.
  intros E Hk Hst. unfold entry. rewrite E. destruct (find_skip h l1 e l2 None Hk) as (pr & ->).
  destruct Hst as [->|(e' & -> & Hk')]; [apply find_prev|].
  destruct (find_skip h l1 e' l2 None Hk') as (pr' & ->). apply find_prev.
Qed.

Lemma set_last_key n e : iphdr (set_last n e) = iphdr e.
Proof. done. Qed.
Lemma marked_iphdr h e : iphdr (marked h e) = iphdr e.
Proof. unfold marked. by destruct (more_fragments h). Qed.

Lemma hdr_at_len q h : ip_hdr_at q = Some h -> IP_HLEN <= plen q.
Proof. unfold ip_hdr_at. destruct (Z.leb_spec IP_HLEN (plen q)); done. Qed.
Lemma accounted_count q out st st' :
  accounted q out st st' -> ip_reass_pbufcount st' <= ip_reass_pbufcount st + pbuf_clen q.
Proof.
  intros (ev & _ & E). assert (0 <= freed ev).
  { clear. induction ev as [|[q|q] ev IH]; cbn; [lia| |done]. pose proof (pbuf_clen_range q). lia. }
  assert (0 <= match out with Some d => pbuf_clen d | None => 0 end)
    by (destruct out as [d|]; [apply pbuf_clen_range|lia]).
  lia.
Qed.

(** A fragment of another datagram, when there is room. *)
Lemma ip_reass_other st q h h0 :
  inv st -> ip_hdr_at q = Some h -> key h <> key h0 ->
  ip_reass_pbufcount st + pbuf_clen q <= IP_REASS_MAX_PBUFS ->
  (length (reassdatagrams st) < capacity P)%nat ->
  exists out st', ip_reass q st = Some (out, st') /\ inv st' /\ entry st' h0 = entry st h0 /\
    ip_reass_pbufcount st' <= ip_reass_pbufcount st + pbuf_clen q /\
    (length (reassdatagrams st') <= S (length (reassdatagrams st)))%nat.
Proof.
  intros Hi Hh Hk Hc Hcap.
  destruct (ip_reass_total st q h Hi Hh (or_intror Hc)) as (out & st' & Eq & I' & Hacc).
  exists out, st'. split; [done|]. split; [done|].
  pose proof (accounted_count _ _ _ _ Hacc) as Hcount.
  destruct (Z.eqb_spec (IPH_HL h * 4) IP_HLEN) as [Hl|Hl].
  2:{ unfold ip_reass in Eq. rewrite Hh in Eq. cbn [mbind option_bind] in Eq.
      rewrite (proj2 (Z.eqb_neq _ _) Hl) in Eq. cbn [negb] in Eq. injection Eq as <- <-.
      split; [done|]. split; [done|]. cbn. lia. }
  destruct (ip_reass_step st q h Hi Hh Hl Hc (fun _ => Hcap))
    as (st1 & l1 & e0 & l2 & e & prev & Es & HR & Hs & Ep & Hp & Hke & _ & Hcnt & Hev & Hcase).
  rewrite Es in Eq.
  destruct (reass_into_spec st1 l1 e0 l2 e prev h q HR Hs Ep Hp (hdr_at_len _ _ Hh) ltac:(by rewrite Hcnt)) as (out2 & st2 & E2 & _ & Hc').
  rewrite Eq in E2. injection E2 as <- <-.
  assert (He0 : key (iphdr e0) = key h) by (destruct Hs as (_ & <- & _); done).
  assert (Hlist : reassdatagrams st' = l1 ++ l2 \/
            exists e', reassdatagrams st' = l1 ++ e' :: l2 /\ key (iphdr e') = key h).
  { destruct (chain_frag (marked h e) q h) as [[[|f l] [|]]|]; [done|..].
    - destruct Hc' as (_ & -> & _). right. eexists. split; [done|]. cbn. by rewrite marked_iphdr.
    - destruct Hc' as (_ & -> & _). by left.
    - destruct Hc' as (_ & -> & _). right. eexists. split; [done|]. cbn. by rewrite marked_iphdr.
    - destruct Hc' as (_ & -> & _). right. eexists. split; [done|]. by rewrite marked_iphdr. }
  split; [|split; [done|]].
  - rewrite (entry_other h0 st1 st' l1 l2 e0); [|by apply HR|by rewrite He0|].
    + destruct Hcase as [[_ ->]|(_ & -> & ->)]; [done|].
      symmetry. apply (entry_other h0 st1 st [] (reassdatagrams st) e0); [by apply (rd_list _ _ _ _ HR)|by rewrite He0|by left].
    + destruct Hlist as [Hl'|(e' & Hl' & He')]; [by left|right]. exists e'. by rewrite He'.
  - assert (Hlen : (length (l1 ++ e0 :: l2) <= S (length (reassdatagrams st)))%nat).
    { destruct Hcase as [[_ E]|(_ & -> & ->)]; [|done]. rewrite <- (rd_list _ _ _ _ HR), E. lia. }
    rewrite length_app in Hlen. cbn in Hlen.
    destruct Hlist as [->|(e' & -> & _)]; rewrite length_app; cbn; lia.
Qed.


(** The fragments [whole], in order, make up a datagram; [h0] is the header of
    the first. *)
Record datagram (h0 : ip_hdr) (whole : list frag) : Prop := {
  dg_contiguous : contiguous 0 whole;
  dg_first : exists f, head whole = Some f /\ ip_hdr_at (fp f) = Some h0;
  dg_frag : forall f, f ∈ whole -> exists h, ip_hdr_at (fp f) = Some h /\ IPH_HL h * 4 = IP_HLEN /\
              key h = key h0 /\ mkFrag (frag_offset h) (u16 (frag_offset h + frag_len h)) (fp f) = f /\
              (more_fragments h = false <-> last whole = Some f)
}.

(** The state of the datagram when the fragments [S] have come. *)
Definition at_stage (h0 : ip_hdr) (whole S : list frag) (st : reass P) : Prop :=
  match S with
  | [] => entry st h0 = None
  | _ => exists e, entry st h0 = Some e /\ p e = received S whole /\
      (Z.land (flags e) IP_REASS_FLAG_LASTFRAG = 0 <-> forall z, last whole = Some z -> z ∉ S) /\
      (forall z, last whole = Some z -> z ∈ S -> datagram_len e = fend z) /\
      (forall f, head whole = Some f -> if decide (f ∈ S) then iphdr e = h0
         else Z.land (lwip_ntohs (_offset (iphdr e))) IP_OFFMASK <> 0)
  end.

Lemma offset_zero h : frag_offset h = 0 <-> Z.land (lwip_ntohs (_offset h)) IP_OFFMASK = 0.
Proof.
  unfold frag_offset. set (x := Z.land _ _).
  assert (Hx : 0 <= x < 8192).
  { unfold x, IP_OFFMASK. change 0x1fff with (Z.ones 13). rewrite Z.land_ones by lia.
    apply Z.mod_pos_bound. lia. }
  rewrite u16_small by zlia. lia.
Qed.

Lemma dg_start0 h0 whole f : datagram h0 whole -> f ∈ whole -> start f = 0 <-> head whole = Some f.
Proof.
  intros [Hc (g & Hg & _) _] Hf. destruct whole as [|x w]; [done|]. cbn in *. destruct Hc as (H1 & H2 & H3).
  apply elem_of_cons in Hf as [->|Hf]; [done|]. pose proof (contiguous_after _ _ _ H3 Hf).
  split; [lia|]. intros [= ->]. lia.
Qed.

Lemma land_lastfrag fl : Z.land (Z.lor fl IP_REASS_FLAG_LASTFRAG) IP_REASS_FLAG_LASTFRAG <> 0.
Proof.
  unfold IP_REASS_FLAG_LASTFRAG. intros E. assert (Hb : Z.testbit (Z.land (Z.lor fl 1) 1) 0 = true).
  { rewrite Z.land_spec, Z.lor_spec. change (Z.testbit 1 0) with true. by rewrite orb_true_r. }
  by rewrite E in Hb.
Qed.

(** The fragment [f] is stored: what the walk finds. *)
Lemma chain_frag_received ipr f h S w1 w2 :
  contiguous 0 (w1 ++ f :: w2) -> f ∉ S -> p ipr = received S (w1 ++ f :: w2) ->
  mkFrag (frag_offset h) (u16 (frag_offset h + frag_len h)) (fp f) = f ->
  chain_frag ipr (fp f) h =
    Some (received (f :: S) (w1 ++ f :: w2),
          finished (negb (Z.land (flags ipr) IP_REASS_FLAG_LASTFRAG =? 0)) (received S w1) f (received S w2)).
Proof.
  intros Hc Hf Hp Hmk. unfold chain_frag. cbv zeta. rewrite Hmk, Hp, (place_received S w1 f w2 0) by done.
  cbn [mbind option_bind]. rewrite (received_split _ _ _ _ 0) by done. unfold finished.
  rewrite no_wholes_touches. f_equal. f_equal.
  destruct (Z.land (flags ipr) IP_REASS_FLAG_LASTFRAG =? 0); [done|]. cbn [negb andb].
  by destruct (touches None (received S w1) && _).
Qed.


Lemma received_all S l : (forall x, x ∈ l -> x ∈ S) -> received S l = l.
Proof.
  induction l as [|x l IH]; intros Hl; [done|]. unfold received in *.
  rewrite filter_cons_True by (apply Hl; left). f_equal. apply IH. intros; apply Hl. by right.
Qed.
Lemma received_nil l : received [] l = [].
Proof.
  induction l as [|x l IH]; [done|]. unfold received in *. rewrite filter_cons_False; [done|].
  apply not_elem_of_nil.
Qed.

(** What the validation computes tells whether the datagram is whole. *)
Lemma finished_iff S w1 f w2 (b : bool) :
  contiguous 0 (w1 ++ f :: w2) -> f ∉ S ->
  (forall z, last (w1 ++ f :: w2) = Some z -> b = true <-> z ∈ f :: S) ->
  (forall z, last (w1 ++ f :: w2) = Some z -> z ∈ S -> no_gap_before S w1) ->
  finished b (received S w1) f (received S w2) = true <->
    received (f :: S) (w1 ++ f :: w2) = w1 ++ f :: w2.
Proof.
  intros Hcont HfS Hb Hgap. destruct (contiguous_split _ _ _ _ Hcont) as [Hb1 Hb2].
  rewrite Forall_forall in Hb1, Hb2.
  assert (Hlw : exists z, last (w1 ++ f :: w2) = Some z).
  { destruct (last (w1 ++ f :: w2)) eqn:E; [by eexists|]. by apply last_None, app_eq_nil in E as [_ E]. }
  destruct Hlw as (z & Hz). split.
  - intros Hfin. assert (Hbt : b = true) by (unfold finished in Hfin; by destruct b).
    apply (finished_whole S w1 f w2 b); try done.
    + intros Hr2. apply (Hgap z Hz). apply (Hb z Hz) in Hbt. apply elem_of_cons in Hbt as [->|]; [|done]. exfalso.
      rewrite last_app_cons in Hz. destruct w2 as [|y w2]; [by apply Hr2|]. rewrite last_cons_cons in Hz.
      apply last_Some_elem_of in Hz. specialize (Hb2 _ Hz). unfold before_frag in Hb2. lia.
    + intros z' Hz' _. by apply Hb.
  - intros Hall. assert (Hin : forall x, x ∈ w1 ++ f :: w2 -> x ∈ f :: S).
    { intros x Hx. rewrite <- Hall in Hx. by apply received_in in Hx as [? _]. }
    assert (Hbt : b = true) by (apply (Hb z Hz), Hin, last_Some_elem_of, Hz).
    rewrite !received_all, Hbt; [by apply finished_all| |].
    + intros x Hx. specialize (Hb2 _ Hx). unfold before_frag in Hb2.
      assert (Hx' : x ∈ f :: S) by (apply Hin, elem_of_app; right; by right).
      apply elem_of_cons in Hx' as [->|]; [lia|done].
    + intros x Hx. specialize (Hb1 _ Hx). unfold before_frag in Hb1.
      assert (Hx' : x ∈ f :: S) by (apply Hin, elem_of_app; by left).
      apply elem_of_cons in Hx' as [->|]; [lia|done].
Qed.

(** The entry before the fragment is placed. *)
Lemma entry_facts h0 whole S f h st e :
  datagram h0 whole -> f ∈ whole -> f ∉ S -> at_stage h0 whole S st ->
  ip_hdr_at (fp f) = Some h -> key h = key h0 -> mkFrag (frag_offset h) (u16 (frag_offset h + frag_len h)) (fp f) = f ->
  (more_fragments h = false <-> last whole = Some f) -> start_entry st h e ->
  p e = received S whole /\
  (Z.land (flags (marked h e)) IP_REASS_FLAG_LASTFRAG = 0 <-> forall z, last whole = Some z -> z ∉ f :: S) /\
  (forall z, last whole = Some z -> z ∈ f :: S -> datagram_len (marked h e) = fend z) /\
  (forall g, head whole = Some g -> if decide (g ∈ f :: S) then iphdr (marked h e) = h0
     else Z.land (lwip_ntohs (_offset (iphdr (marked h e)))) IP_OFFMASK <> 0).
Proof.
  intros Hd Hf HfS Hat Hh Hk Hmk Hlast He.
  pose proof (dg_start0 _ _ _ Hd Hf) as H0. destruct (dg_first _ _ Hd) as (g0 & Hg0 & Hgh).
  assert (Hoff : Z.land (lwip_ntohs (_offset h)) IP_OFFMASK = 0 <-> head whole = Some f).
  { rewrite <- H0, <- offset_zero. by replace (start f) with (frag_offset h) by (by rewrite <- Hmk). }
  assert (Hfend : u16 (frag_offset h + frag_len h) = fend f) by (by rewrite <- Hmk).
  assert (Hbase : p e = received S whole /\
    (Z.land (flags e) IP_REASS_FLAG_LASTFRAG = 0 <-> forall z, last whole = Some z -> z ∉ S) /\
    (forall z, last whole = Some z -> z ∈ S -> datagram_len e = fend z) /\
    (if decide (g0 ∈ f :: S) then iphdr e = h0
     else Z.land (lwip_ntohs (_offset (iphdr e))) IP_OFFMASK <> 0)).
  { pose proof (entry_key st h h0 Hk) as Eent.
    unfold start_entry in He. rewrite Eent in He. unfold at_stage in Hat. destruct S as [|s S].
    - rewrite Hat in He. destruct He as (a & ->). rewrite received_nil. split_and!; [done| | |].
      + split; [|done]. intros _ z _. apply not_elem_of_nil.
      + intros z _ Hz. by apply not_elem_of_nil in Hz.
      + cbn [new_datagram iphdr]. case_decide as Hin.
        * apply list_elem_of_singleton in Hin as ->. congruence.
        * intros E. apply Hoff in E. rewrite Hg0 in E. injection E as ->. apply Hin. left.
    - destruct Hat as (e0 & E0 & P1 & P2 & P3 & P4). rewrite E0 in He. specialize (P4 _ Hg0).
      destruct (Z.eqb_spec (Z.land (lwip_ntohs (_offset h)) IP_OFFMASK) 0) as [Ez|Ez]; cbn [andb] in He.
      + apply Hoff in Ez. rewrite Hg0 in Ez. injection Ez as ->. rewrite decide_False in P4 by done.
        apply Z.eqb_neq in P4. rewrite P4 in He. cbn [negb] in He. subst e. split_and!; try done.
        rewrite decide_True by left. cbn. congruence.
      + subst e. split_and!; try done. case_decide as H1; case_decide as H2; try done.
        * exfalso. apply H2. by right.
        * exfalso. apply elem_of_cons in H2 as [->|H2]; [|by apply H1]. apply Ez. by apply Hoff. }
  destruct Hbase as (B1 & B2 & B3 & B4). unfold marked. destruct (more_fragments h) eqn:Em.
  - assert (Hnl : last whole <> Some f) by (intros E; apply Hlast in E; done).
    assert (Hiff : forall z, last whole = Some z -> z ∈ f :: S <-> z ∈ S).
    { intros z Hz. rewrite elem_of_cons. split; [|auto]. intros [->|?]; done. }
    split_and!; [done| | |].
    + rewrite B2. split; intros Hx z Hz; specialize (Hx z Hz); by rewrite Hiff in *.
    + intros z Hz Hin. apply B3; [done|]. by apply (Hiff z Hz).
    + intros g Hg. rewrite Hg0 in Hg. by injection Hg as <-.
  - assert (Hl : last whole = Some f) by (by apply Hlast).
    split_and!; [done| | |].
    + split; [intros E; by apply land_lastfrag in E|]. intros Hx. exfalso. apply (Hx f Hl). left.
    + intros z Hz _. rewrite Hl in Hz. injection Hz as <-. done.
    + intros g Hg. rewrite Hg0 in Hg. by injection Hg as <-.
Qed.


(** The datagram that is put together. *)
Definition payload_of (f : frag) : list Z := drop 20 (data (fp f)).
Definition datagram_bytes (h0 : ip_hdr) (whole : list frag) : list Z :=
  ip_hdr_bytes (datagram_hdr h0 (u16 (match last whole with Some z => fend z | None => 0 end + IP_HLEN))) ++
  mjoin (payload_of <$> whole).

(** The packet holds these bytes; its first buffer is as long as the one of a
    fragment. *)
Definition holds (whole : list frag) (d : pbuf) (b : list Z) : Prop :=
  data d = b /\ exists f, f ∈ whole /\ plen d = plen (fp f).

Lemma plen_cat_all q l : segs q <> [] -> plen (cat_all q l) = plen q.
Proof.
  revert q. induction l as [|f l IH]; intros q Hq; [done|]. cbn [cat_all]. rewrite IH.
  - unfold plen, first, pbuf_cat. cbn [segs]. by destruct (segs q).
  - unfold pbuf_cat. cbn [segs]. by destruct (segs q).
Qed.
Lemma plen_put_hdr h q : IP_HLEN <= plen q -> segs (put_ip_hdr h q) <> [] /\ plen (put_ip_hdr h q) = plen q.
Proof.
  unfold plen, first, put_ip_hdr, write_first, IP_HLEN. destruct (segs q) as [|s l]; cbn [hd length segs]; [lia|].
  intros Hs. split; [done|]. rewrite length_app, length_drop, length_ip_hdr_bytes. lia.
Qed.

Lemma data_cat_all q l :
  Forall (fun f => IP_HLEN <= plen (fp f)) l -> data (cat_all q l) = data q ++ mjoin (payload_of <$> l).
Proof.
  revert q. induction l as [|f l IH]; intros q Hl; cbn [cat_all]; [cbn; by rewrite app_nil_r|].
  apply Forall_cons in Hl as [Hf Hl]. rewrite IH by done. cbn [fmap list_fmap]. rewrite mjoin_cons, app_assoc. f_equal.
  unfold pbuf_cat, data. cbn [segs]. rewrite join_app. f_equal. unfold payload_of, data, pbuf_header.
  unfold plen, first, IP_HLEN in *. destruct (segs (fp f)) as [|s l'] eqn:Es; cbn [hd length] in Hf; [lia|].
  change (Z.opp 20) with (-20). change (-20 =? 0) with false. change (-20 <? 0) with true.
  change (Z.to_nat (- -20)) with 20%nat. cbn iota.
  destruct (Nat.leb_spec 20 (length s)); [|lia]. cbn [default segs]. rewrite !mjoin_cons, drop_app_le by lia.
  done.
Qed.
Lemma data_put_hdr h q : IP_HLEN <= plen q -> data (put_ip_hdr h q) = ip_hdr_bytes h ++ drop 20 (data q).
Proof.
  unfold plen, first, IP_HLEN, put_ip_hdr, write_first, data. destruct (segs q) as [|s l]; cbn [hd length]; [lia|].
  intros Hs. cbn [segs]. rewrite !mjoin_cons, length_ip_hdr_bytes, drop_app_le, <- app_assoc by lia. done.
Qed.

Lemma dg_hdrs h0 whole : datagram h0 whole -> Forall (fun f => IP_HLEN <= plen (fp f)) whole.
Proof.
  intros Hd. apply Forall_forall. intros f Hf. destruct (dg_frag _ _ Hd f Hf) as (h & Hh & _).
  by apply hdr_at_len in Hh.
Qed.

(** A fragment of the datagram, when there is room: it completes the datagram, or
    is stored. *)
Lemma ip_reass_own h0 whole S f st :
  datagram h0 whole -> f ∈ whole -> f ∉ S -> at_stage h0 whole S st -> inv st ->
  ip_reass_pbufcount st + pbuf_clen (fp f) <= IP_REASS_MAX_PBUFS ->
  (length (reassdatagrams st) < capacity P)%nat ->
  (forall z w1 w2, last whole = Some z -> z ∈ S -> whole = w1 ++ f :: w2 -> no_gap_before S w1) ->
  exists out st', ip_reass (fp f) st = Some (out, st') /\ inv st' /\
    ip_reass_pbufcount st' <= ip_reass_pbufcount st + pbuf_clen (fp f) /\
    (length (reassdatagrams st') <= Datatypes.S (length (reassdatagrams st)))%nat /\
    if decide (received (f :: S) whole = whole)
    then entry st' h0 = None /\ exists d, out = Some d /\ holds whole d (datagram_bytes h0 whole)
    else out = None /\ at_stage h0 whole (f :: S) st'.
Proof.
  intros Hd Hf HfS Hat Hi Hc Hcap Hgap. destruct (dg_frag _ _ Hd f Hf) as (h & Hh & Hl & Hk & Hmk & Hlast).
  destruct (ip_reass_step st (fp f) h Hi Hh Hl Hc (fun _ => Hcap))
    as (st1 & l1 & e0 & l2 & e & prev & Es & HR & Hs & Ep & Hp & Hke & Hse & Hcnt & Hev & Hcase).
  destruct (ip_reass_total st (fp f) h Hi Hh (or_intror Hc)) as (out & st' & Eq & I' & Hacc).
  exists out, st'. split; [done|]. split; [done|]. split; [by apply accounted_count in Hacc|].
  destruct (entry_facts h0 whole S f h st e Hd Hf HfS Hat Hh Hk Hmk Hlast Hse) as (F1 & F2 & F3 & F4).
  rewrite Es in Eq.
  destruct (reass_into_spec st1 l1 e0 l2 e prev h (fp f) HR Hs Ep Hp (hdr_at_len _ _ Hh) ltac:(by rewrite Hcnt))
    as (out2 & st2 & E2 & _ & Hc').
  rewrite Eq in E2. injection E2 as <- <-.
  apply list_elem_of_split in Hf as (w1 & w2 & Hw). rewrite Hw in *.
  pose proof (dg_contiguous _ _ Hd) as Hcont.
  assert (Fm : p (marked h e) = p e) by (unfold marked; by destruct (more_fragments h)).
  rewrite (chain_frag_received (marked h e) f h S w1 w2) in Hc' by (done || congruence).
  set (b := negb _) in Hc'.
  assert (Hb : forall z, last (w1 ++ f :: w2) = Some z -> b = true <-> z ∈ f :: S).
  { intros z Hz. unfold b. rewrite negb_true_iff, Z.eqb_neq, F2. split.
    - intros Hn. destruct (decide (z ∈ f :: S)) as [|Hn']; [done|]. exfalso. apply Hn. intros z' Hz'.
      rewrite Hz in Hz'. by injection Hz' as <-.
    - intros Hin Hn. by apply (Hn z Hz). }
  pose proof (finished_iff S w1 f w2 b Hcont HfS Hb ltac:(intros z Hz HzS; by apply (Hgap z w1 w2))) as Hiff.
  assert (Hlen : (length (l1 ++ e0 :: l2) <= Datatypes.S (length (reassdatagrams st)))%nat).
  { destruct Hcase as [[_ E]|(_ & -> & ->)]; [|done]. rewrite <- (rd_list _ _ _ _ HR), E. lia. }
  rewrite length_app in Hlen. cbn [length] in Hlen.
  destruct (finished b (received S w1) f (received S w2)) eqn:Hfin.
  - pose proof (proj1 Hiff eq_refl) as Hall.
    rewrite Hall in Hc'. destruct (w1 ++ f :: w2) as [|g w] eqn:Ew; [done|].
    destruct Hc' as (-> & L & _). split; [|].
    + rewrite L, length_app. lia.
    + rewrite decide_True by done. split.
      * apply entry_None. rewrite L. intros Hin. pose proof (rd_keys _ _ _ _ HR) as Hn.
        rewrite (rd_list _ _ _ _ HR), fmap_app, fmap_cons in Hn. cbn [compose] in Hn.
        assert (He0 : key (iphdr e0) = key h0) by (destruct Hs as (_ & <- & _); congruence).
        apply NoDup_app in Hn as (_ & N1 & N2). apply NoDup_cons in N2 as [N2 _]. rewrite He0 in *.
        rewrite fmap_app in Hin. apply elem_of_app in Hin as [Hin|Hin]; [|done].
        apply (N1 _ Hin). left.
      * eexists. split; [done|]. unfold assembled. pose proof (dg_hdrs _ _ Hd) as Hh20.
        apply Forall_cons in Hh20 as [Hg20 Hw20].
        split; [|exists g; split; [left|]; rewrite plen_cat_all by (by apply plen_put_hdr); by rewrite (proj2 (plen_put_hdr _ _ Hg20))].
        rewrite data_cat_all, data_put_hdr by done.
        unfold datagram_bytes. cbn [fmap list_fmap]. rewrite mjoin_cons, app_assoc. f_equal. f_equal.
        assert (Hg : g ∈ f :: S).
        { assert (Hg : g ∈ received (f :: S) (g :: w)) by (rewrite Hall; left). by apply received_in in Hg as [? _]. }
        specialize (F4 g eq_refl). rewrite decide_True in F4 by done. rewrite F4. do 3 f_equal.
        destruct (last (g :: w)) as [z|] eqn:Ez; [|by apply last_None in Ez].
        f_equal. apply (F3 z); [done|]. assert (Hz : z ∈ received (f :: S) (g :: w)).
        { rewrite Hall. by apply last_Some_elem_of. }
        by apply received_in in Hz as [? _].
  - assert (Hnot : received (f :: S) (w1 ++ f :: w2) <> w1 ++ f :: w2) by (intros E%Hiff; done).
    assert (Hc2 : out = None /\ reassdatagrams st' = l1 ++ set_p (received (f :: S) (w1 ++ f :: w2)) (marked h e) :: l2).
    { destruct (received (f :: S) (w1 ++ f :: w2)); destruct Hc' as (? & ? & _); (split; [done|done]). }
    destruct Hc2 as [-> L]. split; [rewrite L, length_app; cbn [length]; lia|].
    rewrite decide_False by done. split; [done|].
    exists (set_p (received (f :: S) (w1 ++ f :: w2)) (marked h e)). split; [|done].
    apply entry_Some; [apply (inv_keys _ (inv_0 _ I'))|]. rewrite L. split; [apply elem_of_app; right; left|].
    cbn [set_p iphdr]. rewrite marked_iphdr. congruence.
Qed.


(** ** Fragments that arrive in any order, among others *)

Fixpoint reass_all (l : list pbuf) (st : reass P) : option (list (pbuf * option pbuf) * reass P) :=
  match l with
  | [] => Some ([], st)
  | q :: l =>
      '(out, st) ← ip_reass q st;
      '(outs, st) ← reass_all l st;
      Some ((q, out) :: outs, st)
  end.

(** The packet is a fragment of the datagram of [h0]. *)
Definition belongs (h0 : ip_hdr) (q : pbuf) : bool :=
  match ip_hdr_at q with Some h => bool_decide (key h = key h0) | None => false end.
Definition results (h0 : ip_hdr) (outs : list (pbuf * option pbuf)) : list (option pbuf) :=
  snd <$> filter (fun x => belongs h0 x.1 = true) outs.

(** A fragment that comes after the last one of the datagram comes after its
    predecessor, or before all that lie in front of it. *)
Definition in_time (whole order : list frag) : Prop :=
  forall l1 f l2 z w1 w2, order = l1 ++ f :: l2 -> last whole = Some z -> z ∈ l1 ->
    whole = w1 ++ f :: w2 -> no_gap_before l1 w1.

Lemma reass_all_fst L st outs st' : reass_all L st = Some (outs, st') -> fst <$> outs = L.
Proof.
  revert st outs. induction L as [|q L IH]; intros st outs E; cbn [reass_all] in E; [by injection E as <- _|].
  destruct (ip_reass q st) as [[o st1]|]; [|done]. cbn [mbind option_bind] in E.
  destruct (reass_all L st1) as [[outs1 st2]|] eqn:E1; [|done]. cbn [mbind option_bind] in E.
  injection E as <- <-. cbn. by rewrite (IH st1 outs1).
Qed.

Lemma contiguous_NoDup s l : contiguous s l -> NoDup l.
Proof.
  revert s. induction l as [|f l IH]; intros s; [constructor|]. intros (H1 & H2 & H3).
  constructor; [|by apply (IH (fend f))]. intros Hf. pose proof (contiguous_after _ _ _ H3 Hf). lia.
Qed.

Lemma no_gap_ext S S' w : (forall x, x ∈ S <-> x ∈ S') -> no_gap_before S w -> no_gap_before S' w.
Proof.
  intros HS [Hn|(g & Hg & HgS)]; [left|right; exists g; by rewrite <- HS].
  rewrite <- Hn. unfold received. symmetry. apply filter_agree. auto.
Qed.

Lemma whole_received S rest whole :
  NoDup whole -> whole ≡ₚ S ++ rest -> received S whole = whole <-> rest = [].
Proof.
  intros Hn Hp. split.
  - intros Hall. destruct rest as [|x rest]; [done|]. exfalso.
    assert (Hx : x ∈ received S whole) by (rewrite Hall, Hp; apply elem_of_app; right; left).
    apply received_in in Hx as [Hx _]. rewrite Hp in Hn. apply NoDup_app in Hn as (_ & Hn & _).
    apply (Hn x Hx). left.
  - intros ->. apply received_all. intros x. by rewrite Hp, app_nil_r.
Qed.

Fixpoint clens (l : list pbuf) : Z := match l with [] => 0 | q :: l => pbuf_clen q + clens l end.
Lemma clens_nonneg l : 0 <= clens l.
Proof. induction l as [|q l IH]; cbn [clens]; [lia|]. pose proof (pbuf_clen_range q). lia. Qed.

Lemma reass_all_spec h0 whole L S rest st :
  datagram h0 whole -> whole ≡ₚ S ++ rest ->
  (forall l1 f l2 z w1 w2, rest = l1 ++ f :: l2 -> last whole = Some z -> z ∈ S ++ l1 ->
     whole = w1 ++ f :: w2 -> no_gap_before (S ++ l1) w1) ->
  filter (fun q => belongs h0 q = true) L = fp <$> rest ->
  Forall (fun q => ip_hdr_at q <> None) L -> inv st ->
  match rest with [] => entry st h0 = None | _ => at_stage h0 whole S st end ->
  ip_reass_pbufcount st + clens L <= IP_REASS_MAX_PBUFS ->
  (length (reassdatagrams st) + length L <= capacity P)%nat ->
  exists outs st', reass_all L st = Some (outs, st') /\ inv st' /\ entry st' h0 = None /\
    match rest with
    | [] => results h0 outs = []
    | _ => exists d, holds whole d (datagram_bytes h0 whole) /\
             results h0 outs = replicate (length rest - 1) None ++ [Some d]
    end.
Proof.
  intros Hd. pose proof (contiguous_NoDup _ _ (dg_contiguous _ _ Hd)) as Hnd.
  revert S rest st. induction L as [|q L IH]; intros S rest st Hp Ht Hown Hhdr Hi Hat Hc Hcap; cbn [reass_all].
  - destruct rest as [|f rest]; [|done]. by exists [], st.
  - apply Forall_cons in Hhdr as [Hq Hhdr]. destruct (ip_hdr_at q) as [h|] eqn:Hh; [clear Hq|done].
    cbn [clens length] in *. pose proof (clens_nonneg L).
    assert (Hb : belongs h0 q = bool_decide (key h = key h0)) by (unfold belongs; by rewrite Hh).
    destruct (decide (key h = key h0)) as [Hk|Hk].
    + rewrite bool_decide_eq_true_2 in Hb by done. rewrite filter_cons_True in Hown by done.
      destruct rest as [|f rest]; [done|]. cbn in Hown. injection Hown as -> Hown.
      assert (HfS : f ∉ S).
      { rewrite Hp in Hnd. apply NoDup_app in Hnd as (_ & Hnd & _). intros Hin. apply (Hnd f Hin). left. }
      assert (Hf : f ∈ whole) by (rewrite Hp; apply elem_of_app; right; left).
      assert (Hp' : whole ≡ₚ (f :: S) ++ rest) by (by rewrite Hp, <- Permutation_middle).
      destruct (ip_reass_own h0 whole S f st Hd Hf HfS Hat Hi) as (out & st1 & -> & I1 & C1 & L1 & Hres);
        [lia|lia|intros z w1 w2 Hz HzS Hw; pose proof (Ht [] f rest z w1 w2 eq_refl Hz) as Hgap;
                 rewrite app_nil_r in Hgap; by apply Hgap|].
      cbn [mbind option_bind].
      assert (Hnext : match rest with [] => entry st1 h0 = None | _ => at_stage h0 whole (f :: S) st1 end).
      { destruct rest as [|g rest].
        - rewrite decide_True in Hres by (by apply (whole_received (f :: S) [])). apply Hres.
        - rewrite decide_False in Hres; [apply Hres|]. intros E.
          by apply (whole_received (f :: S) (g :: rest) whole Hnd Hp') in E. }
      destruct (IH (f :: S) rest st1) as (outs & st' & -> & I' & E' & Hr); try done; [|lia|lia|].
      { intros l1 g l2 z w1 w2 -> Hz HzS Hw. apply (no_gap_ext (S ++ f :: l1)).
        - intros x. rewrite !elem_of_app, !elem_of_cons. tauto.
        - apply (Ht (f :: l1) g l2 z w1 w2); [done|done| |done].
          revert HzS. rewrite !elem_of_app, !elem_of_cons. tauto. }
      do 2 eexists. split; [done|]. split; [done|]. split; [done|]. unfold results in *.
      rewrite filter_cons_True by done. destruct rest as [|g rest].
      * rewrite decide_True in Hres by (by apply (whole_received (f :: S) [])).
        destruct Hres as (_ & d & -> & Hdd). exists d. split; [done|]. cbn. by rewrite Hr.
      * rewrite decide_False in Hres by (intros E; by apply (whole_received (f :: S) (g :: rest) whole Hnd Hp') in E).
        destruct Hres as [-> _]. destruct Hr as (d & Hdd & Hr). exists d. split; [done|].
        cbn [fmap list_fmap snd length]. rewrite Hr. cbn [length]. by rewrite !Nat.sub_succ, !Nat.sub_0_r.
    + rewrite bool_decide_eq_false_2 in Hb by done. rewrite filter_cons_False in Hown by (by rewrite Hb).
      destruct (ip_reass_other st q h h0 Hi Hh Hk) as (out & st1 & -> & I1 & E1 & C1 & L1); [lia|lia|].
      cbn [mbind option_bind].
      assert (Hnext : match rest with [] => entry st1 h0 = None | _ => at_stage h0 whole S st1 end).
      { destruct rest; [by rewrite E1|]. unfold at_stage in *. destruct S; by rewrite E1. }
      destruct (IH S rest st1) as (outs & st' & -> & I' & E' & Hr); try done; [lia|lia|].
      do 2 eexists. split; [done|]. split; [done|]. split; [done|]. unfold results in *.
      rewrite filter_cons_False by (cbn [fst]; by rewrite Hb). done.
Qed.

Lemma reassembles h0 whole order L st :
  datagram h0 whole -> order ≡ₚ whole -> in_time whole order ->
  filter (fun q => belongs h0 q = true) L = fp <$> order ->
  Forall (fun q => ip_hdr_at q <> None) L -> inv st -> entry st h0 = None ->
  ip_reass_pbufcount st + clens L <= IP_REASS_MAX_PBUFS ->
  (length (reassdatagrams st) + length L <= capacity P)%nat ->
  exists outs st' d, reass_all L st = Some (outs, st') /\ inv st' /\ entry st' h0 = None /\
    holds whole d (datagram_bytes h0 whole) /\
    results h0 outs = replicate (length whole - 1) None ++ [Some d].
Proof.
  intros Hd Hp Ht Hown Hhdr Hi He Hc Hcap.
  destruct (reass_all_spec h0 whole L [] order st) as (outs & st' & E & I' & E' & Hr); try done.
  - by destruct order.
  - destruct order as [|f order].
    + apply Permutation_nil_l in Hp. subst whole. destruct (dg_first _ _ Hd) as (f & Hf & _). by cbn in Hf.
    + destruct Hr as (d & Hdd & Hr). exists outs, st', d. rewrite <- (Permutation_length Hp). done.
Qed.

End queue.


(** ** What [ip_frag] sends *)

Section cutting.
Variable h : ip_hdr.

(** The header of a fragment. *)
Definition frag_hdr (omf ofo : Z) (last : bool) (cop : Z) : ip_hdr :=
  with_chksum (IPH_LEN_SET (lwip_htons (u16 (cop + IP_HLEN)))
                 (IPH_OFFSET_SET (lwip_htons (frag_field omf ofo last)) h)).

(** The fragments [out] cut the bytes [D] into pieces of [8 * nfb] bytes. *)
Fixpoint cut_ok (mtu nfb omf ofo : Z) (D : list Z) (out : list pbuf) : Prop :=
  match out with
  | [] => D = []
  | q :: out =>
      let last := Z.of_nat (length D) <=? mtu - IP_HLEN in
      let cop := if last then Z.of_nat (length D) else nfb * 8 in
      D <> [] /\ before q = [] /\
      (exists pieces, segs q = ip_hdr_bytes (frag_hdr omf ofo last cop) :: pieces /\
         mjoin pieces = take (Z.to_nat cop) D) /\
      cut_ok mtu nfb omf (ofo + nfb) (drop (Z.to_nat cop) D) out
  end.

Lemma mirror_spec n l refs :
  (0 < n <= length (mjoin l))%nat ->
  exists pieces s rest k refs', mirror (fun _ => true) n l refs = Some (Mirrored pieces (s :: rest) k refs') /\
    mjoin pieces = take n (mjoin l) /\ (k <= length s)%nat /\ drop k s ++ mjoin rest = drop n (mjoin l).
Proof.
  revert n refs. induction l as [|s l IH]; intros n refs Hn; [cbn in Hn; lia|].
  rewrite mjoin_cons in *. rewrite length_app in Hn. cbn [mirror].
  destruct (Nat.ltb_spec n (length s)) as [Hlt|Hge].
  - destruct (Nat.eqb_spec n 0); [lia|]. cbn [negb]. rewrite Nat.sub_diag, Nat.eqb_refl.
    exists [take n s], s, l, n, (S refs). split_and!; [done| |lia|].
    + cbn. rewrite app_nil_r, take_app_le by lia. done.
    + by rewrite drop_app_le by lia.
  - destruct (Nat.eqb_spec (length s) 0) as [Hz|Hz].
    + destruct s; [|done]. cbn [app] in *. apply IH. cbn in Hn. lia.
    + cbn [negb]. destruct (Nat.eqb_spec (n - length s) 0) as [He|He].
      * exists [take (length s) s], s, l, (length s), (S refs). assert (n = length s) as -> by lia.
        split_and!; [done| |lia|].
        -- cbn. rewrite app_nil_r, take_app_length, take_ge by lia. done.
        -- rewrite drop_app_length, drop_ge by lia. done.
      * destruct (IH (n - length s)%nat (S refs)) as (ps & s' & rest & k & refs' & -> & Hp & Hk & Hr); [lia|].
        cbn [mbind option_bind]. exists (take (length s) s :: ps), s', rest, k, refs'.
        split_and!; [done| |done|].
        -- rewrite mjoin_cons, Hp, take_ge by lia. rewrite take_app_ge by lia. done.
        -- rewrite Hr, drop_app_ge by lia. done.
Qed.

Lemma frag_loop_spec mtu nfb omf fuel left ofo s l poff npl rams refs D :
  0 < nfb -> nfb * 8 <= mtu - IP_HLEN -> mtu <= 65535 ->
  (poff <= length s)%nat -> drop poff s ++ mjoin l = D -> left = Z.of_nat (length D) ->
  left = 0 \/ (0 <= ofo /\ ofo * 8 + left <= 65535) -> (length D < fuel)%nat ->
  exists out, frag_loop (fun _ => true) (fun _ => true) fuel h mtu nfb omf left ofo (s :: l) poff npl rams refs =
      Some (out, ERR_OK) /\ cut_ok mtu nfb omf ofo D out.
Proof.
  intros Hnfb Hmtu Hmax. revert left ofo s l poff npl rams refs D.
  induction fuel as [|fuel IH]; intros left ofo s l poff npl rams refs D Hpoff HD Hleft Hb Hfuel; [lia|].
  cbn [frag_loop]. destruct (Z.eqb_spec left 0) as [Hz|Hz].
  { exists []. split; [done|]. destruct D; [done|cbn in *; lia]. }
  destruct Hb as [|[Hofo Hb]]; [lia|].
  cbn [negb]. destruct (Nat.ltb_spec (length s) poff); [lia|].
  set (lst := left <=? mtu - IP_HLEN). set (cop := if lst then left else u16 (nfb * 8)).
  unfold IP_HLEN in Hmtu.
  assert (Hcop : cop = (if lst then Z.of_nat (length D) else nfb * 8) /\ 0 < cop <= left).
  { unfold cop. rewrite u16_small by zlia. rewrite Hleft. split; [done|]. unfold lst.
    destruct (Z.leb_spec left (mtu - IP_HLEN)); unfold IP_HLEN in *; lia. }
  destruct Hcop as [Ecop Hcop]. destruct (Z.eqb_spec cop 0); [lia|].
  destruct (mirror_spec (Z.to_nat cop) (drop poff s :: l) refs)
    as (pieces & s' & rest & k & refs' & -> & Hp & Hk & Hr).
  { rewrite mjoin_cons, HD. lia. }
  rewrite mjoin_cons, HD in Hp, Hr. cbn [mbind option_bind].
  assert (Hu1 : u16 (left - cop) = left - cop) by (apply u16_small; zlia).
  assert (Hlast : lst = true -> left - cop = 0) by (unfold cop; intros ->; lia).
  destruct (IH (u16 (left - cop)) (u16 (ofo + nfb)) s' rest k k (S rams) refs' (drop (Z.to_nat cop) D))
    as (out & -> & Hout).
  - done.
  - done.
  - rewrite Hu1, length_drop. lia.
  - rewrite Hu1. destruct lst; [left; by apply Hlast|right]. rewrite u16_small by zlia. lia.
  - rewrite length_drop. lia.
  - cbn [mbind option_bind]. eexists. split; [done|]. cbn [cut_ok]. rewrite <- Hleft. fold lst.
    assert (Ec : (if lst then left else nfb * 8) = cop) by (by rewrite Ecop, Hleft). rewrite Ec.
    split; [intros ->; cbn in *; lia|]. split; [done|]. split; [by exists pieces|].
    destruct lst.
    + assert (HD0 : drop (Z.to_nat cop) D = []) by (apply drop_ge; lia). rewrite HD0 in *.
      by destruct out as [|? ?]; [|destruct Hout].
    + by rewrite u16_small in Hout by zlia.
Qed.

End cutting.


Lemma frag_field_value ofo (last : bool) :
  0 <= ofo < 8192 -> frag_field 0 ofo last = ofo + (if last then 0 else 8192).
Proof.
  intros Ho. unfold frag_field, IP_OFFMASK, IP_MF. rewrite Z.lor_0_l, Z.land_comm.
  change 0x1fff with (Z.ones 13). rewrite Z.land_ones by lia. change (2 ^ 13) with 8192.
  rewrite Z.mod_small by lia. destruct last; [lia|].
  rewrite Z.lor_comm, (lor_add 13 0x2000 ofo) by (try change (2 ^ 13) with 8192; lia || done). lia.
Qed.

Lemma mf_bit ofo (last : bool) :
  0 <= ofo < 8192 ->
  negb (Z.land (lwip_htons (ofo + (if last then 0 else 8192))) (lwip_htons IP_MF) =? 0) = negb last.
Proof.
  intros Ho. set (x := ofo + _). assert (Hx : in_u16 x) by (unfold x; destruct last; zlia).
  change (lwip_htons IP_MF) with (2 ^ 5). rewrite land_bit, htons_arith by (done || lia).
  assert (Hbit : Z.testbit (u8 x * 256 + x / 256) 5 = negb last).
  { rewrite Z.testbit_odd, Z.shiftr_div_pow2 by lia. change (2 ^ 5) with 32.
    assert (E : (u8 x * 256 + x / 256) / 32 = (if last then 0 else 1) + 2 * (4 * u8 x)).
    { unfold x. destruct last; zlia. }
    rewrite E, Z.odd_add_mul_2. by destruct last. }
  rewrite Hbit. by destruct last.
Qed.

Lemma offset_bits x : 0 <= x < 16384 -> 0 < x -> Z.land (lwip_htons x) (lwip_htons (Z.lor IP_OFFMASK IP_MF)) <> 0.
Proof.
  intros Hx H0. change (lwip_htons (Z.lor IP_OFFMASK IP_MF)) with (Z.lor 0x3f (Z.shiftl 0xff 8)).
  set (y := lwip_htons x). assert (Hy2 : y = Z.lor (x / 256) (Z.shiftl (u8 x) 8)).
  { unfold y. rewrite htons_arith by zlia. rewrite Z.lor_comm, lor_shiftl_add by (try change (2 ^ 8) with 256; zlia).
    done. }
  assert (Hm : forall w a i, 0 <= a < 2 ^ w -> Z.testbit a i = true -> Z.testbit (Z.ones w) i = true).
  { intros w a i Ha Hb. destruct (Z.lt_ge_cases i 0); [by rewrite Z.testbit_neg_r in Hb|].
    destruct (Z.lt_ge_cases i w) as [Hw|Hw]; [by apply Z.ones_spec_low|].
    by rewrite (testbit_above w) in Hb. }
  assert (Hy : Z.land y (Z.lor 0x3f (Z.shiftl 0xff 8)) = y).
  { apply Z.bits_inj'. intros i Hi. rewrite Z.land_spec, Hy2, !Z.lor_spec, !Z.shiftl_spec by done.
    destruct (Z.testbit (x / 256) i) eqn:E1.
    - change 0x3f with (Z.ones 6). by rewrite (Hm 6 (x / 256)) by (done || (change (2 ^ 6) with 64; zlia)).
    - destruct (Z.testbit (u8 x) (i - 8)) eqn:E2; [|done].
      change 0xff with (Z.ones 8). rewrite (Hm 8 (u8 x) (i - 8)) by (done || (change (2 ^ 8) with 256; zlia)).
      by rewrite !orb_true_r. }
  rewrite Hy. unfold y. rewrite htons_arith; zlia.
Qed.

(** What the receiver reads from the header of a fragment. *)
Lemma frag_hdr_facts h ofo (last : bool) cop :
  hdr_ok h -> IPH_HL h * 4 = IP_HLEN -> 0 <= ofo < 8192 -> 0 <= cop <= 65515 ->
  let hf := frag_hdr h 0 ofo last cop in
  hdr_ok hf /\ IPH_HL hf * 4 = IP_HLEN /\ key hf = key h /\ frag_offset hf = 8 * ofo /\
  frag_len hf = cop /\ more_fragments hf = negb last.
Proof.
  intros Hh Hl Ho Hc hf.
  assert (Hx : in_u16 (ofo + (if last then 0 else 8192))) by (destruct last; zlia).
  assert (Hoff : _offset hf = lwip_htons (ofo + (if last then 0 else 8192))).
  { unfold hf, frag_hdr. rewrite frag_field_value by done. cbn. apply u16_small, htons_range. }
  assert (Hlen : _len hf = lwip_htons (cop + 20)).
  { unfold hf, frag_hdr. cbn. rewrite (u16_small (lwip_htons _)) by apply htons_range. unfold IP_HLEN.
    by rewrite (u16_small (cop + 20)) by zlia. }
  split_and!.
  - destruct Hh. unfold hf, frag_hdr, with_chksum. split; cbn; auto using u16_range.
  - done.
  - done.
  - unfold frag_offset. rewrite Hoff. rewrite htons_involutive by done. unfold IP_OFFMASK.
    change 0x1fff with (Z.ones 13). rewrite Z.land_ones by lia. change (2 ^ 13) with 8192.
    rewrite u16_small; destruct last; zlia.
  - unfold frag_len. rewrite Hlen. rewrite htons_involutive by zlia.
    change (IPH_HL hf) with (IPH_HL h). rewrite Hl. unfold IP_HLEN. rewrite u16_small by zlia. lia.
  - unfold more_fragments. rewrite Hoff. by apply mf_bit.
Qed.

Lemma hdr_at_first q h pieces :
  segs q = ip_hdr_bytes h :: pieces -> hdr_ok h -> ip_hdr_at q = Some h.
Proof.
  intros E Hh. unfold ip_hdr_at, plen, first. rewrite E. cbn [hd]. rewrite length_ip_hdr_bytes.
  change (IP_HLEN <=? Z.of_nat 20) with true. cbn iota. f_equal. rewrite <- (app_nil_r (ip_hdr_bytes h)).
  by apply hdr_of_bytes.
Qed.

(** What is sent makes up a datagram. *)
Lemma cut_datagram h mtu nfb D out ofo :
  hdr_ok h -> IPH_HL h * 4 = IP_HLEN -> 0 < nfb -> nfb * 8 <= mtu - IP_HLEN ->
  0 <= ofo -> (D = [] \/ 8 * ofo + Z.of_nat (length D) <= 65515) -> cut_ok h mtu nfb 0 ofo D out ->
  exists whole, fp <$> whole = out /\ contiguous (8 * ofo) whole /\ mjoin (payload_of <$> whole) = D /\
    (forall z, last whole = Some z -> fend z = 8 * ofo + Z.of_nat (length D)) /\
    (forall f, f ∈ whole -> exists hf, ip_hdr_at (fp f) = Some hf /\ IPH_HL hf * 4 = IP_HLEN /\ key hf = key h /\
       mkFrag (frag_offset hf) (u16 (frag_offset hf + frag_len hf)) (fp f) = f /\
       (more_fragments hf = false <-> last whole = Some f)) /\
    (forall f, f ∈ whole -> Z.of_nat (length (data (fp f))) <= mtu) /\
    (D <> [] -> exists f hf, head whole = Some f /\ ip_hdr_at (fp f) = Some hf /\
       exists lst cop, hf = frag_hdr h 0 ofo lst cop).
Proof.
  intros Hh Hl Hnfb Hmtu. revert ofo D. induction out as [|q out IH]; intros ofo D Hofo Hlen Hcut; cbn [cut_ok] in Hcut.
  - subst D. exists []. split_and!; try done; [by intros f Hf%not_elem_of_nil|by intros f Hf%not_elem_of_nil].
  - set (lst := Z.of_nat (length D) <=? mtu - IP_HLEN) in *. set (cop := if lst then _ else _) in *.
    destruct Hcut as (HD & Hb & (pieces & Hs & Hp) & Hcut). destruct Hlen as [|Hlen]; [done|].
    assert (HD0 : 0 < Z.of_nat (length D)) by (destruct D; [done|cbn; lia]).
    assert (Hcop : 0 < cop <= Z.of_nat (length D) /\ cop <= mtu - IP_HLEN /\
             (lst = false -> cop = 8 * nfb /\ cop < Z.of_nat (length D)) /\ (lst = true -> cop = Z.of_nat (length D))).
    { unfold cop, lst. destruct (Z.leb_spec (Z.of_nat (length D)) (mtu - IP_HLEN)); split_and!; try done; lia. }
    destruct Hcop as (Hc0 & Hc1 & Hc2 & Hc3).
    destruct (frag_hdr_facts h ofo lst cop Hh Hl ltac:(lia) ltac:(lia)) as (Fok & Fl & Fk & Foff & Flen & Fmf).
    set (hf := frag_hdr h 0 ofo lst cop) in *.
    pose proof (hdr_at_first q hf pieces Hs Fok) as Hat.
    set (f := mkFrag (8 * ofo) (8 * ofo + cop) q).
    assert (Hpay : payload_of f = take (Z.to_nat cop) D).
    { unfold payload_of, data. cbn [f fp]. rewrite Hs, mjoin_cons. rewrite (drop_app_length' (ip_hdr_bytes hf) _ 20) by done. done. }
    assert (Hsize : Z.of_nat (length (data (fp f))) <= mtu).
    { unfold data. cbn [f fp]. rewrite Hs, mjoin_cons, length_app, Hp, length_take, length_ip_hdr_bytes.
      unfold IP_HLEN in *. lia. }
    assert (Hmk : mkFrag (frag_offset hf) (u16 (frag_offset hf + frag_len hf)) (fp f) = f).
    { rewrite Foff, Flen, u16_small by (unfold in_u16; lia). done. }
    destruct (IH (ofo + nfb) (drop (Z.to_nat cop) D)) as (whole & W1 & W2 & W3 & W4 & W5 & W6 & W7); [lia| |done|].
    { destruct lst; [left; apply drop_ge; rewrite (Hc3 eq_refl); lia|right].
      rewrite length_drop. destruct (Hc2 eq_refl). lia. }
    assert (Hnil : lst = true <-> whole = []).
    { split.
      - intros Hlst. rewrite drop_ge in Hcut by (rewrite (Hc3 Hlst); lia). destruct out as [|? ?]; [|by destruct Hcut].
        by apply fmap_nil_inv in W1.
      - intros ->. destruct lst; [done|]. exfalso. destruct (Hc2 eq_refl) as [_ Hlt].
        cbn in W3. apply (f_equal length) in W3. rewrite length_drop in W3. cbn in W3. lia. }
    exists (f :: whole). split_and!.
    + cbn. by rewrite W1.
    + cbn [contiguous f start fend]. split; [done|]. split; [lia|]. destruct lst eqn:El.
      * rewrite (proj1 Hnil eq_refl). done.
      * destruct (Hc2 eq_refl) as [-> _]. by replace (8 * ofo + 8 * nfb) with (8 * (ofo + nfb)) by lia.
    + rewrite fmap_cons, mjoin_cons, Hpay, W3. apply take_drop.
    + intros z Hz. rewrite last_cons in Hz. destruct (last whole) as [z'|] eqn:Ez.
      * injection Hz as <-. rewrite (W4 z' eq_refl), length_drop. destruct lst eqn:El.
        -- by rewrite (proj1 Hnil eq_refl) in Ez.
        -- destruct (Hc2 eq_refl). lia.
      * injection Hz as <-. apply last_None in Ez. apply Hnil in Ez. cbn. rewrite (Hc3 Ez). lia.
    + assert (Hlast : forall g, g ∈ whole -> last (f :: whole) = Some g <-> last whole = Some g).
      { intros g Hg. rewrite last_cons. destruct (last whole) eqn:E; [done|]. apply last_None in E as ->.
        by apply not_elem_of_nil in Hg. }
      intros g [->|Hg]%elem_of_cons.
      * exists hf. split_and!; try done. rewrite Fmf, last_cons. destruct lst.
        -- by rewrite (proj1 Hnil eq_refl).
        -- split; [done|]. destruct (last whole) as [z|] eqn:Ez.
           ++ intros [= ->]. apply last_Some_elem_of in Ez. pose proof (contiguous_after _ _ _ W2 Ez) as Ha.
              cbn [f start] in Ha. lia.
           ++ apply last_None in Ez. by apply Hnil in Ez.
      * destruct (W5 g Hg) as (hg & G1 & G2 & G3 & G4 & G5). exists hg. split_and!; try done. by rewrite Hlast.
    + intros g [->|Hg]%elem_of_cons; auto.
    + intros _. exists f, hf. split; [done|]. split; [done|]. by exists lst, cop.
Qed.


(** A received fragment: the bytes that were sent, in buffers of the receiver. *)
Definition copy_of (f f' : frag) : Prop :=
  start f' = start f /\ fend f' = fend f /\ data (fp f') = data (fp f) /\ IP_HLEN <= plen (fp f').

Lemma ip_hdr_of_take b : (20 <= length b)%nat -> ip_hdr_of b = ip_hdr_of (take 20 b).
Proof. intros Hb. do 20 (destruct b as [|? b]; [cbn in Hb; lia|]). done. Qed.
Lemma ip_hdr_at_data q : IP_HLEN <= plen q -> ip_hdr_at q = Some (ip_hdr_of (take 20 (data q))).
Proof.
  intros Hq. unfold ip_hdr_at. rewrite (proj2 (Z.leb_le _ _) Hq). f_equal.
  unfold plen, IP_HLEN in Hq. rewrite first_data by lia. apply ip_hdr_of_take. lia.
Qed.
Lemma copy_hdr f f' : copy_of f f' -> IP_HLEN <= plen (fp f) -> ip_hdr_at (fp f') = ip_hdr_at (fp f).
Proof. intros (_ & _ & E & H') H. by rewrite !ip_hdr_at_data, E by done. Qed.

Lemma last_index {A} (l : list A) i x :
  NoDup l -> l !! i = Some x -> last l = Some x <-> i = pred (length l).
Proof.
  intros Hn Hi. rewrite last_lookup. split.
  - intros Hl. exact (NoDup_lookup _ _ _ _ Hn Hi Hl).
  - by intros <-.
Qed.

Lemma copy_contiguous s l l' : Forall2 copy_of l l' -> contiguous s l -> contiguous s l'.
Proof.
  intros Hc. revert s. induction Hc as [|f f' l l' (E1 & E2 & _) _ IH]; intros s; [done|].
  cbn. rewrite E1, E2. intros (? & ? & ?). auto.
Qed.

Lemma datagram_copy h0 whole whole' :
  datagram h0 whole -> Forall2 copy_of whole whole' ->
  datagram h0 whole' /\ datagram_bytes h0 whole' = datagram_bytes h0 whole.
Proof.
  intros Hd Hc. pose proof (copy_contiguous _ _ _ Hc (dg_contiguous _ _ Hd)) as Hcont.
  pose proof (contiguous_NoDup _ _ Hcont) as Hn'.
  pose proof (contiguous_NoDup _ _ (dg_contiguous _ _ Hd)) as Hn.
  pose proof (dg_hdrs _ _ Hd) as Hh. rewrite Forall_forall in Hh.
  pose proof (Forall2_length _ _ _ Hc) as Hlen. split; [split; [done| |]|].
  - destruct (dg_first _ _ Hd) as (f & Hf & Hfh). destruct Hc as [|g g' l l' Hg Hl]; [done|].
    cbn in Hf. injection Hf as ->. exists g'. split; [done|]. rewrite (copy_hdr f g' Hg); [done|]. apply Hh. left.
  - intros f' (i & Hi')%list_elem_of_lookup.
    destruct (Forall2_lookup_r _ _ _ _ _ Hc Hi') as (f & Hi & Hff). pose proof (list_elem_of_lookup_2 _ _ _ Hi) as Hin.
    destruct (dg_frag _ _ Hd f Hin) as (h & G1 & G2 & G3 & G4 & G5). exists h.
    rewrite (copy_hdr f f' Hff) by auto. split_and!; try done.
    + destruct Hff as (E1 & E2 & _). destruct f', f. cbn in *. injection G4 as -> ->. congruence.
    + rewrite G5, (last_index whole i f), (last_index whole' i f') by done. by rewrite Hlen.
  - unfold datagram_bytes. f_equal.
    + do 3 f_equal. assert (El : last (fend <$> whole') = last (fend <$> whole)).
      { f_equal. clear -Hc. induction Hc as [|f f' l l' (_ & E & _) _ IH]; [done|]. cbn. by rewrite E, IH. }
      rewrite !fmap_last in El. destruct (last whole'), (last whole); cbn in El; congruence.
    + f_equal. clear -Hc. induction Hc as [|f f' l l' (_ & _ & E & _) _ IH]; [done|].
      cbn. unfold payload_of. rewrite E. f_equal. exact IH.
Qed.

(** A datagram as the stack builds it: a header without options or fragmentation
    fields, the right length and checksum. *)
Record unfragmented (h : ip_hdr) (q : pbuf) : Prop := {
  uf_hdr : ip_hdr_at q = Some h;
  uf_bytes : bytes (data q);
  uf_hl : IPH_HL h * 4 = IP_HLEN;
  uf_offset : _offset h = 0;
  uf_len : _len h = lwip_htons (Z.of_nat (length (data q)));
  uf_chksum : with_chksum h = h;
  uf_size : IP_HLEN < Z.of_nat (length (data q)) <= 65535
}.

Lemma with_chksum_twice c h : with_chksum (IPH_CHKSUM_SET c h) = with_chksum h.
Proof. unfold with_chksum. by rewrite set_chksum_twice. Qed.

(** [ip_frag] cuts a datagram into fragments of the size of the interface that
    make it up again. *)
Lemma ip_frag_datagram h q mtu :
  unfragmented h q -> 28 <= mtu <= 65535 ->
  exists sent h1, ip_frag (fun _ => true) (fun _ => true) mtu q = Some (fp <$> sent, ERR_OK) /\
    datagram h1 sent /\ key h1 = key h /\ datagram_bytes h1 sent = data q /\
    (forall f, f ∈ sent -> Z.of_nat (length (data (fp f))) <= mtu) /\
    cut_ok h mtu ((mtu - 20) / 8) 0 0 (drop 20 (data q)) (fp <$> sent).
Proof.
  intros [U1 U2 U3 U4 U5 U6 U7] Hmtu. unfold IP_HLEN in U7.
  pose proof (hdr_at_len _ _ U1) as Hplen. pose proof U1 as U1'. rewrite ip_hdr_at_data in U1' by done.
  injection U1' as Eh. assert (Hb20 : bytes (take 20 (data q))) by (by apply Forall_take).
  assert (Hok : hdr_ok h) by (rewrite <- Eh; by apply hdr_of_ok).
  assert (Hbytes : ip_hdr_bytes h = take 20 (data q)).
  { rewrite <- Eh, bytes_of_hdr by (try done; rewrite length_take; lia). rewrite take_take. f_equal. }
  unfold ip_frag. rewrite U1. cbn [mbind option_bind].
  set (D := drop 20 (data q)). assert (HD : Z.of_nat (length D) = Z.of_nat (length (data q)) - 20).
  { unfold D. rewrite length_drop. lia. }
  assert (Hleft : u16 (tot_len q - IP_HLEN) = Z.of_nat (length D)).
  { unfold tot_len, IP_HLEN. rewrite (u16_small (Z.of_nat _)) by (unfold in_u16; lia).
    rewrite u16_small by (unfold in_u16; lia). lia. }
  rewrite Hleft. set (nfb := u16 (Z.quot (mtu - IP_HLEN) 8)).
  assert (Hnfb : nfb = (mtu - 20) / 8).
  { unfold nfb, IP_HLEN. rewrite Z.quot_div_nonneg by lia. rewrite u16_small by zlia. done. }
  rewrite U4. change (lwip_ntohs 0) with 0. rewrite !Z.land_0_l.
  destruct (segs q) as [|s l] eqn:Es; [unfold plen, first in Hplen; rewrite Es in Hplen; done|].
  assert (Hs : (20 <= length s)%nat).
  { unfold plen, first, IP_HLEN in Hplen. rewrite Es in Hplen. cbn in Hplen. lia. }
  change (Z.to_nat IP_HLEN) with 20%nat.
  destruct (frag_loop_spec h mtu nfb 0 (S (Z.to_nat (Z.of_nat (length D)))) (Z.of_nat (length D)) 0 s l 20 0 0 0 D)
    as (out & -> & Hout); try done; try (unfold IP_HLEN; rewrite ?Hnfb; zlia).
  { unfold D, data. rewrite Es, mjoin_cons, drop_app_le by lia. done. }
  destruct (cut_datagram h mtu nfb D out 0 Hok U3) as (sent & <- & W2 & W3 & W4 & W5 & W6 & W7);
    [rewrite Hnfb; zlia|unfold IP_HLEN; rewrite Hnfb; zlia|lia|right; lia|done|].
  assert (HDn : D <> []) by (intros E; rewrite E in HD; cbn in HD; lia).
  destruct (W7 HDn) as (f1 & h1 & F1 & F2 & lst & cop & F3).
  assert (Hk1 : key h1 = key h) by (rewrite F3; done).
  exists sent, h1. split; [done|]. split.
  { split; [done|by exists f1|]. intros f Hf. destruct (W5 f Hf) as (hf & G1 & G2 & G3 & G4 & G5).
    exists hf. by rewrite Hk1. }
  split; [done|]. rewrite Hnfb in Hout. split; [|by split]. unfold datagram_bytes. rewrite W3.
  assert (Hlast : match last sent with Some z => fend z | None => 0 end = Z.of_nat (length D)).
  { destruct (last sent) as [z|] eqn:E; [by apply W4|]. apply last_None in E as ->. done. }
  rewrite Hlast. unfold IP_HLEN. rewrite u16_small by (unfold in_u16; lia).
  assert (Ehdr : datagram_hdr h1 (Z.of_nat (length D) + 20) = h).
  { unfold datagram_hdr. rewrite <- (with_chksum_twice (_chksum h)).
    transitivity (with_chksum h); [|done]. f_equal. rewrite F3, HD. replace (Z.of_nat (length (data q)) - 20 + 20) with (Z.of_nat (length (data q))) by lia.
    rewrite <- U5. destruct Hok. destruct h. cbn in *. unfold IPH_CHKSUM_SET, IPH_OFFSET_SET, IPH_LEN_SET. cbn.
    rewrite U4. by rewrite !(u16_small _chksum0), (u16_small _len0) by done. }
  rewrite Ehdr, Hbytes. apply take_drop.
Qed.

(** A packet on the wire whose header passes the checks of the receiver. *)
Record wire_ok (h : ip_hdr) (q : pbuf) : Prop := {
  w_hdr : ip_hdr_at q = Some h;
  w_bytes : bytes (data q);
  w_v : IPH_V h = 4;
  w_hl : IPH_HL h * 4 = IP_HLEN;
  w_len : lwip_ntohs (_len h) = Z.of_nat (length (data q));
  w_size : Z.of_nat (length (data q)) <= 65535;
  w_chksum : with_chksum h = h
}.

Lemma wire_hdr_bytes h q : wire_ok h q -> hdr_ok h /\ take 20 (data q) = ip_hdr_bytes h.
Proof.
  intros Hw. pose proof (w_bytes _ _ Hw) as Hb. pose proof (hdr_at_len _ _ (w_hdr _ _ Hw)) as Hl.
  pose proof (w_hdr _ _ Hw) as Hh. rewrite ip_hdr_at_data in Hh by done. injection Hh as <-.
  assert (Hb20 : bytes (take 20 (data q))) by (by apply Forall_take).
  split; [by apply hdr_of_ok|]. symmetry. rewrite bytes_of_hdr; [by rewrite take_take|done|].
  unfold plen, IP_HLEN in Hl. rewrite first_data, length_take by lia. lia.
Qed.

Lemma unfragmented_wire h q : unfragmented h q -> IPH_V h = 4 -> wire_ok h q.
Proof.
  intros [U1 U2 U3 U4 U5 U6 U7] Hv. split; try done; [|lia].
  rewrite U5. apply htons_involutive. unfold in_u16. lia.
Qed.

Lemma frag_hdr_chksum h ofo lst cop : with_chksum (frag_hdr h 0 ofo lst cop) = frag_hdr h 0 ofo lst cop.
Proof. unfold frag_hdr. unfold with_chksum at 2. by rewrite with_chksum_twice. Qed.

(** What [ip_frag] sends are such packets, and every one is marked as a fragment. *)
Lemma cut_wire h mtu nfb ofo D out :
  hdr_ok h -> IPH_HL h * 4 = IP_HLEN -> IPH_V h = 4 -> bytes D ->
  0 < nfb -> nfb * 8 <= mtu - IP_HLEN ->
  0 <= ofo -> (D = [] \/ 8 * ofo + Z.of_nat (length D) <= 65515) ->
  0 < ofo \/ mtu - IP_HLEN < Z.of_nat (length D) -> cut_ok h mtu nfb 0 ofo D out ->
  forall q, q ∈ out -> exists hf, wire_ok hf q /\ src hf = src h /\ dest hf = dest h /\
    Z.land (_offset hf) (lwip_htons (Z.lor IP_OFFMASK IP_MF)) <> 0.
Proof.
  intros Hh Hl Hv. revert ofo D. induction out as [|q0 out IH]; intros ofo D Hb Hnfb Hmtu Hofo Hlen Hfrag Hcut q Hq;
    [by apply not_elem_of_nil in Hq|].
  cbn [cut_ok] in Hcut. set (lst := Z.of_nat (length D) <=? mtu - IP_HLEN) in *. set (cop := if lst then _ else _) in *.
  destruct Hcut as (HD & _ & (pieces & Hs & Hp) & Hcut). destruct Hlen as [|Hlen]; [done|].
  assert (HD0 : 0 < Z.of_nat (length D)) by (destruct D; [done|cbn; lia]).
  assert (Hcop : 0 < cop <= Z.of_nat (length D) /\ (lst = false -> cop = 8 * nfb) /\ (lst = true -> cop = Z.of_nat (length D))).
  { unfold cop, lst. destruct (Z.leb_spec (Z.of_nat (length D)) (mtu - IP_HLEN)); split_and!; try done; lia. }
  destruct Hcop as (Hc0 & Hc2 & Hc3).
  apply elem_of_cons in Hq as [->|Hq].
  - destruct (frag_hdr_facts h ofo lst cop Hh Hl ltac:(lia) ltac:(lia)) as (Fok & Fl & Fk & Foff & Flen & Fmf).
    set (hf := frag_hdr h 0 ofo lst cop) in *.
    assert (Hdata : data q0 = ip_hdr_bytes hf ++ take (Z.to_nat cop) D).
    { unfold data. by rewrite Hs, mjoin_cons, Hp. }
    assert (Hlen2 : length (data q0) = Z.to_nat (cop + 20)).
    { rewrite Hdata, length_app, length_take, length_ip_hdr_bytes. lia. }
    exists hf. split; [split|].
    + by apply (hdr_at_first _ _ pieces).
    + rewrite Hdata. apply Forall_app_2; [apply ip_hdr_bytes_bytes|by apply Forall_take].
    + done.
    + done.
    + assert (E : _len hf = lwip_htons (cop + 20)).
      { unfold hf, frag_hdr. cbn. rewrite (u16_small (lwip_htons _)) by apply htons_range. unfold IP_HLEN.
        by rewrite (u16_small (cop + 20)) by (unfold in_u16; lia). }
      rewrite E, htons_involutive by (unfold in_u16; lia). lia.
    + lia.
    + apply frag_hdr_chksum.
    + split; [done|]. split; [done|].
      assert (Hoff : _offset hf = lwip_htons (ofo + (if lst then 0 else 8192))).
      { unfold hf, frag_hdr. rewrite frag_field_value by lia. cbn. apply u16_small, htons_range. }
      rewrite Hoff. assert (Hx : in_u16 (ofo + (if lst then 0 else 8192))) by (destruct lst; zlia).
      apply offset_bits; [destruct lst; lia|]. destruct Hfrag as [Hf|Hf]; [destruct lst; lia|].
      destruct lst eqn:El; [|lia]. unfold lst in El. apply Z.leb_le in El. lia.
  - apply (IH (ofo + nfb) (drop (Z.to_nat cop) D)); try done; try lia; [by apply Forall_drop|].
    destruct lst; [left; apply drop_ge; rewrite (Hc3 eq_refl); lia|right].
    rewrite length_drop, (Hc2 eq_refl). specialize (Hc2 eq_refl). lia.
Qed.

(** The buffers [received] hold the packets [sent], in an order in which the last
    comes last. *)
Definition same_packet (q q' : pbuf) : Prop := data q' = data q /\ IP_HLEN <= plen q'.
Definition arrives (sent received : list pbuf) : Prop :=
  exists copies, Forall2 same_packet sent copies /\ received ≡ₚ copies /\ last received = last copies.

Lemma wire_ok_same h q q' : wire_ok h q -> same_packet q q' -> wire_ok h q'.
Proof.
  intros [A1 A2 A3 A4 A5 A6 A7] [E Hl]. pose proof (hdr_at_len _ _ A1). split; try done; rewrite ?E; try done.
  rewrite ip_hdr_at_data, E, <- ip_hdr_at_data by done. done.
Qed.

Section roundtrip.
Context {P : Type} `{Pool P}.

Lemma frag_reassembles h q mtu :
  unfragmented h q -> 28 <= mtu <= 65535 ->
  exists sent h1, ip_frag (fun _ => true) (fun _ => true) mtu q = Some (fp <$> sent, ERR_OK) /\
    (forall f, f ∈ sent -> Z.of_nat (length (data (fp f))) <= mtu) /\
    cut_ok h mtu ((mtu - 20) / 8) 0 0 (drop 20 (data q)) (fp <$> sent) /\
    datagram h1 sent /\ key h1 = key h /\
    forall whole order L (st : reass P),
      Forall2 copy_of sent whole -> order ≡ₚ whole -> in_time whole order ->
      filter (fun q => belongs h q = true) L = fp <$> order ->
      Forall (fun q => ip_hdr_at q <> None) L -> inv st -> entry st h = None ->
      ip_reass_pbufcount st + clens L <= IP_REASS_MAX_PBUFS ->
      (length (reassdatagrams st) + length L <= capacity P)%nat ->
      exists outs st' d, reass_all L st = Some (outs, st') /\ inv st' /\ holds whole d (data q) /\
        results h outs = replicate (length sent - 1) None ++ [Some d].
Proof.
  intros Hu Hmtu. destruct (ip_frag_datagram h q mtu Hu Hmtu) as (sent & h1 & Hf & Hd & Hk & Hdata & Hsize & Hcut).
  exists sent, h1. do 5 (split; [done|]). intros whole order L st Hc Hp Ht Hown Hhdr Hi He Hcnt Hcap.
  destruct (datagram_copy _ _ _ Hd Hc) as [Hd' Hdata'].
  assert (Hbel : forall x, belongs h1 x = belongs h x) by (intros x; unfold belongs; by rewrite Hk).
  destruct (reassembles h1 whole order L st) as (outs & st' & d & E & I' & _ & E2 & E3); try done.
  - rewrite <- Hown. apply list_filter_iff. intros x. by rewrite Hbel.
  - by rewrite (entry_key _ h1 h).
  - rewrite Hdata', Hdata in E2. exists outs, st', d. split_and!; try done.
    rewrite (Forall2_length _ _ _ Hc), <- E3. unfold results. f_equal. apply list_filter_iff. intros x. by rewrite Hbel.
Qed.

Lemma in_time_last whole order : NoDup order -> last order = last whole -> in_time whole order.
Proof.
  intros Hn Hl l1 f l2 z w1 w2 -> Hz Hin Hw. exfalso. rewrite <- Hl, last_app_cons in Hz.
  apply last_Some_elem_of in Hz. apply NoDup_app in Hn as (_ & Hn & _). by apply (Hn z Hin).
Qed.

Lemma datagram_inj h0 whole f g : datagram h0 whole -> f ∈ whole -> g ∈ whole -> fp f = fp g -> f = g.
Proof.
  intros Hd Hf Hg E. destruct (dg_frag _ _ Hd f Hf) as (h & H1 & _ & _ & H2 & _).
  destruct (dg_frag _ _ Hd g Hg) as (h' & H1' & _ & _ & H2' & _). rewrite E in H1. congruence.
Qed.

(** Nothing but the fragments arrives. *)
Lemma frag_reassembles_alone h q mtu :
  unfragmented h q -> 28 <= mtu <= 65535 ->
  exists sent, ip_frag (fun _ => true) (fun _ => true) mtu q = Some (sent, ERR_OK) /\
    (forall x, x ∈ sent -> Z.of_nat (length (data x)) <= mtu) /\
    cut_ok h mtu ((mtu - 20) / 8) 0 0 (drop 20 (data q)) sent /\
    forall received (st : reass P),
      arrives sent received -> inv st -> entry st h = None ->
      ip_reass_pbufcount st + clens received <= IP_REASS_MAX_PBUFS ->
      (length (reassdatagrams st) + length received <= capacity P)%nat ->
      exists outs st' d, reass_all received st = Some (outs, st') /\ inv st' /\
        data d = data q /\ (exists x, x ∈ received /\ plen d = plen x) /\
        snd <$> outs = replicate (length received - 1) None ++ [Some d].
Proof.
  intros Hu Hmtu. destruct (frag_reassembles h q mtu Hu Hmtu) as (sent & h1 & Hf & Hsize & Hcut & Hd & Hk & Hall).
  exists (fp <$> sent). split; [done|]. split; [by intros x (f & -> & Hx)%list_elem_of_fmap; apply Hsize|]. split; [done|].
  intros received st (copies & Hc & Hp & Hlast) Hi He Hcnt Hcap.
  assert (Hw : exists whole, Forall2 copy_of sent whole /\ fp <$> whole = copies).
  { clear -Hc. revert copies Hc. induction sent as [|f sent IH]; intros copies Hc; inversion Hc as [|? c ? cs Hfc Hcs]; subst.
    - by exists [].
    - destruct (IH cs Hcs) as (whole & Hw & <-). exists (mkFrag (start f) (fend f) c :: whole).
      split; [|done]. constructor; [|done]. destruct Hfc. done. }
  destruct Hw as (whole & Hw & <-). destruct (datagram_copy _ _ _ Hd Hw) as [Hd' _].
  destruct (Permutation_map_inv fp whole Hp) as (order & -> & Hperm).
  symmetry in Hperm.
  assert (Hnd : NoDup whole) by (apply (contiguous_NoDup 0), (dg_contiguous _ _ Hd')).
  assert (Hlo : last order = last whole).
  { change (map fp order) with (fp <$> order) in Hlast. rewrite !fmap_last in Hlast.
    destruct (last order) as [a|] eqn:Ea, (last whole) as [b|] eqn:Eb; try done. cbn in Hlast. injection Hlast as Hab.
    f_equal. apply (datagram_inj h1 whole); try done; [|by apply last_Some_elem_of].
    rewrite <- Hperm. by apply last_Some_elem_of. }
  assert (Hbel : forall x, x ∈ fp <$> order -> belongs h x = true /\ ip_hdr_at x <> None).
  { intros x (f & -> & Hx)%list_elem_of_fmap. rewrite Hperm in Hx.
    destruct (dg_frag _ _ Hd' f Hx) as (hf & G1 & _ & G2 & _). unfold belongs. rewrite G1. split; [|done].
    apply bool_decide_eq_true_2. congruence. }
  change (map fp order) with (fp <$> order) in *.
  destruct (Hall whole order (fp <$> order) st) as (outs & st' & d & E & I' & (Hd1 & f & Hf1 & Hf2) & Hres); try done.
  - apply in_time_last; [|done]. by rewrite Hperm.
  - clear -Hbel. induction (fp <$> order) as [|x l IH]; [done|].
    rewrite filter_cons_True by (apply Hbel; left). f_equal. apply IH. intros; apply Hbel; by right.
  - apply Forall_forall. intros x Hx. by apply Hbel.
  - exists outs, st', d. split; [done|]. split; [done|]. split; [done|].
    split; [exists (fp f); split; [apply list_elem_of_fmap_2; by rewrite Hperm|done]|].
    assert (Hlen : length (fp <$> order) = length sent).
    { rewrite length_fmap, (Permutation_length Hperm). symmetry. by apply (Forall2_length _ _ _ Hw). }
    rewrite Hlen, <- Hres. unfold results. f_equal.
    assert (Hfst : fst <$> outs = fp <$> order) by (by apply (reass_all_fst _ st _ st')).
    assert (Hall2 : forall y, y ∈ outs -> belongs h y.1 = true).
    { intros y Hy. apply Hbel. rewrite <- Hfst. by apply list_elem_of_fmap_2. }
    clear -Hall2. induction outs as [|y l IH]; [done|].
    rewrite filter_cons_True by (apply Hall2; left). f_equal. apply IH. intros; apply Hall2; by right.
Qed.

End roundtrip.

(** C16: What [ip_frag] cuts, [ip_reass] puts together: the fragments of a datagram
    fit the interface, and when the buffers in which they are received hold them in
    any order in which none that follows the last closes up behind a gap ([in_time];
    see [reassembles_with_hole] for another order), among fragments of other
    datagrams, and buffers and entries suffice for all of them, the last to arrive
    yields exactly the bytes of the datagram. *)
Theorem frag_reass_roundtrip {P : Type} `{Pool P} h q mtu :
  unfragmented h q -> 28 <= mtu <= 65535 ->
  exists sent, ip_frag (fun _ => true) (fun _ => true) mtu q = Some (fp <$> sent, ERR_OK) /\
    (forall f, f ∈ sent -> Z.of_nat (length (data (fp f))) <= mtu) /\
    forall whole order L (st : reass P),
      Forall2 copy_of sent whole -> order ≡ₚ whole -> in_time whole order ->
      filter (fun q => belongs h q = true) L = fp <$> order ->
      Forall (fun q => ip_hdr_at q <> None) L -> inv st -> entry st h = None ->
      ip_reass_pbufcount st + clens L <= IP_REASS_MAX_PBUFS ->
      (length (reassdatagrams st) + length L <= capacity P)%nat ->
      exists outs st' d, reass_all L st = Some (outs, st') /\ inv st' /\ data d = data q /\
        results h outs = replicate (length sent - 1) None ++ [Some d].
Proof.
  intros Hu Hmtu. destruct (frag_reassembles h q mtu Hu Hmtu) as (sent & h1 & Hf & Hsize & _ & _ & _ & Hall).
  exists sent. split; [done|]. split; [done|]. intros whole order L st Hc Hp Ht Hown Hhdr Hi He Hcnt Hcap.
  destruct (Hall whole order L st) as (outs & st' & d & E & I' & [Hd _] & Hr); try done. by exists outs, st', d.
Qed.


(** C17: The reassembly queue is safe, when it has room for the buffers of the
    fragment or not more than one other datagram is in front of the fragment's own
    (see [remove_oldest_corrupts] for the other case): a fragment is stored, freed
    or completes a datagram, no buffer is lost, and the queue keeps its bounds and
    its order; the timer gives up exactly the datagrams whose time has run out, and
    reports those whose first fragment has come. *)
Theorem ip_reass_safe {P : Type} `{Pool P} (st : reass P) q h :
  inv st -> ip_hdr_at q = Some h ->
  (near_front h (reassdatagrams st) \/ ip_reass_pbufcount st + pbuf_clen q <= IP_REASS_MAX_PBUFS) ->
  (exists out st', ip_reass q st = Some (out, st') /\ inv st' /\ accounted q out st st') /\
  (exists st', ip_reass_tmr st = Some st' /\ inv st' /\ reassdatagrams st' = survive (reassdatagrams st) /\
     events st' = events st ++ mjoin (given_up <$> expired (reassdatagrams st)) /\
     ip_reass_pbufcount st = ip_reass_pbufcount st' +
       freed (mjoin (given_up <$> expired (reassdatagrams st)))).
Proof.
  intros Hi Hh Hn. split; [by apply (ip_reass_total st q h)|].
  destruct (reass_tmr_spec st Hi) as (st' & E & I' & L & Ev). exists st'. split_and!; try done.
  rewrite freed_gone, (inv_count _ (inv_0 _ Hi)), (inv_count _ (inv_0 _ I')), L.
  unfold survive, expired. clear. induction (reassdatagrams st) as [|r l IH]; [done|].
  destruct (decide (0 < timer r)).
  - rewrite filter_cons_True, filter_cons_False by lia. cbn. change (p (aged r)) with (p r). unfold fmap in *. lia.
  - rewrite filter_cons_False, filter_cons_True by lia. cbn. unfold fmap in *. lia.
Qed.

(** ** Instances *)

Definition reass_pool : Pool Memp.memp :=
  Memp.memp_pool [(5%nat, 32)] 4096 0 ltac:(lia) ltac:(repeat constructor) ltac:(cbn; lia).
#[local] Existing Instance reass_pool.

Definition reass_start : reass Memp.memp := mkState [] 0 (Memp.memp_init [(5%nat, 32)] 4096) [].

Lemma inv_reass_start : inv reass_start.
Proof.
  split; [split|constructor|constructor]; [constructor| |constructor|constructor|done|done].
  exists [[]]. split; [|done]. apply (Memp.memp_init_inv [(5%nat, 32)] 4096); [lia|repeat constructor].
Qed.

(** A datagram of 50 bytes of data in two buffers. *)
Definition sample_hdr (id len : Z) : ip_hdr :=
  with_chksum (mkIpHdr 0x45 0 (lwip_htons len) id 0 64 17 0 0x0100000a 0x0200000a).
Definition sample_datagram : pbuf :=
  mkPbuf [] [ip_hdr_bytes (sample_hdr 7 70) ++ [1; 2; 3; 4; 5]; Z.of_nat <$> seq 6 45].
Definition sample_frags : list pbuf :=
  match ip_frag (fun _ => true) (fun _ => true) 44 sample_datagram with Some (l, _) => l | None => [] end.

Lemma sample_unfragmented : unfragmented (sample_hdr 7 70) sample_datagram.
Proof. 
  split; try (vm_compute; (done || split; done)).
  let v := eval vm_compute in (data sample_datagram) in
    replace (data sample_datagram) with v by (vm_compute; reflexivity).
  solve_bytes.
Qed.

Lemma three_distinct {A} (x y z : A) : x <> y -> x <> z -> y <> z -> NoDup [x; y; z].
Proof.
  intros H1 H2 H3. rewrite !NoDup_cons, !not_elem_of_cons. split_and!; auto using not_elem_of_nil, NoDup_nil_2.
Qed.

Lemma frag_reass_roundtrip_witness :
  exists outs st' d,
    reass_all [nth 1 sample_frags sample_datagram; nth 0 sample_frags sample_datagram;
               nth 2 sample_frags sample_datagram] reass_start = Some (outs, st') /\ inv st' /\
    data d = data sample_datagram /\ results (sample_hdr 7 70) outs = [None; None; Some d].
Proof.
  destruct (frag_reass_roundtrip (P := Memp.memp) (sample_hdr 7 70) sample_datagram 44 sample_unfragmented ltac:(lia))
    as (sent & Hf & _ & Hall).
  assert (E : fp <$> sent = sample_frags) by (unfold sample_frags; by rewrite Hf).
  assert (El : length sample_frags = 3%nat) by (vm_compute; reflexivity).
  destruct sent as [|a [|b [|c [|? ?]]]]; try (rewrite <- E in El; discriminate El).
  assert (Hd : fp a <> fp b /\ fp a <> fp c /\ fp b <> fp c).
  { change (fp a) with (nth 0 (fp <$> [a; b; c]) sample_datagram). change (fp b) with (nth 1 (fp <$> [a; b; c]) sample_datagram).
    change (fp c) with (nth 2 (fp <$> [a; b; c]) sample_datagram). rewrite E. split_and!; vm_compute; discriminate. }
  assert (Hp : Forall (fun x => IP_HLEN <= plen x) (fp <$> [a; b; c])).
  { rewrite E. repeat constructor; vm_compute; discriminate. }
  destruct Hd as (D1 & D2 & D3). cbn in Hp. rewrite !Forall_cons in Hp. destruct_and! Hp.
  rewrite <- E. cbn [fmap list_fmap nth].
  apply (Hall [a; b; c] [b; a; c] [fp b; fp a; fp c] reass_start).
  - repeat constructor; done.
  - apply Permutation_swap.
  - apply in_time_last; [|done]. apply (NoDup_fmap_1 fp). apply three_distinct; congruence.
  - change ([fp b; fp a; fp c]) with (fp <$> [b; a; c]). 
    assert (Hb : forall x, x ∈ sample_frags -> belongs (sample_hdr 7 70) x = true).
    { apply Forall_forall. repeat constructor; vm_compute; reflexivity. }
    rewrite <- E in Hb. cbn in Hb. cbn [fmap list_fmap].
    rewrite (filter_cons_True _ (fp b)) by (apply Hb; right; left).
    rewrite (filter_cons_True _ (fp a)) by (apply Hb; left).
    rewrite (filter_cons_True _ (fp c)) by (apply Hb; do 2 right; left). done.
  - repeat constructor; unfold ip_hdr_at; rewrite (proj2 (Z.leb_le _ _)) by done; done.
  - apply inv_reass_start.
  - done.
  - assert (Ec : clens sample_frags = 7) by (vm_compute; reflexivity). rewrite <- E in Ec. cbn [fmap list_fmap clens] in *.
    cbn [reass_start ip_reass_pbufcount]. unfold IP_REASS_MAX_PBUFS. lia.
  - vm_compute. lia.
Defined.


(** ** Behaviour that is not meant *)

(** A queue with the fragment of one datagram, and a second fragment of it. *)
Definition some_frag (id offset : Z) (more : bool) (pieces : list (list Z)) : pbuf :=
  mkPbuf [] (ip_hdr_bytes (frag_hdr (sample_hdr id 0) 0 offset (negb more)
                             (Z.of_nat (length (mjoin pieces)))) :: pieces).
Definition run_reass (l : list pbuf) : option (list (option pbuf)) :=
  match reass_all l reass_start with Some (outs, _) => Some (snd <$> outs) | None => None end.

Definition one_queued : reass Memp.memp :=
  match reass_all [some_frag 1 0 true [[1; 2; 3; 4; 5; 6; 7; 8]]] reass_start with
  | Some (_, st) => st
  | None => reass_start
  end.
Definition second_frag : pbuf := some_frag 1 1 false [[9; 10]].

Lemma inv_one_queued : inv one_queued.
Proof.
  set (q := some_frag 1 0 true [[1; 2; 3; 4; 5; 6; 7; 8]]).
  assert (Hq : ip_hdr_at q = Some (frag_hdr (sample_hdr 1 0) 0 0 false 8)) by (vm_compute; reflexivity).
  assert (Hc : ip_reass_pbufcount reass_start + pbuf_clen q <= IP_REASS_MAX_PBUFS) by (vm_compute; discriminate).
  destruct (ip_reass_total reass_start q _ inv_reass_start Hq (or_intror Hc)) as (out & st' & E & I' & _).
  unfold one_queued. cbn [reass_all]. fold q. rewrite E. cbn [mbind option_bind]. exact I'.
Qed.

Lemma ip_reass_safe_witness :
  (exists out st', ip_reass second_frag one_queued = Some (out, st') /\ inv st' /\
     accounted second_frag out one_queued st') /\
  (exists st', ip_reass_tmr one_queued = Some st' /\ inv st' /\
     reassdatagrams st' = survive (reassdatagrams one_queued) /\
     events st' = events one_queued ++ mjoin (given_up <$> expired (reassdatagrams one_queued)) /\
     ip_reass_pbufcount one_queued = ip_reass_pbufcount st' +
       freed (mjoin (given_up <$> expired (reassdatagrams one_queued)))).
Proof.
  apply (ip_reass_safe one_queued second_frag (frag_hdr (sample_hdr 1 0) 0 1 true 2) inv_one_queued).
  - vm_compute. reflexivity.
  - left. vm_compute. exact I.
Defined.

(** A fragment that arrives after the last one is not compared with the one
    before it: the first, the last and the third of four fragments are taken for a
    datagram of 32 bytes of data, of which 8 are missing. *)
Example reassembles_with_hole :
  exists d, run_reass [some_frag 1 0 true [[1; 2; 3; 4; 5; 6; 7; 8]];
                       some_frag 1 3 false [[25; 26; 27; 28; 29; 30; 31; 32]];
                       some_frag 1 2 true [[17; 18; 19; 20; 21; 22; 23; 24]]] = Some [None; None; Some d] /\
    drop 20 (data d) = [1; 2; 3; 4; 5; 6; 7; 8; 17; 18; 19; 20; 21; 22; 23; 24; 25; 26; 27; 28; 29; 30; 31; 32] /\
    lwip_ntohs (_len (ip_hdr_of (data d))) = 20 + 32.
Proof. eexists. split; [vm_compute; reflexivity|]. split; vm_compute; reflexivity. Qed.

(** When the queue is full and the fragment's own datagram is the oldest of three,
    the second oldest is given back to the pool but stays in the list: [prev] is
    the last but one of the list, not the predecessor of the one that goes. *)
Definition full_queue : list pbuf :=
  [some_frag 1 0 true [[1; 2; 3; 4]; [5; 6]; [7; 8]];
   some_frag 2 0 true [[1; 2; 3; 4; 5; 6]; [7; 8]]; some_frag 3 0 true [[1; 2; 3; 4; 5; 6]; [7; 8]]].
Example remove_oldest_corrupts :
  run_reass full_queue = Some [None; None; None] /\
  run_reass (full_queue ++ [some_frag 1 1 true [[1; 2; 3; 4; 5; 6; 7; 8]]]) = None.
Proof. split; vm_compute; reflexivity. Qed.

(** With an MTU below 28 a fragment holds no data, and the loop does not end. *)
Lemma ip_frag_endless fuel h omf left ofo l poff npl rams refs :
  7 < left <= 65535 -> (poff <= length (hd [] l))%nat -> l <> [] -> npl = 0%nat ->
  frag_loop (fun _ => true) (fun _ => true) fuel h 27 0 omf left ofo l poff npl rams refs = None.
Proof.
  intros Hleft. revert ofo l poff rams refs. induction fuel as [|fuel IH]; intros ofo l poff rams refs Hp Hl ->; [done|].
  cbn [frag_loop]. destruct (Z.eqb_spec left 0); [lia|]. cbn [negb]. destruct l as [|s l]; [done|].
  cbn [hd] in Hp. destruct (Nat.ltb_spec (length s) poff); [lia|].
  unfold IP_HLEN. destruct (Z.leb_spec left (27 - 20)); [lia|]. change (u16 (0 * 8)) with 0.
  cbn [Z.eqb mbind option_bind]. rewrite Z.sub_0_r, (u16_small left) by zlia.
  by rewrite IH by (done || (cbn; lia)).
Qed.

End IpFrag.
