(* ===== verification/Ip.v ===== *)
(** * The Internet protocol layer (ip/lwip/core/ip.c)

    Routing, output with the header that [ip_output_if] builds, and input with
    its checks and the hand-over to the transport protocols.  The configuration
    has no forwarding and no loopback, allows IP options, sends them (for IGMP),
    and accepts DHCP by its link-layer address.  Transport protocols are the
    interface [Transport]; packets that are handed to an interface ([netif->output])
    or freed are events. *)

From S2P Require Import Prelude LwipDef InetChksum IpAddr Mem Memp Pbuf Packet IpFrag.

#[local] Open Scope Z_scope.

Module Ip.
Import LwipDef InetChksum IpAddr Packet.

Definition ERR_OK : Z := 0.
Definition ERR_BUF : Z := -2.
Definition ERR_RTE : Z := -4.
Definition NETIF_FLAG_UP : Z := 0x01.
Definition NETIF_FLAG_IGMP : Z := 0x80.
Definition DHCP_CLIENT_PORT : Z := 68.
Definition ICMP_DUR_PROTO : Z := 2.

Record netif := mkNetif { netif_id : Z; ip_addr : Z; netmask : Z; mtu : Z; nflags : Z }.
#[global] Instance netif_eq_dec : EqDecision netif.
Proof. solve_decision. Defined.

Definition netif_is_up (n : netif) : bool := negb (Z.land (nflags n) NETIF_FLAG_UP =? 0).
Definition ip_addr_isbroadcast (addr : Z) (n : netif) : bool :=
  ip4_addr_isbroadcast addr (nflags n) (ip_addr n) (netmask n).

Inductive event :=
  | Output (id : Z) (q : pbuf) (dest : Z)   (** [netif->output] *)
  | Free (q : pbuf).

(** The static variables of ip.c, with the interfaces and the reassembly. *)
Record ip (P : Type) := mkIp {
  ip_id : Z;
  netif_list : list netif;
  netif_default : option netif;
  current_netif : option netif;
  current_header : option ip_hdr;
  current_iphdr_src : Z;
  current_iphdr_dest : Z;
  reassembly : IpFrag.reass P;
  events : list event;
  outputs : nat;    (** calls of [netif->output] so far *)
  frags : nat;      (** calls of [ip_frag] so far *)
  allocs : nat      (** calls of [pbuf_alloc] of the layers above so far *)
}.
#[global] Arguments mkIp {P}.
#[global] Arguments ip_id {P}.
#[global] Arguments netif_list {P}.
#[global] Arguments netif_default {P}.
#[global] Arguments current_netif {P}.
#[global] Arguments current_header {P}.
#[global] Arguments current_iphdr_src {P}.
#[global] Arguments current_iphdr_dest {P}.
#[global] Arguments reassembly {P}.
#[global] Arguments events {P}.
#[global] Arguments outputs {P}.
#[global] Arguments frags {P}.
#[global] Arguments allocs {P}.

(** What the layer needs of the protocols above it; [I] is the state of this
    layer, [W] theirs. *)
Class Transport (I W : Type) := {
  raw_input : pbuf -> netif -> I -> W -> option (bool * I * W);
  udp_input : pbuf -> netif -> I -> W -> option (I * W);
  tcp_input : pbuf -> netif -> I -> W -> option (I * W);
  icmp_input : pbuf -> netif -> I -> W -> option (I * W);
  igmp_input : pbuf -> netif -> Z -> I -> W -> option (I * W);
  icmp_dest_unreach : pbuf -> Z -> I -> W -> option (I * W);
  igmp_lookfor_group : netif -> Z -> W -> bool
}.

Section ip.
Context {P : Type} `{Pool P}.

Definition emit (e : event) (st : ip P) : ip P :=
  mkIp (ip_id st) (netif_list st) (netif_default st) (current_netif st) (current_header st)
    (current_iphdr_src st) (current_iphdr_dest st) (reassembly st) (events st ++ [e]) (outputs st) (frags st) (allocs st).
Definition with_id (x : Z) (st : ip P) : ip P :=
  mkIp x (netif_list st) (netif_default st) (current_netif st) (current_header st)
    (current_iphdr_src st) (current_iphdr_dest st) (reassembly st) (events st) (outputs st) (frags st) (allocs st).
Definition with_reass (r : IpFrag.reass P) (st : ip P) : ip P :=
  mkIp (ip_id st) (netif_list st) (netif_default st) (current_netif st) (current_header st)
    (current_iphdr_src st) (current_iphdr_dest st) r (events st) (outputs st) (frags st) (allocs st).
Definition with_addrs (s d : Z) (st : ip P) : ip P :=
  mkIp (ip_id st) (netif_list st) (netif_default st) (current_netif st) (current_header st)
    s d (reassembly st) (events st) (outputs st) (frags st) (allocs st).
Definition with_current (n : option netif) (h : option ip_hdr) (st : ip P) : ip P :=
  mkIp (ip_id st) (netif_list st) (netif_default st) n h
    (current_iphdr_src st) (current_iphdr_dest st) (reassembly st) (events st) (outputs st) (frags st) (allocs st).

(** [pbuf_alloc] of a [PBUF_RAM] buffer by the layers above: its room for headers
    and [n] bytes, which are written before they are read.  [ram k] tells whether
    the [k]-th call finds memory. *)
Definition alloc_ram (ram : nat -> bool) (layer : Pbuf.pbuf_layer) (n : Z) (st : ip P) : option pbuf * ip P :=
  (if ram (allocs st)
   then Some (mkPbuf (replicate (Z.to_nat (Mem.LWIP_MEM_ALIGN_SIZE (Pbuf.header_offset layer))) 0) [replicate (Z.to_nat n) 0])
   else None,
   mkIp (ip_id st) (netif_list st) (netif_default st) (current_netif st) (current_header st)
     (current_iphdr_src st) (current_iphdr_dest st) (reassembly st) (events st) (outputs st) (frags st)
     (S (allocs st))).

(** ** Routing *)

Fixpoint route_loop (l : list netif) (dest : Z) : option netif :=
  match l with
  | [] => None
  | n :: l =>
      if netif_is_up n && (ip_addr_netcmp dest (ip_addr n) (netmask n) || (dest =? IPADDR_BROADCAST))
      then Some n else route_loop l dest
  end.
Definition ip_route (dest : Z) (st : ip P) : option netif :=
  match route_loop (netif_list st) dest with
  | Some n => Some n
  | None =>
      match netif_default st with
      | Some n => if netif_is_up n then Some n else None
      | None => None
      end
  end.

(** ** Output *)

Section output.
(** The result of the [n]-th call of [netif->output], and the memory for the
    fragments of the [n]-th call of [ip_frag]. *)
Variable output_err : nat -> Z.
Variables frag_ram frag_ref : nat -> nat -> bool.

Definition netif_output (n : netif) (q : pbuf) (dest : Z) (st : ip P) : Z * ip P :=
  (output_err (outputs st),
   mkIp (ip_id st) (netif_list st) (netif_default st) (current_netif st) (current_header st)
     (current_iphdr_src st) (current_iphdr_dest st) (reassembly st)
     (events st ++ [Output (netif_id n) q dest]) (S (outputs st)) (frags st) (allocs st)).

(** [ip_frag] sends its fragments and does not look at the results. *)
Definition output_all (n : netif) (l : list pbuf) (dest : Z) (st : ip P) : ip P :=
  mkIp (ip_id st) (netif_list st) (netif_default st) (current_netif st) (current_header st)
    (current_iphdr_src st) (current_iphdr_dest st) (reassembly st)
    (events st ++ ((fun q => Output (netif_id n) q dest) <$> l))
    (length l + outputs st) (S (frags st)) (allocs st).

(** The sum over the 16-bit words of the options. *)
Fixpoint word_sum (l : list Z) : Z :=
  match l with
  | a :: b :: l => le16 a b + word_sum l
  | _ => 0
  end.

Definition LWIP_MAKE_U16 (a b : Z) : Z := Z.lor (Z.shiftl a 8) b.

(** The end of the checksum that is summed up on the way. *)
Definition chk_sum_end (chk_sum : Z) : Z :=
  let chk_sum := u32 (Z.shiftr chk_sum 16 + Z.land chk_sum 0xFFFF) in
  let chk_sum := u32 (Z.shiftr chk_sum 16 + chk_sum) in
  u16 (Z.lnot chk_sum).

(** The header of a packet: the fields, and the sum of the words on the way. *)
Definition build_header (opt_sum src dest ttl tos proto ip_hlen tot_len id : Z) (n : netif) : ip_hdr :=
  let v_hl := u8 (Z.lor (Z.shiftl 4 4) (Z.quot ip_hlen 4)) in
  let len := lwip_htons tot_len in
  let id := lwip_htons id in
  let src := if ip_addr_isany src then ip_addr n else src in
  let chk_sum := u32 (opt_sum + LWIP_MAKE_U16 proto ttl + Z.land dest 0xFFFF + Z.shiftr dest 16 +
                      LWIP_MAKE_U16 tos v_hl + len + id + Z.land src 0xFFFF + Z.shiftr src 16) in
  mkIpHdr v_hl tos len id 0 ttl proto (chk_sum_end chk_sum) src dest.

(** The end of [ip_output_if_opt]: the packet goes to the interface, in one piece
    or in fragments. *)
Definition output_packet (q : pbuf) (dest : Z) (n : netif) (st : ip P) : option (Z * ip P) :=
  if negb (mtu n =? 0) && (mtu n <? tot_len q) then
    '(l, err) ← IpFrag.ip_frag (frag_ram (frags st)) (frag_ref (frags st)) (mtu n) q;
    Some (err, output_all n l dest st)
  else Some (netif_output n q dest st).

(** The options are copied in front of the packet, padded with zeros; the packet
    and the sum of its options, or [None] when there is no room. *)
Definition put_options (q : pbuf) (ip_options : list Z) : option (pbuf * Z * Z) :=
  let optlen := Z.of_nat (length ip_options) in
  if optlen =? 0 then Some (q, 0, IP_HLEN)
  else
    let optlen_aligned := Z.land (optlen + 3) (Z.lnot 3) in
    let o := ip_options ++ replicate (Z.to_nat (optlen_aligned - optlen)) 0 in
    q ← pbuf_header q optlen_aligned;
    Some (write_first o q, u32 (word_sum o), IP_HLEN + optlen_aligned).

(** [ip_output_if_opt]; [dest] is [None] for [IP_HDRINCL], a null [src] is 0. *)
Definition ip_output_if_opt (q : pbuf) (src : Z) (dest : option Z) (ttl tos proto : Z) (n : netif)
    (ip_options : list Z) (st : ip P) : option (Z * ip P) :=
  match dest with
  | Some d =>
      match put_options q ip_options with
      | None => Some (ERR_BUF, st)
      | Some (q, opt_sum, ip_hlen) =>
          match pbuf_header q IP_HLEN with
          | None => Some (ERR_BUF, st)
          | Some q =>
              let h := build_header opt_sum src d ttl tos proto ip_hlen (tot_len q) (ip_id st) n in
              output_packet (put_ip_hdr h q) d n (with_id (u16 (ip_id st + 1)) st)
          end
      end
  | None =>
      iphdr ← ip_hdr_at q;
      output_packet q (Packet.dest iphdr) n st
  end.
Definition ip_output_if (q : pbuf) (src : Z) (dest : option Z) (ttl tos proto : Z) (n : netif)
    (st : ip P) : option (Z * ip P) :=
  ip_output_if_opt q src dest ttl tos proto n [] st.
Definition ip_output (q : pbuf) (src dest ttl tos proto : Z) (st : ip P) : option (Z * ip P) :=
  match ip_route dest st with
  | None => Some (ERR_RTE, st)
  | Some n => ip_output_if q src (Some dest) ttl tos proto n st
  end.

End output.

(** ** Input *)

Section input.
Context {W : Type} `{Transport (ip P) W}.
(** What lies in memory behind the bytes of the first buffer. *)
Variable stale : list Z.

(** The interface takes packets for this address. *)
Definition accepts (dest : Z) (n : netif) : bool :=
  netif_is_up n && negb (ip_addr_isany (ip_addr n)) &&
  ((dest =? ip_addr n) || ip_addr_isbroadcast dest n).
(** The interface the packet came in on, then the others in the order of the
    list. *)
Definition candidates (inp : netif) (l : list netif) : list netif :=
  inp :: filter (fun n => n <> inp) l.
Definition match_netif (dest : Z) (inp : netif) (st : ip P) (w : W) : option netif :=
  if ip_addr_ismulticast dest then
    if negb (Z.land (nflags inp) NETIF_FLAG_IGMP =? 0) && igmp_lookfor_group inp dest w
    then Some inp else None
  else List.find (accepts dest) (candidates inp (netif_list st)).

(** The destination port of a packet that is not for one of our addresses. *)
Definition accepts_port (iphdr : ip_hdr) (hlen : Z) (q : pbuf) : bool :=
  (_proto iphdr =? IP_PROTO_UDP) &&
  (get16 (drop (Z.to_nat hlen) (first q ++ stale)) 2 =? lwip_ntohs DHCP_CLIENT_PORT).

Definition drop_packet (q : pbuf) (st : ip P) (w : W) : option (Z * ip P * W) :=
  Some (ERR_OK, emit (Free q) st, w).

(** The end of [ip_input]. *)
Definition deliver (q : pbuf) (iphdr : ip_hdr) (inp : netif) (st : ip P) (w : W) : option (Z * ip P * W) :=
  let st := with_current (Some inp) (Some iphdr) st in
  '(eaten, st, w) ← raw_input q inp st w;
  '(st, w) ←
    if (eaten : bool) then Some (st, w)
    else if _proto iphdr =? IP_PROTO_UDP then udp_input q inp st w
    else if _proto iphdr =? IP_PROTO_TCP then tcp_input q inp st w
    else if _proto iphdr =? IP_PROTO_ICMP then icmp_input q inp st w
    else if _proto iphdr =? IP_PROTO_IGMP then igmp_input q inp (current_iphdr_dest st) st w
    else
      '(st, w) ← (if negb (ip_addr_isbroadcast (current_iphdr_dest st) inp) &&
                     negb (ip_addr_ismulticast (current_iphdr_dest st))
                  then icmp_dest_unreach q ICMP_DUR_PROTO st w else Some (st, w));
      Some (emit (Free q) st, w);
  Some (ERR_OK, with_addrs 0 0 (with_current None None st), w).

Definition ip_input (q : pbuf) (inp : netif) (st : ip P) (w : W) : option (Z * ip P * W) :=
  let iphdr := ip_hdr_of (first q ++ stale) in
  if negb (IPH_V iphdr =? 4) then drop_packet q st w
  else
    let iphdr_hlen := IPH_HL iphdr * 4 in
    let iphdr_len := lwip_ntohs (_len iphdr) in
    if (plen q <? iphdr_hlen) || (tot_len q <? iphdr_len) then drop_packet q st w
    else if negb (inet_chksum 0 (take (Z.to_nat iphdr_hlen) (first q)) =? 0) then drop_packet q st w
    else
      let q := pbuf_realloc q iphdr_len in
      let d := dest iphdr in
      let s := src iphdr in
      let st := with_addrs s d st in
      let n := match_netif d inp st w in
      let '(n, check_ip_src) :=
        match n with
        | Some n => (Some n, true)
        | None => if accepts_port iphdr iphdr_hlen q then (Some inp, false) else (None, true)
        end in
      if (check_ip_src && negb (ip_addr_isany s)) &&
         (ip_addr_isbroadcast s inp || ip_addr_ismulticast s)
      then drop_packet q st w
      else
        match n with
        | None => drop_packet q st w
        | Some _ =>
            if negb (Z.land (_offset iphdr) (lwip_htons (Z.lor IP_OFFMASK IP_MF)) =? 0) then
              '(r, rs) ← IpFrag.ip_reass q (reassembly st);
              let st := with_reass rs st in
              match r with
              | None => Some (ERR_OK, st, w)
              | Some q =>
                  iphdr ← ip_hdr_at q;
                  deliver q iphdr inp st w
              end
            else deliver q iphdr inp st w
        end.

End input.

(** ** The checksum that is summed up on the way *)

Lemma chk_sum_end_oc s : 0 <= s <= 65535 * 1000 -> chk_sum_end (u32 s) = 65535 - oc s.
Proof.
  intros Hs. rewrite u32_small by zlia. unfold chk_sum_end. rewrite land_ffff, !Z.shiftr_div_pow2 by lia.
  change (2 ^ 16) with 65536. set (c := s / 65536 + s mod 65536).
  assert (Hc : 0 <= c <= 66535) by (unfold c; zlia).
  rewrite (u32_small c) by zlia. set (c2 := c / 65536 + c). rewrite (u32_small c2) by (unfold c2; zlia).
  assert (E : oc s = u16 c2).
  { symmetry. apply is_oc_unique. unfold is_oc, c2, c in *. split; [zlia|]. split; zlia. }
  rewrite E. unfold Z.lnot. zlia.
Qed.

Lemma word_sum_wsum o : bytes o -> Nat.even (length o) = true -> word_sum o = wsum false o.
Proof.
  induction o as [|a|a b o IH] using pair_ind; intros Hb He; [done|done|].
  unfold bytes in Hb. rewrite !Forall_cons in Hb. destruct Hb as (Ha & Hb & Hl).
  cbn [word_sum]. rewrite wsum_even_le16, IH by done. done.
Qed.

(** The parts of a header are in range. *)
Record ranges (src dest ttl tos proto ip_hlen tot_len id : Z) (n : netif) : Prop := {
  r_src : in_u32 src; r_dest : in_u32 dest; r_ttl : in_u8 ttl; r_tos : in_u8 tos; r_proto : in_u8 proto;
  r_hlen : 20 <= ip_hlen <= 60; r_len : in_u16 tot_len; r_id : in_u16 id; r_ip : in_u32 (ip_addr n)
}.

Lemma make_u16 a b : in_u8 b -> LWIP_MAKE_U16 a b = le16 b a.
Proof.
  intros Hb. unfold LWIP_MAKE_U16, le16. rewrite lor_shiftl_add by (try change (2 ^ 8) with 256; done || lia).
  change (2 ^ 8) with 256. lia.
Qed.

Lemma vhl_value hl : 20 <= hl <= 60 -> u8 (Z.lor (Z.shiftl 4 4) (Z.quot hl 4)) = 64 + hl / 4.
Proof.
  intros Hh. rewrite Z.quot_div_nonneg by lia. rewrite lor_shiftl_add by (try change (2 ^ 4) with 16; zlia).
  change (2 ^ 4) with 16. rewrite u8_small by zlia. lia.
Qed.

(** The sum of the words of a header with a zero checksum. *)
Lemma hdr_wsum h :
  hdr_ok h ->
  wsum false (ip_hdr_bytes (IPH_CHKSUM_SET 0 h)) =
    le16 (_v_hl h) (_tos h) + _len h + _id h + _offset h + le16 (_ttl h) (_proto h) +
    src h mod 65536 + src h / 65536 + dest h mod 65536 + dest h / 65536.
Proof.
  intros [? ? ? ? ? ? ? ? ? ?]. unfold ip_hdr_bytes, bytes16, ip_bytes, IPH_CHKSUM_SET.
  cbn [_v_hl _tos _len _id _offset _ttl _proto _chksum Packet.src Packet.dest app].
  rewrite !wsum_even_le16. cbn [wsum]. rewrite !u8_small by done.
  rewrite !get_bytes16 by done. unfold le16. rewrite !Z.shiftr_div_pow2 by lia.
  change (2 ^ 8) with 256. change (2 ^ 16) with 65536. change (2 ^ 24) with 16777216.
  change (u16 0) with 0. zlia.
Qed.

Lemma build_header_ok s d ttl tos proto hl len id n o :
  ranges s d ttl tos proto hl len id n -> hdr_ok (build_header o s d ttl tos proto hl len id n).
Proof.
  intros [? ? ? ? ? ? ? ? ?]. unfold build_header.
  split; cbn -[u8 u16 lwip_htons]; auto using u8_range, htons_range, u16_range; try done; [apply u16_range | by destruct (ip_addr_isany s)].
Qed.

(** It is the checksum of the header with its options. *)
Lemma build_header_chksum s d ttl tos proto hl len id n o :
  ranges s d ttl tos proto hl len id n -> bytes o -> Nat.even (length o) = true -> (length o <= 60)%nat ->
  let h := build_header (u32 (word_sum o)) s d ttl tos proto hl len id n in
  _chksum h = inet_chksum 0 (ip_hdr_bytes (IPH_CHKSUM_SET 0 h) ++ o).
Proof.
  intros Hr Ho He Hlo h. pose proof (build_header_ok _ _ _ _ _ _ _ _ _ (u32 (word_sum o)) Hr) as Hok.
  fold h in Hok. pose proof Hr as [? ? ? ? ? ? ? ? ?].
  unfold inet_chksum, LWIP_CHKSUM. rewrite chksum_2_oc; cycle 1.
  { apply Forall_app_2; [apply ip_hdr_bytes_bytes|done]. }
  { rewrite length_app, length_ip_hdr_bytes. lia. }
  rewrite wsum_app, hdr_wsum by done. rewrite length_ip_hdr_bytes. cbn [Nat.odd Nat.even negb xorb].
  unfold h at 1. unfold build_header. cbn [_chksum]. rewrite word_sum_wsum by done.
  pose proof (wsum_nonneg false o Ho). pose proof (wsum_bound false o Ho).
  assert (Hs2 : in_u32 (src h)) by apply Hok. assert (Hv : in_u8 (_v_hl h)) by apply Hok.
  assert (Hl : in_u16 (_len h)) by apply Hok. assert (Hi : in_u16 (_id h)) by apply Hok.
  change (if ip_addr_isany s then ip_addr n else s) with (src h).
  change (u8 (Z.lor (Z.shiftl 4 4) (Z.quot hl 4))) with (_v_hl h).
  change (lwip_htons len) with (_len h). change (lwip_htons id) with (_id h).
  change (_tos h) with tos. change (_ttl h) with ttl. change (_proto h) with proto. change (_offset h) with 0.
  change (dest h) with d.
  rewrite !land_ffff, !Z.shiftr_div_pow2, !make_u16 by (done || lia). change (2 ^ 16) with 65536.
  rewrite (u32_small (wsum false o)) by zlia.
  set (x := wsum false o + le16 ttl proto + d mod 65536 + d / 65536 + le16 (_v_hl h) tos + _len h + _id h +
            src h mod 65536 + src h / 65536).
  assert (Hx : 0 <= x <= 65535 * 1000) by (unfold x, le16; zlia).
  rewrite chk_sum_end_oc by done.
  match goal with |- _ = u16 (Z.lnot (oc ?y)) => replace y with x by (unfold x; lia) end.
  rewrite lnot_u16; [done|]. destruct (oc_spec x ltac:(lia)) as [Hr2 _]. zlia.
Qed.

(** ** Output *)

Lemma ip_header_room q x :
  (Z.to_nat x <= length (before q))%nat -> 0 < x -> segs q <> [] ->
  exists q', pbuf_header q x = Some q' /\ length (before q') = (length (before q) - Z.to_nat x)%nat /\
    segs q' <> [] /\ (Z.to_nat x <= length (first q'))%nat /\
    (forall b, length b = Z.to_nat x -> data (write_first b q') = b ++ data q /\
       first (write_first b q') = b ++ first q /\ before (write_first b q') = before q').
Proof.
  intros Hb Hx Hs. unfold pbuf_header. destruct (segs q) as [|s l] eqn:Es; [done|].
  destruct (Z.eqb_spec x 0); [lia|]. destruct (Z.ltb_spec x 0); [lia|].
  rewrite (proj2 (Nat.leb_le _ _)) by done. eexists. split; [done|]. split; [cbn [before]; rewrite length_take; lia|].
  split; [done|]. set (d := drop _ (before q)). assert (Hd : length d = Z.to_nat x) by (unfold d; rewrite length_drop; lia).
  split; [unfold first; cbn [segs hd]; rewrite length_app; lia|].
  intros b Eb. unfold write_first. cbn [segs before].
  rewrite (drop_app_length' d s (length b)) by lia. unfold data, first. rewrite Es. cbn [segs hd].
  rewrite !mjoin_cons, app_assoc. done.
Qed.
Lemma header_no_room q x : (length (before q) < Z.to_nat x)%nat -> 0 < x -> pbuf_header q x = None.
Proof.
  intros Hb Hx. unfold pbuf_header. destruct (segs q) as [|s l]; [done|].
  destruct (Z.eqb_spec x 0); [lia|]. destruct (Z.ltb_spec x 0); [lia|].
  destruct (Nat.leb_spec (Z.to_nat x) (length (before q))); [lia|done].
Qed.

(** The options, padded to a multiple of four bytes. *)
Definition padded (opts : list Z) : list Z :=
  opts ++ replicate (Z.to_nat (Z.land (Z.of_nat (length opts) + 3) (Z.lnot 3) - Z.of_nat (length opts))) 0.

Lemma align4 x : 0 <= x -> Z.land (x + 3) (Z.lnot 3) = 4 * ((x + 3) / 4).
Proof.
  intros Hx. change (Z.lnot 3) with (Z.lnot (Z.ones 2)). rewrite <- Z.ldiff_land, Z.ldiff_ones_r by lia.
  rewrite Z.shiftr_div_pow2, Z.shiftl_mul_pow2 by lia. change (2 ^ 2) with 4. lia.
Qed.
Lemma length_padded opts : Z.of_nat (length (padded opts)) = 4 * ((Z.of_nat (length opts) + 3) / 4).
Proof.
  unfold padded. rewrite align4 by lia. rewrite length_app, length_replicate. zlia.
Qed.
Lemma padded_bytes opts : bytes opts -> bytes (padded opts).
Proof. intros Ho. apply Forall_app_2; [done|]. by apply Forall_replicate. Qed.
Lemma padded_even opts : Nat.even (length (padded opts)) = true.
Proof.
  apply Nat.even_spec. pose proof (length_padded opts). exists (Z.to_nat (2 * ((Z.of_nat (length opts) + 3) / 4))). zlia.
Qed.

Lemma put_options_spec q opts :
  (length (padded opts) <= length (before q))%nat -> segs q <> [] ->
  exists q', put_options q opts = Some (q', u32 (word_sum (padded opts)), IP_HLEN + Z.of_nat (length (padded opts))) /\
    data q' = padded opts ++ data q /\ segs q' <> [] /\
    length (before q') = (length (before q) - length (padded opts))%nat.
Proof.
  intros Hl Hs. unfold put_options. destruct (Z.eqb_spec (Z.of_nat (length opts)) 0) as [Hz|Hz].
  - destruct opts; [|done]. exists q. change (padded []) with (@nil Z). cbn. split_and!; try done. lia.
  - pose proof (length_padded opts) as Hp. rewrite align4 by lia.
    assert (Ex : 4 * ((Z.of_nat (length opts) + 3) / 4) = Z.of_nat (length (padded opts))) by (symmetry; exact Hp).
    rewrite Ex.
    destruct (ip_header_room q (Z.of_nat (length (padded opts)))) as (q' & E & Hb & Hs' & Hf & Hw); [lia|rewrite <- Ex; zlia|done|].
    assert (Epad : opts ++ replicate (Z.to_nat (Z.of_nat (length (padded opts)) - Z.of_nat (length opts))) 0 = padded opts).
    { rewrite <- Ex, <- align4 by lia. done. }
    rewrite Epad, E. cbn [mbind option_bind].
    destruct (Hw (padded opts)) as (Hd & _ & Hbe); [lia|].
    eexists. split; [done|]. split; [done|]. rewrite Hbe, Hb. split; [|lia].
    unfold write_first. destruct (segs q'); [done|]. done.
Qed.
Lemma put_options_none q opts : (length (before q) < length (padded opts))%nat -> put_options q opts = None.
Proof.
  intros Hl. pose proof (length_padded opts) as Hp. unfold put_options.
  destruct (Z.eqb_spec (Z.of_nat (length opts)) 0) as [Hz|Hz].
  - destruct opts; [|done]. change (length (padded [])) with 0%nat in Hl. lia.
  - rewrite align4, <- Hp by lia. rewrite header_no_room; [done|lia|rewrite Hp; zlia].
Qed.

Lemma build_header_vhl s d ttl tos proto hl len id n o :
  20 <= hl <= 60 -> hl mod 4 = 0 ->
  let h := build_header o s d ttl tos proto hl len id n in IPH_V h = 4 /\ IPH_HL h * 4 = hl.
Proof.
  intros Hh Hm h. assert (Ev : _v_hl h = 64 + hl / 4) by (apply (vhl_value hl Hh)).
  unfold IPH_V, IPH_HL. rewrite Ev. split.
  - rewrite Z.shiftr_div_pow2 by lia. change (2 ^ 4) with 16. zlia.
  - change 0x0f with (Z.ones 4). rewrite Z.land_ones by lia. change (2 ^ 4) with 16. zlia.
Qed.

(** The checksum of a header that is sent verifies. *)
Lemma build_header_verifies s d ttl tos proto hl len id n o :
  ranges s d ttl tos proto hl len id n -> bytes o -> Nat.even (length o) = true -> (length o <= 60)%nat ->
  inet_chksum 0 (ip_hdr_bytes (build_header (u32 (word_sum o)) s d ttl tos proto hl len id n) ++ o) = 0.
Proof.
  intros Hr Hb He Hl. pose proof (build_header_chksum _ _ _ _ _ _ _ _ _ o Hr Hb He Hl) as Hc.
  pose proof (build_header_ok _ _ _ _ _ _ _ _ _ (u32 (word_sum o)) Hr) as Hok. cbn zeta in Hc.
  revert Hc Hok. generalize (build_header (u32 (word_sum o)) s d ttl tos proto hl len id n) as h. intros h Hc Hok.
  assert (Hself : IPH_CHKSUM_SET (_chksum h) h = h).
  { destruct h. unfold IPH_CHKSUM_SET. cbn. by rewrite (u16_small _) by apply Hok. }
  rewrite <- Hself, (hdr_bytes_chksum (_chksum h)) by apply Hok. rewrite Hc.
  rewrite (hdr_bytes_chksum 0) by done. rewrite <- !app_assoc.
  apply (chksum_roundtrip 0 0 (take 10 (ip_hdr_bytes h)) (drop 12 (ip_hdr_bytes h) ++ o)).
  - apply Forall_take, ip_hdr_bytes_bytes.
  - apply Forall_app_2; [apply Forall_drop, ip_hdr_bytes_bytes|done].
  - done.
  - rewrite length_app, length_take, length_drop, length_ip_hdr_bytes. lia.
Qed.

Section sending.
Variable output_err : nat -> Z.
Variables frag_ram frag_ref : nat -> nat -> bool.

(** The header that [ip_output_if_opt] gives to the data [D]. *)
Definition sent_header (D : list Z) (src dest ttl tos proto : Z) (n : netif) (opts : list Z) (st : ip P) : ip_hdr :=
  let hl := IP_HLEN + Z.of_nat (length (padded opts)) in
  build_header (u32 (word_sum (padded opts))) src dest ttl tos proto hl
    (hl + Z.of_nat (length D)) (ip_id st) n.

(** The conditions of the arguments of [ip_output_if_opt]. *)
Record sendable (q : pbuf) (src dest ttl tos proto : Z) (n : netif) (opts : list Z) (st : ip P) : Prop := {
  sd_bytes : bytes (data q); sd_opts : bytes opts; sd_optlen : (length opts <= 40)%nat;
  sd_segs : segs q <> [];
  sd_size : Z.of_nat (length (data q)) + 60 <= 65535;
  sd_src : in_u32 src; sd_dest : in_u32 dest; sd_ttl : in_u8 ttl; sd_tos : in_u8 tos; sd_proto : in_u8 proto;
  sd_id : in_u16 (ip_id st); sd_ip : in_u32 (ip_addr n)
}.

Lemma padded_short q s d ttl tos proto n opts st :
  sendable q s d ttl tos proto n opts st -> Z.of_nat (length (padded opts)) <= 40.
Proof. intros Hs. pose proof (sd_optlen _ _ _ _ _ _ _ _ _ Hs). rewrite length_padded. zlia. Qed.

Lemma sendable_ranges q s d ttl tos proto n opts st :
  sendable q s d ttl tos proto n opts st ->
  let hl := IP_HLEN + Z.of_nat (length (padded opts)) in
  ranges s d ttl tos proto hl (hl + Z.of_nat (length (data q))) (ip_id st) n.
Proof.
  intros Hs hl. pose proof (padded_short _ _ _ _ _ _ _ _ _ Hs). destruct Hs. unfold hl, IP_HLEN.
  split; try done; unfold in_u16; lia.
Qed.

Lemma ip_output_spec q s d ttl tos proto n opts st :
  sendable q s d ttl tos proto n opts st -> (length (padded opts) + 20 <= length (before q))%nat ->
  let h := sent_header (data q) s d ttl tos proto n opts st in
  exists q', ip_output_if_opt output_err frag_ram frag_ref q s (Some d) ttl tos proto n opts st =
      output_packet output_err frag_ram frag_ref q' d n (with_id (u16 (ip_id st + 1)) st) /\
    data q' = ip_hdr_bytes h ++ padded opts ++ data q /\ ip_hdr_at q' = Some h /\ hdr_ok h.
Proof.
  intros Hs Hroom h. pose proof (sendable_ranges _ _ _ _ _ _ _ _ _ Hs) as Hr. cbn zeta in Hr.
  pose proof (padded_short _ _ _ _ _ _ _ _ _ Hs) as Hpad. unfold ip_output_if_opt.
  destruct (put_options_spec q opts) as (q1 & -> & D1 & S1 & B1); [lia|apply Hs|]. 
  destruct (ip_header_room q1 IP_HLEN) as (q2 & -> & B2 & S2 & F2 & W2); [change (Z.to_nat IP_HLEN) with 20%nat; lia|done|done|].
  change (Z.to_nat IP_HLEN) with 20%nat in *.
  assert (Ht : tot_len q2 = IP_HLEN + Z.of_nat (length (padded opts)) + Z.of_nat (length (data q))).
  { destruct (W2 (replicate 20 0)) as (E & _ & _); [done|]. apply (f_equal length) in E.
    unfold tot_len. rewrite D1, !length_app, length_replicate in E. unfold write_first, data in E.
    destruct (segs q2) as [|x l] eqn:Ex; [done|]. unfold first in F2. rewrite Ex in F2. cbn [hd segs] in *.
    unfold data. rewrite Ex. rewrite !mjoin_cons, !length_app, length_drop, length_replicate in *.
    unfold data in *. rewrite u16_small; unfold IP_HLEN, in_u16; [lia|]. pose proof (sd_size _ _ _ _ _ _ _ _ _ Hs). unfold data in *. lia. }
  rewrite Ht. fold (sent_header (data q) s d ttl tos proto n opts st). fold h.
  assert (Hok : hdr_ok h) by (by apply build_header_ok).
  destruct (W2 (ip_hdr_bytes h) (length_ip_hdr_bytes h)) as (E & F & _).
  exists (put_ip_hdr h q2). split; [done|]. split; [unfold put_ip_hdr; by rewrite E, D1|]. split; [|done].
  unfold ip_hdr_at, plen, put_ip_hdr. rewrite F, length_app, length_ip_hdr_bytes.
  destruct (Z.leb_spec IP_HLEN (Z.of_nat (20 + length (first q1)))) as [_|Hlt]; [|unfold IP_HLEN in Hlt; lia].
  by rewrite hdr_of_bytes.
Qed.

End sending.

Lemma sent_header_fields q s d ttl tos proto n opts st :
  sendable q s d ttl tos proto n opts st ->
  let hl := IP_HLEN + Z.of_nat (length (padded opts)) in
  let h := sent_header (data q) s d ttl tos proto n opts st in
  IPH_V h = 4 /\ IPH_HL h * 4 = hl /\ lwip_ntohs (_len h) = hl + Z.of_nat (length (data q)) /\
  lwip_ntohs (_id h) = ip_id st /\ _offset h = 0 /\ _ttl h = ttl /\ _proto h = proto /\ _tos h = tos /\
  src h = (if ip_addr_isany s then ip_addr n else s) /\ dest h = d /\
  inet_chksum 0 (ip_hdr_bytes h ++ padded opts) = 0.
Proof.
  intros Hs hl h. pose proof (sendable_ranges _ _ _ _ _ _ _ _ _ Hs) as Hr. cbn zeta in Hr. fold hl in Hr.
  pose proof (padded_short _ _ _ _ _ _ _ _ _ Hs) as Hp.
  destruct (build_header_vhl s d ttl tos proto hl (hl + Z.of_nat (length (data q))) (ip_id st) n (u32 (word_sum (padded opts))))
    as [V HL]; [unfold hl, IP_HLEN; lia|unfold hl, IP_HLEN; rewrite length_padded; zlia|].
  split; [exact V|]. split; [exact HL|].
  split; [apply htons_involutive, Hr|]. split; [apply htons_involutive, Hr|]. do 6 (split; [done|]).
  apply build_header_verifies; [done|apply padded_bytes, Hs|apply padded_even|lia].
Qed.

(** C19: [ip_output_if_opt] puts a header, with the options padded, in front of the
    packet: the fields are those it was called with, the identification is the
    counter's, which goes up by one, the length is the whole packet's and the
    checksum verifies over the header with its options; the packet is handed to
    the interface if it fits.  Without room for the header nothing is sent. *)
Theorem ip_output_sends output_err frag_ram frag_ref q s d ttl tos proto n opts st :
  sendable q s d ttl tos proto n opts st ->
  let hl := IP_HLEN + Z.of_nat (length (padded opts)) in
  let out := ip_output_if_opt output_err frag_ram frag_ref q s (Some d) ttl tos proto n opts st in
  (Z.of_nat (length (before q)) < hl -> out = Some (ERR_BUF, st)) /\
  (hl <= Z.of_nat (length (before q)) ->
     (mtu n = 0 \/ hl + Z.of_nat (length (data q)) <= mtu n) ->
   exists q' h st', out = Some (output_err (outputs st), st') /\
     events st' = events st ++ [Output (netif_id n) q' d] /\ ip_id st' = u16 (ip_id st + 1) /\
     reassembly st' = reassembly st /\
     data q' = ip_hdr_bytes h ++ padded opts ++ data q /\
     IPH_V h = 4 /\ IPH_HL h * 4 = hl /\ lwip_ntohs (_len h) = Z.of_nat (length (data q')) /\
     lwip_ntohs (_id h) = ip_id st /\ _offset h = 0 /\ _ttl h = ttl /\ _proto h = proto /\ _tos h = tos /\
     src h = (if ip_addr_isany s then ip_addr n else s) /\ dest h = d /\
     inet_chksum 0 (take (Z.to_nat hl) (data q')) = 0).
Proof.
  intros Hs hl out. pose proof (padded_short _ _ _ _ _ _ _ _ _ Hs) as Hp. unfold hl, IP_HLEN in *. split.
  - intros Hno. unfold out, ip_output_if_opt.
    destruct (decide (length (before q) < length (padded opts))%nat) as [Hlt|Hge]; [by rewrite put_options_none|].
    destruct (put_options_spec q opts) as (q1 & -> & _ & _ & B1); [lia|apply Hs|].
    rewrite header_no_room; [done| |done]. change (Z.to_nat IP_HLEN) with 20%nat. lia.
  - intros Hroom Hmtu.
    destruct (ip_output_spec output_err frag_ram frag_ref q s d ttl tos proto n opts st Hs ltac:(lia)) as (q' & E & D & Hh & Hok).
    destruct (sent_header_fields q s d ttl tos proto n opts st Hs)
      as (F1 & F2 & F3 & F4 & F5 & F6 & F7 & F8 & F9 & F10 & F11).
    set (h := sent_header (data q) s d ttl tos proto n opts st) in *.
    assert (Hlen : Z.of_nat (length (data q')) = 20 + Z.of_nat (length (padded opts)) + Z.of_nat (length (data q))).
    { rewrite D, !length_app, length_ip_hdr_bytes. lia. }
    assert (Ht : tot_len q' = Z.of_nat (length (data q'))).
    { pose proof (sd_size _ _ _ _ _ _ _ _ _ Hs). unfold tot_len. apply u16_small. unfold in_u16. lia. }
    unfold out. rewrite E. unfold output_packet.
    destruct (negb (mtu n =? 0) && (mtu n <? tot_len q')) eqn:Efit.
    { apply andb_true_iff in Efit as [Ef1 Ef2]. apply negb_true_iff, Z.eqb_neq in Ef1. apply Z.ltb_lt in Ef2. lia. }
    exists q', h. eexists. split; [done|]. unfold IP_HLEN in *. split_and!; try done; [lia|].
    rewrite D. assert (EL : Z.to_nat (20 + Z.of_nat (length (padded opts))) = length (ip_hdr_bytes h ++ padded opts)).
    { rewrite length_app, length_ip_hdr_bytes. lia. }
    rewrite EL, app_assoc, take_app_length. exact F11.
Qed.

(** ** Input *)

Section receiving.
Context {W : Type} `{Transport (ip P) W}.
Variable stale : list Z.
Implicit Types (st r : ip P) (w : W).

(** A packet that passes the checks of the header. *)
Lemma ip_input_wire h q inp st w :
  IpFrag.wire_ok h q -> match_netif (dest h) inp st w <> None ->
  ip_addr_isany (src h) = true \/
    (ip_addr_isbroadcast (src h) inp = false /\ ip_addr_ismulticast (src h) = false) ->
  ip_input stale q inp st w =
    if negb (Z.land (_offset h) (lwip_htons (Z.lor IP_OFFMASK IP_MF)) =? 0) then
      '(r, rs) ← IpFrag.ip_reass q (reassembly st);
      let st := with_reass rs (with_addrs (src h) (dest h) st) in
      match r with
      | None => Some (ERR_OK, st, w)
      | Some q => iphdr ← ip_hdr_at q; deliver q iphdr inp st w
      end
    else deliver q h inp (with_addrs (src h) (dest h) st) w.
Proof.
  intros Hw Hm Hsrc. pose proof (IpFrag.wire_hdr_bytes _ _ Hw) as [Hok Hb].
  pose proof (IpFrag.hdr_at_len _ _ (IpFrag.w_hdr _ _ Hw)) as Hl. destruct Hw as [W1 W2 W3 W4 W5 W6 W7].
  assert (Eh : ip_hdr_of (first q ++ stale) = h).
  { unfold ip_hdr_at in W1. destruct (IP_HLEN <=? plen q); [|done]. injection W1 as <-.
    unfold plen, IP_HLEN in Hl. rewrite (IpFrag.ip_hdr_of_take (first q ++ stale)) by (rewrite length_app; lia).
    rewrite take_app_le by lia. symmetry. apply IpFrag.ip_hdr_of_take. lia. }
  unfold ip_input. rewrite Eh, W3, W4, W5. change (negb (4 =? 4)) with false. cbn iota.
  assert (Ht : tot_len q = Z.of_nat (length (data q))) by (apply u16_small; unfold in_u16; lia).
  rewrite Ht. destruct (Z.ltb_spec (plen q) IP_HLEN); [lia|].
  rewrite Z.ltb_irrefl. cbn [orb]. change (Z.to_nat IP_HLEN) with 20%nat.
  unfold plen, IP_HLEN in Hl. rewrite <- first_data, Hb by lia.
  rewrite <- W7 at 1. rewrite chksum_ok. change (negb (0 =? 0)) with false. cbn iota.
  unfold pbuf_realloc. rewrite Ht, Z.leb_refl.
  change (match_netif (dest h) inp (with_addrs (src h) (dest h) st) w) with (match_netif (dest h) inp st w).
  destruct (match_netif (dest h) inp st w) as [m|]; [|done].
  assert (Hs : (true && negb (ip_addr_isany (src h))) &&
               (ip_addr_isbroadcast (src h) inp || ip_addr_ismulticast (src h)) = false).
  { destruct Hsrc as [->|[-> ->]]; [done|]. by rewrite andb_false_r. }
  rewrite Hs. done.
Qed.

Fixpoint input_all (l : list pbuf) (inp : netif) (st : ip P) (w : W) : option (ip P * W) :=
  match l with
  | [] => Some (st, w)
  | q :: l => '(_, st, w) ← ip_input stale q inp st w; input_all l inp st w
  end.

(** Fragments of one datagram, until it is complete. *)
Lemma input_fragments s d L inp st w outs rs q hq :
  (forall x, x ∈ L -> exists h, IpFrag.wire_ok h x /\ src h = s /\ dest h = d /\
     Z.land (_offset h) (lwip_htons (Z.lor IP_OFFMASK IP_MF)) <> 0) ->
  match_netif d inp st w <> None ->
  ip_addr_isany s = true \/ (ip_addr_isbroadcast s inp = false /\ ip_addr_ismulticast s = false) ->
  IpFrag.reass_all L (reassembly st) = Some (outs, rs) -> ip_hdr_at q = Some hq ->
  snd <$> outs = replicate (length L - 1) None ++ [Some q] ->
  input_all L inp st w =
    ('(_, st, w) ← deliver q hq inp (with_reass rs (with_addrs s d st)) w; Some (st, w)).
Proof.
  intros HL Hm Hs. revert st Hm outs. induction L as [|x L IH]; intros st Hm outs Hre Hq Hout.
  { injection Hre as <- <-. discriminate. }
  destruct (HL x) as (h & Hw & <- & <- & Hbits); [left|]. cbn [input_all].
  rewrite (ip_input_wire h x inp st w Hw Hm Hs). destruct (Z.eqb_spec (Z.land (_offset h) (lwip_htons (Z.lor IP_OFFMASK IP_MF))) 0); [done|].
  cbn [negb]. cbn [IpFrag.reass_all] in Hre.
  destruct (IpFrag.ip_reass x (reassembly st)) as [[o r1]|]; [|done]. cbn [mbind option_bind] in Hre |- *.
  destruct (IpFrag.reass_all L r1) as [[outs1 r2]|] eqn:E1; [|done]. cbn [mbind option_bind] in Hre.
  injection Hre as <- ->. cbn [fmap list_fmap snd length] in Hout. rewrite Nat.sub_succ, Nat.sub_0_r in Hout.
  destruct L as [|y L].
  - cbn in E1. injection E1 as <- <-. cbn in Hout. injection Hout as ->. rewrite Hq. cbn [mbind option_bind].
    destruct (deliver q hq inp (with_reass r1 (with_addrs (src h) (dest h) st)) w) as [[[e st2] w2]|]; done.
  - cbn [length replicate app] in Hout. injection Hout as -> Hout. cbn [mbind option_bind].
    rewrite (IH ltac:(intros; apply HL; by right) (with_reass r1 (with_addrs (src h) (dest h) st)) Hm outs1);
      try done.
    cbn [length]. by rewrite Nat.sub_succ, Nat.sub_0_r.
Qed.

End receiving.

(** ** From one host to another *)

Lemma padded_nil : padded [] = [].
Proof. done. Qed.

Lemma sent_with_chksum q s d ttl tos proto n st :
  sendable q s d ttl tos proto n [] st ->
  let h := sent_header (data q) s d ttl tos proto n [] st in with_chksum h = h.
Proof.
  intros Hs h. pose proof (sendable_ranges _ _ _ _ _ _ _ _ _ Hs) as Hr. cbn zeta in Hr.
  assert (Hok : hdr_ok h) by (by apply build_header_ok).
  pose proof (build_header_chksum _ _ _ _ _ _ _ _ _ [] Hr (List.Forall_nil _) eq_refl ltac:(cbn; lia)) as Hc.
  cbn zeta in Hc. change (u32 (word_sum [])) with (u32 (word_sum (padded []))) in Hc.
  fold (sent_header (data q) s d ttl tos proto n [] st) in Hc. fold h in Hc. rewrite app_nil_r in Hc.
  unfold with_chksum. rewrite set_chksum_twice, <- Hc.
  revert Hok. generalize h. intros [] Hok. unfold IPH_CHKSUM_SET. cbn. by rewrite (u16_small _) by apply Hok.
Qed.

(** Without options and with data this is a datagram that may be cut. *)
Lemma sent_unfragmented q s d ttl tos proto n st q' :
  sendable q s d ttl tos proto n [] st -> (0 < length (data q))%nat ->
  let h := sent_header (data q) s d ttl tos proto n [] st in
  data q' = ip_hdr_bytes h ++ data q -> ip_hdr_at q' = Some h -> IpFrag.unfragmented h q' /\ IPH_V h = 4.
Proof.
  intros Hs Hpos h Hd Hh. destruct (sent_header_fields _ _ _ _ _ _ _ _ _ Hs)
    as (F1 & F2 & F3 & _ & F5 & _). fold h in F1, F2, F3, F5. rewrite padded_nil in F2, F3. cbn [length] in F2, F3.
  change (IP_HLEN + Z.of_nat 0) with 20 in *.
  pose proof (sd_size _ _ _ _ _ _ _ _ _ Hs).
  assert (Hlen : Z.of_nat (length (data q')) = 20 + Z.of_nat (length (data q))).
  { rewrite Hd, length_app, length_ip_hdr_bytes. lia. }
  split; [|done]. split; try done.
  - rewrite Hd. apply Forall_app_2; [apply ip_hdr_bytes_bytes|apply Hs].
  - rewrite Hlen. done.
  - by apply (sent_with_chksum q s d ttl tos proto n st).
  - unfold IP_HLEN. lia.
Qed.

(** The receiver takes packets from [s] to [d]. *)
Definition takes {W} `{Transport (ip P) W} (inp : netif) (s d : Z) (r : ip P) (w : W) : Prop :=
  match_netif d inp r w <> None /\
  (ip_addr_isany s = true \/ (ip_addr_isbroadcast s inp = false /\ ip_addr_ismulticast s = false)).

(** A packet that is sent and arrives is handed over once, in a buffer whose first
    part is as long as the one of a packet that came in. *)
Lemma transmits {W : Type} `{Transport (ip P) W} output_err q s d ttl tos proto n st :
  sendable q s d ttl tos proto n [] st -> (0 < length (data q))%nat -> (20 <= length (before q))%nat ->
  28 <= mtu n <= 65535 ->
  exists sent err st' h,
    ip_output_if output_err (fun _ _ => true) (fun _ _ => true) q s (Some d) ttl tos proto n st = Some (err, st') /\
    events st' = events st ++ ((fun x => Output (netif_id n) x d) <$> sent) /\
    (forall x, x ∈ sent -> Z.of_nat (length (data x)) <= mtu n) /\
    src h = (if ip_addr_isany s then ip_addr n else s) /\ dest h = d /\ _proto h = proto /\ _ttl h = ttl /\
    lwip_ntohs (_id h) = ip_id st /\ IPH_HL h * 4 = IP_HLEN /\ hdr_ok h /\
    forall stale received inp (r : ip P) (w : W),
      IpFrag.arrives sent received -> takes inp (src h) d r w ->
      IpFrag.inv (reassembly r) -> IpFrag.entry (reassembly r) h = None ->
      IpFrag.ip_reass_pbufcount (reassembly r) + IpFrag.clens received <= IpFrag.IP_REASS_MAX_PBUFS ->
      (length (IpFrag.reassdatagrams (reassembly r)) + length received <= capacity P)%nat ->
      exists p rs, data p = ip_hdr_bytes h ++ data q /\ ip_hdr_at p = Some h /\ IpFrag.inv rs /\
        (exists x, x ∈ received /\ plen p = plen x) /\
        input_all stale received inp r w =
          ('(_, r, w) ← deliver p h inp (with_reass rs (with_addrs (src h) d r)) w; Some (r, w)).
Proof.
  intros Hs Hpos Hroom Hmtu.
  destruct (ip_output_spec output_err (fun _ _ => true) (fun _ _ => true) q s d ttl tos proto n [] st Hs)
    as (q' & E & D & Hh & Hok); [rewrite padded_nil; cbn; lia|].
  destruct (sent_header_fields q s d ttl tos proto n [] st Hs)
    as (_ & F2 & _ & F4 & F5 & F6 & F7 & _ & F9 & F10 & _).
  set (h := sent_header (data q) s d ttl tos proto n [] st) in *.
  rewrite padded_nil in D. change ([] ++ data q) with (data q) in D.
  destruct (sent_unfragmented q s d ttl tos proto n st q' Hs Hpos D Hh) as [Hu Hv]. fold h in Hu, Hv.
  assert (Ht : tot_len q' = Z.of_nat (length (data q'))).
  { pose proof (IpFrag.uf_size _ _ Hu). unfold tot_len. apply u16_small. unfold in_u16, IP_HLEN in *. lia. }
  unfold ip_output_if. rewrite E. unfold output_packet. destruct (Z.eqb_spec (mtu n) 0); [lia|]. cbn [negb andb].
  rewrite Ht. destruct (Z.ltb_spec (mtu n) (Z.of_nat (length (data q')))) as [Hbig|Hfits].
  - destruct (IpFrag.frag_reassembles_alone (P := P) h q' (mtu n) Hu Hmtu) as (sent & Ef & Hsize & Hcut & Hall).
    rewrite Ef. cbn [mbind option_bind]. exists sent, IpFrag.ERR_OK. eexists. exists h.
    split; [done|]. split; [done|]. do 8 (split; [done|]).
    intros stale received inp r w Harr [Hm Hsrc] Hi He Hcnt Hcap.
    destruct (Hall received (reassembly r) Harr Hi He Hcnt Hcap) as (outs & rs & p & Ere & I' & Hp1 & (x1 & Hx1 & Hp2) & Hout).
    assert (Hp20 : IP_HLEN <= plen p).
    { rewrite Hp2. destruct Harr as (copies & Hcp & Hperm & _). rewrite Hperm in Hx1.
      apply list_elem_of_lookup in Hx1 as (i & Hx1). by destruct (Forall2_lookup_r _ _ _ _ _ Hcp Hx1) as (y & _ & _ & Hxl). }
    assert (Hph : ip_hdr_at p = Some h).
    { rewrite IpFrag.ip_hdr_at_data, Hp1 by done. pose proof (IpFrag.hdr_at_len _ _ Hh) as Hl.
      rewrite <- IpFrag.ip_hdr_at_data by done. done. }
    exists p, rs. split; [congruence|]. split; [done|]. split; [done|]. split; [by exists x1|]. rewrite <- F10.
    apply (input_fragments stale (src h) (dest h) received inp r w outs rs p h); try done.
    intros x Hx. destruct Harr as (copies & Hcp & Hperm & _). rewrite Hperm in Hx.
    apply list_elem_of_lookup in Hx as (i & Hx). destruct (Forall2_lookup_r _ _ _ _ _ Hcp Hx) as (y & Hy & Exy & Hxl).
    destruct (IpFrag.cut_wire h (mtu n) ((mtu n - 20) / 8) 0 (drop 20 (data q')) sent)
      with (q := y) as (hf & Hw & W1 & W2 & W3); try done; try (unfold IP_HLEN; zlia).
    + apply Forall_drop, Hu.
    + right. rewrite length_drop. pose proof (IpFrag.uf_size _ _ Hu). lia.
    + right. rewrite length_drop. unfold IP_HLEN. lia.
    + by apply list_elem_of_lookup_2 with i.
    + exists hf. split; [by apply (IpFrag.wire_ok_same hf y)|done].
  - exists [q'], (output_err (outputs st)). eexists. exists h. split; [done|]. split; [done|].
    split; [by intros x ->%list_elem_of_singleton|]. do 7 (split; [done|]).
    intros stale received inp r w (copies & Hcp & Hperm & _) [Hm Hsrc] Hi He Hcnt Hcap.
    apply Forall2_cons_inv_l in Hcp as (c & cs & [Hc1 Hc2] & Hcs & ->). apply Forall2_nil_inv_l in Hcs as ->.
    apply Permutation_singleton_r in Hperm as ->.
    exists c, (reassembly r). split; [congruence|].
    assert (Hwc : IpFrag.wire_ok h c) by (apply (IpFrag.wire_ok_same h q'); [by apply IpFrag.unfragmented_wire|done]).
    split; [apply Hwc|]. split; [done|]. split; [exists c; split; [left|done]|]. cbn [input_all]. rewrite (ip_input_wire stale h c inp r w) by done.
    rewrite F5. change (negb (Z.land 0 _ =? 0)) with false. cbn iota. rewrite F10. destruct r. done.
Qed.

(** C8: A packet that [ip_output_if] sends, whole or in fragments that fit the
    interface, and whose pieces reach another host in any order in which the last
    comes last, is handed there to the transport protocols exactly once, with the
    header that was sent and all its data. *)
Theorem ip_transmission {W : Type} `{Transport (ip P) W} output_err q s d ttl tos proto n st :
  sendable q s d ttl tos proto n [] st -> (0 < length (data q))%nat -> (20 <= length (before q))%nat ->
  28 <= mtu n <= 65535 ->
  exists sent err st' h,
    ip_output_if output_err (fun _ _ => true) (fun _ _ => true) q s (Some d) ttl tos proto n st = Some (err, st') /\
    events st' = events st ++ ((fun x => Output (netif_id n) x d) <$> sent) /\
    (forall x, x ∈ sent -> Z.of_nat (length (data x)) <= mtu n) /\
    src h = (if ip_addr_isany s then ip_addr n else s) /\ dest h = d /\ _proto h = proto /\ _ttl h = ttl /\
    lwip_ntohs (_id h) = ip_id st /\
    forall stale received inp (r : ip P) (w : W),
      IpFrag.arrives sent received -> takes inp (src h) d r w ->
      IpFrag.inv (reassembly r) -> IpFrag.entry (reassembly r) h = None ->
      IpFrag.ip_reass_pbufcount (reassembly r) + IpFrag.clens received <= IpFrag.IP_REASS_MAX_PBUFS ->
      (length (IpFrag.reassdatagrams (reassembly r)) + length received <= capacity P)%nat ->
      exists p rs, data p = ip_hdr_bytes h ++ data q /\ ip_hdr_at p = Some h /\ IpFrag.inv rs /\
        input_all stale received inp r w =
          ('(_, r, w) ← deliver p h inp (with_reass rs (with_addrs (src h) d r)) w; Some (r, w)).
Proof.
  intros Hs Hpos Hroom Hmtu.
  destruct (transmits (W := W) output_err q s d ttl tos proto n st Hs Hpos Hroom Hmtu)
    as (sent & err & st' & h & E & Ev & Hsize & F1 & F2 & F3 & F4 & F5 & _ & _ & Hall).
  exists sent, err, st', h. do 8 (split; [done|]). intros stale received inp r w Harr Ht Hi He Hcnt Hcap.
  destruct (Hall stale received inp r w Harr Ht Hi He Hcnt Hcap) as (p & rs & D & Hh & I' & _ & Ein).
  by exists p, rs.
Qed.

(** ** Corrupted headers *)

(** A byte that changes changes the sum by less than 65535, and so the checksum. *)
Lemma one_byte_chksum addr l1 a b l2 :
  bytes (l1 ++ a :: l2) -> in_u8 b -> b <> a -> (length (l1 ++ a :: l2) <= 1000)%nat ->
  inet_chksum addr (l1 ++ a :: l2) = 0 -> inet_chksum addr (l1 ++ b :: l2) <> 0.
Proof.
  intros Hl Hb Hab Hlen. apply Forall_app in Hl as Hl'. destruct Hl' as [H1 H2].
  apply Forall_cons in H2 as [Ha H2].
  assert (Hl2 : bytes (l1 ++ b :: l2)) by (apply Forall_app_2; [done|by constructor]).
  assert (Hlen2 : length (l1 ++ b :: l2) = length (l1 ++ a :: l2)) by (rewrite !length_app; done).
  unfold inet_chksum, LWIP_CHKSUM. rewrite !chksum_2_oc by (done || (rewrite ?Hlen2; lia)).
  pose proof (wsum_nonneg false _ Hl) as N1. pose proof (wsum_nonneg false _ Hl2) as N2.
  assert (Hd : exists k, (k = 1 \/ k = 256) /\ wsum false (l1 ++ b :: l2) = wsum false (l1 ++ a :: l2) + k * (b - a)).
  { rewrite !wsum_app. cbn [wsum]. destruct (xorb false (Nat.odd (length l1))); [exists 256|exists 1]; split; auto; lia. }
  destruct Hd as (k & Hk & Hd). destruct (oc_spec _ N1) as (R1 & M1 & _). destruct (oc_spec _ N2) as (R2 & M2 & _).
  rewrite !lnot_u16 by (unfold in_u16; lia). intros E1 E2.
  assert (O1 : oc (wsum false (l1 ++ a :: l2)) = 65535) by lia.
  assert (O2 : oc (wsum false (l1 ++ b :: l2)) = 65535) by lia.
  rewrite O1 in M1. rewrite O2, Hd in M2. clear -M1 M2 Hk Ha Hb Hab. unfold in_u8 in *. destruct Hk as [-> | ->]; zlia.
Qed.

(** C20: A packet with one wrong byte in its header, other than the first, is thrown
    away: it is freed and no protocol sees it. *)
Theorem ip_input_detects {W : Type} `{Transport (ip P) W} stale h q l1 a b l2 inp (st : ip P) (w : W) :
  IpFrag.wire_ok h q -> first q = l1 ++ a :: l2 -> (1 <= length l1 < 20)%nat -> in_u8 b -> b <> a ->
  let q' := mkPbuf (before q) ((l1 ++ b :: l2) :: tl (segs q)) in
  ip_input stale q' inp st w = Some (ERR_OK, emit (Free q') st, w).
Proof.
  intros Hw Hf Hl Hb Hab q'. pose proof (IpFrag.wire_hdr_bytes _ _ Hw) as [Hok Hbytes].
  pose proof (IpFrag.hdr_at_len _ _ (IpFrag.w_hdr _ _ Hw)) as Hlen. unfold plen, IP_HLEN in Hlen.
  rewrite first_data, Hf in Hbytes by lia.
  assert (Hf2 : (20 - length l1 = S (19 - length l1))%nat) by lia.
  rewrite take_app_ge, Hf2, firstn_cons in Hbytes by lia. set (l2' := take _ l2) in Hbytes.
  assert (Hq' : take 20 (first q') = l1 ++ b :: l2').
  { unfold first. cbn [q' segs hd]. rewrite take_app_ge, Hf2 by lia. done. }
  destruct l1 as [|v l1]; [cbn in Hl; lia|].
  assert (Hv : _v_hl (ip_hdr_of (first q' ++ stale)) = _v_hl h).
  { cbn. assert (E : nth 0 (ip_hdr_bytes h) 0 = v) by (by rewrite <- Hbytes). cbn in E.
    rewrite u8_small in E by apply Hok. done. }
  destruct Hw as [W1 W2 W3 W4 W5 W6 W7]. unfold ip_input, IPH_V, IPH_HL. rewrite Hv.
  unfold IPH_V, IPH_HL in W3, W4. rewrite W3, W4. change (negb (4 =? 4)) with false. cbn iota.
  destruct ((plen q' <? IP_HLEN) || (tot_len q' <? lwip_ntohs (_len (ip_hdr_of (first q' ++ stale))))); [done|].
  change (Z.to_nat IP_HLEN) with 20%nat. rewrite Hq'.
  destruct (Z.eqb_spec (inet_chksum 0 ((v :: l1) ++ b :: l2')) 0) as [Hz|]; [exfalso|done].
  revert Hz. apply one_byte_chksum with (a := a); try done.
  - rewrite Hbytes. apply ip_hdr_bytes_bytes.
  - rewrite Hbytes, length_ip_hdr_bytes. lia.
  - rewrite Hbytes, <- W7. apply chksum_ok.
Qed.

End ip.

(** ** Instances *)

#[local] Existing Instance IpFrag.reass_pool.

(** A host that writes down what its protocols are handed. *)
#[local] Instance log_transport : Transport (ip Memp.memp) (list (Z * list Z)) := {
  raw_input q inp st w := Some (false, st, w);
  udp_input q inp st w := Some (st, w ++ [(IP_PROTO_UDP, data q)]);
  tcp_input q inp st w := Some (st, w ++ [(IP_PROTO_TCP, data q)]);
  icmp_input q inp st w := Some (st, w ++ [(IP_PROTO_ICMP, data q)]);
  igmp_input q inp d st w := Some (st, w ++ [(IP_PROTO_IGMP, data q)]);
  icmp_dest_unreach q c st w := Some (st, w);
  igmp_lookfor_group inp d w := false
}.

Definition sample_if (addr : Z) : netif := mkNetif 1 addr 0x00ffffff 44 NETIF_FLAG_UP.
Definition sample_host (addr : Z) : ip Memp.memp :=
  mkIp 7 [sample_if addr] None None None 0 0 IpFrag.reass_start [] 0 0 0.
Definition sample_packet : pbuf := mkPbuf (replicate 40 0) [[1; 2; 3; 4; 5; 6; 7; 8]; Z.of_nat <$> seq 9 42].
Definition packets (l : list event) : list pbuf :=
  omap (fun e => match e with Output _ q _ => Some q | Free _ => None end) l.

Lemma packets_output i d l : packets ((fun x => Output i x d) <$> l) = l.
Proof. induction l as [|x l IH]; [done|]. cbn. f_equal. exact IH. Qed.

Lemma sample_sendable opts : bytes opts -> (length opts <= 40)%nat ->
  sendable sample_packet 0 0x0200000a 64 0 17 (sample_if 0x0100000a) opts (sample_host 0x0100000a).
Proof.
  intros Ho Hl. split; try done; try (vm_compute; done); try (vm_compute; split; done).
  let v := eval vm_compute in (data sample_packet) in
    replace (data sample_packet) with v by (vm_compute; reflexivity).
  solve_bytes.
Qed.

Definition sample_sent : list pbuf :=
  match ip_output_if (fun _ => 0) (fun _ _ => true) (fun _ _ => true) sample_packet 0 (Some 0x0200000a) 64 0 17
          (sample_if 0x0100000a) (sample_host 0x0100000a) with
  | Some (_, st) => packets (events st)
  | None => []
  end.

Lemma ip_transmission_witness :
  length sample_sent = 3%nat /\
  exists p h rs, data p = ip_hdr_bytes h ++ data sample_packet /\ src h = 0x0100000a /\
    input_all [] sample_sent (sample_if 0x0200000a) (sample_host 0x0200000a) [] =
      ('(_, r, w) ← deliver p h (sample_if 0x0200000a)
          (with_reass rs (with_addrs (src h) 0x0200000a (sample_host 0x0200000a))) []; Some (r, w)).
Proof.
  split; [vm_compute; reflexivity|].
  destruct (ip_transmission (W := list (Z * list Z)) (fun _ => 0) sample_packet 0 0x0200000a 64 0 17 (sample_if 0x0100000a)
              (sample_host 0x0100000a) (sample_sendable [] (List.Forall_nil _) ltac:(cbn; lia))
              ltac:(vm_compute; lia) ltac:(vm_compute; lia) ltac:(cbn; lia))
    as (sent & err & st' & h & E & Ev & _ & Hs & Hd & _ & _ & _ & Hall).
  assert (Esent : sent = sample_sent).
  { unfold sample_sent. rewrite E, Ev. symmetry. apply packets_output. }
  destruct (Hall [] sample_sent (sample_if 0x0200000a) (sample_host 0x0200000a) []) as (p & rs & H1 & H2 & H3 & H4).
  - exists sample_sent. rewrite Esent. split; [|done].
    assert (Hp : Forall (fun x => IP_HLEN <= plen x) sample_sent) by (repeat constructor; vm_compute; discriminate).
    clear -Hp. induction Hp; constructor; [by split|done].
  - rewrite Hs. split; [vm_compute; discriminate|]. right. vm_compute. done.
  - apply IpFrag.inv_reass_start.
  - done.
  - vm_compute. discriminate.
  - vm_compute. lia.
  - exists p, h, rs. split; [done|]. split; [by rewrite Hs|exact H4].
Defined.

Lemma ip_output_sends_witness :
  exists q' h st',
    ip_output_if_opt (fun _ => 0) (fun _ _ => true) (fun _ _ => true) (mkPbuf (replicate 40 0) [[1; 2; 3]])
      0 (Some 0x160000e0) 1 0 2 (sample_if 0x0100000a) [0x94; 4; 0; 0] (sample_host 0x0100000a) = Some (0, st') /\
    data q' = ip_hdr_bytes h ++ [0x94; 4; 0; 0; 1; 2; 3] /\ inet_chksum 0 (take 24 (data q')) = 0.
Proof.
  assert (Hs : sendable (mkPbuf (replicate 40 0) [[1; 2; 3]]) 0 0x160000e0 1 0 2 (sample_if 0x0100000a) [0x94; 4; 0; 0]
                 (sample_host 0x0100000a)).
  { split; try done; try (vm_compute; done); try (vm_compute; split; done); cbn; solve_bytes. }
  destruct (ip_output_sends (fun _ => 0) (fun _ _ => true) (fun _ _ => true) _ _ _ _ _ _ _ _ _ Hs) as [_ Hok].
  destruct Hok as (q' & h & st' & E & _ & _ & _ & D & R); [vm_compute; discriminate|right; vm_compute; discriminate|].
  exists q', h, st'. split; [exact E|]. split; [exact D|]. apply R.
Defined.

Lemma ip_input_detects_witness :
  let q := nth 0 sample_sent sample_packet in
  exists q', q' <> q /\ ip_input [] q' (sample_if 0x0200000a) (sample_host 0x0200000a) [] =
    Some (ERR_OK, emit (Free q') (sample_host 0x0200000a), []).
Proof.
  set (q := nth 0 sample_sent sample_packet).
  exists (mkPbuf (before q) ((take 8 (first q) ++ 63 :: drop 9 (first q)) :: tl (segs q))). split; [vm_compute; discriminate|].
  apply (ip_input_detects (W := list (Z * list Z)) [] (ip_hdr_of (first q)) q (take 8 (first q)) 64 63 (drop 9 (first q))).
  - split; try (vm_compute; reflexivity); try (vm_compute; discriminate).
    let v := eval vm_compute in (data q) in replace (data q) with v by (vm_compute; reflexivity). solve_bytes.
  - vm_compute. reflexivity.
  - vm_compute. lia.
  - done.
  - done.
Defined.

(** A header length below five words is not refused: the checksum covers the
    eight bytes that the length claims, and the packet is handed to UDP. *)
Definition short_header : pbuf :=
  mkPbuf [] [[0x42; 0; 0; 28; 0xbd; 0xe3; 0; 0; 64; 17; 0; 0; 10; 0; 0; 1; 10; 0; 0; 2; 0; 1; 0; 2; 0; 8; 0; 0]].
Example ip_input_short_header :
  exists st, ip_input [] short_header (sample_if 0x0200000a) (sample_host 0x0200000a) [] =
    Some (ERR_OK, st, [(IP_PROTO_UDP, data short_header)]).
Proof. eexists. vm_compute. reflexivity. Qed.

End Ip.
