(* ===== verification/Icmp.v ===== *)
(** * ICMP: echo replies and error messages (ip/lwip/core/icmp.c)

    [icmp_input] answers echo requests in place, or in a copy when the packet has
    no room for the link header; [icmp_send_response] reports the first bytes of a
    packet to its sender.  Both hand their packets to the layer below ([Ip]).
    Echo requests to multicast addresses are answered, to broadcast addresses they
    are not; the checksums are made in software. *)

From S2P Require Import Prelude LwipDef InetChksum IpAddr Mem Memp Pbuf Packet IpFrag Ip.

#[local] Open Scope Z_scope.

Module Icmp.
Import LwipDef InetChksum IpAddr Packet Ip.

Definition ICMP_ER : Z := 0.
Definition ICMP_DUR : Z := 3.
Definition ICMP_ECHO : Z := 8.
Definition ICMP_TE : Z := 11.
Definition ICMP_DUR_PORT : Z := 3.
Definition ICMP_TE_FRAG : Z := 1.
Definition ICMP_TTL : Z := 255.
Definition ICMP_DEST_UNREACH_DATASIZE : Z := 8.
Definition SIZEOF_ICMP_ECHO_HDR : Z := 8.

(** The checksum of a reply from the one of the request. *)
Definition echo_chksum (c : Z) : Z :=
  if lwip_htons (0xffff - Z.shiftl ICMP_ECHO 8) <=? c
  then u16 (c + (lwip_htons (Z.shiftl ICMP_ECHO 8) + 1))
  else u16 (c + lwip_htons (Z.shiftl ICMP_ECHO 8)).

(** The reply in the first buffer [b] of the request, which starts with the IP
    header of [hlen] bytes; the assignments in their order. *)
Definition echo_reply (hlen : nat) (src dest : Z) (b : list Z) : list Z :=
  let b := write_at 12 (ip_bytes src ++ ip_bytes dest) b in
  let b := write_at hlen [ICMP_ER] b in
  let b := write_at (hlen + 2) (bytes16 (echo_chksum (get16 b (hlen + 2)))) b in
  let b := write_at 8 [ICMP_TTL] b in
  let b := write_at 10 [0; 0] b in
  write_at 10 (bytes16 (inet_chksum 0 (take 20 b))) b.

Section icmp.
Context {P : Type} `{Pool P}.
Variable output_err : nat -> Z.
Variables frag_ram frag_ref : nat -> nat -> bool.
(** Whether the [k]-th allocation of the layers above IP succeeds. *)
Variable ram : nat -> bool.
(** What lies in memory behind the bytes of the first buffer. *)
Variable stale : list Z.

(** The end of [icmp_input] for an echo request; no result when the writes leave
    the first buffer. *)
Definition send_reply (hlen : Z) (p : pbuf) (inp : netif) (st : ip P) : option (ip P) :=
  match pbuf_header p hlen with
  | None => Some (emit (Free p) st)
  | Some q =>
      match segs q with
      | b :: l =>
          if (IP_HLEN <=? Z.of_nat (length b)) && (hlen + SIZEOF_ICMP_ECHO_HDR <=? Z.of_nat (length b)) then
            let src := if ip_addr_ismulticast (current_iphdr_dest st) then ip_addr inp
                       else current_iphdr_dest st in
            let q := mkPbuf (before q) (echo_reply (Z.to_nat hlen) src (current_iphdr_src st) b :: l) in
            '(_, st) ← ip_output_if output_err frag_ram frag_ref q (current_iphdr_dest st) None
                         ICMP_TTL 0 IP_PROTO_ICMP inp st;
            Some (emit (Free q) st)
          else None
      | [] => None
      end
  end.

(** A buffer with room for the link header: the packet itself or a copy. *)
Definition reply_buffer (hlen : Z) (p : pbuf) (inp : netif) (st : ip P) : option (ip P) :=
  match pbuf_header p (Pbuf.PBUF_IP_HLEN + Pbuf.PBUF_LINK_HLEN) with
  | None =>
      match pbuf_header p hlen with
      | None => Some (emit (Free p) st)
      | Some p =>
          match alloc_ram ram Pbuf.PBUF_LINK (tot_len p) st with
          | (None, st) => Some (emit (Free p) st)
          | (Some r, st) =>
              match pbuf_copy r p with
              | None => Some (emit (Free p) st)
              | Some r =>
                  match pbuf_header r (- hlen) with
                  | None => Some (emit (Free p) st)
                  | Some r => send_reply hlen r inp (emit (Free p) st)
                  end
              end
          end
      end
  | Some p =>
      match pbuf_header p (- (Pbuf.PBUF_IP_HLEN + Pbuf.PBUF_LINK_HLEN)) with
      | None => Some (emit (Free p) st)
      | Some p => send_reply hlen p inp st
      end
  end.

Definition icmp_input (p : pbuf) (inp : netif) (st : ip P) : option (ip P) :=
  let iphdr := ip_hdr_of (first p ++ stale) in
  let hlen := IPH_HL iphdr * 4 in
  match pbuf_header p (- hlen) with
  | None => Some (emit (Free p) st)
  | Some p =>
      if tot_len p <? 4 then Some (emit (Free p) st)
      else
        let type := nth 0 (first p ++ stale) 0 in
        if type =? ICMP_ER then Some (emit (Free p) st)
        else if type =? ICMP_ECHO then
          if ip_addr_isbroadcast (current_iphdr_dest st) inp then Some (emit (Free p) st)
          else if tot_len p <? SIZEOF_ICMP_ECHO_HDR then Some (emit (Free p) st)
          else if negb (inet_chksum_pbuf (segments p) =? 0) then Some (emit (Free p) st)
          else reply_buffer hlen p inp st
        else Some (emit (Free p) st)
  end.

(** [icmp_send_response]: 28 bytes are copied from the packet, however long its
    first buffer is; no result when the memory behind it is not known. *)
Definition icmp_send_response (p : pbuf) (type code : Z) (st : ip P) : option (ip P) :=
  let n := IP_HLEN + ICMP_DEST_UNREACH_DATASIZE in
  match alloc_ram ram Pbuf.PBUF_IP (SIZEOF_ICMP_ECHO_HDR + n) st with
  | (None, st) => Some st
  | (Some q, st) =>
      let mem := first p ++ stale in
      if Z.of_nat (length mem) <? n then None
      else
        let iphdr := ip_hdr_of mem in
        let b := [type; code; 0; 0; 0; 0; 0; 0] ++ take (Z.to_nat n) mem in
        let b := write_at 2 (bytes16 (inet_chksum 0 b)) b in
        let q := write_first b q in
        '(_, st) ← ip_output output_err frag_ram frag_ref q 0 (src iphdr) ICMP_TTL 0 IP_PROTO_ICMP st;
        Some (emit (Free q) st)
  end.
Definition icmp_dest_unreach (p : pbuf) (t : Z) (st : ip P) : option (ip P) :=
  icmp_send_response p ICMP_DUR t st.
Definition icmp_time_exceeded (p : pbuf) (t : Z) (st : ip P) : option (ip P) :=
  icmp_send_response p ICMP_TE t st.

(** ** The reply to an echo request *)

Lemma echo_chksum_spec c : in_u16 c ->
  in_u16 (echo_chksum c) /\ exists k, echo_chksum c = c + 8 - 65535 * k /\ (echo_chksum c = 0 -> c = 0xfff7).
Proof.
  intros Hc. unfold echo_chksum. change (lwip_htons (0xffff - Z.shiftl ICMP_ECHO 8)) with 0xfff7.
  change (lwip_htons (Z.shiftl ICMP_ECHO 8)) with 8.
  destruct (Z.leb_spec 0xfff7 c); (split; [apply u16_range|]).
  - exists 1. zlia.
  - exists 0. rewrite u16_small by zlia. zlia.
Qed.

(** The changed type and the adjusted checksum verify again, unless everything
    else is zero. *)
Lemma echo_chksum_verifies addr code c rest :
  in_u8 code -> in_u16 c -> bytes rest -> Z.of_nat (length rest) <= 65535 ->
  ~ (code = 0 /\ Forall (fun x => x = 0) rest) ->
  inet_chksum 0 ([ICMP_ECHO; code] ++ bytes16 c ++ rest) = 0 ->
  inet_chksum addr ([ICMP_ER; code] ++ bytes16 (echo_chksum c) ++ rest) = 0.
Proof.
  intros Hcode Hc Hrest Hlen Hnz E. destruct (echo_chksum_spec c Hc) as (Hc' & k & Ek & Ez).
  assert (Hb16 : forall x, bytes (bytes16 x)) by (intros x; unfold bytes16; repeat constructor; apply u8_range).
  apply inet_chksum_zero in E.
  2:{ apply Forall_app_2; [repeat constructor; try done; apply Hcode|apply Forall_app_2; [apply Hb16|done]]. }
  2:{ cbn. lia. }
  apply inet_chksum_zero.
  { apply Forall_app_2; [repeat constructor; try done; apply Hcode|apply Forall_app_2; [apply Hb16|done]]. }
  { cbn. lia. }
  assert (Hs : forall t x, in_u16 x -> wsum false ([t; code] ++ bytes16 x ++ rest) = t + 256 * code + x + wsum false rest).
  { intros t x Hx. unfold bytes16. cbn [app]. rewrite !wsum_even_le16. rewrite get_bytes16 by done. unfold le16. lia. }
  rewrite Hs in E |- * by done. pose proof (wsum_nonneg false rest Hrest). unfold ICMP_ECHO, ICMP_ER in *.
  destruct E as [E1 E2]. split.
  - rewrite Ek. replace (0 + 256 * code + (c + 8 - 65535 * k) + wsum false rest)
      with (8 + 256 * code + c + wsum false rest + (- k) * 65535) by lia. by rewrite Z.mod_add by lia.
  - intros Hz. assert (echo_chksum c = 0) by zlia. apply Hnz. split; [zlia|]. apply (wsum_zero false); [done|zlia].
Qed.

(** The reply has the addresses exchanged and the type changed. *)
Lemma echo_reply_bytes h s d code c rest :
  hdr_ok h -> in_u32 s -> in_u32 d -> in_u16 c ->
  let h' := with_chksum (mkIpHdr (_v_hl h) (_tos h) (_len h) (_id h) (_offset h) ICMP_TTL (_proto h) (_chksum h) s d) in
  echo_reply 20 s d (ip_hdr_bytes h ++ [ICMP_ECHO; code] ++ bytes16 c ++ rest) =
    ip_hdr_bytes h' ++ [ICMP_ER; code] ++ bytes16 (echo_chksum c) ++ rest.
Proof.
  intros Hok Hs Hd Hc h'. unfold echo_reply.
  set (b0 := ip_hdr_bytes h). 
  assert (E1 : write_at 12 (ip_bytes s ++ ip_bytes d) (b0 ++ [ICMP_ECHO; code] ++ bytes16 c ++ rest) =
    take 12 b0 ++ ip_bytes s ++ ip_bytes d ++ [ICMP_ECHO; code] ++ bytes16 c ++ rest).
  { unfold write_at, b0, ip_hdr_bytes, bytes16, ip_bytes. cbn [app take drop length Nat.add]. done. }
  rewrite E1. unfold b0.
  unfold write_at, ip_hdr_bytes, bytes16, ip_bytes, get16. cbn [app take drop length Nat.add nth].
  rewrite get_bytes16 by done. unfold h', with_chksum. rewrite set_chksum_twice.
  set (h1 := IPH_CHKSUM_SET 0 _).
  match goal with |- context [inet_chksum 0 ?l] => assert (El : l = ip_hdr_bytes h1) by done; rewrite El end.
  unfold h1, IPH_CHKSUM_SET. cbn [_v_hl _tos _len _id _offset _ttl _proto _chksum src dest app].
  rewrite (u16_small (inet_chksum _ _)) by apply inet_chksum_range. done.
Qed.

(** A request that passes the checks of the header and of the checksum. *)
Record echo_request (h : ip_hdr) (q : pbuf) (code c : Z) (rest : list Z) : Prop := {
  er_wire : IpFrag.wire_ok h q;
  er_data : data q = ip_hdr_bytes h ++ [ICMP_ECHO; code] ++ bytes16 c ++ rest;
  er_len : (4 <= length rest)%nat;
  er_c : in_u16 c;
  er_chksum : inet_chksum 0 ([ICMP_ECHO; code] ++ bytes16 c ++ rest) = 0;
  er_first : 28 <= plen q
}.

(** What the reply carries. *)
Definition reply_hdr (h : ip_hdr) (s : Z) : ip_hdr :=
  with_chksum (mkIpHdr (_v_hl h) (_tos h) (_len h) (_id h) (_offset h) ICMP_TTL (_proto h) (_chksum h) s (src h)).
Definition reply_data (h : ip_hdr) (s code c : Z) (rest : list Z) : list Z :=
  ip_hdr_bytes (reply_hdr h s) ++ [ICMP_ER; code] ++ bytes16 (echo_chksum c) ++ rest.

Lemma reply_hdr_ok h s : hdr_ok h -> in_u32 s -> hdr_ok (reply_hdr h s).
Proof. intros []?. unfold reply_hdr, with_chksum. split; cbn; auto using u16_range. done. Qed.

Definition fits (n : Z) (inp : netif) : Prop := mtu inp = 0 \/ n <= mtu inp.

Definition echo_source (inp : netif) (st : ip P) : Z :=
  if ip_addr_ismulticast (current_iphdr_dest st) then ip_addr inp else current_iphdr_dest st.

Lemma send_reply_spec h q q0 code c rest inp st :
  echo_request h q code c rest -> pbuf_header q0 20 = Some q -> 
  current_iphdr_src st = src h -> in_u32 (echo_source inp st) -> fits (Z.of_nat (length (data q))) inp ->
  exists r st', send_reply 20 q0 inp st = Some st' /\
    events st' = events st ++ [Output (netif_id inp) r (src h); Free r] /\
    data r = reply_data h (echo_source inp st) code c rest /\ IP_HLEN <= plen r /\ ip_id st' = ip_id st /\
    reassembly st' = reassembly st.
Proof.
  intros [W D L C K F] Eq Hsrc Hs Hfit. destruct (IpFrag.wire_hdr_bytes _ _ W) as [Hok _].
  unfold send_reply. rewrite Eq. unfold plen, first in F. destruct (segs q) as [|b l] eqn:Es; [cbn in F; lia|].
  cbn [hd] in F. unfold IP_HLEN, SIZEOF_ICMP_ECHO_HDR.
  rewrite (proj2 (Z.leb_le 20 _)), (proj2 (Z.leb_le (20 + 8) _)) by lia. cbn [andb].
  assert (Hb : exists rest1, b = ip_hdr_bytes h ++ [ICMP_ECHO; code] ++ bytes16 c ++ rest1 /\ rest = rest1 ++ mjoin l).
  { unfold data in D. rewrite Es, mjoin_cons in D. exists (drop 24 b).
    set (pre := ip_hdr_bytes h ++ [ICMP_ECHO; code] ++ bytes16 c). assert (Hpre : length pre = 24%nat) by done.
    replace (ip_hdr_bytes h ++ [ICMP_ECHO; code] ++ bytes16 c ++ rest) with (pre ++ rest) in D
      by (unfold pre; by rewrite <- !app_assoc).
    assert (E1 : take 24 b = pre).
    { rewrite <- (take_app_le b (mjoin l)) by lia. rewrite D. by apply take_app_length'. }
    split.
    - rewrite <- (take_drop 24 b) at 1. rewrite E1. unfold pre. by rewrite <- !app_assoc.
    - rewrite <- (drop_app_length' pre rest 24), <- D, drop_app_le by (done || lia). done. }
  destruct Hb as (rest1 & -> & ->). rewrite Hsrc.
  change (Z.to_nat 20) with 20%nat.
  fold (echo_source inp st). rewrite (echo_reply_bytes h (echo_source inp st) (src h) code c rest1) by (done || apply Hok).
  fold (reply_hdr h (echo_source inp st)). set (h' := reply_hdr h (echo_source inp st)).
  assert (Hok' : hdr_ok h') by (by apply reply_hdr_ok).
  set (r := mkPbuf (before q) _).
  assert (Hr : ip_hdr_at r = Some h').
  { unfold ip_hdr_at, plen, first, r. cbn [segs hd]. rewrite length_app, length_ip_hdr_bytes, hdr_of_bytes by done.
    destruct (Z.leb_spec IP_HLEN (Z.of_nat (20 + length ([ICMP_ER; code] ++ bytes16 (echo_chksum c) ++ rest1)))) as [_|Hlt];
      [done|unfold IP_HLEN in Hlt; lia]. }
  assert (Hd : data r = reply_data h (echo_source inp st) code c (rest1 ++ mjoin l)).
  { unfold data, r, reply_data. cbn [segs]. fold h'. rewrite mjoin_cons, <- !app_assoc. done. }
  assert (Hlen : length (data r) = length (data q)).
  { rewrite Hd, D. unfold reply_data. rewrite !length_app, !length_ip_hdr_bytes. done. }
  assert (Ht : tot_len r = Z.of_nat (length (data q))).
  { pose proof (IpFrag.w_size _ _ W). unfold tot_len. rewrite Hlen. apply u16_small. unfold in_u16. lia. }
  unfold ip_output_if, ip_output_if_opt. rewrite Hr. cbn [mbind option_bind]. unfold output_packet. rewrite Ht.
  assert (Efit : negb (mtu inp =? 0) && (mtu inp <? Z.of_nat (length (data q))) = false).
  { destruct Hfit as [->|Hle]; [done|]. destruct (Z.ltb_spec (mtu inp) (Z.of_nat (length (data q)))); [lia|].
    by rewrite andb_false_r. }
  rewrite Efit. exists r. eexists. split; [done|]. unfold netif_output, emit. cbn [events ip_id reassembly].
  rewrite <- app_assoc. split; [done|]. split; [exact Hd|]. split; [|done].
  apply (IpFrag.hdr_at_len _ _ Hr).
Qed.

Lemma nth0_first p x : (1 <= length (first p))%nat -> nth 0 (first p ++ x) 0 = nth 0 (data p) 0.
Proof.
  intros Hl. pose proof (first_data p 1 Hl) as E1. destruct (first p) as [|y fp]; [cbn in Hl; lia|].
  destruct (data p) as [|z dp]; cbn in E1 |- *; [done|]. by injection E1 as ->.
Qed.

(** The request passes the checks of [icmp_input]. *)
Lemma request_accepted h q code c rest inp (st : ip P) :
  echo_request h q code c rest -> current_iphdr_dest st = dest h -> ip_addr_isbroadcast (dest h) inp = false ->
  exists p, pbuf_header q (- 20) = Some p /\ icmp_input q inp st = reply_buffer 20 p inp st.
Proof.
  intros [W D L C K F] Hdst Hnb. destruct (IpFrag.wire_hdr_bytes _ _ W) as [Hok Hhb].
  pose proof (IpFrag.w_size _ _ W) as Hsize. pose proof (IpFrag.w_bytes _ _ W) as Hbytes.
  assert (Hlen : length (data q) = (24 + length rest)%nat) by (rewrite D, !length_app, length_ip_hdr_bytes; done).
  destruct (pbuf_strip q 20) as (p & Ep & Dp & Fp & _); [lia|]. change (Z.to_nat 20) with 20%nat in *.
  exists p. split; [done|].
  assert (Dp' : data p = [ICMP_ECHO; code] ++ bytes16 c ++ rest).
  { rewrite Dp, D. apply drop_app_length'. done. }
  assert (Hfq : first q ++ stale = ip_hdr_bytes h ++ drop 20 (first q) ++ stale).
  { unfold plen in F. rewrite first_data in Hhb by lia. rewrite <- Hhb, app_assoc, take_drop. done. }
  assert (Htp : tot_len p = Z.of_nat (4 + length rest)).
  { unfold tot_len. rewrite Dp'. cbn [app length bytes16]. apply u16_small. unfold in_u16. lia. }
  assert (Hck : inet_chksum_pbuf (segments p) = 0).
  { rewrite (chksum_pbuf_data p 0); [by rewrite Dp'|rewrite Dp; by apply Forall_drop|].
    rewrite Dp, length_drop. lia. }
  unfold icmp_input. rewrite Hfq, hdr_of_bytes by done. rewrite (IpFrag.w_hl _ _ W). unfold IP_HLEN.
  rewrite Ep, Htp. rewrite (proj2 (Z.ltb_ge _ _)) by lia.
  rewrite nth0_first by (unfold plen in F; rewrite Fp, length_drop; lia). rewrite Dp'. cbn [app nth].
  change (ICMP_ECHO =? ICMP_ER) with false. rewrite Z.eqb_refl, Hdst, Hnb.
  unfold SIZEOF_ICMP_ECHO_HDR. rewrite (proj2 (Z.ltb_ge _ _)) by lia. rewrite Hck. done.
Qed.

(** There is room for the link header, or memory for a copy. *)
Definition has_room (q : pbuf) (st : ip P) : Prop :=
  (14 <= length (before q))%nat \/ (ram (allocs st) = true /\ last (segs q) <> Some []).

Lemma pbuf_copy_data p_to q : last (segs q) <> Some [] -> pbuf_copy p_to q = Some (mkPbuf (before p_to) [data q]).
Proof. unfold pbuf_copy. by destruct (last (segs q)) as [[|? ?]|]. Qed.

Lemma reply_buffer_spec h q p code c rest inp (st : ip P) :
  echo_request h q code c rest -> pbuf_header q (- 20) = Some p -> has_room q st ->
  exists freed q0 q1 st0, reply_buffer 20 p inp st = send_reply 20 q0 inp st0 /\
    pbuf_header q0 20 = Some q1 /\ echo_request h q1 code c rest /\ data q1 = data q /\
    events st0 = events st ++ freed /\ (freed = [] \/ freed = [Free q]) /\
    current_iphdr_src st0 = current_iphdr_src st /\ current_iphdr_dest st0 = current_iphdr_dest st /\
    reassembly st0 = reassembly st.
Proof.
  intros Hreq Ep Hroom. pose proof Hreq as [W D L C K F].
  destruct (pbuf_strip q 20) as (p' & Ep' & _ & Fp & Bp & _ & Np); [lia|]. change (Z.opp 20) with (-20) in Ep'. rewrite Ep in Ep'. injection Ep' as <-.
  change (Z.to_nat 20) with 20%nat in *.
  unfold reply_buffer, Pbuf.PBUF_IP_HLEN, Pbuf.PBUF_LINK_HLEN.
  pose proof (pbuf_header_inv _ _ _ Ep) as Eq. change (Z.opp (-20)) with 20 in Eq.
  change (20 + 14) with 34. destruct (pbuf_header p 34) as [p2|] eqn:E34.
  - rewrite (pbuf_header_inv _ _ _ E34). exists [], p, q, st. rewrite app_nil_r. split_and!; auto.
  - rewrite Eq. assert (Hno : (length (before p) < 34)%nat).
    { destruct (decide (length (before p) < 34)%nat) as [|Hge]; [done|exfalso].
      destruct (ip_header_room p 34) as (x & Ex & _); [lia|lia| |congruence].
      intros Hn. rewrite Hn in Np. unfold plen, first in F. by destruct (segs q). }
    destruct Hroom as [Hroom|[Hram Hlast]]; [lia|]. unfold alloc_ram. rewrite Hram, pbuf_copy_data by done.
    cbn [before]. set (r := mkPbuf _ [data q]).
    assert (Hdr : data r = data q) by (unfold r, data at 1; cbn; by rewrite app_nil_r).
    assert (Hfr : plen r = Z.of_nat (length (data q))) by done.
    assert (Hlen : length (data q) = (24 + length rest)%nat) by (rewrite D, !length_app, length_ip_hdr_bytes; done).
    destruct (pbuf_strip r 20) as (r2 & Er2 & _); [lia|]. rewrite Er2.
    pose proof (pbuf_header_inv _ _ _ Er2) as Er. rewrite Z.opp_involutive in Er.
    exists [Free q], r2, r. eexists. split; [done|]. split; [done|].
    split; [|by auto 8]. split; try done; [|by rewrite Hdr|lia].
    apply (IpFrag.wire_ok_same h q); [done|]. split; [done|]. unfold IP_HLEN. lia.
Qed.

Lemma reply_data_wire h q s code c rest r :
  echo_request h q code c rest -> in_u8 code -> in_u32 s -> data r = reply_data h s code c rest -> IP_HLEN <= plen r ->
  IpFrag.wire_ok (reply_hdr h s) r.
Proof.
  intros [W D L C K F] Hcode Hs Dr Pr. destruct (IpFrag.wire_hdr_bytes _ _ W) as [Hok _].
  assert (Hok' : hdr_ok (reply_hdr h s)) by (by apply reply_hdr_ok).
  assert (Hlr : length (data r) = length (data q)).
  { rewrite Dr, D. unfold reply_data. rewrite !length_app, !length_ip_hdr_bytes. done. }
  split.
  - rewrite IpFrag.ip_hdr_at_data by done. f_equal. rewrite Dr. unfold reply_data.
    rewrite take_app_length' by done. rewrite <- (app_nil_r (ip_hdr_bytes _)). by apply hdr_of_bytes.
  - pose proof (IpFrag.w_bytes _ _ W) as Hb. rewrite D in Hb. unfold bytes in Hb. rewrite !Forall_app in Hb.
    rewrite Dr. unfold reply_data, bytes16. repeat apply Forall_app_2; try apply ip_hdr_bytes_bytes; try apply Hb;
      repeat constructor; try done; try apply u8_range; apply Hcode.
  - apply (IpFrag.w_v _ _ W).
  - apply (IpFrag.w_hl _ _ W).
  - rewrite Hlr. apply (IpFrag.w_len _ _ W).
  - rewrite Hlr. apply (IpFrag.w_size _ _ W).
  - unfold reply_hdr. unfold with_chksum at 2. by rewrite IpFrag.with_chksum_twice.
Qed.

(** C22: An echo request that is not for a broadcast address, has no IP options, a
    valid checksum, both headers in its first buffer and not only zeros, that fits
    the interface, and that has room for the link header in front or for which there
    is memory, is answered once: the reply goes to its sender with the addresses
    exchanged, the same identification, sequence number and data, and checksums that
    verify, from the buffer of the request or a copy of it, and every buffer is
    freed. *)
Theorem ping_answered h q code c rest inp (st : ip P) :
  echo_request h q code c rest -> in_u8 code -> ~ (code = 0 /\ Forall (fun x => x = 0) rest) ->
  current_iphdr_src st = src h -> current_iphdr_dest st = dest h -> in_u32 (ip_addr inp) ->
  ip_addr_isbroadcast (dest h) inp = false -> fits (Z.of_nat (length (data q))) inp -> has_room q st ->
  exists r st' freed, icmp_input q inp st = Some st' /\
    events st' = events st ++ freed ++ [Output (netif_id inp) r (src h); Free r] /\
    (freed = [] \/ freed = [Free q]) /\
    (let h' := reply_hdr h (echo_source inp st) in
     data r = ip_hdr_bytes h' ++ [ICMP_ER; code] ++ bytes16 (echo_chksum c) ++ rest /\
     IpFrag.wire_ok h' r /\ src h' = echo_source inp st /\ dest h' = src h /\ _ttl h' = ICMP_TTL) /\
    inet_chksum 0 (drop 20 (data r)) = 0 /\ reassembly st' = reassembly st.
Proof.
  intros Hreq Hcode Hnz Hsrc Hdst Hip Hnb Hfit Hroom. pose proof Hreq as [W D L C K F].
  destruct (IpFrag.wire_hdr_bytes _ _ W) as [Hok _].
  destruct (request_accepted h q code c rest inp st Hreq Hdst Hnb) as (p & Ep & ->).
  destruct (reply_buffer_spec h q p code c rest inp st Hreq Ep Hroom)
    as (freed & q0 & q1 & st0 & -> & E1 & Hreq1 & Ed & Ev & Hf & S0 & D0 & R0).
  assert (Hes : echo_source inp st0 = echo_source inp st) by (unfold echo_source; by rewrite D0).
  assert (Hs : in_u32 (echo_source inp st)).
  { unfold echo_source. rewrite Hdst. destruct (ip_addr_ismulticast (dest h)); [done|apply Hok]. }
  destruct (send_reply_spec h q1 q0 code c rest inp st0 Hreq1 E1) as (r & st' & -> & Evs & Dr & Pr & _ & Rr);
    [congruence|by rewrite Hes|by rewrite Ed|].
  rewrite Hes in Dr. exists r, st', freed. split; [done|]. split; [by rewrite Evs, Ev, app_assoc|].
  split; [done|]. cbn zeta. split_and!; [exact Dr| |done|done|done| |congruence].
  - by apply (reply_data_wire h q _ code c rest).
  - rewrite Dr. unfold reply_data. rewrite drop_app_length' by done.
    pose proof (IpFrag.w_bytes _ _ W) as Hb. pose proof (IpFrag.w_size _ _ W) as Hsz. rewrite D in Hb, Hsz.
    unfold bytes in Hb. rewrite !Forall_app in Hb. rewrite !length_app in Hsz.
    apply echo_chksum_verifies; try done; [apply Hb|lia].
Qed.

(** ** Error messages *)

Lemma write_at_2 (a b x y : Z) l d : length d = 2%nat -> write_at 2 d ([a; b; x; y] ++ l) = [a; b] ++ d ++ l.
Proof. intros Hd. unfold write_at. rewrite Hd. done. Qed.

(** An error message is sent to the source of the packet it is about: it
    carries its type and code, the header and the first eight bytes of data of
    the packet, and checksums that verify, and its buffer is freed; without
    memory nothing is sent. *)
Theorem icmp_reports h q type code n (st : ip P) :
  ip_hdr_at q = Some h -> bytes (data q) -> 28 <= plen q -> in_u8 type -> in_u8 code ->
  ip_route (src h) st = Some n -> in_u32 (ip_addr n) -> in_u16 (ip_id st) -> fits 56 n ->
  let out := icmp_send_response q type code st in
  (ram (allocs st) = false -> exists st', out = Some st' /\ events st' = events st) /\
  (ram (allocs st) = true ->
   exists r f hr c st', out = Some st' /\ events st' = events st ++ [Output (netif_id n) r (src h); Free f] /\
     data r = ip_hdr_bytes hr ++ [type; code] ++ bytes16 c ++ [0; 0; 0; 0] ++ take 28 (data q) /\
     src hr = ip_addr n /\ dest hr = src h /\ _proto hr = IP_PROTO_ICMP /\ _ttl hr = ICMP_TTL /\
     inet_chksum 0 (take 20 (data r)) = 0 /\ inet_chksum 0 (drop 20 (data r)) = 0).
Proof.
  intros Hh Hb Hl Ht Hc Hroute Hip Hid Hfit out. unfold out, icmp_send_response, alloc_ram.
  assert (Hok : hdr_ok h).
  { pose proof (IpFrag.hdr_at_len _ _ Hh) as Hl2. rewrite IpFrag.ip_hdr_at_data in Hh by done.
    injection Hh as <-. by apply hdr_of_ok, Forall_take. }
  split; intros Hram; rewrite Hram; [by eexists|].
  unfold IP_HLEN, ICMP_DEST_UNREACH_DATASIZE, SIZEOF_ICMP_ECHO_HDR. change (20 + 8) with 28.
  unfold plen in Hl. rewrite (proj2 (Z.ltb_ge _ _)) by (rewrite length_app; lia).
  assert (Hhm : ip_hdr_of (first q ++ stale) = h).
  { unfold ip_hdr_at in Hh. destruct (IP_HLEN <=? plen q); [|done]. injection Hh as <-.
    rewrite (IpFrag.ip_hdr_of_take (first q ++ stale)), take_app_le by (rewrite ?length_app; lia).
    symmetry. apply IpFrag.ip_hdr_of_take. lia. }
  rewrite Hhm. change (Z.to_nat 28) with 28%nat. rewrite take_app_le, <- first_data by lia.
  set (D := take 28 (data q)). assert (HD : length D = 28%nat).
  { unfold D. rewrite first_data, length_take by lia. lia. }
  change ([type; code; 0; 0; 0; 0; 0; 0] ++ D) with ([type; code; 0; 0] ++ ([0; 0; 0; 0] ++ D)).
  rewrite (write_at_2 _ _ _ _ ([0; 0; 0; 0] ++ D)) by done.
  set (c := inet_chksum 0 ([type; code; 0; 0] ++ [0; 0; 0; 0] ++ D)).
  set (b := [type; code] ++ bytes16 c ++ [0; 0; 0; 0] ++ D).
  set (q1 := write_first b _). assert (Hq1 : q1 = mkPbuf (replicate 36 0) [b]).
  { unfold q1, write_first. cbn [segs before]. f_equal. f_equal. rewrite drop_ge, app_nil_r; [done|].
    rewrite length_replicate. unfold b. rewrite !length_app, HD. cbn. lia. }
  assert (HDb : bytes D) by (by apply Forall_take).
  assert (Hbb : bytes b).
  { apply bytes_pair; try done. apply Forall_app_2; [apply bytes16_bytes|]. by apply Forall_app_2; [repeat constructor|]. }
  assert (Hd1 : data q1 = b) by (rewrite Hq1; unfold data; cbn; by rewrite app_nil_r).
  assert (Hlb : length b = 36%nat) by (unfold b; rewrite !length_app, HD; done).
  match goal with |- context [ip_output _ _ _ _ _ _ _ _ _ ?s] => set (st1 := s) end.
  assert (Hs : sendable q1 0 (src h) ICMP_TTL 0 IP_PROTO_ICMP n [] st1).
  { split; try done; rewrite ?Hd1, ?Hq1; try done; [constructor|cbn; lia|lia|apply Hok]. }
  unfold ip_output. change (ip_route (src h) st1) with (ip_route (src h) st). rewrite Hroute. unfold ip_output_if.
  destruct (ip_output_spec output_err frag_ram frag_ref q1 0 (src h) ICMP_TTL 0 IP_PROTO_ICMP n [] st1 Hs)
    as (r & Er & Dr & Hhr & _); [rewrite padded_nil, Hq1; cbn; lia|].
  destruct (sent_header_fields q1 0 (src h) ICMP_TTL 0 IP_PROTO_ICMP n [] st1 Hs)
    as (_ & _ & _ & _ & _ & F6 & F7 & _ & F9 & F10 & F11).
  set (hr := sent_header (data q1) 0 (src h) ICMP_TTL 0 IP_PROTO_ICMP n [] st1) in *.
  rewrite padded_nil in Dr, F11. rewrite app_nil_r in F11. change ([] ++ data q1) with (data q1) in Dr. rewrite Hd1 in Dr.
  assert (Hlr : tot_len r = 56).
  { unfold tot_len. rewrite Dr, length_app, length_ip_hdr_bytes, Hlb. done. }
  rewrite Er. unfold output_packet. rewrite Hlr.
  assert (Efit : negb (mtu n =? 0) && (mtu n <? 56) = false).
  { destruct Hfit as [->|Hle]; [done|]. destruct (Z.ltb_spec (mtu n) 56); [lia|]. by rewrite andb_false_r. }
  rewrite Efit. cbn [mbind option_bind netif_output].
  exists r, q1, hr, c. eexists. split; [done|]. unfold emit. cbn [events with_id]. rewrite <- app_assoc.
  split; [done|]. split; [exact Dr|]. split; [done|]. split; [done|]. split; [done|]. split; [done|].
  rewrite Dr. split; [rewrite take_app_length' by done; exact F11|].
  rewrite drop_app_length' by done. unfold b, bytes16. rewrite Z.shiftr_div_pow2 by lia. change (2 ^ 8) with 256.
  rewrite (u8_small (c / 256)) by (pose proof (inet_chksum_range 0 ([type; code; 0; 0] ++ [0; 0; 0; 0] ++ D)) as Hr; fold c in Hr; zlia).
  apply (chksum_roundtrip 0 0 [type; code] ([0; 0; 0; 0] ++ D)).
  - apply (bytes_pair type code []); [done|done|constructor].
  - by apply Forall_app_2; [repeat constructor|].
  - done.
  - rewrite length_app, HD. cbn. lia.
Qed.

End icmp.

(** ** Instances *)

#[local] Existing Instance IpFrag.reass_pool.

Definition ping_hdr (vhl len : Z) : ip_hdr :=
  with_chksum (mkIpHdr vhl 0 (lwip_htons len) 7 0 64 IP_PROTO_ICMP 0 0x0100000a 0x0200000a).
Definition ping_chksum (rest : list Z) : Z := inet_chksum 0 ([ICMP_ECHO; 0; 0; 0] ++ rest).
Definition ping (rest : list Z) : pbuf :=
  mkPbuf (replicate 16 0)
    [ip_hdr_bytes (ping_hdr 0x45 (24 + Z.of_nat (length rest))) ++ [ICMP_ECHO; 0] ++ bytes16 (ping_chksum rest) ++ rest].
Definition big_if (addr : Z) : netif := mkNetif 1 addr 0x00ffffff 1500 NETIF_FLAG_UP.
Definition pinged : ip Memp.memp :=
  mkIp 7 [big_if 0x0200000a] None None None 0x0100000a 0x0200000a IpFrag.reass_start [] 0 0 0.

Lemma ping_answered_witness :
  exists r st', icmp_input (fun _ => 0) (fun _ _ => true) (fun _ _ => true) (fun _ => true) [] (ping [1; 0; 2; 0; 5; 6; 7; 8])
      (big_if 0x0200000a) pinged = Some st' /\
    (exists freed, events st' = freed ++ [Output 1 r 0x0100000a; Free r]) /\
    inet_chksum 0 (drop 20 (data r)) = 0.
Proof.
  set (rest := [1; 0; 2; 0; 5; 6; 7; 8]).
  assert (Hr : echo_request (ping_hdr 0x45 32) (ping rest) 0 (ping_chksum rest) rest).
  { split; [split| | | | |]; try (vm_compute; reflexivity); try (vm_compute; discriminate); try (vm_compute; split; (discriminate || reflexivity)).
    - let v := eval vm_compute in (data (ping rest)) in
        replace (data (ping rest)) with v by (vm_compute; reflexivity). solve_bytes.
    - vm_compute. lia. }
  destruct (ping_answered (fun _ => 0) (fun _ _ => true) (fun _ _ => true) (fun _ => true) [] _ _ _ _ _
              (big_if 0x0200000a) pinged Hr) as (r & st' & freed & E & Ev & _ & _ & Hc & _).
  - done.
  - intros [_ Hz]. inversion Hz. discriminate.
  - reflexivity.
  - reflexivity.
  - done.
  - vm_compute. reflexivity.
  - right. vm_compute. discriminate.
  - left. vm_compute. lia.
  - exists r, st'. split; [exact E|]. split; [by exists freed|exact Hc].
Defined.

Lemma icmp_reports_witness :
  exists r st', icmp_send_response (fun _ => 0) (fun _ _ => true) (fun _ _ => true) (fun _ => true) []
      (ping [1; 0; 2; 0]) ICMP_DUR 3 pinged = Some st' /\
    inet_chksum 0 (drop 20 (data r)) = 0 /\ take 28 (drop 28 (data r)) = data (ping [1; 0; 2; 0]).
Proof.
  destruct (icmp_reports (fun _ => 0) (fun _ _ => true) (fun _ _ => true) (fun _ => true) [] (ping_hdr 0x45 28) (ping [1; 0; 2; 0])
              ICMP_DUR 3 (big_if 0x0200000a) pinged) as [_ Hsent].
  - vm_compute. reflexivity.
  - let v := eval vm_compute in (data (ping [1; 0; 2; 0])) in
      replace (data (ping [1; 0; 2; 0])) with v by (vm_compute; reflexivity). solve_bytes.
  - vm_compute. discriminate.
  - done.
  - done.
  - vm_compute. reflexivity.
  - done.
  - done.
  - right. vm_compute. discriminate.
  - destruct Hsent as (r & f & hr & c & st' & E & _ & D & _ & _ & _ & _ & _ & C2); [done|].
    exists r, st'. split; [exact E|]. split; [exact C2|]. rewrite D. unfold bytes16. vm_compute. reflexivity.
Defined.

(** ** Behaviour that is not meant *)

(** The replies to a request, with the sums of their IP and ICMP parts. *)
Definition replies (hlen : nat) (q : pbuf) : option (list (Z * Z)) :=
  match icmp_input (fun _ => 0) (fun _ _ => true) (fun _ _ => true) (fun _ => true) [] q (big_if 0x0200000a) pinged with
  | Some st => Some ((fun r => (inet_chksum 0 (take hlen (data r)), inet_chksum 0 (drop hlen (data r)))) <$> packets (events st))
  | None => None
  end.

(** The reply to a request of zeros has the checksum 0 instead of 0xffff, and is
    itself all zero: it does not verify. *)
Example ping_of_zeros :
  replies 20 (ping [0; 0; 0; 0; 0; 0]) = Some [(0, 0xffff)] /\ replies 20 (ping [0; 0; 0; 1; 0; 0]) = Some [(0, 0)].
Proof. split; vm_compute; reflexivity. Qed.

(** With IP options the checksum of the reply's header does not cover them. *)
Definition ping_with_options : pbuf :=
  let h := mkIpHdr 0x46 0 (lwip_htons 32) 7 0 64 IP_PROTO_ICMP 0 0x0100000a 0x0200000a in
  let o := [0x94; 4; 0; 0] in
  let h := IPH_CHKSUM_SET (inet_chksum 0 (ip_hdr_bytes h ++ o)) h in
  mkPbuf (replicate 16 0) [ip_hdr_bytes h ++ o ++ [ICMP_ECHO; 0] ++ bytes16 (ping_chksum [1; 0; 2; 0]) ++ [1; 0; 2; 0]].
Example ping_options_chksum :
  inet_chksum 0 (take 24 (data ping_with_options)) = 0 /\ replies 24 ping_with_options = Some [(0xfb6b, 0)].
Proof. split; vm_compute; reflexivity. Qed.

(** A report about a packet of 20 bytes carries what lies behind it in memory. *)
Example icmp_reports_stale :
  match icmp_send_response (fun _ => 0) (fun _ _ => true) (fun _ _ => true) (fun _ => true) [201; 202; 203; 204; 205; 206; 207; 208]
          (mkPbuf [] [ip_hdr_bytes (ping_hdr 0x45 20)]) ICMP_DUR ICMP_DUR_PROTO pinged with
  | Some st => (fun r => drop 48 (data r)) <$> packets (events st)
  | None => []
  end = [[201; 202; 203; 204; 205; 206; 207; 208]].
Proof. vm_compute. reflexivity. Qed.

End Icmp.
