(* ===== verification/Udp.v ===== *)
(** * UDP (ip/lwip/core/udp_lwip.c)

    The control blocks live in a pool; the active ones are in the list
    [udp_pcbs].  [udp_input] finds the block a datagram is for, [udp_sendto] and
    its variants send one.  UDP-Lite, checksums on copy and the broadcast options
    are not configured; [SO_REUSE] and [SO_REUSE_RXTOALL] are, and DHCP packets go
    to the client's block.  A call of a receive function is an entry of
    [received]: the function owns the packet from then on. *)

From stdpp Require Import gmap.
From S2P Require Import Prelude LwipDef InetChksum IpAddr Mem Memp Pbuf Packet IpFrag Ip Icmp.

#[local] Open Scope Z_scope.

Module Udp.
Import LwipDef InetChksum IpAddr Packet Ip.

Definition ERR_MEM : Z := -1.
Definition ERR_VAL : Z := -6.
Definition ERR_USE : Z := -8.
Definition UDP_HLEN : Z := 8.
Definition UDP_TTL : Z := 255.
Definition UDP_LOCAL_PORT_RANGE_START : Z := 0xc000.
Definition UDP_LOCAL_PORT_RANGE_END : Z := 0xffff.
Definition UDP_FLAGS_NOCHKSUM : Z := 0x01.
Definition UDP_FLAGS_CONNECTED : Z := 0x04.
Definition SOF_REUSEADDR : Z := 0x04.
Definition DHCP_SERVER_PORT : Z := 67.

Record udp_pcb := mkPcb {
  local_ip : Z; remote_ip : Z; so_options : Z; tos : Z; ttl : Z;
  flags : Z; local_port : Z; remote_port : Z; multicast_ip : Z; recv : option Z
}.

Definition set_local (ip port : Z) (p : udp_pcb) : udp_pcb :=
  mkPcb ip (remote_ip p) (so_options p) (tos p) (ttl p) (flags p) port (remote_port p) (multicast_ip p) (recv p).
Definition set_remote (ip port fl : Z) (p : udp_pcb) : udp_pcb :=
  mkPcb (local_ip p) ip (so_options p) (tos p) (ttl p) fl (local_port p) port (multicast_ip p) (recv p).
Definition set_recv (f : option Z) (p : udp_pcb) : udp_pcb :=
  mkPcb (local_ip p) (remote_ip p) (so_options p) (tos p) (ttl p) (flags p) (local_port p) (remote_port p)
    (multicast_ip p) f.

Definition set_options (o : Z) (p : udp_pcb) : udp_pcb :=
  mkPcb (local_ip p) (remote_ip p) o (tos p) (ttl p) (flags p) (local_port p) (remote_port p) (multicast_ip p) (recv p).

Definition ip_get_option (p : udp_pcb) (opt : Z) : bool := negb (Z.land (so_options p) opt =? 0).
Definition connected (p : udp_pcb) : bool := negb (Z.land (flags p) UDP_FLAGS_CONNECTED =? 0).

(** [struct udp_hdr], as it is loaded. *)
Record udp_hdr := mkUdpHdr { src : Z; dest : Z; len : Z; chksum : Z }.
Definition udp_hdr_bytes (h : udp_hdr) : list Z :=
  bytes16 (src h) ++ bytes16 (dest h) ++ bytes16 (len h) ++ bytes16 (chksum h).
Definition udp_hdr_of (b : list Z) : udp_hdr := mkUdpHdr (get16 b 0) (get16 b 2) (get16 b 4) (get16 b 6).

(** A call of a receive function. *)
Inductive delivery := Recv (recv pcb : Z) (q : pbuf) (addr port : Z).

Section udp.
Context {P PU : Type} `{Pool P} `{Pool PU}.

Record udp := mkUdp {
  udp_port : Z;
  pcbs : gmap Z udp_pcb;     (** the blocks that are allocated *)
  udp_pcbs : list Z;         (** the active ones *)
  pool : PU;
  received : list delivery
}.

Definition with_port (x : Z) (u : udp) : udp := mkUdp x (pcbs u) (udp_pcbs u) (pool u) (received u).
Definition with_pcb (a : Z) (p : udp_pcb) (u : udp) : udp :=
  mkUdp (udp_port u) (<[a := p]> (pcbs u)) (udp_pcbs u) (pool u) (received u).
Definition with_list (l : list Z) (u : udp) : udp := mkUdp (udp_port u) (pcbs u) l (pool u) (received u).
Definition deliver_to (d : delivery) (u : udp) : udp :=
  mkUdp (udp_port u) (pcbs u) (udp_pcbs u) (pool u) (received u ++ [d]).

(** The active blocks with their addresses; no result when one is gone. *)
Definition active (u : udp) : option (list (Z * udp_pcb)) :=
  mapM (fun a => p ← pcbs u !! a; Some (a, p)) (udp_pcbs u).

(** ** Ports *)

(** [tries] is what is left of the [n] of the source. *)
Fixpoint new_port (tries : nat) (used : list Z) (udp_port : Z) : Z * Z :=
  match tries with
  | O => (0, udp_port)
  | S tries =>
      let udp_port := if udp_port =? UDP_LOCAL_PORT_RANGE_END then UDP_LOCAL_PORT_RANGE_START else u16 (udp_port + 1) in
      if existsb (Z.eqb udp_port) used then new_port tries used udp_port else (udp_port, udp_port)
  end.
Definition udp_new_port (u : udp) : option (Z * udp) :=
  l ← active u;
  let '(port, x) := new_port (Z.to_nat (UDP_LOCAL_PORT_RANGE_END - UDP_LOCAL_PORT_RANGE_START + 1))
                      ((fun x => local_port x.2) <$> l) (udp_port u) in
  Some (port, with_port x u).

(** The block [b] keeps [pcb] from this address and port. *)
Definition conflicts (pcb : Z) (p : udp_pcb) (ipaddr port : Z) (b : Z * udp_pcb) : bool :=
  negb (b.1 =? pcb) && (negb (ip_get_option p SOF_REUSEADDR) && negb (ip_get_option b.2 SOF_REUSEADDR)) &&
  ((local_port b.2 =? port) &&
   (ip_addr_isany (local_ip b.2) || ip_addr_isany ipaddr || (local_ip b.2 =? ipaddr))).

Definition udp_bind (pcb ipaddr port : Z) (u : udp) : option (Z * udp) :=
  p ← pcbs u !! pcb;
  l ← active u;
  if existsb (conflicts pcb p ipaddr port) l then Some (ERR_USE, u)
  else
    let u := with_pcb pcb (set_local ipaddr (local_port p) p) u in
    '(port, u) ← (if port =? 0 then udp_new_port u else Some (port, u));
    if port =? 0 then Some (ERR_USE, u)
    else
      let u := with_pcb pcb (set_local ipaddr port p) u in
      Some (ERR_OK, if bool_decide (pcb ∈ udp_pcbs u) then u else with_list (pcb :: udp_pcbs u) u).

Definition udp_connect (pcb ipaddr port : Z) (u : udp) : option (Z * udp) :=
  p ← pcbs u !! pcb;
  '(err, u) ← (if local_port p =? 0 then udp_bind pcb (local_ip p) (local_port p) u else Some (ERR_OK, u));
  if negb (err =? ERR_OK) then Some (err, u)
  else
    p ← pcbs u !! pcb;
    let u := with_pcb pcb (set_remote ipaddr port (Z.lor (flags p) UDP_FLAGS_CONNECTED) p) u in
    Some (ERR_OK, if bool_decide (pcb ∈ udp_pcbs u) then u else with_list (pcb :: udp_pcbs u) u).

Definition udp_disconnect (pcb : Z) (u : udp) : option udp :=
  p ← pcbs u !! pcb;
  Some (with_pcb pcb (set_remote IPADDR_ANY 0 (Z.land (flags p) (u8 (Z.lnot UDP_FLAGS_CONNECTED))) p) u).

Definition udp_recv (pcb : Z) (f : option Z) (u : udp) : option udp :=
  p ← pcbs u !! pcb;
  Some (with_pcb pcb (set_recv f p) u).

Definition udp_remove (pcb : Z) (u : udp) : option udp :=
  p ← pcbs u !! pcb;
  m ← release (pool u) pcb;
  Some (mkUdp (udp_port u) (delete pcb (pcbs u)) (filter (fun a => a <> pcb) (udp_pcbs u)) m (received u)).

(** [ip_set_option] *)
Definition ip_set_option (pcb opt : Z) (u : udp) : option udp :=
  p ← pcbs u !! pcb;
  Some (with_pcb pcb (set_options (Z.lor (so_options p) opt) p) u).

Definition udp_new (u : udp) : option (option Z * udp) :=
  match alloc (pool u) with
  | Some (a, m) =>
      Some (Some a, mkUdp (udp_port u) (<[a := mkPcb 0 0 0 0 UDP_TTL 0 0 0 0 None]> (pcbs u)) (udp_pcbs u) m (received u))
  | None => Some (None, u)
  end.

(** ** Sending and receiving *)

Section packets.
Variable output_err : nat -> Z.
Variables frag_ram frag_ref : nat -> nat -> bool.
Variable ram : nat -> bool.
(** What lies in memory behind the bytes of the first buffer. *)
Variable stale : list Z.
(** The block of the DHCP client of an interface. *)
Variable dhcp_pcb : Z -> option Z.

Definition drop_udp (q : pbuf) (st : ip P) (u : udp) : option (ip P * udp) := Some (emit (Free q) st, u).

(** The block's local address takes packets to [d]. *)
Definition local_match (broadcast : bool) (d : Z) (inp : netif) (p : udp_pcb) : bool :=
  (negb broadcast && ip_addr_isany (local_ip p)) || (local_ip p =? d) || ip_addr_ismulticast d ||
  (broadcast && (ip_addr_isany (local_ip p) || ip_addr_netcmp (local_ip p) d (netmask inp))).
Definition remote_match (s port : Z) (p : udp_pcb) : bool :=
  (remote_port p =? port) && (ip_addr_isany (remote_ip p) || (remote_ip p =? s)).

(** The walk over the active blocks: the first that matches completely, or the
    first unconnected one that matches locally. *)
Fixpoint find_pcb (broadcast : bool) (s d sport dport : Z) (inp : netif) (uncon_pcb : option Z)
    (l : list (Z * udp_pcb)) : option Z * option Z :=
  match l with
  | [] => (None, uncon_pcb)
  | (a, p) :: l =>
      let local := (local_port p =? dport) && local_match broadcast d inp p in
      let uncon_pcb := match uncon_pcb with
                       | None => if local && negb (connected p) then Some a else None
                       | Some _ => uncon_pcb
                       end in
      if local && remote_match s sport p then (Some a, uncon_pcb)
      else find_pcb broadcast s d sport dport inp uncon_pcb l
  end.

(** The block is moved to the front when there is one before it. *)
Definition to_front (a : Z) (l : list Z) : list Z := a :: filter (fun b => b <> a) l.

(** Copies for the other blocks that match; [hl] is the length of both headers,
    [changed] whether [p] shows them. *)
Definition shares (broadcast : bool) (d dport : Z) (p : udp_pcb) : bool :=
  (local_port p =? dport) &&
  ((negb broadcast && ip_addr_isany (local_ip p)) || (local_ip p =? d) || ip_addr_ismulticast d || broadcast).
Fixpoint copies (broadcast : bool) (d dport : Z) (addr sport hl : Z) (pcb : Z) (l : list (Z * udp_pcb))
    (p : pbuf) (changed : bool) (st : ip P) (u : udp) : pbuf * bool * ip P * udp :=
  match l with
  | [] => (p, changed, st, u)
  | (a, m) :: l =>
      match (if negb (a =? pcb) && shares broadcast d dport m then recv m else None) with
      | None => copies broadcast d dport addr sport hl pcb l p changed st u
      | Some f =>
          let p := if changed then p else default p (pbuf_header p hl) in
          let '(q, st) := alloc_ram ram Pbuf.PBUF_RAW (tot_len p) st in
          let u := match q with
                   | Some q =>
                       match pbuf_copy q p with
                       | Some q => deliver_to (Recv f a (default q (pbuf_header q (- hl))) addr sport) u
                       | None => u
                       end
                   | None => u
                   end in
          copies broadcast d dport addr sport hl pcb l p true st u
      end
  end.

(** The block a datagram is for, with the list as the search leaves it. *)
Definition demux (broadcast : bool) (sport dport : Z) (inp : netif) (st : ip P) (u : udp)
    : option (option Z * udp) :=
  let s := current_iphdr_src st in
  let d := current_iphdr_dest st in
  if dport =? DHCP_CLIENT_PORT then
    if sport =? DHCP_SERVER_PORT then
      match dhcp_pcb (netif_id inp) with
      | Some a =>
          p ← pcbs u !! a;
          Some (if ip_addr_isany (remote_ip p) || (remote_ip p =? s) then Some a else None, u)
      | None => Some (None, u)
      end
    else Some (None, u)
  else
    l ← active u;
    match find_pcb broadcast s d sport dport inp None l with
    | (Some a, _) => Some (Some a, with_list (to_front a (udp_pcbs u)) u)
    | (None, uncon_pcb) => Some (uncon_pcb, u)
    end.

(** The datagram goes to the block [pcb]; [p] shows the data. *)
Definition hand_over (broadcast : bool) (sport dport hl : Z) (pcb : Z) (p : pbuf) (st : ip P) (u : udp)
    : option (ip P * udp) :=
  b ← pcbs u !! pcb;
  let d := current_iphdr_dest st in
  let addr := current_iphdr_src st in
  '(p, st, u) ←
    (if (broadcast || ip_addr_ismulticast d) && ip_get_option b SOF_REUSEADDR then
       l ← active u;
       let '(p, changed, st, u) := copies broadcast d dport addr sport hl pcb l p false st u in
       Some (if (changed : bool) then default p (pbuf_header p (- hl)) else p, st, u)
     else Some (p, st, u));
  match recv b with
  | Some f => Some (st, deliver_to (Recv f pcb p addr sport) u)
  | None => drop_udp p st u
  end.

Definition udp_input (p : pbuf) (inp : netif) (st : ip P) (u : udp) : option (ip P * udp) :=
  let iphdr := ip_hdr_of (first p ++ stale) in
  let hlen := IPH_HL iphdr * 4 in
  if tot_len p <? hlen + UDP_HLEN then drop_udp p st u
  else
    match pbuf_header p (- hlen) with
    | None => drop_udp p st u
    | Some p =>
        let udphdr := udp_hdr_of (first p ++ stale) in
        let d := current_iphdr_dest st in
        let broadcast := ip_addr_isbroadcast d inp in
        let sport := lwip_ntohs (src udphdr) in
        let dport := lwip_ntohs (dest udphdr) in
        '(pcb, u) ← demux broadcast sport dport inp st u;
        match pcb, ip_addr inp =? d with
        | None, false => drop_udp p st u
        | _, _ =>
            if negb (chksum udphdr =? 0) &&
               negb (inet_chksum_pseudo (segments p) (current_iphdr_src st) d IP_PROTO_UDP (tot_len p) =? 0)
            then drop_udp p st u
            else
              match pbuf_header p (- UDP_HLEN) with
              | None => drop_udp p st u
              | Some p =>
                  match pcb with
                  | Some a => hand_over broadcast sport dport (hlen + UDP_HLEN) a p st u
                  | None =>
                      '(p, st) ←
                        (if negb broadcast && negb (ip_addr_ismulticast d) then
                           let p := default p (pbuf_header p (hlen + UDP_HLEN)) in
                           st ← Icmp.icmp_dest_unreach output_err frag_ram frag_ref ram stale p Icmp.ICMP_DUR_PORT st;
                           Some (p, st)
                         else Some (p, st));
                      drop_udp p st u
                  end
              end
        end
    end.

(** The end of [udp_sendto_if]: [q] shows the UDP header, [own] is the buffer
    that was added for it. *)
Definition send_header (b : udp_pcb) (q : pbuf) (own : option pbuf) (dst_ip dst_port : Z) (n : netif)
    (st : ip P) : option (Z * ip P) :=
  let free st := match own with Some h => emit (Free h) st | None => st end in
  let src_ip := if ip_addr_isany (local_ip b) then ip_addr n else local_ip b in
  if negb (ip_addr_isany (local_ip b)) && negb (local_ip b =? ip_addr n) then Some (ERR_VAL, free st)
  else
    let h := mkUdpHdr (lwip_htons (local_port b)) (lwip_htons dst_port) (lwip_htons (tot_len q)) 0 in
    let q0 := write_first (udp_hdr_bytes h) q in
    let c :=
      if Z.land (flags b) UDP_FLAGS_NOCHKSUM =? 0 then
        let udpchksum := inet_chksum_pseudo (segments q0) src_ip dst_ip IP_PROTO_UDP (tot_len q0) in
        if udpchksum =? 0 then 0xffff else udpchksum
      else 0 in
    let q := write_first (udp_hdr_bytes (mkUdpHdr (src h) (dest h) (len h) c)) q in
    '(err, st) ← ip_output_if output_err frag_ram frag_ref q src_ip (Some dst_ip) (ttl b) (tos b) IP_PROTO_UDP n st;
    Some (err, free st).

Definition udp_sendto_if (pcb : Z) (p : pbuf) (dst_ip dst_port : Z) (n : netif) (st : ip P) (u : udp)
    : option (Z * ip P * udp) :=
  b ← pcbs u !! pcb;
  '(err, u) ← (if local_port b =? 0 then udp_bind pcb (local_ip b) (local_port b) u else Some (ERR_OK, u));
  if negb (err =? ERR_OK) then Some (err, st, u)
  else
    b ← pcbs u !! pcb;
    match pbuf_header p UDP_HLEN with
    | Some q =>
        '(err, st) ← send_header b q None dst_ip dst_port n st;
        Some (err, st, u)
    | None =>
        match alloc_ram ram Pbuf.PBUF_IP UDP_HLEN st with
        | (None, st) => Some (ERR_MEM, st, u)
        | (Some h, st) =>
            let q := if tot_len p =? 0 then h else pbuf_chain h p in
            '(err, st) ← send_header b q (Some h) dst_ip dst_port n st;
            Some (err, st, u)
        end
    end.

(** [udp_sendto]; [store] keeps the address that replaces the broadcast address in
    the variable of the caller. *)
Definition sendto (store : Z -> udp -> option udp) (pcb : Z) (p : pbuf) (dst_ip dst_port : Z) (st : ip P) (u : udp)
    : option (Z * ip P * udp) :=
  b ← pcbs u !! pcb;
  match ip_route (if ip_addr_ismulticast dst_ip then multicast_ip b else dst_ip) st with
  | None => Some (ERR_RTE, st, u)
  | Some n =>
      if dst_ip =? IPADDR_BROADCAST then
        let dst_ip := Z.lor (ip_addr n) (u32 (Z.lnot (netmask n))) in
        u ← store dst_ip u;
        udp_sendto_if pcb p dst_ip dst_port n st u
      else udp_sendto_if pcb p dst_ip dst_port n st u
  end.
Definition udp_sendto : Z -> pbuf -> Z -> Z -> ip P -> udp -> option (Z * ip P * udp) := sendto (fun _ u => Some u).

(** [udp_send] passes the address of [remote_ip]. *)
Definition udp_send (pcb : Z) (p : pbuf) (st : ip P) (u : udp) : option (Z * ip P * udp) :=
  b ← pcbs u !! pcb;
  sendto (fun x u => b ← pcbs u !! pcb; Some (with_pcb pcb (set_remote x (remote_port b) (flags b) b) u))
    pcb p (remote_ip b) (remote_port b) st u.

End packets.

(** ** New ports *)

Definition in_range (x : Z) : Prop := UDP_LOCAL_PORT_RANGE_START <= x <= UDP_LOCAL_PORT_RANGE_END.
(** The [i]-th port that is tried after [x]. *)
Definition nth_port (x i : Z) : Z := UDP_LOCAL_PORT_RANGE_START + (x - UDP_LOCAL_PORT_RANGE_START + i) mod 16384.

Lemma next_port x : in_range x ->
  (if x =? UDP_LOCAL_PORT_RANGE_END then UDP_LOCAL_PORT_RANGE_START else u16 (x + 1)) = nth_port x 1.
Proof.
  unfold in_range, nth_port, UDP_LOCAL_PORT_RANGE_END, UDP_LOCAL_PORT_RANGE_START. intros Hx.
  destruct (Z.eqb_spec x 0xffff); [subst; done|]. rewrite u16_small by zlia. zlia.
Qed.
Lemma nth_port_range x i : in_range x -> in_range (nth_port x i).
Proof. unfold in_range, nth_port, UDP_LOCAL_PORT_RANGE_END, UDP_LOCAL_PORT_RANGE_START. zlia. Qed.
Lemma nth_port_add x i j : nth_port (nth_port x i) j = nth_port x (i + j).
Proof.
  unfold nth_port. f_equal. rewrite Z.add_simpl_l, Zplus_mod_idemp_l. f_equal. lia.
Qed.

Lemma existsb_eqb x l : existsb (Z.eqb x) l = true <-> x ∈ l.
Proof.
  rewrite existsb_exists. split.
  - intros (y & Hy & E). apply Z.eqb_eq in E as ->. by apply list_elem_of_In.
  - intros Hx. exists x. split; [by apply list_elem_of_In|apply Z.eqb_refl].
Qed.

Lemma new_port_spec k used x port x' :
  in_range x -> new_port k used x = (port, x') ->
  in_range x' /\
  ((port = x' /\ port ∉ used) \/ (port = 0 /\ forall i, 1 <= i <= Z.of_nat k -> nth_port x i ∈ used)).
Proof.
  revert x. induction k as [|k IH]; intros x Hx E; cbn [new_port] in E.
  { injection E as <- <-. split; [done|]. right. split; [done|]. intros i Hi. lia. }
  rewrite next_port in E by done. pose proof (nth_port_range x 1 Hx) as Hx1.
  destruct (existsb (Z.eqb (nth_port x 1)) used) eqn:Eu.
  - apply existsb_eqb in Eu. destruct (IH _ Hx1 E) as (Hr & [?|[-> Hall]]); (split; [done|]); [by left|].
    right. split; [done|]. intros i Hi. destruct (decide (i = 1)) as [->|]; [done|].
    specialize (Hall (i - 1)). rewrite nth_port_add in Hall. replace (1 + (i - 1)) with i in Hall by lia.
    apply Hall. lia.
  - injection E as <- <-. split; [done|]. left. split; [done|]. intros Hin. apply existsb_eqb in Hin. congruence.
Qed.

(** A port is found unless all of the range are in use. *)
Lemma new_port_total used x port x' :
  in_range x ->
  new_port (Z.to_nat (UDP_LOCAL_PORT_RANGE_END - UDP_LOCAL_PORT_RANGE_START + 1)) used x = (port, x') ->
  in_range x' /\ ((in_range port /\ port ∉ used) \/ (port = 0 /\ forall y, in_range y -> y ∈ used)).
Proof.
  intros Hx E. destruct (new_port_spec _ _ _ _ _ Hx E) as (Hr & [[-> Hn]|[-> Hall]]); (split; [done|]); [by left|].
  right. split; [done|]. intros y Hy.
  set (i := (y - x - 1) mod 16384 + 1).
  assert (Ei : nth_port x i = y).
  { unfold nth_port, in_range, i, UDP_LOCAL_PORT_RANGE_END, UDP_LOCAL_PORT_RANGE_START in *. zlia. }
  rewrite <- Ei. apply Hall. unfold UDP_LOCAL_PORT_RANGE_END, UDP_LOCAL_PORT_RANGE_START.
  change (Z.of_nat (Z.to_nat (65535 - 49152 + 1))) with 16384. unfold i. zlia.
Qed.

(** ** The invariant of the control blocks *)

Definition keys {A} (m : gmap Z A) : list Z := (map_to_list m).*1.

Lemma keys_insert_new {A} (m : gmap Z A) a x : m !! a = None -> keys (<[a := x]> m) ≡ₚ a :: keys m.
Proof. intros Ha. unfold keys. by rewrite map_to_list_insert. Qed.
Lemma keys_delete {A} (m : gmap Z A) a x : m !! a = Some x -> keys m ≡ₚ a :: keys (delete a m).
Proof. intros Ha. unfold keys. by rewrite <- (map_to_list_delete m a x). Qed.
Lemma keys_insert_same {A} (m : gmap Z A) a x y : m !! a = Some y -> keys (<[a := x]> m) ≡ₚ keys m.
Proof.
  intros Ha. rewrite (keys_delete m a y) by done. rewrite <- insert_delete_eq. apply keys_insert_new, lookup_delete_eq.
Qed.
Lemma elem_of_keys {A} (m : gmap Z A) a : a ∈ keys m <-> is_Some (m !! a).
Proof.
  unfold keys. rewrite list_elem_of_fmap. split.
  - intros ([b x] & -> & Hx). apply elem_of_map_to_list in Hx. by exists x.
  - intros [x Hx]. exists (a, x). split; [done|]. by apply elem_of_map_to_list.
Qed.

(** Two blocks take the same packets, and neither allows it. *)
Definition overlap (p q : udp_pcb) : bool :=
  (negb (ip_get_option p SOF_REUSEADDR) && negb (ip_get_option q SOF_REUSEADDR)) &&
  ((local_port q =? local_port p) &&
   (ip_addr_isany (local_ip q) || ip_addr_isany (local_ip p) || (local_ip q =? local_ip p))).
Lemma overlap_sym p q : overlap p q = overlap q p.
Proof.
  unfold overlap. rewrite (Z.eqb_sym (local_port q)), (Z.eqb_sym (local_ip q)).
  rewrite (andb_comm (negb (ip_get_option p SOF_REUSEADDR))). f_equal. f_equal.
  by rewrite (orb_comm (ip_addr_isany (local_ip q))).
Qed.

Record inv (u : udp) : Prop := {
  i_nodup : NoDup (udp_pcbs u);
  i_list : forall a, a ∈ udp_pcbs u <-> exists p, pcbs u !! a = Some p /\ local_port p <> 0;
  i_port : in_range (udp_port u);
  i_pool : holds (pool u) (keys (pcbs u));
  i_unique : forall a b p q, a <> b -> pcbs u !! a = Some p -> pcbs u !! b = Some q ->
    local_port p <> 0 -> overlap p q = false
}.

Lemma active_Some u l : active u = Some l <-> Forall2 (fun a x => x.1 = a /\ pcbs u !! a = Some x.2) (udp_pcbs u) l.
Proof.
  unfold active. rewrite mapM_Some. split; intros Hl.
  - eapply Forall2_impl; [exact Hl|]. intros a [b p] E. cbn beta in E.
    destruct (pcbs u !! a) as [p'|] eqn:Ea; [|done]. cbn in E. injection E as <- <-. done.
  - eapply Forall2_impl; [exact Hl|]. intros a [b p] [E1 E2]. cbn in E1, E2. subst b. by rewrite E2.
Qed.
Lemma active_total u : inv u -> exists l, active u = Some l.
Proof.
  intros Hi. unfold active. apply mapM_is_Some_2. apply Forall_forall. intros a Ha.
  apply (i_list _ Hi) in Ha as (p & Hp & _). unfold compose. rewrite Hp. by eexists.
Qed.
Lemma active_elem u l a p : active u = Some l -> (a, p) ∈ l <-> a ∈ udp_pcbs u /\ pcbs u !! a = Some p.
Proof.
  intros Hl%active_Some. split.
  - intros (i & Hi)%list_elem_of_lookup. destruct (Forall2_lookup_r _ _ _ _ _ Hl Hi) as (b & Hb & E1 & E2).
    cbn in E1, E2. subst b. split; [by apply list_elem_of_lookup_2 with i|done].
  - intros [(i & Hi)%list_elem_of_lookup Hp]. destruct (Forall2_lookup_l _ _ _ _ _ Hl Hi) as ([b q] & Hb & E1 & E2).
    cbn in E1, E2. subst b. rewrite Hp in E2. injection E2 as <-. by apply list_elem_of_lookup_2 with i.
Qed.
Lemma active_fst u l : active u = Some l -> l.*1 = udp_pcbs u.
Proof.
  intros Hl%active_Some. induction Hl as [|a x l1 l2 [E _] _ IH]; [done|]. cbn. by rewrite E, IH.
Qed.

(** A block gets an address and port that no other block takes. *)
Lemma set_local_inv u a p ip port :
  inv u -> pcbs u !! a = Some p -> port <> 0 ->
  (forall b q, b <> a -> pcbs u !! b = Some q -> local_port q <> 0 -> overlap (set_local ip port p) q = false) ->
  let u1 := with_pcb a (set_local ip port p) u in
  inv (if bool_decide (a ∈ udp_pcbs u) then u1 else with_list (a :: udp_pcbs u) u1).
Proof.
  intros [I1 I2 I3 I4 I5] Ha Hport Hfree u1.
  set (u2 := if bool_decide (a ∈ udp_pcbs u) then u1 else with_list (a :: udp_pcbs u) u1).
  assert (E1 : pcbs u2 = <[a := set_local ip port p]> (pcbs u)) by (unfold u2; by case_bool_decide).
  assert (E2 : pool u2 = pool u) by (unfold u2; by case_bool_decide).
  assert (E3 : udp_port u2 = udp_port u) by (unfold u2; by case_bool_decide).
  assert (E4 : forall b, b ∈ udp_pcbs u2 <-> b = a \/ b ∈ udp_pcbs u).
  { intros b. unfold u2. case_bool_decide as Hin; cbn [with_list with_pcb udp_pcbs u1].
    - split; [by right|]. intros [->|]; done.
    - rewrite elem_of_cons. done. }
  split.
  - unfold u2. case_bool_decide as Hin; [done|]. cbn. by constructor.
  - intros b. rewrite E4, E1. destruct (decide (b = a)) as [->|Hb].
    + rewrite lookup_insert_eq. split; [|by left]. intros _. by eexists.
    + rewrite lookup_insert_ne by done. rewrite <- I2. split; [by intros [?|]|by right].
  - by rewrite E3.
  - rewrite E2, E1. eapply holds_perm; [|exact I4]. symmetry. by apply (keys_insert_same _ _ _ p).
  - intros b c q1 q2 Hbc. rewrite E1. destruct (decide (b = a)) as [->|Hb].
    + rewrite lookup_insert_eq, lookup_insert_ne by done. intros [= <-] Hc _.
      destruct (decide (local_port q2 = 0)) as [Hz|Hz]; [|by apply (Hfree c)].
      unfold overlap. cbn [set_local local_port]. rewrite Hz. rewrite (proj2 (Z.eqb_neq 0 port)) by done.
      by rewrite andb_false_r.
    + rewrite lookup_insert_ne by done. destruct (decide (c = a)) as [->|Hc].
      * rewrite lookup_insert_eq. intros Hq1 [= <-] Hp1. rewrite overlap_sym. by apply (Hfree b).
      * rewrite lookup_insert_ne by done. by apply I5.
Qed.

(** There are fewer blocks than ports. *)
Hypothesis few_blocks : Z.of_nat (capacity PU) < 16384.

Lemma length_active u l : inv u -> active u = Some l -> (length l <= capacity PU)%nat.
Proof.
  intros Hi Hl. rewrite <- (length_fmap fst l), (active_fst _ _ Hl).
  transitivity (length (keys (pcbs u))); [|apply (holds_bound (pool u)), (i_pool _ Hi)].
  apply submseteq_length, NoDup_submseteq; [apply (i_nodup _ Hi)|].
  intros a Ha. apply elem_of_keys. apply (i_list _ Hi) in Ha as (p & Hp & _). by exists p.
Qed.

Lemma udp_new_port_spec u l :
  active u = Some l -> in_range (udp_port u) -> Z.of_nat (length l) < 16384 ->
  exists port, udp_new_port u = Some (port, with_port port u) /\ in_range port /\
    port ∉ (fun x => local_port x.2) <$> l.
Proof.
  intros Hl Hr Hlen. unfold udp_new_port. rewrite Hl. cbn [mbind option_bind].
  set (used := (fun x => local_port x.2) <$> l). destruct (new_port _ used (udp_port u)) as [port x] eqn:E.
  destruct (new_port_spec _ _ _ _ _ Hr E) as (_ & [[-> _]|[Hz _]]); apply new_port_total in E as (Hx & Hcase); try done.
  - destruct Hcase as [[Hp Hn]|[-> _]]; [by exists x|]. exfalso. unfold in_range, UDP_LOCAL_PORT_RANGE_START in Hx. lia.
  - destruct Hcase as [[Hp Hn]|[_ Hall]]; [exfalso; unfold in_range, UDP_LOCAL_PORT_RANGE_START in Hp; lia|]. exfalso.
    assert (Hlen2 : (length (seqZ UDP_LOCAL_PORT_RANGE_START 16384) <= length used)%nat).
    { apply submseteq_length, NoDup_submseteq; [apply NoDup_seqZ|]. intros y Hy%elem_of_seqZ. apply Hall.
      unfold in_range, UDP_LOCAL_PORT_RANGE_END, UDP_LOCAL_PORT_RANGE_START in *. lia. }
    rewrite length_seqZ in Hlen2. unfold used in Hlen2. rewrite length_fmap in Hlen2. lia.
Qed.

Lemma with_port_inv u x : inv u -> in_range x -> inv (with_port x u).
Proof. intros [? ? ? ? ?] Hx. by split. Qed.

(** The local address of the block does not matter for the new port. *)
Lemma new_port_after u a p ip :
  inv u -> pcbs u !! a = Some p ->
  let u0 := with_pcb a (set_local ip (local_port p) p) u in
  exists q, udp_new_port u0 = Some (q, with_port q u0) /\ in_range q /\
    forall b r, b ∈ udp_pcbs u -> pcbs u !! b = Some r -> local_port r <> q.
Proof.
  intros Hi Ha u0. destruct (active_total u Hi) as [l Hl].
  assert (Hact : exists l1, active u0 = Some l1).
  { unfold active. apply mapM_is_Some_2. apply Forall_forall. intros b Hb. cbn [u0 with_pcb udp_pcbs] in Hb.
    unfold compose. cbn [u0 with_pcb pcbs]. destruct (decide (b = a)) as [->|Hne].
    - rewrite lookup_insert_eq. by eexists.
    - rewrite lookup_insert_ne by done. apply (i_list _ Hi) in Hb as (q & -> & _). by eexists. }
  destruct Hact as [l1 Hact].
  assert (Hports : (fun x => local_port x.2) <$> l1 = (fun x => local_port x.2) <$> l).
  { pose proof Hact as Hl1. apply active_Some in Hl1. apply active_Some in Hl. cbn [u0 with_pcb udp_pcbs pcbs] in Hl1.
    clear Hact. revert l1 Hl1. clear -Hl Ha.
    induction Hl as [|b x l1 l2 [E1 E2] _ IH]; intros m Hm; inversion Hm as [|? y ? m2 [F1 F2] Hm2]; subst; [done|].
    cbn. f_equal; [|by apply IH]. destruct x as [b' q], y as [b'' r]. cbn in *. subst.
    destruct (decide (b' = a)) as [->|Hb]; [|rewrite lookup_insert_ne in F2 by done; congruence].
    rewrite lookup_insert_eq in F2. injection F2 as <-. cbn. congruence. }
  destruct (udp_new_port_spec u0 l1 Hact) as (q & E & Hq & Hn); [apply (i_port _ Hi)| |].
  { rewrite <- (length_fmap (fun x : Z * udp_pcb => local_port x.2) l1), Hports, length_fmap.
    pose proof (length_active u l Hi Hl). lia. }
  exists q. split; [done|]. split; [done|]. intros b r Hb Hr <-. apply Hn. rewrite Hports. apply list_elem_of_fmap.
  exists (b, r). split; [done|]. by apply (active_elem u).
Qed.

(** What [udp_bind] does. *)
Lemma udp_bind_spec u a p ip port :
  inv u -> pcbs u !! a = Some p ->
  exists err u', udp_bind a ip port u = Some (err, u') /\ inv u' /\
    ((err = ERR_USE /\ u' = u /\ exists b q, b ∈ udp_pcbs u /\ b <> a /\ pcbs u !! b = Some q /\
        overlap (set_local ip port p) q = true) \/
     (err = ERR_OK /\ exists x, pcbs u' = <[a := set_local ip x p]> (pcbs u) /\ x <> 0 /\
        (port <> 0 -> x = port) /\
        (port = 0 -> in_range x /\ forall b q, b ∈ udp_pcbs u -> pcbs u !! b = Some q -> local_port q <> x))).
Proof.
  intros Hi Ha. destruct (active_total u Hi) as [l Hl]. unfold udp_bind. rewrite Ha, Hl. cbn [mbind option_bind].
  destruct (existsb (conflicts a p ip port) l) eqn:Ec.
  - exists ERR_USE, u. split; [done|]. split; [done|]. left. split; [done|]. split; [done|].
    apply existsb_exists in Ec as ([b q] & Hb%list_elem_of_In & Ec). apply (active_elem u) in Hb as [Hb Hq]; [|done].
    unfold conflicts in Ec. cbn [fst snd] in Ec. apply andb_true_iff in Ec as [Ec1 Ec2].
    apply andb_true_iff in Ec1 as [Ec0 Ec1]. apply negb_true_iff, Z.eqb_neq in Ec0.
    exists b, q. split_and!; try done. unfold overlap. cbn [set_local local_port local_ip].
    change (ip_get_option (set_local ip port p) SOF_REUSEADDR) with (ip_get_option p SOF_REUSEADDR).
    by rewrite Ec1.
  - assert (Hfree : forall b q, b <> a -> pcbs u !! b = Some q -> local_port q <> 0 -> overlap (set_local ip port p) q = false).
    { intros b q Hb Hq Hz. assert (Hin : (b, q) ∈ l) by (apply (active_elem u); [done|]; split; [by apply (i_list _ Hi); exists q|done]).
      destruct (overlap (set_local ip port p) q) eqn:Eo; [|done]. exfalso.
      assert (existsb (conflicts a p ip port) l = true); [|congruence].
      apply existsb_exists. exists (b, q). split; [by apply list_elem_of_In|]. unfold conflicts. cbn [fst snd].
      rewrite (proj2 (Z.eqb_neq b a)) by done. exact Eo. }
    destruct (Z.eqb_spec port 0) as [->|Hp].
    + destruct (new_port_after u a p ip Hi Ha) as (q & -> & Hq1 & Hq2). cbn [mbind option_bind].
      assert (Hq0 : q <> 0) by (unfold in_range, UDP_LOCAL_PORT_RANGE_START in Hq1; lia).
      rewrite (proj2 (Z.eqb_neq q 0)) by done. exists ERR_OK. eexists. split; [done|].
      assert (Hw : with_pcb a (set_local ip q p) (with_port q (with_pcb a (set_local ip (local_port p) p) u)) =
              with_pcb a (set_local ip q p) (with_port q u)).
      { unfold with_pcb, with_port. cbn. by rewrite insert_insert_eq. }
      rewrite Hw. split.
      * apply (set_local_inv (with_port q u)); [by apply with_port_inv|done|done|].
        intros b r Hb Hr Hz. unfold overlap. cbn [set_local local_port].
        rewrite (proj2 (Z.eqb_neq (local_port r) q)); [by rewrite andb_false_r|].
        apply (Hq2 b); [apply (i_list _ Hi); by exists r|done].
      * right. split; [done|]. exists q. split; [by case_bool_decide|]. done.
    + cbn [mbind option_bind]. rewrite (proj2 (Z.eqb_neq port 0)) by done. exists ERR_OK. eexists. split; [done|].
      assert (Hw : with_pcb a (set_local ip port p) (with_pcb a (set_local ip (local_port p) p) u) = with_pcb a (set_local ip port p) u).
      { unfold with_pcb. cbn. by rewrite insert_insert_eq. }
      rewrite Hw. split; [exact (set_local_inv u a p ip port Hi Ha Hp Hfree)|]. right. split; [done|]. exists port.
      split; [by case_bool_decide|]. split; [done|]. split; [done|]. intros E. done.
Qed.

(** A change of a block that keeps its port and address. *)
Lemma keep_inv u a p p' :
  inv u -> pcbs u !! a = Some p -> local_port p' = local_port p -> local_ip p' = local_ip p ->
  (ip_get_option p SOF_REUSEADDR = true -> ip_get_option p' SOF_REUSEADDR = true) ->
  inv (with_pcb a p' u).
Proof.
  intros [I1 I2 I3 I4 I5] Ha Ep Eip Eo.
  assert (Hov : forall q, overlap p q = false -> overlap p' q = false).
  { intros q. unfold overlap. rewrite Ep, Eip. destruct (ip_get_option p SOF_REUSEADDR); [by rewrite Eo|].
    destruct (ip_get_option p' SOF_REUSEADDR); [done|tauto]. }
  split; cbn [with_pcb udp_pcbs pcbs udp_port pool]; try done.
  - intros b. rewrite I2. destruct (decide (b = a)) as [->|Hb].
    + rewrite lookup_insert_eq, Ha. split; intros (q & [= <-] & Hq); eexists; (split; [done|congruence]).
    + by rewrite lookup_insert_ne.
  - eapply holds_perm; [|exact I4]. symmetry. by apply (keys_insert_same _ _ _ p).
  - intros b c q1 q2 Hbc. destruct (decide (b = a)) as [->|Hb].
    + rewrite lookup_insert_eq, lookup_insert_ne by done. intros [= <-] Hc Hz. apply Hov, (I5 a c); try done. congruence.
    + rewrite (lookup_insert_ne _ a b) by done. destruct (decide (c = a)) as [->|Hc].
      * rewrite lookup_insert_eq. intros Hq1 [= <-] Hp1. rewrite overlap_sym. apply Hov. rewrite overlap_sym. by apply (I5 b a).
      * rewrite lookup_insert_ne by done. by apply I5.
Qed.

(** ** The search for a block *)

Definition perfect (broadcast : bool) (s d sport dport : Z) (inp : netif) (x : Z * udp_pcb) : bool :=
  (local_port x.2 =? dport) && local_match broadcast d inp x.2 && remote_match s sport x.2.
Definition loose (broadcast : bool) (d dport : Z) (inp : netif) (x : Z * udp_pcb) : bool :=
  (local_port x.2 =? dport) && local_match broadcast d inp x.2 && negb (connected x.2).

(** The block that is found: the first that matches completely, or else the first
    unconnected one. *)
Definition chosen (broadcast : bool) (s d sport dport : Z) (inp : netif) (l : list (Z * udp_pcb)) : option (Z * udp_pcb) :=
  match List.find (perfect broadcast s d sport dport inp) l with
  | Some x => Some x
  | None => List.find (loose broadcast d dport inp) l
  end.

Lemma find_pcb_spec broadcast s d sport dport inp uncon l :
  find_pcb broadcast s d sport dport inp uncon l =
    match List.find (perfect broadcast s d sport dport inp) l with
    | Some x => (Some x.1, (find_pcb broadcast s d sport dport inp uncon l).2)
    | None => (None, match uncon with Some _ => uncon | None => fst <$> List.find (loose broadcast d dport inp) l end)
    end.
Proof.
  revert uncon. induction l as [|[a p] l IH]; intros uncon; [by destruct uncon|].
  cbn [find_pcb List.find]. unfold perfect at 1, loose at 1. cbn [fst snd].
  destruct ((local_port p =? dport) && local_match broadcast d inp p) eqn:El; cbn [andb].
  - destruct (remote_match s sport p); [done|]. rewrite IH.
    destruct (List.find (perfect broadcast s d sport dport inp) l); [done|]. destruct uncon; [done|].
    by destruct (connected p).
  - rewrite IH. destruct (List.find (perfect broadcast s d sport dport inp) l); [done|]. by destruct uncon.
Qed.

Lemma filter_absent (a : Z) (l : list Z) : a ∉ l -> filter (fun b => b <> a) l = l.
Proof.
  induction l as [|b l IH]; intros Ha; [done|]. apply not_elem_of_cons in Ha as [Hb Ha].
  rewrite filter_cons_True by congruence. by rewrite IH.
Qed.

Lemma demux_spec dhcp_pcb broadcast sport dport inp st u l :
  active u = Some l -> dport <> DHCP_CLIENT_PORT ->
  exists u', demux dhcp_pcb broadcast sport dport inp st u =
      Some (fst <$> chosen broadcast (current_iphdr_src st) (current_iphdr_dest st) sport dport inp l, u') /\
    pcbs u' = pcbs u /\ received u' = received u /\ pool u' = pool u /\ udp_port u' = udp_port u /\
    (NoDup (udp_pcbs u) -> udp_pcbs u' ≡ₚ udp_pcbs u).
Proof.
  intros Hl Hd. unfold demux. rewrite (proj2 (Z.eqb_neq dport DHCP_CLIENT_PORT)) by done. rewrite Hl. cbn [mbind option_bind].
  rewrite find_pcb_spec. unfold chosen.
  destruct (List.find (perfect _ _ _ _ _ _) l) as [[a p]|] eqn:Ef; [|by eexists].
  cbn [fst fmap option_fmap option_map]. eexists. split; [done|]. do 4 (split; [done|]).
  intros Hn. cbn [with_list udp_pcbs]. unfold to_front.
  apply find_some in Ef as [Hin%list_elem_of_In _]. apply (active_elem u) in Hin as [Hin _]; [|done].
  apply list_elem_of_split in Hin as (l1 & l2 & E). rewrite E in *.
  apply NoDup_app in Hn as (Hn1 & Hn2 & Hn3). apply NoDup_cons in Hn3 as [Hn3 Hn4].
  assert (Ha1 : a ∉ l1) by (intros H1; apply (Hn2 a H1); left).
  rewrite filter_app, filter_cons_False by tauto. rewrite !filter_absent by done. apply Permutation_middle.
Qed.

(** ** Packets change the order of the blocks only *)

Definition same_blocks (u u' : udp) : Prop :=
  pcbs u' = pcbs u /\ pool u' = pool u /\ udp_port u' = udp_port u /\ udp_pcbs u' ≡ₚ udp_pcbs u.

Lemma same_blocks_refl u : same_blocks u u.
Proof. done. Qed.
Lemma same_blocks_trans u1 u2 u3 : same_blocks u1 u2 -> same_blocks u2 u3 -> same_blocks u1 u3.
Proof. intros (A1 & A2 & A3 & A4) (B1 & B2 & B3 & B4). split_and!; try congruence. by rewrite B4. Qed.
Lemma same_blocks_inv u u' : inv u -> same_blocks u u' -> inv u'.
Proof.
  intros [I1 I2 I3 I4 I5] (E1 & E2 & E3 & E4). split; rewrite ?E1, ?E2, ?E3; try done.
  - by rewrite E4.
  - intros a. by rewrite E4.
Qed.

Lemma demux_same dhcp_pcb broadcast sport dport inp (st : ip P) u r u' :
  inv u -> demux dhcp_pcb broadcast sport dport inp st u = Some (r, u') -> same_blocks u u' /\ received u' = received u.
Proof.
  intros Hi E. destruct (decide (dport = DHCP_CLIENT_PORT)) as [Hd|Hd].
  - unfold demux in E. rewrite (proj2 (Z.eqb_eq _ _) Hd) in E. destruct (sport =? DHCP_SERVER_PORT); [|by injection E as _ <-].
    destruct (dhcp_pcb (netif_id inp)) as [a|]; [|by injection E as _ <-].
    destruct (pcbs u !! a); [|done]. cbn [mbind option_bind] in E. by injection E as _ <-.
  - destruct (active_total u Hi) as [l Hl].
    destruct (demux_spec dhcp_pcb broadcast sport dport inp st u l Hl Hd) as (u2 & E2 & F1 & F2 & F3 & F4 & F5).
    rewrite E in E2. injection E2 as _ ->. split; [|done]. split_and!; try done. apply F5, Hi.
Qed.

Lemma copies_same ram broadcast d dport addr sport hl pcb l p changed (st : ip P) u p' c' st' u' :
  copies ram broadcast d dport addr sport hl pcb l p changed st u = (p', c', st', u') -> same_blocks u u'.
Proof.
  revert p changed st u. induction l as [|[a m] l IH]; intros p changed st u E; cbn [copies] in E.
  { by injection E as _ _ _ <-. }
  destruct (if negb (a =? pcb) && shares broadcast d dport m then recv m else None); [|by apply IH in E].
  destruct (alloc_ram ram _ _ st) as [[q|] st1]; [|by apply IH in E].
  destruct (pbuf_copy q _); [|by apply IH in E]. apply IH in E. exact E.
Qed.

Lemma hand_over_same ram broadcast sport dport hl a p (st : ip P) u st' u' :
  hand_over ram broadcast sport dport hl a p st u = Some (st', u') -> same_blocks u u'.
Proof.
  unfold hand_over. destruct (pcbs u !! a) as [b|]; [|done]. cbn [mbind option_bind].
  destruct ((_ || _) && _).
  - destruct (active u) as [l|]; [|done]. cbn [mbind option_bind].
    destruct (copies _ _ _ _ _ _ _ _ _ _ _ _ _) as [[[p1 c1] st1] u1] eqn:Ec. cbn [mbind option_bind].
    apply copies_same in Ec. intros E. destruct (recv b); injection E as _ <-; exact Ec.
  - cbn [mbind option_bind]. intros E. destruct (recv b); injection E as _ <-; unfold same_blocks; done.
Qed.

Lemma udp_input_same output_err frag_ram frag_ref ram stale dhcp_pcb p inp (st : ip P) u st' u' :
  inv u -> udp_input output_err frag_ram frag_ref ram stale dhcp_pcb p inp st u = Some (st', u') -> same_blocks u u'.
Proof.
  intros Hi. unfold udp_input. destruct (_ <? _); [by intros [= _ <-]|].
  destruct (pbuf_header p _) as [p1|]; [|by intros [= _ <-]].
  destruct (demux _ _ _ _ _ _ _) as [[pcb u1]|] eqn:Ed; [|done]. cbn [mbind option_bind].
  apply demux_same in Ed as [Hs _]; [|done].
  assert (Hdrop : forall p st st', drop_udp p st u1 = Some (st', u') -> same_blocks u u') by (by intros ? ? ? [= _ <-]).
  destruct pcb as [a|].
  - destruct (_ && _); [apply Hdrop|]. destruct (pbuf_header p1 _) as [p2|]; [|apply Hdrop].
    intros E. by apply (same_blocks_trans u u1), (hand_over_same _ _ _ _ _ _ _ _ _ _ _ E).
  - destruct (_ =? _); [|apply Hdrop]. destruct (_ && _); [apply Hdrop|].
    destruct (pbuf_header p1 _) as [p2|]; [|apply Hdrop].
    destruct (_ && _); [|apply Hdrop]. destruct (Icmp.icmp_dest_unreach _ _ _ _ _ _ _); [apply Hdrop|done].
Qed.

Lemma udp_sendto_if_inv output_err frag_ram frag_ref ram a p dst port n (st : ip P) u err st' u' :
  inv u -> udp_sendto_if output_err frag_ram frag_ref ram a p dst port n st u = Some (err, st', u') -> inv u'.
Proof.
  intros Hi. unfold udp_sendto_if. destruct (pcbs u !! a) as [b|] eqn:Ha; [|done]. cbn [mbind option_bind].
  assert (Hb : exists e u1, (if local_port b =? 0 then udp_bind a (local_ip b) (local_port b) u else Some (ERR_OK, u)) = Some (e, u1) /\ inv u1).
  { destruct (local_port b =? 0); [|by exists ERR_OK, u].
    destruct (udp_bind_spec u a b (local_ip b) (local_port b) Hi Ha) as (e & u1 & -> & I1 & _). by exists e, u1. }
  destruct Hb as (e & u1 & -> & I1). cbn [mbind option_bind]. destruct (negb _); [by intros [= _ _ <-]|].
  destruct (pcbs u1 !! a) as [b1|]; [|done]. cbn [mbind option_bind].
  destruct (pbuf_header p UDP_HLEN) as [q|].
  - destruct (send_header _ _ _ _ _ _ _ _ _ _) as [[e2 st2]|]; [|done]. by intros [= _ _ <-].
  - destruct (alloc_ram _ _ _ st) as [[hd|] st1]; [|by intros [= _ _ <-]].
    destruct (send_header _ _ _ _ _ _ _ _ _ _) as [[e2 st2]|]; [|done]. by intros [= _ _ <-].
Qed.

(** One packet in or out. *)
Inductive packet_step (u u' : udp) : Prop :=
  | Input output_err frag_ram frag_ref ram stale dhcp_pcb p inp (st st' : ip P) :
      udp_input output_err frag_ram frag_ref ram stale dhcp_pcb p inp st u = Some (st', u') -> packet_step u u'
  | SendToIf output_err frag_ram frag_ref ram a p dst port n (st st' : ip P) err :
      udp_sendto_if output_err frag_ram frag_ref ram a p dst port n st u = Some (err, st', u') -> packet_step u u'
  | SendTo output_err frag_ram frag_ref ram a p dst port (st st' : ip P) err :
      udp_sendto output_err frag_ram frag_ref ram a p dst port st u = Some (err, st', u') -> packet_step u u'
  | Send output_err frag_ram frag_ref ram a p (st st' : ip P) err :
      udp_send output_err frag_ram frag_ref ram a p st u = Some (err, st', u') -> packet_step u u'.

Lemma sendto_inv output_err frag_ram frag_ref ram store a p dst port (st : ip P) u err st' u' :
  inv u -> (forall x u1, store x u = Some u1 -> inv u1) ->
  sendto output_err frag_ram frag_ref ram store a p dst port st u = Some (err, st', u') -> inv u'.
Proof.
  intros Hi Hst. unfold sendto. destruct (pcbs u !! a) as [b|]; [|done]. cbn [mbind option_bind].
  destruct (ip_route _ st) as [n|]; [|by intros [= _ _ <-]].
  destruct (dst =? IPADDR_BROADCAST); [|by apply udp_sendto_if_inv].
  destruct (store _ u) as [u1|] eqn:Es; [|done]. cbn [mbind option_bind]. apply udp_sendto_if_inv. by apply (Hst _ _ Es).
Qed.

Lemma packet_step_inv u u' : inv u -> packet_step u u' -> inv u'.
Proof.
  intros Hi [? ? ? ? ? ? ? ? ? ? E|? ? ? ? ? ? ? ? ? ? ? ? E|? ? ? ? ? ? ? ? ? ? ? E|? ? ? ? ? ? ? ? ? E].
  - by apply (same_blocks_inv u), (udp_input_same _ _ _ _ _ _ _ _ _ _ _ _ Hi E).
  - by apply (udp_sendto_if_inv _ _ _ _ _ _ _ _ _ _ _ _ _ _ Hi E).
  - apply (sendto_inv _ _ _ _ _ _ _ _ _ _ _ _ _ _ Hi) in E; [done|]. by intros x u1 [= <-].
  - unfold udp_send in E. destruct (pcbs u !! a) as [b|] eqn:Ha; [|done]. cbn [mbind option_bind] in E.
    apply (sendto_inv _ _ _ _ _ _ _ _ _ _ _ _ _ _ Hi) in E; [done|]. intros x u1. rewrite Ha. cbn [mbind option_bind].
    intros [= <-]. by apply (keep_inv u a b).
Qed.

(** ** Sequences of calls *)

Inductive call :=
  | New
  | Bind (pcb ipaddr port : Z)
  | Connect (pcb ipaddr port : Z)
  | Disconnect (pcb : Z)
  | Receive (pcb : Z) (f : option Z)
  | SetOption (pcb opt : Z)
  | Remove (pcb : Z).

(** The block of a call is allocated. *)
Definition call_live (c : call) (u : udp) : Prop :=
  match c with
  | New => True
  | Bind a _ _ | Connect a _ _ | Disconnect a | Receive a _ | SetOption a _ | Remove a => is_Some (pcbs u !! a)
  end.
Definition run_call (c : call) (u : udp) : option udp :=
  match c with
  | New => snd <$> udp_new u
  | Bind a ip port => snd <$> udp_bind a ip port u
  | Connect a ip port => snd <$> udp_connect a ip port u
  | Disconnect a => udp_disconnect a u
  | Receive a f => udp_recv a f u
  | SetOption a opt => ip_set_option a opt u
  | Remove a => udp_remove a u
  end.

Inductive reachable : udp -> Prop :=
  | reach_init m : holds m [] -> reachable (mkUdp UDP_LOCAL_PORT_RANGE_START ∅ [] m [])
  | reach_step c u u' : reachable u -> call_live c u -> run_call c u = Some u' -> reachable u'
  | reach_packet u u' : reachable u -> packet_step u u' -> reachable u'.

Lemma option_kept p opt : ip_get_option p SOF_REUSEADDR = true ->
  ip_get_option (set_options (Z.lor (so_options p) opt) p) SOF_REUSEADDR = true.
Proof.
  unfold ip_get_option, SOF_REUSEADDR. cbn [set_options so_options]. change 4 with (2 ^ 2).
  rewrite !land_bit, Z.lor_spec by lia. by destruct (Z.testbit (so_options p) 2).
Qed.

Lemma udp_connect_inv u a p ip port :
  inv u -> pcbs u !! a = Some p -> exists err u', udp_connect a ip port u = Some (err, u') /\ inv u'.
Proof.
  intros Hi Ha. unfold udp_connect. rewrite Ha. cbn [mbind option_bind].
  assert (Hb : exists err u1 p1, (if local_port p =? 0 then udp_bind a (local_ip p) (local_port p) u else Some (ERR_OK, u)) = Some (err, u1) /\
     inv u1 /\ (err = ERR_OK -> pcbs u1 !! a = Some p1 /\ local_port p1 <> 0)).
  { destruct (Z.eqb_spec (local_port p) 0) as [Hz|Hz].
    - destruct (udp_bind_spec u a p (local_ip p) (local_port p) Hi Ha) as (err & u' & E & I' & Hcase).
      destruct Hcase as [(-> & -> & _)|(-> & x & Ex & Hx & _)].
      + exists ERR_USE, u, p. split; [done|]. split; [done|]. discriminate.
      + exists ERR_OK, u', (set_local (local_ip p) x p). split; [done|]. split; [done|].
        intros _. rewrite Ex, lookup_insert_eq. by split.
    - exists ERR_OK, u, p. done. }
  destruct Hb as (err & u1 & p1 & -> & I1 & Hok). cbn [mbind option_bind].
  destruct (Z.eqb_spec err ERR_OK) as [->|Hne]; cbn [negb]; [|by exists err, u1].
  destruct (Hok eq_refl) as [Hp1 Hz1]. rewrite Hp1. cbn [mbind option_bind].
  exists ERR_OK. eexists. split; [done|].
  rewrite bool_decide_eq_true_2.
  - by apply (keep_inv u1 a p1).
  - cbn [with_pcb udp_pcbs]. apply (i_list _ I1). by exists p1.
Qed.

Lemma udp_remove_inv u a p :
  inv u -> pcbs u !! a = Some p -> exists u', udp_remove a u = Some u' /\ inv u'.
Proof.
  intros [I1 I2 I3 I4 I5] Ha. unfold udp_remove. rewrite Ha. cbn [mbind option_bind].
  pose proof (holds_perm _ _ _ (keys_delete (pcbs u) a p Ha) I4) as I4'.
  destruct (release_ok (pool u) [] a (keys (delete a (pcbs u))) I4') as (m & Em & Hm). rewrite Em. cbn [mbind option_bind].
  eexists. split; [done|]. split; cbn [udp_pcbs pcbs udp_port pool]; try done.
  - by apply NoDup_filter.
  - intros b. rewrite list_elem_of_filter, I2. destruct (decide (b = a)) as [->|Hb].
    + rewrite lookup_delete_eq. split; [by intros [? _]|by intros (q & ? & _)].
    + rewrite lookup_delete_ne by done. tauto.
  - intros b c q1 q2 Hbc Hb Hc. apply lookup_delete_Some in Hb as [_ Hb]. apply lookup_delete_Some in Hc as [_ Hc].
    by apply (I5 b c).
Qed.

Lemma udp_new_inv u : inv u -> exists r u', udp_new u = Some (r, u') /\ inv u'.
Proof.
  intros [I1 I2 I3 I4 I5]. unfold udp_new. pose proof (alloc_new (pool u) _ I4) as Hal.
  destruct (alloc (pool u)) as [[a m]|]; [|by exists None, u]. destruct Hal as [Hn Hm].
  assert (Ha : pcbs u !! a = None).
  { destruct (pcbs u !! a) eqn:E; [|done]. exfalso. apply Hn, elem_of_keys. by eexists. }
  do 2 eexists. split; [done|]. split; cbn [udp_pcbs pcbs udp_port pool]; try done.
  - intros b. rewrite I2. destruct (decide (b = a)) as [->|Hb].
    + rewrite lookup_insert_eq, Ha. split; [by intros (q & ? & _)|]. intros (q & [= <-] & Hq). done.
    + by rewrite lookup_insert_ne.
  - eapply holds_perm; [|exact Hm]. symmetry. by apply keys_insert_new.
  - intros b c q1 q2 Hbc. destruct (decide (b = a)) as [->|Hb].
    + rewrite lookup_insert_eq. intros [= <-] _ Hz. done.
    + rewrite (lookup_insert_ne _ a b) by done. destruct (decide (c = a)) as [->|Hc].
      * rewrite lookup_insert_eq. intros Hq1 [= <-] Hp1. unfold overlap. cbn [local_port].
        rewrite (proj2 (Z.eqb_neq 0 (local_port q1))) by done. by rewrite andb_false_r.
      * rewrite lookup_insert_ne by done. by apply I5.
Qed.

Lemma run_call_inv c u : inv u -> call_live c u -> exists u', run_call c u = Some u' /\ inv u'.
Proof.
  intros Hi Hl. destruct c as [|a ip port|a ip port|a|a f|a o|a]; cbn [call_live run_call] in *.
  - destruct (udp_new_inv u Hi) as (r & u' & -> & ?). by exists u'.
  - destruct Hl as [p Hp]. destruct (udp_bind_spec u a p ip port Hi Hp) as (e & u' & -> & ? & _). by exists u'.
  - destruct Hl as [p Hp]. destruct (udp_connect_inv u a p ip port Hi Hp) as (e & u' & -> & ?). by exists u'.
  - destruct Hl as [p Hp]. unfold udp_disconnect. rewrite Hp. eexists. split; [done|]. by apply (keep_inv u a p).
  - destruct Hl as [p Hp]. unfold udp_recv. rewrite Hp. eexists. split; [done|]. by apply (keep_inv u a p).
  - destruct Hl as [p Hp]. unfold ip_set_option. rewrite Hp. eexists. split; [done|].
    apply (keep_inv u a p); try done. apply option_kept.
  - destruct Hl as [p Hp]. by apply (udp_remove_inv u a p).
Qed.

Lemma reachable_inv u : reachable u -> inv u.
Proof.
  induction 1 as [m Hm|c u u' _ IH Hl E|u u' _ IH Hs]; [| |by apply (packet_step_inv u)].
  - split; cbn [udp_pcbs pcbs udp_port pool].
    + apply NoDup_nil_2.
    + intros a. split; [by intros ?%not_elem_of_nil|]. intros (p & Hp & _). by rewrite lookup_empty in Hp.
    + done.
    + unfold keys. by rewrite map_to_list_empty.
    + intros a b p q _ Hp. by rewrite lookup_empty in Hp.
  - destruct (run_call_inv c u IH Hl) as (u2 & E2 & ?). congruence.
Qed.

(** C11: After any sequence of calls and packets two blocks with ports have different ports or
    different addresses that are not [IP_ADDR_ANY], unless one of them allows
    others; every call on an allocated block goes through, and [udp_bind] refuses
    a port only when it would be shared, and finds a free one of the range
    when it is asked for any. *)
Theorem udp_ports_exclusive u :
  reachable u ->
  (forall a b p q, a <> b -> pcbs u !! a = Some p -> pcbs u !! b = Some q ->
     local_port p <> 0 -> local_port p = local_port q ->
     ip_get_option p SOF_REUSEADDR = false -> ip_get_option q SOF_REUSEADDR = false ->
     local_ip p <> IPADDR_ANY /\ local_ip q <> IPADDR_ANY /\ local_ip p <> local_ip q) /\
  (forall c, call_live c u -> exists u', run_call c u = Some u' /\ reachable u') /\
  (forall a p ip port, pcbs u !! a = Some p ->
     exists err u', udp_bind a ip port u = Some (err, u') /\
       ((err = ERR_USE /\ u' = u /\ exists b q, b ∈ udp_pcbs u /\ b <> a /\ pcbs u !! b = Some q /\
           local_port q = port /\ (local_ip q = IPADDR_ANY \/ ip = IPADDR_ANY \/ local_ip q = ip)) \/
        (err = ERR_OK /\ exists x, pcbs u' !! a = Some (set_local ip x p) /\ (port <> 0 -> x = port) /\
           (port = 0 -> in_range x /\ forall b q, b ∈ udp_pcbs u -> pcbs u !! b = Some q -> local_port q <> x)))).
Proof.
  intros Hr. pose proof (reachable_inv u Hr) as Hi. split; [|split].
  - intros a b p q Hab Ha Hb Hz Hp Ho1 Ho2. pose proof (i_unique _ Hi a b p q Hab Ha Hb Hz) as Hov.
    unfold overlap in Hov. rewrite Ho1, Ho2, Hp, Z.eqb_refl in Hov. cbn [negb andb] in Hov.
    apply orb_false_iff in Hov as [Hov H3]. apply orb_false_iff in Hov as [H1 H2].
    unfold ip_addr_isany in H1, H2. apply Z.eqb_neq in H3. 
    split_and!; [intros E; rewrite E in H2; done|intros E; rewrite E in H1; done|congruence].
  - intros c Hl. destruct (run_call_inv c u Hi Hl) as (u' & E & _). exists u'. split; [done|]. by apply (reach_step c u).
  - intros a p ip port Ha. destruct (udp_bind_spec u a p ip port Hi Ha) as (err & u' & E & _ & Hcase).
    exists err, u'. split; [done|]. destruct Hcase as [(-> & -> & b & q & Hb & Hne & Hq & Ho)|(-> & x & Ex & _ & H1 & H2)].
    + left. split; [done|]. split; [done|]. exists b, q. unfold overlap in Ho. cbn [set_local local_port local_ip] in Ho.
      apply andb_true_iff in Ho as [_ Ho]. apply andb_true_iff in Ho as [Hp Ho]. apply Z.eqb_eq in Hp.
      split_and!; try done. apply orb_true_iff in Ho as [Ho|Ho]; [apply orb_true_iff in Ho as [Ho|Ho]|].
      * left. by apply Z.eqb_eq in Ho.
      * right. left. by apply Z.eqb_eq in Ho.
      * right. right. by apply Z.eqb_eq in Ho.
    + right. split; [done|]. exists x. rewrite Ex, lookup_insert_eq. done.
Qed.

(** ** Headers and checksums *)

Record udp_hdr_ok (h : udp_hdr) : Prop := {
  uh_src : in_u16 (src h); uh_dest : in_u16 (dest h); uh_len : in_u16 (len h); uh_chksum : in_u16 (chksum h)
}.
Lemma length_udp_hdr_bytes h : length (udp_hdr_bytes h) = 8%nat.
Proof. done. Qed.
Lemma udp_hdr_bytes_bytes h : bytes (udp_hdr_bytes h).
Proof. unfold udp_hdr_bytes. repeat apply Forall_app_2; apply bytes16_bytes. Qed.
Lemma udp_hdr_of_bytes h l : udp_hdr_ok h -> udp_hdr_of (udp_hdr_bytes h ++ l) = h.
Proof.
  intros [? ? ? ?]. destruct h as [s d n c]. cbn in *. unfold udp_hdr_of, udp_hdr_bytes, bytes16, get16.
  cbn [src dest len chksum app nth]. by rewrite !get_bytes16.
Qed.

Lemma pseudo_data q s d n :
  bytes (data q) -> Z.of_nat (length (data q)) <= 65535 -> in_u32 s -> in_u32 d -> in_u16 n ->
  inet_chksum_pseudo (segments q) s d IP_PROTO_UDP n = inet_chksum 0 (pseudo_header s d IP_PROTO_UDP n ++ data q).
Proof.
  intros Hb Hl Hs Hd Hn.
  destruct (inet_chksum_pseudo_correct (segments q) s d IP_PROTO_UDP n 0 0) as [-> _]; try done.
  - by apply seg_ok_segments.
  - by rewrite chain_data_segments.
  - by rewrite chain_data_segments.
Qed.

(** The checksum of [send_header]. *)
Definition udp_chksum (h : udp_hdr) (D : list Z) (s d : Z) : Z :=
  let c := inet_chksum 0 (pseudo_header s d IP_PROTO_UDP (8 + Z.of_nat (length D)) ++
                          udp_hdr_bytes (mkUdpHdr (src h) (dest h) (len h) 0) ++ D) in
  if c =? 0 then 0xffff else c.

Lemma pseudo_header_bytes s d n : in_u16 n -> bytes (pseudo_header s d IP_PROTO_UDP n).
Proof.
  intros Hn. unfold pseudo_header. repeat apply Forall_app_2;
    repeat (apply Forall_cons_2 || apply Forall_nil_2); try apply u8_range; try done. zlia.
Qed.

Lemma udp_chksum_verifies h D s d :
  bytes D -> Z.of_nat (length D) <= 64900 ->
  inet_chksum 0 (pseudo_header s d IP_PROTO_UDP (8 + Z.of_nat (length D)) ++
                 udp_hdr_bytes (mkUdpHdr (src h) (dest h) (len h) (udp_chksum h D s d)) ++ D) = 0.
Proof.
  intros HD Hl. set (pre := pseudo_header s d IP_PROTO_UDP (8 + Z.of_nat (length D)) ++
                              bytes16 (src h) ++ bytes16 (dest h) ++ bytes16 (len h)).
  assert (Hpre : bytes pre).
  { apply Forall_app_2; [apply pseudo_header_bytes; unfold in_u16; lia|].
    repeat apply Forall_app_2; apply bytes16_bytes. }
  assert (E : forall c, pseudo_header s d IP_PROTO_UDP (8 + Z.of_nat (length D)) ++
      udp_hdr_bytes (mkUdpHdr (src h) (dest h) (len h) c) ++ D = pre ++ bytes16 c ++ D).
  { intros c. unfold pre, udp_hdr_bytes. cbn [src dest len chksum]. by rewrite <- !app_assoc. }
  unfold udp_chksum. rewrite !E. change (bytes16 0) with [0; 0].
  apply (chksum_field_verifies 0 0 pre D); try done. change (length pre) with 18%nat. lia.
Qed.

(** ** Input *)

(** A datagram [D] with the header [uh] in a packet with the header [h]. *)
Record udp_datagram (h : ip_hdr) (p : pbuf) (uh : udp_hdr) (D : list Z) : Prop := {
  ud_hdr : ip_hdr_at p = Some h;
  ud_hl : IPH_HL h * 4 = IP_HLEN;
  ud_ok : hdr_ok h;
  ud_uh : udp_hdr_ok uh;
  ud_bytes : bytes D;
  ud_data : data p = ip_hdr_bytes h ++ udp_hdr_bytes uh ++ D;
  ud_size : Z.of_nat (length (data p)) <= 65535;
  ud_first : 28 <= plen p
}.
(** The sender left the checksum out, or it verifies. *)
Definition chksum_good (h : ip_hdr) (uh : udp_hdr) (D : list Z) : bool :=
  (chksum uh =? 0) ||
  (inet_chksum 0 (pseudo_header (Packet.src h) (Packet.dest h) IP_PROTO_UDP (8 + Z.of_nat (length D)) ++
                  udp_hdr_bytes uh ++ D) =? 0).

(** What [udp_input] does once the headers are read. *)
Lemma udp_input_spec output_err frag_ram frag_ref ram stale dhcp_pcb h p uh D inp (st : ip P) u :
  udp_datagram h p uh D -> current_iphdr_src st = Packet.src h -> current_iphdr_dest st = Packet.dest h ->
  exists p1 p2, pbuf_header p2 28 = Some p /\ data p1 = udp_hdr_bytes uh ++ D /\ data p2 = D /\
    let d := Packet.dest h in
    let broadcast := ip_addr_isbroadcast d inp in
    let sport := lwip_ntohs (src uh) in
    let dport := lwip_ntohs (dest uh) in
    udp_input output_err frag_ram frag_ref ram stale dhcp_pcb p inp st u =
      ('(pcb, u) ← demux dhcp_pcb broadcast sport dport inp st u;
       match pcb, ip_addr inp =? d with
       | None, false => drop_udp p1 st u
       | _, _ =>
           if chksum_good h uh D then
             match pcb with
             | Some a => hand_over ram broadcast sport dport 28 a p2 st u
             | None =>
                 if negb broadcast && negb (ip_addr_ismulticast d) then
                   st ← Icmp.icmp_dest_unreach output_err frag_ram frag_ref ram stale p Icmp.ICMP_DUR_PORT st;
                   drop_udp p st u
                 else drop_udp p2 st u
             end
           else drop_udp p1 st u
       end).
Proof.
  intros [Hh Hl Hok Huh Hb Hd Hsz Hf] Hs Hdd.
  assert (Htot : tot_len p = Z.of_nat (length (data p))) by (unfold tot_len; apply u16_small; unfold in_u16; lia).
  assert (Hlen : Z.of_nat (length (data p)) = 28 + Z.of_nat (length D)).
  { rewrite Hd, !length_app, length_ip_hdr_bytes, length_udp_hdr_bytes. lia. }
  assert (Ehdr : ip_hdr_of (first p ++ stale) = h).
  { unfold ip_hdr_at in Hh. destruct (IP_HLEN <=? plen p); [|done]. injection Hh as <-. unfold plen in Hf.
    rewrite (IpFrag.ip_hdr_of_take (first p ++ stale)) by (rewrite length_app; lia).
    rewrite take_app_le by lia. symmetry. apply IpFrag.ip_hdr_of_take. lia. }
  destruct (pbuf_strip p 20) as (p1 & E1 & D1 & F1 & _); [lia|]. change (Z.to_nat 20) with 20%nat in *.
  assert (D1' : data p1 = udp_hdr_bytes uh ++ D) by (by rewrite D1, Hd, drop_app_length' by done).
  assert (F1l : plen p1 = plen p - 20) by (unfold plen in *; rewrite F1, length_drop; lia).
  destruct (pbuf_strip p1 8) as (p2 & E2 & D2 & _); [lia|]. change (Z.to_nat 8) with 8%nat in *.
  assert (E12 : pbuf_header p2 28 = Some p).
  { pose proof (pbuf_header_twice p 20 8 p1 p2 ltac:(lia) ltac:(lia) E1 E2) as E.
    apply pbuf_header_inv in E. exact E. }
  exists p1, p2. split; [done|]. split; [done|].
  split; [by rewrite D2, D1', drop_app_length' by done|]. cbn zeta.
  unfold udp_input. rewrite Ehdr, Hl, Htot. unfold IP_HLEN, UDP_HLEN.
  destruct (Z.ltb_spec (Z.of_nat (length (data p))) (20 + 8)); [lia|].
  change (Z.opp 20) with (-20) in *. change (- (20)) with (-20). rewrite E1.
  assert (Euh : udp_hdr_of (first p1 ++ stale) = uh).
  { assert (E8 : take 8 (first p1 ++ stale) = udp_hdr_bytes uh).
    { unfold plen in F1l, Hf. rewrite take_app_le, <- first_data, D1' by lia. by apply take_app_length'. }
    rewrite <- (take_drop 8 (first p1 ++ stale)), E8. by apply udp_hdr_of_bytes. }
  rewrite Euh, Hdd. destruct (demux _ _ _ _ _ _ _) as [[pcb u1]|]; [|done]. cbn [mbind option_bind].
  assert (Ht1 : tot_len p1 = 8 + Z.of_nat (length D)).
  { unfold tot_len. rewrite D1', length_app, length_udp_hdr_bytes, u16_small; unfold in_u16; lia. }
  assert (Ec : negb (chksum uh =? 0) && negb (inet_chksum_pseudo (segments p1) (current_iphdr_src st) (Packet.dest h) IP_PROTO_UDP (tot_len p1) =? 0)
               = negb (chksum_good h uh D)).
  { rewrite Hs, Ht1, pseudo_data; rewrite ?D1'; try apply Hok.
    - unfold chksum_good. by rewrite negb_orb.
    - apply Forall_app_2; [apply udp_hdr_bytes_bytes|done].
    - rewrite length_app, length_udp_hdr_bytes. lia.
    - unfold in_u16. lia. }
  rewrite Ec. change (Z.opp 8) with (-8) in *. change (- (8)) with (-8). rewrite E2. change (20 + 8) with 28. rewrite E12. cbn [default].
  destruct pcb as [a|], (ip_addr inp =? Packet.dest h); try done; destruct (chksum_good h uh D); cbn [negb]; try done;
    destruct (negb (ip_addr_isbroadcast (Packet.dest h) inp) && negb (ip_addr_ismulticast (Packet.dest h))); try done;
    by destruct (Icmp.icmp_dest_unreach _ _ _ _ _ _ _).
Qed.

(** What becomes of a datagram. *)
Lemma udp_input_outcome output_err frag_ram frag_ref ram stale dhcp_pcb h p uh D inp (st : ip P) u l :
  reachable u -> active u = Some l ->
  udp_datagram h p uh D -> current_iphdr_src st = Packet.src h -> current_iphdr_dest st = Packet.dest h ->
  let d := Packet.dest h in
  let sport := lwip_ntohs (src uh) in
  let dport := lwip_ntohs (dest uh) in
  dport <> DHCP_CLIENT_PORT -> ip_addr_isbroadcast d inp = false -> ip_addr_ismulticast d = false ->
  let out := udp_input output_err frag_ram frag_ref ram stale dhcp_pcb p inp st u in
  match chosen false (Packet.src h) d sport dport inp l with
  | Some (a, b) =>
      exists q u', same_blocks u u' /\
        match recv b with
        | Some f =>
            if chksum_good h uh D
            then out = Some (st, u') /\ received u' = received u ++ [Recv f a q (Packet.src h) sport] /\ data q = D
            else out = Some (emit (Free q) st, u') /\ received u' = received u
        | None => out = Some (emit (Free q) st, u') /\ received u' = received u
        end
  | None =>
      if (ip_addr inp =? d) && chksum_good h uh D
      then out = (st ← Icmp.icmp_dest_unreach output_err frag_ram frag_ref ram stale p Icmp.ICMP_DUR_PORT st;
                  Some (emit (Free p) st, u))
      else exists q, out = Some (emit (Free q) st, u)
  end.
Proof.
  intros Hr Hl Hu Hs Hd d sport dport Hport Hnb Hnm out. pose proof (reachable_inv u Hr) as Hi.
  destruct (udp_input_spec output_err frag_ram frag_ref ram stale dhcp_pcb h p uh D inp st u Hu Hs Hd)
    as (p1 & p2 & _ & _ & D2 & E). cbn zeta in E. fold d sport dport out in E. rewrite Hnb, Hnm in E.
  unfold demux in E. rewrite (proj2 (Z.eqb_neq dport DHCP_CLIENT_PORT)), Hl in E by done. cbn [mbind option_bind] in E.
  rewrite Hs, Hd in E. fold d in E. rewrite find_pcb_spec in E. unfold chosen.
  assert (Hfound : forall a b u', (a, b) ∈ l -> same_blocks u u' -> received u' = received u ->
    out = (if chksum_good h uh D then hand_over ram false sport dport 28 a p2 st u' else drop_udp p1 st u') ->
    exists q u', same_blocks u u' /\
        match recv b with
        | Some f =>
            if chksum_good h uh D
            then out = Some (st, u') /\ received u' = received u ++ [Recv f a q (Packet.src h) sport] /\ data q = D
            else out = Some (emit (Free q) st, u') /\ received u' = received u
        | None => out = Some (emit (Free q) st, u') /\ received u' = received u
        end).
  { intros a b u' Hab Hsame Hrec ->. apply (active_elem u) in Hab as [_ Hab]; [|done].
    destruct (chksum_good h uh D); [|by exists p1, u'; destruct (recv b)].
    unfold hand_over. destruct Hsame as (Ep & ?). rewrite Ep, Hab. cbn [mbind option_bind].
    rewrite Hd, Hs. fold d. rewrite Hnm. cbn [orb andb mbind option_bind]. destruct (recv b) as [f|].
    - exists p2, (deliver_to (Recv f a p2 (Packet.src h) sport) u'). split; [by split|]. cbn. by rewrite Hrec.
    - exists p2, u'. by split. }
  destruct (List.find (perfect false (Packet.src h) d sport dport inp) l) as [[a b]|] eqn:Ef.
  - apply find_some in Ef as Hin. destruct Hin as [Hin%list_elem_of_In _]. cbn [fst mbind option_bind] in E.
    assert (Hdm : same_blocks u (with_list (to_front a (udp_pcbs u)) u)).
    { apply (demux_same dhcp_pcb false sport dport inp st u (Some a)); [done|]. unfold demux.
      rewrite (proj2 (Z.eqb_neq dport DHCP_CLIENT_PORT)), Hl by done. cbn [mbind option_bind].
      rewrite Hs, Hd. fold d. by rewrite find_pcb_spec, Ef. }
    by apply (Hfound a b _ Hin Hdm).
  - cbn [mbind option_bind] in E. destruct (List.find (loose false d dport inp) l) as [[a b]|] eqn:Eg; cbn in E.
    + apply find_some in Eg as Hin. destruct Hin as [Hin%list_elem_of_In _].
      by apply (Hfound a b u Hin (same_blocks_refl u)).
    + destruct (ip_addr inp =? d); cbn [andb]; [|by exists p1]. destruct (chksum_good h uh D); [exact E|by exists p1].
Qed.

(** C21: A datagram for a unicast address, and not for the port of the DHCP client,
    goes, as it was sent, to the receive function of the first block whose address
    and port match it completely, or else of the first unconnected one; one with a
    wrong checksum, or for a block without a receive function, is freed.  When no
    block takes it, its sender is told that the port is unreachable if the checksum
    is right and it is for the address of the incoming interface; otherwise it is
    freed.  The blocks stay as they are, but for their order. *)
Theorem udp_input_delivers output_err frag_ram frag_ref ram stale dhcp_pcb h p uh D inp (st : ip P) u l :
  reachable u -> active u = Some l ->
  udp_datagram h p uh D -> current_iphdr_src st = Packet.src h -> current_iphdr_dest st = Packet.dest h ->
  let d := Packet.dest h in
  let sport := lwip_ntohs (src uh) in
  let dport := lwip_ntohs (dest uh) in
  dport <> DHCP_CLIENT_PORT -> ip_addr_isbroadcast d inp = false -> ip_addr_ismulticast d = false ->
  let out := udp_input output_err frag_ram frag_ref ram stale dhcp_pcb p inp st u in
  match chosen false (Packet.src h) d sport dport inp l with
  | Some (a, b) =>
      exists q u', same_blocks u u' /\
        match recv b with
        | Some f =>
            if chksum_good h uh D
            then out = Some (st, u') /\ received u' = received u ++ [Recv f a q (Packet.src h) sport] /\ data q = D
            else out = Some (emit (Free q) st, u') /\ received u' = received u
        | None => out = Some (emit (Free q) st, u') /\ received u' = received u
        end
  | None =>
      if (ip_addr inp =? d) && chksum_good h uh D
      then out = (st ← Icmp.icmp_dest_unreach output_err frag_ram frag_ref ram stale p Icmp.ICMP_DUR_PORT st;
                  Some (emit (Free p) st, u))
      else exists q, out = Some (emit (Free q) st, u)
  end.
Proof. apply udp_input_outcome. Qed.

(** ** Output *)

(** A datagram that can be sent from the block [b] through [n]. *)
Record can_send (b : udp_pcb) (p : pbuf) (dst port : Z) (n : netif) : Prop := {
  cs_port : local_port b <> 0;
  cs_src : local_ip b = IPADDR_ANY \/ local_ip b = ip_addr n;
  cs_lport : in_u16 (local_port b); cs_rport : in_u16 port;
  cs_dst : in_u32 dst; cs_ip : in_u32 (ip_addr n); cs_ttl : in_u8 (ttl b); cs_tos : in_u8 (tos b);
  cs_bytes : bytes (data p);
  cs_size : Z.of_nat (length (data p)) <= 64900;
  cs_segs : segs p <> [];
  cs_room : (8 <= length (before p))%nat
}.

(** The datagram that is handed to the IP layer. *)
Lemma udp_sendto_if_spec output_err frag_ram frag_ref ram a b p dst port n (st : ip P) u :
  pcbs u !! a = Some b -> can_send b p dst port n ->
  exists q uh, udp_sendto_if output_err frag_ram frag_ref ram a p dst port n st u =
      ('(err, st) ← ip_output_if output_err frag_ram frag_ref q (ip_addr n) (Some dst) (ttl b) (tos b) IP_PROTO_UDP n st;
       Some (err, st, u)) /\
    data q = udp_hdr_bytes uh ++ data p /\ segs q <> [] /\ length (before q) = (length (before p) - 8)%nat /\
    udp_hdr_ok uh /\ lwip_ntohs (src uh) = local_port b /\ lwip_ntohs (dest uh) = port /\
    lwip_ntohs (len uh) = 8 + Z.of_nat (length (data p)) /\
    (chksum uh = 0 <-> Z.land (flags b) UDP_FLAGS_NOCHKSUM <> 0) /\
    (forall h, Packet.src h = ip_addr n -> Packet.dest h = dst -> chksum_good h uh (data p) = true).
Proof.
  intros Hb [C1 C2 C3 C4 C5 C6 C7 C8 C9 C10 C11 C12]. unfold udp_sendto_if. rewrite Hb. cbn [mbind option_bind].
  rewrite (proj2 (Z.eqb_neq (local_port b) 0)) by done. cbn [mbind option_bind]. change (negb (ERR_OK =? ERR_OK)) with false.
  cbn iota. rewrite Hb. cbn [mbind option_bind].
  destruct (ip_header_room p UDP_HLEN) as (q & -> & B2 & S2 & F2 & W2); [done|done|done|].
  change (Z.to_nat UDP_HLEN) with 8%nat in *. unfold send_header.
  assert (Hsrc : negb (ip_addr_isany (local_ip b)) && negb (local_ip b =? ip_addr n) = false).
  { destruct C2 as [-> | ->]; [done|]. rewrite Z.eqb_refl. by rewrite andb_false_r. }
  rewrite Hsrc. assert (Hs : (if ip_addr_isany (local_ip b) then ip_addr n else local_ip b) = ip_addr n).
  { destruct C2 as [-> | ->]; [done|]. by destruct (ip_addr_isany (ip_addr n)). }
  rewrite Hs.
  assert (Hw : forall h, data (write_first (udp_hdr_bytes h) q) = udp_hdr_bytes h ++ data p /\
                         before (write_first (udp_hdr_bytes h) q) = before q /\ segs (write_first (udp_hdr_bytes h) q) <> []).
  { intros h. destruct (W2 (udp_hdr_bytes h) (length_udp_hdr_bytes h)) as (E1 & _ & E2). split; [done|]. split; [done|].
    unfold write_first. by destruct (segs q). }
  assert (Ht : tot_len q = 8 + Z.of_nat (length (data p))).
  { pose proof (proj1 (Hw (mkUdpHdr 0 0 0 0))) as E. apply (f_equal length) in E. rewrite length_app, length_udp_hdr_bytes in E.
    unfold write_first, data in E. unfold tot_len, data, first in *. destruct (segs q) as [|s l]; [done|]. cbn [segs hd] in *.
    rewrite mjoin_cons, !length_app, length_udp_hdr_bytes, length_drop in *. rewrite u16_small; unfold in_u16; lia. }
  set (h0 := mkUdpHdr (lwip_htons (local_port b)) (lwip_htons port) (lwip_htons (tot_len q)) 0).
  assert (Ht0 : tot_len (write_first (udp_hdr_bytes h0) q) = 8 + Z.of_nat (length (data p))).
  { unfold tot_len. rewrite (proj1 (Hw h0)), length_app, length_udp_hdr_bytes, u16_small; unfold in_u16; lia. }
  rewrite Ht0, pseudo_data; rewrite ?(proj1 (Hw h0)); try done.
  2:{ apply Forall_app_2; [apply udp_hdr_bytes_bytes|done]. }
  2:{ rewrite length_app, length_udp_hdr_bytes. lia. }
  2:{ unfold in_u16. lia. }
  fold (udp_chksum h0 (data p) (ip_addr n) dst).
  match goal with |- context [mkUdpHdr (src h0) (dest h0) (len h0) ?x] => set (c := x) end.
  set (uh := mkUdpHdr (src h0) (dest h0) (len h0) c).
  exists (write_first (udp_hdr_bytes uh) q), uh. split.
  { destruct (ip_output_if _ _ _ _ _ _ _ _ _ _ _) as [[err st']|]; done. }
  destruct (Hw uh) as (E1 & E2 & E3). split; [done|]. split; [done|]. split; [by rewrite E2, B2|].
  assert (Hcr : in_u16 (udp_chksum h0 (data p) (ip_addr n) dst) /\ udp_chksum h0 (data p) (ip_addr n) dst <> 0).
  { unfold udp_chksum. match goal with |- context [inet_chksum 0 ?l] => pose proof (inet_chksum_range 0 l) as R end.
    destruct (Z.eqb_spec (inet_chksum 0 (pseudo_header (ip_addr n) dst IP_PROTO_UDP (8 + Z.of_nat (length (data p))) ++
      udp_hdr_bytes (mkUdpHdr (src h0) (dest h0) (len h0) 0) ++ data p)) 0); [by split|by split]. }
  assert (Hc : in_u16 c /\ (c = 0 <-> Z.land (flags b) UDP_FLAGS_NOCHKSUM <> 0)).
  { unfold c. destruct (Z.eqb_spec (Z.land (flags b) UDP_FLAGS_NOCHKSUM) 0); (split; [by apply Hcr || done|]); tauto. }
  split; [split; try apply htons_range; apply Hc|].
  split; [by apply htons_involutive|]. split; [by apply htons_involutive|].
  split; [unfold uh, h0; cbn [len]; rewrite Ht; apply htons_involutive; unfold in_u16; lia|].
  split; [apply Hc|]. intros h Eh1 Eh2. unfold chksum_good, uh, c. cbn [chksum]. rewrite Eh1, Eh2.
  destruct (Z.land (flags b) UDP_FLAGS_NOCHKSUM =? 0); [|done].
  apply orb_true_iff. right. apply Z.eqb_eq. apply (udp_chksum_verifies h0); [done|lia].
Qed.

End udp.
Arguments udp : clear implicits.

(** ** Instances *)

#[local] Existing Instance IpFrag.reass_pool.

Definition start_udp : udp Memp.memp :=
  mkUdp UDP_LOCAL_PORT_RANGE_START ∅ [] (Memp.memp_init [(5%nat, 32)] 4096) [].

(** Calls on blocks that are allocated. *)
Definition is_live (c : call) (u : udp Memp.memp) : bool :=
  match c with
  | New => true
  | Bind a _ _ | Connect a _ _ | Disconnect a | Receive a _ | SetOption a _ | Remove a =>
      bool_decide (is_Some (pcbs u !! a))
  end.
Fixpoint run_calls (l : list call) (u : udp Memp.memp) : option (udp Memp.memp) :=
  match l with
  | [] => Some u
  | c :: l => if is_live c u then u ← run_call c u; run_calls l u else None
  end.

Lemma few_sample_blocks : Z.of_nat (capacity Memp.memp) < 16384.
Proof. vm_compute. reflexivity. Qed.
Lemma start_reachable : reachable (P := Memp.memp) start_udp.
Proof.
  apply reach_init. exists [[]]. split; [|done].
  apply (Memp.memp_init_inv [(5%nat, 32)] 4096); [lia|repeat constructor].
Qed.
Lemma run_reachable l u u' :
  reachable (P := Memp.memp) u -> run_calls l u = Some u' -> reachable (P := Memp.memp) u'.
Proof.
  revert u. induction l as [|c l IH]; intros u Hr E; cbn [run_calls] in E; [by injection E as <-|].
  destruct (is_live c u) eqn:El; [|done]. destruct (run_call c u) as [u1|] eqn:E1; [|done].
  apply (IH u1); [|exact E]. apply (reach_step c u); [done| |done].
  destruct c; cbn in *; try done; by apply bool_decide_eq_true in El.
Qed.

(** Two blocks on one port, with different addresses; the second has a receive
    function. *)
Definition sample_calls : list call :=
  [New; New; Bind 4224 0x0100000a 1200; Bind 4192 0x0200000a 1200; Receive 4192 (Some 7)].
Definition sample_udp : udp Memp.memp := default start_udp (run_calls sample_calls start_udp).

Lemma sample_reachable : reachable (P := Memp.memp) sample_udp.
Proof. apply (run_reachable sample_calls start_udp); [apply start_reachable|vm_compute; reflexivity]. Qed.

Lemma udp_ports_exclusive_witness :
  (exists p q, pcbs sample_udp !! 4224 = Some p /\ pcbs sample_udp !! 4192 = Some q /\
     local_port p = 1200 /\ local_port q = 1200 /\ local_ip p <> local_ip q) /\
  (exists u', udp_bind 4224 0x0200000a 1200 sample_udp = Some (ERR_USE, u')) /\
  exists u', udp_bind 4224 0x0200000a 0 sample_udp = Some (ERR_OK, u') /\ reachable (P := Memp.memp) u'.
Proof.
  destruct (udp_ports_exclusive few_sample_blocks sample_udp sample_reachable) as (Hex & Hlive & Hbind).
  assert (H1 : is_Some (pcbs sample_udp !! 4224)) by (vm_compute; by eexists).
  assert (H2 : is_Some (pcbs sample_udp !! 4192)) by (vm_compute; by eexists).
  destruct H1 as [p Hp], H2 as [q Hq]. split; [|split].
  - exists p, q. split; [done|]. split; [done|].
    assert (Hpp : Some p = Some (default p (pcbs sample_udp !! 4224))) by (by rewrite Hp).
    assert (Hqq : Some q = Some (default q (pcbs sample_udp !! 4192))) by (by rewrite Hq).
    vm_compute in Hpp, Hqq. injection Hpp as Ep. injection Hqq as Eq.
    assert (F : local_port p = 1200 /\ local_port q = 1200) by (by rewrite Ep, Eq). split; [apply F|]. split; [apply F|].
    apply (Hex 4224 4192 p q); try done; try (by rewrite Ep, Eq); by rewrite ?Ep, ?Eq.
  - eexists. vm_compute. reflexivity.
  - destruct (Hlive (Bind 4224 0x0200000a 0)) as (u' & E & Hr); [by exists p|].
    exists u'. split; [|done]. destruct (Hbind 4224 p 0x0200000a 0 Hp) as (err & u2 & E2 & Hcase).
    cbn [run_call] in E. rewrite E2 in E. injection E as ->. rewrite E2.
    destruct Hcase as [(_ & _ & b & r & Hb & _ & Hr2 & Hz & _)|[-> _]]; [exfalso|done].
    apply (i_list _ (reachable_inv few_sample_blocks _ sample_reachable)) in Hb as (r2 & E3 & Hn). congruence.
Defined.

(** *** A datagram *)

Definition sample_udp_hdr : udp_hdr := mkUdpHdr (lwip_htons 1000) (lwip_htons 1200) (lwip_htons 8) 0.
Definition sample_ip_hdr : ip_hdr := with_chksum (mkIpHdr 0x45 0 (lwip_htons 31) 0 0 64 17 0 0x0300000a 0x0200000a).
Definition sample_datagram : pbuf := mkPbuf [] [ip_hdr_bytes sample_ip_hdr ++ udp_hdr_bytes sample_udp_hdr ++ [1; 2; 3]].
Definition sample_st : ip Memp.memp := with_addrs 0x0300000a 0x0200000a (sample_host 0x0200000a).

Lemma sample_is_datagram : udp_datagram sample_ip_hdr sample_datagram sample_udp_hdr [1; 2; 3].
Proof.
  split; try (vm_compute; reflexivity); try (vm_compute; discriminate).
  - split; vm_compute; split; done.
  - split; vm_compute; split; done.
  - solve_bytes.
Qed.

Lemma udp_input_delivers_witness :
  exists q u', udp_input (fun _ => 0) (fun _ _ => true) (fun _ _ => true) (fun _ => true) [] (fun _ => None)
      sample_datagram (sample_if 0x0200000a) sample_st sample_udp = Some (sample_st, u') /\
    received u' = received sample_udp ++ [Recv 7 4192 q 0x0300000a 1000] /\ data q = [1; 2; 3].
Proof.
  destruct (active_total sample_udp (reachable_inv few_sample_blocks _ sample_reachable)) as [l Hl].
  pose proof (udp_input_delivers few_sample_blocks (fun _ => 0) (fun _ _ => true) (fun _ _ => true) (fun _ => true) []
    (fun _ => None) sample_ip_hdr sample_datagram sample_udp_hdr [1; 2; 3] (sample_if 0x0200000a) sample_st sample_udp l
    sample_reachable Hl sample_is_datagram eq_refl eq_refl ltac:(vm_compute; discriminate) eq_refl eq_refl) as H. cbn zeta in H.
  assert (El : Some l = active sample_udp) by done. vm_compute in El. injection El as ->.
  destruct H as (q & u' & _ & Hout & Hrec & Hd). exists q, u'. done.
Defined.

(** ** Behaviour that is not meant *)

(** The port of a block is taken by another one when only one of them has the flag
    [SOF_REUSEADDR]. *)
Example bind_one_reuse :
  exists u p q, run_calls [New; New; SetOption 4224 SOF_REUSEADDR; Bind 4224 0 1200; Bind 4192 0 1200] start_udp = Some u /\
    pcbs u !! 4224 = Some p /\ pcbs u !! 4192 = Some q /\ local_port p = 1200 /\ local_port q = 1200 /\
    ip_get_option q SOF_REUSEADDR = false.
Proof. do 3 eexists. split; [vm_compute; reflexivity|]. repeat (split; [vm_compute; reflexivity|]). vm_compute. reflexivity. Qed.

(** [udp_send] on a block that is connected to the broadcast address changes the
    address it is connected to. *)
Example send_changes_remote :
  exists st u p, udp_send (fun _ => 0) (fun _ _ => true) (fun _ _ => true) (fun _ => true) 4224 sample_packet
      (sample_host 0x0100000a)
      (default start_udp (run_calls [New; Connect 4224 IPADDR_BROADCAST 1200] start_udp)) = Some (ERR_OK, st, u) /\
    pcbs u !! 4224 = Some p /\ remote_ip p = 0xff00000a.
Proof. do 3 eexists. split; [vm_compute; reflexivity|]. split; vm_compute; reflexivity. Qed.

(** The length in the header of a datagram is not looked at: this one says that it
    has no data. *)
Example length_ignored :
  lwip_ntohs (len sample_udp_hdr) = 8 /\
  exists st u q, udp_input (fun _ => 0) (fun _ _ => true) (fun _ _ => true) (fun _ => true) [] (fun _ => None)
      sample_datagram (sample_if 0x0200000a) sample_st sample_udp = Some (st, u) /\
    received u = [Recv 7 4192 q 0x0300000a 1000] /\ data q = [1; 2; 3].
Proof. split; [done|]. do 3 eexists. split; [vm_compute; reflexivity|]. split; vm_compute; reflexivity. Qed.

End Udp.
