(* ===== verification/Raw.v ===== *)
(** * Raw protocol access (ip/lwip/core/raw.c)

    A raw control block hooks a receive function into the IP layer: [raw_input]
    offers a packet to the blocks of its protocol until one eats it, before the
    transport protocols see it.  All blocks are in the list [raw_pcbs].  Whether
    the function of a block eats the packet is its own decision, a parameter; a
    call is an entry of [offered]. *)

From stdpp Require Import gmap.
From S2P Require Import Prelude LwipDef InetChksum IpAddr Mem Memp Pbuf Packet IpFrag Ip.

#[local] Open Scope Z_scope.

Module Raw.
Import LwipDef InetChksum IpAddr Packet Ip.

Definition ERR_MEM : Z := -1.
Definition RAW_TTL : Z := 255.

Record raw_pcb := mkPcb {
  local_ip : Z; remote_ip : Z; so_options : Z; tos : Z; ttl : Z; protocol : Z; recv : option Z
}.

Definition set_local (ip : Z) (p : raw_pcb) : raw_pcb :=
  mkPcb ip (remote_ip p) (so_options p) (tos p) (ttl p) (protocol p) (recv p).
Definition set_remote (ip : Z) (p : raw_pcb) : raw_pcb :=
  mkPcb (local_ip p) ip (so_options p) (tos p) (ttl p) (protocol p) (recv p).
Definition set_recv (f : option Z) (p : raw_pcb) : raw_pcb :=
  mkPcb (local_ip p) (remote_ip p) (so_options p) (tos p) (ttl p) (protocol p) f.

(** A packet that was offered to the receive function of a block. *)
Record offer := mkOffer { o_recv : Z; o_pcb : Z; o_packet : pbuf; o_addr : Z }.

Section raw.
Context {P PU : Type} `{Pool P} `{Pool PU}.

(** The list with its blocks. *)
Record raw := mkRaw { raw_pcbs : list (Z * raw_pcb); pool : PU; offered : list offer }.

Definition with_pcb (a : Z) (f : raw_pcb -> raw_pcb) (r : raw) : option raw :=
  p ← List.find (fun x => x.1 =? a) (raw_pcbs r);
  Some (mkRaw ((fun x => if x.1 =? a then (a, f x.2) else x) <$> raw_pcbs r) (pool r) (offered r)).

Definition raw_bind (pcb ipaddr : Z) (r : raw) : option (Z * raw) :=
  r ← with_pcb pcb (set_local ipaddr) r; Some (ERR_OK, r).
Definition raw_connect (pcb ipaddr : Z) (r : raw) : option (Z * raw) :=
  r ← with_pcb pcb (set_remote ipaddr) r; Some (ERR_OK, r).
Definition raw_recv (pcb : Z) (f : option Z) (r : raw) : option raw := with_pcb pcb (set_recv f) r.

Definition raw_remove (pcb : Z) (r : raw) : option raw :=
  p ← List.find (fun x => x.1 =? pcb) (raw_pcbs r);
  m ← release (pool r) pcb;
  Some (mkRaw (filter (fun x => x.1 <> pcb) (raw_pcbs r)) m (offered r)).

Definition raw_new (proto : Z) (r : raw) : option Z * raw :=
  match alloc (pool r) with
  | Some (a, m) => (Some a, mkRaw ((a, mkPcb 0 0 0 0 RAW_TTL proto None) :: raw_pcbs r) m (offered r))
  | None => (None, r)
  end.

Section packets.
Variable output_err : nat -> Z.
Variables frag_ram frag_ref : nat -> nat -> bool.
Variable ram : nat -> bool.
(** What lies in memory behind the bytes of the first buffer. *)
Variable stale : list Z.
(** The decision of the function that is called: the calls before it and this one. *)
Variable eats : list offer -> offer -> bool.

(** The block takes packets of this protocol to [d]. *)
Definition covers (proto d : Z) (p : raw_pcb) : bool :=
  (protocol p =? proto) && (ip_addr_isany (local_ip p) || (local_ip p =? d)).

(** The walk over the blocks; [l1] are those behind. *)
Fixpoint offer_loop (proto s d : Z) (q : pbuf) (l1 l : list (Z * raw_pcb)) (calls : list offer)
    : bool * list (Z * raw_pcb) * list offer :=
  match l with
  | [] => (false, l1, calls)
  | (a, p) :: l =>
      match (if covers proto d p then recv p else None) with
      | Some f =>
          let o := mkOffer f a q s in
          if eats calls o then (true, (a, p) :: l1 ++ l, calls ++ [o])
          else offer_loop proto s d q (l1 ++ [(a, p)]) l (calls ++ [o])
      | None => offer_loop proto s d q (l1 ++ [(a, p)]) l calls
      end
  end.

Definition raw_input (q : pbuf) (inp : netif) (st : ip P) (r : raw) : bool * ip P * raw :=
  let proto := _proto (ip_hdr_of (first q ++ stale)) in
  let '(eaten, l, calls) :=
    offer_loop proto (current_iphdr_src st) (current_iphdr_dest st) q [] (raw_pcbs r) (offered r) in
  (eaten, st, mkRaw l (pool r) calls).

Definition raw_sendto (pcb : Z) (p : pbuf) (ipaddr : Z) (st : ip P) (r : raw) : option (Z * ip P) :=
  '(_, b) ← List.find (fun x => x.1 =? pcb) (raw_pcbs r);
  let send (q : pbuf) (own : option pbuf) (st : ip P) : option (Z * ip P) :=
    let free st := match own with Some h => emit (Free h) st | None => st end in
    match ip_route ipaddr st with
    | None => Some (ERR_RTE, free st)
    | Some n =>
        let src_ip := if ip_addr_isany (local_ip b) then ip_addr n else local_ip b in
        '(err, st) ← ip_output_if output_err frag_ram frag_ref q src_ip (Some ipaddr) (ttl b) (tos b) (protocol b) n st;
        Some (err, free st)
    end in
  match pbuf_header p IP_HLEN with
  | None =>
      match alloc_ram ram Pbuf.PBUF_IP 0 st with
      | (None, st) => Some (ERR_MEM, st)
      | (Some h, st) => send (if tot_len p =? 0 then h else pbuf_chain h p) (Some h) st
      end
  | Some q =>
      match pbuf_header q (- IP_HLEN) with
      | None => Some (ERR_MEM, st)
      | Some q => send q None st
      end
  end.

Definition raw_send (pcb : Z) (p : pbuf) (st : ip P) (r : raw) : option (Z * ip P) :=
  '(_, b) ← List.find (fun x => x.1 =? pcb) (raw_pcbs r);
  raw_sendto pcb p (remote_ip b) st r.

End packets.

(** ** The blocks *)

Record inv (r : raw) : Prop := {
  i_nodup : NoDup (raw_pcbs r).*1;
  i_pool : holds (pool r) (raw_pcbs r).*1
}.

Lemma find_split (a : Z) (l : list (Z * raw_pcb)) p :
  List.find (fun x => x.1 =? a) l = Some p -> exists l1 l2, l = l1 ++ p :: l2 /\ p.1 = a.
Proof.
  intros [Hin%list_elem_of_In E%Z.eqb_eq]%find_some. apply list_elem_of_split in Hin as (l1 & l2 & ->). by exists l1, l2.
Qed.
Lemma filter_others (a : Z) (l : list (Z * raw_pcb)) :
  a ∉ l.*1 -> filter (fun x => x.1 <> a) l = l.
Proof.
  induction l as [|x l IH]; intros Ha; [done|]. apply not_elem_of_cons in Ha as [Hx Ha].
  rewrite filter_cons_True by congruence. by rewrite IH.
Qed.

Lemma with_pcb_inv a f r r' : inv r -> with_pcb a f r = Some r' -> inv r' /\ (raw_pcbs r').*1 = (raw_pcbs r).*1.
Proof.
  intros [I1 I2] E. unfold with_pcb in E. destruct (List.find _ _); [|done]. cbn [mbind option_bind] in E. injection E as <-.
  assert (Hk : ((fun x => if x.1 =? a then (a, f x.2) else x) <$> raw_pcbs r).*1 = (raw_pcbs r).*1).
  { rewrite <- list_fmap_compose. apply list_fmap_ext. intros _ [b b1] _. cbn. by destruct (Z.eqb_spec b a) as [->|]. }
  split; [split|]; cbn; by rewrite Hk.
Qed.

Lemma raw_new_inv proto r : inv r -> inv (raw_new proto r).2.
Proof.
  intros [I1 I2]. unfold raw_new. pose proof (alloc_new (pool r) _ I2) as Hal.
  destruct (alloc (pool r)) as [[a m]|]; [|done]. destruct Hal as [Hn Hm]. split; cbn; [by constructor|done].
Qed.

Lemma raw_remove_inv a r : inv r -> a ∈ (raw_pcbs r).*1 -> exists r', raw_remove a r = Some r' /\ inv r' /\
  forall b, b ∈ (raw_pcbs r').*1 <-> b ∈ (raw_pcbs r).*1 /\ b <> a.
Proof.
  intros [I1 I2] Ha. unfold raw_remove.
  destruct (List.find (fun x => x.1 =? a) (raw_pcbs r)) as [p|] eqn:Ef.
  2:{ exfalso. apply list_elem_of_fmap in Ha as (x & -> & Hx). apply list_elem_of_In in Hx.
      by apply (find_none _ _ Ef), Z.eqb_neq in Hx. }
  apply find_split in Ef as (l1 & l2 & E & Hp). rewrite E in *. cbn [mbind option_bind].
  rewrite fmap_app, fmap_cons, Hp in *. apply NoDup_app in I1 as (N1 & N2 & N3). apply NoDup_cons in N3 as [N3 N4].
  destruct (release_ok (pool r) _ _ _ I2) as (m & -> & Hm). cbn [mbind option_bind].
  assert (Hf : filter (fun x => x.1 <> a) (l1 ++ p :: l2) = l1 ++ l2).
  { rewrite filter_app, filter_cons_False by tauto. rewrite !filter_others; [done|done|].
    intros H1. apply (N2 a H1). left. }
  eexists. split; [done|]. cbn [raw_pcbs pool]. rewrite Hf. split.
  - split; cbn [raw_pcbs pool]; rewrite fmap_app; [|done]. apply NoDup_app. split; [done|]. split; [|done].
    intros x Hx Hx2. apply (N2 x Hx). by right.
  - intros b. rewrite fmap_app, !elem_of_app, elem_of_cons. split; [|tauto].
    intros [Hb|Hb]; (split; [auto|]); intros ->; [apply (N2 _ Hb); left|done].
Qed.

(** ** Input *)

(** The offers that can be made, in the order of the list. *)
Definition hooks (proto s d : Z) (q : pbuf) (l : list (Z * raw_pcb)) : list offer :=
  omap (fun x => f ← (if covers proto d x.2 then recv x.2 else None); Some (mkOffer f x.1 q s)) l.

Lemma offer_loop_spec eats proto s d q l1 l calls eaten l' calls' :
  offer_loop eats proto s d q l1 l calls = (eaten, l', calls') ->
  exists o o', hooks proto s d q l = o ++ o' /\ calls' = calls ++ o /\ l' ≡ₚ l1 ++ l /\
    (forall o1 x o2, o = o1 ++ x :: o2 -> eats (calls ++ o1) x = eaten && bool_decide (o2 = [])) /\
    (if eaten then exists x, last o = Some x /\ (fst <$> head l') = Some (o_pcb x) else o' = [] /\ l' = l1 ++ l).
Proof.
  revert l1 calls. induction l as [|[a p] l IH]; intros l1 calls E; cbn [offer_loop] in E.
  - injection E as <- <- <-. exists [], []. rewrite !app_nil_r. split_and!; try done. by intros [|? ?] ? ?.
  - unfold hooks. cbn [omap list_omap fst snd].
    destruct (if covers proto d p then recv p else None) as [f|] eqn:Ef; cbn [mbind option_bind].
    + set (x := mkOffer f a q s) in *. destruct (eats calls x) eqn:Ex.
      * injection E as <- <- <-. exists [x], (hooks proto s d q l). split; [done|]. split; [done|].
        split; [by rewrite Permutation_middle|]. split; [|by exists x].
        intros [|y o1] z o2 Eo; cbn in Eo; injection Eo as -> Eo; [subst o2; rewrite app_nil_r; by rewrite Ex|].
        by destruct o1.
      * apply IH in E as (o & o' & Eo & -> & Hp & Hall & Hend). exists (x :: o), o'. split; [cbn; by f_equal|].
        split; [by rewrite <- app_assoc|]. split; [by rewrite Hp, <- app_assoc|]. split.
        -- intros [|y o1] z o2 Ez; cbn in Ez; injection Ez as -> Ez.
           ++ subst o2. rewrite app_nil_r. rewrite Ex. destruct eaten; [|done]. destruct Hend as (y & Hy & _).
              by destruct o.
           ++ specialize (Hall o1 z o2 Ez). by rewrite <- app_assoc in Hall.
        -- destruct eaten; [|by rewrite <- app_assoc in Hend].
           destruct Hend as (y & Hy & Hh). exists y. split; [|done]. by rewrite last_cons, Hy.
    + apply IH in E as (o & o' & Eo & -> & Hp & Hall & Hend). exists o, o'. split; [done|]. split; [done|].
      split; [by rewrite Hp, <- app_assoc|]. split; [done|]. destruct eaten; [done|]. by rewrite <- app_assoc in Hend.
Qed.

(** C40: A packet is offered to the blocks of its protocol with a receive function
    and a matching address, in the order of the list, until one eats it: the
    packet goes on exactly when none does.  No block is lost, and the one that ate
    the packet is first. *)
Theorem raw_input_offers eats stale h q inp (st : ip P) (r : raw) :
  inv r -> ip_hdr_at q = Some h ->
  exists eaten r' o o', raw_input stale eats q inp st r = (eaten, st, r') /\ inv r' /\
    raw_pcbs r' ≡ₚ raw_pcbs r /\
    hooks (_proto h) (current_iphdr_src st) (current_iphdr_dest st) q (raw_pcbs r) = o ++ o' /\
    offered r' = offered r ++ o /\
    (forall o1 x o2, o = o1 ++ x :: o2 -> eats (offered r ++ o1) x = eaten && bool_decide (o2 = [])) /\
    (if eaten then exists x, last o = Some x /\ (fst <$> head (raw_pcbs r')) = Some (o_pcb x)
     else o' = [] /\ raw_pcbs r' = raw_pcbs r).
Proof.
  intros [I1 I2] Hh. pose proof (IpFrag.hdr_at_len _ _ Hh) as Hl. unfold plen, IP_HLEN in Hl.
  assert (Ehdr : ip_hdr_of (first q ++ stale) = h).
  { unfold ip_hdr_at in Hh. destruct (IP_HLEN <=? plen q); [|done]. injection Hh as <-.
    rewrite (IpFrag.ip_hdr_of_take (first q ++ stale)) by (rewrite length_app; lia).
    rewrite take_app_le by lia. symmetry. apply IpFrag.ip_hdr_of_take. lia. }
  unfold raw_input. rewrite Ehdr.
  destruct (offer_loop _ _ _ _ _ _ _ _) as [[eaten l'] calls'] eqn:E.
  apply offer_loop_spec in E as (o & o' & Eo & -> & Hp & Hall & Hend). cbn [app] in Hp, Hend.
  exists eaten, (mkRaw l' (pool r) (offered r ++ o)), o, o'. split; [done|]. cbn [raw_pcbs pool offered].
  split; [|done]. split; cbn [raw_pcbs pool].
  - by rewrite Hp.
  - eapply holds_perm; [|exact I2]. by rewrite Hp.
Qed.

End raw.
Arguments raw : clear implicits.

(** ** Instances *)

#[local] Existing Instance IpFrag.reass_pool.

Definition start_raw : raw Memp.memp := mkRaw [] (Memp.memp_init [(5%nat, 32)] 4096) [].
Lemma start_inv : inv start_raw.
Proof.
  split; [constructor|]. exists [[]]. split; [|done].
  apply (Memp.memp_init_inv [(5%nat, 32)] 4096); [lia|repeat constructor].
Qed.

(** Two blocks for UDP packets; the function 8 of the second eats what it is
    offered. *)
Definition sample_raw : raw Memp.memp :=
  let r := (raw_new IP_PROTO_UDP (raw_new IP_PROTO_UDP start_raw).2).2 in
  default r (r ← raw_recv 4192 (Some 7) r; raw_recv 4224 (Some 8) r).
Lemma sample_inv : inv sample_raw.
Proof.
  unfold sample_raw. set (r := (raw_new _ (raw_new _ _).2).2).
  assert (Hi : inv r) by (do 2 apply raw_new_inv; apply start_inv).
  unfold raw_recv. destruct (with_pcb 4192 _ r) as [r1|] eqn:E1; [|done]. cbn [mbind option_bind].
  destruct (with_pcb 4224 _ r1) as [r2|] eqn:E2; [|done].
  by apply (with_pcb_inv _ _ _ _ (proj1 (with_pcb_inv _ _ _ _ Hi E1)) E2).
Qed.
Definition sample_hdr : ip_hdr := with_chksum (mkIpHdr 0x45 0 (lwip_htons 23) 0 0 64 17 0 0x0300000a 0x0200000a).
Definition sample_udp_packet : pbuf := mkPbuf [] [ip_hdr_bytes sample_hdr ++ [1; 2; 3]].

Lemma raw_input_offers_witness :
  exists r', raw_input [] (fun _ o => o_recv o =? 8) sample_udp_packet (sample_if 0x0200000a)
      (with_addrs 0x0300000a 0x0200000a (sample_host 0x0200000a)) sample_raw =
    (true, with_addrs 0x0300000a 0x0200000a (sample_host 0x0200000a), r') /\ inv r' /\
    (o_recv <$> offered r') = [7; 8] /\ fst <$> raw_pcbs r' = [4224; 4192].
Proof.
  destruct (raw_input_offers (fun _ o => o_recv o =? 8) [] sample_hdr sample_udp_packet (sample_if 0x0200000a)
    (with_addrs 0x0300000a 0x0200000a (sample_host 0x0200000a)) sample_raw sample_inv eq_refl)
    as (eaten & r' & o & o' & E & Hi & _).
  pose proof E as E'. vm_compute in E'. injection E' as <- <-. eexists. split; [exact E|]. split; [exact Hi|done].
Defined.

End Raw.
