(* ===== verification/TcpDef.v ===== *)
(** * Data of TCP (lwip/tcp.h, lwip/tcp_impl.h)

    Sequence numbers with their comparisons, the TCP header, segments and
    protocol control blocks, as the configuration of lwipopts.h has them: no
    queue for segments out of order, no time stamps, no backlog, callback API.
    A [LWIP_ASSERT] that fails only prints a message here (arch/cc.h), so the
    functions go on after it. *)

From S2P Require Import Prelude LwipDef InetChksum IpAddr Memp Packet Ip.

#[local] Open Scope Z_scope.

Module TcpDef.
Import LwipDef InetChksum IpAddr Packet Ip.

(** ** Record update

    [r <| f := v |>] is the record [r] with the field [f] replaced, [r <| f ::= g |>]
    with [g] applied to it. *)
Class Setter {R T : Type} (proj : R -> T) := set : (T -> T) -> R -> R.
#[global] Arguments set {R T} proj {_} _ _ /.

(** The setter of a field, from the record written with all its fields. *)
Ltac make_setter eta proj :=
  let e := eval pattern proj in eta in
  match e with
  | ?F _ => let s := eval cbv beta in (fun f r => F (fun r' => f (proj r')) r) in exact s
  end.

Declare Scope update_scope.
Delimit Scope update_scope with upd.
Notation "r <| f := v |>" := (set f (fun _ => v) r) (at level 1, left associativity) : update_scope.
Notation "r <| f ::= g |>" := (set f g r) (at level 1, left associativity) : update_scope.
#[local] Open Scope update_scope.

(** ** Configuration *)

Definition TCP_MSS : Z := 1460.
Definition TCP_SND_BUF : Z := 2 * TCP_MSS.
Definition TCP_WND : Z := 2 * TCP_MSS.
Definition TCP_SND_QUEUELEN : Z := 6.
Definition TCP_SNDQUEUELEN_OVERFLOW : Z := 0xffff - 3.
Definition TCP_OVERSIZE : Z := TCP_MSS.
Definition TCP_TTL : Z := 255.
Definition TCP_MAXRTX : Z := 12.
Definition TCP_SYNMAXRTX : Z := 6.
Definition TCP_WND_UPDATE_THRESHOLD : Z := 730.
Definition TCP_HLEN : Z := 20.
Definition TCP_TMR_INTERVAL : Z := 250.
Definition TCP_SLOW_INTERVAL : Z := 2 * TCP_TMR_INTERVAL.
Definition TCP_FIN_WAIT_TIMEOUT : Z := 20000.
Definition TCP_SYN_RCVD_TIMEOUT : Z := 20000.
Definition TCP_MSL : Z := 60000.
Definition TCP_KEEPIDLE_DEFAULT : Z := 7200000.
Definition TCP_KEEPINTVL_DEFAULT : Z := 75000.
Definition TCP_KEEPCNT_DEFAULT : Z := 9.
Definition TCP_MAXIDLE : Z := TCP_KEEPCNT_DEFAULT * TCP_KEEPINTVL_DEFAULT.
Definition TCP_PRIO_NORMAL : Z := 64.
Definition TCP_PRIO_MAX : Z := 127.

Definition ERR_MEM : Z := -1.
Definition ERR_VAL : Z := -6.
Definition ERR_USE : Z := -8.
Definition ERR_ISCONN : Z := -9.
Definition ERR_ABRT : Z := -10.
Definition ERR_RST : Z := -11.
Definition ERR_CLSD : Z := -12.
Definition ERR_CONN : Z := -13.
Definition ERR_ARG : Z := -14.

Definition SOF_ACCEPTCONN : Z := 0x02.
Definition SOF_REUSEADDR : Z := 0x04.
Definition SOF_KEEPALIVE : Z := 0x08.
Definition SOF_LINGER : Z := 0x80.
Definition SOF_INHERITED : Z := Z.lor (Z.lor SOF_REUSEADDR SOF_KEEPALIVE) SOF_LINGER.

Definition PBUF_FLAG_PUSH : Z := 0x01.
Definition PBUF_FLAG_TCP_FIN : Z := 0x20.

(** ** Sequence numbers *)

(** The conversion [(s32_t)]. *)
Definition s32 (x : Z) : Z := swrap 32 x.
Definition s16 (x : Z) : Z := swrap 16 x.
Definition in_s16 (x : Z) : Prop := -32768 <= x < 32768.

Definition TCP_SEQ_LT (a b : Z) : bool := s32 (u32 (a - b)) <? 0.
Definition TCP_SEQ_LEQ (a b : Z) : bool := s32 (u32 (a - b)) <=? 0.
Definition TCP_SEQ_GT (a b : Z) : bool := 0 <? s32 (u32 (a - b)).
Definition TCP_SEQ_GEQ (a b : Z) : bool := 0 <=? s32 (u32 (a - b)).
Definition TCP_SEQ_BETWEEN (a b c : Z) : bool := TCP_SEQ_GEQ a b && TCP_SEQ_LEQ a c.

(** ** Flags *)

Definition flag_set (f x : Z) : bool := negb (Z.land f x =? 0).
Definition flag_or (x f : Z) : Z := Z.lor f x.
(** [f &= ~x] of eight bits. *)
Definition flag_clear (x f : Z) : Z := Z.land f (u8 (Z.lnot x)).

Definition TCP_FIN : Z := 0x01.
Definition TCP_SYN : Z := 0x02.
Definition TCP_RST : Z := 0x04.
Definition TCP_PSH : Z := 0x08.
Definition TCP_ACK : Z := 0x10.
Definition TCP_FLAGS : Z := 0x3f.

Definition TF_ACK_DELAY : Z := 0x01.
Definition TF_ACK_NOW : Z := 0x02.
Definition TF_INFR : Z := 0x04.
Definition TF_RXCLOSED : Z := 0x10.
Definition TF_FIN : Z := 0x20.
Definition TF_NODELAY : Z := 0x40.
Definition TF_NAGLEMEMERR : Z := 0x80.

(** Flags of the input processing. *)
Definition TF_RESET : Z := 0x08.
Definition TF_CLOSED : Z := 0x10.
Definition TF_GOT_FIN : Z := 0x20.

(** ** The header

    The fields are in host byte order, [tcp_hdr_bytes] and [tcp_hdr_of] do the
    conversions; the checksum is the value as it lies in memory. *)
Record tcp_hdr := mkTcpHdr {
  src : Z; dest : Z; seqno : Z; ackno : Z; _hdrlen_rsvd_flags : Z; wnd : Z; chksum : Z; urgp : Z
}.
Definition tcp_hdr_bytes (h : tcp_hdr) : list Z :=
  bytes16 (lwip_htons (src h)) ++ bytes16 (lwip_htons (dest h)) ++
  ip_bytes (lwip_htonl (seqno h)) ++ ip_bytes (lwip_htonl (ackno h)) ++
  bytes16 (lwip_htons (_hdrlen_rsvd_flags h)) ++ bytes16 (lwip_htons (wnd h)) ++
  bytes16 (chksum h) ++ bytes16 (lwip_htons (urgp h)).
Definition tcp_hdr_of (b : list Z) : tcp_hdr :=
  mkTcpHdr (lwip_ntohs (get16 b 0)) (lwip_ntohs (get16 b 2))
    (lwip_ntohl (ip_of (drop 4 b))) (lwip_ntohl (ip_of (drop 8 b)))
    (lwip_ntohs (get16 b 12)) (lwip_ntohs (get16 b 14)) (get16 b 16) (lwip_ntohs (get16 b 18)).

#[export] Instance set_seqno : Setter seqno :=
  ltac:(make_setter (fun h => mkTcpHdr (src h) (dest h) (seqno h) (ackno h) (_hdrlen_rsvd_flags h) (wnd h) (chksum h) (urgp h)) seqno).
#[export] Instance set_ackno : Setter ackno :=
  ltac:(make_setter (fun h => mkTcpHdr (src h) (dest h) (seqno h) (ackno h) (_hdrlen_rsvd_flags h) (wnd h) (chksum h) (urgp h)) ackno).
#[export] Instance set_hrf : Setter _hdrlen_rsvd_flags :=
  ltac:(make_setter (fun h => mkTcpHdr (src h) (dest h) (seqno h) (ackno h) (_hdrlen_rsvd_flags h) (wnd h) (chksum h) (urgp h)) _hdrlen_rsvd_flags).
#[export] Instance set_wnd : Setter wnd :=
  ltac:(make_setter (fun h => mkTcpHdr (src h) (dest h) (seqno h) (ackno h) (_hdrlen_rsvd_flags h) (wnd h) (chksum h) (urgp h)) wnd).
#[export] Instance set_chksum : Setter chksum :=
  ltac:(make_setter (fun h => mkTcpHdr (src h) (dest h) (seqno h) (ackno h) (_hdrlen_rsvd_flags h) (wnd h) (chksum h) (urgp h)) chksum).

Definition TCPH_HDRLEN (h : tcp_hdr) : Z := Z.shiftr (_hdrlen_rsvd_flags h) 12.
Definition TCPH_FLAGS (h : tcp_hdr) : Z := Z.land (_hdrlen_rsvd_flags h) TCP_FLAGS.
Definition hdrlen_flags (len flags : Z) : Z := u16 (Z.lor (Z.shiftl len 12) flags).
Definition TCPH_FLAGS_SET (f : Z) (h : tcp_hdr) : tcp_hdr :=
  h <| _hdrlen_rsvd_flags := Z.lor (Z.land (_hdrlen_rsvd_flags h) (u16 (Z.lnot TCP_FLAGS))) f |>.
Definition TCPH_SET_FLAG (f : Z) (h : tcp_hdr) : tcp_hdr := h <| _hdrlen_rsvd_flags ::= flag_or f |>.

(** The bits of the header length and flags. *)
Definition has_flag (h : tcp_hdr) (f : Z) : bool := flag_set (TCPH_FLAGS h) f.

(** ** Segments

    The packet of a segment is the one behind the header: the room in front of it
    takes the header when the segment is sent, its first bytes are those of the
    options.  [sg_addr] is the element of the pool. *)
Record tcp_seg := mkSeg { sg_addr : Z; sg_p : pbuf; sg_len : Z; sg_flags : Z; tcphdr : tcp_hdr }.
#[export] Instance set_sg_p : Setter sg_p :=
  ltac:(make_setter (fun s => mkSeg (sg_addr s) (sg_p s) (sg_len s) (sg_flags s) (tcphdr s)) sg_p).
#[export] Instance set_sg_len : Setter sg_len :=
  ltac:(make_setter (fun s => mkSeg (sg_addr s) (sg_p s) (sg_len s) (sg_flags s) (tcphdr s)) sg_len).
#[export] Instance set_tcphdr : Setter tcphdr :=
  ltac:(make_setter (fun s => mkSeg (sg_addr s) (sg_p s) (sg_len s) (sg_flags s) (tcphdr s)) tcphdr).

Definition TF_SEG_OPTS_MSS : Z := 0x01.
Definition LWIP_TCP_OPT_LENGTH (flags : Z) : Z := if flag_set flags TF_SEG_OPTS_MSS then 4 else 0.

(** The length of a segment in sequence numbers. *)
Definition tcplen_of (len : Z) (h : tcp_hdr) : Z :=
  len + (if has_flag h (Z.lor TCP_FIN TCP_SYN) then 1 else 0).
Definition TCP_TCPLEN (s : tcp_seg) : Z := tcplen_of (sg_len s) (tcphdr s).
Definition sg_seqno (s : tcp_seg) : Z := seqno (tcphdr s).

(** ** Protocol control blocks *)

Inductive tcp_state :=
  | CLOSED | LISTEN | SYN_SENT | SYN_RCVD | ESTABLISHED | FIN_WAIT_1 | FIN_WAIT_2 | CLOSE_WAIT
  | CLOSING | LAST_ACK | TIME_WAIT.
#[export] Instance tcp_state_eq_dec : EqDecision tcp_state.
Proof. solve_decision. Defined.
Definition state_num (s : tcp_state) : Z :=
  match s with
  | CLOSED => 0 | LISTEN => 1 | SYN_SENT => 2 | SYN_RCVD => 3 | ESTABLISHED => 4 | FIN_WAIT_1 => 5
  | FIN_WAIT_2 => 6 | CLOSE_WAIT => 7 | CLOSING => 8 | LAST_ACK => 9 | TIME_WAIT => 10
  end.

(** An application's function is known by its number; [Null] stands for
    [tcp_recv_null] and [tcp_accept_null]. *)
Inductive handler := Null | App (f : Z).

(** The data that the application refused comes with the flags of its packet. *)
Record tcp_pcb := mkPcb {
  local_ip : Z; remote_ip : Z; so_options : Z; tos : Z; ttl : Z; callback_arg : Z;
  accept : option handler; state : tcp_state; prio : Z; local_port : Z; remote_port : Z; flags : Z;
  polltmr : Z; pollinterval : Z; last_timer : Z; tmr : Z; rcv_nxt : Z; rcv_wnd : Z; rcv_ann_wnd : Z;
  rcv_ann_right_edge : Z; rtime : Z; mss : Z; rttest : Z; rtseq : Z; sa : Z; sv : Z; rto : Z; nrtx : Z;
  dupacks : Z; lastack : Z; cwnd : Z; ssthresh : Z; snd_nxt : Z; snd_wl1 : Z; snd_wl2 : Z; snd_lbb : Z;
  snd_wnd : Z; snd_wnd_max : Z; acked : Z; snd_buf : Z; snd_queuelen : Z; unsent_oversize : Z;
  unsent : list tcp_seg; unacked : list tcp_seg; refused_data : option (pbuf * Z); sent : option Z;
  recv : option handler; connected : option Z; poll : option Z; errf : option Z; keep_idle : Z;
  persist_cnt : Z; persist_backoff : Z; keep_cnt_sent : Z
}.

(** The record written with all its fields, from which the setters are made. *)
Ltac pcb_setter proj :=
  make_setter (fun p =>
    mkPcb (local_ip p) (remote_ip p) (so_options p) (tos p) (ttl p) (callback_arg p) (accept p)
    (state p) (prio p) (local_port p) (remote_port p) (flags p) (polltmr p) (pollinterval p)
    (last_timer p) (tmr p) (rcv_nxt p) (rcv_wnd p) (rcv_ann_wnd p) (rcv_ann_right_edge p) (rtime p)
    (mss p) (rttest p) (rtseq p) (sa p) (sv p) (rto p) (nrtx p) (dupacks p) (lastack p) (cwnd p)
    (ssthresh p) (snd_nxt p) (snd_wl1 p) (snd_wl2 p) (snd_lbb p) (snd_wnd p) (snd_wnd_max p) (acked p)
    (snd_buf p) (snd_queuelen p) (unsent_oversize p) (unsent p) (unacked p) (refused_data p) (sent p)
    (recv p) (connected p) (poll p) (errf p) (keep_idle p) (persist_cnt p) (persist_backoff p)
    (keep_cnt_sent p)) proj.
#[export] Instance set_local_ip : Setter local_ip := ltac:(pcb_setter local_ip).
#[export] Instance set_remote_ip : Setter remote_ip := ltac:(pcb_setter remote_ip).
#[export] Instance set_so_options : Setter so_options := ltac:(pcb_setter so_options).
#[export] Instance set_tos : Setter tos := ltac:(pcb_setter tos).
#[export] Instance set_ttl : Setter ttl := ltac:(pcb_setter ttl).
#[export] Instance set_callback_arg : Setter callback_arg := ltac:(pcb_setter callback_arg).
#[export] Instance set_accept : Setter accept := ltac:(pcb_setter accept).
#[export] Instance set_state : Setter state := ltac:(pcb_setter state).
#[export] Instance set_prio : Setter prio := ltac:(pcb_setter prio).
#[export] Instance set_local_port : Setter local_port := ltac:(pcb_setter local_port).
#[export] Instance set_remote_port : Setter remote_port := ltac:(pcb_setter remote_port).
#[export] Instance set_flags : Setter flags := ltac:(pcb_setter flags).
#[export] Instance set_polltmr : Setter polltmr := ltac:(pcb_setter polltmr).
#[export] Instance set_pollinterval : Setter pollinterval := ltac:(pcb_setter pollinterval).
#[export] Instance set_last_timer : Setter last_timer := ltac:(pcb_setter last_timer).
#[export] Instance set_tmr : Setter tmr := ltac:(pcb_setter tmr).
#[export] Instance set_rcv_nxt : Setter rcv_nxt := ltac:(pcb_setter rcv_nxt).
#[export] Instance set_rcv_wnd : Setter rcv_wnd := ltac:(pcb_setter rcv_wnd).
#[export] Instance set_rcv_ann_wnd : Setter rcv_ann_wnd := ltac:(pcb_setter rcv_ann_wnd).
#[export] Instance set_rcv_ann_right_edge : Setter rcv_ann_right_edge := ltac:(pcb_setter rcv_ann_right_edge).
#[export] Instance set_rtime : Setter rtime := ltac:(pcb_setter rtime).
#[export] Instance set_mss : Setter mss := ltac:(pcb_setter mss).
#[export] Instance set_rttest : Setter rttest := ltac:(pcb_setter rttest).
#[export] Instance set_rtseq : Setter rtseq := ltac:(pcb_setter rtseq).
#[export] Instance set_sa : Setter sa := ltac:(pcb_setter sa).
#[export] Instance set_sv : Setter sv := ltac:(pcb_setter sv).
#[export] Instance set_rto : Setter rto := ltac:(pcb_setter rto).
#[export] Instance set_nrtx : Setter nrtx := ltac:(pcb_setter nrtx).
#[export] Instance set_dupacks : Setter dupacks := ltac:(pcb_setter dupacks).
#[export] Instance set_lastack : Setter lastack := ltac:(pcb_setter lastack).
#[export] Instance set_cwnd : Setter cwnd := ltac:(pcb_setter cwnd).
#[export] Instance set_ssthresh : Setter ssthresh := ltac:(pcb_setter ssthresh).
#[export] Instance set_snd_nxt : Setter snd_nxt := ltac:(pcb_setter snd_nxt).
#[export] Instance set_snd_wl1 : Setter snd_wl1 := ltac:(pcb_setter snd_wl1).
#[export] Instance set_snd_wl2 : Setter snd_wl2 := ltac:(pcb_setter snd_wl2).
#[export] Instance set_snd_lbb : Setter snd_lbb := ltac:(pcb_setter snd_lbb).
#[export] Instance set_snd_wnd : Setter snd_wnd := ltac:(pcb_setter snd_wnd).
#[export] Instance set_snd_wnd_max : Setter snd_wnd_max := ltac:(pcb_setter snd_wnd_max).
#[export] Instance set_acked : Setter acked := ltac:(pcb_setter acked).
#[export] Instance set_snd_buf : Setter snd_buf := ltac:(pcb_setter snd_buf).
#[export] Instance set_snd_queuelen : Setter snd_queuelen := ltac:(pcb_setter snd_queuelen).
#[export] Instance set_unsent_oversize : Setter unsent_oversize := ltac:(pcb_setter unsent_oversize).
#[export] Instance set_unsent : Setter unsent := ltac:(pcb_setter unsent).
#[export] Instance set_unacked : Setter unacked := ltac:(pcb_setter unacked).
#[export] Instance set_refused_data : Setter refused_data := ltac:(pcb_setter refused_data).
#[export] Instance set_sent : Setter sent := ltac:(pcb_setter sent).
#[export] Instance set_recv : Setter recv := ltac:(pcb_setter recv).
#[export] Instance set_connected : Setter connected := ltac:(pcb_setter connected).
#[export] Instance set_poll : Setter poll := ltac:(pcb_setter poll).
#[export] Instance set_errf : Setter errf := ltac:(pcb_setter errf).
#[export] Instance set_keep_idle : Setter keep_idle := ltac:(pcb_setter keep_idle).
#[export] Instance set_persist_cnt : Setter persist_cnt := ltac:(pcb_setter persist_cnt).
#[export] Instance set_persist_backoff : Setter persist_backoff := ltac:(pcb_setter persist_backoff).
#[export] Instance set_keep_cnt_sent : Setter keep_cnt_sent := ltac:(pcb_setter keep_cnt_sent).

(** A block that listens is smaller. *)
Record tcp_pcb_listen := mkListen {
  l_local_ip : Z; l_so_options : Z; l_tos : Z; l_ttl : Z; l_callback_arg : Z; l_accept : option handler;
  l_prio : Z; l_local_port : Z
}.

Definition initial_mss : Z := if 536 <? TCP_MSS then 536 else TCP_MSS.

(** The block as [tcp_alloc] sets it up. *)
Definition fresh_pcb (prio_ n ticks ctr : Z) : tcp_pcb :=
  {| local_ip := 0; remote_ip := 0; so_options := 0; tos := 0; ttl := TCP_TTL; callback_arg := 0; accept := None;
     state := CLOSED; prio := prio_; local_port := 0; remote_port := 0; flags := 0; polltmr := 0; pollinterval := 0;
     last_timer := ctr; tmr := ticks; rcv_nxt := 0; rcv_wnd := TCP_WND; rcv_ann_wnd := TCP_WND;
     rcv_ann_right_edge := 0; rtime := -1; mss := initial_mss; rttest := 0; rtseq := 0; sa := 0;
     sv := 3000 / TCP_SLOW_INTERVAL; rto := 3000 / TCP_SLOW_INTERVAL; nrtx := 0; dupacks := 0; lastack := n;
     cwnd := 1; ssthresh := 0; snd_nxt := n; snd_wl1 := 0; snd_wl2 := n; snd_lbb := n; snd_wnd := 0;
     snd_wnd_max := 0; acked := 0; snd_buf := TCP_SND_BUF; snd_queuelen := 0; unsent_oversize := 0; unsent := [];
     unacked := []; refused_data := None; sent := None; recv := Some Null; connected := None; poll := None;
     errf := None; keep_idle := TCP_KEEPIDLE_DEFAULT; persist_cnt := 0; persist_backoff := 0; keep_cnt_sent := 0 |}.

Definition ip_get_option (o opt : Z) : bool := flag_set o opt.

(** ** Facts about sequence numbers *)

Lemma s32_small x : -2147483648 <= x < 2147483648 -> s32 (u32 x) = x.
Proof. intros. unfold s32, u32. apply (swrap_u 32); lia. Qed.

Lemma s32_diff a b : -2147483648 <= a - b < 2147483648 -> s32 (u32 (u32 a - u32 b)) = a - b.
Proof.
  intros. replace (u32 (u32 a - u32 b)) with (u32 (a - b)); [by apply s32_small|].
  unfold u32. by rewrite Zminus_mod_idemp_l, Zminus_mod_idemp_r.
Qed.

(** The comparisons decide the order of the numbers they stand for, which may be
    larger than 32 bits, when these are less than 2^31 apart. *)
Lemma seq_lt a b : -2147483648 <= a - b < 2147483648 -> TCP_SEQ_LT (u32 a) (u32 b) = (a <? b).
Proof. intros. unfold TCP_SEQ_LT. rewrite s32_diff by done. apply eq_bool_prop_intro. rewrite !Is_true_true, !Z.ltb_lt. lia. Qed.
Lemma seq_leq a b : -2147483648 <= a - b < 2147483648 -> TCP_SEQ_LEQ (u32 a) (u32 b) = (a <=? b).
Proof. intros. unfold TCP_SEQ_LEQ. rewrite s32_diff by done. apply eq_bool_prop_intro. rewrite !Is_true_true, !Z.leb_le. lia. Qed.
Lemma seq_gt a b : -2147483648 <= a - b < 2147483648 -> TCP_SEQ_GT (u32 a) (u32 b) = (b <? a).
Proof. intros. unfold TCP_SEQ_GT. rewrite s32_diff by done. apply eq_bool_prop_intro. rewrite !Is_true_true, !Z.ltb_lt. lia. Qed.
Lemma seq_geq a b : -2147483648 <= a - b < 2147483648 -> TCP_SEQ_GEQ (u32 a) (u32 b) = (b <=? a).
Proof. intros. unfold TCP_SEQ_GEQ. rewrite s32_diff by done. apply eq_bool_prop_intro. rewrite !Is_true_true, !Z.leb_le. lia. Qed.
Lemma seq_between a b c :
  -2147483648 <= a - b < 2147483648 -> -2147483648 <= a - c < 2147483648 ->
  TCP_SEQ_BETWEEN (u32 a) (u32 b) (u32 c) = (b <=? a) && (a <=? c).
Proof. intros. unfold TCP_SEQ_BETWEEN. by rewrite seq_geq, seq_leq. Qed.

Lemma u32_add_l a b : u32 (u32 a + b) = u32 (a + b).
Proof. apply Zplus_mod_idemp_l. Qed.
Lemma u32_add_r a b : u32 (a + u32 b) = u32 (a + b).
Proof. apply Zplus_mod_idemp_r. Qed.
Lemma u32_sub_l a b : u32 (u32 a - b) = u32 (a - b).
Proof. apply Zminus_mod_idemp_l. Qed.
Lemma u32_sub_r a b : u32 (a - u32 b) = u32 (a - b).
Proof. apply Zminus_mod_idemp_r. Qed.
Lemma u32_idem a : u32 (u32 a) = u32 a.
Proof. apply Zmod_mod. Qed.

(** ** Facts about flags *)

Lemma flag_set_pow2 f k : 0 <= k -> flag_set f (2 ^ k) = Z.testbit f k.
Proof.
  intros. unfold flag_set. rewrite land_bit by done. pose proof (Z.pow_pos_nonneg 2 k ltac:(lia) ltac:(done)).
  destruct (Z.testbit f k); [|done]. destruct (Z.eqb_spec (2 ^ k) 0); [lia|done].
Qed.

Lemma flag_set_lor f x y : flag_set f (Z.lor x y) = flag_set f x || flag_set f y.
Proof.
  unfold flag_set. rewrite Z.land_lor_distr_r.
  destruct (Z.eqb_spec (Z.land f x) 0) as [->|Hx], (Z.eqb_spec (Z.land f y) 0) as [->|Hy]; cbn [negb orb].
  - done.
  - rewrite Z.lor_0_l. destruct (Z.eqb_spec (Z.land f y) 0); [lia|done].
  - rewrite Z.lor_0_r. destruct (Z.eqb_spec (Z.land f x) 0); [lia|done].
  - destruct (Z.eqb_spec (Z.lor (Z.land f x) (Z.land f y)) 0) as [E|]; [|done].
    by apply Z.lor_eq_0_iff in E as [].
Qed.

(** Flags of a header are its low six bits. *)
Lemma has_flag_bit h k : 0 <= k < 6 -> has_flag h (2 ^ k) = Z.testbit (_hdrlen_rsvd_flags h) k.
Proof.
  intros. unfold has_flag, TCPH_FLAGS. rewrite flag_set_pow2, Z.land_spec by lia.
  change TCP_FLAGS with (Z.ones 6). rewrite Z.ones_spec_low by lia. apply andb_true_r.
Qed.

Lemma has_flag_set_other h f x :
  Z.land f x = 0 -> has_flag (TCPH_SET_FLAG f h) x = has_flag h x.
Proof.
  intros E. unfold has_flag, TCPH_FLAGS, TCPH_SET_FLAG, flag_set, flag_or. cbn.
  rewrite Z.land_lor_distr_l, Z.land_lor_distr_l.
  replace (Z.land (Z.land f TCP_FLAGS) x) with 0; [by rewrite Z.lor_0_r|].
  rewrite <- Z.land_assoc, (Z.land_comm TCP_FLAGS), Z.land_assoc, E. by rewrite Z.land_0_l.
Qed.

(** ** Facts about the header *)

Record tcp_hdr_ok (h : tcp_hdr) : Prop := {
  th_src : in_u16 (src h); th_dest : in_u16 (dest h); th_seqno : in_u32 (seqno h); th_ackno : in_u32 (ackno h);
  th_hrf : in_u16 (_hdrlen_rsvd_flags h); th_wnd : in_u16 (wnd h); th_chksum : in_u16 (chksum h);
  th_urgp : in_u16 (urgp h)
}.

Lemma length_tcp_hdr h : length (tcp_hdr_bytes h) = 20%nat.
Proof. done. Qed.

Lemma tcp_hdr_bytes_bytes h : bytes (tcp_hdr_bytes h).
Proof.
  unfold tcp_hdr_bytes. repeat (apply Forall_app_2; [first [apply bytes16_bytes | apply ip_bytes_bytes]|]).
  apply bytes16_bytes.
Qed.

Lemma tcp_hdr_of_bytes h rest : tcp_hdr_ok h -> tcp_hdr_of (tcp_hdr_bytes h ++ rest) = h.
Proof.
  intros [H1 H2 H3 H4 H5 H6 H7 H8]. destruct h as [a b c d e f g i].
  cbn [src dest seqno ackno _hdrlen_rsvd_flags wnd chksum urgp] in *.
  unfold tcp_hdr_bytes, bytes16, tcp_hdr_of, get16.
  cbn [app nth drop src dest seqno ackno _hdrlen_rsvd_flags wnd chksum urgp ip_bytes].
  rewrite !get_bytes16 by auto using htons_range. rewrite !htons_involutive by done.
  f_equal; unfold ip_of; cbn [nth];
    [change (lwip_ntohl (ip_of (ip_bytes (lwip_htonl c))) = c) | change (lwip_ntohl (ip_of (ip_bytes (lwip_htonl d))) = d)];
    rewrite ip_of_bytes by apply htonl_range; by apply htonl_involutive.
Qed.

Lemma tcp_hdr_of_ok b : bytes b -> tcp_hdr_ok (tcp_hdr_of b).
Proof.
  intros Hb. unfold tcp_hdr_of.
  split; cbn; auto using get16_range; try apply htons_range; apply htonl_range.
Qed.

End TcpDef.
