(* ===== verification/TcpOut.v ===== *)
(** * TCP output (lwip/core/tcp_out.c)

    Writing segments the data of the application and queues them, [tcp_output]
    sends what the window allows, and the retransmissions move segments back to
    the queue.  The functions take a control block and give the changed one.
    Beside it they change the IP layer and the pool of the segments. *)

From S2P Require Import Prelude LwipDef InetChksum IpAddr Mem Memp Pbuf Packet IpFrag Ip TcpDef.

#[local] Open Scope Z_scope.

Module TcpOut.
Import LwipDef InetChksum IpAddr Packet Ip TcpDef.
#[local] Open Scope update_scope.

(** ** Segments *)

Definition TCP_WRITE_FLAG_COPY : Z := 0x01.
Definition TCP_WRITE_FLAG_MORE : Z := 0x02.

(** The packet with its header in front; no result when there is no room. *)
Definition seg_packet (s : tcp_seg) : option pbuf :=
  q ← pbuf_header (sg_p s) TCP_HLEN;
  Some (write_first (tcp_hdr_bytes (tcphdr s)) q).

(** The last segment of a queue. *)
Definition on_last (f : tcp_seg -> tcp_seg) (l : list tcp_seg) : list tcp_seg :=
  match last l with
  | Some s => take (length l - 1) l ++ [f s]
  | None => []
  end.

(** Bytes behind those of the last buffer of a chain, which has room for them. *)
Fixpoint extend_tail (d : list Z) (l : list (list Z)) : list (list Z) :=
  match l with
  | [] => []
  | [s] => [s ++ d]
  | s :: l => s :: extend_tail d l
  end.

Section output.
Context {P PS : Type} `{Pool P} `{Pool PS}.

(** What the functions change beside the control block. *)
Record net := mkNet { n_ip : ip P; n_segs : PS }.
Definition on_ip (f : ip P -> ip P) (n : net) : net := mkNet (f (n_ip n)) (n_segs n).

Variable output_err : nat -> Z.
Variables frag_ram frag_ref : nat -> nat -> bool.
(** Whether the [k]-th allocation of a packet buffer finds memory. *)
Variable ram : nat -> bool.
(** What lies in memory that was not written. *)
Variable stale : list Z.
Variable tcp_ticks : Z.

Definition pbuf_alloc (layer : Pbuf.pbuf_layer) (n : Z) (w : net) : option pbuf * net :=
  let '(q, st) := alloc_ram ram layer n (n_ip w) in (q, mkNet st (n_segs w)).
Definition pbuf_free (q : pbuf) (w : net) : net := on_ip (emit (Free q)) w.

Definition tcp_seg_free (s : tcp_seg) (w : net) : option net :=
  m ← release (n_segs w) (sg_addr s);
  Some (mkNet (emit (Free (sg_p s)) (n_ip w)) m).
Fixpoint tcp_segs_free (l : list tcp_seg) (w : net) : option net :=
  match l with
  | [] => Some w
  | s :: l => w ← tcp_seg_free s w; tcp_segs_free l w
  end.

(** The checksum over the packet and the pseudo header is stored and the packet
    goes to IP. *)
Definition send (h : tcp_hdr) (q : pbuf) (local_ip remote_ip ttl tos : Z) (w : net) : option net :=
  let c := inet_chksum_pseudo (segments q) local_ip remote_ip IP_PROTO_TCP (tot_len q) in
  let q := write_first (tcp_hdr_bytes (h <| chksum := c |>)) q in
  '(_, st) ← ip_output output_err frag_ram frag_ref q local_ip remote_ip ttl tos IP_PROTO_TCP (n_ip w);
  Some (mkNet st (n_segs w)).

(** ** Packets without a segment *)

Definition tcp_output_alloc_header (pcb : tcp_pcb) (optlen datalen seqno_ : Z) (w : net)
    : option (tcp_hdr * pbuf) * tcp_pcb * net :=
  match pbuf_alloc Pbuf.PBUF_IP (TCP_HLEN + optlen + datalen) w with
  | (None, w) => (None, pcb, w)
  | (Some q, w) =>
      let h := mkTcpHdr (local_port pcb) (remote_port pcb) seqno_ (rcv_nxt pcb)
                 (hdrlen_flags (5 + optlen / 4) TCP_ACK) (rcv_ann_wnd pcb) 0 0 in
      (Some (h, write_first (tcp_hdr_bytes h) q),
       pcb <| rcv_ann_right_edge := u32 (rcv_nxt pcb + rcv_ann_wnd pcb) |>, w)
  end.

Definition tcp_send_empty_ack (pcb : tcp_pcb) (w : net) : option (Z * tcp_pcb * net) :=
  match tcp_output_alloc_header pcb 0 0 (snd_nxt pcb) w with
  | (None, pcb, w) => Some (ERR_BUF, pcb, w)
  | (Some (h, q), pcb, w) =>
      let pcb := pcb <| flags ::= flag_clear (Z.lor TF_ACK_DELAY TF_ACK_NOW) |> in
      w ← send h q (local_ip pcb) (remote_ip pcb) (ttl pcb) (tos pcb) w;
      Some (ERR_OK, pcb, pbuf_free q w)
  end.

Definition tcp_rst (seqno_ ackno_ local_ip remote_ip local_port remote_port : Z) (w : net) : option net :=
  match pbuf_alloc Pbuf.PBUF_IP TCP_HLEN w with
  | (None, w) => Some w
  | (Some q, w) =>
      let h := mkTcpHdr local_port remote_port seqno_ ackno_
                 (hdrlen_flags (TCP_HLEN / 4) (Z.lor TCP_RST TCP_ACK)) TCP_WND 0 0 in
      let q := write_first (tcp_hdr_bytes h) q in
      w ← send h q local_ip remote_ip TCP_TTL 0 w;
      Some (pbuf_free q w)
  end.

Definition tcp_keepalive (pcb : tcp_pcb) (w : net) : option (tcp_pcb * net) :=
  match tcp_output_alloc_header pcb 0 0 (u32 (snd_nxt pcb - 1)) w with
  | (None, pcb, w) => Some (pcb, w)
  | (Some (h, q), pcb, w) =>
      w ← send h q (local_ip pcb) (remote_ip pcb) (ttl pcb) 0 w;
      Some (pcb, pbuf_free q w)
  end.

(** The byte of data that a probe carries: the first one of the segment, or what
    lies in the new buffer when the segment has no data. *)
Definition probe_byte (s : tcp_seg) : Z :=
  nth (Z.to_nat (tot_len (sg_p s) - sg_len s)) (data (sg_p s)) (nth 0 stale 0).

Definition tcp_zero_window_probe (pcb : tcp_pcb) (w : net) : option (tcp_pcb * net) :=
  match head (unacked pcb ++ unsent pcb) with
  | None => Some (pcb, w)
  | Some s =>
      let is_fin := has_flag (tcphdr s) TCP_FIN && (sg_len s =? 0) in
      match tcp_output_alloc_header pcb 0 (if is_fin then 0 else 1) (sg_seqno s) w with
      | (None, pcb, w) => Some (pcb, w)
      | (Some (h, q), pcb, w) =>
          let h := if is_fin then TCPH_FLAGS_SET (Z.lor TCP_ACK TCP_FIN) h else h in
          let q := write_first (tcp_hdr_bytes h ++ (if is_fin then [] else [probe_byte s])) q in
          w ← send h q (local_ip pcb) (remote_ip pcb) (ttl pcb) 0 w;
          Some (pcb, pbuf_free q w)
      end
  end.

(** ** Queueing *)

(** [tcp_create_segment]; the packet is given back when there is no segment. *)
Definition tcp_create_segment (pcb : tcp_pcb) (q : pbuf) (flags_ seqno_ optflags : Z) (w : net)
    : option (option tcp_seg * net) :=
  let optlen := LWIP_TCP_OPT_LENGTH optflags in
  match alloc (n_segs w) with
  | None => Some (None, pbuf_free q w)
  | Some (a, m) =>
      let w := mkNet (n_ip w) m in
      let h := mkTcpHdr (local_port pcb) (remote_port pcb) (u32 seqno_) 0 (hdrlen_flags (5 + optlen / 4) flags_) 0 0 0 in
      let s := mkSeg a q (u16 (tot_len q - optlen)) optflags h in
      match pbuf_header q TCP_HLEN with
      | None => w ← tcp_seg_free s w; Some (None, w)
      | Some _ => Some (Some s, w)
      end
  end.

(** [tcp_pbuf_prealloc]: the buffer is cut to its length; the bytes behind it are
    counted in [oversize]. *)
Definition tcp_pbuf_prealloc (layer : Pbuf.pbuf_layer) (length_ max_length : Z) (pcb : tcp_pcb) (apiflags : Z)
    (first_seg : bool) (w : net) : option (pbuf * Z) * net :=
  let alloc_ :=
    if (length_ <? max_length) &&
       (flag_set apiflags TCP_WRITE_FLAG_MORE ||
        (negb (flag_set (flags pcb) TF_NODELAY) &&
         (negb first_seg || negb (bool_decide (unsent pcb = [])) || negb (bool_decide (unacked pcb = [])))))
    then Z.min max_length (Mem.LWIP_MEM_ALIGN_SIZE (length_ + TCP_OVERSIZE))
    else length_ in
  match pbuf_alloc layer alloc_ w with
  | (None, w) => (None, w)
  | (Some q, w) => (Some (mkPbuf (before q) [replicate (Z.to_nat length_) 0], u16 (alloc_ - length_)), w)
  end.

(** The last test: the queue of buffers is too long. *)
Definition queue_full (snd_queuelen : Z) : bool :=
  (TCP_SND_QUEUELEN <=? snd_queuelen) || (TCP_SNDQUEUELEN_OVERFLOW <? snd_queuelen).

Definition tcp_write_checks (pcb : tcp_pcb) (len : Z) : Z * tcp_pcb :=
  if negb (bool_decide (state pcb ∈ [ESTABLISHED; CLOSE_WAIT; SYN_SENT; SYN_RCVD])) then (ERR_CONN, pcb)
  else if len =? 0 then (ERR_OK, pcb)
  else if snd_buf pcb <? len then (ERR_MEM, pcb <| flags ::= flag_or TF_NAGLEMEMERR |>)
  else if queue_full (snd_queuelen pcb) then (ERR_MEM, pcb <| flags ::= flag_or TF_NAGLEMEMERR |>)
  else (ERR_OK, pcb).

Definition mss_local (pcb : tcp_pcb) : Z := Z.min (mss pcb) (snd_wnd_max pcb / 2).

(** What the phases of [tcp_write] have done: the bytes put into the last unsent
    segment, whether it was touched at all, the buffer to be chained to it, the
    position in the data, the length of the queue, the bytes that are free behind
    the last buffer, and the new segments. *)
Record phases := mkPhases {
  oversize_used : Z; in_last : bool; concat_p : option pbuf; pos : Z; queuelen : Z; oversize : Z; queue : list tcp_seg
}.

(** Bytes [pos ..] of the data. *)
Definition slice (arg : list Z) (p n : Z) : list Z := take (Z.to_nat n) (drop (Z.to_nat p) arg).

(** A buffer with a copy of the data, or one that refers to it. *)
Definition data_pbuf (layer : Pbuf.pbuf_layer) (d : list Z) (max_length : Z) (pcb : tcp_pcb) (apiflags : Z)
    (first_seg : bool) (over : Z) (w : net) : option (pbuf * Z) * net :=
  if flag_set apiflags TCP_WRITE_FLAG_COPY then
    let '(r, w) := tcp_pbuf_prealloc layer (Z.of_nat (length d)) max_length pcb apiflags first_seg w in
    ((fun r => (write_first d r.1, r.2)) <$> r, w)
  else
    let '(q, w) := pbuf_alloc Pbuf.PBUF_RAW (Z.of_nat (length d)) w in
    ((fun q => (mkPbuf [] [d], over)) <$> q, w).

(** Phases 1 and 2, which fill up the last unsent segment. *)
Definition fill_last (pcb : tcp_pcb) (arg : list Z) (apiflags : Z) (w : net) : option phases * net :=
  let len := Z.of_nat (length arg) in
  match last (unsent pcb) with
  | None => (Some (mkPhases 0 false None 0 (snd_queuelen pcb) 0 []), w)
  | Some l =>
      let space := u16 (mss_local pcb - (sg_len l + LWIP_TCP_OPT_LENGTH (sg_flags l))) in
      let over := unsent_oversize pcb in
      let used := if 0 <? over then Z.min over len else 0 in
      let space := u16 (space - used) in
      if (used <? len) && (0 <? space) && (0 <? sg_len l) then
        let seglen := Z.min space (len - used) in
        match data_pbuf Pbuf.PBUF_RAW (slice arg used seglen) space pcb apiflags true (over - used) w with
        | (None, w) => (None, w)
        | (Some (q, over), w) =>
            (Some (mkPhases used true (Some q) (used + seglen) (u16 (snd_queuelen pcb + pbuf_clen q)) over []), w)
        end
      else (Some (mkPhases used (0 <? over) None used (snd_queuelen pcb) (over - used) []), w)
  end.

(** The packet of a new segment. *)
Definition new_pbuf (pcb : tcp_pcb) (d : list Z) (apiflags : Z) (first_seg : bool) (over : Z) (w : net)
    : option (pbuf * Z) * net :=
  if flag_set apiflags TCP_WRITE_FLAG_COPY then
    data_pbuf Pbuf.PBUF_TRANSPORT d (mss_local pcb) pcb apiflags first_seg over w
  else
    match data_pbuf Pbuf.PBUF_TRANSPORT d (mss_local pcb) pcb apiflags first_seg over w with
    | (None, w) => (None, w)
    | (Some (p2, over), w) =>
        match pbuf_alloc Pbuf.PBUF_TRANSPORT 0 w with
        | (None, w) => (None, pbuf_free p2 w)
        | (Some h, w) => (Some (pbuf_cat h p2, over), w)
        end
    end.

(** Phase 3: new segments for the rest.  Every round adds to the length of the
    queue, which ends the loop after [TCP_SND_QUEUELEN + 1] rounds at the latest. *)
Fixpoint write_loop (fuel : nat) (pcb : tcp_pcb) (arg : list Z) (apiflags : Z) (x : phases) (w : net) {struct fuel}
    : option (bool * phases * net) :=
  let len := Z.of_nat (length arg) in
  if negb (pos x <? len) then Some (true, x, w)
  else
    match fuel with
    | O => None
    | S fuel =>
        let seglen := Z.min (len - pos x) (mss_local pcb) in
        match new_pbuf pcb (slice arg (pos x) seglen) apiflags (bool_decide (queue x = [])) (oversize x) w with
        | (None, w) => Some (false, x, w)
        | (Some (q, over), w) =>
            let qlen := u16 (queuelen x + pbuf_clen q) in
            if (TCP_SND_QUEUELEN <? qlen) || (TCP_SNDQUEUELEN_OVERFLOW <? qlen)
            then Some (false, x, pbuf_free q w)
            else
              '(s, w) ← tcp_create_segment pcb q 0 (snd_lbb pcb + pos x) 0 w;
              match s with
              | None => Some (false, x, w)
              | Some s =>
                  write_loop fuel pcb arg apiflags
                    (mkPhases (oversize_used x) (in_last x) (concat_p x) (pos x + seglen) qlen over (queue x ++ [s])) w
              end
        end
    end.
Definition write_fuel : nat := 8.

(** The last unsent segment with what phases 1 and 2 have for it. *)
Definition commit_last (arg : list Z) (x : phases) (s : tcp_seg) : tcp_seg :=
  let s := if 0 <? oversize_used x
           then s <| sg_p := mkPbuf (before (sg_p s)) (extend_tail (slice arg 0 (oversize_used x)) (segs (sg_p s))) |>
                  <| sg_len := u16 (sg_len s + oversize_used x) |>
           else s in
  match concat_p x with
  | Some q => s <| sg_p := pbuf_cat (sg_p s) q |> <| sg_len := u16 (sg_len s + tot_len q) |>
  | None => s
  end.

(** The changes to the block when all phases were successful. *)
Definition commit (pcb : tcp_pcb) (arg : list Z) (apiflags : Z) (x : phases) : tcp_pcb :=
  let len := Z.of_nat (length arg) in
  let touched := in_last x || bool_decide (queue x <> []) in
  let l := on_last (commit_last arg x) (unsent pcb) ++ queue x in
  let l := if touched && negb (flag_set apiflags TCP_WRITE_FLAG_MORE)
           then on_last (fun s => s <| tcphdr ::= TCPH_SET_FLAG TCP_PSH |>) l else l in
  pcb <| unsent := l |> <| unsent_oversize := oversize x |> <| snd_lbb := u32 (snd_lbb pcb + len) |>
      <| snd_buf := u16 (snd_buf pcb - len) |> <| snd_queuelen := queuelen x |>.

(** Nothing of the phases is kept. *)
Definition write_memerr (pcb : tcp_pcb) (x : phases) (w : net) : option (Z * tcp_pcb * net) :=
  let w := match concat_p x with Some q => pbuf_free q w | None => w end in
  w ← tcp_segs_free (queue x) w;
  Some (ERR_MEM, pcb <| flags ::= flag_or TF_NAGLEMEMERR |>, w).

Definition tcp_write (pcb : tcp_pcb) (arg : list Z) (apiflags : Z) (w : net) : option (Z * tcp_pcb * net) :=
  let '(err, pcb) := tcp_write_checks pcb (Z.of_nat (length arg)) in
  if negb (err =? ERR_OK) then Some (err, pcb, w)
  else
    match fill_last pcb arg apiflags w with
    | (None, w) => Some (ERR_MEM, pcb <| flags ::= flag_or TF_NAGLEMEMERR |>, w)
    | (Some x, w) =>
        '(ok, x, w) ← write_loop write_fuel pcb arg apiflags x w;
        if (ok : bool) then Some (ERR_OK, commit pcb arg apiflags x, w) else write_memerr pcb x w
    end.

Definition tcp_enqueue_flags (pcb : tcp_pcb) (flags_ : Z) (w : net) : option (Z * tcp_pcb * net) :=
  let memerr pcb w := Some (ERR_MEM, pcb <| flags ::= flag_or TF_NAGLEMEMERR |>, w) in
  if queue_full (snd_queuelen pcb) then memerr pcb w
  else
    let optflags := if flag_set flags_ TCP_SYN then TF_SEG_OPTS_MSS else 0 in
    let optlen := LWIP_TCP_OPT_LENGTH optflags in
    if snd_buf pcb =? 0 then Some (ERR_MEM, pcb, w)
    else
      match pbuf_alloc Pbuf.PBUF_TRANSPORT optlen w with
      | (None, w) => memerr pcb w
      | (Some q, w) =>
          '(s, w) ← tcp_create_segment pcb q flags_ (snd_lbb pcb) optflags w;
          match s with
          | None => memerr pcb w
          | Some s =>
              let pcb := pcb <| unsent ::= fun l => l ++ [s] |> <| unsent_oversize := 0 |> in
              let pcb := if flag_set flags_ (Z.lor TCP_SYN TCP_FIN)
                         then pcb <| snd_lbb := u32 (snd_lbb pcb + 1) |> <| snd_buf := u16 (snd_buf pcb - 1) |>
                         else pcb in
              let pcb := if flag_set flags_ TCP_FIN then pcb <| flags ::= flag_or TF_FIN |> else pcb in
              Some (ERR_OK, pcb <| snd_queuelen := u16 (snd_queuelen pcb + pbuf_clen (sg_p s)) |>, w)
          end
      end.

Definition tcp_send_fin (pcb : tcp_pcb) (w : net) : option (Z * tcp_pcb * net) :=
  match last (unsent pcb) with
  | Some s =>
      if has_flag (tcphdr s) (Z.lor TCP_SYN (Z.lor TCP_FIN TCP_RST)) then tcp_enqueue_flags pcb TCP_FIN w
      else
        Some (ERR_OK, pcb <| unsent ::= on_last (fun s => s <| tcphdr ::= TCPH_SET_FLAG TCP_FIN |>) |>
                          <| flags ::= flag_or TF_FIN |>, w)
  | None => tcp_enqueue_flags pcb TCP_FIN w
  end.

(** ** Sending *)

(** [tcp_eff_send_mss] (tcp.c) *)
Definition tcp_eff_send_mss (sendmss addr : Z) (w : net) : Z :=
  match ip_route addr (n_ip w) with
  | Some outif => if mtu outif =? 0 then sendmss else Z.min sendmss (u16 (mtu outif - IP_HLEN - TCP_HLEN))
  | None => sendmss
  end.

Definition TCP_BUILD_MSS_OPTION (mss : Z) : Z := lwip_htonl (Z.lor 0x02040000 (Z.land mss 0xFFFF)).

(** The segment with the fields that are filled in when it is sent. *)
Definition complete_seg (s : tcp_seg) (pcb : tcp_pcb) (w : net) : tcp_seg :=
  let s := s <| tcphdr ::= fun h => h <| ackno := rcv_nxt pcb |> <| wnd := rcv_ann_wnd pcb |> <| chksum := 0 |> |> in
  if flag_set (sg_flags s) TF_SEG_OPTS_MSS
  then s <| sg_p ::= write_first (ip_bytes (TCP_BUILD_MSS_OPTION (tcp_eff_send_mss TCP_MSS (remote_ip pcb) w))) |>
  else s.

(** [tcp_output_segment]; the checksum is not kept in the header of the segment,
    it is computed whenever the segment is sent. *)
Definition tcp_output_segment (s : tcp_seg) (pcb : tcp_pcb) (w : net) : option (tcp_seg * tcp_pcb * net) :=
  let s := complete_seg s pcb w in
  let pcb := pcb <| rcv_ann_right_edge := u32 (rcv_nxt pcb + rcv_ann_wnd pcb) |> in
  let pcb := if rtime pcb =? -1 then pcb <| rtime := 0 |> else pcb in
  let local := if ip_addr_isany (local_ip pcb)
               then ip_addr <$> ip_route (remote_ip pcb) (n_ip w)
               else Some (local_ip pcb) in
  match local with
  | None => Some (s, pcb, w)
  | Some ip =>
      let pcb := pcb <| local_ip := ip |> in
      let pcb := if rttest pcb =? 0 then pcb <| rttest := tcp_ticks |> <| rtseq := sg_seqno s |> else pcb in
      q ← seg_packet s;
      w ← send (tcphdr s) q (local_ip pcb) (remote_ip pcb) (ttl pcb) (tos pcb) w;
      Some (s, pcb, w)
  end.

Definition tcp_do_output_nagle (pcb : tcp_pcb) : bool :=
  bool_decide (unacked pcb = []) || flag_set (flags pcb) (Z.lor TF_NODELAY TF_INFR) ||
  match unsent pcb with
  | [] => false
  | [s] => mss pcb <=? sg_len s
  | _ => true
  end || (snd_buf pcb =? 0) || (TCP_SND_QUEUELEN <=? snd_queuelen pcb).

(** The place for a segment on a sorted queue: behind the ones that come before. *)
Fixpoint seq_insert (s : tcp_seg) (l : list tcp_seg) : list tcp_seg :=
  match l with
  | [] => [s]
  | x :: l => if TCP_SEQ_LT (sg_seqno x) (sg_seqno s) then x :: seq_insert s l else s :: x :: l
  end.
Definition add_unacked (s : tcp_seg) (l : list tcp_seg) : list tcp_seg :=
  match last l with
  | None => [s]
  | Some useg => if TCP_SEQ_LT (sg_seqno s) (sg_seqno useg) then seq_insert s l else l ++ [s]
  end.

(** The window has room for the segment. *)
Definition in_window (s : tcp_seg) (pcb : tcp_pcb) (wnd : Z) : bool :=
  u32 (sg_seqno s - lastack pcb + sg_len s) <=? wnd.

(** Behind a segment that was sent. *)
Definition after_send (s : tcp_seg) (pcb : tcp_pcb) (w : net) : option (tcp_pcb * net) :=
  let nxt := u32 (sg_seqno s + TCP_TCPLEN s) in
  let pcb := if TCP_SEQ_LT (snd_nxt pcb) nxt then pcb <| snd_nxt := nxt |> else pcb in
  if 0 <? TCP_TCPLEN s then Some (pcb <| unacked ::= add_unacked s |>, w)
  else w ← tcp_seg_free s w; Some (pcb, w).

(** The segments [l] are the unsent ones. *)
Fixpoint output_loop (wnd : Z) (l : list tcp_seg) (pcb : tcp_pcb) (w : net) {struct l} : option (tcp_pcb * net) :=
  match l with
  | [] => Some (pcb, w)
  | s :: l =>
      if negb (in_window s pcb wnd) then Some (pcb, w)
      else if negb (tcp_do_output_nagle pcb) && negb (flag_set (flags pcb) (Z.lor TF_NAGLEMEMERR TF_FIN))
      then Some (pcb, w)
      else
        let pcb := pcb <| unsent := l |> in
        let '(s, pcb) :=
          if bool_decide (state pcb = SYN_SENT) then (s, pcb)
          else (s <| tcphdr ::= TCPH_SET_FLAG TCP_ACK |>,
                pcb <| flags ::= flag_clear (Z.lor TF_ACK_DELAY TF_ACK_NOW) |>) in
        '(s, pcb, w) ← tcp_output_segment s pcb w;
        '(pcb, w) ← after_send s pcb w;
        output_loop wnd l pcb w
  end.

(** [tcp_output]; [input] tells that the block is the one whose input is being
    processed. *)
Definition tcp_output (input : bool) (pcb : tcp_pcb) (w : net) : option (Z * tcp_pcb * net) :=
  if input then Some (ERR_OK, pcb, w)
  else
    let wnd := Z.min (snd_wnd pcb) (cwnd pcb) in
    if flag_set (flags pcb) TF_ACK_NOW &&
       match unsent pcb with [] => true | s :: _ => negb (in_window s pcb wnd) end
    then tcp_send_empty_ack pcb w
    else
      '(pcb, w) ← output_loop wnd (unsent pcb) pcb w;
      let pcb := if bool_decide (unsent pcb = []) then pcb <| unsent_oversize := 0 |> else pcb in
      Some (ERR_OK, pcb <| flags ::= flag_clear TF_NAGLEMEMERR |>, w).

(** ** Retransmission *)

Definition tcp_rexmit_rto (input : bool) (pcb : tcp_pcb) (w : net) : option (tcp_pcb * net) :=
  if bool_decide (unacked pcb = []) then Some (pcb, w)
  else
    let pcb := pcb <| unsent := unacked pcb ++ unsent pcb |> <| unacked := [] |>
                   <| nrtx := u8 (nrtx pcb + 1) |> <| rttest := 0 |> in
    '(_, pcb, w) ← tcp_output input pcb w;
    Some (pcb, w).

Definition tcp_rexmit (pcb : tcp_pcb) : tcp_pcb :=
  match unacked pcb with
  | [] => pcb
  | s :: l =>
      let u := seq_insert s (unsent pcb) in
      let last_one := forallb (fun x => TCP_SEQ_LT (sg_seqno x) (sg_seqno s)) (unsent pcb) in
      pcb <| unacked := l |> <| unsent := u |>
          <| unsent_oversize ::= fun x => if last_one then 0 else x |>
          <| nrtx := u8 (nrtx pcb + 1) |> <| rttest := 0 |>
  end.

Definition tcp_rexmit_fast (pcb : tcp_pcb) : tcp_pcb :=
  if negb (bool_decide (unacked pcb = [])) && negb (flag_set (flags pcb) TF_INFR) then
    let pcb := tcp_rexmit pcb in
    let half := if snd_wnd pcb <? cwnd pcb then snd_wnd pcb / 2 else cwnd pcb / 2 in
    let thresh := if half <? 2 * mss pcb then u16 (2 * mss pcb) else half in
    pcb <| ssthresh := thresh |> <| cwnd := u16 (thresh + 3 * mss pcb) |> <| flags ::= flag_or TF_INFR |>
  else pcb.

End output.
#[global] Arguments net : clear implicits.

(** ** Slices of the data *)

Lemma length_slice S k n :
  0 <= k -> 0 <= n -> k + n <= Z.of_nat (length S) -> Z.of_nat (length (slice S k n)) = n.
Proof. intros. unfold slice. rewrite length_take, length_drop. lia. Qed.

Lemma slice_slice S k n a b :
  0 <= k -> 0 <= a -> 0 <= b -> a + b <= n -> slice (slice S k n) a b = slice S (k + a) b.
Proof.
  intros. unfold slice. rewrite Z2Nat.inj_add, <- drop_drop by lia.
  rewrite take_drop_commute, take_take, Nat.min_l, <- take_drop_commute by lia. done.
Qed.

Lemma slice_all S : slice S 0 (Z.of_nat (length S)) = S.
Proof. unfold slice. rewrite Nat2Z.id. change (Z.to_nat 0) with 0%nat. rewrite drop_0. by apply take_ge. Qed.

Lemma slice_snoc S k a b :
  0 <= k -> 0 <= a -> 0 <= b -> slice S k a ++ slice S (k + a) b = slice S k (a + b).
Proof.
  intros. unfold slice. rewrite (Z2Nat.inj_add k a), <- drop_drop, (Z2Nat.inj_add a b) by lia.
  apply take_take_drop.
Qed.

(** ** What goes out *)

(** The packets among the events of the IP layer. *)
Definition sent_packets (l : list event) : list pbuf :=
  omap (fun e => match e with Output _ q _ => Some q | Free _ => None end) l.
Lemma sent_packets_app l1 l2 : sent_packets (l1 ++ l2) = sent_packets l1 ++ sent_packets l2.
Proof. apply omap_app. Qed.

(** A packet with a TCP header and data behind an IP header without options. *)
Definition tcp_packet (q : pbuf) (h : tcp_hdr) (d : list Z) : Prop :=
  exists iphdr, length iphdr = 20%nat /\ data q = iphdr ++ tcp_hdr_bytes h ++ d.

(** The interfaces take packets of 1500 bytes in one piece. *)
Definition mtu_ok (n : netif) : Prop := mtu n = 0 \/ 1500 <= mtu n < 65536.

Section lemmas.
Context {P PS : Type} `{Pool P} `{Pool PS}.

Record net_ok (w : net P PS) : Prop := {
  no_list : Forall mtu_ok (netif_list (n_ip w));
  no_default : forall n, netif_default (n_ip w) = Some n -> mtu_ok n
}.

(** Between [w] and [w'] the packets [l] were sent; the interfaces, the addresses of
    the current packet and the pool of the segments are as before. *)
Record sends (w w' : net P PS) (l : list pbuf) : Prop := {
  sn_list : netif_list (n_ip w') = netif_list (n_ip w);
  sn_default : netif_default (n_ip w') = netif_default (n_ip w);
  sn_packets : sent_packets (events (n_ip w')) = sent_packets (events (n_ip w)) ++ l
}.
Lemma sends_refl w : sends w w [].
Proof. split; by rewrite ?app_nil_r. Qed.
Lemma sends_trans w1 w2 w3 l1 l2 : sends w1 w2 l1 -> sends w2 w3 l2 -> sends w1 w3 (l1 ++ l2).
Proof. intros [A1 A2 A3] [B1 B2 B3]. split; [by rewrite B1|by rewrite B2|by rewrite B3, A3, app_assoc]. Qed.
Lemma sends_none w1 w2 w3 l : sends w1 w2 [] -> sends w2 w3 l -> sends w1 w3 l.
Proof. apply (sends_trans w1 w2 w3 []). Qed.
Lemma sends_ok w w' l : sends w w' l -> net_ok w -> net_ok w'.
Proof. intros [E1 E2 _] [H1 H2]. split; [by rewrite E1|]. intros n. rewrite E2. apply H2. Qed.

Lemma pbuf_free_sends q w : sends w (pbuf_free q w) [] /\ n_segs (pbuf_free q w) = n_segs w.
Proof.
  split; [|done]. split; [done|done|]. cbn. by rewrite sent_packets_app.
Qed.
Lemma pbuf_alloc_sends ram layer n w r w' :
  pbuf_alloc ram layer n w = (r, w') -> sends w w' [] /\ n_segs w' = n_segs w /\
    (forall q, r = Some q -> segs q = [replicate (Z.to_nat n) 0] /\
       length (before q) = Z.to_nat (Mem.LWIP_MEM_ALIGN_SIZE (Pbuf.header_offset layer))).
Proof.
  unfold pbuf_alloc, alloc_ram. intros [= <- <-]. split; [split; by rewrite ?app_nil_r|]. split; [done|].
  intros q. destruct (ram _); [|done]. intros [= <-]. cbn. by rewrite length_replicate.
Qed.

Lemma route_mtu w d n : net_ok w -> ip_route d (n_ip w) = Some n -> mtu_ok n.
Proof.
  intros [Hl Hd]. unfold ip_route. destruct (route_loop _ d) as [x|] eqn:E.
  - intros [= <-]. clear Hd. induction Hl as [|y l Hy Hl IH]; [done|]. cbn in E.
    destruct (netif_is_up y && _); [by injection E as <-|by apply IH].
  - destruct (netif_default (n_ip w)) as [x|] eqn:Ed; [|done]. destruct (netif_is_up x); [|done].
    intros [= <-]. by apply Hd.
Qed.

(** A packet of at most 1480 bytes goes out in one piece, if it goes out. *)
Lemma ip_output_one output_err frag_ram frag_ref q s d ttl tos proto w :
  net_ok w -> segs q <> [] -> Z.of_nat (length (data q)) <= 1480 ->
  exists err st' l, ip_output output_err frag_ram frag_ref q s d ttl tos proto (n_ip w) = Some (err, st') /\
    sends w (mkNet st' (n_segs w)) l /\
    (forall q', q' ∈ l -> exists iphdr, length iphdr = 20%nat /\ data q' = iphdr ++ data q) /\
    (length l <= 1)%nat.
Proof.
  intros Hok Hs Hl. unfold ip_output. destruct (ip_route d (n_ip w)) as [n|] eqn:Er.
  2:{ exists ERR_RTE, (n_ip w), []. split; [done|]. split; [destruct w; apply sends_refl|]. split; [set_solver|cbn; lia]. }
  pose proof (route_mtu _ _ _ Hok Er) as Hm. unfold ip_output_if, ip_output_if_opt.
  change (put_options q []) with (Some (q, 0, IP_HLEN)).
  destruct (decide (20 <= length (before q))%nat) as [Hroom|Hno].
  - destruct (ip_header_room q IP_HLEN) as (q2 & E & _ & Hs2 & Hf2 & W2); [done|done|done|].
    rewrite E. clear E. set (h := build_header _ _ _ _ _ _ _ _ _ _).
    destruct (W2 (ip_hdr_bytes h)) as (D & _ & _); [done|]. unfold output_packet, put_ip_hdr.
    assert (Ht : tot_len (write_first (ip_hdr_bytes h) q2) = 20 + Z.of_nat (length (data q))).
    { unfold tot_len. rewrite D, length_app, length_ip_hdr_bytes, u16_small; unfold in_u16; lia. }
    rewrite Ht. destruct (negb (mtu n =? 0) && (mtu n <? 20 + Z.of_nat (length (data q)))) eqn:Efit.
    { apply andb_true_iff in Efit as [Ef1%negb_true_iff%Z.eqb_neq Ef2%Z.ltb_lt]. destruct Hm; lia. }
    eexists _, _, [write_first (ip_hdr_bytes h) q2]. clearbody h. split; [reflexivity|]. split; [|split; [|cbn; lia]].
    + split; [done|done|]. cbn. rewrite sent_packets_app. done.
    + intros q' ->%list_elem_of_singleton. exists (ip_hdr_bytes h). split; [apply length_ip_hdr_bytes|]. exact D.
  - rewrite header_no_room by (unfold IP_HLEN; lia).
    exists ERR_BUF, (n_ip w), []. split; [done|]. split; [destruct w; apply sends_refl|]. split; [set_solver|cbn; lia].
Qed.

(** The bytes over those at the beginning of the first buffer. *)
Lemma write_first_data b q d :
  data q = b ++ d -> (length b <= length (first q))%nat ->
  forall b', length b' = length b -> data (write_first b' q) = b' ++ d /\ segs (write_first b' q) <> [] \/ segs q = [].
Proof.
  intros Hd Hl b' Hb. unfold write_first, data, first in *. destruct (segs q) as [|s l]; [by right|left].
  cbn [segs hd] in *. rewrite !mjoin_cons in *. split; [|done]. rewrite <- app_assoc. f_equal. rewrite Hb.
  apply (f_equal (drop (length b))) in Hd. rewrite drop_app_length, drop_app_le in Hd by done. exact Hd.
Qed.

Lemma pseudo_range p s d proto n : in_u16 (inet_chksum_pseudo p s d proto n).
Proof. unfold inet_chksum_pseudo. destruct (fold_left _ _ _). apply u16_range. Qed.

(** What [send] does with a packet behind whose first 20 bytes the data [d] is. *)
Lemma tcp_send_spec output_err frag_ram frag_ref h q b d lip rip ttl tos (w : net P PS) :
  net_ok w -> data q = b ++ d -> length b = 20%nat -> (20 <= length (first q))%nat ->
  Z.of_nat (length d) <= 1460 ->
  exists w' l, send output_err frag_ram frag_ref h q lip rip ttl tos w = Some w' /\ sends w w' l /\
    n_segs w' = n_segs w /\ (length l <= 1)%nat /\
    forall q', q' ∈ l -> exists c, in_u16 c /\ tcp_packet q' (h <| chksum := c |>) d.
Proof.
  intros Hok Hd Hb Hf Hl. unfold send.
  set (c := inet_chksum_pseudo _ _ _ _ _). set (h' := h <| chksum := c |>).
  assert (Hc : in_u16 c) by apply pseudo_range.
  destruct (write_first_data b q d Hd ltac:(lia) (tcp_hdr_bytes h')) as [[E Hs]|E]; [by rewrite length_tcp_hdr| |].
  - destruct (ip_output_one output_err frag_ram frag_ref (write_first (tcp_hdr_bytes h') q) lip rip ttl tos IP_PROTO_TCP w)
      as (err & st' & l & -> & S & Hq & Hn); [done|done|rewrite E, length_app, length_tcp_hdr; lia|].
    cbn [mbind option_bind]. eexists _, l. split; [done|]. split; [done|]. split; [done|]. split; [done|].
    intros q' Hin. destruct (Hq q' Hin) as (iphdr & L & D). exists c. split; [done|]. exists iphdr. by rewrite D, E.
  - exfalso. unfold first in Hf. rewrite E in Hf. cbn in Hf. lia.
Qed.

End lemmas.

End TcpOut.
