(* ===== verification/TcpIn.v ===== *)
(** * TCP input on one connection (lwip/core/tcp_in.c)

    What an incoming segment does to the control block of its connection:
    acknowledgements free segments and open the windows, data in sequence is
    trimmed to the receive window and handed up, options are parsed.  The static
    variables of tcp_in.c are the record [input]. *)

From S2P Require Import Prelude LwipDef InetChksum IpAddr Mem Memp Pbuf Packet IpFrag Ip TcpDef TcpOut.

#[local] Open Scope Z_scope.

Module TcpIn.
Import LwipDef InetChksum IpAddr Packet Ip TcpDef TcpOut.
#[local] Open Scope update_scope.

(** The segment that is being processed: [inseg], with the bytes behind the fixed
    header and the flags of its packet, [seqno], [ackno], [flags], [tcplen],
    [recv_flags] and [recv_data]. *)
Record input := mkInput {
  in_hdr : tcp_hdr; in_opts : list Z; in_pflags : Z;
  in_seqno : Z; in_ackno : Z; in_flags : Z; in_tcplen : Z;
  inseg_p : option pbuf; inseg_len : Z; recv_flags : Z; recv_data : option pbuf
}.
Ltac input_setter proj :=
  make_setter (fun i =>
    mkInput (in_hdr i) (in_opts i) (in_pflags i) (in_seqno i) (in_ackno i) (in_flags i) (in_tcplen i)
      (inseg_p i) (inseg_len i) (recv_flags i) (recv_data i)) proj.
#[export] Instance set_in_hdr : Setter in_hdr := ltac:(input_setter in_hdr).
#[export] Instance set_in_pflags : Setter in_pflags := ltac:(input_setter in_pflags).
#[export] Instance set_in_seqno : Setter in_seqno := ltac:(input_setter in_seqno).
#[export] Instance set_in_tcplen : Setter in_tcplen := ltac:(input_setter in_tcplen).
#[export] Instance set_inseg_p : Setter inseg_p := ltac:(input_setter inseg_p).
#[export] Instance set_inseg_len : Setter inseg_len := ltac:(input_setter inseg_len).
#[export] Instance set_recv_flags : Setter recv_flags := ltac:(input_setter recv_flags).
#[export] Instance set_recv_data : Setter recv_data := ltac:(input_setter recv_data).

(** The variables for the segment with the header [h], the bytes [opts] behind it in
    the first buffer, and the packet [q] behind the whole header ([tcp_input]). *)
Definition segment_of (h : tcp_hdr) (opts : list Z) (q : pbuf) : input :=
  let f := TCPH_FLAGS h in
  mkInput h opts (if flag_set f TCP_PSH then PBUF_FLAG_PUSH else 0) (seqno h) (ackno h) f
    (u16 (tcplen_of (tot_len q) h)) (Some q) (tot_len q) 0 None.

Definition is_ack (i : input) : bool := flag_set (in_flags i) TCP_ACK.

Definition tcp_ack_now (pcb : tcp_pcb) : tcp_pcb := pcb <| flags ::= flag_or TF_ACK_NOW |>.
Definition tcp_ack (pcb : tcp_pcb) : tcp_pcb :=
  if flag_set (flags pcb) TF_ACK_DELAY
  then pcb <| flags ::= flag_clear TF_ACK_DELAY |> <| flags ::= flag_or TF_ACK_NOW |>
  else pcb <| flags ::= flag_or TF_ACK_DELAY |>.

(** [tcp_update_rcv_ann_wnd] (tcp.c): how much more the window would be, and the
    block. *)
Definition tcp_update_rcv_ann_wnd (pcb : tcp_pcb) : Z * tcp_pcb :=
  let new_right_edge := u32 (rcv_nxt pcb + rcv_wnd pcb) in
  if TCP_SEQ_GEQ new_right_edge (u32 (rcv_ann_right_edge pcb + Z.min (TCP_WND / 2) (mss pcb))) then
    (u32 (new_right_edge - rcv_ann_right_edge pcb), pcb <| rcv_ann_wnd := rcv_wnd pcb |>)
  else if TCP_SEQ_GT (rcv_nxt pcb) (rcv_ann_right_edge pcb) then (0, pcb <| rcv_ann_wnd := 0 |>)
  else (0, pcb <| rcv_ann_wnd := u16 (u32 (rcv_ann_right_edge pcb - rcv_nxt pcb)) |>).

(** The block of [tcp_recved] (tcp.c), which has read [len] bytes. *)
Definition recved (len : Z) (pcb : tcp_pcb) : Z * tcp_pcb :=
  tcp_update_rcv_ann_wnd
    (pcb <| rcv_wnd ::= fun x => let x := u16 (x + len) in if TCP_WND <? x then TCP_WND else x |>).

(** ** Options *)

Section options.
(** What lies in memory behind the first buffer. *)
Variable stale : list Z.

(** No result when the fuel is used up or memory that is not known is read. *)
Fixpoint parseopt_loop (fuel : nat) (opts : list Z) (c max_c : Z) (pcb : tcp_pcb) {struct fuel} : option tcp_pcb :=
  if negb (c <? max_c) then Some pcb
  else
    match fuel with
    | O => None
    | S fuel =>
        opt ← rd opts c;
        if opt =? 0x00 then Some pcb
        else if opt =? 0x01 then parseopt_loop fuel opts (u16 (c + 1)) max_c pcb
        else if opt =? 0x02 then
          l ← rd opts (c + 1);
          if negb (l =? 0x04) || (max_c <? c + 0x04) then Some pcb
          else
            b1 ← rd opts (c + 2);
            b2 ← rd opts (c + 3);
            let mss_ := Z.lor (Z.shiftl b1 8) b2 in
            let m := if (TCP_MSS <? mss_) || (mss_ =? 0) then TCP_MSS else mss_ in
            parseopt_loop fuel opts (u16 (c + 0x04)) max_c (pcb <| mss := m |>)
        else
          l ← rd opts (c + 1);
          if l =? 0 then Some pcb else parseopt_loop fuel opts (u16 (c + l)) max_c pcb
    end.
Definition tcp_parseopt (i : input) (pcb : tcp_pcb) : option tcp_pcb :=
  if 0x5 <? TCPH_HDRLEN (in_hdr i) then
    let max_c := u16 (Z.shiftl (TCPH_HDRLEN (in_hdr i) - 5) 2) in
    parseopt_loop (Z.to_nat max_c) (in_opts i ++ stale) 0 max_c pcb
  else Some pcb.
End options.

Section receive.
Context {P PS : Type} `{Pool P} `{Pool PS}.
Variable output_err : nat -> Z.
Variables frag_ram frag_ref : nat -> nat -> bool.
Variable ram : nat -> bool.
Variable tcp_ticks : Z.

(** ** Acknowledgements *)

(** The window of the other side, with the persist timer. *)
Definition update_window (i : input) (pcb : tcp_pcb) : tcp_pcb :=
  let wnd := wnd (in_hdr i) in
  if TCP_SEQ_LT (snd_wl1 pcb) (in_seqno i) ||
     ((snd_wl1 pcb =? in_seqno i) && TCP_SEQ_LT (snd_wl2 pcb) (in_ackno i)) ||
     ((snd_wl2 pcb =? in_ackno i) && (snd_wnd pcb <? wnd))
  then
    let pcb := pcb <| snd_wnd := wnd |> <| snd_wnd_max ::= fun m => if m <? wnd then wnd else m |>
                   <| snd_wl1 := in_seqno i |> <| snd_wl2 := in_ackno i |> in
    if wnd =? 0 then
      if persist_backoff pcb =? 0 then pcb <| persist_cnt := 0 |> <| persist_backoff := 1 |> else pcb
    else if 0 <? persist_backoff pcb then pcb <| persist_backoff := 0 |> else pcb
  else pcb.

(** The acknowledgement number is not above the highest one. *)
Definition duplicate_ack (i : input) (right_wnd_edge : Z) (pcb : tcp_pcb) : tcp_pcb :=
  let pcb := pcb <| acked := 0 |> in
  if (in_tcplen i =? 0) && (u32 (snd_wl2 pcb + snd_wnd pcb) =? right_wnd_edge) && (0 <=? rtime pcb) &&
     (lastack pcb =? in_ackno i)
  then
    let pcb := if dupacks pcb <? u8 (dupacks pcb + 1) then pcb <| dupacks := u8 (dupacks pcb + 1) |> else pcb in
    if 3 <? dupacks pcb then
      if cwnd pcb <? u16 (cwnd pcb + mss pcb) then pcb <| cwnd := u16 (cwnd pcb + mss pcb) |> else pcb
    else if dupacks pcb =? 3 then tcp_rexmit_fast pcb else pcb
  else pcb <| dupacks := 0 |>.

(** The segments at the head of a queue that are acknowledged are freed. *)
Fixpoint ack_loop (covered : tcp_seg -> bool) (l : list tcp_seg) (pcb : tcp_pcb) (w : net P PS) {struct l}
    : option (list tcp_seg * tcp_pcb * net P PS) :=
  match l with
  | [] => Some ([], pcb, w)
  | s :: l' =>
      if covered s then
        let pcb := if negb (acked pcb =? 0) && has_flag (tcphdr s) TCP_FIN
                   then pcb <| acked := u16 (acked pcb - 1) |> else pcb in
        let pcb := pcb <| snd_queuelen := u16 (snd_queuelen pcb - pbuf_clen (sg_p s)) |> in
        w ← tcp_seg_free s w;
        ack_loop covered l' pcb w
      else Some (l, pcb, w)
  end.

(** The congestion window grows; no result when it is 0. *)
Definition grow_cwnd (pcb : tcp_pcb) : option tcp_pcb :=
  if cwnd pcb <? ssthresh pcb then
    Some (if cwnd pcb <? u16 (cwnd pcb + mss pcb) then pcb <| cwnd := u16 (cwnd pcb + mss pcb) |> else pcb)
  else if cwnd pcb =? 0 then None
  else
    let new_cwnd := u16 (cwnd pcb + mss pcb * mss pcb / cwnd pcb) in
    Some (if cwnd pcb <? new_cwnd then pcb <| cwnd := new_cwnd |> else pcb).

Definition segment_end (s : tcp_seg) : Z := u32 (sg_seqno s + TCP_TCPLEN s).

(** The acknowledgement number acknowledges new data. *)
Definition new_ack (i : input) (pcb : tcp_pcb) (w : net P PS) : option (tcp_pcb * net P PS) :=
  let pcb := if flag_set (flags pcb) TF_INFR
             then pcb <| flags ::= flag_clear TF_INFR |> <| cwnd := ssthresh pcb |> else pcb in
  let n := u16 (u32 (in_ackno i - lastack pcb)) in
  let pcb := pcb <| nrtx := 0 |> <| rto := s16 (Z.shiftr (sa pcb) 3 + sv pcb) |> <| acked := n |>
                 <| snd_buf := u16 (snd_buf pcb + n) |> <| dupacks := 0 |> <| lastack := in_ackno i |> in
  pcb ← (if state_num ESTABLISHED <=? state_num (state pcb) then grow_cwnd pcb else Some pcb);
  '(l, pcb, w) ← ack_loop (fun s => TCP_SEQ_LEQ (segment_end s) (in_ackno i)) (unacked pcb) pcb w;
  Some (pcb <| unacked := l |> <| rtime := if bool_decide (l = []) then -1 else 0 |> <| polltmr := 0 |>, w).

(** The round trip of the segment that is timed. *)
Definition estimate_rtt (i : input) (pcb : tcp_pcb) : tcp_pcb :=
  if negb (rttest pcb =? 0) && TCP_SEQ_LT (rtseq pcb) (in_ackno i) then
    let m := s16 (tcp_ticks - rttest pcb) in
    let m := s16 (m - Z.shiftr (sa pcb) 3) in
    let sa_ := s16 (sa pcb + m) in
    let m := if m <? 0 then s16 (- m) else m in
    let m := s16 (m - Z.shiftr (sv pcb) 2) in
    let sv_ := s16 (sv pcb + m) in
    pcb <| sa := sa_ |> <| sv := sv_ |> <| rto := s16 (Z.shiftr sa_ 3 + sv_) |> <| rttest := 0 |>
  else pcb.

(** The part of [tcp_receive] for segments with an acknowledgement. *)
Definition receive_ack (i : input) (pcb : tcp_pcb) (w : net P PS) : option (tcp_pcb * net P PS) :=
  let right_wnd_edge := u32 (snd_wnd pcb + snd_wl2 pcb) in
  let pcb := update_window i pcb in
  '(pcb, w) ←
    (if TCP_SEQ_LEQ (in_ackno i) (lastack pcb) then Some (duplicate_ack i right_wnd_edge pcb, w)
     else if TCP_SEQ_BETWEEN (in_ackno i) (u32 (lastack pcb + 1)) (snd_nxt pcb) then new_ack i pcb w
     else Some (pcb <| acked := 0 |>, w));
  '(l, pcb, w) ← ack_loop (fun s => TCP_SEQ_BETWEEN (in_ackno i) (segment_end s) (snd_nxt pcb)) (unsent pcb) pcb w;
  let pcb := if bool_decide (unsent pcb <> []) && bool_decide (l = []) then pcb <| unsent_oversize := 0 |> else pcb in
  Some (estimate_rtt i (pcb <| unsent := l |>), w).

(** ** Data *)

(** The first [off] bytes of a chain are skipped: the buffers that are skipped
    stay in the chain with length 0.  No result when the chain is shorter, or when
    the offset in the last one is not a [s16_t]. *)
Fixpoint trim_front (off : nat) (l : list (list Z)) : option (list (list Z)) :=
  match l with
  | [] => None
  | s :: l =>
      if (length s <? off)%nat then l ← trim_front (off - length s) l; Some ([] :: l)
      else if (32768 <? Z.of_nat off) then None else Some (drop off s :: l)
  end.

(** The beginning of the segment that was received before is cut off. *)
Definition trim_first_edge (i : input) (pcb : tcp_pcb) : option (input * tcp_pcb) :=
  if TCP_SEQ_BETWEEN (rcv_nxt pcb) (u32 (in_seqno i + 1)) (u32 (in_seqno i + in_tcplen i - 1)) then
    p ← inseg_p i;
    let off := u32 (rcv_nxt pcb - in_seqno i) in
    l ← trim_front (Z.to_nat off) (segs p);
    Some (i <| inseg_p := Some (mkPbuf (before p) l) |> <| inseg_len := u16 (inseg_len i - u16 off) |>
            <| in_hdr ::= fun h => h <| seqno := rcv_nxt pcb |> |> <| in_seqno := rcv_nxt pcb |>, pcb)
  else Some (i, if TCP_SEQ_LT (in_seqno i) (rcv_nxt pcb) then tcp_ack_now pcb else pcb).

(** What is above the receive window is cut off, the FIN first. *)
Definition trim_last_edge (i : input) (pcb : tcp_pcb) : option input :=
  let i := i <| in_tcplen := u16 (tcplen_of (inseg_len i) (in_hdr i)) |> in
  if rcv_wnd pcb <? in_tcplen i then
    let h := in_hdr i in
    let h := if has_flag h TCP_FIN then TCPH_FLAGS_SET (Z.land (TCPH_FLAGS h) (u32 (Z.lnot TCP_FIN))) h else h in
    let n := if has_flag h TCP_SYN then u16 (rcv_wnd pcb - 1) else rcv_wnd pcb in
    p ← inseg_p i;
    Some (i <| in_hdr := h |> <| inseg_len := n |> <| inseg_p := Some (pbuf_realloc p n) |>
            <| in_tcplen := u16 (tcplen_of n h) |>)
  else Some i.

(** The segment is the next one in sequence. *)
Definition take_segment (i : input) (pcb : tcp_pcb) : option (input * tcp_pcb) :=
  i ← trim_last_edge i pcb;
  let pcb := pcb <| rcv_nxt := u32 (in_seqno i + in_tcplen i) |> <| rcv_wnd := u16 (rcv_wnd pcb - in_tcplen i) |> in
  let pcb := (tcp_update_rcv_ann_wnd pcb).2 in
  p ← inseg_p i;
  let i := if 0 <? tot_len p then i <| recv_data := Some p |> <| inseg_p := None |> else i in
  let i := if has_flag (in_hdr i) TCP_FIN then i <| recv_flags ::= flag_or TF_GOT_FIN |> else i in
  Some (i, tcp_ack pcb).

Definition receive_data (i : input) (pcb : tcp_pcb) (w : net P PS) : option (input * tcp_pcb * net P PS) :=
  let empty_ack i pcb w :=
    '(_, pcb, w) ← tcp_send_empty_ack output_err frag_ram frag_ref ram pcb w; Some (i, pcb, w) in
  if (0 <? in_tcplen i) && (state_num (state pcb) <? state_num CLOSE_WAIT) then
    '(i, pcb) ← trim_first_edge i pcb;
    if TCP_SEQ_BETWEEN (in_seqno i) (rcv_nxt pcb) (u32 (rcv_nxt pcb + rcv_wnd pcb - 1)) then
      if rcv_nxt pcb =? in_seqno i then '(i, pcb) ← take_segment i pcb; Some (i, pcb, w)
      else empty_ack i pcb w
    else empty_ack i pcb w
  else
    Some (i, if negb (TCP_SEQ_BETWEEN (in_seqno i) (rcv_nxt pcb) (u32 (rcv_nxt pcb + rcv_wnd pcb - 1)))
             then tcp_ack_now pcb else pcb, w).

Definition tcp_receive (i : input) (pcb : tcp_pcb) (w : net P PS) : option (input * tcp_pcb * net P PS) :=
  '(pcb, w) ← (if is_ack i then receive_ack i pcb w else Some (pcb, w));
  receive_data i pcb w.

End receive.

(** ** The announced window *)

(** The block stands for these numbers: the next sequence number, the window and
    the right edge that was announced. *)
Record receiver_numbers (pcb : tcp_pcb) (nxt edge : Z) : Prop := {
  rn_nxt : rcv_nxt pcb = u32 nxt; rn_edge : rcv_ann_right_edge pcb = u32 edge;
  rn_wnd : 0 <= rcv_wnd pcb <= TCP_WND; rn_mss : 0 <= mss pcb <= TCP_MSS;
  rn_near : -1000000000 <= edge - nxt <= TCP_WND
}.

Lemma update_ann_spec pcb nxt edge :
  receiver_numbers pcb nxt edge ->
  let pcb' := (tcp_update_rcv_ann_wnd pcb).2 in
  rcv_ann_wnd pcb' =
    (if edge + Z.min (TCP_WND / 2) (mss pcb) <=? nxt + rcv_wnd pcb then rcv_wnd pcb else Z.max 0 (edge - nxt)) /\
  (tcp_update_rcv_ann_wnd pcb).1 =
    (if edge + Z.min (TCP_WND / 2) (mss pcb) <=? nxt + rcv_wnd pcb then nxt + rcv_wnd pcb - edge else 0).
Proof.
  intros [En Ee Hw Hm Hnear]. change (TCP_WND / 2) with 1460 in *. unfold TCP_WND, TCP_MSS in *.
  unfold tcp_update_rcv_ann_wnd. change (TCP_WND / 2) with 1460. rewrite En, Ee, !u32_add_l, seq_geq, seq_gt by lia.
  destruct (Z.leb_spec (edge + Z.min 1460 (mss pcb)) (nxt + rcv_wnd pcb)); cbn.
  - split; [done|]. unfold u32. rewrite <- Zminus_mod. apply u32_small. unfold in_u32. lia.
  - destruct (Z.ltb_spec edge nxt); cbn; [split; lia|]. split; [|done].
    unfold u32. rewrite <- Zminus_mod. fold (u32 (edge - nxt)). rewrite u32_small, u16_small; unfold in_u32, in_u16; lia.
Qed.

(** Both change one field. *)
Lemma update_ann_shape pcb :
  exists x, (tcp_update_rcv_ann_wnd pcb).2 = pcb <| rcv_ann_wnd := x |> /\ (in_u16 (rcv_wnd pcb) -> in_u16 x).
Proof.
  unfold tcp_update_rcv_ann_wnd. destruct (TCP_SEQ_GEQ _ _); [by eexists|]. destruct (TCP_SEQ_GT _ _).
  - by exists 0.
  - eexists. split; [done|]. intros _. apply u16_range.
Qed.
Lemma tcp_ack_shape pcb : exists x, tcp_ack pcb = pcb <| flags := x |>.
Proof. unfold tcp_ack. case_match; by eexists. Qed.

(** C39: the window that is announced never shrinks and never is larger than the
    space there is: the right edge of the window stays where it was announced, or
    at the next byte when that is above, until there is room for a segment or half
    the window more; then the whole space is announced, and the result is by how
    much the right edge moves. *)
Theorem announced_window pcb nxt edge :
  receiver_numbers pcb nxt edge -> edge <= nxt + rcv_wnd pcb ->
  let '(inflation, pcb') := tcp_update_rcv_ann_wnd pcb in
  edge <= nxt + rcv_ann_wnd pcb' <= nxt + rcv_wnd pcb /\
  (nxt + rcv_ann_wnd pcb' = Z.max edge nxt /\ inflation = 0 \/
   nxt + rcv_ann_wnd pcb' = nxt + rcv_wnd pcb /\ inflation = nxt + rcv_wnd pcb - edge /\
   Z.min (TCP_WND / 2) (mss pcb) <= inflation).
Proof.
  intros Hn He. pose proof (update_ann_spec _ _ _ Hn) as [E1 E2]. destruct Hn as [_ _ Hw Hm _].
  destruct (tcp_update_rcv_ann_wnd pcb) as [infl pcb']. cbn [fst snd] in *. rewrite E1, E2.
  change (TCP_WND / 2) with 1460 in *. unfold TCP_WND, TCP_MSS in *.
  destruct (Z.leb_spec (edge + Z.min 1460 (mss pcb)) (nxt + rcv_wnd pcb)); lia.
Qed.

(** 2000 of 2920 bytes of the window are free; the right edge was announced at the
    next byte but 100. *)
Definition windowed : tcp_pcb :=
  (fresh_pcb TCP_PRIO_NORMAL 0 1 0) <| rcv_nxt := 0xffffff00 |> <| rcv_wnd := 2000 |> <| rcv_ann_right_edge := 0xffffff64 |>.
Lemma announced_window_witness :
  receiver_numbers windowed 0xffffff00 0xffffff64 /\
  let '(inflation, pcb') := tcp_update_rcv_ann_wnd windowed in
  0xffffff64 <= 0xffffff00 + rcv_ann_wnd pcb' <= 0xffffff00 + 2000 /\
  (0xffffff00 + rcv_ann_wnd pcb' = 0xffffff64 /\ inflation = 0 \/
   0xffffff00 + rcv_ann_wnd pcb' = 0xffffff00 + 2000 /\ inflation = 1900 /\ 536 <= inflation).
Proof.
  assert (Hn : receiver_numbers windowed 0xffffff00 0xffffff64) by (split; vm_compute; intuition discriminate).
  split; [exact Hn|]. exact (announced_window windowed 0xffffff00 0xffffff64 Hn ltac:(vm_compute; discriminate)).
Defined.

End TcpIn.
