(* ===== verification/TcpWrite.v ===== *)
(** * TCP: writing data (theorems about [tcp_write])

    The stream of the application and the segments of a queue that hold it:
    [chain] says that the segments of a queue follow each other without gaps,
    with the bytes and the sequence numbers of the stream.  [tcp_write] appends to
    the stream and to the queue, whichever of its three phases does it. *)

From S2P Require Import Prelude LwipDef InetChksum IpAddr Mem Memp Pbuf Packet IpFrag Ip TcpDef TcpOut.

#[local] Open Scope Z_scope.

Module TcpWrite.
Import LwipDef InetChksum IpAddr Packet Ip TcpDef TcpOut.
#[local] Open Scope update_scope.

(** ** The queues and the stream of the application *)

(** A header of a data segment: five words, no flags but PSH and ACK. *)
Record plain_header (h : tcp_hdr) : Prop := {
  ph_ok : tcp_hdr_ok h;
  ph_flags : _hdrlen_rsvd_flags h ∈ [0x5000; 0x5008; 0x5010; 0x5018]
}.

(** The segment has the bytes from [k] on of the stream [D], whose first byte has the
    sequence number [B]. *)
Record data_segment (B : Z) (D : list Z) (k : Z) (s : tcp_seg) : Prop := {
  ds_seqno : sg_seqno s = u32 (B + k);
  ds_range : 0 <= k /\ k + sg_len s <= Z.of_nat (length D);
  ds_len : 0 < sg_len s <= TCP_MSS;
  ds_opts : sg_flags s = 0;
  ds_data : data (sg_p s) = slice D k (sg_len s);
  ds_segs : segs (sg_p s) <> []; ds_room : (40 <= length (before (sg_p s)))%nat;
  ds_hdr : plain_header (tcphdr s)
}.

(** The segments follow each other from [k] to [e]. *)
Fixpoint chain (B : Z) (D : list Z) (k : Z) (l : list tcp_seg) (e : Z) : Prop :=
  match l with
  | [] => k = e
  | s :: l => data_segment B D k s /\ chain B D (k + sg_len s) l e
  end.

Lemma chain_app B D k l1 l2 e : chain B D k (l1 ++ l2) e <-> exists m, chain B D k l1 m /\ chain B D m l2 e.
Proof.
  revert k. induction l1 as [|s l1 IH]; intros k; cbn.
  - split; [by exists k|]. by intros (m & -> & ?).
  - rewrite IH. split; [intros (? & m & ? & ?); by exists m|intros (m & (? & ?) & ?); split; [done|by exists m]].
Qed.

Lemma slice_app_l D d k n :
  0 <= k -> k + n <= Z.of_nat (length D) -> slice (D ++ d) k n = slice D k n.
Proof.
  intros. unfold slice. destruct (decide (n < 0)); [by replace (Z.to_nat n) with 0%nat by lia|].
  rewrite drop_app_le, take_app_le by (rewrite ?length_drop; lia). done.
Qed.
Lemma slice_app_r D d k n :
  Z.of_nat (length D) <= k -> slice (D ++ d) k n = slice d (k - Z.of_nat (length D)) n.
Proof. intros. unfold slice. rewrite drop_app_ge by lia. do 2 f_equal. lia. Qed.

(** The stream can grow. *)
Lemma data_segment_grow B D d k s : data_segment B D k s -> data_segment B (D ++ d) k s.
Proof.
  intros [H1 H2 H3 H4 H5 H6 H7 H8]. split; try done.
  - rewrite length_app. lia.
  - rewrite H5. symmetry. apply slice_app_l; lia.
Qed.
Lemma chain_grow B D d k l e : chain B D k l e -> chain B (D ++ d) k l e.
Proof. revert k. induction l; intros k; cbn; [done|]. intros [? ?]. split; [by apply data_segment_grow|auto]. Qed.
Lemma chain_le B D k l e : chain B D k l e -> k <= e.
Proof.
  revert k. induction l as [|s l IH]; intros k; cbn; [lia|]. intros [Hs Hc]. apply IH in Hc.
  pose proof (ds_len _ _ _ _ Hs). lia.
Qed.

(** The queue consists of the segments [u] and of some that hold the rest of the
    stream from [m] on; the former are not the last ones. *)
Definition tail_chain (B : Z) (D : list Z) (u : list tcp_seg) (m : Z) (l : list tcp_seg) : Prop :=
  exists l2, l = u ++ l2 /\ (l2 = [] -> u = []) /\ chain B D m l2 (Z.of_nat (length D)).
Lemma tail_chain_cases B D u m l :
  tail_chain B D u m l ->
  l = [] /\ u = [] /\ m = Z.of_nat (length D) \/
  exists l2 s k, l = u ++ l2 ++ [s] /\ chain B D m l2 k /\ data_segment B D k s /\ k + sg_len s = Z.of_nat (length D).
Proof.
  intros (l2 & -> & Hu & Hc). destruct l2 as [|s l2 _] using rev_ind.
  - left. rewrite Hu by done. done.
  - right. apply chain_app in Hc as (k & H1 & H2 & H3). by exists l2, s, k.
Qed.

Lemma on_last_snoc f l s : on_last f (l ++ [s]) = l ++ [f s].
Proof.
  unfold on_last. rewrite last_snoc. rewrite length_app. cbn.
  replace (length l + 1 - 1)%nat with (length l) by lia. by rewrite take_app_length.
Qed.

(** A change of the flags of a header keeps the segment. *)
Lemma plain_set_flag h f : f = TCP_PSH \/ f = TCP_ACK -> plain_header h -> plain_header (TCPH_SET_FLAG f h).
Proof.
  intros Hf [[H1 H2 H3 H4 H5 H6 H7 H8] Hfl]. split; [split; try done|].
  - unfold TCPH_SET_FLAG, flag_or. cbn. rewrite !elem_of_cons, elem_of_nil in Hfl.
    destruct Hf as [-> | ->], Hfl as [-> | [-> | [-> | [-> | []]]]]; done.
  - unfold TCPH_SET_FLAG, flag_or. cbn. rewrite !elem_of_cons, elem_of_nil in *.
    destruct Hf as [-> | ->], Hfl as [-> | [-> | [-> | [-> | []]]]]; cbn; tauto.
Qed.

Lemma plain_flags h : plain_header h ->
  has_flag h TCP_FIN = false /\ has_flag h TCP_SYN = false /\ has_flag h TCP_RST = false /\ TCPH_HDRLEN h = 5.
Proof.
  intros [_ Hf]. unfold has_flag, TCPH_FLAGS, TCPH_HDRLEN. rewrite !elem_of_cons, elem_of_nil in Hf.
  destruct Hf as [-> | [-> | [-> | [-> | []]]]]; done.
Qed.
Lemma plain_tcplen s : plain_header (tcphdr s) -> TCP_TCPLEN s = sg_len s.
Proof.
  intros (E1 & E2 & _)%plain_flags. unfold TCP_TCPLEN, tcplen_of.
  unfold has_flag in *. rewrite flag_set_lor, E1, E2. cbn. lia.
Qed.

Lemma data_segment_hdr B D k s h :
  data_segment B D k s -> plain_header h -> seqno h = sg_seqno s -> data_segment B D k (s <| tcphdr := h |>).
Proof. intros [H1 H2 H3 H4 H5 H6 H7 H8] Hh Hs. split; try done. cbn. by rewrite <- H1, <- Hs. Qed.

(** *** Writing *)

(** The number of packet buffers of some segments. *)
Definition clen (q : pbuf) : Z := Z.of_nat (length (segs q)).
Definition buffers (l : list tcp_seg) : Z := foldr (fun s n => clen (sg_p s) + n) 0 l.
Lemma buffers_app l1 l2 : buffers (l1 ++ l2) = buffers l1 + buffers l2.
Proof. unfold buffers. induction l1; cbn [app foldr]; lia. Qed.
Lemma buffers_nonneg l : 0 <= buffers l.
Proof. unfold buffers, clen. induction l; cbn [foldr]; lia. Qed.

Lemma length_extend d l : length (extend_tail d l) = length l.
Proof. induction l as [|s [|x l] IH]; [done|done|]. cbn [extend_tail length] in *. by rewrite IH. Qed.

Lemma mjoin_extend d l : l <> [] -> mjoin (extend_tail d l) = mjoin l ++ d /\ extend_tail d l <> [].
Proof.
  induction l as [|s l IH]; [done|]. intros _. destruct l as [|x l].
  - split; [|done]. cbn [extend_tail]. rewrite !mjoin_cons. cbn. by rewrite !app_nil_r.
  - destruct IH as [E _]; [done|]. split; [|done]. cbn [extend_tail] in *. rewrite mjoin_cons, E, !mjoin_cons. by rewrite app_assoc.
Qed.

(** The last unsent segment with more data behind its own. *)
Lemma commit_last_spec B D arg m k s x :
  data_segment B D k s -> k + sg_len s = Z.of_nat (length D) ->
  0 <= oversize_used x -> 0 <= m - oversize_used x -> m <= Z.of_nat (length arg) ->
  match concat_p x with
  | Some q => data q = slice arg (oversize_used x) (m - oversize_used x) /\ segs q <> []
  | None => m = oversize_used x
  end ->
  sg_len s + m <= TCP_MSS ->
  data_segment B (D ++ arg) k (commit_last arg x s) /\ sg_len (commit_last arg x s) = sg_len s + m /\
  sg_addr (commit_last arg x s) = sg_addr s /\
  clen (sg_p (commit_last arg x s)) = clen (sg_p s) + from_option clen 0 (concat_p x).
Proof.
  intros Hs Hend Hu Hm Hma Hq Hlen. pose proof (data_segment_grow B D arg k s Hs) as Hg.
  assert (Hlast : forall y n, slice (D ++ arg) k (sg_len s) ++ slice arg 0 n = y -> 0 <= n -> y = slice (D ++ arg) k (sg_len s + n)).
  { intros y n <- Hn. rewrite <- slice_snoc by (pose proof (ds_range _ _ _ _ Hs); pose proof (ds_len _ _ _ _ Hs); lia).
    f_equal. rewrite Hend, slice_app_r by lia. f_equal. lia. }
  pose proof (ds_len _ _ _ _ Hs) as Hl0. unfold TCP_MSS in *. unfold commit_last.
  set (s1 := if 0 <? oversize_used x then _ else s).
  assert (H1 : data_segment B (D ++ arg) k s1 /\ sg_len s1 = sg_len s + oversize_used x /\ sg_addr s1 = sg_addr s /\
               clen (sg_p s1) = clen (sg_p s)).
  { unfold s1. destruct (Z.ltb_spec 0 (oversize_used x)); [|split; [done|split; [lia|done]]]. cbn.
    assert (Hc : forall b, clen (mkPbuf b (extend_tail (slice arg 0 (oversize_used x)) (segs (sg_p s)))) = clen (sg_p s))
      by (intros b; unfold clen; cbn [segs]; by rewrite length_extend).
    rewrite u16_small by (unfold in_u16; lia). split; [|done].
    destruct (mjoin_extend (slice arg 0 (oversize_used x)) (segs (sg_p s)) (ds_segs _ _ _ _ Hs)) as [E1 E2].
    destruct Hg as [G1 G2 G3 G4 G5 G6 G7 G8]. split; cbn; try done.
    - rewrite length_app. lia.
    - unfold TCP_MSS. lia.
    - unfold data. cbn [segs]. rewrite E1. change (mjoin (segs (sg_p s))) with (data (sg_p s)). rewrite G5.
      apply Hlast; [done|lia]. }
  destruct H1 as (G & E & A & C). clearbody s1. destruct (concat_p x) as [q|]; [|subst m; cbn; split_and!; try done; lia].
  destruct Hq as [Hq1 Hq2]. cbn.
  assert (Hlq : Z.of_nat (length (data q)) = m - oversize_used x) by (rewrite Hq1; apply length_slice; lia).
  assert (Et : tot_len q = m - oversize_used x) by (unfold tot_len; rewrite Hlq; apply u16_small; unfold in_u16; lia).
  rewrite Et, E, u16_small by (unfold in_u16; lia). split; [|split; [lia|split; [done|]]].
  2:{ rewrite <- C. unfold clen, pbuf_cat. cbn [segs]. rewrite length_app. lia. }
  destruct G as [G1 G2 G3 G4 G5 G6 G7 G8]. split; cbn; try done.
  - rewrite length_app. lia.
  - unfold TCP_MSS. lia.
  - unfold data, pbuf_cat. cbn [segs]. rewrite join_app. change (mjoin (segs (sg_p s1))) with (data (sg_p s1)).
    change (mjoin (segs q)) with (data q). rewrite G5, Hq1, E.
    rewrite <- (Hlast _ (oversize_used x) eq_refl Hu), <- app_assoc. rewrite (slice_snoc arg 0) by lia.
    rewrite (Hlast _ _ eq_refl) by lia. f_equal. lia.
  - intros E2. apply app_eq_nil in E2 as [? _]. done.
Qed.

Lemma mem_align_ge x : 0 <= x -> x <= Mem.LWIP_MEM_ALIGN_SIZE x.
Proof.
  intros. unfold Mem.LWIP_MEM_ALIGN_SIZE, Mem.MEM_ALIGNMENT. replace (x + 4 - 1) with (x + 3) by lia.
  change (4 - 1) with 3. rewrite align4 by done. zlia.
Qed.

Lemma transport_room : Z.to_nat (Mem.LWIP_MEM_ALIGN_SIZE (Pbuf.header_offset Pbuf.PBUF_TRANSPORT)) = 56%nat.
Proof. done. Qed.

Section writing.
Context {P PS : Type} `{Pool P} `{Pool PS}.
Variable ram : nat -> bool.

Lemma data_pbuf_spec layer d max_length pcb apiflags first_seg over (w : net P PS) r w' :
  Z.of_nat (length d) <= max_length -> max_length <= TCP_MSS ->
  data_pbuf ram layer d max_length pcb apiflags first_seg over w = (r, w') ->
  sends w w' [] /\ n_segs w' = n_segs w /\
  forall q o, r = Some (q, o) -> segs q = [d] /\
    if flag_set apiflags TCP_WRITE_FLAG_COPY
    then length (before q) = Z.to_nat (Mem.LWIP_MEM_ALIGN_SIZE (Pbuf.header_offset layer)) /\
         0 <= o <= max_length - Z.of_nat (length d)
    else before q = [] /\ o = over.
Proof.
  intros Hd Hm. unfold TCP_MSS in Hm. unfold data_pbuf. destruct (flag_set apiflags TCP_WRITE_FLAG_COPY).
  - unfold tcp_pbuf_prealloc. set (al := if _ && _ then _ else _).
    assert (Hal : Z.of_nat (length d) <= al <= max_length).
    { unfold al. destruct (Z.ltb_spec (Z.of_nat (length d)) max_length); [|cbn; lia].
      destruct (true && _); [|lia]. pose proof (mem_align_ge (Z.of_nat (length d) + TCP_OVERSIZE) ltac:(unfold TCP_OVERSIZE, TCP_MSS; lia)).
      unfold TCP_OVERSIZE, TCP_MSS in *. lia. }
    destruct (pbuf_alloc _ _ _ _) as [[q|] w1] eqn:E; apply pbuf_alloc_sends in E as (S & N & Hq); intros [= <- <-].
    + split; [done|]. split; [done|]. intros q' o [= <- <-]. destruct (Hq q eq_refl) as [_ B].
      rewrite Nat2Z.id. split; [|split; [done|rewrite u16_small; unfold in_u16; lia]].
      unfold write_first. cbn [segs]. rewrite drop_ge by (rewrite length_replicate; lia). by rewrite app_nil_r.
    + split; [done|]. split; [done|]. done.
  - destruct (pbuf_alloc _ _ _ _) as [[q|] w1] eqn:E; apply pbuf_alloc_sends in E as (S & N & _); intros [= <- <-];
      (split; [done|split; [done|]]); [|done]. by intros q' o [= <- <-].
Qed.

(** The packet of a new segment has room for all headers. *)
Lemma new_pbuf_spec pcb d apiflags first_seg over (w : net P PS) r w' :
  Z.of_nat (length d) <= mss_local pcb -> mss_local pcb <= TCP_MSS ->
  new_pbuf ram pcb d apiflags first_seg over w = (r, w') ->
  sends w w' [] /\ n_segs w' = n_segs w /\
  forall q o, r = Some (q, o) -> data q = d /\ segs q <> [] /\ (40 <= length (before q))%nat /\
    (length (segs q) <= 2)%nat /\
    (if flag_set apiflags TCP_WRITE_FLAG_COPY then 0 <= o <= mss_local pcb - Z.of_nat (length d) else o = over).
Proof.
  intros Hd Hm. unfold new_pbuf. destruct (flag_set apiflags TCP_WRITE_FLAG_COPY) eqn:Ec.
  - intros E. destruct (data_pbuf_spec _ _ _ _ _ _ _ _ _ _ Hd Hm E) as (S & N & Hq). split; [done|]. split; [done|].
    intros q o ->. destruct (Hq q o eq_refl) as [D Hb]. rewrite Ec in Hb. destruct Hb as [B O].
    unfold data. rewrite D. cbn [mjoin list_join length]. rewrite app_nil_r, B, transport_room. split_and!; try done; lia.
  - destruct (data_pbuf _ _ _ _ _ _ _ _ _) as [[[p2 o2]|] w1] eqn:E;
      destruct (data_pbuf_spec _ _ _ _ _ _ _ _ _ _ Hd Hm E) as (S & N & Hq).
    2:{ intros [= <- <-]. done. }
    destruct (pbuf_alloc _ _ _ _) as [[h|] w2] eqn:E2; apply pbuf_alloc_sends in E2 as (S2 & N2 & Hh).
    + intros [= <- <-]. split; [by eapply sends_none|]. split; [congruence|]. intros q o [= <- <-].
      destruct (Hq p2 o2 eq_refl) as [D Hb]. rewrite Ec in Hb. destruct Hb as [_ ->]. destruct (Hh h eq_refl) as [D2 B2].
      unfold data, pbuf_cat. cbn [segs before]. rewrite D, D2, B2, transport_room. cbn. rewrite app_nil_r. split_and!; try done; lia.
    + intros [= <- <-]. destruct (pbuf_free_sends p2 w2) as [S3 N3].
      split; [eapply sends_none; [done|]; by eapply sends_none|]. split; [by rewrite N3, N2|]. done.
Qed.

Lemma create_segment_spec pcb q flags_ seqno_ live (w : net P PS) :
  holds (n_segs w) live -> (20 <= length (before q))%nat -> segs q <> [] ->
  exists r w', tcp_create_segment pcb q flags_ seqno_ 0 w = Some (r, w') /\ sends w w' [] /\
    match r with
    | None => holds (n_segs w') live
    | Some s => holds (n_segs w') (sg_addr s :: live) /\ sg_p s = q /\ sg_flags s = 0 /\ sg_len s = u16 (tot_len q) /\
        tcphdr s = mkTcpHdr (local_port pcb) (remote_port pcb) (u32 seqno_) 0 (hdrlen_flags 5 flags_) 0 0 0
    end.
Proof.
  intros Hh Hroom Hs. unfold tcp_create_segment. pose proof (alloc_new (n_segs w) live Hh) as Ha.
  change (LWIP_TCP_OPT_LENGTH 0) with 0. destruct (alloc (n_segs w)) as [[a m]|].
  - destruct (ip_header_room q TCP_HLEN) as (q2 & -> & _); [done|done|done|].
    eexists _, _. split; [done|]. split; [by split; rewrite ?app_nil_r|]. cbn. rewrite Z.sub_0_r. split; [apply Ha|done].
  - eexists None, _. split; [done|]. destruct (pbuf_free_sends q w) as [S N]. split; [done|]. by rewrite N.
Qed.
End writing.

(** A block that can send: its ports, and room in the last unsent segment. *)
Record write_ready (pcb : tcp_pcb) : Prop := {
  wr_ports : in_u16 (local_port pcb) /\ in_u16 (remote_port pcb);
  wr_mss : 0 < mss_local pcb <= TCP_MSS;
  wr_over : 0 <= unsent_oversize pcb;
  wr_last : forall s, last (unsent pcb) = Some s -> sg_len s + unsent_oversize pcb <= mss_local pcb;
  wr_qlen : 0 <= snd_queuelen pcb <= TCP_SND_QUEUELEN
}.

Section write_spec.
Context {P PS : Type} `{Pool P} `{Pool PS}.
Variable ram : nat -> bool.
Variables (B : Z) (D arg : list Z) (pcb : tcp_pcb) (apiflags : Z) (live : list Z).
Hypothesis ready : write_ready pcb.
Hypothesis numbered : snd_lbb pcb = u32 (B + Z.of_nat (length D)).

(** What the phases have recorded at position [pos]. *)
Record phase_ok (start : Z) (x : phases) (w : net P PS) : Prop := {
  po_pos : 0 <= pos x <= Z.of_nat (length arg);
  po_over : 0 <= oversize x; po_full : pos x < Z.of_nat (length arg) -> oversize x = 0;
  po_queue : chain B (D ++ arg) start (queue x) (Z.of_nat (length D) + pos x);
  po_last : forall s, last (queue x) = Some s -> sg_len s + oversize x <= mss_local pcb;
  po_qlen : 0 <= queuelen x <= 6;
  po_len : Forall (fun s => sg_len s <= mss_local pcb) (queue x);
  po_buffers : queuelen x = snd_queuelen pcb + from_option clen 0 (concat_p x) + buffers (queue x);
  po_pool : holds (n_segs w) ((sg_addr <$> queue x) ++ live)
}.

Lemma write_loop_spec fuel start x w :
  phase_ok start x w -> 7 <= Z.of_nat fuel + queuelen x ->
  exists ok x' w', write_loop ram fuel pcb arg apiflags x w = Some (ok, x', w') /\ sends w w' [] /\
    phase_ok start x' w' /\ oversize_used x' = oversize_used x /\ in_last x' = in_last x /\ concat_p x' = concat_p x /\
    (queue x' <> [] \/ queue x' = queue x /\ oversize x' = oversize x) /\
    (ok = true -> pos x' = Z.of_nat (length arg)).
Proof.
  destruct ready as [[Hp1 Hp2] Hmss _ _ _]. unfold TCP_MSS in Hmss.
  revert x w. induction fuel as [|fuel IH]; intros x w Hx Hf; destruct (Hx) as [Hpos Hov Hfull Hq Hlast Hql Hlen Hbf Hpool].
  { unfold write_loop. lia. }
  cbn [write_loop]. destruct (Z.ltb_spec (pos x) (Z.of_nat (length arg))) as [Hlt|Hge]; cbn [negb].
  2:{ eexists true, x, w. split; [done|]. split; [apply sends_refl|]. split; [done|]. split_and!; try done; [by right|]. intros _. lia. }
  set (seglen := Z.min (Z.of_nat (length arg) - pos x) (mss_local pcb)).
  assert (Hsl : 0 < seglen <= mss_local pcb) by lia.
  assert (Hd : Z.of_nat (length (slice arg (pos x) seglen)) = seglen) by (apply length_slice; lia).
  destruct (new_pbuf _ _ _ _ _ _ _) as [[[q over]|] w1] eqn:En;
    (apply new_pbuf_spec in En as (S1 & N1 & Hq1); [|rewrite Hd; lia|unfold TCP_MSS; lia]).
  2:{ eexists false, x, w1. split; [done|]. split; [done|]. split; [split; try done; by rewrite N1|]. split_and!; try done. by right. }
  destruct (Hq1 q over eq_refl) as (D1 & G1 & R1 & C1 & O1). clear Hq1.
  rewrite Hd in O1. specialize (Hfull Hlt).
  assert (Hcl : 1 <= pbuf_clen q <= 2 /\ pbuf_clen q = clen q).
  { unfold pbuf_clen, clen. destruct (segs q); [done|]. cbn [length] in *. rewrite u8_small; unfold in_u8; lia. }
  rewrite u16_small by (unfold in_u16; lia).
  destruct (_ || _) eqn:Efull.
  { destruct (pbuf_free_sends q w1) as [S2 N2]. eexists false, x, _. split; [done|]. split; [by eapply sends_none|].
    split; [split; try done; by rewrite N2, N1|]. split_and!; try done. by right. }
  apply orb_false_iff in Efull as [Eq1%Z.ltb_ge _]. unfold TCP_SND_QUEUELEN in Eq1.
  assert (Htl : tot_len q = seglen) by (unfold tot_len; rewrite D1, Hd; apply u16_small; unfold in_u16; lia).
  destruct (create_segment_spec pcb q 0 (snd_lbb pcb + pos x) ((sg_addr <$> queue x) ++ live) w1) as (r & w2 & -> & S2 & Hr);
    [by rewrite N1|lia|done|].
  cbn [mbind option_bind]. destruct r as [s|].
  2:{ eexists false, x, w2. split; [done|]. split; [by eapply sends_none|]. split; [by split|]. split_and!; try done. by right. }
  destruct Hr as (Hh & Ep & Ef & El & Et).
  assert (Hseg : data_segment B (D ++ arg) (Z.of_nat (length D) + pos x) s).
  { split; cbn; try done.
    - unfold sg_seqno. rewrite Et. cbn. rewrite numbered, u32_add_l. f_equal. lia.
    - rewrite El, Htl, u16_small, length_app by (unfold in_u16; lia). lia.
    - rewrite El, Htl, u16_small by (unfold in_u16; lia). unfold TCP_MSS. lia.
    - rewrite Ep, D1, El, Htl, (u16_small seglen), slice_app_r by (unfold in_u16; lia). f_equal. lia.
    - by rewrite Ep.
    - by rewrite Ep.
    - rewrite Et. split; [split; cbn; try done; apply u32_range|]. cbn. constructor. }
  assert (Esl : sg_len s = seglen) by (rewrite El, Htl; apply u16_small; unfold in_u16; lia).
  destruct (IH (mkPhases (oversize_used x) (in_last x) (concat_p x) (pos x + seglen) (queuelen x + pbuf_clen q) over (queue x ++ [s])) w2)
    as (ok & x' & w' & -> & S3 & R1' & R2 & R3 & R4 & R5 & R6).
  { split; cbn; try lia.
    - destruct (flag_set apiflags TCP_WRITE_FLAG_COPY); lia.
    - destruct (flag_set apiflags TCP_WRITE_FLAG_COPY); lia.
    - apply chain_app. eexists. split; [exact Hq|]. cbn. split; [done|]. lia.
    - intros s' Hs'. rewrite last_snoc in Hs'. injection Hs' as <-. rewrite Esl.
      destruct (flag_set apiflags TCP_WRITE_FLAG_COPY); lia.
    - apply Forall_app. split; [done|]. constructor; [lia|done].
    - rewrite buffers_app. cbn. rewrite Ep. lia.
    - eapply holds_perm; [|exact Hh]. rewrite fmap_app. cbn. rewrite <- app_assoc. apply Permutation_middle. }
  { cbn. lia. }
  exists ok, x', w'. split; [done|]. split; [|split_and!; try done].
  2:{ destruct R5 as [R5|[R5 _]]; left; [done|]. rewrite R5. by intros [_ ?]%app_eq_nil. }
  eapply sends_none; [done|]. by eapply sends_none.
Qed.

Lemma fill_last_spec s k (w : net P PS) :
  last (unsent pcb) = Some s -> data_segment B D k s -> k + sg_len s = Z.of_nat (length D) ->
  (arg <> [] -> snd_queuelen pcb < TCP_SND_QUEUELEN) -> holds (n_segs w) live ->
  exists r w', fill_last ram pcb arg apiflags w = (r, w') /\ sends w w' [] /\ n_segs w' = n_segs w /\
    forall x, r = Some x ->
      phase_ok (Z.of_nat (length D) + pos x) x w' /\ queue x = [] /\ 0 <= oversize_used x <= pos x /\
      sg_len s + pos x + oversize x <= mss_local pcb /\
      match concat_p x with
      | Some q => data q = slice arg (oversize_used x) (pos x - oversize_used x) /\ segs q <> []
      | None => pos x = oversize_used x
      end.
Proof.
  intros Hs Hseg Hend Hql Hpool. destruct ready as [_ Hmss Hov Hlast Hq]. specialize (Hlast s Hs).
  pose proof (ds_len _ _ _ _ Hseg) as Hl. unfold TCP_MSS, TCP_SND_QUEUELEN in *.
  unfold fill_last. rewrite Hs, (ds_opts _ _ _ _ Hseg). change (LWIP_TCP_OPT_LENGTH 0) with 0. rewrite Z.add_0_r.
  set (used := if 0 <? unsent_oversize pcb then _ else 0).
  assert (Hu : 0 <= used <= unsent_oversize pcb /\ used <= Z.of_nat (length arg) /\
               (used < Z.of_nat (length arg) -> used = unsent_oversize pcb)).
  { unfold used. destruct (Z.ltb_spec 0 (unsent_oversize pcb)); lia. }
  rewrite (u16_small (mss_local pcb - sg_len s)), u16_small by (unfold in_u16; rewrite ?u16_small; unfold in_u16; lia).
  clearbody used. destruct (_ && _) eqn:E.
  - apply andb_true_iff in E as [[E1%Z.ltb_lt E2%Z.ltb_lt]%andb_true_iff _].
    assert (Hq6 : snd_queuelen pcb < 6) by (apply Hql; intros ->; cbn in E1; lia).
    set (space := mss_local pcb - sg_len s - used) in *. set (seglen := Z.min space (Z.of_nat (length arg) - used)).
    assert (Hd : Z.of_nat (length (slice arg used seglen)) = seglen) by (apply length_slice; lia).
    destruct (data_pbuf _ _ _ _ _ _ _ _ _) as [[[q over]|] w1] eqn:En;
      (apply data_pbuf_spec in En as (S1 & N1 & Hq1); [|rewrite Hd; lia|unfold TCP_MSS; lia]);
      eexists _, w1; (split; [done|split; [done|split; [done|]]]); [|done].
    intros x [= <-]. destruct (Hq1 q over eq_refl) as [Gq Ho]. rewrite Hd in Ho. unfold pbuf_clen. rewrite Gq.
    change (u8 (Z.of_nat (length [slice arg used seglen]))) with 1. cbn [pos queue oversize_used oversize concat_p].
    assert (Hov2 : 0 <= over <= space - seglen /\ (used + seglen < Z.of_nat (length arg) -> over = 0)).
    { destruct (flag_set apiflags TCP_WRITE_FLAG_COPY); [lia|]. destruct Ho as [_ ->]. lia. }
    split; [|split; [done|split; [lia|split; [lia|]]]].
    + split; cbn; try done; try lia; rewrite ?u16_small by (unfold in_u16; lia); try lia; [|by rewrite N1].
      unfold clen. rewrite Gq. cbn. lia.
    + unfold data. rewrite Gq. cbn. rewrite app_nil_r. replace (used + seglen - used) with seglen by lia. done.
  - eexists _, w. split; [done|]. split; [apply sends_refl|]. split; [done|]. intros x [= <-]. cbn.
    split; [|split; [done|split; [lia|split; [lia|lia]]]]. split; cbn; try done; lia.
Qed.
(** Phases 1 and 2, whether there is a last unsent segment or not. *)
Lemma fill_spec u m (w : net P PS) :
  tail_chain B D u m (unsent pcb) ->
  (arg <> [] -> snd_queuelen pcb < TCP_SND_QUEUELEN) -> holds (n_segs w) live ->
  exists r w', fill_last ram pcb arg apiflags w = (r, w') /\ sends w w' [] /\ n_segs w' = n_segs w /\
    forall x, r = Some x ->
      phase_ok (Z.of_nat (length D) + pos x) x w' /\ queue x = [] /\ 0 <= oversize_used x <= pos x /\
      (unsent pcb = [] -> pos x = 0 /\ concat_p x = None /\ oversize x = 0) /\
      (forall s, last (unsent pcb) = Some s -> sg_len s + pos x + oversize x <= mss_local pcb) /\
      match concat_p x with
      | Some q => data q = slice arg (oversize_used x) (pos x - oversize_used x) /\ segs q <> []
      | None => pos x = oversize_used x
      end.
Proof.
  intros Hc Hql Hpool. destruct (last (unsent pcb)) as [s|] eqn:Hs.
  - apply tail_chain_cases in Hc as [(E & _)|(l2 & s' & k & E & _ & Hseg & He)]; [by rewrite E in Hs|].
    assert (s' = s) as -> by (rewrite E, app_assoc, last_snoc in Hs; congruence).
    destruct (fill_last_spec s k w Hs Hseg He Hql Hpool) as (r & w' & E1 & S & N & Hx).
    exists r, w'. split; [done|]. split; [done|]. split; [done|]. intros x Er.
    destruct (Hx x Er) as (H1 & H2 & H3 & H4 & H5). split; [done|]. split; [done|]. split; [done|].
    split; [intros E0; by rewrite E0 in Hs|]. split; [|done]. by intros s' [= <-].
  - pose proof Hs as Hs2. apply last_None in Hs2. unfold fill_last. rewrite Hs. eexists _, w. split; [done|].
    split; [apply sends_refl|]. split; [done|]. intros x [= <-]. cbn.
    split; [|split; [done|split; [done|split; [done|split; done]]]].
    destruct ready as [_ Hm _ _ Hq]. unfold TCP_MSS, TCP_SND_QUEUELEN in *. split; cbn; try done; lia.
Qed.
End write_spec.

(** A change of the last segment. *)
Lemma chain_on_last f B D l k e :
  (forall k s, data_segment B D k s -> data_segment B D k (f s) /\ sg_len (f s) = sg_len s) ->
  chain B D k l e -> chain B D k (on_last f l) e.
Proof.
  intros Hf Hc. destruct l as [|s l _] using rev_ind; [done|]. rewrite on_last_snoc.
  apply chain_app in Hc as (m & H1 & H2 & H3). apply chain_app. exists m. split; [done|].
  destruct (Hf m s H2) as [G E]. split; [done|]. cbn in *. by rewrite E.
Qed.
Lemma tail_chain_on_last f B D u m l :
  (forall k s, data_segment B D k s -> data_segment B D k (f s) /\ sg_len (f s) = sg_len s) ->
  tail_chain B D u m l -> tail_chain B D u m (on_last f l).
Proof.
  intros Hf (l2 & -> & Hu & Hc). exists (on_last f l2). pose proof (chain_on_last f B D l2 m _ Hf Hc) as Hc'.
  destruct l2 as [|s l2 _] using rev_ind; [by rewrite Hu|]. rewrite on_last_snoc in *. rewrite app_assoc, on_last_snoc, app_assoc.
  split; [done|]. split; [by intros [_ ?]%app_eq_nil|done].
Qed.
Lemma addr_on_last f l : (forall s, sg_addr (f s) = sg_addr s) -> sg_addr <$> on_last f l = sg_addr <$> l.
Proof.
  intros Hf. destruct l as [|s l _] using rev_ind; [done|]. rewrite on_last_snoc, !fmap_app. cbn. by rewrite Hf.
Qed.

Lemma set_flag_segment f B D k s :
  f = TCP_PSH \/ f = TCP_ACK -> data_segment B D k s -> data_segment B D k (s <| tcphdr ::= TCPH_SET_FLAG f |>).
Proof.
  intros Hf Hs. apply (data_segment_hdr B D k s (TCPH_SET_FLAG f (tcphdr s))); [done| |done].
  apply plain_set_flag; [done|apply Hs].
Qed.

(** The queue of the block after all phases. *)
Lemma commit_spec {P PS : Type} `{Pool P} `{Pool PS} B D arg u m pcb x p0 live (w : net P PS) :
  write_ready pcb -> tail_chain B D u m (unsent pcb) ->
  phase_ok B D arg pcb live (Z.of_nat (length D) + p0) x w -> pos x = Z.of_nat (length arg) ->
  0 <= oversize_used x <= p0 -> p0 <= Z.of_nat (length arg) -> (unsent pcb = [] -> p0 = 0 /\ concat_p x = None) ->
  (forall s, last (unsent pcb) = Some s ->
     sg_len s + p0 <= mss_local pcb /\ (queue x = [] -> sg_len s + p0 + oversize x <= mss_local pcb)) ->
  match concat_p x with
  | Some q => data q = slice arg (oversize_used x) (p0 - oversize_used x) /\ segs q <> []
  | None => p0 = oversize_used x
  end ->
  let l := on_last (commit_last arg x) (unsent pcb) ++ queue x in
  tail_chain B (D ++ arg) u m l /\
  sg_addr <$> l = (sg_addr <$> unsent pcb) ++ (sg_addr <$> queue x) /\
  (forall s, last l = Some s -> sg_len s + oversize x <= mss_local pcb) /\
  queuelen x = snd_queuelen pcb + (buffers l - buffers (unsent pcb)) /\
  (Forall (fun s => sg_len s <= mss_local pcb) (unsent pcb) -> Forall (fun s => sg_len s <= mss_local pcb) l) /\
  (forall l0 s, unsent pcb = l0 ++ [s] -> exists s' r, l = l0 ++ s' :: r /\ sg_len s <= sg_len s').
Proof.
  intros [_ Hm _ _ _] Hc [Hpos Hov Hfull Hq Hlast Hql Hlen Hbf Hpool] Hp Hu Hp0 Hempty Hroom Hcat l.
  assert (El : Z.of_nat (length (D ++ arg)) = Z.of_nat (length D) + pos x) by (rewrite length_app; lia).
  unfold l. clear l. apply tail_chain_cases in Hc as [(E & -> & ->)|(l2 & s & k & E & Hc1 & Hs & He)]; rewrite E in *.
  { rewrite (proj1 (Hempty eq_refl)), Z.add_0_r in Hq. split; [exists (queue x); by rewrite El|]. split; [done|].
    split; [done|]. split; [|split; [done|by intros [] ? ?]]. rewrite (proj2 (Hempty eq_refl)) in Hbf.
    change (on_last _ [] ++ queue x) with (queue x). change (buffers []) with 0. cbn [from_option] in Hbf. lia. }
  rewrite app_assoc, on_last_snoc in *.
  destruct (Hroom s) as [Hr1 Hr2]; [by rewrite last_snoc|].
  destruct (commit_last_spec B D arg p0 k s x) as (G & E1 & A & C); try done; try lia.
  split; [|split; [|split; [|split; [|split]]]].
  - exists (l2 ++ [commit_last arg x s] ++ queue x). rewrite <- !app_assoc. split; [done|]. split; [by intros [_ ?]%app_eq_nil|].
    apply chain_app. exists k. split; [by apply chain_grow|]. split; [done|]. rewrite El, E1.
    replace (k + (sg_len s + p0)) with (Z.of_nat (length D) + p0) by lia. done.
  - rewrite !fmap_app. cbn. by rewrite A.
  - intros s' Hs'. destruct (queue x) as [|y q _] eqn:Eq using rev_ind.
    + rewrite app_nil_r, last_snoc in Hs'. injection Hs' as <-. rewrite E1. specialize (Hr2 eq_refl). lia.
    + rewrite app_assoc, last_snoc in Hs'. injection Hs' as <-. apply Hlast. by rewrite last_snoc.
  - rewrite !buffers_app. cbn. rewrite C. lia.
  - intros (F1 & F2)%Forall_app. apply Forall_app. split; [|done]. apply Forall_app. split; [done|]. constructor; [lia|done].
  - intros l0 s0 [E3 E4]%app_inj_tail. subst. exists (commit_last arg x s0), (queue x). rewrite <- (app_assoc _ [_]). split; [done|]. lia.
Qed.

Lemma segs_free_spec {P PS : Type} `{Pool P} `{Pool PS} l live (w : net P PS) :
  holds (n_segs w) ((sg_addr <$> l) ++ live) ->
  exists w', tcp_segs_free l w = Some w' /\ sends w w' [] /\ holds (n_segs w') live.
Proof.
  revert w. induction l as [|s l IH]; intros w Hh.
  - exists w. split; [done|]. split; [apply sends_refl|done].
  - cbn [tcp_segs_free]. unfold tcp_seg_free.
    destruct (release_ok (n_segs w) [] (sg_addr s) (fmap (M:=list) sg_addr l ++ live) Hh) as (m & -> & Hm). cbn [mbind option_bind].
    destruct (IH (mkNet (emit (Free (sg_p s)) (n_ip w)) m) Hm) as (w' & -> & S & Hh'). exists w'. split; [done|].
    split; [|done]. eapply sends_none; [|exact S]. split; [done|done|]. cbn. by rewrite sent_packets_app.
Qed.

(** What [tcp_write] does when it succeeds. *)
Record written (B : Z) (D arg : list Z) (u : list tcp_seg) (m : Z) (pcb pcb' : tcp_pcb) (l : list tcp_seg) (o q : Z) : Prop := {
  wt_chain : tail_chain B (D ++ arg) u m l;
  wt_block : pcb' = pcb <| unsent := l |> <| unsent_oversize := o |>
                        <| snd_lbb := u32 (B + Z.of_nat (length (D ++ arg))) |>
                        <| snd_buf := snd_buf pcb - Z.of_nat (length arg) |> <| snd_queuelen := q |>;
  wt_ready : write_ready pcb';
  wt_qlen : q = snd_queuelen pcb + (buffers l - buffers (unsent pcb));
  wt_len : Forall (fun s => sg_len s <= mss_local pcb) (unsent pcb) -> Forall (fun s => sg_len s <= mss_local pcb) l;
  wt_settled : l = [] -> o = 0;
  wt_head : forall l0 s, unsent pcb = l0 ++ [s] -> exists s' r, l = l0 ++ s' :: r /\ sg_len s <= sg_len s'
}.

Section write_theorem.
Context {P PS : Type} `{Pool P} `{Pool PS}.
Variable ram : nat -> bool.

(** The block before a call: its unsent segments end the stream [D]. *)
Record write_state (B : Z) (D : list Z) (u : list tcp_seg) (m : Z) (live : list Z) (pcb : tcp_pcb) (w : net P PS) : Prop := {
  ws_ready : write_ready pcb;
  ws_chain : tail_chain B D u m (unsent pcb);
  ws_lbb : snd_lbb pcb = u32 (B + Z.of_nat (length D));
  ws_buf : in_u16 (snd_buf pcb);
  ws_pool : holds (n_segs w) ((sg_addr <$> unsent pcb) ++ live)
}.

(** The failures. *)
Definition write_failed (pcb pcb' : tcp_pcb) : Prop := pcb' = pcb \/ pcb' = pcb <| flags ::= flag_or TF_NAGLEMEMERR |>.


Lemma tcp_write_checks_spec pcb len err pcb' :
  tcp_write_checks pcb len = (err, pcb') ->
  err = ERR_OK /\ pcb' = pcb /\ (len = 0 \/ len <= snd_buf pcb /\ snd_queuelen pcb < TCP_SND_QUEUELEN) \/
  err <> ERR_OK /\ write_failed pcb pcb'.
Proof.
  unfold tcp_write_checks, write_failed, queue_full. destruct (negb _); [intros [= <- <-]; right; auto|].
  destruct (Z.eqb_spec len 0); [intros [= <- <-]; left; auto|].
  destruct (Z.ltb_spec (snd_buf pcb) len); [intros [= <- <-]; right; auto|].
  destruct (Z.leb_spec TCP_SND_QUEUELEN (snd_queuelen pcb)); cbn [orb]; [intros [= <- <-]; right; auto|].
  destruct (_ <? _); intros [= <- <-]; [right; auto|left; auto].
Qed.

(** Everything that was allocated is given back. *)
Lemma write_memerr_spec pcb x live (w : net P PS) :
  holds (n_segs w) ((sg_addr <$> queue x) ++ live) ->
  exists w', write_memerr pcb x w = Some (ERR_MEM, pcb <| flags ::= flag_or TF_NAGLEMEMERR |>, w') /\
    sends w w' [] /\ holds (n_segs w') live.
Proof.
  intros Hh. unfold write_memerr. set (w1 := match concat_p x with Some q => pbuf_free q w | None => w end).
  assert (H1 : sends w w1 [] /\ n_segs w1 = n_segs w).
  { unfold w1. destruct (concat_p x); [apply pbuf_free_sends|split; [apply sends_refl|done]]. }
  destruct H1 as [S1 N1]. rewrite <- N1 in Hh. destruct (segs_free_spec _ _ _ Hh) as (w' & -> & S & Hh').
  exists w'. split; [done|]. split; [by eapply sends_none|done].
Qed.

Lemma commit_written B D arg u m apiflags pcb x p0 live (w : net P PS) :
  write_ready pcb -> tail_chain B D u m (unsent pcb) ->
  snd_lbb pcb = u32 (B + Z.of_nat (length D)) -> in_u16 (snd_buf pcb) -> Z.of_nat (length arg) <= snd_buf pcb ->
  phase_ok B D arg pcb live (Z.of_nat (length D) + p0) x w -> pos x = Z.of_nat (length arg) ->
  0 <= oversize_used x <= p0 -> p0 <= Z.of_nat (length arg) -> (unsent pcb = [] -> p0 = 0 /\ concat_p x = None) -> (unsent pcb = [] -> queue x = [] -> oversize x = 0) ->
  (forall s, last (unsent pcb) = Some s ->
     sg_len s + p0 <= mss_local pcb /\ (queue x = [] -> sg_len s + p0 + oversize x <= mss_local pcb)) ->
  match concat_p x with
  | Some q => data q = slice arg (oversize_used x) (p0 - oversize_used x) /\ segs q <> []
  | None => p0 = oversize_used x
  end ->
  let pcb' := commit pcb arg apiflags x in
  exists l, unsent pcb' = l /\ written B D arg u m pcb pcb' l (oversize x) (queuelen x) /\
    sg_addr <$> l = (sg_addr <$> unsent pcb) ++ (sg_addr <$> queue x).
Proof.
  intros Hready Hc Hlbb Hbuf Hlen Hph Hp Hu Hp0 He He0 Hr Hcat pcb'.
  destruct (commit_spec B D arg u m pcb x p0 live w) as (G & A & L & Q & F & HH); try done.
  unfold pcb', commit.
  set (l := on_last _ _ ++ queue x) in *. set (l' := if _ && _ then _ else l).
  assert (Hl' : tail_chain B (D ++ arg) u m l' /\ sg_addr <$> l' = sg_addr <$> l /\
                (forall s, last l' = Some s -> sg_len s + oversize x <= mss_local pcb) /\ buffers l' = buffers l /\
                (Forall (fun s => sg_len s <= mss_local pcb) l -> Forall (fun s => sg_len s <= mss_local pcb) l') /\
                (l' = [] -> l = []) /\
                (forall l0 s r, l = l0 ++ s :: r -> exists s' r', l' = l0 ++ s' :: r' /\ sg_len s <= sg_len s')).
  { unfold l'. destruct (_ && _); [|split_and!; try done; intros l0 s r ->; by exists s, r]. split; [|split; [|split; [|split; [|split; [|split]]]]].
    - apply tail_chain_on_last; [|done]. intros k s Hs. split; [|done]. apply set_flag_segment; [by left|done].
    - by apply addr_on_last.
    - clear l' pcb'. clearbody l. clear -L. intros s. destruct l as [|y l _] using rev_ind; [done|].
      rewrite on_last_snoc, last_snoc. intros [= <-]. cbn. apply L. by rewrite last_snoc.
    - clear. destruct l as [|y l _] using rev_ind; [done|]. rewrite on_last_snoc, !buffers_app. done.
    - clear. destruct l as [|y l _] using rev_ind; [done|]. rewrite on_last_snoc, !Forall_app. intros [? F].
      split; [done|]. by inversion F; constructor.
    - clear. destruct l as [|y l _] using rev_ind; [done|]. rewrite on_last_snoc. by intros [_ ?]%app_eq_nil.
    - clear. intros l0 s r ->. destruct r as [|y r _] using rev_ind; [rewrite on_last_snoc; by eexists _, []|].
      rewrite app_comm_cons, app_assoc, on_last_snoc, <- app_assoc. by eexists s, _. }
  destruct Hl' as (G' & A' & L' & B' & F' & E' & H').
  assert (E0 : l' = [] -> oversize x = 0).
  { intros [E1 E2]%E'%app_eq_nil. apply He0; [|done]. destruct (unsent pcb) as [|y u' _] using rev_ind; [done|].
    rewrite on_last_snoc in E1. by apply app_eq_nil in E1 as [_ ?]. }
  clearbody l'. exists l'. split; [reflexivity|]. split; [|by rewrite A'].
  destruct Hready as [Hp1 Hm Ho _ Hq]. destruct Hph as [_ Ho' _ _ _ Hq' _ _ _].
  split; [done| | |by rewrite B'|by auto|exact E0|].
  3:{ intros l0 s Hs. destruct (HH l0 s Hs) as (s1 & r1 & E1 & E2). destruct (H' _ _ _ E1) as (s2 & r2 & E3 & E4).
      exists s2, r2. split; [done|]. lia. }
  - rewrite Hlbb, u32_add_l, u16_small by (unfold in_u16 in *; lia). rewrite length_app, Nat2Z.inj_add, Z.add_assoc. reflexivity.
  - split; [exact Hp1|exact Hm|exact Ho'|exact L'|exact Hq'].
Qed.

Lemma tcp_write_ok B D u m live arg apiflags pcb (w : net P PS) :
  write_state B D u m live pcb w ->
  exists err pcb' w', tcp_write ram pcb arg apiflags w = Some (err, pcb', w') /\ sends w w' [] /\
    (err = ERR_OK /\ Z.of_nat (length arg) <= snd_buf pcb /\
       (exists l o q, written B D arg u m pcb pcb' l o q /\ holds (n_segs w') ((sg_addr <$> l) ++ live)) \/
     err <> ERR_OK /\ write_failed pcb pcb' /\ holds (n_segs w') ((sg_addr <$> unsent pcb) ++ live)).
Proof.
  intros [Hready Hc Hlbb Hbuf Hpool]. unfold tcp_write.
  destruct (tcp_write_checks pcb _) as [err pcb1] eqn:Ech. apply tcp_write_checks_spec in Ech as
    [(-> & -> & Hlen)|(Herr & Hf)].
  2:{ destruct (Z.eqb_spec err ERR_OK); [done|]. eexists _, _, w. split; [done|]. split; [apply sends_refl|]. by right. }
  change (ERR_OK =? ERR_OK) with true. cbn [negb].
  assert (Hbuf0 : Z.of_nat (length arg) <= snd_buf pcb) by (unfold in_u16 in *; lia).
  destruct (fill_spec ram B D arg pcb apiflags (fmap (M:=list) sg_addr (unsent pcb) ++ live) Hready u m w Hc)
    as (r & w1 & -> & S1 & N1 & Hx); [intros Hne; destruct arg; [done|cbn in Hlen; lia]|done|].
  destruct r as [x|].
  2:{ eexists _, _, w1. split; [done|]. split; [done|]. right. split; [done|]. split; [by right|]. by rewrite N1. }
  destruct (Hx x eq_refl) as (Hph & Hq0 & Hu & He & Hroom & Hcat).
  destruct (write_loop_spec ram B D arg pcb apiflags _ Hready Hlbb write_fuel _ x w1 Hph) as
    (ok & x' & w2 & -> & S2 & Hph2 & Eu & _ & Ec & Hqx & Hpos).
  { destruct Hph as [_ _ _ _ _ Hq _ _ _]. unfold write_fuel. lia. }
  cbn [mbind option_bind]. pose proof (po_pos _ _ _ _ _ _ _ _ Hph) as Hpx. destruct ok.
  - destruct (commit_written B D arg u m apiflags pcb x' (pos x) (fmap (M:=list) sg_addr (unsent pcb) ++ live) w2) as (l & _ & Hw & Ha);
      try done; rewrite ?Eu, ?Ec; try done; try lia.
    { intros E. by destruct (He E) as (? & ? & _). }
    { intros E Hq'. destruct Hqx as [Hqx|[_ Eo]]; [done|]. rewrite Eo. by apply He. }
    { intros s Hs. specialize (Hroom s Hs). pose proof (po_over _ _ _ _ _ _ _ _ Hph). split; [lia|].
      intros Hq'. destruct Hqx as [Hqx|[_ Eo]]; [done|]. rewrite Eo. lia. }
    eexists _, _, w2. split; [done|]. split; [by eapply sends_none|]. left. split; [done|]. split; [done|].
    eexists _, _, _. split; [exact Hw|]. rewrite Ha. eapply holds_perm; [|apply (po_pool _ _ _ _ _ _ _ _ Hph2)]. solve_Permutation.
  - destruct (write_memerr_spec pcb x' (fmap (M:=list) sg_addr (unsent pcb) ++ live) w2) as (w3 & -> & S3 & Hh3); [apply Hph2|].
    eexists _, _, w3. split; [done|]. split; [eapply sends_none; [done|]; by eapply sends_none|]. right.
    split; [done|]. split; [by right|done].
Qed.

(** C9: [tcp_write] always gives a result.  On success the unsent segments are
    those before followed by the new data, byte for byte and with the sequence
    numbers of the stream, in segments no longer than the limit; the space in
    the send buffer shrinks by the length of the data.  On failure nothing changes
    but a flag, and all segments that were taken are given back. *)
Theorem tcp_write_segments B D u m live arg apiflags pcb (w : net P PS) :
  write_state B D u m live pcb w ->
  exists err pcb' w', tcp_write ram pcb arg apiflags w = Some (err, pcb', w') /\ sends w w' [] /\
    (err = ERR_OK /\ Z.of_nat (length arg) <= snd_buf pcb /\
       (exists l o q, written B D arg u m pcb pcb' l o q /\ holds (n_segs w') ((sg_addr <$> l) ++ live)) \/
     err <> ERR_OK /\ write_failed pcb pcb' /\ holds (n_segs w') ((sg_addr <$> unsent pcb) ++ live)).
Proof. apply tcp_write_ok. Qed.
End write_theorem.

(** ** Instances *)

#[local] Existing Instance IpFrag.reass_pool.

Definition writing : tcp_pcb :=
  (fresh_pcb TCP_PRIO_NORMAL 0xfffffffe 1 0) <| state := ESTABLISHED |> <| local_port := 4000 |> <| remote_port := 80 |>
    <| snd_wnd_max := TCP_WND |>.
Definition writing_net : net Memp.memp Memp.memp :=
  mkNet (mkIp 7 [] None None None 0 0 IpFrag.reass_start [] 0 0 0) (Memp.memp_init [(5%nat, 32)] 4096).
Lemma writing_state : write_state 0xfffffffe [] [] 0 [] writing writing_net.
Proof.
  split; try done.
  - unfold tail_chain. by exists [].
  - exists [[]]. split; [|vm_compute; reflexivity]. apply (Memp.memp_init_inv [(5%nat, 32)] 4096); [lia|repeat constructor].
Qed.

Lemma tcp_write_segments_witness :
  exists err pcb' w', tcp_write (fun _ => true) writing (replicate 1000 7) 1 writing_net = Some (err, pcb', w') /\
    exists l o q, written 0xfffffffe [] (replicate 1000 7) [] 0 writing pcb' l o q.
Proof.
  destruct (tcp_write_segments (fun _ => true) 0xfffffffe [] [] 0 [] (replicate 1000 7) 1 writing writing_net writing_state)
    as (err & pcb' & w' & E & _ & [(_ & _ & l & o & q & Hw & _)|(Herr & _)]).
  - exists err, pcb', w'. split; [exact E|]. exists l, o, q. exact Hw.
  - exfalso. apply Herr.
    assert (Ec : (fun r => r.1.1) <$> tcp_write (fun _ => true) writing (replicate 1000 7) 1 writing_net = Some ERR_OK)
      by (vm_compute; reflexivity).
    rewrite E in Ec. cbn in Ec. injection Ec as Ec. exact Ec.
Defined.

End TcpWrite.
