(* ===== verification/TcpSend.v ===== *)
(** * TCP: the sender (theorems about the queues of a block)

    The segments of the queues [unacked] and [unsent] of a block, taken together in
    the order of the stream, are a [chain]: they hold every byte that the
    application wrote and the other side has not acknowledged.  Sending moves a
    segment to [unacked], the retransmissions move segments back,
    acknowledgements free segments from the front.  What goes out are slices of
    the stream with their sequence numbers. *)

From S2P Require Import Prelude LwipDef InetChksum IpAddr Mem Memp Pbuf Packet IpFrag Ip TcpDef TcpOut TcpIn TcpWrite.

#[local] Open Scope Z_scope.

Module TcpSend.
Import LwipDef InetChksum IpAddr Packet Ip TcpDef TcpOut TcpIn TcpWrite.
#[local] Open Scope update_scope.

(** ** The order of the stream *)

(** All segments with whether they were sent; the queues are the parts of this
    list. *)
Definition tagged := list (bool * tcp_seg).
Definition sel (b : bool) (t : tagged) : list tcp_seg := omap (fun x => if Bool.eqb x.1 b then Some x.2 else None) t.
Definition all (t : tagged) : list tcp_seg := t.*2.
Definition tag (b : bool) (l : list tcp_seg) : tagged := (fun s => (b, s)) <$> l.

Lemma sel_app b t1 t2 : sel b (t1 ++ t2) = sel b t1 ++ sel b t2.
Proof. apply omap_app. Qed.
Lemma all_app t1 t2 : all (t1 ++ t2) = all t1 ++ all t2.
Proof. apply fmap_app. Qed.
Lemma sel_cons b b' s t : sel b ((b', s) :: t) = if Bool.eqb b' b then s :: sel b t else sel b t.
Proof. cbn. by destruct (Bool.eqb b' b). Qed.
Lemma sel_tag b l : sel b (tag b l) = l /\ sel (negb b) (tag b l) = [] /\ all (tag b l) = l.
Proof.
  induction l as [|s l (IH1 & IH2 & IH3)]; [done|]. unfold tag, all in *. cbn [fmap list_fmap]. rewrite !sel_cons.
  rewrite Bool.eqb_reflx, IH1. destruct b; cbn in *; by rewrite IH2, IH3.
Qed.
Lemma sel_in b t s : s ∈ sel b t -> s ∈ all t.
Proof.
  unfold sel, all. rewrite list_elem_of_omap. intros ([b' s'] & Hin & E). cbn in E.
  destruct (Bool.eqb b' b); [|done]. injection E as <-. apply list_elem_of_fmap. by exists (b', s').
Qed.

(** The first segment of a queue splits the list. *)
Lemma sel_head b t s l : sel b t = s :: l ->
  exists t1 t2, t = t1 ++ (b, s) :: t2 /\ sel b t1 = [] /\ l = sel b t2 /\ sel (negb b) t1 = all t1.
Proof.
  induction t as [|[b' x] t IH]; [done|]. rewrite sel_cons. destruct (Bool.eqb b' b) eqn:E.
  - intros [= -> <-]. apply Bool.eqb_prop in E as ->. by exists [], t.
  - intros (t1 & t2 & -> & E1 & E2 & E3)%IH. exists ((b', x) :: t1), t2. rewrite !sel_cons, E.
    destruct b, b'; try done; cbn in *; by rewrite E3.
Qed.

(** Both queues are parts of the list. *)
Lemma sel_perm t : sel true t ++ sel false t ≡ₚ all t.
Proof.
  induction t as [|[[] s] t IH]; [done| |]; rewrite !sel_cons; cbn.
  - by constructor.
  - rewrite <- Permutation_middle. by constructor.
Qed.

(** The positions of the segments of a chain. *)
Lemma chain_pos B D k l e s :
  chain B D k l e -> s ∈ l -> exists p, k <= p /\ p + sg_len s <= e /\ data_segment B D p s.
Proof.
  revert k. induction l as [|x l IH]; intros k; [by intros _ ?%not_elem_of_nil|]. intros [Hx Hc] [->|Hs]%elem_of_cons.
  - exists k. split; [done|]. split; [|done]. by apply chain_le in Hc.
  - destruct (IH _ Hc Hs) as (p & Hp & H2). exists p. pose proof (ds_len _ _ _ _ Hx). split; [lia|done].
Qed.

Lemma chain_order B D k l1 s l2 e x :
  chain B D k (l1 ++ s :: l2) e -> e - k < 2147483648 ->
  (x ∈ l1 -> TCP_SEQ_LT (sg_seqno x) (sg_seqno s) = true /\ TCP_SEQ_LT (sg_seqno s) (sg_seqno x) = false) /\
  (x ∈ l2 -> TCP_SEQ_LT (sg_seqno x) (sg_seqno s) = false /\ TCP_SEQ_LT (sg_seqno s) (sg_seqno x) = true).
Proof.
  intros (m & H1 & H2 & H3)%chain_app Hr. apply chain_le in H1 as Hm. apply chain_le in H3 as He.
  pose proof (ds_len _ _ _ _ H2) as Hs.
  split; intros Hx; [destruct (chain_pos _ _ _ _ _ _ H1 Hx) as (p & ? & ? & Hp)|destruct (chain_pos _ _ _ _ _ _ H3 Hx) as (p & ? & ? & Hp)];
    pose proof (ds_len _ _ _ _ Hp); rewrite (ds_seqno _ _ _ _ Hp), (ds_seqno _ _ _ _ H2), !seq_lt by lia.
  - destruct (Z.ltb_spec (B + p) (B + m)), (Z.ltb_spec (B + m) (B + p)); lia || done.
  - destruct (Z.ltb_spec (B + p) (B + m)), (Z.ltb_spec (B + m) (B + p)); lia || done.
Qed.

Lemma seq_insert_spec s l1 l2 :
  (forall x, x ∈ l1 -> TCP_SEQ_LT (sg_seqno x) (sg_seqno s) = true) ->
  (forall x, x ∈ l2 -> TCP_SEQ_LT (sg_seqno x) (sg_seqno s) = false) ->
  seq_insert s (l1 ++ l2) = l1 ++ s :: l2.
Proof.
  intros H1 H2. induction l1 as [|x l1 IH]; cbn.
  - destruct l2 as [|y l2]; [done|]. cbn. by rewrite (H2 y) by constructor.
  - rewrite (H1 x) by constructor. rewrite IH; [done|]. intros y Hy. apply H1. by constructor.
Qed.
Lemma add_unacked_spec s l1 l2 :
  (forall x, x ∈ l1 -> TCP_SEQ_LT (sg_seqno x) (sg_seqno s) = true /\ TCP_SEQ_LT (sg_seqno s) (sg_seqno x) = false) ->
  (forall x, x ∈ l2 -> TCP_SEQ_LT (sg_seqno x) (sg_seqno s) = false /\ TCP_SEQ_LT (sg_seqno s) (sg_seqno x) = true) ->
  add_unacked s (l1 ++ l2) = l1 ++ s :: l2.
Proof.
  intros H1 H2. unfold add_unacked. destruct l2 as [|y l2 _] using rev_ind.
  - rewrite app_nil_r. destruct l1 as [|y l1 _] using rev_ind; [done|]. rewrite last_snoc.
    by rewrite (proj2 (H1 y ltac:(apply elem_of_app; right; constructor))).
  - rewrite app_assoc, last_snoc, (proj2 (H2 y ltac:(apply elem_of_app; right; constructor))).
    rewrite <- app_assoc. apply seq_insert_spec; [by intros; apply H1|by intros; apply H2].
Qed.

(** ** The invariant of the sender *)

(** What sending does not touch. *)
Definition steady (pcb : tcp_pcb) :=
  (mss pcb, snd_wnd_max pcb, lastack pcb, snd_lbb pcb, snd_buf pcb, local_port pcb, remote_port pcb, state pcb,
   rcv_nxt pcb, rcv_wnd pcb, rcv_ann_wnd pcb, cwnd pcb, ssthresh pcb, snd_wnd pcb).

(** The numbers of a block that has written [len] bytes, of which [una] are
    acknowledged. *)
Record numbers (B una len : Z) (pcb : tcp_pcb) : Prop := {
  nu_lastack : lastack pcb = u32 (B + una); nu_una : 0 <= una;
  nu_lbb : snd_lbb pcb = u32 (B + len);
  nu_buf : snd_buf pcb = TCP_SND_BUF - (len - una); nu_room : 0 <= len - una <= TCP_SND_BUF;
  nu_ports : in_u16 (local_port pcb) /\ in_u16 (remote_port pcb);
  nu_mss : 0 < mss pcb <= TCP_MSS; nu_max : 2 <= snd_wnd_max pcb < 65536;
  nu_state : state pcb = ESTABLISHED;
  nu_rcv : in_u32 (rcv_nxt pcb) /\ in_u16 (rcv_ann_wnd pcb);
  nu_cwnd : 0 < cwnd pcb < 65536; nu_thresh : 0 < ssthresh pcb < 65536; nu_wnd : in_u16 (snd_wnd pcb)
}.
Lemma numbers_steady B una len pcb pcb' : steady pcb' = steady pcb -> numbers B una len pcb -> numbers B una len pcb'.
Proof.
  intros E [H1 H2 H3 H4 H5 H6 H7 H8 H9 H10 H11 H12 H13]. unfold steady in E.
  injection E as E1 E2 E3 E4 E5 E6 E7 E8 E9 E10 E11 E12 E13 E14.
  split; rewrite ?E1, ?E2, ?E3, ?E4, ?E5, ?E6, ?E7, ?E8, ?E9, ?E10, ?E11, ?E12, ?E13, ?E14; assumption.
Qed.
Lemma mss_local_range B una len pcb : numbers B una len pcb -> 0 < mss_local pcb <= TCP_MSS.
Proof. intros [_ _ _ _ _ _ Hm Hx _ _ _ _ _]. unfold mss_local. zlia. Qed.

(** The chain starts at the segment with the first byte that is not acknowledged. *)
Definition starts (una k : Z) (l : list tcp_seg) : Prop :=
  match l with
  | [] => una = k
  | s :: _ => k <= una < k + sg_len s
  end.

(** The queues of the block, in the order [t]; [nxt] is the next position that was
    not sent before. *)
Record queued (B : Z) (D : list Z) (una nxt : Z) (t : tagged) (pcb : tcp_pcb) : Prop := {
  qd_unacked : unacked pcb = sel true t; qd_unsent : unsent pcb = sel false t;
  qd_chain : exists k, chain B D k (all t) (Z.of_nat (length D)) /\ starts una k (all t);
  qd_nxt : snd_nxt pcb = u32 (B + nxt); qd_sent : una <= nxt <= Z.of_nat (length D);
  qd_len : Forall (fun s => sg_len s <= mss_local pcb) (all t);
  qd_qlen : snd_queuelen pcb = buffers (all t); qd_few : buffers (all t) <= TCP_SND_QUEUELEN;
  qd_over : 0 <= unsent_oversize pcb;
  qd_last : forall s, last (unsent pcb) = Some s -> sg_len s + unsent_oversize pcb <= mss_local pcb
}.

(** The chain is short enough for the comparisons of sequence numbers. *)
Lemma queued_short B D una t pcb k :
  numbers B una (Z.of_nat (length D)) pcb -> chain B D k (all t) (Z.of_nat (length D)) -> starts una k (all t) ->
  una - TCP_MSS < k <= una /\ Z.of_nat (length D) - k < 10000.
Proof.
  intros Hn Hc Hs. pose proof (nu_room _ _ _ _ Hn). unfold TCP_SND_BUF, TCP_MSS in *.
  destruct (all t) as [|s l]; cbn in *; [lia|]. pose proof (ds_len _ _ _ _ (proj1 Hc)). unfold TCP_MSS in *. lia.
Qed.

(** ** What goes out *)

(** A packet of the connection: the bytes of the stream from [k] on, an
    acknowledgement and a window. *)
Definition data_packet (B : Z) (D : list Z) (ack win : Z) (q : pbuf) : Prop :=
  exists h k d, tcp_packet q h d /\ tcp_hdr_ok h /\ _hdrlen_rsvd_flags h ∈ [0x5010; 0x5018] /\
    seqno h = u32 (B + k) /\ -1 <= k /\ k + Z.of_nat (length d) <= Z.of_nat (length D) /\
    (d <> [] -> 0 <= k) /\ d = slice D k (Z.of_nat (length d)) /\ Z.of_nat (length d) <= TCP_MSS /\
    ackno h = ack /\ wnd h = win.

Section sending.
Context {P PS : Type} `{Pool P} `{Pool PS}.
Variable output_err : nat -> Z.
Variables frag_ram frag_ref : nat -> nat -> bool.
Variable ram : nat -> bool.
Variable tcp_ticks : Z.

(** The queues, the next sequence number and the counts of the queues. *)
Definition queues (pcb : tcp_pcb) := (unsent pcb, unacked pcb, snd_nxt pcb, snd_queuelen pcb, unsent_oversize pcb).

(** A segment with a header filled in is sent as a packet of the stream. *)
Lemma send_segment B D k s pcb lip ttl tos (w : net P PS) :
  net_ok w -> data_segment B D k s -> has_flag (tcphdr s) TCP_ACK = true ->
  exists q w' l, seg_packet s = Some q /\
    send output_err frag_ram frag_ref (tcphdr s) q lip (remote_ip pcb) ttl tos w = Some w' /\ sends w w' l /\
    n_segs w' = n_segs w /\
    (forall q', q' ∈ l -> data_packet B D (ackno (tcphdr s)) (wnd (tcphdr s)) q').
Proof.
  intros Hok Hs Hack. pose proof (ds_len _ _ _ _ Hs) as Hl. pose proof (ds_range _ _ _ _ Hs) as Hr. unfold seg_packet.
  destruct (ip_header_room (sg_p s) TCP_HLEN) as (q2 & E & _ & Hs2 & Hf2 & W2);
    [pose proof (ds_room _ _ _ _ Hs); unfold TCP_HLEN; lia|done|apply Hs|].
  rewrite E. cbn [mbind option_bind]. destruct (W2 (tcp_hdr_bytes (tcphdr s))) as (Dd & Df & _); [done|].
  assert (Hlen : Z.of_nat (length (data (sg_p s))) = sg_len s).
  { rewrite (ds_data _ _ _ _ Hs). apply length_slice; lia. }
  destruct (tcp_send_spec output_err frag_ram frag_ref (tcphdr s) _ _ _ lip (remote_ip pcb) ttl tos w Hok Dd) as
    (w' & l & E2 & S & N & _ & Hq); [done|rewrite Df, length_app, length_tcp_hdr; lia|unfold TCP_MSS in *; lia|].
  eexists _, w', l. split; [done|]. split; [exact E2|]. split; [done|]. split; [done|]. intros q' Hin.
  destruct (Hq q' Hin) as (c & Hc & Hp). destruct (ds_hdr _ _ _ _ Hs) as [[X1 X2 X3 X4 X5 X6 X7 X8] Hfl].
  eexists _, k, _. split; [exact Hp|]. split; [by split|]. split.
  { clear - Hfl Hack. cbn. unfold has_flag, TCPH_FLAGS in Hack. rewrite !elem_of_cons, elem_of_nil in *.
    destruct Hfl as [E|[E|[E|[E|[]]]]]; rewrite E in *; try done; tauto. }
  rewrite Hlen. split; [apply (ds_seqno _ _ _ _ Hs)|]. split; [lia|]. split; [lia|]. split; [lia|].
  split; [apply Hs|]. split; [lia|done].
Qed.

(** [tcp_output_segment] with a data segment. *)
Lemma output_segment_spec B D k s pcb (w : net P PS) :
  net_ok w -> data_segment B D k s -> has_flag (tcphdr s) TCP_ACK = true ->
  in_u32 (rcv_nxt pcb) -> in_u16 (rcv_ann_wnd pcb) ->
  exists s' pcb' w' l, tcp_output_segment output_err frag_ram frag_ref tcp_ticks s pcb w = Some (s', pcb', w') /\
    sends w w' l /\ n_segs w' = n_segs w /\
    (forall q', q' ∈ l -> data_packet B D (rcv_nxt pcb) (rcv_ann_wnd pcb) q') /\
    (forall k, data_segment B D k s -> data_segment B D k s') /\ sg_len s' = sg_len s /\ sg_addr s' = sg_addr s /\ sg_p s' = sg_p s /\
    sg_seqno s' = sg_seqno s /\
    steady pcb' = steady pcb /\ queues pcb' = queues pcb /\ flags pcb' = flags pcb.
Proof.
  intros Hok Hs Hack Hn Hw. unfold tcp_output_segment.
  set (s' := complete_seg s pcb w).
  assert (Hs' : s' = s <| tcphdr ::= fun h => h <| ackno := rcv_nxt pcb |> <| wnd := rcv_ann_wnd pcb |> <| chksum := 0 |> |>).
  { unfold s', complete_seg. cbn [set set_tcphdr sg_flags]. by rewrite (ds_opts _ _ _ _ Hs). }
  clearbody s'. subst s'. set (h' := _ (tcphdr s)) in *. set (s' := set tcphdr _ s).
  assert (Hd : forall k, data_segment B D k s -> data_segment B D k s').
  { clear k Hs. intros k Hs. apply (data_segment_hdr B D k s _ Hs); [|done].
    destruct (ds_hdr _ _ _ _ Hs) as [[X1 X2 X3 X4 X5 X6 X7 X8] Hfl]. split; [by split|done]. }
  set (pcb1 := pcb <| rcv_ann_right_edge := _ |>). 
  set (pcb2 := if rtime pcb1 =? -1 then pcb1 <| rtime := 0 |> else pcb1).
  assert (H2 : steady pcb2 = steady pcb /\ queues pcb2 = queues pcb /\ flags pcb2 = flags pcb /\ remote_ip pcb2 = remote_ip pcb).
  { unfold pcb2. by destruct (rtime pcb1 =? -1). }
  clearbody pcb2. clear pcb1. destruct H2 as (Z1 & Z2 & Z3 & Z4).
  assert (Hrest : sg_len s' = sg_len s /\ sg_addr s' = sg_addr s /\ sg_p s' = sg_p s /\ sg_seqno s' = sg_seqno s) by done.
  destruct Hrest as (R1 & R2 & R3 & R4).
  destruct (if ip_addr_isany _ then _ else _) as [ip|].
  2:{ eexists s', pcb2, w, []. split; [done|]. split; [apply sends_refl|]. split; [done|]. split; [by intros q ?%not_elem_of_nil|].
      by split_and!. }
  set (pcb3 := pcb2 <| local_ip := ip |>).
  set (pcb4 := if rttest pcb3 =? 0 then _ else pcb3).
  assert (H4 : steady pcb4 = steady pcb2 /\ queues pcb4 = queues pcb2 /\ flags pcb4 = flags pcb2).
  { unfold pcb4. by destruct (rttest pcb3 =? 0). }
  clearbody pcb4. clear pcb3. destruct H4 as (Y1 & Y2 & Y3).
  destruct (send_segment B D k s' pcb4 (local_ip pcb4) (ttl pcb4) (tos pcb4) w Hok (Hd k Hs) Hack) as (q & w' & l & -> & E & S & N & Hq).
  cbn [mbind option_bind]. rewrite E. cbn [mbind option_bind]. eexists s', pcb4, w', l.
  split; [done|]. split; [done|]. split; [done|]. split; [exact Hq|].
  split_and!; try done; congruence.
Qed.

Lemma set_ack_flag h : has_flag (TCPH_SET_FLAG TCP_ACK h) TCP_ACK = true.
Proof.
  change TCP_ACK with (2 ^ 4) at 2. rewrite has_flag_bit by lia. unfold TCPH_SET_FLAG, flag_or. cbn [set set_hrf _hdrlen_rsvd_flags].
  rewrite Z.lor_spec. change (Z.testbit TCP_ACK 4) with true. apply orb_true_r.
Qed.

(** A segment in the order of the stream may be replaced by one with the same data. *)
Lemma queued_replace B D una t1 t2 b s b' s' :
  (exists k, chain B D k (all (t1 ++ (b, s) :: t2)) (Z.of_nat (length D)) /\ starts una k (all (t1 ++ (b, s) :: t2))) ->
  (forall k, data_segment B D k s -> data_segment B D k s') -> sg_len s' = sg_len s ->
  exists k, chain B D k (all (t1 ++ (b', s') :: t2)) (Z.of_nat (length D)) /\ starts una k (all (t1 ++ (b', s') :: t2)).
Proof.
  intros (k & Hc & Hs) Hd E. exists k. rewrite !all_app in *. cbn [all fmap list_fmap snd] in *. split.
  - apply chain_app in Hc as (m & H1 & H2 & H3). apply chain_app. exists m. split; [done|]. split; [by apply Hd|]. by rewrite E.
  - destruct (all t1); [|done]. cbn in *. by rewrite E.
Qed.
Lemma buffers_replace t1 t2 b s b' s' :
  sg_p s' = sg_p s -> buffers (all (t1 ++ (b', s') :: t2)) = buffers (all (t1 ++ (b, s) :: t2)).
Proof. intros E. rewrite !all_app, !buffers_app. cbn. by rewrite E. Qed.

Lemma queue_order B D una t1 b s t2 pcb :
  numbers B una (Z.of_nat (length D)) pcb ->
  (exists k, chain B D k (all (t1 ++ (b, s) :: t2)) (Z.of_nat (length D)) /\ starts una k (all (t1 ++ (b, s) :: t2))) ->
  forall x,
  (x ∈ all t1 -> TCP_SEQ_LT (sg_seqno x) (sg_seqno s) = true /\ TCP_SEQ_LT (sg_seqno s) (sg_seqno x) = false) /\
  (x ∈ all t2 -> TCP_SEQ_LT (sg_seqno x) (sg_seqno s) = false /\ TCP_SEQ_LT (sg_seqno s) (sg_seqno x) = true).
Proof.
  intros Hn (k & Hc & Hs) x. destruct (queued_short _ _ _ _ _ _ Hn Hc Hs) as [Hk1 Hk2].
  rewrite all_app in Hc. apply (chain_order _ _ _ _ _ _ _ x Hc). lia.
Qed.

Lemma mss_local_steady pcb pcb' : steady pcb' = steady pcb -> mss_local pcb' = mss_local pcb.
Proof. unfold steady, mss_local. intros E. injection E as E1 E2 _. by rewrite E1, E2. Qed.

(** Segments that wait are sent in order; [nxt] follows.  [pcb0] is the block
    before the segment was taken off the queue. *)
Lemma after_send_spec B D una nxt t1 s s' t2 pcb0 pcb (w : net P PS) :
  numbers B una (Z.of_nat (length D)) pcb0 -> queued B D una nxt (t1 ++ (false, s) :: t2) pcb0 ->
  sel false t1 = [] -> steady pcb = steady pcb0 -> queues pcb = queues (pcb0 <| unsent := sel false t2 |>) ->
  (forall k, data_segment B D k s -> data_segment B D k s') ->
  sg_len s' = sg_len s -> sg_p s' = sg_p s -> sg_seqno s' = sg_seqno s ->
  exists nxt' pcb', after_send s' pcb w = Some (pcb', w) /\ nxt <= nxt' /\
    queued B D una nxt' (t1 ++ (true, s') :: t2) pcb' /\ unsent pcb' = sel false t2 /\ steady pcb' = steady pcb0 /\
    flags pcb' = flags pcb.
Proof.
  intros Hn [U1 U2 Hc Hx Hs Hl Hq Hf Ho Hlast] Ht1 Hst Hqs Hd El Ep Eseq.
  unfold queues in Hqs. injection Hqs as Q1 Q2 Q3 Q4 Q5. cbn [unsent unacked snd_nxt snd_queuelen unsent_oversize set set_unsent] in *.
  pose proof (queue_order _ _ _ _ _ _ _ _ Hn Hc) as Hord.
  destruct (queued_replace B D una t1 t2 false s true s' Hc Hd El) as (k & Hc' & Hs').
  destruct (queued_short _ _ _ _ _ _ Hn Hc' Hs') as [Hk1 Hk2].
  pose proof Hc' as Hc2. rewrite all_app in Hc2. cbn [all fmap list_fmap snd] in Hc2.
  apply chain_app in Hc2 as (m & H1 & H2 & H3). apply chain_le in H1 as Hm. apply chain_le in H3 as Hm3.
  pose proof (ds_len _ _ _ _ H2) as Hpos. unfold TCP_MSS in *.
  unfold after_send. rewrite (plain_tcplen s' (ds_hdr _ _ _ _ H2)), (ds_seqno _ _ _ _ H2), u32_add_l, Q3, Hx.
  destruct (Z.ltb_spec 0 (sg_len s')); [|lia]. rewrite seq_lt by lia.
  assert (Hins : add_unacked s' (unacked pcb) = sel true (t1 ++ (true, s') :: t2)).
  { rewrite Q2, U1, !sel_app, !sel_cons. cbn [Bool.eqb]. apply add_unacked_spec; intros x Hxx%sel_in; rewrite Eseq; by apply Hord. }
  set (pcb1 := if _ <? _ then _ else pcb).
  exists (Z.max nxt (m + sg_len s')), (pcb1 <| unacked ::= add_unacked s' |>). split; [done|]. split; [lia|].
  assert (E1 : queues pcb1 = (sel false t2, unacked pcb, u32 (B + Z.max nxt (m + sg_len s')), snd_queuelen pcb0, unsent_oversize pcb0) /\
               steady pcb1 = steady pcb0 /\ flags pcb1 = flags pcb).
  { unfold pcb1. destruct (Z.ltb_spec (B + nxt) (B + m + sg_len s')); (rewrite Z.max_r by lia) || (rewrite Z.max_l by lia); unfold queues;
      (split; [|split; [exact Hst|reflexivity]]); cbn [unsent unacked snd_nxt snd_queuelen unsent_oversize set set_snd_nxt];
      by rewrite ?Q1, ?Q3, ?Q4, ?Q5, ?Hx, ?Z.add_assoc. }
  clearbody pcb1. destruct E1 as (E1 & E2 & E3). unfold queues in E1. injection E1 as F1 F2 F3 F4 F5.
  set (pcb2 := pcb1 <| unacked ::= add_unacked s' |>).
  assert (G1 : unacked pcb2 = add_unacked s' (unacked pcb1)) by reflexivity. rewrite F2, Hins in G1.
  assert (G2 : steady pcb2 = steady pcb0) by exact E2.
  change (unsent pcb1) with (unsent pcb2) in F1. change (snd_nxt pcb1) with (snd_nxt pcb2) in F3.
  change (snd_queuelen pcb1) with (snd_queuelen pcb2) in F4. change (unsent_oversize pcb1) with (unsent_oversize pcb2) in F5.
  change (flags pcb1) with (flags pcb2) in E3. clearbody pcb2. clear pcb1 F2 E2.
  split; [|split; [exact F1|split; [exact G2|exact E3]]].
  assert (Hbuf : buffers (all (t1 ++ (true, s') :: t2)) = buffers (all (t1 ++ (false, s) :: t2))) by (by apply buffers_replace).
  split; [exact G1| |by exists k|exact F3|lia| | | | |].
  - rewrite F1, sel_app, Ht1. done.
  - rewrite (mss_local_steady _ _ G2). rewrite all_app in *. apply Forall_app in Hl as [L1 L2].
    apply Forall_app. split; [done|]. cbn in *. inversion L2; subst. constructor; [by rewrite El|done].
  - by rewrite F4, Hbuf.
  - by rewrite Hbuf.
  - by rewrite F5.
  - rewrite (mss_local_steady _ _ G2), F5, F1. intros x Hlx. apply Hlast. rewrite U2, sel_app, Ht1.
    rewrite sel_cons. cbn [Bool.eqb app]. revert Hlx. by destruct (sel false t2).
Qed.

(** What a function of the sender leaves: the packets [ls] went out, the block is
    [pcb'] with the queues [t'], made of the same segments. *)
Record sender_step (B : Z) (D : list Z) (una nxt nxt' : Z) (t t' : tagged) (pcb pcb' : tcp_pcb) (w w' : net P PS)
    (ls : list pbuf) : Prop := {
  so_sends : sends w w' ls; so_segs : n_segs w' = n_segs w;
  so_packets : forall q, q ∈ ls -> data_packet B D (rcv_nxt pcb) (rcv_ann_wnd pcb) q;
  so_nxt : nxt <= nxt'; so_queued : queued B D una nxt' t' pcb'; so_steady : steady pcb' = steady pcb;
  so_addr : sg_addr <$> all t' = sg_addr <$> all t
}.
Lemma step_refl B D una nxt t pcb w : queued B D una nxt t pcb -> sender_step B D una nxt nxt t t pcb pcb w w [].
Proof. intros Hq. split; try done; [apply sends_refl|by intros q ?%not_elem_of_nil]. Qed.
Lemma step_trans B D una n1 n2 n3 t1 t2 t3 p1 p2 p3 w1 w2 w3 l1 l2 :
  sender_step B D una n1 n2 t1 t2 p1 p2 w1 w2 l1 -> sender_step B D una n2 n3 t2 t3 p2 p3 w2 w3 l2 ->
  sender_step B D una n1 n3 t1 t3 p1 p3 w1 w3 (l1 ++ l2).
Proof.
  intros [A1 A2 A3 A4 A5 A6 A7] [B1 B2 B3 B4 B5 B6 B7]. split; try congruence; try lia.
  - by eapply sends_trans.
  - assert (E : rcv_nxt p2 = rcv_nxt p1 /\ rcv_ann_wnd p2 = rcv_ann_wnd p1).
    { unfold steady in A6. by injection A6. }
    destruct E as [E1 E2]. rewrite E1, E2 in B3. intros q [Hq|Hq]%elem_of_app; auto.
Qed.

Lemma queued_same B D una nxt t pcb pcb' :
  steady pcb' = steady pcb -> queues pcb' = queues pcb -> queued B D una nxt t pcb -> queued B D una nxt t pcb'.
Proof.
  intros Hs Hq [U1 U2 Hc Hx Hn Hl Hql Hf Ho Hlast]. unfold queues in Hq. injection Hq as Q1 Q2 Q3 Q4 Q5.
  split; rewrite ?(mss_local_steady _ _ Hs), ?Q1, ?Q2, ?Q3, ?Q4, ?Q5; done.
Qed.

Lemma output_loop_spec B D una wnd l nxt t pcb (w : net P PS) :
  numbers B una (Z.of_nat (length D)) pcb -> queued B D una nxt t pcb -> unsent pcb = l -> net_ok w ->
  exists nxt' t' pcb' w' ls,
    output_loop output_err frag_ram frag_ref tcp_ticks wnd l pcb w = Some (pcb', w') /\
    sender_step B D una nxt nxt' t t' pcb pcb' w w' ls.
Proof.
  revert nxt t pcb w. induction l as [|s l IH]; intros nxt t pcb w Hn Hq Hl Hok; cbn [output_loop].
  { exists nxt, t, pcb, w, []. split; [done|]. by apply step_refl. }
  destruct (negb (in_window s pcb wnd)).
  { exists nxt, t, pcb, w, []. split; [done|]. by apply step_refl. }
  destruct (negb (tcp_do_output_nagle pcb) && _).
  { exists nxt, t, pcb, w, []. split; [done|]. by apply step_refl. }
  pose proof (qd_unsent _ _ _ _ _ _ Hq) as Hu. rewrite Hl in Hu. symmetry in Hu.
  destruct (sel_head _ _ _ _ Hu) as (t1 & t2 & -> & Ht1 & -> & Ht1').
  set (pcb1 := pcb <| unsent := sel false t2 |>). change (state pcb1) with (state pcb).
  rewrite (nu_state _ _ _ _ Hn). rewrite bool_decide_eq_false_2 by done.
  set (pcb2 := pcb1 <| flags ::= _ |>). set (s1 := s <| tcphdr ::= _ |>).
  destruct (qd_chain _ _ _ _ _ _ Hq) as (k & Hc & Hst).
  pose proof Hc as Hc2. rewrite all_app in Hc2. apply chain_app in Hc2 as (m & _ & Hm & _).
  assert (Hs1 : forall k, data_segment B D k s -> data_segment B D k s1) by (intros; apply set_flag_segment; [by right|done]).
  destruct (nu_rcv _ _ _ _ Hn) as [Hr1 Hr2].
  destruct (output_segment_spec B D m s1 pcb2 w) as (s' & pcb' & w' & ls & -> & S & N & Hp & Hd & E1 & E2 & E3 & E4 & E5 & E6 & _);
    [done|by apply Hs1|apply set_ack_flag|done|done|].
  cbn [mbind option_bind].
  destruct (after_send_spec B D una nxt t1 s s' t2 pcb pcb' w') as (nxt' & pcb'' & -> & Hx & Hq' & Hu' & Hst' & _);
    [done|done|done|exact E5|exact E6| |done|done|done|].
  { intros k' Hk'. by apply Hd, Hs1. }
  cbn [mbind option_bind]. assert (Hsq : sender_step B D una nxt nxt' (t1 ++ (false, s) :: t2) (t1 ++ (true, s') :: t2) pcb pcb'' w w' ls).
  { split; try done. rewrite !all_app, !fmap_app. cbn. by rewrite E2. }
  destruct (IH nxt' (t1 ++ (true, s') :: t2) pcb'' w') as (nxt2 & t3 & pcb3 & w3 & l3 & -> & Hs3); try done.
  { by eapply numbers_steady. }
  { by eapply sends_ok. }
  exists nxt2, t3, pcb3, w3, (ls ++ l3). split; [done|]. by eapply step_trans.
Qed.

(** *** Packets without a segment *)

(** A packet with a header of five words that acknowledges, with data of the stream. *)
Lemma send_header B D k d h q lip rip ttl tos (w : net P PS) :
  net_ok w -> segs q = [tcp_hdr_bytes h ++ d] -> tcp_hdr_ok h -> _hdrlen_rsvd_flags h ∈ [0x5010; 0x5018] ->
  seqno h = u32 (B + k) -> -1 <= k -> k + Z.of_nat (length d) <= Z.of_nat (length D) -> (d <> [] -> 0 <= k) ->
  d = slice D k (Z.of_nat (length d)) -> Z.of_nat (length d) <= TCP_MSS ->
  exists w' l, send output_err frag_ram frag_ref h q lip rip ttl tos w = Some w' /\ sends w w' l /\ n_segs w' = n_segs w /\
    (forall q', q' ∈ l -> data_packet B D (ackno h) (wnd h) q').
Proof.
  intros Hok Hq Hh Hf Hk H1 H2 H3 H4 H5.
  assert (Hd : data q = tcp_hdr_bytes h ++ d) by (unfold data; rewrite Hq; cbn [mjoin list_join]; by rewrite app_nil_r).
  destruct (tcp_send_spec output_err frag_ram frag_ref h q _ _ lip rip ttl tos w Hok Hd) as (w' & l & E & S & N & _ & Hp);
    [done|unfold first; rewrite Hq; cbn [hd]; rewrite length_app, length_tcp_hdr; lia|unfold TCP_MSS in *; lia|].
  exists w', l. split; [done|]. split; [done|]. split; [done|]. intros q' Hin. destruct (Hp q' Hin) as (c & Hc & Ht).
  destruct Hh as [X1 X2 X3 X4 X5 X6 X7 X8]. eexists _, k, d. split; [exact Ht|]. split; [by split|]. done.
Qed.

(** The header of [tcp_output_alloc_header], with [n] bytes behind it. *)
Lemma alloc_header_spec pcb n seqno_ (w : net P PS) :
  in_u16 (local_port pcb) -> in_u16 (remote_port pcb) -> in_u32 seqno_ -> in_u32 (rcv_nxt pcb) ->
  in_u16 (rcv_ann_wnd pcb) -> 0 <= n ->
  exists r pcb' w', tcp_output_alloc_header ram pcb 0 n seqno_ w = (r, pcb', w') /\ sends w w' [] /\
    n_segs w' = n_segs w /\ steady pcb' = steady pcb /\ queues pcb' = queues pcb /\
    (r = None -> pcb' = pcb) /\
    forall h q, r = Some (h, q) -> tcp_hdr_ok h /\ _hdrlen_rsvd_flags h = 0x5010 /\ seqno h = seqno_ /\
      ackno h = rcv_nxt pcb /\ wnd h = rcv_ann_wnd pcb /\ segs q = [tcp_hdr_bytes h ++ replicate (Z.to_nat n) 0].
Proof.
  intros Hp1 Hp2 Hs Hr Hw Hn. unfold tcp_output_alloc_header. rewrite !Z.add_0_r.
  destruct (pbuf_alloc ram Pbuf.PBUF_IP (TCP_HLEN + n) w) as [[q|] w1] eqn:E; apply pbuf_alloc_sends in E as (S & N & Hq).
  - eexists _, _, w1. split; [reflexivity|]. split; [done|]. split; [done|]. split; [done|]. split; [done|]. split; [done|].
    intros h q' [= <- <-]. destruct (Hq q eq_refl) as [E _]. split; [by split|]. do 4 (split; [done|]).
    set (h := mkTcpHdr _ _ _ _ _ _ _ _). unfold write_first. rewrite E. cbn [segs].
    rewrite length_tcp_hdr. unfold TCP_HLEN. rewrite Z2Nat.inj_add by lia.
    by rewrite replicate_add, drop_app_length' by done.
  - eexists None, pcb, w1. by split_and!.
Qed.

Lemma empty_ack_spec B D una nxt t pcb (w : net P PS) :
  numbers B una (Z.of_nat (length D)) pcb -> queued B D una nxt t pcb -> net_ok w ->
  exists err pcb' w' ls, tcp_send_empty_ack output_err frag_ram frag_ref ram pcb w = Some (err, pcb', w') /\
    sender_step B D una nxt nxt t t pcb pcb' w w' ls /\ queues pcb' = queues pcb.
Proof.
  intros Hn Hq Hok. pose proof (nu_una _ _ _ _ Hn) as Hu. unfold tcp_send_empty_ack.
  destruct (nu_ports _ _ _ _ Hn) as [Hp1 Hp2]. destruct (nu_rcv _ _ _ _ Hn) as [Hr1 Hr2].
  destruct (alloc_header_spec pcb 0 (snd_nxt pcb) w) as (r & pcb' & w1 & -> & S & N & E1 & E2 & E0 & Hr); try done.
  { rewrite (qd_nxt _ _ _ _ _ _ Hq). apply u32_range. }
  destruct r as [[h q]|].
  2:{ rewrite E0 in * by done. eexists _, pcb, w1, []. split; [done|]. split; [|done].
      split; try done. by intros q ?%not_elem_of_nil. }
  destruct (Hr h q eq_refl) as (Hh & Hf & Hs & Ha & Hw & Hd). pose proof (qd_sent _ _ _ _ _ _ Hq) as Hx.
  destruct (send_header B D nxt [] h q (local_ip pcb') (remote_ip pcb') (ttl pcb') (tos pcb') w1) as (w2 & l & E & S2 & N2 & Hp);
    try done; try (cbn; lia).
  { by eapply sends_ok. }
  { rewrite Hf. constructor. }
  { by rewrite Hs, (qd_nxt _ _ _ _ _ _ Hq). }
  set (pcb2 := pcb' <| flags ::= _ |>).
  change (local_ip pcb2) with (local_ip pcb'). change (remote_ip pcb2) with (remote_ip pcb').
  change (ttl pcb2) with (ttl pcb'). change (tos pcb2) with (tos pcb'). rewrite E. cbn [mbind option_bind].
  destruct (pbuf_free_sends q w2) as [S3 N3]. eexists _, pcb2, _, l. split; [done|]. split; [|exact E2]. split; try done.
  - eapply sends_none; [done|]. rewrite <- (app_nil_r l). by eapply sends_trans.
  - by rewrite N3, N2.
  - by rewrite <- Ha, <- Hw.
  - eapply queued_same; [exact E1|exact E2|done].
Qed.

(** The space behind the last buffer is known to be none when nothing waits. *)
Definition settled (pcb : tcp_pcb) : Prop := unsent pcb = [] -> unsent_oversize pcb = 0.

Lemma tcp_output_spec B D una nxt t pcb (w : net P PS) :
  numbers B una (Z.of_nat (length D)) pcb -> queued B D una nxt t pcb -> settled pcb -> net_ok w ->
  exists err nxt' t' pcb' w' ls,
    tcp_output output_err frag_ram frag_ref ram tcp_ticks false pcb w = Some (err, pcb', w') /\
    sender_step B D una nxt nxt' t t' pcb pcb' w w' ls /\ settled pcb'.
Proof.
  intros Hn Hq Hset Hok. unfold tcp_output. destruct (_ && _).
  - destruct (empty_ack_spec B D una nxt t pcb w) as (err & pcb' & w' & ls & -> & Hs & E); try done.
    exists err, nxt, t, pcb', w', ls. split; [done|]. split; [done|]. unfold settled.
    unfold queues in E. injection E as -> _ _ _ ->. done.
  - destruct (output_loop_spec B D una (Z.min (snd_wnd pcb) (cwnd pcb)) (unsent pcb) nxt t pcb w)
      as (nxt' & t' & pcb' & w' & ls & -> & Hs); try done.
    cbn [mbind option_bind]. destruct Hs as [S1 S2 S3 S4 S5 S6 S7].
    set (pcb2 := if bool_decide (unsent pcb' = []) then pcb' <| unsent_oversize := 0 |> else pcb').
    assert (H2 : queued B D una nxt' t' pcb2 /\ steady pcb2 = steady pcb' /\ settled pcb2).
    { unfold pcb2. case_bool_decide as Hu; [|split_and!; [done|done|by intros E]]. split; [|done].
      destruct S5 as [U1 U2 Hc Hx Hn2 Hl Hql Hf Ho Hlast]. split; try done. intros s. cbn. by rewrite Hu. }
    clearbody pcb2. destruct H2 as (Q2 & E2 & Hs2).
    eexists _, nxt', t', (pcb2 <| flags ::= flag_clear TF_NAGLEMEMERR |>), w', ls. split; [done|]. split; [|exact Hs2].
    split; try done; [|by rewrite <- S6, <- E2]. eapply queued_same; [| |exact Q2]; done.
Qed.

(** *** Retransmission *)

Lemma sel_none b t : sel b t = [] -> sel (negb b) t = all t.
Proof.
  induction t as [|[b' s] t IH]; [done|]. rewrite !sel_cons. destruct b, b'; cbn in *; try done; intros E; by rewrite IH.
Qed.

(** One segment moves back to the other queue. *)
Lemma tcp_rexmit_spec B D una nxt t pcb :
  numbers B una (Z.of_nat (length D)) pcb -> queued B D una nxt t pcb ->
  exists t', queued B D una nxt t' (tcp_rexmit pcb) /\ steady (tcp_rexmit pcb) = steady pcb /\ all t' = all t /\
    (settled pcb -> settled (tcp_rexmit pcb)).
Proof.
  intros Hn Hq. pose proof Hq as [U1 U2 Hc Hx Hs Hl Hql Hf Ho Hlast]. unfold tcp_rexmit.
  destruct (unacked pcb) as [|s l] eqn:Eu; [by exists t|]. symmetry in U1.
  destruct (sel_head _ _ _ _ U1) as (t1 & t2 & -> & Ht1 & -> & Ht1'). cbn [negb] in Ht1'.
  pose proof (queue_order _ _ _ _ _ _ _ _ Hn Hc) as Hord.
  rewrite sel_app, sel_cons, Ht1' in U2. cbn [Bool.eqb] in U2.
  assert (Hins : seq_insert s (unsent pcb) = all t1 ++ s :: sel false t2).
  { rewrite U2. apply seq_insert_spec; [intros x Hxx|intros x Hxx%sel_in]; by apply Hord. }
  set (lo := forallb _ (unsent pcb)).
  assert (Hlo : lo = true -> sel false t2 = []).
  { unfold lo. rewrite U2, forallb_app. intros [_ E]%andb_true_iff. destruct (sel false t2) as [|x l] eqn:E2; [done|].
    cbn in E. assert (Hin : x ∈ all t2) by (apply (sel_in false); rewrite E2; constructor).
    apply (Hord x) in Hin as [E3 _]. by rewrite E3 in E. }
  assert (Hlo2 : lo = false -> sel false t2 <> []).
  { intros E E2. unfold lo in E. rewrite U2, E2, app_nil_r in E. assert (forallb (fun x => TCP_SEQ_LT (sg_seqno x) (sg_seqno s)) (all t1) = true); [|congruence].
    apply forallb_forall. intros x Hin%list_elem_of_In. by apply Hord. }
  assert (Hall : all (t1 ++ (false, s) :: t2) = all (t1 ++ (true, s) :: t2)) by (by rewrite !all_app).
  exists (t1 ++ (false, s) :: t2). split; [|split; [done|split; [done|]]].
  - split; rewrite ?Hall; try done.
    + cbn. by rewrite sel_app, sel_cons, Ht1.
    + change (seq_insert s (unsent pcb) = sel false (t1 ++ (false, s) :: t2)). rewrite Hins, sel_app, sel_cons, Ht1'. done.
    + change (0 <= if lo then 0 else unsent_oversize pcb). by destruct lo.
    + change (forall s0, last (seq_insert s (unsent pcb)) = Some s0 -> sg_len s0 + (if lo then 0 else unsent_oversize pcb) <= mss_local pcb).
      rewrite Hins. intros x. destruct lo.
      * rewrite (Hlo eq_refl), last_snoc. intros [= <-]. rewrite Z.add_0_r. rewrite all_app in Hl.
        apply Forall_app in Hl as [_ Hl]. by inversion Hl.
      * intros E. apply Hlast. rewrite U2. rewrite <- E. rewrite !last_app. specialize (Hlo2 eq_refl).
        cbn. destruct (sel false t2) as [|y l]; [done|]. cbn. destruct (last (y :: l)) eqn:E2; [done|]. by apply last_None in E2.
  - intros _ E. exfalso. change (seq_insert s (unsent pcb) = []) in E. rewrite Hins in E. by destruct (all t1).
Qed.

(** Segments were sent again, and there are later ones that were not yet. *)
Definition pending_rexmit (pcb : tcp_pcb) : bool :=
  match head (unsent pcb), last (unacked pcb) with
  | Some s, Some u => TCP_SEQ_LT (sg_seqno s) (sg_seqno u)
  | _, _ => false
  end.

Lemma not_pending B D una nxt t pcb :
  numbers B una (Z.of_nat (length D)) pcb -> queued B D una nxt t pcb -> pending_rexmit pcb = false ->
  unacked pcb ++ unsent pcb = all t.
Proof.
  intros Hn Hq. pose proof Hq as [U1 U2 Hc _ _ _ _ _ _ _]. unfold pending_rexmit. rewrite U1, U2.
  destruct (sel false t) as [|s l] eqn:Es.
  - intros _. rewrite app_nil_r. by apply sel_none in Es.
  - destruct (sel_head _ _ _ _ Es) as (t1 & t2 & -> & Ht1 & -> & Ht1'). cbn [negb head] in *.
    rewrite sel_app, sel_cons, Ht1', all_app. cbn [Bool.eqb].
    destruct (sel true t2) as [|u l _] eqn:E2 using rev_ind.
    + intros _. rewrite app_nil_r. change (all ((false, s) :: t2)) with (s :: all t2). pose proof (sel_none true t2 E2) as E3. cbn [negb] in E3. by rewrite E3.
    + rewrite app_assoc, last_snoc. intros E. exfalso.
      assert (Hin : u ∈ all t2) by (apply (sel_in true); rewrite E2; apply elem_of_app; right; constructor).
      apply (queue_order _ _ _ _ _ _ _ _ Hn Hc u) in Hin as [_ E3]. by rewrite E3 in E.
Qed.

Lemma tcp_rexmit_rto_spec B D una nxt t pcb (w : net P PS) :
  numbers B una (Z.of_nat (length D)) pcb -> queued B D una nxt t pcb -> settled pcb -> net_ok w ->
  pending_rexmit pcb = false ->
  exists nxt' t' pcb' w' ls,
    tcp_rexmit_rto output_err frag_ram frag_ref ram tcp_ticks false pcb w = Some (pcb', w') /\
    sender_step B D una nxt nxt' t t' pcb pcb' w w' ls /\ settled pcb'.
Proof.
  intros Hn Hq Hset Hok Hpend. unfold tcp_rexmit_rto. case_bool_decide as Eu.
  { exists nxt, t, pcb, w, []. split; [done|]. split; [by apply step_refl|done]. }
  pose proof (not_pending _ _ _ _ _ _ Hn Hq Hpend) as Hall. pose proof Hq as [U1 U2 Hc Hx Hs Hl Hql Hf Ho Hlast].
  set (pcb1 := pcb <| unsent := _ |> <| unacked := _ |> <| nrtx := _ |> <| rttest := _ |>).
  destruct (sel_tag false (all t)) as (T1 & T2 & T3). cbn [negb] in T2.
  assert (Hq1 : queued B D una nxt (tag false (all t)) pcb1).
  { split; rewrite ?T1, ?T2, ?T3; try done. intros s. change (last (unacked pcb ++ unsent pcb) = Some s -> sg_len s + unsent_oversize pcb <= mss_local pcb).
    destruct (unsent pcb) as [|u l _] eqn:E using rev_ind.
    - rewrite (Hset E), app_nil_r, Z.add_0_r. intros Hin%last_Some_elem_of. rewrite app_nil_r in Hall.
      rewrite Hall in Hin. by apply (proj1 (Forall_forall _ _) Hl).
    - rewrite app_assoc, last_snoc. intros [= <-]. apply Hlast. by rewrite last_snoc. }
  assert (Hs1 : settled pcb1).
  { intros E. exfalso. change (unacked pcb ++ unsent pcb = []) in E. by apply app_eq_nil in E as [? _]. }
  destruct (tcp_output_spec B D una nxt (tag false (all t)) pcb1 w) as (err & nxt' & t' & pcb' & w' & ls & -> & [S1 S2 S3 S4 S5 S6 S7] & Hs'); try done.
  { by apply (numbers_steady B una _ pcb). }
  cbn [mbind option_bind]. exists nxt', t', pcb', w', ls. split; [done|]. split; [|done]. split; try done. by rewrite S7, T3.
Qed.

(** *** Probes *)

(** A packet made by [tcp_output_alloc_header] is sent with the data [d]. *)
Lemma probe_spec B D una nxt t k d pcb h q pcb1 tos (w w1 : net P PS) :
  numbers B una (Z.of_nat (length D)) pcb -> queued B D una nxt t pcb -> settled pcb -> net_ok w ->
  sends w w1 [] -> n_segs w1 = n_segs w -> steady pcb1 = steady pcb -> queues pcb1 = queues pcb ->
  tcp_hdr_ok h -> _hdrlen_rsvd_flags h = 0x5010 -> seqno h = u32 (B + k) -> ackno h = rcv_nxt pcb -> wnd h = rcv_ann_wnd pcb ->
  segs q = [tcp_hdr_bytes h ++ d] -> -1 <= k -> k + Z.of_nat (length d) <= Z.of_nat (length D) -> (d <> [] -> 0 <= k) ->
  d = slice D k (Z.of_nat (length d)) -> Z.of_nat (length d) <= TCP_MSS ->
  exists w' ls, send output_err frag_ram frag_ref h q (local_ip pcb1) (remote_ip pcb1) (ttl pcb1) tos w1 = Some w' /\
    sender_step B D una nxt nxt t t pcb pcb1 w (pbuf_free q w') ls /\ settled pcb1.
Proof.
  intros Hn Hq Hset Hok S N E1 E2 Hh Hf Hs Ha Hw Hd K1 K2 K3 K4 K5.
  destruct (send_header B D k d h q (local_ip pcb1) (remote_ip pcb1) (ttl pcb1) tos w1) as (w2 & l & -> & S2 & N2 & Hp); try done.
  { by eapply sends_ok. }
  { rewrite Hf. constructor. }
  exists w2, l. split; [done|]. destruct (pbuf_free_sends q w2) as [S3 N3].
  split; [split; try done|unfold settled; unfold queues in E2; injection E2 as -> _ _ _ ->; done].
  - eapply sends_none; [done|]. rewrite <- (app_nil_r l). by eapply sends_trans.
  - by rewrite N3, N2.
  - by rewrite <- Ha, <- Hw.
  - by eapply queued_same.
Qed.

Lemma tcp_keepalive_spec B D una nxt t pcb (w : net P PS) :
  numbers B una (Z.of_nat (length D)) pcb -> queued B D una nxt t pcb -> settled pcb -> net_ok w ->
  exists pcb' w' ls, tcp_keepalive output_err frag_ram frag_ref ram pcb w = Some (pcb', w') /\
    sender_step B D una nxt nxt t t pcb pcb' w w' ls /\ settled pcb'.
Proof.
  intros Hn Hq Hset Hok. unfold tcp_keepalive. destruct (nu_ports _ _ _ _ Hn) as [Hp1 Hp2]. destruct (nu_rcv _ _ _ _ Hn) as [Hr1 Hr2].
  destruct (alloc_header_spec pcb 0 (u32 (snd_nxt pcb - 1)) w) as (r & pcb1 & w1 & -> & S & N & E1 & E2 & E0 & Hr); try done.
  { apply u32_range. }
  destruct r as [[h q]|].
  2:{ rewrite E0 in * by done. exists pcb, w1, []. split; [done|]. split; [|done]. split; try done. by intros q ?%not_elem_of_nil. }
  destruct (Hr h q eq_refl) as (Hh & Hf & Hs & Ha & Hw & Hd). pose proof (qd_sent _ _ _ _ _ _ Hq). pose proof (nu_una _ _ _ _ Hn).
  destruct (probe_spec B D una nxt t (nxt - 1) [] pcb h q pcb1 0 w w1) as (w' & ls & -> & Hst & Hset'); try done; try (cbn; lia).
  { rewrite Hs, (qd_nxt _ _ _ _ _ _ Hq), u32_sub_l. f_equal. lia. }
  cbn [mbind option_bind]. by exists pcb1, (pbuf_free q w'), ls.
Qed.

(** The probe of a closed window carries the first byte that is not acknowledged, or
    the first one that waits. *)
Lemma tcp_zero_window_probe_spec stale B D una nxt t pcb (w : net P PS) :
  numbers B una (Z.of_nat (length D)) pcb -> queued B D una nxt t pcb -> settled pcb -> net_ok w ->
  exists pcb' w' ls, tcp_zero_window_probe output_err frag_ram frag_ref ram stale pcb w = Some (pcb', w') /\
    sender_step B D una nxt nxt t t pcb pcb' w w' ls /\ settled pcb'.
Proof.
  intros Hn Hq Hset Hok. unfold tcp_zero_window_probe. destruct (nu_ports _ _ _ _ Hn) as [Hp1 Hp2]. destruct (nu_rcv _ _ _ _ Hn) as [Hr1 Hr2].
  destruct (head (unacked pcb ++ unsent pcb)) as [s|] eqn:Eh.
  2:{ exists pcb, w, []. split; [done|]. split; [by apply step_refl|done]. }
  assert (Hin : s ∈ all t).
  { apply head_Some_elem_of in Eh. rewrite (qd_unacked _ _ _ _ _ _ Hq), (qd_unsent _ _ _ _ _ _ Hq) in Eh. by rewrite <- (sel_perm t). }
  destruct (qd_chain _ _ _ _ _ _ Hq) as (k0 & Hc & _). destruct (chain_pos _ _ _ _ _ _ Hc Hin) as (k & _ & _ & Hk).
  pose proof (ds_len _ _ _ _ Hk) as Hl. pose proof (ds_range _ _ _ _ Hk) as Hrg. unfold TCP_MSS in Hl.
  destruct (Z.eqb_spec (sg_len s) 0); [lia|]. rewrite andb_false_r.
  destruct (alloc_header_spec pcb 1 (sg_seqno s) w) as (r & pcb1 & w1 & -> & S & N & E1 & E2 & E0 & Hr); try done.
  { rewrite (ds_seqno _ _ _ _ Hk). apply u32_range. }
  destruct r as [[h q]|].
  2:{ rewrite E0 in * by done. exists pcb, w1, []. split; [done|]. split; [|done]. split; try done. by intros q ?%not_elem_of_nil. }
  destruct (Hr h q eq_refl) as (Hh & Hf & Hs & Ha & Hw & Hd).
  assert (Hlen : Z.of_nat (length (data (sg_p s))) = sg_len s) by (rewrite (ds_data _ _ _ _ Hk); apply length_slice; lia).
  assert (Hb : [probe_byte stale s] = slice D k 1).
  { unfold probe_byte, tot_len. rewrite Hlen, u16_small, Z.sub_diag by (unfold in_u16; lia).
    change (Z.to_nat 0) with 0%nat. assert (E : slice D k 1 = slice (slice D k (sg_len s)) 0 1) by (rewrite slice_slice, Z.add_0_r by lia; done).
    rewrite E, <- (ds_data _ _ _ _ Hk). unfold slice. change (Z.to_nat 0) with 0%nat. change (Z.to_nat 1) with 1%nat. rewrite drop_0.
    destruct (data (sg_p s)); [cbn in Hlen; lia|done]. }
  set (q2 := write_first _ q).
  assert (Hd2 : segs q2 = [tcp_hdr_bytes h ++ [probe_byte stale s]]).
  { unfold q2, write_first. rewrite Hd. cbn [segs]. rewrite drop_ge; [by rewrite app_nil_r|]. rewrite !length_app, !length_tcp_hdr, length_replicate. cbn [length]. lia. }
  destruct (probe_spec B D una nxt t k [probe_byte stale s] pcb h q2 pcb1 0 w w1) as (w' & ls & -> & Hst & Hset'); try done; try (cbn; unfold TCP_MSS; lia).
  { by rewrite Hs, (ds_seqno _ _ _ _ Hk). }
  cbn [mbind option_bind]. by exists pcb1, (pbuf_free q2 w'), ls.
Qed.
End sending.

End TcpSend.
