(* ===== verification/TcpAck.v ===== *)
(** * TCP: writing and acknowledgements (theorems about the queues of a block)

    The invariant of [TcpSend] under [tcp_write] and under the acknowledgements
    that come in: an acknowledgement drops exactly the segments of which all bytes
    are acknowledged, whichever queue they are on. *)

From S2P Require Import Prelude LwipDef InetChksum IpAddr Mem Memp Pbuf Packet IpFrag Ip TcpDef TcpOut TcpIn TcpWrite TcpSend.

#[local] Open Scope Z_scope.

Module TcpAck.
Import LwipDef InetChksum IpAddr Packet Ip TcpDef TcpOut TcpIn TcpWrite TcpSend.
#[local] Open Scope update_scope.

Section acks.
Context {P PS : Type} `{Pool P} `{Pool PS}.
Variable ram : nat -> bool.

(** ** Writing *)

(** The last segment that waits is the last one of the stream. *)
Definition appendable (pcb : tcp_pcb) : Prop :=
  match last (unsent pcb) with
  | Some s => u32 (sg_seqno s + sg_len s) = snd_lbb pcb
  | None => True
  end.

(** Then the list ends with it. *)
Lemma appendable_split B D una nxt t pcb :
  numbers B una (Z.of_nat (length D)) pcb -> queued B D una nxt t pcb -> appendable pcb ->
  exists t1 r m, t = t1 ++ tag false r /\ (r = [] -> sel false t1 = []) /\ (length r <= 1)%nat /\
    (exists k, chain B D k (all t1) m /\ chain B D m r (Z.of_nat (length D)) /\ starts una k (all t1 ++ r)).
Proof.
  intros Hn Hq Ha. pose proof Hq as [U1 U2 (k & Hc & Hst) _ _ _ _ _ _ _]. unfold appendable in Ha.
  destruct (queued_short _ _ _ _ _ _ Hn Hc Hst) as [Hk1 Hk2].
  destruct t as [|[b y] t1 _] using rev_ind.
  { exists [], [], k. split; [done|]. split; [done|]. split; [cbn; lia|]. exists k. by split_and!. }
  rewrite all_app in Hc, Hst. cbn [all fmap list_fmap snd] in Hc, Hst.
  pose proof Hc as Hc2. apply chain_app in Hc2 as (m & H1 & H2 & H3). cbn in H3. destruct b.
  - assert (Hnone : last (unsent pcb) = None).
    { destruct (last (unsent pcb)) as [s|] eqn:El; [|done]. exfalso. apply last_Some_elem_of in El as Hin.
      rewrite U2, sel_app in Hin. cbn in Hin. rewrite app_nil_r in Hin. apply sel_in in Hin.
      destruct (chain_pos _ _ _ _ _ _ H1 Hin) as (p & Hp1 & Hp2 & Hp). pose proof (ds_len _ _ _ _ Hp). pose proof (ds_len _ _ _ _ H2).
      rewrite (ds_seqno _ _ _ _ Hp), (nu_lbb _ _ _ _ Hn), u32_add_l in Ha.
      apply (f_equal (fun x => u32 (x - u32 (B + p + sg_len s)))) in Ha. unfold u32 in Ha. rewrite <- !Zminus_mod in Ha.
      rewrite Z.sub_diag in Ha. replace (B + Z.of_nat (length D) - (B + p + sg_len s)) with (Z.of_nat (length D) - (p + sg_len s)) in Ha by lia.
      rewrite !Z.mod_small in Ha; lia. }
    apply last_None in Hnone. exists (t1 ++ [(true, y)]), [], (Z.of_nat (length D)). cbn [tag fmap list_fmap]. rewrite !app_nil_r.
    split; [done|]. split; [intros _; by rewrite <- U2|]. split; [cbn; lia|]. exists k. rewrite all_app. by split_and!.
  - exists t1, [y], m. split; [done|]. split; [done|]. split; [done|]. exists k. split_and!; done.
Qed.

(** The data was written: everything holds with the longer stream. *)
Lemma written_queued B D arg una nxt t1 r m l o q pcb pcb' :
  numbers B una (Z.of_nat (length D)) pcb -> queued B D una nxt (t1 ++ tag false r) pcb ->
  Z.of_nat (length arg) <= snd_buf pcb -> (length r <= 1)%nat ->
  (exists k, chain B D k (all t1) m /\ chain B D m r (Z.of_nat (length D)) /\ starts una k (all t1 ++ r)) ->
  written B D arg (sel false t1) m pcb pcb' l o q ->
  exists r', l = sel false t1 ++ r' /\ numbers B una (Z.of_nat (length (D ++ arg))) pcb' /\
    queued B (D ++ arg) una nxt (t1 ++ tag false r') pcb' /\ settled pcb'.
Proof.
  intros Hn [U1 U2 _ Hx Hs Hl Hql Hf Ho Hlast] Hbuf Hr (k & Hc1 & Hc2 & Hst) [(r' & -> & Hr' & Hc') Hb Hready Hqlen Hlen Hset Hhead].
  destruct (sel_tag false r) as (T1 & T2 & T3). destruct (sel_tag false r') as (V1 & V2 & V3). cbn [negb] in *.
  rewrite sel_app, T2, app_nil_r in U1. rewrite sel_app, T1 in U2. rewrite all_app, T3 in *.
  exists r'. split; [done|].
  assert (E : unsent pcb' = sel false t1 ++ r' /\ unacked pcb' = unacked pcb /\ snd_nxt pcb' = snd_nxt pcb /\
              snd_queuelen pcb' = q /\ mss_local pcb' = mss_local pcb /\ unsent_oversize pcb' = o)
    by (rewrite Hb; done).
  destruct E as (E1 & E2 & E3 & E4 & E5 & E6). destruct Hready as [_ _ Ro Rl Rq]. rewrite E1 in *.
  rewrite U2, buffers_app in Hqlen. rewrite buffers_app in Hql, Hf.
  assert (Hsum : buffers (sel false t1) + buffers (sel true t1) = buffers (all t1)).
  { clear. induction t1 as [|[b s] t IH]; [done|]. rewrite !sel_cons. change (all ((b, s) :: t)) with (s :: all t).
    unfold buffers in *. destruct b; cbn [Bool.eqb foldr]; lia. }
  assert (Hk : starts una k (all t1 ++ r')).
  { destruct (all t1); [|done]. cbn [app] in *. destruct r as [|s [|? ?]]; [| |cbn in Hr; lia].
    - cbn in Hst, Hc1, Hc2. destruct r' as [|s r']; cbn in *; [lia|]. pose proof (ds_len _ _ _ _ (proj1 Hc')). lia.
    - destruct (Hhead (sel false t1) s) as (s' & r2 & E & El); [done|]. apply app_inv_head in E as ->. cbn in *. lia. }
  split; [|split].
  - destruct Hn as [N1 N2 N3 N4 N5 N6 N7 N8 N9 N10 N11 N12 N13]. rewrite Hb.
    split; try done; [|rewrite length_app; unfold TCP_SND_BUF, TCP_MSS in *; lia].
    change (snd_buf pcb - Z.of_nat (length arg) = TCP_SND_BUF - (Z.of_nat (length (D ++ arg)) - una)). rewrite N4, length_app. lia.
  - split.
    + by rewrite E2, U1, sel_app, V2, app_nil_r.
    + by rewrite E1, sel_app, V1.
    + exists k. rewrite all_app, V3. split; [|done]. apply chain_app. exists m. split; [by apply chain_grow|done].
    + by rewrite E3.
    + rewrite length_app. lia.
    + rewrite E5, all_app, V3. apply Forall_app in Hl as [L1 L2]. rewrite U2 in Hlen.
      assert (Hu : Forall (fun s => sg_len s <= mss_local pcb) (sel false t1 ++ r)).
      { apply Forall_app. split; [|done]. apply Forall_forall. intros x Hin%sel_in. by apply (proj1 (Forall_forall _ _) L1). }
      apply Hlen, Forall_app in Hu as [_ ?]. apply Forall_app. by split.
    + rewrite E4, all_app, V3, buffers_app. rewrite buffers_app in Hqlen. lia.
    + rewrite all_app, V3, buffers_app. rewrite buffers_app in Hqlen. rewrite <- E4 in Hqlen. lia.
    + done.
    + rewrite E1. exact Rl.
  - intros E. rewrite E6. apply Hset. by rewrite E1 in E.
Qed.

(** [tcp_write] with the invariant. *)
Lemma tcp_write_queued B D una nxt t live arg apiflags pcb (w : net P PS) :
  numbers B una (Z.of_nat (length D)) pcb -> queued B D una nxt t pcb -> settled pcb -> appendable pcb ->
  holds (n_segs w) ((sg_addr <$> all t) ++ live) ->
  exists err t' pcb' w', tcp_write ram pcb arg apiflags w = Some (err, pcb', w') /\ sends w w' [] /\
    (let D' := if err =? ERR_OK then D ++ arg else D in
     numbers B una (Z.of_nat (length D')) pcb' /\ queued B D' una nxt t' pcb') /\ settled pcb' /\
    holds (n_segs w') ((sg_addr <$> all t') ++ live) /\
    rcv_nxt pcb' = rcv_nxt pcb /\ rcv_wnd pcb' = rcv_wnd pcb.
Proof.
  intros Hn Hq Hset Ha Hpool. destruct (appendable_split _ _ _ _ _ _ Hn Hq Ha) as (t1 & r & m & -> & Hr & Hr1 & Hcs).
  pose proof Hq as [U1 U2 _ _ _ Hl Hql Hf Ho Hlast]. pose proof (mss_local_range _ _ _ _ Hn) as Hm.
  destruct (sel_tag false r) as (T1 & T2 & T3). cbn [negb] in *.
  rewrite all_app, T3 in Hpool. rewrite sel_app, T2, app_nil_r in U1. rewrite sel_app, T1 in U2.
  assert (Hws : write_state B D (sel false t1) m ((sg_addr <$> sel true t1) ++ live) pcb w).
  { split.
    - split; try done; [apply Hn|]. rewrite Hql. split; [apply buffers_nonneg|done].
    - destruct Hcs as (k & _ & Hc2 & _). exists r. by rewrite U2.
    - apply Hn.
    - rewrite (nu_buf _ _ _ _ Hn). pose proof (nu_room _ _ _ _ Hn). unfold TCP_SND_BUF, TCP_MSS in *. unfold in_u16. lia.
    - eapply holds_perm; [|exact Hpool]. rewrite U2, !fmap_app. rewrite <- (sel_perm t1), fmap_app. solve_Permutation. }
  destruct (tcp_write_ok ram _ _ _ _ _ arg apiflags _ _ Hws) as (err & pcb' & w' & -> & S & [(-> & Hb & l & o & q & Hw & Hh)|(He & Hf2 & Hh)]).
  - destruct (written_queued B D arg una nxt t1 r m l o q pcb pcb' Hn Hq Hb Hr1 Hcs Hw) as (r' & -> & Hn' & Hq' & Hs').
    exists ERR_OK, (t1 ++ tag false r'), pcb', w'. split; [done|]. split; [done|]. split; [done|]. split; [done|].
    destruct (sel_tag false r') as (V1 & V2 & V3). split; [|rewrite (wt_block _ _ _ _ _ _ _ _ _ _ Hw); done].
    eapply holds_perm; [|exact Hh]. rewrite all_app, V3, !fmap_app. rewrite <- (sel_perm t1), fmap_app. solve_Permutation.
  - exists err, (t1 ++ tag false r), pcb', w'. split; [done|]. split; [done|].
    destruct (Z.eqb_spec err ERR_OK); [done|].
    assert (E : steady pcb' = steady pcb /\ queues pcb' = queues pcb) by (destruct Hf2 as [-> | ->]; done).
    destruct E as [E1 E2]. split; [split; [by eapply numbers_steady|by eapply queued_same]|].
    split; [unfold settled; unfold queues in E2; injection E2 as -> _ _ _ ->; done|].
    split; [|unfold steady in E1; injection E1; done].
    eapply holds_perm; [|exact Hh]. rewrite U2, all_app, T3, !fmap_app. rewrite <- (sel_perm t1), fmap_app. solve_Permutation.
Qed.

(** ** Windows and congestion control *)

(** What congestion control does not touch. *)
Definition core (pcb : tcp_pcb) :=
  (mss pcb, lastack pcb, snd_lbb pcb, snd_buf pcb, local_port pcb, remote_port pcb, state pcb,
   rcv_nxt pcb, rcv_wnd pcb, rcv_ann_wnd pcb).
(** The windows of the block are as they must be. *)
Record windows (pcb pcb' : tcp_pcb) : Prop := {
  wi_cwnd : 0 < cwnd pcb' < 65536; wi_thresh : 0 < ssthresh pcb' < 65536; wi_wnd : in_u16 (snd_wnd pcb');
  wi_max : snd_wnd_max pcb <= snd_wnd_max pcb' < 65536
}.
Lemma windows_refl B una len pcb : numbers B una len pcb -> windows pcb pcb.
Proof. intros [_ _ _ _ _ _ _ Hx _ _ H1 H2 H3]. split; try done; lia. Qed.
Lemma windows_trans p1 p2 p3 : windows p1 p2 -> windows p2 p3 -> windows p1 p3.
Proof. intros [_ _ _ H1] [H2 H3 H4 H5]. split; try done; lia. Qed.

Lemma numbers_core B una len pcb pcb' :
  core pcb' = core pcb -> windows pcb pcb' -> numbers B una len pcb -> numbers B una len pcb'.
Proof.
  intros E [W1 W2 W3 W4] [H1 H2 H3 H4 H5 H6 H7 H8 H9 H10 H11 H12 H13]. unfold core in E.
  injection E as E1 E2 E3 E4 E5 E6 E7 E8 E9 E10.
  split; rewrite ?E1, ?E2, ?E3, ?E4, ?E5, ?E6, ?E7, ?E8, ?E9, ?E10; try assumption; lia.
Qed.
Lemma queued_core B D una nxt t pcb pcb' :
  core pcb' = core pcb -> windows pcb pcb' -> queues pcb' = queues pcb -> queued B D una nxt t pcb ->
  queued B D una nxt t pcb'.
Proof.
  intros Hs [_ _ _ W] Hq [U1 U2 Hc Hx Hn Hl Hql Hf Ho Hlast]. unfold queues in Hq. injection Hq as Q1 Q2 Q3 Q4 Q5.
  assert (Hm : mss_local pcb <= mss_local pcb').
  { unfold core in Hs. injection Hs as E _ _ _ _ _ _ _ _ _. unfold mss_local. rewrite E.
    assert (snd_wnd_max pcb / 2 <= snd_wnd_max pcb' / 2) by (apply Z.div_le_mono; lia). lia. }
  split; rewrite ?Q1, ?Q2, ?Q3, ?Q4, ?Q5; try done.
  - eapply Forall_impl; [exact Hl|]. intros x Hx2. cbn in *. lia.
  - intros x E. specialize (Hlast x E). lia.
Qed.
Lemma settled_queues pcb pcb' : queues pcb' = queues pcb -> settled pcb -> settled pcb'.
Proof. unfold settled, queues. intros E. by injection E as -> _ _ _ ->. Qed.

Lemma update_window_spec B una len i pcb :
  numbers B una len pcb -> in_u16 (wnd (in_hdr i)) ->
  core (update_window i pcb) = core pcb /\ queues (update_window i pcb) = queues pcb /\ windows pcb (update_window i pcb).
Proof.
  intros Hn Hw. pose proof (windows_refl _ _ _ _ Hn) as [W1 W2 W3 W4]. unfold update_window.
  set (w := wnd (in_hdr i)) in *. destruct (_ || _); [|by split_and!].
  set (pcb1 := pcb <| snd_wnd := w |> <| snd_wnd_max ::= _ |> <| snd_wl1 := _ |> <| snd_wl2 := _ |>).
  assert (H1 : core pcb1 = core pcb /\ queues pcb1 = queues pcb /\ windows pcb pcb1).
  { split; [done|]. split; [done|]. split; try done.
    change (snd_wnd_max pcb <= (if snd_wnd_max pcb <? w then w else snd_wnd_max pcb) < 65536).
    unfold in_u16 in Hw. destruct (Z.ltb_spec (snd_wnd_max pcb) w); lia. }
  clearbody pcb1. destruct H1 as (E1 & E2 & E3). destruct (w =? 0).
  - destruct (persist_backoff pcb1 =? 0); [|by split_and!]. split; [exact E1|]. split; [exact E2|]. destruct E3. by split.
  - destruct (0 <? persist_backoff pcb1); [|by split_and!]. split; [exact E1|]. split; [exact E2|]. destruct E3. by split.
Qed.

(** The window grows when there is no overflow. *)
Lemma grow_cwnd_spec pcb :
  0 < cwnd pcb < 65536 -> exists pcb', grow_cwnd pcb = Some pcb' /\ core pcb' = core pcb /\ queues pcb' = queues pcb /\
    0 < cwnd pcb' < 65536 /\ ssthresh pcb' = ssthresh pcb /\ snd_wnd pcb' = snd_wnd pcb /\ snd_wnd_max pcb' = snd_wnd_max pcb.
Proof.
  intros Hc. unfold grow_cwnd. destruct (cwnd pcb <? ssthresh pcb).
  - eexists. split; [done|]. pose proof (u16_range (cwnd pcb + mss pcb)) as Hu. unfold in_u16 in Hu.
    destruct (Z.ltb_spec (cwnd pcb) (u16 (cwnd pcb + mss pcb))); split_and!; try done; cbn; lia.
  - destruct (Z.eqb_spec (cwnd pcb) 0); [lia|]. eexists. split; [done|].
    set (x := u16 (cwnd pcb + _)). assert (Hu : in_u16 x) by apply u16_range. unfold in_u16 in Hu.
    destruct (Z.ltb_spec (cwnd pcb) x); split_and!; try done; cbn; lia.
Qed.

Lemma rexmit_fast_spec B D una nxt t pcb :
  numbers B una (Z.of_nat (length D)) pcb -> queued B D una nxt t pcb -> settled pcb ->
  exists t', queued B D una nxt t' (tcp_rexmit_fast pcb) /\ numbers B una (Z.of_nat (length D)) (tcp_rexmit_fast pcb) /\
    settled (tcp_rexmit_fast pcb) /\ all t' = all t /\ core (tcp_rexmit_fast pcb) = core pcb.
Proof.
  intros Hn Hq Hset. unfold tcp_rexmit_fast. destruct (_ && _); [|by exists t].
  destruct (tcp_rexmit_spec B D una nxt t pcb Hn Hq) as (t' & Hq' & Hs & Ha & Hset').
  assert (Hn1 : numbers B una (Z.of_nat (length D)) (tcp_rexmit pcb)) by (by eapply numbers_steady).
  assert (Ec : core (tcp_rexmit pcb) = core pcb).
  { unfold steady in Hs. injection Hs as E1 E2 E3 E4 E5 E6 E7 E8 E9 E10 E11 E12 E13 E14. unfold core. congruence. }
  specialize (Hset' Hset). set (pcb1 := tcp_rexmit pcb) in *. clearbody pcb1. exists t'.
  set (half := if snd_wnd pcb1 <? cwnd pcb1 then snd_wnd pcb1 / 2 else cwnd pcb1 / 2).
  set (thresh := if half <? 2 * mss pcb1 then u16 (2 * mss pcb1) else half).
  pose proof (nu_mss _ _ _ _ Hn1) as Hm. unfold TCP_MSS in Hm.
  assert (Hth : 0 < thresh <= 40000).
  { assert (Hh : 0 <= half <= 32767).
    { unfold half. pose proof (nu_cwnd _ _ _ _ Hn1). pose proof (nu_wnd _ _ _ _ Hn1) as Hw. unfold in_u16 in Hw.
      destruct (_ <? _); zlia. }
    unfold thresh. destruct (Z.ltb_spec half (2 * mss pcb1)); [rewrite u16_small by (unfold in_u16; lia)|]; lia. }
  set (pcb2 := pcb1 <| ssthresh := _ |> <| cwnd := _ |> <| flags ::= _ |>).
  assert (E : core pcb2 = core pcb1 /\ queues pcb2 = queues pcb1) by done. destruct E as [E1 E2].
  assert (Hw : windows pcb1 pcb2).
  { pose proof (windows_refl _ _ _ _ Hn1) as [W1 W2 W3 W4]. split; try done.
    - change (0 < u16 (thresh + 3 * mss pcb1) < 65536). rewrite u16_small by (unfold in_u16; lia). lia.
    - change (0 < thresh < 65536). lia. }
  clearbody pcb2. split; [by eapply queued_core|]. split; [by eapply numbers_core|].
  split; [by eapply settled_queues|]. split; [done|]. congruence.
Qed.

Lemma duplicate_ack_spec B D una nxt t i edge pcb :
  numbers B una (Z.of_nat (length D)) pcb -> queued B D una nxt t pcb -> settled pcb ->
  exists t', let pcb' := duplicate_ack i edge pcb in
    queued B D una nxt t' pcb' /\ numbers B una (Z.of_nat (length D)) pcb' /\ settled pcb' /\ all t' = all t /\
    core pcb' = core pcb.
Proof.
  intros Hn Hq Hset. unfold duplicate_ack. set (pcb0 := pcb <| acked := 0 |>).
  assert (Hn0 : numbers B una (Z.of_nat (length D)) pcb0) by (by apply (numbers_steady _ _ _ pcb)).
  assert (Hq0 : queued B D una nxt t pcb0) by (by apply (queued_same _ _ _ _ _ pcb)).
  assert (Hs0 : settled pcb0) by done. assert (Ec : core pcb0 = core pcb) by done. clearbody pcb0.
  destruct (_ && _).
  2:{ exists t. cbn zeta. split; [by apply (queued_same _ _ _ _ _ pcb0)|]. split; [by apply (numbers_steady _ _ _ pcb0)|].
      split; [done|]. split; [done|]. by rewrite <- Ec. }
  set (pcb1 := if _ <? u8 _ then pcb0 <| dupacks := _ |> else pcb0).
  assert (H1 : queued B D una nxt t pcb1 /\ numbers B una (Z.of_nat (length D)) pcb1 /\ settled pcb1 /\ core pcb1 = core pcb).
  { unfold pcb1. destruct (_ <? _); [|done]. split; [by apply (queued_same _ _ _ _ _ pcb0)|].
    split; [by apply (numbers_steady _ _ _ pcb0)|]. split; [done|]. by rewrite <- Ec. }
  clearbody pcb1. destruct H1 as (Hq1 & Hn1 & Hs1 & E1). destruct (3 <? dupacks pcb1).
  - exists t. cbn zeta. destruct (Z.ltb_spec (cwnd pcb1) (u16 (cwnd pcb1 + mss pcb1))) as [Hlt|]; [|by split_and!].
    set (pcb2 := pcb1 <| cwnd := _ |>). assert (Hw : windows pcb1 pcb2).
    { pose proof (windows_refl _ _ _ _ Hn1) as [W1 W2 W3 W4]. split; try done.
      change (0 < u16 (cwnd pcb1 + mss pcb1) < 65536). pose proof (u16_range (cwnd pcb1 + mss pcb1)) as Hu. unfold in_u16 in Hu. lia. }
    split; [by apply (queued_core _ _ _ _ _ pcb1)|]. split; [by apply (numbers_core _ _ _ pcb1)|]. split; [done|].
    split; [done|]. by rewrite <- E1.
  - destruct (dupacks pcb1 =? 3); [|by exists t].
    destruct (rexmit_fast_spec B D una nxt t pcb1 Hn1 Hq1 Hs1) as (t' & A1 & A2 & A3 & A4 & A5). exists t'.
    cbn zeta. split_and!; try done. congruence.
Qed.

(** ** Dropping what is acknowledged *)

(** The list up to the position [a]: whole segments, and the one that has the next
    byte. *)
Lemma chain_split B D k t e a :
  chain B D k (all t) e -> k <= a <= e ->
  exists t1 t2 m, t = t1 ++ t2 /\ chain B D k (all t1) m /\ chain B D m (all t2) e /\ m <= a /\ starts a m (all t2).
Proof.
  revert k. induction t as [|[b s] t IH]; intros k Hc Ha.
  - cbn in Hc. subst. exists [], [], e. split_and!; try done; cbn; lia.
  - change (all ((b, s) :: t)) with (s :: all t) in Hc. destruct Hc as [Hs Hc].
    destruct (decide (k + sg_len s <= a)) as [Hle|Hgt].
    + destruct (IH _ Hc) as (t1 & t2 & m & -> & H1 & H2 & H3 & H4); [lia|].
      exists ((b, s) :: t1), t2, m. split_and!; done.
    + exists [], ((b, s) :: t), k. split; [done|]. split; [done|]. split; [done|]. split; [lia|].
      change (all ((b, s) :: t)) with (s :: all t). cbn. lia.
Qed.

(** One of the two loops of [tcp_receive] over the queues. *)
Lemma ack_loop_spec covered l1 l2 pcb (w : net P PS) live c :
  (forall x, x ∈ l1 -> covered x = true /\ has_flag (tcphdr x) TCP_FIN = false) ->
  (forall x, head l2 = Some x -> covered x = false) ->
  holds (n_segs w) ((sg_addr <$> l1) ++ live) ->
  snd_queuelen pcb = buffers l1 + c -> 0 <= c -> buffers l1 + c <= TCP_SND_QUEUELEN ->
  exists pcb' w', ack_loop covered (l1 ++ l2) pcb w = Some (l2, pcb', w') /\ sends w w' [] /\ holds (n_segs w') live /\
    steady pcb' = steady pcb /\ queues pcb' = (unsent pcb, unacked pcb, snd_nxt pcb, c, unsent_oversize pcb).
Proof.
  intros H1 H2. revert pcb w. induction l1 as [|s l1 IH]; intros pcb w Hh Hq Hc Hb; cbn [app ack_loop].
  - exists pcb, w. split; [|split; [apply sends_refl|split; [done|split; [done|]]]].
    + destruct l2 as [|x l2]; [done|]. cbn. by rewrite (H2 x eq_refl).
    + unfold queues. rewrite Hq. done.
  - destruct (H1 s ltac:(constructor)) as [-> ->]. rewrite andb_false_r.
    change (buffers (s :: l1)) with (clen (sg_p s) + buffers l1) in *. pose proof (buffers_nonneg l1).
    assert (Ecl : pbuf_clen (sg_p s) = clen (sg_p s)).
    { apply u8_small. unfold in_u8. fold (clen (sg_p s)). unfold TCP_SND_QUEUELEN in *. unfold clen in *. lia. }
    rewrite Ecl, Hq. replace (clen (sg_p s) + buffers l1 + c - clen (sg_p s)) with (buffers l1 + c) by lia.
    unfold TCP_SND_QUEUELEN in Hb. assert (0 <= clen (sg_p s)) by (unfold clen; lia).
    rewrite u16_small by (unfold in_u16; lia).
    destruct (release_ok (n_segs w) [] (sg_addr s) (fmap (M:=list) sg_addr l1 ++ live) Hh) as (m & Em & Hm).
    unfold tcp_seg_free. rewrite Em. cbn [mbind option_bind]. set (w1 := mkNet _ m).
    assert (S1 : sends w w1 []) by (split; try done; cbn; by rewrite sent_packets_app).
    set (pcb1 := pcb <| snd_queuelen := _ |>).
    destruct (IH ltac:(intros x Hx; apply H1; by constructor) pcb1 w1 Hm) as (pcb' & w' & -> & S & Hh' & E1 & E2);
      [done|lia|unfold TCP_SND_QUEUELEN; lia|].
    exists pcb', w'. split; [done|]. split; [by eapply sends_none|]. split; [done|]. split; [exact E1|exact E2].
Qed.

Lemma data_segment_end B D p s : data_segment B D p s -> segment_end s = u32 (B + (p + sg_len s)).
Proof.
  intros Hs. unfold segment_end. rewrite (plain_tcplen s (ds_hdr _ _ _ _ Hs)), (ds_seqno _ _ _ _ Hs), u32_add_l.
  f_equal. lia.
Qed.
Lemma data_segment_fin B D p s : data_segment B D p s -> has_flag (tcphdr s) TCP_FIN = false.
Proof. intros Hs. by destruct (plain_flags _ (ds_hdr _ _ _ _ Hs)). Qed.

(** The queues when the acknowledged part is gone. *)
Lemma queued_drop B D una nxt a t1 t2 m pcb pcb' :
  queued B D una nxt (t1 ++ t2) pcb -> chain B D m (all t2) (Z.of_nat (length D)) -> starts a m (all t2) ->
  una <= a <= nxt -> mss_local pcb' = mss_local pcb ->
  queues pcb' = (sel false t2, sel true t2, snd_nxt pcb, buffers (all t2),
                 if bool_decide (sel false (t1 ++ t2) <> []) && bool_decide (sel false t2 = []) then 0 else unsent_oversize pcb) ->
  settled pcb -> queued B D a nxt t2 pcb' /\ settled pcb'.
Proof.
  intros [U1 U2 _ Hx Hs Hl Hql Hf Ho Hlast] Hc Hst Ha Hm Hq Hset. unfold queues in Hq. injection Hq as Q1 Q2 Q3 Q4 Q5.
  rewrite all_app in *. rewrite buffers_app in Hf. pose proof (buffers_nonneg (all t1)).
  split.
  - split; rewrite ?Hm, ?Q1, ?Q2, ?Q3, ?Q4, ?Q5; try done.
    + by exists m.
    + lia.
    + by apply Forall_app in Hl as [_ ?].
    + lia.
    + by destruct (_ && _).
    + intros x El. destruct (_ && _) eqn:E; [|apply Hlast; rewrite U2, sel_app, last_app, El; done].
      apply andb_true_iff in E as [_ E%bool_decide_eq_true]. by rewrite E in El.
  - unfold settled. rewrite Q1, Q5. intros E. rewrite (bool_decide_eq_true_2 _ E), andb_true_r.
    destruct (sel false (t1 ++ t2)) eqn:E2; [|done]. rewrite bool_decide_eq_false_2 by (intros X; by apply X).
    by apply Hset.
Qed.

(** ** An acknowledgement *)

Definition rcv_fields (pcb : tcp_pcb) := (rcv_nxt pcb, rcv_wnd pcb, rcv_ann_wnd pcb).

(** New data is acknowledged; [t1] are the segments of which all is, the first loop
    drops those that were sent. *)
Lemma new_ack_spec B D una nxt a t1 t2 i pcb (w : net P PS) live :
  numbers B una (Z.of_nat (length D)) pcb -> queued B D una nxt (t1 ++ t2) pcb -> una < a <= nxt ->
  in_ackno i = u32 (B + a) ->
  (forall x, x ∈ all t1 -> TCP_SEQ_LEQ (segment_end x) (in_ackno i) = true /\ has_flag (tcphdr x) TCP_FIN = false) ->
  (forall x, x ∈ all t2 -> TCP_SEQ_LEQ (segment_end x) (in_ackno i) = false) ->
  holds (n_segs w) ((sg_addr <$> sel true t1) ++ live) ->
  exists pcb' w', new_ack i pcb w = Some (pcb', w') /\ sends w w' [] /\ holds (n_segs w') live /\
    numbers B a (Z.of_nat (length D)) pcb' /\ mss_local pcb' = mss_local pcb /\ rcv_fields pcb' = rcv_fields pcb /\
    queues pcb' = (unsent pcb, sel true t2, snd_nxt pcb, buffers (sel false t1) + buffers (all t2), unsent_oversize pcb).
Proof.
  intros Hn [U1 U2 Hch Hx Hs Hl Hql Hf Ho Hlast] Ha Hack H1 H2 Hh. pose proof (nu_room _ _ _ _ Hn) as Hroom.
  unfold TCP_SND_BUF, TCP_MSS in Hroom. unfold new_ack.
  set (pA := if flag_set (flags pcb) TF_INFR then _ else pcb).
  assert (HA : core pA = core pcb /\ queues pA = queues pcb /\ windows pcb pA /\ snd_wnd_max pA = snd_wnd_max pcb).
  { pose proof (windows_refl _ _ _ _ Hn) as [W1 W2 W3 W4]. unfold pA. destruct (flag_set _ _); [|by split_and!].
    by split_and!. }
  clearbody pA. destruct HA as (EA1 & EA2 & WA & MA). pose proof (numbers_core _ _ _ _ _ EA1 WA Hn) as HnA.
  assert (En : u16 (u32 (in_ackno i - lastack pA)) = a - una).
  { rewrite Hack, (nu_lastack _ _ _ _ HnA). unfold u32. rewrite <- Zminus_mod.
    replace (B + a - (B + una)) with (a - una) by lia. fold (u32 (a - una)).
    rewrite u32_small, u16_small; unfold in_u32, in_u16; lia. }
  rewrite En. assert (Eb : u16 (snd_buf pA + (a - una)) = TCP_SND_BUF - (Z.of_nat (length D) - a)).
  { rewrite (nu_buf _ _ _ _ HnA). unfold TCP_SND_BUF, TCP_MSS. rewrite u16_small; unfold in_u16; lia. }
  rewrite Eb. set (pB := pA <| nrtx := _ |> <| rto := _ |> <| acked := _ |> <| snd_buf := _ |> <| dupacks := _ |> <| lastack := _ |>).
  assert (HnB : numbers B a (Z.of_nat (length D)) pB).
  { destruct HnA as [N1 N2 N3 N4 N5 N6 N7 N8 N9 N10 N11 N12 N13]. split; try done; unfold TCP_SND_BUF, TCP_MSS in *; lia. }
  assert (EB : queues pB = queues pA /\ mss_local pB = mss_local pcb /\ rcv_fields pB = rcv_fields pcb).
  { split; [done|]. unfold core in EA1. injection EA1 as F1 F2 F3 F4 F5 F6 F7 F8 F9 F10.
    split; [change (Z.min (mss pA) (snd_wnd_max pA / 2) = mss_local pcb); unfold mss_local; congruence|].
    change (rcv_fields pA = rcv_fields pcb). unfold rcv_fields. congruence. }
  clearbody pB. destruct EB as (EB1 & EB2 & EB3). rewrite (nu_state _ _ _ _ HnB).
  change (state_num ESTABLISHED <=? state_num ESTABLISHED) with true. cbn iota.
  destruct (grow_cwnd_spec pB (nu_cwnd _ _ _ _ HnB)) as (pC & -> & EC1 & EC2 & EC3 & EC4 & EC5 & EC6).
  cbn [mbind option_bind]. assert (HnC : numbers B a (Z.of_nat (length D)) pC).
  { eapply numbers_core; [exact EC1| |exact HnB]. pose proof (windows_refl _ _ _ _ HnB) as [W1 W2 W3 W4].
    split; rewrite ?EC4, ?EC5, ?EC6; done. }
  rewrite EB1, EA2 in EC2. pose proof EC2 as Eq. unfold queues in Eq. injection Eq as Q1 Q2 Q3 Q4 Q5.
  assert (Hsum : forall t, buffers (sel false t) + buffers (sel true t) = buffers (all t)).
  { intros t. induction t as [|[b s] t IH]; [done|]. rewrite !sel_cons. change (all ((b, s) :: t)) with (s :: all t).
    unfold buffers in *. destruct b; cbn [Bool.eqb foldr]; lia. }
  rewrite all_app, buffers_app in *. specialize (Hsum t1). pose proof (buffers_nonneg (sel false t1)). pose proof (buffers_nonneg (all t2)).
  rewrite Q2, U1, sel_app.
  destruct (ack_loop_spec (fun s => TCP_SEQ_LEQ (segment_end s) (in_ackno i)) (sel true t1) (sel true t2) pC w live
             (buffers (sel false t1) + buffers (all t2))) as (pD & w' & -> & S & Hh' & ED1 & ED2); try done; try lia.
  { intros x Hin%sel_in. by apply H1. }
  { intros x Hhd. apply H2. apply (sel_in true). by apply head_Some_elem_of. }
  cbn [mbind option_bind]. eexists _, w'. split; [done|]. split; [done|]. split; [done|].
  rewrite Q1, Q2, Q3, Q5 in ED2. unfold queues in ED2. injection ED2 as D1 D2 D3 D4 D5.
  pose proof (numbers_steady _ _ _ _ _ ED1 HnC) as HnD. set (pE := pD <| unacked := _ |> <| rtime := _ |> <| polltmr := _ |>).
  assert (EE : steady pE = steady pD /\ queues pE = (unsent pD, sel true t2, snd_nxt pD, snd_queuelen pD, unsent_oversize pD)) by done.
  clearbody pE. destruct EE as [EE1 EE2]. rewrite EE2, D1, D3, D4, D5. rewrite <- EE1 in ED1.
  split; [by eapply numbers_steady|]. split; [|split; [|done]].
  - rewrite (mss_local_steady pC) by congruence. rewrite <- EB2. unfold mss_local. rewrite EC6.
    unfold core in EC1. injection EC1 as E1 _ _ _ _ _ _ _ _ _. by rewrite E1.
  - rewrite <- EB3. rewrite EE1 in ED1. rewrite <- EE1 in ED1. unfold steady in ED1. unfold core in EC1. unfold rcv_fields.
    injection ED1 as _ _ _ _ _ _ _ _ G1 G2 G3 _ _ _. injection EC1 as _ _ _ _ _ _ _ G4 G5 G6. congruence.
Qed.

(** The acknowledgement number stands for [a], within 2^30 of what is acknowledged. *)
Definition acks (B una a : Z) (i : input) : Prop :=
  in_ackno i = u32 (B + a) /\ -1073741824 <= a - una <= 1073741824.

(** Where a segment ends, compared with the acknowledgement number. *)
Lemma chain_pos_starts B D una k l e x :
  chain B D k l e -> starts una k l -> x ∈ l -> exists p, data_segment B D p x /\ k <= p /\ una < p + sg_len x <= e.
Proof.
  destruct l as [|s l]; [by intros _ _ ?%not_elem_of_nil|]. intros [Hs Hc] Hst [->|Hin]%elem_of_cons; cbn in Hst.
  - exists k. apply chain_le in Hc. split; [done|]. lia.
  - destruct (chain_pos _ _ _ _ _ _ Hc Hin) as (p & H1 & H2 & Hp). exists p. pose proof (ds_len _ _ _ _ Hp). split; [done|]. lia.
Qed.

Lemma acked_compare B D una nxt pcb i a p x :
  numbers B una (Z.of_nat (length D)) pcb -> snd_nxt pcb = u32 (B + nxt) -> una <= nxt <= Z.of_nat (length D) ->
  acks B una a i -> data_segment B D p x -> una - TCP_MSS < p -> p + sg_len x <= Z.of_nat (length D) ->
  TCP_SEQ_LEQ (segment_end x) (in_ackno i) = (p + sg_len x <=? a) /\
  TCP_SEQ_BETWEEN (in_ackno i) (segment_end x) (snd_nxt pcb) = (p + sg_len x <=? a) && (a <=? nxt).
Proof.
  intros Hn Hx Hs [E Ha] Hp Hp1 Hp2. pose proof (nu_room _ _ _ _ Hn) as Hroom. pose proof (ds_len _ _ _ _ Hp) as Hl.
  unfold TCP_SND_BUF, TCP_MSS in *.
  rewrite (data_segment_end _ _ _ _ Hp), Hx, E, seq_between, seq_leq by lia.
  split; [|f_equal]; apply eq_bool_prop_intro; rewrite !Is_true_true, !Z.leb_le; lia.
Qed.

(** Nothing is dropped by a number that acknowledges nothing new. *)
Lemma nothing_acked B D una nxt t pcb i a x :
  numbers B una (Z.of_nat (length D)) pcb -> queued B D una nxt t pcb -> acks B una a i -> a <= una \/ nxt < a ->
  x ∈ all t -> TCP_SEQ_BETWEEN (in_ackno i) (segment_end x) (snd_nxt pcb) = false.
Proof.
  intros Hn [_ _ (k & Hc & Hst) Hx Hs _ _ _ _ _] Ha Hor Hin. destruct (queued_short _ _ _ _ _ _ Hn Hc Hst) as [Hk1 Hk2].
  destruct (chain_pos_starts _ _ _ _ _ _ _ Hc Hst Hin) as (p & Hp & Hp1 & Hp2 & Hp3).
  destruct (acked_compare B D una nxt pcb i a p x) as [_ ->]; try done; [lia|].
  destruct (Z.leb_spec (p + sg_len x) a), (Z.leb_spec a nxt); try done. lia.
Qed.

Lemma estimate_rtt_frame tcp_ticks i pcb :
  steady (estimate_rtt tcp_ticks i pcb) = steady pcb /\ queues (estimate_rtt tcp_ticks i pcb) = queues pcb.
Proof. unfold estimate_rtt. destruct (_ && _); split; reflexivity. Qed.

(** The second loop and the rest of [receive_ack], for a block that has dropped its
    sent segments among [t1] already, which are the acknowledged ones. *)
Lemma second_loop_spec B D una nxt a t1 t2 i pcb0 pcb (w : net P PS) live tcp_ticks :
  queued B D una nxt (t1 ++ t2) pcb0 -> numbers B a (Z.of_nat (length D)) pcb -> una <= a <= nxt ->
  (exists m, chain B D m (all t2) (Z.of_nat (length D)) /\ starts a m (all t2)) ->
  (forall x, x ∈ all t1 -> TCP_SEQ_BETWEEN (in_ackno i) (segment_end x) (snd_nxt pcb) = true /\ has_flag (tcphdr x) TCP_FIN = false) ->
  (forall x, x ∈ all t2 -> TCP_SEQ_BETWEEN (in_ackno i) (segment_end x) (snd_nxt pcb) = false) ->
  mss_local pcb = mss_local pcb0 ->
  queues pcb = (unsent pcb0, sel true t2, snd_nxt pcb0, buffers (sel false t1) + buffers (all t2), unsent_oversize pcb0) ->
  settled pcb0 -> holds (n_segs w) ((sg_addr <$> sel false t1) ++ live) ->
  exists pcb' w',
    ('(l, pcb, w) ← ack_loop (fun s => TCP_SEQ_BETWEEN (in_ackno i) (segment_end s) (snd_nxt pcb)) (unsent pcb) pcb w;
     let pcb := if bool_decide (unsent pcb <> []) && bool_decide (l = []) then pcb <| unsent_oversize := 0 |> else pcb in
     Some (estimate_rtt tcp_ticks i (pcb <| unsent := l |>), w)) = Some (pcb', w') /\
    sends w w' [] /\ holds (n_segs w') live /\
    numbers B a (Z.of_nat (length D)) pcb' /\ queued B D a nxt t2 pcb' /\ settled pcb' /\ rcv_fields pcb' = rcv_fields pcb.
Proof.
  intros Hq Hn Ha (m & Hc & Hst) H1 H2 Hm Hqs Hset Hh. unfold queues in Hqs. injection Hqs as Q1 Q2 Q3 Q4 Q5.
  pose proof (qd_unsent _ _ _ _ _ _ Hq) as U2. pose proof (qd_few _ _ _ _ _ _ Hq) as Hf.
  assert (Hb : buffers (sel false t1) <= buffers (all t1)).
  { clear. induction t1 as [|[b s] t IH]; [done|]. rewrite !sel_cons. change (all ((b, s) :: t)) with (s :: all t).
    unfold buffers, clen in *. destruct b; cbn [Bool.eqb foldr]; lia. }
  rewrite all_app, buffers_app in Hf. pose proof (buffers_nonneg (all t2)).
  rewrite Q1, U2, sel_app.
  destruct (ack_loop_spec (fun s => TCP_SEQ_BETWEEN (in_ackno i) (segment_end s) (snd_nxt pcb)) (sel false t1) (sel false t2)
              pcb w live (buffers (all t2))) as (pD & w' & -> & S & Hh' & ED1 & ED2); try done; try lia.
  { intros x Hin%sel_in. by apply H1. }
  { intros x Hhd. apply H2. apply (sel_in false). by apply head_Some_elem_of. }
  cbn [mbind option_bind]. rewrite Q1, Q2, Q3, Q5 in ED2. unfold queues in ED2. injection ED2 as D1 D2 D3 D4 D5.
  rewrite D1, U2. set (pE := if _ && _ then _ else pD).
  set (pF := pE <| unsent := sel false t2 |>).
  assert (EF : steady pF = steady pcb /\
    queues pF = (sel false t2, sel true t2, snd_nxt pcb0, buffers (all t2),
                 if bool_decide (sel false (t1 ++ t2) <> []) && bool_decide (sel false t2 = []) then 0 else unsent_oversize pcb0)).
  { unfold pF, pE. set (c := bool_decide (sel false (t1 ++ t2) <> []) && bool_decide (sel false t2 = [])). clearbody c. destruct c; (split; [exact ED1|]); unfold queues;
      cbn [unsent unacked snd_nxt snd_queuelen unsent_oversize set set_unsent set_unsent_oversize]; by rewrite ?D2, ?D3, ?D4, ?D5. }
  destruct EF as [EF1 EF2]. clearbody pF. clear pE.
  destruct (estimate_rtt_frame tcp_ticks i pF) as [EG1 EG2].
  eexists _, w'. split; [done|]. split; [done|]. split; [done|]. set (pG := estimate_rtt _ _ pF) in *. clearbody pG.
  rewrite EF1 in EG1. rewrite EF2 in EG2.
  assert (HnG : numbers B a (Z.of_nat (length D)) pG) by (by eapply numbers_steady).
  destruct (queued_drop B D una nxt a t1 t2 m pcb0 pG) as [R1 R2]; try done.
  { rewrite (mss_local_steady pcb pG EG1). done. }
  split; [done|]. split; [done|]. split; [done|]. unfold steady in EG1. unfold rcv_fields.
  injection EG1 as _ _ _ _ _ _ _ _ G1 G2 G3 _ _ _. congruence.
Qed.

Lemma receive_ack_spec B D una nxt t i a pcb (w : net P PS) live tcp_ticks :
  numbers B una (Z.of_nat (length D)) pcb -> queued B D una nxt t pcb -> settled pcb ->
  acks B una a i -> in_u16 (wnd (in_hdr i)) -> holds (n_segs w) ((sg_addr <$> all t) ++ live) ->
  exists t' pcb' w', receive_ack tcp_ticks i pcb w = Some (pcb', w') /\ sends w w' [] /\
    holds (n_segs w') ((sg_addr <$> all t') ++ live) /\
    (let una' := if (una <? a) && (a <=? nxt) then a else una in
     numbers B una' (Z.of_nat (length D)) pcb' /\ queued B D una' nxt t' pcb') /\
    settled pcb' /\ rcv_fields pcb' = rcv_fields pcb.
Proof.
  intros Hn0 Hq0 Hset0 Hack Hwnd Hh. unfold receive_ack.
  destruct (update_window_spec _ _ _ i pcb Hn0 Hwnd) as (E1 & E2 & E3). set (p1 := update_window i pcb) in *.
  pose proof (numbers_core _ _ _ _ _ E1 E3 Hn0) as Hn. pose proof (queued_core _ _ _ _ _ _ _ E1 E3 E2 Hq0) as Hq.
  pose proof (settled_queues _ _ E2 Hset0) as Hset.
  assert (Er : rcv_fields p1 = rcv_fields pcb).
  { unfold core in E1. unfold rcv_fields. injection E1 as _ _ _ _ _ _ _ G1 G2 G3. congruence. }
  clearbody p1. rewrite <- Er. clear E1 E2 E3 Er Hn0 Hq0 Hset0. pose proof Hack as [Ea Hra].
  pose proof (qd_sent _ _ _ _ _ _ Hq) as Hs. pose proof (qd_nxt _ _ _ _ _ _ Hq) as Hx.
  assert (Hkeep : forall p2 t2, queued B D una nxt t2 p2 -> numbers B una (Z.of_nat (length D)) p2 -> settled p2 ->
            all t2 = all t -> rcv_fields p2 = rcv_fields p1 -> a <= una \/ nxt < a -> exists t' pcb' w',
    ('(l, pcb, w) ← ack_loop (fun s => TCP_SEQ_BETWEEN (in_ackno i) (segment_end s) (snd_nxt p2)) (unsent p2) p2 w;
     let pcb := if bool_decide (unsent pcb <> []) && bool_decide (l = []) then pcb <| unsent_oversize := 0 |> else pcb in
     Some (estimate_rtt tcp_ticks i (pcb <| unsent := l |>), w)) = Some (pcb', w') /\ sends w w' [] /\
    holds (n_segs w') ((sg_addr <$> all t') ++ live) /\
    (numbers B una (Z.of_nat (length D)) pcb' /\ queued B D una nxt t' pcb') /\
    settled pcb' /\ rcv_fields pcb' = rcv_fields p1).
  { intros p2 t2 Hq2 Hn2 Hs2 Ha2 Er Hor.
    destruct (second_loop_spec B D una nxt una [] t2 i p2 p2 w ((sg_addr <$> all t2) ++ live) tcp_ticks)
      as (pcb' & w' & E & S & Hh' & R1 & R2 & R3 & R4); try done; [lia|apply Hq2| | | |by rewrite Ha2|].
    - by intros x ?%not_elem_of_nil.
    - intros x Hin. by eapply nothing_acked.
    - unfold queues. rewrite (qd_unacked _ _ _ _ _ _ Hq2), (qd_qlen _ _ _ _ _ _ Hq2). done.
    - exists t2, pcb', w'. rewrite E. split_and!; try done. congruence. }
  pose proof (nu_room _ _ _ _ Hn) as Hroom. unfold TCP_SND_BUF, TCP_MSS in Hroom.
  rewrite Ea, (nu_lastack _ _ _ _ Hn), u32_add_l, Hx, seq_leq, seq_between by lia.
  rewrite <- Ea. destruct (Z.leb_spec (B + a) (B + una)) as [Hle|Hgt].
  { destruct (duplicate_ack_spec B D una nxt t i (u32 (snd_wnd pcb + snd_wl2 pcb)) p1 Hn Hq Hset) as (t2 & A1 & A2 & A3 & A4 & A5).
    cbn [mbind option_bind]. replace ((una <? a) && (a <=? nxt)) with false by (destruct (Z.ltb_spec una a); [lia|done]).
    apply (Hkeep _ t2); try done; [|lia]. unfold core in A5. unfold rcv_fields. injection A5 as _ _ _ _ _ _ _ G1 G2 G3. congruence. }
  destruct (Z.leb_spec (B + una + 1) (B + a)); [|lia]. destruct (Z.ltb_spec una a); [|lia]. cbn [andb].
  replace (B + a <=? B + nxt) with (a <=? nxt) by (apply eq_bool_prop_intro; rewrite !Is_true_true, !Z.leb_le; lia).
  destruct (Z.leb_spec a nxt) as [Hnx|Hnx].
  2:{ cbn [mbind option_bind]. apply (Hkeep (p1 <| acked := 0 |>) t); try done; [| |lia].
      - by apply (queued_same _ _ _ _ _ p1).
      - by apply (numbers_steady _ _ _ p1). }
  clear Hkeep. pose proof (qd_chain _ _ _ _ _ _ Hq) as (k & Hc & Hst). destruct (queued_short _ _ _ _ _ _ Hn Hc Hst) as [Hk1 Hk2].
  destruct (chain_split _ _ _ _ _ a Hc) as (t1 & t2 & m & -> & C1 & C2 & Hm & Hst2); [lia|].
  assert (Hc1 : forall x, x ∈ all t1 -> TCP_SEQ_LEQ (segment_end x) (in_ackno i) = true /\
                 TCP_SEQ_BETWEEN (in_ackno i) (segment_end x) (snd_nxt p1) = true /\ has_flag (tcphdr x) TCP_FIN = false).
  { intros x Hin. destruct (chain_pos _ _ _ _ _ _ C1 Hin) as (p & Hp1 & Hp2 & Hp). apply chain_le in C2 as Hm2.
    destruct (acked_compare B D una nxt p1 i a p x) as [-> ->]; try done; try lia.
    destruct (Z.leb_spec (p + sg_len x) a); [|lia]. destruct (Z.leb_spec a nxt); [|lia].
    split_and!; try done. by eapply data_segment_fin. }
  assert (Hc2 : forall x, x ∈ all t2 -> TCP_SEQ_LEQ (segment_end x) (in_ackno i) = false /\
                 TCP_SEQ_BETWEEN (in_ackno i) (segment_end x) (snd_nxt p1) = false).
  { intros x Hin. destruct (chain_pos_starts _ _ _ _ _ _ _ C2 Hst2 Hin) as (p & Hp & Hp1 & Hp2 & Hp3).
    apply chain_le in C1 as Hm2.
    destruct (acked_compare B D una nxt p1 i a p x) as [-> ->]; try done; try lia. }
  destruct (new_ack_spec B D una nxt a t1 t2 i p1 w ((sg_addr <$> sel false t1) ++ (sg_addr <$> all t2) ++ live))
    as (p2 & w2 & -> & S2 & Hh2 & Hn2 & Hml & Er2 & Hqs2); try done.
  { intros x Hin. by destruct (Hc1 x Hin) as (? & _ & ?). }
  { intros x Hin. by apply Hc2. }
  { eapply holds_perm; [|exact Hh]. rewrite all_app, fmap_app, <- (sel_perm t1), fmap_app. solve_Permutation. }
  cbn [mbind option_bind]. assert (Ex : snd_nxt p2 = snd_nxt p1) by (unfold queues in Hqs2; by injection Hqs2).
  destruct (second_loop_spec B D una nxt a t1 t2 i p1 p2 w2 ((sg_addr <$> all t2) ++ live) tcp_ticks)
    as (pcb' & w' & E & S & Hh' & R1 & R2 & R3 & R4); try done; [lia|by exists m| | |].
  { intros x Hin. rewrite Ex. by destruct (Hc1 x Hin) as (_ & ? & ?). }
  { intros x Hin. rewrite Ex. by apply Hc2. }
  exists t2, pcb', w'. split; [exact E|]. split; [by eapply sends_none|]. split; [done|]. split; [done|]. split; [done|]. congruence.
Qed.
End acks.

End TcpAck.
