(* ===== verification/TcpRecv.v ===== *)
(** * TCP: receiving data (theorems about [tcp_receive])

    A segment that comes in is trimmed to what is new and to the window, and what
    is left goes to the application when it is the next in sequence.  However
    segments are lost, repeated or overtake each other, the application gets the
    bytes of the stream in order, each one once. *)

From S2P Require Import Prelude LwipDef InetChksum IpAddr Mem Memp Pbuf Packet IpFrag Ip TcpDef TcpOut TcpIn TcpWrite TcpSend TcpAck.

#[local] Open Scope Z_scope.

Module TcpRecv.
Import LwipDef InetChksum IpAddr Packet Ip TcpDef TcpOut TcpIn TcpWrite TcpSend TcpAck.
#[local] Open Scope update_scope.

(** ** Data in sequence *)

Lemma trim_front_spec off l :
  (off <= length (mjoin l))%nat -> l <> [] -> Z.of_nat off <= 32768 ->
  exists l', trim_front off l = Some l' /\ mjoin l' = drop off (mjoin l) /\ l' <> [].
Proof.
  revert off. induction l as [|s l IH]; intros off Hoff Hl Hs; [done|]. cbn [trim_front].
  rewrite mjoin_cons in *. rewrite length_app in Hoff.
  destruct (Nat.ltb_spec (length s) off) as [Hlt|Hge].
  - destruct (IH (off - length s)%nat) as (l' & -> & E & Hne); [lia| |lia|].
    { intros ->. cbn in Hoff. lia. }
    exists ([] :: l'). split; [done|]. split; [|done]. rewrite mjoin_cons, E, app_nil_l.
    by rewrite drop_app_ge by lia.
  - destruct (Z.ltb_spec 32768 (Z.of_nat off)); [lia|]. eexists. split; [done|]. split; [|done].
    rewrite mjoin_cons. by rewrite drop_app_le by lia.
Qed.

Lemma realloc_data p n :
  segs p <> [] -> 0 <= n <= Z.of_nat (length (data p)) -> Z.of_nat (length (data p)) < 65536 ->
  data (pbuf_realloc p n) = take (Z.to_nat n) (data p) /\ segs (pbuf_realloc p n) <> [].
Proof.
  intros Hs Hn Hl. unfold pbuf_realloc, tot_len. rewrite u16_small by (unfold in_u16; lia).
  destruct (Z.leb_spec (Z.of_nat (length (data p))) n).
  - split; [|done]. rewrite take_ge; [done|lia].
  - cbn [data segs]. unfold data in *. cbn [segs]. assert (Hb : (Z.to_nat n <= length (mjoin (segs p)))%nat) by lia.
    clear Hn Hl H. revert Hb. generalize (Z.to_nat n) as m. induction (segs p) as [|s l IH]; intros m Hm; [done|].
    cbn [trim]. rewrite !mjoin_cons in *. rewrite length_app in Hm. destruct (Nat.ltb_spec (length s) m).
    + split; [|done]. rewrite mjoin_cons. destruct (decide (l = [])) as [->|Hne]; [cbn in Hm; lia|].
      rewrite (proj1 (IH Hne (m - length s)%nat ltac:(lia))). rewrite take_app_ge by lia. done.
    + split; [|done]. rewrite mjoin_cons, take_app_le by lia. cbn. by rewrite app_nil_r.
Qed.

Lemma tcplen_flags len h :
  tcplen_of len h = len + (if has_flag h TCP_FIN || has_flag h TCP_SYN then 1 else 0).
Proof. unfold tcplen_of, has_flag. by rewrite flag_set_lor. Qed.

(** The flags after the FIN was taken out of the header. *)
Lemma clear_fin h :
  let h' := TCPH_FLAGS_SET (Z.land (TCPH_FLAGS h) (u32 (Z.lnot TCP_FIN))) h in
  has_flag h' TCP_FIN = false /\ has_flag h' TCP_SYN = has_flag h TCP_SYN.
Proof.
  intros h'. pose proof (has_flag_bit h' 0 ltac:(lia)) as E0. pose proof (has_flag_bit h' 1 ltac:(lia)) as E1.
  pose proof (has_flag_bit h 1 ltac:(lia)) as E2. change (2 ^ 0) with TCP_FIN in *. change (2 ^ 1) with TCP_SYN in *.
  rewrite E0, E1, E2. unfold h', TCPH_FLAGS_SET, TCPH_FLAGS. cbn [set set_hrf _hdrlen_rsvd_flags].
  rewrite !Z.lor_spec, !Z.land_spec.
  change (Z.testbit (u16 (Z.lnot TCP_FLAGS)) 0) with false. change (Z.testbit (u16 (Z.lnot TCP_FLAGS)) 1) with false.
  change (Z.testbit (u32 (Z.lnot TCP_FIN)) 0) with false. change (Z.testbit (u32 (Z.lnot TCP_FIN)) 1) with true.
  change (Z.testbit TCP_FLAGS 1) with true. rewrite !andb_false_r, !andb_true_r. done.
Qed.

(** The segment holds the bytes from [k] on of the stream [S], whose first byte has
    the sequence number [B]; with [fin], it ends the stream. *)
Record stream_segment (B : Z) (S : list Z) (k : Z) (fin : bool) (i : input) (p : pbuf) : Prop := {
  ss_k : 0 <= k /\ k + inseg_len i <= Z.of_nat (length S);
  ss_p : inseg_p i = Some p; ss_segs : segs p <> [];
  ss_len : inseg_len i = Z.of_nat (length (data p)); ss_short : inseg_len i < 32768;
  ss_data : data p = slice S k (inseg_len i);
  ss_seqno : in_seqno i = u32 (B + k);
  ss_fin : has_flag (in_hdr i) TCP_FIN = fin; ss_syn : has_flag (in_hdr i) TCP_SYN = false;
  ss_end : fin = true -> k + inseg_len i = Z.of_nat (length S);
  ss_none : recv_data i = None /\ recv_flags i = 0
}.

(** The block has received the first [n] bytes of the stream. *)
Record received (B : Z) (S : list Z) (n : Z) (pcb : tcp_pcb) : Prop := {
  rc_n : 0 <= n <= Z.of_nat (length S); rc_nxt : rcv_nxt pcb = u32 (B + n); rc_wnd : 0 <= rcv_wnd pcb <= TCP_WND
}.

(** The bytes handed to the application. *)
Definition taken (i : input) : list Z := match recv_data i with Some q => data q | None => [] end.
Definition fin_taken (i : input) : bool := flag_set (recv_flags i) TF_GOT_FIN.

(** The fields that the receiver does not touch. *)
Definition snd_part (pcb : tcp_pcb) :=
  (mss pcb, snd_wnd_max pcb, lastack pcb, snd_lbb pcb, snd_buf pcb, local_port pcb, remote_port pcb, state pcb,
   cwnd pcb, ssthresh pcb, snd_wnd pcb).
Definition same_rest (pcb pcb' : tcp_pcb) : Prop := snd_part pcb' = snd_part pcb /\ queues pcb' = queues pcb.

(** The segment after the trimming of what was received before. *)
Lemma trim_first_spec B S k fin i p pcb n :
  stream_segment B S k fin i p -> received B S n pcb ->
  in_tcplen i = inseg_len i + (if fin then 1 else 0) -> 0 < in_tcplen i -> -1000000000 <= k - n < 1000000000 ->
  exists k' i' pcb' p', trim_first_edge i pcb = Some (i', pcb') /\ stream_segment B S k' fin i' p' /\
    k' = (if (k <? n) && (n <? k + in_tcplen i) then n else k) /\ k' + inseg_len i' = k + inseg_len i /\
    received B S n pcb' /\ same_rest pcb pcb' /\ rcv_fields pcb' = rcv_fields pcb.
Proof.
  intros [[Hk1 Hk2] Hp Hseg Hl Hshort Hd Hs Hf Hy He Hn] Hr Ht Hpos Hnear.
  destruct Hr as [Hnn Rn Rw]. unfold trim_first_edge. rewrite Rn, Hs, u32_add_l.
  rewrite <- (Z.add_sub_assoc (u32 (B + k))), u32_add_l.
  rewrite Ht. rewrite seq_between by (destruct fin; lia). rewrite seq_lt by lia.
  replace (_ && _) with ((k <? n) && (n <? k + in_tcplen i))
    by (rewrite Ht; apply eq_bool_prop_intro; rewrite !andb_True, !Is_true_true, !Z.ltb_lt, !Z.leb_le; destruct fin; lia).
  rewrite Ht. destruct ((k <? n) && (n <? _)) eqn:E.
  - apply andb_true_iff in E as [E1%Z.ltb_lt E2%Z.ltb_lt]. rewrite Hp. cbn [mbind option_bind].
    assert (En : n - k <= inseg_len i) by (destruct fin; lia).
    assert (Eoff : u32 (u32 (B + n) - u32 (B + k)) = n - k).
    { unfold u32. rewrite <- Zminus_mod. replace (B + n - (B + k)) with (n - k) by lia. apply u32_small. unfold in_u32. lia. }
    rewrite Eoff. destruct (trim_front_spec (Z.to_nat (n - k)) (segs p)) as (l' & -> & El & Hne);
      [unfold data in Hl; lia|done|lia|].
    cbn [mbind option_bind]. rewrite (u16_small (n - k)), u16_small by (unfold in_u16; lia).
    eexists n, _, _, _. split; [done|]. split; [|split; [done|]; split; [cbn; lia|]; split; [by split|done]].
    assert (Hdata : data (mkPbuf (before p) l') = slice S n (inseg_len i - (n - k))).
    { unfold data. cbn [segs]. rewrite El. change (mjoin (segs p)) with (data p). rewrite Hd. unfold slice.
      replace (Z.to_nat (inseg_len i)) with (Z.to_nat (n - k) + Z.to_nat (inseg_len i - (n - k)))%nat by lia.
      rewrite <- take_drop_commute, drop_drop. repeat f_equal. lia. }
    split; cbn; try done; try lia.
    + rewrite Hdata, length_slice; lia.
    + intros ?. specialize (He ltac:(done)). lia.
  - eexists k, _, _, _. split; [done|]. split; [by split|]. split; [done|]. split; [done|].
    destruct (B + k <? B + n); (split; [by split|done]).
Qed.

(** What the segment that starts at the next byte brings: as much as the window
    takes, the FIN last. *)
Lemma take_segment_spec B S n fin i p pcb :
  stream_segment B S n fin i p -> received B S n pcb -> 0 < rcv_wnd pcb ->
  let len := Z.min (inseg_len i) (rcv_wnd pcb) in
  let f := fin && (inseg_len i <? rcv_wnd pcb) in
  exists i' pcb', take_segment i pcb = Some (i', pcb') /\ taken i' = slice S n len /\ fin_taken i' = f /\
    (recv_flags i' = if f then TF_GOT_FIN else 0) /\
    rcv_nxt pcb' = u32 (B + n + len + (if f then 1 else 0)) /\ rcv_wnd pcb' = rcv_wnd pcb - len - (if f then 1 else 0) /\
    in_u16 (rcv_ann_wnd pcb') /\ same_rest pcb pcb'.
Proof.
  intros [[Hk1 Hk2] Hp Hseg Hl Hshort Hd Hs Hf Hy He [Hnone Hrf]] [Hnn Rn Rw] Hwnd len f.
  assert (Hlt : in_u16 (inseg_len i + 1)) by (unfold in_u16; lia). unfold TCP_WND, TCP_MSS in *.
  assert (Hlen0 : 0 <= len <= inseg_len i) by (unfold len; lia).
  assert (Hlen1 : 0 <= len + (if f then 1 else 0) <= rcv_wnd pcb).
  { unfold len, f. destruct fin; cbn [andb]; [destruct (Z.ltb_spec (inseg_len i) (rcv_wnd pcb))|]; lia. }
  assert (Htrim : exists i1 p1, trim_last_edge i pcb = Some i1 /\ inseg_p i1 = Some p1 /\
            data p1 = slice S n len /\ in_tcplen i1 = len + (if f then 1 else 0) /\
            has_flag (in_hdr i1) TCP_FIN = f /\ in_seqno i1 = in_seqno i /\ recv_data i1 = None /\ recv_flags i1 = 0).
  { unfold trim_last_edge. cbn [set set_in_tcplen in_hdr inseg_len in_tcplen inseg_p].
    rewrite tcplen_flags, Hf, Hy, orb_false_r, u16_small by (unfold in_u16; destruct fin; lia).
    destruct (Z.ltb_spec (rcv_wnd pcb) (inseg_len i + (if fin then 1 else 0))).
    - destruct (clear_fin (in_hdr i)) as [C1 C2].
      set (h := if fin then _ else _).
      assert (Hh : has_flag h TCP_FIN = false /\ has_flag h TCP_SYN = false).
      { unfold h. destruct fin; [rewrite C2; by rewrite C1|by rewrite Hf]. }
      destruct Hh as [H1 H2]. rewrite H2, Hp. cbn [mbind option_bind].
      assert (El : len = rcv_wnd pcb) by (unfold len; destruct fin; lia).
      assert (Ef : f = false).
      { unfold f. destruct fin; [|done]. destruct (Z.ltb_spec (inseg_len i) (rcv_wnd pcb)); [lia|done]. }
      destruct (realloc_data p (rcv_wnd pcb)) as [D _]; [done|destruct fin; lia|lia|].
      eexists _, _. split; [done|]. cbn. split; [done|]. rewrite tcplen_flags, H1, H2, Ef, El. cbn.
      split; [|split; [rewrite u16_small; unfold in_u16; lia|done]].
      rewrite D, Hd. unfold slice. rewrite take_take. f_equal. lia.
    - assert (El : len = inseg_len i) by (unfold len; destruct fin; lia).
      assert (Ef : f = fin).
      { unfold f. destruct fin; [|done]. destruct (Z.ltb_spec (inseg_len i) (rcv_wnd pcb)); [done|lia]. }
      eexists _, p. split; [done|]. cbn. rewrite El, Ef, Hd. split_and!; try done. }
  destruct Htrim as (i1 & p1 & E1 & Ep & Ed & Et & Efl & Eseq & Er & Erf). unfold take_segment. rewrite E1.
  cbn [mbind option_bind]. rewrite Ep. cbn [mbind option_bind].
  assert (Hlen : Z.of_nat (length (data p1)) = len) by (rewrite Ed; apply length_slice; lia).
  assert (Htot : tot_len p1 = len) by (unfold tot_len; rewrite Hlen; apply u16_small; unfold in_u16; lia).
  rewrite Htot, Et, Eseq, Hs.
  match goal with |- context [(tcp_update_rcv_ann_wnd ?x).2] => destruct (update_ann_shape x) as (a & -> & Ha) end.
  match goal with |- context [tcp_ack ?x] => destruct (tcp_ack_shape x) as [b ->] end.
  rewrite u32_add_l. rewrite (u16_small (rcv_wnd pcb - _)) by (unfold in_u16; lia).
  eexists _, _. split; [done|].
  assert (Hi : taken (if 0 <? len then i1 <| recv_data := Some p1 |> <| inseg_p := None |> else i1) = slice S n len).
  { unfold taken. destruct (Z.ltb_spec 0 len); cbn; [by rewrite Ed|]. rewrite Er.
    symmetry. apply nil_length_inv. apply Nat2Z.inj. rewrite length_slice by lia. cbn. lia. }
  set (i2 := if 0 <? len then _ else i1) in *.
  assert (H2 : in_hdr i2 = in_hdr i1 /\ recv_flags i2 = 0) by (unfold i2; destruct (0 <? len); by rewrite <- ?Erf).
  destruct H2 as [H2 H3]. rewrite H2, Efl. split; [destruct f; exact Hi|].
  cbn [rcv_nxt rcv_wnd rcv_ann_wnd set set_flags set_rcv_ann_wnd set_rcv_nxt set_rcv_wnd] in *.
  split; [unfold fin_taken; destruct f; cbn; by rewrite ?H3|]. split; [destruct f; cbn; by rewrite ?H3|].
  split; [f_equal; lia|]. split; [lia|]. split; [|split; reflexivity]. apply Ha. rewrite u16_small; unfold in_u16; lia.
Qed.

(** ** The data of a segment *)

Lemma numbers_rest B una len pcb pcb' :
  same_rest pcb pcb' -> in_u32 (rcv_nxt pcb') -> in_u16 (rcv_ann_wnd pcb') -> numbers B una len pcb -> numbers B una len pcb'.
Proof.
  intros [E _] Hr Hw [H1 H2 H3 H4 H5 H6 H7 H8 H9 H10 H11 H12 H13]. unfold snd_part in E.
  injection E as E1 E2 E3 E4 E5 E6 E7 E8 E9 E10 E11.
  split; rewrite ?E1, ?E2, ?E3, ?E4, ?E5, ?E6, ?E7, ?E8, ?E9, ?E10, ?E11; try assumption. done.
Qed.
Lemma queued_rest B D una nxt t pcb pcb' : same_rest pcb pcb' -> queued B D una nxt t pcb -> queued B D una nxt t pcb'.
Proof.
  intros [E Eq] [U1 U2 Hc Hx Hn Hl Hql Hf Ho Hlast]. unfold queues in Eq. injection Eq as Q1 Q2 Q3 Q4 Q5.
  assert (Hm : mss_local pcb' = mss_local pcb) by (unfold snd_part in E; injection E as E1 E2 _; unfold mss_local; congruence).
  split; rewrite ?Hm, ?Q1, ?Q2, ?Q3, ?Q4, ?Q5; done.
Qed.

Section receiving.
Context {P PS : Type} `{Pool P} `{Pool PS}.
Variable output_err : nat -> Z.
Variables frag_ram frag_ref : nat -> nat -> bool.
Variable ram : nat -> bool.

(** The state of a block that sends the stream [D] and has received [n] bytes of the
    stream [S]. *)
Record endpoint_ok (B : Z) (D : list Z) (una nxt : Z) (t : tagged) (Bp : Z) (S : list Z) (n : Z) (pcb : tcp_pcb) : Prop := {
  ep_numbers : numbers B una (Z.of_nat (length D)) pcb; ep_queued : queued B D una nxt t pcb; ep_settled : settled pcb;
  ep_received : received Bp S n pcb
}.

(** How far a segment with the bytes [k ..< k + len] brings a receiver at [n]. *)
Definition advance (k len n wnd : Z) : Z := if (k <=? n) && (n <? k + len) then Z.min (k + len) (n + wnd) else n.

(** The segment is not the next one, or there is no room. *)
Lemma receive_data_ack B D una nxt t Bp S n pcb (w : net P PS) :
  endpoint_ok B D una nxt t Bp S n pcb -> net_ok w ->
  exists err pcb' w' ls, tcp_send_empty_ack output_err frag_ram frag_ref ram pcb w = Some (err, pcb', w') /\
    sender_step B D una nxt nxt t t pcb pcb' w w' ls /\ endpoint_ok B D una nxt t Bp S n pcb'.
Proof.
  intros [Hn Hq Hs Hr] Hok.
  destruct (empty_ack_spec output_err frag_ram frag_ref ram B D una nxt t pcb w Hn Hq Hok) as (err & pcb' & w' & ls & -> & Hst & Eq).
  exists err, pcb', w', ls. split; [done|]. split; [done|].
  pose proof (so_steady _ _ _ _ _ _ _ _ _ _ _ _ Hst) as Es. split.
  - by eapply numbers_steady.
  - apply Hst.
  - by eapply settled_queues.
  - destruct Hr as [R1 R2 R3]. unfold steady in Es. injection Es as _ _ _ _ _ _ _ _ G1 G2 G3 _ _ _. split; congruence.
Qed.

(** A segment without data changes nothing of the stream. *)
Lemma receive_nothing B D una nxt t Bp S n i pcb (w : net P PS) :
  endpoint_ok B D una nxt t Bp S n pcb -> in_tcplen i = 0 ->
  exists pcb', receive_data output_err frag_ram frag_ref ram i pcb w = Some (i, pcb', w) /\
    endpoint_ok B D una nxt t Bp S n pcb'.
Proof.
  intros [Hn Hq Hset Hr] Ht. unfold receive_data. rewrite Ht. change (0 <? 0) with false. cbn [andb].
  eexists. split; [done|]. destruct (negb _); [|done]. destruct Hr as [R1 R2 R3].
  split; [by apply (numbers_steady _ _ _ pcb)|by apply (queued_same _ _ _ _ _ pcb)|done|by split].
Qed.

Lemma receive_data_spec B D una nxt t Bp S n k i p pcb (w : net P PS) :
  endpoint_ok B D una nxt t Bp S n pcb -> stream_segment Bp S k false i p -> in_tcplen i = inseg_len i ->
  -1000000000 <= k - n < 1000000000 -> net_ok w ->
  exists i' pcb' w' ls,
    receive_data output_err frag_ram frag_ref ram i pcb w = Some (i', pcb', w') /\ sends w w' ls /\ n_segs w' = n_segs w /\
    (forall q, q ∈ ls -> data_packet B D (rcv_nxt pcb) (rcv_ann_wnd pcb) q) /\
    (let n' := advance k (inseg_len i) n (rcv_wnd pcb) in
     taken i' = slice S n (n' - n) /\ endpoint_ok B D una nxt t Bp S n' pcb') /\ fin_taken i' = false.
Proof.
  intros He Hseg Ht Hnear Hok. pose proof He as [Hn Hq Hset [Rn Rx Rw]]. unfold receive_data.
  pose proof (ss_none _ _ _ _ _ _ Hseg) as [Hnone Hrf]. pose proof (ss_k _ _ _ _ _ _ Hseg) as Hk.
  pose proof (ss_short _ _ _ _ _ _ Hseg) as Hshort. pose proof (ss_len _ _ _ _ _ _ Hseg) as Hil.
  assert (Hdone : advance k (inseg_len i) n (rcv_wnd pcb) = n -> forall i', recv_data i' = None -> recv_flags i' = 0 ->
            taken i' = slice S n (advance k (inseg_len i) n (rcv_wnd pcb) - n) /\ fin_taken i' = false).
  { intros -> i' E1 E2. unfold taken, fin_taken. rewrite E1, E2, Z.sub_diag. done. }
  rewrite Ht. destruct (Z.ltb_spec 0 (inseg_len i)) as [Hpos|Hzero]; cbn [andb].
  2:{ assert (Ea : advance k (inseg_len i) n (rcv_wnd pcb) = n).
      { unfold advance. destruct (Z.leb_spec k n), (Z.ltb_spec n (k + inseg_len i)); cbn; lia. }
      destruct (Hdone Ea i Hnone Hrf) as [D1 D2].
      destruct (receive_nothing B D una nxt t Bp S n i pcb w He) as (pcb' & E & He'); [lia|].
      unfold receive_data in E. rewrite Ht in E. destruct (Z.ltb_spec 0 (inseg_len i)); [lia|]. cbn [andb] in E.
      exists i, pcb', w, []. split; [exact E|]. split; [apply sends_refl|]. split; [done|]. split; [by intros q ?%not_elem_of_nil|].
      cbn zeta. rewrite Ea in *. done. }
  rewrite (nu_state _ _ _ _ Hn). change (state_num ESTABLISHED <? state_num CLOSE_WAIT) with true. cbn iota.
  destruct (trim_first_spec Bp S k false i p pcb n Hseg) as (k' & i1 & pcb1 & p1 & -> & Hseg1 & Ek & El & Hr1 & Hsame1 & Erf1);
    [by split|rewrite Ht; lia|lia|done|].
  cbn [mbind option_bind]. pose proof (ss_k _ _ _ _ _ _ Hseg1) as Hk1.
  assert (Hrf1 : in_u32 (rcv_nxt pcb1) /\ in_u16 (rcv_ann_wnd pcb1) /\ rcv_nxt pcb1 = rcv_nxt pcb /\ rcv_wnd pcb1 = rcv_wnd pcb /\
                 rcv_ann_wnd pcb1 = rcv_ann_wnd pcb).
  { unfold rcv_fields in Erf1. injection Erf1 as -> -> ->. split; [apply Hn|]. split; [apply Hn|done]. }
  destruct Hrf1 as (X1 & X2 & X3 & X4 & X5).
  assert (He1 : endpoint_ok B D una nxt t Bp S n pcb1).
  { split; [by eapply numbers_rest|by eapply queued_rest|by eapply settled_queues; [apply Hsame1|]|done]. }
  pose proof (ss_none _ _ _ _ _ _ Hseg1) as [Hnone1 Hrfl1]. unfold TCP_WND, TCP_MSS in Rw.
  assert (Hack : k' <> n \/ rcv_wnd pcb = 0 -> exists i' pcb' w' ls,
    (tcp_send_empty_ack output_err frag_ram frag_ref ram pcb1 w ≫=
       (fun '((_, p0, w0) : Z * tcp_pcb * net P PS) => Some (i1, p0, w0))) = Some (i', pcb', w') /\ sends w w' ls /\
    n_segs w' = n_segs w /\ (forall q, q ∈ ls -> data_packet B D (rcv_nxt pcb) (rcv_ann_wnd pcb) q) /\
    (let n' := advance k (inseg_len i) n (rcv_wnd pcb) in
     taken i' = slice S n (n' - n) /\ endpoint_ok B D una nxt t Bp S n' pcb') /\ fin_taken i' = false).
  { intros Hor. destruct (receive_data_ack B D una nxt t Bp S n pcb1 w He1 Hok) as (err & pcb' & w' & ls & -> & Hst & He').
    cbn [mbind option_bind]. exists i1, pcb', w', ls. split; [done|]. split; [apply Hst|]. split; [apply Hst|].
    split; [rewrite <- X3, <- X5; apply Hst|]. cbn zeta.
    assert (Ea : advance k (inseg_len i) n (rcv_wnd pcb) = n).
    { unfold advance. rewrite Ht in Ek. destruct (Z.leb_spec k n), (Z.ltb_spec n (k + inseg_len i)); cbn [andb]; try done.
      destruct Hor as [Hor|Hor]; [|rewrite Hor; lia]. exfalso. apply Hor. rewrite Ek. destruct (Z.ltb_spec k n); cbn; lia. }
    destruct (Hdone Ea i1 Hnone1 Hrfl1) as [D1 D2]. rewrite Ea in *. done. }
  rewrite (ss_seqno _ _ _ _ _ _ Hseg1), (rc_nxt _ _ _ _ Hr1), X4.
  assert (Hnear1 : -1000000000 <= k' - n < 1000000000) by (rewrite Ek; destruct (_ && _); lia).
  rewrite <- (Z.add_sub_assoc (u32 (Bp + n))), u32_add_l, seq_between by lia.
  destruct (Z.leb_spec (Bp + n) (Bp + k')), (Z.leb_spec (Bp + k') (Bp + n + (rcv_wnd pcb - 1))); cbn [andb]; try (apply Hack; lia).
  destruct (Z.eqb_spec (u32 (Bp + n)) (u32 (Bp + k'))) as [E|E]; [|apply Hack; left; intros ->; done].
  assert (k' = n) as ->.
  { apply (f_equal (fun x => u32 (x - u32 (Bp + n)))) in E. unfold u32 in E. rewrite <- !Zminus_mod, Z.sub_diag in E.
    replace (Bp + k' - (Bp + n)) with (k' - n) in E by lia. rewrite !Z.mod_small in E; lia. }
  clear Hack.
  destruct (take_segment_spec Bp S n false i1 p1 pcb1 Hseg1 Hr1) as (i' & pcb' & -> & Y1 & Y2 & _ & Y3 & Y4 & Y5 & Y6); [lia|].
  cbn [mbind option_bind andb] in *. rewrite X4 in *. rewrite !Z.add_0_r, !Z.sub_0_r in *.
  eexists i', pcb', w, []. split; [done|]. split; [apply sends_refl|]. split; [done|]. split; [by intros q ?%not_elem_of_nil|].
  split; [|done]. cbn zeta.
  assert (Ea : advance k (inseg_len i) n (rcv_wnd pcb) = n + Z.min (inseg_len i1) (rcv_wnd pcb)).
  { rewrite Ht in Ek. unfold advance. destruct (Z.leb_spec k n), (Z.ltb_spec n (k + inseg_len i)); cbn [andb] in *; try lia;
      destruct (Z.ltb_spec k n); cbn [andb] in *; lia. }
  pose proof (ss_len _ _ _ _ _ _ Hseg1) as Hl1.
  rewrite Ea, Y1. split; [f_equal; lia|]. split.
  - eapply numbers_rest; [exact Y6|rewrite Y3; apply u32_range|exact Y5|apply He1].
  - eapply queued_rest; [exact Y6|apply He1].
  - eapply settled_queues; [apply Y6|apply He1].
  - split; [lia|by rewrite Y3, Z.add_assoc|rewrite Y4; unfold TCP_WND, TCP_MSS; lia].
Qed.

(** ** A packet of the connection *)

(** The packet without the headers, as [tcp_input] takes them off; the IP header has
    no options. *)
Definition parse (r : pbuf) : option input :=
  q ← pbuf_header r (- IP_HLEN);
  let h := tcp_hdr_of (first q) in
  q' ← pbuf_header q (- (TCPH_HDRLEN h * 4));
  Some (segment_of h (drop 20 (first q)) q').

Lemma header_off r n b d :
  data r = b ++ d -> Z.of_nat (length b) = n -> 0 < n -> (length b <= length (first r))%nat -> segs r <> [] ->
  exists r', pbuf_header r (- n) = Some r' /\ data r' = d /\ first r = b ++ first r' /\ segs r' <> [].
Proof.
  intros Hd Hb Hn Hl Hs. unfold pbuf_header, data, first in *. destruct (segs r) as [|s l]; [done|]. cbn [hd] in *.
  destruct (Z.eqb_spec (- n) 0); [lia|]. destruct (Z.ltb_spec (- n) 0); [|lia]. replace (- - n) with n by lia.
  replace (Z.to_nat n) with (length b) by lia. destruct (Nat.leb_spec (length b) (length s)); [|lia].
  rewrite mjoin_cons in Hd. pose proof (f_equal (take (length b)) Hd) as Ht. pose proof (f_equal (drop (length b)) Hd) as Hdr.
  rewrite take_app_length, take_app_le in Ht by done. rewrite drop_app_length, drop_app_le in Hdr by done.
  eexists. split; [done|]. cbn [segs]. rewrite mjoin_cons. split; [done|]. split; [|done]. cbn [hd]. rewrite <- (take_drop (length b) s) at 1. by rewrite Ht.
Qed.

Lemma parse_spec r h d iphdr :
  data r = iphdr ++ tcp_hdr_bytes h ++ d -> length iphdr = 20%nat -> tcp_hdr_ok h -> TCPH_HDRLEN h = 5 ->
  (40 <= length (first r))%nat ->
  exists opts p, parse r = Some (segment_of h opts p) /\ data p = d /\ segs p <> [].
Proof.
  intros Hd Hi Hh H5 Hf. assert (Hs : segs r <> []) by (intros E; unfold first in Hf; rewrite E in Hf; cbn in Hf; lia).
  unfold parse. destruct (header_off r IP_HLEN _ _ Hd) as (q & -> & Hdq & Hfq & Hsq); [by rewrite Hi|done|lia|done|].
  cbn [mbind option_bind]. rewrite Hfq, length_app in Hf.
  destruct (header_off q (5 * 4) _ _ Hdq) as (p & E & Hdp & Hfp & Hsp); [done|done|rewrite length_tcp_hdr; lia|done|].
  rewrite Hfp, tcp_hdr_of_bytes, H5, E by done. cbn [mbind option_bind]. by exists (drop 20 (tcp_hdr_bytes h ++ first p)), p.
Qed.

(** The fields of a packet with the bytes [d] of [S] from [k] on that acknowledges [a]. *)
Record carries (Bp : Z) (S : list Z) (B k a : Z) (h : tcp_hdr) (d : list Z) : Prop := {
  ca_ok : tcp_hdr_ok h; ca_flags : _hdrlen_rsvd_flags h ∈ [0x5010; 0x5018];
  ca_seqno : seqno h = u32 (Bp + k); ca_k : -1 <= k; ca_end : k + Z.of_nat (length d) <= Z.of_nat (length S);
  ca_pos : d <> [] -> 0 <= k; ca_data : d = slice S k (Z.of_nat (length d)); ca_len : Z.of_nat (length d) <= TCP_MSS;
  ca_ack : ackno h = u32 (B + a)
}.

Lemma segment_of_spec Bp S B k a h d opts p :
  carries Bp S B k a h d -> data p = d -> segs p <> [] ->
  let i := segment_of h opts p in
  is_ack i = true /\ in_tcplen i = Z.of_nat (length d) /\ in_ackno i = u32 (B + a) /\ in_u16 (wnd (in_hdr i)) /\
  recv_data i = None /\ recv_flags i = 0 /\ inseg_len i = Z.of_nat (length d) /\
  (0 <= k -> stream_segment Bp S k false i p).
Proof.
  intros [Hh Hf Hs Hk He Hp Hd Hl Ha] Hdp Hsp. cbn zeta. unfold segment_of. unfold TCP_MSS in Hl.
  assert (Et : tot_len p = Z.of_nat (length d)) by (unfold tot_len; rewrite Hdp; apply u16_small; unfold in_u16; lia).
  assert (Hfl : TCPH_FLAGS h = TCP_ACK \/ TCPH_FLAGS h = Z.lor TCP_PSH TCP_ACK).
  { unfold TCPH_FLAGS. rewrite !elem_of_cons, elem_of_nil in Hf. destruct Hf as [->|[->|[]]]; [by left|by right]. }
  assert (Hff : has_flag h TCP_FIN = false /\ has_flag h TCP_SYN = false).
  { unfold has_flag. by destruct Hfl as [-> | ->]. }
  destruct Hff as [F1 F2].
  assert (El : u16 (tcplen_of (tot_len p) h) = Z.of_nat (length d)).
  { rewrite tcplen_flags, F1, F2, Et. cbn [orb]. rewrite Z.add_0_r. apply u16_small. unfold in_u16. lia. }
  split; [unfold is_ack; cbn; by destruct Hfl as [-> | ->]|]. split; [exact El|]. split; [exact Ha|].
  split; [apply (th_wnd _ Hh)|]. split; [done|]. split; [done|]. split; [exact Et|]. intros Hk0.
  split; try done; cbn; rewrite ?Et; try done; try lia; by rewrite ?Hdp.
Qed.

Lemma tcp_receive_spec tcp_ticks B D una nxt t Bp S n k a h d opts p pcb (w : net P PS) live :
  endpoint_ok B D una nxt t Bp S n pcb -> holds (n_segs w) ((sg_addr <$> all t) ++ live) -> net_ok w ->
  carries Bp S B k a h d -> data p = d -> segs p <> [] ->
  -1073741824 <= a - una <= 1073741824 -> -1000000000 <= k - n < 1000000000 ->
  exists t' i' pcb' w' ls,
    tcp_receive output_err frag_ram frag_ref ram tcp_ticks (segment_of h opts p) pcb w = Some (i', pcb', w') /\
    sends w w' ls /\ holds (n_segs w') ((sg_addr <$> all t') ++ live) /\
    (forall q, q ∈ ls -> data_packet B D (rcv_nxt pcb) (rcv_ann_wnd pcb) q) /\ fin_taken i' = false /\
    let una' := if (una <? a) && (a <=? nxt) then a else una in
    let n' := advance k (Z.of_nat (length d)) n (rcv_wnd pcb) in
    taken i' = slice S n (n' - n) /\ endpoint_ok B D una' nxt t' Bp S n' pcb'.
Proof.
  intros He Hh Hok Hca Hdp Hsp Ha Hk. set (i := segment_of h opts p).
  destruct (segment_of_spec Bp S B k a h d opts p Hca Hdp Hsp) as (I1 & I2 & I3 & I4 & I5 & I6 & I7 & I8).
  fold i in I1, I2, I3, I4, I5, I6, I7, I8. unfold tcp_receive. rewrite I1. destruct He as [Hn Hq Hset Hr].
  destruct (receive_ack_spec B D una nxt t i a pcb w live tcp_ticks Hn Hq Hset) as
    (t' & p1 & w1 & -> & S1 & Hh1 & [Hn1 Hq1] & Hset1 & Er); try done.
  cbn [mbind option_bind]. set (una' := if _ && _ then a else una) in *. cbn zeta.
  pose proof Er as Er2. unfold rcv_fields in Er2. injection Er2 as G1 G2 G3.
  assert (He1 : endpoint_ok B D una' nxt t' Bp S n p1).
  { split; try done. destruct Hr as [R1 R2 R3]. split; congruence. }
  pose proof (sends_ok _ _ _ S1 Hok) as Hok1. destruct d as [|x d'].
  - destruct (receive_nothing B D una' nxt t' Bp S n i p1 w1 He1 I2) as (pcb' & -> & He').
    assert (Ea : advance k (Z.of_nat (length (@nil Z))) n (rcv_wnd pcb) = n).
    { unfold advance. cbn [length]. destruct (Z.leb_spec k n), (Z.ltb_spec n (k + Z.of_nat 0)); cbn [andb]; lia. }
    rewrite Ea, Z.sub_diag. exists t', i, pcb', w1, []. split; [done|]. split; [done|]. split; [done|].
    split; [by intros q ?%not_elem_of_nil|]. unfold fin_taken, taken. rewrite I5, I6. done.
  - assert (Hk0 : 0 <= k) by (apply (ca_pos _ _ _ _ _ _ _ Hca); done). specialize (I8 Hk0).
    destruct (receive_data_spec B D una' nxt t' Bp S n k i p p1 w1 He1 I8) as (i' & pcb' & w2 & ls & -> & S2 & N2 & Hp2 & [T2 He2] & Hf2);
      [by rewrite I2, I7|done|done|].
    rewrite I7, G2 in T2, He2. rewrite G1, G3 in Hp2.
    exists t', i', pcb', w2, ls. split; [done|]. split; [by eapply sends_none|]. split; [by rewrite N2|].
    split; [exact Hp2|]. split; [done|]. split; done.
Qed.
End receiving.

End TcpRecv.
