(* ===== verification/TcpStream.v ===== *)
(** * TCP: two endpoints and a lossy network

    Two established blocks exchange data over a network that loses, repeats, delays
    and reorders packets.  The application writes and reads, timers go off, and
    packets arrive in any order.  As long as every action is [allowed] when it
    happens, the bytes that an application gets are a prefix of those that the other
    side wrote, and everything that is missing is still queued at the sender; the
    end of the file shows a write that is not allowed and breaks the stream. *)

From S2P Require Import Prelude LwipDef InetChksum IpAddr Mem Memp Pbuf Packet IpFrag Ip TcpDef TcpOut TcpIn TcpWrite TcpSend TcpAck TcpRecv.

#[local] Open Scope Z_scope.

Module TcpStream.
Import LwipDef InetChksum IpAddr Packet Ip TcpDef TcpOut TcpIn TcpWrite TcpSend TcpAck TcpRecv.
#[local] Open Scope update_scope.

Section stream.
Context {P PS : Type} `{Pool P} `{Pool PS}.

(** What the environment decides at one end: errors of the link layer, whether
    allocations succeed, and what lies in memory that was not written. *)
Record env := mkEnv {
  ev_err : nat -> Z; ev_frag_ram : nat -> nat -> bool; ev_frag_ref : nat -> nat -> bool; ev_ram : nat -> bool;
  ev_stale : list Z
}.

(** One end: the block, the layers below, the bytes that the application wrote and
    those that it was given. *)
Record endpoint := mkEnd { e_pcb : tcp_pcb; e_net : net P PS; written : list Z; got : list Z }.
Definition sent_by (x : endpoint) : list pbuf := sent_packets (events (n_ip (e_net x))).

(** What happens at one end.  The times are those of [tcp_ticks]. *)
Inductive action :=
  | Write (arg : list Z) (apiflags : Z)
  | Output (ticks : Z)
  | Timeout (ticks : Z)
  | Probe
  | Keepalive
  | Read (len : Z)
  | Arrive (ticks : Z) (r : pbuf).

(** When the stream is intact: a write does not come while the last segment of the
    unsent queue is one that is sent again and another one was sent after it
    ([tcp_write] would append to it, see [write_after_fast_rexmit]); no timeout
    comes while a segment of a retransmission is still to be sent
    ([tcp_rexmit_rto] would put the queues together in the wrong order); at most
    2^29 bytes are written.  A packet that arrives is one that was sent, with both
    headers in its first buffer. *)
Definition limit : Z := 536870912.
Definition appendable_b (pcb : tcp_pcb) : bool :=
  match last (unsent pcb) with
  | Some s => u32 (sg_seqno s + sg_len s) =? snd_lbb pcb
  | None => true
  end.
Definition allowed (x y : endpoint) (a : action) : bool :=
  match a with
  | Write arg _ => appendable_b (e_pcb x) && (Z.of_nat (length (written x ++ arg)) <=? limit)
  | Timeout _ => negb (pending_rexmit (e_pcb x))
  | Arrive _ r => existsb (fun q => bool_decide (data r = data q)) (sent_by y) && (40 <=? length (first r))%nat
  | _ => true
  end.

Definition act (e : env) (x : endpoint) (a : action) : option endpoint :=
  let pcb := e_pcb x in
  let w := e_net x in
  match a with
  | Write arg apiflags =>
      '(err, pcb, w) ← tcp_write (ev_ram e) pcb arg apiflags w;
      Some (mkEnd pcb w (if err =? ERR_OK then written x ++ arg else written x) (got x))
  | Output ticks =>
      '(_, pcb, w) ← tcp_output (ev_err e) (ev_frag_ram e) (ev_frag_ref e) (ev_ram e) ticks false pcb w;
      Some (mkEnd pcb w (written x) (got x))
  | Timeout ticks =>
      '(pcb, w) ← tcp_rexmit_rto (ev_err e) (ev_frag_ram e) (ev_frag_ref e) (ev_ram e) ticks false pcb w;
      Some (mkEnd pcb w (written x) (got x))
  | Probe =>
      '(pcb, w) ← tcp_zero_window_probe (ev_err e) (ev_frag_ram e) (ev_frag_ref e) (ev_ram e) (ev_stale e) pcb w;
      Some (mkEnd pcb w (written x) (got x))
  | Keepalive =>
      '(pcb, w) ← tcp_keepalive (ev_err e) (ev_frag_ram e) (ev_frag_ref e) (ev_ram e) pcb w;
      Some (mkEnd pcb w (written x) (got x))
  | Read len => Some (mkEnd (recved len pcb).2 w (written x) (got x))
  | Arrive ticks r =>
      i ← parse r;
      '(i, pcb, w) ← tcp_receive (ev_err e) (ev_frag_ram e) (ev_frag_ref e) (ev_ram e) ticks i pcb w;
      Some (mkEnd pcb w (written x) (got x ++ taken i))
  end.

(** The two ends; [true] is the first one.  Every action is executed, whether it is
    [allowed] or not. *)
Variables e1 e2 : env.
Definition step (b : bool) (a : action) (s : endpoint * endpoint) : option (endpoint * endpoint) :=
  let '(x, y) := s in
  if b then x ← act e1 x a; Some (x, y) else y ← act e2 y a; Some (x, y).
Fixpoint run (l : list (bool * action)) (s : endpoint * endpoint) : option (endpoint * endpoint) :=
  match l with
  | [] => Some s
  | (b, a) :: l => s ← step b a s; run l s
  end.

(** Every action is allowed in the state in which it is executed. *)
Fixpoint permitted (l : list (bool * action)) (s : endpoint * endpoint) : bool :=
  match l with
  | [] => true
  | (b, a) :: l =>
      (if b then allowed s.1 s.2 a else allowed s.2 s.1 a) &&
      match step b a s with Some s => permitted l s | None => false end
  end.

(** ** The invariant *)

Definition packet_ok (B : Z) (W : list Z) (Bp n : Z) (q : pbuf) : Prop :=
  exists h k a d, tcp_packet q h d /\ carries B W Bp k a h d /\ 0 <= a <= n.

(** One end: [n] bytes were received. *)
Record end_ok (B Bp : Z) (x y : endpoint) (una n : Z) : Prop := {
  en_queues : exists nxt t live, endpoint_ok B (written x) una nxt t Bp (written y) n (e_pcb x) /\
                holds (n_segs (e_net x)) ((sg_addr <$> all t) ++ live);
  en_net : net_ok (e_net x); en_got : got x = slice (written y) 0 n;
  en_sent : forall q, q ∈ sent_by x -> packet_ok B (written x) Bp n q;
  en_limit : Z.of_nat (length (written x)) <= limit
}.
Record both_ok (B Bp : Z) (x y : endpoint) (una n una' n' : Z) : Prop := {
  bo_x : end_ok B Bp x y una n; bo_y : end_ok Bp B y x una' n'; bo_una : una <= n'; bo_una' : una' <= n
}.

Lemma carries_grow Bp S d' B k a h d : carries Bp S B k a h d -> carries Bp (S ++ d') B k a h d.
Proof.
  intros [C1 C2 C3 C4 C5 C6 C7 C8 C9]. split; try done; [rewrite length_app; lia|].
  destruct d as [|z d]; [done|]. specialize (C6 ltac:(done)). rewrite slice_app_l; done.
Qed.
Lemma packet_ok_grow B W d Bp n n' q : n <= n' -> packet_ok B W Bp n q -> packet_ok B (W ++ d) Bp n' q.
Proof. intros Hn (h & k & a & d' & H1 & H2 & H3). exists h, k, a, d'. split; [done|]. split; [by apply carries_grow|lia]. Qed.

Lemma data_packet_ok B W Bp S n pcb q :
  received Bp S n pcb -> data_packet B W (rcv_nxt pcb) (rcv_ann_wnd pcb) q -> packet_ok B W Bp n q.
Proof.
  intros [R1 R2 _] (h & k & d & Hp & Hh & Hf & Hs & Hk & He & Hpos & Hd & Hl & Ha & _). exists h, k, n, d.
  split; [done|]. split; [|lia]. split; try done. by rewrite Ha.
Qed.

(** The peer may write more. *)
Lemma received_grow Bp S d n pcb : received Bp S n pcb -> received Bp (S ++ d) n pcb.
Proof. intros [R1 R2 R3]. split; try done. rewrite length_app. lia. Qed.
Lemma end_ok_peer B Bp x y y' una n d : written y' = written y ++ d -> end_ok B Bp x y una n -> end_ok B Bp x y' una n.
Proof.
  intros E [(nxt & t & live & [H1 H2 H3 H4] & Hh) En Hg Hs Hl]. split; try done.
  - exists nxt, t, live. split; [|done]. split; try done. rewrite E. by apply received_grow.
  - rewrite E, Hg. destruct H4 as [R1 _ _]. by rewrite slice_app_l by lia.
Qed.

(** What the functions of the sender do at one end. *)
Lemma end_ok_send B Bp x y una n nxt nxt' t t' live pcb' w' ls :
  end_ok B Bp x y una n -> endpoint_ok B (written x) una nxt t Bp (written y) n (e_pcb x) ->
  holds (n_segs (e_net x)) ((sg_addr <$> all t) ++ live) ->
  sender_step B (written x) una nxt nxt' t t' (e_pcb x) pcb' (e_net x) w' ls -> settled pcb' ->
  end_ok B Bp (mkEnd pcb' w' (written x) (got x)) y una n.
Proof.
  intros [_ En Hg Hs Hl] [H1 H2 H3 H4] Hh [S1 S2 S3 S4 S5 S6 S7] Hset. split; try done.
  - exists nxt', t', live. split; [split; try done|].
    + by eapply numbers_steady.
    + destruct H4 as [R1 R2 R3]. unfold steady in S6. injection S6 as _ _ _ _ _ _ _ _ G1 G2 G3 _ _ _. split; cbn; congruence.
    + cbn. by rewrite S2, S7.
  - by eapply sends_ok.
  - intros q Hq. unfold sent_by in Hq. cbn in Hq. rewrite (sn_packets _ _ _ S1) in Hq.
    apply elem_of_app in Hq as [Hq|Hq]; [by apply Hs|]. eapply data_packet_ok; [done|]. by apply S3.
Qed.

Lemma appendable_spec pcb : appendable_b pcb = true -> appendable pcb.
Proof. unfold appendable_b, appendable. destruct (last (unsent pcb)); [|done]. by intros ?%Z.eqb_eq. Qed.

Lemma recved_ok B D una nxt t Bp S n len pcb :
  endpoint_ok B D una nxt t Bp S n pcb -> endpoint_ok B D una nxt t Bp S n (recved len pcb).2.
Proof.
  intros [H1 H2 H3 [R1 R2 R3]]. unfold recved. set (p1 := pcb <| rcv_wnd ::= _ |>).
  assert (Hw : 0 <= rcv_wnd p1 <= TCP_WND).
  { change (rcv_wnd p1) with (if TCP_WND <? u16 (rcv_wnd pcb + len) then TCP_WND else u16 (rcv_wnd pcb + len)).
    pose proof (u16_range (rcv_wnd pcb + len)) as Hu. unfold in_u16 in Hu. unfold TCP_WND, TCP_MSS in *.
    destruct (Z.ltb_spec (2 * 1460) (u16 (rcv_wnd pcb + len))); lia. }
  destruct (update_ann_shape p1) as (a & -> & Ha). unfold TCP_WND, TCP_MSS in Hw.
  split.
  - apply (numbers_rest _ _ _ pcb); [by split|apply H1|apply Ha; unfold in_u16; lia|done].
  - by apply (queued_rest _ _ _ _ _ pcb).
  - done.
  - split; [done|exact R2|unfold TCP_WND, TCP_MSS; exact Hw].
Qed.

(** What an action of one end gives: the end goes on, and the number of bytes that
    were acknowledged is at most what the peer has. *)
Definition acted (B Bp : Z) (x y : endpoint) (una n n' : Z) (r : option endpoint) : Prop :=
  exists x' una2 n2 d, r = Some x' /\ written x' = written x ++ d /\ end_ok B Bp x' y una2 n2 /\
    una <= una2 /\ (una2 = una \/ una2 <= n') /\ n <= n2.

Lemma acted_send B Bp x y una n n' nxt nxt' t t' live pcb' w' ls :
  end_ok B Bp x y una n -> endpoint_ok B (written x) una nxt t Bp (written y) n (e_pcb x) ->
  holds (n_segs (e_net x)) ((sg_addr <$> all t) ++ live) ->
  sender_step B (written x) una nxt nxt' t t' (e_pcb x) pcb' (e_net x) w' ls -> settled pcb' ->
  acted B Bp x y una n n' (Some (mkEnd pcb' w' (written x) (got x))).
Proof.
  intros He H1 H2 H3 H4. exists (mkEnd pcb' w' (written x) (got x)), una, n, []. split; [done|]. split; [by rewrite app_nil_r|].
  split; [by eapply end_ok_send|]. split; [lia|]. split; [by left|lia].
Qed.

Lemma act_write e B Bp x y una n n' arg apiflags :
  end_ok B Bp x y una n -> allowed x y (Write arg apiflags) = true ->
  acted B Bp x y una n n' (act e x (Write arg apiflags)).
Proof.
  intros He. pose proof He as [(nxt & t & live & [H1 H2 H3 H4] & Hh) En Hg Hs Hl]. cbn [allowed act].
  intros [Ha%appendable_spec Hlim%Z.leb_le]%andb_true_iff.
  destruct (tcp_write_queued (ev_ram e) B (written x) una nxt t live arg apiflags (e_pcb x) (e_net x) H1 H2 H3 Ha Hh)
    as (err & t' & pcb' & w' & -> & S & Hq & Hset & Hh' & G1 & G2).
  cbn [mbind option_bind]. destruct (err =? ERR_OK).
  - eexists _, una, n, arg. split; [done|]. split; [done|]. split; [|split; [lia|split; [by left|lia]]]. split; try done.
    + exists nxt, t', live. split; [|done]. destruct Hq as [Q1 Q2]. destruct H4 as [R1 R2 R3]. split; try done.
      split; cbn; congruence.
    + by eapply sends_ok.
    + intros q Hin. unfold sent_by in Hin. cbn in Hin. rewrite (sn_packets _ _ _ S), app_nil_r in Hin.
      apply (packet_ok_grow B (written x) arg Bp n); [lia|]. by apply Hs.
  - eexists _, una, n, []. split; [done|]. split; [cbn; by rewrite app_nil_r|]. split; [|split; [lia|split; [by left|lia]]]. split; try done.
    + exists nxt, t', live. split; [|done]. destruct Hq as [Q1 Q2]. destruct H4 as [R1 R2 R3]. split; try done.
      split; cbn; congruence.
    + by eapply sends_ok.
    + intros q Hin. unfold sent_by in Hin. cbn in Hin. rewrite (sn_packets _ _ _ S), app_nil_r in Hin. by apply Hs.
Qed.

Lemma act_arrive e B Bp x y una n una' n' ticks r :
  both_ok B Bp x y una n una' n' -> allowed x y (Arrive ticks r) = true ->
  acted B Bp x y una n n' (act e x (Arrive ticks r)).
Proof.
  intros [He Hy Hu _]. pose proof He as [(nxt & t & live & Hep & Hh) En Hg Hs Hl]. cbn [allowed act].
  intros [Hex Hlen%Nat.leb_le]%andb_true_iff. apply existsb_exists in Hex as (q & Hin%list_elem_of_In & Hd%bool_decide_eq_true).
  pose proof (en_sent _ _ _ _ _ _ Hy q Hin) as (h & k & a & d & (iphdr & Hi & Hq) & Hca & Hka).
  pose proof Hca as [Ch Cf Cs Ck Ce Cp Cd Cl Ca].
  assert (H5 : TCPH_HDRLEN h = 5).
  { unfold TCPH_HDRLEN. rewrite !elem_of_cons, elem_of_nil in Cf. by destruct Cf as [->|[->|[]]]. }
  rewrite Hq in Hd. destruct (parse_spec r h d iphdr Hd Hi Ch H5 Hlen) as (opts & p & -> & Hdp & Hsp).
  cbn [mbind option_bind]. pose proof (rc_n _ _ _ _ (ep_received _ _ _ _ _ _ _ _ _ Hep)) as Hn.
  pose proof (en_limit _ _ _ _ _ _ Hy) as Hl'. pose proof (nu_room _ _ _ _ (ep_numbers _ _ _ _ _ _ _ _ _ Hep)) as Hr.
  pose proof (nu_una _ _ _ _ (ep_numbers _ _ _ _ _ _ _ _ _ Hep)) as Hu0.
  pose proof (en_queues _ _ _ _ _ _ Hy) as (nxty & ty & livey & Hepy & _).
  pose proof (rc_n _ _ _ _ (ep_received _ _ _ _ _ _ _ _ _ Hepy)) as Hn'. unfold limit in *.
  destruct (tcp_receive_spec (ev_err e) (ev_frag_ram e) (ev_frag_ref e) (ev_ram e) ticks B (written x) una nxt t Bp (written y) n k a h d
              opts p (e_pcb x) (e_net x) live Hep Hh En Hca Hdp Hsp) as (t' & i' & pcb' & w' & ls & -> & S & Hh' & Hp & _ & Ht & Hep'); [lia|lia|].
  cbn [mbind option_bind]. set (una2 := if _ && _ then a else una) in *.
  set (n2 := advance k (Z.of_nat (length d)) n (rcv_wnd (e_pcb x))) in *.
  assert (Hn2 : n <= n2).
  { pose proof (rc_wnd _ _ _ _ (ep_received _ _ _ _ _ _ _ _ _ Hep)). unfold n2, advance.
    destruct (Z.leb_spec k n), (Z.ltb_spec n (k + Z.of_nat (length d))); cbn [andb]; lia. }
  assert (Hu2 : una <= una2 /\ (una2 = una \/ una2 <= n')).
  { unfold una2. destruct (Z.ltb_spec una a), (Z.leb_spec a nxt); cbn [andb]; lia. }
  exists (mkEnd pcb' w' (written x) (got x ++ taken i')), una2, n2, []. split; [done|]. split; [cbn; by rewrite app_nil_r|].
  split; [|split; [lia|split; [tauto|lia]]]. split; try done.
  - exists nxt, t', live. by split.
  - by eapply sends_ok.
  - cbn. rewrite Ht, Hg. change n with (0 + n) at 2. rewrite slice_snoc by lia. f_equal. lia.
  - intros q' Hq'. unfold sent_by in Hq'. cbn in Hq'. rewrite (sn_packets _ _ _ S) in Hq'. cbn [written].
    rewrite <- (app_nil_r (written x)). apply (packet_ok_grow B (written x) [] Bp n); [done|].
    apply elem_of_app in Hq' as [Hq'|Hq']; [by apply Hs|]. eapply data_packet_ok; [apply Hep|]. by apply Hp.
Qed.

Lemma act_ok e B Bp x y una n una' n' a :
  both_ok B Bp x y una n una' n' -> allowed x y a = true -> acted B Bp x y una n n' (act e x a).
Proof.
  intros Hb. destruct Hb as [He Hy Hu Hu'] eqn:Eb. clear Eb. pose proof He as [(nxt & t & live & Hep & Hh) En Hg Hs Hl].
  pose proof Hep as [H1 H2 H3 H4]. destruct a as [arg fl|ticks|ticks| | |len|ticks r].
  - by apply act_write.
  - intros _. cbn [act]. destruct (tcp_output_spec (ev_err e) (ev_frag_ram e) (ev_frag_ref e) (ev_ram e) ticks B (written x) una nxt t (e_pcb x) (e_net x) H1 H2 H3 En)
      as (err & nxt' & t' & pcb' & w' & ls & -> & Hst & Hset). cbn [mbind option_bind]. by eapply acted_send.
  - intros Hp%negb_true_iff. cbn [act]. destruct (tcp_rexmit_rto_spec (ev_err e) (ev_frag_ram e) (ev_frag_ref e) (ev_ram e) ticks B (written x) una nxt t (e_pcb x) (e_net x) H1 H2 H3 En Hp)
      as (nxt' & t' & pcb' & w' & ls & -> & Hst & Hset). cbn [mbind option_bind]. by eapply acted_send.
  - intros _. cbn [act]. destruct (tcp_zero_window_probe_spec (ev_err e) (ev_frag_ram e) (ev_frag_ref e) (ev_ram e) (ev_stale e) B (written x) una nxt t (e_pcb x) (e_net x) H1 H2 H3 En)
      as (pcb' & w' & ls & -> & Hst & Hset). cbn [mbind option_bind]. by eapply acted_send.
  - intros _. cbn [act]. destruct (tcp_keepalive_spec (ev_err e) (ev_frag_ram e) (ev_frag_ref e) (ev_ram e) B (written x) una nxt t (e_pcb x) (e_net x) H1 H2 H3 En)
      as (pcb' & w' & ls & -> & Hst & Hset). cbn [mbind option_bind]. by eapply acted_send.
  - intros _. exists (mkEnd (recved len (e_pcb x)).2 (e_net x) (written x) (got x)), una, n, []. split; [done|].
    split; [cbn; by rewrite app_nil_r|]. split; [|split; [lia|split; [by left|lia]]]. split; try done.
    exists nxt, t, live. split; [by apply recved_ok|done].
  - intros Ha. by apply (act_arrive e B Bp x y una n una' n').
Qed.

Lemma both_sym B Bp x y una n una' n' : both_ok B Bp x y una n una' n' -> both_ok Bp B y x una' n' una n.
Proof. intros [H1 H2 H3 H4]. by split. Qed.

Lemma act_both e B Bp x y una n una' n' a :
  both_ok B Bp x y una n una' n' -> allowed x y a = true ->
  exists x' una2 n2, act e x a = Some x' /\ both_ok B Bp x' y una2 n2 una' n'.
Proof.
  intros Hb Ha. destruct (act_ok e _ _ _ _ _ _ _ _ _ Hb Ha) as (x' & una2 & n2 & d & E & Hw & He & H1 & H2 & H3).
  exists x', una2, n2. split; [done|]. destruct Hb as [_ Hy Hu Hu']. split; [done| |lia|lia].
  by apply (end_ok_peer _ _ y x x' _ _ d).
Qed.

Lemma step_ok B Bp (b : bool) a x y una n una' n' :
  both_ok B Bp x y una n una' n' -> (if b then allowed x y a else allowed y x a) = true ->
  exists x2 y2 u2 n2 u2' n2', step b a (x, y) = Some (x2, y2) /\ both_ok B Bp x2 y2 u2 n2 u2' n2'.
Proof.
  intros Hb Ea. unfold step. destruct b.
  - destruct (act_both e1 _ _ _ _ _ _ _ _ _ Hb Ea) as (x' & u2 & n2 & -> & Hb'). by exists x', y, u2, n2, una', n'.
  - destruct (act_both e2 _ _ _ _ _ _ _ _ _ (both_sym _ _ _ _ _ _ _ _ Hb) Ea) as (y' & u2 & n2 & -> & Hb'%both_sym).
    by exists x, y', una, n, u2, n2.
Qed.

Lemma run_ok B Bp l x y una n una' n' :
  both_ok B Bp x y una n una' n' -> permitted l (x, y) = true ->
  exists x2 y2 u2 n2 u2' n2', run l (x, y) = Some (x2, y2) /\ both_ok B Bp x2 y2 u2 n2 u2' n2'.
Proof.
  revert x y una n una' n'. induction l as [|[b a] l IH]; intros x y una n una' n' Hb Hp; [by exists x, y, una, n, una', n'|].
  cbn [run permitted fst snd] in *. apply andb_true_iff in Hp as [Ha Hp].
  destruct (step_ok B Bp b a x y _ _ _ _ Hb Ha) as (x1 & y1 & u1 & n1 & u1' & n1' & E & Hb1). rewrite E in Hp |- *.
  cbn [mbind option_bind]. by eapply IH.
Qed.

(** An end whose connection was just established: its next byte has the sequence
    number [B], that of the peer [Bp]; nothing was sent yet. *)
Record opened (B Bp : Z) (x : endpoint) : Prop := {
  op_state : state (e_pcb x) = ESTABLISHED;
  op_queues : queues (e_pcb x) = ([], [], u32 B, 0, 0);
  op_numbers : lastack (e_pcb x) = u32 B /\ snd_lbb (e_pcb x) = u32 B /\ snd_buf (e_pcb x) = TCP_SND_BUF;
  op_ports : in_u16 (local_port (e_pcb x)) /\ in_u16 (remote_port (e_pcb x));
  op_mss : 0 < mss (e_pcb x) <= TCP_MSS; op_max : 2 <= snd_wnd_max (e_pcb x) < 65536;
  op_windows : 0 < cwnd (e_pcb x) < 65536 /\ 0 < ssthresh (e_pcb x) < 65536 /\ in_u16 (snd_wnd (e_pcb x));
  op_rcv : rcv_nxt (e_pcb x) = u32 Bp /\ 0 <= rcv_wnd (e_pcb x) <= TCP_WND /\ in_u16 (rcv_ann_wnd (e_pcb x));
  op_pool : holds (n_segs (e_net x)) []; op_net : net_ok (e_net x);
  op_nothing : written x = [] /\ got x = [] /\ sent_by x = []
}.

Lemma opened_ok B Bp x y : opened B Bp x -> written y = [] -> end_ok B Bp x y 0 0.
Proof.
  intros [O1 O2 (O3 & O4 & O5) [O6 O7] O8 O9 (O10 & O11 & O12) (O13 & O14 & O15) O16 O17 (O18 & O19 & O20)] Hy.
  unfold queues in O2. injection O2 as Q1 Q2 Q3 Q4 Q5. split; try done.
  - exists 0, [], []. split; [|done]. rewrite O18, Hy. split.
    + split; rewrite ?Z.add_0_r, ?O3, ?O4; try done. rewrite O13. split; [apply u32_range|done].
    + split; rewrite ?Z.add_0_r, ?Q1, ?Q2, ?Q3, ?Q4, ?Q5; try done; try lia. by exists 0.
    + intros _. exact Q5.
    + split; [done|by rewrite Z.add_0_r|done].
  - intros q. rewrite O20. by intros ?%not_elem_of_nil.
  - by rewrite O18.
Qed.

(** What [y] got is a prefix of what [x] wrote, and the segments that [x] keeps, put
    in order, hold everything from some byte on that [y] has the predecessors of. *)
Definition delivered (B : Z) (x y : endpoint) : Prop :=
  got y `prefix_of` written x /\
  exists k l, unacked (e_pcb x) ++ unsent (e_pcb x) ≡ₚ l /\
    chain B (written x) k l (Z.of_nat (length (written x))) /\ k <= Z.of_nat (length (got y)).

Lemma end_delivered B Bp x y una n una' n' : both_ok B Bp x y una n una' n' -> delivered B x y.
Proof.
  intros [[(nxt & t & live & [H1 H2 _ _] & _) _ _ _ _] [(_ & _ & _ & [_ _ _ H4] & _) _ Hg _ _] Hu _]. destruct H4 as [R1 _ _].
  split.
  - rewrite Hg. exists (slice (written x) n' (Z.of_nat (length (written x)) - n')).
    rewrite (slice_snoc _ 0) by lia.
    replace (n' + (Z.of_nat (length (written x)) - n')) with (Z.of_nat (length (written x))) by lia. by rewrite slice_all.
  - destruct (qd_chain _ _ _ _ _ _ H2) as (k & Hc & Hst). exists k, (all t).
    rewrite (qd_unacked _ _ _ _ _ _ H2), (qd_unsent _ _ _ _ _ _ H2). split; [apply sel_perm|]. split; [done|].
    destruct (queued_short _ _ _ _ _ _ H1 Hc Hst) as [Hk _]. rewrite Hg, length_slice; lia.
Qed.

(** C2: two ends that were just connected write, send, read, probe and time out in
    any order, and packets are lost, repeated, delayed or reordered, but not changed.
    If no end
    writes while a fast retransmission that is not the last data sent ends its
    unsent queue, no retransmission timeout comes while a retransmitted segment is
    still unsent, and each end writes at most 2^29 bytes, then the calls of TCP
    always give a result, what each application gets is a prefix of the bytes that
    the other one wrote, and all bytes that are missing are still queued at the
    sender. *)
Theorem tcp_stream B Bp x0 y0 l :
  opened B Bp x0 -> opened Bp B y0 -> permitted l (x0, y0) = true ->
  exists x y, run l (x0, y0) = Some (x, y) /\ delivered B x y /\ delivered Bp y x.
Proof.
  intros Hx Hy Hl. assert (Hb : both_ok B Bp x0 y0 0 0 0 0).
  { split; [apply opened_ok; [done|apply Hy]|apply opened_ok; [done|apply Hx]|lia|lia]. }
  destruct (run_ok B Bp l x0 y0 _ _ _ _ Hb Hl) as (x & y & u & n & u' & n' & E & Hb'). exists x, y. split; [done|].
  split; [by eapply end_delivered|]. eapply end_delivered. by apply both_sym.
Qed.
End stream.
#[global] Arguments endpoint : clear implicits.

(** ** A connection *)

#[local] Existing Instance IpFrag.reass_pool.

Definition sample_pcb (local remote : Z) (B Bp : Z) : tcp_pcb :=
  (fresh_pcb TCP_PRIO_NORMAL (u32 B) 1 0)
    <| local_ip := local |> <| remote_ip := remote |> <| state := ESTABLISHED |> <| local_port := 4000 |>
    <| remote_port := 4000 |> <| flags := TF_NODELAY |> <| rcv_nxt := u32 Bp |> <| rcv_ann_right_edge := u32 (Bp + TCP_WND) |>
    <| cwnd := 1072 |> <| ssthresh := 5360 |> <| snd_wl1 := u32 (Bp - 1) |> <| snd_wnd := TCP_WND |>
    <| snd_wnd_max := TCP_WND |>.
Definition sample_net (addr : Z) : net Memp.memp Memp.memp :=
  mkNet (mkIp 7 [] (Some (mkNetif 1 addr 0x00ffffff 1500 NETIF_FLAG_UP)) None None 0 0 IpFrag.reass_start [] 0 0 0)
    (Memp.memp_init [(5%nat, 32)] 4096).
Definition sample_end (local remote B Bp : Z) : endpoint Memp.memp Memp.memp := mkEnd (sample_pcb local remote B Bp) (sample_net local) [] [].
Definition sample_env : env := mkEnv (fun _ => 0) (fun _ _ => true) (fun _ _ => true) (fun _ => true) [].

(** Sequence numbers that wrap around in the first bytes. *)
Definition sample_start : endpoint Memp.memp Memp.memp * endpoint Memp.memp Memp.memp :=
  (sample_end 0x0100000a 0x0200000a 0xfffffffe 77, sample_end 0x0200000a 0x0100000a 77 0xfffffffe).
Definition sample_data : list Z := [1; 2; 3; 4; 5].

(** The [k]-th packet of an end, as it is received. *)
Definition received_packet (x : endpoint Memp.memp Memp.memp) (k : nat) : pbuf := mkPbuf [] [data (nth k (sent_by x) (mkPbuf [] []))].
Definition sample_run (l : list (bool * action)) (s : endpoint Memp.memp Memp.memp * endpoint Memp.memp Memp.memp) : endpoint Memp.memp Memp.memp * endpoint Memp.memp Memp.memp :=
  default s (run sample_env sample_env l s).

(** The data is written in two parts; the first packet is late, it is sent again
    together with the rest, and the copies arrive in the wrong order. *)
Definition sample_sent : list (bool * action) :=
  [(true, Write [1; 2; 3] 1); (true, Output 1); (true, Write [4; 5] 1); (true, Timeout 5); (true, Output 6)].
Definition sample_sent_state := sample_run sample_sent sample_start.
Definition sample_actions : list (bool * action) :=
  sample_sent ++ ((fun k => (false, Arrive 7 (received_packet sample_sent_state.1 k))) <$> [2; 1; 2; 0; 1]%nat).

Lemma sample_opened local remote B Bp : opened B Bp (sample_end local remote B Bp).
Proof.
  split; try done; try (cbn; unfold TCP_MSS, TCP_WND, in_u16, TCP_MSS; lia).
  - exists [[]]. split; [|done]. apply (Memp.memp_init_inv [(5%nat, 32)] 4096); [lia|repeat constructor].
  - split; [constructor|]. intros n [= <-]. right. cbn. lia.
Qed.
(** Then the last acknowledgement comes back. *)
Definition sample_all : list (bool * action) :=
  sample_actions ++ [(true, Arrive 8 (received_packet (sample_run sample_actions sample_start).2 2))].
Lemma sample_got : (fun s => (got s.2, snd_buf (e_pcb s.1), length (unacked (e_pcb s.1)))) <$>
    run sample_env sample_env sample_all sample_start = Some (sample_data, TCP_SND_BUF, 0%nat).
Proof. vm_compute. reflexivity. Qed.

Lemma tcp_stream_witness :
  exists x y, run sample_env sample_env sample_all sample_start = Some (x, y) /\ got y = sample_data /\
    delivered 0xfffffffe x y.
Proof.
  destruct (tcp_stream sample_env sample_env 0xfffffffe 77 (sample_end 0x0100000a 0x0200000a 0xfffffffe 77)
              (sample_end 0x0200000a 0x0100000a 77 0xfffffffe) sample_all) as (x & y & E & Hd & _).
  - apply sample_opened.
  - apply sample_opened.
  - vm_compute. reflexivity.
  - exists x, y. split; [exact E|]. split; [|exact Hd].
    pose proof sample_got as G. unfold sample_start in G. rewrite E in G. injection G as G _ _. exact G.
Defined.

(** ** Where the stream breaks

    The condition on writes is needed. *)

Definition packets (b : bool) (s : endpoint Memp.memp Memp.memp * endpoint Memp.memp Memp.memp) (l : list nat) : list (bool * action) :=
  (fun k => (b, Arrive 7 (received_packet (if b then s.2 else s.1) k))) <$> l.
Definition then_packets (b : bool) (l : list (bool * action)) (ks : list nat) : list (bool * action) :=
  l ++ packets b (sample_run l sample_start) ks.

(** The first of two packets is lost; three copies of the second one arrive, and their
    acknowledgements start a fast retransmission of the first. *)
Definition fast_rexmit : list (bool * action) :=
  then_packets true (then_packets false
    [(true, Write [1; 2; 3] 1); (true, Output 1); (true, Write [4; 5; 6; 7] 1); (true, Output 1)] [1; 1; 1; 1]%nat) [0; 1; 2; 3]%nat.
Lemma fast_rexmit_state : (fun s => (length (unsent (e_pcb s.1)), length (unacked (e_pcb s.1)), permitted sample_env sample_env fast_rexmit sample_start)) <$>
  run sample_env sample_env fast_rexmit sample_start = Some (1%nat, 1%nat, true).
Proof. vm_compute. reflexivity. Qed.

(** A write that comes now is appended to the retransmitted segment (tcp_out.c,
    tcp_write), whose bytes are followed by those of the other segment: the peer gets
    bytes that were never written in that order, and the acknowledgement of them makes
    the sender forget bytes that never arrived. *)
Definition write_after_fast_rexmit : list (bool * action) :=
  then_packets false (fast_rexmit ++ [(true, Write [8; 9] 1); (true, Output 8)]) [2]%nat.
Lemma write_after_fast_rexmit_breaks : (fun s => (written s.1, got s.2, permitted sample_env sample_env write_after_fast_rexmit sample_start)) <$>
  run sample_env sample_env write_after_fast_rexmit sample_start = Some ([1; 2; 3; 4; 5; 6; 7; 8; 9], [1; 2; 3; 8; 9], false).
Proof. vm_compute. reflexivity. Qed.

End TcpStream.
