(* ===== verification/TcpSafe.v ===== *)
(** * TCP: no packet makes the functions on a block go wrong

    A block is well-formed when its segments can be sent and its numbers are in
    their ranges.  Sending, queueing and receiving then give a result and keep it
    well-formed, whatever the packet that comes in says.  Beside [TcpSend] and
    [TcpRecv], which follow the stream of one connection, this holds in all states
    and for segments with flags and options. *)

From S2P Require Import Prelude LwipDef InetChksum IpAddr Mem Memp Pbuf Packet IpFrag Ip TcpDef TcpOut TcpIn TcpWrite TcpSend TcpAck TcpRecv.

#[local] Open Scope Z_scope.

Module TcpSafe.
Import LwipDef InetChksum IpAddr Packet Ip TcpDef TcpOut TcpIn.
#[local] Open Scope update_scope.

(** ** Well-formed blocks *)

(** A segment with room for the headers, the length of a packet that goes out in one
    piece, and room for its options. *)
Record seg_ok (s : tcp_seg) : Prop := {
  so_room : (20 <= length (before (sg_p s)))%nat; so_segs : segs (sg_p s) <> [];
  so_len : Z.of_nat (length (data (sg_p s))) <= 1460;
  so_opts : flag_set (sg_flags s) TF_SEG_OPTS_MSS = true -> (4 <= length (first (sg_p s)))%nat
}.
Definition segments_of (p : tcp_pcb) : list tcp_seg := unsent p ++ unacked p.
Definition addrs (p : tcp_pcb) : list Z := sg_addr <$> segments_of p.
Definition idle (p : tcp_pcb) : Prop := unsent p = [] /\ unacked p = [].

(** What the numbers of the block are. *)
Record nums_ok (p : tcp_pcb) : Prop := {
  nk_mss : 0 < mss p <= TCP_MSS; nk_cwnd : 0 < cwnd p < 65536; nk_thresh : 0 <= ssthresh p < 65536;
  nk_infr : flag_set (flags p) TF_INFR = true -> 0 < ssthresh p;
  nk_wnd : in_u16 (snd_wnd p); nk_nxt : in_u32 (rcv_nxt p); nk_rcv : in_u16 (rcv_wnd p)
}.

(** The application's functions for data and for a new connection. *)
Definition handlers (p : tcp_pcb) := (recv p, accept p, connected p).
(** What sending and queueing leave alone. *)
Definition vital (p : tcp_pcb) :=
  (mss p, cwnd p, ssthresh p, snd_wnd p, rcv_nxt p, rcv_wnd p, state p, local_port p, handlers p, refused_data p).
Record frame (p p' : tcp_pcb) : Prop := {
  fr_vital : vital p' = vital p;
  fr_infr : flag_set (flags p') TF_INFR = true -> flag_set (flags p) TF_INFR = true;
  fr_unacked : unacked p <> [] -> unacked p' <> [];
  fr_idle : idle p -> idle p'
}.
Lemma frame_refl p : frame p p.
Proof. by split. Qed.
Lemma frame_trans p1 p2 p3 : frame p1 p2 -> frame p2 p3 -> frame p1 p3.
Proof. intros [A1 A2 A3 A4] [B1 B2 B3 B4]. split; [congruence|auto..]. Qed.
Lemma frame_state p p' : frame p p' -> state p' = state p /\ local_port p' = local_port p /\ handlers p' = handlers p /\ rcv_nxt p' = rcv_nxt p /\
  refused_data p' = refused_data p.
Proof. intros [E _ _ _]. unfold vital, handlers in *. injection E as _ _ _ _ ? _ ? ? ? ? ? ?. split_and!; congruence. Qed.
Lemma frame_nums p p' : frame p p' -> nums_ok p -> nums_ok p'.
Proof.
  intros [E Hi _ _] [N1 N2 N3 N4 N5 N6 N7]. unfold vital in E. injection E as E1 E2 E3 E4 E5 E6 _ _ _ _ _ _.
  split; rewrite ?E1, ?E2, ?E3, ?E4, ?E5, ?E6; auto.
Qed.

(** Bits that are cleared or set beside [TF_INFR]. *)
Lemma infr_clear x f : flag_set (flag_clear x f) TF_INFR = true -> flag_set f TF_INFR = true.
Proof.
  unfold flag_clear. change TF_INFR with (2 ^ 2). rewrite !flag_set_pow2, Z.land_spec by lia. by intros [? _]%andb_true_iff.
Qed.
Lemma infr_or x f : Z.testbit x 2 = false -> flag_set (flag_or x f) TF_INFR = true -> flag_set f TF_INFR = true.
Proof.
  intros Hx. unfold flag_or. change TF_INFR with (2 ^ 2). rewrite !flag_set_pow2 by lia. rewrite Z.lor_spec, Hx, ?orb_false_r. intros E. exact E.
Qed.

Lemma seg_ok_hdr f s : seg_ok s -> seg_ok (s <| tcphdr ::= f |>).
Proof. intros [H1 H2 H3 H4]. by split. Qed.

Lemma length_write_first b q :
  (length b <= length (first q))%nat ->
  length (data (write_first b q)) = length (data q) /\ length (first (write_first b q)) = length (first q).
Proof.
  unfold write_first, data, first. destruct (segs q) as [|s l] eqn:Es; [by rewrite Es|]. cbn [segs hd]. intros Hb.
  rewrite !mjoin_cons, !length_app, length_drop. lia.
Qed.

Section safe.
Context {P PS : Type} `{Pool P} `{Pool PS}.
Variable output_err : nat -> Z.
Variables frag_ram frag_ref : nat -> nat -> bool.
Variable ram : nat -> bool.
Variable stale : list Z.
Variable tcp_ticks : Z.

(** The block, and the pool with the segments [live] of other blocks. *)
Record block_ok (live : list Z) (p : tcp_pcb) (w : net P PS) : Prop := {
  bo_segs : Forall seg_ok (segments_of p); bo_holds : holds (n_segs w) (addrs p ++ live); bo_net : net_ok w
}.

Lemma complete_seg_ok s p (w : net P PS) :
  seg_ok s -> seg_ok (complete_seg s p w) /\ sg_addr (complete_seg s p w) = sg_addr s /\
    sg_len (complete_seg s p w) = sg_len s.
Proof.
  intros Hs. unfold complete_seg. set (s1 := s <| tcphdr ::= _ |>).
  assert (H1 : seg_ok s1) by (by apply seg_ok_hdr).
  assert (E : sg_addr s1 = sg_addr s /\ sg_len s1 = sg_len s) by done. destruct E as [E1 E2]. clearbody s1.
  destruct (flag_set (sg_flags s1) TF_SEG_OPTS_MSS) eqn:Ef; [|done]. destruct H1 as [K1 K2 K3 K4].
  destruct (length_write_first (ip_bytes (TCP_BUILD_MSS_OPTION (tcp_eff_send_mss TCP_MSS (remote_ip p) w))) (sg_p s1)) as [L1 L2].
  { specialize (K4 Ef). cbn [ip_bytes length]. lia. }
  split; [|done]. split; cbn [set set_sg_p sg_p sg_flags].
  - unfold write_first. by destruct (segs (sg_p s1)).
  - unfold write_first. by destruct (segs (sg_p s1)) eqn:Es; [rewrite Es|].
  - by rewrite L1.
  - intros _. rewrite L2. by apply K4.
Qed.

(** A segment is sent. *)
Lemma send_segment_ok s rip lip ttl tos (w : net P PS) :
  seg_ok s -> net_ok w ->
  exists q w', seg_packet s = Some q /\ send output_err frag_ram frag_ref (tcphdr s) q lip rip ttl tos w = Some w' /\
    net_ok w' /\ n_segs w' = n_segs w.
Proof.
  intros [K1 K2 K3 K4] Hok. unfold seg_packet.
  destruct (ip_header_room (sg_p s) TCP_HLEN) as (q2 & -> & _ & Hs2 & Hf2 & W2); [unfold TCP_HLEN; lia|done|done|].
  cbn [mbind option_bind]. destruct (W2 (tcp_hdr_bytes (tcphdr s))) as (Dd & Df & _); [done|].
  destruct (tcp_send_spec output_err frag_ram frag_ref (tcphdr s) _ _ _ lip rip ttl tos w Hok Dd) as
    (w' & l & E2 & S & N & _); [done|rewrite Df, length_app, length_tcp_hdr; lia|lia|].
  eexists _, w'. split; [done|]. split; [exact E2|]. split; [by eapply sends_ok|done].
Qed.

Lemma output_segment_ok s p (w : net P PS) :
  seg_ok s -> net_ok w ->
  exists s' p' w', tcp_output_segment output_err frag_ram frag_ref tcp_ticks s p w = Some (s', p', w') /\
    seg_ok s' /\ sg_addr s' = sg_addr s /\ net_ok w' /\ n_segs w' = n_segs w /\
    vital p' = vital p /\ flags p' = flags p /\ unsent p' = unsent p /\ unacked p' = unacked p.
Proof.
  intros Hs Hok. unfold tcp_output_segment. destruct (complete_seg_ok s p w Hs) as (Hs' & Ea & _).
  set (s' := complete_seg s p w) in *. clearbody s'.
  set (p1 := p <| rcv_ann_right_edge := _ |>). set (p2 := if rtime p1 =? -1 then p1 <| rtime := 0 |> else p1).
  assert (E2 : vital p2 = vital p /\ flags p2 = flags p /\ unsent p2 = unsent p /\ unacked p2 = unacked p).
  { unfold p2. by destruct (rtime p1 =? -1). }
  clearbody p2. clear p1. destruct E2 as (A1 & A2 & A3 & A4). destruct (if ip_addr_isany _ then _ else _) as [ip|].
  2:{ exists s', p2, w. by split_and!. }
  set (p3 := p2 <| local_ip := ip |>). set (p4 := if rttest p3 =? 0 then _ else p3).
  assert (E4 : vital p4 = vital p2 /\ flags p4 = flags p2 /\ unsent p4 = unsent p2 /\ unacked p4 = unacked p2).
  { unfold p4. by destruct (rttest p3 =? 0). }
  clearbody p4. clear p3. destruct E4 as (B1 & B2 & B3 & B4).
  destruct (send_segment_ok s' (remote_ip p4) (local_ip p4) (ttl p4) (tos p4) w Hs' Hok) as (q & w' & -> & E & Hok' & N).
  cbn [mbind option_bind]. rewrite E. cbn [mbind option_bind]. exists s', p4, w'. split_and!; try done; congruence.
Qed.

Lemma seq_insert_perm s l : seq_insert s l ≡ₚ s :: l.
Proof.
  induction l as [|x l IH]; cbn [seq_insert]; [done|]. destruct (TCP_SEQ_LT _ _); [|done]. rewrite IH. constructor.
Qed.
Lemma add_unacked_perm s l : add_unacked s l ≡ₚ s :: l.
Proof.
  unfold add_unacked. destruct (last l) as [u|] eqn:El.
  - destruct (TCP_SEQ_LT _ _); [apply seq_insert_perm|]. symmetry. apply Permutation_cons_append.
  - by apply last_None in El as ->.
Qed.

Lemma seg_free_ok s live (w : net P PS) :
  holds (n_segs w) (sg_addr s :: live) -> net_ok w ->
  exists w', tcp_seg_free s w = Some w' /\ holds (n_segs w') live /\ net_ok w'.
Proof.
  intros Hh [N1 N2]. unfold tcp_seg_free.
  destruct (release_ok (n_segs w) [] (sg_addr s) live Hh) as (m & -> & Hm). cbn [mbind option_bind].
  eexists. split; [done|]. split; [done|by split].
Qed.

(** A segment that was sent is not lost: it waits for its acknowledgement, or it has
    no length and goes back to the pool. *)
Lemma after_send_ok s live p (w : net P PS) :
  seg_ok s -> Forall seg_ok (segments_of p) -> holds (n_segs w) (sg_addr s :: addrs p ++ live) -> net_ok w ->
  exists p' w', after_send s p w = Some (p', w') /\ block_ok live p' w' /\
    vital p' = vital p /\ flags p' = flags p /\ unsent p' = unsent p /\ (unacked p <> [] -> unacked p' <> []).
Proof.
  intros Hs Hp Hh Hok. unfold after_send. set (p1 := if TCP_SEQ_LT _ _ then _ else p).
  assert (E : vital p1 = vital p /\ flags p1 = flags p /\ unsent p1 = unsent p /\ unacked p1 = unacked p).
  { unfold p1. by destruct (TCP_SEQ_LT _ _). }
  clearbody p1. destruct E as (E1 & E2 & E3 & E4). destruct (0 <? TCP_TCPLEN s).
  - set (p2 := p1 <| unacked ::= _ |>).
    assert (E' : vital p2 = vital p1 /\ flags p2 = flags p1 /\ unsent p2 = unsent p1 /\
      unacked p2 = add_unacked s (unacked p1)) by done.
    clearbody p2. destruct E' as (F1 & F2 & F3 & F4). rewrite E4 in F4.
    assert (Hperm : segments_of p2 ≡ₚ s :: segments_of p).
    { unfold segments_of. rewrite F3, F4, E3, add_unacked_perm. symmetry. apply Permutation_middle. }
    exists p2, w. split; [done|]. split_and!; try congruence.
    + split; [|unfold addrs; eapply holds_perm; [|exact Hh]|done].
      * rewrite Hperm. by constructor.
      * rewrite Hperm. done.
    + intros Hne E. apply Hne. apply (f_equal length) in E. rewrite F4, (Permutation_length (add_unacked_perm s _)) in E. done.
  - destruct (seg_free_ok s (addrs p ++ live) w Hh Hok) as (w' & -> & Hh' & Hok'). cbn [mbind option_bind].
    exists p1, w'. split; [done|]. split_and!; try congruence. unfold addrs, segments_of in *. rewrite <- E3, <- E4 in *.
    by split.
Qed.

Lemma output_loop_ok wnd l live p (w : net P PS) :
  block_ok live p w -> unsent p = l ->
  exists p' w', output_loop output_err frag_ram frag_ref tcp_ticks wnd l p w = Some (p', w') /\
    block_ok live p' w' /\ frame p p'.
Proof.
  revert p w. induction l as [|s l IH]; intros p w Hb Hl; cbn [output_loop].
  { exists p, w. split; [done|]. split; [done|apply frame_refl]. }
  destruct (negb (in_window s p wnd)); [exists p, w; by split_and!; [..|apply frame_refl]|].
  destruct (negb (tcp_do_output_nagle p) && _); [exists p, w; by split_and!; [..|apply frame_refl]|].
  destruct Hb as [Hs Hh Hok]. unfold segments_of in Hs. unfold addrs, segments_of in Hh. rewrite Hl in Hs, Hh.
  apply Forall_cons in Hs as [Hs Hf].
  set (p1 := p <| unsent := l |>).
  set (r := if bool_decide (state p1 = SYN_SENT) then _ else _).
  assert (Hr : exists s1 p2, r = (s1, p2) /\ seg_ok s1 /\ sg_addr s1 = sg_addr s /\ vital p2 = vital p /\
    unsent p2 = l /\ unacked p2 = unacked p /\ (flag_set (flags p2) TF_INFR = true -> flag_set (flags p) TF_INFR = true)).
  { unfold r. case_bool_decide; eexists _, _; (split; [reflexivity|]); split_and!; try done.
    - by apply seg_ok_hdr.
    - apply infr_clear. }
  clearbody r. destruct Hr as (s1 & p2 & -> & Hs1 & Ea & E1 & E2 & E3 & E4). clear p1. cbn beta iota.
  destruct (output_segment_ok s1 p2 w Hs1 Hok) as (s2 & p3 & w3 & -> & Hs2 & Ea2 & Hok3 & Hn3 & F1 & F2 & F3 & F4).
  cbn [mbind option_bind].
  destruct (after_send_ok s2 live p3 w3 Hs2) as (p4 & w4 & -> & Hb4 & G1 & G2 & G3 & G4).
  { unfold segments_of. by rewrite F3, F4, E2, E3. }
  { unfold addrs, segments_of. rewrite Hn3, F3, F4, E2, E3, Ea2, Ea. exact Hh. }
  { done. }
  cbn [mbind option_bind]. destruct (IH p4 w4 Hb4 ltac:(congruence)) as (p5 & w5 & -> & Hb5 & Hf5).
  exists p5, w5. split; [done|]. split; [done|]. eapply frame_trans; [|exact Hf5]. split.
  - congruence.
  - rewrite G2, F2. exact E4.
  - intros Hne. apply G4. congruence.
  - intros [Hi _]. by rewrite Hi in Hl.
Qed.

(** Packets without a segment. *)
Lemma send_new_ok h q n lip rip ttl tos (w : net P PS) :
  net_ok w -> segs q = [replicate (20 + n) 0] -> (n <= 1)%nat ->
  forall b, (length b <= 20 + n)%nat ->
  exists w', send output_err frag_ram frag_ref h (write_first b q) lip rip ttl tos w = Some w' /\ net_ok w' /\
    n_segs w' = n_segs w.
Proof.
  intros Hok Hq Hn b Hb. set (q' := write_first b q).
  assert (Eq : segs q' = [b ++ drop (length b) (replicate (20 + n) 0)]) by (unfold q', write_first; by rewrite Hq).
  assert (L : length (data q') = (20 + n)%nat /\ length (first q') = (20 + n)%nat).
  { unfold data, first. rewrite Eq. cbn [hd]. rewrite mjoin_cons, app_nil_r, length_app, length_drop, length_replicate. lia. }
  destruct L as [L1 L2]. clearbody q'.
  destruct (tcp_send_spec output_err frag_ram frag_ref h q' (take 20 (data q')) (drop 20 (data q')) lip rip ttl tos w Hok)
    as (w' & l & E & S & N & _).
  - by rewrite take_drop.
  - rewrite length_take. lia.
  - lia.
  - rewrite length_drop. lia.
  - exists w'. split; [exact E|]. split; [by eapply sends_ok|done].
Qed.

Lemma alloc_header_ok p n seqno_ (w : net P PS) :
  net_ok w ->
  exists r p' w', tcp_output_alloc_header ram p 0 (Z.of_nat n) seqno_ w = (r, p', w') /\ net_ok w' /\ n_segs w' = n_segs w /\
    vital p' = vital p /\ flags p' = flags p /\ unsent p' = unsent p /\ unacked p' = unacked p /\
    forall h q, r = Some (h, q) -> exists q0 b, q = write_first b q0 /\ length b = 20%nat /\ segs q0 = [replicate (20 + n) 0].
Proof.
  intros Hok. unfold tcp_output_alloc_header. destruct (pbuf_alloc ram Pbuf.PBUF_IP (TCP_HLEN + 0 + Z.of_nat n) w) as [[q|] w1] eqn:Ea.
  - apply pbuf_alloc_sends in Ea as (S & N & Hq). destruct (Hq q eq_refl) as [Hq1 _]. eexists _, _, w1. split; [reflexivity|].
    split; [by eapply sends_ok|]. split; [done|]. split_and!; try done. intros h q' [= <- <-]. eexists q, _. split; [done|].
    split; [apply length_tcp_hdr|]. rewrite Hq1. do 2 f_equal. unfold TCP_HLEN. lia.
  - apply pbuf_alloc_sends in Ea as (S & N & _). eexists _, _, w1. split; [reflexivity|].
    split; [by eapply sends_ok|]. by split_and!.
Qed.

Lemma free_net_ok q (w : net P PS) : net_ok w -> net_ok (pbuf_free q w).
Proof. apply sends_ok with (l := []), pbuf_free_sends. Qed.

(** A block whose queues are as before. *)
Lemma block_ok_same live p p' (w w' : net P PS) :
  block_ok live p w -> unsent p' = unsent p -> unacked p' = unacked p -> net_ok w' -> n_segs w' = n_segs w ->
  block_ok live p' w'.
Proof.
  intros [Hs Hh _] E1 E2 Hok N. unfold addrs, segments_of in *. rewrite <- E1, <- E2 in *. rewrite <- N in Hh.
  by split.
Qed.
Lemma frame_same p p' :
  vital p' = vital p -> unsent p' = unsent p -> unacked p' = unacked p ->
  (flag_set (flags p') TF_INFR = true -> flag_set (flags p) TF_INFR = true) -> frame p p'.
Proof. intros E1 E2 E3 E4. split; [done|done|by rewrite E3|unfold idle; by rewrite E2, E3]. Qed.

Lemma empty_ack_ok live p (w : net P PS) :
  block_ok live p w ->
  exists r p' w', tcp_send_empty_ack output_err frag_ram frag_ref ram p w = Some (r, p', w') /\ block_ok live p' w' /\ frame p p'.
Proof.
  intros Hb. unfold tcp_send_empty_ack. change 0 with (Z.of_nat 0) at 2.
  destruct (alloc_header_ok p 0 (snd_nxt p) w) as (r & p1 & w1 & -> & Hok1 & N1 & E1 & E2 & E3 & E4 & Hq); [apply Hb|].
  destruct r as [[h q]|].
  - destruct (Hq h q eq_refl) as (q0 & b & -> & Hb0 & Hs0). set (p2 := p1 <| flags ::= _ |>).
    assert (F : vital p2 = vital p1 /\ unsent p2 = unsent p1 /\ unacked p2 = unacked p1 /\
      (flag_set (flags p2) TF_INFR = true -> flag_set (flags p1) TF_INFR = true)).
    { split_and!; [done..|apply infr_clear]. }
    clearbody p2. destruct F as (F1 & F2 & F3 & F4).
    destruct (send_new_ok h q0 0 (local_ip p2) (remote_ip p2) (ttl p2) (tos p2) w1 Hok1 Hs0 ltac:(lia) b ltac:(lia)) as (w2 & -> & Hok2 & N2).
    cbn [mbind option_bind]. eexists _, p2, _. split; [done|]. split.
    + eapply block_ok_same; [exact Hb|congruence|congruence|by apply free_net_ok|].
      destruct (pbuf_free_sends (write_first b q0) w2) as [_ ->]. congruence.
    + apply frame_same; [congruence..|]. rewrite <- E2. exact F4.
  - eexists _, p1, w1. split; [done|]. split; [eapply block_ok_same; [exact Hb|congruence..]|].
    apply frame_same; [congruence..|]. by rewrite E2.
Qed.

Lemma tcp_output_ok input live p (w : net P PS) :
  block_ok live p w ->
  exists r p' w', tcp_output output_err frag_ram frag_ref ram tcp_ticks input p w = Some (r, p', w') /\
    block_ok live p' w' /\ frame p p'.
Proof.
  intros Hb. unfold tcp_output. destruct input; [eexists _, p, w; by split_and!; [..|apply frame_refl]|].
  set (wnd := Z.min _ _). clearbody wnd. destruct (flag_set (flags p) TF_ACK_NOW && _); [by apply empty_ack_ok|].
  destruct (output_loop_ok wnd (unsent p) live p w Hb eq_refl) as (p1 & w1 & -> & Hb1 & Hf1). cbn [mbind option_bind].
  set (p2 := if bool_decide _ then _ else p1).
  assert (E : vital p2 = vital p1 /\ flags p2 = flags p1 /\ unsent p2 = unsent p1 /\ unacked p2 = unacked p1).
  { unfold p2. by case_bool_decide. }
  clearbody p2. destruct E as (E1 & E2 & E3 & E4). set (p3 := p2 <| flags ::= _ |>).
  assert (F : vital p3 = vital p2 /\ unsent p3 = unsent p2 /\ unacked p3 = unacked p2 /\
    (flag_set (flags p3) TF_INFR = true -> flag_set (flags p2) TF_INFR = true)).
  { split_and!; [done..|apply infr_clear]. }
  clearbody p3. destruct F as (F1 & F2 & F3 & F4). eexists _, p3, w1. split; [done|]. split.
  - eapply block_ok_same; [exact Hb1|congruence|congruence|apply Hb1|done].
  - eapply frame_trans; [exact Hf1|]. apply frame_same; [congruence..|]. by rewrite <- E2.
Qed.

Lemma tcp_rst_ok seqno_ ackno_ lip rip lport rport (w : net P PS) :
  net_ok w ->
  exists w', tcp_rst output_err frag_ram frag_ref ram seqno_ ackno_ lip rip lport rport w = Some w' /\ net_ok w' /\
    n_segs w' = n_segs w.
Proof.
  intros Hok. unfold tcp_rst. destruct (pbuf_alloc ram Pbuf.PBUF_IP TCP_HLEN w) as [[q|] w1] eqn:Ea.
  - apply pbuf_alloc_sends in Ea as (S & N & Hq). destruct (Hq q eq_refl) as [Hq1 _]. set (h := mkTcpHdr _ _ _ _ _ _ _ _).
    destruct (send_new_ok h q 0 lip rip TCP_TTL 0 w1 (sends_ok _ _ _ S Hok) Hq1 ltac:(lia) (tcp_hdr_bytes h)) as (w2 & -> & Hok2 & N2).
    { rewrite length_tcp_hdr. lia. }
    cbn [mbind option_bind]. eexists. split; [done|]. split; [by apply free_net_ok|].
    destruct (pbuf_free_sends (write_first (tcp_hdr_bytes h) q) w2) as [_ ->]. congruence.
  - apply pbuf_alloc_sends in Ea as (S & N & _). exists w1. split; [done|]. split; [by eapply sends_ok|done].
Qed.

(** ** Queueing *)

Lemma create_segment_ok p q flags_ seqno_ optflags live (w : net P PS) :
  holds (n_segs w) live -> net_ok w -> (20 <= length (before q))%nat -> segs q <> [] ->
  Z.of_nat (length (data q)) <= 1460 -> (flag_set optflags TF_SEG_OPTS_MSS = true -> (4 <= length (first q))%nat) ->
  exists r w', tcp_create_segment p q flags_ seqno_ optflags w = Some (r, w') /\ net_ok w' /\
    match r with
    | None => holds (n_segs w') live
    | Some s => holds (n_segs w') (sg_addr s :: live) /\ seg_ok s
    end.
Proof.
  intros Hh Hok Hroom Hs Hl Ho. unfold tcp_create_segment. pose proof (alloc_new (n_segs w) live Hh) as Ha.
  destruct (alloc (n_segs w)) as [[a m]|].
  - destruct (ip_header_room q TCP_HLEN) as (q2 & -> & _); [done|done|done|].
    eexists _, _. split; [done|]. split; [by destruct Hok|]. cbn. split; [apply Ha|by split].
  - eexists None, _. split; [done|]. split; [by apply free_net_ok|]. by destruct (pbuf_free_sends q w) as [_ ->].
Qed.

(** A segment is put on the queue, or nothing happens but that the lack of memory is
    noted. *)
Lemma enqueue_flags_ok live p flags_ (w : net P PS) :
  block_ok live p w ->
  exists err p' w', tcp_enqueue_flags ram p flags_ w = Some (err, p', w') /\ block_ok live p' w' /\
    vital p' = vital p /\ unacked p' = unacked p /\
    (flag_set (flags p') TF_INFR = true -> flag_set (flags p) TF_INFR = true) /\ (err <> ERR_OK -> unsent p' = unsent p).
Proof.
  intros Hb. unfold tcp_enqueue_flags. set (pm := p <| flags ::= flag_or TF_NAGLEMEMERR |>).
  assert (Em : vital pm = vital p /\ unacked pm = unacked p /\ unsent pm = unsent p /\
    (flag_set (flags pm) TF_INFR = true -> flag_set (flags p) TF_INFR = true)) by (split_and!; [done..|by apply infr_or]).
  clearbody pm. destruct Em as (M1 & M2 & M3 & M4).
  assert (Hm : forall w' : net P PS, net_ok w' -> n_segs w' = n_segs w -> block_ok live pm w') by (intros; by eapply block_ok_same).
  destruct (queue_full (snd_queuelen p)).
  { eexists _, pm, w. split; [done|]. split; [apply Hm; [apply Hb|done]|]. by split_and!. }
  set (optflags := if flag_set flags_ TCP_SYN then TF_SEG_OPTS_MSS else 0). destruct (snd_buf p =? 0).
  { eexists _, p, w. split; [done|]. by split_and!. }
  destruct (pbuf_alloc ram Pbuf.PBUF_TRANSPORT (LWIP_TCP_OPT_LENGTH optflags) w) as [[q|] w1] eqn:Ea;
    apply pbuf_alloc_sends in Ea as (S & N & Hq); pose proof (sends_ok _ _ _ S (bo_net _ _ _ Hb)) as Hok1.
  2:{ eexists _, pm, w1. split; [done|]. split; [by apply Hm|]. by split_and!. }
  destruct (Hq q eq_refl) as [Hq1 Hq2]. rewrite TcpWrite.transport_room in Hq2.
  assert (Ho : 0 <= LWIP_TCP_OPT_LENGTH optflags <= 4 /\ (flag_set optflags TF_SEG_OPTS_MSS = true -> LWIP_TCP_OPT_LENGTH optflags = 4)).
  { unfold LWIP_TCP_OPT_LENGTH. destruct (flag_set optflags _); split; try lia; done. }
  destruct Ho as [Ho1 Ho2]. clearbody optflags.
  destruct (create_segment_ok p q flags_ (snd_lbb p) optflags (addrs p ++ live) w1) as (r & w2 & -> & Hok2 & Hr).
  { rewrite N. apply Hb. } { done. } { lia. } { by rewrite Hq1. }
  { unfold data. rewrite Hq1, mjoin_cons, app_nil_r, length_replicate. lia. }
  { intros E. unfold first. rewrite Hq1. cbn [hd]. rewrite length_replicate, Ho2 by done. lia. }
  cbn [mbind option_bind]. destruct r as [s|].
  2:{ eexists _, pm, w2. split; [done|]. split; [|by split_and!]. destruct Hb as [Hs _ _]. unfold addrs, segments_of in *.
      rewrite <- M2, <- M3 in *. by split. }
  destruct Hr as [Hh Hs]. set (p1 := p <| unsent ::= (fun l => l ++ [s]) |> <| unsent_oversize := 0 |>).
  set (p2 := if flag_set flags_ (Z.lor TCP_SYN TCP_FIN) then _ else p1).
  set (p3 := if flag_set flags_ TCP_FIN then _ else p2).
  match goal with |- context [Some (ERR_OK, ?x, w2)] => set (p4 := x) end.
  assert (E1 : vital p1 = vital p /\ unacked p1 = unacked p /\ flags p1 = flags p /\ unsent p1 = unsent p ++ [s]) by done.
  clearbody p1. assert (E2 : vital p2 = vital p1 /\ unacked p2 = unacked p1 /\ flags p2 = flags p1 /\ unsent p2 = unsent p1).
  { unfold p2. by destruct (flag_set flags_ (Z.lor TCP_SYN TCP_FIN)). }
  clearbody p2. assert (E3 : vital p3 = vital p2 /\ unacked p3 = unacked p2 /\ unsent p3 = unsent p2 /\
    (flag_set (flags p3) TF_INFR = true -> flag_set (flags p2) TF_INFR = true)).
  { unfold p3. destruct (flag_set flags_ TCP_FIN); [|done]. split_and!; [done..|by apply infr_or]. }
  clearbody p3. assert (E4 : vital p4 = vital p3 /\ unacked p4 = unacked p3 /\ unsent p4 = unsent p3 /\ flags p4 = flags p3) by done.
  clearbody p4. destruct E1 as (A1 & A2 & A3 & A4), E2 as (B1 & B2 & B3 & B4), E3 as (C1 & C2 & C3 & C4), E4 as (D1 & D2 & D3 & D4).
  assert (Hu : unsent p4 = unsent p ++ [s]) by congruence. assert (Ha : unacked p4 = unacked p) by congruence.
  assert (Hperm : segments_of p4 ≡ₚ s :: segments_of p).
  { unfold segments_of. rewrite Hu, Ha, <- app_assoc. symmetry. apply Permutation_middle. }
  eexists _, p4, w2. split; [done|]. split.
  { split; [rewrite Hperm; constructor; [done|apply Hb]| |done]. eapply holds_perm; [|exact Hh]. unfold addrs. by rewrite Hperm. }
  split_and!; [congruence|done| |done]. rewrite D4. intros E. apply C4 in E. by rewrite B3, A3 in E.
Qed.

Lemma on_last_ok f l : (forall s, seg_ok s -> seg_ok (f s) /\ sg_addr (f s) = sg_addr s) ->
  Forall seg_ok l -> Forall seg_ok (on_last f l) /\ sg_addr <$> on_last f l = sg_addr <$> l.
Proof.
  intros Hf Hl. unfold on_last. destruct (last l) as [s|] eqn:El.
  - apply last_Some in El as [l' ->]. rewrite length_app. cbn [length].
    replace (length l' + 1 - 1)%nat with (length l') by lia. rewrite take_app_length.
    apply Forall_app in Hl as [Hl Hs]. inversion Hs as [|? ? Hs' _]; subst. destruct (Hf s Hs') as [F1 F2].
    split; [apply Forall_app; by split; [|constructor]|]. rewrite !fmap_app. cbn. by rewrite F2.
  - by apply last_None in El as ->.
Qed.

Lemma send_fin_ok live p (w : net P PS) :
  block_ok live p w ->
  exists err p' w', tcp_send_fin ram p w = Some (err, p', w') /\ block_ok live p' w' /\
    vital p' = vital p /\ unacked p' = unacked p /\
    (flag_set (flags p') TF_INFR = true -> flag_set (flags p) TF_INFR = true).
Proof.
  intros Hb. assert (Hq : exists err p' w', tcp_enqueue_flags ram p TCP_FIN w = Some (err, p', w') /\ block_ok live p' w' /\
    vital p' = vital p /\ unacked p' = unacked p /\ (flag_set (flags p') TF_INFR = true -> flag_set (flags p) TF_INFR = true)).
  { destruct (enqueue_flags_ok live p TCP_FIN w Hb) as (e & p' & w' & E & H1 & H2 & H3 & H4 & _). by exists e, p', w'. }
  unfold tcp_send_fin. destruct (last (unsent p)) as [s|]; [|exact Hq]. destruct (has_flag _ _); [exact Hq|].
  match goal with |- context [Some (ERR_OK, ?x, w)] => set (p' := x) end. assert (E : vital p' = vital p /\ unacked p' = unacked p /\
    unsent p' = on_last (fun s => s <| tcphdr ::= TCPH_SET_FLAG TCP_FIN |>) (unsent p) /\
    (flag_set (flags p') TF_INFR = true -> flag_set (flags p) TF_INFR = true)) by (split_and!; [done..|by apply infr_or]).
  clearbody p'. destruct E as (E1 & E2 & E3 & E4). eexists _, p', w. split; [done|]. split; [|done].
  destruct Hb as [Hs Hh Hok]. unfold addrs, segments_of in *. apply Forall_app in Hs as [Hs1 Hs2].
  destruct (on_last_ok (fun s => s <| tcphdr ::= TCPH_SET_FLAG TCP_FIN |>) (unsent p)) as [G1 G2]; [|done|].
  { intros s' Hs'. split; [by apply seg_ok_hdr|done]. }
  split; [| |done]; unfold addrs, segments_of; rewrite E2, E3.
  - by apply Forall_app.
  - by rewrite fmap_app, G2, <- fmap_app.
Qed.

(** ** Retransmission *)

Lemma tcp_rexmit_ok live p (w : net P PS) :
  block_ok live p w ->
  block_ok live (tcp_rexmit p) w /\ vital (tcp_rexmit p) = vital p /\ flags (tcp_rexmit p) = flags p.
Proof.
  intros Hb. unfold tcp_rexmit. destruct (unacked p) as [|s l] eqn:Eu; [done|].
  match goal with |- block_ok _ ?x _ /\ _ => set (p' := x) end.
  assert (E : vital p' = vital p /\ flags p' = flags p /\ unacked p' = l /\ unsent p' = seq_insert s (unsent p)) by done.
  clearbody p'. destruct E as (E1 & E2 & E3 & E4). split; [|done].
  assert (Hperm : segments_of p' ≡ₚ segments_of p).
  { unfold segments_of. rewrite E3, E4, Eu, seq_insert_perm. apply Permutation_middle. }
  destruct Hb as [Hs Hh Hok]. split; [by rewrite Hperm| |done]. eapply holds_perm; [|exact Hh]. unfold addrs. by rewrite Hperm.
Qed.

(** What the numbers of a block depend on. *)
Lemma nums_same p p' :
  nums_ok p -> mss p' = mss p -> rcv_nxt p' = rcv_nxt p -> rcv_wnd p' = rcv_wnd p -> snd_wnd p' = snd_wnd p ->
  0 < cwnd p' < 65536 -> 0 <= ssthresh p' < 65536 ->
  (flag_set (flags p') TF_INFR = true -> 0 < ssthresh p') -> nums_ok p'.
Proof. intros [N1 N2 N3 N4 N5 N6 N7] E1 E2 E3 E4 H1 H2 H3. split; rewrite ?E1, ?E2, ?E3, ?E4; done. Qed.

(** What receiving leaves alone. *)
Definition stays (p p' : tcp_pcb) : Prop :=
  (state p', local_port p', handlers p', refused_data p', rcv_nxt p') = (state p, local_port p, handlers p, refused_data p, rcv_nxt p).
Definition same_end (p p' : tcp_pcb) : Prop := (state p', local_port p', handlers p', refused_data p') = (state p, local_port p, handlers p, refused_data p).
Lemma stays_trans p1 p2 p3 : stays p1 p2 -> stays p2 p3 -> stays p1 p3.
Proof. unfold stays. congruence. Qed.
Lemma stays_end p p' : stays p p' -> same_end p p'.
Proof. unfold stays, same_end. congruence. Qed.
Lemma end_trans p1 p2 p3 : same_end p1 p2 -> same_end p2 p3 -> same_end p1 p3.
Proof. unfold same_end. congruence. Qed.

Lemma vital_fields p p' : vital p' = vital p ->
  mss p' = mss p /\ cwnd p' = cwnd p /\ ssthresh p' = ssthresh p /\ snd_wnd p' = snd_wnd p /\ rcv_nxt p' = rcv_nxt p /\
  rcv_wnd p' = rcv_wnd p /\ stays p p'.
Proof. intros E. unfold vital in E. injection E as E1 E2 E3 E4 E5 E6 E7 E8 E9 E10 E11 E12. unfold stays, handlers. by rewrite E5, E7, E8, E9, E10, E11, E12. Qed.
Lemma vital_nums p p' : vital p' = vital p ->
  (flag_set (flags p') TF_INFR = true -> flag_set (flags p) TF_INFR = true) -> nums_ok p -> nums_ok p'.
Proof.
  intros (E1 & E2 & E3 & E4 & E5 & E6 & _)%vital_fields Hi [N1 N2 N3 N4 N5 N6 N7].
  split; rewrite ?E1, ?E2, ?E3, ?E4, ?E5, ?E6; auto.
Qed.

Lemma rexmit_fast_ok live p (w : net P PS) :
  block_ok live p w -> nums_ok p ->
  block_ok live (tcp_rexmit_fast p) w /\ nums_ok (tcp_rexmit_fast p) /\ stays p (tcp_rexmit_fast p).
Proof.
  intros Hb Hn. unfold tcp_rexmit_fast. destruct (_ && _); [|done].
  destruct (tcp_rexmit_ok live p w Hb) as (Hb1 & Hv & Hf). pose proof (vital_nums _ _ Hv ltac:(by rewrite Hf) Hn) as Hn1.
  destruct (vital_fields _ _ Hv) as (_ & _ & _ & _ & _ & _ & Hst).
  set (p1 := tcp_rexmit p) in *. clearbody p1. clear Hv Hf.
  set (half := if snd_wnd p1 <? cwnd p1 then snd_wnd p1 / 2 else cwnd p1 / 2).
  set (thresh := if half <? 2 * mss p1 then u16 (2 * mss p1) else half).
  pose proof (nk_mss _ Hn1) as Hm. unfold TCP_MSS in Hm.
  assert (Hth : 0 < thresh <= 40000).
  { assert (Hh : 0 <= half <= 32767).
    { unfold half. pose proof (nk_cwnd _ Hn1). pose proof (nk_wnd _ Hn1) as Hw. unfold in_u16 in Hw.
      destruct (_ <? _); zlia. }
    unfold thresh. destruct (Z.ltb_spec half (2 * mss p1)); [rewrite u16_small by (unfold in_u16; lia)|]; lia. }
  match goal with |- block_ok _ ?x _ /\ _ => set (p2 := x) end.
  assert (E : ssthresh p2 = thresh /\ cwnd p2 = u16 (thresh + 3 * mss p1) /\ mss p2 = mss p1 /\ rcv_nxt p2 = rcv_nxt p1 /\
    rcv_wnd p2 = rcv_wnd p1 /\ snd_wnd p2 = snd_wnd p1 /\ unsent p2 = unsent p1 /\ unacked p2 = unacked p1 /\ stays p1 p2) by done.
  clearbody p2. destruct E as (E1 & E2 & E3 & E4 & E5 & E6 & E7 & E8 & E9).
  rewrite u16_small in E2 by (unfold in_u16; lia).
  split; [eapply block_ok_same; [exact Hb1|done|done|apply Hb1|done]|]. split.
  - apply (nums_same p1 p2 Hn1); rewrite ?E1, ?E2; done || lia.
  - by eapply stays_trans.
Qed.

(** ** Acknowledgements *)

Lemma update_window_ok live i p (w : net P PS) :
  in_u16 (wnd (in_hdr i)) -> block_ok live p w -> nums_ok p ->
  block_ok live (update_window i p) w /\ nums_ok (update_window i p) /\ stays p (update_window i p).
Proof.
  intros Hw Hb Hn. unfold update_window. destruct (_ || _); [|done]. cbn zeta.
  match goal with |- context [persist_backoff ?x =? 0] => set (p1 := x) end.
  assert (E : mss p1 = mss p /\ cwnd p1 = cwnd p /\ ssthresh p1 = ssthresh p /\ snd_wnd p1 = wnd (in_hdr i) /\
    rcv_nxt p1 = rcv_nxt p /\ rcv_wnd p1 = rcv_wnd p /\ flags p1 = flags p /\ stays p p1 /\
    unsent p1 = unsent p /\ unacked p1 = unacked p) by done.
  clearbody p1. destruct E as (E1 & E2 & E3 & E4 & E5 & E6 & E7 & E8 & E9 & E10).
  assert (Hb1 : block_ok live p1 w) by (eapply block_ok_same; [exact Hb|done|done|apply Hb|done]).
  assert (Hn1 : nums_ok p1).
  { destruct Hn as [N1 N2 N3 N4 N5 N6 N7]. split; rewrite ?E1, ?E2, ?E3, ?E4, ?E5, ?E6, ?E7; done. }
  assert (Hrest : forall p2, vital p2 = vital p1 -> flags p2 = flags p1 -> unsent p2 = unsent p1 -> unacked p2 = unacked p1 ->
    block_ok live p2 w /\ nums_ok p2 /\ stays p p2).
  { intros p2 G1 G2 G3 G4. destruct (vital_fields _ _ G1) as (_ & _ & _ & _ & _ & _ & S1).
    split; [eapply block_ok_same; [exact Hb1|done|done|apply Hb1|done]|].
    split; [eapply vital_nums; [exact G1|by rewrite G2|done]|]. unfold stays in *; congruence. }
  destruct (wnd (in_hdr i) =? 0).
  - destruct (persist_backoff p1 =? 0); apply Hrest; done.
  - destruct (0 <? persist_backoff p1); apply Hrest; done.
Qed.

Lemma duplicate_ack_ok live i edge p (w : net P PS) :
  block_ok live p w -> nums_ok p ->
  block_ok live (duplicate_ack i edge p) w /\ nums_ok (duplicate_ack i edge p) /\ stays p (duplicate_ack i edge p).
Proof.
  intros Hb Hn. unfold duplicate_ack. set (p1 := p <| acked := 0 |>).
  assert (E : vital p1 = vital p /\ flags p1 = flags p /\ unsent p1 = unsent p /\ unacked p1 = unacked p) by done.
  clearbody p1. destruct E as (E1 & E2 & E3 & E4).
  assert (Hb1 : block_ok live p1 w) by (eapply block_ok_same; [exact Hb|done|done|apply Hb|done]).
  pose proof (vital_nums _ _ E1 ltac:(by rewrite E2) Hn) as Hn1.
  destruct (vital_fields _ _ E1) as (_ & _ & _ & _ & _ & _ & S1).
  assert (Hrest : forall p1 p2, block_ok live p1 w -> nums_ok p1 -> stays p p1 -> unsent p2 = unsent p1 -> unacked p2 = unacked p1 ->
    mss p2 = mss p1 -> rcv_nxt p2 = rcv_nxt p1 -> rcv_wnd p2 = rcv_wnd p1 -> snd_wnd p2 = snd_wnd p1 ->
    ssthresh p2 = ssthresh p1 -> flags p2 = flags p1 -> stays p1 p2 -> 0 < cwnd p2 < 65536 ->
    block_ok live p2 w /\ nums_ok p2 /\ stays p p2).
  { intros q1 q2 Gb Gn G1 F1 F2 F3 F4 F5 F6 F7 F8 F9 F11.
    split; [eapply block_ok_same; [exact Gb|done|done|apply Gb|done]|]. split; [|unfold stays in *; congruence].
    apply (nums_same q1 q2 Gn); rewrite ?F7, ?F8; try done; apply Gn. }
  set (b := _ && _). clearbody b. destruct b.
  2:{ apply (Hrest p1); try done. apply Hn1. }
  set (p2 := if dupacks p1 <? u8 (dupacks p1 + 1) then p1 <| dupacks := u8 (dupacks p1 + 1) |> else p1).
  assert (H2 : block_ok live p2 w /\ nums_ok p2 /\ stays p p2).
  { unfold p2. destruct (dupacks p1 <? u8 (dupacks p1 + 1)); apply (Hrest p1); try done; apply Hn1. }
  clearbody p2. destruct H2 as (Hb2 & Hn2 & Hs2). destruct (3 <? dupacks p2).
  - destruct (Z.ltb_spec (cwnd p2) (u16 (cwnd p2 + mss p2))); [|done]. apply (Hrest p2); try done.
    pose proof (nk_cwnd _ Hn2). pose proof (u16_range (cwnd p2 + mss p2)) as Hu. unfold in_u16 in Hu. cbn. lia.
  - destruct (dupacks p2 =? 3); [|done].
    destruct (rexmit_fast_ok live p2 w Hb2 Hn2) as (Hb3 & Hn3 & T1). split; [done|]. split; [done|].
    by eapply stays_trans.
Qed.

Lemma grow_cwnd_ok p :
  0 < cwnd p < 65536 ->
  exists p', grow_cwnd p = Some p' /\ 0 < cwnd p' < 65536 /\ mss p' = mss p /\ rcv_nxt p' = rcv_nxt p /\ rcv_wnd p' = rcv_wnd p /\
    snd_wnd p' = snd_wnd p /\ ssthresh p' = ssthresh p /\ flags p' = flags p /\ stays p p' /\ unsent p' = unsent p /\ unacked p' = unacked p.
Proof.
  intros Hc. unfold grow_cwnd. destruct (cwnd p <? ssthresh p).
  - eexists. split; [done|]. pose proof (u16_range (cwnd p + mss p)) as Hu. unfold in_u16 in Hu.
    destruct (Z.ltb_spec (cwnd p) (u16 (cwnd p + mss p))); split_and!; try done; cbn; lia.
  - destruct (Z.eqb_spec (cwnd p) 0); [lia|]. eexists. split; [done|].
    set (x := u16 (cwnd p + _)). assert (Hu : in_u16 x) by apply u16_range. unfold in_u16 in Hu.
    destruct (Z.ltb_spec (cwnd p) x); split_and!; try done; cbn; lia.
Qed.

(** A prefix of the queue goes back to the pool. *)
Lemma ack_loop_ok covered l live p (w : net P PS) :
  holds (n_segs w) ((sg_addr <$> l) ++ live) -> net_ok w ->
  exists l1 l2 p' w', ack_loop covered l p w = Some (l2, p', w') /\ l = l1 ++ l2 /\
    holds (n_segs w') ((sg_addr <$> l2) ++ live) /\ net_ok w' /\
    vital p' = vital p /\ flags p' = flags p /\ unsent p' = unsent p /\ unacked p' = unacked p.
Proof.
  revert p w. induction l as [|s l IH]; intros p w Hh Hok; cbn [ack_loop].
  { exists [], [], p, w. by split_and!. }
  destruct (covered s).
  - set (p1 := if negb (acked p =? 0) && has_flag (tcphdr s) TCP_FIN then _ else p).
    set (p2 := p1 <| snd_queuelen := _ |>).
    assert (E : vital p2 = vital p /\ flags p2 = flags p /\ unsent p2 = unsent p /\ unacked p2 = unacked p).
    { unfold p2, p1. by destruct (negb (acked p =? 0) && has_flag (tcphdr s) TCP_FIN). }
    clearbody p2. clear p1. destruct E as (E1 & E2 & E3 & E4).
    destruct (seg_free_ok s (fmap (M:=list) sg_addr l ++ live) w Hh Hok) as (w1 & -> & Hh1 & Hok1). cbn [mbind option_bind].
    destruct (IH p2 w1 Hh1 Hok1) as (l1 & l2 & p' & w' & -> & -> & Hh' & Hok' & F1 & F2 & F3 & F4).
    exists (s :: l1), l2, p', w'. split_and!; try done; congruence.
  - exists [], (s :: l), p, w. by split_and!.
Qed.

Lemma holds_swap (w : net P PS) (l1 l2 : list tcp_seg) live :
  holds (n_segs w) ((sg_addr <$> l1 ++ l2) ++ live) -> holds (n_segs w) ((sg_addr <$> l2) ++ (sg_addr <$> l1) ++ live).
Proof. apply holds_perm. rewrite fmap_app, app_assoc. apply Permutation_app_tail, Permutation_app_comm. Qed.

(** The queue [unacked] loses a prefix. *)
Lemma new_ack_ok i live p (w : net P PS) :
  block_ok live p w -> nums_ok p ->
  exists p' w', new_ack i p w = Some (p', w') /\ block_ok live p' w' /\ nums_ok p' /\ stays p p'.
Proof.
  intros Hb Hn. unfold new_ack. set (p1 := if flag_set (flags p) TF_INFR then _ else p).
  assert (E : nums_ok p1 /\ stays p p1 /\ unsent p1 = unsent p /\ unacked p1 = unacked p).
  { unfold p1. destruct (flag_set (flags p) TF_INFR) eqn:Ei; [|done]. split_and!; try done.
    apply (nums_same p _ Hn); try done.
    - pose proof (nk_infr _ Hn Ei). pose proof (nk_thresh _ Hn). cbn. lia.
    - apply Hn.
    - intros _. by apply (nk_infr _ Hn). }
  clearbody p1. destruct E as (Hn1 & S1 & E1 & E2). set (n := u16 _). clearbody n.
  match goal with |- context [grow_cwnd ?x] => set (p2 := x) end.
  assert (E : vital p2 = vital p1 /\ flags p2 = flags p1 /\ unsent p2 = unsent p1 /\ unacked p2 = unacked p1) by done.
  clearbody p2. destruct E as (F1 & F2 & F3 & F4). pose proof (vital_nums _ _ F1 ltac:(by rewrite F2) Hn1) as Hn2.
  destruct (vital_fields _ _ F1) as (_ & _ & _ & _ & _ & _ & S3).
  assert (G : exists p3, (if state_num ESTABLISHED <=? state_num (state p2) then grow_cwnd p2 else Some p2) = Some p3 /\
    nums_ok p3 /\ stays p2 p3 /\ unsent p3 = unsent p2 /\ unacked p3 = unacked p2).
  { destruct (_ <=? _); [|by exists p2]. destruct (grow_cwnd_ok p2 (nk_cwnd _ Hn2)) as
      (p3 & -> & G1 & G2 & G3 & G4 & G5 & G6 & G7 & G8 & G9 & G10). exists p3. split_and!; try done.
    apply (nums_same p2 p3 Hn2); rewrite ?G6, ?G7; try done; apply Hn2. }
  destruct G as (p3 & -> & Hn3 & S5 & G1 & G2). cbn [mbind option_bind].
  destruct Hb as [Hs Hh Hok]. unfold segments_of in Hs. unfold addrs, segments_of in Hh.
  destruct (ack_loop_ok (fun s => TCP_SEQ_LEQ (segment_end s) (in_ackno i)) (unacked p3) (fmap (M:=list) sg_addr (unsent p) ++ live) p3 w)
    as (l1 & l2 & p4 & w4 & -> & El & Hh4 & Hok4 & K1 & K2 & K3 & K4).
  { rewrite G2, F4, E2. by apply holds_swap. } { done. }
  cbn [mbind option_bind]. pose proof (vital_nums _ _ K1 ltac:(by rewrite K2) Hn3) as Hn4.
  destruct (vital_fields _ _ K1) as (_ & _ & _ & _ & _ & _ & S7).
  match goal with |- context [Some (?x, w4)] => set (p5 := x) end.
  assert (E : vital p5 = vital p4 /\ flags p5 = flags p4 /\ unsent p5 = unsent p4 /\ unacked p5 = l2) by done.
  clearbody p5. destruct E as (L1 & L2 & L3 & L4). destruct (vital_fields _ _ L1) as (_ & _ & _ & _ & _ & _ & S9).
  assert (Hu : unsent p5 = unsent p) by congruence. rewrite G2, F4, E2 in El.
  exists p5, w4. split; [done|]. split; [|split; [eapply vital_nums; [exact L1|by rewrite L2|done]|unfold stays in *; congruence]].
  split; [| |done]; unfold addrs, segments_of; rewrite Hu, L4.
  - rewrite El in Hs. rewrite !Forall_app in *. tauto.
  - eapply holds_perm; [|exact Hh4]. rewrite fmap_app, app_assoc. apply Permutation_app_tail, Permutation_app_comm.
Qed.

Lemma estimate_rtt_ok live i p (w : net P PS) :
  block_ok live p w -> nums_ok p ->
  block_ok live (estimate_rtt tcp_ticks i p) w /\ nums_ok (estimate_rtt tcp_ticks i p) /\ stays p (estimate_rtt tcp_ticks i p).
Proof.
  intros Hb Hn. unfold estimate_rtt. destruct (_ && _); [|done]. cbn zeta.
  match goal with |- block_ok _ ?x _ /\ _ => set (p1 := x) end.
  assert (E : vital p1 = vital p /\ flags p1 = flags p /\ unsent p1 = unsent p /\ unacked p1 = unacked p) by done.
  clearbody p1. destruct E as (E1 & E2 & E3 & E4). destruct (vital_fields _ _ E1) as (_ & _ & _ & _ & _ & _ & Hs).
  split; [eapply block_ok_same; [exact Hb|done|done|apply Hb|done]|]. split; [|done].
  eapply vital_nums; [exact E1|by rewrite E2|done].
Qed.

Lemma receive_ack_ok i live p (w : net P PS) :
  in_u16 (wnd (in_hdr i)) -> block_ok live p w -> nums_ok p ->
  exists p' w', receive_ack tcp_ticks i p w = Some (p', w') /\ block_ok live p' w' /\ nums_ok p' /\ stays p p'.
Proof.
  intros Hw Hb Hn. unfold receive_ack. set (edge := u32 _). clearbody edge.
  destruct (update_window_ok live i p w Hw Hb Hn) as (Hb1 & Hn1 & S1). set (p1 := update_window i p) in *. clearbody p1.
  set (r := if TCP_SEQ_LEQ _ _ then _ else _).
  assert (Hr : exists p2 w2, r = Some (p2, w2) /\ block_ok live p2 w2 /\ nums_ok p2 /\ stays p1 p2).
  { unfold r. destruct (TCP_SEQ_LEQ _ _); [|destruct (TCP_SEQ_BETWEEN _ _ _)].
    - destruct (duplicate_ack_ok live i edge p1 w Hb1 Hn1) as (A1 & A2 & A3). eexists _, _. by split_and!.
    - by apply new_ack_ok.
    - set (p2 := p1 <| acked := 0 |>).
      assert (E : vital p2 = vital p1 /\ flags p2 = flags p1 /\ unsent p2 = unsent p1 /\ unacked p2 = unacked p1) by done.
      clearbody p2. destruct E as (E1 & E2 & E3 & E4). destruct (vital_fields _ _ E1) as (_ & _ & _ & _ & _ & _ & Hs).
      exists p2, w. split; [done|]. split; [eapply block_ok_same; [exact Hb1|done|done|apply Hb1|done]|]. split; [|done].
      eapply vital_nums; [exact E1|by rewrite E2|done]. }
  clearbody r. destruct Hr as (p2 & w2 & -> & Hb2 & Hn2 & S3). cbn [mbind option_bind].
  destruct Hb2 as [Hs Hh Hok]. unfold segments_of in Hs. unfold addrs, segments_of in Hh.
  destruct (ack_loop_ok (fun s => TCP_SEQ_BETWEEN (in_ackno i) (segment_end s) (snd_nxt p2)) (unsent p2) (fmap (M:=list) sg_addr (unacked p2) ++ live) p2 w2)
    as (l1 & l2 & p3 & w3 & -> & El & Hh3 & Hok3 & K1 & K2 & K3 & K4); [by rewrite app_assoc, <- fmap_app|done|].
  cbn [mbind option_bind]. set (p4 := if bool_decide _ && bool_decide _ then _ else p3).
  assert (E : vital p4 = vital p3 /\ flags p4 = flags p3 /\ unacked p4 = unacked p3) by (unfold p4; by destruct (bool_decide _ && _)).
  clearbody p4. destruct E as (F1 & F2 & F4). set (p5 := p4 <| unsent := l2 |>).
  assert (E : vital p5 = vital p4 /\ flags p5 = flags p4 /\ unsent p5 = l2 /\ unacked p5 = unacked p4) by done.
  clearbody p5. destruct E as (G1 & G2 & G3 & G4).
  assert (Hv : vital p5 = vital p2) by congruence. assert (Hf : flags p5 = flags p2) by congruence.
  destruct (vital_fields _ _ Hv) as (_ & _ & _ & _ & _ & _ & S5). assert (Hu : unacked p5 = unacked p2) by congruence.
  assert (Hb5 : block_ok live p5 w3).
  { split; [| |done]; unfold addrs, segments_of; rewrite G3, Hu.
    - rewrite El in Hs. rewrite !Forall_app in *. tauto.
    - by rewrite fmap_app, <- app_assoc. }
  destruct (estimate_rtt_ok live i p5 w3 Hb5) as (Hb6 & Hn6 & S7); [eapply vital_nums; [exact Hv|by rewrite Hf|done]|].
  eexists _, w3. split; [done|]. split; [done|]. split; [done|]. unfold stays in *; congruence.
Qed.

(** ** Data *)

(** The segment that is processed. *)
Record input_ok (i : input) : Prop := {
  io_wnd : in_u16 (wnd (in_hdr i)); io_seqno : in_u32 (in_seqno i);
  io_p : exists q, inseg_p i = Some q /\ Forall (fun b => Z.of_nat (length b) <= 32768) (segs q) /\
           inseg_len i = Z.of_nat (length (data q));
  io_len : inseg_len i <= 65534; io_tcplen : in_tcplen i = u16 (tcplen_of (inseg_len i) (in_hdr i))
}.

(** A segment of length one that is 2^31 away from the next byte: the offset is -2^31
    then, and [-off] is not defined. *)
Definition antipodal (i : input) (p : tcp_pcb) : bool :=
  (in_tcplen i =? 1) && (in_seqno i =? u32 (rcv_nxt p + 2147483648)).

Lemma between_front i p :
  in_u32 (rcv_nxt p) -> in_u32 (in_seqno i) -> 0 < in_tcplen i <= 65535 -> antipodal i p = false ->
  TCP_SEQ_BETWEEN (rcv_nxt p) (u32 (in_seqno i + 1)) (u32 (in_seqno i + in_tcplen i - 1)) = true ->
  0 < u32 (rcv_nxt p - in_seqno i) < in_tcplen i.
Proof.
  intros Hr Hs Ht Ha Hb. unfold TCP_SEQ_BETWEEN, TCP_SEQ_GEQ, TCP_SEQ_LEQ in Hb. apply andb_true_iff in Hb as [H1 H2].
  rewrite u32_sub_r in H1, H2. set (off := u32 (rcv_nxt p - in_seqno i)).
  assert (Hoff : in_u32 off) by apply u32_range. unfold in_u32 in *.
  replace (u32 (rcv_nxt p - (in_seqno i + 1))) with (u32 (off - 1)) in H1 by (unfold off; rewrite u32_sub_l; f_equal; lia).
  replace (u32 (rcv_nxt p - (in_seqno i + in_tcplen i - 1))) with (u32 (off - (in_tcplen i - 1))) in H2
    by (unfold off; rewrite u32_sub_l; f_equal; lia).
  apply Z.leb_le in H1, H2. destruct (decide (off = 2147483648)) as [E|].
  - destruct (decide (in_tcplen i = 1)) as [E1|].
    + exfalso. unfold antipodal in Ha. rewrite E1 in Ha. cbn [Z.eqb Pos.eqb andb] in Ha. apply Z.eqb_neq in Ha. apply Ha.
      unfold off, u32 in *. zlia.
    + exfalso. revert H2. rewrite E, s32_small by lia. lia.
  - assert (0 < off < 2147483648).
    { destruct (decide (off = 0)) as [E|].
      - exfalso. rewrite E in H1. by vm_compute in H1.
      - split; [lia|]. destruct (decide (off < 2147483648)); [done|]. exfalso. revert H1.
        rewrite u32_small by (unfold in_u32; lia). unfold s32, swrap. change (2 ^ (32 - 1)) with 2147483648. change (2 ^ 32) with 4294967296. zlia. }
    split; [lia|]. destruct (decide (off < in_tcplen i)); [done|]. exfalso. revert H2. rewrite s32_small by lia. lia.
Qed.

Lemma trim_front_ok off l :
  (off <= length (mjoin l))%nat -> l <> [] -> Forall (fun b => Z.of_nat (length b) <= 32768) l ->
  exists l', trim_front off l = Some l' /\ Z.of_nat (length (mjoin l')) = Z.of_nat (length (mjoin l)) - Z.of_nat off.
Proof.
  revert off. induction l as [|s l IH]; intros off Hoff Hl Hf; [done|]. cbn [trim_front].
  rewrite mjoin_cons in *. rewrite length_app in *. apply Forall_cons in Hf as [Hs Hf].
  destruct (Nat.ltb_spec (length s) off) as [Hlt|Hge].
  - destruct (IH (off - length s)%nat) as (l' & -> & E); [lia| |done|].
    { intros ->. cbn in Hoff. lia. }
    exists ([] :: l'). split; [done|]. rewrite mjoin_cons, app_nil_l. lia.
  - destruct (Z.ltb_spec 32768 (Z.of_nat off)); [lia|]. eexists. split; [done|].
    rewrite mjoin_cons, length_app, length_drop. lia.
Qed.

Lemma tcplen_range i : input_ok i -> 0 <= inseg_len i /\ 0 <= in_tcplen i <= inseg_len i + 1 /\ in_tcplen i <= 65535.
Proof.
  intros [_ _ (q & _ & _ & El) Hl Ht]. rewrite Ht, TcpRecv.tcplen_flags, El in *.
  rewrite u16_small; destruct (_ || _); unfold in_u16; lia.
Qed.

Lemma ack_now_ok live p (w : net P PS) :
  block_ok live p w -> nums_ok p -> block_ok live (tcp_ack_now p) w /\ nums_ok (tcp_ack_now p) /\ stays p (tcp_ack_now p).
Proof.
  intros Hb Hn. set (p1 := tcp_ack_now p). assert (E : vital p1 = vital p /\ unsent p1 = unsent p /\ unacked p1 = unacked p /\
    (flag_set (flags p1) TF_INFR = true -> flag_set (flags p) TF_INFR = true)) by (split_and!; [done..|by apply infr_or]).
  clearbody p1. destruct E as (E1 & E2 & E3 & E4). destruct (vital_fields _ _ E1) as (_ & _ & _ & _ & _ & _ & Hs).
  split; [eapply block_ok_same; [exact Hb|done|done|apply Hb|done]|]. split; [by eapply vital_nums|done].
Qed.

(** The part of the segment that is new. *)
Lemma trim_first_ok i live p (w : net P PS) :
  input_ok i -> antipodal i p = false -> 0 < in_tcplen i -> block_ok live p w -> nums_ok p ->
  exists i' p', trim_first_edge i p = Some (i', p') /\ (exists q, inseg_p i' = Some q) /\ recv_flags i' = recv_flags i /\ block_ok live p' w /\ nums_ok p' /\ stays p p'.
Proof.
  intros Hi Ha Ht Hb Hn. destruct (tcplen_range i Hi) as (L1 & L2 & L3). unfold trim_first_edge.
  destruct (io_p _ Hi) as (q & Eq & Hf & El).
  destruct (TCP_SEQ_BETWEEN _ _ _) eqn:Eb.
  - apply between_front in Eb; [|apply Hn|apply Hi|lia|done]. rewrite Eq. cbn [mbind option_bind].
    destruct (trim_front_ok (Z.to_nat (u32 (rcv_nxt p - in_seqno i))) (segs q)) as (l & -> & _); [unfold data in El; lia| |done|].
    { intros E. unfold data in El. rewrite E in El. cbn in El. lia. }
    cbn [mbind option_bind]. eexists _, p. split; [done|]. split; [by eexists|]. split; done.
  - eexists i, _. split; [done|]. split; [by exists q|]. split; [done|]. destruct (TCP_SEQ_LT _ _); [|done]. by apply ack_now_ok.
Qed.

Lemma tcp_ack_infr p : flag_set (flags (tcp_ack p)) TF_INFR = true -> flag_set (flags p) TF_INFR = true.
Proof.
  unfold tcp_ack. destruct (flag_set (flags p) TF_ACK_DELAY); intros E.
  - apply (infr_or TF_ACK_NOW) in E; [|done]. by apply infr_clear in E.
  - by apply (infr_or TF_ACK_DELAY) in E.
Qed.

(** The processing says nothing but that there was a FIN. *)
Definition only_fin (i i' : input) : Prop :=
  recv_flags i' = recv_flags i \/ recv_flags i' = flag_or TF_GOT_FIN (recv_flags i).
Lemma take_segment_ok i live p (w : net P PS) :
  (exists q, inseg_p i = Some q) -> block_ok live p w -> nums_ok p ->
  exists i' p', take_segment i p = Some (i', p') /\ only_fin i i' /\ block_ok live p' w /\ nums_ok p' /\ same_end p p'.
Proof.
  intros (q & Eq) Hb Hn. unfold take_segment.
  assert (Ht : exists i1 q1, trim_last_edge i p = Some i1 /\ inseg_p i1 = Some q1 /\ recv_flags i1 = recv_flags i).
  { unfold trim_last_edge. cbn zeta. destruct (rcv_wnd p <? _); [|eexists _, q; by split].
    cbn [set set_in_tcplen inseg_p]. rewrite Eq. cbn [mbind option_bind]. by eexists _, _. }
  destruct Ht as (i1 & q1 & -> & Eq1 & Ef1). cbn [mbind option_bind].
  set (p1 := p <| rcv_nxt := _ |> <| rcv_wnd := u16 (rcv_wnd p - in_tcplen i1) |>).
  destruct (update_ann_shape p1) as (x & Ex & _). rewrite Ex, Eq1. cbn [mbind option_bind]. clear Ex.
  set (p2 := p1 <| rcv_ann_wnd := x |>).
  assert (E : nums_ok p2 /\ same_end p p2 /\ unsent p2 = unsent p /\ unacked p2 = unacked p).
  { split_and!; try done. destruct Hn as [N1 N2 N3 N4 N5 N6 N7]. split; try done; [apply u32_range|apply u16_range]. }
  clearbody p2. clear p1 x. destruct E as (Hn2 & S1 & E1 & E2).
  set (p3 := tcp_ack p2). assert (F : vital p3 = vital p2 /\ unsent p3 = unsent p2 /\ unacked p3 = unacked p2 /\
    (flag_set (flags p3) TF_INFR = true -> flag_set (flags p2) TF_INFR = true)).
  { unfold p3. split_and!; [..|apply tcp_ack_infr]; destruct (tcp_ack_shape p2) as (y & ->); done. }
  clearbody p3. destruct F as (F1 & F2 & F3 & F4). destruct (vital_fields _ _ F1) as (_ & _ & _ & _ & _ & _ & S3).
  set (i2 := if 0 <? tot_len q1 then _ else i1). assert (Ef2 : recv_flags i2 = recv_flags i) by (unfold i2; by destruct (0 <? tot_len q1)).
  clearbody i2. eexists _, p3. split; [done|]. split.
  { unfold only_fin. rewrite <- Ef2. destruct (has_flag (in_hdr i2) TCP_FIN); [by right|by left]. }
  split; [eapply block_ok_same; [exact Hb|congruence|congruence|apply Hb|done]|].
  split; [by eapply vital_nums|]. unfold same_end, stays in *. congruence.
Qed.

Lemma receive_data_ok i live p (w : net P PS) :
  input_ok i -> antipodal i p = false -> block_ok live p w -> nums_ok p ->
  exists i' p' w', receive_data output_err frag_ram frag_ref ram i p w = Some (i', p', w') /\
    only_fin i i' /\ block_ok live p' w' /\ nums_ok p' /\ same_end p p'.
Proof.
  intros Hi Ha Hb Hn. unfold receive_data.
  assert (Hack : forall i1 p1, recv_flags i1 = recv_flags i -> block_ok live p1 w -> nums_ok p1 -> same_end p p1 ->
    exists (i' : input) (p' : tcp_pcb) (w' : net P PS),
      ('(_, p2, w2) ← tcp_send_empty_ack output_err frag_ram frag_ref ram p1 w; Some (i1, p2, w2)) = Some (i', p', w') /\
      only_fin i i' /\ block_ok live p' w' /\ nums_ok p' /\ same_end p p').
  { intros i0 p1 Ef Hb1 Hn1 S1. destruct (empty_ack_ok live p1 w Hb1) as (r & p2 & w2 & -> & Hb2 & Hf).
    cbn [mbind option_bind]. eexists i0, p2, w2. split; [done|]. split; [by left|]. split; [done|]. split; [by eapply frame_nums|].
    destruct (frame_state _ _ Hf) as (G1 & G2 & G3 & _ & G4). unfold same_end in *. congruence. }
  destruct (Z.ltb_spec 0 (in_tcplen i)) as [Ht|]; cbn [andb]; [destruct (_ <? _)|].
  - destruct (trim_first_ok i live p w Hi Ha Ht Hb Hn) as (i1 & p1 & -> & Hq & Ef & Hb1 & Hn1 & Hs1%stays_end). cbn [mbind option_bind].
    destruct (TCP_SEQ_BETWEEN _ _ _); [|by apply Hack]. destruct (rcv_nxt p1 =? in_seqno i1); [|by apply Hack].
    destruct (take_segment_ok i1 live p1 w Hq Hb1 Hn1) as (i2 & p2 & -> & Hf2 & Hb2 & Hn2 & T1). cbn [mbind option_bind].
    eexists i2, p2, w. split; [done|]. split; [unfold only_fin in *; by rewrite <- Ef|]. split; [done|]. split; [done|]. by eapply end_trans.
  - eexists i, _, w. split; [done|]. split; [by left|]. destruct (negb _); [|done].
    destruct (ack_now_ok live p w Hb Hn) as (A1 & A2 & A3%stays_end). done.
  - eexists i, _, w. split; [done|]. split; [by left|]. destruct (negb _); [|done].
    destruct (ack_now_ok live p w Hb Hn) as (A1 & A2 & A3%stays_end). done.
Qed.

Lemma tcp_receive_ok i live p (w : net P PS) :
  input_ok i -> antipodal i p = false -> block_ok live p w -> nums_ok p ->
  exists i' p' w', tcp_receive output_err frag_ram frag_ref ram tcp_ticks i p w = Some (i', p', w') /\
    only_fin i i' /\ block_ok live p' w' /\ nums_ok p' /\ same_end p p'.
Proof.
  intros Hi Ha Hb Hn. unfold tcp_receive.
  assert (Hr : exists p1 w1, (if is_ack i then receive_ack tcp_ticks i p w else Some (p, w)) = Some (p1, w1) /\
    block_ok live p1 w1 /\ nums_ok p1 /\ stays p p1).
  { destruct (is_ack i); [apply receive_ack_ok; try done; apply Hi|by exists p, w]. }
  destruct Hr as (p1 & w1 & -> & Hb1 & Hn1 & S1). cbn [mbind option_bind].
  destruct (receive_data_ok i live p1 w1 Hi) as (i' & p' & w' & -> & Hf' & Hb' & Hn' & S3); [|done|done|].
  { unfold antipodal, stays in *. injection S1 as _ _ _ _ _ _ E. by rewrite E. }
  exists i', p', w'. split; [done|]. split; [done|]. split; [done|]. split; [done|]. unfold same_end, stays in *. congruence.
Qed.

(** ** Options *)

(** The options are bytes of the first buffer, of which one more may be read. *)
Record opts_ok (i : input) : Prop := {
  oo_hrf : in_u16 (_hdrlen_rsvd_flags (in_hdr i)); oo_bytes : bytes (in_opts i ++ stale);
  oo_len : (TCPH_HDRLEN (in_hdr i) - 5) * 4 < Z.of_nat (length (in_opts i ++ stale))
}.

Lemma rd_byte (l : list Z) k : bytes l -> 0 <= k < Z.of_nat (length l) -> exists x, rd l k = Some x /\ in_u8 x.
Proof.
  intros Hl Hk. unfold rd. destruct (Z.ltb_spec k 0); [lia|].
  destruct (lookup_lt_is_Some_2 l (Z.to_nat k)) as [x Hx]; [lia|]. exists x. split; [done|].
  unfold bytes in Hl. rewrite Forall_lookup in Hl. by eapply Hl.
Qed.

(** Every option moves the position on, so the loop ends within [max_c] rounds; the
    segment size is between 1 and [TCP_MSS]. *)
Lemma parseopt_loop_ok fuel (opts : list Z) c max_c p :
  bytes opts -> 0 <= c -> max_c <= 44 -> max_c < Z.of_nat (length opts) -> max_c - c <= Z.of_nat fuel ->
  0 < mss p <= TCP_MSS ->
  exists m, parseopt_loop fuel opts c max_c p = Some (p <| mss := m |>) /\ 0 < m <= TCP_MSS.
Proof.
  intros Ho Hc Hm Hl. revert c p Hc. induction fuel as [|fuel IH]; intros c p Hc Hf Hp; cbn [parseopt_loop];
    (assert (Hend : exists m, Some p = Some (p <| mss := m |>) /\ 0 < m <= TCP_MSS) by (exists (mss p); by destruct p)).
  { destruct (Z.ltb_spec c max_c); [lia|exact Hend]. }
  destruct (Z.ltb_spec c max_c); [|exact Hend]. cbn [negb].
  assert (Hstep : forall k p, 0 < k <= 255 -> 0 < mss p <= TCP_MSS ->
    exists m, parseopt_loop fuel opts (u16 (c + k)) max_c p = Some (p <| mss := m |>) /\ 0 < m <= TCP_MSS).
  { intros k p' Hk Hp'. apply IH; [apply u16_range| |done]. rewrite u16_small by (unfold in_u16; lia). lia. }
  destruct (rd_byte opts c Ho) as (opt & -> & Hopt); [lia|]. cbn [mbind option_bind].
  destruct (opt =? 0); [exact Hend|]. destruct (opt =? 1); [by apply Hstep|].
  destruct (rd_byte opts (c + 1) Ho) as (l & -> & Hlen); [lia|]. unfold in_u8 in Hlen. destruct (opt =? 2); cbn [mbind option_bind].
  - destruct (negb (l =? 4) || (max_c <? c + 4)) eqn:E; [exact Hend|].
    apply orb_false_iff in E as [_ E]. apply Z.ltb_ge in E.
    destruct (rd_byte opts (c + 2) Ho) as (b1 & -> & Hb1); [lia|]. cbn [mbind option_bind].
    destruct (rd_byte opts (c + 3) Ho) as (b2 & -> & Hb2); [lia|]. cbn [mbind option_bind]. unfold in_u8 in *.
    set (x := Z.lor (Z.shiftl b1 8) b2). assert (Hx : 0 <= x) by (apply Z.lor_nonneg; split; [apply Z.shiftl_nonneg|]; lia).
    set (m := if (TCP_MSS <? x) || (x =? 0) then TCP_MSS else x).
    assert (Hm0 : 0 < m <= TCP_MSS).
    { unfold m. destruct (Z.ltb_spec TCP_MSS x), (Z.eqb_spec x 0); cbn [orb]; unfold TCP_MSS in *; lia. }
    clearbody m. destruct (Hstep 4 (p <| mss := m |>)) as (m' & -> & Hm'); [lia|done|]. by exists m'.
  - destruct (Z.eqb_spec l 0); [exact Hend|]. apply Hstep; [lia|done].
Qed.

Lemma tcp_parseopt_ok i p :
  opts_ok i -> 0 < mss p <= TCP_MSS ->
  exists m, tcp_parseopt stale i p = Some (p <| mss := m |>) /\ 0 < m <= TCP_MSS.
Proof.
  intros [Hh Hb Hl] Hp. unfold tcp_parseopt. destruct (Z.ltb_spec 0x5 (TCPH_HDRLEN (in_hdr i))).
  - assert (Hr : TCPH_HDRLEN (in_hdr i) < 16).
    { unfold TCPH_HDRLEN, in_u16 in *. rewrite Z.shiftr_div_pow2 by lia. change (2 ^ 12) with 4096. zlia. }
    assert (E : u16 (Z.shiftl (TCPH_HDRLEN (in_hdr i) - 5) 2) = (TCPH_HDRLEN (in_hdr i) - 5) * 4).
    { rewrite Z.shiftl_mul_pow2 by lia. change (2 ^ 2) with 4. apply u16_small. unfold in_u16. lia. }
    rewrite E. apply parseopt_loop_ok; try done; lia.
  - exists (mss p). by destruct p.
Qed.
End safe.

End TcpSafe.
