(* ===== verification/Tcp.v ===== *)
(** * TCP: the control blocks and their connections (lwip/core/tcp.c, tcp_in.c)

    The state of TCP: the blocks in memory, the four lists they are on, the
    timers and the counters.  Opening, closing and aborting connections, the
    demultiplexing of segments and the state machine work on it.  The functions of
    the application are called with the whole state and may change it; which
    function is called with which arguments is recorded. *)

From stdpp Require Import gmap.
From S2P Require Import Prelude LwipDef InetChksum IpAddr Mem Memp Pbuf Packet IpFrag Ip TcpDef TcpOut TcpIn.

#[local] Open Scope Z_scope.

Module Tcp.
Import LwipDef InetChksum IpAddr Packet Ip TcpDef.
#[local] Open Scope update_scope.

Definition TCP_LOCAL_PORT_RANGE_START : Z := 0xc000.
Definition TCP_LOCAL_PORT_RANGE_END : Z := 0xffff.
Definition tcp_backoff : list Z := [1; 2; 3; 4; 5; 6; 7; 7; 7; 7; 7; 7; 7].
Definition tcp_persist_backoff : list Z := [3; 6; 12; 24; 48; 96; 120].

(** A call of a function of the application, with the function, its argument and
    the block. *)
Inductive call :=
  | Accept (f arg pcb : Z)
  | Recv (f arg pcb : Z) (p : option (pbuf * Z))
  | Sent (f arg pcb space : Z)
  | Connected (f arg pcb : Z)
  | Poll (f arg pcb : Z)
  | Err (f arg err : Z).

(** A pointer to a block: of a connection or of a listener. *)
Inductive handle := Conn (pcb : Z) | Listener (lpcb : Z).

Section tcp.
Context {P PS PC PL : Type} `{Pool P} `{Pool PS} `{Pool PC} `{Pool PL}.

Record tcp := mkTcp {
  pcbs : gmap Z tcp_pcb;            (** the blocks of connections *)
  lpcbs : gmap Z tcp_pcb_listen;    (** the blocks of listeners *)
  tcp_bound_pcbs : list Z; tcp_listen_pcbs : list Z; tcp_active_pcbs : list Z; tcp_tw_pcbs : list Z;
  tcp_active_pcbs_changed : bool; tcp_input_pcb : option Z;
  tcp_port : Z; tcp_ticks : Z; tcp_timer : Z; tcp_timer_ctr : Z; iss : Z;
  conn_pool : PC; listen_pool : PL; nt : TcpOut.net P PS;
  calls : list call
}.
Ltac tcp_setter proj :=
  make_setter (fun t =>
    mkTcp (pcbs t) (lpcbs t) (tcp_bound_pcbs t) (tcp_listen_pcbs t) (tcp_active_pcbs t) (tcp_tw_pcbs t)
      (tcp_active_pcbs_changed t) (tcp_input_pcb t) (tcp_port t) (tcp_ticks t) (tcp_timer t) (tcp_timer_ctr t)
      (iss t) (conn_pool t) (listen_pool t) (nt t) (calls t)) proj.
#[export] Instance set_pcbs : Setter pcbs := ltac:(tcp_setter pcbs).
#[export] Instance set_lpcbs : Setter lpcbs := ltac:(tcp_setter lpcbs).
#[export] Instance set_bound : Setter tcp_bound_pcbs := ltac:(tcp_setter tcp_bound_pcbs).
#[export] Instance set_listen : Setter tcp_listen_pcbs := ltac:(tcp_setter tcp_listen_pcbs).
#[export] Instance set_active : Setter tcp_active_pcbs := ltac:(tcp_setter tcp_active_pcbs).
#[export] Instance set_tw : Setter tcp_tw_pcbs := ltac:(tcp_setter tcp_tw_pcbs).
#[export] Instance set_changed : Setter tcp_active_pcbs_changed := ltac:(tcp_setter tcp_active_pcbs_changed).
#[export] Instance set_input_pcb : Setter tcp_input_pcb := ltac:(tcp_setter tcp_input_pcb).
#[export] Instance set_port : Setter tcp_port := ltac:(tcp_setter tcp_port).
#[export] Instance set_ticks : Setter tcp_ticks := ltac:(tcp_setter tcp_ticks).
#[export] Instance set_timer : Setter tcp_timer := ltac:(tcp_setter tcp_timer).
#[export] Instance set_timer_ctr : Setter tcp_timer_ctr := ltac:(tcp_setter tcp_timer_ctr).
#[export] Instance set_iss : Setter iss := ltac:(tcp_setter iss).
#[export] Instance set_conn_pool : Setter conn_pool := ltac:(tcp_setter conn_pool).
#[export] Instance set_listen_pool : Setter listen_pool := ltac:(tcp_setter listen_pool).
#[export] Instance set_nt : Setter nt := ltac:(tcp_setter nt).
#[export] Instance set_calls : Setter calls := ltac:(tcp_setter calls).

(** ** Computations on the state

    No result stands for what C leaves undefined: the access to a block that is
    not in memory. *)
Definition M (A : Type) : Type := tcp -> option (A * tcp).
Definition ret {A} (x : A) : M A := fun t => Some (x, t).
Definition bind {A B} (m : M A) (k : A -> M B) : M B := fun t => '(x, t) ← m t; k x t.
Definition get {A} (f : tcp -> A) : M A := fun t => Some (f t, t).
Definition lift {A} (x : option A) : M A := fun t => x ← x; Some (x, t).
Definition modify (f : tcp -> tcp) : M unit := fun t => Some (tt, f t).
#[local] Notation "'let!' x := m 'in' k" := (bind m (fun x => k)) (at level 10, x name, k at level 200).
#[local] Notation "m ;; k" := (bind m (fun _ => k)) (at level 100, right associativity).
Definition when (b : bool) (m : M unit) : M unit := if b then m else ret tt.

Definition get_pcb (a : Z) : M tcp_pcb := fun t => p ← pcbs t !! a; Some (p, t).
Definition put_pcb (a : Z) (p : tcp_pcb) : M unit := modify (fun t => t <| pcbs ::= <[a := p]> |>).
Definition update_pcb (a : Z) (f : tcp_pcb -> tcp_pcb) : M unit := let! p := get_pcb a in put_pcb a (f p).
Definition on_net (f : TcpOut.net P PS -> option (TcpOut.net P PS)) : M unit :=
  fun t => w ← f (nt t); Some (tt, t <| nt := w |>).

Variable output_err : nat -> Z.
Variables frag_ram frag_ref : nat -> nat -> bool.
Variable ram : nat -> bool.
Variable stale : list Z.
(** The functions of the application. *)
Variable app : call -> tcp -> option (Z * tcp).

Definition call_app (c : call) : M Z := fun t => app c (t <| calls ::= fun l => l ++ [c] |>).

(** ** The functions on one block *)

(** A function of [TcpOut] that changes the block and the layers below. *)
Definition on_pcb {A} (a : Z) (f : tcp_pcb -> TcpOut.net P PS -> option (A * tcp_pcb * TcpOut.net P PS)) : M A :=
  fun t =>
    p ← pcbs t !! a;
    '(x, p, w) ← f p (nt t);
    Some (x, t <| pcbs ::= <[a := p]> |> <| nt := w |>).
Definition no_value {A B} (r : option (A * B)) : option (unit * A * B) := '(a, b) ← r; Some (tt, a, b).

Definition output (a : Z) : M Z :=
  let! ticks := get tcp_ticks in
  let! ip := get tcp_input_pcb in
  on_pcb a (TcpOut.tcp_output output_err frag_ram frag_ref ram ticks (bool_decide (ip = Some a))).
Definition enqueue_flags (a flags : Z) : M Z := on_pcb a (fun p => TcpOut.tcp_enqueue_flags ram p flags).
Definition send_fin (a : Z) : M Z := on_pcb a (TcpOut.tcp_send_fin ram).
Definition write (a : Z) (arg : list Z) (apiflags : Z) : M Z := on_pcb a (fun p => TcpOut.tcp_write ram p arg apiflags).
Definition rst (seqno ackno local_ip remote_ip local_port remote_port : Z) : M unit :=
  on_net (TcpOut.tcp_rst output_err frag_ram frag_ref ram seqno ackno local_ip remote_ip local_port remote_port).
(** A reset of the connection of the block. *)
Definition rst_pcb (p : tcp_pcb) : M unit :=
  rst (snd_nxt p) (rcv_nxt p) (local_ip p) (remote_ip p) (local_port p) (remote_port p).
Definition free_pbuf (q : pbuf) : M unit := on_net (fun w => Some (TcpOut.pbuf_free q w)).

(** ** The lists *)

(** A block is taken out of the chain. *)
Fixpoint rmv (a : Z) (l : list Z) : list Z :=
  match l with
  | [] => []
  | b :: l => if b =? a then l else b :: rmv a l
  end.
(** What is left of a chain when the [next] of a block becomes null. *)
Fixpoint cut (a : Z) (l : list Z) : list Z :=
  match l with
  | [] => []
  | b :: l => if b =? a then [b] else b :: cut a l
  end.

(** A block that is on the list already would become part of a cycle, which no
    walk along the list leaves: no result. *)
Definition TCP_REG (l : tcp -> list Z) `{!Setter l} (a : Z) : M unit := fun t =>
  if bool_decide (a ∈ l t) then None else Some (tt, t <| l ::= cons a |>).
(** The [next] of the block becomes null also when it is not on this list: then the
    list that it is on ends behind it. *)
Definition TCP_RMV (l : tcp -> list Z) `{!Setter l} (a : Z) : M unit := modify (fun t =>
  if bool_decide (a ∈ l t) then t <| l ::= rmv a |>
  else t <| tcp_bound_pcbs ::= cut a |> <| tcp_active_pcbs ::= cut a |> <| tcp_tw_pcbs ::= cut a |>).
Definition list_changed : M unit := modify (fun t => t <| tcp_active_pcbs_changed := true |>).
Definition TCP_REG_ACTIVE (a : Z) : M unit := TCP_REG tcp_active_pcbs a;; list_changed.
Definition TCP_RMV_ACTIVE (a : Z) : M unit := TCP_RMV tcp_active_pcbs a;; list_changed.

(** [memp_free] of a block. *)
Definition free_pcb (a : Z) : M unit :=
  fun t => _ ← pcbs t !! a; m ← release (conn_pool t) a; Some (tt, t <| pcbs ::= delete a |> <| conn_pool := m |>).
Definition free_lpcb (a : Z) : M unit :=
  fun t => _ ← lpcbs t !! a; m ← release (listen_pool t) a; Some (tt, t <| lpcbs ::= delete a |> <| listen_pool := m |>).

Definition tcp_pcb_purge (a : Z) : M unit :=
  let! p := get_pcb a in
  if bool_decide (state p ∈ [CLOSED; TIME_WAIT; LISTEN]) then ret tt
  else
    match refused_data p with Some (q, _) => free_pbuf q | None => ret tt end;;
    on_net (TcpOut.tcp_segs_free (unsent p));;
    on_net (TcpOut.tcp_segs_free (unacked p));;
    put_pcb a (p <| refused_data := None |> <| rtime := -1 |> <| unsent := [] |> <| unacked := [] |>
                 <| unsent_oversize := 0 |>).

Definition tcp_pcb_remove (l : tcp -> list Z) `{!Setter l} (a : Z) : M unit :=
  TCP_RMV l a;;
  tcp_pcb_purge a;;
  let! p := get_pcb a in
  when (negb (bool_decide (state p ∈ [TIME_WAIT; LISTEN])) && flag_set (flags p) TF_ACK_DELAY)
    (update_pcb a (fun p => p <| flags ::= flag_or TF_ACK_NOW |>);; let! _ := output a in ret tt);;
  update_pcb a (fun p => p <| state := CLOSED |>).
Definition TCP_PCB_REMOVE_ACTIVE (a : Z) : M unit := tcp_pcb_remove tcp_active_pcbs a;; list_changed.

(** ** Aborting *)

Definition event_err (f : option Z) (arg err : Z) : M unit :=
  match f with
  | Some f => let! _ := call_app (Err f arg err) in ret tt
  | None => ret tt
  end.

Definition tcp_abandon (a : Z) (reset : bool) : M unit :=
  let! p := get_pcb a in
  if bool_decide (state p = TIME_WAIT) then tcp_pcb_remove tcp_tw_pcbs a;; free_pcb a
  else
    TCP_PCB_REMOVE_ACTIVE a;;
    let! p' := get_pcb a in
    on_net (TcpOut.tcp_segs_free (unacked p'));;
    on_net (TcpOut.tcp_segs_free (unsent p'));;
    when reset (rst (snd_nxt p) (rcv_nxt p) (local_ip p') (remote_ip p') (local_port p') (remote_port p'));;
    free_pcb a;;
    event_err (errf p) (callback_arg p) ERR_ABRT.
Definition tcp_abort (a : Z) : M unit := tcp_abandon a true.

(** ** Closing *)

Definition tcp_close_shutdown (a : Z) (rst_on_unacked_data : bool) : M Z :=
  let! p := get_pcb a in
  if rst_on_unacked_data && bool_decide (state p ∈ [ESTABLISHED; CLOSE_WAIT]) &&
     (bool_decide (refused_data p <> None) || negb (rcv_wnd p =? TCP_WND))
  then
    rst_pcb p;;
    tcp_pcb_purge a;;
    TCP_RMV_ACTIVE a;;
    (if bool_decide (state p = ESTABLISHED)
     then update_pcb a (fun p => p <| state := TIME_WAIT |>);; TCP_REG tcp_tw_pcbs a
     else free_pcb a);;
    ret ERR_OK
  else
    let fin s :=
      let! err := send_fin a in
      when (err =? ERR_OK)
        (update_pcb a (fun p => p <| state := s |>);; let! _ := output a in ret tt);;
      ret err in
    match state p with
    | CLOSED =>
        when (negb (local_port p =? 0)) (TCP_RMV tcp_bound_pcbs a);;
        free_pcb a;; ret ERR_OK
    | SYN_SENT => TCP_PCB_REMOVE_ACTIVE a;; free_pcb a;; ret ERR_OK
    | SYN_RCVD | ESTABLISHED => fin FIN_WAIT_1
    | CLOSE_WAIT => fin LAST_ACK
    | _ => ret ERR_OK
    end.

Definition tcp_close (h : handle) : M Z :=
  match h with
  | Conn a =>
      update_pcb a (fun p => p <| flags ::= flag_or TF_RXCLOSED |>);;
      tcp_close_shutdown a true
  | Listener a =>
      modify (fun t => t <| tcp_listen_pcbs ::= rmv a |>);; free_lpcb a;; ret ERR_OK
  end.

Definition tcp_shutdown (h : handle) (shut_rx shut_tx : bool) : M Z :=
  match h with
  | Listener a => ret ERR_CONN
  | Conn a =>
      when shut_rx (update_pcb a (fun p => p <| flags ::= flag_or TF_RXCLOSED |>));;
      if shut_rx && shut_tx then tcp_close_shutdown a true
      else
        let! p := get_pcb a in
        when shut_rx
          (match refused_data p with
           | Some (q, _) => free_pbuf q;; put_pcb a (p <| refused_data := None |>)
           | None => ret tt
           end);;
        if shut_tx then
          if bool_decide (state p ∈ [SYN_RCVD; ESTABLISHED; CLOSE_WAIT])
          then tcp_close_shutdown a shut_rx else ret ERR_CONN
        else ret ERR_OK
  end.

(** ** Ports and addresses *)

(** The blocks of the list [tcp_pcb_lists], with what is looked at: the local
    port, the local address and the options, and the other end. *)
Record entry := mkEntry { e_port : Z; e_ip : Z; e_options : Z; e_remote_port : Z; e_remote_ip : Z }.
Definition conn_entries (l : list Z) (t : tcp) : option (list entry) :=
  mapM (fun a => p ← pcbs t !! a;
                 Some (mkEntry (local_port p) (local_ip p) (so_options p) (remote_port p) (remote_ip p))) l.
Definition listen_entries (t : tcp) : option (list entry) :=
  mapM (fun a => p ← lpcbs t !! a; Some (mkEntry (l_local_port p) (l_local_ip p) (l_so_options p) 0 0))
    (tcp_listen_pcbs t).
Definition entries (time_wait : bool) : M (list entry) := fun t =>
  l ← listen_entries t;
  b ← conn_entries (tcp_bound_pcbs t) t;
  x ← conn_entries (tcp_active_pcbs t) t;
  w ← (if time_wait then conn_entries (tcp_tw_pcbs t) t else Some []);
  Some (l ++ b ++ x ++ w, t).

(** The active blocks and those in TIME-WAIT. *)
Definition connections : M (list entry) := fun t =>
  l1 ← conn_entries (tcp_active_pcbs t) t;
  l2 ← conn_entries (tcp_tw_pcbs t) t;
  Some (l1 ++ l2, t).

(** [tries] is what is left of the [n] of the source. *)
Fixpoint new_port (tries : nat) (used : list Z) (tcp_port : Z) : Z * Z :=
  match tries with
  | O => (0, tcp_port)
  | S tries =>
      let tcp_port := if tcp_port =? TCP_LOCAL_PORT_RANGE_END then TCP_LOCAL_PORT_RANGE_START else u16 (tcp_port + 1) in
      if existsb (Z.eqb tcp_port) used then new_port tries used tcp_port else (tcp_port, tcp_port)
  end.
Definition tcp_new_port : M Z :=
  let! l := entries true in
  let! x := get tcp_port in
  let r := new_port (Z.to_nat (TCP_LOCAL_PORT_RANGE_END - TCP_LOCAL_PORT_RANGE_START + 1)) (e_port <$> l) x in
  modify (fun t => t <| tcp_port := r.2 |>);;
  ret r.1.

(** The entry keeps the block with options [o] from this address and port. *)
Definition conflicts (o ipaddr port : Z) (e : entry) : bool :=
  (e_port e =? port) && (negb (ip_get_option o SOF_REUSEADDR) || negb (ip_get_option (e_options e) SOF_REUSEADDR)) &&
  (ip_addr_isany (e_ip e) || ip_addr_isany ipaddr || (e_ip e =? ipaddr)).

Definition tcp_bind (h : handle) (ipaddr port : Z) : M Z :=
  match h with
  | Listener _ => ret ERR_VAL
  | Conn a =>
      let! p := get_pcb a in
      if negb (bool_decide (state p = CLOSED)) then ret ERR_VAL
      else
        let! port := if port =? 0 then tcp_new_port else ret port in
        if port =? 0 then ret ERR_BUF
        else
          let! l := entries (negb (ip_get_option (so_options p) SOF_REUSEADDR)) in
          if existsb (conflicts (so_options p) ipaddr port) l then ret ERR_USE
          else
            update_pcb a (fun p => p <| local_ip ::= fun x => if ip_addr_isany ipaddr then x else ipaddr |>
                                     <| local_port := port |>);;
            TCP_REG tcp_bound_pcbs a;;
            ret ERR_OK
  end.

(** [None] is the null pointer. *)
Definition tcp_listen_with_backlog (h : handle) : M (option handle) :=
  match h with
  | Listener _ => ret None
  | Conn a =>
      let! p := get_pcb a in
      if negb (bool_decide (state p = CLOSED)) then ret None
      else
        let! l := if ip_get_option (so_options p) SOF_REUSEADDR
                  then (fun t => l ← listen_entries t; Some (l, t)) else ret [] in
        if existsb (fun e => (e_port e =? local_port p) && (e_ip e =? local_ip p)) l then ret None
        else
          let! m := get listen_pool in
          match alloc m with
          | None => ret None
          | Some (b, m) =>
              let lp := mkListen (local_ip p) (Z.lor (so_options p) SOF_ACCEPTCONN) (tos p) (ttl p)
                          (callback_arg p) (Some Null) (prio p) (local_port p) in
              modify (fun t => t <| lpcbs ::= <[b := lp]> |> <| listen_pool := m |>);;
              when (negb (local_port p =? 0)) (TCP_RMV tcp_bound_pcbs a);;
              free_pcb a;;
              TCP_REG tcp_listen_pcbs b;;
              ret (Some (Listener b))
          end
  end.

(** ** Opening *)

Definition tcp_next_iss : M Z :=
  let! x := get iss in
  let! n := get tcp_ticks in
  let v := u32 (x + n) in
  modify (fun t => t <| iss := v |>);; ret v.

Definition eff_send_mss (sendmss addr : Z) : M Z := let! w := get nt in ret (TcpOut.tcp_eff_send_mss sendmss addr w).

(** The interface's address stands in for a missing local address. *)
Definition route_local (p : tcp_pcb) : M (option Z) :=
  if ip_addr_isany (local_ip p) then
    let! w := get nt in ret (ip_addr <$> ip_route (remote_ip p) (TcpOut.n_ip w))
  else ret (Some (local_ip p)).

Definition tcp_connect (a : Z) (ipaddr : option Z) (port : Z) (f : option Z) : M Z :=
  let! p := get_pcb a in
  if negb (bool_decide (state p = CLOSED)) then ret ERR_ISCONN
  else
    match ipaddr with
    | None => ret ERR_VAL
    | Some ipaddr =>
        update_pcb a (fun p => p <| remote_ip := ipaddr |> <| remote_port := port |>);;
        let! p := get_pcb a in
        let! local := route_local p in
        match local with
        | None => ret ERR_RTE
        | Some ip =>
            update_pcb a (fun p => p <| local_ip := ip |>);;
            let old_local_port := local_port p in
            let! lp := if old_local_port =? 0 then tcp_new_port else ret old_local_port in
            update_pcb a (fun p => p <| local_port := lp |>);;
            if lp =? 0 then ret ERR_BUF
            else
              let! l := if ip_get_option (so_options p) SOF_REUSEADDR then connections else ret [] in
              if existsb (fun e => (e_port e =? lp) && (e_remote_port e =? port) && (e_ip e =? ip) &&
                                   (e_remote_ip e =? ipaddr)) l
              then ret ERR_USE
              else
                let! n := tcp_next_iss in
                let! m := eff_send_mss initial_mss ipaddr in
                update_pcb a (fun p =>
                  p <| rcv_nxt := 0 |> <| snd_nxt := n |> <| lastack := u32 (n - 1) |> <| snd_lbb := u32 (n - 1) |>
                    <| rcv_wnd := TCP_WND |> <| rcv_ann_wnd := TCP_WND |> <| rcv_ann_right_edge := 0 |>
                    <| snd_wnd := TCP_WND |> <| mss := m |> <| cwnd := 1 |> <| ssthresh := u16 (m * 10) |>
                    <| connected := f |>);;
                let! err := enqueue_flags a TCP_SYN in
                when (err =? ERR_OK)
                  (update_pcb a (fun p => p <| state := SYN_SENT |>);;
                   when (negb (old_local_port =? 0)) (TCP_RMV tcp_bound_pcbs a);;
                   TCP_REG_ACTIVE a;;
                   let! _ := output a in ret tt);;
                ret err
        end
    end.

Definition tcp_recved (a len : Z) : M unit :=
  let! p := get_pcb a in
  let r := TcpIn.recved len p in
  put_pcb a r.2;;
  when (TCP_WND_UPDATE_THRESHOLD <=? s32 r.1)
    (update_pcb a TcpIn.tcp_ack_now;; let! _ := output a in ret tt).

(** ** Allocation *)

(** The oldest block of a list for which [eligible] holds; [prio_] and
    [inactivity] are those of the best one so far. *)
Fixpoint oldest (eligible : Z -> tcp_pcb -> bool) (next_prio : Z -> tcp_pcb -> Z) (t : tcp) (l : list Z)
    (mprio inactivity : Z) (inactive : option Z) : option (option Z) :=
  match l with
  | [] => Some inactive
  | a :: l =>
      p ← pcbs t !! a;
      let age := u32 (tcp_ticks t - tmr p) in
      if eligible mprio p && (inactivity <=? age)
      then oldest eligible next_prio t l (next_prio mprio p) age (Some a)
      else oldest eligible next_prio t l mprio inactivity inactive
  end.
Definition tcp_kill_prio (prio_ : Z) : M unit :=
  let! a := fun t => a ← oldest (fun mprio p => (prio p <=? prio_) && (prio p <=? mprio)) (fun _ p => prio p) t
                           (tcp_active_pcbs t) TCP_PRIO_MAX 0 None; Some (a, t) in
  match a with Some a => tcp_abort a | None => ret tt end.
Definition tcp_kill_timewait : M unit :=
  let! a := fun t => a ← oldest (fun _ _ => true) (fun m _ => m) t (tcp_tw_pcbs t) 0 0 None; Some (a, t) in
  match a with Some a => tcp_abort a | None => ret tt end.

(** [memp_malloc] *)
Definition malloc_pcb : M (option Z) := fun t =>
  match alloc (conn_pool t) with
  | Some (a, m) => Some (Some a, t <| conn_pool := m |>)
  | None => Some (None, t)
  end.
Definition or_else (r : option Z) (m : M unit) : M (option Z) :=
  match r with Some a => ret (Some a) | None => m;; malloc_pcb end.

Definition tcp_alloc (prio_ : Z) : M (option Z) :=
  let! r := malloc_pcb in
  let! r := or_else r tcp_kill_timewait in
  let! r := or_else r (tcp_kill_prio prio_) in
  match r with
  | None => ret None
  | Some a =>
      let! n := tcp_next_iss in
      let! ticks := get tcp_ticks in
      let! ctr := get tcp_timer_ctr in
      put_pcb a (fresh_pcb prio_ n ticks ctr);;
      ret (Some a)
  end.
Definition tcp_new : M (option Z) := tcp_alloc TCP_PRIO_NORMAL.

(** The functions that store a function or a value in a block. *)
Definition tcp_setprio (a x : Z) : M unit := update_pcb a (fun p => p <| prio := x |>).
Definition tcp_arg (h : handle) (x : Z) : M unit :=
  match h with
  | Conn a => update_pcb a (fun p => p <| callback_arg := x |>)
  | Listener a => fun t =>
      p ← lpcbs t !! a;
      Some (tt, t <| lpcbs ::= <[a := mkListen (l_local_ip p) (l_so_options p) (l_tos p) (l_ttl p) x (l_accept p)
                                        (l_prio p) (l_local_port p)]> |>)
  end.
Definition tcp_accept (h : handle) (f : option Z) : M unit :=
  match h with
  | Conn a => update_pcb a (fun p => p <| accept := App <$> f |>)
  | Listener a => fun t =>
      p ← lpcbs t !! a;
      Some (tt, t <| lpcbs ::= <[a := mkListen (l_local_ip p) (l_so_options p) (l_tos p) (l_ttl p) (l_callback_arg p)
                                        (App <$> f) (l_prio p) (l_local_port p)]> |>)
  end.
Definition tcp_recv (a : Z) (f : option Z) : M unit := update_pcb a (fun p => p <| recv := App <$> f |>).
Definition tcp_sent (a : Z) (f : option Z) : M unit := update_pcb a (fun p => p <| sent := f |>).
Definition tcp_err (a : Z) (f : option Z) : M unit := update_pcb a (fun p => p <| errf := f |>).
Definition tcp_poll (a : Z) (f : option Z) (interval : Z) : M unit :=
  update_pcb a (fun p => p <| poll := f |> <| pollinterval := interval |>).

(** ** Events *)

(** [tcp_recv_null] *)
Definition tcp_recv_null (a : Z) (p : option (pbuf * Z)) : M Z :=
  match p with
  | Some (q, _) => tcp_recved a (tot_len q);; free_pbuf q;; ret ERR_OK
  | None => tcp_close (Conn a)
  end.
(** [TCP_EVENT_RECV] and, without data, [TCP_EVENT_CLOSED] *)
Definition event_recv (a : Z) (d : option (pbuf * Z)) : M Z :=
  let! p := get_pcb a in
  match recv p with
  | Some (App f) => call_app (Recv f (callback_arg p) a d)
  | Some Null => tcp_recv_null a d
  | None => match d with Some _ => tcp_recv_null a d | None => ret ERR_OK end
  end.
Definition event_sent (a space : Z) : M Z :=
  let! p := get_pcb a in
  match sent p with Some f => call_app (Sent f (callback_arg p) a space) | None => ret ERR_OK end.
Definition event_connected (a : Z) : M Z :=
  let! p := get_pcb a in
  match connected p with Some f => call_app (Connected f (callback_arg p) a) | None => ret ERR_OK end.
Definition event_poll (a : Z) : M Z :=
  let! p := get_pcb a in
  match poll p with Some f => call_app (Poll f (callback_arg p) a) | None => ret ERR_OK end.
(** [tcp_accept_null] gives [ERR_ABRT]. *)
Definition event_accept (a : Z) : M Z :=
  let! p := get_pcb a in
  match accept p with
  | Some (App f) => call_app (Accept f (callback_arg p) a)
  | Some Null => ret ERR_ABRT
  | None => ret ERR_ARG
  end.

(** The application won't acknowledge the sequence number of the FIN. *)
Definition event_fin (a : Z) : M Z :=
  update_pcb a (fun p => p <| rcv_wnd ::= fun x => if x =? TCP_WND then x else u16 (x + 1) |>);;
  event_recv a None.

Definition tcp_process_refused_data (a : Z) : M Z :=
  let! p := get_pcb a in
  match refused_data p with
  | None => lift None
  | Some (q, fl) =>
      put_pcb a (p <| refused_data := None |>);;
      let! err := event_recv a (Some (q, fl)) in
      if err =? ERR_OK then
        if flag_set fl PBUF_FLAG_TCP_FIN then
          let! err := event_fin a in
          ret (if err =? ERR_ABRT then ERR_ABRT else ERR_OK)
        else ret ERR_OK
      else if err =? ERR_ABRT then ret ERR_ABRT
      else update_pcb a (fun p => p <| refused_data := Some (q, fl) |>);; ret ERR_OK
  end.

(** ** Timers *)

Definition elapsed (p : tcp_pcb) (ticks limit : Z) : bool := limit <? u32 (ticks - tmr p).

(** The retransmission time is over. *)
Definition retransmit (a : Z) (p : tcp_pcb) : M unit :=
  let! rto_ := if bool_decide (state p = SYN_SENT) then ret (rto p)
               else let! b := lift (rd tcp_backoff (nrtx p)) in ret (s16 (Z.shiftl (Z.shiftr (sa p) 3 + sv p) b)) in
  let half := Z.shiftr (Z.min (cwnd p) (snd_wnd p)) 1 in
  put_pcb a (p <| rto := rto_ |> <| rtime := 0 |>
               <| ssthresh := if half <? Z.shiftl (mss p) 1 then u16 (Z.shiftl (mss p) 1) else half |>
               <| cwnd := mss p |>);;
  let! ticks := get tcp_ticks in
  let! ip := get tcp_input_pcb in
  on_pcb a (fun p w => no_value (TcpOut.tcp_rexmit_rto output_err frag_ram frag_ref ram ticks
                                   (bool_decide (ip = Some a)) p w)).

(** The retransmissions and probes of one block; whether it is to be removed. *)
Definition slow_rexmit (a : Z) (p : tcp_pcb) : M bool :=
  if (bool_decide (state p = SYN_SENT) && (nrtx p =? TCP_SYNMAXRTX)) || (nrtx p =? TCP_MAXRTX) then ret true
  else if 0 <? persist_backoff p then
    let p := p <| persist_cnt := u8 (persist_cnt p + 1) |> in
    let! b := lift (rd tcp_persist_backoff (persist_backoff p - 1)) in
    if b <=? persist_cnt p then
      put_pcb a (p <| persist_cnt := 0 |>
                   <| persist_backoff ::= fun x => if x <? Z.of_nat (length tcp_persist_backoff) then u8 (x + 1) else x |>);;
      on_pcb a (fun p w => no_value (TcpOut.tcp_zero_window_probe output_err frag_ram frag_ref ram stale p w));;
      ret false
    else put_pcb a p;; ret false
  else
    let p := if 0 <=? rtime p then p <| rtime := s16 (rtime p + 1) |> else p in
    put_pcb a p;;
    when (negb (bool_decide (unacked p = [])) && (rto p <=? rtime p)) (retransmit a p);;
    ret false.

(** Whether the block was too long in its state; the keepalive probes. *)
Definition slow_timeouts (a : Z) : M (bool * bool) :=
  let! p := get_pcb a in
  let! ticks := get tcp_ticks in
  let fin_wait := bool_decide (state p = FIN_WAIT_2) && flag_set (flags p) TF_RXCLOSED &&
                  elapsed p ticks (TCP_FIN_WAIT_TIMEOUT / TCP_SLOW_INTERVAL) in
  let keep := ip_get_option (so_options p) SOF_KEEPALIVE && bool_decide (state p ∈ [ESTABLISHED; CLOSE_WAIT]) in
  let dead := keep && elapsed p ticks (u32 (keep_idle p + TCP_MAXIDLE) / TCP_SLOW_INTERVAL) in
  when (keep && negb dead &&
        elapsed p ticks (u32 (keep_idle p + keep_cnt_sent p * TCP_KEEPINTVL_DEFAULT) / TCP_SLOW_INTERVAL))
    (on_pcb a (fun p w => no_value (TcpOut.tcp_keepalive output_err frag_ram frag_ref ram p w));;
     update_pcb a (fun p => p <| keep_cnt_sent := u8 (keep_cnt_sent p + 1) |>));;
  ret (fin_wait || dead ||
       (bool_decide (state p = SYN_RCVD) && elapsed p ticks (TCP_SYN_RCVD_TIMEOUT / TCP_SLOW_INTERVAL)) ||
       (bool_decide (state p = LAST_ACK) && elapsed p ticks (2 * TCP_MSL / TCP_SLOW_INTERVAL)), dead).

Definition set_list_changed (b : bool) : M unit := modify (fun t => t <| tcp_active_pcbs_changed := b |>).

(** One active block; [true] when the list was changed by the application. *)
Definition slow_one (a : Z) : M bool :=
  let! p := get_pcb a in
  let! ctr := get tcp_timer_ctr in
  if last_timer p =? ctr then ret false
  else
    let! r1 := slow_rexmit a (p <| last_timer := ctr |>) in
    when r1 (put_pcb a (p <| last_timer := ctr |>));;
    let! r2 := slow_timeouts a in
    if (r1 : bool) || r2.1 then
      tcp_pcb_purge a;;
      let! p := get_pcb a in
      modify (fun t => t <| tcp_active_pcbs ::= rmv a |>);;
      when r2.2 (rst_pcb p);;
      free_pcb a;;
      set_list_changed false;;
      event_err (errf p) (callback_arg p) ERR_ABRT;;
      get tcp_active_pcbs_changed
    else
      update_pcb a (fun p => p <| polltmr := u8 (polltmr p + 1) |>);;
      let! p := get_pcb a in
      if pollinterval p <=? polltmr p then
        put_pcb a (p <| polltmr := 0 |>);;
        set_list_changed false;;
        let! err := event_poll a in
        let! changed := get tcp_active_pcbs_changed in
        when (negb changed && (err =? ERR_OK)) (let! _ := output a in ret tt);;
        ret changed
      else ret false.
Fixpoint slow_walk (l : list Z) : M bool :=
  match l with
  | [] => ret false
  | a :: l => let! r := slow_one a in if (r : bool) then ret true else slow_walk l
  end.
(** The walk starts again when the list was changed.  A block is processed once,
    so as many rounds as there are blocks are enough. *)
Fixpoint slow_active (fuel : nat) : M unit :=
  let! l := get tcp_active_pcbs in
  let! r := slow_walk l in
  if (r : bool) then match fuel with O => lift None | S fuel => slow_active fuel end else ret tt.
Fixpoint slow_tw (l : list Z) : M unit :=
  match l with
  | [] => ret tt
  | a :: l =>
      let! p := get_pcb a in
      let! ticks := get tcp_ticks in
      when (elapsed p ticks (2 * TCP_MSL / TCP_SLOW_INTERVAL)) (tcp_pcb_purge a;; modify (fun t => t <| tcp_tw_pcbs ::= rmv a |>);; free_pcb a);;
      slow_tw l
  end.
Definition tcp_slowtmr : M unit :=
  modify (fun t => t <| tcp_ticks := u32 (tcp_ticks t + 1) |> <| tcp_timer_ctr := u8 (tcp_timer_ctr t + 1) |>);;
  let! n := get (fun t => size (pcbs t)) in
  slow_active n;;
  let! l := get tcp_tw_pcbs in
  slow_tw l.

(** One active block of [tcp_fasttmr]. *)
Definition fast_one (a : Z) : M bool :=
  let! ctr := get tcp_timer_ctr in
  update_pcb a (fun p => p <| last_timer := ctr |>);;
  let! p := get_pcb a in
  when (flag_set (flags p) TF_ACK_DELAY)
    (put_pcb a (TcpIn.tcp_ack_now p);;
     let! _ := output a in
     update_pcb a (fun p => p <| flags ::= flag_clear (Z.lor TF_ACK_DELAY TF_ACK_NOW) |>));;
  let! p := get_pcb a in
  match refused_data p with
  | Some _ => set_list_changed false;; let! _ := tcp_process_refused_data a in get tcp_active_pcbs_changed
  | None => ret false
  end.
(** The walk over the active blocks [l].  A block with the current counter is not
    left again: the loop does not end ([fast_loop_stuck]). *)
Fixpoint fast_loop (fuel : nat) (l : list Z) : M unit :=
  match l with
  | [] => ret tt
  | a :: l' =>
      match fuel with
      | O => lift None
      | S fuel =>
          let! p := get_pcb a in
          let! ctr := get tcp_timer_ctr in
          if last_timer p =? ctr then fast_loop fuel l
          else
            let! r := fast_one a in
            if (r : bool) then let! l := get tcp_active_pcbs in fast_loop fuel l else fast_loop fuel l'
      end
  end.
Definition tcp_fasttmr (fuel : nat) : M unit :=
  modify (fun t => t <| tcp_timer_ctr := u8 (tcp_timer_ctr t + 1) |>);;
  let! l := get tcp_active_pcbs in
  fast_loop fuel l.

Definition tcp_tmr (fuel : nat) : M unit :=
  tcp_fasttmr fuel;;
  modify (fun t => t <| tcp_timer := u8 (tcp_timer t + 1) |>);;
  let! n := get tcp_timer in
  when (flag_set n 1) tcp_slowtmr.

(** ** Input *)

Section input.
Import TcpIn.

(** A reset that answers the segment. *)
Definition rst_segment (i : input) : M unit :=
  let! w := get nt in
  rst (in_ackno i) (u32 (in_seqno i + in_tcplen i)) (current_iphdr_dest (TcpOut.n_ip w)) (current_iphdr_src (TcpOut.n_ip w))
    (dest (in_hdr i)) (src (in_hdr i)).

Definition parseopt (a : Z) (i : input) : M unit :=
  let! p := get_pcb a in
  let! p := lift (tcp_parseopt stale i p) in
  put_pcb a p.

(** The block for the SYN [i] that came to the listener [lp]. *)
Definition accept_pcb (lp : tcp_pcb_listen) (i : input) (s d : Z) (p : tcp_pcb) : tcp_pcb :=
  p <| local_ip := d |> <| local_port := l_local_port lp |> <| remote_ip := s |> <| remote_port := src (in_hdr i) |>
    <| state := SYN_RCVD |> <| rcv_nxt := u32 (in_seqno i + 1) |> <| rcv_ann_right_edge := u32 (in_seqno i + 1) |>
    <| snd_wnd := wnd (in_hdr i) |> <| snd_wnd_max := wnd (in_hdr i) |> <| ssthresh := wnd (in_hdr i) |>
    <| snd_wl1 := u32 (in_seqno i - 1) |> <| callback_arg := l_callback_arg lp |> <| accept := l_accept lp |>
    <| so_options := Z.land (l_so_options lp) SOF_INHERITED |>.

Definition tcp_listen_input (b : Z) (i : input) : M Z :=
  if flag_set (in_flags i) TCP_RST then ret ERR_OK
  else if flag_set (in_flags i) TCP_ACK then rst_segment i;; ret ERR_OK
  else if flag_set (in_flags i) TCP_SYN then
    let! lp := fun t => p ← lpcbs t !! b; Some (p, t) in
    let! r := tcp_alloc (l_prio lp) in
    match r with
    | None => ret ERR_MEM
    | Some a =>
        let! lp := fun t => p ← lpcbs t !! b; Some (p, t) in
        let! w := get nt in
        update_pcb a (accept_pcb lp i (current_iphdr_src (TcpOut.n_ip w)) (current_iphdr_dest (TcpOut.n_ip w)));;
        TCP_REG_ACTIVE a;;
        parseopt a i;;
        let! p := get_pcb a in
        let! m := eff_send_mss (mss p) (remote_ip p) in
        put_pcb a (p <| mss := m |>);;
        let! rc := enqueue_flags a (Z.lor TCP_SYN TCP_ACK) in
        if rc =? ERR_OK then output a else tcp_abandon a false;; ret rc
    end
  else ret ERR_OK.

Definition tcp_timewait_input (a : Z) (i : input) : M Z :=
  if flag_set (in_flags i) TCP_RST then ret ERR_OK
  else
    let! p := get_pcb a in
    if flag_set (in_flags i) TCP_SYN && TCP_SEQ_BETWEEN (in_seqno i) (rcv_nxt p) (u32 (rcv_nxt p + rcv_wnd p))
    then rst_segment i;; ret ERR_OK
    else
      let! ticks := get tcp_ticks in
      when (negb (flag_set (in_flags i) TCP_SYN) && flag_set (in_flags i) TCP_FIN)
        (update_pcb a (fun p => p <| tmr := ticks |>));;
      if 0 <? in_tcplen i then update_pcb a (fun p => p <| flags ::= flag_or TF_ACK_NOW |>);; output a
      else ret ERR_OK.

Definition receive (a : Z) (i : input) : M input :=
  let! ticks := get tcp_ticks in
  on_pcb a (fun p w => tcp_receive output_err frag_ram frag_ref ram ticks i p w).

Definition got_fin (i : input) : bool := flag_set (recv_flags i) TF_GOT_FIN.
Definition set_state (a : Z) (s : tcp_state) : M unit := update_pcb a (fun p => p <| state := s |>).

(** The block moves to the list of those in TIME-WAIT. *)
Definition to_time_wait (a : Z) : M unit :=
  tcp_pcb_purge a;;
  TCP_RMV_ACTIVE a;;
  set_state a TIME_WAIT;;
  TCP_REG tcp_tw_pcbs a.

(** The segment acknowledges everything that was sent. *)
Definition acks_all (i : input) (p : tcp_pcb) : bool := flag_set (in_flags i) TCP_ACK && (in_ackno i =? snd_nxt p).

(** The state SYN-SENT: the answer to our SYN. *)
Definition process_syn_sent (a : Z) (i : input) : M (Z * input) :=
  let! p := get_pcb a in
  if flag_set (in_flags i) TCP_ACK && flag_set (in_flags i) TCP_SYN then
    match unacked p with
    | [] => lift None
    | s :: l =>
        if in_ackno i =? u32 (sg_seqno s + 1) then
          let! m := eff_send_mss (mss p) (remote_ip p) in
          put_pcb a
            (p <| snd_buf := u16 (snd_buf p + 1) |> <| rcv_nxt := u32 (in_seqno i + 1) |>
               <| rcv_ann_right_edge := u32 (in_seqno i + 1) |> <| lastack := in_ackno i |>
               <| snd_wnd := wnd (in_hdr i) |> <| snd_wnd_max := wnd (in_hdr i) |>
               <| snd_wl1 := u32 (in_seqno i - 1) |> <| state := ESTABLISHED |> <| mss := m |>
               <| ssthresh := u16 (m * 10) |> <| cwnd ::= fun c => if c =? 1 then u16 (m * 2) else m |>
               <| snd_queuelen := u16 (snd_queuelen p - 1) |> <| unacked := l |>
               <| rtime := if bool_decide (l = []) then -1 else 0 |>
               <| nrtx ::= fun n => if bool_decide (l = []) then n else 0 |>);;
          on_net (TcpOut.tcp_seg_free s);;
          let! err := event_connected a in
          if err =? ERR_ABRT then ret (ERR_ABRT, i)
          else update_pcb a tcp_ack_now;; ret (ERR_OK, i)
        else rst_segment i;; ret (ERR_OK, i)
    end
  else when (flag_set (in_flags i) TCP_ACK) (rst_segment i);; ret (ERR_OK, i).

(** The state SYN-RECEIVED: the connection is accepted. *)
Definition process_syn_rcvd (a : Z) (i : input) : M (Z * input) :=
  let! p := get_pcb a in
  if flag_set (in_flags i) TCP_ACK then
    if TCP_SEQ_BETWEEN (in_ackno i) (u32 (lastack p + 1)) (snd_nxt p) then
      set_state a ESTABLISHED;;
      let! err := event_accept a in
      if negb (err =? ERR_OK) then when (negb (err =? ERR_ABRT)) (tcp_abort a);; ret (ERR_ABRT, i)
      else
        let! p := get_pcb a in
        let old_cwnd := cwnd p in
        let! i := receive a i in
        update_pcb a (fun p =>
          p <| acked ::= fun n => if n =? 0 then n else u16 (n - 1) |>
            <| cwnd := if old_cwnd =? 1 then u16 (mss p * 2) else mss p |>);;
        when (got_fin i) (update_pcb a tcp_ack_now;; set_state a CLOSE_WAIT);;
        ret (ERR_OK, i)
    else rst_segment i;; ret (ERR_OK, i)
  else
    when (flag_set (in_flags i) TCP_SYN && (in_seqno i =? u32 (rcv_nxt p - 1))) (update_pcb a TcpOut.tcp_rexmit);;
    ret (ERR_OK, i).

(** The states in which data or acknowledgements are exchanged. *)
Definition process_connected (a : Z) (s : tcp_state) (i : input) : M (Z * input) :=
  let! i := receive a i in
  let! p := get_pcb a in
  match s with
  | ESTABLISHED | CLOSE_WAIT =>
      when (got_fin i) (update_pcb a tcp_ack_now;; set_state a CLOSE_WAIT);; ret (ERR_OK, i)
  | FIN_WAIT_1 =>
      (if got_fin i then
         update_pcb a tcp_ack_now;;
         if acks_all i p then to_time_wait a else set_state a CLOSING
       else when (acks_all i p) (set_state a FIN_WAIT_2));;
      ret (ERR_OK, i)
  | FIN_WAIT_2 => when (got_fin i) (update_pcb a tcp_ack_now;; to_time_wait a);; ret (ERR_OK, i)
  | CLOSING => when (acks_all i p) (to_time_wait a);; ret (ERR_OK, i)
  | LAST_ACK => ret (ERR_OK, if acks_all i p then i <| recv_flags ::= flag_or TF_CLOSED |> else i)
  | _ => ret (ERR_OK, i)
  end.

Definition tcp_process (a : Z) (i : input) : M (Z * input) :=
  let! p := get_pcb a in
  if flag_set (in_flags i) TCP_RST then
    let acceptable :=
      if bool_decide (state p = SYN_SENT) then in_ackno i =? snd_nxt p
      else TCP_SEQ_BETWEEN (in_seqno i) (rcv_nxt p) (u32 (rcv_nxt p + rcv_wnd p)) in
    if acceptable then
      update_pcb a (fun p => p <| flags ::= flag_clear TF_ACK_DELAY |>);;
      ret (ERR_RST, i <| recv_flags ::= flag_or TF_RESET |>)
    else ret (ERR_OK, i)
  else if flag_set (in_flags i) TCP_SYN && negb (bool_decide (state p ∈ [SYN_SENT; SYN_RCVD])) then
    update_pcb a tcp_ack_now;; ret (ERR_OK, i)
  else
    let! ticks := get tcp_ticks in
    update_pcb a (fun p =>
      (if flag_set (flags p) TF_RXCLOSED then p else p <| tmr := ticks |>) <| keep_cnt_sent := 0 |>);;
    parseopt a i;;
    match state p with
    | SYN_SENT => process_syn_sent a i
    | SYN_RCVD => process_syn_rcvd a i
    | CLOSE_WAIT | ESTABLISHED | FIN_WAIT_1 | FIN_WAIT_2 | CLOSING | LAST_ACK => process_connected a (state p) i
    | _ => ret (ERR_OK, i)
    end.

(** *** Demultiplexing *)

Definition to_front (a : Z) (l : list Z) : list Z := a :: rmv a l.

(** The first block of a list for the connection of the segment. *)
Fixpoint find_conn (sport dport s d : Z) (t : tcp) (l : list Z) : option (option Z) :=
  match l with
  | [] => Some None
  | a :: l =>
      p ← pcbs t !! a;
      if (remote_port p =? sport) && (local_port p =? dport) && (remote_ip p =? s) && (local_ip p =? d)
      then Some (Some a) else find_conn sport dport s d t l
  end.
(** The listener with the address, else the last one for all addresses. *)
Fixpoint find_listener (dport d : Z) (t : tcp) (any : option Z) (l : list Z) : option (option Z) :=
  match l with
  | [] => Some any
  | b :: l =>
      p ← lpcbs t !! b;
      if l_local_port p =? dport then
        if l_local_ip p =? d then Some (Some b)
        else find_listener dport d t (if ip_addr_isany (l_local_ip p) then Some b else any) l
      else find_listener dport d t any l
  end.

(** *** The end of the processing *)

(** What is left of the segment is given back. *)
Definition release_input (i : input) : M unit :=
  modify (fun t => t <| tcp_input_pcb := None |>);;
  match inseg_p i with Some q => free_pbuf q | None => ret tt end.

(** The data goes to the application; [true] when the block is gone. *)
Definition deliver_data (a : Z) (i : input) : M bool :=
  match recv_data i with
  | None => ret false
  | Some q =>
      let! p := get_pcb a in
      if flag_set (flags p) TF_RXCLOSED then free_pbuf q;; tcp_abort a;; ret true
      else
        let! err := event_recv a (Some (q, in_pflags i)) in
        if err =? ERR_ABRT then ret true
        else
          when (negb (err =? ERR_OK)) (update_pcb a (fun p => p <| refused_data := Some (q, in_pflags i) |>));;
          ret false
  end.
(** The application is told about the FIN, unless data is waiting. *)
Definition deliver_fin (a : Z) (i : input) : M bool :=
  if got_fin i then
    let! p := get_pcb a in
    match refused_data p with
    | Some (q, fl) => put_pcb a (p <| refused_data := Some (q, Z.lor fl PBUF_FLAG_TCP_FIN) |>);; ret false
    | None => let! err := event_fin a in ret (err =? ERR_ABRT)
    end
  else ret false.
Definition deliver_sent (a : Z) : M bool :=
  let! p := get_pcb a in
  if 0 <? acked p then let! err := event_sent a (acked p) in ret (err =? ERR_ABRT) else ret false.

(** After [tcp_process]. *)
Definition finish_input (a : Z) (err : Z) (i : input) : M unit :=
  if err =? ERR_ABRT then ret tt
  else
    let! p := get_pcb a in
    if flag_set (recv_flags i) TF_RESET then
      event_err (errf p) (callback_arg p) ERR_RST;; tcp_pcb_remove tcp_active_pcbs a;; free_pcb a
    else if flag_set (recv_flags i) TF_CLOSED then
      when (negb (flag_set (flags p) TF_RXCLOSED)) (event_err (errf p) (callback_arg p) ERR_CLSD);;
      tcp_pcb_remove tcp_active_pcbs a;; free_pcb a
    else
      let! gone := deliver_sent a in
      if (gone : bool) then ret tt
      else
        let! gone := deliver_data a i in
        if (gone : bool) then ret tt
        else
          let! gone := deliver_fin a i in
          if (gone : bool) then ret tt
          else modify (fun t => t <| tcp_input_pcb := None |>);; let! _ := output a in ret tt.

(** A segment for the connection [a]. *)
Definition conn_input (a : Z) (i : input) : M unit :=
  let! p := get_pcb a in
  let! refused := match refused_data p with
                  | Some _ =>
                      let! err := tcp_process_refused_data a in
                      if err =? ERR_ABRT then ret true
                      else let! p := get_pcb a in ret (bool_decide (refused_data p <> None) && (0 <? in_tcplen i))
                  | None => ret false
                  end in
  if (refused : bool) then release_input i
  else
    modify (fun t => t <| tcp_input_pcb := Some a |>);;
    let! r := tcp_process a i in
    finish_input a r.1 r.2;;
    release_input r.2.

(** A segment [q] behind its header. *)
Definition segment_input (h : tcp_hdr) (opts : list Z) (q : pbuf) : M unit :=
  let i := segment_of h opts q in
  let! w := get nt in
  let s := current_iphdr_src (TcpOut.n_ip w) in
  let d := current_iphdr_dest (TcpOut.n_ip w) in
  let! r := fun t => r ← find_conn (src h) (dest h) s d t (tcp_active_pcbs t); Some (r, t) in
  match r with
  | Some a => modify (fun t => t <| tcp_active_pcbs ::= to_front a |>);; conn_input a i
  | None =>
      let! r := fun t => r ← find_conn (src h) (dest h) s d t (tcp_tw_pcbs t); Some (r, t) in
      match r with
      | Some a => let! _ := tcp_timewait_input a i in free_pbuf q
      | None =>
          let! r := fun t => r ← find_listener (dest h) d t None (tcp_listen_pcbs t); Some (r, t) in
          match r with
          | Some b =>
              modify (fun t => t <| tcp_listen_pcbs ::= to_front b |>);;
              let! _ := tcp_listen_input b i in free_pbuf q
          | None => when (negb (flag_set (in_flags i) TCP_RST)) (rst_segment i);; free_pbuf q
          end
      end
  end.

Definition tcp_input (q : pbuf) (inp : netif) : M unit :=
  let iphdr := ip_hdr_of (first q ++ stale) in
  match pbuf_header q (- (IPH_HL iphdr * 4)) with
  | None => free_pbuf q
  | Some q =>
      let! w := get nt in
      let d := current_iphdr_dest (TcpOut.n_ip w) in
      let h := tcp_hdr_of (first q ++ stale) in
      if tot_len q <? TCP_HLEN then free_pbuf q
      else if ip_addr_isbroadcast d inp || ip_addr_ismulticast d then free_pbuf q
      else if negb (inet_chksum_pseudo (segments q) (current_iphdr_src (TcpOut.n_ip w)) d IP_PROTO_TCP (tot_len q) =? 0)
      then free_pbuf q
      else
        match pbuf_header q (- (TCPH_HDRLEN h * 4)) with
        | None => free_pbuf q
        | Some q' => segment_input h (drop 20 (first q)) q'
        end
  end.
End input.

(** A block with the current counter keeps [tcp_fasttmr] from ending: however long the
    loop runs, it does not get past it. *)
Lemma fast_loop_stuck a l t p :
  pcbs t !! a = Some p -> last_timer p = tcp_timer_ctr t -> forall fuel, fast_loop fuel (a :: l) t = None.
Proof.
  intros E Hc fuel. induction fuel as [|fuel IH]; [done|]. cbn [fast_loop]. unfold bind, get_pcb, get. rewrite E.
  cbn [mbind option_bind]. by rewrite Hc, Z.eqb_refl.
Qed.

End tcp.

End Tcp.
