(* ===== verification/TcpInv.v ===== *)
(** * TCP: the lists of blocks and what is in memory

    The invariant of the state of TCP: a block is on one list at most, and its
    state is one of that list; the blocks, listeners and segments are the elements
    that the pools have given out; every block is well-formed ([TcpSafe]).  No
    function reads a block that is gone, frees one twice or leaves one on a list. *)

From stdpp Require Import gmap.
From S2P Require Import Prelude LwipDef InetChksum IpAddr Mem Memp Pbuf Packet IpFrag Ip TcpDef TcpOut TcpIn TcpWrite TcpSend TcpAck TcpRecv TcpSafe Tcp.

#[local] Open Scope Z_scope.

Module TcpInv.
Import LwipDef InetChksum IpAddr Packet Ip TcpDef TcpOut TcpSafe Tcp.
#[local] Open Scope update_scope.

(** ** The invariant *)

Definition active_state (s : tcp_state) : Prop := s ∉ [CLOSED; LISTEN; TIME_WAIT].
(** The connection is there. *)
Definition connected_state (s : tcp_state) : Prop := s ∉ [CLOSED; LISTEN; SYN_SENT; SYN_RCVD].

(** A block between two calls: there are segments in the states that can have some,
    the SYN waits for its answer, and the application has its own function for
    received data before there can be any, and one that hears of a new connection. *)
Record settled (p : tcp_pcb) : Prop := {
  se_listen : state p <> LISTEN;
  se_idle : state p ∈ [CLOSED; TIME_WAIT] -> idle p;
  se_syn : state p = SYN_SENT -> unacked p <> [];
  se_recv : connected_state (state p) -> recv p <> Some Null;
  se_accept : state p = SYN_RCVD -> accept p <> Some Null;
  se_connect : state p = SYN_SENT -> connected p = None -> recv p <> Some Null;
  se_refused : refused_data p <> None -> connected_state (state p)
}.

Definition seg_addrs (m : gmap Z tcp_pcb) : list Z := mjoin (addrs <$> (map_to_list m).*2).

(** ** Lists of blocks *)

Lemma rmv_elem a b l : NoDup l -> b ∈ rmv a l <-> b ∈ l /\ b <> a.
Proof.
  induction l as [|x l IH]; cbn [rmv].
  { split; [by intros ?%not_elem_of_nil|by intros [?%not_elem_of_nil _]]. }
  intros [Hx Hl]%NoDup_cons. destruct (Z.eqb_spec x a) as [->|].
  - rewrite elem_of_cons. split; [intros ?; split; [by right|by intros ->]|by intros [[->|] ?]].
  - rewrite !elem_of_cons, IH by done. split; [intros [->|[]]; tauto|intros [[->|] ]; tauto].
Qed.
Lemma rmv_sublist a l : rmv a l `sublist_of` l.
Proof. induction l as [|x l IH]; cbn [rmv]; [done|]. destruct (x =? a); [by apply sublist_cons|by apply sublist_skip]. Qed.
Lemma rmv_absent a l : a ∉ l -> rmv a l = l /\ cut a l = l.
Proof.
  induction l as [|x l IH]; cbn [rmv cut]; [done|]. intros [Hx Hl]%not_elem_of_cons.
  destruct (Z.eqb_spec x a); [congruence|]. by destruct (IH Hl) as [-> ->].
Qed.

Section inv.
Context {P PS PC PL : Type} `{Pool P} `{Pool PS} `{Pool PC} `{Pool PL}.
#[local] Abbreviation tcp := (@Tcp.tcp P PS PC PL).
#[local] Abbreviation M := (@Tcp.M P PS PC PL).

Record lists_ok (t : tcp) : Prop := {
  lo_nodup : NoDup (tcp_bound_pcbs t ++ tcp_active_pcbs t ++ tcp_tw_pcbs t);
  lo_bound : forall a, a ∈ tcp_bound_pcbs t -> exists p, pcbs t !! a = Some p /\ state p = CLOSED /\ local_port p <> 0;
  lo_active : forall a, a ∈ tcp_active_pcbs t -> exists p, pcbs t !! a = Some p /\ active_state (state p);
  lo_tw : forall a, a ∈ tcp_tw_pcbs t -> exists p, pcbs t !! a = Some p /\ state p = TIME_WAIT;
  lo_listen : NoDup (tcp_listen_pcbs t) /\ forall b, b ∈ tcp_listen_pcbs t -> exists lp, lpcbs t !! b = Some lp /\ l_accept lp <> Some Null
}.
Record mem_ok (t : tcp) : Prop := {
  mo_conn : holds (conn_pool t) (map_to_list (pcbs t)).*1;
  mo_listen : holds (listen_pool t) (map_to_list (lpcbs t)).*1;
  mo_segs : holds (n_segs (nt t)) (seg_addrs (pcbs t));
  mo_net : net_ok (nt t);
  mo_blocks : forall a p, pcbs t !! a = Some p -> Forall seg_ok (segments_of p) /\ nums_ok p
}.
Record inv (t : tcp) : Prop := {
  iv_lists : lists_ok t; iv_mem : mem_ok t; iv_settled : forall a p, pcbs t !! a = Some p -> settled p
}.

(** The invariant, but the block may lack the application's function for data. *)
Record inv_but (a : Z) (t : tcp) : Prop := {
  ib_lists : lists_ok t; ib_mem : mem_ok t; ib_others : forall b p, b <> a -> pcbs t !! b = Some p -> settled p
}.
Lemma inv_inv_but a t : inv t -> inv_but a t.
Proof. intros [Il Im Is]. split; [done|done|]. intros b p _. apply Is. Qed.
Lemma inv_but_inv a t p : inv_but a t -> pcbs t !! a = Some p -> settled p -> inv t.
Proof.
  intros [Il Im Is] E Hs. split; [done|done|]. intros b q Hq. destruct (decide (b = a)) as [->|Hn]; [|by eapply Is].
  rewrite E in Hq. by injection Hq as <-.
Qed.

(** ** Computations that give a result *)

Definition runs {A} (m : M A) (t : tcp) (Q : A -> tcp -> Prop) : Prop := exists x t', m t = Some (x, t') /\ Q x t'.

Lemma runs_ret {A} (x : A) t (Q : A -> tcp -> Prop) : Q x t -> runs (ret x) t Q.
Proof. by exists x, t. Qed.
Lemma runs_bind {A B} (m : M A) (k : A -> M B) t Q R :
  runs m t R -> (forall x t', R x t' -> runs (k x) t' Q) -> runs (bind m k) t Q.
Proof. intros (x & t1 & E & HR) Hk. destruct (Hk x t1 HR) as (y & t2 & E2 & HQ). exists y, t2. split; [|done]. unfold bind. by rewrite E. Qed.
Lemma runs_mono {A} (m : M A) t (Q R : A -> tcp -> Prop) : runs m t R -> (forall x t', R x t' -> Q x t') -> runs m t Q.
Proof. intros (x & t1 & E & HR) Hk. exists x, t1. split; [done|auto]. Qed.
(** A step that does not change the state. *)
Lemma runs_get {A B} (f : tcp -> A) (k : A -> M B) t Q : runs (k (f t)) t Q -> runs (bind (get f) k) t Q.
Proof. done. Qed.
Lemma runs_modify {B} f (k : unit -> M B) t Q : runs (k tt) (f t) Q -> runs (bind (modify f) k) t Q.
Proof. done. Qed.
Lemma runs_get_pcb {B} a p (k : tcp_pcb -> M B) t Q : pcbs t !! a = Some p -> runs (k p) t Q -> runs (bind (get_pcb a) k) t Q.
Proof. intros E Hk. unfold runs, bind, get_pcb. by rewrite E. Qed.
Lemma runs_when b m t (Q : unit -> tcp -> Prop) : (b = true -> runs m t Q) -> (b = false -> Q tt t) -> runs (when b m) t Q.
Proof. intros Ht Hf. destruct b; [by apply Ht|apply runs_ret; auto]. Qed.

(** The first step of a sequence, by a lemma about it. *)
Tactic Notation "run" tactic3(tac) := eapply runs_bind; [tac|cbv beta].

(** ** The segments of all blocks *)

Lemma seg_addrs_lookup (m : gmap Z tcp_pcb) a p : m !! a = Some p -> seg_addrs m ≡ₚ addrs p ++ seg_addrs (delete a m).
Proof.
  intros E. unfold seg_addrs. rewrite <- (map_to_list_delete m a p E), !fmap_cons. by rewrite mjoin_cons.
Qed.
Lemma seg_addrs_insert (m : gmap Z tcp_pcb) a p : seg_addrs (<[a := p]> m) ≡ₚ addrs p ++ seg_addrs (delete a m).
Proof. rewrite (seg_addrs_lookup _ a p) by apply lookup_insert_eq. by rewrite delete_insert_eq. Qed.
Lemma keys_insert {V} (m : gmap Z V) a v v' : m !! a = Some v -> (map_to_list (<[a := v']> m)).*1 ≡ₚ (map_to_list m).*1.
Proof.
  intros E. rewrite <- (map_to_list_delete m a v E), <- (map_to_list_delete (<[a := v']> m) a v') by apply lookup_insert_eq.
  by rewrite delete_insert_eq.
Qed.

(** ** A change of one block *)

(** The lists, and the listeners. *)
Definition lists (t : tcp) := (tcp_bound_pcbs t, tcp_active_pcbs t, tcp_tw_pcbs t, tcp_listen_pcbs t, lpcbs t).

(** [t'] is [t] with the block [a] changed to [p'], and the layers below. *)
Record changes (t t' : tcp) (a : Z) (p' : tcp_pcb) : Prop := {
  ch_pcbs : pcbs t' = <[a := p']> (pcbs t); ch_lists : lists t' = lists t; ch_mem : mem_ok t'
}.

Definition others (t : tcp) (a : Z) : list Z := seg_addrs (delete a (pcbs t)).
Lemma block_focus t a p : mem_ok t -> pcbs t !! a = Some p -> block_ok (others t a) p (nt t) /\ nums_ok p.
Proof.
  intros [_ _ Hs Hn Hb] E. destruct (Hb a p E) as [B1 B2]. split; [|done]. split; [done| |done].
  eapply holds_perm; [|exact Hs]. by apply seg_addrs_lookup.
Qed.
Lemma block_unfocus t t' a p p' :
  mem_ok t -> pcbs t !! a = Some p -> block_ok (others t a) p' (nt t') -> nums_ok p' ->
  pcbs t' = <[a := p']> (pcbs t) -> lpcbs t' = lpcbs t -> conn_pool t' = conn_pool t -> listen_pool t' = listen_pool t ->
  mem_ok t'.
Proof.
  intros [Hc Hl Hs Hn Hb] E [B1 B2 B3] Hk E1 E2 E3 E4. split; rewrite ?E1, ?E2, ?E3, ?E4; [| |eapply holds_perm; [|exact B2]|done|].
  - eapply holds_perm; [|exact Hc]. by rewrite (keys_insert _ _ _ p' E).
  - done.
  - by rewrite seg_addrs_insert.
  - intros b q. rewrite lookup_insert_Some. intros [[<- <-]|[_ Hq]]; [by split|by eapply Hb].
Qed.

(** A function on a block. *)
Lemma runs_on_pcb {A} a f t p (R : A -> tcp_pcb -> Prop) :
  mem_ok t -> pcbs t !! a = Some p ->
  (forall live, block_ok live p (nt t) -> nums_ok p ->
    exists x p' w', f p (nt t) = Some (x, p', w') /\ block_ok live p' w' /\ nums_ok p' /\ R x p') ->
  runs (on_pcb a f) t (fun x t' => exists p', changes t t' a p' /\ R x p').
Proof.
  intros Hm E Hf. destruct (block_focus t a p Hm E) as [Hb Hn].
  destruct (Hf _ Hb Hn) as (x & p' & w' & Ef & Hb' & Hn' & HR). unfold runs, on_pcb. rewrite E. cbn [mbind option_bind].
  rewrite Ef. cbn [mbind option_bind]. eexists x, _. split; [reflexivity|]. exists p'. split; [|done]. split; [done|done|].
  by eapply (block_unfocus t).
Qed.
Lemma runs_put a t p p' :
  mem_ok t -> pcbs t !! a = Some p -> segments_of p' = segments_of p -> nums_ok p' ->
  runs (put_pcb a p') t (fun _ t' => changes t t' a p').
Proof.
  intros Hm E Es Hn. eexists tt, _. split; [reflexivity|]. split; [done|done|].
  destruct (block_focus t a p Hm E) as [[B1 B2 B3] _]. apply (block_unfocus t _ a p p'); try done.
  unfold addrs in B2. split; unfold addrs; [by rewrite Es|rewrite Es; exact B2|exact B3].
Qed.
Lemma runs_update a f t p :
  mem_ok t -> pcbs t !! a = Some p -> segments_of (f p) = segments_of p -> nums_ok (f p) ->
  runs (update_pcb a f) t (fun _ t' => changes t t' a (f p)).
Proof. intros Hm E Es Hn. apply (runs_get_pcb a p); [done|]. by eapply runs_put. Qed.

Lemma changes_trans t1 t2 t3 a p2 p3 : changes t1 t2 a p2 -> changes t2 t3 a p3 -> changes t1 t3 a p3.
Proof. intros [A1 A2 _] [B1 B2 B3]. split; [by rewrite B1, A1, insert_insert_eq|congruence|done]. Qed.
Lemma changes_refl t a p : mem_ok t -> pcbs t !! a = Some p -> changes t t a p.
Proof. intros. split; [by rewrite insert_id|done|done]. Qed.
Lemma changes_lookup t t' a p' : changes t t' a p' -> pcbs t' !! a = Some p'.
Proof. intros [-> _ _]. apply lookup_insert_eq. Qed.

(** The block keeps its place when its state fits to the list that it is on. *)
Definition fits (t : tcp) (a : Z) (p : tcp_pcb) : Prop :=
  (a ∈ tcp_bound_pcbs t -> state p = CLOSED /\ local_port p <> 0) /\
  (a ∈ tcp_active_pcbs t -> active_state (state p)) /\ (a ∈ tcp_tw_pcbs t -> state p = TIME_WAIT).
Lemma lists_changes t t' a p' : lists_ok t -> changes t t' a p' -> fits t a p' -> lists_ok t'.
Proof.
  intros [Hd Hb Ha Hw Hl] [E1 E2 _] (F1 & F2 & F3). unfold lists in E2. injection E2 as E3 E4 E5 E6 E7.
  assert (G : forall (l : list Z) (Q : tcp_pcb -> Prop), (forall b, b ∈ l -> exists p, pcbs t !! b = Some p /\ Q p) -> (a ∈ l -> Q p') ->
    forall b, b ∈ l -> exists p, pcbs t' !! b = Some p /\ Q p).
  { intros l Q Hl' Hp b Hbl. rewrite E1. destruct (decide (b = a)) as [->|Hne].
    - rewrite lookup_insert_eq. exists p'. split; [done|auto].
    - rewrite lookup_insert_ne by done. by apply Hl'. }
  split; rewrite ?E3, ?E4, ?E5, ?E6, ?E7; try done; by apply G.
Qed.
Lemma fits_lookup t a p : lists_ok t -> pcbs t !! a = Some p -> fits t a p.
Proof.
  intros [Hd Hb Ha Hw Hl] E. split; [|split]; intros Hi;
    [destruct (Hb a Hi) as (q & Hq & H')|destruct (Ha a Hi) as (q & Hq & H')|destruct (Hw a Hi) as (q & Hq & H')];
    rewrite E in Hq; by injection Hq as <-.
Qed.
Lemma fits_end t a p p' : fits t a p -> same_end p p' -> fits t a p'.
Proof. unfold fits, same_end. intros F E. injection E as -> -> _ _. done. Qed.
Lemma inv_changes t t' a p' : inv t -> changes t t' a p' -> fits t a p' -> settled p' -> inv t'.
Proof.
  intros [Il Im Is] Hc Hf Hs. split; [by eapply lists_changes|apply Hc|]. intros b q. rewrite (ch_pcbs _ _ _ _ Hc).
  rewrite lookup_insert_Some. intros [[<- <-]|[_ Hq]]; [done|by eapply Is].
Qed.
(** A block with the same state and segments. *)
Lemma settled_same p p' :
  settled p -> state p' = state p -> (idle p -> idle p') -> (unacked p <> [] -> unacked p' <> []) -> handlers p' = handlers p ->
  refused_data p' = refused_data p -> settled p'.
Proof.
  intros [S1 S2 S3 S4 S5 S6 S7] E Hi Hu Hr Hd. unfold handlers in Hr. injection Hr as Hr Ha Hc. split; rewrite E, ?Hr, ?Ha, ?Hc, ?Hd; auto.
Qed.

(** ** Removal of a block *)

(** The block [a] is taken from all lists that it is on. *)
Definition off_lists (a : Z) (t : tcp) :=
  (rmv a (tcp_bound_pcbs t), rmv a (tcp_active_pcbs t), rmv a (tcp_tw_pcbs t), tcp_listen_pcbs t, lpcbs t).
Lemma off_twice a t t' : NoDup (tcp_bound_pcbs t ++ tcp_active_pcbs t ++ tcp_tw_pcbs t) -> lists t' = off_lists a t -> off_lists a t' = off_lists a t.
Proof.
  unfold lists, off_lists. intros (D1 & _ & (D2 & _ & D3)%NoDup_app)%NoDup_app E. injection E as E1 E2 E3 E4 E5.
  assert (R : forall l, NoDup l -> rmv a (rmv a l) = rmv a l).
  { intros l Hl. apply rmv_absent. rewrite rmv_elem by done. tauto. }
  by rewrite E1, E2, E3, E4, E5, !R by done.
Qed.

Lemma lists_off a t t' :
  lists_ok t -> lists t' = off_lists a t -> (forall b, b <> a -> pcbs t' !! b = pcbs t !! b) -> lists_ok t'.
Proof.
  intros [Hd Hb Ha Hw Hl] E Hp. unfold lists, off_lists in E. injection E as E1 E2 E3 E4 E5.
  pose proof Hd as Hd2. apply NoDup_app in Hd2 as (D1 & _ & (D2 & _ & D3)%NoDup_app).
  split; rewrite ?E1, ?E2, ?E3, ?E4, ?E5; try done.
  - eapply sublist_NoDup; [exact Hd|]. repeat apply sublist_app; apply rmv_sublist.
  - intros b [Hb1 Hb2]%rmv_elem; [|done]. rewrite Hp by done. by apply Hb.
  - intros b [Hb1 Hb2]%rmv_elem; [|done]. rewrite Hp by done. by apply Ha.
  - intros b [Hb1 Hb2]%rmv_elem; [|done]. rewrite Hp by done. by apply Hw.
Qed.

(** [TCP_RMV] from the list that the block can be on. *)
Definition off (a : Z) (t : tcp) : unit -> tcp -> Prop := fun _ t' =>
  pcbs t' = pcbs t /\ lists t' = off_lists a t /\ (mem_ok t -> mem_ok t').
Ltac solve_rmv a Hb Hw :=
  let Hi := fresh in
  eexists tt, _; split; [reflexivity|]; unfold off, lists, off_lists;
  rewrite (proj1 (rmv_absent a _ Hb)), (proj1 (rmv_absent a _ Hw));
  match goal with |- context [bool_decide ?Q] => destruct (bool_decide_reflect Q) as [Hi|Hi] end;
  (split; [done|]; split; [|by intros [? ? ? ? ?]]); [done|]; cbn;
  by rewrite (proj2 (rmv_absent a _ Hb)), (proj2 (rmv_absent a _ Hw)), (proj2 (rmv_absent a _ Hi)), (proj1 (rmv_absent a _ Hi)).
Lemma runs_rmv_active a t : a ∉ tcp_bound_pcbs t -> a ∉ tcp_tw_pcbs t -> runs (TCP_RMV tcp_active_pcbs a) t (off a t).
Proof. intros Hb Hw. solve_rmv a Hb Hw. Qed.
Lemma runs_rmv_tw a t : a ∉ tcp_bound_pcbs t -> a ∉ tcp_active_pcbs t -> runs (TCP_RMV tcp_tw_pcbs a) t (off a t).
Proof. intros Hb Hw. solve_rmv a Hb Hw. Qed.
Lemma runs_rmv_bound a t : a ∉ tcp_active_pcbs t -> a ∉ tcp_tw_pcbs t -> runs (TCP_RMV tcp_bound_pcbs a) t (off a t).
Proof. intros Hb Hw. solve_rmv a Hb Hw. Qed.

(** The block goes back to the pool. *)
Lemma runs_free_pcb a t p :
  mem_ok t -> pcbs t !! a = Some p -> idle p ->
  runs (free_pcb a) t (fun _ t' => pcbs t' = delete a (pcbs t) /\ lists t' = lists t /\ mem_ok t').
Proof.
  intros [Hc Hl Hs Hn Hb] E [I1 I2]. unfold runs, free_pcb. rewrite E. cbn [mbind option_bind].
  destruct (release_ok (conn_pool t) [] a (map_to_list (delete a (pcbs t))).*1) as (m & Em & Hm).
  { eapply holds_perm; [|exact Hc]. by rewrite <- (map_to_list_delete _ a p E). }
  rewrite Em. cbn [mbind option_bind]. eexists tt, _. split; [reflexivity|]. split; [done|]. split; [done|].
  split; [exact Hm|exact Hl| |exact Hn|].
  - cbn. eapply holds_perm; [|exact Hs]. rewrite (seg_addrs_lookup _ a p E). unfold addrs, segments_of. by rewrite I1, I2.
  - intros b q. cbn. rewrite lookup_delete_Some. intros [_ Hq]. by eapply Hb.
Qed.

(** [t'] is [t] without the block. *)
Record removed (a : Z) (t t' : tcp) : Prop := {
  rm_pcbs : pcbs t' = delete a (pcbs t); rm_lists : lists t' = off_lists a t; rm_mem : mem_ok t'
}.
Lemma inv_removed a t t' : inv_but a t -> removed a t t' -> inv t'.
Proof.
  intros [Il Im Is] [R1 R2 R3]. split; [|done|].
  - eapply lists_off; [exact Il|exact R2|]. intros b Hb. rewrite R1. by apply lookup_delete_ne.
  - intros b q. rewrite R1, lookup_delete_Some. intros [Hn Hq]. by eapply Is.
Qed.

(** ** What the application may do *)

Variable output_err : nat -> Z.
Variables frag_ram frag_ref : nat -> nat -> bool.
Variable ram : nat -> bool.
Variable stale : list Z.
Variable app : call -> tcp -> option (Z * tcp).

(** The block stays on its list, the number of the next byte stays what it is, and
    a connection does not go back to the states before it. *)
Record keeps (a : Z) (t t' : tcp) : Prop := {
  kp_active : a ∈ tcp_active_pcbs t -> a ∈ tcp_active_pcbs t';
  kp_tw : a ∈ tcp_tw_pcbs t -> a ∈ tcp_tw_pcbs t';
  kp_block : forall p, pcbs t !! a = Some p -> exists p', pcbs t' !! a = Some p' /\ rcv_nxt p' = rcv_nxt p /\
               (connected_state (state p) -> connected_state (state p'))
}.
Definition call_block (c : call) : option Z :=
  match c with
  | Accept _ _ a | Recv _ _ a _ | Sent _ _ a _ | Connected _ _ a | Poll _ _ a => Some a
  | Err _ _ _ => None
  end.
(** A connection that the application is told about has no function for its data
    yet. *)
Record accepting (a : Z) (t : tcp) : Prop := {
  ac_but : inv_but a t; ac_active : a ∈ tcp_active_pcbs t;
  ac_block : exists p, pcbs t !! a = Some p /\ state p = ESTABLISHED
}.
Definition callable (c : call) (t : tcp) : Prop :=
  match c with
  | Accept _ _ a | Connected _ _ a => accepting a t
  | Err _ _ _ => inv t
  | Recv _ _ a _ | Sent _ _ a _ | Poll _ _ a => inv t /\ is_Some (pcbs t !! a)
  end.
(** What the function leaves as it was: unless it says that it has aborted the
    connection, the block of the call; when an error is reported, the listeners and
    the blocks with this function and argument. *)
Definition keeps_listeners (t t' : tcp) : Prop := forall b, b ∈ tcp_listen_pcbs t -> b ∈ tcp_listen_pcbs t'.
Definition behaves (c : call) (e : Z) (t t' : tcp) : Prop :=
  match c with
  | Err f arg _ => keeps_listeners t t' /\
      forall a p, pcbs t !! a = Some p -> errf p = Some f -> callback_arg p = arg -> keeps a t t'
  | Accept _ _ a | Recv _ _ a _ | Sent _ _ a _ | Connected _ _ a | Poll _ _ a => e <> ERR_ABRT -> keeps a t t'
  end.
(** The contract of the application: its functions give a result, and the invariant
    holds again. *)
Definition app_ok : Prop := forall c t, callable c t -> exists e t', app c t = Some (e, t') /\ inv t' /\ behaves c e t t'.
Hypothesis contract : app_ok.

Lemma inv_calls (t : tcp) c : inv t -> inv (t <| calls ::= fun l => l ++ [c] |>).
Proof. by intros [[? ? ? ? ?] [? ? ? ? ?] ?]. Qed.
Lemma accepting_calls a t c : accepting a t -> accepting a (t <| calls ::= fun l => l ++ [c] |>).
Proof. intros [[[? ? ? ? ?] [? ? ? ? ?] ?] ? ?]. by split. Qed.
Lemma callable_calls c t : callable c t -> callable c (t <| calls ::= fun l => l ++ [c] |>).
Proof.
  destruct c; cbn [callable]; try apply accepting_calls; try apply inv_calls.
  all: intros [Hi Ha]; split; [by apply inv_calls|done].
Qed.
Lemma keeps_refl a t : keeps a t t.
Proof. split; [done|done|]. intros p E. by exists p. Qed.
Lemma keeps_trans a t1 t2 t3 : keeps a t1 t2 -> keeps a t2 t3 -> keeps a t1 t3.
Proof.
  intros [A1 A2 A3] [B1 B2 B3]. split; [auto|auto|]. intros p E. destruct (A3 p E) as (p2 & E2 & N2 & C2).
  destruct (B3 p2 E2) as (p3 & E3 & N3 & C3). exists p3. split; [done|]. split; [congruence|auto].
Qed.
Lemma keeps_changes a t t' p p' :
  pcbs t !! a = Some p -> changes t t' a p' -> rcv_nxt p' = rcv_nxt p -> (connected_state (state p) -> connected_state (state p')) -> keeps a t t'.
Proof.
  intros E [C1 C2 _] Hn Hs. unfold lists in C2. injection C2 as E1 E2 E3 E4 E5. split; [by rewrite E2|by rewrite E3|].
  intros q Hq. exists p'. rewrite C1. split; [apply lookup_insert_eq|]. rewrite E in Hq. injection Hq as <-. done.
Qed.
Lemma runs_call c t a : callable c t -> call_block c = Some a ->
  runs (call_app app c) t (fun e t' => inv t' /\ (e <> ERR_ABRT -> keeps a t t')).
Proof.
  intros Hc Ha. destruct (contract c _ (callable_calls c t Hc)) as (e & t' & E & Hi & Hk).
  exists e, t'. split; [exact E|]. split; [done|]. intros He.
  destruct c; try discriminate Ha; injection Ha as <-; destruct (Hk He) as [K1 K2 K3]; by split.
Qed.
Lemma runs_err f x err t :
  inv t -> runs (event_err app f x err) t (fun _ t' => inv t' /\ keeps_listeners t t' /\
    forall a p, pcbs t !! a = Some p -> errf p = f -> callback_arg p = x -> keeps a t t').
Proof.
  intros Hi. unfold event_err. destruct f as [f|].
  2:{ apply runs_ret. split; [done|]. split; [by intros b|]. intros. apply keeps_refl. }
  destruct (contract (Err f x err) _ (callable_calls (Err f x err) t Hi)) as (e & t' & E & Hi' & Hk & Hb).
  unfold runs, bind, call_app. rewrite E. cbn [mbind option_bind]. exists tt, t'. split; [done|]. split; [done|]. split; [done|].
  intros a p Ep Ef Ex. destruct (Hb a p Ep Ef Ex) as [K1 K2 K3]. by split.
Qed.

(** ** The functions on a block *)

Lemma runs_output a t p :
  mem_ok t -> pcbs t !! a = Some p ->
  runs (output output_err frag_ram frag_ref ram a) t (fun _ t' => exists p', changes t t' a p' /\ frame p p').
Proof.
  intros Hm E. unfold output. apply runs_get, runs_get. apply (runs_on_pcb a _ t p (fun _ => frame p)); [done|done|].
  intros live Hb Hn. destruct (tcp_output_ok output_err frag_ram frag_ref ram (tcp_ticks t) (bool_decide (tcp_input_pcb t = Some a)) live p (nt t) Hb)
    as (r & p' & w' & E' & Hb' & Hf). exists r, p', w'. split_and!; try done. by eapply frame_nums.
Qed.

(** Only the layers below change. *)
Definition same_blocks (t : tcp) : unit -> tcp -> Prop := fun _ t' =>
  pcbs t' = pcbs t /\ lists t' = lists t /\ mem_ok t'.
Lemma runs_on_net f t :
  mem_ok t -> (exists w', f (nt t) = Some w' /\ net_ok w' /\ n_segs w' = n_segs (nt t)) ->
  runs (on_net f) t (same_blocks t).
Proof.
  intros [Hc Hl Hs Hn Hb] (w' & E & Hok & En). unfold runs, on_net. rewrite E. cbn [mbind option_bind].
  eexists tt, _. split; [reflexivity|]. split; [done|]. split; [done|]. split; try done. cbn. by rewrite En.
Qed.
Lemma runs_rst seqno_ ackno_ lip rip lport rport t :
  mem_ok t -> runs (rst output_err frag_ram frag_ref ram seqno_ ackno_ lip rip lport rport) t (same_blocks t).
Proof. intros Hm. apply runs_on_net; [done|]. by apply tcp_rst_ok, (mo_net _ Hm). Qed.
Lemma runs_free_pbuf q t : mem_ok t -> runs (free_pbuf q) t (same_blocks t).
Proof.
  intros Hm. apply runs_on_net; [done|]. eexists. split; [done|]. split; [by apply free_net_ok, (mo_net _ Hm)|].
  apply pbuf_free_sends.
Qed.
Lemma inv_same t x t' : inv t -> same_blocks t x t' -> inv t'.
Proof.
  intros [[? ? ? ? ?] Im Is] (E1 & E2 & Hm). unfold lists in E2. injection E2 as E3 E4 E5 E6 E7.
  split; [split; rewrite ?E1, ?E3, ?E4, ?E5, ?E6, ?E7; done|done|by rewrite E1].
Qed.

(** ** Removing and aborting *)

Lemma segs_free_ok (l : list tcp_seg) live (w : net P PS) :
  holds (n_segs w) (fmap (M:=list) sg_addr l ++ live) -> net_ok w ->
  exists w', tcp_segs_free l w = Some w' /\ holds (n_segs w') live /\ net_ok w'.
Proof.
  intros Hh Hok. destruct (TcpWrite.segs_free_spec l live w Hh) as (w' & E & S & Hh'). exists w'. split; [done|].
  split; [done|]. by eapply sends_ok.
Qed.

Lemma nums_flags f p :
  (forall x, flag_set (f x) TF_INFR = true -> flag_set x TF_INFR = true) -> nums_ok p -> nums_ok (p <| flags ::= f |>).
Proof. intros Hf Hn. apply (vital_nums p); [done|apply Hf|done]. Qed.

(** The queues are freed at once. *)
Lemma runs_free_queues {B} a t p p' (k : unit -> M B) (Q : B -> tcp -> Prop) :
  mem_ok t -> pcbs t !! a = Some p -> idle p' -> nums_ok p' ->
  (forall t', changes t t' a p' -> runs (k tt) t' Q) ->
  runs (bind (on_net (TcpOut.tcp_segs_free (unsent p))) (fun _ =>
          bind (on_net (TcpOut.tcp_segs_free (unacked p))) (fun _ => bind (put_pcb a p') k))) t Q.
Proof.
  intros Hm E [I1 I2] Hn' Hk. destruct (block_focus t a p Hm E) as [[B1 B2 B3] _].
  unfold addrs, segments_of in B2. rewrite fmap_app, <- app_assoc in B2.
  destruct (segs_free_ok _ _ _ B2 B3) as (w1 & E1 & H1' & Hok1). destruct (segs_free_ok _ _ _ H1' Hok1) as (w2 & E2 & H2' & Hok2).
  set (t' := t <| nt := w1 |> <| nt := w2 |> <| pcbs ::= <[a := p']> |>).
  assert (Hc : changes t t' a p').
  { split; [done|done|]. apply (block_unfocus t _ a p p'); try done. unfold addrs, segments_of. split; unfold addrs, segments_of.
    - by rewrite I1, I2.
    - by rewrite I1, I2.
    - done. }
  destruct (Hk t' Hc) as (x & t2 & Ek & HQ). exists x, t2. split; [|exact HQ].
  unfold bind, on_net. rewrite E1. cbn [mbind option_bind]. cbn. rewrite E2. cbn [mbind option_bind]. exact Ek.
Qed.

(** What is left of a block that is purged. *)
Definition purged (p p' : tcp_pcb) : Prop :=
  idle p' /\ state p' = state p /\ local_port p' = local_port p /\ handlers p' = handlers p /\ rcv_nxt p' = rcv_nxt p /\
  (refused_data p' <> None -> refused_data p <> None).
Lemma runs_purge a t p :
  mem_ok t -> pcbs t !! a = Some p -> (state p ∈ [CLOSED; TIME_WAIT] -> idle p) -> state p <> LISTEN ->
  runs (tcp_pcb_purge a) t (fun _ t' => exists p', changes t t' a p' /\ purged p p').
Proof.
  intros Hm E Hidle Hl. apply (runs_get_pcb a p); [done|]. case_bool_decide as Hs.
  { apply runs_ret. exists p. split; [by apply changes_refl|]. split; [|done]. apply Hidle.
    rewrite !elem_of_cons, elem_of_nil in *. tauto. }
  destruct (block_focus t a p Hm E) as [_ Hn].
  eapply runs_bind with (R := fun _ t1 => pcbs t1 = pcbs t /\ lists t1 = lists t /\ mem_ok t1).
  { destruct (refused_data p) as [[q fl]|]; [by apply runs_free_pbuf|by apply runs_ret]. }
  intros _ t1 (E1 & E2 & Hm1). set (p' := p <| refused_data := None |> <| rtime := -1 |> <| unsent := [] |> <| unacked := [] |>
                 <| unsent_oversize := 0 |>).
  assert (G : nums_ok p' /\ idle p' /\ purged p p').
  { split; [destruct Hn; by split|]. split; [done|]. unfold purged. split_and!; try done. }
  clearbody p'. destruct G as (Hn' & G1 & G2). rewrite <- E1 in E.
  destruct (runs_free_queues a t1 p p' (fun _ => ret tt) (fun _ t' => changes t1 t' a p') Hm1 E G1 Hn') as (y & t2 & Ex & Hc).
  { intros t2 Hc. by apply runs_ret. }
  exists y, t2. split; [|exists p'; split; [|done]].
  - destruct y. unfold bind, put_pcb, modify, ret in Ex |- *.
    destruct (on_net (tcp_segs_free (unsent p)) t1) as [[? t3]|]; [|done]. cbn [mbind option_bind] in *.
    destruct (on_net (tcp_segs_free (unacked p)) t3) as [[? t4]|]; [|done]. cbn [mbind option_bind] in *. exact Ex.
  - destruct Hc as [C1 C2 C3]. split; [by rewrite C1, E1|by rewrite C2|done].
Qed.

(** [tcp_pcb_remove] leaves the block in memory, closed and on no list. *)
Lemma runs_pcb_remove l `{!Setter l} a t p :
  lists_ok t -> mem_ok t -> pcbs t !! a = Some p -> (state p ∈ [CLOSED; TIME_WAIT] -> idle p) -> state p <> LISTEN ->
  runs (TCP_RMV l a) t (off a t) ->
  runs (tcp_pcb_remove output_err frag_ram frag_ref ram l a) t (fun _ t' => exists p',
    pcbs t' = <[a := p']> (pcbs t) /\ lists t' = off_lists a t /\ mem_ok t' /\ idle p' /\ state p' = CLOSED).
Proof.
  intros Hlo Hm E Hidle Hl Hr. unfold tcp_pcb_remove. run (exact Hr). intros _ t1 (E1 & E2 & Hm1). specialize (Hm1 Hm).
  run (apply (runs_purge a t1 p); [done|by rewrite E1|done|done]).
  intros _ t2 (p2 & Hc2 & Hi2 & _). pose proof (changes_lookup _ _ _ _ Hc2) as L2.
  apply (runs_get_pcb a p2); [done|].
  eapply runs_bind with (R := fun _ t' => exists p', changes t2 t' a p' /\ idle p'); cbv beta.
  { apply runs_when; [|intros _; exists p2; split; [apply changes_refl; [apply Hc2|done]|done]]. intros _.
    destruct (block_focus t2 a p2 (ch_mem _ _ _ _ Hc2) L2) as [_ Hn2].
    run (apply (runs_update a _ t2 p2); [apply Hc2|done|done|apply nums_flags; [intros ?; by apply infr_or|done]]).
    intros _ t3 Hc3. run (eapply (runs_output a t3); [apply Hc3|by eapply changes_lookup]).
    intros _ t4 (p4 & Hc4 & Hf4). apply runs_ret. exists p4. split; [by eapply changes_trans|]. by apply (fr_idle _ _ Hf4). }
  intros _ t3 (p3 & Hc3 & Hi3). pose proof (changes_lookup _ _ _ _ Hc3) as L3.
  destruct (block_focus t3 a p3 (ch_mem _ _ _ _ Hc3) L3) as [_ Hn3].
  eapply runs_mono; [apply (runs_update a _ t3 p3); [apply Hc3|done|done|by destruct Hn3]|cbv beta].
  intros _ t4 Hc4. eexists. pose proof (changes_trans _ _ _ _ _ _ (changes_trans _ _ _ _ _ _ Hc2 Hc3) Hc4) as [C1 C2 C3].
  split; [by rewrite C1, E1|]. split; [by rewrite C2|]. split; [done|]. done.
Qed.

(** A block that is closed and on no list is freed. *)
Lemma runs_free_removed a t t1 p1 :
  pcbs t1 = <[a := p1]> (pcbs t) -> lists t1 = off_lists a t -> mem_ok t1 -> idle p1 ->
  runs (free_pcb a) t1 (fun _ t' => removed a t t').
Proof.
  intros E1 E2 Hm Hi. eapply runs_mono; [apply (runs_free_pcb a t1 p1); [done|rewrite E1; apply lookup_insert_eq|done]|cbv beta].
  intros _ t' (F1 & F2 & F3). split; [by rewrite F1, E1, delete_insert_eq|by rewrite F2|done].
Qed.

Lemma off_active a t p : lists_ok t -> pcbs t !! a = Some p -> state p <> TIME_WAIT -> a ∉ tcp_bound_pcbs t ->
  runs (TCP_RMV tcp_active_pcbs a) t (off a t).
Proof.
  intros Hl E Hs Hb. apply runs_rmv_active; [done|]. intros Hw. destruct (lo_tw _ Hl a Hw) as (q & Hq & Hs').
  rewrite E in Hq. by injection Hq as <-.
Qed.
Lemma off_tw a t p : lists_ok t -> pcbs t !! a = Some p -> state p = TIME_WAIT -> runs (TCP_RMV tcp_tw_pcbs a) t (off a t).
Proof.
  intros Hl E Hs. apply runs_rmv_tw; intros Hi.
  - destruct (lo_bound _ Hl a Hi) as (q & Hq & Hs' & _). rewrite E in Hq. injection Hq as <-. congruence.
  - destruct (lo_active _ Hl a Hi) as (q & Hq & Hs'). rewrite E in Hq. injection Hq as <-. apply Hs'. rewrite Hs. set_solver.
Qed.

Lemma removed_listeners a t t' : removed a t t' -> tcp_listen_pcbs t' = tcp_listen_pcbs t.
Proof. intros [_ E _]. unfold lists, off_lists in E. by injection E. Qed.

(** [TCP_PCB_REMOVE_ACTIVE] *)
Definition removable (p : tcp_pcb) : Prop := state p <> LISTEN /\ (state p ∈ [CLOSED; TIME_WAIT] -> idle p).
Lemma settled_removable p : settled p -> removable p.
Proof. intros Hs. split; apply Hs. Qed.
Lemma runs_remove_active a t p :
  inv_but a t -> removable p -> pcbs t !! a = Some p -> state p <> TIME_WAIT -> a ∉ tcp_bound_pcbs t ->
  runs (TCP_PCB_REMOVE_ACTIVE output_err frag_ram frag_ref ram a) t (fun _ t' => exists p',
    pcbs t' = <[a := p']> (pcbs t) /\ lists t' = off_lists a t /\ mem_ok t' /\ idle p' /\ state p' = CLOSED).
Proof.
  intros [Il Im Is] [S1 S2] E Hs Hb. unfold TCP_PCB_REMOVE_ACTIVE.
  run (apply (runs_pcb_remove tcp_active_pcbs a t p); [done|done|done|done|done|by eapply off_active]).
  intros _ t1 (p1 & E1 & E2 & Hm & Hi & Hc). eexists tt, _. split; [reflexivity|]. exists p1. split_and!; try done.
  by destruct Hm.
Qed.

(** A connection is aborted: its block is gone, and the rest is as it was but for
    what the application does when it hears of it. *)
Lemma runs_abandon_but a reset t p :
  inv_but a t -> removable p -> pcbs t !! a = Some p -> a ∉ tcp_bound_pcbs t ->
  runs (tcp_abandon output_err frag_ram frag_ref ram app a reset) t (fun _ t' => inv t' /\ keeps_listeners t t').
Proof.
  intros Hi Hr0 E Hb. apply (runs_get_pcb a p); [done|]. pose proof Hr0 as [S1 S2].
  case_bool_decide as Hs.
  - run (apply (runs_pcb_remove tcp_tw_pcbs a t p); [apply Hi|apply Hi|done|exact S2|exact S1|by eapply off_tw; [apply Hi|..]]).
    intros _ t1 (p1 & E1 & E2 & Hm & Hidle & _). eapply runs_mono; [by eapply runs_free_removed|cbv beta].
    intros _ t2 Hr. split; [by eapply inv_removed|]. unfold keeps_listeners. by rewrite (removed_listeners _ _ _ Hr).
  - run (by eapply runs_remove_active). intros _ t1 (p1 & E1 & E2 & Hm & [I1 I2] & _).
    assert (L1 : pcbs t1 !! a = Some p1) by (rewrite E1; apply lookup_insert_eq).
    apply (runs_get_pcb a p1); [done|]. rewrite I1, I2.
    run (apply (runs_on_net _ t1 Hm); exists (nt t1); split; [done|split; [apply Hm|done]]). intros _ t2 (A1 & A2 & Hm2).
    run (apply (runs_on_net _ t2 Hm2); exists (nt t2); split; [done|split; [apply Hm2|done]]). intros _ t3 (B1 & B2 & Hm3).
    eapply runs_bind with (R := same_blocks t3); [apply runs_when; [intros _; by apply runs_rst|by intros _]|].
    intros _ t4 (C1 & C2 & Hm4).
    run (eapply (runs_free_removed a t t4 p1); [congruence|congruence|done|done]). intros _ t5 Hr.
    eapply runs_mono; [apply runs_err; by eapply inv_removed|cbv beta]. intros _ t6 (Hi6 & Hk & _). split; [done|].
    unfold keeps_listeners in *. by rewrite <- (removed_listeners _ _ _ Hr).
Qed.
Lemma runs_abandon a reset t p :
  inv t -> pcbs t !! a = Some p -> a ∉ tcp_bound_pcbs t ->
  runs (tcp_abandon output_err frag_ram frag_ref ram app a reset) t (fun _ t' => inv t' /\ keeps_listeners t t').
Proof.
  intros Hi E. apply (runs_abandon_but a reset t p); [by apply inv_inv_but|by eapply settled_removable, Hi|done].
Qed.

(** ** Allocation *)

Lemma oldest_ok eligible next_prio (t : tcp) l mprio inactivity inactive :
  (forall a, a ∈ l -> is_Some (pcbs t !! a)) ->
  exists r, oldest eligible next_prio t l mprio inactivity inactive = Some r /\
    forall a, r = Some a -> a ∈ l \/ inactive = Some a.
Proof.
  revert mprio inactivity inactive. induction l as [|b l IH]; intros mprio inactivity inactive Hl; cbn [oldest].
  { exists inactive. split; [done|auto]. }
  destruct (Hl b) as [p E]; [constructor|]. rewrite E. cbn [mbind option_bind]. cbn zeta. destruct (_ && _).
  - edestruct IH as (r & Er & Hr); [intros a Ha; apply Hl; by constructor|]. exists r. split; [exact Er|].
    intros a Ha. destruct (Hr a Ha) as [|[= <-]]; left; [by constructor|constructor].
  - edestruct IH as (r & Er & Hr); [intros a Ha; apply Hl; by constructor|]. exists r. split; [exact Er|].
    intros a Ha. destruct (Hr a Ha) as [|]; [left; by constructor|by right].
Qed.

Lemma keeps_listeners_refl t : keeps_listeners t t.
Proof. by intros b. Qed.
Lemma keeps_listeners_trans t1 t2 t3 : keeps_listeners t1 t2 -> keeps_listeners t2 t3 -> keeps_listeners t1 t3.
Proof. unfold keeps_listeners. auto. Qed.

Lemma not_bound t a : lists_ok t -> a ∈ tcp_active_pcbs t \/ a ∈ tcp_tw_pcbs t -> a ∉ tcp_bound_pcbs t.
Proof.
  intros [Hd _ _ _ _] Hi Hb. apply NoDup_app in Hd as (_ & Hd & _). apply (Hd a Hb). by apply elem_of_app.
Qed.

(** The oldest block of a list is aborted. *)
Lemma runs_kill (l : tcp -> list Z) eligible next_prio mprio t :
  inv t -> (forall a, a ∈ l t -> a ∈ tcp_active_pcbs t \/ a ∈ tcp_tw_pcbs t) ->
  runs (bind (fun t => a ← oldest eligible next_prio t (l t) mprio 0 None; Some (a, t))
          (fun a => match a with Some a => tcp_abort output_err frag_ram frag_ref ram app a | None => ret tt end)) t
    (fun _ t' => inv t' /\ keeps_listeners t t').
Proof.
  intros Hi Hl. pose proof (iv_lists _ Hi) as Hlo.
  assert (Hin : forall a, a ∈ l t -> exists p, pcbs t !! a = Some p).
  { intros a Ha. destruct (Hl a Ha) as [Ha'|Ha']; [destruct (lo_active _ Hlo a Ha') as (p & E & _)|destruct (lo_tw _ Hlo a Ha') as (p & E & _)]; by exists p. }
  destruct (oldest_ok eligible next_prio t (l t) mprio 0 None) as (r & Er & Hr); [intros a Ha; by apply Hin|].
  unfold runs, bind. rewrite Er. cbn [mbind option_bind]. destruct r as [a|]; [|exists tt, t; split; [done|split; [done|apply keeps_listeners_refl]]].
  destruct (Hr a eq_refl) as [Ha|]; [|done]. destruct (Hin a Ha) as (p & E).
  apply (runs_abandon a true t p); [done|done|]. apply not_bound; auto.
Qed.
Lemma runs_kill_prio prio_ t : inv t ->
  runs (tcp_kill_prio output_err frag_ram frag_ref ram app prio_) t (fun _ t' => inv t' /\ keeps_listeners t t').
Proof. intros Hi. apply (runs_kill tcp_active_pcbs); auto. Qed.
Lemma runs_kill_timewait t : inv t ->
  runs (tcp_kill_timewait output_err frag_ram frag_ref ram app) t (fun _ t' => inv t' /\ keeps_listeners t t').
Proof. intros Hi. apply (runs_kill tcp_tw_pcbs); auto. Qed.

(** The state with a new block [a] that has been taken from the pool. *)
Definition taken_block (t : tcp) (r : option Z) (t' : tcp) : Prop :=
  match r with
  | None => inv t' /\ keeps_listeners t t'
  | Some a => exists t0 m, inv t0 /\ keeps_listeners t t0 /\ t' = t0 <| conn_pool := m |> /\ pcbs t0 !! a = None /\
                holds m (a :: (map_to_list (pcbs t0)).*1)
  end.
Lemma runs_malloc t0 t : inv t -> keeps_listeners t0 t -> runs malloc_pcb t (taken_block t0).
Proof.
  intros Hi Hk. unfold runs, malloc_pcb. pose proof (alloc_new _ _ (mo_conn _ (iv_mem _ Hi))) as Ha.
  destruct (alloc (conn_pool t)) as [[a m]|].
  - destruct Ha as [Ha Hm]. eexists (Some a), _. split; [reflexivity|]. exists t, m. split_and!; try done.
    destruct (pcbs t !! a) as [p|] eqn:E; [|done]. exfalso. apply Ha. apply list_elem_of_fmap. exists (a, p).
    split; [done|]. by apply elem_of_map_to_list.
  - by exists None, t.
Qed.
Lemma runs_or_else t0 r m t : taken_block t0 r t ->
  (forall t, inv t -> runs m t (fun _ t' => inv t' /\ keeps_listeners t t')) -> runs (or_else r m) t (taken_block t0).
Proof.
  intros Ht Hm. destruct r as [a|]; [by apply runs_ret|]. destruct Ht as [Hi Hk]. unfold or_else.
  run (by apply Hm). intros _ t1 [Hi1 Hk1]. apply runs_malloc; [done|]. by eapply keeps_listeners_trans.
Qed.

Lemma fresh_ok prio_ n ticks ctr : nums_ok (fresh_pcb prio_ n ticks ctr) /\ settled (fresh_pcb prio_ n ticks ctr).
Proof.
  split; split; cbn; try done; unfold initial_mss, TCP_WND, TCP_MSS, in_u16, in_u32; cbn; try lia.
  intros E _. by apply E, (bool_decide_unpack _).
Qed.

(** The new block is in memory and on no list. *)
Definition new_block (t : tcp) (r : option Z) (t' : tcp) : Prop :=
  inv t' /\ keeps_listeners t t' /\
  forall a, r = Some a -> exists prio_ n ticks ctr, pcbs t' !! a = Some (fresh_pcb prio_ n ticks ctr) /\
    a ∉ tcp_bound_pcbs t' ++ tcp_active_pcbs t' ++ tcp_tw_pcbs t'.
Lemma inv_new_block t m a p x :
  inv t -> pcbs t !! a = None -> holds m (a :: (map_to_list (pcbs t)).*1) -> nums_ok p -> settled p -> segments_of p = [] ->
  inv (t <| conn_pool := m |> <| iss := x |> <| pcbs ::= <[a := p]> |>) /\
  a ∉ tcp_bound_pcbs t ++ tcp_active_pcbs t ++ tcp_tw_pcbs t.
Proof.
  intros [[Hd Hb Ha Hw Hl] [Mc Ml Ms Mn Mb] Is] Ea Hm Hn Hs Hseg.
  assert (G : forall (l : list Z) (Q : tcp_pcb -> Prop), (forall b, b ∈ l -> exists p, pcbs t !! b = Some p /\ Q p) ->
    forall b, b ∈ l -> exists q, <[a := p]> (pcbs t) !! b = Some q /\ Q q).
  { intros l Q Hq b Hbl. destruct (Hq b Hbl) as (q & Eq & HQ). exists q. split; [|done]. rewrite lookup_insert_ne; [done|congruence]. }
  split.
  - split; [split; try done; by apply G|split; try done|]; cbn.
    + eapply holds_perm; [|exact Hm]. by rewrite map_to_list_insert.
    + eapply holds_perm; [|exact Ms]. rewrite seg_addrs_insert, delete_id by done. unfold addrs. by rewrite Hseg.
    + intros b q [[<- <-]|[_ Hq]]%lookup_insert_Some; [split; [by rewrite Hseg|done]|by eapply Mb].
    + intros b q [[<- <-]|[_ Hq]]%lookup_insert_Some; [done|by eapply Is].
  - rewrite !elem_of_app. intros [Hi|[Hi|Hi]]; [destruct (Hb a Hi) as (q & Eq & _)|destruct (Ha a Hi) as (q & Eq & _)|destruct (Hw a Hi) as (q & Eq & _)];
      congruence.
Qed.
Lemma runs_alloc prio_ t : inv t -> runs (tcp_alloc output_err frag_ram frag_ref ram app prio_) t (new_block t).
Proof.
  intros Hi. unfold tcp_alloc. run (apply (runs_malloc t); [done|apply keeps_listeners_refl]). intros r1 t1 H1'.
  run (eapply (runs_or_else t); [exact H1'|intros; by apply runs_kill_timewait]). intros r2 t2 H2'.
  run (eapply (runs_or_else t); [exact H2'|intros; by apply runs_kill_prio]). intros r3 t3 H3'.
  destruct r3 as [a|]; [|destruct H3' as [Hi3 Hk3]; apply runs_ret; by split].
  destruct H3' as (t0 & m & Hi0 & Hk0 & -> & Ea & Hm). set (x := u32 (iss t0 + tcp_ticks t0)).
  set (p := fresh_pcb prio_ x (tcp_ticks t0) (tcp_timer_ctr t0)). pose proof (fresh_ok prio_ x (tcp_ticks t0) (tcp_timer_ctr t0)) as [F1 F2].
  destruct (inv_new_block t0 m a p x Hi0 Ea Hm F1 F2) as [Hi' Hnot]; [done|].
  eexists (Some a), _. split; [reflexivity|]. split; [exact Hi'|]. split; [exact Hk0|]. intros b [= <-].
  exists prio_, x, (tcp_ticks t0), (tcp_timer_ctr t0). split; [apply lookup_insert_eq|exact Hnot].
Qed.

End inv.

(** The first step of a sequence, for the files that build on this one. *)
Tactic Notation "run" tactic3(tac) := eapply runs_bind; [tac|cbv beta].

End TcpInv.
