(* ===== verification/TcpInput.v ===== *)
(** * TCP: segments that come in

    No segment makes [tcp_input] undefined: whatever a packet says, the invariant of
    [TcpInv] holds again behind it. *)

From stdpp Require Import gmap.
From S2P Require Import Prelude LwipDef InetChksum IpAddr Mem Memp Pbuf Packet IpFrag Ip TcpDef TcpOut TcpIn TcpWrite TcpSend TcpAck TcpRecv TcpSafe Tcp TcpInv.

#[local] Open Scope Z_scope.

Module TcpInput.
Import LwipDef InetChksum IpAddr Packet Ip TcpDef TcpOut TcpIn TcpSafe Tcp TcpInv.
#[local] Open Scope update_scope.

Section input.
Context {P PS PC PL : Type} `{Pool P} `{Pool PS} `{Pool PC} `{Pool PL}.
#[local] Abbreviation tcp := (@Tcp.tcp P PS PC PL).
#[local] Abbreviation M := (@Tcp.M P PS PC PL).
Variable output_err : nat -> Z.
Variables frag_ram frag_ref : nat -> nat -> bool.
Variable ram : nat -> bool.
Variable stale : list Z.
Variable app : call -> tcp -> option (Z * tcp).
Hypothesis contract : app_ok app.

#[local] Abbreviation output := (Tcp.output output_err frag_ram frag_ref ram).

Lemma runs_get_lpcb {B} b p (k : tcp_pcb_listen -> M B) (t : tcp) Q :
  lpcbs t !! b = Some p -> runs (k p) t Q -> runs (bind (fun t => p ← lpcbs t !! b; Some (p, t)) k) t Q.
Proof. intros E Hk. unfold runs, bind. by rewrite E. Qed.
Lemma runs_lift {A B} (x : option A) y (k : A -> M B) (t : tcp) Q :
  x = Some y -> runs (k y) t Q -> runs (bind (lift x) k) t Q.
Proof. intros -> Hk. exact Hk. Qed.

Lemma runs_bind_assoc {A B C} (m : M A) (k : A -> M B) (l : B -> M C) (t : tcp) Q :
  runs (bind (bind m k) l) t Q -> runs (bind m (fun x => bind (k x) l)) t Q.
Proof. unfold runs, bind. by destruct (m t) as [[x t1]|]. Qed.

Lemma runs_bind_flat {A B C} (m : M A) (k : A -> M B) (l : B -> M C) (t : tcp) Q :
  runs (bind m (fun x => bind (k x) l)) t Q -> runs (bind (bind m k) l) t Q.
Proof. unfold runs, bind. by destruct (m t) as [[x t1]|]. Qed.

(** ** Steps between states that satisfy the invariant *)

Lemma inv_same_end (t t' : tcp) a p p' :
  inv t -> pcbs t !! a = Some p -> changes t t' a p' -> state p' = state p -> local_port p' = local_port p -> settled p' -> inv t'.
Proof.
  intros Hi E Hc Hs Hp Hse. eapply inv_changes; [done|done| |done].
  destruct (fits_lookup t a p (iv_lists _ Hi) E) as (F1 & F2 & F3). unfold fits. by rewrite Hs, Hp.
Qed.
(** A change of fields that the invariant does not speak of. *)
Lemma runs_update_same a f (t : tcp) p :
  inv t -> pcbs t !! a = Some p -> segments_of (f p) = segments_of p -> nums_ok (f p) ->
  state (f p) = state p -> local_port (f p) = local_port p -> settled (f p) ->
  runs (update_pcb a f) t (fun _ t' => inv t' /\ changes t t' a (f p)).
Proof.
  intros Hi E H1' H2' H3' H4' H5'. eapply runs_mono; [apply (runs_update a f t p); [apply Hi|done|done|done]|cbv beta].
  intros _ t' Hc. split; [|done]. by eapply inv_same_end.
Qed.
Lemma inv_frame (t t' : tcp) a p p' : inv t -> pcbs t !! a = Some p -> changes t t' a p' -> frame p p' -> inv t'.
Proof.
  intros Hi E Hc Hf. destruct (frame_state _ _ Hf) as (G1 & G2 & G3 & _ & G4). eapply inv_same_end; try done.
  apply (settled_same p); [exact (iv_settled _ Hi _ _ E)|done|apply Hf|apply Hf|done|done].
Qed.
Lemma runs_output_inv a (t : tcp) p :
  inv t -> pcbs t !! a = Some p -> runs (output a) t (fun _ t' => inv t' /\ exists p', changes t t' a p' /\ frame p p').
Proof.
  intros Hi E. eapply runs_mono; [apply runs_output; [apply Hi|exact E]|cbv beta].
  intros _ t' (p' & Hc & Hf). split; [by eapply inv_frame|by exists p'].
Qed.
Lemma inv_blocks (t : tcp) a p : inv t -> pcbs t !! a = Some p -> nums_ok p /\ settled p.
Proof. intros Hi E. split; [by apply (mo_blocks _ (iv_mem _ Hi) a)|exact (iv_settled _ Hi _ _ E)]. Qed.
(** Flags other than those of the recovery. *)
Lemma runs_flags a f (t : tcp) p :
  inv t -> pcbs t !! a = Some p -> (forall x, flag_set (f x) TF_INFR = true -> flag_set x TF_INFR = true) ->
  runs (update_pcb a (fun p => p <| flags ::= f |>)) t (fun _ t' => inv t' /\ changes t t' a (p <| flags ::= f |>)).
Proof.
  intros Hi E Hf. destruct (inv_blocks t a p Hi E) as [Hn Hs].
  apply runs_update_same; try done; [by apply nums_flags|by apply (settled_same p)].
Qed.

(** A new state, with the list that it belongs to. *)
Lemma runs_reg (l : tcp -> list Z) `{!Setter l} a (t : tcp) : a ∉ l t ->
  runs (TCP_REG l a) t (fun _ t' => t' = t <| l ::= cons a |>).
Proof. intros Ha. unfold runs, TCP_REG. rewrite bool_decide_eq_false_2 by done. by eexists tt, _. Qed.
Lemma runs_reg_active a (t : tcp) p :
  inv t -> pcbs t !! a = Some p -> active_state (state p) -> a ∉ tcp_bound_pcbs t ++ tcp_active_pcbs t ++ tcp_tw_pcbs t ->
  runs (TCP_REG_ACTIVE a) t (fun _ t' => inv t' /\ pcbs t' = pcbs t /\ tcp_bound_pcbs t' = tcp_bound_pcbs t /\ lpcbs t' = lpcbs t).
Proof.
  intros [[Hd Hb Ha Hw Hl] Hm Hs] E Hst Hn. pose proof Hn as Hn2. rewrite !elem_of_app in Hn2.
  unfold TCP_REG_ACTIVE. run (apply runs_reg; tauto). intros _ t1 ->. eexists tt, _. split; [reflexivity|].
  split; [|done]. split; [split; try done|by destruct Hm|done]; cbn.
  - rewrite <- Permutation_middle. by constructor.
  - intros b [->|Hb']%elem_of_cons; [by exists p|by apply Ha].
Qed.

(** The segment size that goes to an address. *)
Lemma eff_mss_ok m addr (w : net P PS) : net_ok w -> 0 < m <= TCP_MSS -> 0 < tcp_eff_send_mss m addr w <= TCP_MSS.
Proof.
  intros Hok Hm. unfold tcp_eff_send_mss. destruct (ip_route addr (n_ip w)) as [n|] eqn:Er; [|done].
  pose proof (route_mtu _ _ _ Hok Er) as Hmtu. destruct (Z.eqb_spec (mtu n) 0); [done|]. destruct Hmtu; [done|].
  unfold IP_HLEN, TCP_HLEN, TCP_MSS in *. rewrite u16_small by (unfold in_u16; lia). lia.
Qed.

Lemma runs_eff_mss m addr (t : tcp) : net_ok (nt t) -> 0 < m <= TCP_MSS ->
  runs (eff_send_mss m addr) t (fun x t' => t' = t /\ 0 < x <= TCP_MSS).
Proof. intros Hok Hm. eexists _, t. split; [reflexivity|]. split; [done|]. by apply eff_mss_ok. Qed.

(** ** Listeners and TIME-WAIT *)

Lemma runs_rst_segment i (t : tcp) : inv t ->
  runs (rst_segment output_err frag_ram frag_ref ram i) t (fun _ t' => inv t' /\ same_blocks t tt t').
Proof.
  intros Hi. unfold rst_segment. apply runs_get. eapply runs_mono; [apply runs_rst, Hi|cbv beta].
  intros [] t' Hs. split; [by eapply inv_same|done].
Qed.
Lemma runs_free_inv q (t : tcp) : inv t -> runs (free_pbuf q) t (fun _ t' => inv t').
Proof. intros Hi. eapply runs_mono; [apply runs_free_pbuf, Hi|cbv beta]. intros [] t'. by apply inv_same. Qed.

Lemma settled_mss p x : settled p -> settled (p <| mss := x |>).
Proof. intros Hs. by apply (settled_same p). Qed.
Lemma nums_mss p x : nums_ok p -> 0 < x <= TCP_MSS -> nums_ok (p <| mss := x |>).
Proof. intros [N1 N2 N3 N4 N5 N6 N7] Hx. by split. Qed.

(** The options change the segment size only. *)
Lemma runs_parseopt a i (t : tcp) p :
  inv t -> pcbs t !! a = Some p -> opts_ok stale i ->
  runs (parseopt stale a i) t (fun _ t' => inv t' /\ exists m, changes t t' a (p <| mss := m |>)).
Proof.
  intros Hi E Ho. destruct (inv_blocks t a p Hi E) as [Hn Hs]. apply (runs_get_pcb a p); [done|].
  destruct (tcp_parseopt_ok stale i p Ho (nk_mss _ Hn)) as (m & Em & Hm). eapply runs_lift; [exact Em|].
  eapply runs_mono; [apply (runs_put a t p); [apply Hi|done|done|by apply nums_mss]|cbv beta].
  intros _ t' Hc. split; [|by exists m]. by eapply inv_same_end; [..|apply settled_mss].
Qed.

(** A segment is queued. *)
Lemma runs_enqueue a fl (t : tcp) p :
  inv t -> pcbs t !! a = Some p -> state p ∉ [CLOSED; TIME_WAIT] ->
  runs (enqueue_flags ram a fl) t (fun _ t' => inv t' /\ exists p', changes t t' a p' /\ vital p' = vital p).
Proof.
  intros Hi E Hst. eapply runs_mono.
  - apply (runs_on_pcb a (fun p => tcp_enqueue_flags ram p fl) t p (fun _ p' => vital p' = vital p /\ unacked p' = unacked p)); [apply Hi|done|].
    intros live Hb Hn. destruct (enqueue_flags_ok ram live p fl (nt t) Hb) as (e & p' & w' & E' & Hb' & Hv & Hu & Hf & _).
    exists e, p', w'. split_and!; try done. by eapply vital_nums.
  - cbv beta. intros e t' (p' & Hc & Hv & Hu). split; [|by exists p'].
    destruct (vital_fields _ _ Hv) as (_ & _ & _ & _ & _ & _ & Hst'). unfold stays in Hst'. injection Hst' as S1 S2 S3 S4 S5 S6 S7.
    destruct (inv_blocks t a p Hi E) as [_ [Q1 Q2 Q3 Q4 Q5 Q6 Q7]].
    eapply inv_same_end; [done|done|done|done|done|]. split; rewrite S1, ?S3, ?S4, ?S5, ?S6, ?Hu; done.
Qed.

Lemma accept_block lp i s d prio_ n ticks ctr :
  in_u16 (wnd (in_hdr i)) -> l_accept lp <> Some Null ->
  let p := accept_pcb lp i s d (fresh_pcb prio_ n ticks ctr) in
  nums_ok p /\ settled p /\ state p = SYN_RCVD /\
    segments_of p = segments_of (fresh_pcb prio_ n ticks ctr).
Proof.
  intros Hw Hacc p. unfold in_u16 in Hw. split; [|split; [|done]].
  - split; cbn; try done; try apply u32_range; unfold initial_mss, TCP_WND, TCP_MSS, in_u16; cbn; lia.
  - split; cbn; try done. intros E _. by apply E, (bool_decide_unpack _).
Qed.

(** The new block gets the two ends of the connection and goes on the list. *)
Lemma runs_accept_block a p f (t : tcp) :
  inv t -> pcbs t !! a = Some p -> a ∉ tcp_bound_pcbs t ++ tcp_active_pcbs t ++ tcp_tw_pcbs t ->
  nums_ok (f p) -> settled (f p) -> state (f p) = SYN_RCVD -> segments_of (f p) = segments_of p ->
  runs (bind (update_pcb a f) (fun _ => TCP_REG_ACTIVE a)) t (fun _ t' =>
    inv t' /\ pcbs t' !! a = Some (f p) /\ a ∉ tcp_bound_pcbs t').
Proof.
  intros Hi E Hnot A1 A2 A3 A4. run (apply (runs_update a f t p (iv_mem _ Hi) E A4 A1)). intros _ t2 Hc2.
  pose proof Hnot as Hnot'. rewrite !elem_of_app in Hnot'.
  assert (Hi2 : inv t2) by (eapply inv_changes; [exact Hi|exact Hc2|unfold fits; tauto|exact A2]).
  pose proof (ch_lists _ _ _ _ Hc2) as Hl2. unfold lists in Hl2. injection Hl2 as L1 L2 L3 L4 L5.
  eapply runs_mono; [apply (runs_reg_active a t2 (f p)); [exact Hi2|exact (changes_lookup _ _ _ _ Hc2)| |by rewrite L1, L2, L3]|cbv beta].
  - rewrite A3. by apply (bool_decide_unpack _).
  - intros _ t3 (Hi3 & Hp3 & Hb3 & _). split; [done|]. split; [rewrite Hp3; exact (changes_lookup _ _ _ _ Hc2)|].
    rewrite Hb3, L1. tauto.
Qed.

(** The answer to the SYN. *)
Lemma runs_answer a p i (t : tcp) :
  inv t -> pcbs t !! a = Some p -> a ∉ tcp_bound_pcbs t -> state p = SYN_RCVD -> opts_ok stale i ->
  runs (bind (parseopt stale a i) (fun _ => bind (get_pcb a) (fun p => bind (eff_send_mss (mss p) (remote_ip p)) (fun m =>
        bind (put_pcb a (p <| mss := m |>)) (fun _ => bind (enqueue_flags ram a (Z.lor TCP_SYN TCP_ACK)) (fun rc =>
        if rc =? ERR_OK then output a
        else bind (tcp_abandon output_err frag_ram frag_ref ram app a false) (fun _ => ret rc))))))) t (fun _ t' => inv t').
Proof.
  intros Hi3 E3 Hb3 A3 Ho. run (exact (runs_parseopt a i t p Hi3 E3 Ho)). intros _ t4 (Hi4 & m & Hc4).
  pose proof (changes_lookup _ _ _ _ Hc4) as E4. destruct (inv_blocks t4 a _ Hi4 E4) as [N4 S4].
  assert (A4 : state (p <| mss := m |>) = SYN_RCVD) by exact A3. set (p4 := p <| mss := m |>) in *. clearbody p4.
  apply (runs_get_pcb a p4 _ _ _ E4).
  run (apply runs_eff_mss; [apply Hi4|apply N4]). intros m5 t5 [-> Hm5].
  assert (Hf : segments_of (p4 <| mss := m5 |>) = segments_of p4 /\ state (p4 <| mss := m5 |>) = state p4 /\
    local_port (p4 <| mss := m5 |>) = local_port p4) by done. destruct Hf as (F1 & F2 & F3).
  run (exact (runs_put a t4 p4 (p4 <| mss := m5 |>) (iv_mem _ Hi4) E4 F1 (nums_mss p4 m5 N4 Hm5))). intros _ t6 Hc6.
  assert (Hi6 : inv t6) by exact (inv_same_end _ _ _ _ _ Hi4 E4 Hc6 F2 F3 (settled_mss p4 m5 S4)).
  pose proof (changes_lookup _ _ _ _ Hc6) as E6.
  assert (A6 : state (p4 <| mss := m5 |>) = SYN_RCVD) by (by rewrite F2). set (p6 := p4 <| mss := m5 |>) in *. clearbody p6.
  run (apply (runs_enqueue a _ t6 p6 Hi6 E6); rewrite A6; by apply (bool_decide_unpack _)).
  intros rc t7 (Hi7 & p7 & Hc7 & _). pose proof (changes_lookup _ _ _ _ Hc7) as E7. destruct (rc =? ERR_OK).
  - eapply runs_mono; [exact (runs_output_inv a t7 p7 Hi7 E7)|cbv beta]. by intros e t8 [? _].
  - run (apply (runs_abandon output_err frag_ram frag_ref ram app contract a false t7 p7 Hi7 E7)).
    { pose proof (ch_lists _ _ _ _ Hc7) as B7. pose proof (ch_lists _ _ _ _ Hc6) as B6. pose proof (ch_lists _ _ _ _ Hc4) as B4.
      unfold lists in B7, B6, B4. injection B7 as -> _ _ _ _. injection B6 as -> _ _ _ _. by injection B4 as -> _ _ _ _. }
    intros _ t8 [Hi8 _]. by apply runs_ret.
Qed.

Lemma runs_listen_input b i (t : tcp) :
  inv t -> b ∈ tcp_listen_pcbs t -> in_u16 (wnd (in_hdr i)) -> opts_ok stale i ->
  runs (tcp_listen_input output_err frag_ram frag_ref ram stale app b i) t (fun _ t' => inv t').
Proof.
  intros Hi Hb Hw Ho. destruct (proj2 (lo_listen _ (iv_lists _ Hi)) b Hb) as (lp & El & _). unfold tcp_listen_input. destruct (flag_set (in_flags i) TCP_RST); [by apply runs_ret|].
  destruct (flag_set (in_flags i) TCP_ACK).
  { run (by apply runs_rst_segment). intros _ t1 [Hi1 _]. by apply runs_ret. }
  destruct (flag_set (in_flags i) TCP_SYN); [|by apply runs_ret].
  apply (runs_get_lpcb b lp); [done|]. run (apply (runs_alloc output_err frag_ram frag_ref ram app contract); exact Hi).
  intros r t1 (Hi1 & Hk1 & Hr). destruct r as [a|]; [|by apply runs_ret].
  destruct (Hr a eq_refl) as (prio_ & n & ticks & ctr & E1 & Hnot). destruct (proj2 (lo_listen _ (iv_lists _ Hi1)) b (Hk1 b Hb)) as (lp1 & El1 & Hacc).
  apply (runs_get_lpcb b lp1); [done|]. apply runs_get.
  set (s := current_iphdr_src _). set (d := current_iphdr_dest _). clearbody s d.
  destruct (accept_block lp1 i s d prio_ n ticks ctr Hw Hacc) as (A1 & A2 & A3 & A4).
  set (p0 := fresh_pcb prio_ n ticks ctr) in *. clearbody p0. 
  apply runs_bind_assoc. run (apply (runs_accept_block a p0 _ t1 Hi1 E1 Hnot A1 A2 A3)); [exact A4|].
  intros _ t3 (Hi3 & E3 & Hb3). by eapply runs_answer.
Qed.

Lemma runs_timewait_input a i (t : tcp) p :
  inv t -> pcbs t !! a = Some p ->
  runs (tcp_timewait_input output_err frag_ram frag_ref ram a i) t (fun _ t' => inv t').
Proof.
  intros Hi E. unfold tcp_timewait_input. destruct (flag_set (in_flags i) TCP_RST); [by apply runs_ret|].
  apply (runs_get_pcb a p); [done|]. destruct (_ && TCP_SEQ_BETWEEN _ _ _).
  { run (by apply runs_rst_segment). intros _ t1 [Hi1 _]. by apply runs_ret. }
  apply runs_get. eapply runs_bind with (R := fun _ t' => inv t' /\ exists p', pcbs t' !! a = Some p').
  { destruct (inv_blocks t a p Hi E) as [Hn Hs]. apply runs_when; [|intros _; split; [done|by exists p]]. intros _.
    eapply runs_mono; [apply (runs_update_same a _ t p Hi E); [done|by apply (vital_nums p)|done|done|by apply (settled_same p)]|cbv beta].
    intros _ t1 [Hi1 Hc1]. split; [done|]. eexists. by eapply changes_lookup. }
  intros _ t1 (Hi1 & p1 & E1). destruct (0 <? in_tcplen i); [|by apply runs_ret].
  run (apply (runs_flags a _ t1 p1 Hi1 E1); intros ?; by apply infr_or). intros _ t2 [Hi2 Hc2].
  eapply runs_mono; [eapply runs_output_inv; [done|by eapply changes_lookup]|cbv beta]. by intros e t3 [? _].
Qed.

(** ** Events *)

(** The result of a function of the application. *)
Definition called (a : Z) (t : tcp) (e : Z) (t' : tcp) : Prop := inv t' /\ (e <> ERR_ABRT -> keeps a t t').
Lemma called_refl a e (t : tcp) : inv t -> called a t e t.
Proof. intros Hi. split; [done|]. intros _. apply keeps_refl. Qed.

Lemma recved_nums len p : nums_ok p ->
  nums_ok (recved len p).2 /\ segments_of (recved len p).2 = segments_of p /\ same_end p (recved len p).2 /\
    rcv_nxt (recved len p).2 = rcv_nxt p.
Proof.
  intros [N1 N2 N3 N4 N5 N6 N7]. unfold recved. set (p1 := p <| rcv_wnd ::= _ |>).
  assert (Hn1 : nums_ok p1 /\ segments_of p1 = segments_of p /\ same_end p p1 /\ rcv_nxt p1 = rcv_nxt p).
  { split; [|done]. split; try done. cbn. pose proof (u16_range (rcv_wnd p + len)) as Hr.
    destruct (_ <? _); [unfold in_u16, TCP_WND, TCP_MSS; lia|done]. }
  clearbody p1. destruct (update_ann_shape p1) as (x & -> & _). destruct Hn1 as ([M1 M2 M3 M4 M5 M6 M7] & E1 & E2 & E3).
  split; [by split|done].
Qed.

Lemma settled_end p p' : settled p -> same_end p p' -> segments_of p' = segments_of p -> unacked p' = unacked p -> settled p'.
Proof.
  intros Hs E Es Eu. unfold same_end in E. assert (Eh : handlers p' = handlers p) by congruence.
  injection E as E1 E2 _ _ _ E4. apply (settled_same p); try done.
  - unfold idle, segments_of in *. rewrite Eu in *. apply app_inv_tail in Es. by rewrite Es.
  - by rewrite Eu.
Qed.
Lemma recved_unacked len p : unacked (recved len p).2 = unacked p.
Proof.
  unfold recved. set (p1 := p <| rcv_wnd ::= _ |>). assert (E : unacked p1 = unacked p) by done. clearbody p1.
  by destruct (update_ann_shape p1) as (x & -> & _).
Qed.

Lemma runs_recved a len (t : tcp) p : inv t -> pcbs t !! a = Some p ->
  runs (tcp_recved output_err frag_ram frag_ref ram a len) t (fun _ t' => inv t' /\ keeps a t t').
Proof.
  intros Hi E. destruct (inv_blocks t a p Hi E) as [Hn Hs]. destruct (recved_nums len p Hn) as (R1 & R2 & R3 & R4).
  pose proof (settled_end p _ Hs R3 R2 (recved_unacked len p)) as R5. apply (runs_get_pcb a p); [done|].
  set (r := recved len p) in *. clearbody r. destruct r as [infl p1]. cbn [fst snd] in *.
  run (exact (runs_put a t p p1 (iv_mem _ Hi) E R2 R1)). intros _ t1 Hc1. pose proof R3 as R3'. unfold same_end in R3'.
  injection R3' as F1 F2 _ _ _ F4. assert (Hi1 : inv t1) by exact (inv_same_end _ _ _ _ _ Hi E Hc1 F1 F2 R5).
  assert (Hk1 : keeps a t t1) by (eapply keeps_changes; [exact E|exact Hc1|done|by rewrite F1]).
  pose proof (changes_lookup _ _ _ _ Hc1) as E1. apply runs_when; [intros _|done].
  run (apply (runs_flags a _ t1 p1 Hi1 E1); intros ?; by apply infr_or). intros _ t2 [Hi2 Hc2].
  pose proof (changes_lookup _ _ _ _ Hc2) as E2. run (exact (runs_output_inv a t2 _ Hi2 E2)). intros e t3 (Hi3 & p3 & Hc3 & Hf3).
  apply runs_ret. split; [done|]. destruct (frame_state _ _ Hf3) as (G1 & G2 & G3 & G4 & G5).
  eapply keeps_trans; [exact Hk1|]. eapply keeps_changes; [exact E1|by eapply changes_trans|exact G4|by rewrite G1].
Qed.

Lemma same_keeps a (t t' : tcp) x : same_blocks t x t' -> keeps a t t'.
Proof.
  intros (E1 & E2 & _). unfold lists in E2. injection E2 as F1 F2 F3 F4 F5. split; [by rewrite F2|by rewrite F3|].
  rewrite E1. intros p E. by exists p.
Qed.

Lemma runs_event_recv a d (t : tcp) p : inv t -> pcbs t !! a = Some p -> connected_state (state p) ->
  runs (event_recv output_err frag_ram frag_ref ram app a d) t (called a t).
Proof.
  intros Hi E Hs. apply (runs_get_pcb a p); [done|]. destruct (inv_blocks t a p Hi E) as [_ Hse].
  pose proof (se_recv _ Hse Hs) as Hr. destruct (recv p) as [[|f]|].
  - done.
  - eapply runs_mono; [apply (runs_call app contract _ t a); [split; [done|by rewrite E]|done]|]. done.
  - destruct d as [[q fl]|]; [|apply runs_ret; by apply called_refl]. unfold tcp_recv_null.
    run (exact (runs_recved a (tot_len q) t p Hi E)). intros _ t1 [Hi1 Hk1].
    run (apply runs_free_pbuf, Hi1). intros x t2 Hb. apply runs_ret. split; [by eapply inv_same|].
    intros _. eapply keeps_trans; [exact Hk1|by eapply same_keeps].
Qed.
Lemma runs_event_sent a space (t : tcp) p : inv t -> pcbs t !! a = Some p -> runs (event_sent app a space) t (called a t).
Proof.
  intros Hi E. apply (runs_get_pcb a p); [done|]. destruct (sent p) as [f|]; [|apply runs_ret; by apply called_refl].
  eapply runs_mono; [apply (runs_call app contract _ t a); [split; [done|by rewrite E]|done]|]. done.
Qed.
(** The application hears of a new connection, and says what it does with the data. *)
Lemma runs_event_connected a (t : tcp) p :
  accepting a t -> pcbs t !! a = Some p -> (connected p = None -> settled p) -> runs (event_connected app a) t (called a t).
Proof.
  intros Ha E Hc. apply (runs_get_pcb a p); [done|]. destruct (connected p) as [f|].
  - eapply runs_mono; [by apply (runs_call app contract _ t a)|]. done.
  - apply runs_ret, called_refl. eapply inv_but_inv; [apply Ha|exact E|by apply Hc].
Qed.
(** A connection that is not accepted is left to be aborted. *)
Lemma runs_event_accept a (t : tcp) p :
  accepting a t -> pcbs t !! a = Some p -> accept p <> Some Null ->
  runs (event_accept app a) t (fun e t' => called a t e t' \/ (e = ERR_ARG /\ t' = t)).
Proof.
  intros Ha E Hc. apply (runs_get_pcb a p); [done|]. destruct (accept p) as [[|f]|].
  - done.
  - eapply runs_mono; [by apply (runs_call app contract _ t a)|]. by left.
  - apply runs_ret. by right.
Qed.
(** The FIN is counted as read. *)
Lemma runs_event_fin a (t : tcp) p : inv t -> pcbs t !! a = Some p -> connected_state (state p) ->
  runs (event_fin output_err frag_ram frag_ref ram app a) t (called a t).
Proof.
  intros Hi E Hs. unfold event_fin. destruct (inv_blocks t a p Hi E) as [Hn Hse].
  run (apply (runs_update_same a _ t p Hi E); [done| |done|done|by apply (settled_same p)]).
  { destruct Hn as [N1 N2 N3 N4 N5 N6 N7]. split; try done. cbn. destruct (_ =? _); [done|apply u16_range]. }
  intros _ t1 [Hi1 Hc1]. pose proof (changes_lookup _ _ _ _ Hc1) as E1.
  eapply runs_mono; [eapply runs_event_recv; [exact Hi1|exact E1|exact Hs]|cbv beta].
  intros e t2 [Hi2 Hk2]. split; [done|]. intros He. eapply keeps_trans; [|by apply Hk2].
  eapply keeps_changes; [exact E|exact Hc1|done|done].
Qed.

Lemma runs_process_refused a (t : tcp) p q fl :
  inv t -> pcbs t !! a = Some p -> refused_data p = Some (q, fl) ->
  runs (tcp_process_refused_data output_err frag_ram frag_ref ram app a) t (called a t).
Proof.
  intros Hi E Hr. destruct (inv_blocks t a p Hi E) as [Hn Hse]. assert (Hs : connected_state (state p)) by (apply (se_refused _ Hse); by rewrite Hr).
  apply (runs_get_pcb a p); [done|]. rewrite Hr. set (p1 := p <| refused_data := None |>).
  assert (G : nums_ok p1 /\ segments_of p1 = segments_of p /\ state p1 = state p /\ local_port p1 = local_port p /\ rcv_nxt p1 = rcv_nxt p /\ settled p1).
  { split; [by destruct Hn|]. split_and!; try done. destruct Hse as [S1 S2 S3 S4 S5 S6 S7]. by split. }
  clearbody p1. destruct G as (G1 & G2 & G3 & G4 & G5 & G6).
  run (exact (runs_put a t p p1 (iv_mem _ Hi) E G2 G1)). intros _ t1 Hc1.
  assert (Hi1 : inv t1) by exact (inv_same_end _ _ _ _ _ Hi E Hc1 G3 G4 G6). pose proof (changes_lookup _ _ _ _ Hc1) as E1.
  assert (Hk1 : keeps a t t1) by (eapply keeps_changes; [exact E|exact Hc1|done|by rewrite G3]).
  run (apply (runs_event_recv a _ t1 p1 Hi1 E1); by rewrite G3). intros e t2 [Hi2 Hk2].
  destruct (Z.eqb_spec e ERR_OK) as [->|He].
  - specialize (Hk2 ltac:(done)). destruct (kp_block _ _ _ Hk2 p1 E1) as (p2 & E2 & _ & C2).
    destruct (flag_set fl PBUF_FLAG_TCP_FIN).
    + run (apply (runs_event_fin a t2 p2 Hi2 E2); apply C2; by rewrite G3). intros e3 t3 [Hi3 Hk3]. apply runs_ret.
      split; [done|]. intros He. eapply keeps_trans; [exact Hk1|]. eapply keeps_trans; [exact Hk2|]. apply Hk3. intros ->. done.
    + apply runs_ret. split; [done|]. intros _. by eapply keeps_trans.
  - destruct (Z.eqb_spec e ERR_ABRT) as [->|He2]; [apply runs_ret; split; done|].
    specialize (Hk2 He2). destruct (kp_block _ _ _ Hk2 p1 E1) as (p2 & E2 & N2 & C2).
    assert (Hs2 : connected_state (state p2)) by (apply C2; by rewrite G3). destruct (inv_blocks t2 a p2 Hi2 E2) as [Hn2 Hse2].
    run (apply (runs_update_same a _ t2 p2 Hi2 E2); [done|by destruct Hn2|done|done|]).
    { destruct Hse2 as [S1 S2 S3 S4 S5 S6 S7]. by split. }
    intros _ t3 [Hi3 Hc3]. apply runs_ret. split; [done|]. intros _. eapply keeps_trans; [exact Hk1|]. eapply keeps_trans; [exact Hk2|].
    eapply keeps_changes; [exact E2|exact Hc3|done|done].
Qed.

(** ** Changes of the state of a block *)

Lemma active_only (t : tcp) a : lists_ok t -> a ∈ tcp_active_pcbs t -> (a ∉ tcp_bound_pcbs t) /\ (a ∉ tcp_tw_pcbs t).
Proof.
  intros [Hd _ _ _ _] Ha. apply NoDup_app in Hd as (_ & Hb & Hd). apply NoDup_app in Hd as (_ & Hw & _). split; [|by apply Hw].
  intros Hi. apply (Hb a Hi). apply elem_of_app. by left.
Qed.
Lemma fits_active (t : tcp) a p : lists_ok t -> a ∈ tcp_active_pcbs t -> active_state (state p) -> fits t a p.
Proof. intros Hl Ha Hs. destruct (active_only t a Hl Ha) as [Hb Hw]. split; [|split]; done. Qed.
Lemma active_block (t : tcp) a : inv t -> a ∈ tcp_active_pcbs t -> exists p, pcbs t !! a = Some p /\ active_state (state p).
Proof. intros Hi. apply (lo_active _ (iv_lists _ Hi)). Qed.
Lemma active_changes (t t' : tcp) a p : changes t t' a p -> tcp_active_pcbs t' = tcp_active_pcbs t.
Proof. intros [_ E _]. unfold lists in E. by injection E. Qed.

(** Both are states of a connection. *)
Lemma settled_state p s : settled p -> connected_state (state p) -> connected_state s -> s <> TIME_WAIT -> settled (p <| state := s |>).
Proof.
  intros [S1 S2 S3 S4 S5 S6 S7] Hp Hs Hw. pose proof Hs as Hs'. unfold connected_state in Hs. rewrite !not_elem_of_cons in Hs.
  destruct Hs as (N1 & N2 & N3 & N4 & _). split; cbn; try done.
  - intros [E|[E|E%elem_of_nil]%elem_of_cons]%elem_of_cons; done.
  - intros _. by apply S4.
Qed.
Lemma nums_state p s : nums_ok p -> nums_ok (p <| state := s |>).
Proof. intros [N1 N2 N3 N4 N5 N6 N7]. by split. Qed.
Lemma runs_set_state a s (t : tcp) p :
  inv t -> pcbs t !! a = Some p -> a ∈ tcp_active_pcbs t -> connected_state (state p) -> connected_state s -> s <> TIME_WAIT ->
  runs (set_state a s) t (fun _ t' => inv t' /\ changes t t' a (p <| state := s |>)).
Proof.
  intros Hi E Ha Hp Hs Hw. destruct (inv_blocks t a p Hi E) as [Hn Hse].
  eapply runs_mono; [apply (runs_update a _ t p (iv_mem _ Hi) E); [done|by apply nums_state]|cbv beta]. intros _ t1 Hc. split; [|done].
  eapply inv_changes; [exact Hi|exact Hc| |by apply settled_state]. apply fits_active; [apply Hi|done|].
  change (state (p <| state := s |>)) with s. unfold active_state, connected_state in *. rewrite !not_elem_of_cons in *.
  destruct Hs as (N1 & N2 & N3 & N4 & N5). done.
Qed.

(** The block is taken from its list. *)
Lemma inv_off a (t t' : tcp) : inv t -> off a t tt t' -> inv t' /\ (a ∉ tcp_bound_pcbs t' ++ tcp_active_pcbs t' ++ tcp_tw_pcbs t').
Proof.
  intros Hi (E1 & E2 & Hm). specialize (Hm (iv_mem _ Hi)). split.
  - split; [eapply lists_off; [apply Hi|exact E2|by rewrite E1]|done|]. rewrite E1. apply Hi.
  - pose proof (lo_nodup _ (iv_lists _ Hi)) as Hd. apply NoDup_app in Hd as (D1 & _ & (D2 & _ & D3)%NoDup_app).
    unfold lists, off_lists in E2. injection E2 as F1 F2 F3 F4 F5. rewrite F1, F2, F3, !elem_of_app, !rmv_elem by done. tauto.
Qed.
Lemma runs_reg_tw a (t : tcp) p :
  inv t -> pcbs t !! a = Some p -> state p = TIME_WAIT -> a ∉ tcp_bound_pcbs t ++ tcp_active_pcbs t ++ tcp_tw_pcbs t ->
  runs (TCP_REG tcp_tw_pcbs a) t (fun _ t' => inv t' /\ pcbs t' = pcbs t /\ a ∈ tcp_tw_pcbs t').
Proof.
  intros [[Hd Hb Ha Hw Hl] Hm Hs] E Hst Hn. pose proof Hn as Hn2. rewrite !elem_of_app in Hn2.
  eapply runs_mono; [apply runs_reg; tauto|cbv beta]. intros _ t1 ->.
  split; [|split; [done|by constructor]]. split; [split; try done|by destruct Hm|done]; cbn.
  - rewrite app_assoc, <- Permutation_middle, <- app_assoc. by constructor.
  - intros b [->|Hb']%elem_of_cons; [by exists p|by apply Hw].
Qed.

(** A purged block is still well-formed in its state. *)
Lemma settled_purged p p' : settled p -> state p <> SYN_SENT -> purged p p' -> settled p'.
Proof.
  intros [S1 S2 S3 S4 S5 S6 S7] Hs (P1 & P2 & P3 & P4 & P5 & P6). unfold handlers in P4. injection P4 as Q1 Q2 Q3.
  split; rewrite P2, ?Q1, ?Q2, ?Q3; auto.
Qed.
(** A purged block that is on no list waits for the old segments to disappear. *)
Lemma runs_enter_tw a (t : tcp) p :
  inv t -> pcbs t !! a = Some p -> a ∉ tcp_bound_pcbs t ++ tcp_active_pcbs t ++ tcp_tw_pcbs t ->
  idle p -> connected_state (state p) ->
  runs (bind (set_state a TIME_WAIT) (fun _ => TCP_REG tcp_tw_pcbs a)) t (fun _ t' =>
    inv t' /\ a ∈ tcp_tw_pcbs t' /\ exists p', pcbs t' !! a = Some p' /\ connected_state (state p')).
Proof.
  intros Hi E Hnot Hid Hs. destruct (inv_blocks t a p Hi E) as [Hn Hse]. set (p' := p <| state := TIME_WAIT |>).
  assert (G : nums_ok p' /\ settled p' /\ segments_of p' = segments_of p /\ state p' = TIME_WAIT).
  { split; [by apply nums_state|]. split; [|done]. destruct Hse as [S1 S2 S3 S4 S5 S6 S7]. split; try done.
    - intros _. by apply S4.
    - intros _. by apply (bool_decide_unpack _). }
  destruct G as (G1 & G2 & G3 & G4). run (exact (runs_update a (fun p => p <| state := TIME_WAIT |>) t p (iv_mem _ Hi) E G3 G1)).
  intros _ t1 Hc. change (changes t t1 a p') in Hc. clearbody p'. pose proof Hnot as Hn3. rewrite !elem_of_app in Hn3.
  assert (Hi1 : inv t1) by (eapply inv_changes; [exact Hi|exact Hc|unfold fits; tauto|exact G2]).
  pose proof (ch_lists _ _ _ _ Hc) as Hl. unfold lists in Hl. injection Hl as L1 L2 L3 L4 L5.
  pose proof (changes_lookup _ _ _ _ Hc) as E1.
  eapply runs_mono; [apply (runs_reg_tw a t1 p' Hi1 E1 G4); by rewrite L1, L2, L3|cbv beta].
  intros _ t2 (Hi2 & E2 & Ha2). split; [done|]. split; [done|]. exists p'. rewrite E2. split; [done|]. rewrite G4.
  by apply (bool_decide_unpack _).
Qed.
(** A connection leaves the active ones. *)
Lemma runs_purge_rmv a (t : tcp) p :
  inv t -> pcbs t !! a = Some p -> connected_state (state p) -> state p <> TIME_WAIT ->
  runs (bind (tcp_pcb_purge a) (fun _ => TCP_RMV_ACTIVE a)) t (fun _ t' =>
    inv t' /\ (a ∉ tcp_bound_pcbs t' ++ tcp_active_pcbs t' ++ tcp_tw_pcbs t') /\
    exists p', pcbs t' !! a = Some p' /\ idle p' /\ state p' = state p).
Proof.
  intros Hi E Hs Hw. destruct (inv_blocks t a p Hi E) as [Hn Hse]. destruct (settled_removable p Hse) as [R1 R2].
  unfold connected_state in Hs. rewrite !not_elem_of_cons in Hs. destruct Hs as (N1 & _ & N3 & _).
  run (exact (runs_purge a t p (iv_mem _ Hi) E R2 R1)). intros _ t1 (p1 & Hc1 & Hp1).
  pose proof (settled_purged _ _ Hse N3 Hp1) as Hse1. destruct Hp1 as (P1 & P2 & P3 & P4 & _).
  assert (Hi1 : inv t1) by exact (inv_same_end _ _ _ _ _ Hi E Hc1 P2 P3 Hse1). pose proof (changes_lookup _ _ _ _ Hc1) as E1.
  destruct (fits_lookup t1 a p1 (iv_lists _ Hi1) E1) as (F1 & _ & F3).
  assert (Hb1 : a ∉ tcp_bound_pcbs t1) by (intros Hb; apply N1; rewrite <- P2; by apply F1).
  assert (Hw1 : a ∉ tcp_tw_pcbs t1) by (intros Hb; apply Hw; rewrite <- P2; by apply F3).
  unfold TCP_RMV_ACTIVE. run (exact (runs_rmv_active a t1 Hb1 Hw1)). intros [] t2 Ho.
  destruct (inv_off a t1 t2 Hi1 Ho) as [Hi2 Hnot]. destruct Ho as (E2 & _ & _). eexists tt, _. split; [reflexivity|].
  split; [destruct Hi2 as [[? ? ? ? ?] [? ? ? ? ?] ?]; by split|]. split; [exact Hnot|]. exists p1. by rewrite <- E2 in E1.
Qed.
Lemma runs_to_time_wait a (t : tcp) p :
  inv t -> pcbs t !! a = Some p -> a ∈ tcp_active_pcbs t -> connected_state (state p) ->
  runs (to_time_wait a) t (fun _ t' => inv t' /\ a ∈ tcp_tw_pcbs t' /\ exists p', pcbs t' !! a = Some p' /\ connected_state (state p')).
Proof.
  intros Hi E Ha Hs. assert (Hw : state p <> TIME_WAIT).
  { destruct (active_block t a Hi Ha) as (q & Eq & Hact). rewrite E in Eq. injection Eq as <-. intros E0. apply Hact. rewrite E0. by apply (bool_decide_unpack _). }
  unfold to_time_wait. apply runs_bind_assoc. run (exact (runs_purge_rmv a t p Hi E Hs Hw)).
  intros _ t1 (Hi1 & Hnot & p1 & E1 & Hid & S1). apply (runs_enter_tw a t1 p1); try done. by rewrite S1.
Qed.

(** ** The state machine *)

Lemma runs_receive a i (t : tcp) p :
  inv t -> pcbs t !! a = Some p -> connected_state (state p) -> state p <> TIME_WAIT -> input_ok i -> antipodal i p = false ->
  runs (receive output_err frag_ram frag_ref ram a i) t (fun i' t' =>
    inv t' /\ only_fin i i' /\ exists p', changes t t' a p' /\ same_end p p').
Proof.
  intros Hi E Hs Hw Hin Ha. unfold receive. apply runs_get.
  eapply runs_mono; [apply (runs_on_pcb a _ t p (fun i' p' => only_fin i i' /\ same_end p p')); [apply Hi|exact E|]|cbv beta].
  - intros live Hb Hn. destruct (tcp_receive_ok output_err frag_ram frag_ref ram (tcp_ticks t) i live p (nt t) Hin Ha Hb Hn)
      as (i' & p' & w' & E' & Hf & Hb' & Hn' & Hse). by exists i', p', w'.
  - intros i' t' (p' & Hc & Hf & Hse). split; [|split; [done|by exists p']]. pose proof Hse as Hse'. unfold same_end in Hse'.
    assert (Hh : handlers p' = handlers p) by congruence. injection Hse' as Q1 Q2 _ _ _ Q3.
    destruct (inv_blocks t a p Hi E) as [_ [S1 S2 S3 S4 S5 S6 S7]]. eapply inv_same_end; [exact Hi|exact E|exact Hc|done|done|].
    unfold handlers in Hh. injection Hh as R1 R2 R3. unfold connected_state in Hs. rewrite !not_elem_of_cons in Hs.
    destruct Hs as (N1 & N2 & N3 & N4 & _). split; rewrite ?Q1, ?Q3, ?R1, ?R2, ?R3; try done.
    intros [E0|[E0|E0%elem_of_nil]%elem_of_cons]%elem_of_cons; done.
Qed.

(** A block of a connection, on the list of the active ones or in TIME-WAIT. *)
Definition stands (a : Z) (t : tcp) : Prop :=
  inv t /\ (a ∈ tcp_active_pcbs t \/ a ∈ tcp_tw_pcbs t) /\ exists p, pcbs t !! a = Some p /\ connected_state (state p).
Definition stands_active (a : Z) (t : tcp) : Prop :=
  inv t /\ a ∈ tcp_active_pcbs t /\ exists p, pcbs t !! a = Some p /\ connected_state (state p).
Lemma active_stands a (t : tcp) : stands_active a t -> stands a t.
Proof. intros (Hi & Ha & Hp). split; [done|]. split; [by left|done]. Qed.
Lemma runs_stands (m : M unit) a (t : tcp) : runs m t (fun _ => stands_active a) -> runs m t (fun _ => stands a).
Proof. intros Hm. eapply runs_mono; [exact Hm|]. intros x t'. apply active_stands. Qed.
(** [nums_ok], [segments_of] and [settled] do not depend on the other fields. *)
Lemma stands_update a f (t : tcp) p :
  stands_active a t -> pcbs t !! a = Some p -> segments_of (f p) = segments_of p -> nums_ok (f p) -> settled (f p) ->
  state (f p) = state p -> local_port (f p) = local_port p ->
  runs (update_pcb a f) t (fun _ t' => stands_active a t').
Proof.
  intros (Hi & Ha & p0 & E0 & Hs) E Hseg Hn Hse Hst Hlp. rewrite E in E0. injection E0 as <-.
  eapply runs_mono; [apply (runs_update_same a f t p Hi E Hseg Hn Hst Hlp Hse)|cbv beta]. intros _ t1 [Hi1 Hc1].
  split; [done|]. split; [by rewrite (active_changes _ _ _ _ Hc1)|]. exists (f p). split; [by eapply changes_lookup|by rewrite Hst].
Qed.
Lemma runs_ack_now a (t : tcp) : stands_active a t -> runs (update_pcb a tcp_ack_now) t (fun _ t' => stands_active a t').
Proof.
  intros (Hi & Ha & p & E & Hs). eapply runs_mono; [apply (runs_flags a (flag_or TF_ACK_NOW) t p Hi E); intros ?; by apply infr_or|cbv beta].
  intros _ t1 [Hi1 Hc1]. split; [done|]. split; [by rewrite (active_changes _ _ _ _ Hc1)|]. eexists. split; [by eapply changes_lookup|exact Hs].
Qed.
Lemma runs_next_state a s (t : tcp) : stands_active a t -> connected_state s -> s <> TIME_WAIT ->
  runs (set_state a s) t (fun _ t' => stands_active a t').
Proof.
  intros (Hi & Ha & p & E & Hp) Hs Hw. eapply runs_mono; [exact (runs_set_state a s t p Hi E Ha Hp Hs Hw)|cbv beta].
  intros _ t1 [Hi1 Hc1]. split; [done|]. split; [by rewrite (active_changes _ _ _ _ Hc1)|]. eexists. by split; [eapply changes_lookup|].
Qed.
Lemma runs_wait a (t : tcp) : stands_active a t -> runs (to_time_wait a) t (fun _ t' => stands a t').
Proof.
  intros (Hi & Ha & p & E & Hp). eapply runs_mono; [exact (runs_to_time_wait a t p Hi E Ha Hp)|cbv beta].
  intros _ t1 (Hi1 & Ha1 & Hp1). split; [done|]. split; [by right|done].
Qed.

(** What [tcp_process] leaves: the block for which the segment has data or a FIN is
    that of a connection, and one that is reset is still active. *)
Definition resets (i : input) : bool := flag_set (recv_flags i) TF_RESET || flag_set (recv_flags i) TF_CLOSED.
Definition silent (i : input) : Prop := recv_data i = None /\ got_fin i = false.
Definition processed (a : Z) (r : Z * input) (t' : tcp) : Prop :=
  inv t' /\ (r.1 <> ERR_ABRT ->
    (a ∈ tcp_active_pcbs t' /\ silent r.2) \/ (stands a t' /\ resets r.2 = false) \/ stands_active a t').
Lemma processed_active a e i (t : tcp) : inv t -> a ∈ tcp_active_pcbs t -> silent i -> processed a (e, i) t.
Proof. intros Hi Ha Hs. split; [done|]. intros _. by left. Qed.
Lemma processed_stands a e i (t : tcp) : stands a t -> resets i = false -> processed a (e, i) t.
Proof. intros Hi Ha. split; [apply Hi|]. intros _. right. by left. Qed.

(** A segment of which nothing was processed yet. *)
Definition unprocessed (i : input) : Prop := recv_flags i = 0 /\ recv_data i = None.
Lemma unprocessed_silent i : unprocessed i -> silent i.
Proof. intros [E1 E2]. split; [done|]. unfold got_fin. by rewrite E1. Qed.
Lemma only_fin_resets i i' : unprocessed i -> only_fin i i' -> resets i' = false.
Proof. intros [E1 _] [E|E]; unfold resets; rewrite E, E1; done. Qed.
Lemma rst_processed a i (t : tcp) : inv t -> a ∈ tcp_active_pcbs t -> silent i ->
  runs (bind (rst_segment output_err frag_ram frag_ref ram i) (fun _ => ret (ERR_OK, i))) t (fun r t' => processed a r t').
Proof.
  intros Hi Ha Hs. run (by apply runs_rst_segment). intros _ t1 (Hi1 & _ & El & _). apply runs_ret.
  unfold lists in El. injection El as _ El _ _ _. apply processed_active; [done|by rewrite El|done].
Qed.

Lemma runs_connected a s i (t : tcp) p :
  inv t -> pcbs t !! a = Some p -> a ∈ tcp_active_pcbs t -> connected_state (state p) ->
  input_ok i -> antipodal i p = false -> unprocessed i ->
  runs (process_connected output_err frag_ram frag_ref ram a s i) t (processed a).
Proof.
  intros Hi E Ha Hs Hin Hap Hu. unfold process_connected. destruct (active_block t a Hi Ha) as (q & Eq & Hact).
  rewrite E in Eq. injection Eq as <-.
  assert (Hw : state p <> TIME_WAIT) by (intros E0; unfold active_state in Hact; rewrite E0 in Hact; by apply Hact, (bool_decide_unpack _)).
  run (exact (runs_receive a i t p Hi E Hs Hw Hin Hap)). intros i1 t1 (Hi1 & Hf & p1 & Hc1 & Hse).
  pose proof (only_fin_resets i i1 Hu Hf) as Hr. pose proof (changes_lookup _ _ _ _ Hc1) as E1.
  assert (Hst : stands_active a t1).
  { split; [done|]. split; [by rewrite (active_changes _ _ _ _ Hc1)|]. exists p1. split; [done|]. unfold same_end in Hse.
    injection Hse as -> _ _ _ _ _. done. }
  apply (runs_get_pcb a p1); [done|]. clear Hse Hc1 Hi1.
  assert (Hdone : forall t', stands a t' -> processed a (ERR_OK, i1) t') by (intros t' H'; by apply processed_stands).
  assert (Hfin : forall s', connected_state s' -> s' <> TIME_WAIT ->
    runs (bind (update_pcb a tcp_ack_now) (fun _ => set_state a s')) t1 (fun _ => stands a)).
  { intros s' Hc' Hw'. run (by apply runs_ack_now). intros _ t2 H2'. by apply runs_stands, runs_next_state. }
  pose proof (active_stands a t1 Hst) as Hst'.
  destruct s; try (apply runs_ret, Hdone, Hst').
  - eapply runs_bind with (R := fun _ => stands a); [|by intros _ t2 H2'; apply runs_ret, Hdone].
    apply runs_when; [intros _; by apply Hfin; [apply (bool_decide_unpack _)|]|done].
  - eapply runs_bind with (R := fun _ => stands a); [|by intros _ t2 H2'; apply runs_ret, Hdone].
    destruct (got_fin i1).
    + run (by apply runs_ack_now). intros _ t2 H2'. destruct (acks_all i1 p1); [by apply runs_wait|].
      apply runs_stands, runs_next_state; [done|by apply (bool_decide_unpack _)|done].
    + apply runs_when; [intros _|done].
      apply runs_stands, runs_next_state; [done|by apply (bool_decide_unpack _)|done].
  - eapply runs_bind with (R := fun _ => stands a); [|by intros _ t2 H2'; apply runs_ret, Hdone].
    apply runs_when; [intros _|done]. run (by apply runs_ack_now). intros _ t2 H2'. by apply runs_wait.
  - eapply runs_bind with (R := fun _ => stands a); [|by intros _ t2 H2'; apply runs_ret, Hdone].
    apply runs_when; [intros _; by apply Hfin; [apply (bool_decide_unpack _)|]|done].
  - eapply runs_bind with (R := fun _ => stands a); [|by intros _ t2 H2'; apply runs_ret, Hdone].
    apply runs_when; [intros _; by apply runs_wait|done].
  - apply runs_ret. split; [apply Hst|]. intros _. right. by right.
Qed.

(** The connection that was asked for is there: the SYN is acknowledged. *)
Definition syn_acked (i : input) (m : Z) (l : list tcp_seg) (p : tcp_pcb) : tcp_pcb :=
  p <| snd_buf := u16 (snd_buf p + 1) |> <| rcv_nxt := u32 (in_seqno i + 1) |>
    <| rcv_ann_right_edge := u32 (in_seqno i + 1) |> <| lastack := in_ackno i |>
    <| snd_wnd := wnd (in_hdr i) |> <| snd_wnd_max := wnd (in_hdr i) |>
    <| snd_wl1 := u32 (in_seqno i - 1) |> <| state := ESTABLISHED |> <| mss := m |>
    <| ssthresh := u16 (m * 10) |> <| cwnd ::= fun c => if c =? 1 then u16 (m * 2) else m |>
    <| snd_queuelen := u16 (snd_queuelen p - 1) |> <| unacked := l |>
    <| rtime := if bool_decide (l = []) then -1 else 0 |>
    <| nrtx ::= fun n => if bool_decide (l = []) then n else 0 |>.
Lemma syn_acked_ok i m l p : 0 < m <= TCP_MSS -> in_u16 (wnd (in_hdr i)) -> nums_ok p ->
  let p' := syn_acked i m l p in
  nums_ok p' /\ state p' = ESTABLISHED /\ unsent p' = unsent p /\ unacked p' = l /\ handlers p' = handlers p /\
  refused_data p' = refused_data p.
Proof.
  intros Hm Hw [N1 N2 N3 N4 N5 N6 N7] p'. unfold TCP_MSS in *. split_and!; try done. split; cbn; try done.
  - destruct (_ =? 1); [rewrite u16_small by (unfold in_u16; lia)|]; lia.
  - rewrite u16_small by (unfold in_u16; lia). lia.
  - intros _. rewrite u16_small by (unfold in_u16; lia). lia.
  - apply u32_range.
Qed.
Lemma runs_syn_acked a (t : tcp) p p' s :
  mem_ok t -> pcbs t !! a = Some p -> unacked p = s :: unacked p' -> unsent p' = unsent p -> nums_ok p' ->
  runs (bind (put_pcb a p') (fun _ => on_net (TcpOut.tcp_seg_free s))) t (fun _ t' => changes t t' a p').
Proof.
  intros Hm E Eu Es Hn. destruct (block_focus t a p Hm E) as [[B1 B2 B3] _].
  unfold addrs, segments_of in B2. rewrite Eu, <- Es, fmap_app, fmap_cons in B2.
  assert (B4 : holds (n_segs (nt t)) (sg_addr s :: fmap (M:=list) sg_addr (segments_of p') ++ others t a)).
  { eapply holds_perm; [|exact B2]. unfold segments_of. rewrite fmap_app. by rewrite <- !app_assoc, Permutation_middle. }
  destruct (seg_free_ok s _ (nt t) B4 B3) as (w' & Ew & Hw' & Hok). unfold runs, bind, put_pcb, modify, on_net. cbn [mbind option_bind].
  change (nt (t <| pcbs ::= <[a := p']> |>)) with (nt t). rewrite Ew. cbn [mbind option_bind].
  eexists tt, _. split; [reflexivity|]. split; [done|done|]. apply (block_unfocus t _ a p p'); try done.
  split; [|exact Hw'|exact Hok]. unfold segments_of in *. rewrite Eu in B1. rewrite Es. rewrite !Forall_app, Forall_cons in *. tauto.
Qed.

Lemma accepting_changes a (t t' : tcp) p : inv t -> a ∈ tcp_active_pcbs t -> changes t t' a p -> state p = ESTABLISHED ->
  accepting a t'.
Proof.
  intros Hi Ha Hc Hs. split; [split|by rewrite (active_changes _ _ _ _ Hc)|exists p; split; [by eapply changes_lookup|done]].
  - eapply lists_changes; [apply Hi|exact Hc|]. apply fits_active; [apply Hi|done|]. rewrite Hs. by apply (bool_decide_unpack _).
  - apply Hc.
  - intros b q Hn. rewrite (ch_pcbs _ _ _ _ Hc), lookup_insert_ne by done. apply Hi.
Qed.

(** The answer to our SYN. *)
Lemma runs_syn_answer a i (t : tcp) p s l :
  inv t -> pcbs t !! a = Some p -> a ∈ tcp_active_pcbs t -> state p = SYN_SENT -> unacked p = s :: l ->
  in_u16 (wnd (in_hdr i)) -> unprocessed i ->
  runs (bind (eff_send_mss (mss p) (remote_ip p)) (fun m => bind (put_pcb a (syn_acked i m l p)) (fun _ =>
          bind (on_net (TcpOut.tcp_seg_free s)) (fun _ => bind (event_connected app a) (fun err =>
          if err =? ERR_ABRT then ret (ERR_ABRT, i)
          else bind (update_pcb a tcp_ack_now) (fun _ => ret (ERR_OK, i))))))) t (processed a).
Proof.
  intros Hi E Ha Hst Eu Hw Hun. destruct (inv_blocks t a p Hi E) as [Hn Hse].
  run (apply runs_eff_mss; [apply Hi|apply Hn]). intros m t1 [-> Hm].
  destruct (syn_acked_ok i m l p Hm Hw Hn) as (G1 & G2 & G3 & G4 & G5 & G6).
  set (p' := syn_acked i m l p) in *. clearbody p'. apply runs_bind_assoc.
  run (apply (runs_syn_acked a t p p' s (iv_mem _ Hi) E); [by rewrite G4|done|done]). intros _ t1 Hc.
  pose proof (accepting_changes a t t1 p' Hi Ha Hc G2) as Hacc. pose proof (changes_lookup _ _ _ _ Hc) as E1.
  run (apply (runs_event_connected a t1 p' Hacc E1)).
  { intros Hnull. unfold handlers in G5. injection G5 as Q1 Q2 Q3. destruct Hse as [S1 S2 S3 S4 S5 S6 S7].
    split; rewrite G2; try done.
    - intros [E0|[E0|E0%elem_of_nil]%elem_of_cons]%elem_of_cons; done.
    - intros _. rewrite Q1. apply S6; [done|congruence].
    - intros _. by apply (bool_decide_unpack _). }
  intros e t2 [Hi2 Hk]. destruct (Z.eqb_spec e ERR_ABRT) as [|He]; [apply runs_ret; by split|]. specialize (Hk He).
  assert (Hs2 : stands_active a t2).
  { split; [done|]. split; [by apply (kp_active _ _ _ Hk), Hacc|]. destruct (kp_block _ _ _ Hk p' E1) as (p2 & E2 & _ & C2).
    exists p2. split; [done|]. apply C2. rewrite G2. by apply (bool_decide_unpack _). }
  run (by apply runs_ack_now). intros _ t3 H3'. apply runs_ret. split; [apply H3'|]. intros _. by right; right.
Qed.

Lemma runs_syn_sent a i (t : tcp) p :
  inv t -> pcbs t !! a = Some p -> a ∈ tcp_active_pcbs t -> state p = SYN_SENT ->
  in_u16 (wnd (in_hdr i)) -> unprocessed i ->
  runs (process_syn_sent output_err frag_ram frag_ref ram app a i) t (processed a).
Proof.
  intros Hi E Ha Hst Hw Hun. pose proof (unprocessed_silent i Hun) as Hsi. apply (runs_get_pcb a p); [done|].
  destruct (flag_set (in_flags i) TCP_ACK && flag_set (in_flags i) TCP_SYN).
  - destruct (unacked p) as [|s l] eqn:Eu; [destruct (se_syn _ (iv_settled _ Hi a p E) Hst Eu)|].
    destruct (_ =? _); [|by apply rst_processed]. by eapply runs_syn_answer.
  - destruct (flag_set (in_flags i) TCP_ACK); [by apply rst_processed|]. apply runs_ret. by apply processed_active.
Qed.

Lemma runs_rexmit a (t : tcp) p :
  inv t -> pcbs t !! a = Some p -> state p = SYN_RCVD ->
  runs (update_pcb a TcpOut.tcp_rexmit) t (fun _ t' => inv t' /\ exists p', changes t t' a p').
Proof.
  intros Hi E Hst. apply (runs_get_pcb a p); [done|]. destruct (block_focus t a p (iv_mem _ Hi) E) as [Hb Hn].
  destruct (tcp_rexmit_ok _ p (nt t) Hb) as (Hb' & Hv & Hf). set (p' := TcpOut.tcp_rexmit p) in *. clearbody p'.
  assert (Hn' : nums_ok p') by (eapply vital_nums; [exact Hv|by rewrite Hf|done]).
  eexists tt, _. split; [reflexivity|]. assert (Hc : changes t (t <| pcbs ::= <[a := p']> |>) a p').
  { split; [done|done|]. by apply (block_unfocus t _ a p p'); [apply Hi|..]. }
  split; [|by exists p']. destruct (vital_fields _ _ Hv) as (_ & _ & _ & _ & _ & _ & Hs). unfold stays in Hs.
  injection Hs as S1 S2 S3 S4 S5 S6 S7. destruct (inv_blocks t a p Hi E) as [_ [Q1 Q2 Q3 Q4 Q5 Q6 Q7]].
  eapply inv_same_end; [exact Hi|exact E|exact Hc|done|done|]. split; rewrite S1, ?S3, ?S4, ?S5, ?S6; try done.
  - rewrite Hst. intros [E0|[E0|E0%elem_of_nil]%elem_of_cons]%elem_of_cons; done.
  - by rewrite Hst.
Qed.

(** The state after the connection is accepted. *)
Lemma runs_accepted a i (t : tcp) p :
  stands_active a t -> pcbs t !! a = Some p -> input_ok i -> antipodal i p = false -> unprocessed i ->
  runs (bind (receive output_err frag_ram frag_ref ram a i) (fun i =>
          bind (update_pcb a (fun p' => p' <| acked ::= fun n => if n =? 0 then n else u16 (n - 1) |>
                 <| cwnd := if cwnd p =? 1 then u16 (mss p' * 2) else mss p' |>)) (fun _ =>
          bind (when (got_fin i) (bind (update_pcb a tcp_ack_now) (fun _ => set_state a CLOSE_WAIT))) (fun _ => ret (ERR_OK, i))))) t
    (processed a).
Proof.
  intros (Hi & Ha & p0 & E & Hs) E0 Hin Hap Hu. rewrite E in E0. injection E0 as ->.
  destruct (active_block t a Hi Ha) as (q & Eq & Hact). rewrite E in Eq. injection Eq as <-.
  assert (Hw : state p <> TIME_WAIT) by (intros E0; unfold active_state in Hact; rewrite E0 in Hact; by apply Hact, (bool_decide_unpack _)).
  run (exact (runs_receive a i t p Hi E Hs Hw Hin Hap)). intros i1 t1 (Hi1 & Hf & p1 & Hc1 & Hse).
  pose proof (changes_lookup _ _ _ _ Hc1) as E1. destruct (inv_blocks t1 a p1 Hi1 E1) as [Hn1 Hs1].
  assert (Hst : stands_active a t1).
  { split; [done|]. split; [by rewrite (active_changes _ _ _ _ Hc1)|]. exists p1. split; [done|]. unfold same_end in Hse.
    injection Hse as -> _ _ _ _ _. done. }
  match goal with |- context [update_pcb a ?f] => set (f0 := f) end.
  assert (G : segments_of (f0 p1) = segments_of p1 /\ nums_ok (f0 p1) /\ settled (f0 p1) /\ state (f0 p1) = state p1 /\ local_port (f0 p1) = local_port p1).
  { split; [done|]. split; [|split; [by apply (settled_same p1)|done]]. destruct Hn1 as [N1 N2 N3 N4 N5 N6 N7]. split; try done.
    cbn. unfold TCP_MSS in *. destruct (cwnd p =? 1); [rewrite u16_small by (unfold in_u16; lia)|]; lia. }
  clearbody f0. destruct G as (G1 & G2 & G3 & G4 & G5). run (by apply (stands_update a f0 t1 p1)).
  intros _ t2 H2'. eapply runs_bind with (R := fun _ => stands_active a).
  - apply runs_when; [intros _|done]. run (by apply runs_ack_now). intros _ t3 H3'.
    by apply runs_next_state; [done|apply (bool_decide_unpack _)|].
  - intros _ t3 H3'. apply runs_ret. apply processed_stands; [by apply active_stands|by eapply only_fin_resets].
Qed.

Lemma runs_set_accept a (t : tcp) p :
  inv t -> pcbs t !! a = Some p -> a ∈ tcp_active_pcbs t ->
  runs (set_state a ESTABLISHED) t (fun _ t' => accepting a t' /\ changes t t' a (p <| state := ESTABLISHED |>)).
Proof.
  intros Hi E Ha. destruct (inv_blocks t a p Hi E) as [Hn _].
  eapply runs_mono; [apply (runs_update a _ t p (iv_mem _ Hi) E); [done|by apply nums_state]|cbv beta]. intros _ t1 Hc.
  split; [|done]. by eapply accepting_changes.
Qed.
Lemma runs_syn_rcvd a i (t : tcp) p :
  inv t -> pcbs t !! a = Some p -> a ∈ tcp_active_pcbs t -> state p = SYN_RCVD ->
  input_ok i -> antipodal i p = false -> unprocessed i ->
  runs (process_syn_rcvd output_err frag_ram frag_ref ram app a i) t (processed a).
Proof.
  intros Hi E Ha Hst Hin Hap Hun. pose proof (unprocessed_silent i Hun) as Hsi. destruct (inv_blocks t a p Hi E) as [Hn Hse].
  apply (runs_get_pcb a p); [done|]. destruct (flag_set (in_flags i) TCP_ACK); [destruct (TCP_SEQ_BETWEEN _ _ _)|].
  - run (exact (runs_set_accept a t p Hi E Ha)). intros _ t1 [Hacc Hc1].
    pose proof (changes_lookup _ _ _ _ Hc1) as E1. set (p1 := p <| state := ESTABLISHED |>) in *.
    assert (G : accept p1 = accept p /\ state p1 = ESTABLISHED /\ rcv_nxt p1 = rcv_nxt p) by done. clearbody p1. destruct G as (G1 & G2 & G3).
    run (apply (runs_event_accept a t1 p1 Hacc E1); rewrite G1; by apply Hse). intros e t2 Hcall.
    assert (Hb1 : a ∉ tcp_bound_pcbs t1) by (apply active_only; apply Hacc).
    destruct Hcall as [[Hi2 Hk]|[-> ->]].
    + destruct (Z.eqb_spec e ERR_ABRT) as [->|He]; [by apply runs_ret|]. specialize (Hk He).
      pose proof (kp_active _ _ _ Hk (ac_active _ _ Hacc)) as Ha2. destruct (kp_block _ _ _ Hk p1 E1) as (p2 & E2 & N2 & C2).
      assert (Hs2 : stands_active a t2).
      { split; [done|]. split; [done|]. exists p2. split; [done|]. apply C2. rewrite G2. by apply (bool_decide_unpack _). }
      destruct (Z.eqb_spec e ERR_OK); cbn [negb].
      * apply (runs_get_pcb a p2); [done|]. apply runs_accepted; try done. unfold antipodal in *. by rewrite N2, G3.
      * unfold when, tcp_abort. run (apply (runs_abandon output_err frag_ram frag_ref ram app contract a true t2 p2 Hi2 E2)).
        { apply active_only; [apply Hi2|done]. }
        intros _ t3 [Hi3 _]. by apply runs_ret.
    + cbn [negb Z.eqb ERR_ARG ERR_OK]. run (apply (runs_abandon_but output_err frag_ram frag_ref ram app contract a true t1 p1); [apply Hacc| |done|done]).
      { split; [by rewrite G2|]. rewrite G2. intros [E0|[E0|E0%elem_of_nil]%elem_of_cons]%elem_of_cons; done. }
      intros _ t3 [Hi3 _]. by apply runs_ret.
  - by apply rst_processed.
  - eapply runs_bind with (R := fun _ t' => inv t' /\ a ∈ tcp_active_pcbs t').
    + apply runs_when; [intros _|done]. eapply runs_mono; [by apply (runs_rexmit a t p)|cbv beta]. intros _ t1 (Hi1 & p1 & Hc1).
      split; [done|]. by rewrite (active_changes _ _ _ _ Hc1).
    + intros _ t1 [Hi1 Ha1]. apply runs_ret. by apply processed_active.
Qed.

(** Any change of fields that the invariant does not speak of. *)
Lemma runs_touch a f (t : tcp) p :
  inv t -> pcbs t !! a = Some p -> a ∈ tcp_active_pcbs t -> segments_of (f p) = segments_of p -> nums_ok (f p) -> settled (f p) ->
  state (f p) = state p -> local_port (f p) = local_port p -> rcv_nxt (f p) = rcv_nxt p ->
  runs (update_pcb a f) t (fun _ t' => inv t' /\ a ∈ tcp_active_pcbs t' /\ exists p', pcbs t' !! a = Some p' /\
    state p' = state p /\ rcv_nxt p' = rcv_nxt p).
Proof.
  intros Hi E Ha Hseg Hn Hse Hst Hlp Hnx.
  eapply runs_mono; [apply (runs_update_same a f t p Hi E Hseg Hn Hst Hlp Hse)|cbv beta]. intros _ t1 [Hi1 Hc1].
  split; [done|]. split; [by rewrite (active_changes _ _ _ _ Hc1)|]. exists (f p). split; [by eapply changes_lookup|done].
Qed.

Lemma runs_process a i (t : tcp) p :
  inv t -> pcbs t !! a = Some p -> a ∈ tcp_active_pcbs t -> input_ok i -> opts_ok stale i -> antipodal i p = false -> unprocessed i ->
  runs (tcp_process output_err frag_ram frag_ref ram stale app a i) t (processed a).
Proof.
  intros Hi E Ha Hin Ho Hap Hun. pose proof (unprocessed_silent i Hun) as Hsi. destruct (inv_blocks t a p Hi E) as [Hn Hse].
  apply (runs_get_pcb a p); [done|]. destruct (flag_set (in_flags i) TCP_RST).
  { cbv zeta. match goal with |- runs (if ?b then _ else _) _ _ => destruct b end; [|apply runs_ret; by apply processed_active].
    run (apply (runs_flags a _ t p Hi E); intros ?; by apply infr_clear). intros _ t1 [Hi1 Hc1]. apply runs_ret. split; [done|].
    intros _. left. split; [by rewrite (active_changes _ _ _ _ Hc1)|]. destruct Hsi as [F1 F2]. split; [done|].
    cbn [snd]. unfold got_fin. destruct Hun as [E1 _]. cbn [set set_recv_flags recv_flags]. by rewrite E1. }
  destruct (_ && negb _).
  { run (apply (runs_flags a (flag_or TF_ACK_NOW) t p Hi E); intros ?; by apply infr_or). intros _ t1 [Hi1 Hc1]. apply runs_ret.
    apply processed_active; [done|by rewrite (active_changes _ _ _ _ Hc1)|done]. }
  apply runs_get. match goal with |- context [update_pcb a ?f] => set (f0 := f) end.
  assert (G : segments_of (f0 p) = segments_of p /\ nums_ok (f0 p) /\ settled (f0 p) /\ state (f0 p) = state p /\
    local_port (f0 p) = local_port p /\ rcv_nxt (f0 p) = rcv_nxt p).
  { unfold f0. destruct (flag_set (flags p) TF_RXCLOSED); (split; [done|]; split; [by destruct Hn|split; [by apply (settled_same p)|done]]). }
  clearbody f0. destruct G as (G1 & G2 & G3 & G4 & G5 & G6).
  run (by apply (runs_touch a f0 t p)). intros _ t1 (Hi1 & Ha1 & p1 & E1 & S1 & N1).
  run (exact (runs_parseopt a i t1 p1 Hi1 E1 Ho)). intros _ t2 (Hi2 & m & Hc2). pose proof (changes_lookup _ _ _ _ Hc2) as E2.
  assert (Ha2 : a ∈ tcp_active_pcbs t2) by (by rewrite (active_changes _ _ _ _ Hc2)).
  set (p2 := p1 <| mss := m |>) in *. assert (G : state p2 = state p /\ rcv_nxt p2 = rcv_nxt p) by (by rewrite <- S1, <- N1).
  clearbody p2. destruct G as (S2 & N2). assert (Hap2 : antipodal i p2 = false) by (unfold antipodal in *; by rewrite N2).
  destruct (state p) eqn:Es.
  all: try (apply runs_ret; by apply processed_active).
  all: try by apply (runs_syn_rcvd a i t2 p2).
  all: try (apply (runs_connected a _ i t2 p2); try done; rewrite S2; by apply (bool_decide_unpack _)).
  apply (runs_syn_sent a i t2 p2); try done. apply Hin.
Qed.

(** ** The end of the processing *)

Lemma inv_input_pcb x (t : tcp) : inv t -> inv (t <| tcp_input_pcb := x |>).
Proof. intros [[? ? ? ? ?] [? ? ? ? ?] ?]. by split. Qed.
Lemma runs_output_last a (t : tcp) p : inv t -> pcbs t !! a = Some p ->
  runs (bind (output a) (fun _ => ret tt)) t (fun _ t' => inv t').
Proof. intros Hi E. run (exact (runs_output_inv a t p Hi E)). intros e t1 [Hi1 _]. by apply runs_ret. Qed.

(** The block that the segment is for, when there is something to deliver. *)
Definition ready (a : Z) (i : input) (t : tcp) : Prop :=
  inv t /\ is_Some (pcbs t !! a) /\ (silent i \/ stands a t).
Lemma keeps_stands a (t t' : tcp) : inv t' -> keeps a t t' -> stands a t -> stands a t'.
Proof.
  intros Hi [K1 K2 K3] (_ & Hp & p & E & Hs). split; [done|]. destruct (K3 p E) as (p' & E' & _ & C').
  split; [destruct Hp; auto|]. exists p'. auto.
Qed.
Lemma keeps_ready a i (t t' : tcp) : inv t' -> keeps a t t' -> ready a i t -> ready a i t'.
Proof.
  intros Hi Hk (_ & [p E] & Hs). split; [done|]. split.
  - destruct (kp_block _ _ _ Hk p E) as (p' & -> & _). done.
  - destruct Hs as [Hs|Hs]; [by left|right]. by eapply keeps_stands.
Qed.
Lemma stands_ready a i (t : tcp) : stands a t -> ready a i t.
Proof. intros Hs. pose proof Hs as (Hi & _ & p & E & _). split; [done|]. rewrite E. split; [done|by right]. Qed.
Lemma stands_not_bound a (t : tcp) : stands a t -> a ∉ tcp_bound_pcbs t.
Proof. intros (Hi & Hp & _). apply not_bound; [apply Hi|done]. Qed.

(** The block is still there unless the function says that it is gone. *)
Definition delivered (a : Z) (i : input) (gone : bool) (t : tcp) : Prop := inv t /\ (gone = false -> ready a i t).
Lemma ready_delivered a i gone (t : tcp) : ready a i t -> delivered a i gone t.
Proof. intros Hr. split; [apply Hr|done]. Qed.
Lemma called_delivered a i e (t t' : tcp) : ready a i t -> called a t e t' -> delivered a i (e =? ERR_ABRT) t'.
Proof.
  intros Hr [Hi Hk]. split; [done|]. intros He%Z.eqb_neq. eapply keeps_ready; [done|by apply Hk|done].
Qed.
Lemma runs_deliver_sent a i (t : tcp) : ready a i t -> runs (deliver_sent app a) t (delivered a i).
Proof.
  intros Hr. pose proof Hr as (Hi & [p E] & _). apply (runs_get_pcb a p); [done|]. destruct (0 <? acked p); [|by apply runs_ret, ready_delivered].
  run (exact (runs_event_sent a (acked p) t p Hi E)). intros e t1 Hc. apply runs_ret. by eapply called_delivered.
Qed.

(** Data that the application did not take waits in the block. *)
Lemma runs_refuse_put a q fl (t : tcp) p : stands a t -> pcbs t !! a = Some p ->
  runs (put_pcb a (p <| refused_data := Some (q, fl) |>)) t (fun _ => stands a).
Proof.
  intros (Hi & Hp & p0 & E0 & Hs) E. rewrite E in E0. injection E0 as <-. destruct (inv_blocks t a p Hi E) as [Hn Hse].
  eapply runs_mono; [apply (runs_put a t p); [apply Hi|exact E|done|by destruct Hn]|cbv beta]. intros _ t1 Hc1. split.
  - eapply inv_same_end; [exact Hi|exact E|exact Hc1|done|done|]. destruct Hse as [S1 S2 S3 S4 S5 S6 S7]. by split.
  - pose proof (ch_lists _ _ _ _ Hc1) as Hl. unfold lists in Hl. injection Hl as L1 L2 L3 L4 L5.
    split; [by rewrite L2, L3|]. eexists. split; [by eapply changes_lookup|done].
Qed.
Lemma runs_refuse a q fl (t : tcp) : stands a t ->
  runs (update_pcb a (fun p => p <| refused_data := Some (q, fl) |>)) t (fun _ => stands a).
Proof.
  intros Hs. pose proof Hs as (Hi & Hp & p & E & Hc). apply (runs_get_pcb a p); [done|]. by apply runs_refuse_put.
Qed.
Lemma runs_deliver_data a i (t : tcp) : ready a i t ->
  runs (deliver_data output_err frag_ram frag_ref ram app a i) t (delivered a i).
Proof.
  intros Hr. unfold deliver_data. destruct (recv_data i) as [q|] eqn:Ed; [|by apply runs_ret, ready_delivered].
  assert (Hs : stands a t) by (destruct Hr as (_ & _ & [[Hs _]|Hs]); [congruence|done]). pose proof Hs as (Hi & Hp & p & E & Hc).
  apply (runs_get_pcb a p); [done|]. destruct (flag_set (flags p) TF_RXCLOSED).
  - run (apply runs_free_pbuf, Hi). intros x t1 Hsame.
    assert (Hs1 : stands a t1) by (eapply keeps_stands; [by eapply inv_same|by eapply same_keeps|done]).
    pose proof Hs1 as (Hi1 & _ & p1 & E1 & _). unfold tcp_abort.
    run (exact (runs_abandon output_err frag_ram frag_ref ram app contract a true t1 p1 Hi1 E1 (stands_not_bound a t1 Hs1))).
    intros _ t2 [Hi2 _]. by apply runs_ret.
  - run (exact (runs_event_recv a (Some (q, in_pflags i)) t p Hi E Hc)). intros e t1 [Hi1 Hk].
    destruct (Z.eqb_spec e ERR_ABRT) as [|He]; [by apply runs_ret|]. specialize (Hk He).
    pose proof (keeps_stands a t t1 Hi1 Hk Hs) as Hs1.
    eapply runs_bind with (R := fun _ => stands a); [apply runs_when; [intros _; by apply runs_refuse|done]|].
    intros _ t2 Hs2. by apply runs_ret, ready_delivered, stands_ready.
Qed.
Lemma runs_deliver_fin a i (t : tcp) : ready a i t ->
  runs (deliver_fin output_err frag_ram frag_ref ram app a i) t (delivered a i).
Proof.
  intros Hr. unfold deliver_fin. destruct (got_fin i) eqn:Ef; [|by apply runs_ret, ready_delivered].
  assert (Hs : stands a t) by (destruct Hr as (_ & _ & [[_ Hs]|Hs]); [congruence|done]). pose proof Hs as (Hi & Hp & p & E & Hc).
  apply (runs_get_pcb a p); [done|]. destruct (refused_data p) as [[q fl]|].
  - run (exact (runs_refuse_put a q (Z.lor fl PBUF_FLAG_TCP_FIN) t p Hs E)).
    intros x t1 Hs1. by apply runs_ret, ready_delivered, stands_ready.
  - run (exact (runs_event_fin a t p Hi E Hc)). intros e t1 Hcall. apply runs_ret. by eapply called_delivered.
Qed.

(** A connection that is over: its block is removed and freed. *)
Lemma runs_drop a (t : tcp) : inv t -> a ∈ tcp_active_pcbs t ->
  runs (bind (tcp_pcb_remove output_err frag_ram frag_ref ram tcp_active_pcbs a) (fun _ => free_pcb a)) t (fun _ t' => inv t').
Proof.
  intros Hi Ha. destruct (active_block t a Hi Ha) as (p & E & _). destruct (inv_blocks t a p Hi E) as [Hn Hse].
  destruct (settled_removable p Hse) as [R1 R2]. destruct (active_only t a (iv_lists _ Hi) Ha) as [Hb Hw].
  run (exact (runs_pcb_remove output_err frag_ram frag_ref ram tcp_active_pcbs a t p (iv_lists _ Hi) (iv_mem _ Hi) E R2 R1 (runs_rmv_active a t Hb Hw))).
  intros _ t1 (p1 & E1 & E2 & Hm & Hid & _). eapply runs_mono; [exact (runs_free_removed a t t1 p1 E1 E2 Hm Hid)|cbv beta].
  intros _ t2 Hr. eapply inv_removed; [by apply inv_inv_but|exact Hr].
Qed.
Lemma runs_err_drop a err b (t : tcp) p : inv t -> a ∈ tcp_active_pcbs t -> pcbs t !! a = Some p ->
  runs (bind (when b (event_err app (errf p) (callback_arg p) err)) (fun _ =>
          bind (tcp_pcb_remove output_err frag_ram frag_ref ram tcp_active_pcbs a) (fun _ => free_pcb a))) t (fun _ t' => inv t').
Proof.
  intros Hi Ha E. eapply runs_bind with (R := fun _ t' => inv t' /\ a ∈ tcp_active_pcbs t').
  - apply runs_when; [intros _|done]. eapply runs_mono; [apply (runs_err app contract _ _ _ t Hi)|cbv beta].
    intros _ t1 (Hi1 & _ & Hk). split; [done|]. by apply (kp_active _ _ _ (Hk a p E eq_refl eq_refl)).
  - intros _ t1 [Hi1 Ha1]. by apply runs_drop.
Qed.

Lemma processed_ready a r (t : tcp) : processed a r t -> r.1 <> ERR_ABRT ->
  ready a r.2 t /\ (resets r.2 = true -> a ∈ tcp_active_pcbs t).
Proof.
  intros [Hi Hp] Hr. destruct (Hp Hr) as [[Ha Hs]|[[Hs He]|Hs]].
  - split; [|done]. split; [done|]. destruct (active_block t a Hi Ha) as (p & E & _). rewrite E. split; [done|by left].
  - split; [by apply stands_ready|]. by rewrite He.
  - split; [by apply stands_ready, active_stands|]. intros _. apply Hs.
Qed.
Lemma runs_finish a err i (t : tcp) : processed a (err, i) t ->
  runs (finish_input output_err frag_ram frag_ref ram app a err i) t (fun _ t' => inv t').
Proof.
  intros Hp. unfold finish_input. destruct (Z.eqb_spec err ERR_ABRT) as [|He]; [by apply runs_ret, Hp|].
  destruct (processed_ready _ _ _ Hp He) as [Hr Ha]. cbn [snd] in *. unfold resets in Ha. pose proof Hr as (Hi & [p E] & _).
  apply (runs_get_pcb a p); [done|]. destruct (flag_set (recv_flags i) TF_RESET).
  { apply (runs_err_drop a ERR_RST true t p); auto. }
  destruct (flag_set (recv_flags i) TF_CLOSED); [apply runs_err_drop; auto|]. clear Hp Ha E p Hi.
  assert (Hgo : forall (m : M bool) (k : M unit) (t : tcp), runs m t (delivered a i) -> (forall t', ready a i t' -> runs k t' (fun _ => inv)) ->
    runs (bind m (fun gone => if gone then ret tt else k)) t (fun _ => inv)).
  { intros m k t0 Hm Hk. run (exact Hm). intros gone t1 [Hi1 Hr1]. destruct gone; [by apply runs_ret|auto]. }
  apply Hgo; [by apply runs_deliver_sent|]. intros t1 Hr1. apply Hgo; [by apply runs_deliver_data|]. intros t2 Hr2.
  apply Hgo; [by apply runs_deliver_fin|]. intros t3 (Hi3 & [p3 E3] & _). apply runs_modify.
  eapply runs_output_last; [by apply inv_input_pcb|exact E3].
Qed.

Lemma runs_release i (t : tcp) : inv t -> runs (release_input i) t (fun _ t' => inv t').
Proof.
  intros Hi. unfold release_input. apply runs_modify. apply (inv_input_pcb None) in Hi. destruct (inseg_p i) as [q|]; [by apply runs_free_inv|by apply runs_ret].
Qed.

(** What the segment has to be like for a block: [antipodal] in [TcpSafe]. *)
Definition segment_ok (i : input) : Prop := input_ok i /\ opts_ok stale i /\ unprocessed i.
Lemma runs_conn a i (t : tcp) p :
  inv t -> pcbs t !! a = Some p -> a ∈ tcp_active_pcbs t -> segment_ok i -> antipodal i p = false ->
  runs (conn_input output_err frag_ram frag_ref ram stale app a i) t (fun _ t' => inv t').
Proof.
  intros Hi E Ha (Hin & Ho & Hun) Hap. apply (runs_get_pcb a p); [done|].
  eapply runs_bind with (R := fun refused t' => inv t' /\ (refused = false ->
    a ∈ tcp_active_pcbs t' /\ exists p', pcbs t' !! a = Some p' /\ antipodal i p' = false)).
  - destruct (refused_data p) as [[q fl]|] eqn:Er; [|apply runs_ret; split; [done|intros _; split; [done|by exists p]]].
    run (exact (runs_process_refused a t p q fl Hi E Er)). intros e t1 [Hi1 Hk].
    destruct (Z.eqb_spec e ERR_ABRT) as [|He]; [by apply runs_ret|]. specialize (Hk He).
    destruct (kp_block _ _ _ Hk p E) as (p1 & E1 & N1 & _). apply (runs_get_pcb a p1); [done|]. apply runs_ret.
    split; [done|]. intros _. split; [by apply (kp_active _ _ _ Hk)|]. exists p1. split; [done|]. unfold antipodal in *. by rewrite N1.
  - intros refused t1 [Hi1 Hr]. destruct refused; [by apply runs_release|]. destruct (Hr eq_refl) as (Ha1 & p1 & E1 & Hap1).
    apply runs_modify. run (apply (runs_process a i _ p1); try done; by apply inv_input_pcb). intros [err i'] t2 Hp.
    run (exact (runs_finish a err i' t2 Hp)). intros _ t3 Hi3. by apply runs_release.
Qed.

(** ** Demultiplexing *)

Lemma find_conn_ok sport dport s d (t : tcp) l :
  (forall a, a ∈ l -> is_Some (pcbs t !! a)) ->
  exists r, find_conn sport dport s d t l = Some r /\ forall a, r = Some a -> a ∈ l.
Proof.
  induction l as [|b l IH]; intros Hl; cbn [find_conn]; [by exists None|]. destruct (Hl b) as [p E]; [constructor|].
  rewrite E. cbn [mbind option_bind]. destruct (_ && _); [exists (Some b); split; [done|intros a [= ->]; constructor]|].
  destruct IH as (r & Er & Hr); [intros a Ha; apply Hl; by constructor|]. exists r. split; [done|]. intros a Ea. constructor. auto.
Qed.
Lemma find_listener_ok dport d (t : tcp) l any :
  (forall b, b ∈ l -> is_Some (lpcbs t !! b)) ->
  exists r, find_listener dport d t any l = Some r /\ forall b, r = Some b -> b ∈ l \/ any = Some b.
Proof.
  revert any. induction l as [|x l IH]; intros any Hl; cbn [find_listener]; [exists any; split; [done|auto]|].
  destruct (Hl x) as [p E]; [constructor|]. rewrite E. cbn [mbind option_bind].
  assert (IH' : forall any, exists r, find_listener dport d t any l = Some r /\ forall b, r = Some b -> b ∈ l \/ any = Some b).
  { intros any'. apply IH. intros b Hb. apply Hl. by constructor. }
  destruct (_ =? dport); [destruct (_ =? d)|].
  - exists (Some x). split; [done|]. intros b [= ->]. left. constructor.
  - destruct (IH' (if ip_addr_isany (l_local_ip p) then Some x else any)) as (r & Er & Hr). exists r. split; [done|].
    intros b Eb. destruct (Hr b Eb) as [Hb|Hb]; [left; by constructor|]. destruct (ip_addr_isany _); [|by right].
    injection Hb as ->. left. constructor.
  - destruct (IH' any) as (r & Er & Hr). exists r. split; [done|]. intros b Eb. destruct (Hr b Eb); [left; by constructor|by right].
Qed.
Lemma to_front_perm a l : a ∈ l -> to_front a l ≡ₚ l.
Proof.
  unfold to_front. induction l as [|b l IH]; [by intros ?%not_elem_of_nil|]. intros Ha. cbn [rmv].
  destruct (Z.eqb_spec b a) as [->|Hn]; [done|]. rewrite Permutation_swap, IH; [done|]. by apply elem_of_cons in Ha as [->|].
Qed.

Lemma lists_perm (t t' : tcp) :
  tcp_bound_pcbs t' = tcp_bound_pcbs t -> tcp_active_pcbs t' ≡ₚ tcp_active_pcbs t -> tcp_tw_pcbs t' = tcp_tw_pcbs t ->
  tcp_listen_pcbs t' ≡ₚ tcp_listen_pcbs t -> pcbs t' = pcbs t -> lpcbs t' = lpcbs t -> lists_ok t -> lists_ok t'.
Proof.
  intros E1 E2 E3 E4 E5 E6 [Hd Hb Ha Hw [Hl1 Hl2]].
  split; rewrite ?E1, ?E3, ?E5, ?E6; try done.
  - by rewrite E2.
  - intros a. rewrite E2. apply Ha.
  - rewrite E4. split; [done|]. intros b. rewrite E4. apply Hl2.
Qed.
Lemma inv_front_active a (t : tcp) : inv t -> a ∈ tcp_active_pcbs t -> inv (t <| tcp_active_pcbs ::= to_front a |>).
Proof.
  intros [Il [? ? ? ? ?] Is] Ha. split; [|by split|done]. apply (lists_perm t); try done. by apply to_front_perm.
Qed.
Lemma inv_front_listen a (t : tcp) : inv t -> a ∈ tcp_listen_pcbs t -> inv (t <| tcp_listen_pcbs ::= to_front a |>).
Proof.
  intros [Il [? ? ? ? ?] Is] Ha. split; [|by split|done]. apply (lists_perm t); try done. by apply to_front_perm.
Qed.

Lemma runs_find {A B} (f : tcp -> option A) r (k : A -> M B) (t : tcp) Q :
  f t = Some r -> runs (k r) t Q -> runs (bind (fun t => r ← f t; Some (r, t)) k) t Q.
Proof. intros E Hk. unfold runs, bind. by rewrite E. Qed.

Lemma runs_segment h opts q (t : tcp) :
  inv t -> segment_ok (segment_of h opts q) ->
  (forall a p, pcbs t !! a = Some p -> antipodal (segment_of h opts q) p = false) ->
  runs (segment_input output_err frag_ram frag_ref ram stale app h opts q) t (fun _ t' => inv t').
Proof.
  intros Hi Hseg Hap. unfold segment_input. set (i := segment_of h opts q) in *. clearbody i. cbv zeta. apply runs_get.
  set (s := current_iphdr_src _). set (d := current_iphdr_dest _). clearbody s d.
  destruct (find_conn_ok (src h) (dest h) s d t (tcp_active_pcbs t)) as (r & Er & Hr).
  { intros a Ha. destruct (lo_active _ (iv_lists _ Hi) a Ha) as (p & -> & _). done. }
  eapply runs_find; [exact Er|]. destruct r as [a|].
  { specialize (Hr a eq_refl). destruct (active_block t a Hi Hr) as (p & E & _). apply runs_modify.
    apply (runs_conn a i _ p); [by apply inv_front_active|exact E| |done|by eapply Hap]. cbn. constructor. }
  destruct (find_conn_ok (src h) (dest h) s d t (tcp_tw_pcbs t)) as (r & Er2 & Hr2).
  { intros a Ha. destruct (lo_tw _ (iv_lists _ Hi) a Ha) as (p & -> & _). done. }
  eapply runs_find; [exact Er2|]. destruct r as [a|].
  { specialize (Hr2 a eq_refl). destruct (lo_tw _ (iv_lists _ Hi) a Hr2) as (p & E & _).
    run (exact (runs_timewait_input a i t p Hi E)). intros _ t1 Hi1. by apply runs_free_inv. }
  destruct (find_listener_ok (dest h) d t (tcp_listen_pcbs t) None) as (r & Er3 & Hr3).
  { intros b Hb. destruct (proj2 (lo_listen _ (iv_lists _ Hi)) b Hb) as (p & -> & _). done. }
  eapply runs_find; [exact Er3|]. destruct r as [b|].
  - destruct (Hr3 b eq_refl) as [Hb|]; [|done]. apply runs_modify. destruct Hseg as ([Hw _ _ _ _] & Ho & _).
    run (apply (runs_listen_input b i); [by apply inv_front_listen| |done|done]).
    { cbn. unfold to_front. constructor. }
    intros _ t1 Hi1. by apply runs_free_inv.
  - eapply runs_bind with (R := fun _ t' => inv t'); [|intros _ t1 Hi1; by apply runs_free_inv].
    apply runs_when; [intros _|done]. eapply runs_mono; [by apply runs_rst_segment|cbv beta]. by intros _ t1 [Hi1 _].
Qed.

(** ** Packets *)

(** The buffers of a packet hold bytes, and each is within reach of a 16-bit
    number with a sign. *)
Definition buffers_ok (q : pbuf) : Prop := Forall (fun b => bytes b /\ Z.of_nat (length b) <= 32768) (segs q).
Lemma buffers_first q : buffers_ok q -> bytes (first q).
Proof. unfold buffers_ok, first. destruct 1 as [|b l [Hb _] _]; [by constructor|exact Hb]. Qed.
(** A header is taken off. *)
Lemma strip_ok q n q' :
  0 <= n -> buffers_ok q -> pbuf_header q (- n) = Some q' ->
  buffers_ok q' /\ (length (data q') <= length (data q))%nat /\ n <= Z.of_nat (length (first q)).
Proof.
  intros Hn Hb. unfold pbuf_header, buffers_ok in *. destruct (segs q) as [|s l] eqn:Es; [done|].
  destruct (Z.eqb_spec (- n) 0) as [E0|E0].
  { intros [= <-]. rewrite Es. split; [done|]. split; [done|]. lia. }
  destruct (Z.ltb_spec (- n) 0); [|lia]. rewrite Z.opp_involutive.
  destruct (Nat.leb_spec (Z.to_nat n) (length s)) as [Hl|]; [|done]. intros [= <-]. cbn [segs]. apply Forall_cons in Hb as [[Hb1 Hb2] Hb3].
  split; [constructor; [split; [by apply Forall_drop|rewrite length_drop; lia]|done]|].
  unfold data, first. rewrite Es. cbn [segs hd]. rewrite !mjoin_cons, !length_app, length_drop. lia.
Qed.

(** The segment that is in a packet. *)
Definition segment_in (q : pbuf) : option input :=
  q1 ← pbuf_header q (- (IPH_HL (ip_hdr_of (first q ++ stale)) * 4));
  let h := tcp_hdr_of (first q1 ++ stale) in
  q2 ← pbuf_header q1 (- (TCPH_HDRLEN h * 4));
  Some (segment_of h (drop 20 (first q1)) q2).

Hypothesis stale_bytes : bytes stale /\ stale <> [].

Lemma segment_in_ok q1 q2 :
  buffers_ok q1 -> Z.of_nat (length (data q1)) <= 65534 ->
  pbuf_header q1 (- (TCPH_HDRLEN (tcp_hdr_of (first q1 ++ stale)) * 4)) = Some q2 ->
  segment_ok (segment_of (tcp_hdr_of (first q1 ++ stale)) (drop 20 (first q1)) q2).
Proof.
  intros Hb Hl E. assert (Hh : tcp_hdr_ok (tcp_hdr_of (first q1 ++ stale))).
  { apply tcp_hdr_of_ok, Forall_app. split; [by apply buffers_first|apply stale_bytes]. }
  set (h := tcp_hdr_of (first q1 ++ stale)) in *. clearbody h. destruct Hh as [K1 K2 K3 K4 K5 K6 K7 K8].
  assert (Hr : 0 <= TCPH_HDRLEN h).
  { unfold TCPH_HDRLEN, in_u16 in *. rewrite Z.shiftr_div_pow2 by lia. change (2 ^ 12) with 4096. zlia. }
  destruct (strip_ok q1 (TCPH_HDRLEN h * 4) q2 ltac:(lia) Hb E) as (B1 & B2 & B3).
  assert (Et : tot_len q2 = Z.of_nat (length (data q2))) by (unfold tot_len; apply u16_small; unfold in_u16; lia).
  split; [split; cbn|split; [split; cbn|done]]; try done.
  - exists q2. split; [done|]. split; [|done]. eapply Forall_impl; [exact B1|]. by intros x [_ ?].
  - lia.
  - apply Forall_app. split; [by apply Forall_drop, buffers_first|apply stale_bytes].
  - rewrite length_app, length_drop. destruct stale_bytes as [_ Hs]. destruct stale; [done|]. cbn [length]. lia.
Qed.

Lemma runs_input q inp (t : tcp) :
  inv t -> buffers_ok q -> Z.of_nat (length (data q)) <= 65534 ->
  (forall i a p, segment_in q = Some i -> pcbs t !! a = Some p -> antipodal i p = false) ->
  runs (tcp_input output_err frag_ram frag_ref ram stale app q inp) t (fun _ t' => inv t').
Proof.
  intros Hi Hb Hl Hap. unfold tcp_input, segment_in in *. cbv zeta in *. destruct (pbuf_header q _) as [q1|] eqn:E1; [|by apply runs_free_inv].
  assert (Hn : 0 <= IPH_HL (ip_hdr_of (first q ++ stale))).
  { unfold IPH_HL. apply Z.land_nonneg. right. lia. }
  destruct (strip_ok q (IPH_HL (ip_hdr_of (first q ++ stale)) * 4) q1 ltac:(lia) Hb E1) as (B1 & B2 & _). cbn [mbind option_bind] in Hap. apply runs_get.
  destruct (_ <? _); [by apply runs_free_inv|]. destruct (_ || _); [by apply runs_free_inv|].
  destruct (negb _); [by apply runs_free_inv|]. destruct (pbuf_header q1 _) as [q2|] eqn:E2; [|by apply runs_free_inv].
  cbn [mbind option_bind] in Hap. apply runs_segment; [done|apply segment_in_ok; [done|lia|done]|].
  intros a p E. by eapply Hap.
Qed.

(** [tcp_input] gives a result for every packet of at most 65534 bytes, and keeps
    the invariant: what the header, the options and the data say, in whatever state
    the blocks are, no function reads a block that is gone, frees one twice or puts
    one on the wrong list, as long as the application's functions keep the contract
    [app_ok]. The exception are segments of length one that are [antipodal] to a
    connection: these pass the test of the window 2^31 away from it. *)
Theorem tcp_input_safe q inp (t : tcp) :
  inv t -> buffers_ok q -> Z.of_nat (length (data q)) <= 65534 ->
  (forall i a p, segment_in q = Some i -> pcbs t !! a = Some p -> antipodal i p = false) ->
  exists t', tcp_input output_err frag_ram frag_ref ram stale app q inp t = Some (tt, t') /\ inv t'.
Proof. intros Hi Hb Hl Hap. destruct (runs_input q inp t Hi Hb Hl Hap) as ([] & t' & E & Hi'). by exists t'. Qed.

End input.

(** ** A host *)

#[local] Existing Instance IpFrag.reass_pool.
#[local] Abbreviation host := (Tcp.tcp (P:=Memp.memp) (PS:=Memp.memp) (PC:=Memp.memp) (PL:=Memp.memp)).
#[local] Abbreviation all_ok := (fun _ _ : nat => true).

Definition sample_pool : Memp.memp := Memp.memp_init [(5%nat, 32)] 4096.
Lemma sample_pool_holds : holds sample_pool [].
Proof. exists [[]]. split; [|done]. apply (Memp.memp_init_inv [(5%nat, 32)] 4096); [lia|repeat constructor]. Qed.
Definition sample_netif (addr : Z) : netif := mkNetif 1 addr 0x00ffffff 1500 NETIF_FLAG_UP.
(** A host without connections; the datagram that is worked on is from [s] to [d]. *)
Definition sample_host (addr : Z) (s d : Z) : host :=
  mkTcp ∅ ∅ [] [] [] [] false None 0xc000 0 0 0 77 sample_pool sample_pool
    (mkNet (mkIp 7 [] (Some (sample_netif addr)) None None s d IpFrag.reass_start [] 0 0 0) sample_pool) [].

(** The application gives every new connection its function for data. *)
Definition sample_app (c : call) (t : host) : option (Z * host) :=
  match c with
  | Accept _ _ a | Connected _ _ a => '(_, t') ← tcp_recv a (Some 5) t; Some (ERR_OK, t')
  | _ => Some (ERR_OK, t)
  end.
Lemma sample_accepts a (t : host) : accepting a t ->
  exists e t', ('(_, t') ← tcp_recv a (Some 5) t; Some (ERR_OK, t')) = Some (e, t') /\ inv t' /\ keeps a t t'.
Proof.
  intros [[Il Im Is] Ha (p & E & Hst)]. destruct (mo_blocks _ Im a p E) as [_ Hn].
  destruct (runs_update a (fun p => p <| recv := App <$> Some 5 |>) t p Im E) as ([] & t1 & E1 & Hc); [done|by destruct Hn|].
  unfold tcp_recv. rewrite E1. cbn [mbind option_bind]. eexists _, _. split; [reflexivity|]. split.
  - eapply inv_but_inv; [|by eapply changes_lookup|].
    + split; [|apply Hc|].
      * eapply lists_changes; [exact Il|exact Hc|]. apply fits_active; [done|done|]. cbn. rewrite Hst. by apply (bool_decide_unpack _).
      * intros b q Hn'. rewrite (ch_pcbs _ _ _ _ Hc), lookup_insert_ne by done. by apply Is.
    + split; cbn; rewrite ?Hst; try done.
      * intros [E0|[E0|E0%elem_of_nil]%elem_of_cons]%elem_of_cons; done.
      * intros _. by apply (bool_decide_unpack _).
  - eapply keeps_changes; [exact E|exact Hc|done|done].
Qed.
Lemma sample_app_ok : app_ok sample_app.
Proof.
  intros c t Hc. destruct c as [f x a|f x a q|f x a n|f x a|f x a|f x e]; cbn [sample_app callable behaves] in *.
  1,4: destruct (sample_accepts a t Hc) as (e & t' & E & Hi & Hk); exists e, t'; split; [exact E|]; split; [done|by intros _].
  1-3: exists ERR_OK, t; split; [done|]; split; [apply Hc|]; intros _; apply keeps_refl.
  exists ERR_OK, t. split; [done|]. split; [done|]. split; [apply keeps_listeners_refl|]. intros a p _ _ _. apply keeps_refl.
Qed.

(** A host that listens on port 80, and the SYN of another one. *)
Definition sample_listening : host :=
  match alloc sample_pool with
  | Some (b, m) =>
      (sample_host 0x0200000a 0x0100000a 0x0200000a)
        <| lpcbs := {[b := mkListen 0 0 0 64 0 (Some (App 3)) TCP_PRIO_NORMAL 80]} |> <| tcp_listen_pcbs := [b] |> <| listen_pool := m |>
  | None => sample_host 0 0 0
  end.
Definition sample_calling : option host :=
  '(a, x) ← tcp_new (fun _ => 0) all_ok all_ok (fun _ => true) sample_app (sample_host 0x0100000a 0 0);
  '(_, x) ← tcp_connect (fun _ => 0) all_ok all_ok (fun _ => true) (default 0 a) (Some 0x0200000a) 80 (Some 9) x;
  Some x.
Definition sample_syn : pbuf :=
  match sample_calling with
  | Some x => mkPbuf [] [default [] (data <$> head (TcpOut.sent_packets (events (n_ip (nt x)))))]
  | None => mkPbuf [] []
  end.
Definition sample_after : option host :=
  snd <$> tcp_input (fun _ => 0) all_ok all_ok (fun _ => true) [0] sample_app sample_syn (sample_netif 0x0200000a) sample_listening.
Lemma sample_accepted :
  (fun t => (fun a => state <$> pcbs t !! a) <$> tcp_active_pcbs t) <$> sample_after = Some [Some SYN_RCVD].
Proof. vm_compute. reflexivity. Qed.

Lemma sample_listening_inv : inv sample_listening.
Proof.
  pose proof (alloc_new sample_pool [] sample_pool_holds) as Ha. unfold sample_listening. destruct (alloc sample_pool) as [[b m]|] eqn:E.
  - destruct Ha as [_ Hm]. split; [split|split|]; cbn; try done.
    + apply NoDup_nil. constructor.
    + by intros a ?%not_elem_of_nil.
    + by intros a ?%not_elem_of_nil.
    + by intros a ?%not_elem_of_nil.
    + split; [apply NoDup_singleton|]. intros x ->%list_elem_of_singleton. eexists. split; [apply lookup_singleton_eq|done].
    + exact sample_pool_holds.
    + by rewrite map_to_list_singleton.
    + exact sample_pool_holds.
    + split; [constructor|]. intros n [= <-]. right. cbn. lia.
  - vm_compute in E. discriminate E.
Qed.

Lemma tcp_input_safe_witness :
  exists t', sample_after = Some t' /\ inv t' /\ (fun a => state <$> pcbs t' !! a) <$> tcp_active_pcbs t' = [Some SYN_RCVD].
Proof.
  destruct (tcp_input_safe (fun _ => 0) all_ok all_ok (fun _ => true) [0] sample_app sample_app_ok
              ltac:(split; [by repeat constructor|done]) sample_syn (sample_netif 0x0200000a) sample_listening) as (t' & E & Hi).
  - exact sample_listening_inv.
  - unfold buffers_ok. apply (bool_decide_unpack _). vm_compute. done.
  - apply (bool_decide_unpack _). vm_compute. done.
  - intros i a p _ Hp. exfalso. unfold sample_listening in Hp. destruct (alloc sample_pool) as [[b m]|]; cbn in Hp; by rewrite lookup_empty in Hp.
  - exists t'. pose proof sample_accepted as G. unfold sample_after. rewrite E. split; [done|]. split; [done|].
    unfold sample_after in G. rewrite E in G. cbn [fmap option_fmap option_map snd] in G. by injection G.
Defined.

End TcpInput.
