(* ===== verification/TcpUse.v ===== *)
(** * TCP: the calls of the application

    The functions that the application calls keep the invariant of [TcpInv], when
    they are called for blocks that are in memory.  Together with [TcpInput]: in any
    sequence of permitted calls and packets nothing is undefined; the timers are not
    covered.  At the end two hosts connect and close. *)

From stdpp Require Import gmap.
From S2P Require Import Prelude LwipDef InetChksum IpAddr Mem Memp Pbuf Packet IpFrag Ip TcpDef TcpOut TcpIn TcpWrite TcpSend TcpAck TcpRecv TcpSafe Tcp TcpInv TcpInput.

#[local] Open Scope Z_scope.

Module TcpUse.
Import LwipDef InetChksum IpAddr Packet Ip TcpDef TcpOut TcpIn TcpSafe Tcp TcpInv TcpInput.
#[local] Open Scope update_scope.

Section use.
Context {P PS PC PL : Type} `{Pool P} `{Pool PS} `{Pool PC} `{Pool PL}.
#[local] Abbreviation tcp := (@Tcp.tcp P PS PC PL).
#[local] Abbreviation M := (@Tcp.M P PS PC PL).
Variable output_err : nat -> Z.
Variables frag_ram frag_ref : nat -> nat -> bool.
Variable ram : nat -> bool.
Variable stale : list Z.
Variable app : call -> tcp -> option (Z * tcp).
Hypothesis contract : app_ok app.
Hypothesis stale_bytes : bytes stale /\ stale <> [].

#[local] Abbreviation keeps_inv m t := (runs m t (fun _ t' => inv t')).

(** ** Ports *)

Lemma listeners_there (t : tcp) : inv t -> exists l, listen_entries t = Some l.
Proof.
  intros Hi. apply mapM_is_Some. apply Forall_forall. intros b Hb.
  destruct (proj2 (lo_listen _ (iv_lists _ Hi)) b Hb) as (p & E & _). unfold compose. rewrite E. done.
Qed.
Lemma conns_there (l : list Z) (t : tcp) : (forall a, a ∈ l -> exists p, pcbs t !! a = Some p) -> exists e, conn_entries l t = Some e.
Proof. intros Hl. apply mapM_is_Some. apply Forall_forall. intros a Ha. destruct (Hl a Ha) as (p & E). unfold compose. rewrite E. done. Qed.
Lemma listed (t : tcp) a : inv t -> a ∈ tcp_bound_pcbs t \/ a ∈ tcp_active_pcbs t \/ a ∈ tcp_tw_pcbs t -> exists p, pcbs t !! a = Some p.
Proof.
  intros [[_ Hb Ha Hw _] _ _] [Hi|[Hi|Hi]];
    [destruct (Hb a Hi) as (p & E & _)|destruct (Ha a Hi) as (p & E & _)|destruct (Hw a Hi) as (p & E & _)]; by exists p.
Qed.
Lemma runs_entries b (t : tcp) : inv t -> runs (entries b) t (fun _ t' => t' = t).
Proof.
  intros Hi. unfold runs, entries. destruct (listeners_there t Hi) as [l ->].
  destruct (conns_there (tcp_bound_pcbs t) t) as [e1 ->]; [intros a Ha; apply listed; auto|].
  destruct (conns_there (tcp_active_pcbs t) t) as [e2 ->]; [intros a Ha; apply listed; auto|].
  destruct (conns_there (tcp_tw_pcbs t) t) as [e3 E3]; [intros a Ha; apply listed; auto|].
  cbn [mbind option_bind]. destruct b; rewrite ?E3; cbn [mbind option_bind]; by eexists _, _.
Qed.
Lemma runs_connections (t : tcp) : inv t -> runs connections t (fun _ t' => t' = t).
Proof.
  intros Hi. unfold runs, connections.
  destruct (conns_there (tcp_active_pcbs t) t) as [e2 ->]; [intros a Ha; apply listed; auto|].
  destruct (conns_there (tcp_tw_pcbs t) t) as [e3 E3]; [intros a Ha; apply listed; auto|].
  cbn [mbind option_bind]. rewrite E3. cbn [mbind option_bind]. by eexists _, _.
Qed.
(** Only the number of the last port changes. *)
Definition same_but_port (t t' : tcp) : Prop := exists x, t' = t <| tcp_port := x |>.
Lemma inv_port x (t : tcp) : inv t -> inv (t <| tcp_port := x |>).
Proof. intros [[? ? ? ? ?] [? ? ? ? ?] ?]. by split. Qed.
Lemma runs_new_port (t : tcp) : inv t -> runs tcp_new_port t (fun _ t' => same_but_port t t').
Proof.
  intros Hi. unfold tcp_new_port. run (by apply runs_entries). intros l t1 ->. apply runs_get, runs_modify.
  apply runs_ret. by eexists.
Qed.

(** A closed block that is on no list gets its address and goes to the bound ones. *)
Lemma runs_reg_bound a (t : tcp) p :
  inv t -> pcbs t !! a = Some p -> state p = CLOSED -> local_port p <> 0 -> a ∉ tcp_bound_pcbs t ++ tcp_active_pcbs t ++ tcp_tw_pcbs t ->
  runs (TCP_REG tcp_bound_pcbs a) t (fun _ t' => inv t').
Proof.
  intros [[Hd Hb Ha Hw Hl] Hm Hs] E Hst Hlp Hn. pose proof Hn as Hn2. rewrite !elem_of_app in Hn2.
  eapply runs_mono; [apply runs_reg; tauto|cbv beta]. intros _ t1 ->.
  split; [split; try done|by destruct Hm|done]; cbn.
  - by constructor.
  - intros b [->|Hb']%elem_of_cons; [by exists p|by apply Hb].
Qed.
Lemma closed_unlisted (t : tcp) a p : inv t -> pcbs t !! a = Some p -> state p = CLOSED -> a ∉ tcp_bound_pcbs t ->
  a ∉ tcp_bound_pcbs t ++ tcp_active_pcbs t ++ tcp_tw_pcbs t.
Proof.
  intros Hi E Hst Hb. rewrite !elem_of_app. intros [?|[Ha|Hw]]; [done| |].
  - destruct (lo_active _ (iv_lists _ Hi) a Ha) as (q & Eq & Hq). rewrite E in Eq. injection Eq as <-.
    apply Hq. rewrite Hst. by apply (bool_decide_unpack _).
  - destruct (lo_tw _ (iv_lists _ Hi) a Hw) as (q & Eq & Hq). rewrite E in Eq. injection Eq as <-. congruence.
Qed.

Lemma runs_bind_addr a ip port (t : tcp) p :
  inv t -> pcbs t !! a = Some p -> state p = CLOSED -> a ∉ tcp_bound_pcbs t -> port <> 0 ->
  keeps_inv (bind (update_pcb a (fun p => p <| local_ip ::= fun x => if ip_addr_isany ip then x else ip |> <| local_port := port |>))
               (fun _ => TCP_REG tcp_bound_pcbs a)) t.
Proof.
  intros Hi E Hst Hb Hport. pose proof (closed_unlisted t a p Hi E Hst Hb) as Hnot. destruct (inv_blocks t a p Hi E) as [Hn Hse].
  match goal with |- context [update_pcb a ?f] => set (f0 := f) end.
  assert (G : segments_of (f0 p) = segments_of p /\ nums_ok (f0 p) /\ settled (f0 p) /\ state (f0 p) = CLOSED /\ local_port (f0 p) = port).
  { split; [done|]. split; [by destruct Hn|]. split; [|done]. destruct Hse as [S1 S2 S3 S4 S5 S6 S7]. by split. }
  clearbody f0. destruct G as (G1 & G2 & G3 & G4 & G5). run (exact (runs_update a f0 t p (iv_mem _ Hi) E G1 G2)). intros _ t1 Hc.
  pose proof Hnot as Hn3. rewrite !elem_of_app in Hn3.
  assert (Hi1 : inv t1) by (eapply inv_changes; [exact Hi|exact Hc|unfold fits; tauto|exact G3]).
  pose proof (ch_lists _ _ _ _ Hc) as Hl. unfold lists in Hl. injection Hl as L1 L2 L3 L4 L5.
  apply (runs_reg_bound a t1 (f0 p) Hi1); [by eapply changes_lookup|done|by rewrite G5|by rewrite L1, L2, L3].
Qed.
Lemma runs_bind_call a ip port (t : tcp) : inv t -> is_Some (pcbs t !! a) -> a ∉ tcp_bound_pcbs t ->
  keeps_inv (tcp_bind (Conn a) ip port) t.
Proof.
  intros Hi [p E] Hb. apply (runs_get_pcb a p); [done|]. case_bool_decide as Hst; [|by apply runs_ret]. cbn [negb].
  eapply runs_bind with (R := fun _ t' => same_but_port t t').
  { destruct (port =? 0); [by apply runs_new_port|]. apply runs_ret. exists (tcp_port t). by destruct t. }
  intros port' t1 [x ->]. destruct (Z.eqb_spec port' 0) as [|Hp]; [by apply runs_ret, inv_port|].
  pose proof (inv_port x t Hi) as Hi1. run (by apply runs_entries). intros l t2 ->. destruct (existsb _ _); [by apply runs_ret|].
  apply runs_bind_assoc. run (by apply (runs_bind_addr a ip port' _ p)). intros _ t3 Hi3. by apply runs_ret.
Qed.

(** ** Listening *)

(** A closed block is taken from the list, if it is on one, and freed. *)
Lemma closed_not_listed (t : tcp) a p : inv t -> pcbs t !! a = Some p -> state p = CLOSED ->
  (a ∉ tcp_active_pcbs t) /\ (a ∉ tcp_tw_pcbs t) /\ (local_port p = 0 -> a ∉ tcp_bound_pcbs t).
Proof.
  intros Hi E Hst. split; [|split].
  - intros Ha. destruct (lo_active _ (iv_lists _ Hi) a Ha) as (q & Eq & Hq). rewrite E in Eq. injection Eq as <-.
    apply Hq. rewrite Hst. by apply (bool_decide_unpack _).
  - intros Hw. destruct (lo_tw _ (iv_lists _ Hi) a Hw) as (q & Eq & Hq). rewrite E in Eq. injection Eq as <-. congruence.
  - intros Hp Hb. destruct (lo_bound _ (iv_lists _ Hi) a Hb) as (q & Eq & _ & Hq). rewrite E in Eq. by injection Eq as <-.
Qed.
Lemma runs_free_closed a (t : tcp) p : inv t -> pcbs t !! a = Some p -> state p = CLOSED ->
  runs (bind (when (negb (local_port p =? 0)) (TCP_RMV tcp_bound_pcbs a)) (fun _ => free_pcb a)) t (fun _ t' => removed a t t').
Proof.
  intros Hi E Hst. destruct (closed_not_listed t a p Hi E Hst) as (Ha & Hw & Hb). destruct (inv_blocks t a p Hi E) as [Hn Hse].
  assert (Hid : idle p) by (apply (se_idle _ Hse); rewrite Hst; by apply (bool_decide_unpack _)).
  eapply runs_bind with (R := off a t).
  - apply runs_when; [intros _; by apply runs_rmv_bound|]. intros Hp%negb_false_iff%Z.eqb_eq. split; [done|]. split; [|done].
    unfold lists, off_lists. by rewrite (proj1 (rmv_absent a _ Ha)), (proj1 (rmv_absent a _ Hw)), (proj1 (rmv_absent a _ (Hb Hp))).
  - intros _ t1 (E1 & E2 & Hm). eapply runs_mono; [apply (runs_free_pcb a t1 p (Hm (iv_mem _ Hi))); [by rewrite E1|done]|cbv beta].
    intros _ t2 (F1 & F2 & F3). split; [by rewrite F1, E1|by rewrite F2|done].
Qed.

(** A new listener gets the application's function at once. *)
Definition listen_accept (a f : Z) : M unit :=
  bind (tcp_listen_with_backlog (Conn a)) (fun r =>
    match r with Some h => tcp_accept h (Some f) | None => ret tt end).

Lemma inv_add_listener b lp m (t : tcp) :
  inv t -> lpcbs t !! b = None -> holds m (b :: (map_to_list (lpcbs t)).*1) ->
  inv (t <| lpcbs ::= <[b := lp]> |> <| listen_pool := m |>) /\ b ∉ tcp_listen_pcbs t.
Proof.
  intros [[Hd Hb Ha Hw [Hl1 Hl2]] [Mc Ml Ms Mn Mb] Is] Eb Hm.
  assert (Hnb : b ∉ tcp_listen_pcbs t) by (intros Hi; destruct (Hl2 b Hi) as (q & Eq & _); congruence).
  split; [|done]. split; [split; try done|split; try done|done]; cbn.
  - split; [done|]. intros x Hx. destruct (Hl2 x Hx) as (q & Eq & Hq). exists q. split; [|done].
    rewrite lookup_insert_ne; [done|]. by intros ->.
  - eapply holds_perm; [|exact Hm]. by rewrite map_to_list_insert.
Qed.
Lemma inv_reg_listener b lp lp' (t : tcp) :
  inv t -> lpcbs t !! b = Some lp -> b ∉ tcp_listen_pcbs t -> l_accept lp' <> Some Null ->
  inv (t <| tcp_listen_pcbs ::= cons b |> <| lpcbs ::= <[b := lp']> |>).
Proof.
  intros [[Hd Hb Ha Hw [Hl1 Hl2]] [Mc Ml Ms Mn Mb] Is] Eb Hnb Hacc. split; [split; try done|split; try done|done]; cbn.
  - split; [by constructor|]. intros x [->|Hx]%elem_of_cons; [exists lp'; split; [apply lookup_insert_eq|done]|].
    destruct (Hl2 x Hx) as (q & Eq & Hq). exists q. split; [|done]. rewrite lookup_insert_ne; [done|]. by intros ->.
  - eapply holds_perm; [|exact Ml]. by rewrite (keys_insert _ _ _ lp' Eb).
Qed.

(** The listener is on the list; only its function is missing. *)
Definition new_listener (r : option handle) (t : tcp) : Prop :=
  match r with
  | None => inv t
  | Some h => exists b lp t0, h = Listener b /\ inv t0 /\ lpcbs t0 !! b = Some lp /\ (b ∉ tcp_listen_pcbs t0) /\
                t = t0 <| tcp_listen_pcbs ::= cons b |>
  end.
Lemma runs_listen a (t : tcp) : inv t -> is_Some (pcbs t !! a) -> runs (tcp_listen_with_backlog (Conn a)) t new_listener.
Proof.
  intros Hi [p E]. unfold tcp_listen_with_backlog. apply (runs_get_pcb a p); [done|].
  case_bool_decide as Hst; [|by apply runs_ret]. cbn [negb].
  eapply runs_bind with (R := fun _ t' => t' = t).
  { destruct (ip_get_option _ _); [|by apply runs_ret]. destruct (listeners_there t Hi) as [l El]. unfold runs. rewrite El. by eexists _, _. }
  intros l t1 ->. destruct (existsb _ _); [by apply runs_ret|]. apply runs_get.
  pose proof (alloc_new _ _ (mo_listen _ (iv_mem _ Hi))) as Hal. destruct (alloc (listen_pool t)) as [[b m]|]; [|by apply runs_ret].
  destruct Hal as [Hbn Hm]. assert (Eb : lpcbs t !! b = None).
  { destruct (lpcbs t !! b) as [q|] eqn:Eq; [|done]. exfalso. apply Hbn. apply list_elem_of_fmap. exists (b, q). split; [done|]. by apply elem_of_map_to_list. }
  cbv zeta. match goal with |- context [<[b := ?x]>] => set (lp := x) end. destruct (inv_add_listener b lp m t Hi Eb Hm) as [Hi1 Hnb].
  apply runs_modify. set (t1 := t <| lpcbs ::= <[b := lp]> |> <| listen_pool := m |>) in *.
  assert (G : pcbs t1 !! a = Some p /\ lpcbs t1 !! b = Some lp /\ tcp_listen_pcbs t1 = tcp_listen_pcbs t) by (split; [done|split; [apply lookup_insert_eq|done]]).
  clearbody t1. destruct G as (E1 & L1 & K1). apply runs_bind_assoc.
  run (exact (runs_free_closed a t1 p Hi1 E1 Hst)). intros _ t2 Hr. pose proof (inv_removed a t1 t2 (inv_inv_but a t1 Hi1) Hr) as Hi2.
  assert (G : lpcbs t2 !! b = Some lp /\ tcp_listen_pcbs t2 = tcp_listen_pcbs t).
  { pose proof (rm_lists _ _ _ Hr) as El. unfold lists, off_lists in El. injection El as _ _ _ F1 F2. by rewrite F1, F2. }
  destruct G as [L2 K2]. run (apply (runs_reg tcp_listen_pcbs b t2); by rewrite K2). intros _ t3 ->.
  apply runs_ret. exists b, lp, t2. by rewrite K2.
Qed.
Lemma runs_listen_accept a f (t : tcp) : inv t -> is_Some (pcbs t !! a) -> keeps_inv (listen_accept a f) t.
Proof.
  intros Hi Ha. unfold listen_accept. run (exact (runs_listen a t Hi Ha)). intros [h|] t1 Hn; [|by apply runs_ret].
  destruct Hn as (b & lp & t0 & -> & Hi0 & E & Hb & ->). unfold runs, tcp_accept.
  change (lpcbs (t0 <| tcp_listen_pcbs ::= cons b |>)) with (lpcbs t0). rewrite E. cbn [mbind option_bind].
  eexists tt, _. split; [reflexivity|]. by apply (inv_reg_listener b lp).
Qed.
(** A listener is closed. *)
Lemma runs_close_listener b (t : tcp) : inv t -> b ∈ tcp_listen_pcbs t -> keeps_inv (tcp_close output_err frag_ram frag_ref ram (Listener b)) t.
Proof.
  intros [[Hd Hb Ha Hw [Hl1 Hl2]] [Mc Ml Ms Mn Mb] Is] Hin. cbn [tcp_close]. apply runs_modify. destruct (Hl2 b Hin) as (lp & E & _).
  destruct (release_ok (listen_pool t) [] b (map_to_list (delete b (lpcbs t))).*1) as (m & Em & Hm).
  { eapply holds_perm; [|exact Ml]. by rewrite <- (map_to_list_delete _ b lp E). }
  eapply runs_bind with (R := fun _ t' => t' = t <| tcp_listen_pcbs ::= rmv b |> <| lpcbs ::= delete b |> <| listen_pool := m |>).
  { unfold runs, free_lpcb. change (lpcbs (t <| tcp_listen_pcbs ::= rmv b |>)) with (lpcbs t).
    change (listen_pool (t <| tcp_listen_pcbs ::= rmv b |>)) with (listen_pool t). rewrite E. cbn [mbind option_bind]. rewrite Em. by eexists tt, _. }
  intros _ t1 ->. apply runs_ret. split; [split; try done|split; try done|done]; cbn.
  split; [eapply sublist_NoDup; [exact Hl1|apply rmv_sublist]|]. intros x [Hx Hn]%rmv_elem; [|done].
  destruct (Hl2 x Hx) as (q & Eq & Hq). exists q. split; [|done]. by rewrite lookup_delete_ne.
Qed.

(** ** Closing *)

Lemma fits_other (t : tcp) a p p' : lists_ok t -> pcbs t !! a = Some p -> active_state (state p) -> active_state (state p') -> fits t a p'.
Proof.
  intros Hl E Hs Hs'. destruct (fits_lookup t a p Hl E) as (F1 & F2 & F3). split; [|split; [done|]].
  - intros Hb. exfalso. apply Hs. rewrite (proj1 (F1 Hb)). by apply (bool_decide_unpack _).
  - intros Hw. exfalso. apply Hs. rewrite (F3 Hw). by apply (bool_decide_unpack _).
Qed.
Lemma unlisted_off (t : tcp) a : (a ∉ tcp_bound_pcbs t ++ tcp_active_pcbs t ++ tcp_tw_pcbs t) -> off_lists a t = lists t.
Proof.
  rewrite !elem_of_app. intros Hn. unfold off_lists, lists. assert (R : forall l, a ∉ l -> rmv a l = l) by (intros l Hl; by apply rmv_absent).
  rewrite !R by tauto. done.
Qed.

(** A FIN is queued, and the connection goes to the state [s]. *)
Definition fin_then (a : Z) (s : tcp_state) : M Z :=
  bind (send_fin ram a) (fun err =>
    bind (when (err =? ERR_OK) (bind (update_pcb a (fun p => p <| state := s |>)) (fun _ =>
            bind (output output_err frag_ram frag_ref ram a) (fun _ => ret tt)))) (fun _ => ret err)).
Lemma runs_send_fin a (t : tcp) p : inv t -> pcbs t !! a = Some p -> active_state (state p) ->
  runs (send_fin ram a) t (fun _ t' => inv t' /\ exists p', changes t t' a p' /\ vital p' = vital p).
Proof.
  intros Hi E Hst. eapply runs_mono.
  - apply (runs_on_pcb a (tcp_send_fin ram) t p (fun _ p' => vital p' = vital p /\ unacked p' = unacked p)); [apply Hi|done|].
    intros live Hb Hn. destruct (send_fin_ok ram live p (nt t) Hb) as (e & p' & w' & E' & Hb' & Hv & Hu & Hf).
    exists e, p', w'. split_and!; try done. by eapply vital_nums.
  - cbv beta. intros e t' (p' & Hc & Hv & Hu). split; [|by exists p'].
    destruct (vital_fields _ _ Hv) as (_ & _ & _ & _ & _ & _ & Hst'). unfold stays in Hst'. injection Hst' as S1 S2 S3 S4 S5 S6 S7.
    destruct (inv_blocks t a p Hi E) as [_ [Q1 Q2 Q3 Q4 Q5 Q6 Q7]].
    eapply inv_same_end; [done|done|done|done|done|]. split; rewrite S1, ?S3, ?S4, ?S5, ?S6, ?Hu; try done.
    intros Hin. exfalso. apply Hst. revert Hin. rewrite !elem_of_cons, elem_of_nil. tauto.
Qed.
Lemma runs_fin a s (t : tcp) p :
  inv t -> pcbs t !! a = Some p -> active_state (state p) -> recv p <> Some Null ->
  s ∈ [FIN_WAIT_1; LAST_ACK] -> keeps_inv (fin_then a s) t.
Proof.
  intros Hi E Hst Hr Hs. unfold fin_then. run (exact (runs_send_fin a t p Hi E Hst)). intros e t1 (Hi1 & p1 & Hc1 & Hv).
  pose proof (changes_lookup _ _ _ _ Hc1) as E1. destruct (inv_blocks t1 a p1 Hi1 E1) as [Hn1 Hs1].
  destruct (vital_fields _ _ Hv) as (_ & _ & _ & _ & _ & _ & Hst'). unfold stays in Hst'. injection Hst' as S1 S2 S3 S4 S5 S6 S7.
  eapply runs_bind with (R := fun _ t' => inv t'); [|intros _ t2 Hi2; by apply runs_ret]. apply runs_when; [intros _|done].
  set (p2 := p1 <| state := s |>).
  assert (G : segments_of p2 = segments_of p1 /\ nums_ok p2 /\ active_state (state p2) /\ settled p2).
  { split; [done|]. split; [by apply nums_state|]. destruct Hs1 as [Q1 Q2 Q3 Q4 Q5 Q6 Q7].
    apply elem_of_cons in Hs as [->|Hs]; [|apply list_elem_of_singleton in Hs as ->]; (split; [by apply (bool_decide_unpack _)|]);
      split; try done; try (intros _; by apply (bool_decide_unpack _)); try (intros _; cbn; congruence);
      intros [E0|[E0|E0%elem_of_nil]%elem_of_cons]%elem_of_cons; done. }
  destruct G as (G1 & G2 & G3 & G4).
  run (exact (runs_update a (fun p => p <| state := s |>) t1 p1 (iv_mem _ Hi1) E1 G1 G2)). intros _ t2 Hc2.
  change (changes t1 t2 a p2) in Hc2. clearbody p2. eapply runs_output_last; [|by eapply changes_lookup].
  eapply inv_changes; [exact Hi1|exact Hc2| |exact G4]. eapply fits_other; [apply Hi1|exact E1|by rewrite S1|done].
Qed.

(** The connection is reset because data was not read. *)
Lemma runs_close_unread a (t : tcp) p : inv t -> pcbs t !! a = Some p -> state p ∈ [ESTABLISHED; CLOSE_WAIT] ->
  keeps_inv (bind (rst_pcb output_err frag_ram frag_ref ram p) (fun _ => bind (tcp_pcb_purge a) (fun _ => bind (TCP_RMV_ACTIVE a) (fun _ =>
    bind (if bool_decide (state p = ESTABLISHED)
          then bind (update_pcb a (fun p => p <| state := TIME_WAIT |>)) (fun _ => TCP_REG tcp_tw_pcbs a)
          else free_pcb a) (fun _ => ret ERR_OK))))) t.
Proof.
  intros Hi E Hst. unfold rst_pcb. run (apply runs_rst, Hi). intros x t1 Hsame. pose proof (inv_same _ _ _ Hi Hsame) as Hi1.
  destruct Hsame as (Ep & _ & _). rewrite <- Ep in E.
  assert (Hs : connected_state (state p) /\ state p <> TIME_WAIT).
  { apply elem_of_cons in Hst as [->|Hst]; [|apply list_elem_of_singleton in Hst as ->]; (split; [by apply (bool_decide_unpack _)|done]). }
  destruct Hs as [Hs Hw]. apply runs_bind_assoc. run (exact (runs_purge_rmv a t1 p Hi1 E Hs Hw)).
  intros _ t2 (Hi2 & Hnot & p2 & E2 & Hid & S2). eapply runs_bind with (R := fun _ t' => inv t'); [|intros _ t3 Hi3; by apply runs_ret].
  case_bool_decide.
  - eapply runs_mono; [apply (runs_enter_tw a t2 p2); try done; by rewrite S2|cbv beta]. by intros _ t3 [? _].
  - eapply runs_mono; [apply (runs_free_pcb a t2 p2 (iv_mem _ Hi2) E2 Hid)|cbv beta]. intros _ t3 (F1 & F2 & F3).
    apply (inv_removed a t2); [by apply inv_inv_but|]. split; [done|by rewrite unlisted_off|done].
Qed.

(** The application has its function for data, or a connection that it closes is not
    waiting to be accepted. *)
Definition may_close (p : tcp_pcb) : Prop := state p = SYN_RCVD -> recv p <> Some Null.
Lemma runs_close_shutdown a b (t : tcp) p : inv t -> pcbs t !! a = Some p -> may_close p ->
  keeps_inv (tcp_close_shutdown output_err frag_ram frag_ref ram a b) t.
Proof.
  intros Hi E Hmay. apply (runs_get_pcb a p); [done|]. destruct (inv_blocks t a p Hi E) as [Hn Hse].
  destruct (b && bool_decide (state p ∈ [ESTABLISHED; CLOSE_WAIT])) eqn:Eb; cbn [andb].
  1: apply andb_true_iff in Eb as [_ Eb%bool_decide_eq_true].
  1: destruct (_ || _); [by apply runs_close_unread|].
  all: cbv zeta; destruct (state p) eqn:Es; try (by apply runs_ret).
  all: try (apply (runs_fin a _ t p); try done; rewrite ?Es; try (by apply (bool_decide_unpack _)); first
    [by apply Hmay|apply (se_recv _ Hse); rewrite Es; by apply (bool_decide_unpack _)]).
  all: try (apply runs_bind_assoc; run (exact (runs_free_closed a t p Hi E Es)); intros _ t1 Hr; apply runs_ret;
    by apply (inv_removed a t t1 (inv_inv_but a t Hi))).
  all: run (apply (runs_remove_active output_err frag_ram frag_ref ram a t p); [by apply inv_inv_but|by apply settled_removable|done|congruence|]);
    [intros Hb; destruct (lo_bound _ (iv_lists _ Hi) a Hb) as (q & Eq & Hq & _); rewrite E in Eq; injection Eq as <-; congruence|];
    intros _ t1 (p1 & E1 & E2 & Hm & Hid & _); run (exact (runs_free_removed a t t1 p1 E1 E2 Hm Hid)); intros _ t2 Hr; apply runs_ret;
    by apply (inv_removed a t t2 (inv_inv_but a t Hi)).
Qed.

(** No more data is wanted. *)
Lemma runs_rx_closed a b (t : tcp) p : inv t -> pcbs t !! a = Some p -> may_close p ->
  runs (when b (update_pcb a (fun p => p <| flags ::= flag_or TF_RXCLOSED |>))) t
    (fun _ t' => inv t' /\ exists p', pcbs t' !! a = Some p' /\ may_close p').
Proof.
  intros Hi E Hmay. apply runs_when; [intros _|intros _; split; [done|by exists p]].
  eapply runs_mono; [apply (runs_flags a (flag_or TF_RXCLOSED) t p Hi E); intros ?; by apply infr_or|cbv beta].
  intros _ t1 [Hi1 Hc1]. split; [done|]. eexists. split; [by eapply changes_lookup|exact Hmay].
Qed.
Lemma runs_close a (t : tcp) p : inv t -> pcbs t !! a = Some p -> may_close p ->
  keeps_inv (tcp_close output_err frag_ram frag_ref ram (Conn a)) t.
Proof.
  intros Hi E Hmay. cbn [tcp_close]. run (exact (runs_rx_closed a true t p Hi E Hmay)). intros _ t1 (Hi1 & p1 & E1 & Hm1).
  by apply (runs_close_shutdown a true t1 p1).
Qed.
Lemma runs_shutdown a rx tx (t : tcp) p : inv t -> pcbs t !! a = Some p -> may_close p ->
  keeps_inv (tcp_shutdown output_err frag_ram frag_ref ram (Conn a) rx tx) t.
Proof.
  intros Hi E Hmay. cbn [tcp_shutdown]. run (exact (runs_rx_closed a rx t p Hi E Hmay)). intros _ t1 (Hi1 & p1 & E1 & Hm1).
  destruct (rx && tx); [by apply (runs_close_shutdown a true t1 p1)|]. apply (runs_get_pcb a p1); [done|].
  eapply runs_bind with (R := fun _ t' => inv t' /\ exists p', pcbs t' !! a = Some p' /\ may_close p').
  - apply runs_when; [intros _|intros _; split; [done|by exists p1]].
    destruct (refused_data p1) as [[q fl]|]; [|apply runs_ret; split; [done|by exists p1]].
    run (apply runs_free_pbuf, Hi1). intros x t2 Hsame. pose proof (inv_same _ _ _ Hi1 Hsame) as Hi2.
    destruct Hsame as (Ep & _ & _). rewrite <- Ep in E1. destruct (inv_blocks t2 a p1 Hi2 E1) as [Hn Hse].
    eapply runs_mono; [apply (runs_put a t2 p1 (p1 <| refused_data := None |>) (iv_mem _ Hi2) E1); [done|by destruct Hn]|cbv beta].
    intros _ t3 Hc3. split; [|eexists; split; [by eapply changes_lookup|exact Hm1]].
    eapply inv_same_end; [exact Hi2|exact E1|exact Hc3|done|done|]. destruct Hse as [S1 S2 S3 S4 S5 S6 S7]. by split.
  - intros _ t2 (Hi2 & p2 & E2 & Hm2). destruct tx; [|by apply runs_ret]. destruct (bool_decide _); [|by apply runs_ret].
    by apply (runs_close_shutdown a rx t2 p2).
Qed.

(** ** Opening *)

(** The SYN of a block without segments. *)
Definition syn_of (p : tcp_pcb) (s : tcp_seg) : Prop :=
  sg_seqno s = u32 (snd_lbb p) /\ sg_len s = 0 /\ has_flag (tcphdr s) (Z.lor TCP_FIN TCP_SYN) = true.
Lemma enqueue_syn p (w : net P PS) p' w' :
  tcp_enqueue_flags ram p TCP_SYN w = Some (ERR_OK, p', w') -> unsent p = [] ->
  exists s, unsent p' = [s] /\ syn_of p s /\ lastack p' = lastack p.
Proof.
  unfold tcp_enqueue_flags. destruct (queue_full _); [done|].
  change (if flag_set TCP_SYN TCP_SYN then TF_SEG_OPTS_MSS else 0) with TF_SEG_OPTS_MSS. destruct (snd_buf p =? 0); [done|].
  change (LWIP_TCP_OPT_LENGTH TF_SEG_OPTS_MSS) with 4. cbv zeta.
  destruct (pbuf_alloc ram Pbuf.PBUF_TRANSPORT 4 w) as [[q|] w1] eqn:Ea; apply pbuf_alloc_sends in Ea as (_ & _ & Hq); [|done].
  destruct (Hq q eq_refl) as [Hq1 _]. unfold tcp_create_segment. cbv zeta.
  destruct (alloc (n_segs w1)) as [[x m]|]; [|done].
  change (LWIP_TCP_OPT_LENGTH TF_SEG_OPTS_MSS) with 4.
  match goal with |- context [mkSeg x q ?n ?o ?h] => set (s := mkSeg x q n o h) end.
  assert (Hs : syn_of p s).
  { split; [done|]. split; [|done]. cbn. unfold tot_len, data. by rewrite Hq1. }
  clearbody s. destruct (pbuf_header q TCP_HLEN) as [q2|].
  - cbn [mbind option_bind]. change (flag_set TCP_SYN (Z.lor TCP_SYN TCP_FIN)) with true. change (flag_set TCP_SYN TCP_FIN) with false. cbv iota.
    match goal with |- Some (ERR_OK, ?x, _) = _ -> _ => set (p1 := x) end.
    assert (G : unsent p1 = unsent p ++ [s] /\ lastack p1 = lastack p) by done. clearbody p1. destruct G as [G1 G2].
    intros E Hu. injection E as <- _. exists s. by rewrite G1, Hu.
  - destruct (tcp_seg_free s _); done.
Qed.

Lemma output_segment_seg ticks s p (w : net P PS) s' p' w' :
  tcp_output_segment output_err frag_ram frag_ref ticks s p w = Some (s', p', w') ->
  TCP_TCPLEN s' = TCP_TCPLEN s.
Proof.
  unfold tcp_output_segment. assert (Ht : TCP_TCPLEN (complete_seg s p w) = TCP_TCPLEN s).
  { unfold complete_seg. by destruct (flag_set _ _). }
  set (s1 := complete_seg s p w) in *. clearbody s1. cbv zeta. destruct (if ip_addr_isany _ then _ else _) as [ip|].
  - destruct (seg_packet s1) as [q|]; [|done]. cbn [mbind option_bind]. match goal with |- context [send ?a ?b ?c ?d ?e ?f ?g ?h ?i ?j] => destruct (send a b c d e f g h i j) end; [|done].
    cbn [mbind option_bind]. intros E. pose proof (f_equal (fun r => r.1.1) (Some_inj _ _ E)) as E1. cbn [fst] in E1. by rewrite <- E1.
  - intros E. pose proof (f_equal (fun r => r.1.1) (Some_inj _ _ E)) as E1. cbn [fst] in E1. by rewrite <- E1.
Qed.
(** The SYN goes out at once, and waits for its answer. *)
Lemma output_syn ticks live p s (w : net P PS) :
  block_ok live p w -> state p = SYN_SENT -> unsent p = [s] -> unacked p = [] ->
  in_window s p (Z.min (snd_wnd p) (cwnd p)) = true -> 0 < TCP_TCPLEN s ->
  exists r p' w', tcp_output output_err frag_ram frag_ref ram ticks false p w = Some (r, p', w') /\
    block_ok live p' w' /\ frame p p' /\ unacked p' <> [].
Proof.
  intros Hb Hst Hu Ha Hw Ht. destruct (tcp_output_ok output_err frag_ram frag_ref ram ticks false live p w Hb) as (r & p' & w' & E & Hb' & Hf).
  exists r, p', w'. split; [done|]. split; [done|]. split; [done|]. revert E. unfold tcp_output. rewrite Hu, Hw, andb_false_r.
  cbn [output_loop]. rewrite Hw. unfold tcp_do_output_nagle. rewrite Ha. cbn [negb orb bool_decide andb].
  change (bool_decide ([] = [] :> list tcp_seg)) with true. cbn [orb negb andb]. set (p1 := p <| unsent := [] |>).
  assert (E1 : state p1 = SYN_SENT) by done. rewrite E1. clearbody p1. cbn [bool_decide]. rewrite bool_decide_eq_true_2 by done.
  destruct (tcp_output_segment _ _ _ ticks s p1 w) as [[[s2 p2] w2]|] eqn:Es; [|done]. pose proof (output_segment_seg _ _ _ _ _ _ _ Es) as Et.
  cbn [mbind option_bind]. unfold after_send. cbv zeta. set (p3 := if TCP_SEQ_LT _ _ then _ else _). clearbody p3. rewrite Et.
  destruct (Z.ltb_spec 0 (TCP_TCPLEN s)); [|lia]. cbn [mbind option_bind].
  set (p4 := p3 <| unacked ::= add_unacked s2 |>). assert (E4 : unacked p4 <> []).
  { assert (E4 : unacked p4 = add_unacked s2 (unacked p3)) by done. rewrite E4. intros E0. apply (f_equal length) in E0.
    by rewrite (Permutation_length (add_unacked_perm s2 _)) in E0. }
  clearbody p4. set (p5 := if bool_decide _ then _ else p4). assert (E5 : unacked p5 = unacked p4) by (unfold p5; by destruct (bool_decide _)).
  clearbody p5. set (p6 := p5 <| flags ::= _ |>). assert (E6 : unacked p6 = unacked p5) by done. clearbody p6.
  intros E. injection E as _ <- _. by rewrite E6, E5.
Qed.

(** A block that connects, up to the point where the SYN is made. *)
Record connecting (n : Z) (f : option Z) (p : tcp_pcb) : Prop := {
  cn_state : state p = CLOSED; cn_port : local_port p <> 0;
  cn_lbb : snd_lbb p = u32 (n - 1) /\ lastack p = u32 (n - 1); cn_wnd : snd_wnd p = TCP_WND /\ cwnd p = 1;
  cn_f : connected p = f
}.
Lemma syn_in_window n f p s : connecting n f p -> syn_of p s -> in_window s p (Z.min (snd_wnd p) (cwnd p)) = true /\ 0 < TCP_TCPLEN s.
Proof.
  intros [_ _ [C1 C2] [C3 C4] _] (S1 & S2 & S3). split.
  - unfold in_window. rewrite S1, S2, C1, C2, C3, C4, (u32_small (u32 (n - 1))) by apply u32_range.
    replace (u32 (n - 1) - u32 (n - 1) + 0) with 0 by lia. done.
  - unfold TCP_TCPLEN, tcplen_of. rewrite S2, S3. lia.
Qed.

(** Computations that do not start or end the processing of a segment. *)
Definition calm {A} (m : M A) : Prop := forall t x t', m t = Some (x, t') -> tcp_input_pcb t' = tcp_input_pcb t.
Lemma calm_bind {A B} (m : M A) (k : A -> M B) : calm m -> (forall x, calm (k x)) -> calm (bind m k).
Proof.
  intros Hm Hk t y t2. unfold bind. destruct (m t) as [[x t1]|] eqn:E; [|done]. cbn [mbind option_bind]. intros E2.
  rewrite (Hk _ _ _ _ E2). by eapply Hm.
Qed.
Lemma calm_ret {A} (x : A) : calm (ret x).
Proof. intros t y t'. by injection 1 as _ ->. Qed.
Lemma calm_get {A} (f : tcp -> A) : calm (get f).
Proof. intros t y t'. by injection 1 as _ ->. Qed.
Lemma calm_modify f : (forall t, tcp_input_pcb (f t) = tcp_input_pcb t) -> calm (modify f).
Proof. intros Hf t y t' E. apply Some_inj in E. apply (f_equal snd) in E. cbn [snd] in E. by rewrite <- E. Qed.
Lemma calm_read {A} (f : tcp -> option A) : calm (fun t => x ← f t; Some (x, t)).
Proof. intros t y t'. destruct (f t); [|done]. cbn [mbind option_bind]. by injection 1 as _ ->. Qed.
Lemma calm_when b m : calm m -> calm (when b m).
Proof. destruct b; [done|]. intros _. apply calm_ret. Qed.
Lemma calm_put a p : calm (put_pcb a p).
Proof. by apply calm_modify. Qed.
Lemma calm_update a f : calm (update_pcb a f).
Proof. apply calm_bind; [apply calm_read|]. intros p. apply calm_put. Qed.
Lemma calm_on_pcb {A} a (f : tcp_pcb -> net P PS -> option (A * tcp_pcb * net P PS)) : calm (on_pcb a f).
Proof.
  intros t x t'. unfold on_pcb. destruct (pcbs t !! a) as [p|]; [|done]. cbn [mbind option_bind].
  destruct (f p (nt t)) as [[[y q] w]|]; [|done]. cbn [mbind option_bind]. intros E. apply Some_inj in E.
  apply (f_equal snd) in E. cbn [snd] in E. by rewrite <- E.
Qed.
Lemma calm_new_port : calm tcp_new_port.
Proof.
  apply calm_bind; [|intros l; apply calm_bind; [apply calm_get|]; intros x; apply calm_bind; [by apply calm_modify|]; intros _; apply calm_ret].
  intros t y t'. unfold entries. destruct (listen_entries t); [|done]. cbn [mbind option_bind].
  destruct (conn_entries (tcp_bound_pcbs t) t); [|done]. cbn [mbind option_bind].
  destruct (conn_entries (tcp_active_pcbs t) t); [|done]. cbn [mbind option_bind].
  destruct (conn_entries (tcp_tw_pcbs t) t); [|done]. cbn [mbind option_bind]. by injection 1 as _ ->.
Qed.
Lemma runs_calm {A} (m : M A) t Q : runs m t Q -> calm m -> runs m t (fun x t' => Q x t' /\ tcp_input_pcb t' = tcp_input_pcb t).
Proof. intros (x & t' & E & HQ) Hc. exists x, t'. split; [done|]. split; [done|]. by eapply Hc. Qed.

(** The list that the block goes to, also while other fields are not set yet. *)
Lemma runs_reg_active_but a (t : tcp) p :
  inv_but a t -> pcbs t !! a = Some p -> active_state (state p) -> a ∉ tcp_bound_pcbs t ++ tcp_active_pcbs t ++ tcp_tw_pcbs t ->
  runs (TCP_REG_ACTIVE a) t (fun _ t' => inv_but a t' /\ pcbs t' = pcbs t /\ a ∈ tcp_active_pcbs t' /\ tcp_input_pcb t' = tcp_input_pcb t).
Proof.
  intros [[Hd Hb Ha Hw Hl] Hm Hs] E Hst Hn. pose proof Hn as Hn2. rewrite !elem_of_app in Hn2.
  unfold TCP_REG_ACTIVE. run (apply runs_reg; tauto). intros _ t1 ->. eexists tt, _. split; [reflexivity|].
  split; [|split; [done|split; [by constructor|done]]]. split; [split; try done|by destruct Hm|done]; cbn.
  - rewrite <- Permutation_middle. by constructor.
  - intros b [->|Hb']%elem_of_cons; [by exists p|by apply Ha].
Qed.

(** The SYN was made: the block becomes active, and the SYN is sent. *)
Definition syn_out (a old : Z) : M unit :=
  bind (update_pcb a (fun p => p <| state := SYN_SENT |>)) (fun _ =>
  bind (when (negb (old =? 0)) (TCP_RMV tcp_bound_pcbs a)) (fun _ =>
  bind (TCP_REG_ACTIVE a) (fun _ => bind (output output_err frag_ram frag_ref ram a) (fun _ => ret tt)))).

Lemma runs_syn_output a (t : tcp) p s :
  inv_but a t -> pcbs t !! a = Some p -> state p = SYN_SENT -> unsent p = [s] -> unacked p = [] -> connected p <> None -> refused_data p = None ->
  a ∈ tcp_active_pcbs t -> tcp_input_pcb t <> Some a ->
  in_window s p (Z.min (snd_wnd p) (cwnd p)) = true -> 0 < TCP_TCPLEN s ->
  keeps_inv (bind (output output_err frag_ram frag_ref ram a) (fun _ => ret tt)) t.
Proof.
  intros Hi E Hst Hu Hn Hf Hr Ha Hip Hw Ht.
  eapply runs_bind with (R := fun _ t' => exists p', changes t t' a p' /\ frame p p' /\ unacked p' <> []).
  { unfold output. apply runs_get, runs_get. rewrite bool_decide_eq_false_2 by done.
    apply (runs_on_pcb a _ t p (fun _ p' => frame p p' /\ unacked p' <> [])); [apply Hi|done|]. intros live Hb Hnum.
    destruct (output_syn (tcp_ticks t) live p s (nt t) Hb Hst Hu Hn Hw Ht) as (r & p' & w' & E' & Hb' & Hfr & Hne).
    exists r, p', w'. split_and!; try done. by eapply frame_nums. }
  intros _ t1 (p1 & Hc & Hfr & Hne). apply runs_ret. destruct (frame_state _ _ Hfr) as (F1 & F2 & F3 & F4 & F5).
  eapply (inv_but_inv a); [|by eapply changes_lookup|].
  - destruct Hi as [Il Im Is]. split; [|apply Hc|].
    + eapply lists_changes; [exact Il|exact Hc|]. apply fits_active; [done|done|]. rewrite F1, Hst. by apply (bool_decide_unpack _).
    + intros b q Hb. rewrite (ch_pcbs _ _ _ _ Hc), lookup_insert_ne by done. by apply Is.
  - unfold handlers in F3. injection F3 as R1 R2 R3. split; rewrite F1, ?Hst, ?R1, ?R2, ?R3, ?F5, ?Hr; try done.
    + intros [E0|[E0|E0%elem_of_nil]%elem_of_cons]%elem_of_cons; done.
    + intros Hc'. exfalso. apply Hc'. by apply (bool_decide_unpack _).
Qed.

(** The block with the SYN on its queue. *)
Record syn_queued (s : tcp_seg) (p : tcp_pcb) : Prop := {
  sq_state : state p = CLOSED; sq_unsent : unsent p = [s]; sq_unacked : unacked p = []; sq_connected : connected p <> None;
  sq_refused : refused_data p = None; sq_window : in_window s p (Z.min (snd_wnd p) (cwnd p)) = true; sq_len : 0 < TCP_TCPLEN s
}.
Lemma runs_syn_out a old (t : tcp) p s :
  inv_but a t -> pcbs t !! a = Some p -> syn_queued s p -> (old = 0 -> a ∉ tcp_bound_pcbs t) -> tcp_input_pcb t <> Some a ->
  keeps_inv (syn_out a old) t.
Proof.
  intros [Il Im Is] E [Q1 Q2 Q3 Q4 Q5 Q6 Q7] Hold Hip. destruct (fits_lookup t a p Il E) as (_ & F2 & F3).
  assert (Ha : a ∉ tcp_active_pcbs t) by (intros Hx; apply (F2 Hx); rewrite Q1; by apply (bool_decide_unpack _)).
  assert (Hw : a ∉ tcp_tw_pcbs t) by (intros Hx; specialize (F3 Hx); congruence).
  destruct (mo_blocks _ Im a p E) as [_ Hn]. unfold syn_out.
  run (apply runs_calm, calm_update; apply (runs_update a (fun p => p <| state := SYN_SENT |>) t p Im E); [done|by apply nums_state]).
  intros _ t1 [Hc1 Ip1]. set (p1 := p <| state := SYN_SENT |>) in *.
  assert (G : state p1 = SYN_SENT /\ unsent p1 = [s] /\ unacked p1 = [] /\ connected p1 <> None /\ refused_data p1 = None /\
    in_window s p1 (Z.min (snd_wnd p1) (cwnd p1)) = true) by done. clearbody p1. destruct G as (G1 & G2 & G3 & G4 & G5 & G6).
  pose proof (ch_lists _ _ _ _ Hc1) as Hl. assert (Hof : off_lists a t1 = off_lists a t).
  { unfold lists in Hl. injection Hl as L1 L2 L3 L4 L5. unfold off_lists. by rewrite L1, L2, L3, L4, L5. }
  pose proof (changes_lookup _ _ _ _ Hc1) as E1.
  assert (Hu : tcp_bound_pcbs t1 = tcp_bound_pcbs t /\ tcp_active_pcbs t1 = tcp_active_pcbs t /\ tcp_tw_pcbs t1 = tcp_tw_pcbs t).
  { unfold lists in Hl. by injection Hl. }
  destruct Hu as (U1 & U2 & U3).
  eapply runs_bind with (R := fun _ t2 => off a t1 tt t2 /\ tcp_input_pcb t2 = tcp_input_pcb t1).
  { apply runs_calm; [|apply calm_when, calm_modify; intros t0; by destruct (bool_decide _)]. apply runs_when.
    - intros _. eapply runs_mono; [apply runs_rmv_bound; [by rewrite U2|by rewrite U3]|by intros [] ?].
    - intros Ho%negb_false_iff%Z.eqb_eq. split; [done|]. split; [|done]. rewrite Hof. unfold lists, off_lists in *. rewrite Hl.
      by rewrite (proj1 (rmv_absent a _ Ha)), (proj1 (rmv_absent a _ Hw)), (proj1 (rmv_absent a _ (Hold Ho))). }
  intros _ t2 [(B1 & B2 & B3) Ip2]. specialize (B3 (ch_mem _ _ _ _ Hc1)).
  assert (Hi2 : inv_but a t2).
  { split; [|done|].
    - eapply (lists_off a t); [exact Il|by rewrite B2|]. intros b Hb. rewrite B1, (ch_pcbs _ _ _ _ Hc1). by apply lookup_insert_ne.
    - intros b q Hb. rewrite B1, (ch_pcbs _ _ _ _ Hc1), lookup_insert_ne by done. by apply Is. }
  rewrite <- B1 in E1.
  run (apply (runs_reg_active_but a t2 p1 Hi2 E1)).
  { rewrite G1. by apply (bool_decide_unpack _). }
  { pose proof (lo_nodup _ Il) as Hd. apply NoDup_app in Hd as (D1 & _ & Hd). apply NoDup_app in Hd as (D2 & _ & D3).
    rewrite Hof in B2. unfold lists, off_lists in B2. injection B2 as X1 X2 X3 X4 X5. rewrite X1, X2, X3, !elem_of_app, !rmv_elem by done. tauto. }
  intros _ t3 (Hi3 & E3 & Ha3 & Ip3). rewrite <- E3 in E1. apply (runs_syn_output a t3 p1 s); try done. congruence.
Qed.

Lemma settled_closed p : state p = CLOSED -> idle p -> refused_data p = None -> settled p.
Proof.
  intros E Hi Hr. split; rewrite ?E, ?Hr; try done. intros Hx. exfalso. apply Hx. by apply (bool_decide_unpack _).
Qed.
Lemma runs_enqueue_syn a (t : tcp) p n f :
  inv t -> pcbs t !! a = Some p -> connecting n f p -> f <> None ->
  runs (enqueue_flags ram a TCP_SYN) t (fun e t' =>
    exists p', changes t t' a p' /\ fits t a p' /\ (e = ERR_OK -> exists s, syn_queued s p') /\ (e <> ERR_OK -> inv t')).
Proof.
  intros Hi E Hc Hf. destruct (inv_blocks t a p Hi E) as [Hn Hse]. pose proof Hc as [C1 C2 C3 C4 C5].
  assert (Hid : idle p) by (apply (se_idle _ Hse); rewrite C1; by apply (bool_decide_unpack _)). destruct Hid as [I1 I2].
  assert (Hr : refused_data p = None).
  { destruct (refused_data p) eqn:Er; [|done]. exfalso. assert (Hx : connected_state (state p)) by (apply (se_refused _ Hse); by rewrite Er).
    apply Hx. rewrite C1. by apply (bool_decide_unpack _). }
  eapply runs_mono.
  - apply (runs_on_pcb a (fun p => tcp_enqueue_flags ram p TCP_SYN) t p (fun e p' => vital p' = vital p /\ unacked p' = [] /\
      (e = ERR_OK -> exists s, unsent p' = [s] /\ syn_of p s /\ lastack p' = lastack p) /\ (e <> ERR_OK -> unsent p' = []))); [apply Hi|done|].
    intros live Hb _. destruct (enqueue_flags_ok ram live p TCP_SYN (nt t) Hb) as (e & p' & w' & E' & Hb' & Hv & Hu & Hfl & Hne).
    exists e, p', w'. split; [done|]. split; [done|]. split; [by eapply vital_nums|]. split; [done|]. split; [by rewrite Hu|].
    split; [|intros He; rewrite Hne by done; exact I1]. intros ->. by apply (enqueue_syn p (nt t) p' w').
  - cbv beta. intros e t' (p' & Hch & Hv & Hu & Hok & Hbad). exists p'. split; [done|].
    destruct (vital_fields _ _ Hv) as (V1 & V2 & V3 & V4 & V5 & V6 & Hs'). unfold stays in Hs'. injection Hs' as S1 S2 S3 S4 S5 S6 S7.
    destruct (fits_lookup t a p (iv_lists _ Hi) E) as (F1 & F2 & F3). split; [unfold fits; by rewrite S1, S2|]. split.
    + intros He. destruct (Hok He) as (s & U1 & U2 & U3). exists s. destruct (syn_in_window n f p s Hc U2) as [W1 W2].
      split; try congruence. unfold in_window in *. by rewrite U3, V2, V4.
    + intros He. specialize (Hbad He). eapply inv_same_end; [exact Hi|exact E|exact Hch|done|done|].
      apply settled_closed; [congruence|by split|congruence].
Qed.

(** A change of a closed block. *)
Record closed_at (a : Z) (t : tcp) (p : tcp_pcb) : Prop := {
  ca_inv : inv t; ca_block : pcbs t !! a = Some p; ca_state : state p = CLOSED; ca_refused : refused_data p = None;
  ca_input : tcp_input_pcb t <> Some a
}.
Lemma closed_idle a (t : tcp) p : closed_at a t p -> idle p /\ nums_ok p.
Proof.
  intros [Hi E Hst _ _]. destruct (inv_blocks t a p Hi E) as [Hn Hs]. split; [|done]. apply (se_idle _ Hs). rewrite Hst.
  by apply (bool_decide_unpack _).
Qed.
Lemma runs_closed_update a f (t : tcp) p :
  closed_at a t p -> segments_of (f p) = segments_of p -> nums_ok (f p) -> state (f p) = CLOSED -> refused_data (f p) = None ->
  (a ∈ tcp_bound_pcbs t -> local_port (f p) <> 0) ->
  runs (update_pcb a f) t (fun _ t' => closed_at a t' (f p) /\ tcp_bound_pcbs t' = tcp_bound_pcbs t).
Proof.
  intros Hc Hseg Hn Hst Hr Hlp. destruct (closed_idle _ _ _ Hc) as [[I1 I2] _]. destruct Hc as [Hi E Hs _ Hip].
  assert (Hid : idle (f p)) by (unfold segments_of in Hseg; rewrite I1, I2 in Hseg; by apply app_eq_nil in Hseg).
  eapply runs_mono; [apply runs_calm, calm_update; exact (runs_update a f t p (iv_mem _ Hi) E Hseg Hn)|cbv beta].
  intros _ t1 [Hc1 Ip]. split.
  - split; [|by eapply changes_lookup|done|done|congruence]. eapply inv_changes; [exact Hi|exact Hc1| |by apply settled_closed].
    destruct (fits_lookup t a p (iv_lists _ Hi) E) as (F1 & F2 & F3). rewrite Hs in *. unfold fits. rewrite Hst. tauto.
  - pose proof (ch_lists _ _ _ _ Hc1) as Hl. unfold lists in Hl. by injection Hl.
Qed.

Lemma runs_route_local p (t : tcp) : runs (route_local p) t (fun _ t' => t' = t).
Proof. unfold route_local. destruct (ip_addr_isany _); by eexists _, t. Qed.
Lemma inv_iss x (t : tcp) : inv t -> inv (t <| iss := x |>).
Proof. intros [[? ? ? ? ?] [? ? ? ? ?] ?]. by split. Qed.

(** The rest of [tcp_connect], with the ports and addresses. *)
Definition connect_start (a old ip ipaddr : Z) (f : option Z) (n m : Z) : M Z :=
  bind (update_pcb a (fun p =>
    p <| rcv_nxt := 0 |> <| snd_nxt := n |> <| lastack := u32 (n - 1) |> <| snd_lbb := u32 (n - 1) |>
      <| rcv_wnd := TCP_WND |> <| rcv_ann_wnd := TCP_WND |> <| rcv_ann_right_edge := 0 |>
      <| snd_wnd := TCP_WND |> <| mss := m |> <| cwnd := 1 |> <| ssthresh := u16 (m * 10) |> <| connected := f |>)) (fun _ =>
  bind (enqueue_flags ram a TCP_SYN) (fun err =>
  bind (when (err =? ERR_OK) (syn_out a old)) (fun _ => ret err))).
Lemma runs_connect_start a old ip ipaddr f n m (t : tcp) p :
  closed_at a t p -> local_port p <> 0 -> f <> None -> 0 < m <= TCP_MSS -> (old = 0 -> a ∉ tcp_bound_pcbs t) ->
  keeps_inv (connect_start a old ip ipaddr f n m) t.
Proof.
  intros Hc Hlp Hf Hm Hold. destruct (closed_idle _ _ _ Hc) as [_ [N1 N2 N3 N4 N5 N6 N7]]. pose proof (ca_refused _ _ _ Hc) as Hrd. pose proof (ca_state _ _ _ Hc) as Hst.
  unfold connect_start. match goal with |- context [update_pcb a ?f] => set (f0 := f) end.
  assert (G : segments_of (f0 p) = segments_of p /\ nums_ok (f0 p) /\ state (f0 p) = CLOSED /\ refused_data (f0 p) = None /\ connecting n f (f0 p)).
  { split; [done|]. split; [|split; [done|split; [done|by split]]]. split; cbn; try done; unfold TCP_MSS, TCP_WND, in_u16, in_u32 in *; cbn; try lia.
    - rewrite u16_small by (unfold in_u16; lia). lia.
    - intros _. rewrite u16_small by (unfold in_u16; lia). lia. }
  destruct G as (G1 & G2 & G3 & G4 & G5). clearbody f0.
  run (apply (runs_closed_update a f0 t p Hc G1 G2 G3 G4); intros _; apply G5). intros _ t1 [Hc1 Hb1]. set (p1 := f0 p) in *. clearbody p1.
  run (apply runs_calm, calm_on_pcb; exact (runs_enqueue_syn a t1 p1 n f (ca_inv _ _ _ Hc1) (ca_block _ _ _ Hc1) G5 Hf)).
  intros e t2 [(p2 & Hc2 & Hfit & Hok & Hbad) Ip2]. eapply runs_bind with (R := fun _ t' => inv t'); [|intros _ t3 Hi3; by apply runs_ret].
  apply runs_when; [intros He%Z.eqb_eq|intros He%Z.eqb_neq; by apply Hbad]. destruct (Hok He) as [s Hs].
  pose proof (ca_inv _ _ _ Hc1) as Hi1. apply (runs_syn_out a old t2 p2 s); [|by eapply changes_lookup|done| |].
  - split; [|apply Hc2|].
    + eapply lists_changes; [apply Hi1|exact Hc2|exact Hfit].
    + intros b q Hb. rewrite (ch_pcbs _ _ _ _ Hc2), lookup_insert_ne by done. apply Hi1.
  - pose proof (ch_lists _ _ _ _ Hc2) as Hl. unfold lists in Hl. injection Hl as L1 _ _ _ _. by rewrite L1, Hb1.
  - rewrite Ip2. apply Hc1.
Qed.

(** The block has a port. *)
Definition connect_port (a old ip ipaddr port : Z) (f : option Z) (o lp : Z) : M Z :=
  bind (update_pcb a (fun p => p <| local_port := lp |>)) (fun _ =>
  if lp =? 0 then ret ERR_BUF
  else
    bind (if ip_get_option o SOF_REUSEADDR then connections else ret []) (fun l =>
    if existsb (fun e => (e_port e =? lp) && (e_remote_port e =? port) && (e_ip e =? ip) && (e_remote_ip e =? ipaddr)) l
    then ret ERR_USE
    else bind tcp_next_iss (fun n => bind (eff_send_mss initial_mss ipaddr) (fun m => connect_start a old ip ipaddr f n m)))).
Lemma runs_connect_port a old ip ipaddr port f o lp (t : tcp) p :
  closed_at a t p -> f <> None -> (old = 0 -> a ∉ tcp_bound_pcbs t) -> (a ∈ tcp_bound_pcbs t -> lp <> 0) ->
  keeps_inv (connect_port a old ip ipaddr port f o lp) t.
Proof.
  intros Hc Hf Hold Hbp. destruct (closed_idle _ _ _ Hc) as [_ Hn]. pose proof (ca_refused _ _ _ Hc) as Hr. pose proof (ca_state _ _ _ Hc) as Hst.
  unfold connect_port. set (f3 := fun p => p <| local_port := lp |>).
  assert (G : segments_of (f3 p) = segments_of p /\ nums_ok (f3 p) /\ state (f3 p) = CLOSED /\ refused_data (f3 p) = None /\ local_port (f3 p) = lp).
  { split; [done|]. split; [by destruct Hn|]. done. }
  destruct G as (L1 & L2 & L3 & L4 & L5). clearbody f3.
  run (apply (runs_closed_update a f3 t p Hc L1 L2 L3 L4); by rewrite L5). intros _ t4 [Hc4 Hb4].
  destruct (Z.eqb_spec lp 0) as [|Hlp0]; [apply runs_ret, Hc4|]. set (p3 := f3 p) in *. clearbody p3.
  eapply runs_bind with (R := fun _ t' => t' = t4).
  { destruct (ip_get_option _ _); [apply runs_connections, Hc4|by apply runs_ret]. }
  intros l t5 ->. destruct (existsb _ _); [apply runs_ret, Hc4|].
  eapply runs_bind with (R := fun _ t' => exists x, t' = t4 <| iss := x |>).
  { unfold tcp_next_iss. apply runs_get, runs_get. cbv zeta. apply runs_modify, runs_ret. by eexists. }
  intros n t5 [x ->]. assert (Hc5 : closed_at a (t4 <| iss := x |>) p3).
  { destruct Hc4 as [Q1 Q2 Q3 Q4 Q5]. split; [by apply inv_iss|done..]. }
  run (apply (runs_eff_mss initial_mss ipaddr); [apply Hc5|unfold initial_mss, TCP_MSS; cbn; lia]). intros m t6 [-> Hm].
  apply (runs_connect_start a old ip ipaddr f n m _ p3 Hc5); [by rewrite L5|done|done|].
  intros Ho. change (tcp_bound_pcbs (t4 <| iss := x |>)) with (tcp_bound_pcbs t4). rewrite Hb4. by apply Hold.
Qed.

Lemma runs_connect a ip port f (t : tcp) p :
  inv t -> pcbs t !! a = Some p -> tcp_input_pcb t <> Some a ->
  keeps_inv (tcp_connect output_err frag_ram frag_ref ram a ip port (Some f)) t.
Proof.
  intros Hi E Hip. unfold tcp_connect. apply (runs_get_pcb a p); [done|]. case_bool_decide as Hst; [|by apply runs_ret]. cbn [negb].
  destruct ip as [ip|]; [|by apply runs_ret]. destruct (inv_blocks t a p Hi E) as [Hn Hse].
  assert (Hc : closed_at a t p).
  { split; try done. destruct (refused_data p) eqn:Er; [|done]. exfalso.
    assert (Hx : connected_state (state p)) by (apply (se_refused _ Hse); by rewrite Er). apply Hx. rewrite Hst. by apply (bool_decide_unpack _). }
  destruct (fits_lookup t a p (iv_lists _ Hi) E) as (F1 & _ & _).
  set (f1 := fun p => p <| remote_ip := ip |> <| remote_port := port |>).
  assert (G : segments_of (f1 p) = segments_of p /\ nums_ok (f1 p) /\ state (f1 p) = CLOSED /\ refused_data (f1 p) = None /\ local_port (f1 p) = local_port p).
  { split; [done|]. split; [by destruct Hn|]. split; [done|]. split; [apply Hc|done]. }
  destruct G as (G1 & G2 & G3 & G4 & G5). clearbody f1.
  run (apply (runs_closed_update a f1 t p Hc G1 G2 G3 G4); intros Hb; rewrite G5; by apply F1). intros _ t1 [Hc1 Hb1].
  set (p1 := f1 p) in *. clearbody p1. apply (runs_get_pcb a p1); [apply Hc1|]. run (apply runs_route_local). intros [ip'|] t2 ->; [|apply runs_ret, Hc1].
  set (f2 := fun p => p <| local_ip := ip' |>).
  assert (G : segments_of (f2 p1) = segments_of p1 /\ nums_ok (f2 p1) /\ state (f2 p1) = CLOSED /\ refused_data (f2 p1) = None /\ local_port (f2 p1) = local_port p1).
  { split; [done|]. split; [by destruct G2|]. done. }
  destruct G as (K1 & K2 & K3 & K4 & K5). clearbody f2.
  run (apply (runs_closed_update a f2 t1 p1 Hc1 K1 K2 K3 K4); intros Hb; rewrite K5, G5; apply F1; by rewrite <- Hb1). intros _ t2 [Hc2 Hb2].
  cbv zeta. eapply runs_bind with (R := fun lp t' => closed_at a t' (f2 p1) /\ tcp_bound_pcbs t' = tcp_bound_pcbs t /\
    (local_port p1 <> 0 -> lp = local_port p1)).
  { destruct (Z.eqb_spec (local_port p1) 0) as [E0|E0]; [|apply runs_ret; split; [done|split; [congruence|done]]].
    eapply runs_mono; [apply runs_calm, calm_new_port; apply runs_new_port, Hc2|cbv beta]. intros lp t3 [[x ->] _].
    split; [destruct Hc2 as [Q1 Q2 Q3 Q4 Q5]; split; [by apply inv_port|done..]|]. split; [|done].
    transitivity (tcp_bound_pcbs t2); [done|congruence]. }
  intros lp t3 (Hc3 & Hb3 & Hlp). apply (runs_connect_port a (local_port p1) ip' ip port (Some f) (so_options p1) lp t3 (f2 p1) Hc3); [done| |].
  - intros Ho Hb. rewrite G5 in Ho. rewrite Hb3 in Hb. by destruct (F1 Hb).
  - intros Hb. rewrite Hb3 in Hb. destruct (F1 Hb) as [_ Hp]. rewrite <- G5 in Hp. by rewrite (Hlp Hp).
Qed.

(** ** All calls *)

Lemma runs_set a f (t : tcp) p :
  inv t -> pcbs t !! a = Some p -> segments_of (f p) = segments_of p -> nums_ok (f p) -> settled (f p) ->
  state (f p) = state p -> local_port (f p) = local_port p -> keeps_inv (update_pcb a f) t.
Proof.
  intros Hi E G1 G2 G3 G4 G5. eapply runs_mono; [apply (runs_update_same a f t p Hi E G1 G2 G4 G5 G3)|cbv beta]. by intros _ t1 [? _].
Qed.

(** What happens to TCP: a datagram from [s] to [d] comes in, or the application
    calls a function. *)
Inductive event :=
  | Datagram (s d : Z) (q : pbuf) (inp : netif)
  | New | Bind (a addr port : Z) | Listen (a f : Z) | Connect (a : Z) (addr : option Z) (port f : Z)
  | SetRecv (a : Z) (f : option Z) | SetSent (a : Z) (f : option Z) | SetErr (a : Z) (f : option Z) | SetArg (a x : Z)
  | SetPoll (a : Z) (f : option Z) (interval : Z) | SetPrio (a x : Z)
  | Recved (a n : Z) | Output (a : Z) | Close (a : Z) | CloseListener (b : Z) | Shutdown (a : Z) (rx tx : bool) | AbortConn (a : Z).

Definition ignore {A} (m : M A) : M unit := bind m (fun _ => ret tt).
Definition step (e : event) : M unit :=
  match e with
  | Datagram s d q inp =>
      bind (modify (fun t => t <| nt ::= on_ip (with_addrs s d) |>)) (fun _ =>
        tcp_input output_err frag_ram frag_ref ram stale app q inp)
  | New => ignore (tcp_new output_err frag_ram frag_ref ram app)
  | Bind a ip port => ignore (tcp_bind (Conn a) ip port)
  | Listen a f => listen_accept a f
  | Connect a ip port f => ignore (tcp_connect output_err frag_ram frag_ref ram a ip port (Some f))
  | SetRecv a f => tcp_recv a f
  | SetSent a f => tcp_sent a f
  | SetErr a f => tcp_err a f
  | SetArg a x => tcp_arg (Conn a) x
  | SetPoll a f n => tcp_poll a f n
  | SetPrio a x => tcp_setprio a x
  | Recved a n => tcp_recved output_err frag_ram frag_ref ram a n
  | Output a => ignore (output output_err frag_ram frag_ref ram a)
  | Close a => ignore (tcp_close output_err frag_ram frag_ref ram (Conn a))
  | CloseListener b => ignore (tcp_close output_err frag_ram frag_ref ram (Listener b))
  | Shutdown a rx tx => ignore (tcp_shutdown output_err frag_ram frag_ref ram (Conn a) rx tx)
  | AbortConn a => tcp_abort output_err frag_ram frag_ref ram app a
  end.

(** The packet is one that [tcp_input_safe] speaks of. *)
Definition packet_fits (q : pbuf) (t : tcp) : Prop :=
  buffers_ok q /\ Z.of_nat (length (data q)) <= 65534 /\
  forall i, segment_in stale q = Some i -> Forall (fun x => antipodal i x.2 = false) (map_to_list (pcbs t)).
Definition in_memory (a : Z) (t : tcp) : Prop := is_Some (pcbs t !! a).
(** When the application may do it: with blocks that are in memory; one that is bound
    is not bound again and not aborted, the one whose segment is processed does not
    connect, and one that waits to be accepted is not closed. *)
Definition permitted (e : event) (t : tcp) : Prop :=
  match e with
  | Datagram _ _ q _ => packet_fits q t
  | New => True
  | Bind a _ _ | AbortConn a => in_memory a t /\ a ∉ tcp_bound_pcbs t
  | Connect a _ _ _ => in_memory a t /\ tcp_input_pcb t <> Some a
  | Close a | Shutdown a _ _ => exists p, pcbs t !! a = Some p /\ may_close p
  | CloseListener b => b ∈ tcp_listen_pcbs t
  | Listen a _ | SetRecv a _ | SetSent a _ | SetErr a _ | SetArg a _ | SetPoll a _ _ | SetPrio a _ | Recved a _ | Output a => in_memory a t
  end.

Lemma keeps_ignore {A} (m : M A) (t : tcp) : keeps_inv m t -> keeps_inv (ignore m) t.
Proof. intros Hm. unfold ignore. run (exact Hm). intros x t1 Hi. by apply runs_ret. Qed.
Lemma inv_addrs s d (t : tcp) : inv t -> inv (t <| nt ::= on_ip (with_addrs s d) |>).
Proof. intros [[? ? ? ? ?] [? ? ? [? ?] ?] ?]. split; [by split| |done]. split; try done. Qed.

Lemma step_setters e (t : tcp) : inv t -> permitted e t ->
  match e with SetRecv _ _ | SetSent _ _ | SetErr _ _ | SetArg _ _ | SetPoll _ _ _ | SetPrio _ _ => keeps_inv (step e) t | _ => True end.
Proof.
  intros Hi Hp. destruct e; try done; destruct Hp as [p E]; destruct (inv_blocks t a p Hi E) as [[N1 N2 N3 N4 N5 N6 N7] Hs];
    (eapply runs_set; [exact Hi|exact E|done|by split| |done|done]); try by apply (settled_same p).
  destruct Hs as [S1 S2 S3 S4 S5 S6 S7]. split; try done; cbn; intros; by destruct f.
Qed.
Lemma step_runs e (t : tcp) : inv t -> permitted e t -> keeps_inv (step e) t.
Proof.
  intros Hi Hp. pose proof (step_setters e t Hi Hp) as Hset. destruct e; try exact Hset; clear Hset; cbn [step permitted] in *.
  - destruct Hp as (H1' & H2' & H3'). apply runs_modify. apply (runs_input output_err frag_ram frag_ref ram stale app contract stale_bytes); [by apply inv_addrs|done|done|].
    intros i a p Ei Ea. specialize (H3' i Ei). rewrite Forall_forall in H3'. apply (H3' (a, p)). by apply elem_of_map_to_list.
  - apply keeps_ignore. eapply runs_mono; [apply (runs_alloc output_err frag_ram frag_ref ram app contract); exact Hi|cbv beta]. by intros r t1 [? _].
  - apply keeps_ignore. destruct Hp as [Ha Hb]. by apply runs_bind_call.
  - by apply runs_listen_accept.
  - apply keeps_ignore. destruct Hp as [[p E] Hp]. by apply (runs_connect a addr port f t p).
  - destruct Hp as [p E]. eapply runs_mono; [by apply (runs_recved output_err frag_ram frag_ref ram a n t p)|cbv beta]. by intros _ t1 [? _].
  - apply keeps_ignore. destruct Hp as [p E]. eapply runs_mono; [by apply (runs_output_inv output_err frag_ram frag_ref ram a t p)|cbv beta]. by intros r t1 [? _].
  - apply keeps_ignore. destruct Hp as (p & E & Hm). by apply (runs_close a t p).
  - apply keeps_ignore. by apply runs_close_listener.
  - apply keeps_ignore. destruct Hp as (p & E & Hm). by apply (runs_shutdown a rx tx t p).
  - destruct Hp as [[p E] Hb]. eapply runs_mono; [by apply (runs_abandon output_err frag_ram frag_ref ram app contract a true t p)|cbv beta]. by intros _ t1 [? _].
Qed.

(** The states that TCP comes to from [t0]. *)
Inductive reachable (t0 : tcp) : tcp -> Prop :=
  | reach_start : reachable t0 t0
  | reach_step t e t' : reachable t0 t -> permitted e t -> step e t = Some (tt, t') -> reachable t0 t'.


(** A sequence of calls, as far as they are permitted. *)
#[export] Instance handler_eq_dec : EqDecision handler.
Proof. solve_decision. Defined.
#[export] Instance buffers_dec q : Decision (buffers_ok q).
Proof. unfold buffers_ok. apply _. Defined.
#[export] Instance packet_dec q t : Decision (packet_fits q t).
Proof.
  unfold packet_fits. destruct (segment_in stale q) as [i|].
  - destruct (decide (Forall (fun x => antipodal i x.2 = false) (map_to_list (pcbs t)))) as [Hf|Hf].
    + destruct (decide (buffers_ok q /\ Z.of_nat (length (data q)) <= 65534)) as [[H1' H2']|Hn]; [left|right].
      * split; [done|]. split; [done|]. by intros i' [= <-].
      * tauto.
    + right. intros (_ & _ & Hx). apply Hf. by apply Hx.
  - destruct (decide (buffers_ok q /\ Z.of_nat (length (data q)) <= 65534)) as [[H1' H2']|Hn]; [left|right; tauto].
    split; [done|]. split; [done|]. done.
Defined.
#[export] Instance may_close_dec a (t : tcp) : Decision (exists p, pcbs t !! a = Some p /\ may_close p).
Proof.
  destruct (pcbs t !! a) as [p|] eqn:E; [|right; by intros (q & Eq & _)].
  destruct (decide (state p = SYN_RCVD /\ recv p = Some Null)) as [[Hs Hr]|Hn]; [right|left].
  - intros (q & Eq & Hm). injection Eq as <-. by apply Hm.
  - exists p. split; [done|]. intros Hs Hr. by apply Hn.
Defined.
#[export] Instance permitted_dec e (t : tcp) : Decision (permitted e t).
Proof. destruct e; cbn [permitted]; unfold in_memory; apply _. Defined.
Fixpoint run_events (l : list event) (t : tcp) : option tcp :=
  match l with
  | [] => Some t
  | e :: l => if decide (permitted e t) then '(_, t') ← step e t; run_events l t' else None
  end.
Lemma run_events_reachable l t0 t t' : reachable t0 t -> run_events l t = Some t' -> reachable t0 t'.
Proof.
  revert t. induction l as [|e l IH]; intros t Hr; cbn [run_events]; [by injection 1 as <-|].
  destruct (decide (permitted e t)) as [Hp|]; [|done]. destruct (step e t) as [[[] t1]|] eqn:E; [|done]. cbn [mbind option_bind].
  apply IH. by eapply reach_step.
Qed.
End use.

(** ** Two hosts *)

#[local] Existing Instance IpFrag.reass_pool.
#[local] Abbreviation host := (Tcp.tcp (P:=Memp.memp) (PS:=Memp.memp) (PC:=Memp.memp) (PL:=Memp.memp)).
#[local] Abbreviation all_ok := (fun _ _ : nat => true).
Lemma sample_stale : bytes [0] /\ [0] <> [].
Proof. split; [by repeat constructor|done]. Qed.
#[local] Abbreviation run_host := (run_events (fun _ => 0) all_ok all_ok (fun _ => true) [0] sample_app sample_stale).

Definition client_addr : Z := 0x0100000a.
Definition server_addr : Z := 0x0200000a.
(** The first block of a pool. *)
Definition block0 : Z := default 0 (fst <$> alloc sample_pool).
(** The [k]-th packet of a host, as it is received by another one. *)
Definition arrival (x : option host) (k : nat) (s d : Z) : event :=
  Datagram s d (mkPbuf [] [default [] (x ← x; data <$> (sent_packets (events (n_ip (nt x))) !! k))]) (sample_netif d).
Definition continue (x : option host) (l : list event) : option host := x ← x; run_host l x.

Definition client1 : option host := run_host [New; Connect block0 (Some server_addr) 80 9] (sample_host client_addr 0 0).
Definition server1 : option host := run_host [New; Bind block0 0 80; Listen block0 3] (sample_host server_addr 0 0).
Definition server2 := continue server1 [arrival client1 0 client_addr server_addr].
Definition client2 := continue client1 [arrival server2 0 server_addr client_addr].
Definition server3 := continue server2 [arrival client2 1 client_addr server_addr].
(** The client closes; the server hears of it and closes too. *)
Definition client3 := continue client2 [Close block0].
Definition server4 := continue server3 [arrival client3 2 client_addr server_addr; Close block0].

Definition states (x : option host) : option (list (option tcp_state)) :=
  (fun x => (fun a => state <$> pcbs x !! a) <$> (tcp_active_pcbs x ++ tcp_tw_pcbs x)) <$> x.
Lemma hosts_connect :
  states client2 = Some [Some ESTABLISHED] /\ states server3 = Some [Some ESTABLISHED] /\
  states client3 = Some [Some FIN_WAIT_1] /\ states server4 = Some [Some LAST_ACK].
Proof. vm_compute. done. Qed.

Lemma sample_host_inv a s d : inv (sample_host a s d).
Proof.
  split; [split|split|]; cbn; try done; try exact sample_pool_holds.
  - apply NoDup_nil. constructor.
  - by intros b ?%not_elem_of_nil.
  - by intros b ?%not_elem_of_nil.
  - by intros b ?%not_elem_of_nil.
  - split; [apply NoDup_nil; constructor|]. by intros b ?%not_elem_of_nil.
  - split; [constructor|]. intros n [= <-]. right. cbn. lia.
Qed.


End TcpUse.
