(* ===== verification/Stack.v ===== *)
(** * The protocols put together

    The transport protocols behind the interface [Ip.Transport]: raw blocks, UDP
    and ICMP are the modelled ones, TCP and IGMP stay parameters.  With them a
    datagram can be followed from [udp_sendto] on one host, through the fragments
    on the wire, to the receive function on another. *)

From stdpp Require Import gmap.
From S2P Require Import Prelude LwipDef InetChksum IpAddr Mem Memp Pbuf Packet IpFrag Ip Icmp Udp Raw.

#[local] Open Scope Z_scope.

Module Stack.
Import LwipDef InetChksum IpAddr Packet Ip.

Section stack.
Context {P PU PR X : Type} `{Pool P} `{Pool PU} `{Pool PR}.

(** The states of the protocols; [X] is the one of TCP and IGMP. *)
Record world := mkWorld { w_udp : Udp.udp PU; w_raw : Raw.raw PR; w_other : X }.

Variable output_err : nat -> Z.
Variables frag_ram frag_ref : nat -> nat -> bool.
Variable ram : nat -> bool.
Variable stale : list Z.
Variable dhcp_pcb : Z -> option Z.
Variable eats : list Raw.offer -> Raw.offer -> bool.
Variable tcp : pbuf -> netif -> ip P -> X -> option (ip P * X).
Variable igmp : pbuf -> netif -> Z -> ip P -> X -> option (ip P * X).
Variable lookfor_group : netif -> Z -> X -> bool.

#[local] Instance stack_transport : Transport (ip P) world := {
  raw_input q inp st w :=
    let '(eaten, st, r) := Raw.raw_input stale eats q inp st (w_raw w) in
    Some (eaten, st, mkWorld (w_udp w) r (w_other w));
  udp_input q inp st w :=
    '(st, u) ← Udp.udp_input output_err frag_ram frag_ref ram stale dhcp_pcb q inp st (w_udp w);
    Some (st, mkWorld u (w_raw w) (w_other w));
  tcp_input q inp st w := '(st, x) ← tcp q inp st (w_other w); Some (st, mkWorld (w_udp w) (w_raw w) x);
  icmp_input q inp st w :=
    st ← Icmp.icmp_input output_err frag_ram frag_ref ram stale q inp st; Some (st, w);
  igmp_input q inp d st w := '(st, x) ← igmp q inp d st (w_other w); Some (st, mkWorld (w_udp w) (w_raw w) x);
  icmp_dest_unreach q c st w :=
    st ← Icmp.icmp_dest_unreach output_err frag_ram frag_ref ram stale q c st; Some (st, w);
  igmp_lookfor_group inp d w := lookfor_group inp d (w_other w)
}.

(** No raw block is offered packets of this protocol. *)
Definition not_hooked (proto s d : Z) (w : world) : Prop :=
  forall q, Raw.hooks proto s d q (Raw.raw_pcbs (w_raw w)) = [].

Lemma raw_passes h q inp st w :
  ip_hdr_at q = Some h -> not_hooked (_proto h) (current_iphdr_src st) (current_iphdr_dest st) w ->
  exists w', raw_input q inp st w = Some (false, st, w') /\ w_udp w' = w_udp w /\ w_other w' = w_other w.
Proof.
  intros Hh Hn. pose proof (IpFrag.hdr_at_len _ _ Hh) as Hl. unfold plen, IP_HLEN in Hl.
  assert (Ehdr : ip_hdr_of (first q ++ stale) = h).
  { unfold ip_hdr_at in Hh. destruct (IP_HLEN <=? plen q); [|done]. injection Hh as <-.
    rewrite (IpFrag.ip_hdr_of_take (first q ++ stale)) by (rewrite length_app; lia).
    rewrite take_app_le by lia. symmetry. apply IpFrag.ip_hdr_of_take. lia. }
  cbn [raw_input stack_transport]. unfold Raw.raw_input. rewrite Ehdr.
  destruct (Raw.offer_loop _ _ _ _ _ _ _ _) as [[eaten l'] calls'] eqn:E.
  apply Raw.offer_loop_spec in E as (o & o' & Eo & -> & _ & _ & Hend). rewrite (Hn q) in Eo.
  symmetry in Eo. apply app_eq_nil in Eo as [-> ->]. destruct eaten; [by destruct Hend as (x & ? & _)|].
  by eexists.
Qed.

(** A packet that comes in with the header [h] goes to UDP. *)
Lemma deliver_udp h p inp st w :
  ip_hdr_at p = Some h -> _proto h = IP_PROTO_UDP ->
  current_iphdr_src st = src h -> current_iphdr_dest st = dest h ->
  not_hooked IP_PROTO_UDP (src h) (dest h) w ->
  exists w', w_udp w' = w_udp w /\
    deliver p h inp st w =
      ('(st, w) ← udp_input p inp (with_current (Some inp) (Some h) st) w';
       Some (ERR_OK, with_addrs 0 0 (with_current None None st), w)).
Proof.
  intros Hh Hproto Hs Hd Hn. unfold deliver.
  destruct (raw_passes h p inp (with_current (Some inp) (Some h) st) w Hh) as (w' & -> & Hu & _).
  { cbn. by rewrite Hproto, Hs, Hd. }
  exists w'. split; [done|]. cbn [mbind option_bind]. rewrite Hproto. change (IP_PROTO_UDP =? IP_PROTO_UDP) with true.
  cbn iota. by destruct (udp_input p inp _ w') as [[st1 w1]|].
Qed.

(** The host takes the datagrams from [s] to port [port] of [d] with the receive
    function [f] of the block [a]. *)
Record listens (inp : netif) (s d sport port a f : Z) (r : ip P) (w : world) : Prop := {
  ls_takes : takes inp s d r w;
  ls_unicast : ip_addr_isbroadcast d inp = false /\ ip_addr_ismulticast d = false;
  ls_port : port <> DHCP_CLIENT_PORT;
  ls_udp : Udp.reachable (P := P) (w_udp w);
  ls_raw : not_hooked IP_PROTO_UDP s d w;
  ls_block : exists l b, Udp.active (w_udp w) = Some l /\ Udp.recv b = Some f /\
    Udp.chosen false s d sport port inp l = Some (a, b)
}.

(** There is room to reassemble the packets. *)
Record has_room (h : ip_hdr) (received : list pbuf) (r : ip P) : Prop := {
  hr_inv : IpFrag.inv (reassembly r);
  hr_entry : IpFrag.entry (reassembly r) h = None;
  hr_count : IpFrag.ip_reass_pbufcount (reassembly r) + IpFrag.clens received <= IpFrag.IP_REASS_MAX_PBUFS;
  hr_pool : (length (IpFrag.reassdatagrams (reassembly r)) + length received <= capacity P)%nat
}.

Hypothesis few_blocks : Z.of_nat (capacity PU) < 16384.

(** A whole datagram goes to the receive function. *)
Lemma datagram_delivered h p uh D inp a f (st : ip P) w :
  Udp.udp_datagram h p uh D -> _proto h = IP_PROTO_UDP -> Udp.chksum_good h uh D = true ->
  current_iphdr_src st = src h -> current_iphdr_dest st = dest h ->
  (forall r, listens inp (src h) (dest h) (lwip_ntohs (Udp.src uh)) (lwip_ntohs (Udp.dest uh)) a f r w ->
   exists st' w' q, deliver p h inp st w = Some (ERR_OK, st', w') /\ events st' = events st /\
     Udp.received (w_udp w') = Udp.received (w_udp w) ++ [Udp.Recv f a q (src h) (lwip_ntohs (Udp.src uh))] /\
     data q = D).
Proof.
  intros Hu Hproto Hgood Hs Hd r [_ [Hb Hm] Hport Hr Hraw (l & b & Hl & Hf & Hc)].
  destruct (deliver_udp h p inp st w (Udp.ud_hdr _ _ _ _ Hu) Hproto Hs Hd Hraw) as (w1 & Ew & ->).
  cbn [udp_input stack_transport].
  pose proof (Udp.udp_input_outcome few_blocks output_err frag_ram frag_ref ram stale dhcp_pcb h p uh D inp
    (with_current (Some inp) (Some h) st) (w_udp w1) l) as Hout. cbn zeta in Hout. rewrite Ew in *.
  specialize (Hout Hr Hl Hu Hs Hd Hport Hb Hm). rewrite Hc, Hf, Hgood in Hout.
  destruct Hout as (q & u' & _ & -> & Hrec & Hq). cbn [mbind option_bind].
  do 2 eexists. exists q. split; [done|]. split; [done|]. split; [exact Hrec|exact Hq].
Qed.

(** C10: What [udp_sendto] sends arrives: the datagram leaves in packets that fit the
    interface, and when these reach a host that listens, in any order in which
    the last comes last, exactly one call of its receive function follows, with
    the data, the address and the port of the sender. *)
Theorem udp_end_to_end {PS : Type} `{Pool PS} err_s ram_s a b p dst port n (st : ip P) (u : Udp.udp PS) :
  Udp.pcbs u !! a = Some b -> Udp.can_send b p dst port n -> (28 <= length (before p))%nat ->
  dst <> IPADDR_BROADCAST -> ip_addr_isany (ip_addr n) = false ->
  ip_route (if ip_addr_ismulticast dst then Udp.multicast_ip b else dst) st = Some n ->
  in_u16 (ip_id st) -> 28 <= mtu n <= 65535 ->
  exists sent err st' h,
    Udp.udp_sendto err_s (fun _ _ => true) (fun _ _ => true) ram_s a p dst port st u = Some (err, st', u) /\
    events st' = events st ++ ((fun x => Output (netif_id n) x dst) <$> sent) /\
    (forall x, x ∈ sent -> Z.of_nat (length (data x)) <= mtu n) /\
    forall received inp a' f (r : ip P) w,
      IpFrag.arrives sent received -> (forall x, x ∈ received -> 28 <= plen x) ->
      listens inp (ip_addr n) dst (Udp.local_port b) port a' f r w -> has_room h received r ->
      exists r' w' q, input_all stale received inp r w = Some (r', w') /\ events r' = events r /\
        Udp.received (w_udp w') =
          Udp.received (w_udp w) ++ [Udp.Recv f a' q (ip_addr n) (Udp.local_port b)] /\
        data q = data p.
Proof.
  intros Hb Hc Hroom Hnb Hany Hroute Hid Hmtu.
  destruct (Udp.udp_sendto_if_spec err_s (fun _ _ => true) (fun _ _ => true) ram_s a b p dst port n st u Hb Hc)
    as (q & uh & Eq & Dq & Sq & Bq & Huh & Esrc & Edst & _ & _ & Hgood).
  unfold Udp.udp_sendto, Udp.sendto. rewrite Hb. cbn [mbind option_bind]. rewrite Hroute.
  rewrite (proj2 (Z.eqb_neq dst IPADDR_BROADCAST)) by done. rewrite Eq.
  assert (Hlen : length (data q) = (8 + length (data p))%nat) by (rewrite Dq, length_app; done).
  pose proof Hc as [C1 C2 C3 C4 C5 C6 C7 C8 C9 C10 C11 C12].
  assert (Hs : sendable q (ip_addr n) dst (Udp.ttl b) (Udp.tos b) IP_PROTO_UDP n [] st).
  { split; try done; [|constructor|cbn; lia|lia]. rewrite Dq. apply Forall_app_2; [apply Udp.udp_hdr_bytes_bytes|done]. }
  destruct (transmits (W := world) err_s q _ _ _ _ _ n st Hs ltac:(lia) ltac:(lia) Hmtu)
    as (sent & err & st' & h & E & Ev & Hsize & F1 & F2 & F3 & _ & _ & Hl & Hok & Hall).
  rewrite Hany in F1.
  exists sent, err, st', h. rewrite E. split; [done|]. split; [done|]. split; [done|].
  intros received inp a' f r w Harr H28 Hlis Hhr. pose proof Hhr as [R1 R2 R3 R4].
  pose proof Hlis as [L1 _ _ _ _ _]. rewrite <- F1 in L1.
  destruct (Hall stale received inp r w Harr L1 R1 R2 R3 R4) as (p' & rs & Dp & Hp & _ & (x & Hx & Hpl) & Ein).
  assert (Hdg : Udp.udp_datagram h p' uh (data p)).
  { split; try done; [by rewrite Dp, Dq| |].
    - rewrite Dp, length_app, length_ip_hdr_bytes. lia.
    - rewrite Hpl. by apply H28. }
  rewrite Ein. rewrite <- F1, <- F2.
  destruct (datagram_delivered h p' uh (data p) inp a' f (with_reass rs (with_addrs (src h) (dest h) r)) w)
    with (r := r) as (r' & w' & q' & -> & Er & Erec & Eq'); try done; [by apply Hgood|by rewrite F1, F2, Esrc, Edst|].
  exists r', w', q'. rewrite <- Esrc. done.
Qed.


End stack.

(** ** Instances *)

#[local] Existing Instance IpFrag.reass_pool.

Definition demo_world : Type := world (PU := Memp.memp) (PR := Memp.memp) (X := unit).
Definition sample_world : demo_world := mkWorld Udp.sample_udp Raw.start_raw tt.
#[local] Instance sample_transport : Transport (ip Memp.memp) demo_world :=
  stack_transport (fun _ => 0) (fun _ _ => true) (fun _ _ => true) (fun _ => true) [] (fun _ => None) (fun _ _ => false)
    (fun _ _ _ _ => None) (fun _ _ _ _ _ => None) (fun _ _ _ => false).

(** The block 4224 of one host sends 50 bytes to the block 4192 of another. *)
Definition sample_send : option (Z * ip Memp.memp * Udp.udp Memp.memp) :=
  Udp.udp_sendto (fun _ => 0) (fun _ _ => true) (fun _ _ => true) (fun _ => true) 4224 sample_packet 0x0200000a 1200
    (sample_host 0x0100000a) Udp.sample_udp.
Definition sample_sent : list pbuf :=
  match sample_send with Some (_, st, _) => packets (events st) | None => [] end.
(** The other host receives them in another order, each in one buffer. *)
Definition sample_received : list pbuf :=
  (fun x => mkPbuf [] [data x]) <$> rev (take 2 sample_sent) ++ drop 2 sample_sent.
Definition sample_block : Udp.udp_pcb := default (Udp.mkPcb 0 0 0 0 0 0 0 0 0 None) (Udp.pcbs Udp.sample_udp !! 4224).

Lemma sample_can_send : Udp.can_send sample_block sample_packet 0x0200000a 1200 (sample_if 0x0100000a).
Proof.
  split; try (vm_compute; done); try (vm_compute; split; done); [by right| |vm_compute; lia].
  let v := eval vm_compute in (data sample_packet) in
    replace (data sample_packet) with v by (vm_compute; reflexivity).
  solve_bytes.
Qed.

Lemma sample_listens :
  listens (fun _ => 0) (fun _ _ => true) (fun _ _ => true) (fun _ => true) [] (fun _ => None) (fun _ _ => false)
    (fun _ _ _ _ => None) (fun _ _ _ _ _ => None) (fun _ _ _ => false)
    (sample_if 0x0200000a) 0x0100000a 0x0200000a 1200 1200 4192 7 (sample_host 0x0200000a) sample_world.
Proof.
  split; [|done|vm_compute; discriminate|apply Udp.sample_reachable|done|].
  - split; [vm_compute; discriminate|]. right. vm_compute. done.
  - do 2 eexists. split; [vm_compute; reflexivity|]. split; [|vm_compute; reflexivity]. reflexivity.
Qed.

Lemma udp_end_to_end_witness :
  length sample_sent = 3%nat /\
  exists r' w' q, input_all [] (sample_received) (sample_if 0x0200000a)
      (sample_host 0x0200000a) sample_world = Some (r', w') /\
    Udp.received (w_udp w') = [Udp.Recv 7 4192 q 0x0100000a 1200] /\ data q = data sample_packet.
Proof.
  split; [vm_compute; reflexivity|].
  destruct (udp_end_to_end (fun _ => 0) (fun _ _ => true) (fun _ _ => true) (fun _ => true) [] (fun _ => None)
              (fun _ _ => false) (fun _ _ _ _ => None) (fun _ _ _ _ _ => None) (fun _ _ _ => false)
              Udp.few_sample_blocks (X := unit) (PR := Memp.memp)
              (fun _ => 0) (fun _ => true) 4224 sample_block sample_packet 0x0200000a 1200 (sample_if 0x0100000a)
              (sample_host 0x0100000a) Udp.sample_udp ltac:(vm_compute; reflexivity) sample_can_send ltac:(vm_compute; lia)
              ltac:(discriminate) eq_refl eq_refl ltac:(vm_compute; done) ltac:(cbn; lia))
    as (sent & err & st' & h & E & Ev & _ & Hall).
  assert (Esent : sent = sample_sent).
  { unfold sample_sent, sample_send. rewrite E, Ev. symmetry. apply packets_output. }
  assert (Hin : forall x, x ∈ sample_received -> 28 <= plen x).
  { assert (Eb : forallb (fun x => 28 <=? plen x) (sample_received) = true)
      by (vm_compute; reflexivity).
    intros x Hx%list_elem_of_In. by apply Z.leb_le, (proj1 (forallb_forall _ _) Eb). }
  destruct (Hall (sample_received) (sample_if 0x0200000a) 4192 7
              (sample_host 0x0200000a) sample_world) as (r' & w' & q & E1 & _ & E2 & E3).
  - subst sent. exists ((fun x => mkPbuf [] [data x]) <$> sample_sent). split; [|split].
    + assert (Eb : forallb (fun x => IP_HLEN <=? plen (mkPbuf [] [data x])) sample_sent = true) by (vm_compute; reflexivity).
      clear -Eb. induction sample_sent as [|x l IH]; [constructor|]. cbn [forallb] in Eb. apply andb_true_iff in Eb as [Ex Eb].
      cbn [fmap list_fmap]. constructor; [|by apply IH]. split; [unfold data; cbn; by rewrite app_nil_r|by apply Z.leb_le].
    + unfold sample_received. apply fmap_Permutation. rewrite <- (take_drop 2 sample_sent) at 3.
      apply Permutation_app_tail. symmetry. apply Permutation_rev.
    + vm_compute. reflexivity.
  - exact Hin.
  - exact sample_listens.
  - split; [apply IpFrag.inv_reass_start|done|vm_compute; discriminate|vm_compute; lia].
  - exists r', w', q. split; [exact E1|]. split; [exact E2|exact E3].
Defined.

End Stack.
