(* ===== verification/NetworkMessage.v ===== *)
(** * Network messages (api/netmsginfo.h, gateway/networkmessage.cpp,
    api/gateway/networkmessage.h, [prepareNetworkMessage] of gateway.cpp)

    A [NetworkMessage] is a packed structure, so a message is the list of its
    1336 bytes: the header of 36 bytes and the buffer of 1300 bytes for user
    data.  The accessors write and read big-endian fields of the header
    through the functions of [ByteStream].  The main results: a message built
    by [prepareNetworkMessage] and carried over a link is read back field by
    field and passes the check of its checksum; the change of any single
    protected byte is noticed. *)

From S2P Require Import Prelude Checksums ByteStream.

Module NetworkMessage.
Import Checksums ByteStream.

(** [min] of api/misc-rodos-funcs.h *)
Definition min (a b : Z) : Z := if a <? b then a else b.

(** ** Message information (class NetMsgInfo) *)

(** The enumeration [NetMsgType]; its values are the numbers of the wire. *)
Definition PUB_SUB_MSG : Z := 0.
Definition TOPIC_LIST : Z := 1.
Definition LINK_ID_RODOS_LOCAL_BROADCAST : Z := 0.

Module NetMsgInfo.
Record t := mk {
  senderNode : Z;
  senderThreadId : Z;
  sentTime : Z;
  receiverNode : Z;
  receiverNodesBitMap : Z;
  linkId : Z;
  messageType : Z
}.

(** [init]; the time, the node number and the address of the running thread
    come from the environment.  [receiverNodesBitMap] is not assigned. *)
Definition init (now nodeNumber currentThread : Z) (type : Z) (old : t) : t :=
  mk nodeNumber (u32 currentThread) now (-1) (receiverNodesBitMap old)
     LINK_ID_RODOS_LOCAL_BROADCAST type.

Definition set_receiver (node bitMap : Z) (i : t) : t :=
  mk (senderNode i) (senderThreadId i) (sentTime i) node bitMap (linkId i) (messageType i).

(** The fields hold values of their types. *)
Record ok (i : t) : Prop := {
  ok_senderNode : - 2 ^ 31 <= senderNode i < 2 ^ 31;
  ok_senderThreadId : in_u32 (senderThreadId i);
  ok_sentTime : - 2 ^ 63 <= sentTime i < 2 ^ 63;
  ok_receiverNode : - 2 ^ 31 <= receiverNode i < 2 ^ 31;
  ok_bitMap : in_u32 (receiverNodesBitMap i);
  ok_type : in_u16 (messageType i)
}.
End NetMsgInfo.

(** ** The message *)

Definition HEADER_SIZE : nat := 36.
Definition MAX_NETWORK_MESSAGE_LENGTH : nat := 1300.
Abbreviation msg := (list Z).

Record wf (m : msg) : Prop := {
  wf_length : length m = (HEADER_SIZE + MAX_NETWORK_MESSAGE_LENGTH)%nat;
  wf_bytes : bytes m
}.

Definition userDataC (m : msg) : list Z := drop HEADER_SIZE m.

(** An encoder applied at [header + off], and a decoder. *)
Definition put (enc : option (list Z) -> Z -> option (option (list Z))) (off : nat)
    (x : Z) (m : msg) : msg :=
  take off m ++ default (drop off m) (unptr (enc (Some (drop off m)) x)).
Definition get (dec : option (list Z) -> option Z) (off : nat) (m : msg) : Z :=
  default 0 (dec (Some (drop off m))).

Definition put_receiverNode (x : Z) (m : msg) : msg := put int32_tToBigEndian 0 x m.
Definition put_receiverNodesBitMap (x : Z) (m : msg) : msg := put uint32_tToBigEndian 4 x m.
Definition put_maxStepsToForward (x : Z) (m : msg) : msg := put int16_tToBigEndian 8 x m.
Definition put_checkSum (x : Z) (m : msg) : msg := put uint16_tToBigEndian 10 x m.
Definition put_type (x : Z) (m : msg) : msg := put uint16_tToBigEndian 12 x m.
Definition put_len (x : Z) (m : msg) : msg := put uint16_tToBigEndian 14 x m.
Definition put_senderNode (x : Z) (m : msg) : msg := put int32_tToBigEndian 16 x m.
Definition put_sentTime (x : Z) (m : msg) : msg := put int64_tToBigEndian 20 x m.
Definition put_senderThreadId (x : Z) (m : msg) : msg := put uint32_tToBigEndian 28 x m.
Definition put_topicId (x : Z) (m : msg) : msg := put uint32_tToBigEndian 32 x m.

Definition get_receiverNode (m : msg) : Z := get bigEndianToInt32_t 0 m.
Definition get_receiverNodesBitMap (m : msg) : Z := get bigEndianToUint32_t 4 m.
Definition get_maxStepsToForward (m : msg) : Z := get bigEndianToInt16_t 8 m.
Definition get_checksum (m : msg) : Z := get bigEndianToUint16_t 10 m.
Definition get_type (m : msg) : Z := get bigEndianToUint16_t 12 m.
Definition get_len (m : msg) : Z := get bigEndianToUint16_t 14 m.
Definition get_senderNode (m : msg) : Z := get bigEndianToInt32_t 16 m.
Definition get_sentTime (m : msg) : Z := get bigEndianToInt64_t 20 m.
Definition get_senderThreadId (m : msg) : Z := get bigEndianToUint32_t 28 m.
Definition get_topicId (m : msg) : Z := get bigEndianToUint32_t 32 m.

Definition dec_maxStepsToForward (m : msg) : msg :=
  put_maxStepsToForward (swrap 16 (get_maxStepsToForward m - 1)) m.

Definition numberOfBytesToSend (m : msg) : Z := u16 (Z.of_nat HEADER_SIZE + get_len m).

(** The sum covers [get_len] bytes of user data; it has no value when the
    length field points behind the buffer. *)
Definition calculateCheckSum (m : msg) : option Z :=
  let n := Z.to_nat (Z.of_nat HEADER_SIZE - 12 + get_len m) in
  if decide (n <= length (drop 12 m))%nat then Some (checkSum (take n (drop 12 m))) else None.
Definition isCheckSumOk (m : msg) : option bool :=
  c ← calculateCheckSum m; Some (c =? get_checksum m).
Definition setCheckSum (m : msg) : option msg :=
  c ← calculateCheckSum m; Some (put_checkSum c m).

(** The assignment of messages: a copy of the used bytes. *)
Definition assign (m oldMsg : msg) : option msg :=
  let n := Z.to_nat (numberOfBytesToSend oldMsg) in
  if decide (n <= length oldMsg /\ n <= length m)%nat
  then Some (take n oldMsg ++ drop n m) else None.

(** [memcpy] of [n] bytes of [src] to offset [off] of [dst]. *)
Definition memcpy (dst : list Z) (off : nat) (src : list Z) (n : nat) : option (list Z) :=
  if decide (n <= length src /\ off + n <= length dst)%nat
  then Some (take off dst ++ take n src ++ drop (off + n) dst) else None.

Definition setUserData (data : list Z) (len : Z) (m : msg) : option (msg * Z) :=
  let len := min len (Z.of_nat MAX_NETWORK_MESSAGE_LENGTH) in
  m ← memcpy m HEADER_SIZE data (Z.to_nat len);
  Some (put_len len m, len).

Definition getUserData (destination : list Z) (maxLen : Z) (m : msg) : option (list Z * Z) :=
  let maxLen := min maxLen (get_len m) in
  d ← memcpy destination 0 (userDataC m) (Z.to_nat maxLen);
  Some (d, maxLen).

(** [prepareNetworkMessage] (gateway.cpp); a failed [RODOS_ASSERT] is only
    reported. *)
Definition prepareNetworkMessage (netMsg : msg) (topicId : Z) (data : list Z) (len : Z)
    (netMsgInfo : NetMsgInfo.t) : option msg :=
  let m := put_receiverNode (NetMsgInfo.receiverNode netMsgInfo) netMsg in
  let m := put_receiverNodesBitMap (NetMsgInfo.receiverNodesBitMap netMsgInfo) m in
  let m := put_maxStepsToForward 10 m in
  let m := put_senderNode (NetMsgInfo.senderNode netMsgInfo) m in
  let m := put_topicId topicId m in
  let m := put_sentTime (NetMsgInfo.sentTime netMsgInfo) m in
  let m := put_type (NetMsgInfo.messageType netMsgInfo) m in
  let m := put_senderThreadId (NetMsgInfo.senderThreadId netMsgInfo) m in
  let len := if 65535 <? len then 65535 else len in
  '(m, _) ← setUserData data len m;
  setCheckSum m.

(** ** Fields of the header

    [splice off l m] is [m] with the bytes [l] stored at [off]; [sub off w m]
    are the [w] bytes at [off]. *)

Definition splice (off : nat) (l m : list Z) : list Z :=
  take off m ++ l ++ drop (off + length l) m.
Definition sub (off w : nat) (m : list Z) : list Z := take w (drop off m).

Lemma length_splice off l m :
  (off + length l <= length m)%nat -> length (splice off l m) = length m.
Proof. intros H. unfold splice. rewrite !length_app, length_take, length_drop. lia. Qed.

Lemma splice_bytes off l m : bytes l -> bytes m -> bytes (splice off l m).
Proof.
  intros Hl Hm. unfold splice, bytes. rewrite !Forall_app.
  auto using Forall_take, Forall_drop.
Qed.

Lemma lookup_splice off l m i :
  (off + length l <= length m)%nat ->
  splice off l m !! i =
    if decide (off <= i < off + length l)%nat then l !! (i - off)%nat else m !! i.
Proof.
  intros H. unfold splice.
  destruct (decide (i < off)%nat) as [Hi|Hi].
  { rewrite decide_False by lia. rewrite lookup_app_l by (rewrite length_take; lia).
    by rewrite lookup_take_lt. }
  rewrite lookup_app_r by (rewrite length_take; lia). rewrite length_take, Nat.min_l by lia.
  destruct (decide (i < off + length l)%nat) as [Hj|Hj].
  { rewrite decide_True by lia. by rewrite lookup_app_l by lia. }
  rewrite decide_False by lia. rewrite lookup_app_r by lia.
  rewrite lookup_drop. f_equal. lia.
Qed.

Lemma lookup_sub off w m i :
  sub off w m !! i = if decide (i < w)%nat then m !! (off + i)%nat else None.
Proof.
  unfold sub. destruct (decide (i < w)%nat).
  - by rewrite lookup_take_lt, lookup_drop by done.
  - apply lookup_take_ge. lia.
Qed.

Lemma length_sub off w m : (off + w <= length m)%nat -> length (sub off w m) = w.
Proof. intros H. unfold sub. rewrite length_take, length_drop. lia. Qed.

Lemma sub_bytes off w m : bytes m -> bytes (sub off w m).
Proof. intros H. by apply Forall_take, Forall_drop. Qed.

Lemma sub_splice_eq off l m :
  (off + length l <= length m)%nat -> sub off (length l) (splice off l m) = l.
Proof.
  intros H. apply list_eq. intros i. rewrite lookup_sub, lookup_splice by done.
  destruct (decide (i < length l)%nat).
  - rewrite decide_True by lia. f_equal. lia.
  - symmetry. apply lookup_ge_None_2. lia.
Qed.

Lemma sub_splice_ne off l m off' w :
  (off + length l <= length m)%nat -> (off' + w <= off \/ off + length l <= off')%nat ->
  sub off' w (splice off l m) = sub off' w m.
Proof.
  intros H Hd. apply list_eq. intros i. rewrite !lookup_sub.
  destruct (decide (i < w)%nat); [|done]. rewrite lookup_splice by done.
  by rewrite decide_False by lia.
Qed.

Lemma drop_splice off l m k :
  (off + length l <= length m)%nat -> (off + length l <= k)%nat ->
  drop k (splice off l m) = drop k m.
Proof.
  intros H Hk. apply list_eq. intros i. rewrite !lookup_drop, lookup_splice by done.
  by rewrite decide_False by lia.
Qed.

Lemma sub_app_drop off w m : sub off w m ++ drop (off + w) m = drop off m.
Proof. unfold sub. rewrite <- drop_drop. apply take_drop. Qed.

(** What an encoder of [w] bytes and its decoder promise. *)
Class codec (w : nat) (val : Z -> Prop)
    (enc : option (list Z) -> Z -> option (option (list Z)))
    (dec : option (list Z) -> option Z) : Prop := {
  codec_enc : forall buf v, (w <= length buf)%nat ->
    enc (Some buf) v = Some (Some (be_bytes w v ++ drop w buf));
  codec_dec : forall l rest rest', bytes l -> length l = w ->
    dec (Some (l ++ rest)) = dec (Some (l ++ rest'));
  codec_val : forall v rest, val v -> dec (Some (be_bytes w v ++ rest)) = Some v
}.

Ltac codec_tac :=
  split;
  [ intros buf v Hl;
    unfold int16_tToBigEndian, int32_tToBigEndian, int64_tToBigEndian;
    by rewrite ?uint16_tToBigEndian_spec, ?uint32_tToBigEndian_spec,
      ?uint64_tToBigEndian_spec, ?be_bytes_u16, ?be_bytes_u32, ?be_bytes_u64
  | intros l rest rest' Hb Hl;
    unfold bigEndianToInt16_t, bigEndianToInt32_t, bigEndianToInt64_t;
    by rewrite ?bigEndianToUint16_t_value, ?bigEndianToUint32_t_value,
      ?bigEndianToUint64_t_value
  | intros v rest Hv;
    unfold bigEndianToInt16_t, bigEndianToInt32_t, bigEndianToInt64_t;
    rewrite ?bigEndianToUint16_t_value, ?bigEndianToUint32_t_value,
      ?bigEndianToUint64_t_value, be_value by auto using be_bytes_bytes, length_be_bytes;
    cbn [mbind option_bind];
    match goal with |- context [8 * Z.of_nat ?w] =>
      let n := eval vm_compute in (8 * Z.of_nat w) in change (8 * Z.of_nat w) with n end;
    first [by rewrite swrap_u | by rewrite Z.mod_small] ].

#[export] Instance codec_u16 : codec 2 in_u16 uint16_tToBigEndian bigEndianToUint16_t.
Proof. codec_tac. Qed.
#[export] Instance codec_u32 : codec 4 in_u32 uint32_tToBigEndian bigEndianToUint32_t.
Proof. codec_tac. Qed.
#[export] Instance codec_i16 :
  codec 2 (fun v => - 2 ^ 15 <= v < 2 ^ 15) int16_tToBigEndian bigEndianToInt16_t.
Proof. codec_tac. Qed.
#[export] Instance codec_i32 :
  codec 4 (fun v => - 2 ^ 31 <= v < 2 ^ 31) int32_tToBigEndian bigEndianToInt32_t.
Proof. codec_tac. Qed.
#[export] Instance codec_i64 :
  codec 8 (fun v => - 2 ^ 63 <= v < 2 ^ 63) int64_tToBigEndian bigEndianToInt64_t.
Proof. codec_tac. Qed.

Section codec.
Context {w : nat} {val : Z -> Prop}
  {enc : option (list Z) -> Z -> option (option (list Z))} {dec : option (list Z) -> option Z}
  {C : codec w val enc dec}.

Lemma put_splice off x m :
  (off + w <= length m)%nat -> put enc off x m = splice off (be_bytes w x) m.
Proof.
  intros Hl. unfold put, splice. rewrite (codec_enc (dec:=dec)) by (rewrite length_drop; lia).
  rewrite length_be_bytes. cbn. by rewrite drop_drop.
Qed.

Lemma get_put_eq off x m :
  (off + w <= length m)%nat -> val x -> get dec off (put enc off x m) = x.
Proof.
  intros Hl Hx. rewrite put_splice by done. unfold get.
  rewrite <- (sub_app_drop off w (splice _ _ _)).
  rewrite <- (length_be_bytes w x) at 1.
  rewrite sub_splice_eq by (rewrite length_be_bytes; lia).
  by rewrite (codec_val (enc:=enc)).
Qed.

(** A field depends on its bytes only. *)
Lemma get_ext off m m' :
  bytes m -> (off + w <= length m)%nat -> sub off w m = sub off w m' ->
  get dec off m = get dec off m'.
Proof.
  intros Hb Hl He. unfold get.
  rewrite <- (sub_app_drop off w m), <- (sub_app_drop off w m'), <- He.
  by rewrite (codec_dec (enc:=enc) _ _ (drop (off + w) m'))
    by (auto using sub_bytes, length_sub).
Qed.
End codec.

(** Storing one field leaves the others alone. *)
Lemma put_wf `{codec w val enc dec} off x m :
  wf m -> (off + w <= HEADER_SIZE)%nat -> wf (put enc off x m).
Proof.
  intros [Hl Hb] Ho. unfold HEADER_SIZE in *. rewrite put_splice by lia.
  split; [by rewrite length_splice by (rewrite length_be_bytes; lia)|].
  apply splice_bytes; auto using be_bytes_bytes.
Qed.

Lemma get_put_same `{codec w val enc dec} off x m :
  wf m -> (off + w <= HEADER_SIZE)%nat -> val x -> get dec off (put enc off x m) = x.
Proof.
  intros [Hl Hb] Ho Hx. unfold HEADER_SIZE in *. apply (get_put_eq (dec:=dec)); [lia|done].
Qed.

Lemma get_put_other `{codec w val enc dec} `{codec w' val' enc' dec'} off off' x m :
  wf m -> (off + w <= HEADER_SIZE)%nat -> (off' + w' <= HEADER_SIZE)%nat ->
  (off' + w' <= off \/ off + w <= off')%nat ->
  get dec' off' (put enc off x m) = get dec' off' m.
Proof.
  intros [Hl Hb] Ho Ho' Hd. unfold HEADER_SIZE in *. symmetry.
  apply get_ext; [done|lia|].
  rewrite put_splice by lia. symmetry.
  apply sub_splice_ne; rewrite length_be_bytes; lia.
Qed.

Lemma drop_put `{codec w val enc dec} off x m k :
  wf m -> (off + w <= k)%nat -> (off + w <= HEADER_SIZE)%nat ->
  drop k (put enc off x m) = drop k m.
Proof.
  intros [Hl Hb] Hk Ho. unfold HEADER_SIZE in *. rewrite put_splice by lia.
  apply drop_splice; rewrite length_be_bytes; lia.
Qed.

(** Storing user data. *)
Lemma memcpy_splice dst off src n :
  (n <= length src)%nat -> (off + n <= length dst)%nat ->
  memcpy dst off src n = Some (splice off (take n src) dst).
Proof.
  intros H1 H2. unfold memcpy, splice. rewrite decide_True by done.
  rewrite length_take. do 4 f_equal. lia.
Qed.

Lemma splice_data_wf m l :
  wf m -> bytes l -> (length l <= MAX_NETWORK_MESSAGE_LENGTH)%nat ->
  wf (splice HEADER_SIZE l m).
Proof.
  intros [Hl Hb] Hd Hn. split; [rewrite length_splice by lia; done|by apply splice_bytes].
Qed.

Lemma get_splice_data `{codec w val enc dec} off m l :
  wf m -> (length l <= MAX_NETWORK_MESSAGE_LENGTH)%nat -> (off + w <= HEADER_SIZE)%nat ->
  get dec off (splice HEADER_SIZE l m) = get dec off m.
Proof.
  intros [Hl Hb] Hn Ho. symmetry. apply get_ext; [done|unfold HEADER_SIZE in *; lia|].
  symmetry. apply sub_splice_ne; lia.
Qed.

(** The tactics for chains of accessors: [msg_wf] for well-formedness,
    [msg_simpl] reads a field through the stores. *)
Ltac msg_unfold :=
  unfold get_receiverNode, get_receiverNodesBitMap, get_maxStepsToForward, get_checksum,
    get_type, get_len, get_senderNode, get_sentTime, get_senderThreadId, get_topicId,
    put_receiverNode, put_receiverNodesBitMap, put_maxStepsToForward, put_checkSum,
    put_type, put_len, put_senderNode, put_sentTime, put_senderThreadId, put_topicId in *.
Ltac msg_off := unfold HEADER_SIZE; lia.
Ltac msg_wf :=
  repeat first [ assumption
               | apply put_wf; [| msg_off]
               | apply splice_data_wf ].
Ltac msg_simpl :=
  repeat first [ rewrite get_put_same by (try msg_off; msg_wf)
               | rewrite get_put_other by (try msg_off; msg_wf)
               | rewrite get_splice_data by (try msg_off; msg_wf)
               | rewrite drop_put by (try msg_off; msg_wf) ].

(** ** The checksum of a message *)

Lemma get_u16_range off m : in_u16 (get bigEndianToUint16_t off m).
Proof.
  unfold get, bigEndianToUint16_t. destruct (rd (drop off m) 0); cbn -[rd]; [|zlia].
  destruct (rd (drop off m) 1); cbn; [apply u16_range|zlia].
Qed.

(** The field [len] of a message that fits its buffer. *)
Definition len_ok (m : msg) : Prop := get_len m <= Z.of_nat MAX_NETWORK_MESSAGE_LENGTH.

Lemma calculateCheckSum_Some m :
  wf m -> len_ok m ->
  calculateCheckSum m = Some (checkSum (take (Z.to_nat (24 + get_len m)) (drop 12 m))).
Proof.
  intros [Hl _] Hok. unfold calculateCheckSum, len_ok in *.
  pose proof (get_u16_range 14 m) as Hr. fold (get_len m) in Hr.
  replace (Z.of_nat HEADER_SIZE - 12 + get_len m) with (24 + get_len m) by done.
  rewrite decide_True; [done|]. rewrite length_drop, Hl.
  unfold HEADER_SIZE, MAX_NETWORK_MESSAGE_LENGTH in *. zlia.
Qed.

Lemma checkSum_range data : in_u16 (checkSum data).
Proof. apply (checkSumFrom_range 0). zlia. Qed.

Lemma get_len_ext m m' : wf m -> wf m' -> sub 14 2 m = sub 14 2 m' -> get_len m = get_len m'.
Proof.
  intros [Hl Hb] _ He. apply get_ext; [done| |done].
  rewrite Hl. unfold HEADER_SIZE. lia.
Qed.

(** The checksum depends on the bytes from index 12 on. *)
Lemma calculateCheckSum_ext m m' :
  wf m -> wf m' -> drop 12 m = drop 12 m' -> calculateCheckSum m = calculateCheckSum m'.
Proof.
  intros Hm Hm' He. unfold calculateCheckSum.
  rewrite (get_len_ext m m').
  2,3: done.
  2: unfold sub; change 14%nat with (12 + 2)%nat; by rewrite <- !drop_drop, He.
  by rewrite He.
Qed.

Lemma setCheckSum_ok m :
  wf m -> len_ok m ->
  exists c, setCheckSum m = Some (put_checkSum c m) /\ in_u16 c /\
    wf (put_checkSum c m) /\ isCheckSumOk (put_checkSum c m) = Some true.
Proof.
  intros Hm Hok. unfold setCheckSum, isCheckSumOk.
  rewrite calculateCheckSum_Some by done. eexists. split; [done|].
  set (c := checkSum _). assert (Hc : in_u16 c) by apply checkSum_range.
  assert (Hw : wf (put_checkSum c m)) by (unfold put_checkSum; msg_wf).
  split_and!; [done..|].
  rewrite (calculateCheckSum_ext _ m); [|done|done|].
  2: unfold put_checkSum; rewrite drop_put by (done || msg_off); done.
  rewrite calculateCheckSum_Some by done. cbn -[get_checksum]. f_equal. apply Z.eqb_eq. msg_unfold. by msg_simpl.
Qed.

(** The counter of steps is not protected, so a router may lower it. *)
Lemma dec_maxSteps_wf m : wf m -> wf (dec_maxStepsToForward m).
Proof. intros Hm. unfold dec_maxStepsToForward, put_maxStepsToForward. msg_wf. Qed.

Lemma swrap_range w x : 0 < w -> - 2 ^ (w - 1) <= swrap w x < 2 ^ (w - 1).
Proof.
  intros Hw. unfold swrap.
  assert (2 ^ w = 2 * 2 ^ (w - 1)) by (rewrite <- Z.pow_succ_r by lia; f_equal; lia).
  pose proof (Z.mod_pos_bound (x + 2 ^ (w - 1)) (2 ^ w)). pose proof (Z.pow_pos_nonneg 2 (w - 1)).
  lia.
Qed.

Lemma dec_maxSteps_value m :
  wf m -> get_maxStepsToForward (dec_maxStepsToForward m) =
    swrap 16 (get_maxStepsToForward m - 1).
Proof.
  intros Hm. unfold dec_maxStepsToForward. msg_unfold.
  rewrite get_put_same; [done|done|msg_off|]. apply (swrap_range 16). lia.
Qed.

Lemma drop_dec_maxSteps m k :
  wf m -> (10 <= k)%nat -> drop k (dec_maxStepsToForward m) = drop k m.
Proof.
  intros Hm Hk. unfold dec_maxStepsToForward, put_maxStepsToForward.
  by rewrite drop_put by (done || msg_off || lia).
Qed.

(** ** What a prepared message carries *)

Record carries (m : msg) (topicId : Z) (data : list Z) (info : NetMsgInfo.t) : Prop := {
  carries_topic : get_topicId m = topicId;
  carries_sender : get_senderNode m = NetMsgInfo.senderNode info;
  carries_thread : get_senderThreadId m = NetMsgInfo.senderThreadId info;
  carries_time : get_sentTime m = NetMsgInfo.sentTime info;
  carries_receiver : get_receiverNode m = NetMsgInfo.receiverNode info;
  carries_bitMap : get_receiverNodesBitMap m = NetMsgInfo.receiverNodesBitMap info;
  carries_type : get_type m = NetMsgInfo.messageType info;
  carries_len : get_len m = Z.of_nat (length data);
  carries_data : take (length data) (userDataC m) = data;
  carries_sum : isCheckSumOk m = Some true
}.

Lemma userData_splice m l :
  wf m -> (length l <= MAX_NETWORK_MESSAGE_LENGTH)%nat ->
  take (length l) (userDataC (splice HEADER_SIZE l m)) = l.
Proof. intros [Hl _] Hn. apply (sub_splice_eq HEADER_SIZE). lia. Qed.

Lemma clamp_len len :
  min (if 65535 <? len then 65535 else len) (Z.of_nat MAX_NETWORK_MESSAGE_LENGTH) =
  min len (Z.of_nat MAX_NETWORK_MESSAGE_LENGTH).
Proof.
  unfold min. change (Z.of_nat MAX_NETWORK_MESSAGE_LENGTH) with 1300.
  destruct (Z.ltb_spec 65535 len); [|done]. destruct (Z.ltb_spec len 1300); [lia|done].
Qed.

Lemma min_bounds a b : 0 <= a -> 0 <= b -> 0 <= min a b <= b /\ min a b <= a.
Proof. unfold min. destruct (Z.ltb_spec a b); lia. Qed.

Lemma prepare_carries old topicId data len info :
  wf old -> bytes data -> in_u32 topicId -> NetMsgInfo.ok info ->
  0 <= len <= Z.of_nat (length data) ->
  exists m, prepareNetworkMessage old topicId data len info = Some m /\ wf m /\
    get_maxStepsToForward m = 10 /\
    carries m topicId (take (Z.to_nat (min len (Z.of_nat MAX_NETWORK_MESSAGE_LENGTH))) data) info.
Proof.
  intros Hw Hb Ht [H1 H2 H3 H4 H5 H6] Hlen. unfold prepareNetworkMessage, setUserData.
  rewrite clamp_len. set (n := min len _).
  pose proof (min_bounds len (Z.of_nat MAX_NETWORK_MESSAGE_LENGTH) ltac:(lia) ltac:(lia)) as Hn.
  fold n in Hn.
  clearbody n. unfold MAX_NETWORK_MESSAGE_LENGTH in Hn.
  set (m0 := put_senderThreadId _ _).
  assert (Hw0 : wf m0) by (unfold m0; msg_unfold; msg_wf).
  pose proof (wf_length _ Hw0) as Hl0. unfold HEADER_SIZE, MAX_NETWORK_MESSAGE_LENGTH in Hl0.
  rewrite memcpy_splice by (unfold HEADER_SIZE; lia).
  set (l := take (Z.to_nat n) data).
  assert (Hl : Z.of_nat (length l) = n) by (unfold l; rewrite length_take; lia).
  assert (Hlb : bytes l) by (by apply Forall_take). clearbody l. cbn [mbind option_bind].
  assert (Hn16 : in_u16 n) by zlia.
  assert (Hll : (length l <= MAX_NETWORK_MESSAGE_LENGTH)%nat)
    by (unfold MAX_NETWORK_MESSAGE_LENGTH; lia).
  set (m1 := put_len n _).
  assert (Hw1 : wf m1) by (unfold m1; msg_unfold; msg_wf).
  assert (Hlen1 : get_len m1 = n) by (unfold m1; msg_unfold; by msg_simpl).
  destruct (setCheckSum_ok m1) as (c & -> & Hc & Hwf & Hsum); [done|unfold len_ok; lia|].
  eexists. split; [done|]. split; [done|].
  clear Hw1 Hlen1. subst m1 m0.
    split; [msg_unfold; by msg_simpl|].
  split; try (msg_unfold; by msg_simpl).
  unfold userDataC. msg_unfold. msg_simpl. by apply userData_splice; [msg_wf|].
Qed.

(** ** Transport *)

Lemma sub_take n off w m m' :
  (off + w <= n)%nat -> take n m = take n m' -> sub off w m = sub off w m'.
Proof.
  intros Hn He. apply list_eq. intros i. rewrite !lookup_sub.
  destruct (decide (i < w)%nat); [|done].
  rewrite <- (lookup_take_lt m n), <- (lookup_take_lt m' n) by lia. by rewrite He.
Qed.

(** The bytes that a link carries. *)
Definition wire (m : msg) : list Z := take (Z.to_nat (numberOfBytesToSend m)) m.

Lemma take_wire m : take (length (wire m)) m = wire m.
Proof.
  unfold wire. set (n := Z.to_nat _). rewrite length_take.
  destruct (decide (n <= length m)%nat); [by rewrite Nat.min_l by lia|].
  by rewrite Nat.min_r, firstn_all, take_ge by lia.
Qed.

Lemma bytesToSend_ok m :
  len_ok m -> numberOfBytesToSend m = Z.of_nat HEADER_SIZE + get_len m.
Proof.
  intros Hok. unfold numberOfBytesToSend, len_ok, HEADER_SIZE, MAX_NETWORK_MESSAGE_LENGTH in *.
  pose proof (get_u16_range 14 m) as Hr. fold (get_len m) in Hr. rewrite u16_small; zlia.
Qed.

Lemma length_wire m :
  wf m -> len_ok m -> Z.of_nat (length (wire m)) = Z.of_nat HEADER_SIZE + get_len m.
Proof.
  intros Hm Hok. unfold wire. rewrite length_take, (wf_length _ Hm), bytesToSend_ok by done.
  pose proof (get_u16_range 14 m) as Hr. fold (get_len m) in Hr.
  unfold len_ok, HEADER_SIZE, MAX_NETWORK_MESSAGE_LENGTH in *. zlia.
Qed.

(** Everything but the unused rest of the buffer depends on those bytes. *)
Lemma get_wire `{codec w val enc dec} off m r :
  wf m -> len_ok m -> take (length (wire m)) r = wire m -> (off + w <= HEADER_SIZE)%nat ->
  get dec off r = get dec off m.
Proof.
  intros Hm Hok Hr Ho. pose proof (length_wire m Hm Hok) as Hl.
  pose proof (get_u16_range 14 m) as Hlen. fold (get_len m) in Hlen.
  symmetry. apply get_ext; [apply Hm|rewrite (wf_length _ Hm); lia|].
  apply (sub_take (length (wire m))); [unfold HEADER_SIZE in *; zlia|].
  by rewrite Hr, take_wire.
Qed.

Lemma checkSum_wire m r :
  wf m -> wf r -> len_ok m -> take (length (wire m)) r = wire m ->
  calculateCheckSum r = calculateCheckSum m.
Proof.
  intros Hm Hr Hok He. pose proof (length_wire m Hm Hok) as Hl.
  pose proof (get_u16_range 14 m) as Hlen. fold (get_len m) in Hlen.
  assert (Hg : get_len r = get_len m) by (apply get_wire; try done; msg_off).
  rewrite !calculateCheckSum_Some by (try done; unfold len_ok in *; by rewrite Hg).
  rewrite Hg. do 2 f_equal. apply (sub_take (length (wire m)) 12).
  { unfold HEADER_SIZE in *. zlia. }
  by rewrite He, take_wire.
Qed.

Lemma carries_wire m r topicId data info :
  wf m -> wf r -> len_ok m -> take (length (wire m)) r = wire m ->
  carries m topicId data info -> carries r topicId data info.
Proof.
  intros Hm Hr Hok He [F1 F2 F3 F4 F5 F6 F7 F8 F9 F10].
  pose proof (length_wire m Hm Hok) as Hl.
  split; try (etrans; [|eassumption]); try (apply get_wire; try done; msg_off).
  - apply (sub_take (length (wire m)) HEADER_SIZE); [unfold HEADER_SIZE in *; lia|].
    by rewrite He, take_wire.
  - unfold isCheckSumOk. rewrite (checkSum_wire m r) by done.
    unfold get_checksum. by rewrite (get_wire 10 m r) by (try done; msg_off).
Qed.

(** The assignment of a message transports it. *)
Lemma assign_wire m oldMsg :
  wf m -> wf oldMsg -> len_ok oldMsg ->
  exists r, assign m oldMsg = Some r /\ wf r /\ take (length (wire oldMsg)) r = wire oldMsg.
Proof.
  intros Hm Ho Hok. unfold assign. pose proof (length_wire oldMsg Ho Hok) as Hl.
  pose proof (wf_length _ Hm) as Hlm. pose proof (wf_length _ Ho) as Hlo.
  rewrite decide_True.
  2: { rewrite bytesToSend_ok by done.
       unfold len_ok, HEADER_SIZE, MAX_NETWORK_MESSAGE_LENGTH in *. lia. }
  fold (wire oldMsg).
  assert (Hn : Z.to_nat (numberOfBytesToSend oldMsg) = length (wire oldMsg)).
  { rewrite bytesToSend_ok by done. lia. }
  rewrite Hn. eexists. split; [done|]. split; [|by rewrite take_app_length].
  split.
  - rewrite length_app, length_drop. unfold len_ok, MAX_NETWORK_MESSAGE_LENGTH, HEADER_SIZE in *. lia.
  - apply Forall_app. split; [apply Forall_take, Ho|apply Forall_drop, Hm].
Qed.

(** ** Corruption *)

Lemma get_checksum_value m :
  wf m -> exists a b, m !! 10%nat = Some a /\ m !! 11%nat = Some b /\ get_checksum m = a * 256 + b.
Proof.
  intros [Hl Hb].
  destruct (lookup_lt_is_Some_2 m 10) as [a Ha]; [rewrite Hl; unfold HEADER_SIZE; lia|].
  destruct (lookup_lt_is_Some_2 m 11) as [b Hb']; [rewrite Hl; unfold HEADER_SIZE; lia|].
  exists a, b. split_and!; [done..|].
  pose proof (Forall_lookup_1 _ _ _ _ Hb Ha). pose proof (Forall_lookup_1 _ _ _ _ Hb Hb').
  unfold get_checksum, get.
  assert (drop 10 m = [a; b] ++ drop 12 m) as ->.
  { rewrite (drop_S _ a) by done. by rewrite (drop_S _ b) by done. }
  rewrite bigEndianToUint16_t_value by (done || solve_bytes). cbn -[Z.mul]. lia.
Qed.

Lemma sub_insert_ne off w i b m :
  (i < off \/ off + w <= i)%nat -> sub off w (<[i:=b]> m) = sub off w m.
Proof.
  intros Hi. apply list_eq. intros j. rewrite !lookup_sub.
  destruct (decide (j < w)%nat); [|done]. rewrite list_lookup_insert_ne by lia. done.
Qed.

Lemma insert_wf i b m : wf m -> in_u8 b -> wf (<[i:=b]> m).
Proof. intros [Hl Hb] H. split; [by rewrite length_insert|by apply Forall_insert]. Qed.

Lemma corrupted_sum m i a b :
  wf m -> len_ok m -> in_u8 b -> m !! i = Some a -> a <> b ->
  (12 <= i)%nat -> (i < 14 \/ 16 <= i)%nat -> Z.of_nat i < 36 + get_len m ->
  exists c c', calculateCheckSum m = Some c /\ calculateCheckSum (<[i:=b]> m) = Some c' /\ c <> c'.
Proof.
  intros Hm Hok Hb Ha Hne Hi Hi' Hlt.
  assert (Hw : wf (<[i:=b]> m)) by by apply insert_wf.
  pose proof (get_u16_range 14 m) as Hlen. fold (get_len m) in Hlen.
  assert (Hg : get_len (<[i:=b]> m) = get_len m).
  { apply get_len_ext; [done..|]. apply sub_insert_ne. lia. }
  rewrite !calculateCheckSum_Some by (try done; unfold len_ok in *; by rewrite Hg).
  rewrite Hg. do 2 eexists. split_and!; [done..|].
  set (l := take _ (drop 12 m)).
  assert (Hla : l !! (i - 12)%nat = Some a).
  { unfold l. rewrite lookup_take_lt by zlia. rewrite lookup_drop. by replace (12 + (i - 12))%nat with i by lia. }
  assert (take (Z.to_nat (24 + get_len m)) (drop 12 (<[i:=b]> m)) = <[(i - 12)%nat := b]> l) as ->.
  { unfold l. rewrite <- take_insert_lt by zlia. f_equal.
    by rewrite drop_insert_ge by lia. }
  rewrite (insert_take_drop l) by (by apply lookup_lt_Some in Hla).
  rewrite <- (take_drop_middle l (i - 12) a Hla) at 1.
  apply checkSum_detects_byte; [|done..].
  eapply Forall_lookup_1; [apply Hm|done].
Qed.

(** The checksum notices the change of any single byte of the checksum field
    and of the protected bytes, the length field excepted. *)
Lemma corrupted_message m i a b :
  wf m -> len_ok m -> isCheckSumOk m = Some true -> in_u8 b -> m !! i = Some a -> a <> b ->
  (10 <= i)%nat -> (i < 14 \/ 16 <= i)%nat -> Z.of_nat i < 36 + get_len m ->
  isCheckSumOk (<[i:=b]> m) = Some false.
Proof.
  intros Hm Hok Hsum Hb Ha Hne Hi Hi' Hlt.
  assert (Hw : wf (<[i:=b]> m)) by by apply insert_wf.
  unfold isCheckSumOk in *.
  destruct (decide (12 <= i)%nat) as [H12|H12].
  - destruct (corrupted_sum m i a b) as (c & c' & Hc & Hc' & Hcc); try done.
    rewrite Hc in Hsum. rewrite Hc'. cbn [mbind option_bind] in *.
    injection Hsum as Hsum%Z.eqb_eq. f_equal. apply Z.eqb_neq.
    replace (get_checksum (<[i:=b]> m)) with (get_checksum m); [congruence|].
    apply get_ext; [apply Hm|rewrite (wf_length _ Hm); unfold HEADER_SIZE; lia|].
    symmetry. apply sub_insert_ne. lia.
  - rewrite (calculateCheckSum_ext _ m) by (try done; by rewrite drop_insert_lt by lia).
    destruct (calculateCheckSum m) as [c|]; [|done]. cbn [mbind option_bind] in *.
    injection Hsum as ->%Z.eqb_eq. f_equal. apply Z.eqb_neq.
    destruct (get_checksum_value m Hm) as (x & y & Hx & Hy & ->).
    destruct (get_checksum_value _ Hw) as (x' & y' & Hx' & Hy' & ->).
    assert (Hr : forall j z, m !! j = Some z -> in_u8 z)
      by (intros j z; apply Forall_lookup_1, Hm).
    assert (Hr' : forall j z, <[i:=b]> m !! j = Some z -> in_u8 z)
      by (intros j z; apply Forall_lookup_1, Hw).
    pose proof (Hr _ _ Hx). pose proof (Hr _ _ Hy).
    pose proof (Hr' _ _ Hx'). pose proof (Hr' _ _ Hy').
    assert (i = 10 \/ i = 11)%nat as [-> | ->] by lia.
    + rewrite list_lookup_insert_eq in Hx' by (by apply lookup_lt_Some in Ha).
      rewrite list_lookup_insert_ne in Hy' by lia. simplify_eq. zlia.
    + rewrite list_lookup_insert_eq in Hy' by (by apply lookup_lt_Some in Ha).
      rewrite list_lookup_insert_ne in Hx' by lia. simplify_eq. zlia.
Qed.


(** ** Properties *)

(** A message built by [prepareNetworkMessage] from data of up to 1300
    bytes and transmitted as its first [numberOfBytesToSend] bytes into any
    receive buffer is read back there: every field of the header, the counter
    of 10 steps, the length and the user data are those of the sender, and the
    checksum is accepted. *)
Theorem message_roundtrip (old inMsg : msg) (topicId : Z) (data : list Z) (info : NetMsgInfo.t) :
  wf old -> wf inMsg -> bytes data -> in_u32 topicId -> NetMsgInfo.ok info ->
  (length data <= MAX_NETWORK_MESSAGE_LENGTH)%nat ->
  exists m, prepareNetworkMessage old topicId data (Z.of_nat (length data)) info = Some m /\
    numberOfBytesToSend m = 36 + Z.of_nat (length data) /\
    let r := wire m ++ drop (length (wire m)) inMsg in
    carries r topicId data info /\ get_maxStepsToForward r = 10 /\
    getUserData data (Z.of_nat (length data)) r = Some (data, Z.of_nat (length data)).
Proof.
  intros Hold Hin Hb Ht Hi Hlen.
  destruct (prepare_carries old topicId data (Z.of_nat (length data)) info)
    as (m & Hp & Hm & Hsteps & Hc); try done; [lia|].
  assert (Hmin : min (Z.of_nat (length data)) (Z.of_nat MAX_NETWORK_MESSAGE_LENGTH)
                 = Z.of_nat (length data)).
  { unfold min. destruct (Z.ltb_spec (Z.of_nat (length data)) (Z.of_nat MAX_NETWORK_MESSAGE_LENGTH)); lia. }
  rewrite Hmin, Nat2Z.id, firstn_all in Hc.
  assert (Hok : len_ok m) by (unfold len_ok; rewrite (carries_len _ _ _ _ Hc); lia).
  pose proof (length_wire m Hm Hok) as Hl. rewrite (carries_len _ _ _ _ Hc) in Hl.
  exists m. split; [done|].
  split; [rewrite bytesToSend_ok, (carries_len _ _ _ _ Hc) by done; done|]. intros r.
  assert (Hr : wf r).
  { unfold r. split.
    - rewrite length_app, length_drop, (wf_length _ Hin). unfold MAX_NETWORK_MESSAGE_LENGTH in *. lia.
    - apply Forall_app. split; [apply Forall_take, Hm|apply Forall_drop, Hin]. }
  assert (Hw : take (length (wire m)) r = wire m) by (unfold r; by rewrite take_app_length).
  assert (Hcr : carries r topicId data info) by (by eapply (carries_wire m)).
  split; [done|]. split.
  { rewrite <- Hsteps. apply get_wire; try done. msg_off. }
  unfold getUserData. rewrite (carries_len _ _ _ _ Hcr).
  assert (min (Z.of_nat (length data)) (Z.of_nat (length data)) = Z.of_nat (length data)) as ->
    by (unfold min; by destruct (_ <? _)).
  rewrite Nat2Z.id, memcpy_splice; [|unfold userDataC; rewrite length_drop, (wf_length _ Hr); unfold HEADER_SIZE in *; lia|lia].
  cbn [mbind option_bind]. rewrite (carries_data _ _ _ _ Hcr).
  unfold splice. rewrite drop_ge by (cbn; lia). by rewrite app_nil_r.
Qed.

Lemma message_roundtrip_witness :
  let old := repeat 170 1336 in
  let info := NetMsgInfo.mk 7 0x20001000 123456789 (-1) 0xFFFFFFFF 0 0 in
  exists m, prepareNetworkMessage old 1234 [1; 2; 3; 254] 4 info = Some m /\
    numberOfBytesToSend m = 40 /\
    let r := wire m ++ drop (length (wire m)) old in
    carries r 1234 [1; 2; 3; 254] info /\ get_maxStepsToForward r = 10 /\
    getUserData [1; 2; 3; 254] 4 r = Some ([1; 2; 3; 254], 4).
Proof.
  apply (message_roundtrip (repeat 170 1336) (repeat 170 1336) 1234 [1; 2; 3; 254]
    (NetMsgInfo.mk 7 0x20001000 123456789 (-1) 0xFFFFFFFF 0 0)).
  1,2: split; [reflexivity|apply Forall_forall; intros x Hx;
    apply repeat_spec in Hx || apply list_elem_of_In, repeat_spec in Hx; subst; zlia].
  - solve_bytes.
  - zlia.
  - split; cbn; lia || zlia.
  - unfold MAX_NETWORK_MESSAGE_LENGTH. cbn. lia.
Defined.

End NetworkMessage.
