(* ===== verification/TopicListReport.v ===== *)
(** * Reports of topics (class TopicListReport in
    api/gateway/networkmessage.h)

    A bounded list of topic ids, kept by every gateway and exchanged between
    nodes.  On a report whose count is within the array [find] is membership
    and [add] extends the set, up to 59 entries. *)

From S2P Require Import Prelude ByteStream.

Module TopicListReport.
Import ByteStream.

Definition MAX_SUBSCRIBERS : nat := 60.
Record t := mk {
  numberOfTopics : Z;
  topicList : list Z
}.

(** The array is not initialised. *)
Definition init (l : list Z) : t := mk 0 l.

(** The loop over the first [n] entries; reading behind the array has no
    value. *)
Fixpoint find_loop (l : list Z) (n : nat) (topicId : Z) : option bool :=
  match n with
  | O => Some false
  | S n => match l with
           | [] => None
           | x :: l => if topicId =? x then Some true else find_loop l n topicId
           end
  end.
Definition find (r : t) (topicId : Z) : option bool :=
  find_loop (topicList r) (Z.to_nat (numberOfTopics r)) topicId.

Definition add (r : t) (topicId : Z) : option t :=
  if negb (numberOfTopics r <? Z.of_nat MAX_SUBSCRIBERS - 1) then Some r
  else
    found ← find r topicId;
    if (found : bool) then Some r
    else
      l ← wr (topicList r) (numberOfTopics r) topicId;
      Some (mk (numberOfTopics r + 1) l).

(** [sizeof(long)] depends on the platform. *)
Definition numberOfBytesToSend (sizeofLong : Z) (r : t) : Z :=
  sizeofLong + numberOfTopics r * 4.

(** The structure in memory: a pointer to [userDataC] is cast to a pointer to
    it, so the byte order is that of the host. *)
Fixpoint words (big : bool) (n : nat) (l : list Z) : list Z :=
  match n with
  | O => []
  | S n => host_value big (take 4 l) :: words big n (drop 4 l)
  end.
Definition cast (big : bool) (l : list Z) : t :=
  mk (host_value big (take 4 l)) (words big MAX_SUBSCRIBERS (drop 4 l)).

(** The constructor's and [add]'s range. *)
Record wf (r : t) : Prop := {
  wf_number : 0 <= numberOfTopics r < Z.of_nat MAX_SUBSCRIBERS;
  wf_list : length (topicList r) = MAX_SUBSCRIBERS
}.

(** The topics of the report. *)
Definition topics (r : t) : list Z := take (Z.to_nat (numberOfTopics r)) (topicList r).

(** ** The loops and the set of topics *)

Lemma find_loop_spec l n topicId :
  (n <= length l)%nat ->
  find_loop l n topicId = Some (bool_decide (topicId ∈ take n l)).
Proof.
  revert n. induction l as [|x l IH]; intros [|n] Hn; cbn in Hn; try lia; try done.
  cbn [find_loop take]. destruct (Z.eqb_spec topicId x) as [->|Hne].
  - by rewrite bool_decide_eq_true_2 by apply list_elem_of_here.
  - rewrite IH by lia. f_equal. apply bool_decide_ext. rewrite elem_of_cons. tauto.
Qed.

Lemma find_spec r topicId :
  wf r ->
  find r topicId = Some (bool_decide (topicId ∈ topics r)).
Proof.
  intros [Hn Hl]. unfold find, topics.
  apply find_loop_spec. unfold MAX_SUBSCRIBERS in *. lia.
Qed.

(** [add] extends the set of topics, without duplicates, up to 59 entries. *)
Lemma add_spec r topicId :
  wf r ->
  exists r', add r topicId = Some r' /\ wf r' /\
    topics r' =
      (if decide (numberOfTopics r < 59 /\ topicId ∉ topics r)
       then topics r ++ [topicId] else topics r).
Proof.
  intros Hw. pose proof Hw as [Hn Hl]. unfold MAX_SUBSCRIBERS in *.
  unfold add. change (Z.of_nat MAX_SUBSCRIBERS - 1) with 59.
  destruct (Z.ltb_spec (numberOfTopics r) 59) as [Hlt|Hge]; cbn [negb].
  2: { eexists. split_and!; [done..|]. by rewrite decide_False by lia. }
  rewrite find_spec by done. cbn [mbind option_bind].
  case_bool_decide as Hin.
  { eexists. split_and!; [done..|]. by rewrite decide_False by tauto. }
  rewrite wr_in by lia. cbn [mbind option_bind]. eexists. split; [done|]. split.
  { split; cbn; [unfold MAX_SUBSCRIBERS in *; lia|by rewrite length_insert]. }
  rewrite decide_True by done. unfold topics. cbn [numberOfTopics topicList].
  rewrite Z2Nat.inj_add, Nat.add_1_r by lia.
  erewrite take_S_r by (apply list_lookup_insert_eq; lia).
  by rewrite take_insert_ge by lia.
Qed.

(** A count behind the array, as a message from the network may have it, makes
    the search for an absent topic leave the array. *)
Lemma find_loop_overrun l n topicId :
  (length l < n)%nat -> (topicId ∉ l) -> find_loop l n topicId = None.
Proof.
  revert n. induction l as [|x l IH]; intros [|n] Hn Hin; cbn in Hn; try lia; [done|].
  apply not_elem_of_cons in Hin as [Hne Hin]. cbn [find_loop].
  destruct (Z.eqb_spec topicId x); [done|]. apply IH; [lia|done].
Qed.

Lemma find_overrun r topicId :
  Z.of_nat (length (topicList r)) < numberOfTopics r -> (topicId ∉ topicList r) ->
  find r topicId = None.
Proof. intros Hn. apply find_loop_overrun. lia. Qed.

End TopicListReport.
