(* ===== verification/Topic.v ===== *)
(** * Topics and subscribers (src/independent/topic.cpp, subscriber.cpp,
    listelement.cpp, the distribution of subscribers in main.cpp)

    The publish/subscribe protocol.  [mySubscribers] is the linked list of a
    topic, head first.  What a subscriber does with a message is its virtual
    method [put]; the class [SubscriberPut] is the interface through which
    [publish] calls it, on a world [W] that the subscribers share and on the
    bytes of the message, which a subscriber may change.  The module
    [Gateway] implements it for gateways and routers. *)

From S2P Require Import Prelude Checksums ByteStream NetworkMessage.

Module Topic.
Import NetworkMessage.

Definition FIRST_USER_TOPIC_ID : Z := 1000.
Definition ALL_TOPICS_BELOW_THIS_ARE_BROADCAST : Z := 10.
Definition TOPIC_ID_FOR_TOPICLIST_DISTRIBUTION : Z := 1.
Definition udpAsyncTopicID : Z := 22582.

(** ** The endianness of the host ([ByteSexDetector] in main.cpp)

    A [long] of [sizeofLong] bytes holds 1; byte 3 is looked at. *)
Definition detectBigEndian (big : bool) (sizeofLong : nat) : bool :=
  bool_decide (ByteStream.host_bytes big sizeofLong 1 !! 3%nat = Some 1).

Section Topic.
Context {K : Type}.

(** A subscriber: [home] designates the topic of its constructor and [kind]
    its class with the receiver. *)
Record Subscriber := mkSub {
  home : Z;
  isAGateway : bool;
  isEnabled : bool;
  kind : K
}.

(** [tref] identifies the topic object. *)
Record TopicInterface := mkTopic {
  tref : Z;
  topicId : Z;
  msgLen : Z;
  onlyLocal : bool;
  topicFilter : option Z;
  receiverNodesBitMap : Z;
  mySubscribers : list Subscriber
}.

Definition set_bitMap (b : Z) (t : TopicInterface) : TopicInterface :=
  mkTopic (tref t) (topicId t) (msgLen t) (onlyLocal t) (topicFilter t) b (mySubscribers t).
Definition set_subscribers (l : list Subscriber) (t : TopicInterface) : TopicInterface :=
  mkTopic (tref t) (topicId t) (msgLen t) (onlyLocal t) (topicFilter t)
    (receiverNodesBitMap t) l.

(** ** Construction *)

(** [ListElement::append]: the element becomes the head. *)
Definition append {A} (e : A) (l : list A) : list A := e :: l.

(** The constructors of [Subscriber]. *)
Definition newSubscriber (topic : Z) (isAGatewayParam : bool) (k : K) : Subscriber :=
  mkSub topic isAGatewayParam true k.
Definition enable (onOff : bool) (s : Subscriber) : Subscriber :=
  mkSub (home s) (isAGateway s) onOff (kind s).
Definition isGateway (s : Subscriber) : bool := isAGateway s.

(** The topic id of the constructor [TopicInterface]: the hash of the name
    when none is given. *)
Definition chooseTopicId (id : Z) (name : list Z) : Z :=
  if id =? -1 then
    let topicId := Checksums.hash name in
    if topicId <? FIRST_USER_TOPIC_ID then u32 (topicId + FIRST_USER_TOPIC_ID) else topicId
  else u32 id.

(** The new topic is the head of [topicList]; the result also tells how many
    duplicates the constructor reports. *)
Definition newTopic (topicList : list TopicInterface) (ref id len : Z) (name : list Z)
    (_onlyLocal : bool) : list TopicInterface * nat :=
  let topicId' := chooseTopicId id name in
  let bitMap := if topicId' <? ALL_TOPICS_BELOW_THIS_ARE_BROADCAST then 0xFFFFFFFF else 0 in
  let t := mkTopic ref topicId' len _onlyLocal None bitMap [] in
  let topicList := append t topicList in
  let duplicates :=
    filter (fun iter => topicId iter <> udpAsyncTopicID /\ topicId iter = topicId' /\ tref iter <> ref)
           topicList in
  (topicList, length duplicates).

(** [setTopicFilter]; a second filter is reported and replaces the first. *)
Definition setTopicFilter (filter : Z) (t : TopicInterface) : TopicInterface :=
  mkTopic (tref t) (topicId t) (msgLen t) (onlyLocal t) (Some filter)
    (receiverNodesBitMap t) (mySubscribers t).

Definition findTopicId (topicList : list TopicInterface) (wantedTopicId : Z)
    : option TopicInterface :=
  List.find (fun iter => topicId iter =? wantedTopicId) topicList.

(** [initSystem]: every subscriber of the global list is appended to the list
    of its topic, a gateway to that of [defaultGatewayTopic]. *)
Definition appendTo (ref : Z) (s : Subscriber) (topics : list TopicInterface)
    : list TopicInterface :=
  map (fun t => if tref t =? ref then set_subscribers (append s (mySubscribers t)) t else t)
      topics.
Definition destination (defaultGatewayTopic : Z) (s : Subscriber) : Z :=
  if isAGateway s then defaultGatewayTopic else home s.
Definition distributeSubscribers (defaultGatewayTopic : Z) (subscriberList : list Subscriber)
    (topics : list TopicInterface) : list TopicInterface :=
  fold_left (fun topics iter => appendTo (destination defaultGatewayTopic iter) iter topics)
            subscriberList topics.

(** ** The receivers of a topic *)

(** The loop of [receiverNodesBitMap2Index] from bit [index] on. *)
Fixpoint bitMap_loop (fuel : nat) (bitmap index indexFound : Z) : option Z :=
  if bitmap =? 0 then Some indexFound
  else
    match fuel with
    | O => None
    | S fuel =>
        if negb (Z.land bitmap 0x01 =? 0) then
          if negb (indexFound =? -2) then Some (-1)
          else bitMap_loop fuel (Z.shiftr bitmap 1) (index + 1) index
        else bitMap_loop fuel (Z.shiftr bitmap 1) (index + 1) indexFound
    end.
Definition receiverNodesBitMap2Index (fuel : nat) (t : TopicInterface)
    : option (Z * TopicInterface) :=
  if topicId t <? ALL_TOPICS_BELOW_THIS_ARE_BROADCAST then
    Some (-1, set_bitMap 0xFFFFFFFF t)
  else
    i ← bitMap_loop fuel (receiverNodesBitMap t) 0 (-2); Some (i, t).
End Topic.

Arguments Subscriber : clear implicits.
Arguments TopicInterface : clear implicits.

(** ** Publishing *)

(** The virtual methods of subscribers and filters; [put] returns the number
    of receivers, and has no result when it touches memory outside the
    message. *)
Class SubscriberPut (K W : Type) := {
  subscriber_put : Subscriber K -> Z -> Z -> NetMsgInfo.t -> list Z * W ->
    option (Z * (list Z * W));
  subscriber_putFromInterrupt : Subscriber K -> Z -> Z -> list Z * W -> option (list Z * W);
  filter_prolog : Z -> Z -> Z -> NetMsgInfo.t -> list Z * W -> list Z * W;
  filter_epilog : Z -> Z -> Z -> NetMsgInfo.t -> list Z * W -> list Z * W
}.

Section Publish.
Context {K W : Type} `{SubscriberPut K W}.

(** [ITERATE_LIST] over subscribers; [all] is set when disabled ones are
    called too. *)
Fixpoint distribute (all : bool) (subs : list (Subscriber K)) (topicId len : Z)
    (info : NetMsgInfo.t) (cnt : Z) (dw : list Z * W) : option (Z * (list Z * W)) :=
  match subs with
  | [] => Some (cnt, dw)
  | iter :: subs =>
      if all || isEnabled iter then
        '(n, dw) ← subscriber_put iter topicId len info dw;
        distribute all subs topicId len info (u32 (cnt + n)) dw
      else distribute all subs topicId len info cnt dw
  end.

Definition bitMap_fuel : nat := 32.

(** [localmsgInfo] is the initialised local variable that is used when the
    caller gives no information; the updated information is returned. *)
Definition publishMsgPart (gateways : list (Subscriber K)) (t : TopicInterface K)
    (lenToSend : Z) (shallSendToNetwork : bool) (localmsgInfo : NetMsgInfo.t)
    (netMsgInfo : option NetMsgInfo.t) (dw : list Z * W)
    : option (Z * TopicInterface K * NetMsgInfo.t * (list Z * W)) :=
  let netMsgInfo := default localmsgInfo netMsgInfo in
  let dw := match topicFilter t with
            | Some f => filter_prolog f (topicId t) lenToSend netMsgInfo dw
            | None => dw
            end in
  '(cnt, dw) ← distribute false (mySubscribers t) (topicId t) lenToSend netMsgInfo 0 dw;
  let dw := match topicFilter t with
            | Some f => filter_epilog f (topicId t) lenToSend netMsgInfo dw
            | None => dw
            end in
  if onlyLocal t then Some (cnt, t, netMsgInfo, dw)
  else if negb shallSendToNetwork then Some (cnt, t, netMsgInfo, dw)
  else
    '(node, t) ← receiverNodesBitMap2Index bitMap_fuel t;
    let netMsgInfo := NetMsgInfo.set_receiver node (receiverNodesBitMap t) netMsgInfo in
    '(cnt, dw) ← distribute true gateways (topicId t) lenToSend netMsgInfo cnt dw;
    Some (cnt, t, netMsgInfo, dw).

Definition publish (gateways : list (Subscriber K)) (t : TopicInterface K)
    (shallSendToNetwork : bool) (localmsgInfo : NetMsgInfo.t)
    (netMsgInfo : option NetMsgInfo.t) (dw : list Z * W) :=
  publishMsgPart gateways t (msgLen t) shallSendToNetwork localmsgInfo netMsgInfo dw.

Fixpoint publishFromInterrupt (subs : list (Subscriber K)) (topicId len : Z)
    (dw : list Z * W) : option (list Z * W) :=
  match subs with
  | [] => Some dw
  | iter :: subs =>
      dw ← subscriber_putFromInterrupt iter topicId len dw;
      publishFromInterrupt subs topicId len dw
  end.
End Publish.

(** ** Lemmas *)

Section Lists.
Context {K : Type}.

Lemma appendTo_lookup ref (s : Subscriber K) topics i t :
  topics !! i = Some t ->
  appendTo ref s topics !! i =
    Some (if tref t =? ref then set_subscribers (append s (mySubscribers t)) t else t).
Proof. intros Hi. unfold appendTo. by rewrite list_lookup_fmap, Hi. Qed.

(** The subscribers that belong to the topic [ref]. *)
Definition assigned (defaultGatewayTopic ref : Z) (subscriberList : list (Subscriber K))
    : list (Subscriber K) :=
  filter (fun s => destination defaultGatewayTopic s = ref) subscriberList.

Lemma distribute_lookup dg (l : list (Subscriber K)) topics i t :
  topics !! i = Some t ->
  distributeSubscribers dg l topics !! i =
    Some (set_subscribers (rev (assigned dg (tref t) l) ++ mySubscribers t) t).
Proof.
  revert topics t. induction l as [|s l IH]; intros topics t Hi.
  { cbn. rewrite Hi. by destruct t. }
  cbn [distributeSubscribers fold_left].
  eapply (appendTo_lookup (destination dg s) s) in Hi.
  unfold distributeSubscribers in IH. rewrite (IH _ _ Hi). f_equal.
  unfold assigned. rewrite filter_cons.
  destruct (Z.eqb_spec (tref t) (destination dg s)) as [He|He].
  - rewrite decide_True by done. cbn [rev]. rewrite <- app_assoc. by destruct t.
  - rewrite decide_False by done. by destruct t.
Qed.
End Lists.

Section Distribute.
Context {K W : Type} `{SubscriberPut K W}.

(** The disabled subscribers are skipped. *)
Lemma distribute_enabled subs topicId len info cnt dw :
  distribute false subs topicId len info cnt dw =
  distribute true (filter (fun s => isEnabled s = true) subs) topicId len info cnt dw.
Proof.
  revert cnt dw. induction subs as [|s subs IH]; intros cnt dw; [done|].
  rewrite filter_cons. cbn [distribute orb]. destruct (isEnabled s).
  - rewrite decide_True by done. cbn [distribute orb].
    destruct (subscriber_put _ _ _ _ _) as [[n dw']|]; [apply IH|done].
  - by rewrite decide_False by done.
Qed.
End Distribute.

(** ** The index of the only receiver *)

Lemma shiftr_1 x : Z.shiftr x 1 = x / 2.
Proof. rewrite Z.shiftr_div_pow2 by lia. done. Qed.

Lemma testbit_half x i : 0 <= i -> Z.testbit (Z.shiftr x 1) i = Z.testbit x (i + 1).
Proof. intros Hi. by rewrite Z.shiftr_spec by lia. Qed.

Lemma land_1 x : Z.land x 1 = x mod 2.
Proof. apply (Z.land_ones x 1). lia. Qed.

Lemma testbit_0_odd x : x mod 2 = 1 -> Z.testbit x 0 = true.
Proof. intros H. rewrite Z.bit0_odd, Zodd_mod, H. done. Qed.

(** The outcome of the loop on the bits [x] from [idx] on. *)
Inductive bitMap_result (n : nat) (x idx found : Z) : Z -> Prop :=
  | BitMapEmpty : x = 0 -> bitMap_result n x idx found found
  | BitMapSecond : x <> 0 -> found <> -2 -> bitMap_result n x idx found (-1)
  | BitMapOne i : found = -2 -> 0 <= i < Z.of_nat n -> x = 2 ^ i ->
      bitMap_result n x idx found (idx + i)
  | BitMapTwo i j : found = -2 -> 0 <= i < j -> j < Z.of_nat n ->
      Z.testbit x i = true -> Z.testbit x j = true -> bitMap_result n x idx found (-1).

Lemma nonzero_testbit n x :
  0 <= x < 2 ^ Z.of_nat n -> x <> 0 -> exists i, 0 <= i < Z.of_nat n /\ Z.testbit x i = true.
Proof.
  intros Hx Hne. exists (Z.log2 x). rewrite Z.bit_log2 by lia. split; [|done].
  split; [apply Z.log2_nonneg|apply Z.log2_lt_pow2; lia].
Qed.

Lemma bitMap_loop_spec n x idx found :
  0 <= x < 2 ^ Z.of_nat n -> 0 <= idx -> (found = -2 \/ 0 <= found) ->
  exists r, bitMap_loop n x idx found = Some r /\ bitMap_result n x idx found r.
Proof.
  revert x idx found. induction n as [|n IH]; intros x idx found Hx Hi Hf.
  { cbn in Hx. assert (x = 0) as -> by lia. exists found. split; [done|by apply BitMapEmpty]. }
  cbn [bitMap_loop]. destruct (Z.eqb_spec x 0) as [->|Hne]; [exists found; split; [done|by apply BitMapEmpty]|].
  rewrite land_1. rewrite Nat2Z.inj_succ, Z.pow_succ_r in Hx by lia.
  assert (Hy : 0 <= Z.shiftr x 1 < 2 ^ Z.of_nat n) by (rewrite shiftr_1; Z.div_mod_to_equations; lia).
  destruct (Z.eqb_spec (x mod 2) 0) as [He|Ho]; cbn [negb].
  - destruct (IH (Z.shiftr x 1) (idx + 1) found Hy ltac:(lia) Hf) as (r & -> & Hr).
    exists r. split; [done|].
    destruct Hr as [Hz|Hz Hfound|i Hfound Hin Hpow|i j Hfound Hij Hj Hbi Hbj].
    + rewrite shiftr_1 in Hz. Z.div_mod_to_equations. lia.
    + by apply BitMapSecond.
    + replace (idx + 1 + i) with (idx + (i + 1)) by lia. apply BitMapOne; [done|lia|].
      rewrite Z.pow_add_r, <- Hpow, shiftr_1 by lia. Z.div_mod_to_equations. lia.
    + rewrite testbit_half in Hbi, Hbj by lia.
      by apply (BitMapTwo _ _ _ _ (i + 1) (j + 1)); try lia.
  - assert (Hodd : x mod 2 = 1) by (Z.div_mod_to_equations; lia).
    destruct (Z.eqb_spec found (-2)) as [->|Hfne]; cbn [negb].
    2: { exists (-1). split; [done|by apply BitMapSecond]. }
    destruct (IH (Z.shiftr x 1) (idx + 1) idx Hy ltac:(lia) ltac:(lia)) as (r & -> & Hr).
    exists r. split; [done|].
    destruct Hr as [Hz|Hz Hfound|i Hfound|i j Hfound]; [| |lia..].
    + replace idx with (idx + 0) at 2 by lia. apply BitMapOne; [done|lia|].
      rewrite shiftr_1 in Hz. change (2 ^ 0) with 1. Z.div_mod_to_equations. lia.
    + destruct (nonzero_testbit n _ Hy Hz) as (i & Hin & Hb). rewrite testbit_half in Hb by lia.
      apply (BitMapTwo _ _ _ _ 0 (i + 1)); try lia; [by apply testbit_0_odd|done].
Qed.

(** ** Properties *)

(** The loop of [receiverNodesBitMap2Index] ends on every bitmap, after at
    most 32 rounds, and tells the number of receivers: -2 when no node has a
    subscriber, the index of the node when there is exactly one, -1 for
    broadcast when there are two or more or when the topic is reserved for
    broadcast; the bitmap of a reserved topic is set to all nodes, any other
    is unchanged. *)
Theorem bitmap_index_receivers {K} (t : TopicInterface K) :
  in_u32 (receiverNodesBitMap t) ->
  let b := receiverNodesBitMap t in
  exists r t', receiverNodesBitMap2Index bitMap_fuel t = Some (r, t') /\
    ((topicId t < 10 /\ r = -1 /\ t' = set_bitMap 0xFFFFFFFF t) \/
     (10 <= topicId t /\ t' = t /\
       ((b = 0 /\ r = -2) \/ (0 <= r < 32 /\ b = 2 ^ r) \/
        (r = -1 /\ exists i j, 0 <= i < j /\ j < 32 /\ Z.testbit b i = true /\ Z.testbit b j = true)))).
Proof.
  intros Hb b. unfold receiverNodesBitMap2Index, ALL_TOPICS_BELOW_THIS_ARE_BROADCAST.
  destruct (Z.ltb_spec (topicId t) 10) as [Hlt|Hge].
  { do 2 eexists. split; [done|]. by left. }
  destruct (bitMap_loop_spec bitMap_fuel b 0 (-2) Hb ltac:(lia) ltac:(auto)) as (r & Hl & Hr).
  fold b. rewrite Hl. cbn [mbind option_bind]. do 2 eexists. split; [done|]. right.
  split_and!; [done..|].
  destruct Hr as [Hz|? Hf|i Hf Hi Hp|i j Hf Hij Hj Hbi Hbj];
    try change (Z.of_nat bitMap_fuel) with 32 in *; [by left|done| |].
  - right. left. by rewrite Z.add_0_l.
  - right. right. split; [done|]. by exists i, j.
Qed.

Lemma bitmap_index_receivers_witness :
  exists r t', receiverNodesBitMap2Index bitMap_fuel
      (mkTopic 1 1000 4 false None 0x10 [] : TopicInterface unit) = Some (r, t') /\ r = 4.
Proof.
  destruct (bitmap_index_receivers (mkTopic 1 1000 4 false None 0x10 [] : TopicInterface unit)
    ltac:(cbn; zlia)) as (r & t' & H & _).
  exists r, t'. split; [exact H|]. vm_compute in H. by injection H as <- _.
Defined.

(** When the subscribers have been distributed at the start of the system,
    every topic lists exactly the subscribers that were created for it (the
    default gateway topic also every gateway), each once and in the order of
    their creation, although both lists are built by inserting at the head. *)
Theorem initSystem_subscribers {K} (defaultGatewayTopic : Z) (created : list (Subscriber K))
    (topics : list (TopicInterface K)) (i : nat) (t : TopicInterface K) :
  Forall (fun t => mySubscribers t = []) topics -> topics !! i = Some t ->
  let subscriberList := fold_left (fun l s => append s l) created [] in
  exists t', distributeSubscribers defaultGatewayTopic subscriberList topics !! i = Some t' /\
    mySubscribers t' =
      filter (fun s => (if isAGateway s then defaultGatewayTopic else home s) = tref t) created.
Proof.
  intros Hempty Hi subscriberList.
  assert (subscriberList = rev created) as ->.
  { unfold subscriberList. rewrite <- (app_nil_r (rev created)). generalize (@nil (Subscriber K)).
    induction created as [|s l IH]; intros acc; [done|]. cbn. by rewrite IH, <- app_assoc. }
  rewrite (distribute_lookup _ _ _ _ _ Hi). eexists. split; [done|]. cbn.
  rewrite (Forall_lookup_1 _ _ _ _ Hempty Hi), app_nil_r. unfold assigned.
  rewrite <- (rev_involutive created) at 2. generalize (rev created). intros l.
  induction l as [|s l IH]; [done|]. rewrite filter_cons. cbn [rev]. rewrite filter_app, <- IH.
  unfold destination. rewrite filter_cons, filter_nil.
  destruct (isAGateway s); case_decide; cbn [rev]; by rewrite ?app_nil_r.
Qed.

Lemma initSystem_subscribers_witness :
  let g := mkSub 5 true true tt in let a := mkSub 6 false true tt in
  let b := mkSub 6 false false tt in
  let topics := [mkTopic 6 1000 4 false None 0 []; mkTopic 5 0 24 false None 0xFFFFFFFF []] in
  exists t', distributeSubscribers 5 (fold_left (fun l s => append s l) [a; g; b] []) topics !! 0%nat
      = Some t' /\ mySubscribers t' = [a; b].
Proof.
  exact (initSystem_subscribers 5
    [mkSub 6 false true tt; mkSub 5 true true tt; mkSub 6 false false tt]
    [mkTopic 6 1000 4 false None 0 []; mkTopic 5 0 24 false None 0xFFFFFFFF []] 0 _
    ltac:(repeat constructor) eq_refl).
Defined.

(** The test of the endianness is right where [long] has four bytes, and on
    every little-endian host; with a [long] of eight bytes a big-endian host is
    taken for a little-endian one. *)
Lemma detectBigEndian_long4 big : detectBigEndian big 4 = big.
Proof. by destruct big. Qed.
Lemma detectBigEndian_long8 big : detectBigEndian big 8 = false.
Proof. by destruct big. Qed.

End Topic.
