(* ===== verification/Gateway.v ===== *)
(** * Gateway and router (src/independent/gateway/gateway.cpp, router.cpp)

    A node with its gateways, routers and topics.  Gateways and routers are
    subscribers, so the node implements the interface [SubscriberPut] of
    [Topic].  The code of the application that a message reaches is a
    parameter: what it writes into the message; that it was called, with what
    bytes, is an event of the trace, and so is a message handed to a link.
    [None] is a behaviour without a meaning: an access outside an array, a
    signed overflow, or a thread that waits for ever on a semaphore that is
    never released. *)

From S2P Require Import Prelude ByteStream TimeEvents NetworkMessage TopicListReport Topic.
From stdpp Require Import gmap relations.
#[local] Open Scope Z_scope.

Module Gateway.
Import ByteStream TimeEvents.TimeModel NetworkMessage Topic.

Definition MAX_NUMBER_OF_NODES : Z := 10.
Definition MAX_NUMBER_OF_GATEWAYS_PER_ROUTER : nat := 8.

(** ** The state of a node *)

Inductive putter := UserPutter (p : Z) | RouterPutter (r : nat).

(** The classes of subscribers: [Subscriber] with its receiver,
    [SubscriberReceiver] with its function, [Gateway] and [Router]. *)
Inductive sub_kind :=
  | PlainSubscriber (receiver : option putter)
  | SubscriberReceiver (receiverFunc : option Z)
  | GatewaySubscriber (g : nat)
  | RouterSubscriber (r : nat).

Record SeenNode := mkSeen { nodeID : Z; lastMsgTime : Z }.

Record gateway := mkGateway {
  linkIdentifier : Z;
  isBroadcastLink : bool;
  forwardAll : bool;
  externalsubscribers : TopicListReport.t;
  getTopicsToForwardFromOutside : bool;
  networkOutMessage : msg;
  networkInMessage : msg
}.

(** [gateways] are the eight pointers of the array, [None] is NULL. *)
Record router := mkRouter {
  gateways : list (option nat);
  numberOfGateways : Z;
  forwardTopicReports : bool;
  localMessage : msg
}.

Inductive event :=
  | Received (p : Z) (topicId len : Z) (data : list Z) (info : NetMsgInfo.t)
  | Sent (g : nat) (m : msg).

(** [seenNodes] are the entries below [numberOfNodes]; [protector] is the
    owner of [seenNodesProtector] and the number of its unmatched [enter]. *)
Record node := mkNode {
  myNodeNr : Z;
  gws : list gateway;
  routers : list router;
  seenNodes : list SeenNode;
  protector : option (Z * Z);
  numberOfReceivedMsgsFromNetwork : Z;
  topicList : list (TopicInterface sub_kind);
  trace : list event
}.

Definition set_gws (l : list gateway) (n : node) : node :=
  mkNode (myNodeNr n) l (routers n) (seenNodes n) (protector n)
    (numberOfReceivedMsgsFromNetwork n) (topicList n) (trace n).
Definition set_routers (l : list router) (n : node) : node :=
  mkNode (myNodeNr n) (gws n) l (seenNodes n) (protector n)
    (numberOfReceivedMsgsFromNetwork n) (topicList n) (trace n).
Definition set_seen (l : list SeenNode) (n : node) : node :=
  mkNode (myNodeNr n) (gws n) (routers n) l (protector n)
    (numberOfReceivedMsgsFromNetwork n) (topicList n) (trace n).
Definition set_protector (p : option (Z * Z)) (n : node) : node :=
  mkNode (myNodeNr n) (gws n) (routers n) (seenNodes n) p
    (numberOfReceivedMsgsFromNetwork n) (topicList n) (trace n).
Definition count_received (n : node) : node :=
  mkNode (myNodeNr n) (gws n) (routers n) (seenNodes n) (protector n)
    (numberOfReceivedMsgsFromNetwork n + 1) (topicList n) (trace n).
Definition emit (e : event) (n : node) : node :=
  mkNode (myNodeNr n) (gws n) (routers n) (seenNodes n) (protector n)
    (numberOfReceivedMsgsFromNetwork n) (topicList n) (trace n ++ [e]).

Definition set_inMessage (m : msg) (g : gateway) : gateway :=
  mkGateway (linkIdentifier g) (isBroadcastLink g) (forwardAll g) (externalsubscribers g)
    (getTopicsToForwardFromOutside g) (networkOutMessage g) m.
Definition set_outMessage (m : msg) (g : gateway) : gateway :=
  mkGateway (linkIdentifier g) (isBroadcastLink g) (forwardAll g) (externalsubscribers g)
    (getTopicsToForwardFromOutside g) m (networkInMessage g).
Definition set_topics (r : TopicListReport.t) (fromOutside : bool) (g : gateway) : gateway :=
  mkGateway (linkIdentifier g) (isBroadcastLink g) (forwardAll g) r
    fromOutside (networkOutMessage g) (networkInMessage g).
Definition on_gw (i : nat) (f : gateway -> gateway) (n : node) : node :=
  set_gws (alter f i (gws n)) n.

(** ** Transmission *)

(** The constructor [Gateway]. *)
Definition newGateway (linkId : Z) (broadcast forwardall : bool) (array : list Z)
    (out inm : msg) : gateway :=
  mkGateway linkId broadcast forwardall (TopicListReport.init array) true out inm.

Definition sendNetworkMessage (g : nat) (m : msg) (n : node) : node := emit (Sent g m) n.

Definition Gateway_put (g : nat) (enabled : bool) (topicId len : Z) (info : NetMsgInfo.t)
    (data : list Z) (n : node) : option (Z * node) :=
  if negb enabled then Some (0, n)
  else
    gw ← gws n !! g;
    wanted ← (if negb (forwardAll gw) then
                if negb (topicId =? 0) then TopicListReport.find (externalsubscribers gw) topicId
                else Some true
              else Some true);
    if negb (wanted : bool) then Some (0, n)
    else
      m ← prepareNetworkMessage (networkOutMessage gw) topicId data len info;
      Some (1, sendNetworkMessage g m (on_gw g (set_outMessage m) n)).

(** ** The lists of topics to forward *)

Fixpoint add_loop (r : TopicListReport.t) (l : list Z) (n : nat) : option TopicListReport.t :=
  match n with
  | O => Some r
  | S n => match l with
           | [] => None
           | t :: l => r ← TopicListReport.add r t; add_loop r l n
           end
  end.

Definition setTopicsToForward (topicList : TopicListReport.t) (g : gateway) : gateway :=
  set_topics topicList false g.
Definition addTopicsToForward (topicsWanted : TopicListReport.t) (g : gateway)
    : option gateway :=
  r ← add_loop (externalsubscribers g) (TopicListReport.topicList topicsWanted)
        (Z.to_nat (TopicListReport.numberOfTopics topicsWanted));
  Some (set_topics r false g).
(** The overload with up to four topics; a pointer after the first may be
    NULL. *)
Definition add_opt (t : option Z) (r : TopicListReport.t) : option TopicListReport.t :=
  match t with Some t => TopicListReport.add r t | None => Some r end.
Definition addTopicsToForward4 (topicId1 : Z) (topicId2 topicId3 topicId4 : option Z)
    (g : gateway) : option gateway :=
  r ← TopicListReport.add (externalsubscribers g) topicId1;
  r ← add_opt topicId2 r; r ← add_opt topicId3 r; r ← add_opt topicId4 r;
  Some (set_topics r false g).
Definition resetTopicsToForward (g : gateway) : gateway :=
  set_topics (TopicListReport.init (TopicListReport.topicList (externalsubscribers g))) false g.
Definition shouldTopicForwarded (topicId : Z) (g : gateway) : option bool :=
  if forwardAll g then Some true else TopicListReport.find (externalsubscribers g) topicId.

(** ** The router *)

Definition newRouter (forwardTopicReports_ : bool) (g1 g2 g3 g4 : option nat)
    (rest : list (option nat)) (local : msg) : router :=
  let not0 (g : option nat) := match g with Some _ => 1 | None => 0 end in
  mkRouter (g1 :: g2 :: g3 :: g4 :: rest)
    (u8 (not0 g1 + not0 g2 + not0 g3 + not0 g4)) forwardTopicReports_ local.

Definition addGateway (gateway : option nat) (r : router) : option router :=
  l ← wr (gateways r) (numberOfGateways r) gateway;
  let n := u8 (numberOfGateways r + 1) in
  Some (mkRouter l
    (if Z.of_nat MAX_NUMBER_OF_GATEWAYS_PER_ROUTER <? n then u8 (n - 1) else n)
    (forwardTopicReports r) (localMessage r)).

Definition shouldRouteThisMsg (m : msg) (r : router) : bool :=
  if get_maxStepsToForward m <=? 0 then false
  else if (get_topicId m =? 0) && negb (forwardTopicReports r) then false
  else true.

Definition shouldRouteThisMsgToGateway (m : msg) (linkid : Z) (g : gateway) : option bool :=
  if linkIdentifier g =? linkid then Some false
  else shouldTopicForwarded (get_topicId m) g.

(** The loop of [routeMsg] over the first [cnt] pointers. *)
Fixpoint route_loop (m : msg) (linkid : Z) (l : list (option nat)) (cnt : nat) (n : node)
    {struct cnt} : option node :=
  match cnt with
  | O => Some n
  | S cnt =>
      match l with
      | Some i :: l =>
          gw ← gws n !! i;
          b ← shouldRouteThisMsgToGateway m linkid gw;
          route_loop m linkid l cnt (if (b : bool) then sendNetworkMessage i m n else n)
      | _ => None
      end
  end.

Definition routeMsg (r : router) (m : msg) (linkid : Z) (n : node) : option (msg * node) :=
  if shouldRouteThisMsg m r then
    m ← setCheckSum m;
    n ← route_loop m linkid (gateways r) (Z.to_nat (numberOfGateways r)) n;
    Some (m, n)
  else Some (m, n).

(** [Router::put]: the data is the message of the gateway, routed in place. *)
Definition Router_put (i : nat) (info : NetMsgInfo.t) (dw : list Z * node)
    : option (Z * (list Z * node)) :=
  r ← routers dw.2 !! i;
  dw ← routeMsg r dw.1 (NetMsgInfo.linkId info) dw.2;
  Some (1, dw).

Definition Router_putGeneric (i : nat) (topicId len : Z) (info : NetMsgInfo.t) (data : list Z)
    (n : node) : option node :=
  r ← routers n !! i;
  m ← prepareNetworkMessage (localMessage r) topicId data len info;
  '(m, n) ← routeMsg r m LINK_ID_RODOS_LOCAL_BROADCAST n;
  Some (set_routers (<[i := mkRouter (gateways r) (numberOfGateways r)
                              (forwardTopicReports r) m]> (routers n)) n).

(** ** The subscribers of a node *)

Section Node.
(** What the receivers and filters of the application write into a message. *)
Context (receive : Z -> Z -> Z -> NetMsgInfo.t -> list Z -> list Z).
Context (prolog epilog : Z -> Z -> Z -> NetMsgInfo.t -> list Z -> list Z).

Definition call_user (p topicId len : Z) (info : NetMsgInfo.t) (dw : list Z * node)
    : list Z * node :=
  (receive p topicId len info dw.1, emit (Received p topicId len dw.1 info) dw.2).

Definition putGeneric (p : putter) (topicId len : Z) (info : NetMsgInfo.t)
    (dw : list Z * node) : option (list Z * node) :=
  match p with
  | UserPutter p => Some (call_user p topicId len info dw)
  | RouterPutter r =>
      n ← Router_putGeneric r topicId len info dw.1 dw.2; Some (dw.1, n)
  end.

(** The virtual method [put] (the method of [Subscriber] in subscriber.cpp,
    that of [SubscriberReceiver] in subscriber.h). *)
Definition node_put (s : Subscriber sub_kind) (topicId len : Z) (info : NetMsgInfo.t)
    (dw : list Z * node) : option (Z * (list Z * node)) :=
  match kind s with
  | PlainSubscriber receiver =>
      if negb (isEnabled s) then Some (0, dw)
      else match receiver with
           | Some p => dw ← putGeneric p topicId len info dw; Some (1, dw)
           | None => Some (0, dw)
           end
  | SubscriberReceiver f =>
      Some (1, match f with Some p => call_user p topicId len info dw | None => dw end)
  | GatewaySubscriber g =>
      '(c, n) ← Gateway_put g (isEnabled s) topicId len info dw.1 dw.2; Some (c, (dw.1, n))
  | RouterSubscriber r => Router_put r info dw
  end.

(** [putFromInterrupt]: only the base class has one; it asks neither for
    [isEnabled] nor for the semaphore. *)
Definition node_putFromInterrupt (dummy : NetMsgInfo.t) (s : Subscriber sub_kind)
    (topicId len : Z) (dw : list Z * node) : option (list Z * node) :=
  match kind s with
  | PlainSubscriber (Some p) => putGeneric p topicId len dummy dw
  | _ => Some dw
  end.

#[local] Instance node_subscribers (dummy : NetMsgInfo.t) : SubscriberPut sub_kind node := {
  subscriber_put := node_put;
  subscriber_putFromInterrupt := node_putFromInterrupt dummy;
  filter_prolog f topicId len info dw := (prolog f topicId len info dw.1, dw.2);
  filter_epilog f topicId len info dw := (epilog f topicId len info dw.1, dw.2)
}.

(** ** Reception *)

(** [enter] and [leave] of [seenNodesProtector] by the thread [self]. *)
Definition enter_seen (self : Z) (n : node) : option node :=
  match protector n with
  | None => Some (set_protector (Some (self, 1)) n)
  | Some (o, c) => if o =? self then Some (set_protector (Some (o, c + 1)) n) else None
  end.
Definition leave_seen (self : Z) (n : node) : node :=
  match protector n with
  | Some (o, c) =>
      if o =? self then set_protector (if c =? 1 then None else Some (o, c - 1)) n else n
  | None => n
  end.

(** The index of the entry of a node. *)
Definition find_seen (id : Z) (l : list SeenNode) : option nat :=
  fst <$> list_find (fun s => nodeID s = id) l.

(** The comparison at the end of [messageSeen], on entry [i]. *)
Definition decide_seen (self : Z) (i : nat) (last : Z) (m : msg) (n : node)
    : option (bool * node) :=
  let msgSentTime := get_sentTime m in
  let stored :=
    set_seen (alter (fun s => mkSeen (nodeID s) msgSentTime) i (seenNodes n)) n in
  if msgSentTime <=? last then
    d ← i64 (last - msgSentTime);
    if 5 * SECONDS <? d then Some (false, leave_seen self stored)
    else Some (true, leave_seen self n)
  else Some (false, leave_seen self stored).

(** A failed assertion returns without leaving the semaphore. *)
Definition messageSeen (self : Z) (m : msg) (n : node) : option (bool * node) :=
  n ← enter_seen self n;
  match find_seen (get_senderNode m) (seenNodes n) with
  | None =>
      if negb (Z.of_nat (length (seenNodes n)) <? MAX_NUMBER_OF_NODES) then Some (false, n)
      else
        last ← i64 (get_sentTime m - 1);
        let n := set_seen (seenNodes n ++ [mkSeen (get_senderNode m) last]) n in
        decide_seen self (length (seenNodes n) - 1) last m n
  | Some i =>
      s ← seenNodes n !! i;
      decide_seen self i (lastMsgTime s) m n
  end.

(** ** Publishing on a node *)

(** The objects [defaultGatewayTopic] and [defaultRouterTopic]. *)
Definition DEFAULT_GATEWAY_TOPIC : Z := 0.
Definition DEFAULT_ROUTER_TOPIC : Z := 1.

Definition topic_object (ref : Z) (n : node) : option (TopicInterface sub_kind) :=
  List.find (fun t => tref t =? ref) (topicList n).
Definition gatewaySubscribers (n : node) : list (Subscriber sub_kind) :=
  match topic_object DEFAULT_GATEWAY_TOPIC n with Some t => mySubscribers t | None => [] end.

Definition store_topic (t : TopicInterface sub_kind) (n : node) : node :=
  mkNode (myNodeNr n) (gws n) (routers n) (seenNodes n) (protector n)
    (numberOfReceivedMsgsFromNetwork n)
    (map (fun t' => if tref t' =? tref t then t else t') (topicList n)) (trace n).

(** [publishMsgPart] of a topic of the node. *)
Definition node_publish (dummy : NetMsgInfo.t) (t : TopicInterface sub_kind) (len : Z)
    (shallSendToNetwork : bool) (info : option NetMsgInfo.t) (data : list Z) (n : node)
    : option (Z * (list Z * node)) :=
  '(cnt, t, _, dw) ← @publishMsgPart _ _ (node_subscribers dummy) (gatewaySubscribers n) t len
                       shallSendToNetwork dummy info (data, n);
  Some (cnt, (dw.1, store_topic t dw.2)).

(** The loop of [AnalyseAndDistributeMessagesFromNetwork] over the local
    topics: the buffer [userDataC] is published in place. *)
Fixpoint distribute_local (dummy info : NetMsgInfo.t) (id : Z)
    (topics : list (TopicInterface sub_kind)) (dw : list Z * node) : option (list Z * node) :=
  match topics with
  | [] => Some dw
  | iter :: topics =>
      dw ← (if topicId iter =? id then
              '(_, dw) ← node_publish dummy iter (msgLen iter) false (Some info) dw.1 dw.2;
              Some dw
            else Some dw);
      distribute_local dummy info id topics dw
  end.

Definition received_info (linkIdentifier : Z) (m : msg) : NetMsgInfo.t :=
  NetMsgInfo.mk (get_senderNode m) (get_senderThreadId m) (get_sentTime m)
    (get_receiverNode m) (get_receiverNodesBitMap m) linkIdentifier (get_type m).

(** [big] is the byte order of the host, [self] the thread of the gateway. *)
Definition AnalyseAndDistributeMessagesFromNetwork (big : bool) (dummy : NetMsgInfo.t)
    (self : Z) (g : nat) (n : node) : option node :=
  gw ← gws n !! g;
  let m := networkInMessage gw in
  if get_senderNode m =? myNodeNr n then Some n
  else
    ok ← isCheckSumOk m;
    if negb (ok : bool) then Some n
    else
      '(seen, n) ← messageSeen self m n;
      if (seen : bool) then Some n
      else
        let m := dec_maxStepsToForward m in
        let n := count_received (on_gw g (set_inMessage m) n) in
        let id := get_topicId m in
        if (id =? 0) && getTopicsToForwardFromOutside gw then
          let report := TopicListReport.cast big (userDataC m) in
          gw ← gws n !! g;
          gw ← (if isBroadcastLink gw then addTopicsToForward report gw
                else Some (setTopicsToForward report gw));
          Some (on_gw g (fun _ => set_topics (externalsubscribers gw) true gw) n)
        else if 0 <? id then
          let info := received_info (linkIdentifier gw) m in
          '(data, n) ← distribute_local dummy info id (topicList n) (userDataC m, n);
          let m := take HEADER_SIZE m ++ data in
          t ← topic_object DEFAULT_ROUTER_TOPIC n;
          '(_, (m, n)) ← node_publish dummy t (msgLen t) false (Some info) m n;
          Some (on_gw g (set_inMessage m) n)
        else Some n.

(** One round of the inner loop of [run]: the link delivers a message with
    the size it measured, or -1; a message whose size is not that of its
    header is dropped. *)
Definition run_round (big : bool) (dummy : NetMsgInfo.t) (self : Z) (g : nat) (m : msg)
    (realMsgSize : Z) (n : node) : option node :=
  let n := on_gw g (set_inMessage m) n in
  if realMsgSize <? 0 then AnalyseAndDistributeMessagesFromNetwork big dummy self g n
  else if Z.of_nat HEADER_SIZE <=? realMsgSize then
    if realMsgSize =? numberOfBytesToSend m then
      AnalyseAndDistributeMessagesFromNetwork big dummy self g n
    else Some n
  else Some n.

(** The inner loop: the messages that are waiting, until the link has none. *)
Fixpoint run_loop (big : bool) (dummy : NetMsgInfo.t) (self : Z) (g : nat)
    (waiting : list (msg * Z)) (n : node) : option node :=
  match waiting with
  | [] => Some n
  | (m, size) :: waiting =>
      n ← run_round big dummy self g m size n; run_loop big dummy self g waiting n
  end.
End Node.

(** ** The table of seen nodes as a map *)

Definition seen_map (l : list SeenNode) : gmap Z Z :=
  list_to_map ((fun s => (nodeID s, lastMsgTime s)) <$> l).

(** What the table promises: a message is new when its sender is unknown, when
    it was sent later than the last accepted one, or when it is more than five
    seconds older (the sender has restarted). *)
Definition is_new (last : option Z) (t : Z) : bool :=
  match last with
  | None => true
  | Some last => (last <? t) || (5 * SECONDS <? last - t)
  end.

Record seen_wf (l : list SeenNode) : Prop := {
  seen_nodup : NoDup (nodeID <$> l);
  seen_length : Z.of_nat (length l) <= MAX_NUMBER_OF_NODES
}.

Lemma seen_map_fst (l : list SeenNode) :
  ((fun s => (nodeID s, lastMsgTime s)) <$> l).*1 = nodeID <$> l.
Proof. by rewrite <- list_fmap_compose. Qed.

Lemma seen_map_lookup l i s :
  seen_wf l -> l !! i = Some s -> seen_map l !! nodeID s = Some (lastMsgTime s).
Proof.
  intros [Hn _] Hi. apply elem_of_list_to_map_1; [by rewrite seen_map_fst|].
  apply list_elem_of_fmap. exists s. split; [done|]. by eapply list_elem_of_lookup_2.
Qed.

Lemma seen_map_None l id : (id ∉ nodeID <$> l) -> seen_map l !! id = None.
Proof. intros H. apply not_elem_of_list_to_map_1. by rewrite seen_map_fst. Qed.

Lemma find_seen_Some id l i :
  find_seen id l = Some i -> exists s, l !! i = Some s /\ nodeID s = id.
Proof.
  unfold find_seen. intros H. apply fmap_Some in H as ([j s] & (Hs & Hid & _)%list_find_Some & ->).
  by exists s.
Qed.

Lemma find_seen_None id l : find_seen id l = None -> (id ∉ nodeID <$> l).
Proof.
  unfold find_seen. intros H Hin. apply fmap_None, list_find_None in H.
  apply list_elem_of_fmap in Hin as (s & -> & Hs).
  by apply (Forall_forall (fun s' => nodeID s' <> nodeID s) l) in Hs.
Qed.

Lemma seen_alter l i s t :
  seen_wf l -> l !! i = Some s ->
  let l' := alter (fun s => mkSeen (nodeID s) t) i l in
  seen_wf l' /\ seen_map l' = <[nodeID s := t]> (seen_map l).
Proof.
  intros Hw Hi l'. pose proof Hw as [Hn Hl].
  assert (Hids : nodeID <$> l' = nodeID <$> l).
  { unfold l'. apply list_eq. intros j. rewrite !list_lookup_fmap.
    destruct (decide (i = j)) as [<-|Hne];
      [by rewrite list_lookup_alter_eq, Hi|by rewrite list_lookup_alter_ne]. }
  assert (Hw' : seen_wf l').
  { split; [by rewrite Hids|]. unfold l'. by rewrite length_alter. }
  split; [done|]. apply map_eq. intros k.
  destruct (decide (k = nodeID s)) as [->|Hne].
  - rewrite lookup_insert_eq.
    apply (seen_map_lookup l' i (mkSeen (nodeID s) t)); [done|].
    unfold l'. by rewrite list_lookup_alter_eq, Hi.
  - rewrite lookup_insert_ne by congruence.
    destruct (decide (k ∈ nodeID <$> l)) as [Hk|Hk].
    2: { rewrite !seen_map_None; [done|done|by rewrite Hids]. }
    apply list_elem_of_fmap in Hk as (s' & -> & Hs'). apply list_elem_of_lookup_1 in Hs' as [j Hj].
    rewrite (seen_map_lookup l j s') by done.
    apply (seen_map_lookup l' j s'); [done|]. unfold l'.
    rewrite list_lookup_alter_ne; [done|]. intros ->. congruence.
Qed.

Lemma seen_append l id t :
  seen_wf l -> Z.of_nat (length l) < MAX_NUMBER_OF_NODES -> (id ∉ nodeID <$> l) ->
  seen_wf (l ++ [mkSeen id t]) /\ seen_map (l ++ [mkSeen id t]) = <[id := t]> (seen_map l).
Proof.
  intros [Hn Hl] Hlt Hid. split.
  - split; [|rewrite length_app; cbn; lia]. rewrite fmap_app. apply NoDup_app.
    split_and!; [done| |by apply NoDup_singleton].
    intros x Hx Hx'. apply list_elem_of_singleton in Hx'. cbn in Hx'. by subst x.
  - unfold seen_map. rewrite fmap_app, list_to_map_app. cbn.
    rewrite insert_empty. symmetry. rewrite insert_union_singleton_l. apply map_union_comm.
    apply map_disjoint_singleton_l_2. apply (seen_map_None l id Hid).
Qed.

(** [leave] undoes [enter] of a free semaphore. *)
Lemma enter_free self n :
  protector n = None -> enter_seen self n = Some (set_protector (Some (self, 1)) n).
Proof. intros H. unfold enter_seen. by rewrite H. Qed.

Lemma leave_entered self l n :
  protector n = None ->
  leave_seen self (set_seen l (set_protector (Some (self, 1)) n)) = set_seen l n.
Proof. intros H. unfold leave_seen. cbn. rewrite Z.eqb_refl. destruct n; cbn in *. by subst. Qed.

Lemma set_seen_same n : set_seen (seenNodes n) n = n.
Proof. by destruct n. Qed.

(** [messageSeen] on the table, the semaphore being free. *)
Lemma messageSeen_spec self m n :
  let id := get_senderNode m in
  let t := get_sentTime m in
  protector n = None -> seen_wf (seenNodes n) -> in_i64 (t - 1) ->
  (forall last, seen_map (seenNodes n) !! id = Some last -> in_i64 (last - t)) ->
  (is_Some (seen_map (seenNodes n) !! id) \/
   Z.of_nat (length (seenNodes n)) < MAX_NUMBER_OF_NODES) ->
  let new := is_new (seen_map (seenNodes n) !! id) t in
  exists l, messageSeen self m n = Some (negb new, set_seen l n) /\ seen_wf l /\
    seen_map l = if new then <[id := t]> (seen_map (seenNodes n)) else seen_map (seenNodes n).
Proof.
  intros id t Hfree Hw Ht Hd Hroom new. unfold messageSeen. rewrite enter_free by done.
  cbn [mbind option_bind]. cbn [seenNodes set_protector]. fold id.
  destruct (find_seen id (seenNodes n)) as [i|] eqn:Hf.
  - destruct (find_seen_Some _ _ _ Hf) as (s & Hi & Hs). rewrite Hi. cbn [mbind option_bind].
    pose proof (seen_map_lookup _ _ _ Hw Hi) as Hm. rewrite Hs in Hm.
    specialize (Hd _ Hm). subst new. rewrite Hm. cbn [is_new]. unfold decide_seen. fold t.
    cbn [seenNodes set_protector].
    destruct (seen_alter (seenNodes n) i s t Hw Hi) as [Hw' Hm']. rewrite Hs in Hm'.
    destruct (Z.leb_spec t (lastMsgTime s)) as [Hle|Hgt].
    + rewrite i64_small by done. cbn [mbind option_bind].
      destruct (Z.ltb_spec (lastMsgTime s) t); [lia|]. cbn [orb].
      destruct (5 * SECONDS <? lastMsgTime s - t); rewrite <- ?(leave_entered self) by done.
      * eexists. split; [by rewrite leave_entered|]. by split.
      * exists (seenNodes n). split; [|by split].
        by rewrite <- (leave_entered self), <- (set_seen_same (set_protector _ n)) at 1.
    + destruct (Z.ltb_spec (lastMsgTime s) t); [|lia]. cbn [orb negb].
      eexists. split; [by rewrite leave_entered|]. by split.
  - pose proof (find_seen_None _ _ Hf) as Hid.
    assert (Hm : seen_map (seenNodes n) !! id = None) by by apply seen_map_None.
    subst new. rewrite Hm. cbn [is_new negb].
    destruct Hroom as [[? Hsome]|Hroom]; [congruence|].
    destruct (Z.ltb_spec (Z.of_nat (length (seenNodes n))) MAX_NUMBER_OF_NODES); [|lia].
    cbn [negb]. fold t. rewrite i64_small by done. cbn [mbind option_bind].
    cbn [seenNodes set_seen]. rewrite length_app. cbn [length].
    replace (length (seenNodes n) + 1 - 1)%nat with (length (seenNodes n)) by lia.
    unfold decide_seen. fold t. destruct (Z.leb_spec t (t - 1)); [lia|].
    cbn [seenNodes set_seen].
    destruct (seen_append (seenNodes n) id (t - 1) Hw Hroom Hid) as [Hw1 Hm1].
    destruct (seen_alter (seenNodes n ++ [mkSeen id (t - 1)]) (length (seenNodes n))
      (mkSeen id (t - 1)) t Hw1) as [Hw' Hm']; [by rewrite list_lookup_middle|].
    eexists. split; [|split; [exact Hw'|]].
    + f_equal. f_equal. exact (leave_entered self _ n Hfree).
    + rewrite Hm', Hm1. cbn. by rewrite insert_insert_eq.
Qed.

(** ** The delivery of a message to the subscribers of a topic *)

Definition emits (l : list event) (n : node) : node :=
  mkNode (myNodeNr n) (gws n) (routers n) (seenNodes n) (protector n)
    (numberOfReceivedMsgsFromNetwork n) (topicList n) (trace n ++ l).

Lemma emits_nil n : emits [] n = n.
Proof. destruct n. unfold emits. cbn. by rewrite app_nil_r. Qed.
Lemma emits_emits l1 l2 n : emits l2 (emits l1 n) = emits (l1 ++ l2) n.
Proof. unfold emits. cbn. by rewrite app_assoc. Qed.
Lemma emit_emits e n : emit e n = emits [e] n.
Proof. done. Qed.

(** The subscriber of an application and its receiver. *)
Definition app_receiver (s : Subscriber sub_kind) : option Z :=
  match kind s with
  | PlainSubscriber (Some (UserPutter p)) | SubscriberReceiver (Some p) => Some p
  | _ => None
  end.

Definition receptions (topicId len : Z) (info : NetMsgInfo.t) (data : list Z)
    (subs : list (Subscriber sub_kind)) : list event :=
  (fun p => Received p topicId len data info) <$>
    omap (fun s => if isEnabled s then app_receiver s else None) subs.

(** The topics of a node are told apart by their addresses. *)
Definition unique_topic (t : TopicInterface sub_kind) (n : node) : Prop :=
  forall t', t' ∈ topicList n -> tref t' = tref t -> t' = t.

Lemma store_topic_same t n : unique_topic t n -> store_topic t n = n.
Proof.
  intros Hu. unfold store_topic. destruct n as [a b c d e f l tr]; cbn in *. f_equal.
  apply list_eq. intros i. rewrite list_lookup_fmap.
  destruct (l !! i) as [t'|] eqn:Hi; [|done]. cbn.
  destruct (Z.eqb_spec (tref t') (tref t)) as [He|]; [|done].
  rewrite (Hu t'); [done|by eapply list_elem_of_lookup_2|done].
Qed.

Section Delivery.
Context (receive prolog epilog : Z -> Z -> Z -> NetMsgInfo.t -> list Z -> list Z).

(** The receivers only read the message. *)
Definition read_only : Prop := forall p topicId len info d, receive p topicId len info d = d.

Lemma distribute_apps dummy subs topicId len info cnt d n :
  read_only -> Forall (fun s => is_Some (app_receiver s)) subs -> in_u32 cnt ->
  @distribute _ _ (node_subscribers receive prolog epilog dummy) false subs topicId len info cnt (d, n) =
    Some (u32 (cnt + Z.of_nat (length (receptions topicId len info d subs))),
          (d, emits (receptions topicId len info d subs) n)).
Proof.
  intros Hro Hs. revert cnt n. induction Hs as [|s subs [p Hp] Hs IH]; intros cnt n Hc.
  { cbn. by rewrite emits_nil, Z.add_0_r, u32_small. }
  cbn [distribute orb]. unfold receptions. cbn [omap list_omap].
  destruct (isEnabled s) eqn:He; [|by apply IH].
  rewrite Hp. cbn [fmap list_fmap]. fold (receptions topicId len info d subs).
  assert (subscriber_put s topicId len info (d, n) =
          Some (1, (d, emits [Received p topicId len d info] n))) as ->.
  { cbn [subscriber_put node_subscribers]. unfold node_put, app_receiver, call_user in *.
    destruct (kind s) as [[[q|r]|]|[f|]|g|r] eqn:Hk; try done; simplify_eq;
      rewrite ?He; cbn; unfold call_user; cbn; by rewrite Hro. }
  cbn [mbind option_bind]. rewrite IH by apply u32_range. rewrite emits_emits.
  cbn [length app]. do 2 f_equal. zlia.
Qed.

(** Publishing without sending to the network. *)
Lemma publish_local dummy t len info d n :
  read_only -> Forall (fun s => is_Some (app_receiver s)) (mySubscribers t) ->
  topicFilter t = None -> unique_topic t n ->
  let ev := receptions (topicId t) len info d (mySubscribers t) in
  node_publish receive prolog epilog dummy t len false (Some info) d n =
    Some (u32 (Z.of_nat (length ev)), (d, emits ev n)).
Proof.
  intros Hro Hs Hf Hid ev. unfold node_publish, publishMsgPart. rewrite Hf.
  change (default dummy (Some info)) with info. rewrite distribute_apps by (done || zlia). cbn [mbind option_bind negb].
  destruct (onlyLocal t); cbn [mbind option_bind fst snd]; rewrite store_topic_same by done;
    by rewrite Z.add_0_l.
Qed.

(** The loop over the local topics. *)
Definition deliveries (id : Z) (info : NetMsgInfo.t) (d : list Z)
    (topics : list (TopicInterface sub_kind)) : list event :=
  concat ((fun t => receptions id (msgLen t) info d (mySubscribers t)) <$>
            filter (fun t => topicId t = id) topics).

(** A topic whose subscribers belong to the application. *)
Record app_topic (n : node) (t : TopicInterface sub_kind) : Prop := {
  app_subs : Forall (fun s => is_Some (app_receiver s)) (mySubscribers t);
  app_filter : topicFilter t = None;
  app_unique : unique_topic t n
}.

Lemma app_topic_emits l n t : app_topic n t -> app_topic (emits l n) t.
Proof. by intros [H1 H2 H3]; split. Qed.

Lemma distribute_local_spec dummy info id topics d n :
  read_only -> Forall (fun t => topicId t = id -> app_topic n t) topics ->
  distribute_local receive prolog epilog dummy info id topics (d, n) =
    Some (d, emits (deliveries id info d topics) n).
Proof.
  intros Hro. revert n. induction topics as [|t topics IH]; intros n Ht.
  { cbn. unfold deliveries. cbn. by rewrite emits_nil. }
  apply Forall_cons in Ht as [Ht Hts]. unfold deliveries. rewrite filter_cons.
  cbn [distribute_local]. destruct (Z.eqb_spec (topicId t) id) as [He|He].
  - rewrite decide_True by done. destruct (Ht He) as [Hs Hf Hu].
    cbn [fst snd]. rewrite publish_local by done. cbn [mbind option_bind].
    rewrite IH. 2: { eapply Forall_impl; [exact Hts|]. intros t' H Hid. by apply app_topic_emits, H. }
    rewrite emits_emits. rewrite He. done.
  - rewrite decide_False by done. cbn [mbind option_bind]. by apply IH.
Qed.

(** ** The gateways of a published message *)

Definition wants (topicId : Z) (gw : gateway) : bool :=
  forwardAll gw || (topicId =? 0) ||
  bool_decide (topicId ∈ TopicListReport.topics (externalsubscribers gw)).

Record gateway_wf (gw : gateway) : Prop := {
  gw_out : wf (networkOutMessage gw);
  gw_topics : TopicListReport.wf (externalsubscribers gw)
}.

(** The gateways of the node, the last message aside. *)
Definition gw_config (gw : gateway) : Z * bool * bool * TopicListReport.t * bool :=
  (linkIdentifier gw, isBroadcastLink gw, forwardAll gw, externalsubscribers gw,
   getTopicsToForwardFromOutside gw).

Definition gateways_of (n : node) (subs : list (Subscriber sub_kind)) : Prop :=
  Forall (fun s => exists g gw, kind s = GatewaySubscriber g /\ gws n !! g = Some gw /\
                                gateway_wf gw) subs.

(** The gateways that transmit a message on the topic. *)
Definition transmits (n : node) (topicId : Z) (s : Subscriber sub_kind) : option nat :=
  match kind s with
  | GatewaySubscriber g =>
      gw ← gws n !! g; if isEnabled s && wants topicId gw then Some g else None
  | _ => None
  end.

Lemma on_gw_lookup i f n j :
  gws (on_gw i f n) !! j = if decide (i = j) then f <$> gws n !! j else gws n !! j.
Proof.
  unfold on_gw. cbn. destruct (decide (i = j)) as [<-|Hne];
    [by rewrite list_lookup_alter_eq|by rewrite list_lookup_alter_ne].
Qed.

Lemma Gateway_put_spec g gw enabled id info d n :
  gws n !! g = Some gw -> gateway_wf gw -> bytes d -> in_u32 id -> NetMsgInfo.ok info ->
  forall len, 0 <= len <= Z.of_nat (length d) ->
  if enabled && wants id gw then
    exists m, Gateway_put g enabled id len info d n =
        Some (1, emits [Sent g m] (on_gw g (set_outMessage m) n)) /\ wf m /\
      carries m id (take (Z.to_nat (min len (Z.of_nat MAX_NETWORK_MESSAGE_LENGTH))) d) info /\
      get_maxStepsToForward m = 10
  else Gateway_put g enabled id len info d n = Some (0, n).
Proof.
  intros Hg [Hout Hr] Hd Hid Hi len Hlen. unfold Gateway_put.
  destruct enabled; cbn [negb andb]; [|done]. rewrite Hg. cbn [mbind option_bind].
  assert ((if negb (forwardAll gw) then
             if negb (id =? 0) then TopicListReport.find (externalsubscribers gw) id
             else Some true else Some true) = Some (wants id gw)) as ->.
  { unfold wants. destruct (forwardAll gw); cbn [negb orb]; [done|].
    destruct (id =? 0); cbn [negb orb]; [done|]. by apply TopicListReport.find_spec. }
  cbn [mbind option_bind]. destruct (wants id gw); cbn [negb]; [|done].
  destruct (prepare_carries (networkOutMessage gw) id d len info) as (m & Hp & Hm & Hs & Hc);
    try done.
  rewrite Hp. cbn [mbind option_bind]. by exists m.
Qed.

Lemma transmits_out l g m n id s :
  transmits (emits l (on_gw g (set_outMessage m) n)) id s = transmits n id s.
Proof.
  unfold transmits. destruct (kind s) as [| |g'|]; try done. cbn [gws emits].
  rewrite on_gw_lookup. case_decide; [|done]. by destruct (gws n !! g').
Qed.

Lemma distribute_gateways dummy subs id len info cnt d n :
  gateways_of n subs -> bytes d -> in_u32 id -> NetMsgInfo.ok info ->
  0 <= len <= Z.of_nat (length d) ->
  exists cnt' n' evs,
    @distribute _ _ (node_subscribers receive prolog epilog dummy) true subs id len info cnt (d, n) =
      Some (cnt', (d, n')) /\
    trace n' = trace n ++ evs /\ topicList n' = topicList n /\
    Forall2 (fun g e => exists m, e = Sent g m /\ wf m /\ get_maxStepsToForward m = 10 /\
       carries m id (take (Z.to_nat (min len (Z.of_nat MAX_NETWORK_MESSAGE_LENGTH))) d) info)
      (omap (transmits n id) subs) evs.
Proof.
  intros Hs Hd Hid Hi Hlen. revert cnt n Hs.
  induction subs as [|s subs IH]; intros cnt n Hs.
  { exists cnt, n, []. cbn. by rewrite app_nil_r. }
  apply Forall_cons in Hs as [(g & gw & Hk & Hg & Hw) Hs].
  cbn [distribute orb]. cbn [subscriber_put node_subscribers]. unfold node_put. rewrite Hk.
  cbn [fst snd]. pose proof (Gateway_put_spec g gw (isEnabled s) id info d n Hg Hw Hd Hid Hi len Hlen) as Hp.
  cbn [omap list_omap]. unfold transmits at 1. rewrite Hk, Hg. cbn [mbind option_bind].
  destruct (isEnabled s && wants id gw).
  2: { rewrite Hp. cbn [mbind option_bind]. by apply IH. }
  destruct Hp as (m & -> & Hm & Hc & Hsteps). cbn [mbind option_bind].
  destruct (IH (u32 (cnt + 1)) (emits [Sent g m] (on_gw g (set_outMessage m) n)))
    as (cnt' & n' & evs & -> & Htr & Htl & HF).
  { eapply Forall_impl; [exact Hs|]. intros s' (g' & gw' & Hk' & Hg' & Hw').
    exists g'. cbn [gws emits]. rewrite on_gw_lookup, Hg'. case_decide as He; cbn [fmap option_fmap option_map].
    - exists (set_outMessage m gw'). split_and!; [done..|]. destruct Hw' as [_ Hw']. by split.
    - by exists gw'. }
  exists cnt', n', (Sent g m :: evs). split; [done|]. split; [|split].
  - rewrite Htr. cbn. by rewrite <- app_assoc.
  - by rewrite Htl.
  - constructor; [by exists m|].
    replace (omap (transmits n id) subs) with
      (omap (transmits (emits [Sent g m] (on_gw g (set_outMessage m) n)) id) subs); [done|].
    apply list_omap_ext, Forall_Forall2_diag, Forall_forall. intros s' _. apply transmits_out.
Qed.

Lemma bitMap_range n x idx found r :
  bitMap_result n x idx found r -> -2 <= found < 2 ^ 31 -> 0 <= idx ->
  idx + Z.of_nat n < 2 ^ 31 -> -2 <= r < 2 ^ 31.
Proof. intros [| |i|i j]; lia. Qed.

(** Publishing to the network. *)
Lemma publish_network dummy t len info d n :
  read_only -> Forall (fun s => is_Some (app_receiver s)) (mySubscribers t) ->
  topicFilter t = None -> onlyLocal t = false -> gateways_of n (gatewaySubscribers n) ->
  in_u32 (receiverNodesBitMap t) -> in_u32 (topicId t) -> bytes d -> NetMsgInfo.ok info ->
  0 <= len <= Z.of_nat (length d) ->
  let id := topicId t in
  exists cnt n' node bitMap evs,
    node_publish receive prolog epilog dummy t len true (Some info) d n = Some (cnt, (d, n')) /\
    trace n' = trace n ++ receptions id len info d (mySubscribers t) ++ evs /\
    Forall2 (fun g e => exists m, e = Sent g m /\ wf m /\ get_maxStepsToForward m = 10 /\
       carries m id (take (Z.to_nat (min len (Z.of_nat MAX_NETWORK_MESSAGE_LENGTH))) d)
         (NetMsgInfo.set_receiver node bitMap info))
      (omap (transmits n id) (gatewaySubscribers n)) evs.
Proof.
  intros Hro Hs Hf Hl Hg Hbm Hid Hd Hi Hlen id. unfold node_publish, publishMsgPart.
  rewrite Hf, Hl. change (default dummy (Some info)) with info. rewrite distribute_apps by (done || zlia).
  cbn [mbind option_bind negb]. set (c := u32 _). set (n1 := emits _ n).
  assert (Hidx : exists node t', receiverNodesBitMap2Index bitMap_fuel t = Some (node, t') /\
    - 2 ^ 31 <= node < 2 ^ 31 /\ in_u32 (receiverNodesBitMap t') /\ topicId t' = id).
  { unfold receiverNodesBitMap2Index. destruct (topicId t <? _).
    - do 2 eexists. split; [done|]. split_and!; cbn; (lia || done || zlia).
    - destruct (bitMap_loop_spec bitMap_fuel (receiverNodesBitMap t) 0 (-2) Hbm ltac:(lia) ltac:(auto))
        as (r & -> & Hr). do 2 eexists. split; [done|]. split; [|done].
      apply bitMap_range in Hr; lia || (unfold bitMap_fuel; lia) || idtac. }
  destruct Hidx as (node & t' & -> & Hnode & Hbm' & Ht'). cbn [mbind option_bind].
  rewrite Ht'.
  destruct (distribute_gateways dummy (gatewaySubscribers n) id len
    (NetMsgInfo.set_receiver node (receiverNodesBitMap t') info) c d n1)
    as (cnt' & n' & evs & Hdist & Htr & _ & HF); try done.
  { destruct Hi as [I1 I2 I3 I4 I5 I6]. by split. }
  rewrite Hdist. cbn [mbind option_bind fst snd].
  exists cnt', (store_topic t' n'), node, (receiverNodesBitMap t'), evs. split; [done|]. split.
  - unfold store_topic. cbn [trace]. rewrite Htr. unfold n1. cbn [trace emits]. by rewrite <- app_assoc.
  - exact HF.
Qed.

(** ** Reception *)

Lemma get_dec `{codec w val enc dec} off m :
  wf m -> (off + w <= 8 \/ 10 <= off)%nat -> (off + w <= HEADER_SIZE)%nat ->
  get dec off (dec_maxStepsToForward m) = get dec off m.
Proof.
  intros Hm Hd Ho. unfold dec_maxStepsToForward, put_maxStepsToForward.
  rewrite get_put_other by (done || msg_off || lia). done.
Qed.

Lemma received_info_dec l m : wf m -> received_info l (dec_maxStepsToForward m) = received_info l m.
Proof.
  intros Hm. unfold received_info. msg_unfold.
  by rewrite !get_dec by (done || msg_off || lia).
Qed.

Lemma topicId_dec m : wf m -> get_topicId (dec_maxStepsToForward m) = get_topicId m.
Proof. intros Hm. msg_unfold. by rewrite get_dec by (done || msg_off || lia). Qed.

(** The link's buffer of gateway [g] holds [m], and the node is between two
    messages: nobody is in [messageSeen]. *)
Record ready (n : node) (g : nat) (gw : gateway) : Prop := {
  ready_gw : gws n !! g = Some gw;
  ready_in : wf (networkInMessage gw);
  ready_free : protector n = None;
  ready_seen : seen_wf (seenNodes n)
}.

(** A message that the node [id] sent at [t] is accepted as new. *)
Record fresh (n : node) (id t : Z) : Prop := {
  fresh_sender : id <> myNodeNr n;
  fresh_time : in_i64 (t - 1);
  fresh_diff : forall last, seen_map (seenNodes n) !! id = Some last -> in_i64 (last - t);
  fresh_room : is_Some (seen_map (seenNodes n) !! id) \/
    Z.of_nat (length (seenNodes n)) < MAX_NUMBER_OF_NODES;
  fresh_new : is_new (seen_map (seenNodes n) !! id) t = true
}.

(** The topics that the message reaches belong to the application, and no
    router is present. *)
Record app_node (n : node) (id : Z) : Prop := {
  app_topics : Forall (fun t => topicId t = id -> app_topic n t) (topicList n);
  app_router : exists rt, topic_object DEFAULT_ROUTER_TOPIC n = Some rt /\
    mySubscribers rt = [] /\ topicFilter rt = None /\ unique_topic rt n
}.

Lemma Analyse_delivers big dummy self g gw n :
  let m := networkInMessage gw in
  let id := get_topicId m in
  read_only -> ready n g gw -> fresh n (get_senderNode m) (get_sentTime m) -> isCheckSumOk m = Some true -> 0 < id -> app_node n id ->
  exists n', AnalyseAndDistributeMessagesFromNetwork receive prolog epilog big dummy self g n = Some n' /\
    trace n' = trace n ++ deliveries id (received_info (linkIdentifier gw) m) (userDataC m) (topicList n) /\
    protector n' = None /\ topicList n' = topicList n /\ myNodeNr n' = myNodeNr n /\
    seen_wf (seenNodes n') /\
    seen_map (seenNodes n') = <[get_senderNode m := get_sentTime m]> (seen_map (seenNodes n)) /\
    exists gw', gws n' !! g = Some gw' /\ linkIdentifier gw' = linkIdentifier gw.
Proof.
  intros m id Hro [Hg Hm Hfree Hsw] [F1 F2 F3 F4 F5] Hsum Hid [Hts (rt & Hrt & Hrs & Hrf & Hru)].
  unfold AnalyseAndDistributeMessagesFromNetwork. rewrite Hg. cbn [mbind option_bind].
  fold m. destruct (Z.eqb_spec (get_senderNode m) (myNodeNr n)); [done|].
  rewrite Hsum. cbn [mbind option_bind negb].
  destruct (messageSeen_spec self m n Hfree Hsw F2 F3 F4) as (l & Hms & Hlw & Hlm).
  rewrite F5 in Hlm. rewrite Hms, F5. cbn [mbind option_bind negb].
  rewrite topicId_dec by done. fold id.
  destruct (Z.eqb_spec id 0); [lia|]. cbn [andb]. destruct (Z.ltb_spec 0 id); [|lia].
  set (n2 := count_received _).
  assert (Htl : topicList n2 = topicList n) by done.
  rewrite Htl, distribute_local_spec.
  2: done.
  2: { eapply Forall_impl; [exact Hts|]. intros t Hx Ht. by destruct (Hx Ht) as [? ? ?]; split. }
  cbn [mbind option_bind].
  assert (topic_object DEFAULT_ROUTER_TOPIC (emits (deliveries id
            (received_info (linkIdentifier gw) (dec_maxStepsToForward m))
            (userDataC (dec_maxStepsToForward m)) (topicList n)) n2) = Some rt) as -> by exact Hrt.
  cbn [mbind option_bind].
  rewrite publish_local; [|done|by rewrite Hrs|done|exact Hru].
  cbn [mbind option_bind]. eexists. split; [done|].
  rewrite Hrs. unfold receptions at 1. cbn [omap list_omap fmap list_fmap].
  rewrite received_info_dec by done.
  unfold userDataC. rewrite drop_dec_maxSteps by (done || msg_off).
  split_and!; try done.
  - cbn. by rewrite app_nil_r.
  - eexists. split.
    + rewrite on_gw_lookup, decide_True by done. cbn [gws emits].
      unfold n2, count_received. cbn [gws]. rewrite on_gw_lookup, decide_True by done.
      cbn [gws set_seen]. rewrite Hg. cbn. done.
    + done.
Qed.

(** A message that is not the node's concern leaves no trace. *)
Lemma Analyse_discards big dummy self g gw n :
  gws n !! g = Some gw ->
  get_senderNode (networkInMessage gw) = myNodeNr n \/
  isCheckSumOk (networkInMessage gw) = Some false ->
  AnalyseAndDistributeMessagesFromNetwork receive prolog epilog big dummy self g n = Some n.
Proof.
  intros Hg Hd. unfold AnalyseAndDistributeMessagesFromNetwork. rewrite Hg. cbn [mbind option_bind].
  destruct (Z.eqb_spec (get_senderNode (networkInMessage gw)) (myNodeNr n)); [done|].
  destruct Hd as [Hd|Hd]; [done|]. by rewrite Hd.
Qed.

(** A message that has been seen leaves no trace either. *)
Lemma Analyse_seen big dummy self g gw n :
  let m := networkInMessage gw in
  ready n g gw -> get_senderNode m <> myNodeNr n -> isCheckSumOk m = Some true ->
  seen_map (seenNodes n) !! get_senderNode m = Some (get_sentTime m) ->
  in_i64 (get_sentTime m - 1) ->
  exists l, AnalyseAndDistributeMessagesFromNetwork receive prolog epilog big dummy self g n =
    Some (set_seen l n).
Proof.
  intros m [Hg Hm Hfree Hsw] Hne Hsum Hseen Ht.
  unfold AnalyseAndDistributeMessagesFromNetwork. rewrite Hg. cbn [mbind option_bind]. fold m.
  destruct (Z.eqb_spec (get_senderNode m) (myNodeNr n)); [done|].
  rewrite Hsum. cbn [mbind option_bind negb].
  destruct (messageSeen_spec self m n) as (l & Hms & _); try done.
  - intros last Hl. rewrite Hseen in Hl. injection Hl as <-. rewrite Z.sub_diag. by split.
  - left. by rewrite Hseen.
  - rewrite Hseen in Hms. unfold is_new in Hms. rewrite Z.ltb_irrefl, Z.sub_diag in Hms.
    cbn in Hms. exists l. by rewrite Hms.
Qed.

Lemma run_round_Analyse big dummy self g m size n :
  wf m -> len_ok m -> size < 0 \/ size = 36 + get_len m ->
  run_round receive prolog epilog big dummy self g m size n =
  AnalyseAndDistributeMessagesFromNetwork receive prolog epilog big dummy self g
    (on_gw g (set_inMessage m) n).
Proof.
  intros Hm Hok Hs. unfold run_round. destruct (Z.ltb_spec size 0); [done|].
  destruct Hs as [|Hs]; [lia|]. pose proof (get_u16_range 14 m) as Hr. fold (get_len m) in Hr.
  rewrite bytesToSend_ok by done.
  destruct (Z.leb_spec (Z.of_nat HEADER_SIZE) size); [|unfold HEADER_SIZE in *; zlia].
  destruct (Z.eqb_spec size (Z.of_nat HEADER_SIZE + get_len m)); [done|unfold HEADER_SIZE in *; lia].
Qed.
End Delivery.

(** ** The router *)

Definition routed (m : msg) (linkid : Z) (n : node) (o : option nat) : option nat :=
  g ← o; gw ← gws n !! g;
  if negb (linkIdentifier gw =? linkid) &&
     (forwardAll gw || bool_decide (get_topicId m ∈ TopicListReport.topics (externalsubscribers gw)))
  then Some g else None.

Lemma routed_inv m linkid n o g : routed m linkid n o = Some g -> o = Some g.
Proof.
  unfold routed. destruct o as [g'|]; [|done]. cbn [mbind option_bind].
  destruct (gws n !! g'); [|done]. cbn [mbind option_bind]. by case_match.
Qed.

Lemma routed_iff m linkid n g gw :
  gws n !! g = Some gw ->
  (routed m linkid n (Some g) = Some g <->
   linkIdentifier gw <> linkid /\
   (forwardAll gw = true \/ get_topicId m ∈ TopicListReport.topics (externalsubscribers gw))).
Proof.
  intros Hg. unfold routed. cbn [mbind option_bind]. rewrite Hg. cbn [mbind option_bind].
  destruct (Z.eqb_spec (linkIdentifier gw) linkid); cbn [negb andb]; [by split; [|intros []]|].
  destruct (forwardAll gw); cbn [orb]; [by split; auto|].
  case_bool_decide; split; auto; [done|]. intros (_ & [|]); done.
Qed.

Lemma omap_sublist {A} (f : option A -> option A) (l : list (option A)) :
  (forall o x, f o = Some x -> o = Some x) -> sublist (omap f l) (omap (fun o => o) l).
Proof.
  intros Hf. induction l as [|o l IH]; [constructor|]. cbn [omap list_omap].
  destruct (f o) as [x|] eqn:E; [rewrite (Hf _ _ E); by constructor|].
  destruct o; [by constructor|done].
Qed.

Record router_wf (r : router) (n : node) : Prop := {
  router_number : 0 <= numberOfGateways r <= Z.of_nat (length (gateways r));
  router_gateways : Forall (fun o => exists g gw, o = Some g /\ gws n !! g = Some gw /\ gateway_wf gw)
    (take (Z.to_nat (numberOfGateways r)) (gateways r))
}.

Lemma route_loop_spec m linkid l cnt n :
  (cnt <= length l)%nat ->
  Forall (fun o => exists g gw, o = Some g /\ gws n !! g = Some gw /\ gateway_wf gw) (take cnt l) ->
  route_loop m linkid l cnt n =
    Some (emits ((fun g => Sent g m) <$> omap (routed m linkid n) (take cnt l)) n).
Proof.
  revert l n. induction cnt as [|cnt IH]; intros l n Hc Hl.
  { exact (f_equal Some (eq_sym (emits_nil n))). }
  destruct l as [|o l]; [cbn in Hc; lia|]. cbn [take firstn] in *.
  apply Forall_cons in Hl as [(g & gw & -> & Hg & Hw) Hl]. cbn [length] in Hc.
  cbn [route_loop omap list_omap]. rewrite Hg. cbn [mbind option_bind].
  unfold routed at 1. cbn [mbind option_bind]. rewrite Hg. cbn [mbind option_bind].
  unfold shouldRouteThisMsgToGateway, shouldTopicForwarded.
  destruct (linkIdentifier gw =? linkid); cbn [negb andb mbind option_bind]; [by apply IH; [lia|]|].
  assert ((if forwardAll gw then Some true
           else TopicListReport.find (externalsubscribers gw) (get_topicId m)) =
          Some (forwardAll gw || bool_decide (get_topicId m ∈
                  TopicListReport.topics (externalsubscribers gw)))) as ->.
  { destruct (forwardAll gw); [done|]. apply TopicListReport.find_spec, Hw. }
  cbn [mbind option_bind].
  destruct (forwardAll gw || _); [|by apply IH; [lia|]].
  rewrite IH; [|lia|exact Hl]. unfold sendNetworkMessage. rewrite emit_emits, emits_emits. done.
Qed.

Lemma routeMsg_spec r m linkid n :
  router_wf r n -> wf m -> len_ok m ->
  if shouldRouteThisMsg m r then
    exists c, setCheckSum m = Some (put_checkSum c m) /\ in_u16 c /\
      routeMsg r m linkid n =
        Some (put_checkSum c m,
              emits ((fun g => Sent g (put_checkSum c m)) <$>
                omap (routed m linkid n) (take (Z.to_nat (numberOfGateways r)) (gateways r))) n)
  else routeMsg r m linkid n = Some (m, n).
Proof.
  intros [Hn Hg] Hm Hok. unfold routeMsg. destruct (shouldRouteThisMsg m r); [|done].
  destruct (setCheckSum_ok m Hm Hok) as (c & -> & Hc & Hw & _). exists c. split_and!; [done..|].
  cbn [mbind option_bind]. rewrite route_loop_spec by (done || lia). cbn [mbind option_bind].
  do 2 f_equal. f_equal. f_equal. apply list_omap_ext, Forall_Forall2_diag, Forall_forall.
  intros o _. unfold routed. destruct o as [g|]; [|done]. cbn [mbind option_bind].
  destruct (gws n !! g); [|done]. cbn [mbind option_bind]. msg_unfold. by msg_simpl.
Qed.

(** One hop: a node whose gateway has received [m] lowers the counter and
    routes the message, and the next node receives one of the copies it sends
    as [r], over a link that carries its bytes unchanged.  The UART is such a link;
    CAN is not: it writes a new counter and time of sending on every reception
    ([LinkCan.appendCANMsgToCurrentNetMsg]). *)
Inductive forwards (m r : msg) : Prop :=
  | Forwards rt linkid n m' n' g :
      wf m -> len_ok m -> router_wf rt n ->
      routeMsg rt (dec_maxStepsToForward m) linkid n = Some (m', n') ->
      Sent g m' ∈ drop (length (trace n)) (trace n') ->
      wf r -> take (length (wire m')) r = wire m' -> forwards m r.

Lemma len_dec m : wf m -> get_len (dec_maxStepsToForward m) = get_len m.
Proof. intros Hm. msg_unfold. by rewrite get_dec by (done || msg_off || lia). Qed.

Lemma steps_range m : wf m -> - 2 ^ 15 <= get_maxStepsToForward m < 2 ^ 15.
Proof.
  intros [Hl Hb]. unfold get_maxStepsToForward, get, bigEndianToInt16_t.
  destruct (bigEndianToUint16_t _); cbn -[swrap Z.pow]; [apply (swrap_range 16); lia|].
  split; [apply Z.leb_le|apply Z.ltb_lt]; reflexivity.
Qed.

Lemma forwards_step m r :
  forwards m r -> wf m /\ wf r /\ len_ok r /\
    get_maxStepsToForward r = swrap 16 (get_maxStepsToForward m - 1) /\ 0 < get_maxStepsToForward r.
Proof.
  intros [rt linkid n m' n' g Hm Hok Hrt Hroute Hsent Hr Hwire].
  pose proof (dec_maxSteps_wf m Hm) as Hd.
  assert (Hdok : len_ok (dec_maxStepsToForward m)) by (unfold len_ok in *; by rewrite len_dec).
  pose proof (routeMsg_spec rt _ linkid n Hrt Hd Hdok) as Hspec.
  destruct (shouldRouteThisMsg (dec_maxStepsToForward m) rt) eqn:Hshould.
  2: { rewrite Hspec in Hroute. simplify_eq. rewrite drop_all in Hsent. by apply not_elem_of_nil in Hsent. }
  destruct Hspec as (c & Hset & Hc & Hspec). rewrite Hspec in Hroute. simplify_eq.
  assert (Hw' : wf (put_checkSum c (dec_maxStepsToForward m))) by (unfold put_checkSum; msg_wf).
  assert (Hlen' : get_len (put_checkSum c (dec_maxStepsToForward m)) = get_len m).
  { rewrite <- (len_dec m) by done. msg_unfold. by msg_simpl. }
  assert (Hok' : len_ok (put_checkSum c (dec_maxStepsToForward m))) by (unfold len_ok in *; by rewrite Hlen').
  split_and!; [done..| | |].
  - unfold len_ok in *. unfold get_len. rewrite (get_wire 14 _ r Hw') by (done || msg_off).
    fold (get_len (put_checkSum c (dec_maxStepsToForward m))). by rewrite Hlen'.
  - unfold get_maxStepsToForward at 1. rewrite (get_wire 8 _ r Hw') by (done || msg_off).
    rewrite <- (dec_maxSteps_value m) by done. msg_unfold. by msg_simpl.
  - unfold get_maxStepsToForward at 1. rewrite (get_wire 8 _ r Hw') by (done || msg_off).
    unfold put_checkSum. rewrite get_put_other by (done || msg_off || lia).
    fold (get_maxStepsToForward (dec_maxStepsToForward m)).
    unfold shouldRouteThisMsg in Hshould.
    destruct (Z.leb_spec (get_maxStepsToForward (dec_maxStepsToForward m)) 0); [done|lia].
Qed.

(** ** Properties *)

Lemma forwards_chain (m r : msg) (k : nat) :
  - 2 ^ 15 < get_maxStepsToForward m -> wf m -> nsteps forwards k m r ->
  Z.of_nat k <= Z.max 0 (get_maxStepsToForward m - 1) /\
  get_maxStepsToForward r = get_maxStepsToForward m - Z.of_nat k.
Proof.
  intros Hs Hm Hk. revert m Hs Hm Hk. induction k as [|k IH]; intros m Hs Hm Hk.
  { inversion Hk; subst. lia. }
  inversion Hk as [|? ? m1 ? H1 H2]; subst.
  destruct (forwards_step _ _ H1) as (_ & Hw1 & _ & Hsteps & Hpos).
  assert (Hval : get_maxStepsToForward m1 = get_maxStepsToForward m - 1).
  { rewrite Hsteps. pose proof (steps_range m Hm). rewrite <- (Z.add_0_r (_ - 1)) at 1.
    unfold swrap. change (2 ^ 16) with 65536 in *. change (2 ^ (16 - 1)) with 32768 in *.
    change (2 ^ 15) with 32768 in *. zlia. }
  destruct (IH m1) as [Hb He]; [change (2 ^ 15) with 32768 in *; lia|done|done|].
  rewrite He, Hval. lia.
Qed.


Section DeliveryProperties.
Context (receive prolog epilog : Z -> Z -> Z -> NetMsgInfo.t -> list Z -> list Z).

Lemma ready_received n g gw m :
  ready n g gw -> wf m ->
  ready (on_gw g (set_inMessage m) n) g (set_inMessage m gw).
Proof.
  intros [H1 H2 H3 H4] Hm. split; [|done..].
  rewrite on_gw_lookup, decide_True, H1 by done. done.
Qed.

Lemma app_node_received n g m id : app_node n id -> app_node (on_gw g (set_inMessage m) n) id.
Proof.
  intros [H1 (rt & H2 & H3 & H4 & H5)]. split; [|by exists rt].
  eapply Forall_impl; [exact H1|]. intros t Hx Ht. by destruct (Hx Ht) as [? ? ?]; split.
Qed.

(** The reception of a message that carries [topicId] and [data], and of the
    same message again. *)
Lemma receive_twice big dummy self g gw n r topicId data info size :
  read_only receive -> ready n g gw -> wf r -> carries r topicId data info ->
  (length data <= MAX_NETWORK_MESSAGE_LENGTH)%nat ->
  fresh n (NetMsgInfo.senderNode info) (NetMsgInfo.sentTime info) -> 0 < topicId ->
  app_node n topicId -> size < 0 \/ size = 36 + Z.of_nat (length data) ->
  exists n' n'',
    run_round receive prolog epilog big dummy self g r size n = Some n' /\
    trace n' = trace n ++ deliveries topicId (received_info (linkIdentifier gw) r)
                            (userDataC r) (topicList n) /\
    run_round receive prolog epilog big dummy self g r size n' = Some n'' /\
    trace n'' = trace n'.
Proof.
  intros Hro Hready Hr Hc Hlen Hfresh Hid Happ Hsize.
  pose proof Hc as [C1 C2 C3 C4 C5 C6 C7 C8 C9 C10].
  assert (Hok : len_ok r) by (unfold len_ok; rewrite C8; lia).
  rewrite <- C8 in Hsize. rewrite <- C2, <- C4 in Hfresh.
  rewrite run_round_Analyse by done.
  destruct (Analyse_delivers receive prolog epilog big dummy self g (set_inMessage r gw)
    (on_gw g (set_inMessage r) n)) as (n' & Ha & Htr & Hfree & Htl & Hnr & Hsw & Hsm & gw' & Hg' & _).
  - done.
  - by apply ready_received.
  - cbn [networkInMessage set_inMessage]. by destruct Hfresh; split.
  - done.
  - cbn [networkInMessage set_inMessage]. by rewrite C1.
  - cbn [networkInMessage set_inMessage]. rewrite C1. by apply app_node_received.
  - cbn [networkInMessage set_inMessage linkIdentifier] in *.
    destruct (Analyse_seen receive prolog epilog big dummy self g (set_inMessage r gw')
      (on_gw g (set_inMessage r) n')) as (l & Hs).
    + split; [rewrite on_gw_lookup, decide_True, Hg' by done; done|done..].
    + cbn [networkInMessage set_inMessage myNodeNr on_gw set_gws]. rewrite Hnr. apply Hfresh.
    + done.
    + cbn [networkInMessage set_inMessage seenNodes on_gw set_gws]. rewrite Hsm.
      apply lookup_insert_eq.
    + apply Hfresh.
    + do 2 eexists. split; [exact Ha|]. split; [by rewrite Htr, C1|].
      split; [by rewrite run_round_Analyse|done].
Qed.

(** What the reception of [m] by the gateway [gB] of the node [nB] does: every
    enabled subscriber of every topic with the id is called once and in the order of
    the list, with a buffer that begins with [data] and with the sender's node and
    time; when the link delivers [m] again nothing happens.  The link writes the
    bytes of the message into the buffer of the gateway. *)
Definition delivered (big : bool) (dummy info : NetMsgInfo.t) (self : Z) (id : Z) (data : list Z) (size : Z)
    (gB : nat) (gwB : gateway) (nB : node) (m : msg) : Prop :=
  let r := wire m ++ drop (length (wire m)) (networkInMessage gwB) in
  exists nB' nB'' info' d,
    run_round receive prolog epilog big dummy self gB r size nB = Some nB' /\
    trace nB' = trace nB ++ deliveries id info' d (topicList nB) /\
    take (length data) d = data /\ NetMsgInfo.senderNode info' = NetMsgInfo.senderNode info /\
    NetMsgInfo.sentTime info' = NetMsgInfo.sentTime info /\
    run_round receive prolog epilog big dummy self gB r size nB' = Some nB'' /\
    trace nB'' = trace nB'.

Lemma carried_delivered big dummy self id data size nB gB gwB m info node bm :
  read_only receive -> ready nB gB gwB -> fresh nB (NetMsgInfo.senderNode info) (NetMsgInfo.sentTime info) ->
  app_node nB id -> 0 < id -> (length data <= MAX_NETWORK_MESSAGE_LENGTH)%nat ->
  size < 0 \/ size = 36 + Z.of_nat (length data) ->
  wf m -> carries m id data (NetMsgInfo.set_receiver node bm info) ->
  delivered big dummy info self id data size gB gwB nB m.
Proof.
  intros Hro HrB HfB HaB Hpos Hlen Hsz Hm Hc. unfold delivered.
  set (r := wire m ++ _).
  assert (Hok : len_ok m) by (unfold len_ok; rewrite (carries_len _ _ _ _ Hc); lia).
  pose proof (length_wire m Hm Hok) as Hwl. rewrite (carries_len _ _ _ _ Hc) in Hwl.
  assert (Hr : wf r).
  { destruct HrB as [_ [Hil Hib] _ _]. unfold r. split.
    - rewrite length_app, length_drop, Hil. unfold MAX_NETWORK_MESSAGE_LENGTH, HEADER_SIZE in *. lia.
    - apply Forall_app. split; [apply Forall_take, Hm|apply Forall_drop, Hib]. }
  assert (Hcr : carries r id data (NetMsgInfo.set_receiver node bm info)).
  { apply (carries_wire m); try done. unfold r. by rewrite take_app_length. }
  destruct (receive_twice big dummy self gB gwB nB r id data _ size Hro HrB Hr Hcr Hlen HfB Hpos HaB Hsz)
    as (nB' & nB'' & R1 & R2 & R3 & R4).
  exists nB', nB'', (received_info (linkIdentifier gwB) r), (userDataC r).
  split_and!; [done..|apply Hcr|apply Hcr|apply Hcr|done|done].
Qed.

(** C12: Publish/subscribe across the network.  A node publishes [data] of at most
    1300 bytes on a topic that has no filter, is not only local and has external
    subscribers (its bit map of receivers is not 0).  Then every enabled subscriber
    of the topic on this node is called once and in order, and after that the
    message is sent exactly once through each enabled gateway that forwards
    everything or has the topic in its list, in the order of the gateways, and
    through no other.  When the link of any of them carries the bytes unchanged
    into the buffer of a gateway of another node, which has no router and to which
    the message is new, every enabled subscriber of every topic with this id is
    called there exactly once and in order, with a buffer that begins with [data]
    and with the sender's node and time; and when the link delivers the message
    again nothing happens.  The receivers only read. *)
Theorem network_delivery (big : bool) (dummyA dummyB info : NetMsgInfo.t) (self : Z)
    (tA : TopicInterface sub_kind) (data : list Z) (size : Z)
    (nA nB : node) (gB : nat) (gwB : gateway) :
  let id := topicId tA in
  let len := Z.of_nat (length data) in
  read_only receive ->
  Forall (fun s => is_Some (app_receiver s)) (mySubscribers tA) -> topicFilter tA = None ->
  onlyLocal tA = false -> gateways_of nA (gatewaySubscribers nA) ->
  in_u32 (receiverNodesBitMap tA) -> receiverNodesBitMap tA <> 0 ->
  in_u32 id -> 0 < id -> bytes data -> NetMsgInfo.ok info ->
  (length data <= MAX_NETWORK_MESSAGE_LENGTH)%nat ->
  ready nB gB gwB -> fresh nB (NetMsgInfo.senderNode info) (NetMsgInfo.sentTime info) ->
  app_node nB id -> size < 0 \/ size = 36 + len ->
  exists cnt nA' sent,
    node_publish receive prolog epilog dummyA tA len true (Some info) data nA = Some (cnt, (data, nA')) /\
    trace nA' = trace nA ++ receptions id len info data (mySubscribers tA) ++ sent /\
    Forall2 (fun g e => exists m, e = Sent g m /\ delivered big dummyB info self id data size gB gwB nB m)
      (omap (transmits nA id) (gatewaySubscribers nA)) sent.
Proof.
  intros id len Hro Hs Hf Hl Hgs Hbm _ Hid Hpos Hd Hi Hlen HrB HfB HaB Hsz.
  destruct (publish_network receive prolog epilog dummyA tA len info data nA)
    as (cnt & nA' & node & bm & evs & Hpub & Htr & HF); try done; [lia|].
  exists cnt, nA', evs. split; [done|]. split; [done|]. eapply Forall2_impl; [exact HF|].
  intros g e (m & -> & Hm & _ & Hc). exists m. split; [done|].
  assert (min len (Z.of_nat MAX_NETWORK_MESSAGE_LENGTH) = len) as Hmin.
  { unfold min. by destruct (Z.ltb_spec len (Z.of_nat MAX_NETWORK_MESSAGE_LENGTH)); [|lia]. }
  rewrite Hmin in Hc. unfold len in Hc. rewrite Nat2Z.id, firstn_all in Hc.
  by apply (carried_delivered big dummyB self id data size nB gB gwB m info node bm).
Qed.

(** A valid message in which one byte of the checksum or of the protected
    part, the length field excepted, was changed on the way is dropped, and so
    are a message from the node itself and one whose measured size is not that
    of its header: nothing is delivered, nothing forwarded and no state
    changes but the contents of the receive buffer. *)
Theorem gateway_drops_invalid (big : bool) (dummy : NetMsgInfo.t) (self : Z) (g : nat)
    (gw : gateway) (n : node) (m : msg) (i : nat) (a b size : Z) :
  gws n !! g = Some gw -> wf m -> len_ok m -> isCheckSumOk m = Some true ->
  in_u8 b -> m !! i = Some a -> a <> b -> (10 <= i)%nat -> (i < 14 \/ 16 <= i)%nat ->
  Z.of_nat i < 36 + get_len m ->
  run_round receive prolog epilog big dummy self g (<[i := b]> m) size n =
    Some (on_gw g (set_inMessage (<[i := b]> m)) n) /\
  (get_senderNode m = myNodeNr n ->
   run_round receive prolog epilog big dummy self g m size n = Some (on_gw g (set_inMessage m) n)) /\
  (0 <= size -> size <> 36 + get_len m ->
   run_round receive prolog epilog big dummy self g m size n = Some (on_gw g (set_inMessage m) n)).
Proof.
  intros Hg Hm Hok Hsum Hb Ha Hne Hi Hi' Hlt.
  assert (Hbad : isCheckSumOk (<[i:=b]> m) = Some false) by by apply (corrupted_message m i a b).
  assert (Hround : forall m', wf m' ->
    (get_senderNode m' = myNodeNr n \/ isCheckSumOk m' = Some false) ->
    run_round receive prolog epilog big dummy self g m' size n = Some (on_gw g (set_inMessage m') n)).
  { intros m' Hm' Hd.
    assert (HA : AnalyseAndDistributeMessagesFromNetwork receive prolog epilog big dummy self g
              (on_gw g (set_inMessage m') n) = Some (on_gw g (set_inMessage m') n)).
    { apply (Analyse_discards _ _ _ _ _ _ _ (set_inMessage m' gw)); [|done].
      rewrite on_gw_lookup, decide_True, Hg by done. done. }
    unfold run_round. rewrite HA. by repeat case_match. }
  split; [|split].
  - apply Hround; [by apply insert_wf|by right].
  - intros He. apply Hround; [done|by left].
  - intros H0 Hs. unfold run_round. destruct (Z.ltb_spec size 0); [lia|].
    destruct (_ <=? _); [|done]. rewrite bytesToSend_ok by done.
    destruct (Z.eqb_spec size (Z.of_nat HEADER_SIZE + get_len m)); [unfold HEADER_SIZE in *; lia|done].
Qed.
End DeliveryProperties.

(** C14: [messageSeen] implements a map from nodes to the time of the last
    message accepted from them: a message is new exactly when its sender is
    unknown, or it was sent after the last accepted one, or more than five
    seconds before it; a new message advances the entry of its sender and no
    other, a repeated one changes nothing; the semaphore is free again; and
    the same message is not accepted twice in a row. *)
Theorem seen_nodes_refine (self self' : Z) (m : msg) (n : node) :
  let id := get_senderNode m in
  let t := get_sentTime m in
  let seen n := seen_map (seenNodes n) in
  protector n = None -> seen_wf (seenNodes n) -> in_i64 (t - 1) ->
  (forall last, seen n !! id = Some last -> in_i64 (last - t)) ->
  (is_Some (seen n !! id) \/ Z.of_nat (length (seenNodes n)) < MAX_NUMBER_OF_NODES) ->
  exists n', messageSeen self m n = Some (negb (is_new (seen n !! id) t), n') /\
    seen n' = (if is_new (seen n !! id) t then <[id := t]> (seen n) else seen n) /\
    seen_wf (seenNodes n') /\ protector n' = None /\
    (is_new (seen n !! id) t = true -> exists n'', messageSeen self' m n' = Some (true, n'')).
Proof.
  intros id t seen Hfree Hw Ht Hd Hroom.
  destruct (messageSeen_spec self m n Hfree Hw Ht Hd Hroom) as (l & Hms & Hlw & Hlm).
  exists (set_seen l n). split; [exact Hms|]. split; [exact Hlm|]. split_and!; [done..|].
  intros Hnew. fold id t in Hlm. unfold seen in Hnew. rewrite Hnew in Hlm.
  assert (Hl : seen_map l !! id = Some t) by (rewrite Hlm; apply lookup_insert_eq).
  destruct (messageSeen_spec self' m (set_seen l n)) as (l' & Hms' & _ & _); try done.
  - fold id t. cbn [seenNodes set_seen]. intros last. rewrite Hl. intros [= <-].
    rewrite Z.sub_diag. by split.
  - left. fold id. cbn [seenNodes set_seen]. by rewrite Hl.
  - fold id t in Hms'. cbn [seenNodes set_seen] in Hms'. rewrite Hl in Hms'. unfold is_new in Hms'.
    rewrite Z.ltb_irrefl, Z.sub_diag in Hms'. cbn in Hms'. by eexists.
Qed.

(** When the table of nodes is full, a message from a further node is
    accepted without being recorded, so that every repetition of it is
    accepted again; and [messageSeen] returns without leaving its semaphore:
    from then on every other gateway thread that receives a message waits for
    ever. *)
Theorem seen_table_full (self other : Z) (m m' : msg) (n : node) :
  protector n = None -> Z.of_nat (length (seenNodes n)) = MAX_NUMBER_OF_NODES ->
  (get_senderNode m ∉ nodeID <$> seenNodes n) -> other <> self ->
  exists n', messageSeen self m n = Some (false, n') /\ seenNodes n' = seenNodes n /\
    protector n' = Some (self, 1) /\ messageSeen other m' n' = None /\
    exists n'', messageSeen self m n' = Some (false, n'').
Proof.
  intros Hfree Hfull Hid Hne.
  assert (Hnone : find_seen (get_senderNode m) (seenNodes n) = None).
  { destruct (find_seen _ _) as [i|] eqn:Hf; [|done].
    destruct (find_seen_Some _ _ _ Hf) as (s & Hi & Hs). exfalso. apply Hid.
    apply list_elem_of_fmap. exists s. split; [done|]. by eapply list_elem_of_lookup_2. }
  exists (set_protector (Some (self, 1)) n). split_and!; [|done|done| |].
  - unfold messageSeen. rewrite enter_free by done. cbn [mbind option_bind seenNodes set_protector].
    rewrite Hnone. by rewrite Hfull, Z.ltb_irrefl.
  - unfold messageSeen, enter_seen. cbn [protector set_protector].
    destruct (Z.eqb_spec self other); [congruence|done].
  - eexists. unfold messageSeen, enter_seen. cbn [protector set_protector].
    rewrite Z.eqb_refl. cbn [mbind option_bind seenNodes set_protector].
    rewrite Hnone, Hfull, Z.ltb_irrefl. done.
Qed.

(** A router sends a message, with a valid checksum and otherwise
    unchanged, exactly once through each of its gateways that forwards the
    topic, in order, and never back over the link it came from; a message
    whose counter of steps is used up, or a report of topics that the router
    was not told to forward, is not sent at all. *)
Theorem router_forwards (r : router) (m : msg) (linkid : Z) (n : node) :
  router_wf r n -> wf m -> len_ok m ->
  (get_maxStepsToForward m <= 0 \/ (get_topicId m = 0 /\ forwardTopicReports r = false) ->
   routeMsg r m linkid n = Some (m, n)) /\
  (0 < get_maxStepsToForward m -> (get_topicId m <> 0 \/ forwardTopicReports r = true) ->
   exists m' sent, routeMsg r m linkid n = Some (m', emits ((fun g => Sent g m') <$> sent) n) /\
     isCheckSumOk m' = Some true /\ (exists c, m' = put_checkSum c m) /\
     sublist sent (omap (fun o => o) (take (Z.to_nat (numberOfGateways r)) (gateways r))) /\
     forall g gw, gws n !! g = Some gw ->
       (g ∈ sent <-> Some g ∈ take (Z.to_nat (numberOfGateways r)) (gateways r) /\
          linkIdentifier gw <> linkid /\
          (forwardAll gw = true \/
           get_topicId m ∈ TopicListReport.topics (externalsubscribers gw)))).
Proof.
  intros Hr Hm Hok. pose proof (routeMsg_spec r m linkid n Hr Hm Hok) as Hspec.
  unfold shouldRouteThisMsg in Hspec. split.
  - intros Hno. destruct (Z.leb_spec (get_maxStepsToForward m) 0); [done|].
    destruct Hno as [|[H1 H2]]; [lia|]. by rewrite H1, H2 in Hspec.
  - intros Hs Ht. destruct (Z.leb_spec (get_maxStepsToForward m) 0); [lia|].
    assert ((get_topicId m =? 0) && negb (forwardTopicReports r) = false) as Hb.
    { destruct Ht as [Ht| ->]; [by destruct (Z.eqb_spec (get_topicId m) 0)|by rewrite andb_false_r]. }
    rewrite Hb in Hspec. destruct Hspec as (c & Hset & Hc & ->).
    destruct (setCheckSum_ok m Hm Hok) as (c' & Hset' & _ & _ & Hsum). rewrite Hset in Hset'.
    simplify_eq. do 2 eexists. split; [done|]. rewrite <- Hset' in Hsum.
    split; [done|]. split; [by exists c|]. split.
    { apply omap_sublist. intros o g. apply routed_inv. }
    intros g gw Hg. rewrite list_elem_of_omap. split.
    + intros (o & Ho & Hro). pose proof (routed_inv _ _ _ _ _ Hro) as ->.
      split; [done|]. by apply (routed_iff m linkid n g gw Hg).
    + intros (Hin & Hcond). exists (Some g). split; [done|]. by apply (routed_iff m linkid n g gw Hg).
Qed.

(** ** Instances of the properties

    A node [nr] with one gateway on link 10000, the topics of the system and a
    topic 1234 of the application. *)

Definition sampleBuffer : msg := repeat 0 1336.
Definition sampleInfo : NetMsgInfo.t := NetMsgInfo.mk 7 0x20001000 1000000 (-1) 0 0 0.
Definition sampleGateway : gateway :=
  mkGateway 10000 true true (TopicListReport.init (repeat 0 60)) true sampleBuffer sampleBuffer.
Definition sampleTopic (subs : list (Subscriber sub_kind)) : TopicInterface sub_kind :=
  mkTopic 2 1234 4 false None 0x10 subs.
Definition sampleNode (nr : Z) (gateways subs : list (Subscriber sub_kind)) : node :=
  mkNode nr [sampleGateway] [mkRouter [Some 0%nat] 1 false sampleBuffer] [] None 0
    [sampleTopic subs; mkTopic DEFAULT_ROUTER_TOPIC 2000 1336 false None 0 [];
     mkTopic DEFAULT_GATEWAY_TOPIC 0 24 false None 0xFFFFFFFF gateways] [].
Definition readOnly (p topicId len : Z) (info : NetMsgInfo.t) (d : list Z) : list Z := d.

Lemma sampleBuffer_wf : wf sampleBuffer.
Proof.
  split; [done|]. apply Forall_forall. intros x Hx.
  apply list_elem_of_In, repeat_spec in Hx. subst. zlia.
Qed.

Lemma sampleInfo_ok : NetMsgInfo.ok sampleInfo.
Proof. split; cbn; lia || zlia. Qed.

Lemma sampleGateway_wf : gateway_wf sampleGateway.
Proof. split; [apply sampleBuffer_wf|]. by split; [split; vm_compute|]. Qed.

Lemma sampleData_bytes : bytes [1; 2; 3; 254].
Proof. solve_bytes. Qed.

(** A message from [prepareNetworkMessage]. *)
Lemma sampleMessage :
  exists m, prepareNetworkMessage sampleBuffer 1234 [1; 2; 3; 254] 4 sampleInfo = Some m /\
    wf m /\ len_ok m /\ get_maxStepsToForward m = 10 /\ carries m 1234 [1; 2; 3; 254] sampleInfo.
Proof.
  destruct (prepare_carries sampleBuffer 1234 [1; 2; 3; 254] 4 sampleInfo)
    as (m & Hp & Hm & Hs & Hc);
    [apply sampleBuffer_wf|apply sampleData_bytes|zlia|apply sampleInfo_ok
    |by split; vm_compute|].
  exists m. split_and!; [done..| |done|done].
  unfold len_ok. rewrite (carries_len _ _ _ _ Hc). vm_compute. discriminate.
Qed.

Lemma sampleRouter_wf nr gateways subs :
  router_wf (mkRouter [Some 0%nat] 1 false sampleBuffer) (sampleNode nr gateways subs).
Proof.
  split; [cbn; lia|]. apply Forall_cons. split; [|constructor].
  exists 0%nat, sampleGateway. split_and!; [done|done|apply sampleGateway_wf].
Qed.


(** A node with a gateway that forwards everything, one that has the topic in its
    list, and one whose list is empty; the first is subscribed a second time, but
    disabled. *)
Definition sampleSender : node :=
  mkNode 7 [sampleGateway;
            mkGateway 10001 true false (TopicListReport.mk 1 (1234 :: repeat 0 59)) true sampleBuffer sampleBuffer;
            mkGateway 10002 true false (TopicListReport.init (repeat 0 60)) true sampleBuffer sampleBuffer]
    [] [] None 0
    [sampleTopic []; mkTopic DEFAULT_GATEWAY_TOPIC 0 24 false None 0xFFFFFFFF
       [mkSub 0 true true (GatewaySubscriber 2); mkSub 0 true true (GatewaySubscriber 1);
        mkSub 0 true false (GatewaySubscriber 0); mkSub 0 true true (GatewaySubscriber 0)]] [].
Lemma sampleSender_gateways : gateways_of sampleSender (gatewaySubscribers sampleSender).
Proof.
  repeat (apply Forall_cons; split); [do 2 eexists; split; [reflexivity|]; split; [reflexivity|]..|constructor];
    (split; [apply sampleBuffer_wf|]; by split; [split; vm_compute|]).
Qed.

Lemma sample_app_node subs : Forall (fun s => is_Some (app_receiver s)) subs -> app_node (sampleNode 9 [] subs) 1234.
Proof.
  intros Hs. split.
  - repeat (apply Forall_cons; split); [|intros Hx; done..|constructor].
    intros _. split; [done|done|]. intros t Ht Hr. cbn in Ht. rewrite !elem_of_cons in Ht.
    destruct Ht as [->|[->|[->|Ht]]]; [done|done|done|by apply not_elem_of_nil in Ht].
  - eexists. split_and!; [done..|]. intros t Ht Hr. cbn in Ht. rewrite !elem_of_cons in Ht.
    destruct Ht as [->|[->|[->|Ht]]]; [done|done|done|by apply not_elem_of_nil in Ht].
Qed.

Lemma network_delivery_witness :
  let subs := [mkSub 2 false true (PlainSubscriber (Some (UserPutter 5)));
               mkSub 2 false true (SubscriberReceiver (Some 6))] in
  exists cnt nA' m1 m0,
    node_publish readOnly readOnly readOnly sampleInfo (sampleTopic []) 4 true (Some sampleInfo)
      [1; 2; 3; 254] sampleSender = Some (cnt, ([1; 2; 3; 254], nA')) /\
    trace nA' = [Sent 1 m1; Sent 0 m0] /\
    exists nB', run_round readOnly readOnly readOnly false sampleInfo 1 0
      (wire m0 ++ drop (length (wire m0)) sampleBuffer) (-1) (sampleNode 9 [] subs) = Some nB' /\
    length (trace nB') = 2%nat.
Proof.
  set (subs := [_; _]).
  destruct (network_delivery readOnly readOnly readOnly false sampleInfo sampleInfo sampleInfo 1
    (sampleTopic []) [1; 2; 3; 254] (-1) sampleSender (sampleNode 9 [] subs) 0 sampleGateway)
    as (cnt & nA' & sent & Hp & Htr & HF);
    [by intros p id len i l|constructor|reflexivity..|apply sampleSender_gateways
    |cbn; zlia|done|cbn; zlia|cbn; lia|apply sampleData_bytes|apply sampleInfo_ok
    |unfold MAX_NETWORK_MESSAGE_LENGTH; cbn; lia| | | |by left|].
  - split; [done|apply sampleBuffer_wf|done|]. split; [constructor|cbn; unfold MAX_NUMBER_OF_NODES; lia].
  - split; cbn; [lia|done| |right; unfold MAX_NUMBER_OF_NODES; lia|done].
    intros last Hl. done.
  - apply sample_app_node. apply Forall_cons. split; [by eexists|]. apply Forall_cons. split; [by eexists|constructor].
  - change (omap (transmits sampleSender (topicId (sampleTopic []))) (gatewaySubscribers sampleSender)) with [1%nat; 0%nat] in HF.
    inversion HF as [|? ? ? ? (m1 & -> & _) HF1]; subst. inversion HF1 as [|? ? ? ? (m0 & -> & nB' & nB'' & i' & d & Hr & Ht & _) HF0]; subst.
    inversion HF0; subst. exists cnt, nA', m1, m0. split; [exact Hp|]. split; [exact Htr|].
    exists nB'. split; [exact Hr|]. by rewrite Ht.
Defined.

Lemma gateway_drops_invalid_witness :
  exists m, wf m /\ isCheckSumOk m = Some true /\
    run_round readOnly readOnly readOnly false sampleInfo 1 0 (<[36%nat := 99]> m) (-1) (sampleNode 9 [] []) =
    Some (on_gw 0 (set_inMessage (<[36%nat := 99]> m)) (sampleNode 9 [] [])).
Proof.
  destruct sampleMessage as (m & _ & Hm & Hok & Hs & Hc). exists m.
  split; [exact Hm|]. split; [apply Hc|].
  assert (H36 : m !! 36%nat = Some 1).
  { pose proof (carries_data _ _ _ _ Hc) as Hd. unfold userDataC, HEADER_SIZE in Hd.
    pose proof (f_equal (fun l => l !! 0%nat) Hd) as H0. cbv beta in H0.
    rewrite lookup_take_lt, lookup_drop in H0 by (cbn; lia). exact H0. }
  apply (gateway_drops_invalid readOnly readOnly readOnly false sampleInfo 1 0 sampleGateway
    (sampleNode 9 [] []) m 36 1 99 (-1));
    [reflexivity|exact Hm|exact Hok|apply Hc|zlia|exact H36|lia|lia|lia|].
  rewrite (carries_len _ _ _ _ Hc). cbn. lia.
Defined.

Lemma seen_nodes_refine_witness :
  exists n', messageSeen 1 sampleBuffer (sampleNode 9 [] []) = Some (false, n') /\
    exists n'', messageSeen 2 sampleBuffer n' = Some (true, n'').
Proof.
  destruct (seen_nodes_refine 1 2 sampleBuffer (sampleNode 9 [] [])) as (n' & H1 & _ & _ & _ & H2).
  - done.
  - split; [constructor|cbn; unfold MAX_NUMBER_OF_NODES; lia].
  - by vm_compute.
  - intros last Hl. done.
  - right. cbn. unfold MAX_NUMBER_OF_NODES. lia.
  - exists n'. split; [exact H1|]. by apply H2.
Defined.

Lemma seen_table_full_witness :
  let n := set_seen (map (fun i => mkSeen i 0) [1; 2; 3; 4; 5; 6; 7; 8; 9; 10]) (sampleNode 9 [] []) in
  exists n', messageSeen 1 sampleBuffer n = Some (false, n') /\ messageSeen 2 sampleBuffer n' = None.
Proof.
  intros n. destruct (seen_table_full 1 2 sampleBuffer sampleBuffer n) as (n' & H1 & _ & _ & H2 & _).
  - done.
  - done.
  - assert (get_senderNode sampleBuffer = 0) as -> by (vm_compute; reflexivity).
    apply (bool_decide_unpack _). vm_compute. exact I.
  - done.
  - exists n'. by split.
Defined.

Lemma router_forwards_witness :
  exists m m', wf m /\
    routeMsg (mkRouter [Some 0%nat] 1 false sampleBuffer) m 10001 (sampleNode 9 [] []) =
      Some (m', emits [Sent 0 m'] (sampleNode 9 [] [])).
Proof.
  destruct sampleMessage as (m & _ & Hm & Hok & Hs & Hc). exists m.
  destruct (router_forwards (mkRouter [Some 0%nat] 1 false sampleBuffer) m 10001 (sampleNode 9 [] [])
    (sampleRouter_wf 9 [] []) Hm Hok) as [_ Hf].
  destruct Hf as (m' & sent & Hr & _ & _ & Hsub & Hin); [lia|left; rewrite (carries_topic _ _ _ _ Hc); done|].
  exists m'. split; [exact Hm|]. rewrite Hr.
  assert (sent = [0%nat]) as ->; [|done].
  assert (H0 : 0%nat ∈ sent).
  { apply (Hin 0%nat sampleGateway); [done|]. split; [apply list_elem_of_here|]. split; [done|by left]. }
  cbn in Hsub. inversion Hsub as [|x l1 l2 Hs1|x l1 l2 Hs1]; subst;
    inversion Hs1; subst; [done|by apply not_elem_of_nil in H0].
Defined.

End Gateway.
