(* ===== verification/TopicRegister.v ===== *)
(** * The distributed topic register
    (support/support-libs/distributed-topic-register.cpp)

    Every node publishes the ids of its topics that have subscribers and notes
    in the bitmap of each of its own topics which other nodes subscribe to it.
    The main results: the bitmaps are exactly the union of the reports, less
    the nodes that have been silent for more than ten seconds. *)

From S2P Require Import Prelude ByteStream TimeEvents TopicListReport Topic.

Module TopicRegister.
Import TimeEvents.TimeModel Topic.

Definition MAX_NUM_OF_NODES : nat := 32.

Record TopicListPerNode := mkList {
  nodeNr : Z;
  nodeIndex : Z;
  topicListReport : TopicListReport.t
}.

Section Register.
Context {K : Type}.

Record register := mkRegister {
  lastReportTimeOfNode : list Z;
  topicListFromMyNode : TopicListPerNode;
  topicList : list (TopicInterface K)
}.

(** The constructor. *)
Definition newRegister (l : TopicListPerNode) (topics : list (TopicInterface K)) : register :=
  mkRegister (repeat END_OF_TIME MAX_NUM_OF_NODES) l topics.

(** [run], the preparations: the local topics with subscribers. *)
Fixpoint add_local (topics : list (TopicInterface K)) (r : TopicListReport.t)
    : option TopicListReport.t :=
  match topics with
  | [] => Some r
  | iter :: topics =>
      r ← (match mySubscribers iter with
           | [] => Some r
           | _ :: _ => TopicListReport.add r (topicId iter)
           end);
      add_local topics r
  end.
Definition prepare (s : register) : option register :=
  r ← add_local (topicList s) (topicListReport (topicListFromMyNode s));
  Some (mkRegister (lastReportTimeOfNode s)
          (mkList (nodeNr (topicListFromMyNode s)) (nodeIndex (topicListFromMyNode s)) r)
          (topicList s)).

(** The fields of the report that one round of [TIME_LOOP] publishes. *)
Definition stamp (nodeNumber : Z) (s : register) : register :=
  mkRegister (lastReportTimeOfNode s)
    (mkList (u32 nodeNumber) (u8 (u32 nodeNumber mod Z.of_nat MAX_NUM_OF_NODES))
       (topicListReport (topicListFromMyNode s)))
    (topicList s).

(** The loop over the nodes that removes the dead ones from the bitmaps. *)
Definition clear_bit (zeroAtBitPos : Z) (t : TopicInterface K) : TopicInterface K :=
  set_bitMap (Z.land (receiverNodesBitMap t) zeroAtBitPos) t.
Fixpoint dead_loop (definitionOfVeryOld : Z) (times : list Z) (i : Z)
    (topics : list (TopicInterface K)) : list (TopicInterface K) :=
  match times with
  | [] => topics
  | time :: times =>
      dead_loop definitionOfVeryOld times (i + 1)
        (if time <? definitionOfVeryOld
         then map (clear_bit (u32 (Z.lnot (Z.shiftl 1 i)))) topics else topics)
  end.
Definition find_dead (now : Z) (s : register) : option register :=
  veryOld ← i64 (now - 10 * SECONDS);
  Some (mkRegister (lastReportTimeOfNode s) (topicListFromMyNode s)
          (dead_loop veryOld (lastReportTimeOfNode s) 0 (topicList s))).

(** [put]: a report of another node. *)
Fixpoint mark (report : TopicListReport.t) (oneAtBitPos : Z)
    (topics : list (TopicInterface K)) : option (list (TopicInterface K)) :=
  match topics with
  | [] => Some []
  | iter :: topics =>
      found ← TopicListReport.find report (topicId iter);
      topics ← mark report oneAtBitPos topics;
      Some ((if (found : bool)
             then set_bitMap (Z.lor (receiverNodesBitMap iter) oneAtBitPos) iter
             else iter) :: topics)
  end.
Definition put (nodeNumber now : Z) (hisTopics : TopicListPerNode) (s : register)
    : option register :=
  if nodeNr hisTopics =? u32 nodeNumber then Some s
  else
    oneAtBitPos ← shl32 1 (nodeIndex hisTopics);
    times ← wr (lastReportTimeOfNode s) (nodeIndex hisTopics) now;
    topics ← mark (topicListReport hisTopics) oneAtBitPos (topicList s);
    Some (mkRegister times (topicListFromMyNode s) topics).

(** ** The bitmaps *)

(** [subscribed s i t]: bit [i] of the topic [t]. *)
Definition subscribed (i : Z) (t : TopicInterface K) : bool :=
  Z.testbit (receiverNodesBitMap t) i.

(** Bit [j] may differ, every other bit and field is the same. *)
Definition same_topic (t t' : TopicInterface K) : Prop :=
  t' = set_bitMap (receiverNodesBitMap t') t.

Lemma lor_bit x i j :
  0 <= i < 32 -> 0 <= j -> Z.testbit (Z.lor x (u32 (Z.shiftl 1 i))) j = Z.testbit x j || (j =? i).
Proof.
  intros Hi Hj. rewrite Z.lor_spec, u32_testbit by done. f_equal.
  rewrite Z.shiftl_spec by done. destruct (Z.eqb_spec j i) as [->|Hne].
  - rewrite Z.sub_diag. by destruct (Z.ltb_spec i 32); [|lia].
  - destruct (j <? 32); cbn [andb]; [|done].
    destruct (Z.ltb_spec j i); [by rewrite Z.testbit_neg_r by lia|].
    apply (Z.bits_above_log2 1); cbn; lia.
Qed.

Lemma land_lnot_bit x i j :
  0 <= i -> 0 <= j < 32 ->
  Z.testbit (Z.land x (u32 (Z.lnot (Z.shiftl 1 i)))) j = Z.testbit x j && negb (j =? i).
Proof.
  intros Hi Hj. rewrite Z.land_spec, u32_testbit by lia. f_equal.
  destruct (Z.ltb_spec j 32); [|lia]. cbn [andb].
  rewrite Z.lnot_spec, Z.shiftl_spec by lia. f_equal.
  destruct (Z.eqb_spec j i) as [->|Hne]; [by rewrite Z.sub_diag|].
  destruct (Z.ltb_spec j i); [by rewrite Z.testbit_neg_r by lia|].
  apply (Z.bits_above_log2 1); cbn; lia.
Qed.

Lemma mark_spec report i topics :
  TopicListReport.wf report -> 0 <= i < 32 ->
  exists topics', mark report (u32 (Z.shiftl 1 i)) topics = Some topics' /\
    Forall2 (fun t t' => same_topic t t' /\ forall j, 0 <= j ->
      subscribed j t' = subscribed j t ||
        ((j =? i) && bool_decide (topicId t ∈ TopicListReport.topics report))) topics topics'.
Proof.
  intros Hr Hi. induction topics as [|t topics (topics' & IH & HF)]; [by exists []|].
  cbn [mark]. rewrite TopicListReport.find_spec by done. rewrite IH. cbn [mbind option_bind].
  eexists. split; [done|]. constructor; [|done].
  case_bool_decide; (split; [by destruct t|]); intros j Hj; unfold subscribed; cbn [receiverNodesBitMap set_bitMap].
  - rewrite lor_bit by done. by rewrite andb_true_r.
  - by rewrite andb_false_r, orb_false_r.
Qed.

Lemma dead_loop_spec old times i topics :
  0 <= i ->
  Forall2 (fun t t' => same_topic t t' /\ forall j, 0 <= j < 32 ->
    subscribed j t' = subscribed j t &&
      negb (match rd times (j - i) with Some time => time <? old | None => false end))
    topics (dead_loop old times i topics).
Proof.
  revert i topics. induction times as [|time times IH]; intros i topics Hi.
  { cbn [dead_loop]. apply Forall_Forall2_diag, Forall_forall. intros t _.
    split; [by destruct t|]. intros j Hj. unfold rd. rewrite lookup_nil.
    by destruct (_ <? 0); rewrite andb_true_r. }
  cbn [dead_loop]. specialize (IH (i + 1)).
  assert (Hrd : forall j, rd (time :: times) (j - i) =
                 if j =? i then Some time else rd times (j - (i + 1))).
  { intros j. unfold rd. destruct (Z.eqb_spec j i) as [->|Hne]; [by rewrite Z.sub_diag|].
    destruct (Z.ltb_spec (j - i) 0), (Z.ltb_spec (j - (i + 1)) 0); try lia; try done.
    replace (Z.to_nat (j - i)) with (S (Z.to_nat (j - (i + 1)))) by lia. done. }
  assert (Hbelow : forall j, j = i -> rd times (j - (i + 1)) = None).
  { intros j ->. unfold rd. destruct (Z.ltb_spec (i - (i + 1)) 0); [done|lia]. }
  destruct (Z.ltb_spec time old) as [Hold|Hnew].
  - pose proof (IH (map (clear_bit (u32 (Z.lnot (Z.shiftl 1 i)))) topics) ltac:(lia)) as HF.
    apply Forall2_fmap_l in HF. eapply Forall2_impl; [exact HF|]. cbv beta.
    intros t t' [Hsame Hbits]. split; [by destruct t; cbn in *; rewrite Hsame|].
    intros j Hj. rewrite Hbits, Hrd by done. unfold subscribed. cbn [clear_bit receiverNodesBitMap set_bitMap].
    rewrite land_lnot_bit by lia. destruct (Z.eqb_spec j i) as [->|Hne]; cbn [negb].
    + rewrite Hbelow by done. destruct (Z.ltb_spec time old); [|lia]. by rewrite !andb_false_r.
    + by rewrite andb_true_r.
  - eapply Forall2_impl; [exact (IH topics ltac:(lia))|]. cbv beta.
    intros t t' [Hsame Hbits]. split; [done|]. intros j Hj. rewrite Hbits, Hrd by done.
    destruct (Z.eqb_spec j i) as [->|Hne]; [|done].
    rewrite Hbelow by done. by destruct (Z.ltb_spec time old); [lia|].
Qed.
End Register.
Arguments register : clear implicits.

(** ** Properties *)

(** A report of the node with index [i] makes node [i] a receiver of
    exactly the local topics it lists, besides those of earlier reports, and is
    dated; the later clean-up removes from every topic exactly the nodes whose
    last report is older than ten seconds; nothing else of a topic changes. *)
Theorem register_tracks_nodes {K} (nodeNumber now later : Z) (his : TopicListPerNode)
    (s : register K) :
  nodeNr his <> u32 nodeNumber -> 0 <= nodeIndex his < 32 ->
  TopicListReport.wf (topicListReport his) -> length (lastReportTimeOfNode s) = MAX_NUM_OF_NODES ->
  in_i64 (later - 10 * SECONDS) ->
  exists s' s'', put nodeNumber now his s = Some s' /\ find_dead later s' = Some s'' /\
    lastReportTimeOfNode s' = <[Z.to_nat (nodeIndex his) := now]> (lastReportTimeOfNode s) /\
    Forall2 (fun t t' => same_topic t t' /\ forall j, 0 <= j ->
      subscribed j t' = subscribed j t ||
        ((j =? nodeIndex his) && bool_decide (topicId t ∈ TopicListReport.topics (topicListReport his))))
      (topicList s) (topicList s') /\
    Forall2 (fun t t' => same_topic t t' /\ forall j time, 0 <= j < 32 ->
      lastReportTimeOfNode s' !! Z.to_nat j = Some time ->
      subscribed j t' = subscribed j t && (later - 10 * SECONDS <=? time))
      (topicList s') (topicList s'').
Proof.
  intros Hne Hi Hr Hlen Hlater. unfold put.
  destruct (Z.eqb_spec (nodeNr his) (u32 nodeNumber)); [done|].
  assert (shl32 1 (nodeIndex his) = Some (u32 (Z.shiftl 1 (nodeIndex his)))) as ->.
  { unfold shl32. by rewrite (proj2 (Z.leb_le _ _)), (proj2 (Z.ltb_lt _ _)) by lia. }
  cbn [mbind option_bind]. rewrite wr_in by (rewrite Hlen; unfold MAX_NUM_OF_NODES; lia).
  cbn [mbind option_bind].
  destruct (mark_spec (topicListReport his) (nodeIndex his) (topicList s) Hr Hi) as (topics & -> & HF).
  cbn [mbind option_bind]. do 2 eexists. split; [done|].
  unfold find_dead. rewrite i64_small by done. cbn [mbind option_bind lastReportTimeOfNode topicListFromMyNode topicList].
  split; [done|]. split; [done|]. split; [exact HF|].
  eapply Forall2_impl; [apply dead_loop_spec; lia|]. cbv beta.
  intros t t' [Hsame Hbits]. split; [done|]. intros j time Hj Ht.
  rewrite Hbits by done. f_equal. unfold rd. destruct (Z.ltb_spec (j - 0) 0); [lia|].
  rewrite Z.sub_0_r, Ht. rewrite Z.leb_antisym. done.
Qed.

Lemma register_tracks_nodes_witness :
  let his := mkList 5 5 (TopicListReport.mk 1 (1234 :: repeat 0 59)) in
  let s := newRegister his [mkTopic 2 1234 4 false None 0x10 [] : TopicInterface unit] in
  exists s' s'', put 7 1000 his s = Some s' /\ find_dead 20000000000 s' = Some s'' /\
    map receiverNodesBitMap (topicList s') = [0x30] /\ map receiverNodesBitMap (topicList s'') = [0x10].
Proof.
  intros his s.
  destruct (register_tracks_nodes 7 1000 20000000000 his s) as (s' & s'' & H1 & H2 & _);
    [vm_compute; discriminate|cbn; lia| |done|by vm_compute|].
  - split; [by split; vm_compute|done].
  - exists s', s''. split; [exact H1|]. split; [exact H2|].
    vm_compute in H1. injection H1 as <-. split; [done|].
    vm_compute in H2. by injection H2 as <-.
Defined.

End TopicRegister.
