(* ===== verification/LinkCan.v ===== *)
(** * The link interface to CAN (src/independent/gateway/linkinterfacecan.cpp)

    A message of the middleware travels as a sequence of telegrams of up to
    eight bytes.  The sender cuts the user data; the receiver, whose bus may
    interleave the telegrams of several senders, puts those of the message in
    progress together and keeps the others in a buffer of 128 telegrams.  The
    linked list of buffered telegrams is the list of its elements, the array
    of free elements is the stack it is used as.  The CAN driver is a parameter:
    its answers to [write] are an argument of the sender, the telegrams that
    [read] returns an argument of the receiver.  [None] is an access outside a
    buffer or through a null pointer. *)

From S2P Require Import Prelude ByteStream NetworkMessage.

Module LinkCan.
Import ByteStream NetworkMessage.

Definition CAN_LINK_NODE_BITS : Z := 8.
Definition CAN_LINK_TOPIC_BITS : Z := 16.
Definition CAN_LINK_ID : Z := Z.shiftl 0x1C (CAN_LINK_NODE_BITS + CAN_LINK_TOPIC_BITS).
Definition CAN_MSG_BUFFER_SIZE : nat := 128.

(** ** Transmission *)

Record telegram := mkTelegram { canID : Z; data : list Z }.

(** What the driver answers to one attempt to write: accepted; queue full and
    no error; an error of the bus or an unknown status. *)
Inductive write_result := Written | Full | TxError.

(** The loop around [can.write]: repeat while the queue is full. *)
Fixpoint write_telegram (answers : list write_result) : option (bool * list write_result) :=
  match answers with
  | [] => None
  | Written :: answers => Some (true, answers)
  | Full :: answers => write_telegram answers
  | TxError :: answers => Some (false, answers)
  end.

(** The ones of [uint32_tOnes] as a mask. *)
Definition ones (n : Z) : Z := default 0 (uint32_tOnes n).

Definition can_id (m : msg) : Z :=
  let senderNode := Z.land (u32 (get_senderNode m)) (ones CAN_LINK_NODE_BITS) in
  let topicId := Z.land (get_topicId m) (ones CAN_LINK_TOPIC_BITS) in
  Z.lor (Z.lor CAN_LINK_ID (u32 (Z.shiftl topicId CAN_LINK_NODE_BITS))) senderNode.

(** The loop over the telegrams: [header] are the bytes that follow the
    sequence counter, the length in the first telegram; the telegrams sent so
    far are in [sent]. *)
Fixpoint send_loop (fuel : nat) (id : Z) (header messageData : list Z) (dataLength : Z)
    (sequenceCounter : Z) (answers : list write_result) (sent : list telegram)
    : option (bool * list telegram) :=
  if 0 <? dataLength then
    match fuel with
    | O => None
    | S fuel =>
        let room := 7 - Z.of_nat (length header) in
        let n := min dataLength room in
        if decide (Z.to_nat n <= length messageData)%nat then
          '(ok, answers) ← write_telegram answers;
          if negb (ok : bool) then Some (false, sent)
          else
            send_loop fuel id [] (drop (Z.to_nat n) messageData) (dataLength - n)
              (u8 (sequenceCounter + 1)) answers
              (sent ++ [mkTelegram id (sequenceCounter :: header ++ take (Z.to_nat n) messageData)])
        else None
    end
  else Some (true, sent).

(** [sendNetworkMsg]; every telegram takes at least one byte of data. *)
Definition sendNetworkMsg (outMsg : msg) (answers : list write_result)
    : option (bool * list telegram) :=
  let dataLength := get_len outMsg in
  send_loop (Z.to_nat dataLength) (can_id outMsg) [byteAt dataLength 8; byteAt dataLength 0]
    (userDataC outMsg) dataLength 0 answers [].

(** ** Reception *)

(** [BufferedCANMessage]: the eight bytes of data and the length. *)
Record slot := mkSlot { slot_id : Z; slot_data : list Z; slot_len : Z }.

Record link := mkLink {
  isBroadcastLink : bool;
  memory : list slot;
  emptyBufferedCANMessages : list nat;
  emptyBufferedCANMessagesPos : Z;
  bufferedCANMsgs : list nat;
  currentReceiveCANId : Z;
  currentDataPointer : Z;
  bytesReceived : Z;
  sequenceCounter : Z
}.

Definition set_free (l : list nat) (pos : Z) (k : link) : link :=
  mkLink (isBroadcastLink k) (memory k) l pos (bufferedCANMsgs k) (currentReceiveCANId k)
    (currentDataPointer k) (bytesReceived k) (sequenceCounter k).
Definition set_memory (l : list slot) (k : link) : link :=
  mkLink (isBroadcastLink k) l (emptyBufferedCANMessages k) (emptyBufferedCANMessagesPos k)
    (bufferedCANMsgs k) (currentReceiveCANId k) (currentDataPointer k) (bytesReceived k)
    (sequenceCounter k).
Definition set_buffered (l : list nat) (k : link) : link :=
  mkLink (isBroadcastLink k) (memory k) (emptyBufferedCANMessages k)
    (emptyBufferedCANMessagesPos k) l (currentReceiveCANId k) (currentDataPointer k)
    (bytesReceived k) (sequenceCounter k).
Definition set_current (id pos bytes seq : Z) (k : link) : link :=
  mkLink (isBroadcastLink k) (memory k) (emptyBufferedCANMessages k)
    (emptyBufferedCANMessagesPos k) (bufferedCANMsgs k) id pos bytes seq.

(** The constructor and [init]: all elements are free. *)
Definition init (mem : list slot) (pos received counter : Z) : link :=
  mkLink true mem (seq 0 CAN_MSG_BUFFER_SIZE) (Z.of_nat CAN_MSG_BUFFER_SIZE - 1) [] 0
    pos received counter.

(** The stores of the copy loop of [appendCANMsgToCurrentNetMsg] through
    [currentDataPointer]. *)
Fixpoint copy_bytes (m : msg) (pos : Z) (l : list Z) : option msg :=
  match l with
  | [] => Some m
  | b :: l => m ← wr m (Z.of_nat HEADER_SIZE + pos) b; copy_bytes m (pos + 1) l
  end.

(** The first telegram of a message: the fields of the header that CAN does
    not carry are set, the receiver fields and the type stay as they were. *)
Definition new_message (now : Z) (id len : Z) (m : msg) : msg :=
  let m := put_maxStepsToForward 5 m in
  let m := put_senderNode (Z.land id (ones CAN_LINK_NODE_BITS)) m in
  let m := put_senderThreadId 0 m in
  let m := put_sentTime now m in
  let m := put_topicId (Z.land (Z.shiftr id CAN_LINK_NODE_BITS) (ones CAN_LINK_TOPIC_BITS)) m in
  put_len len m.

(** [appendCANMsgToCurrentNetMsg] of element [i]: the element goes back to the
    stack of free ones; the result tells whether the message is complete. *)
Definition appendCANMsgToCurrentNetMsg (now : Z) (i : nat) (m : msg) (k : link)
    : option (bool * msg * link) :=
  canMsg ← memory k !! i;
  let pos := emptyBufferedCANMessagesPos k + 1 in
  free ← wr (emptyBufferedCANMessages k) pos i;
  let k := set_free free pos k in
  counter ← slot_data canMsg !! 0%nat;
  '(userDataBegin, m, k) ←
    (if counter =? 0 then
       len ← bigEndianToUint16_t (Some (drop 1 (slot_data canMsg)));
       Some (3, new_message now (slot_id canMsg) len m, set_current (slot_id canMsg) 0 0 0 k)
     else Some (1, m, k));
  let error := if currentReceiveCANId k =? 0 then 0 <? counter
               else negb (slot_id canMsg =? currentReceiveCANId k) ||
                    negb (counter =? sequenceCounter k) in
  if error then Some (false, m, k)
  else
    let bytes := drop (Z.to_nat userDataBegin) (take (Z.to_nat (slot_len canMsg)) (slot_data canMsg)) in
    m ← copy_bytes m (currentDataPointer k) bytes;
    let pos := currentDataPointer k + Z.of_nat (length bytes) in
    let received := u16 (bytesReceived k + slot_len canMsg - userDataBegin) in
    if get_len m <=? received then
      m ← setCheckSum m;
      Some (true, m, set_current 0 pos received (sequenceCounter k) k)
    else
      Some (false, m, set_current (currentReceiveCANId k) pos received (u8 (sequenceCounter k + 1)) k).

(** [can.read] into element [i]: the bytes behind the length keep their
    values; without a telegram the length becomes -1. *)
Definition read_into (i : nat) (t : telegram) (k : link) : option link :=
  s ← memory k !! i;
  let len := length (data t) in
  Some (set_memory (<[i := mkSlot (canID t) (data t ++ drop len (slot_data s)) (Z.of_nat len)]> (memory k)) k).
Definition read_nothing (i : nat) (k : link) : option link :=
  s ← memory k !! i;
  Some (set_memory (<[i := mkSlot (slot_id s) (slot_data s) (-1)]> (memory k)) k).

(** [receiveCANMessage]: the element that holds the next telegram.  When no
    element is free the last buffered one is taken; that the list has at least
    two elements is assumed by the code. *)
Definition receiveCANMessage (queue : list telegram) (k : link)
    : option (option nat * list telegram * link) :=
  if negb (isBroadcastLink k) then Some (None, queue, k)
  else
    let stolen := emptyBufferedCANMessagesPos k <? 0 in
    '(i, k) ←
      (if stolen then
         if decide (length (bufferedCANMsgs k) < 2)%nat then None
         else
           i ← last (bufferedCANMsgs k);
           Some (i, set_buffered (take (length (bufferedCANMsgs k) - 1) (bufferedCANMsgs k)) k)
       else
         i ← rd (emptyBufferedCANMessages k) (emptyBufferedCANMessagesPos k); Some (i, k));
    match queue with
    | t :: queue =>
        k ← read_into i t k;
        let k := if stolen then k
                 else set_free (emptyBufferedCANMessages k) (emptyBufferedCANMessagesPos k - 1) k in
        Some (Some i, queue, k)
    | [] =>
        k ← read_nothing i k;
        (if stolen then
           let pos := emptyBufferedCANMessagesPos k + 1 in
           free ← wr (emptyBufferedCANMessages k) pos i;
           Some (None, [], set_free free pos k)
         else Some (None, [], k))
    end.

(** The scan of the buffered telegrams when no message is in progress:
    [before] are the elements that were passed over. *)
Fixpoint scan_buffer (now : Z) (before after : list nat) (m : msg) (k : link)
    : option (bool * msg * link) :=
  match after with
  | [] => Some (false, m, k)
  | i :: after =>
      s ← memory k !! i;
      if (slot_id s =? currentReceiveCANId k) || (currentReceiveCANId k =? 0) then
        '(done, m, k) ← appendCANMsgToCurrentNetMsg now i m (set_buffered (before ++ after) k);
        if (done : bool) then Some (true, m, k) else scan_buffer now before after m k
      else scan_buffer now (before ++ [i]) after m k
  end.

(** The loop over the telegrams that the driver has; one telegram is taken in
    every round. *)
Fixpoint receive_loop (fuel : nat) (now : Z) (queue : list telegram) (m : msg) (k : link)
    : option (bool * msg * list telegram * link) :=
  match fuel with
  | O => None
  | S fuel =>
      '(r, queue, k) ← receiveCANMessage queue k;
      match r with
      | None => Some (false, m, queue, k)
      | Some i =>
          s ← memory k !! i;
          if (slot_id s =? currentReceiveCANId k) || (currentReceiveCANId k =? 0) then
            '(done, m, k) ← appendCANMsgToCurrentNetMsg now i m k;
            if (done : bool) then Some (true, m, queue, k) else receive_loop fuel now queue m k
          else receive_loop fuel now queue m (set_buffered (bufferedCANMsgs k ++ [i]) k)
      end
  end.

Definition getNetworkMsg (now : Z) (queue : list telegram) (inMsg : msg) (k : link)
    : option (bool * msg * list telegram * link) :=
  '(done, m, k) ← (if currentReceiveCANId k =? 0
                   then scan_buffer now [] (bufferedCANMsgs k) inMsg k
                   else Some (false, inMsg, k));
  if (done : bool) then Some (true, m, queue, k)
  else receive_loop (S (length queue)) now queue m k.

(** ** The sender cuts the data *)

(** The telegrams after the first, counted from [c]. *)
Fixpoint fragments (n : nat) (id c : Z) (l : list Z) : list telegram :=
  match n with
  | O => []
  | S n => match l with
           | [] => []
           | _ => mkTelegram id (c :: take 7 l) :: fragments n id (u8 (c + 1)) (drop 7 l)
           end
  end.
Definition telegrams (id : Z) (l : list Z) : list telegram :=
  let len := Z.of_nat (length l) in
  mkTelegram id (0 :: [byteAt len 8; byteAt len 0] ++ take 5 l) ::
  fragments (length l) id 1 (drop 5 l).

(** The driver accepts [n] telegrams, with any number of retries before each. *)
Inductive accepts : nat -> list write_result -> Prop :=
  | accepts_O answers : accepts 0 answers
  | accepts_full n answers : accepts n answers -> accepts n (Full :: answers)
  | accepts_written n answers : accepts n answers -> accepts (S n) (Written :: answers).

Lemma accepts_S n answers :
  accepts (S n) answers -> exists answers', write_telegram answers = Some (true, answers') /\ accepts n answers'.
Proof.
  remember (S n) as n' eqn:Hn. induction 1 as [|n' answers H IH|n' answers H IH]; [done| |].
  - by apply IH.
  - injection Hn as ->. by exists answers.
Qed.

Lemma accepts_le n n' answers : accepts n answers -> (n' <= n)%nat -> accepts n' answers.
Proof.
  intros H. revert n'. induction H as [|n answers H IH|n answers H IH]; intros n' Hn.
  - replace n' with 0%nat by lia. constructor.
  - constructor. by apply IH.
  - destruct n' as [|n']; [constructor|]. constructor. apply IH. lia.
Qed.

Lemma fragments_fuel n n' id c l :
  (length l <= n)%nat -> (length l <= n')%nat -> fragments n id c l = fragments n' id c l.
Proof.
  revert n' c l. induction n as [|n IH]; intros n' c l Hn Hn'.
  { destruct l; [|cbn in Hn; lia]. by destruct n'. }
  destruct l as [|x l]; [by destruct n'|]. destruct n' as [|n']; [cbn in Hn'; lia|].
  cbn [fragments]. f_equal. cbn [length] in *. apply IH; rewrite length_drop; cbn [length]; lia.
Qed.

Lemma send_loop_spec fuel id l extra c answers sent :
  (length l <= fuel)%nat -> accepts (length l) answers ->
  send_loop fuel id [] (l ++ extra) (Z.of_nat (length l)) c answers sent =
    Some (true, sent ++ fragments (length l) id c l).
Proof.
  revert l c answers sent. induction fuel as [|fuel IH]; intros l c answers sent Hf Ha.
  { destruct l; [|cbn in Hf; lia]. cbn. by rewrite app_nil_r. }
  destruct l as [|x l]; [cbn; by rewrite app_nil_r|].
  remember (x :: l) as l0 eqn:Hl0. assert (Hpos : (0 < length l0)%nat) by (subst; cbn; lia).
  cbn [send_loop]. destruct (Z.ltb_spec 0 (Z.of_nat (length l0))); [|lia].
  change (7 - Z.of_nat (length (@nil Z))) with 7.
  assert (Hn : Z.to_nat (min (Z.of_nat (length l0)) 7) = Nat.min (length l0) 7).
  { unfold min. destruct (Z.ltb_spec (Z.of_nat (length l0)) 7); lia. }
  assert (Htake : take (Z.to_nat (min (Z.of_nat (length l0)) 7)) (l0 ++ extra) = take 7 l0).
  { rewrite Hn, take_app_le by lia. destruct (decide (length l0 <= 7)%nat).
    - by rewrite Nat.min_l, firstn_all, take_ge by lia.
    - by rewrite Nat.min_r by lia. }
  assert (Hdrop : drop (Z.to_nat (min (Z.of_nat (length l0)) 7)) (l0 ++ extra) = drop 7 l0 ++ extra).
  { rewrite Hn, drop_app_le by lia. destruct (decide (length l0 <= 7)%nat).
    - by rewrite Nat.min_l, drop_all, drop_ge by lia.
    - by rewrite Nat.min_r by lia. }
  assert (Hlen : Z.of_nat (length l0) - min (Z.of_nat (length l0)) 7 = Z.of_nat (length (drop 7 l0))).
  { rewrite length_drop. lia. }
  rewrite decide_True by (rewrite Hn, length_app; lia).
  destruct (length l0) as [|m'] eqn:Hm; [lia|].
  destruct (accepts_S _ _ Ha) as (answers' & -> & Ha'). cbn [mbind option_bind negb].
  rewrite Htake, Hdrop, Hlen, IH.
  - cbn [fragments]. destruct l0; [done|]. rewrite <- app_assoc. cbn [app]. do 4 f_equal.
    apply fragments_fuel; [done|]. rewrite length_drop. cbn [length] in *. lia.
  - rewrite length_drop. lia.
  - apply (accepts_le m'); [done|]. rewrite length_drop. lia.
Qed.

Lemma length_take_userData m :
  wf m -> len_ok m -> length (take (Z.to_nat (get_len m)) (userDataC m)) = Z.to_nat (get_len m).
Proof.
  intros [Hl _] Hok. rewrite length_take. unfold userDataC. rewrite length_drop, Hl.
  unfold len_ok, HEADER_SIZE, MAX_NETWORK_MESSAGE_LENGTH in *. lia.
Qed.

Lemma send_spec m answers :
  wf m -> len_ok m -> 0 < get_len m -> accepts (Z.to_nat (get_len m)) answers ->
  sendNetworkMsg m answers =
    Some (true, telegrams (can_id m) (take (Z.to_nat (get_len m)) (userDataC m))).
Proof.
  intros Hm Hok Hpos Ha. pose proof (length_take_userData m Hm Hok) as Hlen.
  set (l := take _ _) in *. unfold sendNetworkMsg.
  assert (Hdata : userDataC m = l ++ drop (Z.to_nat (get_len m)) (userDataC m))
    by (unfold l; by rewrite take_drop).
  rewrite Hdata. set (extra := drop _ _) in *. clearbody extra.
  assert (Hg : get_len m = Z.of_nat (length l)) by lia. rewrite Hg in *. clear Hg Hdata.
  clearbody l. destruct (Z.to_nat (Z.of_nat (length l))) as [|f] eqn:Hf; [lia|].
  cbn [send_loop]. destruct (Z.ltb_spec 0 (Z.of_nat (length l))); [|lia].
  change (7 - Z.of_nat (length [byteAt (Z.of_nat (length l)) 8; byteAt (Z.of_nat (length l)) 0])) with 5.
  assert (Hn : Z.to_nat (min (Z.of_nat (length l)) 5) = Nat.min (length l) 5).
  { unfold min. destruct (Z.ltb_spec (Z.of_nat (length l)) 5); lia. }
  assert (Hmin : min (Z.of_nat (length l)) 5 = Z.of_nat (Nat.min (length l) 5)).
  { unfold min. destruct (Z.ltb_spec (Z.of_nat (length l)) 5); lia. }
  assert (Htake : take (Nat.min (length l) 5) (l ++ extra) = take 5 l).
  { rewrite take_app_le by lia. destruct (decide (length l <= 5)%nat).
    - by rewrite Nat.min_l, firstn_all, take_ge by lia.
    - by rewrite Nat.min_r by lia. }
  assert (Hdrop : drop (Nat.min (length l) 5) (l ++ extra) = drop 5 l ++ extra).
  { rewrite drop_app_le by lia. destruct (decide (length l <= 5)%nat).
    - by rewrite Nat.min_l, drop_all, drop_ge by lia.
    - by rewrite Nat.min_r by lia. }
  rewrite decide_True by (rewrite Hn, length_app; lia).
  destruct (accepts_S _ _ Ha) as (answers' & -> & Ha'). cbn [mbind option_bind negb].
  rewrite Hn, Htake, Hdrop.
  replace (Z.of_nat (length l) - min (Z.of_nat (length l)) 5) with (Z.of_nat (length (drop 5 l)))
    by (rewrite length_drop; lia).
  rewrite send_loop_spec.
  - unfold telegrams. cbn [app]. do 3 f_equal. apply fragments_fuel; rewrite length_drop; lia.
  - rewrite length_drop. lia.
  - apply (accepts_le f); [done|]. rewrite length_drop. lia.
Qed.

(** ** The receiver's elements *)

Definition free_elements (k : link) : list nat :=
  take (Z.to_nat (emptyBufferedCANMessagesPos k + 1)) (emptyBufferedCANMessages k).

Record link_wf (k : link) : Prop := {
  lw_broadcast : isBroadcastLink k = true;
  lw_memory : length (memory k) = CAN_MSG_BUFFER_SIZE;
  lw_slots : Forall (fun s => length (slot_data s) = 8%nat) (memory k);
  lw_stack : length (emptyBufferedCANMessages k) = CAN_MSG_BUFFER_SIZE;
  lw_pos : -1 <= emptyBufferedCANMessagesPos k < Z.of_nat CAN_MSG_BUFFER_SIZE;
  lw_nodup : NoDup (free_elements k ++ bufferedCANMsgs k);
  lw_range : Forall (fun i => i < CAN_MSG_BUFFER_SIZE)%nat (free_elements k ++ bufferedCANMsgs k)
}.

(** The buffered telegrams, oldest first. *)
Definition slot_telegram (s : slot) : telegram :=
  mkTelegram (slot_id s) (take (Z.to_nat (slot_len s)) (slot_data s)).
Definition kept (k : link) : list (option telegram) :=
  (fun i => slot_telegram <$> memory k !! i) <$> bufferedCANMsgs k.

Definition filled (t : telegram) (old : slot) : slot :=
  mkSlot (canID t) (data t ++ drop (length (data t)) (slot_data old)) (Z.of_nat (length (data t))).

Lemma filled_telegram t old : slot_telegram (filled t old) = t.
Proof.
  unfold slot_telegram, filled. cbn. rewrite Nat2Z.id, take_app_length. by destruct t.
Qed.

Lemma filled_length t old :
  length (slot_data old) = 8%nat -> (length (data t) <= 8)%nat -> length (slot_data (filled t old)) = 8%nat.
Proof. intros H1 H2. cbn. rewrite length_app, length_drop. lia. Qed.

Lemma kept_fresh i s k :
  (i ∉ bufferedCANMsgs k) -> kept (set_memory (<[i := s]> (memory k)) k) = kept k.
Proof.
  intros Hi. unfold kept. cbn [memory set_memory bufferedCANMsgs]. apply list_fmap_ext.
  intros j x Hx. rewrite list_lookup_insert_ne; [done|]. intros ->.
  apply Hi. by eapply list_elem_of_lookup_2.
Qed.

(** A telegram is read into the top element of the stack. *)
Lemma receive_spec t queue k :
  link_wf k -> 0 <= emptyBufferedCANMessagesPos k -> (length (data t) <= 8)%nat ->
  exists i old,
    emptyBufferedCANMessages k !! Z.to_nat (emptyBufferedCANMessagesPos k) = Some i /\
    memory k !! i = Some old /\ (i ∉ bufferedCANMsgs k) /\ (i < CAN_MSG_BUFFER_SIZE)%nat /\
    free_elements k = take (Z.to_nat (emptyBufferedCANMessagesPos k)) (emptyBufferedCANMessages k) ++ [i] /\
    receiveCANMessage (t :: queue) k =
      Some (Some i, queue,
            set_free (emptyBufferedCANMessages k) (emptyBufferedCANMessagesPos k - 1)
              (set_memory (<[i := filled t old]> (memory k)) k)).
Proof.
  intros [Hb Hm Hs Hst Hp Hnd Hr] Hpos Hlen.
  destruct (lookup_lt_is_Some_2 (emptyBufferedCANMessages k) (Z.to_nat (emptyBufferedCANMessagesPos k)))
    as [i Hi]; [lia|].
  assert (Hfree : free_elements k =
    take (Z.to_nat (emptyBufferedCANMessagesPos k)) (emptyBufferedCANMessages k) ++ [i]).
  { unfold free_elements. rewrite Z2Nat.inj_add, Nat.add_1_r by lia. by apply take_S_r. }
  assert (Hin : i ∈ free_elements k).
  { rewrite Hfree. apply elem_of_app. right. by apply list_elem_of_singleton. }
  apply NoDup_app in Hnd as (_ & Hdis & _). apply Forall_app in Hr as [Hr _].
  pose proof (proj1 (Forall_forall _ _) Hr i Hin) as Hlt. cbv beta in Hlt.
  destruct (lookup_lt_is_Some_2 (memory k) i) as [old Hold]; [by rewrite Hm|].
  exists i, old. split_and!; [done|done|by apply Hdis|done|done|].
  unfold receiveCANMessage. rewrite Hb. cbn [negb].
  destruct (Z.ltb_spec (emptyBufferedCANMessagesPos k) 0); [lia|].
  unfold rd. destruct (Z.ltb_spec (emptyBufferedCANMessagesPos k) 0); [lia|].
  rewrite Hi. cbn [mbind option_bind]. unfold read_into. rewrite Hold. done.
Qed.

(** Keeping it in the buffer. *)
Lemma keep_wf t k i old :
  link_wf k -> 0 <= emptyBufferedCANMessagesPos k -> (length (data t) <= 8)%nat ->
  memory k !! i = Some old -> (i ∉ bufferedCANMsgs k) -> (i < CAN_MSG_BUFFER_SIZE)%nat ->
  free_elements k = take (Z.to_nat (emptyBufferedCANMessagesPos k)) (emptyBufferedCANMessages k) ++ [i] ->
  let k' := set_buffered (bufferedCANMsgs k ++ [i])
    (set_free (emptyBufferedCANMessages k) (emptyBufferedCANMessagesPos k - 1)
       (set_memory (<[i := filled t old]> (memory k)) k)) in
  link_wf k' /\ kept k' = kept k ++ [Some t].
Proof.
  intros [Hb Hm Hs Hst Hp Hnd Hr] Hpos Hlen Hold Hi Hlt Hfree k'.
  assert (Hfree' : free_elements k' =
    take (Z.to_nat (emptyBufferedCANMessagesPos k)) (emptyBufferedCANMessages k)).
  { unfold free_elements, k'. cbn [emptyBufferedCANMessages emptyBufferedCANMessagesPos set_buffered set_free].
    f_equal. lia. }
  assert (Hperm : free_elements k' ++ bufferedCANMsgs k' ≡ₚ free_elements k ++ bufferedCANMsgs k).
  { rewrite Hfree', Hfree. cbn [bufferedCANMsgs k' set_buffered]. rewrite <- app_assoc.
    apply Permutation_app_head. apply Permutation_sym, Permutation_cons_append. }
  assert (Hl8 : length (slot_data old) = 8%nat) by (by eapply (Forall_lookup_1 _ _ _ _ Hs)).
  split.
  - split; [done|by cbn; rewrite length_insert| |done|cbn; lia|by rewrite Hperm|by rewrite Hperm].
    cbn. apply Forall_insert; [done|]. by apply filled_length.
  - unfold kept. cbn [memory bufferedCANMsgs k' set_buffered set_free set_memory].
    rewrite fmap_app. f_equal.
    + apply list_fmap_ext. intros j x Hx. rewrite list_lookup_insert_ne; [done|]. intros ->.
      apply Hi. by eapply list_elem_of_lookup_2.
    + cbn. rewrite list_lookup_insert_eq by (by rewrite Hm). cbn. by rewrite filled_telegram.
Qed.

(** Giving it back after its bytes were taken. *)
Lemma give_back_wf t k i old :
  link_wf k -> (length (data t) <= 8)%nat -> memory k !! i = Some old -> (i ∉ bufferedCANMsgs k) ->
  let k' := set_memory (<[i := filled t old]> (memory k)) k in
  link_wf k' /\ kept k' = kept k.
Proof.
  intros [Hb Hm Hs Hst Hp Hnd Hr] Hlen Hold Hi k'. split; [|by apply kept_fresh].
  assert (Hl8 : length (slot_data old) = 8%nat) by (by eapply (Forall_lookup_1 _ _ _ _ Hs)).
  split; try done; [by cbn; rewrite length_insert|].
  cbn. apply Forall_insert; [done|]. by apply filled_length.
Qed.

Lemma set_current_wf id pos received counter k :
  link_wf k -> link_wf (set_current id pos received counter k) /\
  kept (set_current id pos received counter k) = kept k.
Proof. intros [? ? ? ? ? ? ?]. split; [by split|done]. Qed.

(** ** The message in progress *)

Lemma copy_bytes_spec m pos l :
  0 <= pos -> (HEADER_SIZE + Z.to_nat pos + length l <= length m)%nat ->
  copy_bytes m pos l = Some (splice (HEADER_SIZE + Z.to_nat pos) l m).
Proof.
  revert m pos. induction l as [|b l IH]; intros m pos Hpos Hl.
  { cbn. unfold splice. cbn. by rewrite Nat.add_0_r, take_drop. }
  cbn [copy_bytes length] in *. rewrite wr_in by (unfold HEADER_SIZE in *; lia).
  cbn [mbind option_bind]. rewrite IH by (rewrite ?length_insert; lia).
  f_equal. apply list_eq. intros i.
  rewrite !lookup_splice by (cbn [length]; rewrite ?length_insert; lia). cbn [length].
  replace (Z.to_nat (pos + 1)) with (S (Z.to_nat pos)) by lia.
  destruct (decide (i = HEADER_SIZE + Z.to_nat pos)%nat) as [->|Hne].
  - rewrite decide_False, decide_True by lia.
    replace (Z.to_nat (Z.of_nat HEADER_SIZE + pos)) with (HEADER_SIZE + Z.to_nat pos)%nat by lia.
    rewrite list_lookup_insert_eq by lia. by rewrite Nat.sub_diag.
  - destruct (decide (HEADER_SIZE + S (Z.to_nat pos) <= i < HEADER_SIZE + S (Z.to_nat pos) + length l)%nat).
    + rewrite decide_True by lia.
      replace (i - (HEADER_SIZE + Z.to_nat pos))%nat with (S (i - (HEADER_SIZE + S (Z.to_nat pos)))) by lia.
      done.
    + rewrite decide_False by lia. apply list_lookup_insert_ne. lia.
Qed.

Lemma get_splice_high `{codec w val enc dec} off off' m l :
  wf m -> (off + w <= HEADER_SIZE)%nat -> (HEADER_SIZE <= off')%nat ->
  (off' + length l <= length m)%nat ->
  get dec off (splice off' l m) = get dec off m.
Proof.
  intros [Hl Hb] Ho Ho' Hn. symmetry. apply get_ext; [done|lia|].
  symmetry. apply sub_splice_ne; lia.
Qed.

Record assembling (now id len : Z) (got : list Z) (m : msg) : Prop := {
  as_wf : wf m;
  as_len : get_len m = len;
  as_steps : get_maxStepsToForward m = 5;
  as_sender : get_senderNode m = Z.land id 255;
  as_thread : get_senderThreadId m = 0;
  as_time : get_sentTime m = now;
  as_topic : get_topicId m = Z.land (Z.shiftr id 8) 65535;
  as_data : take (length got) (userDataC m) = got
}.

Lemma land_bound x n : 0 <= n -> 0 <= Z.land x (Z.ones n) < 2 ^ n.
Proof. intros Hn. rewrite Z.land_ones by done. apply Z.mod_pos_bound. by apply Z.pow_pos_nonneg. Qed.

Lemma new_message_assembling now id len m :
  wf m -> in_u16 len -> in_i64 now -> assembling now id len [] (new_message now id len m).
Proof.
  intros Hm Hlen Hnow. unfold new_message.
  change (ones CAN_LINK_NODE_BITS) with 255. change (ones CAN_LINK_TOPIC_BITS) with 65535.
  change CAN_LINK_NODE_BITS with 8.
  pose proof (land_bound id 8 ltac:(lia)) as H8. change (Z.ones 8) with 255 in H8.
  pose proof (land_bound (Z.shiftr id 8) 16 ltac:(lia)) as H16. change (Z.ones 16) with 65535 in H16.
  change (2 ^ 8) with 256 in H8. change (2 ^ 16) with 65536 in H16.
  assert (in_u32 (Z.land (Z.shiftr id 8) 65535)) by zlia.
  assert (- 2 ^ 31 <= Z.land id 255 < 2 ^ 31) by (change (2 ^ 31) with 2147483648; lia).
  assert (- 2 ^ 63 <= now < 2 ^ 63) by exact Hnow.
  assert (in_u32 0) by zlia. assert (- 2 ^ 15 <= 5 < 2 ^ 15) by by split.
  split; try done; msg_unfold; [msg_wf|by msg_simpl..].
Qed.

Lemma splice_assembling now id len got p m :
  assembling now id len got m -> bytes p ->
  (length got + length p <= MAX_NETWORK_MESSAGE_LENGTH)%nat ->
  assembling now id len (got ++ p) (splice (HEADER_SIZE + length got) p m).
Proof.
  intros [H1 H2 H3 H4 H5 H6 H7 H8] Hp Hl. pose proof (wf_length _ H1) as Hlen.
  assert (Hfit : (HEADER_SIZE + length got + length p <= length m)%nat) by lia.
  split; try (etrans; [|eassumption]; apply get_splice_high; (done || msg_off || lia)).
  - split; [by rewrite length_splice|]. by apply splice_bytes; [|apply H1].
  - rewrite length_app. unfold userDataC in *. apply list_eq. intros i.
    destruct (decide (i < length got + length p)%nat) as [Hi|Hi].
    2: { rewrite lookup_take_ge by lia. symmetry. apply lookup_ge_None_2. rewrite length_app. lia. }
    rewrite lookup_take_lt, lookup_drop, lookup_splice by lia.
    destruct (decide (i < length got)%nat) as [Hg|Hg].
    + rewrite decide_False, lookup_app_l by lia.
      replace (got !! i) with (take (length got) (drop HEADER_SIZE m) !! i) by (by rewrite H8).
      rewrite lookup_take_lt by lia. by rewrite lookup_drop.
    + rewrite decide_True, lookup_app_r by lia. f_equal; lia.
Qed.

Lemma read_length len rest :
  in_u16 len -> bigEndianToUint16_t (Some (byteAt len 8 :: byteAt len 0 :: rest)) = Some len.
Proof.
  intros Hl. rewrite !byteAt_u8 by lia.
  change (u8 (Z.shiftr len 8) :: u8 (Z.shiftr len 0) :: rest)
    with ([u8 (Z.shiftr len 8); u8 (Z.shiftr len 0)] ++ rest).
  rewrite (bigEndianToUint16_t_value [u8 (Z.shiftr len 8); u8 (Z.shiftr len 0)] rest)
    by (done || (apply Forall_cons_2; [apply u8_range|]; apply Forall_cons_2; [apply u8_range|done])).
  cbn -[u8 Z.mul Z.shiftr]. rewrite Z.shiftr_0_r, Z.shiftr_div_pow2 by lia.
  change (2 ^ 8) with 256. f_equal. zlia.
Qed.

(** What [appendCANMsgToCurrentNetMsg] does when the telegram continues the
    message: [got] is what came before, [p] what the telegram brings. *)
Definition finish (m : msg) (id n c : Z) (k : link) : option (bool * msg * link) :=
  if get_len m <=? n then m' ← setCheckSum m; Some (true, m', set_current 0 n n c k)
  else Some (false, m, set_current id n n (u8 (c + 1)) k).

(** The element [i] was just read from [k]. *)
Definition just_read (t : telegram) (i : nat) (old : slot) (k : link) : link :=
  set_free (emptyBufferedCANMessages k) (emptyBufferedCANMessagesPos k - 1)
    (set_memory (<[i := filled t old]> (memory k)) k).
Definition given_back (t : telegram) (i : nat) (old : slot) (k : link) : link :=
  set_memory (<[i := filled t old]> (memory k)) k.

Lemma give_back k t i old :
  link_wf k -> 0 <= emptyBufferedCANMessagesPos k ->
  emptyBufferedCANMessages k !! Z.to_nat (emptyBufferedCANMessagesPos k) = Some i ->
  wr (emptyBufferedCANMessages (just_read t i old k)) (emptyBufferedCANMessagesPos (just_read t i old k) + 1) i =
    Some (emptyBufferedCANMessages k) /\
  set_free (emptyBufferedCANMessages k) (emptyBufferedCANMessagesPos (just_read t i old k) + 1)
    (just_read t i old k) = given_back t i old k.
Proof.
  intros [? ? ? Hst Hp ? ?] Hpos Hi. cbn [just_read emptyBufferedCANMessages emptyBufferedCANMessagesPos set_free].
  rewrite Z.sub_add. split.
  - rewrite wr_in by lia. by rewrite list_insert_id.
  - unfold given_back, set_memory, set_free, just_read. by destruct k.
Qed.

Lemma append_next now k id got c p i old m len :
  link_wf k -> 0 <= emptyBufferedCANMessagesPos k ->
  emptyBufferedCANMessages k !! Z.to_nat (emptyBufferedCANMessagesPos k) = Some i ->
  memory k !! i = Some old -> id <> 0 -> c <> 0 -> (length p <= 7)%nat ->
  assembling now id len got m -> (length got + length p <= MAX_NETWORK_MESSAGE_LENGTH)%nat ->
  currentReceiveCANId k = id -> currentDataPointer k = Z.of_nat (length got) ->
  bytesReceived k = Z.of_nat (length got) -> sequenceCounter k = c ->
  let t := mkTelegram id (c :: p) in
  appendCANMsgToCurrentNetMsg now i m (just_read t i old k) =
    finish (splice (HEADER_SIZE + length got) p m) id (Z.of_nat (length got + length p)) c
      (given_back t i old k).
Proof.
  intros Hw Hpos Hi Hold Hid Hc Hp Ha Hmax K1 K2 K3 K4 t.
  destruct (give_back k t i old Hw Hpos Hi) as [Hwr Hset].
  unfold appendCANMsgToCurrentNetMsg.
  assert (memory (just_read t i old k) !! i = Some (filled t old)) as ->.
  { cbn. apply list_lookup_insert_eq. by eapply lookup_lt_Some. }
  cbn [mbind option_bind]. rewrite Hwr. cbn [mbind option_bind]. rewrite Hset.
  cbn [slot_data filled data t lookup list_lookup app]. cbn [mbind option_bind].
  destruct (Z.eqb_spec c 0); [done|]. cbn [mbind option_bind].
  cbn [currentReceiveCANId given_back set_memory slot_id canID sequenceCounter currentDataPointer bytesReceived slot_len].
  rewrite K1, K2, K3, K4. destruct (Z.eqb_spec id 0); [done|]. rewrite !Z.eqb_refl. cbn [negb orb].
  change (slot_len (filled t old)) with (Z.of_nat (length (c :: p))).
  assert (drop (Z.to_nat 1) (take (Z.to_nat (Z.of_nat (length (c :: p))))
            (c :: p ++ drop (length (c :: p)) (slot_data old))) = p) as ->.
  { rewrite Nat2Z.id. cbn [length]. nat_lits. cbn [take firstn drop skipn].
    by rewrite take_app_length. }
  pose proof (wf_length _ (as_wf _ _ _ _ _ Ha)) as Hlen.
  rewrite copy_bytes_spec by lia. cbn [mbind option_bind]. rewrite Nat2Z.id.
  assert (u16 (Z.of_nat (length got) + Z.of_nat (length (c :: p)) - 1) =
          Z.of_nat (length got + length p)) as ->.
  { cbn [length]. rewrite u16_small by (unfold MAX_NETWORK_MESSAGE_LENGTH in *; zlia). lia. }
  unfold finish. rewrite Nat2Z.inj_add. done.
Qed.

Lemma append_first now k id len p i old m :
  link_wf k -> 0 <= emptyBufferedCANMessagesPos k ->
  emptyBufferedCANMessages k !! Z.to_nat (emptyBufferedCANMessagesPos k) = Some i ->
  memory k !! i = Some old -> id <> 0 -> (length p <= 5)%nat -> wf m -> in_u16 len ->
  let t := mkTelegram id (0 :: byteAt len 8 :: byteAt len 0 :: p) in
  let m1 := new_message now id len m in
  length m1 = length m ->
  appendCANMsgToCurrentNetMsg now i m (just_read t i old k) =
    finish (splice HEADER_SIZE p m1) id (Z.of_nat (length p)) 0 (given_back t i old k).
Proof.
  intros Hw Hpos Hi Hold Hid Hp Hm Hlen t m1 Hm1.
  destruct (give_back k t i old Hw Hpos Hi) as [Hwr Hset].
  unfold appendCANMsgToCurrentNetMsg.
  assert (memory (just_read t i old k) !! i = Some (filled t old)) as ->.
  { cbn. apply list_lookup_insert_eq. by eapply lookup_lt_Some. }
  cbn [mbind option_bind]. rewrite Hwr. cbn [mbind option_bind]. rewrite Hset.
  cbn [slot_data filled data t lookup list_lookup app]. cbn [mbind option_bind].
  change (0 =? 0) with true. cbv iota. cbn [drop skipn]. rewrite read_length by done.
  cbn [mbind option_bind].
  cbn [currentReceiveCANId set_current slot_id canID sequenceCounter currentDataPointer bytesReceived slot_len].
  change (slot_id (filled t old)) with id.
  destruct (Z.eqb_spec id 0); [done|]. rewrite !Z.eqb_refl. cbn [negb orb].
  change (slot_len (filled t old)) with (Z.of_nat (length (0 :: byteAt len 8 :: byteAt len 0 :: p))).
  assert (drop (Z.to_nat 3) (take (Z.to_nat (Z.of_nat (length (0 :: byteAt len 8 :: byteAt len 0 :: p))))
            (0 :: byteAt len 8 :: byteAt len 0 :: p ++
               drop (length (0 :: byteAt len 8 :: byteAt len 0 :: p)) (slot_data old))) = p) as ->.
  { rewrite Nat2Z.id. cbn [length]. nat_lits. cbn [take firstn drop skipn].
    by rewrite take_app_length. }
  fold m1. pose proof (wf_length _ Hm) as Hl.
  rewrite copy_bytes_spec;
    [|lia|rewrite Hm1, Hl; nat_lits; unfold HEADER_SIZE, MAX_NETWORK_MESSAGE_LENGTH; lia].
  cbn [mbind option_bind]. change (Z.to_nat 0) with 0%nat. rewrite Nat.add_0_r.
  assert (u16 (0 + Z.of_nat (length (0 :: byteAt len 8 :: byteAt len 0 :: p)) - 3) =
          Z.of_nat (length p)) as ->.
  { cbn [length]. rewrite u16_small by zlia. lia. }
  unfold finish. rewrite !Z.add_0_l. done.
Qed.

Lemma assembling_checkSum now id len got c m :
  in_u16 c -> assembling now id len got m -> assembling now id len got (put_checkSum c m).
Proof.
  intros Hc [H1 H2 H3 H4 H5 H6 H7 H8]. split; try (etrans; [|eassumption]; msg_unfold; by msg_simpl).
  - unfold put_checkSum. msg_wf.
  - etrans; [|exact H8]. unfold userDataC, put_checkSum. by msg_simpl.
Qed.

Lemma finish_complete now id len got m n c k :
  assembling now id len got m -> len <= Z.of_nat MAX_NETWORK_MESSAGE_LENGTH -> len <= n ->
  exists m', finish m id n c k = Some (true, m', set_current 0 n n c k) /\
    assembling now id len got m' /\ isCheckSumOk m' = Some true.
Proof.
  intros Ha Hlen Hn. unfold finish. rewrite (as_len _ _ _ _ _ Ha).
  destruct (Z.leb_spec len n); [|lia].
  destruct (setCheckSum_ok m (as_wf _ _ _ _ _ Ha)) as (x & -> & Hx & _ & Hsum).
  { unfold len_ok. by rewrite (as_len _ _ _ _ _ Ha). }
  cbn [mbind option_bind]. eexists. split; [done|]. split; [by apply assembling_checkSum|done].
Qed.

Lemma finish_continue now id len got m n c k :
  assembling now id len got m -> n < len ->
  finish m id n c k = Some (false, m, set_current id n n (u8 (c + 1)) k).
Proof.
  intros Ha Hn. unfold finish. rewrite (as_len _ _ _ _ _ Ha).
  destruct (Z.leb_spec len n); [lia|done].
Qed.

(** ** The loop over the telegrams *)

Definition own (id : Z) (t : telegram) : Prop := canID t = id.
#[global] Instance own_dec id t : Decision (own id t).
Proof. unfold own. apply _. Defined.

Definition small (t : telegram) : Prop := (length (data t) <= 8)%nat.

(** A telegram of another sender is kept. *)
Lemma step_foreign fuel now t queue m k :
  link_wf k -> 0 <= emptyBufferedCANMessagesPos k -> small t ->
  currentReceiveCANId k <> 0 -> canID t <> currentReceiveCANId k ->
  exists k', receive_loop (S fuel) now (t :: queue) m k = receive_loop fuel now queue m k' /\
    link_wf k' /\ kept k' = kept k ++ [Some t] /\
    emptyBufferedCANMessagesPos k' = emptyBufferedCANMessagesPos k - 1 /\
    currentReceiveCANId k' = currentReceiveCANId k /\ currentDataPointer k' = currentDataPointer k /\
    bytesReceived k' = bytesReceived k /\ sequenceCounter k' = sequenceCounter k.
Proof.
  intros Hw Hpos Hs Hcur Hne.
  destruct (receive_spec t queue k Hw Hpos Hs) as (i & old & Hi & Hold & Hbuf & Hlt & Hfree & Hr).
  pose proof (keep_wf t k i old Hw Hpos Hs Hold Hbuf Hlt Hfree) as [Hw' Hk'].
  eexists. split; [|split; [exact Hw'|split; [exact Hk'|done]]].
  cbn [receive_loop]. rewrite Hr. cbn [mbind option_bind memory set_free set_memory].
  rewrite list_lookup_insert_eq by (by eapply lookup_lt_Some). cbn [mbind option_bind].
  cbn [slot_id filled currentReceiveCANId set_free set_memory].
  destruct (Z.eqb_spec (canID t) (currentReceiveCANId k)); [done|].
  destruct (Z.eqb_spec (currentReceiveCANId k) 0); [done|]. done.
Qed.

(** A telegram of the sender, or the first one, is appended. *)
Lemma step_own fuel now t queue m k r :
  link_wf k -> 0 <= emptyBufferedCANMessagesPos k -> small t ->
  canID t = currentReceiveCANId k \/ currentReceiveCANId k = 0 ->
  (forall i old, emptyBufferedCANMessages k !! Z.to_nat (emptyBufferedCANMessagesPos k) = Some i ->
    memory k !! i = Some old ->
    appendCANMsgToCurrentNetMsg now i m (just_read t i old k) = r (given_back t i old k)) ->
  exists k', link_wf k' /\ kept k' = kept k /\
    emptyBufferedCANMessagesPos k' = emptyBufferedCANMessagesPos k /\
    currentReceiveCANId k' = currentReceiveCANId k /\
    receive_loop (S fuel) now (t :: queue) m k =
      ('(done, m, k) ← r k';
       if (done : bool) then Some (true, m, queue, k) else receive_loop fuel now queue m k).
Proof.
  intros Hw Hpos Hs Hcur Happ.
  destruct (receive_spec t queue k Hw Hpos Hs) as (i & old & Hi & Hold & Hbuf & Hlt & Hfree & Hr).
  destruct (give_back_wf t k i old Hw Hs Hold Hbuf) as [Hw' Hk'].
  exists (given_back t i old k). split_and!; [done..|].
  cbn [receive_loop]. rewrite Hr. cbn [mbind option_bind memory set_free set_memory].
  rewrite list_lookup_insert_eq by (by eapply lookup_lt_Some). cbn [mbind option_bind].
  cbn [slot_id filled currentReceiveCANId set_free set_memory].
  assert ((canID t =? currentReceiveCANId k) || (currentReceiveCANId k =? 0) = true) as ->.
  { destruct Hcur as [-> | ->]; [by rewrite Z.eqb_refl|]. by rewrite Z.eqb_refl, orb_true_r. }
  fold (just_read t i old k). by rewrite (Happ i old Hi Hold).
Qed.

(** What [getNetworkMsg] leaves behind when it has put a message together:
    the telegrams of other senders that it passed are buffered in order, those
    of the sender that follow are still in the queue. *)
Inductive reassembled (now id : Z) (l : list Z) (more queue : list telegram) (k : link)
    (r : option (bool * msg * list telegram * link)) : Prop :=
  | Reassembled m' queue' k' passed :
      r = Some (true, m', queue', k') ->
      assembling now id (Z.of_nat (length l)) l m' ->
      isCheckSumOk m' = Some true ->
      link_wf k' ->
      currentReceiveCANId k' = 0 ->
      queue = passed ++ queue' ->
      kept k' = kept k ++ (Some <$> filter (fun t => ~ own id t) passed) ->
      filter (own id) queue' = more ->
      reassembled now id l more queue k r.

Lemma fragments_cons id c x l :
  fragments (length (x :: l)) id c (x :: l) =
  mkTelegram id (c :: take 7 (x :: l)) :: fragments (length (drop 7 (x :: l))) id (u8 (c + 1)) (drop 7 (x :: l)).
Proof.
  cbn [length fragments]. f_equal. apply fragments_fuel; [|done].
  rewrite length_drop. cbn [length]. lia.
Qed.

Lemma loop_spec now id queue fuel got rest c m k more :
  link_wf k -> id <> 0 -> currentReceiveCANId k = id ->
  currentDataPointer k = Z.of_nat (length got) -> bytesReceived k = Z.of_nat (length got) ->
  sequenceCounter k = c -> 1 <= c -> 7 * c <= Z.of_nat (length got) + 2 ->
  rest <> [] -> bytes rest -> (length (got ++ rest) <= MAX_NETWORK_MESSAGE_LENGTH)%nat ->
  assembling now id (Z.of_nat (length (got ++ rest))) got m ->
  filter (own id) queue = fragments (length rest) id c rest ++ more ->
  Forall small queue ->
  Z.of_nat (length (filter (fun t => ~ own id t) queue)) <= emptyBufferedCANMessagesPos k ->
  (length queue <= fuel)%nat ->
  reassembled now id (got ++ rest) more queue k (receive_loop fuel now queue m k).
Proof.
  revert fuel got rest c m k. induction queue as [|t queue IH];
    intros fuel got rest c m k Hw Hid K1 K2 K3 K4 Hc Hcb Hne Hb Hmax Ha Hq Hs Hroom Hfuel.
  { destruct rest as [|x rest]; [done|]. rewrite fragments_cons in Hq. done. }
  destruct fuel as [|fuel]; [cbn in Hfuel; lia|]. cbn [length] in Hfuel.
  apply Forall_cons in Hs as [Hst Hs]. rewrite !filter_cons in *.
  assert (Hpos : 0 <= emptyBufferedCANMessagesPos k) by lia.
  destruct (decide (own id t)) as [Hown|Hown].
  - (* a telegram of the message *)
    rewrite (decide_False (P := ~ own id t)) in Hroom by tauto.
    destruct rest as [|x rest]; [done|]. rewrite fragments_cons in Hq.
    set (l := x :: rest) in *.
    assert (Ht : t = mkTelegram id (c :: take 7 l)) by (by injection Hq).
    assert (Hq' : filter (own id) queue =
      fragments (length (drop 7 l)) id (u8 (c + 1)) (drop 7 l) ++ more) by (by injection Hq).
    clear Hq. rename Hq' into Hq. subst t.
    assert (Hl : length l = (length (take 7 l) + length (drop 7 l))%nat)
      by (rewrite <- length_app, take_drop; done).
    rewrite length_app in Hmax. unfold MAX_NETWORK_MESSAGE_LENGTH in Hmax.
    assert (Hsplice : assembling now id (Z.of_nat (length (got ++ l))) (got ++ take 7 l)
              (splice (HEADER_SIZE + length got) (take 7 l) m)).
    { apply splice_assembling; [done|by apply Forall_take|].
      unfold MAX_NETWORK_MESSAGE_LENGTH. lia. }
    set (m1 := splice _ _ _) in *. set (n := Z.of_nat (length got + length (take 7 l))).
    destruct (step_own fuel now (mkTelegram id (c :: take 7 l)) queue m k (finish m1 id n c))
      as (k' & Hw' & Hk' & Hp' & Hc' & Hstep); try done.
    { by left. }
    { intros i old Hi Hold. apply (append_next now k id got c (take 7 l) i old m (Z.of_nat (length (got ++ l)))); try done.
      - lia. - rewrite length_take. lia. - unfold MAX_NETWORK_MESSAGE_LENGTH. lia. }
    rewrite Hstep. destruct (drop 7 l) as [|y rest'] eqn:Hrest.
    + (* the last one *)
      assert (Htake : take 7 l = l) by (rewrite <- (take_drop 7 l) at 2; by rewrite Hrest, app_nil_r).
      destruct (finish_complete now id (Z.of_nat (length (got ++ l))) (got ++ l) m1 n c k')
        as (m' & -> & Ha' & Hsum).
      { by rewrite Htake in Hsplice. }
      { rewrite length_app. unfold MAX_NETWORK_MESSAGE_LENGTH. lia. }
      { unfold n. rewrite Htake, length_app. lia. }
      cbn [mbind option_bind].
      destruct (set_current_wf 0 n n c k' Hw') as [Hw2 Hk2].
      eapply (Reassembled _ _ _ _ _ _ _ m' queue _ [mkTelegram id (c :: take 7 l)]); try done.
      rewrite Hk2, Hk'. rewrite filter_cons, decide_False by tauto. by rewrite app_nil_r.
    + (* more to come *)
      rewrite (finish_continue now id (Z.of_nat (length (got ++ l))) (got ++ take 7 l))
        by (done || (unfold n; rewrite length_app; cbn [length] in Hl; lia)).
      cbn [mbind option_bind].
      destruct (set_current_wf id n n (u8 (c + 1)) k' Hw') as [Hw2 Hk2].
      assert (H7 : length (take 7 l) = 7%nat).
      { rewrite length_take. assert (length (drop 7 l) = S (length rest')) as Hd by (by rewrite Hrest).
        rewrite length_drop in Hd. lia. }
      assert (Hu8 : u8 (c + 1) = c + 1) by (apply u8_small; cbn [length] in Hl; zlia).
      destruct (IH fuel (got ++ take 7 l) (y :: rest') (u8 (c + 1)) m1
        (set_current id n n (u8 (c + 1)) k')) as [m' q' kl passed R1 R2 R3 R4 R5 R6 R7 R8];
        try done.
      * cbn. unfold n. by rewrite length_app.
      * cbn. unfold n. by rewrite length_app.
      * rewrite Hu8. lia.
      * rewrite Hu8, length_app. lia.
      * rewrite <- Hrest. by apply Forall_drop.
      * rewrite <- Hrest, <- app_assoc, take_drop, length_app. unfold MAX_NETWORK_MESSAGE_LENGTH. lia.
      * rewrite <- Hrest, <- app_assoc, take_drop. done.
      * by cbn [emptyBufferedCANMessagesPos set_current]; rewrite Hp'.
      * lia.
      * rewrite <- Hrest, <- app_assoc, take_drop in R2.
        eapply (Reassembled _ _ _ _ _ _ _ m' q' kl (mkTelegram id (c :: take 7 l) :: passed)); try done.
        -- by rewrite R6.
        -- rewrite filter_cons, decide_False by tauto. rewrite R7, Hk2, Hk'. done.
  - (* a telegram of another sender *)
    rewrite (decide_True (P := ~ own id t)) in Hroom by done. cbn [length] in Hroom.
    destruct (step_foreign fuel now t queue m k) as (k' & Hstep & Hw' & Hk' & Hp' & C1 & C2 & C3 & C4);
      try done; [by rewrite K1|by rewrite K1|].
    rewrite Hstep.
    destruct (IH fuel got rest c m k') as [m' q' kl passed R1 R2 R3 R4 R5 R6 R7 R8];
      try done; try congruence; [lia|lia|].
    eapply (Reassembled _ _ _ _ _ _ _ m' q' kl (t :: passed)); try done.
    + by rewrite R6.
    + rewrite filter_cons, decide_True by done. rewrite R7, Hk', <- app_assoc. done.
Qed.

(** The identifier of a message. *)
Lemma can_id_value m :
  can_id m = 0x1C000000 + 256 * (get_topicId m mod 65536) + get_senderNode m mod 256.
Proof.
  unfold can_id. change (ones CAN_LINK_NODE_BITS) with (Z.ones 8).
  change (ones CAN_LINK_TOPIC_BITS) with (Z.ones 16). rewrite !Z.land_ones by lia.
  change (2 ^ 8) with 256. change (2 ^ 16) with 65536. change CAN_LINK_NODE_BITS with 8.
  change CAN_LINK_ID with 0x1C000000.
  rewrite Z.shiftl_mul_pow2 by lia. change (2 ^ 8) with 256.
  rewrite (u32_small (get_topicId m mod 65536 * 256)) by zlia.
  rewrite (lor_add 24 0x1C000000) by (try reflexivity; change (2 ^ 24) with 16777216; zlia).
  rewrite (lor_add 8) by (change (2 ^ 8) with 256; zlia). zlia.
Qed.

Lemma can_id_fields m :
  can_id m <> 0 /\ Z.land (can_id m) 255 = get_senderNode m mod 256 /\
  Z.land (Z.shiftr (can_id m) 8) 65535 = get_topicId m mod 65536.
Proof.
  rewrite can_id_value. change 255 with (Z.ones 8). change 65535 with (Z.ones 16).
  rewrite Z.shiftr_div_pow2, !Z.land_ones by lia.
  change (2 ^ 8) with 256. change (2 ^ 16) with 65536. split_and!; zlia.
Qed.

Lemma getNetworkMsg_spec now queue m k id l more :
  link_wf k -> currentReceiveCANId k = 0 -> bufferedCANMsgs k = [] -> wf m -> id <> 0 ->
  in_i64 now -> bytes l -> l <> [] -> (length l <= MAX_NETWORK_MESSAGE_LENGTH)%nat ->
  (exists t q, queue = t :: q /\ own id t) ->
  filter (own id) queue = telegrams id l ++ more -> Forall small queue ->
  Z.of_nat (length (filter (fun t => ~ own id t) queue)) <= emptyBufferedCANMessagesPos k ->
  reassembled now id l more queue k (getNetworkMsg now queue m k).
Proof.
  intros Hw Hcur Hbuf Hm Hid Hnow Hb Hne Hmax (t & q & -> & Hown) Hq Hs Hroom.
  unfold getNetworkMsg. rewrite Hcur, Hbuf. change (0 =? 0) with true. cbn [scan_buffer mbind option_bind].
  rewrite !filter_cons in *. rewrite decide_True in Hq by done.
  rewrite (decide_False (P := ~ own id t)) in Hroom by tauto.
  unfold telegrams in Hq. set (len := Z.of_nat (length l)) in *. cbn [app] in Hq.
  set (p := take 5 l) in *.
  assert (Ht : t = mkTelegram id (0 :: byteAt len 8 :: byteAt len 0 :: p)) by (by injection Hq).
  assert (Hq' : filter (own id) q = fragments (length l) id 1 (drop 5 l) ++ more) by (by injection Hq).
  clear Hq. rename Hq' into Hq. subst t. apply Forall_cons in Hs as [Hst Hs].
  unfold MAX_NETWORK_MESSAGE_LENGTH in Hmax.
  assert (Hlen16 : in_u16 len) by zlia.
  pose proof (new_message_assembling now id len m Hm Hlen16 Hnow) as Hnew.
  assert (Hp5 : (length p <= 5)%nat) by (unfold p; rewrite length_take; lia).
  assert (Hlp : length l = (length p + length (drop 5 l))%nat)
    by (unfold p; by rewrite <- length_app, take_drop).
  assert (Ha : assembling now id len p (splice HEADER_SIZE p (new_message now id len m))).
  { pose proof (splice_assembling now id len [] p _ Hnew ltac:(by apply Forall_take)) as H.
    cbn [length app] in H. rewrite Nat.add_0_r in H. apply H. unfold MAX_NETWORK_MESSAGE_LENGTH. lia. }
  cbn [length]. set (n := Z.of_nat (length p)).
  destruct (step_own (length (mkTelegram id (0 :: byteAt len 8 :: byteAt len 0 :: p) :: q)) now
    (mkTelegram id (0 :: byteAt len 8 :: byteAt len 0 :: p)) q m k
    (finish (splice HEADER_SIZE p (new_message now id len m)) id n 0))
    as (k' & Hw' & Hk' & Hp' & Hc' & Hstep); try done; [lia|by right| |].
  { intros i old Hi Hold. apply append_first; try done; [lia|].
    rewrite (wf_length _ (as_wf _ _ _ _ _ Hnew)), (wf_length _ Hm). done. }
  cbn [length] in Hstep. rewrite Hstep. destruct (drop 5 l) as [|y rest] eqn:Hrest.
  - assert (Hpl : p = l) by (unfold p; rewrite <- (take_drop 5 l) at 2; by rewrite Hrest, app_nil_r).
    destruct (finish_complete now id len p _ n 0 k' Ha) as (m' & -> & Ha' & Hsum).
    { unfold len, MAX_NETWORK_MESSAGE_LENGTH. lia. }
    { unfold len, n. by rewrite Hpl. }
    cbn [mbind option_bind]. destruct (set_current_wf 0 n n 0 k' Hw') as [Hw2 Hk2].
    eapply (Reassembled _ _ _ _ _ _ _ m' q _ [_]); try done.
    + by rewrite <- Hpl at 2.
    + rewrite Hk2, Hk'. rewrite filter_cons, decide_False by tauto. by rewrite app_nil_r.
    + rewrite Hq. by destruct (length l).
  - rewrite (finish_continue now id len p) by (done || (unfold n, len; cbn [length] in Hlp; lia)).
    cbn [mbind option_bind]. destruct (set_current_wf id n n (u8 (0 + 1)) k' Hw') as [Hw2 Hk2].
    assert (Hp5' : length p = 5%nat).
    { unfold p. rewrite length_take. assert (length (drop 5 l) = S (length rest)) as Hd by (by rewrite Hrest).
      rewrite length_drop in Hd. lia. }
    assert (Hpr : p ++ y :: rest = l) by (rewrite <- Hrest; apply take_drop).
    destruct (loop_spec now id q (S (length q)) p (y :: rest) 1
      (splice HEADER_SIZE p (new_message now id len m)) (set_current id n n (u8 (0 + 1)) k') more)
      as [m' q' kl passed R1 R2 R3 R4 R5 R6 R7 R8]; try done.
    + rewrite Hp5'. lia.
    + rewrite <- Hrest. by apply Forall_drop.
    + rewrite Hpr. unfold MAX_NETWORK_MESSAGE_LENGTH. lia.
    + by rewrite Hpr.
    + rewrite Hq. f_equal. apply fragments_fuel; [cbn [length] in *; lia|done].
    + by cbn [emptyBufferedCANMessagesPos set_current]; rewrite Hp'.
    + lia.
    + rewrite Hpr in R2. eapply (Reassembled _ _ _ _ _ _ _ m' q' kl (_ :: passed)); try done.
      * by rewrite R6.
      * rewrite filter_cons, decide_False by tauto. rewrite R7, Hk2, Hk'. done.
Qed.

(** ** Properties *)


(** A link as [init] leaves it. *)
Definition sampleLink : link := init (repeat (mkSlot 0 (repeat 0 8) 0) CAN_MSG_BUFFER_SIZE) 0 0 0.

Lemma sampleLink_wf : link_wf sampleLink.
Proof.
  split; try reflexivity.
  - cbn [memory sampleLink init]. apply Forall_forall. intros s Hs.
    apply list_elem_of_In, repeat_spec in Hs. by subst.
  - cbn. unfold CAN_MSG_BUFFER_SIZE. lia.
  - assert (free_elements sampleLink ++ bufferedCANMsgs sampleLink = seq 0 CAN_MSG_BUFFER_SIZE) as ->
      by (vm_compute; reflexivity). apply NoDup_seq.
  - assert (free_elements sampleLink ++ bufferedCANMsgs sampleLink = seq 0 CAN_MSG_BUFFER_SIZE) as ->
      by (vm_compute; reflexivity). apply Forall_seq. lia.
Qed.


(** The length that the first telegram announces is not compared with the
    buffer: data behind 1300 bytes is stored outside the message. *)
Lemma copy_overrun m pos b l :
  wf m -> Z.of_nat MAX_NETWORK_MESSAGE_LENGTH <= pos -> copy_bytes m pos (b :: l) = None.
Proof.
  intros Hm Hpos. cbn [copy_bytes]. unfold wr. rewrite (wf_length _ Hm).
  destruct (Z.leb_spec 0 (Z.of_nat HEADER_SIZE + pos)); [|done].
  destruct (Z.ltb_spec (Z.of_nat HEADER_SIZE + pos) (Z.of_nat (HEADER_SIZE + MAX_NETWORK_MESSAGE_LENGTH)));
    [lia|done].
Qed.

(** A first telegram of one byte brings -2 bytes of data; as an unsigned
    number they complete the message, whatever length the old bytes of the
    element announce. *)
Lemma short_first_telegram :
  let stale := mkLink true (repeat (mkSlot 0 [0; 0; 100; 1; 2; 3; 4; 5] 8) CAN_MSG_BUFFER_SIZE)
                 (seq 0 CAN_MSG_BUFFER_SIZE) 127 [] 0 0 0 0 in
  exists m k, getNetworkMsg 55 [mkTelegram 0x1C00D207 [0]] (repeat 0 1336) stale = Some (true, m, [], k) /\
    get_len m = 100.
Proof.
  intros stale. destruct (getNetworkMsg 55 [mkTelegram 0x1C00D207 [0]] (repeat 0 1336) stale)
    as [[[[[] m] []] k]|] eqn:E; try (vm_compute in E; discriminate).
  exists m, k. split; [done|].
  apply (f_equal (fun r => get_len (default [] ((fun x => x.1.1.2) <$> r)))) in E.
  cbn [fmap option_fmap option_map default fst snd] in E. unfold Datatypes.id in E.
  rewrite <- E. vm_compute. reflexivity.
Qed.

End LinkCan.
