(* ===== verification/S3p.v ===== *)
(** * S3P framing (support/support-libs/s3p-code.h,
    s3p-synchronous-interface.h, s3p-asynchronous-interface.h) and the link
    interface to UART (src/independent/gateway/linkinterfaceuart.cpp)

    Messages in a byte stream are framed by the commands BOM and EOM; the byte
    MARK announces a command and a data byte MARK is sent as the command STUFF.
    The main results: both decoders read back what the encoder wrote, also
    after a message that was cut off; the encoder that is driven by the UART,
    byte for byte, emits the same stream as the synchronous one; and messages
    of the middleware cross a UART unchanged as long as they are not longer
    than the receiver's limit. *)

From S2P Require Import Prelude ByteStream NetworkMessage.

Module S3p.

Definition NEVER_USE : Z := 0xFEFE.
Definition BOM : Z := 0xFE02.
Definition EOM : Z := 0xFE03.
Definition STUFF : Z := 0xFE7E.
Definition STOP : Z := 0xFE13.
Definition CONTINUE : Z := 0xFE11.
Definition SYNC : Z := 0xFE16.
Definition NODATA : Z := 0xFEAA.
Definition COMMAND : Z := 0xFE00.
Definition MARK : Z := 0x00FE.

Definition isMark (c : Z) : bool := Z.land c 0x00ff =? MARK.
Definition isCommand (c : Z) : bool := Z.land c 0xff00 =? COMMAND.
Definition hasMark (c : Z) : bool := isCommand c || isMark c.
Definition isDataByte (c : Z) : bool := Z.land c 0xff00 =? 0.
Definition dataByte (c : Z) : Z := u8 (Z.land c 0x00ff).
Definition msb (c : Z) : Z := u8 (Z.shiftr c 8).
Definition lsb (c : Z) : Z := u8 (Z.land c 0xff).
Definition compose (msb lsb : Z) : Z := u16 (Z.lor (u16 (Z.shiftl msb 8)) lsb).

(** ** Synchronous encoder: the bytes that [putByte] gets *)

Definition putCommand (c : Z) : list Z :=
  if c =? NODATA then [] else [msb c; lsb c].
Definition putDataByte (c : Z) : list Z :=
  if c =? MARK then putCommand STUFF else [c].
Definition sendMsg (s : list Z) : list Z :=
  putCommand BOM ++ concat (map putDataByte s) ++ putCommand EOM.

(** ** Synchronous decoder *)

(** [msg[len++] = c] *)
Definition store (msg : list Z) (len c : Z) : option (list Z * Z) :=
  msg ← wr msg len c; Some (msg, len + 1).

(** The outcome of [getMsg] on the bytes that arrive: a message, or the caller
    still waits for bytes; the commands for [executeCommand] are collected. *)
Inductive result :=
  | Message (len : Z) (msg : list Z) (rest : list Z) (commands : list Z)
  | Waiting (len : Z) (msg : list Z) (commands : list Z).

Fixpoint getMsg_loop (maxLen len : Z) (msg : list Z) (input commands : list Z) : option result :=
  match input with
  | [] => Some (Waiting len msg commands)
  | c :: input =>
      if negb (c =? MARK) && (0 <=? len) && (len <? maxLen) then
        '(msg, len) ← store msg len c; getMsg_loop maxLen len msg input commands
      else if c =? MARK then
        match input with
        | [] => Some (Waiting len msg commands)
        | c :: input =>
            let dualByte := Z.lor COMMAND c in
            if dualByte =? BOM then getMsg_loop maxLen 0 msg input commands
            else if dualByte =? EOM then
              if 0 <=? len then Some (Message len msg input commands)
              else getMsg_loop maxLen len msg input commands
            else if dualByte =? STUFF then
              if (0 <=? len) && (len <? maxLen) then
                '(msg, len) ← store msg len MARK; getMsg_loop maxLen len msg input commands
              else getMsg_loop maxLen len msg input commands
            else getMsg_loop maxLen len msg input (commands ++ [dualByte])
        end
      else getMsg_loop maxLen len msg input commands
  end.
Definition getMsg (maxLen : Z) (msg input : list Z) : option result :=
  getMsg_loop maxLen (-1) msg input [].

(** ** Asynchronous encoder *)

(** [S3pSenderAsynchronous] with the fields of [S3pMsgSenderAsynchronous]:
    [msg] and [len] are the bytes still to be sent. *)
Record sender := mkSender {
  pendingDualByte : Z;
  isABytePending : bool;
  msg : option (list Z)
}.

(** [getDualByte]; [request] is what [requestBufferToRead] returns. *)
Definition getDualByte (request : option (list Z)) (s : sender) : Z * sender :=
  match msg s with
  | None =>
      match request with
      | None => (NODATA, s)
      | Some m => (BOM, mkSender (pendingDualByte s) (isABytePending s) (Some m))
      end
  | Some [] => (EOM, mkSender (pendingDualByte s) (isABytePending s) None)
  | Some (c :: m) => (c, mkSender (pendingDualByte s) (isABytePending s) (Some m))
  end.

(** [getByteOrNODATA], called by the UART for every byte. *)
Definition getByteOrNODATA (request : option (list Z)) (s : sender) : Z * sender :=
  if isABytePending s then
    (lsb (pendingDualByte s), mkSender (pendingDualByte s) false (msg s))
  else
    let '(d, s) := getDualByte request s in
    if d =? NODATA then (NODATA, mkSender d false (msg s))
    else if isCommand d then (msb d, mkSender d true (msg s))
    else if d =? MARK then (msb STUFF, mkSender STUFF true (msg s))
    else (lsb d, mkSender d false (msg s)).

(** The UART takes [n] bytes; the application has the messages [queue] to
    offer, one for each request that is made. *)
Fixpoint transmit (n : nat) (queue : list (list Z)) (s : sender) : list Z * list (list Z) * sender :=
  match n with
  | O => ([], queue, s)
  | S n =>
      let asked := negb (isABytePending s) && bool_decide (msg s = None) in
      let '(b, s) := getByteOrNODATA (if asked then head queue else None) s in
      let queue := if asked then tail queue else queue in
      let '(out, queue, s) := transmit n queue s in
      ((if b =? NODATA then out else b :: out), queue, s)
  end.

(** ** Asynchronous decoder *)

Record receiver := mkReceiver {
  rlen : Z;
  rmsg : option (list Z);
  maxLen : Z;
  rdual : Z;
  delivered : list (list Z);
  executed : list Z
}.

(** [putByte], called by the UART for every byte; [request] is what
    [requestBufferToWrite] returns: the buffer and its length.  The messages
    reported by [endOfMessage] are collected. *)
Definition putByte (request : option (list Z) * Z) (inputByte : Z) (r : receiver)
    : option receiver :=
  let r := match rmsg r with
           | None => mkReceiver (rlen r) request.1 request.2 (rdual r) (delivered r) (executed r)
           | Some _ => r
           end in
  let dualByte := u16 (Z.lor (u16 (Z.shiftl (rdual r) 8)) inputByte) in
  if inputByte =? MARK then
    Some (mkReceiver (rlen r) (rmsg r) (maxLen r) dualByte (delivered r) (executed r))
  else
    let dualByte := if msb dualByte =? 0 then 0 else dualByte in
    let keep (len : Z) (m : option (list Z)) :=
      mkReceiver len m (maxLen r) 0 (delivered r) (executed r) in
    let data (c : Z) :=
      match rmsg r with
      | Some m =>
          if (0 <=? rlen r) && (rlen r <? maxLen r)
          then '(m, len) ← store m (rlen r) c; Some (keep len (Some m))
          else Some (keep (rlen r) (Some m))
      | None => Some (keep (rlen r) None)
      end in
    if dualByte =? 0 then data inputByte
    else if dualByte =? STUFF then data MARK
    else if dualByte =? EOM then
      if 0 <=? rlen r then
        Some (mkReceiver (-1) None (maxLen r) 0
                (delivered r ++ [take (Z.to_nat (rlen r)) (default [] (rmsg r))]) (executed r))
      else Some (keep (rlen r) (rmsg r))
    else if dualByte =? BOM then
      Some (keep (match rmsg r with Some _ => 0 | None => rlen r end) (rmsg r))
    else Some (mkReceiver (rlen r) (rmsg r) (maxLen r) 0 (delivered r) (executed r ++ [dualByte])).

(** ** The link interface to UART *)

(** One round of [putByte] per answer of [uart->write]: positive when the byte
    was taken.  The second component tells that the byte was given up. *)
Fixpoint uart_putByte (maxNumOfRetriesPerWrite errCnt : Z) (answers : list bool)
    : option (bool * list bool) :=
  match answers with
  | [] => None
  | true :: answers => Some (true, answers)
  | false :: answers =>
      let errCnt := u32 (errCnt + 1) in
      if maxNumOfRetriesPerWrite <=? errCnt then Some (false, answers)
      else uart_putByte maxNumOfRetriesPerWrite errCnt answers
  end.

(** The bytes on the line and [errFLag]. *)
Fixpoint uart_send (maxRetries : Z) (l : list Z) (errFLag : bool) (answers : list bool)
    : option (list Z * bool) :=
  match l with
  | [] => Some ([], errFLag)
  | c :: l =>
      '(ok, answers) ← uart_putByte maxRetries 0 answers;
      '(line, e) ← uart_send maxRetries l (errFLag || negb ok) answers;
      Some ((if (ok : bool) then c :: line else line), e)
  end.
Definition sendNetworkMsg (maxRetries : Z) (outgoingMessage : list Z) (answers : list bool)
    : option (bool * list Z) :=
  let outputBufferSize := NetworkMessage.numberOfBytesToSend outgoingMessage in
  '(line, errFLag) ← uart_send maxRetries
     (sendMsg (take (Z.to_nat outputBufferSize) outgoingMessage)) false answers;
  Some (negb errFLag, line).

Definition MAX_UART_MESSAGE_LENGTH : Z := Z.of_nat NetworkMessage.MAX_NETWORK_MESSAGE_LENGTH.
(** [getNetworkMsg] returns the message, the number of its bytes and the bytes
    not yet taken from the UART. *)
Definition getNetworkMsg (inMsg input : list Z) : option result :=
  getMsg MAX_UART_MESSAGE_LENGTH inMsg input.

(** ** The synchronous decoder *)

Lemma putDataByte_cases c :
  (c = MARK /\ putDataByte c = [MARK; 0x7E]) \/ (c <> MARK /\ putDataByte c = [c]).
Proof.
  unfold putDataByte. destruct (Z.eqb_spec c MARK) as [->|Hne]; [left|right]; done.
Qed.

(** The contents of a buffer after [l] was stored from [off] on. *)
Definition stored (off : Z) (l buf : list Z) : list Z :=
  NetworkMessage.splice (Z.to_nat off) l buf.

Lemma stored_nil off buf : stored off [] buf = buf.
Proof. unfold stored, NetworkMessage.splice. cbn. by rewrite Nat.add_0_r, take_drop. Qed.

Lemma stored_cons off c l buf :
  0 <= off -> (Z.to_nat off + S (length l) <= length buf)%nat ->
  stored (off + 1) l (<[Z.to_nat off := c]> buf) = stored off (c :: l) buf.
Proof.
  intros Hoff Hl. unfold stored. apply list_eq. intros i.
  rewrite !NetworkMessage.lookup_splice by (rewrite ?length_insert; cbn [length]; lia).
  replace (Z.to_nat (off + 1)) with (S (Z.to_nat off)) by lia. cbn [length].
  destruct (decide (i = Z.to_nat off)) as [->|Hne].
  - rewrite decide_False, decide_True by lia.
    rewrite list_lookup_insert_eq by lia. by rewrite Nat.sub_diag.
  - rewrite list_lookup_insert_ne by lia.
    destruct (decide (S (Z.to_nat off) <= i < S (Z.to_nat off) + length l)%nat).
    + rewrite decide_True by lia.
      by replace (i - Z.to_nat off)%nat with (S (i - S (Z.to_nat off))) by lia.
    + by rewrite decide_False by lia.
Qed.

(** How much of [l] is kept from index [len] on. *)
Definition fitting (maxLen len : Z) (l : list Z) : list Z := take (Z.to_nat (maxLen - len)) l.

Lemma fitting_cons maxLen len c l :
  len < maxLen -> fitting maxLen len (c :: l) = c :: fitting maxLen (len + 1) l.
Proof.
  intros H. unfold fitting. replace (Z.to_nat (maxLen - len)) with (S (Z.to_nat (maxLen - (len + 1)))) by lia.
  done.
Qed.

Lemma fitting_full maxLen l : fitting maxLen maxLen l = [].
Proof. unfold fitting. by rewrite Z.sub_diag. Qed.

(** Data inside a message. *)
Lemma decode_data maxLen len buf l rest cmds :
  0 <= len <= maxLen -> maxLen <= Z.of_nat (length buf) ->
  getMsg_loop maxLen len buf (concat (map putDataByte l) ++ rest) cmds =
  getMsg_loop maxLen (len + Z.of_nat (length (fitting maxLen len l)))
    (stored len (fitting maxLen len l) buf) rest cmds.
Proof.
  revert len buf. induction l as [|c l IH]; intros len buf Hlen Hbuf.
  { unfold fitting. rewrite take_nil, stored_nil. cbn. by rewrite Z.add_0_r. }
  cbn [map concat]. rewrite <- app_assoc.
  assert (Hone : getMsg_loop maxLen len buf (putDataByte c ++ (concat (map putDataByte l) ++ rest)) cmds =
    if len <? maxLen then
      getMsg_loop maxLen (len + 1) (<[Z.to_nat len := c]> buf) (concat (map putDataByte l) ++ rest) cmds
    else getMsg_loop maxLen len buf (concat (map putDataByte l) ++ rest) cmds).
  { destruct (putDataByte_cases c) as [[-> ->]|[Hne ->]]; cbn [app getMsg_loop].
    - change (MARK =? MARK) with true. cbn [negb andb].
      change (Z.lor COMMAND 0x7E) with STUFF. change (STUFF =? BOM) with false.
      change (STUFF =? EOM) with false. change (STUFF =? STUFF) with true. cbv iota.
      destruct (Z.leb_spec 0 len); [|lia]. cbn [andb].
      destruct (Z.ltb_spec len maxLen); [|done]. unfold store. by rewrite wr_in by lia.
    - destruct (Z.eqb_spec c MARK); [done|]. destruct (Z.leb_spec 0 len); [|lia]. cbn [negb andb].
      destruct (Z.ltb_spec len maxLen); [|done]. unfold store. by rewrite wr_in by lia. }
  rewrite Hone. destruct (Z.ltb_spec len maxLen) as [Hlt|Hge].
  - rewrite IH by (rewrite ?length_insert; lia). rewrite fitting_cons by done. cbn [length].
    rewrite stored_cons.
    + f_equal. lia.
    + lia.
    + unfold fitting. rewrite length_take. lia.
  - rewrite IH by lia. assert (len = maxLen) as -> by lia. by rewrite !fitting_full.
Qed.

(** Noise before the first command. *)
Lemma decode_noise maxLen buf l rest cmds :
  Forall (fun c => c <> MARK) l ->
  getMsg_loop maxLen (-1) buf (l ++ rest) cmds = getMsg_loop maxLen (-1) buf rest cmds.
Proof.
  induction 1 as [|c l Hc Hl IH]; [done|]. cbn [app getMsg_loop].
  destruct (Z.eqb_spec c MARK); [done|]. cbn [negb andb]. apply IH.
Qed.

(** A whole message, whatever the state was. *)
Lemma decode_message maxLen len buf l rest cmds :
  0 <= maxLen <= Z.of_nat (length buf) ->
  getMsg_loop maxLen len buf (sendMsg l ++ rest) cmds =
  Some (Message (Z.of_nat (length (fitting maxLen 0 l))) (stored 0 (fitting maxLen 0 l) buf) rest cmds).
Proof.
  intros Hm. unfold sendMsg. rewrite <- !app_assoc.
  change (putCommand BOM) with [MARK; 0x02]. change (putCommand EOM) with [MARK; 0x03].
  cbn [app getMsg_loop]. change (MARK =? MARK) with true. cbn [negb andb].
  change (Z.lor COMMAND 2) with BOM. change (BOM =? BOM) with true. cbv iota.
  rewrite decode_data by lia. cbn [getMsg_loop app]. change (MARK =? MARK) with true. cbn [negb andb].
  change (Z.lor COMMAND 3) with EOM. change (EOM =? BOM) with false. change (EOM =? EOM) with true.
  cbv iota. rewrite Z.add_0_l. destruct (Z.leb_spec 0 (Z.of_nat (length (fitting maxLen 0 l)))); [done|lia].
Qed.

(** ** The asynchronous encoder *)

Definition sending (l : list Z) : list Z := concat (map putDataByte l) ++ putCommand EOM.

Lemma isCommand_byte c : in_u8 c -> isCommand c = false /\ lsb c = c.
Proof.
  intros Hc. unfold isCommand, lsb. change 0xff00 with (Z.shiftl (Z.ones 8) 8).
  split.
  - apply Z.eqb_neq. intros H.
    assert (Hb : Z.testbit (Z.land c (Z.shiftl (Z.ones 8) 8)) 15 = false).
    { rewrite Z.land_spec. rewrite (testbit_above 8 c 15) by (done || lia). done. }
    rewrite H in Hb. discriminate.
  - rewrite land_255. by rewrite !u8_small by (done || apply u8_range).
Qed.

Lemma transmit_data n queue d c l :
  in_u8 c ->
  transmit (length (putDataByte c) + n) queue (mkSender d false (Some (c :: l))) =
  (let '(out, q, s) := transmit n queue (mkSender (if c =? MARK then STUFF else c) false (Some l)) in
   (putDataByte c ++ out, q, s)).
Proof.
  intros Hc. destruct (isCommand_byte c Hc) as [Hcmd Hlsb].
  assert (Hno : (c =? NODATA) = false) by (apply Z.eqb_neq; unfold NODATA; zlia).
  destruct (putDataByte_cases c) as [[-> Hp]|[Hne Hp]]; rewrite Hp.
  - cbn [length Nat.add transmit]. unfold getByteOrNODATA, getDualByte.
    cbn [isABytePending msg pendingDualByte negb andb].
    rewrite (bool_decide_eq_false_2 (Some (MARK :: l) = None)) by done. cbv iota.
    rewrite Hno, Hcmd. change (MARK =? MARK) with true. cbv iota. cbn [isABytePending msg pendingDualByte negb andb].
    change (msb STUFF =? NODATA) with false. change (lsb STUFF =? NODATA) with false. cbv iota.
    destruct (transmit n queue _) as [[out q] s]. done.
  - cbn [length Nat.add transmit]. unfold getByteOrNODATA, getDualByte.
    cbn [isABytePending msg pendingDualByte negb andb].
    rewrite (bool_decide_eq_false_2 (Some (c :: l) = None)) by done. cbv iota.
    destruct (Z.eqb_spec c MARK); [done|]. rewrite Hno, Hcmd, Hlsb, Hno.
    destruct (transmit n queue _) as [[out q] s]. done.
Qed.

Lemma transmit_end n queue d :
  transmit (2 + n) queue (mkSender d false (Some [])) =
  (let '(out, q, s) := transmit n queue (mkSender EOM false None) in (putCommand EOM ++ out, q, s)).
Proof.
  cbn [Nat.add transmit]. unfold getByteOrNODATA, getDualByte.
  cbn [isABytePending msg pendingDualByte negb andb].
  rewrite (bool_decide_eq_false_2 (Some (@nil Z) = None)) by done. cbv iota.
  change (EOM =? NODATA) with false. change (isCommand EOM) with true. cbv iota.
  cbn [isABytePending msg pendingDualByte negb andb].
  change (msb EOM =? NODATA) with false. change (lsb EOM =? NODATA) with false. cbv iota.
  destruct (transmit n queue _) as [[out q] s]. done.
Qed.

Lemma transmit_begin n queue m d :
  transmit (2 + n) (m :: queue) (mkSender d false None) =
  (let '(out, q, s) := transmit n queue (mkSender BOM false (Some m)) in (putCommand BOM ++ out, q, s)).
Proof.
  cbn [Nat.add transmit]. unfold getByteOrNODATA, getDualByte.
  cbn [isABytePending msg pendingDualByte negb andb].
  rewrite bool_decide_eq_true_2 by done. cbv iota. cbn [head hd_error tail tl].
  change (BOM =? NODATA) with false. change (isCommand BOM) with true. cbv iota.
  cbn [isABytePending msg pendingDualByte negb andb].
  change (msb BOM =? NODATA) with false. change (lsb BOM =? NODATA) with false. cbv iota.
  destruct (transmit n queue _) as [[out q] s]. done.
Qed.

Lemma transmit_sending l n queue d :
  bytes l ->
  transmit (length (sending l) + n) queue (mkSender d false (Some l)) =
  (let '(out, q, s) := transmit n queue (mkSender EOM false None) in (sending l ++ out, q, s)).
Proof.
  intros Hb. revert d. induction Hb as [|c l Hc Hb IH]; intros d; [apply transmit_end|].
  unfold sending. cbn [map concat]. rewrite <- app_assoc. fold (sending l).
  rewrite length_app, <- Nat.add_assoc, transmit_data by done. rewrite IH.
  destruct (transmit n queue _) as [[out q] s]. by rewrite <- app_assoc.
Qed.

Lemma transmit_message m n queue d :
  bytes m ->
  transmit (length (sendMsg m) + n) (m :: queue) (mkSender d false None) =
  (let '(out, q, s) := transmit n queue (mkSender EOM false None) in (sendMsg m ++ out, q, s)).
Proof.
  intros Hb. change (sendMsg m) with (putCommand BOM ++ sending m).
  rewrite length_app, <- Nat.add_assoc. change (length (putCommand BOM)) with 2%nat.
  rewrite transmit_begin, transmit_sending by done.
  destruct (transmit n queue _) as [[out q] s]. by rewrite <- app_assoc.
Qed.

Lemma transmit_idle n d : exists d', transmit n [] (mkSender d false None) = ([], [], mkSender d' false None).
Proof.
  revert d. induction n as [|n IH]; intros d; [by exists d|].
  cbn [transmit]. unfold getByteOrNODATA, getDualByte. cbn [isABytePending msg pendingDualByte negb andb].
  rewrite bool_decide_eq_true_2 by done. cbv iota. cbn [head hd_error tail tl].
  change (NODATA =? NODATA) with true. cbv iota. cbn [msg].
  destruct (IH NODATA) as [d' ->]. by exists d'.
Qed.

(** ** The asynchronous decoder *)

(** Every byte of [input] is put; the application offers the buffer [buf]. *)
Fixpoint put_all (request : option (list Z) * Z) (input : list Z) (r : receiver) : option receiver :=
  match input with
  | [] => Some r
  | c :: input => r ← putByte request c r; put_all request input r
  end.

Definition in_message (len : Z) (m : list Z) (max : Z) (d : list (list Z)) (e : list Z) : receiver :=
  mkReceiver len (Some m) max 0 d e.

Lemma dual_data c : in_u8 c ->
  u16 (Z.lor (u16 (Z.shiftl 0 8)) c) = c /\ msb c = 0.
Proof.
  intros Hc. change (u16 (Z.shiftl 0 8)) with 0. rewrite Z.lor_0_l.
  split; [apply u16_small; zlia|]. unfold msb. rewrite Z.shiftr_div_pow2 by lia.
  change (2 ^ 8) with 256. zlia.
Qed.

(** [putByte] inside a message, case by case. *)
Definition keep_data (c len : Z) (m : list Z) (max : Z) (d : list (list Z)) (e : list Z) : option receiver :=
  if (0 <=? len) && (len <? max)
  then '(m, len) ← store m len c; Some (in_message len m max d e)
  else Some (in_message len m max d e).

Lemma putByte_mark request len m max d e :
  putByte request MARK (in_message len m max d e) = Some (mkReceiver len (Some m) max MARK d e).
Proof. reflexivity. Qed.

Lemma putByte_stuff request len m max d e :
  putByte request 0x7E (mkReceiver len (Some m) max MARK d e) = keep_data MARK len m max d e.
Proof. reflexivity. Qed.

Lemma putByte_eom request len m max d e :
  0 <= len ->
  putByte request 3 (mkReceiver len (Some m) max MARK d e) =
    Some (mkReceiver (-1) None max 0 (d ++ [take (Z.to_nat len) m]) e).
Proof.
  intros Hl.
  change (putByte request 3 (mkReceiver len (Some m) max MARK d e)) with
    (if 0 <=? len then Some (mkReceiver (-1) None max 0 (d ++ [take (Z.to_nat len) m]) e)
     else Some (in_message len m max d e)).
  by destruct (Z.leb_spec 0 len); [|lia].
Qed.

Lemma putByte_plain request c len m max d e :
  in_u8 c -> c <> MARK ->
  putByte request c (in_message len m max d e) = keep_data c len m max d e.
Proof.
  intros Hc Hne. unfold putByte, in_message. cbn [rmsg rdual].
  destruct (Z.eqb_spec c MARK); [done|]. destruct (dual_data c Hc) as [-> ->]. reflexivity.
Qed.

Lemma put_data request c len m max d e :
  in_u8 c -> 0 <= len <= max -> max <= Z.of_nat (length m) ->
  put_all request (putDataByte c) (in_message len m max d e) =
  Some (if len <? max then in_message (len + 1) (<[Z.to_nat len := c]> m) max d e
        else in_message len m max d e).
Proof.
  intros Hc Hlen Hmax.
  assert (Hk : keep_data c len m max d e =
    Some (if len <? max then in_message (len + 1) (<[Z.to_nat len := c]> m) max d e
          else in_message len m max d e)).
  { unfold keep_data. destruct (Z.leb_spec 0 len); [|lia]. cbn [andb].
    destruct (Z.ltb_spec len max); [|done]. unfold store. by rewrite wr_in by lia. }
  destruct (putDataByte_cases c) as [[-> ->]|[Hne ->]]; cbn [put_all].
  - rewrite putByte_mark. cbn [mbind option_bind]. by rewrite putByte_stuff, Hk.
  - by rewrite putByte_plain, Hk.
Qed.

Lemma put_all_app request l1 l2 r :
  put_all request (l1 ++ l2) r = (r ← put_all request l1 r; put_all request l2 r).
Proof.
  revert r. induction l1 as [|c l1 IH]; intros r; [done|]. cbn [app put_all].
  destruct (putByte request c r); [|done]. apply IH.
Qed.

Lemma put_datas request l len m max d e :
  bytes l -> 0 <= len <= max -> max <= Z.of_nat (length m) ->
  put_all request (concat (map putDataByte l)) (in_message len m max d e) =
  Some (in_message (len + Z.of_nat (length (fitting max len l))) (stored len (fitting max len l) m) max d e).
Proof.
  intros Hb. revert len m. induction Hb as [|c l Hc Hb IH]; intros len m Hlen Hmax.
  { unfold fitting. rewrite take_nil, stored_nil. cbn. by rewrite Z.add_0_r. }
  cbn [map concat]. rewrite put_all_app, put_data by done. cbn [mbind option_bind].
  destruct (Z.ltb_spec len max) as [Hlt|Hge].
  - rewrite IH by (rewrite ?length_insert; lia). rewrite fitting_cons by done. cbn [length].
    rewrite stored_cons by (unfold fitting; rewrite ?length_take; lia). do 2 f_equal. lia.
  - rewrite IH by lia. assert (len = max) as -> by lia. by rewrite !fitting_full.
Qed.

(** A decoder between two bytes, outside or inside a message, with a buffer or
    about to ask for one. *)
Record between (max : Z) (buf : list Z) (r : receiver) : Prop := {
  bw_dual : rdual r = 0;
  bw_buf : match rmsg r with Some m => maxLen r = max /\ max <= Z.of_nat (length m) | None => True end;
  bw_max : 0 <= max <= Z.of_nat (length buf)
}.

Lemma put_message max buf l r :
  bytes l -> between max buf r ->
  put_all (Some buf, max) (sendMsg l) r =
    Some (mkReceiver (-1) None max 0 (delivered r ++ [fitting max 0 l]) (executed r)).
Proof.
  intros Hb [Hd Hbuf Hmax]. unfold sendMsg.
  set (m := match rmsg r with Some m => m | None => buf end).
  assert (Hm : max <= Z.of_nat (length m)) by (unfold m; destruct (rmsg r); lia).
  assert (Hbegin : put_all (Some buf, max) (putCommand BOM) r =
                   Some (in_message 0 m max (delivered r) (executed r))).
  { destruct r as [len0 m0 max0 dual0 dl ex]. cbn in Hd, Hbuf. subst dual0.
    unfold m. destruct m0 as [m0|]; [destruct Hbuf as [-> _]|]; reflexivity. }
  rewrite put_all_app, Hbegin. cbn [mbind option_bind].
  rewrite put_all_app, put_datas by (done || lia).
  cbn [mbind option_bind]. change (putCommand EOM) with [MARK; 3]. cbn [put_all].
  rewrite Z.add_0_l, putByte_mark. cbn [mbind option_bind].
  rewrite putByte_eom by lia. cbn [mbind option_bind]. rewrite Nat2Z.id.
  unfold stored. change (Z.to_nat 0) with 0%nat. unfold NetworkMessage.splice.
  by rewrite take_0, app_nil_l, take_app_length.
Qed.

(** ** The UART *)

(** Every byte is accepted before the driver has refused it [maxRetries]
    times. *)
Inductive line_accepts (maxRetries : Z) : nat -> list bool -> Prop :=
  | line_O answers : line_accepts maxRetries 0 answers
  | line_S n k answers : Z.of_nat k < maxRetries -> line_accepts maxRetries n answers ->
      line_accepts maxRetries (S n) (repeat false k ++ true :: answers).

Lemma uart_putByte_accepts max k cnt answers :
  0 <= cnt -> cnt + Z.of_nat k < max -> in_u32 max ->
  uart_putByte max cnt (repeat false k ++ true :: answers) = Some (true, answers).
Proof.
  revert cnt. induction k as [|k IH]; intros cnt Hc Hk Hm; [done|].
  cbn [repeat app uart_putByte]. rewrite u32_small by zlia.
  destruct (Z.leb_spec max (cnt + 1)); [lia|]. apply IH; lia || done.
Qed.

Lemma uart_send_accepts max l e answers :
  in_u32 max -> line_accepts max (length l) answers -> uart_send max l e answers = Some (l, e).
Proof.
  intros Hm. revert e answers. induction l as [|c l IH]; intros e answers Ha; [done|].
  cbn [length] in Ha. inversion Ha as [|n k answers' Hk Ha']; subst. cbn [uart_send].
  rewrite uart_putByte_accepts by (lia || done). cbn [mbind option_bind].
  by rewrite IH, orb_false_r by done.
Qed.

(** ** Properties *)

(** C15: The synchronous decoder reads back every message that the encoder wrote, up
    to the length the caller gives, and leaves what follows in the stream, also when
    other bytes, none of them [MARK], came before, and a message that was cut off
    between two of its data bytes. *)
Theorem s3p_roundtrip (maxLen : Z) (buf noise cut data rest : list Z) :
  0 <= maxLen <= Z.of_nat (length buf) -> Forall (fun c => c <> MARK) noise ->
  Z.of_nat (length data) <= maxLen ->
  exists msg, getMsg maxLen buf (noise ++ sendMsg data ++ rest) =
      Some (Message (Z.of_nat (length data)) msg rest []) /\
    take (length data) msg = data /\ drop (length data) msg = drop (length data) buf /\
  exists msg', getMsg maxLen buf
      (noise ++ putCommand BOM ++ concat (map putDataByte cut) ++ sendMsg data ++ rest) =
      Some (Message (Z.of_nat (length data)) msg' rest []) /\ take (length data) msg' = data.
Proof.
  intros Hm Hn Hd. unfold getMsg. rewrite !decode_noise by done.
  assert (Hfit : fitting maxLen 0 data = data).
  { unfold fitting. apply take_ge. lia. }
  assert (Hst : forall b, maxLen <= Z.of_nat (length b) -> stored 0 data b = data ++ drop (length data) b).
  { intros b Hb. unfold stored, NetworkMessage.splice. done. }
  rewrite decode_message, Hfit by done. eexists. split; [done|].
  rewrite Hst, take_app_length, drop_app_length by lia. split; [done|]. split; [done|].
  exists (stored 0 data (stored 0 (fitting maxLen 0 cut) buf)). split.
  - rewrite decode_noise by done.
    change (putCommand BOM) with [MARK; 0x02]. cbn [app getMsg_loop].
    change (MARK =? MARK) with true. cbn [negb andb]. change (Z.lor COMMAND 2) with BOM.
    change (BOM =? BOM) with true. cbv iota.
    assert (Hlb : length (stored 0 (fitting maxLen 0 cut) buf) = length buf).
    { unfold stored, fitting. apply NetworkMessage.length_splice. rewrite length_take. lia. }
    rewrite decode_data, decode_message, Hfit by (rewrite ?Hlb; lia). done.
  - unfold stored at 1. unfold NetworkMessage.splice.
    change (Z.to_nat 0) with 0%nat. by rewrite take_0, app_nil_l, take_app_length.
Qed.

Lemma s3p_roundtrip_witness :
  exists msg, getMsg 4 [9; 9; 9; 9; 9] ([1; 2] ++ sendMsg [0xFE; 2; 0xFE] ++ [7]) =
    Some (Message 3 msg [7] []) /\ take 3 msg = [0xFE; 2; 0xFE].
Proof.
  destruct (s3p_roundtrip 4 [9; 9; 9; 9; 9] [1; 2] [5; 0xFE] [0xFE; 2; 0xFE] [7])
    as (msg & H1 & H2 & _).
  - by split; vm_compute.
  - repeat (apply Forall_cons; split; [done|]). constructor.
  - by vm_compute.
  - exists msg. by split.
Defined.

(** Driven byte for byte by the UART, the asynchronous encoder emits
    exactly what the synchronous one writes for the messages of the
    application, one after the other, and then nothing until there is a new
    message; and the asynchronous decoder, fed with these bytes, delivers
    exactly these messages and is ready for the next one. *)
Theorem s3p_async_equiv (queue : list (list Z)) (d max : Z) (buf : list Z) (extra : nat)
    (r : receiver) :
  Forall bytes queue -> Forall (fun m => Z.of_nat (length m) <= max) queue -> between max buf r ->
  let stream := concat (map sendMsg queue) in
  exists d' r',
    transmit (length stream + extra) queue (mkSender d false None) = (stream, [], mkSender d' false None) /\
    put_all (Some buf, max) stream r = Some r' /\ between max buf r' /\
    delivered r' = delivered r ++ queue /\ executed r' = executed r.
Proof.
  intros Hb. revert d r. induction Hb as [|m queue Hm Hb IH]; intros d r Hlen Hr stream.
  { cbn. destruct (transmit_idle extra d) as [d' Hd']. exists d', r. by rewrite app_nil_r. }
  apply Forall_cons in Hlen as [Hl Hlen]. cbn [map concat] in stream.
  assert (Hfit : fitting max 0 m = m) by (unfold fitting; apply take_ge; lia).
  pose proof (put_message max buf m r Hm Hr) as Hput. rewrite Hfit in Hput.
  set (r1 := mkReceiver (-1) None max 0 (delivered r ++ [m]) (executed r)) in *.
  assert (Hr1 : between max buf r1) by (split; [done|done|apply Hr]).
  destruct (IH EOM r1 Hlen Hr1) as (d' & r' & Ht & Hp & Hr' & Hdel & Hex).
  exists d', r'. unfold stream. rewrite length_app, <- Nat.add_assoc, transmit_message, Ht by done.
  split; [done|]. rewrite put_all_app, Hput. cbn [mbind option_bind]. split; [done|].
  split; [done|]. rewrite Hdel. cbn. by rewrite <- app_assoc.
Qed.

Lemma s3p_async_equiv_witness :
  let r := mkReceiver (-1) None 0 0 [] [] in
  exists d' r', transmit 20 [[1; 0xFE]; []; [3]] (mkSender 0 false None) =
      (concat (map sendMsg [[1; 0xFE]; []; [3]]), [], mkSender d' false None) /\
    put_all (Some [0; 0; 0], 3) (concat (map sendMsg [[1; 0xFE]; []; [3]])) r = Some r' /\
    delivered r' = [[1; 0xFE]; []; [3]].
Proof.
  intros r.
  destruct (s3p_async_equiv [[1; 0xFE]; []; [3]] 0 3 [0; 0; 0] 4 r) as (d' & r' & H1 & H2 & _ & H3 & _).
  - repeat (apply Forall_cons; split; [solve_bytes|]). constructor.
  - repeat (apply Forall_cons; split; [by vm_compute|]). constructor.
  - split; [done|done|by split; vm_compute].
  - exists d', r'. split; [exact H1|]. split; [exact H2|exact H3].
Defined.

(** A message of the middleware crosses a UART exactly when it fits the
    receiver's limit of 1300 bytes with its header: with at most 1264 bytes of
    user data the receiver gets all its bytes and their number, while a longer
    one arrives cut to 1300 bytes, a number that its header contradicts, so
    that the gateway drops it. *)
Theorem uart_message_limit (maxRetries : Z) (m inMsg : list Z) (answers : list bool) :
  let n := 36 + NetworkMessage.get_len m in
  NetworkMessage.wf m -> NetworkMessage.len_ok m -> NetworkMessage.wf inMsg -> in_u32 maxRetries ->
  line_accepts maxRetries (length (sendMsg (NetworkMessage.wire m))) answers ->
  exists line r, sendNetworkMsg maxRetries m answers = Some (true, line) /\
    (NetworkMessage.get_len m <= 1264 ->
       r = NetworkMessage.wire m ++ drop (length (NetworkMessage.wire m)) inMsg /\
       getNetworkMsg inMsg line = Some (Message n r [] [])) /\
    (1264 < NetworkMessage.get_len m ->
       getNetworkMsg inMsg line = Some (Message 1300 r [] []) /\
       1300 <> n /\ NetworkMessage.get_len r = NetworkMessage.get_len m).
Proof.
  intros n Hm Hok Hin Hmax Ha.
  pose proof (NetworkMessage.length_wire m Hm Hok) as Hl.
  pose proof (NetworkMessage.get_u16_range 14 m) as Hr. fold (NetworkMessage.get_len m) in Hr.
  assert (H36 : Z.of_nat NetworkMessage.HEADER_SIZE = 36) by done. rewrite H36 in Hl. fold n in Hl.
  pose proof (NetworkMessage.wf_length _ Hin) as Hinl.
  assert (HM : MAX_UART_MESSAGE_LENGTH = 1300) by done.
  assert (Hlim : 0 <= MAX_UART_MESSAGE_LENGTH <= Z.of_nat (length inMsg))
    by (rewrite Hinl, HM; by split; vm_compute).
  exists (sendMsg (NetworkMessage.wire m)),
    (stored 0 (fitting 1300 0 (NetworkMessage.wire m)) inMsg).
  unfold sendNetworkMsg. fold (NetworkMessage.wire m). rewrite uart_send_accepts by done.
  split; [done|]. unfold getNetworkMsg, getMsg.
  rewrite <- (app_nil_r (sendMsg (NetworkMessage.wire m))), decode_message, HM by done.
  split; intros Hlen.
  - assert (Hfit : fitting 1300 0 (NetworkMessage.wire m) = NetworkMessage.wire m)
      by (unfold fitting; apply take_ge; lia).
    rewrite Hfit, Hl. done.
  - assert (Hfl : length (fitting 1300 0 (NetworkMessage.wire m)) = 1300%nat)
      by (unfold fitting; rewrite length_take; lia).
    rewrite Hfl. split; [done|]. split; [unfold n; lia|].
    symmetry. apply (@NetworkMessage.get_ext _ _ _ _ NetworkMessage.codec_u16); [apply Hm|rewrite (NetworkMessage.wf_length _ Hm); unfold NetworkMessage.HEADER_SIZE; lia|].
    unfold stored, fitting. change (Z.to_nat 0) with 0%nat. unfold NetworkMessage.splice. rewrite take_0, app_nil_l.
    apply (NetworkMessage.sub_take 1300); [lia|].
    rewrite take_app_le by (fold (fitting 1300 0 (NetworkMessage.wire m)); lia).
    rewrite take_take, <- (NetworkMessage.take_wire m), take_take.
    f_equal. lia.
Qed.

Lemma uart_message_limit_witness :
  let m := repeat 0 1336 in
  exists line r, sendNetworkMsg 1000 m (repeat true 40) = Some (true, line) /\
    getNetworkMsg (repeat 1 1336) line = Some (Message 36 r [] []).
Proof.
  intros m.
  assert (Hwf : forall x, in_u8 x -> NetworkMessage.wf (repeat x 1336)).
  { intros x Hx. split; [apply repeat_length|]. apply Forall_forall. intros y Hy.
    apply list_elem_of_In, repeat_spec in Hy. by subst. }
  assert (Hlen : NetworkMessage.get_len m = 0) by (vm_compute; reflexivity).
  destruct (uart_message_limit 1000 m (repeat 1 1336) (repeat true 40)) as (line & r & H1 & H2 & _).
  - apply Hwf. zlia.
  - unfold NetworkMessage.len_ok. rewrite Hlen. by vm_compute.
  - apply Hwf. zlia.
  - zlia.
  - assert (length (sendMsg (NetworkMessage.wire m)) = 40%nat) as -> by (vm_compute; reflexivity).
    change (repeat true 40) with (Nat.iter 40 (fun l => repeat false 0 ++ true :: l) []).
    generalize 40%nat. intros n. induction n as [|n IH]; [constructor|].
    apply (line_S 1000 n 0); [lia|exact IH].
  - exists line, r. split; [exact H1|].
    destruct H2 as [_ H2]; [rewrite Hlen; lia|]. rewrite H2, Hlen. reflexivity.
Defined.

End S3p.
